(* ===== verification/_CoqProject ===== *)
-Q . S2P
Prelude.v
JsNum.v
JsDate.v
IsoTime.v
Json.v
Store.v
Interleave.v
DualControl.v
Freeze.v
Concurrency.v
LegalHold.v
Retention.v
Privacy.v
Bits.v
IpMatch.v
NetworkPolicy.v
AuthLockout.v
KeyStore.v
Runs.v
RunAcl.v
Regime.v
KeyLifecycle.v
Base32.v
Totp.v
MfaGate.v
Sessions.v
RouteAllowlist.v
Residency.v
BreakGlass.v
Quota.v
AuditLog.v
Guard.v
Idempotency.v
Egress.v
Webhooks.v
Zip.v
Csv.v
Exports.v
Scim.v
Invites.v
SsoPolicy.v
Sso.v
AdminGate.v
Ticker.v
Alerts.v
Watchlist.v
Browser.v
KeyUsage.v
Sla.v
Pool.v
Batch.v
Watches.v
Comments.v
Activity.v
Dpa.v
Siem.v
Digest.v
Usage.v
V1Entry.v
V1Routes.v
AdminKeys.v
Metrics.v
ListViews.v
AdminRoute.v
Governance.v
AdminSettings.v
Console.v
Account.v
LegacyPrivacy.v
Links.v
Reports.v
RunRoutes.v
ListRoutes.v
MfaRoutes.v
WebhookRoutes.v
AuditRoutes.v
AdminIndex.v
EvidencePack.v
V1Privacy.v
ScheduleRoutes.v
