(* ===== verification/Prelude.v ===== *)
(** * SignalClaw web tier: a verification library

    SignalClaw serves trading signals. Its web tier, [src/web], is a Next.js
    application whose own logic lives in [src/web/lib]: the authentication of
    API keys and of people, the guard in front of the [/api/v1] routes, the
    stores of the users (runs, alerts, watchlist) and the governance stores an
    enterprise customer administers. This library models that logic and proves
    what it promises, and with it the routes of [src/web/app/api] through which
    it is administered and used. The pages and the Python service behind them are
    outside.

    ** The program and the files

    Every request passes the edge middleware ([Browser]). A v1 request is
    authenticated ([KeyStore], which asks the lockout of [AuthLockout] before and
    tells it after), passed through [enforceRateLimit] ([Guard]) and then through
    the retry wrapper ([Idempotency]) to its handler; every decision is written
    to the audit log ([AuditLog]) and counted ([KeyUsage]). The guard asks, in
    this order, the freeze switch, the network policy or an active break-glass
    grant, the key's address and route lists, the rotation policy, data
    residency, the monthly quota, the minute limit and the slot counter. Handlers
    of runs ask [RunAcl] whose run it is. [V1Entry] puts the stages of a request
    together, once for reads and once for writes, and [V1Routes] runs the handlers
    of runs, alerts, watchlist and whoami through it. Administrators come through [AdminGate]:
    with an admin key and the second factor ([MfaGate], over [Totp]), or with the
    session of a single sign-on ([Sso], whose sessions [Sessions] registers and
    times out). Destructive actions go through [DualControl]. Deletion, by the
    retention sweep or by the erasure of a workspace, asks the legal holds first.
    Webhooks leave through [Egress]; data leaves as CSV ([Csv], [Exports]) or as
    an archive ([Zip]).

    The administrative routes share a gate and differ in the store they change:
    [AdminRoute] proves once, for any stores and handlers, what the gate promises,
    and [Governance], [AdminSettings] and [LegacyPrivacy] are its instances;
    [AdminKeys], [Console], [WebhookRoutes] and [EvidencePack] put their routes
    behind the gates of their own. A file of routes models each handler as an
    operation on the stores it touches and reuses the theorems of those stores.

<<
    file            models (under src/web/lib, routes under src/web/app/api)
    Prelude         results, strings as JavaScript has them, stable sort,
                    finite-map and list lemmas, tactics, the hint database
    JsNum           numbers: NaN, infinities, finite values; floor, min, max
    JsDate, IsoTime Date: the calendar, toISOString, Date.parse on its output
    Json            JSON values, reading of untrusted fields, persisted states
    Store           a JSON file with a timed in-process cache; transactions
    Interleave      overlapping transactions and promise chains
    Bits            bits and bytes of machine words
    DualControl     dualControlStore.ts
    Freeze          freezeStore.ts
    Concurrency     concurrencyStore.ts
    LegalHold       legalHoldStore.ts, and the interface HoldRegister
    Retention       retentionStore.ts
    Privacy         privacyStore.ts
    IpMatch         ipMatch.ts
    NetworkPolicy   networkPolicyStore.ts, keyIpPolicy.ts
    AuthLockout     authLockoutStore.ts, and the interface Lockout
    KeyStore        keyStore.ts
    KeyLifecycle    rotationPolicy.ts, keyExpiry.ts, keyDormancy.ts
    RouteAllowlist  routeAllowlist.ts
    Residency       residencyStore.ts
    BreakGlass      breakGlassStore.ts
    Quota           rateLimitStore.ts (RateLimit), monthlyQuotaStore.ts (Monthly)
    AuditLog        auditStore.ts
    Guard           v1Guard.ts, and classifyRoute of metricsStore.ts
    Idempotency     idempotencyStore.ts, idempotency.ts
    KeyUsage        keyUsageStore.ts, and the read by administrators
    Egress          egressPolicy.ts
    Webhooks        webhookStore.ts
    Base32, Totp    totpStore.ts: Base32, TOTP, recovery codes, enrolments
    MfaGate         adminMfaGuard.ts and the MFA routes
    SsoPolicy       ssoPolicyStore.ts
    Sso             ssoSession.ts, the sign-in and callback routes
    Sessions        ssoSessionRegistry.ts, sessionTimeoutPolicy.ts
    AdminGate       adminGuard.ts, the gate of the management routes
    Scim            scimStore.ts, scimGuard.ts and the Users routes
    Invites         inviteStore.ts, seats.ts and the redemption
    Runs            runStore.ts
    RunAcl          runAcl.ts and the handlers of runs
    Ticker          the ticker symbols alerts and watchlist share
    Alerts          alertStore.ts
    Watchlist       watchlistStore.ts and the check of the targets
    Browser         corsPolicy.ts, cspPolicyStore.ts, web/middleware.ts
    Sla             slaStore.ts
    Csv, Exports    csv.ts and the CSV exports
    Regime          regimeClassify.ts
    Pool            mapConcurrent of batch.ts, as interleaved lanes
    Batch           batch.ts and the batch route
    Watches         watchStore.ts, its routes and the scheduler
    Comments        commentStore.ts and its routes
    Activity        activityStore.ts and its routes
    Dpa             dpaStore.ts and its route
    Siem            siemSinkStore.ts, the test of a sink
    Digest          digest.ts, digestSubStore.ts, cron and delivery
    Usage           quotaCore.ts, quota.ts, the usage route
    V1Entry         the stages of a v1 request, as wrappers that run once
    V1Routes        dryRunCore.ts, dryRun.ts and, of app/api/v1, the handlers of
                    runs, alerts, watchlist and whoami
    Zip             zipBuilder.ts
    Metrics         metricsStore.ts, the text it is scraped as, the probes
    ListViews       sorting, filters and distances of the lists
    Links           the links to the views of the pages, runsExportParams.ts
    Reports         compare.ts and the exports with a summary
    Account         settingsStore.ts and its route
    AdminRoute      the gate, audit line and feed entry of the admin routes
    AdminKeys       admin/keys: every route that manages a key
    Governance      admin: freeze, holds, break-glass, concurrency, network,
                    rotation, residency, erasure
    AdminSettings   admin: browser policies, lockout, egress, SLA, retention,
                    SIEM, DPA, invitations, seats, SCIM, privacy export
    Console         admin: approvals, sessions, session timeout, sign-on policy
    MfaRoutes       admin/mfa: enrolment, confirmation, recovery codes
    LegacyPrivacy   settings/delete and settings/export
    RunRoutes       runs, with bulk, export, tags and Markdown
    ListRoutes      watchlist and alerts
    WebhookRoutes   webhooks: subscriptions, deliveries, replay, test event
    AuditRoutes     audit: reading, verification, exports; csp-report (Module
                    CspReport)
    AdminIndex      adminIndex.ts, adminOverview.ts
    EvidencePack    evidencePack.ts and the route that serves it
    V1Privacy       v1/privacy: erasure and export by API key
    ScheduleRoutes  watches; digest: subscriptions, deliveries, preview
>>

    Definitions have the names of the source. An operation [f] that reads the
    state, works on its copy and writes it back is a transaction [f_tx] (after
    its validation, [f_body]) and its execution on file and cache, [f].

    ** What the theorems show

    - Approvals: every operation is a step of an abstract protocol in which a
      request only moves forward; an action passes only with an unexpired token
      that a different key approved for this caller, action and target; a token
      is redeemed once by operations that run one after the other.
    - Guard: the handler runs exactly when all gates pass, otherwise the answer
      and the audit line are those of the first gate that refuses; slots, the
      gauge and the observations balance on every path, exceptions included; a
      frozen workspace is not touched; the usage counters are the log of
      requests.
    - Audit: the chain verifies after any appends, rotations, sweeps and
      restarts; equal heads mean equal histories, unless the HMAC collides.
    - Keys: revocation is final for sequential operations, rotation replaces
      exactly the secret, the outcome of authentication is determined branch by
      branch, the admin scope comes from a role only an admin sets; the lockout
      counts exactly the failures within its window, up to its threshold.
    - People: a sign-in needs the browser that began it, within ten minutes, and
      a token under a key of the provider for this client and attempt; a session that was turned away
      stays so; one-time codes are RFC 6238 and accepted once, recovery codes
      end and are accepted once; the management gate admits no one without a
      proven key or a live session, and nothing that changes state without the
      second factor; whoever signed in can read until the session expires,
      is ended or timed out, or gives way to 5000 later ones.
    - Provisioning: user names stay distinct, only the token minted last is
      accepted, an invitation is never redeemed above its cap, and a redemption
      that loses the race revokes the key it minted.
    - Counters and grants: the minute limit, the monthly quota and the slots
      admit exactly their number; a break-glass grant never outlives its hour.
    - Policies: address ranges are parsed, printed, canonicalised and matched as
      intervals of numbers; stored allowlists are enforced; route lists are
      prefix tests; the rotation block starts exactly at the limit; an origin is
      echoed exactly when it is admitted, and a trusted host adds one source to
      the content policy and nothing else.
    - Holds, sweep, erasure: what is held is not deleted; otherwise exactly the
      records older than the policy, or exactly the files of the plan, go.
    - Runs, alerts, watchlist: at the v1 routes of runs, those of other keys are
      invisible to a key without the admin scope (the export and the usage
      report do show them: see the findings); the pages of a
      query are a partition of its matches; the owners of alerts do not see each
      other; an alert rests for its cooldown; a cross is reported once.
    - The v1 surface: a request to the routes of runs, alerts, watchlist and whoami
      changes, besides the books of the stages, only what its handler changes,
      once, and only when every stage let it through;
      a dry run changes nothing at all; an erasure by API key needs the admin scope,
      the word DELETE and no hold in its way.
    - Pages of the app: comments are bounded per run and per address; a batch
      gives every item its own result whatever the order of the lanes; the
      scheduler leaves no watch due; a digest accounts for its window; the
      classifier's label agrees with its features for any rounding.
    - Registers: the agreement ledger implements a stack of acceptances; the
      mirror of the audit log posts an event exactly when the sink is complete.
    - Retries and webhooks: a retry of a request that succeeded, sent after its
      answer and within a day, replays it without running the handler; any other
      runs; a delivery goes only to an address the egress policy lets
      through, within its attempts, signed so that both secrets verify during a
      rotation.
    - Formats: CSV exports parse back and cannot be read as formulas; the ZIP
      writer is inverted by a reader and its CRC is the bit-serial one; Base32
      is inverted by its decoder.
    - Administration: in production no key, hold, policy, approval or subscription
      changes but by a caller the gate proved, and a refusal changes nothing; an
      approval that is redeemed was asked for by one key, at the console or by the
      route of the action, and granted at the console with another; a held scope stays as it is, whatever calls follow that do
      not release the hold; a confirmed second factor is changed only with a code
      of it or by enrolling anew; a webhook signs only with secrets, the current
      and the one before, that were told to an authenticated caller.
    - Evidence: every reading of the audit log is itself on the log, and its
      exports parse back to chains and rows of it; what browsers report is bounded
      and leaves the chain sound; six rows of the control
      inventory say what the guard does; the evidence pack unpacks to files that
      match their manifest, whose text depends on the data alone, and every
      download is on record with the hash of the bytes sent.
    - Views and reports: a sorted list is a permutation in the order asked for;
      links and exports parse back to the view or rows they were made of; two
      runs are compared exactly when both exist and differ; a metrics scrape has
      the counts and histograms of the requests there were; a change of the
      settings touches what its body names.
    - Where overlapping calls break a promise (one token redeemed twice, an
      authentication undoing a revocation, an event lost to a rotation, one
      retry key running twice, one seat taken twice) the schedule is exhibited
      and proved; and where one failure ends a chain of writes for good.

    ** How JavaScript is represented

    - Strings are sequences of 8-bit characters. The code compares, slices and
      tests them with ASCII patterns; [length] counts the same units as long as
      the text is ASCII. Time stamps the code writes itself are kept as
      milliseconds; [IsoTime] proves that printing is injective, monotone and
      inverted by parsing in the years 0 to 9999, and theorems that need it ask
      for that range. Stamps read from files or from callers may be any string.
    - Counters and times are unbounded integers: the code keeps them far below
      2^53. Numbers that arrive unchecked are [JsNum.num], NaN included.
      Addresses are [bigint] in the source, hence [Z]. Rounded arithmetic on
      prices is the interface [JsNum.FloatOps]. 32-bit words (CRC, TOTP, ZIP
      fields) are [Z] with their masks written out.
    - Objects used as maps are [gmap] or association lists where the order is
      used. The lockout lists addresses in insertion order; an engine would put
      integer-like names first, which no dotted or colon address is.
    - [Array.prototype.sort] is stable, but several comparators never answer 0:
      [js_sort] is insertion by the comparator as the code gives it.
    - Regular expressions are the recognisers of their languages.
    - Successive readings of the clock in one operation are the values of one
      function [clk]: [clk 0], [clk 1] in program order. Nothing is assumed about
      them unless a theorem says so. Random ids and secrets are arguments.
    - Exceptions and the [ok: false] results are [Err]; message texts and
      informational fields of error bodies are left out.
    - A file is its value: [JSON.parse] of what [JSON.stringify] wrote is the
      value written, and a missing or unparsable file reads as the default where
      the code says so. That a disk write fails is modelled in [Sla] alone, where
      it matters to what follows.
    - Code outside the repository, and what the language leaves to the host, is a
      parameter: SHA-256 and the MACs, base64url, the URL parser, DNS, the
      handler, the network, [JSON.parse] of request bodies, [Number] and
      [String] of a value, the order of [localeCompare]. What is used of it is a
      hypothesis of the theorem that uses it; its witness instantiates it.

    ** Bounds

    Recursion is structural on lists, strings or counts that the code bounds
    itself. Fuel stands where a loop is bounded otherwise: the months of a year,
    the digits of a 16-bit group, the trailing slashes of a path (its length),
    and the draws of recovery codes, of which every number that contains ten
    different ones is proved to be enough. The limits of the code are
    constants of the model with the same names: 50 000 audit lines rotated to
    25 000, 2000 idempotency records kept 24 hours, 50 past grants, 64 address
    ranges, 32 routes and content sources, 200 alerts and 1000 fires of an
    owner, 35 days of usage, 200 past commitments, cache lifetimes, attempts of a
    delivery.

    ** Not modelled

    Network I/O and what only presents: the React pages, charts and page
    metadata, the layout of a run as PDF, the OpenAPI document and the fetch
    wrappers of [api.ts], the sample data of a new workspace, the routes that
    forward a request to the Python service, and that service itself. Of routes
    that only read one store (most GET handlers outside the files above) nothing
    is stated beyond the theorems of the store. Messages and informational fields
    of answers are left out throughout. *)
From stdpp Require Export base gmap sets list strings option pretty sorting.
From Stdlib Require Export ZArith Lia.
From Stdlib Require Ascii.
Export Stdlib.Strings.Ascii.AsciiSyntax.
Delimit Scope char_scope with char.
#[export] Set Default Proof Using "Type".
#[export] Set Warnings "-clear-no-such-hyp,-level-tolerance".
Open Scope Z_scope.

(** * Results

    A function that either returns a value or reports a failure: the
    [{ ok: true, ... } | { ok: false, code, message }] unions of the stores,
    and [throw new Error(code)], are both [Err code]. *)

Inductive result (A E : Type) : Type :=
| Ok (a : A)
| Err (e : E).
Arguments Ok {A E} a.
Arguments Err {A E} e.

Declare Scope js_scope.
Delimit Scope js_scope with js.

Definition is_ok {A E} (r : result A E) : bool :=
  match r with Ok _ => true | Err _ => false end.

Definition result_bind {A B E} (r : result A E) (k : A -> result B E) : result B E :=
  match r with Ok a => k a | Err e => Err e end.

Notation "'let!' x ':=' r 'in' k" := (result_bind r (fun x => k))
  (at level 10, x pattern, r at level 100, k at level 200) : js_scope.

Definition Ok_inj_pf {A E} (a b : A) (H : @Ok A E a = Ok b) : a = b :=
  match H in (_ = y) return (match y with Ok z => a = z | Err _ => True end) with eq_refl => eq_refl end.

(** * Tactics shared by the development *)

(** Evaluate a guard of the model: split on the first [match]/[if] of the goal
    or of a hypothesis, close the impossible branches. *)
Ltac split_match :=
  match goal with
  | H : context [match ?x with _ => _ end] |- _ =>
      lazymatch type of H with _ = _ => destruct x eqn:? | _ /\ _ => destruct x eqn:? end
  | |- context [match ?x with _ => _ end] => destruct x eqn:?
  end; simplify_eq/=.

Ltac split_matches := repeat split_match.

(** Boolean guards of the code to propositions. *)
Ltac bool_to_prop :=
  repeat match goal with
  | H : (_ && _)%bool = true |- _ => apply andb_prop in H as [? ?]
  | H : (_ || _)%bool = false |- _ => apply orb_false_elim in H as [? ?]
  | H : (_ || _)%bool = true |- _ => apply orb_true_iff in H
  | H : (_ && _)%bool = false |- _ => apply andb_false_iff in H
  | H : negb _ = true |- _ => apply negb_true_iff in H
  | H : negb _ = false |- _ => apply negb_false_iff in H
  | H : (_ <? _) = true |- _ => apply Z.ltb_lt in H
  | H : (_ <? _) = false |- _ => apply Z.ltb_ge in H
  | H : (_ <=? _) = true |- _ => apply Z.leb_le in H
  | H : (_ <=? _) = false |- _ => apply Z.leb_gt in H
  | H : (_ >? _) = true |- _ => rewrite Z.gtb_ltb in H; apply Z.ltb_lt in H
  | H : (_ >? _) = false |- _ => rewrite Z.gtb_ltb in H; apply Z.ltb_ge in H
  | H : (_ >=? _) = true |- _ => rewrite Z.geb_leb in H; apply Z.leb_le in H
  | H : (_ >=? _) = false |- _ => rewrite Z.geb_leb in H; apply Z.leb_gt in H
  | H : (_ =? _) = true |- _ => apply Z.eqb_eq in H
  | H : (_ =? _) = false |- _ => apply Z.eqb_neq in H
  | H : bool_decide _ = true |- _ => apply bool_decide_eq_true in H
  | H : bool_decide _ = false |- _ => apply bool_decide_eq_false in H
  | H : String.eqb _ _ = true |- _ => apply String.eqb_eq in H
  | H : String.eqb _ _ = false |- _ => apply String.eqb_neq in H
  end.

(** [E : f x = (Err e, st)] at a concrete input where [f x] is [Ok]. *)
Ltac not_an_error E :=
  exfalso; apply (f_equal (fun p => is_ok (fst p))) in E; vm_compute in E; discriminate E.

Create HintDb claw discriminated.

(** * Strings

    A JavaScript string is represented by the [string] of its code units; the
    model is exact on strings whose code units are below 256. *)

Definition str_len (s : string) : Z := Z.of_nat (String.length s).

(** A non-empty string is truthy. *)
Definition truthy (s : string) : bool := negb (String.eqb s "").

Definition code (c : Ascii.ascii) : Z := Z.of_N (Ascii.N_of_ascii c).
Definition chr (n : Z) : Ascii.ascii := Ascii.ascii_of_N (Z.to_N n).

(** White space removed by [String.prototype.trim]: TAB, LF, VT, FF, CR, SP, NBSP. *)
Definition is_space (c : Ascii.ascii) : bool :=
  let n := code c in ((9 <=? n) && (n <=? 13)) || (n =? 32) || (n =? 160).

Fixpoint trim_start (s : string) : string :=
  match s with
  | "" => ""
  | String c r => if is_space c then trim_start r else s
  end.

Fixpoint trim_end (s : string) : string :=
  match s with
  | "" => ""
  | String c r =>
      let r' := trim_end r in
      if is_space c && String.eqb r' "" then "" else String c r'
  end.

Definition trim (s : string) : string := trim_end (trim_start s).

(** [s.slice(0, n)] and [s.slice(n)] for a non-negative [n]. *)
Fixpoint str_take (n : nat) (s : string) : string :=
  match n, s with
  | S n', String c r => String c (str_take n' r)
  | _, _ => ""
  end.

Fixpoint str_drop (n : nat) (s : string) : string :=
  match n, s with
  | S n', String _ r => str_drop n' r
  | _, _ => s
  end.

Fixpoint str_map (f : Ascii.ascii -> Ascii.ascii) (s : string) : string :=
  match s with "" => "" | String c r => String (f c) (str_map f r) end.

Fixpoint str_forall (p : Ascii.ascii -> bool) (s : string) : bool :=
  match s with "" => true | String c r => p c && str_forall p r end.

(** Deleting the characters outside a class: [s.replace] with a negated class. *)
Fixpoint keep_chars (p : Ascii.ascii -> bool) (s : string) : string :=
  match s with "" => "" | String c r => if p c then String c (keep_chars p r) else keep_chars p r end.

Definition upper_ascii (c : Ascii.ascii) : Ascii.ascii :=
  let n := code c in if (97 <=? n) && (n <=? 122) then chr (n - 32) else c.
Definition lower_ascii (c : Ascii.ascii) : Ascii.ascii :=
  let n := code c in if (65 <=? n) && (n <=? 90) then chr (n + 32) else c.

(** [toUpperCase] / [toLowerCase], on the ASCII letters. *)
Definition to_upper (s : string) : string := str_map upper_ascii s.
Definition to_lower (s : string) : string := str_map lower_ascii s.

Definition starts_with (p s : string) : bool := String.prefix p s.

Fixpoint ends_with_char (c : Ascii.ascii) (s : string) : bool :=
  match s with
  | "" => false
  | String d "" => Ascii.eqb c d
  | String _ r => ends_with_char c r
  end.

(** [s.slice(0, -1)]. *)
Fixpoint drop_last (s : string) : string :=
  match s with
  | "" => ""
  | String d "" => ""
  | String d r => String d (drop_last r)
  end.

(** [s.replace(/c+$/, "")]. *)
Fixpoint drop_trailing (c : Ascii.ascii) (s : string) : string :=
  match s with
  | "" => ""
  | String d r => let r' := drop_trailing c r in if Ascii.eqb c d && String.eqb r' "" then "" else String d r'
  end.

(** The longest prefix of characters in the class, and what follows it. *)
Fixpoint str_span (p : Ascii.ascii -> bool) (s : string) : string * string :=
  match s with
  | "" => ("", "")
  | String c r => if p c then let '(a, b) := str_span p r in (String c a, b) else ("", s)
  end.

(** [s.includes(sub)]. *)
Fixpoint str_includes (sub s : string) : bool :=
  String.prefix sub s ||
  match s with "" => false | String _ r => str_includes sub r end.

(** [s.indexOf(c)]; [None] is -1. *)
Fixpoint str_index (c : Ascii.ascii) (s : string) : option nat :=
  match s with
  | "" => None
  | String d r => if Ascii.eqb c d then Some 0%nat else S <$> str_index c r
  end.

(** [s.lastIndexOf(c)]; [None] is -1. *)
Fixpoint str_last_index (c : Ascii.ascii) (s : string) : option nat :=
  match s with
  | "" => None
  | String d r =>
      match str_last_index c r with
      | Some n => Some (S n)
      | None => if Ascii.eqb c d then Some 0%nat else None
      end
  end.

(** [s.split(sep)] for a non-empty [sep]: [skip] counts the characters of a
    separator still to be dropped, [cur] is the piece being read. *)
Fixpoint split_go (sep : string) (skip : nat) (cur s : string) : list string :=
  match s with
  | "" => [cur]
  | String c r =>
      match skip with
      | S k => split_go sep k cur r
      | O =>
          if String.prefix sep s
          then cur :: split_go sep (Nat.pred (String.length sep)) "" r
          else split_go sep 0 (cur +:+ String c "") r
      end
  end.
Definition split (sep s : string) : list string := split_go sep 0 "" s.

(** [parts.join(sep)]. *)
Fixpoint join (sep : string) (l : list string) : string :=
  match l with
  | [] => ""
  | [x] => x
  | x :: r => x +:+ sep +:+ join sep r
  end.

Lemma code_range c : 0 <= code c < 256.
Proof. unfold code. pose proof (Ascii.N_ascii_bounded c). lia. Qed.

Lemma chr_code c : chr (code c) = c.
Proof. unfold chr, code. rewrite N2Z.id. apply Ascii.ascii_N_embedding. Qed.

Lemma code_chr n : 0 <= n < 256 -> code (chr n) = n.
Proof. intros. unfold chr, code. rewrite Ascii.N_ascii_embedding; lia. Qed.

Lemma code_inj c d : code c = code d -> c = d.
Proof. intros H. by rewrite <- (chr_code c), H, chr_code. Qed.

Lemma truthy_spec s : truthy s = true <-> s <> "".
Proof. unfold truthy. rewrite negb_true_iff. apply String.eqb_neq. Qed.

Lemma truthy_false s : truthy s = false <-> s = "".
Proof. unfold truthy. rewrite negb_false_iff. apply String.eqb_eq. Qed.

Lemma str_app_assoc (a b c : string) : (a +:+ b) +:+ c = a +:+ (b +:+ c).
Proof. induction a; [done|]. cbn [String.append]. unfold String.append in *. simpl. by rewrite IHa. Qed.

Lemma str_app_nil (a : string) : a +:+ "" = a.
Proof. induction a as [|c a IH]; [done|]. unfold String.append in *. simpl. by rewrite IH. Qed.

Lemma str_length_app (a b : string) : String.length (a +:+ b) = (String.length a + String.length b)%nat.
Proof. induction a as [|c a IH]; [done|]. unfold String.append in *. simpl. by rewrite IH. Qed.

Lemma str_take_length n s : (String.length (str_take n s) <= n)%nat.
Proof. revert s; induction n as [|n IH]; intros [|c s]; simpl; try lia. specialize (IH s). lia. Qed.

Lemma str_take_all n s : (String.length s <= n)%nat -> str_take n s = s.
Proof.
  revert s; induction n as [|n IH]; intros [|c s]; simpl; intros; try done; try lia.
  rewrite IH; [done|lia].
Qed.

Lemma trim_end_no_trailing s : trim_end (trim_end s) = trim_end s.
Proof.
  induction s as [|c s IH]; [done|]. simpl.
  destruct (is_space c && String.eqb (trim_end s) "")%bool eqn:E; [done|].
  simpl. rewrite IH. by rewrite E.
Qed.

Lemma trim_start_head c s : is_space c = false -> trim_start (String c s) = String c s.
Proof. intros H. simpl. by rewrite H. Qed.

Lemma trim_start_shape s :
  trim_start s = "" \/ exists c r, trim_start s = String c r /\ is_space c = false.
Proof.
  induction s as [|c s IH]; [by left|]. simpl.
  destruct (is_space c) eqn:E; [exact IH|]. right. by exists c, s.
Qed.

Lemma trim_idempotent s : trim (trim s) = trim s.
Proof.
  unfold trim. destruct (trim_start_shape s) as [->|(c & r & -> & Hc)]; [done|].
  simpl. rewrite Hc; simpl. rewrite Hc; simpl. rewrite Hc; simpl.
  by rewrite trim_end_no_trailing.
Qed.

Lemma prefix_nil s : String.prefix "" s = true.
Proof. by destruct s. Qed.

Lemma prefix_cons c p d s :
  String.prefix (String c p) (String d s) = Ascii.eqb c d && String.prefix p s.
Proof.
  simpl. destruct (Ascii.ascii_dec c d) as [->|Hn]; [by rewrite Ascii.eqb_refl|].
  by apply Ascii.eqb_neq in Hn as ->.
Qed.

Lemma str_cons_app c a b : String c a +:+ b = String c (a +:+ b).
Proof. done. Qed.

Lemma prefix_spec p s : String.prefix p s = true <-> exists r, s = p +:+ r.
Proof.
  revert s; induction p as [|c p IH]; intros s.
  - rewrite prefix_nil. split; [intros _; by exists s|done].
  - destruct s as [|d s]; [split; [done|intros [r Hr]; discriminate Hr]|].
    rewrite prefix_cons, andb_true_iff, IH, Ascii.eqb_eq. split.
    + intros [-> [r ->]]. by exists r.
    + intros [r Hr]. injection Hr as -> ->. split; [done|by exists r].
Qed.

Lemma str_includes_spec sub s :
  str_includes sub s = true <-> exists a b, s = a +:+ sub +:+ b.
Proof.
  induction s as [|c s IH]; cbn [str_includes]; rewrite orb_true_iff, prefix_spec.
  - split; [intros [[r Hr]|]; [|done]; by exists "", r|].
    intros (a & b & H). left. destruct a; [by exists b|discriminate H].
  - rewrite IH. split.
    + intros [[r Hr]|(a & b & ->)]; [by exists "", r|]. by exists (String c a), b.
    + intros (a & b & H). destruct a as [|d a]; [left; by exists b|].
      right. injection H as -> ->. by exists a, b.
Qed.

Lemma str_forall_app p a b : str_forall p (a +:+ b) = str_forall p a && str_forall p b.
Proof.
  induction a as [|c a IH]; [done|]. unfold String.append in *. simpl.
  by rewrite IH, andb_assoc.
Qed.

(** [split] undoes [join] when no piece contains the (one-character) separator. *)
Definition no_char (c : Ascii.ascii) (s : string) : bool := str_forall (fun d => negb (Ascii.eqb c d)) s.

Lemma prefix_one c d s : String.prefix (String c "") (String d s) = Ascii.eqb c d.
Proof. by rewrite prefix_cons, prefix_nil, andb_true_r. Qed.

Lemma split_go_plain c cur s :
  no_char c s = true -> split_go (String c "") 0 cur s = [cur +:+ s].
Proof.
  revert cur; induction s as [|d s IH]; intros cur H; cbn [split_go].
  - by rewrite str_app_nil.
  - simpl in H. apply andb_prop in H as [Hd Hs]. apply negb_true_iff in Hd.
    rewrite prefix_one, Hd, IH by done. by rewrite str_app_assoc.
Qed.

Lemma split_go_sep c cur a b :
  no_char c a = true ->
  split_go (String c "") 0 cur (a +:+ String c b) = (cur +:+ a) :: split_go (String c "") 0 "" b.
Proof.
  revert cur; induction a as [|d a IH]; intros cur H.
  - rewrite str_app_nil. change ("" +:+ String c b) with (String c b).
    cbn [split_go]. by rewrite prefix_one, Ascii.eqb_refl.
  - simpl in H. apply andb_prop in H as [Hd Ha]. apply negb_true_iff in Hd.
    change (String d a +:+ String c b) with (String d (a +:+ String c b)).
    cbn [split_go]. rewrite prefix_one, Hd, IH by done. by rewrite str_app_assoc.
Qed.

Lemma split_join c l :
  l <> [] -> Forall (fun s => no_char c s = true) l ->
  split (String c "") (join (String c "") l) = l.
Proof.
  unfold split. induction l as [|x l IH]; [done|]. intros _ H.
  inversion H as [|? ? Hx Hl]; subst. destruct l as [|y l].
  - simpl. by rewrite split_go_plain.
  - change (join (String c "") (x :: y :: l)) with (x +:+ String c (join (String c "") (y :: l))).
    rewrite split_go_sep by done. by rewrite IH.
Qed.

Lemma keep_chars_app p a b : keep_chars p (a +:+ b) = keep_chars p a +:+ keep_chars p b.
Proof. induction a as [|c a IH]; [done|]. rewrite str_cons_app. cbn [keep_chars]. rewrite IH. by destruct (p c). Qed.

Lemma keep_chars_forall p s : str_forall p (keep_chars p s) = true.
Proof. induction s as [|c s IH]; [done|]. cbn [keep_chars]. destruct (p c) eqn:E; [cbn [str_forall]; by rewrite E|done]. Qed.

Lemma keep_chars_id p s : str_forall p s = true -> keep_chars p s = s.
Proof. induction s as [|c s IH]; [done|]. cbn [str_forall keep_chars]. intros [-> Hs]%andb_prop. by rewrite IH. Qed.

Lemma str_forall_impl (p q : Ascii.ascii -> bool) s :
  (forall c, p c = true -> q c = true) -> str_forall p s = true -> str_forall q s = true.
Proof. intros Hpq. induction s as [|c s IH]; [done|]. simpl. intros [Hc Hs]%andb_prop. by rewrite Hpq, IH. Qed.

Lemma str_forall_drop p n s : str_forall p s = true -> str_forall p (str_drop n s) = true.
Proof.
  revert s; induction n as [|n IH]; intros [|c s]; simpl; try done. intros [_ Hs]%andb_prop. by apply IH.
Qed.

Lemma str_forall_take p n s : str_forall p s = true -> str_forall p (str_take n s) = true.
Proof. revert n; induction s as [|c s IH]; intros [|n]; simpl; [done..|]. intros [-> H]%andb_prop. simpl. by apply IH. Qed.

Lemma str_forall_trim p s : str_forall p s = true -> str_forall p (trim s) = true.
Proof.
  intros H. unfold trim. assert (str_forall p (trim_start s) = true) as Hs.
  { induction s as [|c s IH]; [done|]. cbn [trim_start]. destruct (is_space c); [|done]. apply IH. by apply andb_prop in H as [_ H]. }
  revert Hs. generalize (trim_start s) as t. induction t as [|c t IH]; [done|]. cbn [trim_end str_forall]. intros [Hc Ht]%andb_prop.
  specialize (IH Ht). cbv zeta. destruct (is_space c && _); [done|]. cbn [str_forall]. by rewrite Hc.
Qed.

Lemma str_forall_join p sep l :
  str_forall p sep = true -> Forall (fun s => str_forall p s = true) l -> str_forall p (join sep l) = true.
Proof.
  intros Hsep. induction 1 as [|x l Hx Hl IH]; [done|]. destruct l as [|y l]; [done|].
  change (join sep (x :: y :: l)) with (x +:+ sep +:+ join sep (y :: l)). by rewrite !str_forall_app, Hx, Hsep.
Qed.

Lemma trim_no_space s : str_forall (fun c => negb (is_space c)) s = true -> trim s = s.
Proof.
  assert (He : forall s, str_forall (fun c => negb (is_space c)) s = true -> trim_end s = s).
  { clear. induction s as [|c s IH]; [done|]. simpl. intros [Hc Hs]%andb_prop. apply negb_true_iff in Hc.
    by rewrite IH, Hc. }
  intros Hs. unfold trim. assert (trim_start s = s) as ->; [|by apply He].
  destruct s as [|c s]; [done|]. simpl in *. apply andb_prop in Hs as [Hc _]. apply negb_true_iff in Hc. by rewrite Hc.
Qed.

Lemma str_index_none c s : no_char c s = true -> str_index c s = None.
Proof.
  induction s as [|d s IH]; [done|]. simpl. intros [Hd Hs]%andb_prop. apply negb_true_iff in Hd.
  by rewrite Hd, IH.
Qed.

Lemma str_index_app c a b : no_char c a = true -> str_index c (a +:+ String c b) = Some (String.length a).
Proof.
  induction a as [|d a IH]; [simpl; by rewrite Ascii.eqb_refl|]. rewrite str_cons_app. simpl.
  intros [Hd Ha]%andb_prop. apply negb_true_iff in Hd. by rewrite Hd, IH.
Qed.

Lemma str_take_app a b : str_take (String.length a) (a +:+ b) = a.
Proof. induction a as [|c a IH]; [by destruct b|]. rewrite str_cons_app. simpl. by rewrite IH. Qed.

Lemma str_drop_app a c b : str_drop (S (String.length a)) (a +:+ String c b) = b.
Proof. induction a as [|d a IH]; [done|]. rewrite str_cons_app. exact IH. Qed.

Lemma str_includes_char c s : str_includes (String c "") s = negb (no_char c s).
Proof.
  induction s as [|d s IH]; [done|]. cbn [str_includes]. rewrite prefix_one, IH.
  change (no_char c (String d s)) with (negb (Ascii.eqb c d) && no_char c s).
  by destruct (Ascii.eqb c d), (no_char c s).
Qed.

Lemma str_last_index_some c a b : is_Some (str_last_index c (a +:+ String c b)).
Proof.
  induction a as [|d a IH].
  - simpl. destruct (str_last_index c b); [done|]. rewrite Ascii.eqb_refl. done.
  - rewrite str_cons_app. simpl. destruct IH as [n ->]. done.
Qed.

(** Pieces of text without the character [c]. *)
Definition piece (c : Ascii.ascii) (s : string) : Prop := s <> "" /\ no_char c s = true.

Lemma join_inj c l l' :
  Forall (piece c) l -> Forall (piece c) l' -> join (String c "") l = join (String c "") l' -> l = l'.
Proof.
  intros Hl Hl' He.
  assert (Hne : forall x k, Forall (piece c) (x :: k) -> join (String c "") (x :: k) <> "").
  { intros x k Hk. inversion Hk as [|? ? [Hx _] _]; subst. destruct x as [|d x]; [done|]. by destruct k. }
  assert (Hnc : forall k, Forall (piece c) k -> Forall (fun s => no_char c s = true) k).
  { intros k Hk. eapply Forall_impl; [exact Hk|]. by intros ? []. }
  destruct l as [|x l], l' as [|y l']; [done|symmetry in He; by apply Hne in He|by apply Hne in He|].
  rewrite <- (split_join c (x :: l)), <- (split_join c (y :: l')) by auto. by rewrite He.
Qed.

(** ["cc"] as a separator. *)
Lemma prefix_two c d r : Ascii.eqb c d = false -> String.prefix (String c (String c "")) (String d r) = false.
Proof. intros E. by rewrite prefix_cons, E. Qed.

Lemma split2_plain c cur p r :
  no_char c p = true -> split_go (String c (String c "")) 0 cur (p +:+ r) = split_go (String c (String c "")) 0 (cur +:+ p) r.
Proof.
  revert cur; induction p as [|d p IH]; intros cur; [by rewrite str_app_nil|].
  rewrite str_cons_app. simpl no_char. intros [Hd Hp]%andb_prop. apply negb_true_iff in Hd.
  cbn [split_go]. rewrite prefix_two by done. rewrite IH by done. by rewrite str_app_assoc.
Qed.

Lemma split2_single c cur p r :
  piece c p -> split_go (String c (String c "")) 0 cur (String c (p +:+ r)) =
    split_go (String c (String c "")) 0 (cur +:+ String c p) r.
Proof.
  intros [Hne Hp]. destruct p as [|d p]; [done|]. pose proof Hp as Hd. simpl in Hd. apply andb_prop in Hd as [Hd _].
  apply negb_true_iff in Hd. rewrite str_cons_app. cbn [split_go].
  rewrite prefix_cons, Ascii.eqb_refl, prefix_one, Hd. cbn [andb].
  change (split_go (String c (String c "")) 0 (cur +:+ String c "") (String d (p +:+ r)) =
    split_go (String c (String c "")) 0 (cur +:+ String c (String d p)) r).
  rewrite <- str_cons_app. rewrite split2_plain by done. by rewrite str_app_assoc.
Qed.

Lemma split2_join c cur l r :
  Forall (piece c) l ->
  split_go (String c (String c "")) 0 cur (join (String c "") l +:+ r) =
    split_go (String c (String c "")) 0 (cur +:+ join (String c "") l) r.
Proof.
  intros Hl. destruct Hl as [|x l Hx Hl]; [by rewrite str_app_nil|]. revert cur x Hx.
  induction Hl as [|y l Hy Hl IH]; intros cur x Hx; [by apply split2_plain, Hx|].
  change (join (String c "") (x :: y :: l)) with (x +:+ String c (join (String c "") (y :: l))).
  rewrite str_app_assoc, str_cons_app, split2_plain by apply Hx.
  assert (Hc : forall cur', split_go (String c (String c "")) 0 cur' (String c (join (String c "") (y :: l) +:+ r)) =
     split_go (String c (String c "")) 0 (cur' +:+ String c "") (join (String c "") (y :: l) +:+ r)).
  { intros cur'. destruct l as [|z l]; [cbn [join]; rewrite split2_single, split2_plain by (done || apply Hy); by rewrite str_app_assoc|].
    change (join (String c "") (y :: z :: l)) with (y +:+ String c (join (String c "") (z :: l))).
    rewrite !str_app_assoc, (split2_single c _ y), (split2_plain c _ y) by (done || apply Hy). by rewrite str_app_assoc. }
  rewrite Hc, IH by done. by rewrite !str_app_assoc.
Qed.

Lemma includes2_plain c p r :
  no_char c p = true -> str_includes (String c (String c "")) (p +:+ r) = str_includes (String c (String c "")) r.
Proof.
  induction p as [|d p IH]; [done|]. rewrite str_cons_app. simpl no_char. intros [Hd Hp]%andb_prop.
  apply negb_true_iff in Hd. cbn [str_includes]. rewrite prefix_two by done. by rewrite IH.
Qed.

Lemma includes2_join c l :
  Forall (piece c) l -> str_includes (String c (String c "")) (join (String c "") l) = false.
Proof.
  induction 1 as [|x l Hx Hl IH]; [done|]. destruct l as [|y l].
  - simpl. rewrite <- (str_app_nil x), includes2_plain; [done|apply Hx].
  - change (join (String c "") (x :: y :: l)) with (x +:+ String c (join (String c "") (y :: l))).
    rewrite includes2_plain by apply Hx. cbn [str_includes]. rewrite IH, orb_false_r.
    inversion Hl as [|? ? [Hne Hy] _]; subst. destruct y as [|d y]; [done|].
    simpl in Hy. apply andb_prop in Hy as [Hd _]. apply negb_true_iff in Hd.
    rewrite prefix_cons, Ascii.eqb_refl. destruct l; cbn [join]; rewrite ?str_cons_app; by rewrite prefix_one, Hd.
Qed.

(** * Array helpers *)

(** [l.length]. *)
Definition len {A} (l : list A) : Z := Z.of_nat (length l).

(** [Array.from(new Set(l))]: the first occurrence of each element. *)
Fixpoint dedup_from {A} `{EqDecision A} (seen l : list A) : list A :=
  match l with
  | [] => []
  | x :: r => if decide (x ∈ seen) then dedup_from seen r else x :: dedup_from (x :: seen) r
  end.
Definition dedup {A} `{EqDecision A} (l : list A) : list A := dedup_from [] l.

Lemma dedup_from_elem {A} `{EqDecision A} (seen l : list A) x :
  x ∈ dedup_from seen l <-> x ∈ l /\ x ∉ seen.
Proof.
  revert seen; induction l as [|y l IH]; intros seen; simpl; [set_solver|].
  case_decide.
  - rewrite IH. set_solver.
  - rewrite elem_of_cons, IH. destruct (decide (x = y)); set_solver.
Qed.

Lemma dedup_elem {A} `{EqDecision A} (l : list A) x : x ∈ dedup l <-> x ∈ l.
Proof. unfold dedup. rewrite dedup_from_elem. set_solver. Qed.

Lemma dedup_from_ext {A} `{EqDecision A} (seen seen' l : list A) :
  (forall x, x ∈ seen <-> x ∈ seen') -> dedup_from seen l = dedup_from seen' l.
Proof.
  revert seen seen'; induction l as [|y l IH]; intros seen seen' He; [done|]. simpl.
  destruct (decide (y ∈ seen)) as [Hy|Hy].
  - rewrite decide_True by (by apply He). by apply IH.
  - rewrite decide_False by (by rewrite <- He). f_equal. apply IH. intros x. rewrite !elem_of_cons, He. done.
Qed.

Lemma dedup_from_app {A} `{EqDecision A} (seen a b : list A) :
  dedup_from seen (a ++ b) = dedup_from seen a ++ dedup_from (a ++ seen) b.
Proof.
  revert seen; induction a as [|x a IH]; intros seen; [done|]. simpl. case_decide.
  - rewrite IH. f_equal. apply dedup_from_ext. set_solver.
  - cbn [app]. f_equal. rewrite IH. f_equal. apply dedup_from_ext. set_solver.
Qed.

Lemma NoDup_delete_at {A} (l : list A) j x : NoDup l -> l !! j = Some x -> x ∉ delete j l.
Proof.
  revert j; induction l as [|y l IH]; intros j Hn Hj; [done|]. apply NoDup_cons in Hn as [Hy Hl]. destruct j as [|j]; simpl in *; [by injection Hj as ->|].
  apply not_elem_of_cons. split; [intros ->; apply Hy; by eapply list_elem_of_lookup_2|by apply IH].
Qed.

Lemma dedup_from_NoDup {A} `{EqDecision A} (seen l : list A) : NoDup (dedup_from seen l).
Proof.
  revert seen; induction l as [|y l IH]; intros seen; simpl; [constructor|].
  case_decide; [apply IH|]. constructor; [|apply IH].
  rewrite dedup_from_elem. set_solver.
Qed.

Lemma dedup_NoDup {A} `{EqDecision A} (l : list A) : NoDup (dedup l).
Proof. apply dedup_from_NoDup. Qed.

Lemma dedup_id {A} `{EqDecision A} (l : list A) : NoDup l -> dedup l = l.
Proof.
  unfold dedup. assert (Hgen : forall seen, NoDup l -> (forall x, x ∈ l -> x ∉ seen) -> dedup_from seen l = l).
  { induction l as [|y l IH]; intros seen Hl Hd; [done|]. simpl.
    apply NoDup_cons in Hl as [Hy Hl]. case_decide as Hin.
    - exfalso. by apply (Hd y); [left|].
    - f_equal. apply IH; [done|]. intros x Hx. apply not_elem_of_cons. split; [congruence|].
      apply Hd. by right. }
  intros Hl. apply Hgen; [done|]. intros x _ Hx. by apply elem_of_nil in Hx.
Qed.

(** [Array.prototype.sort] with comparison function [cmp]: insertion, which is
    what every stable algorithm computes when [cmp] is consistent. *)
Section Sort.
Context {A : Type} (cmp : A -> A -> Z).

Fixpoint sort_insert (x : A) (l : list A) : list A :=
  match l with
  | [] => [x]
  | y :: r => if cmp x y <? 0 then x :: y :: r else y :: sort_insert x r
  end.

Definition js_sort (l : list A) : list A := fold_left (fun acc x => sort_insert x acc) l [].

Lemma sort_insert_Permutation x l : sort_insert x l ≡ₚ x :: l.
Proof.
  induction l as [|y l IH]; simpl; [done|]. case_match; [done|].
  rewrite IH. apply Permutation_swap.
Qed.

Lemma js_sort_Permutation l : js_sort l ≡ₚ l.
Proof.
  unfold js_sort. enough (Hgen : forall acc, fold_left (fun acc x => sort_insert x acc) l acc ≡ₚ acc ++ l).
  { by rewrite Hgen. }
  induction l as [|x l IH]; intros acc; simpl; [by rewrite app_nil_r|].
  rewrite IH, sort_insert_Permutation. apply Permutation_middle.
Qed.

Context (R : relation A) `{!Transitive R}
  (cmp_lt : forall x y, cmp x y < 0 -> R x y)
  (cmp_ge : forall x y, 0 <= cmp x y -> R y x).

Lemma sort_insert_sorted x l : StronglySorted R l -> StronglySorted R (sort_insert x l).
Proof using All.
  induction 1 as [|y l Hl IH Hy]; simpl; [repeat constructor|].
  destruct (Z.ltb_spec (cmp x y) 0) as [Hlt|Hge].
  - constructor; [by constructor|]. constructor; [by apply cmp_lt|].
    eapply Forall_impl; [exact Hy|]. intros z Hz. etrans; [by apply cmp_lt|done].
  - constructor; [done|]. rewrite sort_insert_Permutation. constructor; [by apply cmp_ge|done].
Qed.

Lemma js_sort_sorted l : StronglySorted R (js_sort l).
Proof using All.
  unfold js_sort. enough (Hgen : forall acc, StronglySorted R acc ->
    StronglySorted R (fold_left (fun acc x => sort_insert x acc) l acc)) by (apply Hgen; constructor).
  induction l as [|x l IH]; intros acc Hacc; simpl; [done|]. by apply IH, sort_insert_sorted.
Qed.
End Sort.

(** The same for a comparator that orders the elements of the list alone. *)
Lemma js_sort_sorted_on {A} (P : A -> Prop) (cmp : A -> A -> Z) (R : relation A) (l : list A) :
  (forall x y z, P x -> P y -> P z -> R x y -> R y z -> R x z) -> (forall x y, P x -> P y -> cmp x y < 0 -> R x y) ->
  (forall x y, P x -> P y -> 0 <= cmp x y -> R y x) -> Forall P l -> StronglySorted R (js_sort cmp l).
Proof.
  intros Ht Hlt Hge Hl. unfold js_sort. enough (Hgen : forall acc, Forall P acc -> StronglySorted R acc ->
    StronglySorted R (fold_left (fun acc x => sort_insert cmp x acc) l acc)) by (apply Hgen; constructor).
  induction Hl as [|x l Hx _ IH]; intros acc Hp Hs; [done|]. cbn [fold_left]. apply IH; [by rewrite sort_insert_Permutation; constructor|]. clear IH.
  induction Hs as [|y r Hr IHr Hy]; cbn [sort_insert]; [repeat constructor|]. apply Forall_cons in Hp as [Hpy Hp].
  destruct (Z.ltb_spec (cmp x y) 0) as [H0|H0].
  - constructor; [by constructor|]. constructor; [by apply Hlt|]. rewrite Forall_forall in *. intros z Hz. by apply (Ht x y z); auto.
  - constructor; [by apply IHr|]. rewrite sort_insert_Permutation. constructor; [by apply Hge|done].
Qed.

(** What is in order stays as it is. *)
Lemma js_sort_id {A} (cmp : A -> A -> Z) (l : list A) : StronglySorted (fun x y => 0 <= cmp y x) l -> js_sort cmp l = l.
Proof.
  unfold js_sort. enough (Hgen : forall acc, StronglySorted (fun x y => 0 <= cmp y x) (acc ++ l) ->
    fold_left (fun acc x => sort_insert cmp x acc) l acc = acc ++ l) by (intros H; by apply (Hgen [])).
  induction l as [|x l IH]; intros acc Hs; [by rewrite app_nil_r|]. cbn [fold_left].
  assert (sort_insert cmp x acc = acc ++ [x]) as ->.
  { clear IH. induction acc as [|y acc IH]; [done|]. simpl in *. inversion Hs as [|? ? Hs' Hy]; subst.
    assert (0 <= cmp x y) by (rewrite Forall_forall in Hy; apply Hy, elem_of_app; right; left).
    destruct (Z.ltb_spec (cmp x y) 0); [lia|]. by rewrite IH. }
  rewrite IH; by rewrite <- app_assoc.
Qed.

Lemma js_sort_fmap {A B} (f : A -> B) (cmp : A -> A -> Z) (cmp' : B -> B -> Z) (l : list A) :
  Forall (fun a => Forall (fun b => cmp' (f a) (f b) = cmp a b) l) l ->
  js_sort cmp' (f <$> l) = f <$> js_sort cmp l.
Proof.
  intros Hc. unfold js_sort. change (@nil B) with (f <$> []).
  assert (Hacc : Forall (fun a => Forall (fun b => cmp' (f a) (f b) = cmp a b) []) l) by (apply Forall_true; by constructor).
  revert Hacc. generalize (@nil A) as acc. induction l as [|x l IH]; intros acc Hacc; [done|]. simpl.
  apply Forall_cons in Hacc as [Hx Hacc]. apply Forall_cons in Hc as [Hc1 Hc].
  assert (Hins : sort_insert cmp' (f x) (f <$> acc) = f <$> sort_insert cmp x acc).
  { clear - Hx. induction acc as [|y acc IH]; [done|]. simpl. apply Forall_cons in Hx as [-> Hx].
    destruct (_ <? 0); [done|]. rewrite fmap_cons. f_equal. auto. }
  rewrite Hins. apply IH.
  - eapply Forall_impl; [exact Hc|]. intros a Ha. by apply Forall_cons in Ha as [_ ?].
  - apply Forall_forall. intros a Ha. rewrite sort_insert_Permutation. apply Forall_cons. split.
    + eapply Forall_forall in Hc; [|exact Ha]. by apply Forall_cons in Hc as [? _].
    + by eapply Forall_forall in Hacc.
Qed.


(** The comparators of the stores: [(a, b) => a.key < b.key ? 1 : -1] (newest
    first) and [(a, b) => b.key - a.key], [(a, b) => a.key - b.key]. *)
Definition newest_first {A} (key : A -> Z) (a b : A) : Z := if key a <? key b then 1 else -1.
Definition by_desc {A} (key : A -> Z) (a b : A) : Z := key b - key a.
Definition by_asc {A} (key : A -> Z) (a b : A) : Z := key a - key b.

Lemma newest_first_sorted {A} (key : A -> Z) l :
  StronglySorted (fun a b => key b <= key a) (js_sort (newest_first key) l).
Proof.
  apply js_sort_sorted; [intros x y z; lia| |]; unfold newest_first; intros x y H; case_match; bool_to_prop; lia.
Qed.

(** The newest first: what is in order of time, reversed. *)
Lemma js_sort_newest_rev {A} (key : A -> Z) (l : list A) : StronglySorted (fun x y => key x <= key y) l -> js_sort (newest_first key) l = rev l.
Proof.
  unfold js_sort. enough (forall acc, (forall x y, x ∈ acc -> y ∈ l -> key x <= key y) -> StronglySorted (fun x y => key x <= key y) l ->
    fold_left (fun acc x => sort_insert (newest_first key) x acc) l acc = rev l ++ acc) as Hgen.
  { intros Hs. rewrite Hgen; [by rewrite app_nil_r|by intros ? ? ?%elem_of_nil|done]. }
  induction l as [|x l IH]; intros acc Ha Hs; [done|]. inversion Hs as [|? ? Hs' Hx]; subst. cbn [fold_left].
  assert (sort_insert (newest_first key) x acc = x :: acc) as ->.
  { destruct acc as [|y acc]; [done|]. cbn [sort_insert]. unfold newest_first. specialize (Ha y x ltac:(by left) ltac:(by left)).
    by rewrite (proj2 (Z.ltb_ge (key x) (key y))). }
  rewrite IH; [cbn [rev]; by rewrite <- app_assoc| |done]. rewrite Forall_forall in Hx. intros a b [->|Hin]%elem_of_cons Hb; [by apply Hx|].
  apply Ha; [done|by right].
Qed.

Lemma rev_take {A} (n : nat) (l : list A) : exists b, rev (take n l) = b /\ b `suffix_of` rev l.
Proof. eexists. split; [done|]. exists (rev (drop n l)). by rewrite <- rev_app_distr, take_drop. Qed.

Lemma by_desc_sorted {A} (key : A -> Z) l :
  StronglySorted (fun a b => key b <= key a) (js_sort (by_desc key) l).
Proof. apply js_sort_sorted; [intros x y z; lia| |]; unfold by_desc; intros; lia. Qed.

Lemma by_asc_sorted {A} (key : A -> Z) l :
  StronglySorted (fun a b => key a <= key b) (js_sort (by_asc key) l).
Proof. apply js_sort_sorted; [intros x y z; lia| |]; unfold by_asc; intros; lia. Qed.

Lemma js_sort_elem {A} (cmp : A -> A -> Z) l x : x ∈ js_sort cmp l <-> x ∈ l.
Proof. by rewrite js_sort_Permutation. Qed.

Lemma js_sort_length {A} (cmp : A -> A -> Z) l : length (js_sort cmp l) = length l.
Proof. by rewrite js_sort_Permutation. Qed.

(** [const r = l.find(p); r.field = ...]: the first match, changed in place.
    [list_find] gives its index. *)
Lemma list_find_insert_other {A} (P : A -> Prop) `{!forall x, Decision (P x)} (l : list A) i x y j :
  list_find P l = Some (i, x) -> i <> j -> (<[i := y]> l) !! j = l !! j.
Proof. intros _ Hne. by apply list_lookup_insert_ne. Qed.

Lemma list_find_lookup {A} (P : A -> Prop) `{!forall x, Decision (P x)} (l : list A) i x :
  list_find P l = Some (i, x) -> l !! i = Some x /\ P x.
Proof. intros Hf. apply list_find_Some in Hf. naive_solver. Qed.

Lemma list_find_elem {A} (P : A -> Prop) `{!forall x, Decision (P x)} (l : list A) i x :
  list_find P l = Some (i, x) -> x ∈ l /\ P x.
Proof. intros [Hl HP]%list_find_lookup. split; [by eapply list_elem_of_lookup_2|done]. Qed.

Lemma list_find_lt {A} (P : A -> Prop) `{!forall x, Decision (P x)} (l : list A) i x :
  list_find P l = Some (i, x) -> (i < length l)%nat.
Proof. intros [Hl _]%list_find_lookup. by eapply lookup_lt_Some. Qed.

(** Elements of a list of distinct keys are told apart by them. *)
Lemma key_inj {A B} (key : A -> B) (l : list A) x y : NoDup (key <$> l) -> x ∈ l -> y ∈ l -> key x = key y -> x = y.
Proof.
  intros Hnd [i Hi]%list_elem_of_lookup [j Hj]%list_elem_of_lookup He.
  assert (i = j) as ->; [|congruence]. eapply NoDup_lookup; [exact Hnd| |]; rewrite list_lookup_fmap; [by rewrite Hi|rewrite Hj; simpl; congruence].
Qed.

(** [const x = l.find(...)], changed in place: with distinct keys this maps the
    change over the list. *)
Lemma edit_is_fmap {A} (key : A -> string) (i : string) (f : A -> A) (l : list A) : NoDup (key <$> l) ->
  match list_find (fun x => key x = i) l with Some (n, x) => <[n := f x]> l | None => l end = (fun x => if decide (key x = i) then f x else x) <$> l.
Proof.
  induction l as [|y l IH]; [done|]. intros [Hy Hn]%NoDup_cons. specialize (IH Hn). cbn [list_find fmap list_fmap]. destruct (decide (key y = i)) as [Hi|Hi].
  - cbn. rewrite ?decide_True by done. f_equal. clear IH Hn. revert Hy. induction l as [|z l IHl]; [done|]. rewrite fmap_cons, not_elem_of_cons. intros [Hz Hl].
    cbn. rewrite decide_False by congruence. f_equal. by apply IHl.
  - rewrite ?decide_False by done. destruct (list_find _ l) as [[n x]|]; cbn; by f_equal.
Qed.

Lemma elem_of_insert_inv {A} (l : list A) i x y :
  y ∈ <[i := x]> l -> y = x \/ y ∈ l.
Proof.
  rewrite !list_elem_of_lookup. intros [j Hj].
  destruct (decide (i = j)) as [->|Hne].
  - destruct (decide (j < length l)%nat).
    + rewrite list_lookup_insert_eq in Hj by done. left. by simplify_eq.
    + rewrite list_insert_ge in Hj by lia. right; eauto.
  - rewrite list_lookup_insert_ne in Hj by done. right; eauto.
Qed.

Lemma elem_of_insert_self {A} (l : list A) i x :
  (i < length l)%nat -> x ∈ <[i := x]> l.
Proof. intros H. apply list_elem_of_lookup. exists i. by apply list_lookup_insert_eq. Qed.

Lemma Forall_insert {A} (P : A -> Prop) (l : list A) i x :
  Forall P l -> P x -> Forall P (<[i := x]> l).
Proof.
  rewrite !Forall_forall. intros Hl Hx y Hy%elem_of_insert_inv. destruct Hy as [->|]; auto.
Qed.

(** One element changed in place. *)
Lemma Forall2_update {A} (R : relation A) `{!Reflexive R} (l : list A) i x y :
  l !! i = Some x -> R x y -> Forall2 R l (<[i := y]> l).
Proof.
  intros Hl Hr. rewrite <- (list_insert_id l i x) at 1 by done. apply Forall2_insert; [reflexivity|done].
Qed.

(** Append-only growth: the old elements keep their places and only change along
    [R], the new ones come after them. *)
Definition grows {A} (R : relation A) (l l' : list A) : Prop :=
  exists l1 new, l' = l1 ++ new /\ Forall2 R l l1.

#[export] Instance grows_reflexive {A} (R : relation A) `{!Reflexive R} : Reflexive (grows R).
Proof. intros l. exists l, []. by rewrite app_nil_r. Qed.

#[export] Instance grows_preorder {A} (R : relation A) `{!PreOrder R} : PreOrder (grows R).
Proof.
  split; [apply _|].
  - intros a b c (b1 & nb & -> & Hab) (c1 & nc & -> & (x & y & Hx & Hy & ->)%Forall2_app_inv_l).
    exists x, (y ++ nc). rewrite app_assoc. split; [done|]. by etrans.
Qed.

Lemma grows_update {A} (R : relation A) `{!Reflexive R} (l : list A) i x y :
  l !! i = Some x -> R x y -> grows R l (<[i := y]> l).
Proof. intros. eexists _, []. rewrite app_nil_r. split; [done|]. by eapply Forall2_update. Qed.

Lemma grows_app {A} (R : relation A) `{!Reflexive R} (l new : list A) : grows R l (l ++ new).
Proof. by exists l, new. Qed.

Lemma grows_elem {A} (R : relation A) (l l' : list A) x :
  grows R l l' -> x ∈ l -> exists y, y ∈ l' /\ R x y.
Proof.
  intros (l1 & new & -> & HF) [i Hi]%list_elem_of_lookup_1.
  destruct (Forall2_lookup_l _ _ _ _ _ HF Hi) as (y & Hy & Hr). exists y. split; [|done].
  apply elem_of_app. left. by eapply list_elem_of_lookup_2.
Qed.

Lemma fmap_insert_same {A B} (f : A -> B) (l : list A) i x y :
  l !! i = Some x -> f y = f x -> f <$> <[i := y]> l = f <$> l.
Proof.
  intros Hl Hf. rewrite list_fmap_insert, Hf.
  apply list_insert_id. by rewrite list_lookup_fmap, Hl.
Qed.

Lemma Forall_filter_keep {A} (P Q : A -> Prop) `{!forall x, Decision (Q x)} (l : list A) :
  Forall P l -> Forall P (filter Q l).
Proof. rewrite !Forall_forall. intros Hl x [_ Hx]%list_elem_of_filter. auto. Qed.

Lemma len_pos {A} (l : list A) : 0 < len l <-> l <> [].
Proof. unfold len. destruct l; simpl; split; intros; try done; lia. Qed.

Lemma len_nonneg {A} (l : list A) : 0 <= len l.
Proof. unfold len. lia. Qed.

Lemma len_app {A} (a b : list A) : len (a ++ b) = len a + len b.
Proof. unfold len. rewrite length_app. lia. Qed.

Lemma len_filter {A} (P : A -> Prop) `{!forall x, Decision (P x)} (l : list A) : len (filter P l) <= len l.
Proof. unfold len. pose proof (length_filter P l). lia. Qed.

(** Filtering twice keeps fewer than filtering once. *)
Lemma len_filter_filter {A} (P Q : A -> Prop) `{!forall x, Decision (P x), !forall x, Decision (Q x)} (l : list A) :
  len (filter P (filter Q l)) <= len (filter P l).
Proof.
  induction l as [|x l IH]; [done|]. rewrite (filter_cons Q). case_decide; rewrite !(filter_cons P); case_decide; unfold len in *; simpl; lia.
Qed.

Lemma len_filter_impl {A} (P Q : A -> Prop) `{!forall x, Decision (P x), !forall x, Decision (Q x)} (l : list A) :
  (forall x, x ∈ l -> P x -> Q x) -> len (filter P l) <= len (filter Q l).
Proof.
  induction l as [|x l IH]; intros Hi; [done|]. assert (len (filter P l) <= len (filter Q l)) as Hl by (apply IH; intros; apply Hi; [by right|done]).
  rewrite !filter_cons. destruct (decide (P x)) as [Hp|Hp].
  - rewrite decide_True by (apply Hi; [by left|done]). unfold len in *. simpl. lia.
  - case_decide; unfold len in *; simpl; lia.
Qed.

Lemma len_filter_snoc {A} (P : A -> Prop) `{!forall x, Decision (P x)} (l : list A) x :
  len (filter P (l ++ [x])) = len (filter P l) + if decide (P x) then 1 else 0.
Proof. rewrite filter_app, len_app, filter_cons, filter_nil. by case_decide. Qed.

Lemma take_drop_pages {A} (n k : nat) (l : list A) :
  flat_map (fun i => take k (drop (i * k) l)) (seq 0 n) = take (n * k) l.
Proof.
  induction n as [|n IH]; [done|]. rewrite seq_S, flat_map_app, IH. simpl. rewrite app_nil_r.
  rewrite <- (take_drop (n * k) (take (k + n * k) l)). rewrite take_take, skipn_firstn_comm. do 2 f_equal; f_equal; lia.
Qed.

Lemma filter_same_length {A} (P : A -> Prop) `{!forall x, Decision (P x)} (l : list A) :
  len (filter P l) <= len l /\ (len (filter P l) = len l -> filter P l = l).
Proof.
  unfold len. induction l as [|x l [IH1 IH2]]; [done|]. rewrite filter_cons. case_decide; simpl.
  - split; [lia|]. intros. f_equal. apply IH2. lia.
  - lia.
Qed.

Lemma filter_twice {A} (P : A -> Prop) `{!forall x, Decision (P x)} (l : list A) :
  filter P (filter P l) = filter P l.
Proof.
  induction l as [|x l IH]; [done|]. rewrite !filter_cons. case_decide; [|done].
  rewrite filter_cons. case_decide; [by rewrite IH|done].
Qed.

Lemma filter_ext {A} (P Q : A -> Prop) `{!forall x, Decision (P x), !forall x, Decision (Q x)} (l : list A) :
  (forall x, x ∈ l -> P x <-> Q x) -> filter P l = filter Q l.
Proof.
  induction l as [|x l IH]; intros Hpq; [done|]. rewrite !filter_cons, IH by (intros y Hy; apply Hpq; by right).
  pose proof (Hpq x (list_elem_of_here _ _)). do 2 case_decide; tauto || done.
Qed.

Lemma NoDup_insert_fresh {A} (l : list A) n x : NoDup l -> x ∉ delete n l -> NoDup (<[n := x]> l).
Proof.
  revert n; induction l as [|y l IH]; intros n Hn Hx; [done|]. apply NoDup_cons in Hn as [Hy Hl]. destruct n as [|n]; simpl in *.
  - by apply NoDup_cons.
  - apply not_elem_of_cons in Hx as [Hxy Hx]. apply NoDup_cons. split; [|by apply IH]. intros Hin.
    apply elem_of_insert_inv in Hin as [->|Hin]; [done|]. by apply Hy.
Qed.

Lemma filter_none {A} (P : A -> Prop) `{!forall x, Decision (P x)} (l : list A) : (forall x, x ∈ l -> ~ P x) -> filter P l = [].
Proof.
  induction l as [|x l IH]; intros H0; [done|]. rewrite filter_cons_False by (apply H0; by left). apply IH. intros y Hy. apply H0. by right.
Qed.

Lemma filter_all {A} (P : A -> Prop) `{!forall x, Decision (P x)} (l : list A) : Forall P l -> filter P l = l.
Proof. induction 1 as [|x l Hx _ IH]; [done|]. rewrite filter_cons, decide_True by done. by rewrite IH. Qed.

Lemma fmap_id_on {A} (f : A -> A) (l : list A) : (forall x, x ∈ l -> f x = x) -> f <$> l = l.
Proof.
  induction l as [|x l IH]; intros H; [done|]. rewrite fmap_cons. f_equal; [apply H; by left|]. apply IH. intros y Hy. apply H. by right.
Qed.

#[export] Hint Resolve Forall_insert Forall_filter_keep dedup_NoDup : claw.
