(* ===== verification/JsNum.v ===== *)
(** JavaScript numbers where the code receives one it has not validated yet:
    [NaN], the infinities and the finite values. A finite double is a dyadic
    rational, so comparisons, [Math.floor], [Math.trunc], [Math.min] and
    [Math.max] on rationals are exact; the two zeros are identified. Counters
    and time stamps the code keeps integral are [Z] in the components. *)
From S2P Require Import Prelude.
From Stdlib Require QArith Qround.
Import QArith_base(Q, inject_Z, Qnum, Qden).

Inductive num : Type :=
| NaN
| Infinity (positive : bool)
| Fin (q : Q).

#[export] Instance Q_eq_dec : EqDecision Q.
Proof. solve_decision. Defined.
#[export] Instance num_eq_dec : EqDecision num.
Proof. solve_decision. Defined.

(** The number whose value is the integer [z]. *)
Definition int (z : Z) : num := Fin (inject_Z z).

Definition is_finite (n : num) : bool := match n with Fin _ => true | _ => false end.

(** [a < b]; false when either side is [NaN]. *)
Definition num_lt (a b : num) : bool :=
  match a, b with
  | NaN, _ | _, NaN => false
  | Fin p, Fin q => negb (QArith_base.Qle_bool q p)
  | Infinity s, Infinity t => negb s && t
  | Infinity s, Fin _ => negb s
  | Fin _, Infinity t => t
  end.

(** [a <= b]; false when either side is [NaN]. *)
Definition num_le (a b : num) : bool :=
  match a, b with
  | NaN, _ | _, NaN => false
  | Fin p, Fin q => QArith_base.Qle_bool p q
  | Infinity s, Infinity t => implb s t
  | Infinity s, Fin _ => negb s
  | Fin _, Infinity t => t
  end.

(** [Math.floor] and [Math.trunc]. *)
Definition num_floor (n : num) : num :=
  match n with Fin q => int (Qround.Qfloor q) | _ => n end.

Definition num_trunc (n : num) : num :=
  match n with
  | Fin q => int (if Qnum q <? 0 then Qround.Qceiling q else Qround.Qfloor q)
  | _ => n
  end.

(** [Number.isInteger]. *)
Definition is_integer (n : num) : bool :=
  match n with Fin q => QArith_base.Qeq_bool (inject_Z (Qround.Qfloor q)) q | _ => false end.

(** [Math.max] and [Math.min] of two arguments: [NaN] is contagious. *)
Definition num_max (a b : num) : num :=
  match a, b with NaN, _ | _, NaN => NaN | _, _ => if num_lt a b then b else a end.
Definition num_min (a b : num) : num :=
  match a, b with NaN, _ | _, NaN => NaN | _, _ => if num_lt b a then b else a end.

(** The integer part of a finite number. *)
Definition floorZ (n : num) : Z := match n with Fin q => Qround.Qfloor q | _ => 0 end.

Lemma floor_inject z : Qround.Qfloor (inject_Z z) = z.
Proof. apply Qround.Qfloor_Z. Qed.

Lemma ceiling_inject z : Qround.Qceiling (inject_Z z) = z.
Proof. apply Qround.Qceiling_Z. Qed.

Lemma num_floor_int z : num_floor (int z) = int z.
Proof. unfold num_floor, int. by rewrite floor_inject. Qed.

Lemma num_trunc_int z : num_trunc (int z) = int z.
Proof. unfold num_trunc, int. cbn -[Qround.Qfloor Qround.Qceiling]. rewrite ceiling_inject, floor_inject. by destruct (z <? 0). Qed.

Lemma floorZ_int z : floorZ (int z) = z.
Proof. apply floor_inject. Qed.

Lemma Qle_bool_inject a b : QArith_base.Qle_bool (inject_Z a) (inject_Z b) = (a <=? b).
Proof. unfold QArith_base.Qle_bool. simpl. by rewrite !Z.mul_1_r. Qed.

Lemma num_le_int a b : num_le (int a) (int b) = (a <=? b).
Proof. apply Qle_bool_inject. Qed.

Lemma num_lt_int a b : num_lt (int a) (int b) = (a <? b).
Proof. unfold num_lt, int. by rewrite Qle_bool_inject, Z.ltb_antisym. Qed.

Lemma is_integer_int z : is_integer (int z) = true.
Proof. unfold is_integer, int. rewrite floor_inject. apply QArith_base.Qeq_bool_refl. Qed.

Lemma int_inj a b : int a = int b -> a = b.
Proof. unfold int, inject_Z. intros H. by injection H. Qed.

Lemma num_max_int a b : num_max (int a) (int b) = int (Z.max a b).
Proof. unfold num_max, int. fold (int a) (int b). rewrite num_lt_int. destruct (Z.ltb_spec a b); f_equal/=; unfold int; do 2 f_equal; lia. Qed.

Lemma num_min_int a b : num_min (int a) (int b) = int (Z.min a b).
Proof. unfold num_min, int. fold (int a) (int b). rewrite num_lt_int. destruct (Z.ltb_spec b a); f_equal/=; unfold int; do 2 f_equal; lia. Qed.

(** An integer bound survives [Math.floor]. *)
Lemma floor_ge_bound z q : num_lt (Fin q) (int z) = false -> z <= Qround.Qfloor q.
Proof.
  simpl. intros H. apply negb_false_iff, QArith_base.Qle_bool_iff in H.
  rewrite <- (floor_inject z). by apply Qround.Qfloor_resp_le.
Qed.

Lemma floor_le_bound z q : num_lt (int z) (Fin q) = false -> Qround.Qfloor q <= z.
Proof.
  simpl. intros H. apply negb_false_iff, QArith_base.Qle_bool_iff in H.
  rewrite <- (floor_inject z). by apply Qround.Qfloor_resp_le.
Qed.

(** [Math.max(lo, Math.min(hi, Math.floor(n)))] for integer bounds. *)
Definition clamp_floor (lo hi : Z) (n : num) : num :=
  num_max (int lo) (num_min (int hi) (num_floor n)).

Lemma clamp_floor_spec lo hi n :
  lo <= hi ->
  clamp_floor lo hi n =
    match n with
    | NaN => NaN
    | Infinity true => int hi
    | Infinity false => int lo
    | Fin q => int (Z.max lo (Z.min hi (Qround.Qfloor q)))
    end.
Proof.
  intros Hlo. unfold clamp_floor. destruct n as [|[]|q]; [done|..].
  - change (num_min (int hi) (num_floor (Infinity true))) with (int hi).
    rewrite num_max_int. by rewrite Z.max_r by lia.
  - done.
  - unfold num_floor. by rewrite num_min_int, num_max_int.
Qed.

(** The rounded operations of double-precision arithmetic, and
    [Number(x.toFixed(n))]. *)
Class FloatOps := { fadd : num -> num -> num; fsub : num -> num -> num; fmul : num -> num -> num; fdiv : num -> num -> num; toFixed : nat -> num -> num }.

Create Rewrite HintDb jsnum.
#[export] Hint Rewrite num_floor_int num_trunc_int floorZ_int num_le_int num_lt_int is_integer_int
  num_max_int num_min_int : jsnum.
