(* ===== verification/JsDate.v ===== *)
(** The part of the [Date] built-in the stores use: the proleptic Gregorian
    calendar of ECMA-262 (section "Time Values and Time Range"), with its
    UTC accessors and [Date.UTC].

    A time stamp the code writes with [toISOString] is represented by its time
    value, the milliseconds since the epoch: [Date.parse] of that string gives
    the value back, and the strings of the years 0..9999 have a fixed width, so
    that the string comparisons of the stores order them as the values. *)
From S2P Require Import Prelude.

(** [Date.now()] is read several times by one operation; [clk] gives the
    readings of one call in program order. *)
Abbreviation clock := (nat -> Z).

(** A clock that never runs backwards. *)
Definition monotone (clk : clock) : Prop := forall i j, (i <= j)%nat -> clk i <= clk j.

Lemma monotone_const z : monotone (fun _ => z).
Proof. intros i j _. lia. Qed.

Definition ms_per_day : Z := 86400000.

(** A string found in a time-stamp field: the ISO string of a time value, or
    text that [Date.parse] turns into [NaN]. *)
Inductive iso : Type :=
| Iso (ms : Z)
| NotADate (s : string).

#[export] Instance iso_eq_dec : EqDecision iso.
Proof. solve_decision. Defined.

Definition date_parse (d : iso) : option Z :=
  match d with Iso ms => Some ms | NotADate _ => None end.

(** The string is not empty. *)
Definition iso_truthy (d : iso) : bool :=
  match d with Iso _ => true | NotADate s => truthy s end.

(** Only the empty string is falsy, and it is not a date. *)
Lemma iso_falsy d : iso_truthy d = false -> date_parse d = None.
Proof. by destruct d. Qed.

Section Calendar.

Definition day_from_year (y : Z) : Z :=
  365 * (y - 1970) + (y - 1969) / 4 - (y - 1901) / 100 + (y - 1601) / 400.

(** The largest year whose first day is not after [d]; the estimate is off by
    at most one year. *)
Definition year_of_day (d : Z) : Z :=
  let y := 1970 + d * 400 / 146097 in
  if d <? day_from_year y then y - 1
  else if day_from_year (y + 1) <=? d then y + 1
  else y.

Definition leap (y : Z) : bool :=
  (y mod 4 =? 0) && (negb (y mod 100 =? 0) || (y mod 400 =? 0)).

(** The day of the year on which month [m] (0..12) starts. *)
Definition month_offset (l : bool) (m : Z) : Z :=
  let b := if l then 1 else 0 in
  if m <=? 0 then 0 else if m =? 1 then 31 else
  (match m with
   | 2 => 59 | 3 => 90 | 4 => 120 | 5 => 151 | 6 => 181 | 7 => 212
   | 8 => 243 | 9 => 273 | 10 => 304 | 11 => 334 | _ => 365
   end) + b.

Fixpoint month_search (l : bool) (k : Z) (fuel : nat) (m : Z) : Z :=
  match fuel with
  | O => m
  | S f => if month_offset l (m + 1) <=? k then month_search l k f (m + 1) else m
  end.

(** 0..11, as [getUTCMonth]. *)
Definition month_of_day (d : Z) : Z :=
  let y := year_of_day d in
  month_search (leap y) (d - day_from_year y) 11 0.

(** [MakeDay(year, month, date)]; the month may be outside 0..11. *)
Definition make_day (y m dt : Z) : Z :=
  let ym := y + m / 12 in
  let mn := m mod 12 in
  day_from_year ym + month_offset (leap ym) mn + dt - 1.

Definition day_of (t : Z) : Z := t / ms_per_day.
Definition getUTCFullYear (t : Z) : Z := year_of_day (day_of t).
Definition getUTCMonth (t : Z) : Z := month_of_day (day_of t).
Definition getUTCDate (t : Z) : Z := day_of t - make_day (getUTCFullYear t) (getUTCMonth t) 1 + 1.
Definition Date_UTC (y m d : Z) : Z := make_day y m d * ms_per_day.

(** ** The year of a day *)

Lemma year_of_day_spec d :
  day_from_year (year_of_day d) <= d < day_from_year (year_of_day d + 1).
Proof.
  unfold year_of_day. set (y := 1970 + d * 400 / 146097).
  assert (Hest : day_from_year (y - 1) <= d < day_from_year (y + 2)).
  { unfold day_from_year, y. Z.to_euclidean_division_equations; lia. }
  destruct (Z.ltb_spec d (day_from_year y)).
  - replace (y - 1 + 1) with y by lia. lia.
  - destruct (Z.leb_spec (day_from_year (y + 1)) d); [|lia].
    replace (y + 1 + 1) with (y + 2) by lia. lia.
Qed.

Lemma day_from_year_step y :
  day_from_year (y + 1) = day_from_year y + (if leap y then 366 else 365).
Proof.
  unfold leap. destruct (Z.eqb_spec (y mod 4) 0), (Z.eqb_spec (y mod 100) 0), (Z.eqb_spec (y mod 400) 0);
  simpl; unfold day_from_year; Z.to_euclidean_division_equations; lia.
Qed.

(** ** The month of a day *)

Lemma month_offset_step l m :
  0 <= m <= 11 -> 28 <= month_offset l (m + 1) - month_offset l m <= 31.
Proof.
  intros Hm. assert (m = 0 \/ m = 1 \/ m = 2 \/ m = 3 \/ m = 4 \/ m = 5 \/ m = 6 \/ m = 7 \/ m = 8
    \/ m = 9 \/ m = 10 \/ m = 11) as H by lia.
  destruct_or! H; subst m; destruct l; vm_compute; split; discriminate.
Qed.

Lemma month_offset_ends l :
  month_offset l 0 = 0 /\ month_offset l 11 = (if l then 335 else 334) /\
  month_offset l 12 = (if l then 366 else 365).
Proof. by destruct l. Qed.

Lemma month_search_spec l k fuel m :
  0 <= m -> m + Z.of_nat fuel = 11 ->
  month_offset l m <= k < month_offset l 12 ->
  m <= month_search l k fuel m <= 11 /\
  month_offset l (month_search l k fuel m) <= k < month_offset l (month_search l k fuel m + 1).
Proof.
  revert m; induction fuel as [|f IH]; intros m Hm Hf Hk; simpl.
  - replace m with 11 in * by lia. change (11 + 1) with 12. lia.
  - destruct (Z.leb_spec (month_offset l (m + 1)) k); [|lia].
    destruct (IH (m + 1)); lia.
Qed.

(** ** Months counted from year 0

    A month is identified by [12 * year + month]; its first day grows with it,
    and the month of a day is the only one that contains it. *)

Definition month_index (d : Z) : Z := 12 * year_of_day d + month_of_day d.
Definition month_first (i : Z) : Z := make_day 0 i 1.

Lemma make_day_month_first y m : make_day y m 1 = month_first (12 * y + m).
Proof.
  unfold month_first, make_day.
  replace ((12 * y + m) / 12) with (y + m / 12) by (Z.to_euclidean_division_equations; lia).
  replace ((12 * y + m) mod 12) with (m mod 12) by (Z.to_euclidean_division_equations; lia).
  done.
Qed.

Lemma month_first_split i :
  month_first i = day_from_year (i / 12) + month_offset (leap (i / 12)) (i mod 12).
Proof. unfold month_first, make_day. rewrite Z.add_0_l. lia. Qed.

Lemma month_first_step i : 28 <= month_first (i + 1) - month_first i <= 31.
Proof.
  rewrite !month_first_split.
  destruct (Z.eq_dec (i mod 12) 11) as [He|Hne].
  - replace ((i + 1) / 12) with (i / 12 + 1) by (Z.to_euclidean_division_equations; lia).
    replace ((i + 1) mod 12) with 0 by (Z.to_euclidean_division_equations; lia).
    rewrite He, day_from_year_step.
    destruct (month_offset_ends (leap (i / 12))) as (_ & -> & _).
    destruct (month_offset_ends (leap (i / 12 + 1))) as (-> & _ & _).
    destruct (leap (i / 12)); lia.
  - replace ((i + 1) / 12) with (i / 12) by (Z.to_euclidean_division_equations; lia).
    replace ((i + 1) mod 12) with (i mod 12 + 1) by (Z.to_euclidean_division_equations; lia).
    pose proof (month_offset_step (leap (i / 12)) (i mod 12)) as Hs.
    pose proof (Z.mod_pos_bound i 12). lia.
Qed.

Lemma month_first_mono i j : i <= j -> month_first i <= month_first j.
Proof.
  intros Hij. replace j with (i + Z.of_nat (Z.to_nat (j - i))) by lia.
  induction (Z.to_nat (j - i)) as [|n IH]; [rewrite Z.add_0_r; lia|].
  rewrite Nat2Z.inj_succ. pose proof (month_first_step (i + Z.of_nat n)).
  replace (i + Z.succ (Z.of_nat n)) with (i + Z.of_nat n + 1) by lia. lia.
Qed.

Lemma month_of_day_range d : 0 <= month_of_day d <= 11.
Proof.
  unfold month_of_day. pose proof (year_of_day_spec d) as Hy.
  rewrite day_from_year_step in Hy.
  destruct (month_offset_ends (leap (year_of_day d))) as (H0 & _ & H12).
  destruct (month_search_spec (leap (year_of_day d)) (d - day_from_year (year_of_day d)) 11 0); lia.
Qed.

Lemma month_index_spec d : month_first (month_index d) <= d < month_first (month_index d + 1).
Proof.
  unfold month_index. set (y := year_of_day d). set (m := month_of_day d).
  assert (Hr : 0 <= m <= 11) by apply month_of_day_range.
  assert (Hm : month_offset (leap y) m <= d - day_from_year y < month_offset (leap y) (m + 1)).
  { unfold m, month_of_day. fold y. pose proof (year_of_day_spec d) as Hy. fold y in Hy.
    rewrite day_from_year_step in Hy.
    destruct (month_offset_ends (leap y)) as (H0 & _ & H12).
    apply (month_search_spec (leap y) (d - day_from_year y) 11 0); lia. }
  rewrite !month_first_split.
  replace ((12 * y + m) / 12) with y by (Z.to_euclidean_division_equations; lia).
  replace ((12 * y + m) mod 12) with m by (Z.to_euclidean_division_equations; lia).
  split; [lia|].
  destruct (Z.eq_dec m 11) as [He|Hne].
  - replace ((12 * y + m + 1) / 12) with (y + 1) by (Z.to_euclidean_division_equations; lia).
    replace ((12 * y + m + 1) mod 12) with 0 by (Z.to_euclidean_division_equations; lia).
    rewrite He in Hm. destruct (month_offset_ends (leap y)) as (_ & _ & H12).
    change (11 + 1) with 12 in Hm. rewrite day_from_year_step.
    destruct (month_offset_ends (leap (y + 1))) as (-> & _ & _). destruct (leap y); lia.
  - replace ((12 * y + m + 1) / 12) with y by (Z.to_euclidean_division_equations; lia).
    replace ((12 * y + m + 1) mod 12) with (m + 1) by (Z.to_euclidean_division_equations; lia). lia.
Qed.

Lemma month_index_unique d i : month_first i <= d < month_first (i + 1) -> month_index d = i.
Proof.
  intros Hi. pose proof (month_index_spec d) as Hd.
  destruct (Z.lt_trichotomy (month_index d) i) as [Hlt|[Heq|Hgt]]; [|done|].
  - pose proof (month_first_mono (month_index d + 1) i ltac:(lia)). lia.
  - pose proof (month_first_mono (i + 1) (month_index d) ltac:(lia)). lia.
Qed.

Lemma month_index_mono d e : d <= e -> month_index d <= month_index e.
Proof.
  intros Hde. destruct (Z.le_gt_cases (month_index d) (month_index e)) as [|Hgt]; [done|].
  pose proof (month_index_spec d). pose proof (month_index_spec e).
  pose proof (month_first_mono (month_index e + 1) (month_index d) ltac:(lia)). lia.
Qed.

(** The calendar month of a time value and its bounds. *)
Definition month_key (t : Z) : Z := month_index (day_of t).

Lemma month_key_fields t : month_key t = 12 * getUTCFullYear t + getUTCMonth t.
Proof. done. Qed.

Lemma getUTCMonth_range t : 0 <= getUTCMonth t <= 11.
Proof. apply month_of_day_range. Qed.

Lemma month_key_bounds t i :
  month_key t = i <-> month_first i * ms_per_day <= t < month_first (i + 1) * ms_per_day.
Proof.
  unfold month_key, day_of, ms_per_day. split.
  - intros <-. pose proof (month_index_spec (t / 86400000)) as H.
    revert H; generalize (month_index (t / 86400000)); intros k.
    generalize (month_first k) (month_first (k + 1)); intros a b H.
    Z.to_euclidean_division_equations; lia.
  - intros H. apply month_index_unique.
    revert H; generalize (month_first i) (month_first (i + 1)); intros a b H.
    Z.to_euclidean_division_equations; lia.
Qed.

Lemma Date_UTC_first y m : Date_UTC y m 1 = month_first (12 * y + m) * ms_per_day.
Proof. unfold Date_UTC. by rewrite make_day_month_first. Qed.

End Calendar.

Example epoch_fields :
  (getUTCFullYear 0, getUTCMonth 0, getUTCDate 0) = (1970, 0, 1).
Proof. reflexivity. Qed.

(** 2024-02-29T12:00:00Z and the last millisecond before the epoch. *)
Example leap_day_fields :
  (getUTCFullYear 1709208000000, getUTCMonth 1709208000000, getUTCDate 1709208000000) = (2024, 1, 29)
  /\ (getUTCFullYear (-1), getUTCMonth (-1), getUTCDate (-1)) = (1969, 11, 31).
Proof. split; reflexivity. Qed.
