(* ===== verification/IsoTime.v ===== *)
(** [Date.prototype.toISOString] and [Date.parse] on its output, for the years
    0..9999. The stores persist time stamps as these strings, parse them back
    and compare them as strings; the lemmas here are what lets the components
    keep the time value instead: parsing inverts printing, and the string order
    is the order of the values. *)
From S2P Require Import Prelude JsDate.

Section Digits.

Definition digit (n : Z) : Ascii.ascii := chr (48 + n).
Definition digit_value (c : Ascii.ascii) : option Z :=
  let n := code c - 48 in if (0 <=? n) && (n <=? 9) then Some n else None.

(** [String(n).padStart(k, "0")] for [0 <= n < 10 ^ k]. *)
Fixpoint pad (k : nat) (n : Z) : string :=
  match k with
  | O => ""
  | S k' => String (digit (n / 10 ^ Z.of_nat k')) (pad k' (n mod 10 ^ Z.of_nat k'))
  end.

(** [s.padStart(k, "0")]. *)
Definition pad_start (k : nat) (s : string) : string := Nat.iter (k - String.length s) (String "0"%char) s.

(** Read [k] digits. *)
Fixpoint read (k : nat) (acc : Z) (s : string) : option (Z * string) :=
  match k with
  | O => Some (acc, s)
  | S k' =>
      match s with
      | "" => None
      | String c r => v ← digit_value c; read k' (10 * acc + v) r
      end
  end.

Definition expect (c : Ascii.ascii) (s : string) : option string :=
  match s with String d r => if Ascii.eqb c d then Some r else None | "" => None end.

Lemma pow10_pos k : 0 < 10 ^ Z.of_nat k.
Proof. apply Z.pow_pos_nonneg; lia. Qed.

Lemma pad_head_range k n : 0 <= n < 10 ^ Z.of_nat (S k) -> 0 <= n / 10 ^ Z.of_nat k < 10.
Proof.
  intros Hn. pose proof (pow10_pos k) as Hp.
  rewrite Nat2Z.inj_succ, Z.pow_succ_r in Hn by lia.
  split; [apply Z.div_pos; lia|]. apply Z.div_lt_upper_bound; lia.
Qed.

(** [String(n).padStart(k, "0")] is [pad k n]. *)
Lemma pad_snoc k n : 0 <= n < 10 ^ Z.of_nat (S k) -> pad (S k) n = pad k (n / 10) +:+ String (digit (n mod 10)) "".
Proof.
  revert n; induction k as [|k IH]; intros n Hn.
  - change (10 ^ Z.of_nat 1) with 10 in Hn. cbn [pad]. change (10 ^ Z.of_nat 0) with 1. by rewrite Z.div_1_r, (Z.mod_small n 10) by lia.
  - change (pad (S (S k)) n) with (String (digit (n / 10 ^ Z.of_nat (S k))) (pad (S k) (n mod 10 ^ Z.of_nat (S k)))).
    pose proof (pow10_pos k) as Hp. rewrite IH by (apply Z.mod_pos_bound; apply pow10_pos).
    rewrite Nat2Z.inj_succ, Z.pow_succ_r by lia. cbn [pad]. rewrite str_cons_app, Z.div_div by lia. f_equal.
    rewrite Z.rem_mul_r by lia.
    replace (n mod 10 + 10 * ((n / 10) mod 10 ^ Z.of_nat k)) with (n mod 10 + (n / 10) mod 10 ^ Z.of_nat k * 10) by ring.
    rewrite Z.div_add, Z_mod_plus_full, Z.mod_mod, (Z.div_small (n mod 10)) by (try apply Z.mod_pos_bound; lia). done.
Qed.

Lemma pad_zero k : pad k 0 = Nat.iter k (String "0"%char) "".
Proof. induction k as [|k IH]; [done|]. cbn [pad]. rewrite Z.div_0_l, Z.mod_0_l by (pose proof (pow10_pos k); lia). by rewrite IH. Qed.

Lemma iter_zero_app k a b : Nat.iter k (String "0"%char) a +:+ b = Nat.iter k (String "0"%char) (a +:+ b).
Proof. induction k as [|k IH]; [done|]. simpl. by rewrite str_cons_app, IH. Qed.

Lemma pretty_digit n : (n < 10)%N -> pretty_N_char n = digit (Z.of_N n).
Proof. intros Hn. destruct n as [|[[[[]|[]|]|[[]|[]|]|]|[[[]|[]|]|[[]|[]|]|]|]]; reflexivity || lia. Qed.

Lemma pretty_N_go_pad k n s :
  Z.of_N n < 10 ^ Z.of_nat k ->
  exists j, pad k (Z.of_N n) +:+ s = Nat.iter j (String "0"%char) (pretty_N_go n s) /\
            (j + String.length (pretty_N_go n s) = k + String.length s)%nat.
Proof.
  revert n s; induction k as [|k IH]; intros n s Hn.
  - change (10 ^ Z.of_nat 0) with 1 in Hn. replace n with 0%N by lia. exists 0%nat. done.
  - rewrite pad_snoc by lia. rewrite str_app_assoc. cbn [String.append]. change 10 with (Z.of_N 10). rewrite <- N2Z.inj_div, <- N2Z.inj_mod.
    rewrite <- pretty_digit by (by apply N.mod_lt). rewrite Nat2Z.inj_succ, Z.pow_succ_r in Hn by lia.
    destruct (IH (n / 10)%N (String (pretty_N_char (n mod 10)) s)) as (j & Hj & Hl).
    { rewrite N2Z.inj_div. apply Z.div_lt_upper_bound; lia. }
    destruct (decide (n = 0%N)) as [->|Hne].
    + exists (S k). rewrite pretty_N_go_0. cbn [Nat.add]. split; [|done]. change (0 / 10)%N with 0%N. change (0 mod 10)%N with 0%N.
      change (Z.of_N 0) with 0. rewrite pad_zero, iter_zero_app. by rewrite Nat.iter_succ_r.
    + exists j. rewrite pretty_N_go_step by lia. split; [exact Hj|]. simpl in Hl. lia.
Qed.

Lemma pad_start_pretty k n : (0 < k)%nat -> 0 <= n < 10 ^ Z.of_nat k -> pad_start k (pretty n) = pad k n.
Proof.
  intros Hk Hn. assert (Hp : pretty n = pretty (Z.to_N n)) by (destruct n; [reflexivity|reflexivity|lia]).
  rewrite Hp. unfold pretty, pretty_N. unfold pad_start. case_decide as E.
  - replace n with 0 by lia. destruct k as [|k]; [lia|]. rewrite pad_zero. cbn [String.length Nat.sub]. rewrite Nat.sub_0_r.
    by rewrite Nat.iter_succ_r.
  - destruct (pretty_N_go_pad k (Z.to_N n) "") as (j & Hj & Hl); [rewrite Z2N.id by lia; lia|].
    rewrite Z2N.id, str_app_nil in Hj by lia. rewrite Hj. f_equal. simpl in Hl. lia.
Qed.

Lemma digit_value_digit n : 0 <= n < 10 -> digit_value (digit n) = Some n.
Proof.
  intros Hn. unfold digit_value, digit. rewrite code_chr by lia.
  replace (48 + n - 48) with n by lia.
  destruct (Z.leb_spec 0 n); [|lia]. destruct (Z.leb_spec n 9); [done|lia].
Qed.

Lemma read_pad k n acc r :
  0 <= n < 10 ^ Z.of_nat k -> read k acc (pad k n +:+ r) = Some (acc * 10 ^ Z.of_nat k + n, r).
Proof.
  revert n acc; induction k as [|k IH]; intros n acc Hn.
  - simpl. change (10 ^ Z.of_nat 0) with 1 in *. do 2 f_equal. lia.
  - cbn [pad read]. rewrite str_cons_app, digit_value_digit by (by apply pad_head_range). cbn [mbind option_bind].
    pose proof (pow10_pos k). rewrite IH by (by apply Z.mod_pos_bound).
    do 2 f_equal. rewrite Nat2Z.inj_succ, Z.pow_succ_r by lia.
    pose proof (Z.div_mod n (10 ^ Z.of_nat k)). lia.
Qed.

Lemma pad_length k n : String.length (pad k n) = k.
Proof. revert n; induction k as [|k IH]; intros n; simpl; [done|]. by rewrite IH. Qed.

(** ** String comparison *)

Definition str_lt (a b : string) : bool := String.ltb a b.

Lemma ltb_cons c d r s :
  String.ltb (String c r) (String d s) =
    (code c <? code d) || ((code c =? code d) && String.ltb r s).
Proof.
  unfold String.ltb. simpl. unfold Ascii.compare, code.
  destruct (N.compare_spec (Ascii.N_of_ascii c) (Ascii.N_of_ascii d)) as [He|Hl|Hg].
  - rewrite He, Z.ltb_irrefl, Z.eqb_refl. done.
  - by rewrite (proj2 (Z.ltb_lt _ _)) by lia.
  - rewrite (proj2 (Z.ltb_ge _ _)) by lia. by rewrite (proj2 (Z.eqb_neq _ _)) by lia.
Qed.

Lemma ltb_pad k a b r s :
  0 <= a < 10 ^ Z.of_nat k -> 0 <= b < 10 ^ Z.of_nat k ->
  String.ltb (pad k a +:+ r) (pad k b +:+ s) = (a <? b) || ((a =? b) && String.ltb r s).
Proof.
  revert a b; induction k as [|k IH]; intros a b Ha Hb.
  - change (10 ^ Z.of_nat 0) with 1 in *. assert (a = 0) as -> by lia. assert (b = 0) as -> by lia. done.
  - cbn [pad]. rewrite !str_cons_app, ltb_cons.
    pose proof (pad_head_range k a Ha). pose proof (pad_head_range k b Hb). pose proof (pow10_pos k) as Hp.
    unfold digit. rewrite !code_chr by lia. rewrite IH by (by apply Z.mod_pos_bound).
    pose proof (Z.div_mod a (10 ^ Z.of_nat k) ltac:(lia)) as Ea.
    pose proof (Z.div_mod b (10 ^ Z.of_nat k) ltac:(lia)) as Eb.
    pose proof (Z.mod_pos_bound a (10 ^ Z.of_nat k) Hp).
    pose proof (Z.mod_pos_bound b (10 ^ Z.of_nat k) Hp).
    revert Ea Eb. set (qa := a / _) in *. set (ra := a mod _) in *. set (qb := b / _) in *. set (rb := b mod _) in *.
    set (p := 10 ^ Z.of_nat k) in *. intros Ea Eb.
    destruct (Z.lt_trichotomy qa qb) as [Hlt|[Heq|Hgt]].
    + assert (a < b) by nia.
      rewrite (proj2 (Z.ltb_lt (48 + qa) (48 + qb))) by lia. by rewrite (proj2 (Z.ltb_lt a b)) by lia.
    + rewrite Heq, Z.ltb_irrefl, Z.eqb_refl. simpl.
      replace (a <? b) with (ra <? rb) by (destruct (Z.ltb_spec ra rb), (Z.ltb_spec a b); nia).
      by replace (a =? b) with (ra =? rb) by (destruct (Z.eqb_spec ra rb), (Z.eqb_spec a b); nia).
    + assert (b < a) by nia.
      rewrite (proj2 (Z.ltb_ge (48 + qa) (48 + qb))), (proj2 (Z.eqb_neq (48 + qa) (48 + qb))) by lia.
      by rewrite (proj2 (Z.ltb_ge a b)), (proj2 (Z.eqb_neq a b)) by lia.
Qed.

Lemma ltb_sep c r s : String.ltb (String c r) (String c s) = String.ltb r s.
Proof. rewrite ltb_cons, Z.ltb_irrefl, Z.eqb_refl. done. Qed.

End Digits.

Section Iso.

Definition time_of_day (t : Z) : Z := t mod ms_per_day.
Definition getUTCHours (t : Z) : Z := time_of_day t / 3600000.
Definition getUTCMinutes (t : Z) : Z := time_of_day t / 60000 mod 60.
Definition getUTCSeconds (t : Z) : Z := time_of_day t / 1000 mod 60.
Definition getUTCMilliseconds (t : Z) : Z := time_of_day t mod 1000.

(** YYYY-MM-DDTHH:mm:ss.sssZ *)
Definition toISOString (t : Z) : string :=
  pad 4 (getUTCFullYear t) +:+ String "-"%char (pad 2 (getUTCMonth t + 1) +:+ String "-"%char (
  pad 2 (getUTCDate t) +:+ String "T"%char (pad 2 (getUTCHours t) +:+ String ":"%char (
  pad 2 (getUTCMinutes t) +:+ String ":"%char (pad 2 (getUTCSeconds t) +:+ String "."%char (
  pad 3 (getUTCMilliseconds t) +:+ "Z")))))).

(** [Date.parse] on that format; [None] is [NaN]. *)
Definition parse_iso (s : string) : option Z :=
  '(y, s) ← read 4 0 s; s ← expect "-"%char s;
  '(mo, s) ← read 2 0 s; s ← expect "-"%char s;
  '(d, s) ← read 2 0 s; s ← expect "T"%char s;
  '(h, s) ← read 2 0 s; s ← expect ":"%char s;
  '(mi, s) ← read 2 0 s; s ← expect ":"%char s;
  '(sec, s) ← read 2 0 s; s ← expect "."%char s;
  '(ms, s) ← read 3 0 s; s ← expect "Z"%char s;
  if String.eqb s "" && (1 <=? mo) && (mo <=? 12) && (1 <=? d) && (d <=? 31)
     && (h <=? 23) && (mi <=? 59) && (sec <=? 59)
  then Some (Date_UTC y (mo - 1) d + h * 3600000 + mi * 60000 + sec * 1000 + ms)
  else None.

(** The time values whose string has a four-digit year. *)
Definition iso_range (t : Z) : Prop := 0 <= getUTCFullYear t <= 9999.

Lemma getUTCDate_range t : 1 <= getUTCDate t <= 31.
Proof.
  unfold getUTCDate. rewrite make_day_month_first.
  pose proof (month_index_spec (day_of t)) as H. pose proof (month_first_step (month_index (day_of t))).
  unfold month_index in *. unfold getUTCFullYear, getUTCMonth. lia.
Qed.

Lemma time_fields t :
  t = Date_UTC (getUTCFullYear t) (getUTCMonth t) (getUTCDate t)
      + getUTCHours t * 3600000 + getUTCMinutes t * 60000 + getUTCSeconds t * 1000 + getUTCMilliseconds t.
Proof.
  replace (Date_UTC (getUTCFullYear t) (getUTCMonth t) (getUTCDate t)) with (day_of t * ms_per_day)
    by (unfold Date_UTC, getUTCDate, make_day; f_equal; lia).
  unfold getUTCHours, getUTCMinutes, getUTCSeconds, getUTCMilliseconds, time_of_day, day_of, ms_per_day.
  Z.to_euclidean_division_equations; lia.
Qed.

Lemma time_field_ranges t :
  0 <= getUTCHours t <= 23 /\ 0 <= getUTCMinutes t <= 59 /\ 0 <= getUTCSeconds t <= 59
  /\ 0 <= getUTCMilliseconds t <= 999.
Proof.
  unfold getUTCHours, getUTCMinutes, getUTCSeconds, getUTCMilliseconds, time_of_day, ms_per_day.
  Z.to_euclidean_division_equations; lia.
Qed.

Lemma expect_cons c r : expect c (String c r) = Some r.
Proof. simpl. by rewrite Ascii.eqb_refl. Qed.

Lemma parse_toISOString t : iso_range t -> parse_iso (toISOString t) = Some t.
Proof.
  intros Hy. unfold iso_range in Hy.
  pose proof (getUTCMonth_range t). pose proof (getUTCDate_range t).
  destruct (time_field_ranges t) as (Hh & Hmi & Hs & Hms).
  unfold parse_iso, toISOString.
  repeat (rewrite read_pad by lia; cbn [mbind option_bind]; rewrite expect_cons; cbn [mbind option_bind]).
  repeat match goal with |- context [?a <=? ?b] => rewrite (proj2 (Z.leb_le a b)) by lia end.
  cbn [andb String.eqb]. f_equal. rewrite (time_fields t) at 8. do 4 f_equal; try lia.
  f_equal; lia.
Qed.

Lemma iso_string_inj t u : iso_range t -> iso_range u -> toISOString t = toISOString u -> t = u.
Proof. intros Ht Hu He. apply parse_toISOString in Ht, Hu. rewrite He in Ht. congruence. Qed.

Lemma lex_step (a b : Z) (x c : bool) :
  (a < b -> c = true) -> (b < a -> c = false) -> (a = b -> x = c) ->
  (a <? b) || ((a =? b) && x) = c.
Proof.
  intros Hlt Hgt Heq. destruct (Z.ltb_spec a b); [by rewrite Hlt|].
  destruct (Z.eqb_spec a b); [by apply Heq|]. rewrite Hgt by lia. done.
Qed.

(** The code compares time stamps as strings; this is the order of the values. *)
Lemma toISOString_lt t u :
  iso_range t -> iso_range u -> str_lt (toISOString t) (toISOString u) = (t <? u).
Proof.
  intros Ht Hu. unfold iso_range in *.
  pose proof (getUTCMonth_range t). pose proof (getUTCDate_range t).
  pose proof (getUTCMonth_range u). pose proof (getUTCDate_range u).
  destruct (time_field_ranges t) as (Hh & Hmi & Hs & Hms).
  destruct (time_field_ranges u) as (Gh & Gmi & Gs & Gms).
  assert (Hkey : forall a b, month_key a < month_key b -> a < b).
  { intros a b Hk. destruct (Z.le_gt_cases b a) as [Hle|]; [|lia].
    unfold month_key, day_of, ms_per_day in *.
    pose proof (month_index_mono (b / 86400000) (a / 86400000)).
    pose proof (Z.div_le_mono b a 86400000). lia. }
  pose proof (Hkey t u) as K1. pose proof (Hkey u t) as K2. rewrite !month_key_fields in K1, K2.
  pose proof (time_fields t) as Ft. pose proof (time_fields u) as Fu.
  unfold Date_UTC, make_day, ms_per_day in Ft, Fu.
  unfold str_lt, toISOString.
  repeat (rewrite ltb_pad by lia; rewrite ?ltb_sep).
  apply lex_step; [intros; apply Z.ltb_lt; lia|intros; apply Z.ltb_ge; lia|intros Ey].
  apply lex_step; [intros; apply Z.ltb_lt; lia|intros; apply Z.ltb_ge; lia|intros Em].
  assert (getUTCMonth t = getUTCMonth u) as Em' by lia. rewrite Ey, Em' in Ft.
  repeat (apply lex_step; [intros; apply Z.ltb_lt; lia|intros; apply Z.ltb_ge; lia|intros]).
  symmetry; apply Z.ltb_ge. lia.
Qed.

End Iso.

(** The order of strings. *)
Lemma str_lt_asym a b : str_lt a b = true -> str_lt b a = false.
Proof.
  unfold str_lt. revert b; induction a as [|c a IH]; intros [|d b]; try done. rewrite !ltb_cons. intros H.
  destruct (Z.ltb_spec (code c) (code d)); simpl in *.
  - destruct (Z.ltb_spec (code d) (code c)); [lia|]. by destruct (Z.eqb_spec (code d) (code c)); [lia|].
  - apply andb_prop in H as [He Hl]. apply Z.eqb_eq in He. rewrite He, Z.ltb_irrefl, Z.eqb_refl. by apply IH.
Qed.

Lemma str_lt_trans a b c : str_lt a b = true -> str_lt b c = true -> str_lt a c = true.
Proof.
  unfold str_lt. revert b c. induction a as [|x a IH]; intros [|y b] [|z c]; try done.
  rewrite !ltb_cons, !orb_true_iff, !andb_true_iff, !Z.ltb_lt, !Z.eqb_eq.
  intros [Hxy|[Hxy Hab]] [Hyz|[Hyz Hbc]]; try (left; lia). right. split; [lia|]. by apply (IH b).
Qed.

Lemma str_lt_irrefl a : str_lt a a = false.
Proof. destruct (str_lt a a) eqn:E; [|done]. by rewrite (str_lt_asym _ _ E) in E. Qed.

(** [b <= a] and [c <= b] give [c <= a]. *)
Lemma str_le_trans a b c : str_lt a b = false -> str_lt b c = false -> str_lt a c = false.
Proof.
  unfold str_lt. revert b c; induction a as [|x a IH]; intros [|y b] [|z c]; try done. rewrite !ltb_cons.
  intros [H1 H2]%orb_false_iff [H3 H4]%orb_false_iff. apply orb_false_iff. apply Z.ltb_ge in H1, H3. split; [apply Z.ltb_ge; lia|].
  destruct (Z.eqb_spec (code x) (code z)); [|done]. simpl.
  assert (code x = code y /\ code y = code z) as [E1 E2] by lia. rewrite E1, Z.eqb_refl in H2. rewrite E2, Z.eqb_refl in H4. simpl in *.
  by eapply IH.
Qed.

(** ** Days *)

(** The day [d] since the epoch, as YYYY-MM-DD. *)
Definition date_string (d : Z) : string :=
  let t := d * ms_per_day in pad 4 (getUTCFullYear t) +:+ String "-" (pad 2 (getUTCMonth t + 1) +:+ String "-" (pad 2 (getUTCDate t))).

Definition day_range (d : Z) : Prop := iso_range (d * ms_per_day).

Lemma day_of_within d ms : 0 <= ms < ms_per_day -> day_of (d * ms_per_day + ms) = d.
Proof. intros H. unfold day_of, ms_per_day in *. rewrite Z.add_comm, Z.div_add by lia. rewrite Z.div_small; lia. Qed.

Lemma day_fields d ms : 0 <= ms < ms_per_day ->
  getUTCFullYear (d * ms_per_day + ms) = getUTCFullYear (d * ms_per_day) /\
  getUTCMonth (d * ms_per_day + ms) = getUTCMonth (d * ms_per_day) /\ getUTCDate (d * ms_per_day + ms) = getUTCDate (d * ms_per_day).
Proof.
  intros H. assert (day_of (d * ms_per_day + ms) = day_of (d * ms_per_day)) as E.
  { rewrite day_of_within by done. unfold day_of. rewrite Z.div_mul; [done|unfold ms_per_day; lia]. }
  unfold getUTCFullYear, getUTCMonth, getUTCDate, getUTCFullYear, getUTCMonth. by rewrite E.
Qed.

Lemma date_string_iso d ms : 0 <= ms < ms_per_day ->
  toISOString (d * ms_per_day + ms) =
    date_string d +:+ (String "T" (pad 2 (ms / 3600000) +:+ String ":" (pad 2 (ms / 60000 mod 60) +:+ String ":" (
      pad 2 (ms / 1000 mod 60) +:+ String "." (pad 3 (ms mod 1000) +:+ "Z"))))).
Proof.
  intros H. unfold toISOString, date_string. destruct (day_fields d ms H) as (-> & -> & ->).
  assert (time_of_day (d * ms_per_day + ms) = ms) as Ht.
  { unfold time_of_day. rewrite Z.add_comm, Z.mod_add by (unfold ms_per_day; lia). by apply Z.mod_small. }
  unfold getUTCHours, getUTCMinutes, getUTCSeconds, getUTCMilliseconds. rewrite Ht.
  by repeat (rewrite ?str_app_assoc, ?str_cons_app; f_equal).
Qed.

Lemma date_string_length d : String.length (date_string d) = 10%nat.
Proof. unfold date_string. cbv zeta. rewrite !str_length_app, pad_length. cbn [String.length]. by rewrite !str_length_app, !pad_length. Qed.

(** [toISOString().slice(0, 10)]. *)
Lemma iso_day t : str_take 10 (toISOString t) = date_string (day_of t).
Proof.
  pose proof (Z.mod_pos_bound t ms_per_day ltac:(done)) as Hm. pose proof (Z.div_mod t ms_per_day ltac:(done)) as Hd.
  replace t with (day_of t * ms_per_day + t mod ms_per_day) at 1 by (unfold day_of; lia).
  rewrite date_string_iso by done. rewrite <- (date_string_length (day_of t)). apply str_take_app.
Qed.

Lemma ltb_same_tail a b s : String.length a = String.length b -> String.ltb (a +:+ s) (b +:+ s) = String.ltb a b.
Proof.
  revert b. induction a as [|c a IH]; intros [|d b] H; try done.
  - change ("" +:+ s) with s. assert (String.ltb s s = false) as ->; [|done].
    clear H. induction s as [|x s IHs]; [done|]. rewrite ltb_cons, IHs. lia.
  - rewrite !str_cons_app, !ltb_cons, IH by (simpl in H; lia). done.
Qed.

Lemma date_string_lt a b : day_range a -> day_range b -> str_lt (date_string a) (date_string b) = (a <? b).
Proof.
  intros Ha Hb. pose proof (toISOString_lt _ _ Ha Hb) as H.
  rewrite <- (Z.add_0_r (a * ms_per_day)), <- (Z.add_0_r (b * ms_per_day)), !date_string_iso in H by done.
  unfold str_lt in *. rewrite ltb_same_tail in H by (by rewrite !date_string_length). rewrite H.
  unfold ms_per_day. destruct (Z.ltb_spec a b), (Z.ltb_spec (a * 86400000 + 0) (b * 86400000 + 0)); lia || done.
Qed.

Lemma date_string_inj a b : day_range a -> day_range b -> date_string a = date_string b -> a = b.
Proof.
  intros Ha Hb He. pose proof (date_string_lt a b Ha Hb) as H1. pose proof (date_string_lt b a Hb Ha) as H2.
  rewrite He in *. assert (str_lt (date_string b) (date_string b) = false) as H3.
  { unfold str_lt. generalize (date_string b) as s. induction s as [|x s IHs]; [done|]. rewrite ltb_cons, IHs. lia. }
  rewrite H3 in *. lia.
Qed.

Lemma day_range_between a d b : day_range a -> day_range b -> a <= d <= b -> day_range d.
Proof.
  unfold day_range, iso_range, getUTCFullYear. unfold day_of. rewrite !Z.div_mul by done. intros Ha Hb [Had Hdb].
  apply month_index_mono in Had, Hdb. unfold month_index in *. pose proof (month_of_day_range a). pose proof (month_of_day_range d).
  pose proof (month_of_day_range b). lia.
Qed.
