(* ===== verification/Json.v ===== *)
(** JSON values as [JSON.parse] returns them, the accessors the stores apply to
    an untrusted object, and the interface of a state that is persisted as
    JSON: what is written can be read back. [JSON.parse] of [JSON.stringify] is
    the identity on these values, so a file is represented by its value. *)
From S2P Require Import Prelude JsNum JsDate IsoTime.

#[warnings="-register-all"]
Inductive json : Type :=
| JNull
| JBool (b : bool)
| JNum (n : num)
| JStr (s : string)
| JArr (l : list json)
| JObj (fields : list (string * json)).

(** A property access that finds nothing is [undefined]. *)
Abbreviation jval := (option json) (only parsing).

Fixpoint assoc {A} (k : string) (l : list (string * A)) : option A :=
  match l with
  | [] => None
  | (k', v) :: r => if String.eqb k k' then Some v else assoc k r
  end.

(** [j.k] (arrays, strings and numbers have none of the fields read here). *)
Definition field (k : string) (j : json) : jval :=
  match j with JObj fs => assoc k fs | _ => None end.

(** [j && typeof j === "object"]. *)
Definition is_object (j : json) : bool :=
  match j with JArr _ | JObj _ => true | _ => false end.

(** [!!v]. *)
Definition jtruthy (v : jval) : bool :=
  match v with
  | None | Some JNull => false
  | Some (JBool b) => b
  | Some (JNum NaN) => false
  | Some (JNum (Fin q)) => negb (QArith_base.Qeq_bool q (QArith_base.inject_Z 0))
  | Some (JNum _) => true
  | Some (JStr s) => truthy s
  | Some (JArr _) | Some (JObj _) => true
  end.

(** [String(v || "")] and [String(v ?? "")], where [String_of] is the text of a
    value that is neither a string nor missing. *)
Definition js_text (String_of : json -> string) (v : jval) : string :=
  if jtruthy v then match v with Some (JStr s) => s | Some j => String_of j | None => "" end else "".

Definition js_text_nullish (String_of : json -> string) (v : jval) : string :=
  match v with None | Some JNull => "" | Some (JStr s) => s | Some j => String_of j end.

(** [typeof v === "string" ? v : null]. *)
Definition string_or_null (v : jval) : option string :=
  match v with Some (JStr s) => Some s | _ => None end.

(** [Array.isArray(v) ? v : []]. *)
Definition array_or_empty (v : jval) : list json :=
  match v with Some (JArr l) => l | _ => [] end.

(** [l.filter(x => typeof x === "string")]. *)
Definition strings_of (l : list json) : list string :=
  omap (fun j => match j with JStr s => Some s | _ => None end) l.

(** The string of a time stamp. A canonical string is read back as its time
    value; any other text is kept as it is. *)
Definition iso_string (d : iso) : string :=
  match d with Iso t => toISOString t | NotADate s => s end.

Definition iso_of_string (s : string) : iso :=
  match parse_iso s with
  | Some t => if String.eqb (toISOString t) s then Iso t else NotADate s
  | None => NotADate s
  end.

Definition iso_or_null (v : jval) : option iso := iso_of_string <$> string_or_null v.

Definition jopt {A} (f : A -> json) (o : option A) : json :=
  match o with Some a => f a | None => JNull end.

Definition jiso (d : iso) : json := JStr (iso_string d).

(** The values [toISOString] writes with a four-digit year. *)
Definition iso_ok (d : iso) : Prop :=
  match d with Iso t => iso_range t | NotADate s => iso_of_string s = NotADate s end.

Lemma iso_of_string_iso d : iso_ok d -> iso_of_string (iso_string d) = d.
Proof.
  destruct d as [t|s]; simpl; [|done]. intros Ht. unfold iso_of_string.
  by rewrite parse_toISOString, String.eqb_refl.
Qed.

Lemma iso_or_null_jiso (o : option iso) :
  from_option iso_ok True o -> iso_or_null (Some (jopt jiso o)) = o.
Proof. destruct o as [d|]; simpl; [|done]. intros H. unfold iso_or_null. simpl. by rewrite iso_of_string_iso. Qed.

Lemma string_or_null_jopt (o : option string) : string_or_null (Some (jopt JStr o)) = o.
Proof. by destruct o. Qed.

Lemma strings_of_fmap (l : list string) : strings_of (JStr <$> l) = l.
Proof. unfold strings_of. induction l as [|s l IH]; [done|]. csimpl. by rewrite IH. Qed.

Lemma omap_fmap_id {A B} (f : A -> B) (g : B -> option A) (l : list A) :
  Forall (fun a => g (f a) = Some a) l -> omap g (f <$> l) = l.
Proof. induction 1 as [|a l Ha _ IH]; csimpl; [done|]. rewrite Ha. by rewrite IH. Qed.

(** The text of a file, or of a line: a JSON value, or something [JSON.parse]
    throws on. *)
Inductive content := Parsed (j : json) | Unparsable (text : string).

(** [o.k = v] on an object that has the field [k]. *)
Fixpoint set_assoc {A} (k : string) (v : A) (l : list (string * A)) : list (string * A) :=
  match l with
  | [] => []
  | (k', w) :: r => if String.eqb k k' then (k', v) :: r else (k', w) :: set_assoc k v r
  end.

Definition set_field (k : string) (v : json) (j : json) : json :=
  match j with JObj fs => JObj (set_assoc k v fs) | _ => j end.

Lemma assoc_set_assoc {A} k (v : A) fs : assoc k (set_assoc k v fs) = (fun _ => v) <$> assoc k fs.
Proof. induction fs as [|[k' w] fs IH]; [done|]. simpl. destruct (String.eqb k k') eqn:E; simpl; by rewrite E. Qed.

Lemma set_assoc_same {A} k (v : A) fs : assoc k fs = Some v -> set_assoc k v fs = fs.
Proof.
  induction fs as [|[k' w] fs IH]; [done|]. simpl. destruct (String.eqb k k'); [by intros [= ->]|].
  intros E. by rewrite IH.
Qed.

Lemma set_assoc_twice {A} k (v w : A) fs : set_assoc k v (set_assoc k w fs) = set_assoc k v fs.
Proof. induction fs as [|[k' x] fs IH]; [done|]. simpl. destruct (String.eqb k k') eqn:E; simpl; rewrite E; [done|]. by rewrite IH. Qed.

(** [o[k] = v]: in place, or behind the keys there are. *)
Definition put {A} (k : string) (v : A) (l : list (string * A)) : list (string * A) :=
  match assoc k l with Some _ => set_assoc k v l | None => l ++ [(k, v)] end.

Lemma assoc_put_eq {A} ip (v : A) s : assoc ip (put ip v s) = Some v.
Proof.
  unfold put. destruct (assoc ip s) eqn:E; [by rewrite assoc_set_assoc, E|].
  induction s as [|[k w] s IH]; simpl in *; [by rewrite String.eqb_refl|].
  destruct (String.eqb ip k); [done|auto].
Qed.

Lemma assoc_put_ne {A} ip ip' (v : A) s : ip <> ip' -> assoc ip' (put ip v s) = assoc ip' s.
Proof.
  intros Hne. assert (Hf : String.eqb ip' ip = false) by (apply String.eqb_neq; congruence).
  unfold put. destruct (assoc ip s) eqn:E.
  - clear E. induction s as [|[k w] s IH]; [done|]. simpl. destruct (String.eqb ip k) eqn:Ek; simpl.
    + apply String.eqb_eq in Ek as <-. by rewrite Hf.
    + by rewrite IH.
  - clear E. induction s as [|[k w] s IH]; simpl; [by rewrite Hf|]. by rewrite IH.
Qed.

Lemma field_set_field k v w j : field k j = Some w -> field k (set_field k v j) = Some v.
Proof. destruct j; try done. simpl. intros H. by rewrite assoc_set_assoc, H. Qed.

Lemma set_field_same k v j : field k j = Some v -> set_field k v j = j.
Proof. destruct j; try done. simpl. intros H. by rewrite set_assoc_same. Qed.

Lemma set_field_twice k v w j : set_field k v (set_field k w j) = set_field k v j.
Proof. destruct j; try done. simpl. by rewrite set_assoc_twice. Qed.

(** ** Tallies *)

(** [m[k] = (m[k] ?? 0) + 1], of an object or of a Map. *)
Definition count_label (m : list (string * Z)) (k : string) : list (string * Z) :=
  match assoc k m with Some n => set_assoc k (n + 1) m | None => m ++ [(k, 1)] end.

Definition total_of (m : list (string * Z)) : Z := fold_right (fun p n => p.2 + n) 0 m.

Lemma count_label_total m k : total_of (count_label m k) = total_of m + 1.
Proof.
  unfold count_label. destruct (assoc k m) as [n|] eqn:E.
  - induction m as [|[k' w] m IH]; [done|]. unfold total_of in *. cbn in *. destruct (String.eqb k k'); [injection E as ->; cbn; lia|]. cbn. rewrite IH by done. lia.
  - clear E. induction m as [|[k' w] m IH]; unfold total_of in *; cbn; [done|]. cbn in IH. rewrite IH. lia.
Qed.

Lemma count_label_assoc m k k' : default 0 (assoc k' (count_label m k)) = default 0 (assoc k' m) + if String.eqb k' k then 1 else 0.
Proof.
  unfold count_label. destruct (assoc k m) as [n|] eqn:E.
  - induction m as [|[k1 w] m IH]; [done|]. cbn in *. destruct (String.eqb_spec k k1) as [->|Hne].
    + injection E as ->. cbn. destruct (String.eqb_spec k' k1); cbn; lia.
    + cbn. destruct (String.eqb_spec k' k1) as [->|]; [|by apply IH]. rewrite (proj2 (String.eqb_neq k1 k)) by done. lia.
  - induction m as [|[k1 w] m IH]; cbn in *; [by destruct (String.eqb k' k)|].
    destruct (String.eqb_spec k k1) as [->|Hne]; [done|]. destruct (String.eqb_spec k' k1) as [->|]; [rewrite (proj2 (String.eqb_neq k1 k)) by done; lia|by apply IH].
Qed.

Lemma labels_counted ls m :
  total_of (fold_left count_label ls m) = total_of m + len ls /\
  forall k, default 0 (assoc k (fold_left count_label ls m)) = default 0 (assoc k m) + len (filter (fun l => l = k) ls).
Proof.
  revert m. induction ls as [|l ls IH]; intros m; [cbn [fold_left];
    change (len (@nil string)) with 0; split; [lia|intros k; change (len (filter _ [])) with 0; lia]|]. cbn [fold_left]. destruct (IH (count_label m l)) as [H1 H2]. split.
  - rewrite H1, count_label_total. unfold len. cbn [length]. lia.
  - intros k. rewrite H2, count_label_assoc, filter_cons. destruct (String.eqb_spec k l) as [->|Hne]; [rewrite decide_True by done; unfold len; simpl; lia|].
    rewrite decide_False by congruence. lia.
Qed.

(** A state persisted in a file. [raw] is what the file holds: a [json] value
    where the reading code checks the fields it finds, the state itself where
    the code uses the parsed value as it is (the file is then one this module
    wrote). [decode] is what the reading code makes of the content, [absent] of
    a missing file ([ENOENT]); a [storable] state is read back unchanged. *)
Class Persisted (S : Type) := {
  raw : Type;
  encode : S -> raw;
  decode : raw -> S;
  absent : S;
  storable : S -> Prop;
  decode_encode s : storable s -> decode (encode s) = s;
}.
Arguments raw S {_}.

(** The content of a file: [None] when it does not exist. *)
Definition file S `{Persisted S} := option (raw S).

Definition read_file {S} `{Persisted S} (f : file S) : S :=
  match f with Some j => decode j | None => absent end.

Definition write_file {S} `{Persisted S} (s : S) : file S := Some (encode s).

Lemma read_write {S} `{Persisted S} (s : S) : storable s -> read_file (write_file s) = s.
Proof. apply decode_encode. Qed.

#[export] Hint Resolve iso_of_string_iso read_write : claw.
Create Rewrite HintDb json.
#[export] Hint Rewrite @string_or_null_jopt strings_of_fmap : json.
