(* ===== verification/Store.v ===== *)
(** The file-backed stores: a JSON file, and for most of them an in-process
    cache of it that is trusted for a fixed time ([CACHE_TTL_MS] in
    [freezeStore.ts], [concurrencyStore.ts], [dualControlStore.ts]).

    The promise the clients rely on: whoever writes through the store reads its
    own write, whether the cache answers or the file does. *)
From S2P Require Import Prelude JsNum JsDate IsoTime Json.

Section Cached.
Context {S : Type} `{Persisted S}.
Context (CACHE_TTL_MS : Z).

(** [_cache: { state, loadedAt } | null] next to the file. *)
Record store := Store { disk : file S; cache : option (S * Z) }.

(** A process that has just started. *)
Definition boot (f : file S) : store := Store f None.

(** [loadState] / [getFreezeState] / [getConcurrencyPolicy]. *)
Definition load (now : Z) (st : store) : S * store :=
  match cache st with
  | Some (s, loadedAt) =>
      if now - loadedAt <? CACHE_TTL_MS then (s, st)
      else let s' := read_file (disk st) in (s', Store (disk st) (Some (s', now)))
  | None => let s' := read_file (disk st) in (s', Store (disk st) (Some (s', now)))
  end.

(** [writeState] / [writeToDisk]: replace the file, then the cache. *)
Definition save (now : Z) (s : S) (st : store) : store :=
  Store (write_file s) (Some (s, now)).

(** The cache, when present, is what the file decodes to. *)
Definition coherent (st : store) : Prop :=
  match cache st with Some (s, _) => s = read_file (disk st) | None => True end.

(** The state a client observes. *)
Definition view (st : store) : S := read_file (disk st).

Lemma boot_coherent f : coherent (boot f).
Proof. done. Qed.

Lemma load_spec now st :
  coherent st ->
  fst (load now st) = view st /\ coherent (snd (load now st)) /\ disk (snd (load now st)) = disk st.
Proof.
  unfold coherent, load, view. destruct (cache st) as [[s l]|] eqn:E; [|done].
  intros ->. by destruct (now - l <? CACHE_TTL_MS); simpl; rewrite ?E.
Qed.

Lemma load_view now st : coherent st -> fst (load now st) = view st.
Proof. intros H1. by apply load_spec. Qed.

Lemma load_coherent now st : coherent st -> coherent (snd (load now st)).
Proof. intros H1. by apply load_spec. Qed.

Lemma load_disk now st : disk (snd (load now st)) = disk st.
Proof. unfold load. destruct (cache st) as [[s l]|]; [case_match|]; done. Qed.

(** Past its time to live the cache is not trusted, whatever it holds. *)
Lemma load_expired now f s loadedAt :
  CACHE_TTL_MS <= now - loadedAt -> fst (load now (Store f (Some (s, loadedAt)))) = read_file f.
Proof. intros Hle. unfold load. simpl. by rewrite (proj2 (Z.ltb_ge _ _)) by lia. Qed.

Lemma load_view_after now st : view (snd (load now st)) = view st.
Proof. unfold view. by rewrite load_disk. Qed.

Lemma save_coherent now s st : storable s -> coherent (save now s st).
Proof. intros Hs. unfold coherent, save. simpl. symmetry. by apply read_write. Qed.

Lemma save_view now s st : storable s -> view (save now s st) = s.
Proof. intros Hs. unfold view, save. simpl. by apply read_write. Qed.

(** Read your own writes, for any later clock reading. *)
Lemma save_load now now' s st : storable s -> fst (load now' (save now s st)) = s.
Proof. intros Hs. rewrite load_view by (by apply save_coherent). by apply save_view. Qed.

(** ** Operations on a store

    An operation loads the state, computes on its own copy of it, and writes
    the copy back or returns without writing ([None]). *)
Definition transaction (R : Type) := S -> R * option S.

Definition transact {R} (t_load t_write : Z) (tx : transaction R) (st : store) : R * store :=
  let '(s, st1) := load t_load st in
  let '(r, w) := tx s in
  (r, match w with Some s' => save t_write s' st1 | None => st1 end).

(** What the transaction leaves behind. *)
Definition after {R} (tx : transaction R) (s : S) : S := from_option id s (snd (tx s)).

(** The result only holds states that the file can represent. *)
Definition writes_storable {R} (tx : transaction R) (s : S) : Prop :=
  forall s', snd (tx s) = Some s' -> storable s'.

(** A transaction on a coherent store is the transaction on the state the
    store stands for: the cache cannot be observed. *)
Lemma transact_spec {R} t_load t_write (tx : transaction R) st :
  coherent st -> writes_storable tx (view st) ->
  fst (transact t_load t_write tx st) = fst (tx (view st)) /\
  view (snd (transact t_load t_write tx st)) = after tx (view st) /\
  coherent (snd (transact t_load t_write tx st)).
Proof.
  intros Hc Hw. unfold transact, after.
  pose proof (load_view t_load st Hc) as Hl. pose proof (load_view_after t_load st) as Hv.
  pose proof (load_coherent t_load st Hc) as Hc'.
  destruct (load t_load st) as [s st1]. simpl in *. subst s.
  specialize (Hw). unfold writes_storable in Hw.
  destruct (tx (view st)) as [r [s'|]]; simpl in *; [|done].
  split; [done|]. split; [apply save_view|apply save_coherent]; auto.
Qed.

(** Most operations validate their input before they touch the store: an input
    that fails leaves even the cache alone. *)
Definition checked {R E} (v : option E) (tx : transaction (result R E)) : transaction (result R E) :=
  fun s => match v with Some e => (Err e, None) | None => tx s end.

Definition transact_checked {R E} (t_load t_write : Z) (v : option E)
    (tx : transaction (result R E)) (st : store) : result R E * store :=
  match v with Some e => (Err e, st) | None => transact t_load t_write tx st end.

Lemma transact_checked_spec {R E} t_load t_write (v : option E) (tx : transaction (result R E)) st :
  coherent st -> writes_storable (checked v tx) (view st) ->
  fst (transact_checked t_load t_write v tx st) = fst (checked v tx (view st)) /\
  view (snd (transact_checked t_load t_write v tx st)) = after (checked v tx) (view st) /\
  coherent (snd (transact_checked t_load t_write v tx st)).
Proof. intros Hc Hw. unfold transact_checked, checked in *. destruct v; [done|]. by apply transact_spec. Qed.

End Cached.

Arguments store S {_}.
Arguments Store {S _} disk cache.
Arguments disk {S _} _.
Arguments cache {S _} _.
Arguments boot {S _} f.
Arguments load {S _} CACHE_TTL_MS now st.
Arguments save {S _} now s st.
Arguments coherent {S _} st.
Arguments view {S _} st.
Arguments transaction S R : clear implicits.
Arguments transact {S _} CACHE_TTL_MS {R} t_load t_write tx st.
Arguments checked {S R E} v tx.
Arguments transact_checked {S _} CACHE_TTL_MS {R E} t_load t_write v tx st.
Arguments after {S R} tx s.
Arguments writes_storable {S _ R} tx s.

(** The stores without a cache read the file each time. *)
Section Uncached.
Context {S : Type} `{Persisted S}.

Definition on_file {R} (tx : transaction S R) (f : file S) : R * file S :=
  let '(r, w) := tx (read_file f) in
  (r, match w with Some s' => write_file s' | None => f end).

Lemma on_file_result {R} (tx : transaction S R) f : fst (on_file tx f) = fst (tx (read_file f)).
Proof. unfold on_file. by destruct (tx (read_file f)). Qed.

Lemma on_file_view {R} (tx : transaction S R) f :
  writes_storable tx (read_file f) -> read_file (snd (on_file tx f)) = after tx (read_file f).
Proof.
  unfold writes_storable, on_file, after. destruct (tx (read_file f)) as [r [s'|]]; simpl; [|done].
  intros Hw. apply read_write. by apply Hw.
Qed.
End Uncached.

#[export] Hint Resolve boot_coherent load_coherent save_coherent : claw.
Create Rewrite HintDb store.
#[export] Hint Rewrite @load_view_after @load_disk @on_file_result : store.
#[export] Hint Rewrite @load_view @save_view @save_load using (solve [eauto with claw]) : store.
