(* ===== verification/Interleave.v ===== *)
(** Overlapping operations on one store.

    An operation awaits its read and its write, so the event loop may run other
    operations in between. A schedule says in which order the reads and writes
    of a set of transactions happen. A store that chains its operations on a
    promise ([writeQueue = writeQueue.then(...)]) only has serial schedules;
    one that does not also has the schedules in which an operation writes back a
    copy made before another operation wrote. *)
From S2P Require Import Prelude JsNum JsDate IsoTime Json Store.

Section Schedule.
Context {S R : Type}.

Inductive access := Read (i : nat) | Write (i : nat).

(** The file, the copy each started operation computed, the results. *)
Record config := Config {
  shared : S;
  computed : gmap nat (R * option S);
  results : gmap nat R;
}.

Definition start (s : S) : config := Config s ∅ ∅.

Definition perform (txs : list (transaction S R)) (c : config) (a : access) : config :=
  match a with
  | Read i =>
      match txs !! i with
      | Some tx => Config (shared c) (<[i := tx (shared c)]> (computed c)) (results c)
      | None => c
      end
  | Write i =>
      match computed c !! i with
      | Some (r, w) => Config (from_option (fun s => s) (shared c) w) (computed c) (<[i := r]> (results c))
      | None => c
      end
  end.

Definition perform_all txs (sched : list access) (c : config) : config :=
  fold_left (perform txs) sched c.

(** One operation after the other, in the given order. *)
Definition serial (order : list nat) : list access :=
  flat_map (fun i => [Read i; Write i]) order.

(** The state after running the transactions one by one. *)
Definition sequentially (txs : list (transaction S R)) (order : list nat) (s : S) : S :=
  fold_left (fun s i => match txs !! i with Some tx => after tx s | None => s end) order s.

Lemma perform_all_app txs a b c : perform_all txs (a ++ b) c = perform_all txs b (perform_all txs a c).
Proof. unfold perform_all. apply fold_left_app. Qed.

Lemma perform_read txs c i tx :
  txs !! i = Some tx -> perform txs c (Read i) = Config (shared c) (<[i := tx (shared c)]> (computed c)) (results c).
Proof. intros Hi. unfold perform. by rewrite Hi. Qed.

Lemma perform_write txs c i r w :
  computed c !! i = Some (r, w) ->
  perform txs c (Write i) = Config (from_option (fun s => s) (shared c) w) (computed c) (<[i := r]> (results c)).
Proof. intros Hi. unfold perform. by rewrite Hi. Qed.

Lemma perform_pair txs c i tx :
  txs !! i = Some tx ->
  shared (perform_all txs [Read i; Write i] c) = after tx (shared c) /\
  results (perform_all txs [Read i; Write i] c) !! i = Some (fst (tx (shared c))).
Proof.
  intros Hi. unfold perform_all, after. cbn [fold_left]. rewrite (perform_read _ _ _ _ Hi).
  destruct (tx (shared c)) as [r w]. rewrite (perform_write _ _ i r w) by apply lookup_insert_eq.
  simpl. by rewrite lookup_insert_eq.
Qed.

(** A promise chain makes the operations sequential. *)
Lemma serial_sequential txs order c :
  Forall (fun i => (i < length txs)%nat) order ->
  shared (perform_all txs (serial order) c) = sequentially txs order (shared c).
Proof.
  revert c; induction order as [|i order IH]; intros c Ho; [done|].
  inversion Ho as [|? ? Hi Ho']; subst. unfold serial. cbn [flat_map]. fold (serial order).
  rewrite perform_all_app, IH by done. unfold sequentially. cbn [fold_left].
  apply lookup_lt_is_Some in Hi as [tx Htx]. rewrite Htx. f_equal. by apply perform_pair.
Qed.

(** Two operations that both read before either writes: each computes on the
    initial state, and the last write is the one that remains. *)
Lemma overlap_results tx0 tx1 s :
  let c := perform_all [tx0; tx1] [Read 0; Read 1; Write 0; Write 1] (start s) in
  results c !! 0%nat = Some (fst (tx0 s)) /\ results c !! 1%nat = Some (fst (tx1 s)) /\
  shared c = from_option (fun s => s) (from_option (fun s => s) s (snd (tx0 s))) (snd (tx1 s)).
Proof.
  unfold perform_all. cbn [fold_left].
  rewrite (perform_read _ _ 0%nat tx0), (perform_read _ _ 1%nat tx1) by done. cbn [shared computed results start].
  destruct (tx0 s) as [r0 w0], (tx1 s) as [r1 w1].
  rewrite (perform_write _ _ 0%nat r0 w0), (perform_write _ _ 1%nat r1 w1).
  - cbn [shared results fst snd]. by rewrite (lookup_insert_ne _ 1%nat 0%nat), !lookup_insert_eq by done.
  - apply lookup_insert_eq.
  - cbn [computed]. by rewrite (lookup_insert_ne _ 1%nat 0%nat), lookup_insert_eq by done.
Qed.
End Schedule.

Arguments config : clear implicits.
Arguments Config {S R} shared computed results.
Arguments shared {S R} _.
Arguments results {S R} _.
Arguments start {S R} s.

(** Transactions with different results can be scheduled together. *)
Definition silently {S R} (tx : transaction S R) : transaction S unit :=
  fun s => (tt, snd (tx s)).
