(* ===== verification/DualControl.v ===== *)
(** Maker/checker approvals: [web/lib/dualControlStore.ts].

    A destructive admin action is requested by one key, approved by another,
    and executed by the first with a one-time token. The operations are
    transactions on the list of requests; [Lifecycle] proves what a history of
    operations can and cannot do. *)
From S2P Require Import Prelude JsNum JsDate IsoTime Json Store Interleave.

Definition TTL_MS : Z := 30 * 60 * 1000.
Definition APPROVAL_TTL_MS : Z := 10 * 60 * 1000.
Definition MAX_REASON_LEN : Z := 500.
Definition CACHE_TTL_MS : Z := 250.

Inductive ApprovalStatus := pending | approved | consumed | cancelled | expired.

#[export] Instance ApprovalStatus_eq_dec : EqDecision ApprovalStatus.
Proof. solve_decision. Defined.

Record ApprovalRequest := {
  id : string;
  action : string;
  target : string;
  reason : string;
  requested_by : string;
  requested_at : Z;
  expires_at : Z;
  status : ApprovalStatus;
  approved_by : option string;
  approved_at : option Z;
  approval_token_hash : option string;
  approval_token_expires_at : option Z;
  consumed_at : option Z;
  cancelled_at : option Z;
  cancelled_by : option string;
}.

(** [State]: the requests, oldest first. The file is only written by this
    module, so it holds the state itself. *)
Abbreviation State := (list ApprovalRequest).

#[export] Program Instance State_persisted : Persisted State := {|
  raw := State; encode s := s; decode s := s; absent := []; storable _ := True |}.
Next Obligation. done. Qed.

(** ** [hashToken]: two 32-bit lanes, unsigned representatives in [0, 2^32). *)

Definition w32 (n : Z) : Z := n mod 2 ^ 32.
Definition imul (a b : Z) : Z := w32 (a * b).

Fixpoint hash_lanes (h1 h2 : Z) (s : string) : Z * Z :=
  match s with
  | "" => (h1, h2)
  | String c r => hash_lanes (imul (Z.lxor h1 (code c)) 2654435761) (imul (Z.lxor h2 (code c)) 1597334677) r
  end.

Definition hex_digit (n : Z) : Ascii.ascii := if n <? 10 then chr (48 + n) else chr (87 + n).

(** [n.toString(16).padStart(k, "0")] for [0 <= n < 16 ^ k]. *)
Fixpoint hex (k : nat) (n : Z) : string :=
  match k with
  | O => ""
  | S k' => String (hex_digit (n / 16 ^ Z.of_nat k')) (hex k' (n mod 16 ^ Z.of_nat k'))
  end.

Definition hashToken (tok : string) : string :=
  let n := str_len tok in
  let '(h1, h2) := hash_lanes (Z.lxor 3735928559 n) (Z.lxor 1103547991 n) tok in
  let h1 := Z.lxor (imul (Z.lxor h1 (Z.shiftr h1 16)) 2246822507) (imul (Z.lxor h2 (Z.shiftr h2 13)) 3266489909) in
  let h2 := Z.lxor (imul (Z.lxor h2 (Z.shiftr h2 16)) 2246822507) (imul (Z.lxor h1 (Z.shiftr h1 13)) 3266489909) in
  hex 8 h2 +:+ hex 8 h1.

(** ** Field updates *)

Definition mark_expired (r : ApprovalRequest) : ApprovalRequest :=
  {| id := id r; action := action r; target := target r; reason := reason r;
     requested_by := requested_by r; requested_at := requested_at r; expires_at := expires_at r;
     status := expired; approved_by := approved_by r; approved_at := approved_at r;
     approval_token_hash := approval_token_hash r;
     approval_token_expires_at := approval_token_expires_at r;
     consumed_at := consumed_at r; cancelled_at := cancelled_at r; cancelled_by := cancelled_by r |}.

Definition drop_token (r : ApprovalRequest) : ApprovalRequest :=
  {| id := id r; action := action r; target := target r; reason := reason r;
     requested_by := requested_by r; requested_at := requested_at r; expires_at := expires_at r;
     status := status r; approved_by := approved_by r; approved_at := approved_at r;
     approval_token_hash := None;
     approval_token_expires_at := approval_token_expires_at r;
     consumed_at := consumed_at r; cancelled_at := cancelled_at r; cancelled_by := cancelled_by r |}.

Definition mark_approved (approver : string) (now : Z) (hash : string) (r : ApprovalRequest) : ApprovalRequest :=
  {| id := id r; action := action r; target := target r; reason := reason r;
     requested_by := requested_by r; requested_at := requested_at r; expires_at := expires_at r;
     status := approved; approved_by := Some approver; approved_at := Some now;
     approval_token_hash := Some hash;
     approval_token_expires_at := Some (now + APPROVAL_TTL_MS);
     consumed_at := consumed_at r; cancelled_at := cancelled_at r; cancelled_by := cancelled_by r |}.

Definition mark_cancelled (actor : string) (now : Z) (r : ApprovalRequest) : ApprovalRequest :=
  {| id := id r; action := action r; target := target r; reason := reason r;
     requested_by := requested_by r; requested_at := requested_at r; expires_at := expires_at r;
     status := cancelled; approved_by := approved_by r; approved_at := approved_at r;
     approval_token_hash := None;
     approval_token_expires_at := approval_token_expires_at r;
     consumed_at := consumed_at r; cancelled_at := Some now;
     cancelled_by := if truthy actor then Some actor else None |}.

Definition mark_consumed (now : Z) (r : ApprovalRequest) : ApprovalRequest :=
  {| id := id r; action := action r; target := target r; reason := reason r;
     requested_by := requested_by r; requested_at := requested_at r; expires_at := expires_at r;
     status := consumed; approved_by := approved_by r; approved_at := approved_at r;
     approval_token_hash := None;
     approval_token_expires_at := approval_token_expires_at r;
     consumed_at := Some now; cancelled_at := cancelled_at r; cancelled_by := cancelled_by r |}.

(** ** [expireSweep] *)

Definition sweep_one (now : Z) (r : ApprovalRequest) : ApprovalRequest :=
  if bool_decide (status r = pending) && (expires_at r <=? now) then mark_expired r
  else match approval_token_expires_at r with
       | Some e => if bool_decide (status r = approved) && (e <=? now)
                   then drop_token (mark_expired r) else r
       | None => r
       end.

Definition expireSweep (now : Z) (s : State) : State := sweep_one now <$> s.

(** ** [requestApproval] *)

Inductive RequestCode := bad_action | bad_target | bad_reason | bad_requester.

Record RequestInput := {
  in_action : string; in_target : string; in_reason : string; in_requested_by : string }.

Definition is_lower (c : Ascii.ascii) : bool := let n := code c in (97 <=? n) && (n <=? 122).
Definition is_word (c : Ascii.ascii) : bool :=
  let n := code c in is_lower c || ((48 <=? n) && (n <=? 57)) || (n =? 95).

(** [[a-z][a-z0-9_]*]. *)
Definition identifier (s : string) : bool :=
  match s with "" => false | String c r => is_lower c && str_forall is_word r end.

(** [ACTION_RE = /^[a-z][a-z0-9_]*\.[a-z][a-z0-9_]*$/]. *)
Definition ACTION_RE (s : string) : bool :=
  match split "." s with [a; b] => identifier a && identifier b | _ => false end.

Definition new_request (rid : string) (input : RequestInput) (reason : string) (now : Z) : ApprovalRequest :=
  {| id := rid; action := in_action input; target := in_target input; reason := reason;
     requested_by := in_requested_by input; requested_at := now; expires_at := now + TTL_MS;
     status := pending; approved_by := None; approved_at := None; approval_token_hash := None;
     approval_token_expires_at := None; consumed_at := None; cancelled_at := None; cancelled_by := None |}.

Definition same_pending (input : RequestInput) (r : ApprovalRequest) : Prop :=
  status r = pending /\ action r = in_action input /\ target r = in_target input
  /\ requested_by r = in_requested_by input.

#[export] Instance same_pending_dec input r : Decision (same_pending input r).
Proof. unfold same_pending. apply _. Defined.

Definition check_request (input : RequestInput) : option RequestCode :=
  let reason := trim (in_reason input) in
  if negb (truthy (in_action input)) || negb (ACTION_RE (in_action input)) then Some bad_action
  else if negb (truthy (in_target input)) || (str_len (in_target input) >? 200) then Some bad_target
  else if negb (truthy reason) then Some bad_reason
  else if str_len reason >? MAX_REASON_LEN then Some bad_reason
  else if negb (truthy (in_requested_by input)) then Some bad_requester
  else None.

(** The readings of the clock are, in order: the cache test of [loadState], the
    sweep, [new Date()], and the [loadedAt] of [writeState]. *)
Definition request_body (clk : clock) (rid : string) (input : RequestInput)
  : transaction State (result ApprovalRequest RequestCode) := fun s =>
  let s := expireSweep (clk 1%nat) s in
  match list_find (same_pending input) s with
  | Some (_, dup) => (Ok dup, None)
  | None =>
      let req := new_request rid input (trim (in_reason input)) (clk 2%nat) in
      (Ok req, Some (s ++ [req]))
  end.

Definition requestApproval clk rid input (st : store State) :=
  transact_checked CACHE_TTL_MS (clk 0%nat) (clk 3%nat) (check_request input) (request_body clk rid input) st.

(** ** [approveRequest] *)

Inductive ApproveCode := a_not_found | a_not_pending | a_expired | self_approval | bad_approver.

Record ApproveInput := { ap_id : string; ap_approver : string }.

Definition check_approver (input : ApproveInput) : option ApproveCode :=
  if negb (truthy (ap_approver input)) then Some bad_approver else None.

Definition approve_body (clk : clock) (token : string) (input : ApproveInput)
  : transaction State (result (ApprovalRequest * string) ApproveCode) := fun s =>
  let s := expireSweep (clk 1%nat) s in
  match list_find (fun r => id r = ap_id input) s with
  | None => (Err a_not_found, None)
  | Some (i, r) =>
      if bool_decide (status r = expired) then (Err a_expired, None)
      else if negb (bool_decide (status r = pending)) then (Err a_not_pending, None)
      else if bool_decide (requested_by r = ap_approver input) then (Err self_approval, None)
      else
        let r' := mark_approved (ap_approver input) (clk 2%nat) (hashToken token) r in
        (Ok (r', token), Some (<[i := r']> s))
  end.

Definition approveRequest clk token input (st : store State) :=
  transact_checked CACHE_TTL_MS (clk 0%nat) (clk 3%nat) (check_approver input) (approve_body clk token input) st.

(** ** [cancelRequest] *)

Inductive CancelCode := c_not_found | not_cancellable.

Record CancelInput := { ca_id : string; ca_actor : string }.

Definition cancel_tx (clk : clock) (input : CancelInput)
  : transaction State (result ApprovalRequest CancelCode) := fun s =>
  let s := expireSweep (clk 1%nat) s in
  match list_find (fun r => id r = ca_id input) s with
  | None => (Err c_not_found, None)
  | Some (i, r) =>
      if negb (bool_decide (status r = pending)) && negb (bool_decide (status r = approved))
      then (Err not_cancellable, None)
      else let r' := mark_cancelled (ca_actor input) (clk 2%nat) r in (Ok r', Some (<[i := r']> s))
  end.

Definition cancelRequest clk input (st : store State) :=
  transact CACHE_TTL_MS (clk 0%nat) (clk 3%nat) (cancel_tx clk input) st.

(** ** [consumeApproval] *)

Inductive ConsumeCode :=
  missing_token | bad_token | not_approved | t_expired | action_mismatch | target_mismatch | wrong_caller.

Record ConsumeInput := { co_action : string; co_target : string; co_token : string; co_caller : string }.

Definition check_token (input : ConsumeInput) : option ConsumeCode :=
  if negb (truthy (co_token input)) then Some missing_token else None.

Definition consume_body (clk : clock) (input : ConsumeInput)
  : transaction State (result ApprovalRequest ConsumeCode) := fun s =>
  let s := expireSweep (clk 1%nat) s in
  let hash := hashToken (co_token input) in
  match list_find (fun r => approval_token_hash r = Some hash) s with
  | None => (Err bad_token, None)
  | Some (i, r) =>
      if negb (bool_decide (status r = approved)) then (Err not_approved, None)
      else if match approval_token_expires_at r with None => true | Some e => e <=? clk 2%nat end
      then (Err t_expired, Some (<[i := drop_token (mark_expired r)]> s))
      else if negb (bool_decide (action r = co_action input)) then (Err action_mismatch, None)
      else if negb (bool_decide (target r = co_target input)) then (Err target_mismatch, None)
      else if negb (bool_decide (requested_by r = co_caller input)) then (Err wrong_caller, None)
      else let r' := mark_consumed (clk 3%nat) r in (Ok r', Some (<[i := r']> s))
  end.

Definition consumeApproval clk input (st : store State) :=
  transact_checked CACHE_TTL_MS (clk 0%nat) (clk 4%nat) (check_token input) (consume_body clk input) st.

(** ** [listRequests], [getRequest], [publicView] *)

Definition list_tx (clk : clock) (filter_status : option ApprovalStatus)
  : transaction State (list ApprovalRequest) := fun s =>
  let s := expireSweep (clk 1%nat) s in
  let rows := js_sort (newest_first requested_at) s in
  (match filter_status with
   | Some x => filter (fun r => status r = x) rows
   | None => rows
   end, Some s).

Definition listRequests clk opts (st : store State) :=
  transact CACHE_TTL_MS (clk 0%nat) (clk 2%nat) (list_tx clk opts) st.

Definition get_tx (clk : clock) (rid : string) : transaction State (option ApprovalRequest) := fun s =>
  (snd <$> list_find (fun r => id r = rid) (expireSweep (clk 1%nat) s), None).

Definition getRequest clk rid (st : store State) :=
  transact CACHE_TTL_MS (clk 0%nat) (clk 2%nat) (get_tx clk rid) st.

(** The request without its token hash. *)
Definition publicView (r : ApprovalRequest) : ApprovalRequest := drop_token r.

(** ** Histories of operations *)

(** The three validated operations as transactions. *)
Definition request_tx clk rid input := checked (check_request input) (request_body clk rid input).
Definition approve_tx clk token input := checked (check_approver input) (approve_body clk token input).
Definition consume_tx clk input := checked (check_token input) (consume_body clk input).

Module Lifecycle.

Inductive event :=
| Request (clk : clock) (rid : string) (input : RequestInput)
| Approve (clk : clock) (token : string) (input : ApproveInput)
| Cancel (clk : clock) (input : CancelInput)
| Consume (clk : clock) (input : ConsumeInput)
| List_ (clk : clock) (filter_status : option ApprovalStatus)
| Get (clk : clock) (rid : string).

Definition run (e : event) : State -> State :=
  match e with
  | Request clk rid input => after (request_tx clk rid input)
  | Approve clk token input => after (approve_tx clk token input)
  | Cancel clk input => after (cancel_tx clk input)
  | Consume clk input => after (consume_tx clk input)
  | List_ clk o => after (list_tx clk o)
  | Get clk rid => after (get_tx clk rid)
  end.

Definition live_hashes (s : State) : list string := omap approval_token_hash s.

(** What the random generators provide: an id and a token never seen. *)
Definition fresh (e : event) (s : State) : Prop :=
  match e with
  | Request _ rid _ => rid ∉ (id <$> s)
  | Approve _ token _ => hashToken token ∉ live_hashes s
  | _ => True
  end.

Inductive step (s : State) : State -> Prop :=
| step_run e : fresh e s -> step s (run e s).

Definition reachable : State -> Prop := rtc step [].

(** ** The invariant of a request *)

Definition approved_by_other (r : ApprovalRequest) : Prop :=
  exists a, approved_by r = Some a /\ a <> requested_by r.

Definition request_ok (r : ApprovalRequest) : Prop :=
  expires_at r = requested_at r + TTL_MS /\
  match status r with
  | pending => approved_by r = None /\ approval_token_hash r = None /\ approval_token_expires_at r = None
               /\ consumed_at r = None
  | approved => approved_by_other r /\ is_Some (approval_token_hash r) /\ consumed_at r = None
                /\ exists at_, approved_at r = Some at_ /\ approval_token_expires_at r = Some (at_ + APPROVAL_TTL_MS)
  | consumed => approved_by_other r /\ approval_token_hash r = None /\ is_Some (consumed_at r)
  | cancelled | expired => approval_token_hash r = None /\ consumed_at r = None
  end.

Record state_ok (s : State) : Prop := {
  all_ok : Forall request_ok s;
  ids_unique : NoDup (id <$> s);
  hashes_unique : NoDup (live_hashes s);
}.

(** [r'] is [r] later in its life: who asked for what never changes, and a
    settled request never changes at all. *)
Definition settled (x : ApprovalStatus) : Prop := x = consumed \/ x = cancelled \/ x = expired.

Definition status_step (x y : ApprovalStatus) : Prop :=
  x = y \/ x = pending \/ (x = approved /\ y <> pending).

Record evolves (r r' : ApprovalRequest) : Prop := {
  same_subject : id r' = id r /\ action r' = action r /\ target r' = target r
    /\ requested_by r' = requested_by r /\ reason r' = reason r
    /\ requested_at r' = requested_at r /\ expires_at r' = expires_at r;
  status_moves : status_step (status r) (status r');
  settled_fixed : settled (status r) -> r' = r;
}.

#[export] Instance evolves_reflexive : Reflexive evolves.
Proof. intros r. constructor; [naive_solver|by left|done]. Qed.

#[export] Instance status_step_transitive : Transitive status_step.
Proof. intros x y z. unfold status_step. destruct x, y, z; naive_solver. Qed.

#[export] Instance evolves_transitive : Transitive evolves.
Proof.
  intros r1 r2 r3 [S1 M1 F1] [S2 M2 F2]. constructor.
  - destruct_and!. repeat split; congruence.
  - by etrans.
  - intros Hs. assert (r2 = r1) as -> by auto. auto.
Qed.

(** *** The sweep *)

Lemma sweep_evolves now r : evolves r (sweep_one now r).
Proof.
  unfold sweep_one. destruct (bool_decide (status r = pending) && _) eqn:E.
  - bool_to_prop. constructor; simpl; [naive_solver| |].
    + rewrite H. by right; left.
    + rewrite H. intros [?|[?|?]]; discriminate.
  - destruct (approval_token_expires_at r) as [t|]; [|reflexivity].
    destruct (bool_decide (status r = approved) && _) eqn:E2; [|reflexivity].
    bool_to_prop. constructor; simpl; [naive_solver| |].
    + rewrite H. by right; right.
    + rewrite H. intros [?|[?|?]]; discriminate.
Qed.

Lemma sweep_ok now r : request_ok r -> request_ok (sweep_one now r).
Proof.
  intros Hok. pose proof Hok as [He Hr]. unfold sweep_one.
  destruct (bool_decide (status r = pending) && _) eqn:E.
  - bool_to_prop. rewrite H in Hr. split; simpl; naive_solver.
  - destruct (approval_token_expires_at r) as [t|] eqn:Et; [|done].
    destruct (bool_decide (status r = approved) && _) eqn:E2; [|done].
    bool_to_prop. rewrite H in Hr. split; simpl; naive_solver.
Qed.

Lemma sweep_hash now r h :
  approval_token_hash (sweep_one now r) = Some h -> approval_token_hash r = Some h.
Proof. unfold sweep_one. repeat case_match; simpl; done. Qed.

Lemma sweep_id now r : id (sweep_one now r) = id r.
Proof. apply (same_subject _ _ (sweep_evolves now r)). Qed.

Lemma sweep_ids now s : id <$> expireSweep now s = id <$> s.
Proof. unfold expireSweep. rewrite <- list_fmap_compose. apply list_fmap_ext. intros. apply sweep_id. Qed.

(** *** Live token hashes *)

Lemma live_hashes_elem s h : h ∈ live_hashes s <-> exists r, r ∈ s /\ approval_token_hash r = Some h.
Proof. unfold live_hashes. apply list_elem_of_omap. Qed.

(** Hashes disappear, they do not move: a pointwise change that only erases
    hashes keeps them distinct. *)
Lemma live_hashes_erase (f : ApprovalRequest -> ApprovalRequest) s :
  (forall r h, approval_token_hash (f r) = Some h -> approval_token_hash r = Some h) ->
  live_hashes (f <$> s) `sublist_of` live_hashes s.
Proof.
  intros Hf. induction s as [|r s IH]; [constructor|]. csimpl.
  destruct (approval_token_hash (f r)) as [h|] eqn:E.
  - rewrite (Hf _ _ E). by constructor.
  - destruct (approval_token_hash r); [by constructor|done].
Qed.

Lemma live_hashes_insert_erase s i r r' :
  s !! i = Some r -> approval_token_hash r' = None ->
  live_hashes (<[i := r']> s) `sublist_of` live_hashes s.
Proof.
  intros Hi Hr'. revert i Hi; induction s as [|x s IH]; intros [|i] Hi; simplify_eq/=; csimpl.
  - rewrite Hr'. destruct (approval_token_hash r); [by constructor|done].
  - specialize (IH _ Hi). destruct (approval_token_hash x); [by constructor|done].
Qed.

Lemma live_hashes_insert_new s i r r' h :
  s !! i = Some r -> approval_token_hash r = None -> approval_token_hash r' = Some h ->
  h ∉ live_hashes s -> NoDup (live_hashes s) -> NoDup (live_hashes (<[i := r']> s)).
Proof.
  intros Hi Hr Hr' Hh Hn. enough (live_hashes (<[i := r']> s) ≡ₚ h :: live_hashes s) as ->
    by (by constructor).
  clear Hh Hn. revert i Hi; induction s as [|x s IH]; intros [|i] Hi; simplify_eq/=; csimpl.
  - by rewrite Hr, Hr'.
  - specialize (IH _ Hi). destruct (approval_token_hash x); [|done].
    rewrite IH. apply Permutation_swap.
Qed.

(** *** Preservation *)

Lemma sweep_state_ok now s : state_ok s -> state_ok (expireSweep now s).
Proof.
  intros [Ha Hi Hh]. constructor.
  - apply Forall_fmap. eapply Forall_impl; [exact Ha|]. intros r. apply sweep_ok.
  - by rewrite sweep_ids.
  - eapply sublist_NoDup; [exact Hh|]. apply live_hashes_erase. intros r h. apply sweep_hash.
Qed.

(** Replacing a request by a later version of it that carries no token. *)
Lemma insert_erased_ok s i r r' :
  state_ok s -> s !! i = Some r -> request_ok r' -> id r' = id r -> approval_token_hash r' = None ->
  state_ok (<[i := r']> s).
Proof.
  intros [Ha Hi Hh] Hl Hr Hid Hn. constructor.
  - by apply Forall_insert.
  - by rewrite (fmap_insert_same id s i r r').
  - eapply sublist_NoDup; [exact Hh|]. by eapply live_hashes_insert_erase.
Qed.

Lemma lookup_ok s i r : state_ok s -> s !! i = Some r -> request_ok r.
Proof. intros [Ha _ _] Hl. by eapply Forall_lookup_1. Qed.

(** ** The protocol

    What one operation may do to the list of requests, with the condition under
    which it does it. *)

Inductive protocol (s : State) : State -> Prop :=
| p_idle : protocol s s
| p_sweep now : protocol s (expireSweep now s)
| p_request now req :
    status req = pending -> request_ok req -> id req ∉ (id <$> s) ->
    protocol s (expireSweep now s ++ [req])
| p_approve now i r approver now' hash :
    expireSweep now s !! i = Some r -> status r = pending -> approver <> requested_by r ->
    hash ∉ live_hashes s ->
    protocol s (<[i := mark_approved approver now' hash r]> (expireSweep now s))
| p_cancel now i r actor now' :
    expireSweep now s !! i = Some r -> status r = pending \/ status r = approved ->
    protocol s (<[i := mark_cancelled actor now' r]> (expireSweep now s))
| p_lapse now i r :
    expireSweep now s !! i = Some r -> status r = approved ->
    protocol s (<[i := drop_token (mark_expired r)]> (expireSweep now s))
| p_consume now i r now' :
    expireSweep now s !! i = Some r -> status r = approved ->
    protocol s (<[i := mark_consumed now' r]> (expireSweep now s)).

(** Take apart the first search of a transaction. *)
Ltac find_request :=
  match goal with
  | |- context [list_find ?P ?l] =>
      destruct (list_find P l) as [[i r]|] eqn:Hfind;
      [apply list_find_lookup in Hfind as [Hlook Hpred]|]
  end.

Lemma consume_protocol clk input s : protocol s (run (Consume clk input) s).
Proof.
  cbn [run]. unfold after, consume_tx, checked, consume_body.
  destruct (check_token input); [constructor|]. cbn zeta. find_request; [|constructor].
  destruct (negb (bool_decide (status r = approved))) eqn:Est; [constructor|]. bool_to_prop.
  destruct (match approval_token_expires_at r with Some _ => _ | None => _ end); [by apply p_lapse|].
  repeat (destruct (negb (bool_decide _)); [constructor|]). by apply p_consume.
Qed.

Lemma approve_protocol clk token input s :
  hashToken token ∉ live_hashes s -> protocol s (run (Approve clk token input) s).
Proof.
  intros Hf. cbn [run]. unfold after, approve_tx, checked, approve_body.
  destruct (check_approver input); [constructor|]. cbn zeta. find_request; [|constructor].
  destruct (bool_decide (status r = expired)); [constructor|].
  destruct (negb (bool_decide (status r = pending))) eqn:Est; [constructor|]. bool_to_prop.
  destruct (bool_decide (requested_by r = _)) eqn:Eself; [constructor|]. bool_to_prop.
  apply p_approve; [done|done|congruence|done].
Qed.

Lemma cancel_protocol clk input s : protocol s (run (Cancel clk input) s).
Proof.
  cbn [run]. unfold after, cancel_tx. cbn zeta. find_request; [|constructor].
  destruct (negb (bool_decide (status r = pending)) && _) eqn:Est; [constructor|].
  bool_to_prop. apply p_cancel; [done|]. destruct Est; bool_to_prop; auto.
Qed.

Lemma request_protocol clk rid input s :
  rid ∉ (id <$> s) -> protocol s (run (Request clk rid input) s).
Proof.
  intros Hf. cbn [run]. unfold after, request_tx, checked, request_body. cbn zeta.
  destruct (check_request input); [constructor|].
  match goal with |- context [list_find ?P ?l] => destruct (list_find P l) as [[i dup]|] end; [constructor|].
  apply p_request; simpl; [done| |done]. split; simpl; naive_solver.
Qed.

Lemma run_protocol e s : fresh e s -> protocol s (run e s).
Proof.
  destruct e; intros Hf.
  - by apply request_protocol.
  - by apply approve_protocol.
  - apply cancel_protocol.
  - apply consume_protocol.
  - apply p_sweep.
  - apply p_idle.
Qed.

(** *** The invariant is kept *)

Lemma live_hashes_app s r : live_hashes (s ++ [r]) = live_hashes s ++ option_list (approval_token_hash r).
Proof. unfold live_hashes. rewrite omap_app. csimpl. by destruct (approval_token_hash r). Qed.

Lemma sweep_live_hashes now s : live_hashes (expireSweep now s) ⊆ live_hashes s.
Proof.
  intros h. rewrite !live_hashes_elem. intros (r & Hr & Hh).
  apply list_elem_of_fmap in Hr as (r0 & -> & Hr0). exists r0. split; [done|]. by eapply sweep_hash.
Qed.

Lemma protocol_state_ok s s' : protocol s s' -> state_ok s -> state_ok s'.
Proof.
  intros Hp Hs. destruct Hp as [|now|now req Hpend Hok Hid|now i r a now' h Hl Hst Hne Hh
    |now i r actor now' Hl Hst|now i r Hl Hst|now i r now' Hl Hst]; [done|by apply sweep_state_ok|..];
  pose proof (sweep_state_ok now s Hs) as Hsw.
  - destruct Hsw as [Ha Hi Hh]. constructor.
    + apply Forall_app. split; [done|]. by constructor.
    + rewrite fmap_app, sweep_ids. apply NoDup_app. split; [by apply Hs|]. split; [|apply NoDup_singleton].
      intros x Hx. simpl. rewrite list_elem_of_singleton. by intros ->.
    + rewrite live_hashes_app. destruct Hok as [_ Hok]. rewrite Hpend in Hok.
      destruct Hok as (_ & -> & _). simpl. by rewrite app_nil_r.
  - pose proof (lookup_ok _ _ _ Hsw Hl) as [He Hr]. rewrite Hst in Hr. destruct Hr as (Hb & Hhash & _ & Hc).
    destruct Hsw as [Ha Hi Hn]. constructor.
    + apply Forall_insert; [done|]. split; simpl; [done|]. unfold approved_by_other; simpl. eauto 10.
    + by rewrite (fmap_insert_same id _ i r).
    + eapply live_hashes_insert_new; [done|done|done| |done]. intros Hin. by apply sweep_live_hashes in Hin.
  - pose proof (lookup_ok _ _ _ Hsw Hl) as [He Hr].
    eapply insert_erased_ok; [done|done| |done|done]. split; simpl; [done|].
    destruct Hst as [Hst|Hst]; rewrite Hst in Hr; naive_solver.
  - pose proof (lookup_ok _ _ _ Hsw Hl) as [He Hr]. rewrite Hst in Hr.
    eapply insert_erased_ok; [done|done| |done|done]. split; simpl; naive_solver.
  - pose proof (lookup_ok _ _ _ Hsw Hl) as [He Hr]. rewrite Hst in Hr.
    eapply insert_erased_ok; [done|done| |done|done]. split; simpl; [done|].
    destruct Hr as (Hb & _). unfold approved_by_other in *; simpl. eauto.
Qed.

Lemma empty_ok : state_ok [].
Proof. repeat constructor. Qed.

Lemma step_ok s s' : step s s' -> state_ok s -> state_ok s'.
Proof. intros [e Hf] Hs. by eapply protocol_state_ok; [apply run_protocol|]. Qed.

Lemma reachable_ok s : reachable s -> state_ok s.
Proof.
  intros Hr. unfold reachable in Hr. remember [] as s0 eqn:E. assert (state_ok s0) as H0 by (subst; apply empty_ok).
  clear E. induction Hr as [s|s1 s2 s3 H1 _ IH]; [done|]. apply IH. by eapply step_ok.
Qed.

(** *** Requests only move forward *)

Lemma sweep_all_evolve now s : Forall2 evolves s (expireSweep now s).
Proof.
  unfold expireSweep. induction s as [|r s IH]; csimpl; constructor; [apply sweep_evolves|done].
Qed.

Lemma evolve_insert s s' i r r' :
  Forall2 evolves s s' -> s' !! i = Some r -> evolves r r' -> Forall2 evolves s (<[i := r']> s').
Proof.
  intros HF Hl He. rewrite Forall2_lookup in *. intros j. specialize (HF j).
  destruct (decide (i = j)) as [<-|Hne].
  - rewrite list_lookup_insert_eq by (by eapply lookup_lt_Some). rewrite Hl in HF.
    inversion HF; subst. constructor. by etrans.
  - by rewrite list_lookup_insert_ne.
Qed.

Lemma unsettled_evolves r r' :
  id r' = id r /\ action r' = action r /\ target r' = target r
    /\ requested_by r' = requested_by r /\ reason r' = reason r
    /\ requested_at r' = requested_at r /\ expires_at r' = expires_at r ->
  status_step (status r) (status r') -> ~ settled (status r) -> evolves r r'.
Proof. intros ???. by constructor. Qed.

Lemma protocol_evolves s s' :
  protocol s s' -> exists new, Forall2 evolves s (take (length s) s') /\ s' = take (length s) s' ++ new
    /\ (length new <= 1)%nat.
Proof.
  assert (Hlen : forall now, length s = length (expireSweep now s)) by (intros; unfold expireSweep; by rewrite length_fmap).
  assert (Hins : forall now i r r', expireSweep now s !! i = Some r -> evolves r r' ->
    exists new, Forall2 evolves s (take (length s) (<[i := r']> (expireSweep now s)))
      /\ <[i := r']> (expireSweep now s) = take (length s) (<[i := r']> (expireSweep now s)) ++ new
      /\ (length new <= 1)%nat).
  { intros now i r r' Hl He. exists []. rewrite (Hlen now), take_ge by (by rewrite length_insert).
    rewrite app_nil_r. split; [|by split; [|simpl; lia]].
    eapply evolve_insert; [apply sweep_all_evolve|done|done]. }
  intros Hp. destruct Hp as [|now|now req|now i r a now' h Hl Hst|now i r actor now' Hl Hst
    |now i r Hl Hst|now i r now' Hl Hst].
  - exists []. rewrite take_ge, app_nil_r by done. split; [|by split; [|simpl; lia]].
    apply Forall2_same_length_lookup_2; [done|]. intros; simplify_eq; reflexivity.
  - exists []. rewrite (Hlen now), take_ge, app_nil_r by done.
    split; [apply sweep_all_evolve|by split; [|simpl; lia]].
  - exists [req]. rewrite (Hlen now), take_app_length. split; [apply sweep_all_evolve|by split].
  - apply (Hins now i r); [done|]. apply unsettled_evolves; simpl; [naive_solver|rewrite Hst; by right; left|].
    rewrite Hst. unfold settled. naive_solver.
  - apply (Hins now i r); [done|]. apply unsettled_evolves; simpl; [naive_solver| |];
    destruct Hst as [Hst|Hst]; rewrite Hst; unfold status_step, settled; naive_solver.
  - apply (Hins now i r); [done|]. apply unsettled_evolves; simpl; [naive_solver| |];
    rewrite Hst; unfold status_step, settled; naive_solver.
  - apply (Hins now i r); [done|]. apply unsettled_evolves; simpl; [naive_solver| |];
    rewrite Hst; unfold status_step, settled; naive_solver.
Qed.

End Lifecycle.

(** ** What the module promises *)

Section Promises.
Import Lifecycle.

(** The exported operations, on the file and its cache. *)
Definition run_store (e : event) (st : store State) : store State :=
  match e with
  | Request clk rid input => snd (requestApproval clk rid input st)
  | Approve clk token input => snd (approveRequest clk token input st)
  | Cancel clk input => snd (cancelRequest clk input st)
  | Consume clk input => snd (consumeApproval clk input st)
  | List_ clk o => snd (listRequests clk o st)
  | Get clk rid => snd (getRequest clk rid st)
  end.

Lemma always_storable {R} (tx : transaction State R) s : writes_storable tx s.
Proof. done. Qed.

Lemma run_store_view e st :
  coherent st -> view (run_store e st) = run e (view st) /\ coherent (run_store e st).
Proof.
  intros Hc. destruct e; (apply transact_checked_spec || apply transact_spec); auto using always_storable.
Qed.

Lemma consume_view clk input st :
  coherent st -> fst (consumeApproval clk input st) = fst (consume_tx clk input (view st)).
Proof. intros Hc. apply transact_checked_spec; auto using always_storable. Qed.

(** Histories with the events that made them. *)
Inductive ran : list event -> State -> Prop :=
| ran_nil : ran [] []
| ran_snoc es s e : ran es s -> fresh e s -> ran (es ++ [e]) (run e s).

Lemma ran_reachable es s : ran es s -> reachable s.
Proof. induction 1 as [|es s e _ IH Hf]; [apply rtc_refl|]. eapply rtc_r; [exact IH|]. by constructor. Qed.

(** A successful redemption, decomposed. *)
Lemma consume_ok_inv clk input s q :
  fst (consume_tx clk input s) = Ok q ->
  exists i r,
    expireSweep (clk 1%nat) s !! i = Some r /\
    approval_token_hash r = Some (hashToken (co_token input)) /\ status r = approved /\
    (exists e, approval_token_expires_at r = Some e /\ clk 2%nat < e) /\
    action r = co_action input /\ target r = co_target input /\ requested_by r = co_caller input /\
    q = mark_consumed (clk 3%nat) r /\
    run (Consume clk input) s = <[i := q]> (expireSweep (clk 1%nat) s).
Proof.
  cbn [run]. unfold after, consume_tx, checked, consume_body.
  destruct (check_token input); [done|]. cbn zeta. find_request; [|done].
  destruct (negb (bool_decide (status r = approved))) eqn:Est; [done|].
  destruct (approval_token_expires_at r) as [e|] eqn:Ee; [|done].
  destruct (e <=? clk 2%nat) eqn:El; [done|].
  destruct (negb (bool_decide (action r = _))) eqn:Ea; [done|].
  destruct (negb (bool_decide (target r = _))) eqn:Et; [done|].
  destruct (negb (bool_decide (requested_by r = _))) eqn:Er; [done|].
  bool_to_prop. intros Heq. injection Heq as <-. exists i, r. naive_solver.
Qed.

(** A token hash in the store was put there by an [Approve] event. *)
Definition minted_by (es : list event) (r : ApprovalRequest) (h : string) : Prop :=
  exists clk token input, Approve clk token input ∈ es /\ hashToken token = h /\
    ap_id input = id r /\ approved_by r = Some (ap_approver input).

Lemma sweep_elem now s r :
  r ∈ expireSweep now s -> exists r0, r0 ∈ s /\ r = sweep_one now r0.
Proof. unfold expireSweep. rewrite list_elem_of_fmap. naive_solver. Qed.

Lemma sweep_one_approver now r : approved_by (sweep_one now r) = approved_by r.
Proof. unfold sweep_one. by repeat case_match. Qed.

Definition inherited (s : State) (r' : ApprovalRequest) (h : string) : Prop :=
  exists r, r ∈ s /\ approval_token_hash r = Some h /\ id r = id r' /\ approved_by r = approved_by r'.

Lemma sweep_inherited now s r h :
  r ∈ expireSweep now s -> approval_token_hash r = Some h -> inherited s r h.
Proof.
  intros (r0 & Hr0 & ->)%sweep_elem Hh. exists r0. split; [done|].
  split; [by eapply sweep_hash|]. by rewrite sweep_id, sweep_one_approver.
Qed.

Lemma self_inherited s r h : r ∈ s -> approval_token_hash r = Some h -> inherited s r h.
Proof. intros. by exists r. Qed.

Lemma run_hash_origin e s r' h :
  r' ∈ run e s -> approval_token_hash r' = Some h -> inherited s r' h \/ minted_by [e] r' h.
Proof.
  destruct e as [clk rid input|clk token input|clk input|clk input|clk o|clk rid]; cbn [run]; unfold after.
  - unfold request_tx, checked, request_body. cbn zeta.
    destruct (check_request input); [solve [eauto using self_inherited]|].
    match goal with |- context [list_find ?P ?l] => destruct (list_find P l) as [[i dup]|] end;
      [solve [eauto using self_inherited]|].
    simpl. rewrite elem_of_app, list_elem_of_singleton. intros [Hr| ->] Hh; [eauto using sweep_inherited|done].
  - unfold approve_tx, checked, approve_body.
    destruct (check_approver input); [solve [eauto using self_inherited]|]. cbn zeta.
    find_request; [|eauto using self_inherited].
    repeat (case_match; [solve [eauto using self_inherited]|]).
    intros [->|Hr]%elem_of_insert_inv Hh; [|eauto using sweep_inherited].
    right. injection Hh as <-. exists clk, token, input. rewrite list_elem_of_singleton. naive_solver.
  - unfold cancel_tx. cbn zeta. find_request; [|eauto using self_inherited].
    case_match; [solve [eauto using self_inherited]|].
    intros [->|Hr]%elem_of_insert_inv Hh; [done|eauto using sweep_inherited].
  - unfold consume_tx, checked, consume_body.
    destruct (check_token input); [solve [eauto using self_inherited]|]. cbn zeta.
    find_request; [|eauto using self_inherited].
    destruct (negb _); [solve [eauto using self_inherited]|].
    destruct (match approval_token_expires_at r with Some _ => _ | None => _ end).
    { intros [->|Hr]%elem_of_insert_inv Hh; [done|eauto using sweep_inherited]. }
    repeat (destruct (negb (bool_decide _)); [solve [eauto using self_inherited]|]).
    intros [->|Hr]%elem_of_insert_inv Hh; [done|eauto using sweep_inherited].
  - simpl. eauto using sweep_inherited.
  - simpl. eauto using self_inherited.
Qed.

Lemma ran_minted es s r h :
  ran es s -> r ∈ s -> approval_token_hash r = Some h -> minted_by es r h.
Proof.
  intros Hran. revert r. induction Hran as [|es s e _ IH Hf]; intros r Hr Hh; [by apply elem_of_nil in Hr|].
  destruct (run_hash_origin e s r h Hr Hh) as [(r0 & Hr0 & Hh0 & Hid & Hap)|(clk & tok & inp & He & Hrest)].
  - destruct (IH r0 Hr0 Hh0) as (clk & tok & inp & Hin & Htok & Hapid & Happ). exists clk, tok, inp.
    rewrite elem_of_app. rewrite <- Hid, <- Hap. eauto.
  - exists clk, tok, inp. rewrite elem_of_app. eauto.
Qed.

Lemma hash_absent_after_consume clk input s r :
  state_ok s -> fst (consume_tx clk input s) = Ok r ->
  hashToken (co_token input) ∉ live_hashes (run (Consume clk input) s).
Proof.
  intros Hs Hok. destruct (consume_ok_inv _ _ _ _ Hok) as (i & r0 & Hl & Hh & _ & _ & _ & _ & _ & -> & ->).
  pose proof (hashes_unique _ (sweep_state_ok (clk 1%nat) s Hs)) as Hn.
  revert i Hl Hn; generalize (expireSweep (clk 1%nat) s); intros l i Hl Hn.
  revert i Hl; induction l as [|x l IH]; intros [|i] Hl; simplify_eq/=; csimpl.
  - revert Hn. csimpl. rewrite Hh. intros [Hn _]%NoDup_cons. done.
  - assert (r0 ∈ l) as Hin by (by eapply list_elem_of_lookup_2).
    revert Hn. csimpl. destruct (approval_token_hash x) as [hx|] eqn:Ex.
    + intros [Hx Hn]%NoDup_cons. apply not_elem_of_cons. split; [|by apply IH].
      intros <-. apply Hx, live_hashes_elem. by exists r0.
    + intros Hn. by apply IH.
Qed.

(** One more step that does not mint the hash [h]. *)
Inductive step_without (h : string) (s : State) : State -> Prop :=
| step_without_run e :
    fresh e s -> (forall clk tok input, e = Approve clk tok input -> hashToken tok <> h) ->
    step_without h s (run e s).

Lemma hash_stays_absent h s s' :
  step_without h s s' -> h ∉ live_hashes s -> h ∉ live_hashes s'.
Proof.
  intros [e Hf Hm] Hn (r & Hr & Hh)%live_hashes_elem.
  destruct (run_hash_origin e s r h Hr Hh) as [(r0 & Hr0 & Hh0 & _)|(clk & tok & inp & He & Htok & _)].
  - apply Hn, live_hashes_elem. eauto.
  - apply list_elem_of_singleton in He as <-. by eapply Hm.
Qed.

Lemma consume_absent clk input s :
  truthy (co_token input) = true -> hashToken (co_token input) ∉ live_hashes s ->
  fst (consume_tx clk input s) = Err bad_token.
Proof.
  intros Ht Hn. unfold consume_tx, checked, check_token, consume_body. rewrite Ht. cbn [negb]. cbn zeta.
  find_request; [|done]. exfalso. apply Hn, (sweep_live_hashes (clk 1%nat)), live_hashes_elem.
  exists r. split; [by eapply list_elem_of_lookup_2|done].
Qed.

(** C2. Maker/checker: when [consumeApproval] lets an action through after any
    history of operations, the token it was given was minted by an earlier
    [approveRequest] whose approver is not the caller, for a request that the
    caller made for this very action and target, and the token had not expired
    when it was redeemed. *)
Theorem consume_needs_second_admin es clk input st r st' :
  coherent st -> ran es (view st) ->
  consumeApproval clk input st = (Ok r, st') ->
  action r = co_action input /\ target r = co_target input /\ requested_by r = co_caller input /\
  (exists e, approval_token_expires_at r = Some e /\ clk 2%nat < e) /\
  exists clk' token approval,
    Approve clk' token approval ∈ es /\ hashToken token = hashToken (co_token input) /\
    ap_id approval = id r /\ ap_approver approval <> co_caller input.
Proof.
  intros Hc Hran Heq. pose proof (consume_view clk input st Hc) as Hv. rewrite Heq in Hv. symmetry in Hv.
  destruct (consume_ok_inv _ _ _ _ Hv) as (i & r0 & Hl & Hh & Hst & He & Ha & Ht & Hb & -> & _).
  pose proof (reachable_ok _ (ran_reachable _ _ Hran)) as Hok.
  pose proof (lookup_ok _ _ _ (sweep_state_ok (clk 1%nat) _ Hok) Hl) as [_ Hr]. rewrite Hst in Hr.
  destruct Hr as ((a & Hap & Hne) & _).
  destruct (sweep_inherited (clk 1%nat) (view st) r0 _ (list_elem_of_lookup_2 _ _ _ Hl) Hh)
    as (r1 & Hr1 & Hh1 & Hid & Hap1).
  destruct (ran_minted _ _ _ _ Hran Hr1 Hh1) as (clk' & tok & inp & Hin & Htok & Hapid & Happ).
  do 4 (split; [done|]). exists clk', tok, inp. simpl. repeat split; try congruence.
Qed.

(** A token is redeemed at most once: after a redemption has succeeded,
    whatever operations follow, presenting the same token again is refused with
    [bad_token], as long as the generator never mints its hash again. *)
Theorem token_single_use clk input st r st' s2 clk2 input2 :
  coherent st -> reachable (view st) ->
  consumeApproval clk input st = (Ok r, st') ->
  rtc (step_without (hashToken (co_token input))) (view st') s2 ->
  co_token input2 = co_token input ->
  fst (consume_tx clk2 input2 s2) = Err bad_token.
Proof.
  intros Hc Hreach Heq Hrtc Htok.
  pose proof (consume_view clk input st Hc) as Hv. rewrite Heq in Hv. symmetry in Hv.
  pose proof (proj1 (run_store_view (Consume clk input) st Hc)) as Hview. cbn [run_store] in Hview.
  rewrite Heq in Hview. cbn [snd] in Hview.
  assert (Habs : hashToken (co_token input) ∉ live_hashes (view st')).
  { rewrite Hview. eapply hash_absent_after_consume; [by apply reachable_ok|exact Hv]. }
  assert (Ht : truthy (co_token input) = true).
  { destruct (truthy (co_token input)) eqn:E; [done|]. revert Hv. unfold consume_tx, checked, check_token. by rewrite E. }
  apply consume_absent; rewrite Htok; [done|].
  clear -Hrtc Habs. induction Hrtc as [|s1 s2 s3 H12 _ IH]; [done|].
  apply IH. by eapply hash_stays_absent.
Qed.

(** The life of a request: through any history a request keeps its place,
    its subject and its requester, its status only moves forward, and once it is
    consumed, cancelled or expired it never changes again. *)
Theorem requests_only_move_forward s s' :
  rtc step s s' -> Forall2 evolves s (take (length s) s').
Proof.
  induction 1 as [s|s1 s2 s3 [e Hf] _ IH].
  - rewrite take_ge by done. apply Forall2_same_length_lookup_2; [done|]. intros; simplify_eq; reflexivity.
  - destruct (protocol_evolves _ _ (run_protocol e s1 Hf)) as (new & H12 & Hs2 & _).
    assert (Hlen : (length s1 <= length (run e s1))%nat).
    { pose proof (Forall2_length _ _ _ H12) as Hl. rewrite length_take in Hl. lia. }
    transitivity (take (length s1) (run e s1)); [done|].
    apply (Forall2_take evolves _ _ (length s1)) in IH. by rewrite take_take, Nat.min_l in IH by done.
Qed.

(** C9. Every operation of the module, on the file and its cache, is a step of
    the approval protocol on the requests the file stands for: the refinement
    that lets clients reason with [protocol]. *)
Theorem operations_follow_protocol e st :
  coherent st -> fresh e (view st) ->
  protocol (view st) (view (run_store e st)) /\ coherent (run_store e st).
Proof.
  intros Hc Hf. destruct (run_store_view e st Hc) as [-> Hc']. split; [|done]. by apply run_protocol.
Qed.

(** Nothing orders the read and the write of two redemptions: when both read
    the requests before either has written, one token lets both through. *)
Theorem overlapping_redemptions_both_succeed clk1 clk2 input s r1 r2 :
  fst (consume_tx clk1 input s) = Ok r1 -> fst (consume_tx clk2 input s) = Ok r2 ->
  let c := perform_all [consume_tx clk1 input; consume_tx clk2 input]
             [Read 0; Read 1; Write 0; Write 1] (start s) in
  results c !! 0%nat = Some (Ok r1) /\ results c !! 1%nat = Some (Ok r2).
Proof.
  intros H1 H2 c.
  destruct (overlap_results (consume_tx clk1 input) (consume_tx clk2 input) s) as (R0 & R1 & _).
  unfold c. by rewrite R0, R1, H1, H2.
Qed.

End Promises.

(** ** A concrete history: alice asks, bob approves, alice redeems. *)
Section Demo.
Import Lifecycle.

Definition at_ (t : Z) : clock := fun _ => t.
Definition demo_request : event :=
  Request (at_ 0) "apr_1"
    {| in_action := "keys.revoke"; in_target := "key_abc"; in_reason := " rotating ";
       in_requested_by := "alice" |}.
Definition demo_approve : event := Approve (at_ 1000) "tok" {| ap_id := "apr_1"; ap_approver := "bob" |}.
Definition demo_events : list event := [demo_request; demo_approve].
Definition demo_state : State := run demo_approve (run demo_request []).
Definition demo_store : store State := boot (write_file demo_state).
Definition demo_redeem : ConsumeInput :=
  {| co_action := "keys.revoke"; co_target := "key_abc"; co_token := "tok"; co_caller := "alice" |}.

Lemma demo_ran : ran demo_events demo_state.
Proof.
  apply (ran_snoc [demo_request] (run demo_request []) demo_approve).
  - apply (ran_snoc [] [] demo_request); [constructor|]. simpl. apply not_elem_of_nil.
  - vm_compute. apply not_elem_of_nil.
Qed.

Lemma boot_view (s : State) : view (boot (write_file s)) = s.
Proof. done. Qed.

Lemma demo_store_ran : ran demo_events (view demo_store).
Proof. unfold demo_store. rewrite boot_view. exact demo_ran. Qed.

Lemma demo_store_coherent : coherent demo_store.
Proof. apply boot_coherent. Qed.

Lemma demo_reachable : reachable (view demo_store).
Proof. exact (ran_reachable _ _ demo_store_ran). Qed.

Lemma consume_needs_second_admin_witness :
  match consumeApproval (at_ 2000) demo_redeem demo_store with
  | (Ok r, _) =>
      exists clk' token approval, Approve clk' token approval ∈ demo_events /\
        ap_id approval = id r /\ ap_approver approval <> "alice"
  | (Err _, _) => False
  end.
Proof.
  destruct (consumeApproval (at_ 2000) demo_redeem demo_store) as [[r|e] st'] eqn:E.
  - destruct (consume_needs_second_admin demo_events (at_ 2000) demo_redeem demo_store r st' demo_store_coherent demo_store_ran E)
      as (_ & _ & _ & _ & clk' & tok & ap & Hin & _ & Hid & Hne).
    exists clk', tok, ap. exact (conj Hin (conj Hid Hne)).
  - revert E. vm_compute. discriminate.
Defined.

Lemma token_single_use_witness :
  match consumeApproval (at_ 2000) demo_redeem demo_store with
  | (Ok _, st') => fst (consume_tx (at_ 3000) demo_redeem (run (Get (at_ 2500) "apr_1") (view st'))) = Err bad_token
  | (Err _, _) => False
  end.
Proof.
  destruct (consumeApproval (at_ 2000) demo_redeem demo_store) as [[r|e] st'] eqn:E.
  - apply (token_single_use (at_ 2000) demo_redeem demo_store r st' _ (at_ 3000) demo_redeem demo_store_coherent demo_reachable E).
    + eapply rtc_once. apply (step_without_run _ _ (Get (at_ 2500) "apr_1")); [exact I|discriminate].
    + reflexivity.
  - revert E. vm_compute. discriminate.
Defined.

Lemma requests_only_move_forward_witness :
  let s1 := run demo_request [] in
  Forall2 evolves s1 (take (length s1) (run demo_approve s1)).
Proof.
  intros s1. apply requests_only_move_forward. apply rtc_once. apply step_run.
  vm_compute. apply not_elem_of_nil.
Defined.

Lemma operations_follow_protocol_witness :
  protocol (view demo_store) (view (run_store (Consume (at_ 2000) demo_redeem) demo_store)).
Proof. exact (proj1 (operations_follow_protocol (Consume (at_ 2000) demo_redeem) demo_store demo_store_coherent I)). Defined.

Lemma overlapping_redemptions_both_succeed_witness :
  match fst (consume_tx (at_ 2000) demo_redeem demo_state), fst (consume_tx (at_ 2001) demo_redeem demo_state) with
  | Ok r1, Ok r2 =>
      let c := perform_all [consume_tx (at_ 2000) demo_redeem; consume_tx (at_ 2001) demo_redeem]
                 [Read 0; Read 1; Write 0; Write 1] (start demo_state) in
      results c !! 0%nat = Some (Ok r1) /\ results c !! 1%nat = Some (Ok r2)
  | _, _ => False
  end.
Proof.
  destruct (fst (consume_tx (at_ 2000) demo_redeem demo_state)) as [r1|e1] eqn:E1;
  [|revert E1; vm_compute; discriminate].
  destruct (fst (consume_tx (at_ 2001) demo_redeem demo_state)) as [r2|e2] eqn:E2;
  [|revert E2; vm_compute; discriminate].
  exact (overlapping_redemptions_both_succeed (at_ 2000) (at_ 2001) demo_redeem demo_state r1 r2 E1 E2).
Defined.

End Demo.
