(* ===== verification/Freeze.v ===== *)
(** The workspace kill switch: [web/lib/freezeStore.ts]. The guard of the v1
    API consults it before any other policy (file [Guard]). *)
From S2P Require Import Prelude JsNum JsDate IsoTime Json Store.

Definition MAX_REASON_LEN : Z := 500.
Definition CACHE_TTL_MS : Z := 1000.

Record FreezeState := {
  frozen : bool;
  reason : option string;
  frozen_at : option iso;
  frozen_by : option string;
  unfrozen_at : option iso;
  unfrozen_by : option string;
}.

Definition DEFAULT_STATE : FreezeState :=
  {| frozen := false; reason := None; frozen_at := None; frozen_by := None;
     unfrozen_at := None; unfrozen_by := None |}.

(** [JSON.stringify] of a state and [readFromDisk]. *)
Definition encode_state (s : FreezeState) : json :=
  JObj [("frozen", JBool (frozen s)); ("reason", jopt JStr (reason s));
        ("frozen_at", jopt jiso (frozen_at s)); ("frozen_by", jopt JStr (frozen_by s));
        ("unfrozen_at", jopt jiso (unfrozen_at s)); ("unfrozen_by", jopt JStr (unfrozen_by s))].

Definition readFromDisk (j : json) : FreezeState :=
  if negb (is_object j) then DEFAULT_STATE else
  {| frozen := jtruthy (field "frozen" j);
     reason := string_or_null (field "reason" j);
     frozen_at := iso_or_null (field "frozen_at" j);
     frozen_by := string_or_null (field "frozen_by" j);
     unfrozen_at := iso_or_null (field "unfrozen_at" j);
     unfrozen_by := string_or_null (field "unfrozen_by" j) |}.

Definition state_storable (s : FreezeState) : Prop :=
  from_option iso_ok True (frozen_at s) /\ from_option iso_ok True (unfrozen_at s).

Lemma decode_encode_state s : state_storable s -> readFromDisk (encode_state s) = s.
Proof.
  intros [H1 H2]. unfold readFromDisk, encode_state. cbn [is_object negb field assoc String.eqb Ascii.eqb Bool.eqb].
  rewrite !iso_or_null_jiso, !string_or_null_jopt by done. by destruct s as [[] ? ? ? ? ?].
Qed.

#[export] Instance FreezeState_persisted : Persisted FreezeState := {|
  raw := json; encode := encode_state; decode := readFromDisk; absent := DEFAULT_STATE;
  storable := state_storable; decode_encode := decode_encode_state |}.

(** ** Operations *)

Definition getFreezeState (now : Z) (st : store FreezeState) : FreezeState * store FreezeState :=
  load CACHE_TTL_MS now st.

Inductive MutationCode := bad_reason | already_frozen | not_frozen.

(** The state written and the one found before. *)
Record Mutation := { state : FreezeState; before : FreezeState }.

Definition check_reason (input_reason : string) : option MutationCode :=
  let r := trim input_reason in
  if negb (truthy r) then Some bad_reason
  else if str_len r >? MAX_REASON_LEN then Some bad_reason
  else None.

Definition freeze_body (now : Z) (input_reason : string) (actor : option string)
  : transaction FreezeState (result Mutation MutationCode) := fun s =>
  if frozen s then (Err already_frozen, None) else
  let next := {| frozen := true; reason := Some (trim input_reason); frozen_at := Some (Iso now);
                 frozen_by := actor; unfrozen_at := None; unfrozen_by := None |} in
  (Ok {| state := next; before := s |}, Some next).

(** The clock is read by the cache test, by [new Date()], and for [loadedAt]. *)
Definition freezeWorkspace (clk : clock) (input_reason : string) (actor : option string)
    (st : store FreezeState) : result Mutation MutationCode * store FreezeState :=
  transact_checked CACHE_TTL_MS (clk 0%nat) (clk 2%nat) (check_reason input_reason)
    (freeze_body (clk 1%nat) input_reason actor) st.

Definition unfreeze_body (now : Z) (actor : option string)
  : transaction FreezeState (result Mutation MutationCode) := fun s =>
  if negb (frozen s) then (Err not_frozen, None) else
  let next := {| frozen := false; reason := reason s; frozen_at := frozen_at s; frozen_by := frozen_by s;
                 unfrozen_at := Some (Iso now); unfrozen_by := actor |} in
  (Ok {| state := next; before := s |}, Some next).

Definition unfreezeWorkspace (clk : clock) (actor : option string) (st : store FreezeState)
  : result Mutation MutationCode * store FreezeState :=
  transact CACHE_TTL_MS (clk 0%nat) (clk 2%nat) (unfreeze_body (clk 1%nat) actor) st.

(** ** Histories

    What one process can do to the switch. *)
Inductive event :=
| Freeze (clk : clock) (reason : string) (actor : option string)
| Unfreeze (clk : clock) (actor : option string)
| Get (now : Z).

Definition run (e : event) (st : store FreezeState) : store FreezeState :=
  match e with
  | Freeze clk r a => snd (freezeWorkspace clk r a st)
  | Unfreeze clk a => snd (unfreezeWorkspace clk a st)
  | Get now => snd (getFreezeState now st)
  end.

(** The stamp an event writes is printed with a four-digit year. *)
Definition in_range (e : event) : Prop :=
  match e with Freeze clk _ _ | Unfreeze clk _ => iso_range (clk 1%nat) | Get _ => True end.

(** The abstract switch. *)
Inductive switch : FreezeState -> FreezeState -> Prop :=
| switch_stay s : switch s s
| switch_on s s' :
    frozen s = false -> frozen s' = true -> from_option truthy false (reason s') = true ->
    unfrozen_at s' = None -> switch s s'
| switch_off s s' :
    frozen s = true -> frozen s' = false -> reason s' = reason s -> frozen_at s' = frozen_at s ->
    frozen_by s' = frozen_by s -> is_Some (unfrozen_at s') -> switch s s'.

(** What the operations keep true of the stored state: a freeze in force has a
    reason and a time, and no time of release. *)
Definition well_formed (s : FreezeState) : Prop :=
  state_storable s /\
  (frozen s = true -> from_option truthy false (reason s) = true /\ is_Some (frozen_at s) /\ unfrozen_at s = None).

Definition state_of (e : event) (s : FreezeState) : FreezeState :=
  match e with
  | Freeze clk r a => after (checked (check_reason r) (freeze_body (clk 1%nat) r a)) s
  | Unfreeze clk a => after (unfreeze_body (clk 1%nat) a) s
  | Get _ => s
  end.

Lemma check_reason_None r : check_reason r = None -> truthy (trim r) = true.
Proof. unfold check_reason. by destruct (truthy (trim r)). Qed.

Lemma state_of_switch e s :
  in_range e -> well_formed s -> switch s (state_of e s) /\ well_formed (state_of e s).
Proof.
  intros Hr Hw. pose proof Hw as [[Hf Hu] Hwf].
  destruct e as [clk r a|clk a|]; cbn [state_of]; [| |by split; [constructor|]].
  - unfold after, checked, freeze_body. destruct (check_reason r) eqn:E; [by split; [constructor|]|].
    apply check_reason_None in E. destruct (frozen s) eqn:Ef; [by split; [constructor|]|].
    split; [by apply switch_on|]. split; [done|]. intros _. simpl. eauto.
  - unfold after, unfreeze_body. destruct (frozen s) eqn:Ef; [|by split; [constructor|]]. simpl.
    split; [|by split]. eapply switch_off; simpl; eauto.
Qed.

Lemma run_view e st :
  in_range e -> coherent st -> well_formed (view st) ->
  view (run e st) = state_of e (view st) /\ coherent (run e st).
Proof.
  intros Hr Hc Hw. destruct (state_of_switch e (view st) Hr Hw) as [_ [Hst _]].
  destruct e as [clk r a|clk a|]; cbn [run state_of] in *.
  - apply transact_checked_spec; [done|]. intros s' E. unfold after in Hst. by rewrite E in Hst.
  - apply transact_spec; [done|]. intros s' E. unfold after in Hst. by rewrite E in Hst.
  - unfold getFreezeState. by autorewrite with store; auto with claw.
Qed.

Fixpoint run_all (es : list event) (st : store FreezeState) : store FreezeState :=
  match es with [] => st | e :: es' => run_all es' (run e st) end.

Definition is_unfreeze (e : event) : bool := match e with Unfreeze _ _ => true | _ => false end.

Lemma run_all_invariant es st :
  Forall in_range es -> coherent st -> well_formed (view st) ->
  coherent (run_all es st) /\ well_formed (view (run_all es st)) /\ rtc switch (view st) (view (run_all es st)).
Proof.
  revert st; induction es as [|e es IH]; intros st Hes Hc Hw; [done|]. simpl.
  inversion Hes as [|? ? He Hes']; subst.
  destruct (run_view e st He Hc Hw) as [Hv Hc']. destruct (state_of_switch e _ He Hw) as [Hs Hw'].
  rewrite <- Hv in Hs, Hw'. destruct (IH _ Hes' Hc' Hw') as (? & ? & ?).
  split; [done|]. split; [done|]. by eapply rtc_l.
Qed.

Lemma frozen_stays e s : is_unfreeze e = false -> frozen s = true -> state_of e s = s.
Proof.
  intros Hn Hf. destruct e as [clk r a| |]; [|done|done]. simpl. unfold after, checked, freeze_body.
  destruct (check_reason r); [done|]. by rewrite Hf.
Qed.

(** The switch refines its specification: through any history of calls the
    stored state only moves along [switch], the cache never diverges from the
    file, and a freeze in force always carries a non-empty reason, the time it
    began and no time of release. *)
Theorem freeze_history_refines_switch es st :
  Forall in_range es -> coherent st -> well_formed (view st) ->
  rtc switch (view st) (view (run_all es st)) /\ coherent (run_all es st) /\ well_formed (view (run_all es st)).
Proof. intros He Hc Hw. destruct (run_all_invariant es st He Hc Hw) as (? & ? & ?). eauto. Qed.

(** Only [unfreezeWorkspace] lifts a freeze: once [freezeWorkspace] has
    succeeded, any number of further calls that are not an unfreeze leave
    every reader, at any time, with the very state the freeze recorded. *)
Theorem freeze_holds_until_unfreeze clk r a st m st' es now :
  coherent st -> well_formed (view st) -> iso_range (clk 1%nat) ->
  freezeWorkspace clk r a st = (Ok m, st') ->
  Forall in_range es -> Forall (fun e => is_unfreeze e = false) es ->
  fst (getFreezeState now (run_all es st')) = state m /\ frozen (state m) = true /\
  reason (state m) = Some (trim r) /\ frozen_by (state m) = a.
Proof.
  intros Hc Hw Hr Heq Hes Hne.
  pose proof (run_view (Freeze clk r a) st Hr Hc Hw) as [Hv Hc'].
  pose proof (state_of_switch (Freeze clk r a) _ Hr Hw) as [_ Hw'].
  rewrite <- Hv in Hw'. cbn [run state_of] in Hv, Hc', Hw'.
  assert (Hfst : fst (checked (check_reason r) (freeze_body (clk 1%nat) r a) (view st)) = Ok m).
  { pose proof (transact_checked_spec CACHE_TTL_MS (clk 0%nat) (clk 2%nat) (check_reason r)
      (freeze_body (clk 1%nat) r a) st Hc) as Hs.
    fold (freezeWorkspace clk r a st) in Hs. rewrite Heq in Hs. symmetry. apply Hs.
    intros s' E. unfold checked, freeze_body in E. destruct (check_reason r); [done|].
    destruct (frozen (view st)); [done|]. by injection E as <-. }
  rewrite Heq in Hv, Hc', Hw'. cbn [snd] in Hv, Hc', Hw'.
  assert (Hm : view st' = state m /\ frozen (state m) = true /\ reason (state m) = Some (trim r) /\ frozen_by (state m) = a).
  { rewrite Hv. revert Hfst. unfold after, checked, freeze_body. destruct (check_reason r); [done|].
    destruct (frozen (view st)); [done|]. intros E. by injection E as <-. }
  destruct Hm as (Hvm & Hfr & Hre & Hby). split; [|done].
  assert (Hgen : forall es st, Forall in_range es -> Forall (fun e => is_unfreeze e = false) es ->
    coherent st -> well_formed (view st) -> frozen (view st) = true -> view (run_all es st) = view st).
  { clear. induction es as [|e es IH]; intros st Hes Hne Hc Hw Hf; [done|]. simpl.
    inversion Hes; inversion Hne; subst. destruct (run_view e st) as [Hv' Hc']; [done..|].
    rewrite frozen_stays in Hv' by done. rewrite IH; rewrite ?Hv'; done. }
  destruct (run_all_invariant es st' Hes Hc' Hw') as (Hc2 & _ & _).
  unfold getFreezeState. rewrite load_view by done. rewrite Hgen; [done..|]. by rewrite Hvm.
Qed.

(** A freeze made by another process takes effect within [CACHE_TTL_MS]: a
    reader whose cache was filled at [loadedAt] sees the file as soon as the
    second is over, whatever the cache held. *)
Theorem freeze_seen_within_ttl (f : file FreezeState) cached loadedAt now :
  loadedAt + CACHE_TTL_MS <= now ->
  fst (getFreezeState now (Store f (Some (cached, loadedAt)))) = read_file f.
Proof. intros Hle. unfold getFreezeState. apply load_expired. simpl. lia. Qed.

(** ** A breach response *)
Section Demo.
Definition at_ (t : Z) : clock := fun _ => t.
Definition demo_store : store FreezeState := boot None.
Definition demo_events : list event :=
  [Get 1500; Freeze (at_ 2000) "again" None; Freeze (at_ 2001) "   " (Some "mallory"); Get 90000].

Lemma demo_coherent : coherent demo_store.
Proof. apply boot_coherent. Qed.

Lemma demo_well_formed : well_formed (view demo_store).
Proof. by split. Qed.

Lemma demo_in_range : Forall in_range demo_events.
Proof. repeat constructor; vm_compute; discriminate. Qed.

Lemma freeze_history_refines_switch_witness :
  rtc switch (view demo_store) (view (run_all demo_events demo_store)) /\
  frozen (view (run_all demo_events demo_store)) = true.
Proof.
  split; [|reflexivity].
  exact (proj1 (freeze_history_refines_switch demo_events demo_store demo_in_range demo_coherent demo_well_formed)).
Defined.

Lemma freeze_holds_until_unfreeze_witness :
  match freezeWorkspace (at_ 1000) " leaked key " (Some "alice") demo_store with
  | (Ok m, st') => fst (getFreezeState 95000 (run_all demo_events st')) = state m /\ reason (state m) = Some "leaked key"
  | (Err _, _) => False
  end.
Proof.
  destruct (freezeWorkspace (at_ 1000) " leaked key " (Some "alice") demo_store) as [[m|e] st'] eqn:E.
  - destruct (freeze_holds_until_unfreeze (at_ 1000) " leaked key " (Some "alice") demo_store m st' demo_events 95000
      demo_coherent demo_well_formed) as (H1 & _ & H2 & _);
      [vm_compute; split; discriminate|exact E|exact demo_in_range|repeat constructor|exact (conj H1 H2)].
  - not_an_error E.
Defined.

Lemma freeze_seen_within_ttl_witness :
  let f := write_file {| frozen := true; reason := Some "breach"; frozen_at := Some (Iso 0); frozen_by := None;
                         unfrozen_at := None; unfrozen_by := None |} in
  frozen (fst (getFreezeState 1000 (Store f (Some (DEFAULT_STATE, 0))))) = true.
Proof. intros f. rewrite (freeze_seen_within_ttl f DEFAULT_STATE 0 1000); [reflexivity|vm_compute; discriminate]. Defined.

End Demo.
