(* ===== verification/Concurrency.v ===== *)
(** The cap on concurrent v1 requests: [web/lib/concurrencyStore.ts]. A policy
    in a file, and an in-process counter of the requests in flight. *)
From S2P Require Import Prelude JsNum JsDate IsoTime Json Store.

Definition MIN_LIMIT : Z := 1.
Definition MAX_LIMIT : Z := 10000.
Definition CACHE_TTL_MS : Z := 1000.

Record ConcurrencyPolicy := {
  limit : option Z;
  updated_at : option iso;
  updated_by : option string;
}.

Definition DEFAULT_POLICY : ConcurrencyPolicy :=
  {| limit := None; updated_at := None; updated_by := None |}.

Definition encode_policy (p : ConcurrencyPolicy) : json :=
  JObj [("limit", jopt (fun n => JNum (int n)) (limit p)); ("updated_at", jopt jiso (updated_at p));
        ("updated_by", jopt JStr (updated_by p))].

(** The limit found in the file: a finite number in range, rounded down. *)
Definition read_limit (v : jval) : option Z :=
  match v with
  | Some (JNum n) =>
      if is_finite n && num_le (int MIN_LIMIT) n && num_le n (int MAX_LIMIT) then Some (floorZ n) else None
  | _ => None
  end.

Definition readFromDisk (j : json) : ConcurrencyPolicy :=
  if negb (is_object j) then DEFAULT_POLICY else
  {| limit := read_limit (field "limit" j);
     updated_at := iso_or_null (field "updated_at" j);
     updated_by := string_or_null (field "updated_by" j) |}.

Definition in_bounds (n : Z) : Prop := MIN_LIMIT <= n <= MAX_LIMIT.

Definition policy_storable (p : ConcurrencyPolicy) : Prop :=
  from_option in_bounds True (limit p) /\ from_option iso_ok True (updated_at p).

Lemma read_limit_jopt (o : option Z) :
  from_option in_bounds True o -> read_limit (Some (jopt (fun n => JNum (int n)) o)) = o.
Proof.
  destruct o as [n|]; [|done]. simpl from_option. intros [Hlo Hhi]. cbn [jopt read_limit is_finite int andb].
  fold (int n). rewrite !num_le_int, floorZ_int.
  by rewrite (proj2 (Z.leb_le _ _) Hlo), (proj2 (Z.leb_le _ _) Hhi).
Qed.

Lemma decode_encode_policy p : policy_storable p -> readFromDisk (encode_policy p) = p.
Proof.
  intros [H1 H2]. unfold readFromDisk, encode_policy. cbn [is_object negb field assoc String.eqb Ascii.eqb Bool.eqb].
  rewrite read_limit_jopt, iso_or_null_jiso, string_or_null_jopt by done. by destruct p.
Qed.

#[export] Instance ConcurrencyPolicy_persisted : Persisted ConcurrencyPolicy := {|
  raw := json; encode := encode_policy; decode := readFromDisk; absent := DEFAULT_POLICY;
  storable := policy_storable; decode_encode := decode_encode_policy |}.

(** ** The policy *)

Definition getConcurrencyPolicy (now : Z) (st : store ConcurrencyPolicy) := load CACHE_TTL_MS now st.

Inductive SetCode := bad_limit.
Record Change := { policy : ConcurrencyPolicy; before : ConcurrencyPolicy }.

Definition check_limit (n : num) : option SetCode :=
  if negb (is_integer n) then Some bad_limit
  else if num_lt n (int MIN_LIMIT) || num_lt (int MAX_LIMIT) n then Some bad_limit
  else None.

Definition set_body (now : Z) (n : num) (actor : option string)
  : transaction ConcurrencyPolicy (result Change SetCode) := fun s =>
  let next := {| limit := Some (floorZ n); updated_at := Some (Iso now); updated_by := actor |} in
  (Ok {| policy := next; before := s |}, Some next).

Definition setConcurrencyPolicy (clk : clock) (n : num) (actor : option string)
    (st : store ConcurrencyPolicy) : result Change SetCode * store ConcurrencyPolicy :=
  transact_checked CACHE_TTL_MS (clk 0%nat) (clk 2%nat) (check_limit n) (set_body (clk 1%nat) n actor) st.

Definition clear_body (now : Z) (actor : option string) : transaction ConcurrencyPolicy Change := fun s =>
  let next := {| limit := None; updated_at := Some (Iso now); updated_by := actor |} in
  ({| policy := next; before := s |}, Some next).

Definition clearConcurrencyPolicy (clk : clock) (actor : option string) (st : store ConcurrencyPolicy)
  : Change * store ConcurrencyPolicy :=
  transact CACHE_TTL_MS (clk 0%nat) (clk 2%nat) (clear_body (clk 1%nat) actor) st.

(** ** The counter *)

Inductive AcquireDecision :=
| Allowed (inFlight : Z) (limit : option Z)
| Refused (inFlight : Z) (limit : Z) (retryAfter : Z).

Definition allowed (d : AcquireDecision) : bool := match d with Allowed _ _ => true | Refused _ _ _ => false end.

Definition tryAcquire (p : ConcurrencyPolicy) (inFlight : Z) : AcquireDecision * Z :=
  match limit p with
  | None => (Allowed (inFlight + 1) None, inFlight + 1)
  | Some l =>
      if inFlight >=? l then (Refused inFlight l 1, inFlight)
      else (Allowed (inFlight + 1) (Some l), inFlight + 1)
  end.

Definition release (inFlight : Z) : Z := Z.max 0 (inFlight - 1).

(** [headers.set] on names in lower case. *)
Definition applyConcurrencyHeaders (h : gmap string string) (d : AcquireDecision) : gmap string string :=
  match d with
  | Allowed n None => <["x-concurrency-in-flight" := pretty n]> h
  | Allowed n (Some l) =>
      <["x-concurrency-in-flight" := pretty n]> (<["x-concurrency-limit" := pretty l]> h)
  | Refused n l r =>
      <["retry-after" := pretty r]>
        (<["x-concurrency-in-flight" := pretty n]> (<["x-concurrency-limit" := pretty l]> h))
  end.

(** ** Slots

    Requests arrive and finish in any order; an admitted one finishes once (the
    guard releases in a [finally]). The counter starts at zero. *)
Inductive request_event :=
| Arrive (id : nat) (p : ConcurrencyPolicy)
| Finish (id : nat).

Record slots := Slots { inFlight : Z; admitted : list nat }.

Inductive slot_step : request_event -> slots -> slots -> Prop :=
| arrive_admitted id p s :
    allowed (fst (tryAcquire p (inFlight s))) = true ->
    slot_step (Arrive id p) s (Slots (snd (tryAcquire p (inFlight s))) (id :: admitted s))
| arrive_refused id p s :
    allowed (fst (tryAcquire p (inFlight s))) = false ->
    slot_step (Arrive id p) s (Slots (snd (tryAcquire p (inFlight s))) (admitted s))
| finish id l r s :
    admitted s = l ++ id :: r -> slot_step (Finish id) s (Slots (release (inFlight s)) (l ++ r)).

Inductive slot_trace : list request_event -> slots -> Prop :=
| trace_nil : slot_trace [] (Slots 0 [])
| trace_snoc es e s s' : slot_trace es s -> slot_step e s s' -> slot_trace (es ++ [e]) s'.

(** A policy that caps at [l] or below. *)
Definition capped (l : Z) (e : request_event) : Prop :=
  match e with Arrive _ p => exists n, limit p = Some n /\ n <= l | Finish _ => True end.

Lemma tryAcquire_spec p n :
  let '(d, n') := tryAcquire p n in
  n' = n + (if allowed d then 1 else 0) /\
  (allowed d = false <-> exists l, limit p = Some l /\ l <= n).
Proof.
  unfold tryAcquire. destruct (limit p) as [l|] eqn:E.
  - destruct (n >=? l) eqn:Hl; bool_to_prop; simpl; (split; [lia|]); split; try done; naive_solver lia.
  - simpl. split; [done|]. naive_solver.
Qed.

Lemma slot_step_balanced e s s' :
  slot_step e s s' -> inFlight s = Z.of_nat (length (admitted s)) -> inFlight s' = Z.of_nat (length (admitted s')).
Proof.
  intros Hs Hb. destruct Hs as [id p s Ha|id p s Ha|id l r s Hl].
  - pose proof (tryAcquire_spec p (inFlight s)) as Ht. destruct (tryAcquire p (inFlight s)) as [d n].
    cbn [fst snd inFlight admitted length] in *. rewrite Ha in Ht. lia.
  - pose proof (tryAcquire_spec p (inFlight s)) as Ht. destruct (tryAcquire p (inFlight s)) as [d n].
    cbn [fst snd inFlight admitted] in *. rewrite Ha in Ht. lia.
  - cbn [inFlight admitted]. unfold release. rewrite Hb, Hl, !length_app. simpl. lia.
Qed.

Lemma slot_trace_balanced es s : slot_trace es s -> inFlight s = Z.of_nat (length (admitted s)).
Proof. induction 1; [done|]. by eapply slot_step_balanced. Qed.

(** C20. No slot leaks and the cap is exact: in every interleaving of arrivals
    and completions the counter is the number of requests in flight, it never
    exceeds the largest cap in force, and a refusal means the cap is reached. *)
Theorem slots_balanced_and_bounded es s l id p :
  slot_trace es s -> 0 <= l -> Forall (capped l) es ->
  inFlight s = Z.of_nat (length (admitted s)) /\ inFlight s <= l /\
  (allowed (fst (tryAcquire p (inFlight s))) = false <->
     exists n, limit p = Some n /\ n <= Z.of_nat (length (admitted s))) /\
  exists s', slot_step (Arrive id p) s s'.
Proof.
  intros Ht Hl Hc. pose proof (slot_trace_balanced _ _ Ht) as Hb. split; [done|]. split; [|split].
  - clear Hb. revert Hc. induction Ht as [|es e s s2 Ht IH Hs]; intros Hc; [done|].
    apply Forall_app in Hc as [Hes He]. rewrite Forall_singleton in He. specialize (IH Hes).
    destruct Hs as [i q s Ha|i q s Ha|i a b s Hl']; cbn [inFlight].
    + destruct He as (n & Hn & Hle). pose proof (tryAcquire_spec q (inFlight s)) as Hq.
      revert Ha Hq. unfold tryAcquire. rewrite Hn. destruct (inFlight s >=? n) eqn:E; [done|].
      bool_to_prop. simpl. lia.
    + pose proof (tryAcquire_spec q (inFlight s)) as Hq. destruct (tryAcquire q (inFlight s)) as [d n].
      cbn [fst snd] in *. rewrite Ha in Hq. lia.
    + unfold release. lia.
  - rewrite <- Hb. pose proof (tryAcquire_spec p (inFlight s)) as Hq. destruct (tryAcquire p (inFlight s)). apply Hq.
  - destruct (allowed (fst (tryAcquire p (inFlight s)))) eqn:E; eexists; [by apply arrive_admitted|by apply arrive_refused].
Qed.

Lemma integral_num n : is_integer n = true -> exists q, n = Fin q /\ QArith_base.Qeq (QArith_base.inject_Z (floorZ n)) q.
Proof. destruct n as [| |q]; [done..|]. intros H. exists q. split; [done|]. by apply QArith_base.Qeq_bool_iff. Qed.

Lemma check_limit_None n : check_limit n = None -> in_bounds (floorZ n).
Proof.
  unfold check_limit. destruct (is_integer n) eqn:Ei; [|done]. cbn [negb].
  apply integral_num in Ei as (q & -> & Hq).
  destruct (num_lt (Fin q) (int MIN_LIMIT) || num_lt (int MAX_LIMIT) (Fin q)) eqn:E; [done|].
  apply orb_false_elim in E as [E1 E2]. intros _. split; [by apply floor_ge_bound|by apply floor_le_bound].
Qed.

(** Only an integer between 1 and 10000 becomes the cap: anything else is
    refused with [bad_limit] and leaves file and cache alone; an accepted value is
    what every later reader finds, whether it reads the cache or the file. *)
Theorem set_limit_validated clk n actor st now :
  coherent st -> iso_range (clk 1%nat) ->
  let '(r, st') := setConcurrencyPolicy clk n actor st in
  match r with
  | Err bad_limit =>
      st' = st /\ (is_integer n = false \/ num_lt n (int MIN_LIMIT) = true \/ num_lt (int MAX_LIMIT) n = true)
  | Ok c =>
      is_integer n = true /\ in_bounds (floorZ n) /\ before c = view st /\
      limit (policy c) = Some (floorZ n) /\ fst (getConcurrencyPolicy now st') = policy c /\ coherent st'
  end.
Proof.
  intros Hc Hr. unfold setConcurrencyPolicy, transact_checked. destruct (check_limit n) as [[]|] eqn:E.
  - split; [done|]. unfold check_limit in E. destruct (is_integer n); [|by left]. cbn [negb] in E. right.
    destruct (num_lt n (int MIN_LIMIT)); [by left|]. right. by destruct (num_lt (int MAX_LIMIT) n).
  - pose proof (check_limit_None n E) as Hb.
    assert (Hst : writes_storable (set_body (clk 1%nat) n actor) (view st)).
    { intros s' Hs'. by injection Hs' as <-. }
    destruct (transact_spec CACHE_TTL_MS (clk 0%nat) (clk 2%nat) _ st Hc Hst) as (Hf & Hv & Hc').
    destruct (transact _ _ _ _ st) as [r st']. cbn [fst snd] in *. subst r. simpl.
    split; [by unfold check_limit in E; destruct (is_integer n)|]. split; [done|]. split; [done|]. split; [done|].
    split; [|done]. unfold getConcurrencyPolicy. by rewrite load_view, Hv by done.
Qed.

Section Demo.
Definition demo_policy : ConcurrencyPolicy := {| limit := Some 1; updated_at := None; updated_by := None |}.
Definition demo_clock : clock := fun _ => 1000.

Lemma demo_trace :
  slot_trace [Arrive 0 demo_policy; Arrive 1 demo_policy; Finish 0; Arrive 2 demo_policy] (Slots 1 [2%nat]).
Proof.
  apply (trace_snoc [Arrive 0 demo_policy; Arrive 1 demo_policy; Finish 0] _ (Slots 0 []));
    [|by apply (arrive_admitted 2 demo_policy (Slots 0 []))].
  apply (trace_snoc [Arrive 0 demo_policy; Arrive 1 demo_policy] _ (Slots 1 [0%nat]));
    [|by apply (finish 0 [] [] (Slots 1 [0%nat]))].
  apply (trace_snoc [Arrive 0 demo_policy] _ (Slots 1 [0%nat]));
    [|by apply (arrive_refused 1 demo_policy (Slots 1 [0%nat]))].
  apply (trace_snoc [] _ (Slots 0 [])); [constructor|by apply (arrive_admitted 0 demo_policy (Slots 0 []))].
Qed.

Lemma slots_balanced_and_bounded_witness :
  allowed (fst (tryAcquire demo_policy 1)) = false.
Proof.
  destruct (slots_balanced_and_bounded _ _ 1 3%nat demo_policy demo_trace) as (_ & _ & H & _); [lia|..].
  - repeat constructor; exists 1; done.
  - apply H. exists 1. split; [reflexivity|]. vm_compute. discriminate.
Defined.

Lemma set_limit_validated_witness :
  fst (getConcurrencyPolicy 5000 (snd (setConcurrencyPolicy demo_clock (int 25) None (boot None)))) =
  {| limit := Some 25; updated_at := Some (Iso 1000); updated_by := None |}.
Proof.
  pose proof (set_limit_validated demo_clock (int 25) None (boot None) 5000 (boot_coherent None)) as H.
  destruct (setConcurrencyPolicy demo_clock (int 25) None (boot None)) as [[c|[]] st'] eqn:E.
  - destruct H as (_ & _ & _ & _ & H & _); [vm_compute; split; discriminate|].
    apply (f_equal fst) in E. vm_compute in E. injection E as <-. exact H.
  - not_an_error E.
Defined.

End Demo.
