(* ===== verification/LegalHold.v ===== *)
(** Legal holds: [web/lib/legalHoldStore.ts]. A matter under hold pins the
    scopes it names; the retention sweep (file [Retention]) and the erasure
    (file [Privacy]) ask this store before they delete. *)
From S2P Require Import Prelude JsNum JsDate IsoTime Json Store.

Inductive LegalHoldScope := runs | audit | webhook_deliveries | user_data.

#[export] Instance LegalHoldScope_eq_dec : EqDecision LegalHoldScope.
Proof. solve_decision. Defined.

Definition LEGAL_HOLD_SCOPES : list (string * LegalHoldScope) :=
  [("runs", runs); ("audit", audit); ("webhook_deliveries", webhook_deliveries); ("user_data", user_data)].

Definition scope_of (s : string) : option LegalHoldScope := assoc s LEGAL_HOLD_SCOPES.

Definition scope_name (s : LegalHoldScope) : string :=
  match s with
  | runs => "runs" | audit => "audit" | webhook_deliveries => "webhook_deliveries" | user_data => "user_data"
  end.

Record LegalHold := {
  id : string;
  matter : string;
  reason : string;
  scopes : list LegalHoldScope;
  opened_at : iso;
  opened_by : string;
  released_at : option iso;
  released_by : option string;
  released_reason : option string;
}.

(** ** The file *)

Definition encode_hold (h : LegalHold) : json :=
  JObj [("id", JStr (id h)); ("matter", JStr (matter h)); ("reason", JStr (reason h));
        ("scopes", JArr (JStr <$> (scope_name <$> scopes h))); ("opened_at", jiso (opened_at h));
        ("opened_by", JStr (opened_by h)); ("released_at", jopt jiso (released_at h));
        ("released_by", jopt JStr (released_by h)); ("released_reason", jopt JStr (released_reason h))].

Definition normalize (h : json) : option LegalHold :=
  if negb (is_object h) then None else
  match field "id" h, field "matter" h with
  | Some (JStr i), Some (JStr m) =>
      let scs := omap scope_of (strings_of (array_or_empty (field "scopes" h))) in
      if bool_decide (scs = []) then None else
      Some {| id := i; matter := m;
              reason := default "" (string_or_null (field "reason" h));
              scopes := scs;
              opened_at := default (Iso 0) (iso_or_null (field "opened_at" h));
              opened_by := default "unknown" (string_or_null (field "opened_by" h));
              released_at := iso_or_null (field "released_at" h);
              released_by := string_or_null (field "released_by" h);
              released_reason := string_or_null (field "released_reason" h) |}
  | _, _ => None
  end.

Definition readAll (j : json) : list LegalHold :=
  match j with JArr l => omap normalize l | _ => [] end.

Definition hold_storable (h : LegalHold) : Prop :=
  scopes h <> [] /\ iso_ok (opened_at h) /\ from_option iso_ok True (released_at h).

Lemma scope_of_name s : scope_of (scope_name s) = Some s.
Proof. by destruct s. Qed.

Lemma scopes_roundtrip (l : list LegalHoldScope) : omap scope_of (scope_name <$> l) = l.
Proof. apply omap_fmap_id, Forall_true. intros s. apply scope_of_name. Qed.

Lemma hold_roundtrip h : hold_storable h -> normalize (encode_hold h) = Some h.
Proof.
  intros (Hs & Ho & Hr). unfold normalize, encode_hold.
  cbn [is_object negb field assoc String.eqb Ascii.eqb Bool.eqb array_or_empty].
  rewrite strings_of_fmap, scopes_roundtrip, bool_decide_eq_false_2 by done.
  rewrite !string_or_null_jopt, iso_or_null_jiso by done.
  change (iso_or_null (Some (jiso (opened_at h)))) with (Some (iso_of_string (iso_string (opened_at h)))).
  rewrite iso_of_string_iso by done. by destruct h.
Qed.

#[export] Program Instance holds_persisted : Persisted (list LegalHold) := {|
  raw := json; encode l := JArr (encode_hold <$> l); decode := readAll; absent := [];
  storable := Forall hold_storable |}.
Next Obligation.
  intros l Hl. simpl. apply omap_fmap_id. eapply Forall_impl; [exact Hl|]. apply hold_roundtrip.
Qed.

(** ** Queries *)

Definition active (h : LegalHold) : Prop := released_at h = None.
#[export] Instance active_dec h : Decision (active h).
Proof. unfold active. apply _. Defined.

Definition cmp_opened (a b : LegalHold) : Z :=
  if str_lt (iso_string (opened_at a)) (iso_string (opened_at b)) then 1 else -1.

Definition listHolds (f : file (list LegalHold)) : list LegalHold := js_sort cmp_opened (read_file f).

Definition listActiveHolds (f : file (list LegalHold)) : list LegalHold := filter active (read_file f).

Definition activeScopes (f : file (list LegalHold)) : list LegalHoldScope :=
  dedup (flat_map scopes (listActiveHolds f)).

Definition covers (want : list LegalHoldScope) (h : LegalHold) : Prop := Exists (fun s => s ∈ want) (scopes h).
#[export] Instance covers_dec want h : Decision (covers want h).
Proof. unfold covers. apply _. Defined.

Definition holdsBlocking (want : list LegalHoldScope) (f : file (list LegalHold)) : list LegalHold :=
  if bool_decide (want = []) then [] else filter (covers want) (listActiveHolds f).

(** [throw err] with [code = "legal_hold_active"] carries the holds. *)
Definition assertNoLegalHold (want : list LegalHoldScope) (f : file (list LegalHold)) : result unit (list LegalHold) :=
  match holdsBlocking want f with [] => Ok tt | hs => Err hs end.

(** ** Opening and releasing *)

Inductive OpenCode := matter_required | scopes_required.

Record OpenHoldInput := {
  in_matter : string; in_reason : option string; in_scopes : list string; in_opened_by : string }.

Definition dedupeScopes (l : list string) : list LegalHoldScope := dedup (omap scope_of l).

Definition or_unknown (s : string) : string := if truthy s then s else "unknown".

Definition open_tx (now : Z) (rid : string) (input : OpenHoldInput)
  : transaction (list LegalHold) (result LegalHold OpenCode) := fun all =>
  let m := trim (in_matter input) in
  if (str_len m <? 1) || (str_len m >? 200) then (Err matter_required, None) else
  let scs := dedupeScopes (in_scopes input) in
  if bool_decide (scs = []) then (Err scopes_required, None) else
  let row := {| id := rid; matter := m; reason := str_take 1000 (default "" (in_reason input)); scopes := scs;
                opened_at := Iso now; opened_by := or_unknown (in_opened_by input);
                released_at := None; released_by := None; released_reason := None |} in
  (Ok row, Some (all ++ [row])).

Definition openHold now rid input (f : file (list LegalHold)) := on_file (open_tx now rid input) f.

Inductive ReleaseCode := release_reason_required | not_found | already_released.

Record ReleaseInput := { rel_id : string; rel_by : string; rel_reason : string }.

Definition mark_released (now : Z) (by_ why : string) (h : LegalHold) : LegalHold :=
  {| id := id h; matter := matter h; reason := reason h; scopes := scopes h; opened_at := opened_at h;
     opened_by := opened_by h; released_at := Some (Iso now); released_by := Some (or_unknown by_);
     released_reason := Some (str_take 1000 why) |}.

Definition release_tx (now : Z) (input : ReleaseInput)
  : transaction (list LegalHold) (result LegalHold ReleaseCode) := fun all =>
  let why := trim (rel_reason input) in
  if str_len why <? 4 then (Err release_reason_required, None) else
  match list_find (fun h => id h = rel_id input) all with
  | None => (Err not_found, None)
  | Some (i, h) =>
      if from_option iso_truthy false (released_at h) then (Err already_released, None)
      else let h' := mark_released now (rel_by input) why h in (Ok h', Some (<[i := h']> all))
  end.

Definition releaseHold now input (f : file (list LegalHold)) := on_file (release_tx now input) f.

(** ** Laws *)

Lemma holdsBlocking_elem want f h :
  h ∈ holdsBlocking want f <-> h ∈ read_file f /\ active h /\ exists s, s ∈ scopes h /\ s ∈ want.
Proof.
  unfold holdsBlocking, listActiveHolds. case_bool_decide as E.
  - subst. split; [by intros ?%elem_of_nil|]. intros (_ & _ & s & _ & Hs). by apply elem_of_nil in Hs.
  - rewrite !list_elem_of_filter. unfold covers. rewrite Exists_exists. naive_solver.
Qed.

Lemma not_blocked want f :
  holdsBlocking want f = [] <-> forall h s, h ∈ read_file f -> active h -> s ∈ scopes h -> s ∉ want.
Proof.
  rewrite (eq_comm (holdsBlocking want f)). split.
  - intros E h s Hh Ha Hs Hw. apply (not_elem_of_nil h). rewrite E. apply holdsBlocking_elem. eauto.
  - intros Hn. symmetry. apply elem_of_nil_inv. intros h (Hh & Ha & s & Hs & Hw)%holdsBlocking_elem. by eapply Hn.
Qed.

(** [holdsBlocking] and [activeScopes] answer the same question. *)
Lemma blocking_scopes want f : holdsBlocking want f <> [] <-> exists s, s ∈ activeScopes f /\ s ∈ want.
Proof.
  unfold activeScopes, listActiveHolds. setoid_rewrite dedup_elem.
  setoid_rewrite list_elem_of_In. setoid_rewrite in_flat_map. setoid_rewrite <- list_elem_of_In.
  setoid_rewrite list_elem_of_filter. split.
  - intros Hn. destruct (holdsBlocking want f) as [|h l] eqn:E; [done|].
    assert (h ∈ holdsBlocking want f) as (? & ? & s & ? & ?)%holdsBlocking_elem by (rewrite E; left). eauto 6.
  - intros (s & (h & (Ha & Hh) & Hs) & Hw) E. eapply not_blocked; eauto.
Qed.

(** ** What the store promises to the destructive paths

    They only see which holds block a list of scopes. *)
Class HoldRegister (H : Type) := {
  blocking : list LegalHoldScope -> H -> list LegalHold;
  held : H -> LegalHoldScope -> Prop;
  blocking_held want h : blocking want h <> [] <-> exists s, s ∈ want /\ held h s;
}.

#[export] Program Instance file_register : HoldRegister (file (list LegalHold)) := {|
  blocking := holdsBlocking; held f s := s ∈ activeScopes f |}.
Next Obligation. intros want f. rewrite blocking_scopes. naive_solver. Qed.

Lemma blocked_by {H} `{HoldRegister H} want (h : H) s : s ∈ want -> held h s -> blocking want h <> [].
Proof. intros. apply blocking_held. eauto. Qed.

Lemma unblocked {H} `{HoldRegister H} want (h : H) : Forall (fun s => ~ held h s) want -> blocking want h = [].
Proof.
  intros Hn. destruct (blocking want h) eqn:E; [done|]. exfalso.
  assert (blocking want h <> []) as (s & Hs & Hh)%blocking_held by (by rewrite E).
  rewrite Forall_forall in Hn. by eapply Hn.
Qed.

Inductive hold_event :=
| Open (now : Z) (rid : string) (input : OpenHoldInput)
| Release (now : Z) (input : ReleaseInput).

Definition run (e : hold_event) (f : file (list LegalHold)) : file (list LegalHold) :=
  match e with
  | Open now rid input => snd (openHold now rid input f)
  | Release now input => snd (releaseHold now input f)
  end.

Definition event_ok (e : hold_event) : Prop :=
  match e with Open now _ _ => iso_range now | Release now _ => iso_range now end.

Definition run_all (es : list hold_event) (f : file (list LegalHold)) : file (list LegalHold) :=
  fold_left (fun f e => run e f) es f.

(** What a release may change in a row. *)
Definition later (h h' : LegalHold) : Prop :=
  id h' = id h /\ matter h' = matter h /\ reason h' = reason h /\ scopes h' = scopes h /\
  opened_at h' = opened_at h /\ opened_by h' = opened_by h /\
  (from_option iso_truthy false (released_at h) = true -> h' = h).

#[export] Instance later_preorder : PreOrder later.
Proof.
  split; [by intros h|]. intros a b c (E1&E2&E3&E4&E5&E6&Hb) (F1&F2&F3&F4&F5&F6&Hc).
  repeat (split; [congruence|]). intros Ha. specialize (Hb Ha) as ->. auto.
Qed.

Lemma open_storable now rid input s : iso_range now -> Forall hold_storable s -> writes_storable (open_tx now rid input) s.
Proof.
  intros Hn Hs s'. unfold open_tx. cbn zeta. destruct (_ || _); [done|].
  case_bool_decide as E; [done|]. intros H1. injection H1 as <-. apply Forall_app. split; [done|].
  apply Forall_singleton. done.
Qed.

Lemma release_storable now input s : iso_range now -> Forall hold_storable s -> writes_storable (release_tx now input) s.
Proof.
  intros Hn Hs s'. unfold release_tx. cbn zeta. destruct (_ <? _); [done|].
  destruct (list_find _ s) as [[i h]|] eqn:E; [|done]. destruct (from_option _ _ _); [done|]. intros H1. injection H1 as <-.
  apply Forall_insert; [done|]. apply list_find_elem in E as [Hin _].
  rewrite Forall_forall in Hs. destruct (Hs h Hin) as (? & ? & _). done.
Qed.

Lemma open_grows now rid input s : grows later s (after (open_tx now rid input) s).
Proof.
  unfold after, open_tx. cbn zeta. destruct (_ || _); [reflexivity|].
  case_bool_decide; [reflexivity|]. by apply grows_app.
Qed.

Lemma release_grows now input s : grows later s (after (release_tx now input) s).
Proof.
  unfold after, release_tx. cbn zeta. destruct (_ <? _); [reflexivity|].
  destruct (list_find _ s) as [[i h]|] eqn:Ef; [|reflexivity].
  destruct (from_option iso_truthy false (released_at h)) eqn:Er; [reflexivity|].
  apply list_find_lookup in Ef as [Hl _]. eapply grows_update; [apply _|exact Hl|].
  repeat (split; [done|]). by rewrite Er.
Qed.

Lemma after_storable {R} (tx : transaction (list LegalHold) R) s :
  Forall hold_storable s -> writes_storable tx s -> Forall hold_storable (after tx s).
Proof. intros Hs Hw. unfold after, writes_storable in *. destruct (snd (tx s)); [by apply Hw|done]. Qed.

Lemma run_grows e f :
  event_ok e -> Forall hold_storable (read_file f) ->
  Forall hold_storable (read_file (run e f)) /\ grows later (read_file f) (read_file (run e f)).
Proof.
  intros He Hs. destruct e as [now rid input|now input]; cbn [run event_ok] in *;
  unfold openHold, releaseHold; rewrite on_file_view by eauto using open_storable, release_storable;
  split; eauto using after_storable, open_storable, release_storable, open_grows, release_grows.
Qed.

Lemma run_all_grows es f :
  Forall event_ok es -> Forall hold_storable (read_file f) ->
  Forall hold_storable (read_file (run_all es f)) /\ grows later (read_file f) (read_file (run_all es f)).
Proof.
  revert f; induction es as [|e es IH]; intros f He Hs; [done|]. inversion He; subst.
  destruct (run_grows e f) as [Hs' Hg]; [done..|].
  destruct (IH (run e f)) as [? ?]; [done..|]. split; [done|]. by etrans.
Qed.

(** The register of holds is append-only: through any history of openings
    and releases every row keeps its place, identity, matter, scopes and
    opening, and a row that has been released never changes again. *)
Theorem holds_append_only es f :
  Forall event_ok es -> Forall hold_storable (read_file f) ->
  grows later (read_file f) (read_file (run_all es f)).
Proof. intros He Hs. by apply run_all_grows. Qed.

(** The release of the row with this id is not among the events. *)
Definition does_not_release (i : string) (e : hold_event) : Prop :=
  match e with Release _ input => rel_id input <> i | Open _ _ _ => True end.

Lemma run_keeps_active e f h :
  event_ok e -> Forall hold_storable (read_file f) -> does_not_release (id h) e ->
  h ∈ read_file f -> active h -> h ∈ read_file (run e f).
Proof.
  intros He Hs Hn Hh Ha. destruct e as [now rid input|now input]; cbn [run event_ok does_not_release] in *.
  - unfold openHold. rewrite on_file_view by eauto using open_storable. unfold after, open_tx. cbn zeta.
    destruct (_ || _); [done|]. case_bool_decide; [done|]. simpl. apply elem_of_app. by left.
  - unfold releaseHold. rewrite on_file_view by eauto using release_storable. unfold after, release_tx. cbn zeta.
    destruct (_ <? _); [done|]. destruct (list_find _ _) as [[i h0]|] eqn:Ef; [|done].
    destruct (from_option iso_truthy _ _); [done|]. simpl. apply list_find_lookup in Ef as [Hl Hid].
    apply list_elem_of_lookup in Hh as [j Hj]. apply list_elem_of_lookup. exists j.
    rewrite list_lookup_insert_ne; [done|]. intros ->. simplify_eq.
Qed.

(** A hold blocks until it is released: after [openHold] succeeds, whatever
    else is opened or released, a destructive path that asks about one of its
    scopes is refused and told about this hold, as long as no release names
    its id. *)
Theorem open_hold_blocks now rid input f h f' es want :
  event_ok (Open now rid input) -> Forall hold_storable (read_file f) ->
  openHold now rid input f = (Ok h, f') ->
  Forall event_ok es -> Forall (does_not_release (id h)) es ->
  (exists s, s ∈ scopes h /\ s ∈ want) ->
  exists hs, assertNoLegalHold want (run_all es f') = Err hs /\ h ∈ hs.
Proof.
  intros He Hs Heq Hes Hn (s & Hsc & Hw).
  pose proof (run_grows _ f He Hs) as [Hs' _]. cbn [run] in Hs'.
  pose proof (on_file_view (open_tx now rid input) f (open_storable now rid input _ He Hs)) as Hv.
  pose proof (on_file_result (open_tx now rid input) f) as Hr. fold (openHold now rid input f) in Hv, Hr.
  rewrite Heq in Hv, Hr, Hs'. cbn [fst snd] in *.
  assert (Hin : h ∈ read_file f' /\ active h).
  { rewrite Hv. symmetry in Hr. revert Hr. unfold after, open_tx. cbn zeta. destruct (_ || _); [done|].
    case_bool_decide; [done|]. intros E. injection E as <-. split; [|done]. simpl. apply elem_of_app. right. by left. }
  destruct Hin as [Hin Ha]. clear Heq Hv Hr Hs He.
  assert (h ∈ holdsBlocking want (run_all es f')) as Hb.
  { apply holdsBlocking_elem. split; [|eauto]. revert f' Hs' Hin. induction es as [|e es IH]; intros f' Hs' Hin; [done|].
    inversion Hes; inversion Hn; subst. apply IH; [done..| |]; [by apply run_grows|by apply run_keeps_active]. }
  unfold assertNoLegalHold. destruct (holdsBlocking want _) as [|x l]; [by apply elem_of_nil in Hb|]. eauto.
Qed.

Section Demo.
Definition demo_open : OpenHoldInput :=
  {| in_matter := " Acme v. Doe "; in_reason := None; in_scopes := ["audit"; "nonsense"; "audit"]; in_opened_by := "" |}.
Definition demo_events : list hold_event :=
  [Open 6000 "h2" {| in_matter := "SEC inquiry"; in_reason := Some "letter"; in_scopes := ["runs"]; in_opened_by := "k1" |};
   Release 7000 {| rel_id := "h2"; rel_by := "k1"; rel_reason := "settled" |};
   Release 8000 {| rel_id := "h1x"; rel_by := "k1"; rel_reason := "typo in id" |}].

Lemma demo_events_ok : Forall event_ok demo_events.
Proof. repeat constructor; vm_compute; discriminate. Qed.

Lemma demo_empty : Forall hold_storable (read_file (S := list LegalHold) None).
Proof. constructor. Qed.

Lemma holds_append_only_witness :
  grows later [] (read_file (run_all (Open 5000 "h1" demo_open :: demo_events) None)).
Proof.
  apply (holds_append_only (Open 5000 "h1" demo_open :: demo_events) None); [|exact demo_empty].
  constructor; [vm_compute; split; discriminate|exact demo_events_ok].
Defined.

Lemma open_hold_blocks_witness :
  match openHold 5000 "h1" demo_open None with
  | (Ok h, f') => matter h = "Acme v. Doe" /\ exists hs, assertNoLegalHold [audit; runs] (run_all demo_events f') = Err hs /\ h ∈ hs
  | (Err _, _) => False
  end.
Proof.
  destruct (openHold 5000 "h1" demo_open None) as [[h|e] f'] eqn:E; [|not_an_error E].
  assert (Hh : fst (openHold 5000 "h1" demo_open None) = Ok h) by (by rewrite E).
  unfold openHold in Hh. rewrite on_file_result in Hh. vm_compute in Hh. injection Hh as <-. split; [reflexivity|].
  apply (open_hold_blocks 5000 "h1" demo_open None _ f' demo_events [audit; runs]);
    [vm_compute; split; discriminate|exact demo_empty|exact E|exact demo_events_ok|repeat constructor; discriminate|].
  exists audit. split; apply list_elem_of_here.
Defined.

End Demo.
