(* ===== verification/Retention.v ===== *)
(** Data minimisation: [web/lib/retentionStore.ts]. The sweep deletes records
    older than the policy allows, unless a legal hold covers them; it knows the
    holds only through the interface [HoldRegister]. *)
From S2P Require Import Prelude JsNum JsDate IsoTime Json Store LegalHold.

Record counts := Counts { n_runs : num; n_audit : num; n_webhook_deliveries : num }.

Record RetentionPolicy := {
  runs_days : Z;
  audit_days : Z;
  webhook_deliveries_days : Z;
  updated_at : iso;
  last_sweep_at : option iso;
  last_sweep_counts : option counts;
}.

Definition DEFAULT_POLICY : RetentionPolicy :=
  {| runs_days := 0; audit_days := 0; webhook_deliveries_days := 0; updated_at := Iso 0;
     last_sweep_at := None; last_sweep_counts := None |}.

Definition MAX_DAYS : Z := 3650.

(** [clampDays(input)], from the value of [Number(input)]. *)
Definition clampDays (n : num) : Z :=
  if negb (is_finite n) then 0 else
  let i := floorZ (num_trunc n) in
  if i <=? 0 then 0 else if i >? MAX_DAYS then MAX_DAYS else i.

(** What [getPolicy] reads off the file: [Number(...)] of the day fields and of
    the counts, the strings it finds. *)
Record raw_policy := {
  raw_runs_days : num; raw_audit_days : num; raw_webhook_deliveries_days : num;
  raw_updated_at : option iso; raw_last_sweep_at : option iso; raw_counts : option counts }.

(** [Number(x) || 0]. *)
Definition or_zero (n : num) : num := match n with NaN => int 0 | _ => n end.

Definition read_policy (j : raw_policy) : RetentionPolicy :=
  {| runs_days := clampDays (raw_runs_days j);
     audit_days := clampDays (raw_audit_days j);
     webhook_deliveries_days := clampDays (raw_webhook_deliveries_days j);
     updated_at := default (updated_at DEFAULT_POLICY) (raw_updated_at j);
     last_sweep_at := raw_last_sweep_at j;
     last_sweep_counts :=
       (fun c => Counts (or_zero (n_runs c)) (or_zero (n_audit c)) (or_zero (n_webhook_deliveries c))) <$> raw_counts j |}.

Definition raw_of (p : RetentionPolicy) : raw_policy :=
  {| raw_runs_days := int (runs_days p); raw_audit_days := int (audit_days p);
     raw_webhook_deliveries_days := int (webhook_deliveries_days p);
     raw_updated_at := Some (updated_at p); raw_last_sweep_at := last_sweep_at p;
     raw_counts := last_sweep_counts p |}.

Definition days_ok (d : Z) : Prop := 0 <= d <= MAX_DAYS.
Definition counts_ok (c : counts) : Prop := n_runs c <> NaN /\ n_audit c <> NaN /\ n_webhook_deliveries c <> NaN.

Definition policy_storable (p : RetentionPolicy) : Prop :=
  days_ok (runs_days p) /\ days_ok (audit_days p) /\ days_ok (webhook_deliveries_days p) /\
  from_option counts_ok True (last_sweep_counts p).

Lemma clampDays_int d : clampDays (int d) = Z.max 0 (Z.min MAX_DAYS d).
Proof.
  unfold clampDays. autorewrite with jsnum. cbn [is_finite int negb]. unfold MAX_DAYS.
  destruct (d <=? 0) eqn:E1; [|destruct (d >? 3650) eqn:E2]; bool_to_prop; lia.
Qed.

Lemma clampDays_ok n : days_ok (clampDays n).
Proof.
  unfold clampDays, days_ok, MAX_DAYS. destruct (negb (is_finite n)); [lia|]. cbn zeta.
  destruct (_ <=? 0) eqn:E1; [lia|destruct (_ >? 3650) eqn:E2]; bool_to_prop; lia.
Qed.

Lemma or_zero_id n : n <> NaN -> or_zero n = n.
Proof. by destruct n. Qed.

Lemma read_policy_raw p : policy_storable p -> read_policy (raw_of p) = p.
Proof.
  intros (H1 & H2 & H3 & H4). unfold read_policy, raw_of. simpl. rewrite !clampDays_int.
  unfold days_ok in *. rewrite !Z.min_r, !Z.max_r by lia.
  destruct p as [a b c d e [[x y z]|]]; simpl in *; [|done]. destruct H4 as (? & ? & ?). simpl in *.
  by rewrite !or_zero_id.
Qed.

#[export] Instance RetentionPolicy_persisted : Persisted RetentionPolicy := {|
  raw := raw_policy; encode := raw_of; decode := read_policy; absent := DEFAULT_POLICY;
  storable := policy_storable; decode_encode := read_policy_raw |}.

(** Every policy read from a file is within bounds. *)
Lemma getPolicy_storable (f : file RetentionPolicy) : policy_storable (read_file f).
Proof.
  destruct f as [j|]; [|done]. simpl. unfold policy_storable. simpl. do 3 (split; [apply clampDays_ok|]).
  destruct (raw_counts j) as [[a b c]|]; [|done]. by destruct a, b, c.
Qed.

Definition getPolicy (f : file RetentionPolicy) : RetentionPolicy := read_file f.

(** [undefined] keeps the current value. *)
Record PolicyUpdate := { u_runs : option num; u_audit : option num; u_webhook : option num }.

Definition set_tx (now : Z) (u : PolicyUpdate) : transaction RetentionPolicy RetentionPolicy := fun cur =>
  let next := {| runs_days := from_option clampDays (runs_days cur) (u_runs u);
                 audit_days := from_option clampDays (audit_days cur) (u_audit u);
                 webhook_deliveries_days := from_option clampDays (webhook_deliveries_days cur) (u_webhook u);
                 updated_at := Iso now; last_sweep_at := last_sweep_at cur;
                 last_sweep_counts := last_sweep_counts cur |} in
  (next, Some next).

Definition setPolicy now u (f : file RetentionPolicy) := on_file (set_tx now u) f.

(** ** The data files *)

(** [audit.jsonl] and [audit.jsonl.1] are lists of lines, blank lines left out. *)
Record data_dir := {
  runs_json : option content;
  audit_jsonl : option (list content);
  audit_jsonl_1 : option (list content);
  webhook_deliveries_json : option content;
}.

Definition cutoffIso (now days : Z) : string := toISOString (now - days * 86400000).

(** [typeof r?.k === "string" && r.k >= cutoff]. *)
Definition fresh (k cutoff : string) (r : json) : Prop :=
  match field k r with Some (JStr s) => str_lt s cutoff = false | _ => False end.
#[export] Instance fresh_dec k cutoff r : Decision (fresh k cutoff r).
Proof. unfold fresh. destruct (field k r) as [[]|]; apply _. Defined.

(** [typeof ev?.ts === "string" && ev.ts < cutoff] on a line that parses. *)
Definition outdated (cutoff : string) (line : content) : Prop :=
  match line with
  | Parsed ev => match field "ts" ev with Some (JStr s) => str_lt s cutoff = true | _ => False end
  | Unparsable _ => False
  end.
#[export] Instance outdated_dec cutoff line : Decision (outdated cutoff line).
Proof. unfold outdated. destruct line as [j|]; [destruct (field "ts" j) as [[]|]|]; apply _. Defined.

Definition sweepRunsFile (now days : Z) (f : option content) : Z * option content :=
  match f with
  | Some (Parsed store) =>
      match field "runs" store with
      | Some (JArr rs) =>
          let kept := filter (fresh "created_at" (cutoffIso now days)) rs in
          let removed := len rs - len kept in
          (removed, if removed >? 0 then Some (Parsed (set_field "runs" (JArr kept) store)) else f)
      | _ => (0, f)
      end
  | _ => (0, f)
  end.

Definition sweepAuditFile (now days : Z) (f : option (list content)) : Z * option (list content) :=
  match f with
  | Some lines =>
      let keep := filter (fun l => ~ outdated (cutoffIso now days) l) lines in
      let removed := len lines - len keep in
      (removed, if removed >? 0 then Some keep else f)
  | None => (0, f)
  end.

Definition sweepAuditFiles (now days : Z) (a b : option (list content))
  : Z * option (list content) * option (list content) :=
  let '(n, a') := sweepAuditFile now days a in
  let '(m, b') := sweepAuditFile now days b in
  (n + m, a', b').

Definition sweepWebhookDeliveriesFile (now days : Z) (f : option content) : Z * option content :=
  match f with
  | Some (Parsed (JArr l)) =>
      let next := filter (fresh "delivered_at" (cutoffIso now days)) l in
      let removed := len l - len next in
      (removed, if removed >? 0 then Some (Parsed (JArr next)) else f)
  | _ => (0, f)
  end.

(** ** The sweep *)

Record skipped := { skip_runs : list LegalHold; skip_audit : list LegalHold; skip_webhook : list LegalHold }.

Record SweepResult := { ran_at : Z; policy : RetentionPolicy; swept : counts; skipped_holds : skipped }.

Section Sweep.
Context {H : Type} `{HoldRegister H}.

(** One scope of the sweep: what is deleted, what is reported as skipped. *)
Definition guarded {F} (days : Z) (holds : list LegalHold) (sweep : Z * F) (unswept : F) : Z * F * list LegalHold :=
  if days >? 0 then
    if bool_decide (0 < len holds) then (0, unswept, holds) else (fst sweep, snd sweep, [])
  else (0, unswept, []).

(** The clock is read for [ran_at] and for the cutoff of each scope. *)
Definition runRetentionSweep (clk : clock) (reg : H) (pf : file RetentionPolicy) (d : data_dir)
  : SweepResult * file RetentionPolicy * data_dir :=
  let p := getPolicy pf in
  let runHolds := blocking [runs; user_data] reg in
  let auditHolds := blocking [audit] reg in
  let webhookHolds := blocking [webhook_deliveries] reg in
  let '(nr, r', sr) := guarded (runs_days p) runHolds (sweepRunsFile (clk 1%nat) (runs_days p) (runs_json d)) (runs_json d) in
  let '(na, (a', b'), sa) := guarded (audit_days p) auditHolds
      (let '(n, a, b) := sweepAuditFiles (clk 2%nat) (audit_days p) (audit_jsonl d) (audit_jsonl_1 d) in (n, (a, b)))
      (audit_jsonl d, audit_jsonl_1 d) in
  let '(nw, w', sw) := guarded (webhook_deliveries_days p) webhookHolds
      (sweepWebhookDeliveriesFile (clk 3%nat) (webhook_deliveries_days p) (webhook_deliveries_json d)) (webhook_deliveries_json d) in
  let cs := Counts (int nr) (int na) (int nw) in
  let persisted := {| runs_days := runs_days p; audit_days := audit_days p;
                      webhook_deliveries_days := webhook_deliveries_days p; updated_at := updated_at p;
                      last_sweep_at := Some (Iso (clk 0%nat)); last_sweep_counts := Some cs |} in
  ({| ran_at := clk 0%nat; policy := persisted; swept := cs;
      skipped_holds := {| skip_runs := sr; skip_audit := sa; skip_webhook := sw |} |},
   write_file persisted,
   {| runs_json := r'; audit_jsonl := a'; audit_jsonl_1 := b'; webhook_deliveries_json := w' |}).

Definition AUTO_SWEEP_INTERVAL_MS : Z := 3600000.

(** [lastAutoSweep] is the module's state; the sweep reads the clock after it. *)
Definition maybeAutoSweep (clk : clock) (reg : H) (lastAutoSweep : Z) (pf : file RetentionPolicy) (d : data_dir)
  : option SweepResult * Z * file RetentionPolicy * data_dir :=
  let p := getPolicy pf in
  if (runs_days p =? 0) && (audit_days p =? 0) && (webhook_deliveries_days p =? 0) then (None, lastAutoSweep, pf, d)
  else if clk 0%nat - lastAutoSweep <? AUTO_SWEEP_INTERVAL_MS then (None, lastAutoSweep, pf, d)
  else let '(r, pf', d') := runRetentionSweep (fun i => clk (S i)) reg pf d in (Some r, clk 0%nat, pf', d').

(** ** Laws *)

Lemma rewrite_if_shorter {A F} (P : A -> Prop) `{!forall x, Decision (P x)} (l : list A) (g : list A -> F) f :
  f = g l -> (if len l - len (filter P l) >? 0 then g (filter P l) else f) = g (filter P l).
Proof.
  intros ->. destruct (_ >? 0) eqn:E; [done|]. bool_to_prop.
  destruct (filter_same_length P l) as [Hle Heq]. rewrite Heq by lia. done.
Qed.

Lemma sweepAuditFile_spec now days lines :
  sweepAuditFile now days (Some lines) =
    (len lines - len (filter (fun l => ~ outdated (cutoffIso now days) l) lines),
     Some (filter (fun l => ~ outdated (cutoffIso now days) l) lines)).
Proof. simpl. by rewrite (rewrite_if_shorter _ lines Some). Qed.

Lemma sweepWebhook_spec now days l :
  sweepWebhookDeliveriesFile now days (Some (Parsed (JArr l))) =
    (len l - len (filter (fresh "delivered_at" (cutoffIso now days)) l),
     Some (Parsed (JArr (filter (fresh "delivered_at" (cutoffIso now days)) l)))).
Proof. simpl. by rewrite (rewrite_if_shorter _ l (fun l => Some (Parsed (JArr l)))). Qed.

Lemma sweepRuns_spec now days store rs :
  field "runs" store = Some (JArr rs) ->
  sweepRunsFile now days (Some (Parsed store)) =
    (len rs - len (filter (fresh "created_at" (cutoffIso now days)) rs),
     Some (Parsed (set_field "runs" (JArr (filter (fresh "created_at" (cutoffIso now days)) rs)) store))).
Proof.
  intros E. simpl. rewrite E. f_equal.
  rewrite (rewrite_if_shorter _ rs (fun l => Some (Parsed (set_field "runs" (JArr l) store)))); [done|].
  by rewrite set_field_same.
Qed.

(** A second sweep at the same instant finds nothing left to delete. *)
Definition idempotent {F} (sweep : F -> Z * F) (f : F) : Prop :=
  sweep (snd (sweep f)) = (0, snd (sweep f)).

Lemma sweepAuditFile_idempotent now days f : idempotent (sweepAuditFile now days) f.
Proof.
  destruct f as [l|]; [|done]. unfold idempotent. rewrite sweepAuditFile_spec. cbn [snd].
  rewrite sweepAuditFile_spec, filter_twice. f_equal. lia.
Qed.

Lemma sweepAuditFiles_idempotent now days a b :
  let '(_, a', b') := sweepAuditFiles now days a b in sweepAuditFiles now days a' b' = (0, a', b').
Proof.
  pose proof (sweepAuditFile_idempotent now days a) as Ha. pose proof (sweepAuditFile_idempotent now days b) as Hb.
  unfold idempotent, sweepAuditFiles in *.
  destruct (sweepAuditFile now days a) as [n a'], (sweepAuditFile now days b) as [m b'].
  cbn [snd] in *. by rewrite Ha, Hb.
Qed.

Lemma sweepWebhook_idempotent now days f : idempotent (sweepWebhookDeliveriesFile now days) f.
Proof.
  destruct f as [[[]|]|]; try done. unfold idempotent. rewrite sweepWebhook_spec. cbn [snd].
  rewrite sweepWebhook_spec, filter_twice. f_equal. lia.
Qed.

Lemma sweepRuns_idempotent now days f : idempotent (sweepRunsFile now days) f.
Proof.
  destruct f as [[store|]|]; try done. unfold idempotent.
  destruct (field "runs" store) as [[| | | |rs|]|] eqn:E; try by (simpl; rewrite E; simpl; rewrite E).
  rewrite (sweepRuns_spec _ _ _ rs) by done. cbn [snd].
  erewrite sweepRuns_spec by (by eapply field_set_field).
  rewrite filter_twice, set_field_twice. f_equal. lia.
Qed.

Lemma guarded_days {F} days holds (sweep : Z * F) f n f' sk :
  guarded days holds sweep f = (n, f', sk) ->
  (days <= 0 \/ holds <> [] -> n = 0 /\ f' = f) /\
  (0 < days -> holds <> [] -> sk = holds) /\
  (0 < days -> holds = [] -> (n, f') = sweep /\ sk = []).
Proof.
  unfold guarded. destruct (days >? 0) eqn:E; bool_to_prop.
  - case_bool_decide as Hp; rewrite len_pos in Hp; intros [= <- <- <-].
    + split; [done|]. split; [done|]. intros _ ->. done.
    + split; [|split; [done|by destruct sweep]]. intros [|]; [lia|done].
  - intros [= <- <- <-]. split; [done|]. split; lia.
Qed.

Lemma guarded_twice {F} days holds (sweep : F -> Z * F) f n f' sk :
  idempotent sweep f -> guarded days holds (sweep f) f = (n, f', sk) -> guarded days holds (sweep f') f' = (0, f', sk).
Proof.
  unfold guarded, idempotent. intros Hi. destruct (days >? 0); [case_bool_decide|]; intros [= <- <- <-]; [done| |done].
  by rewrite Hi.
Qed.

(** C17. A legal hold stops the sweep: whatever the policy says and whenever it
    runs, the files of a scope under hold are left as they were (a hold on user
    data also pins the runs), and an enabled scope is reported with the holds
    that stopped it. *)
Theorem sweep_respects_holds clk reg pf d res pf' d' :
  runRetentionSweep clk reg pf d = (res, pf', d') ->
  (held reg runs \/ held reg user_data ->
     runs_json d' = runs_json d /\ n_runs (swept res) = int 0 /\
     (0 < runs_days (getPolicy pf) -> skip_runs (skipped_holds res) = blocking [runs; user_data] reg)) /\
  (held reg audit ->
     audit_jsonl d' = audit_jsonl d /\ audit_jsonl_1 d' = audit_jsonl_1 d /\ n_audit (swept res) = int 0 /\
     (0 < audit_days (getPolicy pf) -> skip_audit (skipped_holds res) = blocking [audit] reg)) /\
  (held reg webhook_deliveries ->
     webhook_deliveries_json d' = webhook_deliveries_json d /\ n_webhook_deliveries (swept res) = int 0 /\
     (0 < webhook_deliveries_days (getPolicy pf) ->
        skip_webhook (skipped_holds res) = blocking [webhook_deliveries] reg)).
Proof.
  unfold runRetentionSweep. destruct (guarded (runs_days _) _ _ _) as [[nr r'] sr] eqn:Er.
  destruct (guarded (audit_days _) _ _ _) as [[na [a' b']] sa] eqn:Ea.
  destruct (guarded (webhook_deliveries_days _) _ _ _) as [[nw w'] sw] eqn:Ew.
  intros [= <- _ <-]. simpl.
  apply guarded_days in Er as (Er & Sr & _), Ea as (Ea & Sa & _), Ew as (Ew & Sw & _).
  split; [|split].
  - intros Hh. assert (Hb : blocking [runs; user_data] reg <> []) by (apply blocking_held; destruct Hh; set_solver).
    destruct Er as [-> ->]; auto.
  - intros Hh. pose proof (blocked_by [audit] reg audit ltac:(set_solver) Hh) as Hb.
    destruct Ea as [-> Eab]; [auto|]. simplify_eq. auto.
  - intros Hh. pose proof (blocked_by [webhook_deliveries] reg webhook_deliveries ltac:(set_solver) Hh) as Hb.
    destruct Ew as [-> ->]; auto.
Qed.

(** What is left of a scope that is enabled and not under hold. *)
Definition runs_swept (cutoff : string) (f f' : option content) (removed : Z) : Prop :=
  forall store rs, f = Some (Parsed store) -> field "runs" store = Some (JArr rs) ->
  f' = Some (Parsed (set_field "runs" (JArr (filter (fresh "created_at" cutoff) rs)) store)) /\
  removed = len rs - len (filter (fresh "created_at" cutoff) rs).

Definition lines_swept (cutoff : string) (f f' : option (list content)) : Prop :=
  f' = filter (fun l => ~ outdated cutoff l) <$> f.

(** An enabled scope that no hold covers loses exactly the records older
    than its limit: of the runs, those without a readable creation stamp at or
    after the cutoff go, the others keep their order and their content; the
    audit log loses the parsable events before the cutoff and never an
    unparsable line. A scope whose limit is zero is left alone. *)
Theorem sweep_deletes_exactly_the_old clk reg pf d res pf' d' :
  runRetentionSweep clk reg pf d = (res, pf', d') ->
  (0 < runs_days (getPolicy pf) -> ~ held reg runs -> ~ held reg user_data ->
     exists n, n_runs (swept res) = int n /\
       runs_swept (cutoffIso (clk 1%nat) (runs_days (getPolicy pf))) (runs_json d) (runs_json d') n) /\
  (0 < audit_days (getPolicy pf) -> ~ held reg audit ->
     lines_swept (cutoffIso (clk 2%nat) (audit_days (getPolicy pf))) (audit_jsonl d) (audit_jsonl d') /\
     lines_swept (cutoffIso (clk 2%nat) (audit_days (getPolicy pf))) (audit_jsonl_1 d) (audit_jsonl_1 d')) /\
  (runs_days (getPolicy pf) = 0 -> runs_json d' = runs_json d) /\
  (audit_days (getPolicy pf) = 0 -> audit_jsonl d' = audit_jsonl d /\ audit_jsonl_1 d' = audit_jsonl_1 d) /\
  (webhook_deliveries_days (getPolicy pf) = 0 -> webhook_deliveries_json d' = webhook_deliveries_json d).
Proof.
  unfold runRetentionSweep. destruct (guarded (runs_days _) _ _ _) as [[nr r'] sr] eqn:Er.
  destruct (guarded (audit_days _) _ _ _) as [[na [a' b']] sa] eqn:Ea.
  destruct (guarded (webhook_deliveries_days _) _ _ _) as [[nw w'] sw] eqn:Ew.
  intros [= <- _ <-]. simpl.
  apply guarded_days in Er as (Zr & _ & Sr), Ea as (Za & _ & Sa), Ew as (Zw & _ & _).
  split; [|split; [|split; [|split]]].
  - intros Hd Hr Hu. destruct Sr as [Sr _]; [done|by apply unblocked; rewrite ?Forall_cons, ?Forall_nil|].
    exists nr. split; [done|]. intros store rs Hf Hrs. rewrite Hf, (sweepRuns_spec _ _ _ rs) in Sr by done. by simplify_eq.
  - intros Hd Hh. destruct Sa as [Sa _]; [done|by apply unblocked; rewrite ?Forall_cons, ?Forall_nil|].
    unfold sweepAuditFiles in Sa. destruct (audit_jsonl d) as [l1|], (audit_jsonl_1 d) as [l2|];
    rewrite ?sweepAuditFile_spec in Sa; simpl in Sa; by simplify_eq.
  - intros Hz. destruct Zr as [_ ->]; [left; lia|done].
  - intros Hz. destruct Za as [_ Zab]; [left; lia|by simplify_eq].
  - intros Hz. destruct Zw as [_ ->]; [left; lia|done].
Qed.

(** The policy the sweep writes back only differs in its last-sweep fields. *)
Lemma sweep_policy clk reg pf d res pf' d' :
  runRetentionSweep clk reg pf d = (res, pf', d') ->
  getPolicy pf' = policy res /\ runs_days (policy res) = runs_days (getPolicy pf) /\
  audit_days (policy res) = audit_days (getPolicy pf) /\
  webhook_deliveries_days (policy res) = webhook_deliveries_days (getPolicy pf).
Proof.
  unfold runRetentionSweep. destruct (guarded (runs_days _) _ _ _) as [[nr r'] sr].
  destruct (guarded (audit_days _) _ _ _) as [[na [a' b']] sa].
  destruct (guarded (webhook_deliveries_days _) _ _ _) as [[nw w'] sw].
  intros [= <- <- <-]. unfold getPolicy at 1. rewrite read_write; [done|].
  destruct (getPolicy_storable pf) as (? & ? & ? & _). by do 3 (split; [done|]).
Qed.

(** The sweep is idempotent: run again with the same clock and the same
    holds, it deletes nothing and leaves every data file as the first run did. *)
Theorem sweep_idempotent clk reg pf d res pf' d' res2 pf2 d2 :
  runRetentionSweep clk reg pf d = (res, pf', d') ->
  runRetentionSweep clk reg pf' d' = (res2, pf2, d2) ->
  d2 = d' /\ swept res2 = Counts (int 0) (int 0) (int 0).
Proof.
  intros H1. pose proof (sweep_policy _ _ _ _ _ _ _ H1) as (Hp & Pr & Pa & Pw). revert H1.
  unfold runRetentionSweep. rewrite Hp, Pr, Pa, Pw.
  destruct (guarded (runs_days _) _ (sweepRunsFile _ _ _) _) as [[nr r'] sr] eqn:Er.
  destruct (guarded (audit_days _) _ _ _) as [[na [a' b']] sa] eqn:Ea.
  destruct (guarded (webhook_deliveries_days _) _ _ _) as [[nw w'] sw] eqn:Ew.
  intros [= <- <- <-]. cbn [runs_json audit_jsonl audit_jsonl_1 webhook_deliveries_json].
  apply (guarded_twice _ _ (sweepRunsFile _ _)) in Er; [|apply sweepRuns_idempotent].
  apply (guarded_twice _ _ (sweepWebhookDeliveriesFile _ _)) in Ew; [|apply sweepWebhook_idempotent].
  apply (guarded_twice _ _ (fun '(x, y) => let '(n, a, b) := sweepAuditFiles (clk 2%nat) (audit_days (getPolicy pf)) x y in (n, (a, b)))) in Ea.
  - simpl in Ea. rewrite Er, Ea, Ew. by intros [= <- <- <-].
  - unfold idempotent. pose proof (sweepAuditFiles_idempotent (clk 2%nat) (audit_days (getPolicy pf)) (audit_jsonl d) (audit_jsonl_1 d)) as Hi.
    destruct (sweepAuditFiles _ _ (audit_jsonl d) _) as [[n x] y]. cbn [snd]. by rewrite Hi.
Qed.

(** The automatic sweep runs at most once an hour. *)
Lemma auto_sweep_throttled clk clk2 reg last pf d r last' pf' d' :
  maybeAutoSweep clk reg last pf d = (Some r, last', pf', d') ->
  clk2 0%nat < clk 0%nat + AUTO_SWEEP_INTERVAL_MS ->
  maybeAutoSweep clk2 reg last' pf' d' = (None, last', pf', d').
Proof.
  unfold maybeAutoSweep at 1. destruct (_ && _); [done|]. destruct (_ <? _); [done|].
  destruct (runRetentionSweep _ _ _ _) as [[r0 p0] d0]. intros [= -> <- <- <-] Hlt.
  unfold maybeAutoSweep. destruct (_ && _); [done|]. by rewrite (proj2 (Z.ltb_lt _ _)) by lia.
Qed.

End Sweep.

(** A record stamped [t] is fresh exactly when [t] is not before the cutoff. *)
Lemma fresh_stamp k now days t fs :
  iso_range t -> iso_range (now - days * 86400000) -> field k (JObj fs) = Some (JStr (toISOString t)) ->
  fresh k (cutoffIso now days) (JObj fs) <-> now - days * 86400000 <= t.
Proof. intros Ht Hc E. unfold fresh, cutoffIso. rewrite E, toISOString_lt by done. apply Z.ltb_ge. Qed.

(** ** An audit hold with a thirty-day policy *)
Section Demo.
Definition day (n : Z) : Z := 1700000000000 + n * 86400000.
Definition demo_clock : clock := fun _ => day 100.
Definition demo_policy : RetentionPolicy :=
  {| runs_days := 30; audit_days := 30; webhook_deliveries_days := 0; updated_at := Iso 0;
     last_sweep_at := None; last_sweep_counts := None |}.
Definition demo_hold : LegalHold :=
  {| id := "h1"; matter := "Acme"; reason := ""; scopes := [audit]; opened_at := Iso 0; opened_by := "k";
     released_at := None; released_by := None; released_reason := None |}.
Definition demo_register : file (list LegalHold) := write_file [demo_hold].
Definition stamped (k : string) (t : Z) : json := JObj [(k, JStr (toISOString t))].
Definition demo_dir : data_dir :=
  {| runs_json := Some (Parsed (JObj [("runs", JArr [stamped "created_at" (day 1); stamped "created_at" (day 99)])]));
     audit_jsonl := Some [Parsed (stamped "ts" (day 1)); Unparsable "{oops"];
     audit_jsonl_1 := None; webhook_deliveries_json := None |}.
Definition demo_after : data_dir :=
  {| runs_json := Some (Parsed (JObj [("runs", JArr [stamped "created_at" (day 99)])]));
     audit_jsonl := audit_jsonl demo_dir; audit_jsonl_1 := None; webhook_deliveries_json := None |}.

Lemma demo_sweep : snd (runRetentionSweep demo_clock demo_register (write_file demo_policy) demo_dir) = demo_after.
Proof. vm_compute. reflexivity. Qed.

Lemma demo_held : held demo_register audit.
Proof. apply list_elem_of_here. Qed.

Lemma demo_not_held s : s <> audit -> ~ held demo_register s.
Proof. intros Hs Hh. change (s ∈ [audit]) in Hh. by apply list_elem_of_singleton in Hh. Qed.

Lemma sweep_respects_holds_witness :
  let '(_, d') := runRetentionSweep demo_clock demo_register (write_file demo_policy) demo_dir in
  audit_jsonl d' = audit_jsonl demo_dir.
Proof.
  destruct (runRetentionSweep demo_clock demo_register (write_file demo_policy) demo_dir) as [[res pf'] d'] eqn:E.
  exact (proj1 (proj1 (proj2 (sweep_respects_holds _ _ _ _ _ _ _ E)) demo_held)).
Defined.

Lemma sweep_deletes_exactly_the_old_witness :
  let '(res, _, d') := runRetentionSweep demo_clock demo_register (write_file demo_policy) demo_dir in
  runs_json d' = runs_json demo_after /\ n_runs (swept res) = int 1.
Proof.
  destruct (runRetentionSweep demo_clock demo_register (write_file demo_policy) demo_dir) as [[res pf'] d'] eqn:E.
  destruct (sweep_deletes_exactly_the_old _ _ _ _ _ _ _ E) as [Hr _].
  destruct Hr as (n & Hn & Hs); [reflexivity|by apply demo_not_held|by apply demo_not_held|].
  destruct (Hs _ _ eq_refl eq_refl) as [Hd Hc]. split; [rewrite Hd; vm_compute; reflexivity|].
  rewrite Hn, Hc. vm_compute. reflexivity.
Defined.

Lemma sweep_idempotent_witness :
  let '(_, pf', d') := runRetentionSweep demo_clock demo_register (write_file demo_policy) demo_dir in
  let '(_, _, d2) := runRetentionSweep demo_clock demo_register pf' d' in d2 = d'.
Proof.
  destruct (runRetentionSweep demo_clock demo_register (write_file demo_policy) demo_dir) as [[res pf'] d'] eqn:E1.
  destruct (runRetentionSweep demo_clock demo_register pf' d') as [[res2 pf2] d2] eqn:E2.
  exact (proj1 (sweep_idempotent _ _ _ _ _ _ _ _ _ _ E1 E2)).
Defined.

End Demo.
