(* ===== verification/Privacy.v ===== *)
(** Export and erasure of a workspace's data: [web/lib/privacyStore.ts]. Like
    the retention sweep, the erasure asks the [HoldRegister] first. *)
From S2P Require Import Prelude JsNum JsDate IsoTime Json Store LegalHold.

Inductive StoreCategory := user | compliance.
Inductive format := json_file | jsonl_file.

#[export] Instance StoreCategory_eq_dec : EqDecision StoreCategory.
Proof. solve_decision. Defined.

Record StoreSpec := Spec { name : string; path : string; fmt : format; category : StoreCategory }.

Definition PRIVACY_STORES : list StoreSpec := [
  Spec "runs" "runs.json" json_file user;
  Spec "watches" "watches.json" json_file user;
  Spec "watchlist" "watchlist.json" json_file user;
  Spec "alerts" "alerts.json" json_file user;
  Spec "comments" "comments.json" json_file user;
  Spec "activity" "activity.json" json_file user;
  Spec "settings" "settings.json" json_file user;
  Spec "invites" "invites.json" json_file user;
  Spec "digest_subs" "digest-subs.json" json_file user;
  Spec "webhook_subs" "webhooks.json" json_file user;
  Spec "audit" "audit.jsonl" jsonl_file compliance;
  Spec "audit_rolled" "audit.jsonl.1" jsonl_file compliance;
  Spec "api_keys" "keys.json" json_file compliance;
  Spec "rate_limits" "ratelimits.json" json_file compliance;
  Spec "idempotency" "idempotency.json" json_file compliance;
  Spec "retention_policy" "retention.json" json_file compliance;
  Spec "egress_policy" "egress-policy.json" json_file compliance;
  Spec "webhook_deliveries" "webhook-deliveries.json" json_file compliance;
  Spec "digest_deliveries" "digest-deliveries.json" json_file compliance ].

(** A text file as the code reads it: its size, whether it is empty, what
    [JSON.parse] makes of the whole and of each line that is not blank. *)
Record text_file := { size : Z; empty : bool; whole : content; lines : list content }.

(** The directory [.data]. *)
Abbreviation dir := (gmap string text_file).

(** ** Export *)

Definition exported (c : content) : json :=
  match c with
  | Parsed j => j
  | Unparsable s => JObj [("_parse_error", JBool true); ("raw", JStr s)]
  end.

Definition parseStore (spec : StoreSpec) (raw : option text_file) : json :=
  match raw with
  | None => match fmt spec with jsonl_file => JArr [] | json_file => JNull end
  | Some f =>
      if empty f then match fmt spec with jsonl_file => JArr [] | json_file => JNull end
      else match fmt spec with
           | jsonl_file => JArr (exported <$> lines f)
           | json_file => exported (whole f)
           end
  end.

Record ExportBundle := { exported_at : Z; stores : gmap string (StoreCategory * json) }.

Definition collectExport (now : Z) (d : dir) : ExportBundle :=
  {| exported_at := now;
     stores := fold_left (fun out spec => <[name spec := (category spec, parseStore spec (d !! path spec))]> out)
                 PRIVACY_STORES ∅ |}.

(** [now.toISOString().replace(/[:.]/g, "-")]. *)
Definition exportFilename (now : Z) : string :=
  "signalclaw-export-" +:+
  str_map (fun c => if Ascii.eqb c ":" || Ascii.eqb c "." then "-"%char else c) (toISOString now) +:+ ".json".

(** ** Erasure *)

Record EraseOptions := { wipeCompliance : bool; wipeAudit : bool }.

Definition isAudit (spec : StoreSpec) : bool := String.eqb (name spec) "audit" || String.eqb (name spec) "audit_rolled".

Definition erases (opts : EraseOptions) (spec : StoreSpec) : bool :=
  match category spec with
  | user => true
  | compliance => if isAudit spec then wipeAudit opts else wipeCompliance opts
  end.

(** [willRemove] and [willPreserve]. *)
Definition describeErase (opts : EraseOptions) : list string * list string :=
  fold_left (fun '(rm, keep) spec => if erases opts spec then (rm ++ [path spec], keep) else (rm, keep ++ [path spec]))
    PRIVACY_STORES ([], []).

Record EraseSummary := { erased_at : Z; removed : list string; preserved : list string; bytes_freed : Z }.

(** The size of the file, 0 when there is none. *)
Definition unlinkIfPresent (f : string) (d : dir) : Z * dir :=
  match d !! f with Some t => (size t, delete f d) | None => (0, d) end.

Definition erase_step (acc : list string * Z * dir) (f : string) : list string * Z * dir :=
  let '(rm, bytes, d) := acc in
  let '(n, d') := unlinkIfPresent f d in
  (if n >=? 0 then rm ++ [f] else rm, bytes + n, d').

Section Erase.
Context {H : Type} `{HoldRegister H}.

Definition erase_scopes (opts : EraseOptions) : list LegalHoldScope :=
  [runs; user_data] ++ (if wipeAudit opts then [audit] else []) ++
  (if wipeCompliance opts then [webhook_deliveries] else []).

Definition eraseBlockingHolds (opts : EraseOptions) (reg : H) : list LegalHold := blocking (erase_scopes opts) reg.

Definition eraseAll (now : Z) (opts : EraseOptions) (reg : H) (d : dir) : result EraseSummary (list LegalHold) * dir :=
  match eraseBlockingHolds opts reg with
  | [] =>
      let '(willRemove, willPreserve) := describeErase opts in
      let '(rm, bytes, d') := fold_left erase_step willRemove ([], 0, d) in
      (Ok {| erased_at := now; removed := rm; preserved := willPreserve; bytes_freed := bytes |}, d')
  | blockers => (Err blockers, d)
  end.

(** ** Laws *)

Lemma describeErase_spec opts :
  describeErase opts = (path <$> filter (fun s => erases opts s = true) PRIVACY_STORES,
                        path <$> filter (fun s => erases opts s = false) PRIVACY_STORES).
Proof. by destruct opts as [[] []]. Qed.

Definition sizes_ok (d : dir) : Prop := map_Forall (fun _ t => 0 <= size t) d.

Definition size_at (d : dir) (f : string) : Z := from_option size 0 (d !! f).

Lemma erase_fold fs rm bytes d :
  sizes_ok d ->
  fst (fst (fold_left erase_step fs (rm, bytes, d))) = rm ++ fs /\
  forall f, snd (fold_left erase_step fs (rm, bytes, d)) !! f = if decide (f ∈ fs) then None else d !! f.
Proof.
  revert rm bytes d; induction fs as [|x fs IH]; intros rm bytes d Hd; simpl.
  - rewrite app_nil_r. split; [done|]. done. 
  - unfold unlinkIfPresent. destruct (d !! x) as [t|] eqn:E.
    + rewrite (Z.geb_leb (size t)), (proj2 (Z.leb_le 0 (size t))) by by eapply Hd.
      destruct (IH (rm ++ [x]) (bytes + size t) (delete x d)) as [-> Hl]; [by apply map_Forall_delete|].
      split; [by rewrite <- app_assoc|]. intros f. rewrite Hl. destruct (decide (f = x)) as [->|Hne].
      * rewrite lookup_delete_eq. repeat case_decide; set_solver.
      * rewrite lookup_delete_ne by done. repeat case_decide; set_solver.
    + change (0 >=? 0) with true. cbv iota. destruct (IH (rm ++ [x]) (bytes + 0) d) as [-> Hl]; [done|]. split; [by rewrite <- app_assoc|].
      intros f. rewrite Hl. destruct (decide (f = x)) as [->|Hne].
      * rewrite E. repeat case_decide; set_solver.
      * repeat case_decide; set_solver.
Qed.

Lemma erase_bytes fs rm bytes d :
  NoDup fs -> snd (fst (fold_left erase_step fs (rm, bytes, d))) = bytes + foldr (fun f n => size_at d f + n) 0 fs.
Proof.
  revert rm bytes d; induction fs as [|x fs IH]; intros rm bytes d Hn; simpl; [lia|].
  apply NoDup_cons in Hn as [Hx Hn]. unfold unlinkIfPresent, size_at at 1. destruct (d !! x) as [t|] eqn:E; simpl.
  - rewrite IH by done. assert (Hs : foldr (fun f n => size_at (delete x d) f + n) 0 fs = foldr (fun f n => size_at d f + n) 0 fs).
    { clear -Hx. induction fs as [|y fs IH]; [done|]. simpl. apply not_elem_of_cons in Hx as [Hne Hx].
      rewrite IH by done. unfold size_at at 1. by rewrite lookup_delete_ne by done. }
    lia.
  - rewrite IH by done. lia.
Qed.

Lemma remove_NoDup opts : NoDup (fst (describeErase opts)).
Proof.
  rewrite describeErase_spec. cbn [fst].
  assert (Hnd : NoDup (path <$> PRIVACY_STORES)) by (vm_compute; repeat constructor; set_solver).
  eapply sublist_NoDup; [exact Hnd|]. apply fmap_sublist, sublist_filter.
Qed.

(** The files that hold the records of a scope. *)
Definition held_file (s : LegalHoldScope) (f : string) : Prop :=
  match s with
  | runs => f = "runs.json"
  | audit => f = "audit.jsonl" \/ f = "audit.jsonl.1"
  | webhook_deliveries => f = "webhook-deliveries.json"
  | user_data => exists spec, spec ∈ PRIVACY_STORES /\ category spec = user /\ f = path spec
  end.

(** Whether an erasure request touches a scope. *)
Definition touches (opts : EraseOptions) (s : LegalHoldScope) : bool :=
  match s with runs | user_data => true | audit => wipeAudit opts | webhook_deliveries => wipeCompliance opts end.

Lemma touches_scopes opts s : s ∈ erase_scopes opts <-> touches opts s = true.
Proof. destruct opts as [[] []], s; unfold erase_scopes; simpl; set_solver. Qed.

Lemma untouched_files_stay opts s f : touches opts s = false -> held_file s f -> f ∉ fst (describeErase opts).
Proof.
  destruct opts as [[] []], s; intros [=]; simpl; intros Hf; destruct_or? Hf; subst; vm_compute; set_solver.
Qed.

Lemma erase_fold_other fs acc f : f ∉ fs -> snd (fold_left erase_step fs acc) !! f = snd acc !! f.
Proof.
  revert acc; induction fs as [|x fs IH]; intros [[rm n] d] Hf; [done|]. apply not_elem_of_cons in Hf as [Hx Hf]. simpl.
  unfold unlinkIfPresent. destruct (d !! x); rewrite IH by done; cbn [snd]; [by rewrite lookup_delete_ne|done].
Qed.

Lemma erase_blocked now opts reg d s :
  touches opts s = true -> held reg s -> exists holds, eraseAll now opts reg d = (Err holds, d) /\ holds <> [].
Proof.
  rewrite <- touches_scopes. intros Hs Hh. pose proof (blocked_by _ _ _ Hs Hh) as Hb. unfold eraseAll, eraseBlockingHolds.
  destruct (blocking (erase_scopes opts) reg) as [|h hs]; [done|]. by eexists.
Qed.

Lemma erase_keeps_held now opts reg d s f : held reg s -> held_file s f -> snd (eraseAll now opts reg d) !! f = d !! f.
Proof.
  intros Hh Hf. destruct (touches opts s) eqn:Et.
  - by destruct (erase_blocked now opts reg d s Et Hh) as (holds & -> & _).
  - unfold eraseAll. destruct (eraseBlockingHolds opts reg); [|done].
    pose proof (untouched_files_stay opts s f Et Hf) as Hn. destruct (describeErase opts) as [rm keep]. cbn [fst] in Hn.
    pose proof (erase_fold_other rm ([], 0, d) f Hn) as Hl. destruct (fold_left erase_step rm ([], 0, d)) as [[? ?] d']. exact Hl.
Qed.

(** C16. Erasure respects legal holds. A hold on runs or user data, or on the
    audit log or the webhook deliveries when the request includes them, makes
    [eraseAll] fail with the holds and leave every file where it is; and no
    request whatever removes or changes a file that holds the records of a held
    scope. *)
Theorem erase_respects_holds now opts reg d s :
  held reg s ->
  (touches opts s = true -> exists holds, eraseAll now opts reg d = (Err holds, d) /\ holds <> []) /\
  (forall f, held_file s f -> snd (eraseAll now opts reg d) !! f = d !! f).
Proof. intros Hh. split; [intros; by eapply erase_blocked|intros f Hf; by eapply erase_keeps_held]. Qed.

(** When nothing is held the erasure does what the preview says: afterwards
    the directory is the old one without the files of [willRemove], so every
    customer file is gone and the audit log, the compliance stores and the
    files of other modules stay unless their flag was given; the bytes freed
    are the sizes of the files that were there. *)
Theorem erase_removes_exactly_the_plan now opts reg d :
  sizes_ok d -> Forall (fun s => ~ held reg s) (erase_scopes opts) ->
  exists sum d',
    eraseAll now opts reg d = (Ok sum, d') /\
    (forall f, d' !! f = if decide (f ∈ fst (describeErase opts)) then None else d !! f) /\
    (forall spec, spec ∈ PRIVACY_STORES ->
       d' !! path spec = if erases opts spec then None else d !! path spec) /\
    preserved sum = snd (describeErase opts) /\
    bytes_freed sum = foldr (fun f n => size_at d f + n) 0 (fst (describeErase opts)).
Proof.
  intros Hd Hn. unfold eraseAll, eraseBlockingHolds. rewrite (unblocked _ _ Hn).
  pose proof (remove_NoDup opts) as Hnd. destruct (describeErase opts) as [rm keep] eqn:Ed. cbn [fst snd] in *.
  pose proof (erase_fold rm [] 0 d Hd) as [_ Hl]. pose proof (erase_bytes rm [] 0 d Hnd) as Hb.
  destruct (fold_left erase_step rm ([], 0, d)) as [[rm' bytes] d']. cbn [fst snd] in *.
  eexists _, _. split; [done|]. split; [exact Hl|]. split; [|split; [done|]].
  - intros spec Hin. rewrite Hl.
    assert (Heq : rm = fst (describeErase opts)) by (by rewrite Ed). rewrite Heq. clear -Hin.
    unfold PRIVACY_STORES in Hin. rewrite !elem_of_cons, elem_of_nil in Hin.
    destruct opts as [[] []]; destruct_or! Hin; subst; try done; vm_compute; reflexivity.
  - simpl. rewrite Hb. lia.
Qed.

(** The summary does not tell which files existed: [removed] is the whole
    plan, files that were never there included, since [unlinkIfPresent] answers 0
    for a missing file and the caller only skips negative numbers. *)
Theorem erase_reports_missing_files now opts reg d sum d' :
  sizes_ok d -> eraseAll now opts reg d = (Ok sum, d') -> removed sum = fst (describeErase opts).
Proof.
  intros Hd. unfold eraseAll. destruct (eraseBlockingHolds opts reg); [|done].
  destruct (describeErase opts) as [rm keep].
  pose proof (erase_fold rm [] 0 d Hd) as [Hr _]. destruct (fold_left erase_step rm ([], 0, d)) as [[rm' bytes] d2].
  intros [= <- <-]. exact Hr.
Qed.

End Erase.

(** Every store is in the bundle, under its own category. *)
Lemma export_complete now d spec :
  spec ∈ PRIVACY_STORES ->
  stores (collectExport now d) !! name spec = Some (category spec, parseStore spec (d !! path spec)).
Proof.
  unfold PRIVACY_STORES. rewrite !elem_of_cons, elem_of_nil. intros Hin. unfold collectExport. cbn [stores fold_left PRIVACY_STORES].
  destruct_or! Hin; subst; try done; cbn [name path category];
  repeat first [rewrite lookup_insert_eq; reflexivity | rewrite lookup_insert_ne by discriminate].
Qed.

Section Demo.
Definition demo_file (n : Z) : text_file := {| size := n; empty := false; whole := Parsed JNull; lines := [] |}.
Definition demo_dir : dir := {[ "runs.json" := demo_file 120; "audit.jsonl" := demo_file 900; "legal-holds.json" := demo_file 40 ]}.
Definition demo_opts : EraseOptions := {| wipeCompliance := false; wipeAudit := true |}.
Definition demo_hold : LegalHold :=
  {| id := "h1"; matter := "Acme"; reason := ""; scopes := [audit]; opened_at := Iso 0; opened_by := "k";
     released_at := None; released_by := None; released_reason := None |}.
Definition demo_register : file (list LegalHold) := write_file [demo_hold].

Lemma demo_sizes : sizes_ok demo_dir.
Proof. apply map_Forall_to_list. vm_compute. repeat constructor; discriminate. Qed.

Lemma erase_respects_holds_witness :
  snd (eraseAll 0 demo_opts demo_register demo_dir) = demo_dir.
Proof.
  assert (Hh : held demo_register audit) by apply list_elem_of_here.
  destruct (proj1 (erase_respects_holds 0 demo_opts demo_register demo_dir audit Hh) eq_refl) as (holds & E & _).
  rewrite E. reflexivity.
Defined.

Lemma erase_removes_exactly_the_plan_witness :
  exists sum d', eraseAll 0 demo_opts (None : file (list LegalHold)) demo_dir = (Ok sum, d') /\
    d' !! "runs.json" = None /\ d' !! "legal-holds.json" = Some (demo_file 40) /\ bytes_freed sum = 1020.
Proof.
  destruct (erase_removes_exactly_the_plan 0 demo_opts (None : file (list LegalHold)) demo_dir demo_sizes)
    as (sum & d' & E & Hl & _ & _ & Hb).
  - repeat constructor; intros Hh; apply (not_elem_of_nil _ Hh).
  - exists sum, d'. split; [exact E|]. rewrite !Hl, Hb. vm_compute. auto.
Defined.

Lemma erase_reports_missing_files_witness :
  match eraseAll 0 demo_opts (None : file (list LegalHold)) ∅ with
  | (Ok sum, _) => "runs.json" ∈ removed sum
  | (Err _, _) => False
  end.
Proof.
  destruct (eraseAll 0 demo_opts (None : file (list LegalHold)) ∅) as [[sum|e] d'] eqn:E; [|not_an_error E].
  rewrite (erase_reports_missing_files 0 demo_opts None ∅ sum d' (map_Forall_empty _) E). apply list_elem_of_here.
Defined.

End Demo.
