(* ===== verification/Bits.v ===== *)
(** Integers of 32 bits as the bit operators of JavaScript see them, and bytes.

    The operands of [&], [|], [^], [<<] are converted to signed 32-bit integers
    and so is their result; [>>>] works on the unsigned value. *)
From S2P Require Import Prelude.

(** [n >>> 0] and [n | 0]. *)
Definition u32 (n : Z) : Z := n mod 2 ^ 32.
Definition i32 (n : Z) : Z := (n + 2 ^ 31) mod 2 ^ 32 - 2 ^ 31.

Definition js_and (a b : Z) : Z := i32 (Z.land a b).
Definition js_or (a b : Z) : Z := i32 (Z.lor a b).
Definition js_xor (a b : Z) : Z := i32 (Z.lxor a b).
Definition js_shl (a k : Z) : Z := i32 (Z.shiftl a k).
Definition js_shr (a k : Z) : Z := Z.shiftr (u32 a) k.

Lemma u32_range n : 0 <= u32 n < 2 ^ 32.
Proof. by apply Z.mod_pos_bound. Qed.

Lemma u32_small n : 0 <= n < 2 ^ 32 -> u32 n = n.
Proof. apply Z.mod_small. Qed.

Lemma i32_small n : - 2 ^ 31 <= n < 2 ^ 31 -> i32 n = n.
Proof. intros Hn. unfold i32. rewrite Z.mod_small; lia. Qed.

(** The conversion does not change the residue, hence no low bit. *)
Lemma i32_residue n k : 0 <= k <= 32 -> i32 n mod 2 ^ k = n mod 2 ^ k.
Proof.
  intros Hk. unfold i32. rewrite (Z.mod_eq (n + 2 ^ 31) (2 ^ 32)) by lia.
  replace (2 ^ 32) with (2 ^ (32 - k) * 2 ^ k) at 1 by (rewrite <- Z.pow_add_r by lia; f_equal; lia).
  set (q := (n + 2 ^ 31) / 2 ^ 32).
  replace (n + 2 ^ 31 - 2 ^ (32 - k) * 2 ^ k * q - 2 ^ 31) with (n + (- (2 ^ (32 - k) * q)) * 2 ^ k) by ring.
  apply Z.mod_add. pose proof (Z.pow_pos_nonneg 2 k). lia.
Qed.

Lemma u32_i32 n : u32 (i32 n) = u32 n.
Proof. by apply i32_residue. Qed.

Lemma mod_land n k : 0 <= k -> n mod 2 ^ k = Z.land n (Z.ones k).
Proof. intros. by rewrite Z.land_ones. Qed.

Lemma mod_testbit n k i : 0 <= k -> 0 <= i -> Z.testbit (n mod 2 ^ k) i = (i <? k) && Z.testbit n i.
Proof.
  intros Hk Hi. destruct (Z.ltb_spec i k).
  - by rewrite Z.mod_pow2_bits_low by lia.
  - by rewrite Z.mod_pow2_bits_high by lia.
Qed.

(** Equalities of bits, position by position. *)
Ltac bitwise :=
  apply Z.bits_inj'; intros ?i ?Hi;
  repeat first [ rewrite mod_testbit by lia | rewrite Z.land_spec | rewrite Z.lor_spec | rewrite Z.lxor_spec
               | rewrite Z.shiftr_spec by lia | rewrite Z.shiftl_spec by lia ].

Lemma lxor_residue a b k : 0 <= k -> Z.lxor a b mod 2 ^ k = Z.lxor (a mod 2 ^ k) (b mod 2 ^ k).
Proof. intros. bitwise. destruct (i <? k); reflexivity. Qed.

Lemma u32_xor a b : u32 (js_xor a b) = Z.lxor (u32 a) (u32 b).
Proof. unfold js_xor. rewrite u32_i32. by apply lxor_residue. Qed.

Lemma lxor_bound a b k : 0 <= k -> 0 <= a < 2 ^ k -> 0 <= b < 2 ^ k -> 0 <= Z.lxor a b < 2 ^ k.
Proof.
  intros Hk Ha Hb. rewrite <- (Z.mod_small a (2 ^ k)), <- (Z.mod_small b (2 ^ k)) by done.
  rewrite <- lxor_residue by done. apply Z.mod_pos_bound. by apply Z.pow_pos_nonneg.
Qed.

Lemma shiftr_bound a k j : 0 <= j <= k -> 0 <= a < 2 ^ k -> 0 <= Z.shiftr a j < 2 ^ (k - j).
Proof.
  intros Hj Ha. rewrite Z.shiftr_div_pow2 by lia. split; [apply Z.div_pos; lia|].
  apply Z.div_lt_upper_bound; [apply Z.pow_pos_nonneg; lia|].
  rewrite <- Z.pow_add_r by lia. replace (j + (k - j)) with k by lia. lia.
Qed.

Lemma land_shift_zero acc k n : 0 <= n < 2 ^ k -> 0 <= k -> Z.land (Z.shiftl acc k) n = 0.
Proof.
  intros Hn Hk. apply Z.bits_inj'. intros i Hi. rewrite Z.land_spec, Z.bits_0, Z.shiftl_spec by done.
  destruct (Z.lt_ge_cases i k) as [Hlt|Hge]; [by rewrite (Z.testbit_neg_r acc) by lia|].
  destruct (Z.eq_dec n 0) as [->|Hne]; [by rewrite Z.bits_0, andb_false_r|].
  rewrite (Z.bits_above_log2 n), andb_false_r; [done|lia|]. apply Z.log2_lt_pow2; [lia|].
  pose proof (Z.pow_le_mono_r 2 k i ltac:(lia) Hge). lia.
Qed.

Lemma lor_shift acc k n : 0 <= n < 2 ^ k -> 0 <= k -> Z.lor (Z.shiftl acc k) n = acc * 2 ^ k + n.
Proof.
  intros Hn Hk. pose proof (land_shift_zero acc k n Hn Hk) as Hl.
  by rewrite <- Z.lxor_lor, <- Z.add_nocarry_lxor, Z.shiftl_mul_pow2.
Qed.

Lemma shiftr_next v i k : 0 <= i -> 0 <= k -> Z.shiftr v (i + k) = Z.shiftr v i / 2 ^ k.
Proof. intros. rewrite <- Z.shiftr_shiftr by lia. by rewrite Z.shiftr_div_pow2 by lia. Qed.

(** [n & (2^k - 1)] for [k < 32] is the residue. *)
Lemma js_and_ones n k : 0 <= k < 32 -> js_and n (Z.ones k) = n mod 2 ^ k.
Proof.
  intros Hk. unfold js_and. rewrite Z.land_ones by lia. apply i32_small.
  pose proof (Z.mod_pos_bound n (2 ^ k) ltac:(apply Z.pow_pos_nonneg; lia)).
  pose proof (Z.pow_le_mono_r 2 k 31). lia.
Qed.

(** * Bytes *)

Definition is_byte (b : Z) : Prop := 0 <= b < 256.

(** [n] in [k] bytes, little end first. *)
Fixpoint le_bytes (k : nat) (n : Z) : list Z :=
  match k with O => [] | S k' => n mod 256 :: le_bytes k' (n / 256) end.

Fixpoint of_le (l : list Z) : Z := match l with [] => 0 | b :: r => b + 256 * of_le r end.

Lemma le_bytes_length k n : length (le_bytes k n) = k.
Proof. revert n; induction k; intros n; simpl; auto. Qed.

Lemma le_bytes_are_bytes k n : Forall is_byte (le_bytes k n).
Proof. revert n; induction k; intros n; simpl; constructor; [by apply Z.mod_pos_bound|done]. Qed.

Lemma of_le_bytes k n : 0 <= n < 256 ^ Z.of_nat k -> of_le (le_bytes k n) = n.
Proof.
  revert n; induction k as [|k IH]; intros n Hn; [simpl in *; lia|]. cbn [le_bytes of_le].
  rewrite Nat2Z.inj_succ, Z.pow_succ_r in Hn by lia. rewrite IH.
  - pose proof (Z.div_mod n 256). lia.
  - split; [apply Z.div_pos; lia|]. apply Z.div_lt_upper_bound; lia.
Qed.

(** The value of digits in base [B], most significant first. *)
Definition of_digits (B : Z) (l : list Z) : Z := fold_left (fun acc d => acc * B + d) l 0.

Lemma of_digits_snoc B l d : of_digits B (l ++ [d]) = of_digits B l * B + d.
Proof. unfold of_digits. by rewrite fold_left_app. Qed.

Lemma of_digits_app B a b : of_digits B (a ++ b) = of_digits B a * B ^ Z.of_nat (length b) + of_digits B b.
Proof.
  induction b as [|d b IH] using rev_ind; [rewrite app_nil_r; change (of_digits B []) with 0; simpl; lia|].
  rewrite app_assoc, !of_digits_snoc, IH, length_app, Nat2Z.inj_add, Z.pow_add_r by lia. change (B ^ Z.of_nat (length [d])) with (B * 1). ring.
Qed.

Lemma of_digits_inj B l l' :
  0 < B -> Forall (fun d => 0 <= d < B) l -> Forall (fun d => 0 <= d < B) l' -> length l = length l' ->
  of_digits B l = of_digits B l' -> l = l'.
Proof.
  intros HB Hl. revert l'. induction l as [|d l IH] using rev_ind; intros l' Hl' Hn Hv.
  - by destruct l'.
  - destruct l' as [|d' l' _] using rev_ind; [rewrite length_app in Hn; simpl in Hn; lia|].
    rewrite !length_app in Hn. simpl in Hn. rewrite !of_digits_snoc in Hv.
    apply Forall_app in Hl as [Hl Hd]. apply Forall_app in Hl' as [Hl' Hd'].
    rewrite Forall_singleton in Hd, Hd'.
    destruct (Z.div_mod_unique B (of_digits B l) (of_digits B l') d d') as [Hv' ->]; [lia..|].
    f_equal. apply IH; [done|done|lia|done].
Qed.

(** [Buffer.from(s, "utf8")] on the characters of the model, U+0000 to U+00FF. *)
Definition utf8_char (c : Ascii.ascii) : list Z :=
  if code c <? 128 then [code c] else [192 + code c / 64; 128 + code c mod 64].

Fixpoint utf8 (s : string) : list Z :=
  match s with "" => [] | String c r => utf8_char c ++ utf8 r end.

Lemma utf8_bytes s : Forall is_byte (utf8 s).
Proof.
  induction s as [|c s IH]; [constructor|]. simpl. apply Forall_app. split; [|done]. pose proof (code_range c).
  unfold utf8_char. destruct (Z.ltb_spec (code c) 128); repeat constructor; unfold is_byte;
    pose proof (Z.div_mod (code c) 64); pose proof (Z.mod_pos_bound (code c) 64); try lia.
Qed.

Lemma utf8_inj s s' : utf8 s = utf8 s' -> s = s'.
Proof.
  revert s'; induction s as [|c s IH]; intros [|d s']; [done|..].
  - simpl. unfold utf8_char. by case_match.
  - simpl. unfold utf8_char. by case_match.
  - simpl. pose proof (code_range c). pose proof (code_range d). unfold utf8_char.
    destruct (Z.ltb_spec (code c) 128), (Z.ltb_spec (code d) 128); simpl; intros [=].
    + f_equal; [by apply code_inj|by apply IH].
    + pose proof (Z.div_pos (code d) 64). lia.
    + pose proof (Z.div_pos (code c) 64). lia.
    + f_equal; [apply code_inj|by apply IH].
      pose proof (Z.div_mod (code c) 64). pose proof (Z.div_mod (code d) 64). lia.
Qed.
