(* ===== verification/IpMatch.v ===== *)
(** Addresses and address ranges: [web/lib/ipMatch.ts]. Parsing is bit-exact on
    unbounded non-negative integers ([bigint] in the source). *)
From S2P Require Import Prelude JsNum JsDate IsoTime Json Store Bits.

Inductive family := v4 | v6.

#[export] Instance family_eq_dec : EqDecision family.
Proof. solve_decision. Defined.

Record ParsedCidr := Cidr { kind : family; bits : Z; value : Z }.

#[export] Instance ParsedCidr_eq_dec : EqDecision ParsedCidr.
Proof. solve_decision. Defined.

Definition V4_MAX : Z := 32.
Definition V6_MAX : Z := 128.
Definition max_bits (f : family) : Z := match f with v4 => V4_MAX | v6 => V6_MAX end.

(** ** Numerals *)

Definition is_digit (c : Ascii.ascii) : bool := (48 <=? code c) && (code c <=? 57).
Definition is_hex (c : Ascii.ascii) : bool :=
  is_digit c || ((97 <=? code c) && (code c <=? 102)) || ((65 <=? code c) && (code c <=? 70)).

(** [/^\d{1,3}$/] and [/^[0-9a-fA-F]{1,4}$/]. *)
Definition digits_1_3 (s : string) : bool := (1 <=? str_len s) && (str_len s <=? 3) && str_forall is_digit s.
Definition hex_1_4 (s : string) : bool := (1 <=? str_len s) && (str_len s <=? 4) && str_forall is_hex s.

Definition digit_of (c : Ascii.ascii) : Z :=
  let n := code c in if n <=? 57 then n - 48 else if n <=? 70 then n - 55 else n - 87.

Fixpoint numeral (base acc : Z) (s : string) : Z :=
  match s with "" => acc | String c r => numeral base (base * acc + digit_of c) r end.

(** [n.toString(16)] for [0 <= n < 16 ^ (fuel + 1)]. *)
Fixpoint hex_string (fuel : nat) (n : Z) : string :=
  let d := String (if n mod 16 <? 10 then chr (48 + n mod 16) else chr (87 + n mod 16)) "" in
  match fuel with
  | O => d
  | S f => if n <? 16 then d else hex_string f (n / 16) +:+ d
  end.
Definition toString16 (n : Z) : string := hex_string 3 n.

(** ** Parsing *)

Fixpoint v4_parts (acc : Z) (parts : list string) : option Z :=
  match parts with
  | [] => Some acc
  | p :: r =>
      if negb (digits_1_3 p) then None
      else let n := numeral 10 0 p in
           if (n <? 0) || (n >? 255) then None else v4_parts (Z.lor (Z.shiftl acc 8) n) r
  end.

Definition parseV4 (s : string) : option Z :=
  let parts := split "." s in
  if negb (length parts =? 4)%nat then None else v4_parts 0 parts.

Fixpoint v6_groups (acc : Z) (groups : list string) : option Z :=
  match groups with
  | [] => Some acc
  | g :: r => if negb (hex_1_4 g) then None else v6_groups (Z.lor (Z.shiftl acc 16) (numeral 16 0 g)) r
  end.

(** The dotted tail of an IPv4-mapped address as two groups. *)
Definition expand_tail (s : string) (lastColon : nat) : option string :=
  let tail := str_drop (S lastColon) s in
  if str_includes "." tail then
    v ← parseV4 tail;
    Some (str_take (S lastColon) s +:+ toString16 (Z.land (Z.shiftr v 16) 65535) +:+ ":" +:+ toString16 (Z.land v 65535))
  else Some s.

Definition colon_groups (s : string) : list string := if String.eqb s "" then [] else split ":" s.

(** The groups before and after the zero compression. *)
Definition halves (work : string) : option (list string * list string) :=
  if str_includes "::" work then
    match split "::" work with
    | [h; t] =>
        let head := colon_groups h in
        let tailGroups := colon_groups t in
        if (8 <? length head + length tailGroups)%nat then None else Some (head, tailGroups)
    | _ => None
    end
  else
    let head := split ":" work in
    if negb (length head =? 8)%nat then None else Some (head, []).

Definition parseV6 (s : string) : option Z :=
  match str_last_index ":"%char s with
  | None => None
  | Some lastColon =>
      work ← expand_tail s lastColon;
      '(head, tailGroups) ← halves work;
      let groups := head ++ replicate (8 - length head - length tailGroups) "0" ++ tailGroups in
      if negb (length groups =? 8)%nat then None else v6_groups 0 groups
  end.

Definition maskBig (v bits max : Z) : Z :=
  if bits >=? max then v else if bits <=? 0 then 0
  else let shift := max - bits in Z.shiftl (Z.shiftr v shift) shift.

(** The prefix length after the slash, at most [max]. *)
Definition parse_bits (max : Z) (bitsStr : option string) : option Z :=
  match bitsStr with
  | None => Some max
  | Some b =>
      if negb (digits_1_3 b) then None
      else let n := numeral 10 0 b in if (n <? 0) || (n >? max) then None else Some n
  end.

Definition parseCidr (input : string) : option ParsedCidr :=
  let raw := trim input in
  if negb (truthy raw) then None else
  let '(addr, bitsStr) := match str_index "/"%char raw with
                          | None => (raw, None)
                          | Some slash => (str_take slash raw, Some (str_drop (S slash) raw))
                          end in
  if str_includes ":" addr then
    v ← parseV6 addr; b ← parse_bits V6_MAX bitsStr; Some (Cidr v6 b (maskBig v b V6_MAX))
  else
    v ← parseV4 addr; b ← parse_bits V4_MAX bitsStr; Some (Cidr v4 b (maskBig v b V4_MAX)).

(** ** Matching *)

(** [/^::ffff:(\d{1,3}\.\d{1,3}\.\d{1,3}\.\d{1,3})$/i]. *)
Definition mapped_v4 (s : string) : option string :=
  if String.eqb (to_lower (str_take 7 s)) "::ffff:" then
    let r := str_drop 7 s in
    match split "." r with
    | [a; b; c; d] => if digits_1_3 a && digits_1_3 b && digits_1_3 c && digits_1_3 d then Some r else None
    | _ => None
    end
  else None.

Definition normalizeIp (input : string) : option string :=
  let s := trim input in
  if negb (truthy s) then None else
  let s := if starts_with "[" s && ends_with_char "]"%char s then drop_last (str_drop 1 s) else s in
  let s := match str_index "%"%char s with Some n => str_take n s | None => s end in
  match mapped_v4 s with Some v => Some v | None => Some s end.

(** The number an address denotes, with its family. *)
Definition address (norm : string) : option (family * Z) :=
  if str_includes ":" norm then v ← parseV6 norm; Some (v6, v) else v ← parseV4 norm; Some (v4, v).

Definition matches (a : family * Z) (c : ParsedCidr) : bool :=
  bool_decide (kind c = fst a) && (maskBig (snd a) (bits c) (max_bits (fst a)) =? value c).

Definition ipMatchesAny (ip : string) (cidrs : list ParsedCidr) : bool :=
  match normalizeIp ip with
  | None => false
  | Some norm => match address norm with None => false | Some a => existsb (matches a) cidrs end
  end.

(** ** Printing *)

Definition v4_string (v : Z) : string :=
  pretty (Z.land (Z.shiftr v 24) 255) +:+ "." +:+ pretty (Z.land (Z.shiftr v 16) 255) +:+ "." +:+
  pretty (Z.land (Z.shiftr v 8) 255) +:+ "." +:+ pretty (Z.land v 255).

Definition v6_group_strings (v : Z) : list string :=
  (fun i => toString16 (Z.land (Z.shiftr v (i * 16)) 65535)) <$> [7; 6; 5; 4; 3; 2; 1; 0].

(** The longest run of "0" groups: the loop over [i] with [curStart], [curLen],
    [bestStart], [bestLen]; a start of -1 is [None]. *)
Record run_state := Run { curStart : option nat; curLen : nat; bestStart : option nat; bestLen : nat }.

Definition run_step (st : run_state) (i : nat) (g : string) : run_state :=
  if String.eqb g "0" then
    let start := match curStart st with None => i | Some s => s end in
    let len := S (curLen st) in
    if (bestLen st <? len)%nat then Run (Some start) len (Some start) len
    else Run (Some start) len (bestStart st) (bestLen st)
  else Run None 0 (bestStart st) (bestLen st).

Fixpoint longest_run (i : nat) (groups : list string) (st : run_state) : run_state :=
  match groups with [] => st | g :: r => longest_run (S i) r (run_step st i g) end.

Definition v6_string (v : Z) : string :=
  let groups := v6_group_strings v in
  let st := longest_run 0 groups (Run None 0 None 0) in
  if (2 <=? bestLen st)%nat
  then let bestStart := default 0%nat (bestStart st) in
       join ":" (take bestStart groups) +:+ "::" +:+ join ":" (drop (bestStart + bestLen st) groups)
  else join ":" groups.

Definition cidrToString (c : ParsedCidr) : string :=
  match kind c with
  | v4 => v4_string (value c) +:+ "/" +:+ pretty (bits c)
  | v6 => v6_string (value c) +:+ "/" +:+ pretty (bits c)
  end.

(** ** [canonicalizeCidrList] *)

Definition MAX_CIDR_ENTRIES : Z := 64.

Inductive CidrListCode := bad_type | bad_cidr | too_many.

(** The loop, with [seen] (the elements of [out]) and [out]. *)
Fixpoint canon_loop (out : list string) (entries : list json) : result (list string) CidrListCode :=
  match entries with
  | [] => Ok out
  | JStr raw :: r =>
      let trimmed := trim raw in
      if negb (truthy trimmed) then canon_loop out r
      else match parseCidr trimmed with
           | None => Err bad_cidr
           | Some parsed =>
               let canon := cidrToString parsed in
               if bool_decide (canon ∈ out) then canon_loop out r
               else if Z.of_nat (length (out ++ [canon])) >? MAX_CIDR_ENTRIES then Err too_many
               else canon_loop (out ++ [canon]) r
           end
  | _ :: _ => Err bad_type
  end.

Definition canonicalizeCidrList (entries : json) : result (list string) CidrListCode :=
  match entries with JArr l => canon_loop [] l | _ => Err bad_type end.

(** ** The client's address: the headers, by lower-case name *)

Definition clientIpFromRequest (headers : gmap string string) : string :=
  let first := match headers !! "x-forwarded-for" with
               | Some xff => if truthy xff then trim (hd "" (split "," xff)) else ""
               | None => ""
               end in
  if truthy first then first
  else match headers !! "x-real-ip" with
       | Some real => if truthy real then trim real else ""
       | None => ""
       end.

Example parse_examples :
  parseCidr " 10.1.2.3/8 " = Some (Cidr v4 8 167772160) /\
  parseCidr "2001:db8::/32" = Some (Cidr v6 32 42540766411282592856903984951653826560) /\
  parseCidr "::ffff:1.2.3.4" = Some (Cidr v6 128 281470698652420) /\
  parseCidr "10.0.0.256" = None /\ parseCidr "1::2::3" = None /\
  normalizeIp "[fe80::1%en0]" = Some "fe80::1" /\ normalizeIp "::FFFF:10.0.0.1" = Some "10.0.0.1" /\
  cidrToString (Cidr v6 64 1) = "::1/64" /\
  cidrToString (Cidr v6 128 281470698652420) = "::ffff:102:304/128".
Proof. vm_compute. auto 20. Qed.

(** ** Numerals print and parse back *)

(** [p] holds on [z, z + fuel). *)
Fixpoint all_from (fuel : nat) (z : Z) (p : Z -> bool) : bool :=
  match fuel with O => true | S f => if p z then all_from f (z + 1) p else false end.

Lemma all_from_spec fuel z p n : all_from fuel z p = true -> z <= n < z + Z.of_nat fuel -> p n = true.
Proof.
  revert z; induction fuel as [|f IH]; intros z Hall Hn; [lia|]. simpl in Hall. destruct (p z) eqn:E; [|done].
  destruct (Z.eq_dec n z) as [->|]; [done|]. apply (IH (z + 1)); [done|lia].
Qed.

Definition hex_char (d : Z) : Ascii.ascii := if d <? 10 then chr (48 + d) else chr (87 + d).

Lemma hex_char_spec d : 0 <= d < 16 ->
  digit_of (hex_char d) = d /\ is_hex (hex_char d) = true /\ (hex_char d = "0"%char <-> d = 0).
Proof.
  intros Hd. assert (Hall : all_from 16 0 (fun d => (digit_of (hex_char d) =? d) && is_hex (hex_char d) &&
    Bool.eqb (Ascii.eqb (hex_char d) "0"%char) (d =? 0)) = true) by (vm_compute; reflexivity).
  apply (all_from_spec _ _ _ d) in Hall; [|simpl; lia]. cbn beta in Hall. bool_to_prop.
  split; [done|]. split; [done|].
  match goal with E : Bool.eqb _ _ = true |- _ => apply Bool.eqb_prop in E; rename E into Hq end.
  by rewrite <- Ascii.eqb_eq, Hq, Z.eqb_eq.
Qed.

Lemma numeral_app base acc a b : numeral base acc (a +:+ b) = numeral base (numeral base acc a) b.
Proof. revert acc; induction a as [|c a IH]; intros acc; [done|]. rewrite str_cons_app. simpl. apply IH. Qed.

Lemma hex_string_spec f n :
  0 <= n < 16 ^ Z.of_nat (S f) ->
  numeral 16 0 (hex_string f n) = n /\ (1 <= String.length (hex_string f n) <= S f)%nat /\
  str_forall is_hex (hex_string f n) = true /\ (hex_string f n = "0" <-> n = 0).
Proof.
  assert (Hone : forall n, 0 <= n < 16 -> forall d, d = String (hex_char n) "" ->
    numeral 16 0 d = n /\ String.length d = 1%nat /\ str_forall is_hex d = true /\ (d = "0" <-> n = 0)).
  { intros k Hk d ->. destruct (hex_char_spec k Hk) as (H1 & H2 & H3). cbn [numeral str_forall String.length]. rewrite H1, H2.
    split; [lia|]. split; [done|]. split; [done|]. rewrite <- H3. split; [by intros [= ->]|by intros ->]. }
  revert n; induction f as [|f IH]; intros n Hn.
  - assert (Hn' : 0 <= n < 16) by (change (16 ^ Z.of_nat 1) with 16 in Hn; lia).
    destruct (Hone n Hn' (hex_string 0 n)) as (? & -> & ? & ?); [by cbn [hex_string]; rewrite Z.mod_small|]. done.
  - cbn [hex_string]. destruct (n <? 16) eqn:E; bool_to_prop.
    + fold (hex_char (n mod 16)). rewrite (Z.mod_small n 16) by lia.
      destruct (Hone n ltac:(lia) _ eq_refl) as (? & -> & ? & ?). split; [done|]. split; [lia|done].
    + rewrite Nat2Z.inj_succ, Z.pow_succ_r in Hn by lia.
      destruct (IH (n / 16)) as (I1 & I2 & I3 & I4); [split; [apply Z.div_pos; lia|apply Z.div_lt_upper_bound; lia]|].
      destruct (Hone (n mod 16) ltac:(apply Z.mod_pos_bound; lia) _ eq_refl) as (D1 & D2 & D3 & D4).
      fold (hex_char (n mod 16)). rewrite numeral_app, I1, str_length_app, str_forall_app, I3, D3, D2.
      pose proof (Z.mod_pos_bound n 16 ltac:(lia)). destruct (hex_char_spec (n mod 16)) as (C1 & _); [lia|].
      split; [cbn [numeral]; rewrite C1; pose proof (Z.div_mod n 16); lia|]. split; [lia|]. split; [done|].
      split; [|lia]. intros He. apply (f_equal String.length) in He. rewrite str_length_app, D2 in He. simpl in He. lia.
Qed.

Lemma toString16_spec n :
  0 <= n < 65536 ->
  numeral 16 0 (toString16 n) = n /\ hex_1_4 (toString16 n) = true /\ (toString16 n = "0" <-> n = 0).
Proof.
  intros Hn. destruct (hex_string_spec 3 n) as (H1 & H2 & H3 & H4); [change (16 ^ Z.of_nat 4) with 65536; lia|].
  split; [done|]. split; [|done]. unfold hex_1_4, str_len, toString16. rewrite H3, andb_true_r.
  apply andb_true_iff. split; apply Z.leb_le; lia.
Qed.

Definition check_dec (n : Z) : bool := (numeral 10 0 (pretty n) =? n) && digits_1_3 (pretty n).

Lemma check_dec_all : all_from (Z.to_nat 256) 0 check_dec = true.
Proof. vm_compute. reflexivity. Qed.

Lemma pretty_dec_spec n : 0 <= n < 256 -> numeral 10 0 (pretty n) = n /\ digits_1_3 (pretty n) = true.
Proof.
  intros Hn. pose proof (all_from_spec _ _ _ n check_dec_all) as Hall. rewrite Z2Nat.id in Hall by lia.
  specialize (Hall ltac:(lia)).
  unfold check_dec in Hall. by bool_to_prop.
Qed.

(** What the characters of a numeral are not. *)
Definition plain (c : Ascii.ascii) : bool :=
  negb (Ascii.eqb "/" c) && negb (is_space c) && negb (Ascii.eqb "[" c) && negb (Ascii.eqb "%" c) &&
  negb (Ascii.eqb "," c).

Lemma is_hex_chars c : is_hex c = true -> negb (Ascii.eqb ":" c) && negb (Ascii.eqb "." c) && plain c = true.
Proof. destruct c as [[] [] [] [] [] [] [] []]; vm_compute; congruence. Qed.

Lemma is_digit_hex c : is_digit c = true -> is_hex c = true.
Proof. unfold is_hex. by intros ->. Qed.

Lemma hex_chars s : str_forall is_hex s = true ->
  no_char ":"%char s = true /\ no_char "."%char s = true /\ str_forall plain s = true.
Proof.
  intros Hs. unfold no_char. split; [|split]; (eapply str_forall_impl; [|exact Hs]);
  intros c [[? ?]%andb_prop ?]%is_hex_chars%andb_prop; done.
Qed.

Lemma hex_piece s : hex_1_4 s = true -> piece ":"%char s /\ no_char "."%char s = true /\ str_forall plain s = true.
Proof.
  unfold hex_1_4. intros [[Hl _]%andb_prop Hs]%andb_prop. apply hex_chars in Hs as (? & ? & ?).
  split; [|done]. split; [|done]. intros ->. done.
Qed.

Lemma digits_chars s : digits_1_3 s = true ->
  no_char "."%char s = true /\ no_char ":"%char s = true /\ str_forall plain s = true /\ s <> "".
Proof.
  unfold digits_1_3. intros [[Hl _]%andb_prop Hs]%andb_prop.
  eapply str_forall_impl in Hs; [|exact is_digit_hex]. apply hex_chars in Hs as (? & ? & ?).
  repeat split; try done. intros ->. done.
Qed.

(** ** Bits *)

Lemma byte_land v : Z.land v 255 = v mod 256.
Proof. apply (Z.land_ones v 8). lia. Qed.

Lemma word_land v : Z.land v 65535 = v mod 65536.
Proof. apply (Z.land_ones v 16). lia. Qed.

(** One more octet, one more group. *)
Lemma v4_step v i r :
  0 <= i -> v4_parts (Z.shiftr v (i + 8)) (pretty (Z.land (Z.shiftr v i) 255) :: r) = v4_parts (Z.shiftr v i) r.
Proof.
  intros Hi. rewrite byte_land. pose proof (Z.mod_pos_bound (Z.shiftr v i) 256 ltac:(lia)) as Hb.
  destruct (pretty_dec_spec _ Hb) as [Hn Hd]. cbn [v4_parts]. rewrite Hd, Hn. cbn [negb].
  rewrite (proj2 (Z.ltb_ge _ _)) by lia. rewrite Z.gtb_ltb, (proj2 (Z.ltb_ge _ _)) by lia. cbn [orb].
  rewrite lor_shift by lia. rewrite shiftr_next by lia. change (2 ^ 8) with 256.
  f_equal. pose proof (Z.div_mod (Z.shiftr v i) 256). lia.
Qed.

Lemma v6_step v i r :
  0 <= i -> v6_groups (Z.shiftr v (i + 16)) (toString16 (Z.land (Z.shiftr v i) 65535) :: r) = v6_groups (Z.shiftr v i) r.
Proof.
  intros Hi. rewrite word_land. pose proof (Z.mod_pos_bound (Z.shiftr v i) 65536 ltac:(lia)) as Hb.
  destruct (toString16_spec _ Hb) as (Hn & Hd & _). cbn [v6_groups]. rewrite Hd, Hn. cbn [negb].
  rewrite lor_shift by lia. rewrite shiftr_next by lia. change (2 ^ 16) with 65536.
  f_equal. pose proof (Z.div_mod (Z.shiftr v i) 65536). lia.
Qed.

Lemma shiftr_all v k : 0 <= k -> 0 <= v < 2 ^ k -> Z.shiftr v k = 0.
Proof. intros Hk Hv. rewrite Z.shiftr_div_pow2 by done. by apply Z.div_small. Qed.

Lemma byte_digits v i : digits_1_3 (pretty (Z.land (Z.shiftr v i) 255)) = true.
Proof. rewrite byte_land. apply pretty_dec_spec, Z.mod_pos_bound. lia. Qed.

Lemma v4_string_parts v :
  v4_string v = join "." [pretty (Z.land (Z.shiftr v 24) 255); pretty (Z.land (Z.shiftr v 16) 255);
                          pretty (Z.land (Z.shiftr v 8) 255); pretty (Z.land (Z.shiftr v 0) 255)].
Proof. by rewrite Z.shiftr_0_r. Qed.

Lemma parseV4_string v : 0 <= v < 2 ^ 32 -> parseV4 (v4_string v) = Some v.
Proof.
  intros Hv. rewrite v4_string_parts. unfold parseV4.
  rewrite split_join; [|done|repeat constructor; apply digits_chars, byte_digits].
  cbn [length Nat.eqb negb]. rewrite <- (shiftr_all v 32) at 1 by done.
  change 32 with (24 + 8) at 1. rewrite v4_step by lia. change 24 with (16 + 8) at 1. rewrite v4_step by lia.
  change 16 with (8 + 8) at 1. rewrite v4_step by lia. change 8 with (0 + 8) at 1. rewrite v4_step by lia.
  simpl. by rewrite Z.shiftr_0_r.
Qed.

Lemma group_hex v i : hex_1_4 (toString16 (Z.land (Z.shiftr v i) 65535)) = true.
Proof. rewrite word_land. apply toString16_spec, Z.mod_pos_bound. lia. Qed.

Lemma group_strings_hex v : Forall (fun g => hex_1_4 g = true) (v6_group_strings v).
Proof. repeat constructor; apply group_hex. Qed.

Lemma v6_groups_string v : 0 <= v < 2 ^ 128 -> v6_groups 0 (v6_group_strings v) = Some v.
Proof.
  intros Hv. rewrite <- (shiftr_all v 128) at 1 by done. unfold v6_group_strings.
  cbn [fmap list_fmap]. change (7 * 16) with 112. change (6 * 16) with 96. change (5 * 16) with 80.
  change (4 * 16) with 64. change (3 * 16) with 48. change (2 * 16) with 32. change (1 * 16) with 16. change (0 * 16) with 0.
  change 128 with (112 + 16). rewrite v6_step by lia. change 112 with (96 + 16). rewrite v6_step by lia.
  change 96 with (80 + 16). rewrite v6_step by lia. change 80 with (64 + 16). rewrite v6_step by lia.
  change 64 with (48 + 16). rewrite v6_step by lia. change 48 with (32 + 16). rewrite v6_step by lia.
  change 32 with (16 + 16). rewrite v6_step by lia. change 16 with (0 + 16) at 1. rewrite v6_step by lia.
  simpl. by rewrite Z.shiftr_0_r.
Qed.

(** ** The zero run *)

Definition zeros_at (gs : list string) (b m : nat) : Prop :=
  forall j, (b <= j < b + m)%nat -> gs !! j = Some "0".

Definition run_ok (gs : list string) (i : nat) (st : run_state) : Prop :=
  match curStart st with
  | None => curLen st = 0%nat
  | Some s => (s + curLen st = i)%nat /\ zeros_at gs s (curLen st)
  end /\
  (bestLen st <= i)%nat /\
  match bestStart st with
  | None => bestLen st = 0%nat
  | Some b => (b + bestLen st <= i)%nat /\ zeros_at gs b (bestLen st)
  end.

Lemma zeros_snoc gs s n i : (s + n = i)%nat -> zeros_at gs s n -> gs !! i = Some "0" -> zeros_at gs s (S n).
Proof. intros He Hz Hi j Hj. destruct (decide (j = i)) as [->|]; [done|]. apply Hz. lia. Qed.

Lemma run_step_ok gs i g st : gs !! i = Some g -> run_ok gs i st -> run_ok gs (S i) (run_step st i g).
Proof.
  intros Hg (Hc & Hle & Hb). unfold run_step. destruct (String.eqb g "0") eqn:E.
  - apply String.eqb_eq in E as ->.
    assert (Hcur : let s := match curStart st with Some s => s | None => i end in
              (s + S (curLen st) = S i)%nat /\ zeros_at gs s (S (curLen st))).
    { destruct (curStart st) as [s|]; [destruct Hc as [Hs Hz]; split; [lia|by eapply zeros_snoc]|].
      rewrite Hc. split; [lia|]. intros j Hj. by replace j with i by lia. }
    destruct (bestLen st <? S (curLen st))%nat eqn:El.
    + unfold run_ok. simpl. destruct Hcur as [? ?]. repeat split; try done; lia.
    + unfold run_ok. simpl. split; [done|]. split; [lia|]. destruct (bestStart st); [|done].
      destruct Hb. split; [lia|done].
  - unfold run_ok. simpl. split; [done|]. split; [lia|]. destruct (bestStart st); [|done].
    destruct Hb. split; [lia|done].
Qed.

Lemma longest_run_ok gs pre r st :
  gs = pre ++ r -> run_ok gs (length pre) st -> run_ok gs (length gs) (longest_run (length pre) r st).
Proof.
  revert pre st; induction r as [|g r IH]; intros pre st Hgs Hst; simpl.
  - rewrite app_nil_r in Hgs. by subst.
  - assert (gs !! length pre = Some g) as Hg by (rewrite Hgs; by apply list_lookup_middle).
    apply (run_step_ok _ _ _ _ Hg) in Hst.
    specialize (IH (pre ++ [g]) (run_step st (length pre) g)). rewrite length_app in IH. simpl in IH.
    rewrite Nat.add_1_r in IH. apply IH; [by rewrite <- app_assoc|done].
Qed.

(** Replacing the run by the compression and expanding it again is harmless. *)
Lemma longest_run_split gs :
  let st := longest_run 0 gs (Run None 0 None 0) in
  let b := default 0%nat (bestStart st) in
  (b + bestLen st <= length gs)%nat /\ gs = take b gs ++ replicate (bestLen st) "0" ++ drop (b + bestLen st) gs.
Proof.
  intros st b. assert (Hok : run_ok gs (length gs) st).
  { apply (longest_run_ok gs [] gs); [done|]. by split. }
  destruct Hok as (_ & Hle & Hb). unfold b. destruct (bestStart st) as [s|]; simpl.
  - destruct Hb as [Hs Hz]. split; [done|]. rewrite <- (take_drop s gs) at 1. f_equal.
    rewrite <- (take_drop (bestLen st) (drop s gs)), drop_drop at 1. f_equal.
    apply list_eq. intros j. destruct (decide (j < bestLen st)%nat) as [Hj|Hj].
    + rewrite lookup_take_lt, lookup_drop, (lookup_replicate_2 _ _ _ Hj) by done. apply Hz. lia.
    + rewrite lookup_take_ge by lia. symmetry. apply lookup_ge_None_2. rewrite length_replicate. lia.
  - rewrite Hb. split; [lia|done].
Qed.

Lemma pieces_of_hex l : Forall (fun g => hex_1_4 g = true) l -> Forall (piece ":"%char) l.
Proof. intros Hl. eapply Forall_impl; [exact Hl|]. intros g Hg. by apply hex_piece. Qed.

Lemma colon_groups_join l : Forall (piece ":"%char) l -> colon_groups (join ":" l) = l.
Proof.
  intros Hl. unfold colon_groups. destruct l as [|x l]; [done|].
  assert (Hne : join ":" (x :: l) <> "").
  { inversion Hl as [|? ? [Hx _] _]; subst. destruct x as [|c x]; [done|]. destruct l; done. }
  apply String.eqb_neq in Hne. rewrite Hne. apply split_join; [done|]. eapply Forall_impl; [exact Hl|]. by intros ? [].
Qed.

Lemma halves_plain l : Forall (fun g => hex_1_4 g = true) l -> length l = 8%nat -> halves (join ":" l) = Some (l, []).
Proof.
  intros Hl Hlen. apply pieces_of_hex in Hl. unfold halves. rewrite includes2_join by done.
  rewrite split_join; [by rewrite Hlen|by destruct l|]. eapply Forall_impl; [exact Hl|]. by intros ? [].
Qed.

Lemma halves_compressed h t :
  Forall (fun g => hex_1_4 g = true) h -> Forall (fun g => hex_1_4 g = true) t ->
  (length h + length t <= 8)%nat -> halves (join ":" h +:+ "::" +:+ join ":" t) = Some (h, t).
Proof.
  intros Hh Ht Hlen. apply pieces_of_hex in Hh, Ht. unfold halves.
  assert (str_includes "::" (join ":" h +:+ "::" +:+ join ":" t) = true) as -> by (apply str_includes_spec; eauto).
  assert (split "::" (join ":" h +:+ "::" +:+ join ":" t) = [join ":" h; join ":" t]) as ->.
  { unfold split. rewrite split2_join by done. change ("::" +:+ join ":" t) with (String ":" (String ":" (join ":" t))).
    cbn [split_go]. rewrite prefix_cons, prefix_one, !Ascii.eqb_refl. cbn [andb String.length Nat.pred split_go].
    f_equal. rewrite <- (str_app_nil (join ":" t)), split2_join by done. by rewrite str_app_nil. }
  rewrite !colon_groups_join by done. by rewrite (proj2 (Nat.ltb_ge _ _) Hlen).
Qed.

(** ** Printed addresses parse back *)

Definition v6_char (c : Ascii.ascii) : bool := is_hex c || Ascii.eqb ":" c.

Lemma hex_group_v6_char g : hex_1_4 g = true -> str_forall v6_char g = true.
Proof.
  unfold hex_1_4. intros [_ Hs]%andb_prop. eapply str_forall_impl; [|exact Hs]. unfold v6_char. by intros c ->.
Qed.

Lemma v6_char_chars c : v6_char c = true -> negb (Ascii.eqb "." c) && plain c = true.
Proof. destruct c as [[] [] [] [] [] [] [] []]; vm_compute; congruence. Qed.

Lemma v6_join_chars l : Forall (fun g => hex_1_4 g = true) l -> str_forall v6_char (join ":" l) = true.
Proof. intros Hl. apply str_forall_join; [done|]. eapply Forall_impl; [exact Hl|]. apply hex_group_v6_char. Qed.

Lemma v6_string_shape v :
  exists a b, v6_string v = a +:+ String ":" b /\ str_forall v6_char (v6_string v) = true.
Proof.
  pose proof (group_strings_hex v) as Hg. unfold v6_string. destruct (2 <=? _)%nat eqn:E.
  - eexists _, _. split; [reflexivity|]. rewrite !str_forall_app.
    rewrite !v6_join_chars; [done|by apply Forall_drop|by apply Forall_take].
  - unfold v6_group_strings in *. cbn [fmap list_fmap] in *. eexists _, _. split; [reflexivity|].
    by apply (v6_join_chars _ Hg).
Qed.

Lemma v6_string_halves v :
  exists h t, halves (v6_string v) = Some (h, t) /\
    h ++ replicate (8 - length h - length t) "0" ++ t = v6_group_strings v.
Proof.
  pose proof (group_strings_hex v) as Hg. assert (Hlen : length (v6_group_strings v) = 8%nat) by done.
  unfold v6_string. destruct (longest_run_split (v6_group_strings v)) as [Hle Hsplit].
  revert Hg Hlen Hle Hsplit. generalize (v6_group_strings v) as gs. intros gs Hg Hlen Hle Hsplit. cbn zeta in *.
  set (st := longest_run 0 gs _) in *. set (b := default 0%nat (bestStart st)) in *.
  destruct (2 <=? bestLen st)%nat eqn:E.
  - exists (take b gs), (drop (b + bestLen st) gs).
    rewrite halves_compressed; [|by apply Forall_take|by apply Forall_drop|rewrite length_take, length_drop; lia].
    split; [done|]. rewrite length_take, length_drop.
    replace (8 - b `min` length gs - (length gs - (b + bestLen st)))%nat with (bestLen st) by lia. done.
  - exists gs, []. rewrite halves_plain by done. split; [done|]. by rewrite Hlen, app_nil_r.
Qed.

Lemma parseV6_string v : 0 <= v < 2 ^ 128 -> parseV6 (v6_string v) = Some v.
Proof.
  intros Hv. destruct (v6_string_shape v) as (a & b & Hab & Hc). unfold parseV6.
  destruct (str_last_index_some ":"%char a b) as [n Hn]. rewrite <- Hab in Hn. rewrite Hn.
  unfold expand_tail. rewrite str_includes_char.
  assert (no_char "."%char (str_drop (S n) (v6_string v)) = true) as ->.
  { unfold no_char. apply str_forall_drop. eapply str_forall_impl; [|exact Hc].
    intros c [? _]%v6_char_chars%andb_prop. done. }
  cbn [negb mbind option_bind].
  destruct (v6_string_halves v) as (h & t & -> & Hht). cbn [mbind option_bind]. rewrite Hht. by apply v6_groups_string.
Qed.

(** [addr/bits] is taken apart at the slash. *)
Lemma parseCidr_slash addr b :
  addr <> "" -> str_forall plain addr = true -> digits_1_3 b = true ->
  parseCidr (addr +:+ "/" +:+ b) =
    if str_includes ":" addr then
      v ← parseV6 addr; n ← parse_bits V6_MAX (Some b); Some (Cidr v6 n (maskBig v n V6_MAX))
    else
      v ← parseV4 addr; n ← parse_bits V4_MAX (Some b); Some (Cidr v4 n (maskBig v n V4_MAX)).
Proof.
  intros Hne Ha Hb. unfold parseCidr. change ("/" +:+ b) with (String "/" b).
  assert (Hs : str_forall (fun c => negb (is_space c)) (addr +:+ String "/" b) = true).
  { change (String "/" b) with ("/" +:+ b). rewrite !str_forall_app.
    apply digits_chars in Hb as (_ & _ & Hb & _).
    assert (Hp : forall s, str_forall plain s = true -> str_forall (fun c => negb (is_space c)) s = true).
    { intros s. apply str_forall_impl. unfold plain. intros c Hc. by bool_to_prop; apply negb_true_iff. }
    by rewrite (Hp addr), (Hp b) by done. }
  rewrite trim_no_space by done.
  assert (truthy (addr +:+ String "/" b) = true) as -> by (apply truthy_spec; by destruct addr).
  cbn [negb]. rewrite str_index_app, str_take_app, str_drop_app; [done|].
  unfold no_char. eapply str_forall_impl; [|exact Ha]. unfold plain. intros c Hc. by bool_to_prop; apply negb_true_iff.
Qed.

(** The ranges the parser produces. *)
Definition cidr_ok (c : ParsedCidr) : Prop :=
  0 <= bits c <= max_bits (kind c) /\ 0 <= value c < 2 ^ max_bits (kind c) /\
  maskBig (value c) (bits c) (max_bits (kind c)) = value c.

Lemma parse_bits_pretty max n : 0 <= n <= max -> max < 256 -> parse_bits max (Some (pretty n)) = Some n.
Proof.
  intros Hn Hm. destruct (pretty_dec_spec n) as [Hp Hd]; [lia|]. unfold parse_bits. rewrite Hd, Hp. cbn [negb].
  rewrite (proj2 (Z.ltb_ge _ _)) by lia. rewrite Z.gtb_ltb, (proj2 (Z.ltb_ge _ _)) by lia. done.
Qed.

Lemma v4_string_chars v : str_forall plain (v4_string v) = true /\ str_includes ":" (v4_string v) = false /\ v4_string v <> "".
Proof.
  rewrite v4_string_parts. split; [|split].
  - apply str_forall_join; [done|]. repeat constructor; apply digits_chars, byte_digits.
  - rewrite str_includes_char. apply negb_false_iff. unfold no_char. apply str_forall_join; [done|].
    repeat constructor; apply digits_chars, byte_digits.
  - pose proof (digits_chars _ (byte_digits v 24)) as (_ & _ & _ & Hne).
    destruct (pretty (Z.land (Z.shiftr v 24) 255)); done.
Qed.

(** Parsing inverts printing, for every range the parser can produce. *)
Lemma parse_print c : cidr_ok c -> parseCidr (cidrToString c) = Some c.
Proof.
  intros (Hb & Hv & Hm). destruct c as [[] b v]; cbn [kind bits value max_bits] in *; unfold cidrToString; cbn [kind bits value].
  - destruct (v4_string_chars v) as (Hp & Hi & Hne).
    rewrite parseCidr_slash; [|done|done|apply pretty_dec_spec; unfold V4_MAX in *; lia].
    rewrite Hi, parseV4_string by done. cbn [mbind option_bind].
    rewrite parse_bits_pretty by (unfold V4_MAX in *; lia). cbn [mbind option_bind]. by rewrite Hm.
  - destruct (v6_string_shape v) as (x & y & Hxy & Hc).
    rewrite parseCidr_slash; [| | |apply pretty_dec_spec; unfold V6_MAX in *; lia].
    + assert (str_includes ":" (v6_string v) = true) as -> by (apply str_includes_spec; exists x, y; by rewrite Hxy).
      rewrite parseV6_string by done. cbn [mbind option_bind].
      rewrite parse_bits_pretty by (unfold V6_MAX in *; lia). cbn [mbind option_bind]. by rewrite Hm.
    + rewrite Hxy. by destruct x.
    + eapply str_forall_impl; [|exact Hc]. intros d [_ ?]%v6_char_chars%andb_prop. done.
Qed.

(** ** What the parser produces *)

Lemma numeral_nonneg base acc s :
  0 <= base -> 0 <= acc -> str_forall is_hex s = true -> 0 <= numeral base acc s.
Proof.
  intros Hb. revert acc; induction s as [|c s IH]; intros acc Ha; [done|]. simpl. intros [Hc Hs]%andb_prop.
  apply IH; [|done]. assert (0 <= digit_of c); [|nia]. unfold digit_of, is_hex, is_digit in *.
  destruct (code c <=? 57) eqn:E1; [|destruct (code c <=? 70) eqn:E2]; bool_to_prop; lia.
Qed.

Lemma hex_1_4_bound g : hex_1_4 g = true -> 0 <= numeral 16 0 g < 65536.
Proof.
  assert (Hd : forall c, is_hex c = true -> 0 <= digit_of c <= 15).
  { intros c. unfold digit_of, is_hex, is_digit. destruct (code c <=? 57) eqn:E1; [|destruct (code c <=? 70) eqn:E2];
    intros; bool_to_prop; lia. }
  unfold hex_1_4. intros [[_ Hl]%andb_prop Hs]%andb_prop. unfold str_len in Hl. bool_to_prop.
  destruct g as [|a [|b [|c [|d [|e g]]]]]; simpl in *; bool_to_prop;
  repeat match goal with E : is_hex _ = true |- _ => apply Hd in E end; lia.
Qed.

Lemma v4_parts_bound acc parts v :
  v4_parts acc parts = Some v -> 0 <= acc -> 0 <= v < (acc + 1) * 256 ^ Z.of_nat (length parts).
Proof.
  revert acc; induction parts as [|p r IH]; intros acc; simpl v4_parts.
  - intros [= <-] Ha. simpl. lia.
  - destruct (negb (digits_1_3 p)); [done|]. destruct (_ || _) eqn:E; [done|]. bool_to_prop. intros Hv Ha.
    rewrite lor_shift in Hv by lia. apply IH in Hv; [|lia]. change (2 ^ 8) with 256 in Hv.
    cbn [length]. rewrite Nat2Z.inj_succ, Z.pow_succ_r by lia.
    pose proof (Z.pow_pos_nonneg 256 (Z.of_nat (length r))). nia.
Qed.

Lemma v6_groups_bound acc gs v :
  v6_groups acc gs = Some v -> 0 <= acc -> 0 <= v < (acc + 1) * 65536 ^ Z.of_nat (length gs).
Proof.
  revert acc; induction gs as [|g r IH]; intros acc; simpl v6_groups.
  - intros [= <-] Ha. simpl. lia.
  - destruct (negb (hex_1_4 g)) eqn:E; [done|]. bool_to_prop. pose proof (hex_1_4_bound _ E). intros Hv Ha.
    rewrite lor_shift in Hv by lia. apply IH in Hv; [|lia]. change (2 ^ 16) with 65536 in Hv.
    cbn [length]. rewrite Nat2Z.inj_succ, Z.pow_succ_r by lia.
    pose proof (Z.pow_pos_nonneg 65536 (Z.of_nat (length r))). nia.
Qed.

Lemma parseV4_bound s v : parseV4 s = Some v -> 0 <= v < 2 ^ 32.
Proof.
  unfold parseV4. destruct (negb _) eqn:E; [done|]. apply negb_false_iff, Nat.eqb_eq in E.
  intros Hv%v4_parts_bound; [|done]. rewrite E in Hv. exact Hv.
Qed.

Lemma parseV6_bound s v : parseV6 s = Some v -> 0 <= v < 2 ^ 128.
Proof.
  unfold parseV6. destruct (str_last_index _ s); [|done]. intros (w & _ & Hv)%bind_Some.
  apply bind_Some in Hv as ([h t] & _ & Hv). cbn zeta in Hv. destruct (negb _) eqn:E; [done|].
  apply negb_false_iff, Nat.eqb_eq in E. apply v6_groups_bound in Hv; [|done]. rewrite E in Hv. exact Hv.
Qed.

Lemma maskBig_range v b max :
  0 <= v < 2 ^ max -> 0 <= b <= max -> maskBig v b max = v / 2 ^ (max - b) * 2 ^ (max - b).
Proof.
  intros Hv Hb. unfold maskBig. destruct (b >=? max) eqn:E1; [|destruct (b <=? 0) eqn:E2]; bool_to_prop.
  - replace (max - b) with 0 by lia. rewrite Z.div_1_r. lia.
  - replace (max - b) with max by lia. rewrite Z.div_small by done. lia.
  - by rewrite Z.shiftl_mul_pow2, Z.shiftr_div_pow2 by lia.
Qed.

Lemma mask_ok v b max :
  0 <= v < 2 ^ max -> 0 <= b <= max ->
  0 <= maskBig v b max < 2 ^ max /\ maskBig (maskBig v b max) b max = maskBig v b max.
Proof.
  intros Hv Hb. rewrite (maskBig_range v) by done. pose proof (Z.pow_pos_nonneg 2 (max - b)) as Hp.
  set (p := 2 ^ (max - b)) in *. assert (Hr : 0 <= v / p * p < 2 ^ max).
  { pose proof (Z.mul_div_le v p). pose proof (Z.div_pos v p). nia. }
  split; [done|]. rewrite maskBig_range by done. fold p. by rewrite Z.div_mul by lia.
Qed.

Lemma parse_bits_bound max o n : 0 <= max -> parse_bits max o = Some n -> 0 <= n <= max.
Proof.
  intros Hm. unfold parse_bits. destruct o as [b|]; [|intros [= <-]; lia].
  destruct (negb _); [done|]. destruct (_ || _) eqn:E; [done|]. intros [= <-]. bool_to_prop. lia.
Qed.

Lemma parseCidr_ok s c : parseCidr s = Some c -> cidr_ok c.
Proof.
  unfold parseCidr. destruct (negb _); [done|].
  destruct (match str_index _ _ with Some _ => _ | None => _ end) as [addr bs]. destruct (str_includes ":" addr).
  - intros (v & Hv & H1)%bind_Some. apply bind_Some in H1 as (n & Hn & [= <-]).
    apply parseV6_bound in Hv. apply parse_bits_bound in Hn; [|done].
    destruct (mask_ok v n V6_MAX Hv Hn). by split.
  - intros (v & Hv & H1)%bind_Some. apply bind_Some in H1 as (n & Hn & [= <-]).
    apply parseV4_bound in Hv. apply parse_bits_bound in Hn; [|done].
    destruct (mask_ok v n V4_MAX Hv Hn). by split.
Qed.

(** ** Matching is membership in an interval *)

Definition covers (c : ParsedCidr) (a : family * Z) : Prop :=
  kind c = fst a /\ value c <= snd a < value c + 2 ^ (max_bits (kind c) - bits c).

Lemma address_bound norm f v : address norm = Some (f, v) -> 0 <= v < 2 ^ max_bits f.
Proof.
  unfold address. destruct (str_includes ":" norm).
  - intros (x & Hx & [= <- <-])%bind_Some. by apply parseV6_bound in Hx.
  - intros (x & Hx & [= <- <-])%bind_Some. by apply parseV4_bound in Hx.
Qed.

Lemma matches_covers a c :
  cidr_ok c -> 0 <= snd a < 2 ^ max_bits (fst a) -> matches a c = true <-> covers c a.
Proof.
  destruct a as [f v]. intros (Hb & Hv & Hm) Ha. unfold matches, covers. cbn [fst snd] in *.
  rewrite andb_true_iff, bool_decide_eq_true, Z.eqb_eq. split; intros [Hk Hr]; (split; [done|]); subst f.
  - rewrite maskBig_range in Hr by done. pose proof (Z.pow_pos_nonneg 2 (max_bits (kind c) - bits c)) as Hp.
    set (p := 2 ^ (max_bits (kind c) - bits c)) in *. rewrite <- Hr.
    pose proof (Z.mod_pos_bound v p). pose proof (Z.div_mod v p). lia.
  - rewrite maskBig_range in Hm |- * by done. pose proof (Z.pow_pos_nonneg 2 (max_bits (kind c) - bits c)) as Hp.
    set (p := 2 ^ (max_bits (kind c) - bits c)) in *. rewrite <- Hm. f_equal.
    rewrite <- Hm in Hr. set (q := value c / p) in *. symmetry. apply (Z.div_unique v p q (v - q * p)); lia.
Qed.

(** [ipMatchesAny] decides interval membership: an address passes exactly
    when it parses and its number lies in one of the ranges of its own family,
    from the range's first address over [2 ^ (max - bits)] addresses. *)
Lemma ipMatchesAny_spec ip cidrs :
  Forall cidr_ok cidrs ->
  ipMatchesAny ip cidrs = true <->
  exists norm a c, normalizeIp ip = Some norm /\ address norm = Some a /\ c ∈ cidrs /\ covers c a.
Proof.
  intros Hok. unfold ipMatchesAny. destruct (normalizeIp ip) as [norm|]; [|naive_solver].
  destruct (address norm) as [[f v]|] eqn:E; [|naive_solver].
  pose proof (address_bound _ _ _ E) as Hb. rewrite existsb_exists. rewrite Forall_forall in Hok. split.
  - intros (c & Hc & Hm). apply list_elem_of_In in Hc. apply (matches_covers (f, v) c (Hok c Hc) Hb) in Hm.
    eexists norm, (f, v), c. repeat (split; [done|]). done.
  - intros (n & a & c & [= <-] & Ha & Hc & Hm). simplify_eq. exists c. split; [by apply list_elem_of_In|].
    apply (matches_covers _ c); [by apply Hok|done|done].
Qed.

(** ** Canonical lists *)

(** The ranges of a stored list: [parsedCidrs] and its copies. *)
Definition ranges (l : list string) : list ParsedCidr := omap parseCidr l.

Lemma ranges_elem l c : c ∈ ranges l <-> exists e, e ∈ l /\ parseCidr e = Some c.
Proof. unfold ranges. by rewrite list_elem_of_omap. Qed.

Lemma ranges_ok l : Forall cidr_ok (ranges l).
Proof. apply Forall_forall. intros c (e & _ & He)%ranges_elem. by eapply parseCidr_ok. Qed.

(** The text of a range is canonical: every entry the parser accepts is a
    masked range of its family; its printed form, with the zero compression of
    IPv6, parses back to the same range; and two entries have the same printed
    form exactly when they denote the same range. *)
Theorem cidr_text_canonical raw raw' c c' :
  parseCidr raw = Some c -> parseCidr raw' = Some c' ->
  cidr_ok c /\ parseCidr (cidrToString c) = Some c /\ (cidrToString c = cidrToString c' <-> c = c').
Proof.
  intros Hc Hc'. apply parseCidr_ok in Hc, Hc'. pose proof (parse_print c Hc) as P. pose proof (parse_print c' Hc') as P'.
  split; [done|]. split; [done|]. split; [|by intros ->]. intros E. rewrite E in P. congruence.
Qed.

(** [ipMatchesAny] decides interval membership: an address passes a list of
    entries exactly when it parses and its number lies in the range of one of
    them, of its own family, from the range's first address over
    [2 ^ (max - bits)] addresses. *)
Theorem ipMatchesAny_entries ip l :
  ipMatchesAny ip (ranges l) = true <->
  exists norm a e c, normalizeIp ip = Some norm /\ address norm = Some a /\ e ∈ l /\ parseCidr e = Some c /\ covers c a.
Proof.
  rewrite ipMatchesAny_spec by apply ranges_ok. split.
  - intros (n & a & c & Hn & Ha & (e & He & Hp)%ranges_elem & Hc). by exists n, a, e, c.
  - intros (n & a & e & c & Hn & Ha & He & Hp & Hc). exists n, a, c. split_and!; try done. apply ranges_elem. by exists e.
Qed.

Definition canonical (e : string) : Prop := exists c, parseCidr e = Some c /\ cidrToString c = e.

Lemma parseCidr_trim raw : parseCidr (trim raw) = parseCidr raw.
Proof. unfold parseCidr. by rewrite trim_idempotent. Qed.

Lemma parseCidr_blank raw : truthy (trim raw) = false -> parseCidr raw = None.
Proof. intros H. unfold parseCidr. by rewrite H. Qed.

Lemma printed_canonical raw c : parseCidr raw = Some c -> canonical (cidrToString c).
Proof. intros Hc. exists c. split; [|done]. by eapply parse_print, parseCidr_ok. Qed.

(** Neither empty nor containing a comma. *)
Lemma canonical_piece e : canonical e -> piece ","%char e.
Proof.
  intros (c & Hp & <-). apply parseCidr_ok in Hp as (Hb & _).
  assert (Hcomma : forall s, str_forall plain s = true -> no_char ","%char s = true).
  { intros s. apply str_forall_impl. unfold plain. intros d Hd. by bool_to_prop; apply negb_true_iff. }
  assert (Hd : str_forall plain (pretty (bits c)) = true).
  { apply digits_chars, pretty_dec_spec. destruct (kind c); cbn [max_bits] in Hb; unfold V4_MAX, V6_MAX in Hb; lia. }
  unfold cidrToString. destruct (kind c).
  - destruct (v4_string_chars (value c)) as (Hp & _ & Hne). split; [by destruct (v4_string (value c))|].
    unfold no_char in *. rewrite !str_forall_app. by rewrite (Hcomma _ Hp), (Hcomma _ Hd).
  - destruct (v6_string_shape (value c)) as (x & y & Hxy & Hc). split; [rewrite Hxy; by destruct x|].
    assert (Hp : str_forall plain (v6_string (value c)) = true).
    { eapply str_forall_impl; [|exact Hc]. intros d [_ ?]%v6_char_chars%andb_prop. done. }
    unfold no_char in *. rewrite !str_forall_app. by rewrite (Hcomma _ Hp), (Hcomma _ Hd).
Qed.

Definition good_list (l : list string) : Prop :=
  Forall canonical l /\ NoDup l /\ Z.of_nat (length l) <= MAX_CIDR_ENTRIES.

Lemma good_list_snoc l e : good_list l -> canonical e -> e ∉ l -> Z.of_nat (length (l ++ [e])) <= MAX_CIDR_ENTRIES -> good_list (l ++ [e]).
Proof.
  intros (Hc & Hn & _) He Hni Hlen. split; [apply Forall_app; by rewrite Forall_singleton|]. split; [|done].
  apply NoDup_app. split; [done|]. split; [|apply NoDup_singleton]. intros x Hx ->%list_elem_of_singleton. done.
Qed.

Lemma canon_loop_spec entries out res :
  canon_loop out entries = Ok res -> good_list out ->
  good_list res /\ forall c, c ∈ ranges res <-> c ∈ ranges out \/ exists raw, JStr raw ∈ entries /\ parseCidr raw = Some c.
Proof.
  revert out; induction entries as [|e entries IH]; intros out Hl Hg.
  { injection Hl as <-. split; [done|]. intros c. split; [by left|]. intros [|(raw & Hin & _)]; [done|].
    by apply elem_of_nil in Hin. }
  destruct e as [| | |raw| |]; try done. simpl in Hl.
  assert (Hcons : forall d, (exists raw', JStr raw' ∈ JStr raw :: entries /\ parseCidr raw' = Some d) <->
    parseCidr raw = Some d \/ exists raw', JStr raw' ∈ entries /\ parseCidr raw' = Some d).
  { intros d. split.
    - intros (raw' & [[= ->]|Hin]%elem_of_cons & Hp); eauto.
    - intros [Hp|(raw' & Hin & Hp)]; [exists raw|exists raw']; (split; [|done]); [by left|by right]. }
  destruct (truthy (trim raw)) eqn:Et; cbn [negb] in Hl.
  - rewrite parseCidr_trim in Hl. destruct (parseCidr raw) as [c|] eqn:Ep; [|done].
    pose proof (printed_canonical _ _ Ep) as Hcan. case_bool_decide as Hin.
    + destruct (IH _ Hl Hg) as [Hg' Hr]. split; [done|]. intros d. rewrite Hr.
      assert (Hd : c ∈ ranges out) by (apply ranges_elem; exists (cidrToString c); split; [done|];
        by eapply parse_print, parseCidr_ok).
      rewrite Hcons. naive_solver.
    + destruct (_ >? _) eqn:El; [done|]. bool_to_prop.
      destruct (IH _ Hl) as [Hg' Hr]; [by apply good_list_snoc|]. split; [done|]. intros d. rewrite Hr.
      assert (Hsn : d ∈ ranges (out ++ [cidrToString c]) <-> d ∈ ranges out \/ d = c).
      { rewrite !ranges_elem. setoid_rewrite elem_of_app. setoid_rewrite list_elem_of_singleton.
        pose proof (parse_print c (parseCidr_ok _ _ Ep)) as Hpc. naive_solver. }
      rewrite Hsn, Hcons. naive_solver.
  - apply parseCidr_blank in Et. destruct (IH _ Hl Hg) as [Hg' Hr]. split; [done|]. intros d. rewrite Hr, Hcons, Et. naive_solver.
Qed.

Lemma canon_loop_fixed rest out : good_list (out ++ rest) -> canon_loop out (JStr <$> rest) = Ok (out ++ rest).
Proof.
  revert out; induction rest as [|e rest IH]; intros out Hg; [by rewrite app_nil_r|].
  pose proof Hg as (Hc & Hn & Hlen). csimpl. apply Forall_app in Hc as [_ [He _]%Forall_cons].
  destruct He as (c & Hp & Hs). rewrite parseCidr_trim, Hp.
  assert (truthy (trim e) = true) as ->.
  { destruct (truthy (trim e)) eqn:E; [done|]. apply parseCidr_blank in E. congruence. }
  cbn [negb]. rewrite Hs, bool_decide_eq_false_2.
  2:{ apply NoDup_app in Hn as (_ & Hd & _). intros Hin. by eapply (Hd e); [|left]. }
  rewrite Z.gtb_ltb, (proj2 (Z.ltb_ge _ _)).
  2:{ rewrite length_app in Hlen |- *. simpl in *. lia. }
  rewrite IH; rewrite <- app_assoc; done.
Qed.

Lemma good_nil : good_list [].
Proof. split; [done|]. split; [constructor|done]. Qed.

(** A list the administrator submits is stored canonically and loses
    nothing: on success the entries are distinct, at most 64 and each the
    canonical text of a range; they denote exactly the ranges submitted; and
    submitting the stored list again gives the same list. *)
Theorem canonicalizeCidrList_canonical entries out :
  canonicalizeCidrList (JArr entries) = Ok out ->
  good_list out /\
  (forall c, c ∈ ranges out <-> exists raw, JStr raw ∈ entries /\ parseCidr raw = Some c) /\
  canonicalizeCidrList (JArr (JStr <$> out)) = Ok out.
Proof.
  intros Hl. destruct (canon_loop_spec _ _ _ Hl good_nil) as [Hg Hr]. split; [done|]. split.
  - intros c. rewrite Hr. split; [|by right]. intros [Hin|]; [|done]. by apply elem_of_nil in Hin.
  - by apply (canon_loop_fixed out []).
Qed.

(** An entry in the IPv4-mapped form is stored as an IPv6 range, but the
    mapped address itself is matched as IPv4: the entry never matches it. *)
Lemma mapped_entry_never_matches :
  let mapped := "::ffff:203.0.113.5" in
  canonicalizeCidrList (JArr [JStr mapped]) = Ok ["::ffff:cb00:7105/128"] /\
  ipMatchesAny mapped (ranges ["::ffff:cb00:7105/128"]) = false /\
  ipMatchesAny "203.0.113.5" (ranges ["::ffff:cb00:7105/128"]) = false.
Proof. vm_compute. auto. Qed.

Section Demo.
Definition demo_range : ParsedCidr := Cidr v6 45 42540766411437335361814657486016217088.

Lemma demo_range_ok : cidr_ok demo_range.
Proof. vm_compute. repeat split; discriminate. Qed.

Lemma cidr_text_canonical_witness :
  cidrToString demo_range = "2001:db8:80::/45" /\ parseCidr "2001:db8:80::/45" = Some demo_range.
Proof.
  assert (E : cidrToString demo_range = "2001:db8:80::/45") by (vm_compute; reflexivity).
  split; [exact E|]. rewrite <- E.
  apply (cidr_text_canonical "2001:DB8:80:1:0::9/45" "2001:db8:80::/45" demo_range demo_range); vm_compute; reflexivity.
Defined.

Lemma canonicalizeCidrList_canonical_witness :
  canonicalizeCidrList (JArr [JStr "10.0.0.0/8"; JStr "192.168.1.1/32"; JStr "::1/128"]) =
    Ok ["10.0.0.0/8"; "192.168.1.1/32"; "::1/128"].
Proof.
  assert (E : canonicalizeCidrList (JArr [JStr " 10.9.8.7/8"; JStr "192.168.1.1"; JStr "10.0.0.0/8"; JStr ""; JStr "0:0::1"]) =
    Ok ["10.0.0.0/8"; "192.168.1.1/32"; "::1/128"]) by (vm_compute; reflexivity).
  exact (proj2 (proj2 (canonicalizeCidrList_canonical _ _ E))).
Defined.
End Demo.
