(* ===== verification/NetworkPolicy.v ===== *)
(** Who may reach the service: the workspace allowlist
    ([web/lib/networkPolicyStore.ts]) and the per-key allowlist
    ([web/lib/keyIpPolicy.ts]), on top of [IpMatch]. *)
From S2P Require Import Prelude JsNum JsDate IsoTime Json Store IpMatch.

Record NetworkPolicy := {
  enabled : bool;
  cidrs : list string;
  updated_at : option iso;
  updated_by : option string;
}.

Definition DEFAULT_POLICY : NetworkPolicy :=
  {| enabled := false; cidrs := []; updated_at := None; updated_by := None |}.

Definition encode_policy (p : NetworkPolicy) : json :=
  JObj [("enabled", JBool (enabled p)); ("cidrs", JArr (JStr <$> cidrs p));
        ("updated_at", jopt jiso (updated_at p)); ("updated_by", jopt JStr (updated_by p))].

Definition read_policy (j : json) : NetworkPolicy :=
  if negb (is_object j) then DEFAULT_POLICY else
  {| enabled := jtruthy (field "enabled" j);
     cidrs := strings_of (array_or_empty (field "cidrs" j));
     updated_at := iso_or_null (field "updated_at" j);
     updated_by := string_or_null (field "updated_by" j) |}.

Lemma network_policy_roundtrip p : from_option iso_ok True (updated_at p) -> read_policy (encode_policy p) = p.
Proof.
  intros H1. unfold read_policy, encode_policy.
  cbn [is_object negb field assoc String.eqb Ascii.eqb Bool.eqb array_or_empty jtruthy].
  rewrite strings_of_fmap, iso_or_null_jiso, string_or_null_jopt by done. by destruct p as [[] ? ? ?].
Qed.

#[export] Instance NetworkPolicy_persisted : Persisted NetworkPolicy := {|
  raw := json; encode := encode_policy; decode := read_policy; absent := DEFAULT_POLICY;
  storable p := from_option iso_ok True (updated_at p); decode_encode := network_policy_roundtrip |}.

Definition getPolicy (f : file NetworkPolicy) : NetworkPolicy := read_file f.

(** ** [updatePolicy] *)

Record UpdateInput := { in_enabled : bool; in_cidrs : json; in_actor : option string }.

Inductive UpdateCode := list_error (e : CidrListCode) | empty_allowlist.

Record Update := { policy : NetworkPolicy; before : NetworkPolicy }.

Definition update_tx (now : Z) (input : UpdateInput) : transaction NetworkPolicy (result Update UpdateCode) := fun cur =>
  match canonicalizeCidrList (in_cidrs input) with
  | Err e => (Err (list_error e), None)
  | Ok canon =>
      if in_enabled input && (length canon =? 0)%nat then (Err empty_allowlist, None) else
      let next := {| enabled := in_enabled input; cidrs := canon; updated_at := Some (Iso now); updated_by := in_actor input |} in
      (Ok {| policy := next; before := cur |}, Some next)
  end.

Definition updatePolicy (now : Z) (input : UpdateInput) (f : file NetworkPolicy) := on_file (update_tx now input) f.

(** ** Decisions *)

(** The parsed list is cached under the comma-separated text of the list. *)
Abbreviation cidr_cache := (option (string * list ParsedCidr)).

Definition parsedCidrs (p : NetworkPolicy) (cidrCache : cidr_cache) : list ParsedCidr * cidr_cache :=
  let sig := join "," (cidrs p) in
  let miss := let parsed := omap parseCidr (cidrs p) in (parsed, Some (sig, parsed)) in
  match cidrCache with
  | Some (s, parsed) => if String.eqb s sig then (parsed, cidrCache) else miss
  | None => miss
  end.

Definition isLoopback (ip : string) : bool :=
  match normalizeIp ip with
  | None => false
  | Some n => truthy n && (String.eqb n "127.0.0.1" || String.eqb n "::1")
  end.

Inductive allow_reason := policy_disabled | loopback | matched.
Inductive deny_reason := no_ip | not_matched.
Inductive CheckDecision := Allowed (r : allow_reason) | Denied (r : deny_reason) (ip : string).

Definition allowed (d : CheckDecision) : bool := match d with Allowed _ => true | Denied _ _ => false end.

Definition decideAllowed (headers : gmap string string) (p : NetworkPolicy) (cidrCache : cidr_cache)
  : CheckDecision * cidr_cache :=
  if negb (enabled p) then (Allowed policy_disabled, cidrCache) else
  let ip := clientIpFromRequest headers in
  if negb (truthy ip) then (Denied no_ip "", cidrCache)
  else if isLoopback ip then (Allowed loopback, cidrCache)
  else
    let '(parsed, cidrCache) := parsedCidrs p cidrCache in
    if (length parsed =? 0)%nat then (Allowed policy_disabled, cidrCache)
    else if ipMatchesAny ip parsed then (Allowed matched, cidrCache)
    else (Denied not_matched ip, cidrCache).

(** [decideKeyIpAllowed]; the refusal carries the address, "unknown" for none. *)
Definition decideKeyIpAllowed (headers : gmap string string) (ip_allowlist : list string) : result unit string :=
  if (length ip_allowlist =? 0)%nat then Ok tt else
  let parsed := omap parseCidr ip_allowlist in
  if (length parsed =? 0)%nat then Ok tt else
  let ip := clientIpFromRequest headers in
  if truthy ip && ipMatchesAny ip parsed then Ok tt
  else Err (if truthy ip then "ip_not_allowed:" +:+ ip else "ip_not_allowed:unknown").

(** ** Laws *)

(** The cache holds the ranges of some canonical list under its own text. *)
Definition cache_ok (c : cidr_cache) : Prop :=
  match c with
  | None => True
  | Some (sig, parsed) => exists l, Forall canonical l /\ sig = join "," l /\ parsed = ranges l
  end.

Lemma canonical_pieces l : Forall canonical l -> Forall (piece ","%char) l.
Proof. intros Hl. eapply Forall_impl; [exact Hl|]. apply canonical_piece. Qed.

Lemma parsedCidrs_spec p c :
  cache_ok c -> Forall canonical (cidrs p) ->
  fst (parsedCidrs p c) = ranges (cidrs p) /\ cache_ok (snd (parsedCidrs p c)).
Proof.
  intros Hc Hp. unfold parsedCidrs. destruct c as [[s parsed]|]; [|split; [done|]; by exists (cidrs p)].
  destruct (String.eqb s _) eqn:E; [|split; [done|]; by exists (cidrs p)].
  split; [|done]. apply String.eqb_eq in E. destruct Hc as (l & Hl & -> & ->). simpl. f_equal.
  apply (join_inj ","%char); auto using canonical_pieces.
Qed.

Lemma canonical_ranges_length l : Forall canonical l -> length (ranges l) = length l.
Proof.
  induction 1 as [|e l (c & Hp & _) Hl IH]; [done|]. unfold ranges in *. csimpl. rewrite Hp. simpl. by rewrite IH.
Qed.

Lemma decideAllowed_spec h p c :
  cache_ok c -> Forall canonical (cidrs p) -> enabled p = true -> cidrs p <> [] ->
  let ip := clientIpFromRequest h in
  (allowed (fst (decideAllowed h p c)) = true <->
     truthy ip = true /\ (isLoopback ip = true \/ ipMatchesAny ip (ranges (cidrs p)) = true)) /\
  cache_ok (snd (decideAllowed h p c)).
Proof.
  intros Hc Hp He Hne ip. unfold decideAllowed. rewrite He. cbn [negb]. fold ip.
  destruct (truthy ip); cbn [negb]; [|naive_solver]. destruct (isLoopback ip) eqn:El; [naive_solver|].
  destruct (parsedCidrs_spec p c Hc Hp) as [Hf Hs]. destruct (parsedCidrs p c) as [parsed c']. cbn [fst snd] in *. subst parsed.
  assert ((length (ranges (cidrs p)) =? 0)%nat = false) as ->.
  { apply Nat.eqb_neq. rewrite canonical_ranges_length by done. by destruct (cidrs p). }
  destruct (ipMatchesAny ip _) eqn:Em; simpl; split; try done; naive_solver.
Qed.

(** What the administrator submits is what is enforced: after an accepted
    update that turns the policy on, a request gets through exactly when it has
    a client address that is a loopback address or lies in one of the submitted
    ranges, whether the parsed list comes from the file or from the cache; an
    update that fails changes nothing, and a policy that would lock everybody
    out is refused. *)
Theorem updatePolicy_enforced now entries actor f h c :
  iso_range now -> cache_ok c ->
  match updatePolicy now {| in_enabled := true; in_cidrs := JArr entries; in_actor := actor |} f with
  | (Ok u, f') =>
      getPolicy f' = policy u /\ before u = getPolicy f /\
      let ip := clientIpFromRequest h in
      allowed (fst (decideAllowed h (getPolicy f') c)) = true <->
        truthy ip = true /\
        (isLoopback ip = true \/
         exists norm a raw rng, normalizeIp ip = Some norm /\ address norm = Some a /\
           JStr raw ∈ entries /\ parseCidr raw = Some rng /\ covers rng a)
  | (Err e, f') => f' = f
  end.
Proof.
  intros Hn Hc. unfold updatePolicy, on_file, update_tx. cbn [in_enabled in_cidrs].
  destruct (canonicalizeCidrList (JArr entries)) as [canon|e] eqn:E; [|done].
  destruct (true && (length canon =? 0)%nat) eqn:El; [done|]. cbn [in_actor].
  pose proof (canon_loop_spec _ _ _ E good_nil) as [(Hcan & _) Hr].
  assert (Hrd : forall p, from_option iso_ok True (updated_at p) -> getPolicy (write_file p) = p) by (intros; by apply read_write).
  rewrite Hrd by done. cbn [policy before]. split; [done|]. split; [done|]. cbn zeta.
  set (p := {| enabled := true; cidrs := canon; updated_at := _; updated_by := _ |}).
  assert (Hne : cidrs p <> []) by (by destruct canon).
  destruct (decideAllowed_spec h p c Hc Hcan eq_refl Hne) as [-> _].
  rewrite (ipMatchesAny_spec _ _ (ranges_ok _)). split; (intros [Ht Hrest]; split; [done|]);
  (destruct Hrest as [|Hex]; [by left|right]).
  - destruct Hex as (norm & a & rng & Hno & Ha & Hin & Hcov).
    apply Hr in Hin as [Hin|(raw & Hraw & Hp)]; [by apply elem_of_nil in Hin|]. by exists norm, a, raw, rng.
  - destruct Hex as (norm & a & raw & rng & Hno & Ha & Hraw & Hp & Hcov). exists norm, a, rng. do 2 (split; [done|]).
    split; [|done]. apply Hr. right. eauto.
Qed.

(** A key with a stored allowlist is only usable from it: on a non-empty
    list of canonical entries the key passes exactly when the request has a
    client address inside one of them; an empty list restricts nothing. *)
Theorem decideKeyIpAllowed_spec h l :
  Forall canonical l ->
  is_ok (decideKeyIpAllowed h l) = true <->
  l = [] \/ truthy (clientIpFromRequest h) = true /\ ipMatchesAny (clientIpFromRequest h) (ranges l) = true.
Proof.
  intros Hl. unfold decideKeyIpAllowed. fold (ranges l). pose proof (canonical_ranges_length l Hl) as Hlen.
  destruct l as [|e l]; [naive_solver|]. rewrite Hlen. cbn [length Nat.eqb].
  destruct (truthy _ && ipMatchesAny _ _) eqn:E; cbn [is_ok].
  - apply andb_prop in E. naive_solver.
  - split; [done|]. intros [|[E1 E2]]; [done|]. by rewrite E1, E2 in E.
Qed.

(** A request names its own address: with [X-Forwarded-For: 127.0.0.1] it
    passes every workspace policy, whatever ranges the policy lists. *)
Theorem loopback_header_always_allowed h p c rest :
  h !! "x-forwarded-for" = Some ("127.0.0.1" +:+ rest) -> rest = "" \/ starts_with "," rest = true ->
  allowed (fst (decideAllowed h p c)) = true.
Proof.
  intros Hh Hr. unfold decideAllowed. destruct (enabled p); [|done]. cbn [negb].
  assert (clientIpFromRequest h = "127.0.0.1") as ->.
  { unfold clientIpFromRequest. rewrite Hh. destruct Hr as [->|(r & ->)%prefix_spec]; [done|].
    assert (split "," ("127.0.0.1" +:+ "," +:+ r) = "127.0.0.1" :: split "," r) as ->; [|done].
    unfold split. apply (split_go_sep ","%char "" "127.0.0.1" r). done. }
  done.
Qed.

(** An allowlist none of whose entries parses restricts nothing. *)
Lemma unparsable_allowlist_allows h l : ranges l = [] -> decideKeyIpAllowed h l = Ok tt.
Proof. intros Hl. unfold decideKeyIpAllowed. fold (ranges l). rewrite Hl. by destruct (length l =? 0)%nat. Qed.

Section Demo.
Definition from_ (ip : string) : gmap string string := {[ "x-forwarded-for" := ip ]}.
Definition demo_entries : list json := [JStr "10.0.0.0/8"; JStr " 2001:db8::/32 "].

Lemma updatePolicy_enforced_witness :
  match updatePolicy 1000 {| in_enabled := true; in_cidrs := JArr demo_entries; in_actor := None |} None with
  | (Ok _, f') =>
      allowed (fst (decideAllowed (from_ "10.20.30.40, 198.51.100.1") (getPolicy f') None)) = true /\
      ~ allowed (fst (decideAllowed (from_ "192.168.0.1") (getPolicy f') None)) = true
  | (Err _, _) => False
  end.
Proof.
  pose proof (updatePolicy_enforced 1000 demo_entries None None (from_ "10.20.30.40, 198.51.100.1") None
    ltac:(vm_compute; split; discriminate) I) as H1.
  pose proof (updatePolicy_enforced 1000 demo_entries None None (from_ "192.168.0.1") None
    ltac:(vm_compute; split; discriminate) I) as H2.
  destruct (updatePolicy 1000 _ None) as [[u|e] f'] eqn:E; [|not_an_error E].
  destruct H1 as (_ & _ & H1), H2 as (Hf & _ & H2). split.
  - apply H1. split; [reflexivity|]. right. exists "10.20.30.40", (v4, 169090600), "10.0.0.0/8", (Cidr v4 8 167772160).
    repeat split; try (vm_compute; reflexivity); [apply list_elem_of_here|vm_compute; discriminate].
  - assert (Hp : fst (updatePolicy 1000 {| in_enabled := true; in_cidrs := JArr demo_entries; in_actor := None |} None) = Ok u)
      by (by rewrite E).
    unfold updatePolicy in Hp. rewrite on_file_result in Hp. vm_compute in Hp. injection Hp as <-.
    rewrite Hf. vm_compute. discriminate.
Defined.

Lemma decideKeyIpAllowed_spec_witness :
  is_ok (decideKeyIpAllowed (from_ "203.0.113.9") ["203.0.113.0/24"]) = true.
Proof.
  apply decideKeyIpAllowed_spec.
  - apply Forall_singleton. exists (Cidr v4 24 3405803776). split; vm_compute; reflexivity.
  - right. split; vm_compute; reflexivity.
Defined.

Lemma loopback_header_always_allowed_witness :
  allowed (fst (decideAllowed (from_ "127.0.0.1, 203.0.113.77")
    {| enabled := true; cidrs := ["10.0.0.0/8"]; updated_at := None; updated_by := None |} None)) = true.
Proof.
  apply (loopback_header_always_allowed _ _ _ ", 203.0.113.77"); [reflexivity|right; reflexivity].
Defined.

End Demo.
