(* ===== verification/AuthLockout.v ===== *)
(** Failed-authentication lockout per source address:
    [web/lib/authLockoutStore.ts]. Writes go through one promise chain, so the
    operations on the state are sequential ([Interleave.serial_sequential]). *)
From S2P Require Import Prelude JsNum JsDate IsoTime Json Store.

(** ** Configuration *)

(** A field that is [NaN] is [None]: what the clamps produce from anything else
    is an integer. *)
Record LockoutConfig := {
  threshold : option Z;
  window_seconds : option Z;
  cooldown_seconds : option Z;
  enabled : bool;
}.

Definition DEFAULT_CONFIG : LockoutConfig :=
  {| threshold := Some 10; window_seconds := Some 300; cooldown_seconds := Some 900; enabled := false |}.

Definition MAX_TRACKED_IPS : Z := 10000.

(** What is submitted, or found in the file: the value of [Number(x)], [None]
    for [null] and [undefined]. *)
Record raw_config := {
  raw_threshold : option num; raw_window : option num; raw_cooldown : option num; raw_enabled : bool }.

(** [Math.max(lo, Math.min(hi, Math.floor(n)))]. *)
Definition clamp (lo hi : Z) (n : num) : option Z :=
  match clamp_floor lo hi n with Fin q => Some (floorZ (Fin q)) | _ => None end.

Definition validateConfig (c : raw_config) : LockoutConfig :=
  {| threshold := clamp 1 1000 (default (int 10) (raw_threshold c));
     window_seconds := clamp 10 86400 (default (int 300) (raw_window c));
     cooldown_seconds := clamp 30 86400 (default (int 900) (raw_cooldown c));
     enabled := raw_enabled c |}.

(** [JSON.stringify] writes [NaN] as [null]. *)
Definition stringify_config (c : LockoutConfig) : raw_config :=
  {| raw_threshold := int <$> threshold c; raw_window := int <$> window_seconds c;
     raw_cooldown := int <$> cooldown_seconds c; raw_enabled := enabled c |}.

Record config_store := { config_file : option raw_config; cachedConfig : option LockoutConfig }.

Definition getConfig (st : config_store) : LockoutConfig * config_store :=
  match cachedConfig st with
  | Some c => (c, st)
  | None =>
      let c := match config_file st with Some j => validateConfig j | None => DEFAULT_CONFIG end in
      (c, {| config_file := config_file st; cachedConfig := Some c |})
  end.

Definition setConfig (input : raw_config) (st : config_store) : LockoutConfig * config_store :=
  let next := validateConfig input in
  (next, {| config_file := Some (stringify_config next); cachedConfig := Some next |}).

(** ** State: the addresses in insertion order *)

Record IpState := {
  failures : list Z;
  locked_until : option Z;
  first_failure_at : option Z;
  last_failure_at : option Z;
  total_failures : Z;
}.

Abbreviation State := (list (string * IpState)).

#[export] Program Instance State_persisted : Persisted State := {|
  raw := State; encode s := s; decode s := s; absent := []; storable _ := True |}.
Next Obligation. done. Qed.

Definition new_ip : IpState :=
  {| failures := []; locked_until := None; first_failure_at := None; last_failure_at := None; total_failures := 0 |}.

(** [delete state.ips[ip]]. *)
Definition remove (ip : string) (s : State) : State := filter (fun e => fst e <> ip) s.

Definition pruneFailures (fs : list Z) (window : option Z) (nowSec : Z) : list Z :=
  match window with Some w => filter (fun t => nowSec - w <= t) fs | None => [] end.

Inductive LockoutDecision := Unlocked | Locked (retry_after_seconds : Z) (locked_until : Z).

(** [Math.ceil((until - now) / 1000)]. *)
Definition ceil_seconds (ms : Z) : Z := - ((- ms) / 1000).

Definition decideLockout (cfg : LockoutConfig) (ip : string) (now : Z) (s : State) : LockoutDecision :=
  if negb (truthy ip) then Unlocked
  else if negb (enabled cfg) then Unlocked
  else match assoc ip s with
       | None => Unlocked
       | Some e =>
           match locked_until e with
           | None => Unlocked
           | Some until => if until <=? now then Unlocked else Locked (Z.max 1 (ceil_seconds (until - now))) until
           end
       end.

(** The loop that looks for the oldest entry: the first smallest time, an entry
    without one counts as 0. *)
Fixpoint oldest (best : option (string * Z)) (s : State) : option string :=
  match s with
  | [] => fst <$> best
  | (k, v) :: r =>
      let t := default 0 (last_failure_at v) in
      oldest (match best with Some (_, t0) => if t <? t0 then Some (k, t) else best | None => Some (k, t) end) r
  end.

Definition make_room (ip : string) (s : State) : State :=
  if bool_decide (assoc ip s = None) && (Z.of_nat (length s) >=? MAX_TRACKED_IPS) then
    match oldest None s with Some k => if truthy k then remove k s else s | None => s end
  else s.

(** The entry of [ip] after a failure at [now]; [None] when the cooldown is
    [NaN]: [toISOString] throws, and the bookkeeping swallows it. *)
Definition fail_entry (cfg : LockoutConfig) (now : Z) (cur : IpState) : option IpState :=
  let nowSec := now / 1000 in
  let fs := pruneFailures (failures cur) (window_seconds cfg) nowSec ++ [nowSec] in
  let first := match first_failure_at cur with Some t => Some t | None => Some now end in
  match threshold cfg with
  | Some th =>
      if Z.of_nat (length fs) >=? th then
        match cooldown_seconds cfg with
        | Some c => Some {| failures := []; locked_until := Some (now + c * 1000); first_failure_at := first;
                            last_failure_at := Some now; total_failures := total_failures cur + 1 |}
        | None => None
        end
      else Some {| failures := fs; locked_until := locked_until cur; first_failure_at := first;
                   last_failure_at := Some now; total_failures := total_failures cur + 1 |}
  | None => Some {| failures := fs; locked_until := locked_until cur; first_failure_at := first;
                    last_failure_at := Some now; total_failures := total_failures cur + 1 |}
  end.

Definition record_tx (cfg : LockoutConfig) (ip : string) (now : Z) : transaction State unit := fun s =>
  let s' := make_room ip s in
  match fail_entry cfg now (default new_ip (assoc ip s')) with
  | Some e => (tt, Some (put ip e s'))
  | None => (tt, None)
  end.

Definition recordAuthFailure (cfg : LockoutConfig) (ip : string) (now : Z) (f : file State) : file State :=
  if negb (truthy ip) then f else if negb (enabled cfg) then f else snd (on_file (record_tx cfg ip now) f).

Definition unlock_entry (e : IpState) : IpState :=
  {| failures := []; locked_until := None; first_failure_at := first_failure_at e;
     last_failure_at := last_failure_at e; total_failures := total_failures e |}.

Definition unlock_tx (ip : string) : transaction State bool := fun s =>
  match assoc ip s with
  | None => (false, None)
  | Some e => (true, Some (set_assoc ip (unlock_entry e) s))
  end.

Definition clearAuthFailures (ip : string) (f : file State) : file State :=
  if negb (truthy ip) then f else snd (on_file (unlock_tx ip) f).

Definition unlockIp (ip : string) (f : file State) : bool * file State := on_file (unlock_tx ip) f.

Record LockoutEntry := {
  e_ip : string; e_locked : bool; e_locked_until : option Z; e_recent : Z; e_total : Z;
  e_first : option Z; e_last : option Z }.

Definition entry_of (cfg : LockoutConfig) (now : Z) (p : string * IpState) : LockoutEntry :=
  {| e_ip := fst p;
     e_locked := match locked_until (snd p) with Some u => now <? u | None => false end;
     e_locked_until := locked_until (snd p);
     e_recent := Z.of_nat (length (pruneFailures (failures (snd p)) (window_seconds cfg) (now / 1000)));
     e_total := total_failures (snd p); e_first := first_failure_at (snd p); e_last := last_failure_at (snd p) |}.

Definition cmp_entry (a b : LockoutEntry) : Z :=
  if negb (Bool.eqb (e_locked a) (e_locked b)) then (if e_locked a then -1 else 1)
  else default 0 (e_last b) - default 0 (e_last a).

Definition listLockouts (cfg : LockoutConfig) (now : Z) (s : State) : list LockoutEntry :=
  js_sort cmp_entry (entry_of cfg now <$> s).

(** ** Laws *)

Lemma set_assoc_length {A} k (v : A) s : length (set_assoc k v s) = length s.
Proof. induction s as [|[k' w] s IH]; [done|]. simpl. destruct (String.eqb k k'); simpl; by rewrite ?IH. Qed.

Lemma assoc_Some_elem {A} k (v : A) s : assoc k s = Some v -> (k, v) ∈ s.
Proof.
  induction s as [|[k' w] s IH]; [done|]. simpl. destruct (String.eqb k k') eqn:E.
  - apply String.eqb_eq in E as <-. intros [= ->]. left.
  - intros Hs. right. by apply IH.
Qed.

Lemma oldest_in best s k : oldest best s = Some k -> (exists t, best = Some (k, t)) \/ k ∈ s.*1.
Proof.
  revert best; induction s as [|[k' v] s IH]; intros best; simpl.
  - destruct best as [[k0 t0]|]; [|done]. intros [= ->]. left. eauto.
  - intros Ho. destruct (IH _ Ho) as [[t Ht]|Hin]; [|right; by right].
    destruct best as [[k0 t0]|]; [|simplify_eq; right; left].
    destruct (_ <? t0); simplify_eq; [right; left|left; eauto].
Qed.

Lemma oldest_some best s : is_Some best \/ s <> [] -> is_Some (oldest best s).
Proof.
  revert best; induction s as [|[k v] s IH]; intros best; simpl; [intros [[[k t] ->]|]; done|].
  intros _. apply IH. left. destruct best as [[]|]; [case_match|]; done.
Qed.

Lemma remove_length k (s : State) : k ∈ s.*1 -> (length (remove k s) < length s)%nat.
Proof.
  unfold remove. induction s as [|[k' v] s IH]; [by intros ?%elem_of_nil|]. rewrite filter_cons. csimpl. intros Hk.
  case_decide as Hd; simpl in *.
  - apply elem_of_cons in Hk as [->|Hk]; [done|]. simpl. specialize (IH Hk). lia.
  - pose proof (length_filter (fun e => fst e <> k) s). lia.
Qed.

(** The names are addresses, hence not empty. *)
Definition named (s : State) : Prop := Forall (fun e => truthy (fst e) = true) s.

Definition bounded (s : State) : Prop := Z.of_nat (length s) <= MAX_TRACKED_IPS.

Lemma make_room_bound ip s :
  named s -> bounded s ->
  Z.of_nat (length (make_room ip s)) + (if bool_decide (assoc ip (make_room ip s) = None) then 1 else 0) <= MAX_TRACKED_IPS
  /\ named (make_room ip s).
Proof.
  unfold bounded, make_room. intros Hn Hb. case_bool_decide as Ha; simpl.
  - destruct (_ >=? _) eqn:El; bool_to_prop; [|rewrite bool_decide_eq_true_2 by done; split; [lia|done]].
    destruct (oldest_some None s) as [k Hk].
    { right. intros ->. simpl in El. unfold MAX_TRACKED_IPS in El. lia. }
    rewrite Hk. apply oldest_in in Hk as [[? ?]|Hin]; [done|].
    apply list_elem_of_fmap in Hin as ([k' v] & -> & Hin). unfold named in Hn. rewrite Forall_forall in Hn.
    rewrite (Hn _ Hin). cbn [fst].
    assert (Hk : k' ∈ s.*1) by (apply list_elem_of_fmap; by exists (k', v)).
    apply remove_length in Hk. split; [case_bool_decide; lia|].
    apply Forall_forall. intros e [_ He]%list_elem_of_filter. by apply Hn.
  - rewrite bool_decide_eq_false_2 by done. split; [lia|done].
Qed.

Lemma put_length {A} ip (v : A) s : length (put ip v s) = (length s + if bool_decide (assoc ip s = None) then 1 else 0)%nat.
Proof.
  unfold put. destruct (assoc ip s) eqn:E.
  - rewrite set_assoc_length, bool_decide_eq_false_2 by done. lia.
  - rewrite length_app, bool_decide_eq_true_2 by done. done.
Qed.

Lemma put_named ip v s : truthy ip = true -> named s -> named (put ip v s).
Proof.
  intros Ht Hn. unfold put. destruct (assoc ip s) eqn:E; [|apply Forall_app; by rewrite Forall_singleton].
  clear E. unfold named in *. induction Hn as [|[k w] s Hk Hn IH]; [constructor|]. simpl.
  destruct (String.eqb ip k); constructor; done.
Qed.

(** The memory used is bounded: no flood of failures from fresh addresses makes
    the table grow past [MAX_TRACKED_IPS]. *)
Lemma record_bounded cfg ip now s :
  truthy ip = true -> named s -> bounded s -> named (after (record_tx cfg ip now) s) /\ bounded (after (record_tx cfg ip now) s).
Proof.
  intros Ht Hn Hb. unfold after, record_tx. destruct (make_room_bound ip s Hn Hb) as [Hl Hn'].
  destruct (fail_entry _ _ _) as [e|]; simpl; [|done]. split; [by apply put_named|].
  unfold bounded. rewrite put_length. case_bool_decide; lia.
Qed.

(** ** The brute-force guarantee

    Failures of one address, at the given times. *)
Fixpoint record_all (cfg : LockoutConfig) (ip : string) (times : list Z) (s : State) : State :=
  match times with [] => s | t :: r => record_all cfg ip r (after (record_tx cfg ip t) s) end.

Lemma assoc_set_assoc_eq {A} k (v w : A) s : assoc k s = Some w -> assoc k (set_assoc k v s) = Some v.
Proof. intros H. by rewrite assoc_set_assoc, H. Qed.

Lemma clear_view ip f :
  truthy ip = true -> read_file (clearAuthFailures ip f) = after (unlock_tx ip) (read_file f).
Proof. intros Ht. unfold clearAuthFailures. rewrite Ht. by apply on_file_view. Qed.

Lemma unlock_assoc ip ip' s :
  assoc ip' (after (unlock_tx ip) s) = if String.eqb ip' ip then unlock_entry <$> assoc ip s else assoc ip' s.
Proof.
  unfold after, unlock_tx. destruct (String.eqb ip' ip) eqn:E.
  - apply String.eqb_eq in E as ->. destruct (assoc ip s) eqn:Ea; simpl; [by rewrite assoc_set_assoc, Ea|done].
  - apply String.eqb_neq in E. destruct (assoc ip s) eqn:Ea; [|done]. simpl.
    assert (set_assoc ip (unlock_entry i) s = put ip (unlock_entry i) s) as -> by (unfold put; by rewrite Ea).
    apply assoc_put_ne. congruence.
Qed.

(** What happens to the table: a failed and a successful authentication, and an
    administrator unlocking an address. *)
Inductive event := Failed (ip : string) (t : Z) | Succeeded (ip : string) | Unlocks (ip : string).

Definition address_of (e : event) : string := match e with Failed i _ | Succeeded i | Unlocks i => i end.

Definition step (cfg : LockoutConfig) (f : file State) (e : event) : file State :=
  match e with
  | Failed i t => recordAuthFailure cfg i t f
  | Succeeded i => clearAuthFailures i f
  | Unlocks i => snd (unlockIp i f)
  end.

(** From an empty table. *)
Definition run (cfg : LockoutConfig) (evs : list event) : file State := fold_left (step cfg) evs None.

(** The clock does not run backwards. *)
Fixpoint in_order (t : Z) (evs : list event) : Prop :=
  match evs with [] => True | Failed _ u :: r => t <= u /\ in_order u r | _ :: r => in_order t r end.

Lemma set_assoc_keys {A} k (v : A) s : (set_assoc k v s).*1 = s.*1.
Proof.
  induction s as [|[k' x] s IH]; [done|]. cbn [set_assoc]. destruct (String.eqb k k'); rewrite !fmap_cons; [done|by rewrite IH].
Qed.

Lemma assoc_none_keys {A} k (s : list (string * A)) : assoc k s = None -> k ∉ s.*1.
Proof.
  induction s as [|[k' x] s IH]; simpl; [intros _; apply not_elem_of_nil|]. destruct (String.eqb k k') eqn:E; [done|].
  apply String.eqb_neq in E. intros Ha [?|Hin]%elem_of_cons; [done|by apply IH].
Qed.

(** The addresses of the table are among those, each once. *)
Definition among (l : list string) (s : State) : Prop := NoDup s.*1 /\ forall k, k ∈ s.*1 -> k ∈ l.

Lemma among_put l k v s : k ∈ l -> among l s -> among l (put k v s).
Proof.
  intros Hk [Hn Hs]. unfold put, among. destruct (assoc k s) eqn:E; [by rewrite set_assoc_keys|].
  apply assoc_none_keys in E. rewrite fmap_app. cbn [fmap list_fmap fst]. split.
  - apply NoDup_app. split_and!; [done| |apply NoDup_singleton]. by intros x Hx ->%list_elem_of_singleton.
  - intros x [Hx| ->%list_elem_of_singleton]%elem_of_app; auto.
Qed.

Lemma make_room_among l k s : k ∈ l -> among l s -> len l <= MAX_TRACKED_IPS -> make_room k s = s.
Proof.
  intros Hk [Hn Hs] Hl. unfold make_room. case_bool_decide as Ha; [|done]. apply assoc_none_keys in Ha.
  assert (length (k :: s.*1) <= length l)%nat as Hlen.
  { apply submseteq_length, NoDup_submseteq; [by constructor|]. intros x [->|Hx]%elem_of_cons; auto. }
  cbn [length] in Hlen. rewrite length_fmap in Hlen. unfold len in Hl. cbn [andb]. rewrite Z.geb_leb, (proj2 (Z.leb_gt _ _)) by lia. done.
Qed.

Section Guarantee.
Context (cfg : LockoutConfig) (th w c : Z) (ip : string)
  (Hth : threshold cfg = Some th) (Hw : window_seconds cfg = Some w) (Hc : cooldown_seconds cfg = Some c)
  (Hen : enabled cfg = true) (Hip : truthy ip = true) (Hw0 : 0 <= w) (Hc0 : 0 < c).

(** The failures of a list that lie in the window of one at [t], in seconds. *)
Definition in_window (t : Z) (l : list Z) : Z := len (filter (fun u => t / 1000 - w <= u / 1000) l).

(** The failures of the address that count: all of them since the last success,
    unlock or lock, however long ago. *)
Fixpoint counted (since : list Z) (evs : list event) : list Z :=
  match evs with
  | [] => since
  | Failed i t :: r =>
      if String.eqb i ip then counted (if th <=? in_window t (since ++ [t]) then [] else since ++ [t]) r else counted since r
  | Succeeded i :: r | Unlocks i :: r => counted (if String.eqb i ip then [] else since) r
  end.

Definition entry_in (s : State) : IpState := default new_ip (assoc ip s).

(** The table remembers what counts, up to what has left the window. *)
Definition remembers (l : list string) (t : Z) (since : list Z) (s : State) : Prop :=
  among l s /\ failures (entry_in s) = filter (fun u => t / 1000 - w <= u) ((fun u => u / 1000) <$> since).

Lemma pruned t u since : t <= u ->
  pruneFailures (filter (fun x => t / 1000 - w <= x) ((fun x => x / 1000) <$> since)) (window_seconds cfg) (u / 1000) ++ [u / 1000] =
  filter (fun x => u / 1000 - w <= x) ((fun x => x / 1000) <$> (since ++ [u])).
Proof using Hw Hw0.
  intros Htu. pose proof (Z.div_le_mono t u 1000 ltac:(lia) Htu) as Hd. rewrite Hw. cbn [pruneFailures]. rewrite list_filter_filter.
  rewrite fmap_app, filter_app. cbn [fmap list_fmap]. rewrite filter_cons_True by lia. f_equal. apply list_filter_iff. intros x. lia.
Qed.

Lemma in_window_length t l : Z.of_nat (length (filter (fun x => t / 1000 - w <= x) ((fun x => x / 1000) <$> l))) = in_window t l.
Proof using.
  unfold in_window, len. induction l as [|x l IH]; [done|]. rewrite fmap_cons, !filter_cons. destruct (decide _); simpl; lia.
Qed.

(** One failure of the address. *)
Lemma failed_here l t u since f : among l (read_file f) -> ip ∈ l -> len l <= MAX_TRACKED_IPS -> remembers l t since (read_file f) -> t <= u ->
  let s' := read_file (step cfg f (Failed ip u)) in
  remembers l u (if th <=? in_window u (since ++ [u]) then [] else since ++ [u]) s' /\
  locked_until (entry_in s') = if th <=? in_window u (since ++ [u]) then Some (u + c * 1000) else locked_until (entry_in (read_file f)).
Proof using Hth Hw Hc Hen Hip Hw0.
  intros Ha Hin Hl [_ Hf] Htu. cbv zeta. cbn [step]. unfold recordAuthFailure. rewrite Hip, Hen. cbn [negb].
  rewrite on_file_view by done. unfold after, record_tx. rewrite (make_room_among l) by done.
  fold (entry_in (read_file f)). unfold fail_entry. rewrite Hf, pruned, in_window_length, Hth, Z.geb_leb by done.
  unfold remembers. destruct (th <=? _); rewrite ?Hc; cbn [snd default id from_option]; unfold entry_in, id; rewrite !assoc_put_eq; (split; [split; [by apply among_put|done]|done]).
Qed.

Lemma entry_put k v s : k <> ip -> entry_in (put k v s) = entry_in s.
Proof. intros Hk. unfold entry_in. by rewrite assoc_put_ne. Qed.

(** One of another address. *)
Lemma failed_there l k u f : among l (read_file f) -> k ∈ l -> len l <= MAX_TRACKED_IPS -> k <> ip ->
  among l (read_file (step cfg f (Failed k u))) /\ entry_in (read_file (step cfg f (Failed k u))) = entry_in (read_file f).
Proof using Hen.
  intros Ha Hk Hl Hne. cbn [step]. unfold recordAuthFailure. destruct (negb (truthy k)); [done|]. rewrite Hen. cbn [negb].
  rewrite on_file_view by done. unfold after, record_tx. rewrite (make_room_among l) by done.
  destruct (fail_entry _ _ _) as [e|]; cbn [snd default]; [|done]. split; [by apply among_put|by apply entry_put].
Qed.

Lemma unlock_among l k s : among l s -> among l (after (unlock_tx k) s).
Proof. intros Ha. unfold after, unlock_tx, among. destruct (assoc k s); cbn; [|done]. by rewrite set_assoc_keys. Qed.

Lemma unlock_entry_in k s : entry_in (after (unlock_tx k) s) = if String.eqb k ip then unlock_entry (entry_in s) else entry_in s.
Proof.
  unfold entry_in. rewrite unlock_assoc, String.eqb_sym. destruct (String.eqb k ip) eqn:E; [|done]. apply String.eqb_eq in E as ->.
  by destruct (assoc ip s).
Qed.

Lemma clears_view k f e : e = Succeeded k \/ e = Unlocks k -> read_file (step cfg f e) = after (unlock_tx k) (read_file f) \/
  truthy k = false /\ read_file (step cfg f e) = read_file f.
Proof.
  intros [->| ->]; cbn [step].
  - destruct (truthy k) eqn:Ek; [left; by apply clear_view|right]. unfold clearAuthFailures. by rewrite Ek.
  - left. by apply on_file_view.
Qed.

Lemma cleared_remembers l t since k f e : e = Succeeded k \/ e = Unlocks k -> remembers l t since (read_file f) ->
  remembers l t (if String.eqb k ip then [] else since) (read_file (step cfg f e)) /\
  locked_until (entry_in (read_file (step cfg f e))) = if String.eqb k ip then None else locked_until (entry_in (read_file f)).
Proof using Hip.
  intros He [Ha Hf]. destruct (clears_view k f e He) as [->|[Hk ->]].
  - unfold remembers. rewrite unlock_entry_in. destruct (String.eqb k ip); (split; [split; [by apply unlock_among|done]|done]).
  - assert (String.eqb k ip = false) as ->; [|done]. apply String.eqb_neq. intros ->. by rewrite Hip in Hk.
Qed.

Lemma counted_app since evs evs' : counted since (evs ++ evs') = counted (counted since evs) evs'.
Proof. revert since; induction evs as [|[i t|i|i] evs IH]; intros since; cbn [app counted]; [done|destruct (String.eqb i ip)|..]; apply IH. Qed.

Lemma in_order_app t evs rest : in_order t (evs ++ rest) -> exists t', t <= t' /\ in_order t' rest.
Proof.
  revert t; induction evs as [|[i u|i|i] evs IH]; intros t; cbn [app in_order]; [by exists t| |apply IH..].
  intros [Ht (t' & Ht' & H)%IH]. exists t'. split; [lia|done].
Qed.

Lemma run_remembers l evs rest : Forall (fun e => address_of e ∈ l) evs -> len l <= MAX_TRACKED_IPS -> in_order 0 (evs ++ rest) ->
  exists t, in_order t rest /\ remembers l t (counted [] evs) (read_file (run cfg evs)).
Proof using Hth Hw Hc Hen Hip Hw0.
  intros Hl Hlen. unfold run. assert (remembers l 0 [] (read_file (None : file State))) as H0.
  { split; [|done]. split; [apply NoDup_nil_2|]. by intros k ?%elem_of_nil. }
  revert H0. generalize 0 as t, (@nil Z) as since, (None : file State) as f. induction Hl as [|e evs He Hl IH]; intros t since f Hr Ho; [by exists t|].
  destruct e as [i u|i|i]; cbn [app in_order counted fold_left address_of] in *.
  - destruct Ho as [Htu Ho]. destruct (String.eqb i ip) eqn:Ei.
    + apply String.eqb_eq in Ei as ->. apply (IH u); [|done]. apply (failed_here l t u since f); try done. apply Hr.
    + apply String.eqb_neq in Ei. destruct Hr as [Ha Hf]. destruct (failed_there l i u f Ha He Hlen Ei) as [Ha' He'].
      apply (IH t); [split; [done|by rewrite He']|]. clear -Htu Ho. revert u Htu Ho. induction (evs ++ rest) as [|[j v|j|j] r IHr]; intros u Htu; cbn [in_order]; eauto. intros [? ?]. split; [lia|done].
  - apply (IH t); [|done]. by apply cleared_remembers; [left|].
  - apply (IH t); [|done]. by apply cleared_remembers; [right|].
Qed.

Lemma decide_entry now s : decideLockout cfg ip now s =
  match locked_until (entry_in s) with
  | None => Unlocked
  | Some until => if until <=? now then Unlocked else Locked (Z.max 1 (ceil_seconds (until - now))) until
  end.
Proof using Hen Hip. unfold decideLockout, entry_in. rewrite Hip, Hen. cbn [negb]. by destruct (assoc ip s). Qed.

(** C31. The lock trips at the threshold, not before, and lasts the cooldown.
    Take any history of failures, successes and unlocks of any addresses, from an
    empty table and in order of time, with at most 10000 addresses in all (beyond
    that the table forgets the oldest). At the start an address is let through. A
    failure of the address locks it exactly when, with this one, the failures
    since its last success, unlock or lock that lie in the window number the
    threshold or more, counting in whole seconds; older ones do not count. From
    then on it is refused at every moment before the failure plus the cooldown,
    with a retry delay from one second to the cooldown, and let through
    afterwards. Any other failure leaves the decision as it was, at every moment;
    a success or an unlock of the address lets it through; and what other
    addresses do changes nothing. *)
Theorem lockout_trips_at_threshold addresses evs e :
  in_order 0 (evs ++ [e]) -> Forall (fun x => address_of x ∈ addresses) (evs ++ [e]) -> len addresses <= 10000 ->
  let decision evs now := decideLockout cfg ip now (read_file (run cfg evs)) in
  let same := forall now, decision (evs ++ [e]) now = decision evs now in
  (forall now, decision [] now = Unlocked) /\
  if negb (String.eqb (address_of e) ip) then same else
  match e with
  | Failed _ t =>
      if th <=? in_window t (counted [] evs ++ [t]) then
        forall now, t <= now ->
          match decision (evs ++ [e]) now with
          | Locked retry until => now < t + c * 1000 /\ until = t + c * 1000 /\ 1 <= retry <= c
          | Unlocked => t + c * 1000 <= now
          end
      else same
  | Succeeded _ | Unlocks _ => forall now, decision (evs ++ [e]) now = Unlocked
  end.
Proof using Hth Hw Hc Hen Hip Hw0 Hc0.
  intros Ho Hl Hlen. cbv zeta. apply Forall_app in Hl as [Hl [He _]%Forall_cons].
  destruct (run_remembers addresses evs [e] Hl Hlen Ho) as (t0 & Ho' & Hr). pose proof Hr as [Ha _].
  assert (run cfg (evs ++ [e]) = step cfg (run cfg evs) e) as Hrun by (unfold run; by rewrite fold_left_app).
  split; [intros now; by rewrite decide_entry|]. destruct e as [i t|i|i]; cbn [address_of in_order] in *.
  - destruct (String.eqb i ip) eqn:Ei; cbn [negb].
    + apply String.eqb_eq in Ei as ->. destruct Ho' as [Ht _].
      destruct (failed_here addresses t0 t (counted [] evs) (run cfg evs) Ha He Hlen Hr Ht) as [_ Hu].
      destruct (th <=? _); intros now; [intros Hnow|]; rewrite !decide_entry, Hrun, Hu; [|done].
      destruct (_ <=? now) eqn:E; bool_to_prop; [done|]. split; [done|]. split; [done|]. unfold ceil_seconds.
      split; [lia|]. apply Z.max_lub; [lia|]. Z.to_euclidean_division_equations; lia.
    + apply String.eqb_neq in Ei. intros now. destruct (failed_there addresses i t (run cfg evs) Ha He Hlen Ei) as [_ Hu].
      by rewrite !decide_entry, Hrun, Hu.
  - destruct (cleared_remembers _ _ _ i _ _ (or_introl eq_refl) Hr) as [_ Hu]. destruct (String.eqb i ip); cbn [negb]; intros now; by rewrite !decide_entry, Hrun, Hu.
  - destruct (cleared_remembers _ _ _ i _ _ (or_intror eq_refl) Hr) as [_ Hu]. destruct (String.eqb i ip); cbn [negb]; intros now; by rewrite !decide_entry, Hrun, Hu.
Qed.
End Guarantee.

(** One address cannot touch another: as long as the table has room, a
    failure, a success or an unlock of one address leaves the decision about
    every other one unchanged at all times. *)
Theorem lockout_per_address cfg ip ip' now s :
  ip <> ip' -> assoc ip s <> None \/ Z.of_nat (length s) < MAX_TRACKED_IPS ->
  (forall t, decideLockout cfg ip' t (after (record_tx cfg ip now) s) = decideLockout cfg ip' t s) /\
  (forall t, decideLockout cfg ip' t (after (unlock_tx ip) s) = decideLockout cfg ip' t s).
Proof.
  intros Hne Hroom.
  assert (Hmr : make_room ip s = s).
  { unfold make_room. case_bool_decide as Hd; [|done]. destruct Hroom as [|Hlt]; [done|].
    simpl. by rewrite Z.geb_leb, (proj2 (Z.leb_gt _ _)) by done. }
  assert (Hr : assoc ip' (after (record_tx cfg ip now) s) = assoc ip' s).
  { unfold after, record_tx. rewrite Hmr. destruct (fail_entry _ _ _); [|done]. by apply assoc_put_ne. }
  assert (Hu : assoc ip' (after (unlock_tx ip) s) = assoc ip' s).
  { unfold after, unlock_tx. destruct (assoc ip s) eqn:E; [|done]. simpl.
    assert (set_assoc ip (unlock_entry i) s = put ip (unlock_entry i) s) as -> by (unfold put; by rewrite E).
    by apply assoc_put_ne. }
  split; intros t; unfold decideLockout; by rewrite ?Hr, ?Hu.
Qed.

(** A threshold that is not a number disables the lockout while it is
    reported as enabled: [validateConfig] turns it into [NaN], which no count
    reaches, so no number of failures ever locks an address. *)
Theorem nan_threshold_never_locks input ip times s now :
  raw_threshold input = Some NaN ->
  Forall (fun e => locked_until (snd e) = None) s ->
  decideLockout (fst (setConfig input {| config_file := None; cachedConfig := None |})) ip now
    (record_all (validateConfig input) ip times s) = Unlocked.
Proof.
  intros Hn Hs. cbn [fst setConfig].
  assert (Hth : threshold (validateConfig input) = None) by (unfold validateConfig; simpl; by rewrite Hn).
  assert (Hall : Forall (fun e => locked_until (snd e) = None) (record_all (validateConfig input) ip times s)).
  { revert s Hs; induction times as [|t r IH]; intros s Hs; [done|]. simpl. apply IH.
    unfold after, record_tx. assert (Hm : Forall (fun e => locked_until (snd e) = None) (make_room ip s)).
    { unfold make_room. destruct (_ && _); [|done]. destruct (oldest _ _) as [k|]; [|done].
      destruct (truthy k); [|done]. by apply Forall_filter_keep. }
    destruct (fail_entry _ t _) as [e|] eqn:Ef; [|done]. simpl. unfold fail_entry in Ef. rewrite Hth in Ef.
    assert (Hu : locked_until e = None).
    { injection Ef as <-. simpl. destruct (assoc ip _) as [e0|] eqn:Ea; [|done]. simpl. apply assoc_Some_elem in Ea.
      rewrite Forall_forall in Hm. by apply (Hm _ Ea). }
    clear Ef IH. unfold put. destruct (assoc ip _) eqn:Ea; [|apply Forall_app; by rewrite Forall_singleton].
    clear Ea. induction Hm as [|[k v] q Hq Hm IH]; [constructor|]. simpl. destruct (String.eqb ip k); by constructor. }
  unfold decideLockout. destruct (negb (truthy ip)); [done|]. destruct (negb _); [done|].
  destruct (assoc ip _) as [e|] eqn:Ea; [|done]. apply assoc_Some_elem in Ea. rewrite Forall_forall in Hall.
  apply Hall in Ea. cbn [snd] in Ea. by rewrite Ea.
Qed.

(** ** What authentication relies on *)
Class Lockout (L : Type) := {
  lk_decide : string -> Z -> L -> LockoutDecision;
  lk_fail : string -> Z -> L -> L;
  lk_clear : string -> L -> L;
  lk_clear_unlocks ip now l : lk_decide ip now (lk_clear ip l) = Unlocked;
  lk_clear_other ip ip' now l : ip <> ip' -> lk_decide ip' now (lk_clear ip l) = lk_decide ip' now l;
}.

(** The store, under the configuration in force. *)
#[export] Program Instance store_lockout : Lockout (LockoutConfig * file State) := {|
  lk_decide ip now l := decideLockout (fst l) ip now (read_file (snd l));
  lk_fail ip now l := (fst l, recordAuthFailure (fst l) ip now (snd l));
  lk_clear ip l := (fst l, clearAuthFailures ip (snd l)) |}.
Next Obligation.
  intros ip now [cfg f]. simpl. unfold decideLockout. destruct (truthy ip) eqn:Ht; [|done]. cbn [negb].
  destruct (negb _); [done|]. rewrite clear_view by done. rewrite unlock_assoc, String.eqb_refl.
  by destruct (assoc ip (read_file f)).
Qed.
Next Obligation.
  intros ip ip' now [cfg f] Hne. simpl. destruct (truthy ip) eqn:Ht.
  - unfold decideLockout. rewrite clear_view by done. rewrite unlock_assoc.
    by rewrite (proj2 (String.eqb_neq ip' ip)) by congruence.
  - unfold clearAuthFailures. by rewrite Ht.
Qed.

Section Demo.
Definition demo_config : LockoutConfig :=
  {| threshold := Some 3; window_seconds := Some 300; cooldown_seconds := Some 900; enabled := true |}.
Definition demo_state : State := [("203.0.113.9", new_ip); ("198.51.100.7", new_ip)].

(** Three failures in five minutes lock; when the first one is older, they do not. *)
Definition demo_evs (first : Z) : list event :=
  [Failed "203.0.113.9" first; Failed "198.51.100.7" 300000; Failed "203.0.113.9" 305000].

Lemma lockout_trips_at_threshold_witness :
  decideLockout demo_config "203.0.113.9" 320000 (read_file (run demo_config (demo_evs 300000 ++ [Failed "203.0.113.9" 309000]))) <> Unlocked /\
  decideLockout demo_config "203.0.113.9" 320000 (read_file (run demo_config (demo_evs 5000 ++ [Failed "203.0.113.9" 309000]))) = Unlocked.
Proof.
  split.
  - destruct (lockout_trips_at_threshold demo_config 3 300 900 "203.0.113.9" eq_refl eq_refl eq_refl eq_refl eq_refl
      ltac:(vm_compute; discriminate) eq_refl ["203.0.113.9"; "198.51.100.7"] (demo_evs 300000) (Failed "203.0.113.9" 309000)) as [_ Hx].
    + cbn. lia.
    + apply (bool_decide_unpack _). vm_compute. exact I.
    + vm_compute. discriminate.
    + specialize (Hx 320000 ltac:(vm_compute; discriminate)). intros E. rewrite E in Hx. vm_compute in Hx. apply Hx. reflexivity.
  - destruct (lockout_trips_at_threshold demo_config 3 300 900 "203.0.113.9" eq_refl eq_refl eq_refl eq_refl eq_refl
      ltac:(vm_compute; discriminate) eq_refl ["203.0.113.9"; "198.51.100.7"] (demo_evs 5000) (Failed "203.0.113.9" 309000)) as [_ Hx].
    + cbn. lia.
    + apply (bool_decide_unpack _). vm_compute. exact I.
    + vm_compute. discriminate.
    + etransitivity; [exact (Hx 320000)|vm_compute; reflexivity].
Defined.

Lemma lockout_per_address_witness :
  decideLockout demo_config "198.51.100.7" 20000 (after (record_tx demo_config "203.0.113.9" 9000) demo_state) = Unlocked.
Proof.
  rewrite (proj1 (lockout_per_address demo_config "203.0.113.9" "198.51.100.7" 9000 demo_state
    ltac:(discriminate) ltac:(left; discriminate))). reflexivity.
Defined.

Lemma nan_threshold_never_locks_witness :
  let input := {| raw_threshold := Some NaN; raw_window := None; raw_cooldown := None; raw_enabled := true |} in
  enabled (validateConfig input) = true /\
  decideLockout (validateConfig input) "203.0.113.9" 9001
    (record_all (validateConfig input) "203.0.113.9" (replicate 50 9000) []) = Unlocked.
Proof.
  intros input. split; [reflexivity|].
  exact (nan_threshold_never_locks input "203.0.113.9" (replicate 50 9000) [] 9001 eq_refl (Forall_nil_2 _)).
Defined.

End Demo.
