(* ===== verification/KeyStore.v ===== *)
(** API keys and authentication: [web/lib/keyStore.ts]. The lockout is used
    through the interface [Lockout]; SHA-256 is a parameter; ids and secrets
    come from the random generator and are arguments. *)
From S2P Require Import Prelude JsNum JsDate IsoTime Json Store Interleave AuthLockout.

Inductive Scope := read | trade | admin.
Inductive KeyRole := owner | role_admin | member | viewer.

#[export] Instance Scope_eq_dec : EqDecision Scope.
Proof. solve_decision. Defined.
#[export] Instance KeyRole_eq_dec : EqDecision KeyRole.
Proof. solve_decision. Defined.

Definition roleToScopes (r : KeyRole) : list Scope :=
  match r with
  | owner | role_admin => [admin; read; trade]
  | member => [read; trade]
  | viewer => [read]
  end.

Definition inferRole (scopes : list Scope) : KeyRole :=
  if bool_decide (admin ∈ scopes) then role_admin
  else if bool_decide (trade ∈ scopes) then member
  else viewer.

Definition ALL_ROLES : list (string * KeyRole) :=
  [("owner", owner); ("admin", role_admin); ("member", member); ("viewer", viewer)].

Record StoredKey := {
  id : string;
  label : string;
  prefix : string;
  hash : string;
  scopes : list Scope;
  role : option KeyRole;
  created_at : iso;
  last_used_at : option iso;
  revoked : bool;
  ip_allowlist : list string;
  route_allowlist : list string;
  expires_at : option iso;
  suspended : bool;
  suspended_at : option iso;
  suspended_reason : option string;
}.

(** [Store.keys]; the file is only written by this module. *)
Abbreviation keys := (list StoredKey).

#[export] Program Instance keys_persisted : Persisted keys := {|
  raw := keys; encode s := s; decode s := s; absent := []; storable _ := True |}.
Next Obligation. done. Qed.

(** ** Field updates *)

Definition with_role (r : KeyRole) (k : StoredKey) : StoredKey :=
  {| id := id k; label := label k; prefix := prefix k; hash := hash k; scopes := roleToScopes r; role := Some r;
     created_at := created_at k; last_used_at := last_used_at k; revoked := revoked k;
     ip_allowlist := ip_allowlist k; route_allowlist := route_allowlist k; expires_at := expires_at k;
     suspended := suspended k; suspended_at := suspended_at k; suspended_reason := suspended_reason k |}.

Definition with_label (l : string) (k : StoredKey) : StoredKey :=
  {| id := id k; label := l; prefix := prefix k; hash := hash k; scopes := scopes k; role := role k;
     created_at := created_at k; last_used_at := last_used_at k; revoked := revoked k;
     ip_allowlist := ip_allowlist k; route_allowlist := route_allowlist k; expires_at := expires_at k;
     suspended := suspended k; suspended_at := suspended_at k; suspended_reason := suspended_reason k |}.

Definition with_suspension (s : bool) (at_ : option iso) (why : option string) (k : StoredKey) : StoredKey :=
  {| id := id k; label := label k; prefix := prefix k; hash := hash k; scopes := scopes k; role := role k;
     created_at := created_at k; last_used_at := last_used_at k; revoked := revoked k;
     ip_allowlist := ip_allowlist k; route_allowlist := route_allowlist k; expires_at := expires_at k;
     suspended := s; suspended_at := at_; suspended_reason := why |}.

Definition with_expiry (e : option iso) (k : StoredKey) : StoredKey :=
  {| id := id k; label := label k; prefix := prefix k; hash := hash k; scopes := scopes k; role := role k;
     created_at := created_at k; last_used_at := last_used_at k; revoked := revoked k;
     ip_allowlist := ip_allowlist k; route_allowlist := route_allowlist k; expires_at := e;
     suspended := suspended k; suspended_at := suspended_at k; suspended_reason := suspended_reason k |}.

Definition with_allowlists (ips routes : list string) (k : StoredKey) : StoredKey :=
  {| id := id k; label := label k; prefix := prefix k; hash := hash k; scopes := scopes k; role := role k;
     created_at := created_at k; last_used_at := last_used_at k; revoked := revoked k;
     ip_allowlist := ips; route_allowlist := routes; expires_at := expires_at k;
     suspended := suspended k; suspended_at := suspended_at k; suspended_reason := suspended_reason k |}.

Definition mark_revoked (k : StoredKey) : StoredKey :=
  {| id := id k; label := label k; prefix := prefix k; hash := hash k; scopes := scopes k; role := role k;
     created_at := created_at k; last_used_at := last_used_at k; revoked := true;
     ip_allowlist := ip_allowlist k; route_allowlist := route_allowlist k; expires_at := expires_at k;
     suspended := suspended k; suspended_at := suspended_at k; suspended_reason := suspended_reason k |}.

Definition mark_used (now : Z) (k : StoredKey) : StoredKey :=
  {| id := id k; label := label k; prefix := prefix k; hash := hash k; scopes := scopes k; role := role k;
     created_at := created_at k; last_used_at := Some (Iso now); revoked := revoked k;
     ip_allowlist := ip_allowlist k; route_allowlist := route_allowlist k; expires_at := expires_at k;
     suspended := suspended k; suspended_at := suspended_at k; suspended_reason := suspended_reason k |}.

(** ** Predicates *)

Definition isExpired (k : StoredKey) (now : Z) : bool :=
  match expires_at k with
  | None => false
  | Some e => if negb (iso_truthy e) then false
              else match date_parse e with Some t => t <=? now | None => false end
  end.

Section Keys.
(** [crypto.createHash("sha256").update(s).digest("hex")]. *)
Context (sha256 : string -> string).

(** ** The administrator's operations

    Each finds the key, refuses when it does not exist or is revoked, changes
    it in place and writes the store. *)
Inductive KeyError := invalid_role | invalid_label | invalid_expiry.

Abbreviation key_tx := (transaction keys (result (option StoredKey) KeyError)).

(** The shared shape; [f] may still refuse the change. *)
Definition on_key (i : string) (f : StoredKey -> result StoredKey KeyError) : key_tx := fun ks =>
  match list_find (fun k => id k = i) ks with
  | None => (Ok None, None)
  | Some (n, k) =>
      if revoked k then (Ok None, None)
      else match f k with
           | Err e => (Err e, None)
           | Ok k' => (Ok (Some k'), Some (<[n := k']> ks))
           end
  end.

Definition refuse : key_tx := fun _ => (Ok None, None).

Definition setKeyRole (i new_role : string) : key_tx :=
  if String.eqb i "env-admin" then refuse
  else match assoc new_role ALL_ROLES with
       | None => fun _ => (Err invalid_role, None)
       | Some r => on_key i (fun k => Ok (with_role r k))
       end.

Definition setKeyLabel (i new_label : string) : key_tx :=
  if String.eqb i "env-admin" then refuse
  else let next := str_take 80 (trim new_label) in
       if negb (truthy next) then fun _ => (Err invalid_label, None)
       else on_key i (fun k => Ok (with_label next k)).

Definition setKeySuspended (now : Z) (i : string) (s : bool) (reason : option string) : key_tx :=
  if String.eqb i "env-admin" then refuse
  else on_key i (fun k =>
    let why := str_take 200 (default "" reason) in
    if s then Ok (with_suspension true (Some (Iso now)) (if truthy why then Some why else None) k)
    else Ok (with_suspension false None None k)).

(** [Date.parse] of a new expiry, which must lie in the future. *)
Definition future_expiry (now : Z) (e : iso) : result iso KeyError :=
  match date_parse e with
  | None => Err invalid_expiry
  | Some t => if t <=? now then Err invalid_expiry else Ok (Iso t)
  end.

Definition setKeyExpiry (now : Z) (i : string) (e : option iso) : key_tx :=
  if String.eqb i "env-admin" then refuse
  else on_key i (fun k =>
    match e with
    | None => Ok (with_expiry None k)
    | Some e => if bool_decide (e = NotADate "") then Ok (with_expiry None k)
                else result_bind (future_expiry now e) (fun t => Ok (with_expiry (Some t) k))
    end).

Definition setKeyIpAllowlist (i : string) (cidrs : list string) : key_tx :=
  on_key i (fun k => Ok (with_allowlists cidrs (route_allowlist k) k)).

Definition setKeyRouteAllowlist (i : string) (routes : list string) : key_tx :=
  if String.eqb i "env-admin" then refuse
  else on_key i (fun k => Ok (with_allowlists (ip_allowlist k) routes k)).

Definition getKey (i : string) (ks : keys) : option StoredKey := snd <$> list_find (fun k => id k = i) ks.

Definition cmp_created (a b : StoredKey) : Z :=
  if str_lt (iso_string (created_at a)) (iso_string (created_at b)) then 1 else -1.

Definition listKeys (ks : keys) : list StoredKey := js_sort cmp_created ks.

Record CreateInput := { in_label : string; in_scopes : list Scope; in_expires_at : option iso }.

Definition grantable (ss : list Scope) : list Scope :=
  let ss := dedup (filter (fun s => s = read \/ s = trade) ss) in
  if (length ss =? 0)%nat then [read] else ss.

Definition new_key (kid secret lbl : string) (ss : list Scope) (now : Z) (e : option iso) : StoredKey :=
  {| id := kid; label := lbl; prefix := str_take 10 secret; hash := sha256 secret; scopes := ss;
     role := Some (inferRole ss); created_at := Iso now; last_used_at := None; revoked := false;
     ip_allowlist := []; route_allowlist := []; expires_at := e;
     suspended := false; suspended_at := None; suspended_reason := None |}.

(** The clock is read for the expiry test and for [created_at]. *)
Definition createKey (clk : clock) (kid secret : string) (input : CreateInput)
  : transaction keys (result (StoredKey * string) KeyError) := fun ks =>
  let l := str_take 80 (trim (in_label input)) in
  let lbl := if truthy l then l else "unlabeled" in
  let ss := grantable (in_scopes input) in
  let expiry := match in_expires_at input with
                | None => Ok None
                | Some e => if iso_truthy e then result_bind (future_expiry (clk 0%nat) e) (fun t => Ok (Some t)) else Ok None
                end in
  match expiry with
  | Err e => (Err e, None)
  | Ok e => let k := new_key kid secret lbl ss (clk 1%nat) e in (Ok (k, secret), Some (ks ++ [k]))
  end.

Definition revokeKey (i : string) : transaction keys bool := fun ks =>
  match list_find (fun k => id k = i) ks with
  | None => (false, None)
  | Some (n, k) => if revoked k then (true, None) else (true, Some (<[n := mark_revoked k]> ks))
  end.

Definition rotated (secret : string) (now : Z) (k : StoredKey) : StoredKey :=
  {| id := id k; label := label k; prefix := str_take 10 secret; hash := sha256 secret; scopes := scopes k;
     role := role k; created_at := Iso now; last_used_at := None; revoked := revoked k;
     ip_allowlist := ip_allowlist k; route_allowlist := route_allowlist k; expires_at := expires_at k;
     suspended := suspended k; suspended_at := suspended_at k; suspended_reason := suspended_reason k |}.

Definition rotateKey (now : Z) (i secret : string) : transaction keys (option (StoredKey * string)) := fun ks =>
  match list_find (fun k => id k = i) ks with
  | None => (None, None)
  | Some (n, k) =>
      if revoked k then (None, None)
      else let k' := rotated secret now k in (Some (k', secret), Some (<[n := k']> ks))
  end.

(** ** Authentication *)

Inductive unauthorized_reason := missing | unknown_key | key_expired | key_suspended.

Inductive AuthenticateStatus :=
| AuthOk (k : StoredKey)
| Unauthorized (r : unauthorized_reason)
| AuthLocked (retry_after_seconds : Z) (locked_until : Z).

Definition timingSafeEqual (a b : string) : bool := (str_len a =? str_len b) && String.eqb a b.

Definition env_admin (adminEnv : string) (now : Z) : StoredKey :=
  {| id := "env-admin"; label := "env admin"; prefix := str_take 10 adminEnv; hash := sha256 adminEnv;
     scopes := [admin; read; trade]; role := Some owner; created_at := Iso 0; last_used_at := Some (Iso now);
     revoked := false; ip_allowlist := []; route_allowlist := []; expires_at := None;
     suspended := false; suspended_at := None; suspended_reason := None |}.

(** The part of [authenticateWithStatus] that reads and writes the keys: the
    clock is read by [isExpired] and for [last_used_at]. *)
Definition lookup_tx (clk : clock) (secret : string) : transaction keys AuthenticateStatus := fun ks =>
  match list_find (fun k => hash k = sha256 secret /\ revoked k = false) ks with
  | None => (Unauthorized unknown_key, None)
  | Some (n, k) =>
      if isExpired k (clk 1%nat) then (Unauthorized key_expired, None)
      else if suspended k then (Unauthorized key_suspended, None)
      else let k' := mark_used (clk 2%nat) k in (AuthOk k', Some (<[n := k']> ks))
  end.

Section Authenticate.
Context {L : Type} `{Lockout L}.

(** [ip] is [None] when no request is given. An empty address is not tracked. *)
Definition authenticateWithStatus (clk : clock) (adminEnv : option string) (secret : string) (ip : option string)
    (f : file keys) (l : L) : AuthenticateStatus * file keys * L :=
  let ip := default "" ip in
  let decision := if truthy ip then lk_decide ip (clk 0%nat) l else Unlocked in
  match decision with
  | Locked retry until => (AuthLocked retry until, f, l)
  | Unlocked =>
      if negb (truthy secret) then (Unauthorized missing, f, l) else
      let clear l := if truthy ip then lk_clear ip l else l in
      let by_env := match adminEnv with
                    | Some a => if truthy a && timingSafeEqual secret a then Some a else None
                    | None => None
                    end in
      match by_env with
      | Some a => (AuthOk (env_admin a (clk 1%nat)), f, clear l)
      | None =>
          let '(r, f') := on_file (lookup_tx clk secret) f in
          match r with
          | AuthOk k => (r, f', clear l)
          | Unauthorized unknown_key => (r, f', if truthy ip then lk_fail ip (clk 1%nat) l else l)
          | _ => (r, f', l)
          end
      end
  end.

Definition authenticate clk adminEnv secret ip f l : option StoredKey * file keys * L :=
  let '(r, f', l') := authenticateWithStatus clk adminEnv secret ip f l in
  (match r with AuthOk k => Some k | _ => None end, f', l').
End Authenticate.

(** [/^bearer\s+(\S+)/i] on the authorization header, else [x-api-key]. *)
Fixpoint take_word (s : string) : string :=
  match s with "" => "" | String c r => if is_space c then "" else String c (take_word r) end.

Definition extractKey (headers : gmap string string) : string :=
  let auth := default "" (headers !! "authorization") in
  let rest := str_drop 6 auth in
  let word := take_word (trim_start rest) in
  if String.eqb (to_lower (str_take 6 auth)) "bearer" && negb (String.eqb (trim_start rest) rest) && truthy word
  then word
  else default "" (headers !! "x-api-key").

(** ** Histories *)

Inductive event :=
| SetRole (i r : string)
| SetLabel (i l : string)
| SetSuspended (now : Z) (i : string) (s : bool) (why : option string)
| SetExpiry (now : Z) (i : string) (e : option iso)
| SetIps (i : string) (l : list string)
| SetRoutes (i : string) (l : list string)
| Create (clk : clock) (kid secret : string) (input : CreateInput)
| Revoke (i : string)
| Rotate (now : Z) (i secret : string)
| Lookup (clk : clock) (secret : string).

Definition run (e : event) : keys -> keys :=
  match e with
  | SetRole i r => after (setKeyRole i r)
  | SetLabel i l => after (setKeyLabel i l)
  | SetSuspended now i s why => after (setKeySuspended now i s why)
  | SetExpiry now i e => after (setKeyExpiry now i e)
  | SetIps i l => after (setKeyIpAllowlist i l)
  | SetRoutes i l => after (setKeyRouteAllowlist i l)
  | Create clk kid secret input => after (createKey clk kid secret input)
  | Revoke i => after (revokeKey i)
  | Rotate now i secret => after (rotateKey now i secret)
  | Lookup clk secret => after (lookup_tx clk secret)
  end.

Definition run_all (es : list event) (ks : keys) : keys := fold_left (fun ks e => run e ks) es ks.

(** What any operation may do to a key: a revoked one never changes, no one's
    identity does, and no operation but [setKeyRole] touches the scopes. *)
Definition key_step (k k' : StoredKey) : Prop := id k' = id k /\ (revoked k = true -> k' = k).

#[export] Instance key_step_preorder : PreOrder key_step.
Proof.
  split; [by intros k|]. intros a b c [E1 Hb] [E2 Hc]. split; [congruence|].
  intros Ha. specialize (Hb Ha) as ->. by apply Hc.
Qed.

Definition same_scopes (k k' : StoredKey) : Prop := scopes k' = scopes k.
#[export] Instance same_scopes_preorder : PreOrder same_scopes.
Proof. split; [by intros k|]. intros a b c. unfold same_scopes. congruence. Qed.

(** One operation: the keys in place change along [R], at most one is added. *)
Lemma on_key_grows (R : relation StoredKey) `{!Reflexive R} i f ks :
  (forall k k', revoked k = false -> f k = Ok k' -> R k k') -> grows R ks (after (on_key i f) ks).
Proof.
  intros Hf. unfold after, on_key. destruct (list_find _ ks) as [[n k]|] eqn:E; [|reflexivity].
  destruct (revoked k) eqn:Er; [reflexivity|]. destruct (f k) as [k'|] eqn:Ef; [|reflexivity].
  apply list_find_lookup in E as [Hl _]. eapply grows_update; [done|exact Hl|]. by apply Hf.
Qed.

Lemma key_step_alive k k' : revoked k = false -> id k' = id k -> key_step k k'.
Proof. intros Hr Hi. split; [done|]. by rewrite Hr. Qed.

Lemma grows_keys R `{!Reflexive R} e ks :
  (forall i r k, e = SetRole i r -> forall ro, R k (with_role ro k) \/ revoked k = true) ->
  (forall k l, revoked k = false -> R k (with_label l k)) ->
  (forall k a b c, revoked k = false -> R k (with_suspension a b c k)) ->
  (forall k x, revoked k = false -> R k (with_expiry x k)) ->
  (forall k a b, revoked k = false -> R k (with_allowlists a b k)) ->
  (forall k, revoked k = false -> R k (mark_revoked k)) ->
  (forall k s now, revoked k = false -> R k (rotated s now k)) ->
  (forall k now, revoked k = false -> R k (mark_used now k)) ->
  grows R ks (run e ks).
Proof.
  intros Hrole Hlabel Hsusp Hexp Hallow Hrev Hrot Hused.
  destruct e as [i r|i l|now i s why|now i e|i l|i l|clk kid secret input|i|now i secret|clk secret]; cbn [run].
  - unfold setKeyRole. destruct (String.eqb i _); [reflexivity|]. destruct (assoc r ALL_ROLES) as [ro|]; [|reflexivity].
    apply on_key_grows; [done|]. intros k k' Hr [= <-]. destruct (Hrole i r k eq_refl ro); [done|congruence].
  - unfold setKeyLabel. destruct (String.eqb i _); [reflexivity|]. cbn zeta. destruct (negb _); [reflexivity|].
    apply on_key_grows; [done|]. intros k k' Hr [= <-]. auto.
  - unfold setKeySuspended. destruct (String.eqb i _); [reflexivity|].
    apply on_key_grows; [done|]. intros k k' Hr. cbn zeta. destruct s; intros [= <-]; auto.
  - unfold setKeyExpiry. destruct (String.eqb i _); [reflexivity|].
    apply on_key_grows; [done|]. intros k k' Hr. destruct e as [e|]; [|intros [= <-]; auto].
    case_bool_decide; [intros [= <-]; auto|]. destruct (future_expiry now e); simpl; [|done]. intros [= <-]; auto.
  - apply on_key_grows; [done|]. intros k k' Hr [= <-]. auto.
  - unfold setKeyRouteAllowlist. destruct (String.eqb i _); [reflexivity|].
    apply on_key_grows; [done|]. intros k k' Hr [= <-]. auto.
  - unfold after, createKey. cbn zeta. destruct (match in_expires_at input with Some _ => _ | None => _ end); [|reflexivity].
    by apply grows_app.
  - unfold after, revokeKey. destruct (list_find _ ks) as [[n k]|] eqn:E; [|reflexivity].
    destruct (revoked k) eqn:Er; [reflexivity|]. apply list_find_lookup in E as [Hl _].
    eapply grows_update; eauto.
  - unfold after, rotateKey. destruct (list_find _ ks) as [[n k]|] eqn:E; [|reflexivity].
    destruct (revoked k) eqn:Er; [reflexivity|]. apply list_find_lookup in E as [Hl _].
    eapply grows_update; eauto.
  - unfold after, lookup_tx. destruct (list_find _ ks) as [[n k]|] eqn:E; [|reflexivity].
    apply list_find_lookup in E as [Hl [_ Hr]].
    destruct (isExpired _ _); [reflexivity|]. destruct (suspended k); [reflexivity|]. eapply grows_update; eauto.
Qed.

Lemma run_key_step e ks : grows key_step ks (run e ks).
Proof.
  apply grows_keys; [apply _|..]; intros; try (by apply key_step_alive).
  destruct (revoked k) eqn:Er; [by right|left; by apply key_step_alive].
Qed.

Lemma run_all_key_step es ks : grows key_step ks (run_all es ks).
Proof.
  revert ks; induction es as [|e es IH]; intros ks; [reflexivity|]. etrans; [apply run_key_step|apply IH].
Qed.

(** Keys that [createKey] mints. *)
Definition minted (k : StoredKey) : Prop :=
  exists clk kid secret input e, k = new_key kid secret (label k) (grantable (in_scopes input)) (clk 1%nat) e.

Lemma on_key_length i f ks : length (after (on_key i f) ks) = length ks.
Proof.
  unfold after, on_key. destruct (list_find _ ks) as [[n k]|]; [|done]. destruct (revoked k); [done|].
  destruct (f k); [|done]. simpl. apply length_insert.
Qed.

Lemma run_minted e ks : Forall minted (drop (length ks) (run e ks)).
Proof.
  assert (Hsame : forall l : keys, length l = length ks -> Forall minted (drop (length ks) l))
    by (intros l <-; by rewrite drop_all).
  destruct e as [i r|i l|now i s why|now i e|i l|i l|clk kid secret input|i|now i secret|clk secret]; cbn [run].
  - unfold setKeyRole. destruct (String.eqb i _); [by apply Hsame|]. destruct (assoc r ALL_ROLES); [|by apply Hsame].
    apply Hsame, on_key_length.
  - unfold setKeyLabel. destruct (String.eqb i _); [by apply Hsame|]. cbn zeta. destruct (negb _); [by apply Hsame|].
    apply Hsame, on_key_length.
  - unfold setKeySuspended. destruct (String.eqb i _); [by apply Hsame|]. apply Hsame, on_key_length.
  - unfold setKeyExpiry. destruct (String.eqb i _); [by apply Hsame|]. apply Hsame, on_key_length.
  - apply Hsame, on_key_length.
  - unfold setKeyRouteAllowlist. destruct (String.eqb i _); [by apply Hsame|]. apply Hsame, on_key_length.
  - unfold after, createKey. cbn zeta. destruct (match in_expires_at input with Some _ => _ | None => _ end) as [e|]; [|by apply Hsame].
    simpl. rewrite drop_app_length. apply Forall_singleton. by exists clk, kid, secret, input, e.
  - unfold after, revokeKey. destruct (list_find _ ks) as [[n k]|]; [|by apply Hsame].
    destruct (revoked k); [by apply Hsame|]. apply Hsame, length_insert.
  - unfold after, rotateKey. destruct (list_find _ ks) as [[n k]|]; [|by apply Hsame].
    destruct (revoked k); [by apply Hsame|]. apply Hsame, length_insert.
  - unfold after, lookup_tx. destruct (list_find _ ks) as [[n k]|]; [|by apply Hsame].
    destruct (isExpired _ _); [by apply Hsame|]. destruct (suspended k); [by apply Hsame|]. apply Hsame, length_insert.
Qed.

Definition sets_role (e : event) : bool := match e with SetRole _ _ => true | _ => false end.

Lemma run_scopes e ks : sets_role e = false -> grows same_scopes ks (run e ks).
Proof. intros He. apply grows_keys; try apply _; try done. by intros i r k ->. Qed.

Lemma grantable_no_admin ss : admin ∉ grantable ss.
Proof.
  unfold grantable. case_match; [by intros ?%list_elem_of_singleton|].
  rewrite dedup_elem, list_elem_of_filter. intros [[|] _]; done.
Qed.

Lemma lookup_ok_inv clk secret ks k :
  fst (lookup_tx clk secret ks) = AuthOk k ->
  exists n k0, list_find (fun k => hash k = sha256 secret /\ revoked k = false) ks = Some (n, k0) /\
    isExpired k0 (clk 1%nat) = false /\ suspended k0 = false /\ k = mark_used (clk 2%nat) k0 /\
    snd (lookup_tx clk secret ks) = Some (<[n := k]> ks).
Proof.
  unfold lookup_tx. destruct (list_find _ ks) as [[n k0]|]; [|done]. destruct (isExpired _ _) eqn:Ee; [done|].
  destruct (suspended k0) eqn:Es; [done|]. intros [= <-]. exists n, k0. done.
Qed.

Lemma lookup_unknown clk secret ks :
  (forall m k, ks !! m = Some k -> hash k = sha256 secret -> revoked k = true) ->
  fst (lookup_tx clk secret ks) = Unauthorized unknown_key.
Proof.
  intros Hn. unfold lookup_tx. destruct (list_find _ ks) as [[n k]|] eqn:E; [|done].
  apply list_find_lookup in E as [Hl [Hh Hr]]. rewrite (Hn _ _ Hl Hh) in Hr. done.
Qed.

(** C8. Revocation is final: once [revokeKey] has found the key, no further
    sequence of operations, administrative or not, changes it in any way, and
    the secrets that only it recognises are refused for ever. *)
Theorem revoke_is_final i ks n k es clk secret :
  list_find (fun k => id k = i) ks = Some (n, k) ->
  let ks' := run_all es (run (Revoke i) ks) in
  fst (revokeKey i ks) = true /\ ks' !! n = Some (mark_revoked k) /\
  ((forall m k', ks' !! m = Some k' -> hash k' = sha256 secret -> m = n) ->
   fst (lookup_tx clk secret ks') = Unauthorized unknown_key).
Proof.
  intros Hf ks'. assert (Hrun : run (Revoke i) ks !! n = Some (mark_revoked k)).
  { pose proof (list_find_lookup _ _ _ _ Hf) as [Hl _]. simpl. unfold after, revokeKey. rewrite Hf.
    destruct (revoked k) eqn:Er; simpl; [|apply list_lookup_insert_eq; by eapply lookup_lt_Some].
    rewrite Hl. f_equal. destruct k. simpl in *. by subst. }
  split; [unfold revokeKey; rewrite Hf; by destruct (revoked k)|].
  assert (Hn : ks' !! n = Some (mark_revoked k)).
  { destruct (run_all_key_step es (run (Revoke i) ks)) as (l1 & new & Heq & HF). unfold ks'. rewrite Heq.
    destruct (Forall2_lookup_l _ _ _ _ _ HF Hrun) as (k' & Hk' & _ & Hr). rewrite (Hr eq_refl) in Hk'.
    by apply lookup_app_l_Some. }
  split; [done|]. intros Hu. apply lookup_unknown. intros m k' Hm Hh. rewrite (Hu m k' Hm Hh) in Hm. by simplify_eq.
Qed.

(** Admin rights come from [setKeyRole] alone: over any history of other
    operations, whatever scopes the callers of [createKey] ask for, no key has
    the admin scope unless it had it before. *)
Theorem admin_only_by_role es ks :
  Forall (fun e => sets_role e = false) es ->
  Forall (fun k => admin ∉ scopes k) ks -> Forall (fun k => admin ∉ scopes k) (run_all es ks).
Proof.
  intros Hes. revert ks. induction Hes as [|e es He Hes IH]; intros ks Hk; [done|]. apply IH.
  destruct (run_scopes e ks He) as (l1 & new & Heq & HF). pose proof (run_minted e ks) as Hm.
  rewrite Heq in Hm |- *. rewrite (Forall2_length _ _ _ HF), drop_app_length in Hm. apply Forall_app. split.
  - rewrite Forall_forall in Hk |- *. intros k' Hk'. apply list_elem_of_lookup in Hk' as [m Hm'].
    destruct (Forall2_lookup_r _ _ _ _ _ HF Hm') as (k & Hl & Hs). rewrite Hs.
    apply Hk. by eapply list_elem_of_lookup_2.
  - eapply Forall_impl; [exact Hm|]. intros k (c & kid & sec & input & ex & Hx). rewrite Hx. apply grantable_no_admin.
Qed.

(** Rotation swaps the secret and nothing else: the id, label, scopes, role
    and restrictions stay, the new secret is accepted while the key is live, and
    the old one stops working at once, unless another key shares a hash. *)
Theorem rotate_swaps_secret now i secret old ks k' s ks' clk n k :
  rotateKey now i secret ks = (Some (k', s), Some ks') ->
  list_find (fun k => id k = i) ks = Some (n, k) ->
  (forall m x, ks !! m = Some x -> hash x = sha256 old \/ hash x = sha256 secret -> m = n) ->
  sha256 old <> sha256 secret ->
  (id k' = id k /\ label k' = label k /\ scopes k' = scopes k /\ role k' = role k /\
   ip_allowlist k' = ip_allowlist k /\ route_allowlist k' = route_allowlist k /\ expires_at k' = expires_at k) /\
  fst (lookup_tx clk old ks') = Unauthorized unknown_key /\
  (isExpired k' (clk 1%nat) = false -> suspended k = false ->
   fst (lookup_tx clk secret ks') = AuthOk (mark_used (clk 2%nat) k')).
Proof.
  intros Hrot Hf Hu Hne. unfold rotateKey in Hrot. rewrite Hf in Hrot.
  destruct (revoked k) eqn:Er; [done|]. injection Hrot as <- _ <-. split; [done|].
  pose proof (list_find_lookup _ _ _ _ Hf) as [Hl _]. pose proof (lookup_lt_Some _ _ _ Hl) as Hlt.
  assert (Hother : forall m x, <[n := rotated secret now k]> ks !! m = Some x ->
            m <> n -> hash x <> sha256 old /\ hash x <> sha256 secret).
  { intros m x Hm Hmn. rewrite list_lookup_insert_ne in Hm by done.
    split; intros Hh; apply Hmn; eapply Hu; eauto. }
  assert (Hself : <[n := rotated secret now k]> ks !! n = Some (rotated secret now k)) by (by apply list_lookup_insert_eq).
  split.
  - apply lookup_unknown. intros m x Hm Hh. destruct (decide (m = n)) as [->|Hmn].
    + rewrite Hself in Hm. injection Hm as <-. simpl in Hh. by rewrite Hh in Hne.
    + by apply (Hother m x Hm) in Hmn as [? _].
  - intros He Hs. unfold lookup_tx. assert (list_find (fun k => hash k = sha256 secret /\ revoked k = false)
       (<[n := rotated secret now k]> ks) = Some (n, rotated secret now k)) as ->.
    { apply list_find_Some. split; [done|]. split; [done|]. intros m x Hm Hmn [Hh _].
      by apply (Hother m x Hm) in Hh; [|lia]. }
    rewrite He. simpl. by rewrite Hs.
Qed.

(** The outcome of an authentication, branch by branch, with everything it
    changes: a locked address is turned away before any secret is looked at; no
    secret and an expired or suspended key change nothing and count for
    nothing; a wrong secret is counted against the address; success requires
    the environment key or a live key with that hash, lifts the address's
    failures and touches no key but the one used, in its last use. *)
Theorem authenticate_outcome {L} `{Lockout L} clk adminEnv secret ip f (l : L) :
  let '(r, f', l') := authenticateWithStatus clk adminEnv secret (Some ip) f l in
  match r with
  | AuthLocked retry until => truthy ip = true /\ lk_decide ip (clk 0%nat) l = Locked retry until /\ f' = f /\ l' = l
  | Unauthorized missing => secret = "" /\ f' = f /\ l' = l
  | Unauthorized unknown_key =>
      (forall k, k ∈ read_file f -> hash k = sha256 secret -> revoked k = true) /\
      f' = f /\ l' = if truthy ip then lk_fail ip (clk 1%nat) l else l
  | Unauthorized _ => f' = f /\ l' = l
  | AuthOk k =>
      (truthy ip = true -> lk_decide ip (clk 0%nat) l = Unlocked /\ forall now, lk_decide ip now l' = Unlocked) /\
      ((adminEnv = Some secret /\ id k = "env-admin" /\ f' = f) \/
       exists n k0, read_file f !! n = Some k0 /\ hash k0 = sha256 secret /\ revoked k0 = false /\
         isExpired k0 (clk 1%nat) = false /\ suspended k0 = false /\
         k = mark_used (clk 2%nat) k0 /\ read_file f' = <[n := k]> (read_file f))
  end.
Proof.
  unfold authenticateWithStatus. change (default "" (Some ip)) with ip. cbn zeta.
  destruct (if truthy ip then lk_decide ip (clk 0%nat) l else Unlocked) as [|retry until] eqn:Ed.
  2:{ destruct (truthy ip); [|done]. done. }
  assert (Hun : truthy ip = true -> lk_decide ip (clk 0%nat) l = Unlocked) by (intros Ht; by rewrite Ht in Ed).
  assert (Hcl : truthy ip = true -> forall now, lk_decide ip now (if truthy ip then lk_clear ip l else l) = Unlocked).
  { intros -> now. apply lk_clear_unlocks. }
  destruct (truthy secret) eqn:Es; cbn [negb]; [|by apply truthy_false in Es].
  destruct (match adminEnv with Some _ => _ | None => _ end) as [a|] eqn:Ea.
  { split; [auto|]. left. destruct adminEnv as [a'|]; [|done].
    destruct (truthy a' && timingSafeEqual secret a') eqn:Et; [|done]. injection Ea as ->.
    apply andb_prop in Et as [_ Et]. unfold timingSafeEqual in Et. apply andb_prop in Et as [_ Et%String.eqb_eq].
    by subst. }
  unfold on_file. destruct (lookup_tx clk secret (read_file f)) as [r w] eqn:El.
  unfold lookup_tx in El. destruct (list_find _ (read_file f)) as [[n k0]|] eqn:Ef.
  - apply list_find_lookup in Ef as [Hl [Hh Hr]]. destruct (isExpired k0 (clk 1%nat)) eqn:Ee; [injection El as <- <-; done|].
    destruct (suspended k0) eqn:Esu; [injection El as <- <-; done|]. injection El as <- <-.
    split; [auto|]. right. exists n, k0. rewrite read_write by done. done.
  - injection El as <- <-. split; [|done]. intros k Hk Hh. apply list_find_None in Ef. rewrite Forall_forall in Ef.
    destruct (revoked k) eqn:Er; [done|]. by destruct (Ef k Hk).
Qed.

(** The write of an authentication can undo a revocation: when a request
    reads the keys before [revokeKey] writes them and stores its [last_used_at]
    after, the key is live again and goes on authenticating, although
    [revokeKey] has answered that it is revoked. *)
Theorem authentication_undoes_revocation clk secret i ks n k0 k :
  list_find (fun k => id k = i) ks = Some (n, k0) ->
  list_find (fun k => hash k = sha256 secret /\ revoked k = false) ks = Some (n, k0) ->
  fst (lookup_tx clk secret ks) = AuthOk k ->
  let c := perform_all [silently (revokeKey i); silently (lookup_tx clk secret)]
             [Read 0; Read 1; Write 0; Write 1] (start ks) in
  fst (revokeKey i ks) = true /\ shared c !! n = Some k /\ revoked k = false /\
  fst (lookup_tx clk secret (shared c)) = AuthOk k.
Proof.
  intros Hi Hh Hok c.
  destruct (lookup_ok_inv _ _ _ _ Hok) as (n' & k1 & Hf & He & Hs & -> & Hw). rewrite Hh in Hf. injection Hf as <- <-.
  pose proof (list_find_lookup _ _ _ _ Hh) as [Hl [Hha Hr]]. pose proof (lookup_lt_Some _ _ _ Hl) as Hlt.
  destruct (overlap_results (silently (revokeKey i)) (silently (lookup_tx clk secret)) ks) as (_ & _ & Hsh).
  fold c in Hsh. unfold silently in Hsh. cbn [snd] in Hsh. rewrite Hw in Hsh. cbn [from_option] in Hsh.
  assert (Hself : shared c !! n = Some (mark_used (clk 2%nat) k0)) by (rewrite Hsh; by apply list_lookup_insert_eq).
  split; [unfold revokeKey; rewrite Hi, Hr; done|]. split; [done|]. split; [done|].
  unfold lookup_tx. assert (list_find (fun k => hash k = sha256 secret /\ revoked k = false) (shared c) =
    Some (n, mark_used (clk 2%nat) k0)) as ->.
  { apply list_find_Some. split; [done|]. split; [done|]. intros m x Hm Hmn.
    rewrite Hsh, list_lookup_insert_ne in Hm by lia. apply list_find_Some in Hh as (_ & _ & Hh). by eapply Hh. }
  change (isExpired (mark_used (clk 2%nat) k0) (clk 1%nat)) with (isExpired k0 (clk 1%nat)). rewrite He.
  simpl. by rewrite Hs.
Qed.

End Keys.

(** [setKeyRole] keeps the role and the scopes together, [createKey] does not:
    a key asked for with the trade scope alone is labelled "member", whose
    scopes are read and trade. *)
Lemma created_role_drifts sha256 clk kid secret :
  match fst (createKey sha256 clk kid secret {| in_label := ""; in_scopes := [trade]; in_expires_at := None |} []) with
  | Ok (k, _) => role k = Some member /\ scopes k <> roleToScopes member
  | Err _ => False
  end.
Proof. by split. Qed.

Lemma setKeyRole_synchronised i r ks k ks' :
  setKeyRole i r ks = (Ok (Some k), Some ks') ->
  exists ro, assoc r ALL_ROLES = Some ro /\ role k = Some ro /\ scopes k = roleToScopes ro.
Proof.
  unfold setKeyRole. destruct (String.eqb i _); [done|]. destruct (assoc r ALL_ROLES) as [ro|]; [|done].
  unfold on_key. destruct (list_find _ ks) as [[n k0]|]; [|done]. destruct (revoked k0); [done|].
  intros [= <- <-]. by exists ro.
Qed.

(** ** Two keys, with the identity in place of SHA-256 *)
Section Demo.
Definition demo_hash (s : string) : string := s.
Definition at_ (t : Z) : clock := fun _ => t.
Definition demo_keys : keys :=
  run_all demo_hash
    [Create (at_ 1000) "k1" "sc_live_one" {| in_label := "ci"; in_scopes := [read; admin]; in_expires_at := None |};
     Create (at_ 2000) "k2" "sc_live_two" {| in_label := ""; in_scopes := []; in_expires_at := Some (Iso 900000) |}] [].
Definition demo_k1 : StoredKey := new_key demo_hash "k1" "sc_live_one" "ci" [read] 1000 None.

Lemma demo_find : list_find (fun k => id k = "k1") demo_keys = Some (0%nat, demo_k1).
Proof. vm_compute. reflexivity. Qed.

Lemma revoke_is_final_witness :
  let ks' := run_all demo_hash [SetSuspended 5000 "k1" false None; Rotate 6000 "k1" "sc_live_new"; SetRole "k1" "owner";
                                Lookup (at_ 7000) "sc_live_one"] (run demo_hash (Revoke "k1") demo_keys) in
  fst (lookup_tx demo_hash (at_ 8000) "sc_live_one" ks') = Unauthorized unknown_key.
Proof.
  intros ks'. apply (revoke_is_final demo_hash "k1" demo_keys 0 demo_k1
    [SetSuspended 5000 "k1" false None; Rotate 6000 "k1" "sc_live_new"; SetRole "k1" "owner"; Lookup (at_ 7000) "sc_live_one"]
    (at_ 8000) "sc_live_one" demo_find).
  intros [|[|m]] k'; [done|intros [= <-]; discriminate|discriminate].
Defined.

Lemma admin_only_by_role_witness :
  Forall (fun k => admin ∉ scopes k) (run_all demo_hash [Rotate 6000 "k1" "x"; Lookup (at_ 7000) "x"] demo_keys).
Proof.
  apply admin_only_by_role; [repeat constructor|].
  repeat constructor; intros Hx; apply list_elem_of_singleton in Hx; discriminate.
Defined.

Lemma rotate_swaps_secret_witness :
  match rotateKey demo_hash 6000 "k1" "sc_live_new" demo_keys with
  | (Some (k', _), Some ks') =>
      fst (lookup_tx demo_hash (at_ 7000) "sc_live_one" ks') = Unauthorized unknown_key /\
      fst (lookup_tx demo_hash (at_ 7000) "sc_live_new" ks') = AuthOk (mark_used 7000 k')
  | _ => False
  end.
Proof.
  destruct (rotateKey demo_hash 6000 "k1" "sc_live_new" demo_keys) as [[[k' s]|] [ks'|]] eqn:E;
    [|revert E; vm_compute; discriminate..].
  destruct (rotate_swaps_secret demo_hash 6000 "k1" "sc_live_new" "sc_live_one" demo_keys k' s ks' (at_ 7000) 0 demo_k1
    E demo_find) as (_ & Hold & Hnew).
  - intros [|[|m]] k0; [done|intros [= <-] [|]; discriminate|discriminate].
  - discriminate.
  - split; [exact Hold|]. apply Hnew; [|reflexivity]. revert E. vm_compute. intros E. injection E as <- _ _. reflexivity.
Defined.

Lemma authentication_undoes_revocation_witness :
  let c := perform_all [silently (revokeKey "k1"); silently (lookup_tx demo_hash (at_ 3000) "sc_live_one")]
             [Read 0; Read 1; Write 0; Write 1] (start demo_keys) in
  fst (lookup_tx demo_hash (at_ 3000) "sc_live_one" (shared c)) = AuthOk (mark_used 3000 demo_k1).
Proof.
  intros c. apply (authentication_undoes_revocation demo_hash (at_ 3000) "sc_live_one" "k1" demo_keys 0 demo_k1
    (mark_used 3000 demo_k1) demo_find); vm_compute; reflexivity.
Defined.

End Demo.
