(* ===== verification/Runs.v ===== *)
(** Saved runs: [web/lib/runStore.ts], a JSON file of at most [MAX_RUNS] runs
    with tags, notes and pins, and the query behind the history pages. Ids come
    from the random generator and are arguments. [localeCompare] and the parser
    of dates in other than the ISO format belong to the engine's locale and are
    parameters. The retention sweep that [listRuns] starts is in [Retention]. *)
From S2P Require Import Prelude JsNum JsDate IsoTime Json Store.

Definition MAX_RUNS : Z := 500.
Definition MAX_NOTES_LEN : nat := 2000.
Definition MAX_TAGS_PER_RUN : nat := 8.

(** ** Notes and tags *)

(** [/[\u0000-\u0008\u000B-\u001F\u007F]/]. *)
Definition is_control (c : Ascii.ascii) : bool :=
  let n := code c in (n <=? 8) || ((11 <=? n) && (n <=? 31)) || (n =? 127).

Definition normalizeNotes (input : jval) : string :=
  match input with
  | Some (JStr s) => str_take MAX_NOTES_LEN (trim (keep_chars (fun c => negb (is_control c)) s))
  | _ => ""
  end.

Definition is_lower_alnum (c : Ascii.ascii) : bool :=
  let n := code c in ((97 <=? n) && (n <=? 122)) || ((48 <=? n) && (n <=? 57)).
Definition tag_char (c : Ascii.ascii) : bool := is_lower_alnum c || Ascii.eqb c "-".

(** [TAG_RE]: a letter or digit, then at most 23 letters, digits and dashes. *)
Definition TAG_RE (s : string) : bool :=
  match s with "" => false | String c r => is_lower_alnum c && (str_len r <=? 23) && str_forall tag_char r end.

(** [s.replace(/\s+/g, "-")]: [run] tells that the white space being read has
    been replaced already. *)
Fixpoint dash_spaces (run : bool) (s : string) : string :=
  match s with
  | "" => ""
  | String c r => if is_space c then (if run then dash_spaces true r else String "-" (dash_spaces true r))
                  else String c (dash_spaces false r)
  end.

Definition clean_tag (raw : string) : string := keep_chars tag_char (dash_spaces false (to_lower (trim raw))).

Fixpoint tags_loop (seen : list string) (arr : list json) : list string :=
  match arr with
  | [] => []
  | JStr raw :: r =>
      let t := clean_tag raw in
      if negb (truthy t) || negb (TAG_RE t) then tags_loop seen r
      else if bool_decide (t ∈ seen) then tags_loop seen r
      else if (MAX_TAGS_PER_RUN <=? S (length seen))%nat then [t] else t :: tags_loop (t :: seen) r
  | _ :: r => tags_loop seen r
  end.

Definition normalizeTags (input : jval) : list string := tags_loop [] (array_or_empty input).

(** ** Runs *)

Record Snapshot := {
  s_label : string; realized_vol : num; trend_slope : num; drawdown : num; confidence : num; risk_scale : num; as_of : string }.

Record Payload := {
  p_ticker : string; dates : list string; close : list num; regime : list (option string); counts : list (string * num);
  snapshot : option Snapshot; disclaimer : string }.

(** The fields added over time may be missing from an older row: [None] is
    [undefined]. [pinned_at] is [null] in the inner option. *)
Record SavedRun := {
  id : string; label : string; ticker : string; lookback_days : num; created_at : iso;
  tags : option (list string); notes : option string; pinned : option bool; pinned_at : option (option iso);
  created_by_key_id : option string; created_by_key_label : option string; payload : Payload }.

#[export] Instance Snapshot_eq_dec : EqDecision Snapshot.
Proof. solve_decision. Defined.
#[export] Instance Payload_eq_dec : EqDecision Payload.
Proof. solve_decision. Defined.
#[export] Instance SavedRun_eq_dec : EqDecision SavedRun.
Proof. solve_decision. Defined.

Definition ensureTags (r : SavedRun) : SavedRun :=
  {| id := id r; label := label r; ticker := ticker r; lookback_days := lookback_days r; created_at := created_at r;
     tags := Some (default [] (tags r)); notes := Some (default "" (notes r)); pinned := Some (default false (pinned r));
     pinned_at := Some (default None (pinned_at r));
     created_by_key_id := created_by_key_id r; created_by_key_label := created_by_key_label r; payload := payload r |}.

Abbreviation runs := (list SavedRun).

(** [readStore] fills in the missing fields; a state is read back as written when
    nothing is missing from it. *)
#[export] Program Instance runs_persisted : Persisted runs := {|
  raw := runs; encode s := s; decode s := ensureTags <$> s; absent := []; storable s := ensureTags <$> s = s |}.
Next Obligation. done. Qed.

(** Assignments to the fields of a row. *)
Definition with_pin (on : bool) (now : Z) (r : SavedRun) : SavedRun :=
  {| id := id r; label := label r; ticker := ticker r; lookback_days := lookback_days r; created_at := created_at r;
     tags := tags r; notes := notes r; pinned := Some on; pinned_at := Some (if on then Some (Iso now) else None);
     created_by_key_id := created_by_key_id r; created_by_key_label := created_by_key_label r; payload := payload r |}.

Definition with_label (l : string) (r : SavedRun) : SavedRun :=
  {| id := id r; label := l; ticker := ticker r; lookback_days := lookback_days r; created_at := created_at r;
     tags := tags r; notes := notes r; pinned := pinned r; pinned_at := pinned_at r;
     created_by_key_id := created_by_key_id r; created_by_key_label := created_by_key_label r; payload := payload r |}.

Definition with_tags (ts : list string) (r : SavedRun) : SavedRun :=
  {| id := id r; label := label r; ticker := ticker r; lookback_days := lookback_days r; created_at := created_at r;
     tags := Some ts; notes := notes r; pinned := pinned r; pinned_at := pinned_at r;
     created_by_key_id := created_by_key_id r; created_by_key_label := created_by_key_label r; payload := payload r |}.

Definition with_notes (n : string) (r : SavedRun) : SavedRun :=
  {| id := id r; label := label r; ticker := ticker r; lookback_days := lookback_days r; created_at := created_at r;
     tags := tags r; notes := Some n; pinned := pinned r; pinned_at := pinned_at r;
     created_by_key_id := created_by_key_id r; created_by_key_label := created_by_key_label r; payload := payload r |}.

(** [const r = s.runs.find((r) => r.id === id)], changed by [f] and written back;
    the row is returned as [post] leaves it. *)
Definition edit_tx (key : string) (f post : SavedRun -> SavedRun) : transaction runs (option SavedRun) := fun s =>
  match list_find (fun r => id r = key) s with
  | None => (None, None)
  | Some (i, r) => (Some (post (f r)), Some (<[i := f r]> s))
  end.

Definition setRunPinned key (on : bool) (now : Z) (f : file runs) := on_file (edit_tx key (with_pin on now) ensureTags) f.
Definition renameRun key l (f : file runs) := on_file (edit_tx key (with_label l) ensureTags) f.
Definition setRunTags key v (f : file runs) := on_file (edit_tx key (with_tags (normalizeTags v)) (fun r => r)) f.
Definition setRunNotes key v (f : file runs) := on_file (edit_tx key (with_notes (normalizeNotes v)) ensureTags) f.

Definition str_newest (key : SavedRun -> string) (a b : SavedRun) : Z := if str_lt (key a) (key b) then 1 else -1.

Definition created (r : SavedRun) : string := iso_string (created_at r).

(** [a.pinned_at ?? a.created_at]. *)
Definition pin_time (r : SavedRun) : string :=
  match pinned_at r with Some (Some t) => iso_string t | _ => created r end.

Definition is_pinned (r : SavedRun) : bool := default false (pinned r).

Definition listPinnedRuns (limit : Z) (f : file runs) : runs :=
  take (Z.to_nat (Z.max 1 (Z.min limit 50)))
    (js_sort (str_newest pin_time) (filter (fun r => is_pinned r = true) (ensureTags <$> read_file f))).

Definition listRuns (f : file runs) : runs := js_sort (str_newest created) (read_file f).

Definition getRun (key : string) (f : file runs) : option SavedRun := snd <$> list_find (fun r => id r = key) (read_file f).

Record RunInput := {
  in_label : string; in_ticker : string; in_lookback_days : num; in_tags : jval; in_notes : option string;
  in_key_id : option string; in_key_label : option string; in_payload : Payload }.

Definition new_run (input : RunInput) (newId : string) (now : Z) : SavedRun :=
  {| id := newId; label := in_label input; ticker := in_ticker input; lookback_days := in_lookback_days input; created_at := Iso now;
     tags := Some (normalizeTags (in_tags input)); notes := in_notes input; pinned := None; pinned_at := None;
     created_by_key_id := in_key_id input; created_by_key_label := in_key_label input; payload := in_payload input |}.

(** The bound on the size of the store. *)
Definition bound_size (s : runs) : runs :=
  if len s >? MAX_RUNS then take (Z.to_nat MAX_RUNS) (js_sort (str_newest created) s) else s.

Definition create_tx (input : RunInput) (newId : string) (now : Z) : transaction runs SavedRun := fun s =>
  let run := new_run input newId now in (run, Some (bound_size (s ++ [run]))).

Definition createRun input newId now (f : file runs) := on_file (create_tx input newId now) f.

Definition delete_tx (key : string) : transaction runs bool := fun s =>
  let s' := filter (fun r => id r <> key) s in if len s' =? len s then (false, None) else (true, Some s').

Definition deleteRun key (f : file runs) := on_file (delete_tx key) f.

(** ** Bulk operations *)

Inductive BulkAction := BDelete | BPin | BUnpin | BAddTags | BRemoveTags | BSetTags.

#[export] Instance BulkAction_eq_dec : EqDecision BulkAction.
Proof. solve_decision. Defined.

Record BulkResult := { requested : Z; matched : Z; affected : Z; ids : list string }.

(** The pass over the matched rows: a row that [f] changes is replaced and its id
    reported. *)
Fixpoint bulk_pass (hit : string -> bool) (f : SavedRun -> option SavedRun) (s : runs) : runs * list string :=
  match s with
  | [] => ([], [])
  | r :: rest =>
      let '(rest', out) := bulk_pass hit f rest in
      if hit (id r) then match f r with Some r' => (r' :: rest', id r :: out) | None => (r :: rest', out) end
      else (r :: rest', out)
  end.

Definition pin_row (target : bool) (now : Z) (r : SavedRun) : option SavedRun :=
  if Bool.eqb (is_pinned r) target then None else Some (with_pin target now r).

Definition tags_json (ts : list string) : jval := Some (JArr (JStr <$> ts)).

Definition tag_row (action : BulkAction) (incoming : list string) (r : SavedRun) : option SavedRun :=
  let before := normalizeTags (tags_json (default [] (tags r))) in
  let next := match action with
    | BSetTags => incoming
    | BAddTags => normalizeTags (tags_json (before ++ incoming))
    | _ => filter (fun t => t ∉ incoming) before
    end in
  if bool_decide (before = next) then None else Some (with_tags next r).

Definition bulk_tx (rawIds : list json) (action : BulkAction) (tags_ : jval) (now : Z) : transaction runs BulkResult := fun s =>
  let uniq := dedup (filter (fun v => truthy v = true) (strings_of rawIds)) in
  let matchedIds := filter (fun i => i ∈ (id <$> s)) uniq in
  let hit i := bool_decide (i ∈ matchedIds) in
  let report aff := {| requested := len uniq; matched := len matchedIds; affected := len aff; ids := aff |} in
  match action with
  | BDelete =>
      let s' := filter (fun r => hit (id r) = false) s in
      (report matchedIds, if len s' =? len s then None else Some s')
  | _ =>
      let f := match action with BPin => pin_row true now | BUnpin => pin_row false now
               | _ => tag_row action (normalizeTags tags_) end in
      let '(s', aff) := bulk_pass hit f s in (report aff, if len aff >? 0 then Some s' else None)
  end.

Definition bulkRunOp rawIds action tags_ now (f : file runs) := on_file (bulk_tx rawIds action tags_ now) f.

(** ** Tag counts *)

Definition count_tag (m : list (string * Z)) (t : string) : list (string * Z) :=
  match assoc t m with Some n => set_assoc t (n + 1) m | None => m ++ [(t, 1)] end.

Section Queries.
Context (localeCompare : string -> string -> Z) (other_dates : string -> option Z).

Definition listTags (f : file runs) : list (string * Z) :=
  js_sort (fun a b => let d := snd b - snd a in if d =? 0 then localeCompare (fst a) (fst b) else d)
    (fold_left (fun m r => fold_left count_tag (default [] (tags r)) m) (read_file f) []).

(** ** Queries *)

Definition parse_date (s : string) : option Z := match parse_iso s with Some t => Some t | None => other_dates s end.

Definition BARE_DATE_RE (s : string) : bool :=
  match read 4 0 s with
  | Some (_, String "-" s) => match read 2 0 s with
    | Some (_, String "-" s) => match read 2 0 s with Some (_, "") => true | _ => false end
    | _ => false end
  | _ => false
  end.

(** [parseSinceMs] and [parseUntilMs]: a bare date is completed to its first or
    its last millisecond. *)
Definition bound_ms (completion : string) (raw_ : option string) : option Z :=
  match raw_ with
  | None => None
  | Some x =>
      if negb (truthy x) then None else
      let s := trim x in
      if negb (truthy s) then None else parse_date (if BARE_DATE_RE s then s +:+ completion else s)
  end.

Definition parseSinceMs := bound_ms "T00:00:00.000Z".
Definition parseUntilMs := bound_ms "T23:59:59.999Z".

Inductive SortOrder := recent | oldest | by_ticker | by_confidence | by_bars.
Inductive OwnerFilter := AllRuns | OwnerOrUnowned (keyId : string).

Record QueryOpts := {
  q : option string; o_regime : option string; o_ticker : option string; o_tag : option string; o_pinned : bool;
  since : option string; until : option string; minConfidence : option num; maxConfidence : option num;
  minBars : option num; maxBars : option num; limit : option Z; offset : option Z; sort : option SortOrder;
  ownerFilter : option OwnerFilter }.

(** [if (cond) filtered = filtered.filter(p)]. *)
Definition when_ (cond : bool) (p : SavedRun -> bool) (l : runs) : runs := if cond then filter (fun r => p r = true) l else l.

Definition lower_of (s : option string) : string := to_lower (trim (default "" s)).

Definition owner_ok (o : option OwnerFilter) (r : SavedRun) : bool :=
  match o with
  | Some (OwnerOrUnowned keyId) => match created_by_key_id r with None => true | Some w => String.eqb w keyId end
  | _ => true
  end.

Definition text_ok (t : string) (r : SavedRun) : bool :=
  str_includes t (to_lower (label r)) || str_includes t (to_lower (ticker r)) || str_includes t (to_lower (id r)) ||
  existsb (str_includes t) (default [] (tags r)) || str_includes t (to_lower (default "" (notes r))).

Definition regime_of (r : SavedRun) : string := to_lower (default "" (s_label <$> snapshot (payload r))).

Definition after_ (t : option Z) (r : SavedRun) : bool :=
  match t, date_parse (created_at r) with Some t, Some c => t <=? c | _, _ => false end.
Definition before_ (t : option Z) (r : SavedRun) : bool :=
  match t, date_parse (created_at r) with Some t, Some c => c <=? t | _, _ => false end.

Definition unit_interval (n : option num) : bool :=
  match n with Some n => is_finite n && num_le (int 0) n && num_le n (int 1) | None => false end.

Definition conf_ok (ok : num -> num -> bool) (bound : option num) (r : SavedRun) : bool :=
  match bound, snapshot (payload r) with Some b, Some s => is_finite (confidence s) && ok (confidence s) b | _, _ => false end.

Definition bars (r : SavedRun) : Z := len (dates (payload r)).

Definition non_negative (n : option num) : bool := match n with Some n => is_finite n && num_le (int 0) n | None => false end.

Definition floor_of (n : option num) : Z := default 0 (floorZ <$> n).

(** The filters of [queryRuns], in its order. *)
Definition matching (opts : QueryOpts) (s : runs) : runs :=
  let text := lower_of (q opts) in
  let reg := lower_of (o_regime opts) in
  let tick := to_upper (trim (default "" (o_ticker opts))) in
  let tagRaw := lower_of (o_tag opts) in
  let tag := if truthy tagRaw && TAG_RE tagRaw then tagRaw else "" in
  let sinceMs := parseSinceMs (since opts) in
  let untilMs := parseUntilMs (until opts) in
  let l := ensureTags <$> s in
  let l := when_ (bool_decide (is_Some (ownerFilter opts))) (owner_ok (ownerFilter opts)) l in
  let l := when_ (truthy text) (text_ok text) l in
  let l := when_ (truthy reg && negb (String.eqb reg "all")) (fun r => String.eqb (regime_of r) reg) l in
  let l := when_ (truthy tick) (fun r => String.eqb (to_upper (ticker r)) tick) l in
  let l := when_ (truthy tag) (fun r => bool_decide (tag ∈ default [] (tags r))) l in
  let l := when_ (o_pinned opts) is_pinned l in
  let l := when_ (bool_decide (is_Some sinceMs)) (after_ sinceMs) l in
  let l := when_ (bool_decide (is_Some untilMs)) (before_ untilMs) l in
  let l := when_ (unit_interval (minConfidence opts)) (conf_ok (fun c b => num_le b c) (minConfidence opts)) l in
  let l := when_ (unit_interval (maxConfidence opts)) (conf_ok (fun c b => num_le c b) (maxConfidence opts)) l in
  let l := when_ (non_negative (minBars opts)) (fun r => floor_of (minBars opts) <=? bars r) l in
  when_ (non_negative (maxBars opts)) (fun r => bars r <=? floor_of (maxBars opts)) l.

Definition cmpRecent (a b : SavedRun) : Z :=
  if str_lt (created a) (created b) then 1 else if str_lt (created b) (created a) then -1 else 0.

(** [snapshot?.confidence ?? -Infinity]. *)
Definition conf_key (r : SavedRun) : num := default (Infinity false) (confidence <$> snapshot (payload r)).

(** [bc !== ac ? bc - ac : tie]; a difference that is [NaN] counts as 0. *)
Definition cmp_desc (a b : num) (tie : Z) : Z :=
  match a, b with
  | NaN, _ | _, NaN => 0
  | _, _ => if num_lt b a then -1 else if num_lt a b then 1 else tie
  end.

Definition cmp_by (o : SortOrder) (a b : SavedRun) : Z :=
  match o with
  | oldest => if str_lt (created a) (created b) then -1 else if str_lt (created b) (created a) then 1 else 0
  | by_ticker => let c := localeCompare (ticker a) (ticker b) in if negb (c =? 0) then c else cmpRecent a b
  | by_confidence => cmp_desc (conf_key a) (conf_key b) (cmpRecent a b)
  | by_bars => if negb (bars b =? bars a) then bars b - bars a else cmpRecent a b
  | recent => cmpRecent a b
  end.

Record QueryResult := { page : runs; total : Z; r_limit : Z; r_offset : Z }.

Definition queryRuns (opts : QueryOpts) (f : file runs) : QueryResult :=
  let lim := Z.min (Z.max (default 25 (limit opts)) 1) 200 in
  let off := Z.max (default 0 (offset opts)) 0 in
  let filtered := js_sort (cmp_by (default recent (sort opts))) (matching opts (read_file f)) in
  {| page := take (Z.to_nat lim) (drop (Z.to_nat off) filtered); total := len filtered; r_limit := lim; r_offset := off |}.
End Queries.

(** ** Tags are in normal form *)

Lemma lower_alnum_lower c : is_lower_alnum c = true -> lower_ascii c = c.
Proof. unfold is_lower_alnum, lower_ascii. cbv zeta. intros H. destruct ((65 <=? code c) && (code c <=? 90)) eqn:E; [lia|done]. Qed.

Lemma tag_char_lower c : tag_char c = true -> lower_ascii c = c /\ is_space c = false.
Proof.
  unfold tag_char. intros [H|H]%orb_prop.
  - split; [by apply lower_alnum_lower|]. unfold is_lower_alnum, is_space in *. cbv zeta in *. lia.
  - apply Ascii.eqb_eq in H as ->. done.
Qed.

Lemma TAG_RE_chars t : TAG_RE t = true -> str_forall tag_char t = true.
Proof.
  destruct t as [|c r]; [done|]. cbn [TAG_RE str_forall]. intros [[Hc _]%andb_prop Hr]%andb_prop. unfold tag_char at 1. by rewrite Hc.
Qed.

Lemma TAG_RE_truthy t : TAG_RE t = true -> truthy t = true.
Proof. by destruct t. Qed.

(** Characters of tags are left alone by every step of the cleaning. *)
Lemma clean_tag_id t : str_forall tag_char t = true -> clean_tag t = t.
Proof.
  intros Ht. unfold clean_tag. rewrite trim_no_space.
  2: { eapply str_forall_impl; [|exact Ht]. intros c Hc. apply tag_char_lower in Hc as [_ ->]. done. }
  assert (to_lower t = t /\ dash_spaces false t = t) as [-> ->]; [|by apply keep_chars_id].
  clear -Ht. induction t as [|c t IH]; [done|]. cbn [str_forall] in Ht. apply andb_prop in Ht as [Hc Ht].
  destruct (IH Ht) as [Hl Hd]. apply tag_char_lower in Hc as [Hc Hs]. unfold to_lower in *. cbn [str_map dash_spaces]. by rewrite Hc, Hl, Hs, Hd.
Qed.

(** The loop reads each string of the input as its cleaned form. *)
Lemma tags_loop_spec seen arr : (length seen < MAX_TAGS_PER_RUN)%nat ->
  tags_loop seen arr = take (MAX_TAGS_PER_RUN - length seen)
    (dedup_from seen (filter (fun t => TAG_RE t = true) (clean_tag <$> strings_of arr))).
Proof.
  revert seen; induction arr as [|j arr IH]; intros seen Hs; [by destruct (_ - _)%nat|].
  destruct j as [|b|n|raw_|l|o]; try by (cbn [tags_loop]; rewrite IH). cbn [tags_loop].
  change (strings_of (JStr raw_ :: arr)) with (raw_ :: strings_of arr). rewrite fmap_cons, filter_cons.
  destruct (TAG_RE (clean_tag raw_)) eqn:Ht.
  2: { rewrite orb_true_r. by rewrite IH. }
  rewrite TAG_RE_truthy by done. cbn [negb orb]. rewrite decide_True by done. cbn [dedup_from].
  case_bool_decide as Hin; [rewrite decide_True by done; by rewrite IH|]. rewrite decide_False by done.
  destruct (Nat.leb_spec MAX_TAGS_PER_RUN (S (length seen))).
  - by replace (MAX_TAGS_PER_RUN - length seen)%nat with 1%nat by (unfold MAX_TAGS_PER_RUN in *; lia).
  - replace (MAX_TAGS_PER_RUN - length seen)%nat with (S (MAX_TAGS_PER_RUN - length (clean_tag raw_ :: seen))) by (unfold MAX_TAGS_PER_RUN in *; simpl in *; lia).
    cbn [take]. f_equal. by rewrite IH.
Qed.

Lemma normalizeTags_spec arr :
  normalizeTags (Some (JArr arr)) =
  take MAX_TAGS_PER_RUN (dedup (filter (fun t => TAG_RE t = true) (clean_tag <$> strings_of arr))).
Proof. unfold normalizeTags. cbn [array_or_empty]. rewrite tags_loop_spec by (unfold MAX_TAGS_PER_RUN; simpl; lia). done. Qed.

(** A list of tags that are well formed already. *)
Lemma normalizeTags_tags l : Forall (fun t => TAG_RE t = true) l -> normalizeTags (tags_json l) = take MAX_TAGS_PER_RUN (dedup l).
Proof.
  intros Hl. unfold tags_json. rewrite normalizeTags_spec, strings_of_fmap. do 2 f_equal.
  induction Hl as [|t l Ht _ IH]; [done|]. rewrite fmap_cons, (clean_tag_id t) by (by apply TAG_RE_chars).
  rewrite filter_cons_True by done. by f_equal.
Qed.

Definition well_formed_tags (l : list string) : Prop :=
  Forall (fun t => TAG_RE t = true) l /\ NoDup l /\ (length l <= MAX_TAGS_PER_RUN)%nat.

Lemma NoDup_take {A} n (l : list A) : NoDup l -> NoDup (take n l).
Proof. intros H. rewrite <- (take_drop n l) in H. by apply NoDup_app in H as [? _]. Qed.

Lemma normalizeTags_wf v : well_formed_tags (normalizeTags v).
Proof.
  assert (well_formed_tags []) as Hnil by (split_and!; [constructor|constructor|simpl; lia]).
  destruct v as [[| | | |arr|]|]; try exact Hnil. rewrite normalizeTags_spec. split_and!.
  - apply Forall_take, Forall_forall. intros t Ht. rewrite dedup_elem in Ht. by apply list_elem_of_filter in Ht as [? _].
  - apply NoDup_take, dedup_NoDup.
  - rewrite length_take. lia.
Qed.

Lemma normalizeTags_fixed l : well_formed_tags l -> normalizeTags (tags_json l) = l.
Proof. intros (Hf & Hn & Hl). rewrite normalizeTags_tags by done. rewrite dedup_id by done. by apply take_ge. Qed.

(** Tags are stored in normal form: at most eight distinct tags, each a lower
    case letter or digit followed by at most 23 letters, digits and dashes; what
    normal form leaves it leaves alone, so storing it again changes nothing. *)
Theorem tags_normal_form v :
  well_formed_tags (normalizeTags v) /\ normalizeTags (tags_json (normalizeTags v)) = normalizeTags v.
Proof. split; [apply normalizeTags_wf|apply normalizeTags_fixed, normalizeTags_wf]. Qed.

(** ** Bulk operations change exactly the requested rows *)

Lemma ensureTags_idem r : ensureTags (ensureTags r) = ensureTags r.
Proof. done. Qed.

Definition complete (s : runs) : Prop := ensureTags <$> s = s.

Lemma read_complete (f : file runs) : complete (read_file f).
Proof. destruct f as [s|]; [|done]. unfold complete. simpl. rewrite <- list_fmap_compose. by apply list_fmap_ext. Qed.

Lemma complete_forall s : complete s <-> Forall (fun r => ensureTags r = r) s.
Proof.
  unfold complete. induction s as [|r s IH]; [done|]. rewrite fmap_cons, Forall_cons, <- IH. split; [intros [= -> ->]; auto|intros [-> ->]; done].
Qed.

(** The ids a call names, and what an action makes of a named row. *)
Definition named (rawIds : list json) : list string := dedup (filter (fun v => truthy v = true) (strings_of rawIds)).

Definition canon (r : SavedRun) : list string := normalizeTags (tags_json (default [] (tags r))).

Definition target_tags (action : BulkAction) (incoming before : list string) : list string :=
  match action with
  | BSetTags => incoming
  | BAddTags => take MAX_TAGS_PER_RUN (dedup (before ++ incoming))
  | _ => filter (fun t => t ∉ incoming) before
  end.

Definition row_after (action : BulkAction) (incoming : list string) (now : Z) (r : SavedRun) : SavedRun :=
  match action with
  | BPin => if is_pinned r then r else with_pin true now r
  | BUnpin => if is_pinned r then with_pin false now r else r
  | _ => if bool_decide (canon r = target_tags action incoming (canon r)) then r
         else with_tags (target_tags action incoming (canon r)) r
  end.

Definition row_step (action : BulkAction) (incoming : list string) (now : Z) : SavedRun -> option SavedRun :=
  match action with BPin => pin_row true now | BUnpin => pin_row false now | _ => tag_row action incoming end.

Lemma target_tags_wf action incoming before : well_formed_tags incoming -> well_formed_tags before ->
  well_formed_tags (target_tags action incoming before).
Proof.
  intros (If & In & Il) (Bf & Bn & Bl).
  assert (well_formed_tags (filter (fun t => t ∉ incoming) before)) as Hrem.
  { split_and!; [apply Forall_forall; intros t [_ Ht]%list_elem_of_filter; by apply (proj1 (Forall_forall _ _) Bf)|by apply NoDup_filter|]. pose proof (length_filter (fun t => t ∉ incoming) before). lia. }
  destruct action; try exact Hrem; [|done]. split_and!.
  - apply Forall_take, Forall_forall. intros t Ht. rewrite dedup_elem, elem_of_app in Ht.
    rewrite Forall_forall in If, Bf. destruct Ht; auto.
  - apply NoDup_take, dedup_NoDup.
  - simpl. rewrite length_take. lia.
Qed.

Lemma tag_row_spec action incoming r : action <> BDelete -> action <> BPin -> action <> BUnpin -> well_formed_tags incoming ->
  tag_row action incoming r =
  if bool_decide (canon r = target_tags action incoming (canon r)) then None else Some (with_tags (target_tags action incoming (canon r)) r).
Proof.
  intros ? ? ? Hi. unfold tag_row. fold (canon r). destruct action; try done. cbn [target_tags].
  rewrite normalizeTags_tags; [done|]. apply Forall_app. split; [apply normalizeTags_wf|apply Hi].
Qed.

Lemma row_step_spec action incoming now r : action <> BDelete -> well_formed_tags incoming ->
  default r (row_step action incoming now r) = row_after action incoming now r /\
  (row_step action incoming now r = None <-> row_after action incoming now r = r).
Proof.
  intros Hd Hi. assert (forall ts, well_formed_tags ts -> canon r <> ts -> with_tags ts r <> r) as Hne.
  { intros ts Hts Hc E. apply Hc. unfold canon. rewrite <- E. simpl. by apply normalizeTags_fixed. }
  destruct action; try done; cbn [row_step row_after].
  1,2: unfold pin_row; destruct (is_pinned r) eqn:Ep; simpl; split; try done; split; try done; intros E;
    apply (f_equal is_pinned) in E; rewrite Ep in E; done.
  all: rewrite tag_row_spec by done; case_bool_decide as Hc; [done|]; split; [done|]; split; [done|]; intros E; exfalso;
    revert E; apply Hne; [apply target_tags_wf; [done|apply normalizeTags_wf]|done].
Qed.

Lemma bulk_pass_spec hit f s :
  bulk_pass hit f s = ((fun r => if hit (id r) then default r (f r) else r) <$> s,
                       id <$> filter (fun r => hit (id r) = true /\ f r <> None) s).
Proof.
  induction s as [|r s IH]; [done|]. cbn [bulk_pass]. rewrite IH. rewrite fmap_cons, filter_cons.
  destruct (hit (id r)) eqn:Eh; [|by rewrite decide_False by naive_solver].
  destruct (f r) eqn:Ef; [by rewrite decide_True by naive_solver|by rewrite decide_False by naive_solver].
Qed.

Lemma row_after_id action incoming now r : id (row_after action incoming now r) = id r.
Proof. destruct action; simpl; try destruct (is_pinned r); try case_bool_decide; done. Qed.

Lemma row_after_complete action incoming now r : ensureTags r = r -> ensureTags (row_after action incoming now r) = row_after action incoming now r.
Proof.
  intros E. destruct action; simpl; try destruct (is_pinned r); try case_bool_decide; try done; unfold ensureTags, with_pin, with_tags; simpl;
    rewrite <- E; done.
Qed.

Lemma take_dedup_again (a b : list string) n :
  take n (dedup (take n (dedup (a ++ b)) ++ b)) = take n (dedup (a ++ b)).
Proof.
  set (l := dedup (a ++ b)). assert (NoDup l) as Hl by apply dedup_NoDup.
  unfold dedup at 1. rewrite dedup_from_app. fold (dedup (take n l)). rewrite dedup_id by (by apply NoDup_take).
  destruct (decide (n <= length l)%nat) as [Hn|Hn].
  - rewrite take_app_le by (rewrite length_take; lia). rewrite take_take. f_equal. lia.
  - rewrite (take_ge l) by lia. assert (forall m, (forall x, x ∈ m -> x ∈ l) -> dedup_from (l ++ []) m = []) as ->.
    { clear. induction m as [|x m IH]; intros Hm; [done|]. simpl. rewrite decide_True; [apply IH; set_solver|]. set_solver. }
    + rewrite app_nil_r. by apply take_ge; lia.
    + intros x Hx. unfold l. rewrite dedup_elem. set_solver.
Qed.

Lemma row_after_twice action incoming now now' r : action <> BDelete -> well_formed_tags incoming ->
  row_after action incoming now' (row_after action incoming now r) = row_after action incoming now r.
Proof.
  intros Hd Hi. assert (forall ts, well_formed_tags ts -> canon (with_tags ts r) = ts) as Hcan by (intros ts Hts; unfold canon; by apply normalizeTags_fixed).
  pose proof (target_tags_wf action incoming (canon r) Hi (normalizeTags_wf _)) as Hw.
  destruct action; try done; cbn [row_after].
  1,2: destruct (is_pinned r) eqn:Ep; cbn; by rewrite ?Ep.
  all: match type of Hw with well_formed_tags ?ts => destruct (decide (canon r = ts)) as [Hc|Hc] end;
    [by rewrite !(bool_decide_eq_true_2 _ Hc)|]; rewrite !(bool_decide_eq_false_2 _ Hc), (Hcan _ Hw), bool_decide_eq_true_2; [done|].
  - cbn [target_tags]. by rewrite take_dedup_again.
  - cbn [target_tags]. by rewrite list_filter_filter_l.
  - done.
Qed.

(** The transaction in closed form. *)
Lemma bulk_tx_delete rawIds tags_ now s :
  fst (bulk_tx rawIds BDelete tags_ now s) =
    {| requested := len (named rawIds); matched := len (filter (fun i => i ∈ (id <$> s)) (named rawIds));
       affected := len (filter (fun i => i ∈ (id <$> s)) (named rawIds)); ids := filter (fun i => i ∈ (id <$> s)) (named rawIds) |} /\
  after (bulk_tx rawIds BDelete tags_ now) s = filter (fun r => id r ∉ named rawIds) s.
Proof.
  split; [done|]. unfold after, bulk_tx. cbn [snd]. fold (named rawIds).
  assert (filter (fun r => bool_decide (id r ∈ filter (fun i => i ∈ (id <$> s)) (named rawIds)) = false) s
          = filter (fun r => id r ∉ named rawIds) s) as ->.
  { apply filter_ext. intros r Hr. rewrite bool_decide_eq_false, list_elem_of_filter.
    split; [|tauto]. intros Hn Hm. apply Hn. split; [|done]. apply list_elem_of_fmap. eauto. }
  destruct (_ =? _) eqn:E; [|done]. cbn. symmetry. apply filter_same_length. lia.
Qed.

Lemma bulk_tx_rows rawIds action tags_ now s : action <> BDelete ->
  fst (bulk_tx rawIds action tags_ now s) =
    (let aff := id <$> filter (fun r => id r ∈ named rawIds /\ row_after action (normalizeTags tags_) now r <> r) s in
     {| requested := len (named rawIds); matched := len (filter (fun i => i ∈ (id <$> s)) (named rawIds));
        affected := len aff; ids := aff |}) /\
  after (bulk_tx rawIds action tags_ now) s =
    ((fun r => if decide (id r ∈ named rawIds) then row_after action (normalizeTags tags_) now r else r) <$> s).
Proof.
  intros Hd. pose proof (normalizeTags_wf tags_) as Hi. set (inc := normalizeTags tags_) in *.
  set (mids := filter (fun i => i ∈ (id <$> s)) (named rawIds)).
  set (hit := fun i => bool_decide (i ∈ mids)).
  assert (bulk_tx rawIds action tags_ now s =
    (let '(s', aff) := bulk_pass hit (row_step action inc now) s in
     ({| requested := len (named rawIds); matched := len mids; affected := len aff; ids := aff |}, if len aff >? 0 then Some s' else None))) as E.
  { by destruct action. }
  assert (forall r, r ∈ s -> hit (id r) = bool_decide (id r ∈ named rawIds)) as Hhit.
  { intros r Hr. unfold hit, mids. apply bool_decide_ext. rewrite list_elem_of_filter, list_elem_of_fmap. split; [tauto|eauto]. }
  rewrite bulk_pass_spec in E.
  assert (filter (fun r => hit (id r) = true /\ row_step action inc now r <> None) s =
          filter (fun r => id r ∈ named rawIds /\ row_after action inc now r <> r) s) as Hf.
  { apply filter_ext. intros r Hr. rewrite (Hhit r Hr), bool_decide_eq_true.
    destruct (row_step_spec action inc now r Hd Hi) as [_ ->]. done. }
  assert (((fun r => if hit (id r) then default r (row_step action inc now r) else r) <$> s) =
          ((fun r => if decide (id r ∈ named rawIds) then row_after action inc now r else r) <$> s)) as Hm.
  { apply list_fmap_ext. intros i r Hr. rewrite (Hhit r) by (by eapply list_elem_of_lookup_2).
    destruct (row_step_spec action inc now r Hd Hi) as [-> _]. by case_decide; [rewrite bool_decide_true|rewrite bool_decide_false]. }
  rewrite Hf, Hm in E. unfold after. rewrite E. split; [done|]. cbn [snd].
  destruct (len _ >? 0) eqn:El; [done|]. cbn. symmetry. apply fmap_id_on. intros r Hr. case_decide as Hin; [|done].
  destruct (decide (row_after action inc now r = r)) as [?|Hne]; [done|]. exfalso.
  assert (id r ∈ (id <$> filter (fun r => id r ∈ named rawIds /\ row_after action inc now r <> r) s)) as Hx.
  { apply list_elem_of_fmap. exists r. split; [done|]. by apply list_elem_of_filter. }
  assert (forall l : list string, id r ∈ l -> 0 < len l) as Hl by (intros l Hl; apply len_pos; intros ->; by apply elem_of_nil in Hl).
  apply Hl in Hx. lia.
Qed.

Lemma bulk_complete rawIds action tags_ now s : complete s -> writes_storable (bulk_tx rawIds action tags_ now) s.
Proof.
  intros Hc s' Hs'. simpl. change (complete s').
  assert (s' = after (bulk_tx rawIds action tags_ now) s) as -> by (unfold after; by rewrite Hs').
  apply complete_forall in Hc. apply complete_forall. destruct (decide (action = BDelete)) as [->|Hd].
  - destruct (bulk_tx_delete rawIds tags_ now s) as [_ ->]. by apply Forall_filter_keep.
  - destruct (bulk_tx_rows rawIds action tags_ now s Hd) as [_ ->]. apply Forall_fmap. eapply Forall_impl; [exact Hc|].
    intros r Hr. simpl. case_decide; [by apply row_after_complete|done].
Qed.

Lemma bulk_view rawIds action tags_ now f :
  read_file (snd (bulkRunOp rawIds action tags_ now f)) = after (bulk_tx rawIds action tags_ now) (read_file f).
Proof. apply on_file_view, bulk_complete, read_complete. Qed.

Lemma bulk_result rawIds action tags_ now f :
  fst (bulkRunOp rawIds action tags_ now f) = fst (bulk_tx rawIds action tags_ now (read_file f)).
Proof. apply on_file_result. Qed.

(** A bulk operation acts on exactly the runs it names: deletion removes
    them and no other; pinning and the tag actions leave every other run as it
    was, put the named ones in the target state, and report exactly the ids of
    the runs that changed. Repeating the call changes nothing and reports no
    run. *)
Theorem bulk_operation_exact rawIds action tags_ now now' f :
  let s := read_file f in
  let '(res, f') := bulkRunOp rawIds action tags_ now f in
  let '(again, f'') := bulkRunOp rawIds action tags_ now' f' in
  requested res = len (named rawIds) /\ matched res = len (filter (fun i => i ∈ (id <$> s)) (named rawIds)) /\
  affected res = len (ids res) /\
  (action = BDelete -> read_file f' = filter (fun r => id r ∉ named rawIds) s /\ ids res = filter (fun i => i ∈ (id <$> s)) (named rawIds)) /\
  (action <> BDelete ->
     read_file f' = ((fun r => if decide (id r ∈ named rawIds) then row_after action (normalizeTags tags_) now r else r) <$> s) /\
     ids res = (id <$> filter (fun r => id r ∈ named rawIds /\ row_after action (normalizeTags tags_) now r <> r) s)) /\
  ids again = [] /\ read_file f'' = read_file f'.
Proof.
  cbv zeta. pose proof (bulk_view rawIds action tags_ now f) as Hv. pose proof (bulk_result rawIds action tags_ now f) as Hr.
  destruct (bulkRunOp rawIds action tags_ now f) as [res f']. simpl in Hv, Hr. subst res.
  pose proof (bulk_view rawIds action tags_ now' f') as Hv'. pose proof (bulk_result rawIds action tags_ now' f') as Hr'.
  destruct (bulkRunOp rawIds action tags_ now' f') as [again f'']. simpl in Hv', Hr'. subst again. rewrite Hv', Hv. clear Hv' Hv.
  set (s := read_file f). destruct (decide (action = BDelete)) as [->|Hd].
  - destruct (bulk_tx_delete rawIds tags_ now s) as [E1 E2]. rewrite E2.
    set (s' := filter _ s). destruct (bulk_tx_delete rawIds tags_ now' s') as [E1' E2'].
    rewrite E1, E1', E2'. split_and!; try done. 2: unfold s'; by rewrite filter_twice.
    simpl. apply filter_none. intros i Hi Hin. apply list_elem_of_fmap in Hin as (r & -> & [Hr _]%list_elem_of_filter). done.
  - destruct (bulk_tx_rows rawIds action tags_ now s Hd) as [E1 E2]. rewrite E2.
    set (s' := (fun r => _) <$> s). destruct (bulk_tx_rows rawIds action tags_ now' s' Hd) as [E1' E2'].
    rewrite E1, E1', E2'. 
    assert (forall r, r ∈ s' -> id r ∈ named rawIds -> row_after action (normalizeTags tags_) now' r = r) as Hfix.
    { intros r Hr Hin. apply list_elem_of_fmap in Hr as (r0 & -> & _). case_decide as Hc; [|done].
      apply row_after_twice; [done|apply normalizeTags_wf]. }
    split_and!; try done.
    + cbn [ids]. rewrite filter_none; [done|]. intros r Hr [Hin Hne]. by apply Hne, Hfix.
    + apply fmap_id_on. intros r Hr. case_decide; [by apply Hfix|done].
Qed.

(** ** The store is bounded and drops the oldest runs *)

(** [b] is not newer than [a]. *)
Definition not_older (key : SavedRun -> string) (a b : SavedRun) : Prop := str_lt (key a) (key b) = false.

#[export] Instance not_older_trans key : Transitive (not_older key).
Proof. intros a b c. apply str_le_trans. Qed.

Lemma str_newest_sorted key s : StronglySorted (not_older key) (js_sort (str_newest key) s).
Proof.
  unfold str_newest, not_older. apply js_sort_sorted; [apply not_older_trans| |]; intros x y; destruct (str_lt (key x) (key y)) eqn:E; try done; intros _.
  by apply str_lt_asym.
Qed.

(** Insertion at the end of a sorted prefix: an element that no other is newer
    than comes first. *)
Lemma js_sort_snoc {A} (cmp : A -> A -> Z) l x : js_sort cmp (l ++ [x]) = sort_insert cmp x (js_sort cmp l).
Proof. unfold js_sort. by rewrite fold_left_app. Qed.

Lemma sort_insert_head {A} (cmp : A -> A -> Z) x l : Forall (fun y => cmp x y < 0) l -> sort_insert cmp x l = x :: l.
Proof. destruct 1 as [|y l Hy _]; [done|]. simpl. by rewrite (proj2 (Z.ltb_lt _ _)). Qed.

Lemma StronglySorted_app_rel {A} (R : relation A) (a b : list A) x y : StronglySorted R (a ++ b) -> x ∈ a -> y ∈ b -> R x y.
Proof.
  induction a as [|z a IH]; simpl; intros Hs Hx Hy; [by apply elem_of_nil in Hx|]. apply StronglySorted_inv in Hs as [Hs Hz].
  apply elem_of_cons in Hx as [->|Hx]; [|by apply IH]. rewrite Forall_forall in Hz. apply Hz, elem_of_app. by right.
Qed.

Lemma bound_size_perm s : exists dropped, s ≡ₚ bound_size s ++ dropped /\
  (forall r d, r ∈ bound_size s -> d ∈ dropped -> not_older created r d) /\ (len s <= MAX_RUNS -> bound_size s = s /\ dropped = []).
Proof.
  unfold bound_size. destruct (len s >? MAX_RUNS) eqn:E.
  - exists (drop (Z.to_nat MAX_RUNS) (js_sort (str_newest created) s)). split_and!; [by rewrite take_drop, js_sort_Permutation| |lia].
    intros r d. apply StronglySorted_app_rel. rewrite take_drop. apply str_newest_sorted.
  - exists []. rewrite app_nil_r. split_and!; [done| |done]. intros r d _ Hd. by apply elem_of_nil in Hd.
Qed.

Lemma bound_size_len s : len (bound_size s) = Z.min MAX_RUNS (len s).
Proof.
  unfold bound_size. destruct (len s >? MAX_RUNS) eqn:E; [|lia]. unfold len in *. rewrite length_take, js_sort_length. unfold MAX_RUNS in *. lia.
Qed.

(** Saving a run: the store never holds more than [MAX_RUNS] runs and is full
    only when it has to be; what is dropped is not newer than anything that
    stays; below the bound nothing is dropped; and when no stored run is newer,
    the saved run itself can be read back. *)
Theorem create_keeps_the_newest input newId now f :
  let s := read_file f in
  let '(run, f') := createRun input newId now f in
  let s' := read_file f' in
  len s' = Z.min MAX_RUNS (len s + 1) /\
  (exists dropped, s ++ [ensureTags run] ≡ₚ s' ++ dropped /\ (forall r d, r ∈ s' -> d ∈ dropped -> not_older created r d) /\
     (len s < MAX_RUNS -> dropped = [])) /\
  (Forall (fun r => not_older created run r) s -> ensureTags run ∈ s').
Proof.
  cbv zeta. unfold createRun, on_file, create_tx. set (s := read_file f). set (run := new_run input newId now).
  change (read_file (write_file (bound_size (s ++ [run])))) with (ensureTags <$> bound_size (s ++ [run])).
  assert (len (s ++ [run]) = len s + 1) as Hl by (unfold len; rewrite length_app; simpl; lia).
  split_and!.
  - unfold len at 1. rewrite length_fmap. fold (len (bound_size (s ++ [run]))). rewrite bound_size_len. lia.
  - destruct (bound_size_perm (s ++ [run])) as (d & Hp & Hold & Hb). exists (ensureTags <$> d). split_and!.
    + rewrite <- fmap_app, <- Hp, fmap_app. assert (ensureTags <$> s = s) as -> by apply read_complete. done.
    + intros r x Hr Hx. apply list_elem_of_fmap in Hr as (r0 & -> & Hr), Hx as (x0 & -> & Hx). exact (Hold r0 x0 Hr Hx).
    + intros Hlt. destruct Hb as [_ ->]; [lia|done].
  - intros Hnew. apply list_elem_of_fmap. exists run. split; [done|]. unfold bound_size.
    destruct (len (s ++ [run]) >? MAX_RUNS) eqn:E; [|apply elem_of_app; right; by apply list_elem_of_singleton].
    rewrite js_sort_snoc, sort_insert_head; [by left|]. apply Forall_forall. intros r Hr. rewrite js_sort_elem in Hr.
    rewrite Forall_forall in Hnew. unfold str_newest. by rewrite (Hnew r Hr).
Qed.

(** ** Paging *)

Definition at_offset (n : Z) (o : QueryOpts) : QueryOpts :=
  {| q := q o; o_regime := o_regime o; o_ticker := o_ticker o; o_tag := o_tag o; o_pinned := o_pinned o; since := since o; until := until o;
     minConfidence := minConfidence o; maxConfidence := maxConfidence o; minBars := minBars o; maxBars := maxBars o;
     limit := limit o; offset := Some n; sort := sort o; ownerFilter := ownerFilter o |}.

(** Paging through a query: every page reports the same total, the number of
    runs that pass the filters, and holds at most [limit] runs, between 1 and
    200; reading as many pages as the total asks for, each from where the last
    one ended, yields every matching run exactly once and nothing else. *)
Theorem pages_cover_matches localeCompare other_dates opts f n :
  let query i := queryRuns localeCompare other_dates (at_offset (Z.of_nat i * r_limit (queryRuns localeCompare other_dates opts f)) opts) f in
  let all := matching other_dates opts (read_file f) in
  let lim := r_limit (queryRuns localeCompare other_dates opts f) in
  1 <= lim <= 200 /\
  (forall i, total (query i) = len all /\ len (page (query i)) <= lim) /\
  (len all <= Z.of_nat n * lim -> flat_map (fun i => page (query i)) (seq 0 n) ≡ₚ all).
Proof.
  cbv zeta. set (lim := r_limit (queryRuns localeCompare other_dates opts f)).
  assert (lim = Z.min (Z.max (default 25 (limit opts)) 1) 200) as Hlim by done. clearbody lim.
  set (all := matching other_dates opts (read_file f)). set (sorted := js_sort (cmp_by localeCompare (default recent (sort opts))) all).
  assert (forall i, page (queryRuns localeCompare other_dates (at_offset (Z.of_nat i * lim) opts) f)
    = take (Z.to_nat lim) (drop (i * Z.to_nat lim) sorted)) as Hpage.
  { intros i. unfold queryRuns. cbn [page limit offset at_offset default]. rewrite <- Hlim.
    replace (Z.to_nat (Z.max (Datatypes.id (Z.of_nat i * lim)) 0)) with (i * Z.to_nat lim)%nat by (unfold Datatypes.id; lia). done. }
  assert (len sorted = len all) as Hlen by (unfold len, sorted; by rewrite js_sort_length).
  split_and!; [lia|lia| |].
  - intros i. rewrite Hpage. split; [exact Hlen|]. unfold len. rewrite length_take. lia.
  - intros Hn. rewrite (flat_map_ext _ _ Hpage), take_drop_pages, take_ge; [apply js_sort_Permutation|]. unfold len in *. lia.
Qed.

(** ** Bare dates select whole days *)

Lemma date_string_range d : day_range d -> 
  0 <= getUTCFullYear (d * ms_per_day) <= 9999 /\ 1 <= getUTCMonth (d * ms_per_day) + 1 <= 12 /\ 1 <= getUTCDate (d * ms_per_day) <= 31.
Proof.
  intros H. pose proof (getUTCMonth_range (d * ms_per_day)). pose proof (getUTCDate_range (d * ms_per_day)). unfold day_range, iso_range in H. lia.
Qed.

Lemma bare_date d : day_range d -> BARE_DATE_RE (date_string d) = true.
Proof.
  intros H. destruct (date_string_range d H) as (Hy & Hm & Hd). unfold BARE_DATE_RE, date_string. cbv zeta.
  generalize dependent (getUTCFullYear (d * ms_per_day)). generalize dependent (getUTCMonth (d * ms_per_day) + 1).
  generalize dependent (getUTCDate (d * ms_per_day)). intros x Hx m Hm y Hy.
  rewrite read_pad by lia. cbn -[read pad]. rewrite read_pad by lia. cbn -[read pad].
  rewrite <- (str_app_nil (pad 2 x)). rewrite read_pad by lia. done.
Qed.

Lemma pad_forall p k n : (forall d, 0 <= d < 10 -> p (digit d) = true) -> 0 <= n < 10 ^ Z.of_nat k -> str_forall p (pad k n) = true.
Proof.
  intros Hp. revert n; induction k as [|k IH]; intros n Hn; [done|]. cbn [pad str_forall].
  rewrite Hp by (by apply pad_head_range). apply IH, Z.mod_pos_bound, pow10_pos.
Qed.

Lemma trim_date d : day_range d -> trim (date_string d) = date_string d.
Proof.
  intros H. destruct (date_string_range d H) as (Hy & Hm & Hd). apply trim_no_space. unfold date_string. cbv zeta.
  assert (forall x, 0 <= x < 10 -> negb (is_space (digit x)) = true) as Hdig.
  { intros x Hx. unfold is_space, digit. cbv zeta. rewrite code_chr by lia. lia. }
  rewrite !str_forall_app. cbn [str_forall]. rewrite !str_forall_app, !pad_forall by (done || lia). cbn [str_forall].
  by rewrite pad_forall by (done || lia).
Qed.

Lemma parse_in_day other_dates d ms s : day_range d -> 0 <= ms < ms_per_day -> toISOString (d * ms_per_day + ms) = date_string d +:+ s ->
  parse_date other_dates (date_string d +:+ s) = Some (d * ms_per_day + ms).
Proof.
  intros H Hms E. unfold parse_date. rewrite <- E, parse_toISOString; [done|]. unfold day_range, iso_range in *.
  destruct (day_fields d ms Hms) as [-> _]. done.
Qed.

Lemma date_truthy d : truthy (date_string d) = true.
Proof. by destruct d. Qed.

Lemma since_day other_dates d : day_range d -> parseSinceMs other_dates (Some (date_string d)) = Some (d * ms_per_day).
Proof.
  intros H. unfold parseSinceMs, bound_ms. rewrite trim_date, date_truthy, bare_date by done. cbn [negb].
  rewrite <- (Z.add_0_r (d * ms_per_day)). apply parse_in_day; [done|done|]. by rewrite date_string_iso by done.
Qed.

Lemma until_day other_dates d : day_range d -> parseUntilMs other_dates (Some (date_string d)) = Some (d * ms_per_day + 86399999).
Proof.
  intros H. unfold parseUntilMs, bound_ms. rewrite trim_date, date_truthy, bare_date by done. cbn [negb].
  apply parse_in_day; [done|done|]. by rewrite date_string_iso by done.
Qed.

Lemma when_elem c p l r : r ∈ when_ c p l <-> r ∈ l /\ (c = true -> p r = true).
Proof. unfold when_. destruct c; [rewrite list_elem_of_filter|]; naive_solver. Qed.

Definition with_dates (a b : option string) (o : QueryOpts) : QueryOpts :=
  {| q := q o; o_regime := o_regime o; o_ticker := o_ticker o; o_tag := o_tag o; o_pinned := o_pinned o; since := a; until := b;
     minConfidence := minConfidence o; maxConfidence := maxConfidence o; minBars := minBars o; maxBars := maxBars o;
     limit := limit o; offset := offset o; sort := sort o; ownerFilter := ownerFilter o |}.

(** The run was created on a day between [d1] and [d2], both included. *)
Definition created_within (d1 d2 : Z) (r : SavedRun) : Prop :=
  exists t, date_parse (created_at r) = Some t /\ d1 <= day_of t <= d2.

(** Dates given without a time select whole days in UTC, both ends included:
    added to any other filters, [since] and [until] keep exactly the runs created
    from the first to the last of the two days. *)
Theorem bare_dates_select_days other_dates opts f d1 d2 r :
  day_range d1 -> day_range d2 ->
  r ∈ matching other_dates (with_dates (Some (date_string d1)) (Some (date_string d2)) opts) (read_file f) <->
  r ∈ matching other_dates (with_dates None None opts) (read_file f) /\ created_within d1 d2 r.
Proof.
  intros H1 H2. unfold matching. cbv zeta. cbn [with_dates q o_regime o_ticker o_tag o_pinned since until minConfidence maxConfidence minBars maxBars ownerFilter].
  rewrite since_day, until_day by done. change (parseSinceMs other_dates None) with (@None Z). change (parseUntilMs other_dates None) with (@None Z).
  rewrite !when_elem.
  assert (created_within d1 d2 r <->
    after_ (Some (d1 * ms_per_day)) r = true /\ before_ (Some (d2 * ms_per_day + 86399999)) r = true) as ->.
  { unfold created_within, after_, before_. destruct (date_parse (created_at r)) as [t|]; [|naive_solver].
    rewrite !Z.leb_le. unfold day_of, ms_per_day. split.
    - intros (u & [= <-] & Hd). Z.to_euclidean_division_equations; lia.
    - intros Hd. exists t. split; [done|]. Z.to_euclidean_division_equations; lia. }
  rewrite !bool_decide_eq_true. clear. assert (is_Some (@None Z) <-> False) as E by (split; [by intros [? ?]|done]).
  assert (is_Some (Some (d1 * ms_per_day)) /\ is_Some (Some (d2 * ms_per_day + 86399999))) by eauto. tauto.
Qed.

(** ** Witnesses *)

Definition demo_payload : Payload :=
  {| p_ticker := "NVDA"; dates := ["2024-03-14"; "2024-03-15"]; close := [int 10; int 11]; regime := [Some "bull"; None];
     counts := []; snapshot := None; disclaimer := "" |}.
Definition demo_run_input : RunInput :=
  {| in_label := "first"; in_ticker := "NVDA"; in_lookback_days := int 2; in_tags := Some (JArr [JStr " Long Term "; JStr "ai"; JNull; JStr "AI"]);
     in_notes := None; in_key_id := Some "k1"; in_key_label := None; in_payload := demo_payload |}.
(** 15 March 2024, shortly before midnight. *)
Definition demo_time : Z := 1710547199000.
Definition demo_runs : file runs := snd (createRun demo_run_input "r1" demo_time None).
Definition demo_opts : QueryOpts :=
  {| q := None; o_regime := None; o_ticker := None; o_tag := None; o_pinned := false; since := None; until := None;
     minConfidence := None; maxConfidence := None; minBars := None; maxBars := None; limit := None; offset := None; sort := None;
     ownerFilter := None |}.

Example demo_tags : normalizeTags (in_tags demo_run_input) = ["long-term"; "ai"].
Proof. reflexivity. Qed.

Example demo_bulk : ids (fst (bulkRunOp [JStr "r1"; JStr "r9"] BPin None 5 demo_runs)) = ["r1"].
Proof. reflexivity. Qed.

Lemma bare_dates_select_days_witness : date_string 19797 = "2024-03-15" /\
  exists r, r ∈ matching (fun _ => None) (with_dates (Some "2024-03-15") (Some "2024-03-15") demo_opts) (read_file demo_runs).
Proof.
  split; [reflexivity|]. exists (ensureTags (new_run demo_run_input "r1" demo_time)).
  apply (bare_dates_select_days (fun _ => None) demo_opts demo_runs 19797 19797).
  - split; vm_compute; discriminate.
  - split; vm_compute; discriminate.
  - split; [by left|]. exists demo_time. split; [reflexivity|]. vm_compute. split; discriminate.
Defined.
