(* ===== verification/RunAcl.v ===== *)
(** Who may read and change a saved run through the API: [web/lib/runAcl.ts], the
    owner filter of the run query, and the handlers of
    [web/app/api/v1/runs/[id]/route.ts] behind authentication and the request
    guard. The audit lines and the activity feed are left out. *)
From S2P Require Import Prelude JsNum JsDate IsoTime Json Store KeyStore Runs.

Inductive AllowReason := is_admin | is_owner | unowned.
Inductive RunAclDecision := Allowed (why : AllowReason) | NotOwner (ownerKeyId : string).

(** [created_by_key_id ?? null], where the empty string counts as no owner. *)
Definition owner_of (r : SavedRun) : option string :=
  match created_by_key_id r with Some w => if truthy w then Some w else None | None => None end.

Definition decide_run (r : SavedRun) (key : StoredKey) : RunAclDecision :=
  if bool_decide (admin ∈ scopes key) then Allowed is_admin
  else match owner_of r with
  | None => Allowed unowned
  | Some w => if String.eqb w (KeyStore.id key) then Allowed is_owner else NotOwner w
  end.

Definition decideRunMutation := decide_run.
Definition decideRunRead := decide_run.

Definition allowed (d : RunAclDecision) : bool := match d with Allowed _ => true | NotOwner _ => false end.

Definition ownerFilterForKey (key : StoredKey) : OwnerFilter :=
  if bool_decide (admin ∈ scopes key) then AllRuns else OwnerOrUnowned (KeyStore.id key).

Definition runMatchesOwnerFilter (r : SavedRun) (f : OwnerFilter) : bool :=
  match f with
  | AllRuns => true
  | OwnerOrUnowned keyId => match owner_of r with None => true | Some w => String.eqb w keyId end
  end.

(** ** The handlers of one run *)

Inductive Answer := Found (r : SavedRun) | NotFound | NotYours | DryRun | Deleted | DeleteFailed.

Definition GET (key : StoredKey) (rid : string) (f : file runs) : Answer :=
  match getRun rid f with
  | None => NotFound
  | Some r => if negb (allowed (decideRunRead r key)) then NotFound else Found r
  end.

Definition DELETE (key : StoredKey) (rid : string) (dryRun : bool) (f : file runs) : Answer * file runs :=
  match getRun rid f with
  | None => (NotFound, f)
  | Some r =>
      if negb (allowed (decideRunRead r key)) then (NotFound, f)
      else if negb (allowed (decideRunMutation r key)) then (NotYours, f)
      else if dryRun then (DryRun, f)
      else let '(ok, f') := deleteRun rid f in (if ok then Deleted else DeleteFailed, f')
  end.

(** The run belongs to another key. *)
Definition foreign (key : StoredKey) (r : SavedRun) : Prop :=
  admin ∉ scopes key /\ exists w, created_by_key_id r = Some w /\ w <> "" /\ w <> KeyStore.id key.

Lemma decide_run_spec r key : allowed (decide_run r key) = false <-> foreign key r.
Proof.
  unfold decide_run, foreign, owner_of. case_bool_decide as Ha; [naive_solver|].
  destruct (created_by_key_id r) as [w|]; [|naive_solver]. destruct (truthy w) eqn:Ew.
  - apply truthy_spec in Ew. destruct (String.eqb_spec w (KeyStore.id key)); simpl; naive_solver.
  - apply truthy_false in Ew as ->. naive_solver.
Qed.

Lemma owner_filter_spec r key : owner_ok (Some (ownerFilterForKey key)) r = true -> allowed (decide_run r key) = true.
Proof.
  intros H. destruct (allowed (decide_run r key)) eqn:E; [done|]. apply decide_run_spec in E as (Ha & w & Hw & _ & Hne).
  unfold ownerFilterForKey in H. rewrite bool_decide_eq_false_2 in H by done. simpl in H. rewrite Hw in H. by apply String.eqb_eq in H.
Qed.

Lemma getRun_elem rid f r : getRun rid f = Some r -> r ∈ read_file f /\ Runs.id r = rid.
Proof. unfold getRun. destruct (list_find _ _) as [[i x]|] eqn:E; [|done]. intros [= <-]. by apply list_find_elem in E. Qed.

Lemma read_file_delete rid f : read_file (snd (deleteRun rid f)) = filter (fun r => Runs.id r <> rid) (read_file f).
Proof.
  unfold deleteRun. assert (writes_storable (delete_tx rid) (read_file f)) as Hw.
  { intros s'. unfold delete_tx. destruct (_ =? _); [done|]. intros [= <-]. apply complete_forall, Forall_filter_keep, complete_forall, read_complete. }
  rewrite on_file_view by done. unfold after, delete_tx. destruct (_ =? _) eqn:E; [|done]. cbn. symmetry. apply filter_same_length. lia.
Qed.

#[export] Instance foreign_dec key r : Decision (foreign key r).
Proof. destruct (allowed (decide_run r key)) eqn:E; [right|left; by apply decide_run_spec]. intros Hf. apply decide_run_spec in Hf. by rewrite E in Hf. Defined.

Lemma owner_ok_ensured o r : owner_ok o (ensureTags r) = owner_ok o r.
Proof. done. Qed.

(** The query of a key does not look at the runs of other keys. *)
Lemma matching_visible other_dates key opts s : ownerFilter opts = Some (ownerFilterForKey key) ->
  matching other_dates opts (filter (fun r => ~ foreign key r) s) = matching other_dates opts s.
Proof.
  intros Ho. assert (forall b, bool_decide (is_Some (ownerFilter opts)) = b -> when_ b (owner_ok (ownerFilter opts)) (ensureTags <$> filter (fun r => ~ foreign key r) s) =
    when_ b (owner_ok (ownerFilter opts)) (ensureTags <$> s)) as Hw; [|unfold matching; cbv zeta; by rewrite (Hw _ eq_refl)].
  rewrite Ho, bool_decide_eq_true_2 by done. intros ? <-. unfold when_.
  induction s as [|r s IH]; [done|]. rewrite filter_cons. destruct (decide _) as [Hr|Hr].
  - rewrite !fmap_cons, !filter_cons. by rewrite IH.
  - rewrite fmap_cons, (filter_cons _ (ensureTags r)), decide_False; [done|]. rewrite owner_ok_ensured. intros Hok%owner_filter_spec.
    apply Hr. intros Hf%decide_run_spec. by rewrite Hok in Hf.
Qed.

(** A run looked up by its id is the one among the visible runs, or foreign. *)
Lemma getRun_visible key rid f : NoDup (Runs.id <$> read_file f) ->
  snd <$> list_find (fun r => Runs.id r = rid) (filter (fun r => ~ foreign key r) (read_file f)) =
  match getRun rid f with Some r => if decide (foreign key r) then None else Some r | None => None end.
Proof.
  unfold getRun. induction (read_file f) as [|r s IH]; intros Hnd; [done|]. rewrite fmap_cons in Hnd. apply NoDup_cons in Hnd as [Hni Hnd].
  specialize (IH Hnd). rewrite filter_cons. cbn [list_find]. destruct (decide (Runs.id r = rid)) as [He|He].
  - cbn. destruct (decide (foreign key r)) as [Hf|Hf].
    + rewrite decide_False by (intros Hn; by apply Hn). rewrite IH. destruct (list_find _ s) as [[i x]|] eqn:E; [|done].
      apply list_find_elem in E as [Hx Hid]. destruct Hni. rewrite He, <- Hid. by apply list_elem_of_fmap_2.
    + rewrite decide_True by done. cbn [list_find]. by rewrite decide_True by done.
  - destruct (decide (~ foreign key r)) as [Hf|Hf]; [cbn [list_find]; rewrite decide_False by done|].
    + destruct (list_find _ (filter _ _)) as [[]|], (list_find _ s) as [[]|]; cbn in *; exact IH.
    + rewrite IH. by destruct (list_find _ s) as [[]|].
Qed.

(** The list of a key without the admin scope has no run of another key; reading
    or deleting one is answered as if it were missing. *)
Lemma foreign_runs_unreachable localeCompare other_dates key opts rid dryRun f :
  ownerFilter opts = Some (ownerFilterForKey key) ->
  Forall (fun r => ~ foreign key r) (page (queryRuns localeCompare other_dates opts f)) /\
  Forall (fun r => ~ foreign key r) (matching other_dates opts (read_file f)) /\
  match getRun rid f with
  | None => GET key rid f = NotFound /\ DELETE key rid dryRun f = (NotFound, f)
  | Some r =>
      (foreign key r -> GET key rid f = NotFound /\ DELETE key rid dryRun f = (NotFound, f)) /\
      (~ foreign key r -> GET key rid f = Found r /\
         (dryRun = true -> DELETE key rid dryRun f = (DryRun, f)) /\
         (dryRun = false -> fst (DELETE key rid dryRun f) = Deleted /\
            read_file (snd (DELETE key rid dryRun f)) = filter (fun r => Runs.id r <> rid) (read_file f)))
  end.
Proof.
  intros Ho. assert (Forall (fun r => ~ foreign key r) (matching other_dates opts (read_file f))) as Hall.
  { apply Forall_forall. intros r Hr. unfold matching in Hr. cbv zeta in Hr. rewrite !when_elem in Hr. rewrite Ho in Hr.
    rewrite <- decide_run_spec, owner_filter_spec; [done|]. destruct_and? Hr. eauto. }
  split_and!; [|exact Hall|].
  - unfold queryRuns. cbn [page]. apply Forall_take, Forall_drop. by rewrite js_sort_Permutation.
  - destruct (getRun rid f) as [r|] eqn:Eg; [|unfold GET, DELETE; by rewrite Eg].
    unfold GET, DELETE. rewrite Eg. unfold decideRunRead, decideRunMutation. split.
    + intros Hf. by apply decide_run_spec in Hf as ->.
    + intros Hf. destruct (allowed (decide_run r key)) eqn:Ea; [|by apply decide_run_spec in Ea]. cbn [negb].
      split_and!; [done|by intros ->|]. intros ->. pose proof (read_file_delete rid f) as Hd.
      destruct (deleteRun rid f) as [ok f'] eqn:Ed. cbn [fst snd] in *. split; [|done].
      destruct ok; [done|]. exfalso. apply (f_equal fst) in Ed. unfold deleteRun in Ed. rewrite on_file_result in Ed. unfold delete_tx in Ed.
      destruct (_ =? _) eqn:El; [|done]. apply Z.eqb_eq in El. apply getRun_elem in Eg as [Hr Hid].
      apply filter_same_length in El. assert (r ∈ filter (fun r => Runs.id r <> rid) (read_file f)) as [Hne _]%list_elem_of_filter by (by rewrite El).
      done.
Qed.

Definition demo_trader : StoredKey :=
  {| KeyStore.id := "k2"; KeyStore.label := "bot"; prefix := "sc_"; hash := "h"; scopes := [read; trade]; role := Some member;
     KeyStore.created_at := Iso 0; last_used_at := None; revoked := false; ip_allowlist := []; route_allowlist := []; expires_at := None;
     suspended := false; suspended_at := None; suspended_reason := None |}.

Definition demo_query : QueryOpts :=
  {| q := Some "nvda"; o_regime := None; o_ticker := None; o_tag := None; o_pinned := false; since := None; until := None;
     minConfidence := None; maxConfidence := None; minBars := None; maxBars := None; limit := None; offset := None; sort := None;
     ownerFilter := Some (ownerFilterForKey demo_trader) |}.

Example foreign_run_is_out_of_sight :
  GET demo_trader "r1" demo_runs = NotFound /\ page (queryRuns (fun _ _ => 0) (fun _ => None) demo_query demo_runs) = [].
Proof. split; reflexivity. Qed.
