(* ===== verification/Regime.v ===== *)
(** The regime classifier: [web/lib/regimeClassify.ts]. The arithmetic of doubles
    is the interface [FloatOps] with the functions of [Math] next to it, so what
    is proved holds of any rounding. A literal such as 0.025 is the quotient of
    two integers, which rounds to the same double. *)
From S2P Require Import Prelude JsNum JsDate IsoTime Json Store Runs.

Definition WINDOW : nat := 20.
Definition PEAK_WINDOW : nat := 60.
Definition MAX_SERIES : Z := 5000.

(** [Math.log], [Math.sqrt] and [x ** 2]. *)
Class MathOps := { flog : num -> num; fsqrt : num -> num; fsquare : num -> num }.

(** [typeof x === "number" && Number.isFinite(x) && x > 0]. *)
Definition isFinitePos (x : json) : option num :=
  match x with JNum n => if is_finite n && num_lt (int 0) n then Some n else None | _ => None end.

Inductive ClassifyError := bad_ticker | series_too_short | series_too_long | bad_close | bad_dates.

(** [Throws]: [.trim] of a value that is no string. *)
Inductive Classified := Classified_ok (p : Payload) | Rejected (e : ClassifyError) | Throws.

(** [(input.ticker || "").trim().toUpperCase()]. *)
Definition ticker_of (v : jval) : option string :=
  if jtruthy v then match v with Some (JStr s) => Some (to_upper (trim s)) | _ => None end else Some "".

Definition syntheticDates (n : nat) (now : Z) : list string :=
  let start := Date_UTC (getUTCFullYear now) (getUTCMonth now) (getUTCDate now) in
  (fun i => str_take 10 (toISOString (start - Z.of_nat i * ms_per_day))) <$> rev (seq 0 n).

Definition date_text (d : json) : option string :=
  match d with JStr s => if BARE_DATE_RE s then Some s else None | _ => None end.

Definition dates_of (v : jval) (n : nat) (now : Z) : result (list string) ClassifyError :=
  match v with
  | None => Ok (syntheticDates n now)
  | Some (JArr l) => if (length l =? n)%nat then match mapM date_text l with Some ds => Ok ds | None => Err bad_dates end else Err bad_dates
  | Some _ => Err bad_dates
  end.

Definition labels : list string := ["bull"; "chop"; "bear"; "crash"].

Section Classifier.
Context `{FloatOps} `{MathOps}.

Local Abbreviation frac a b := (fdiv (int a) (int b)).

Definition labelFor (slope vol drawdown : num) : string :=
  if num_lt drawdown (frac (-1) 5) && num_lt (frac 25 1000) vol then "crash"
  else if num_lt slope (frac (-5) 10000) then "bear"
  else if num_lt (frac 5 10000) slope then "bull"
  else "chop".

(** The log returns; the first is 0. *)
Fixpoint returns_from (prev : num) (l : list num) : list num :=
  match l with [] => [] | c :: r => flog (fdiv c prev) :: returns_from c r end.
Definition returns (close : list num) : list num := match close with [] => [int 0] | c :: r => int 0 :: returns_from c r end.

(** [l.slice(from, to)] for [0 <= from <= to]. *)
Definition slice {A} (from to : nat) (l : list A) : list A := take (to - from) (drop from l).

Definition mean_of (w : list num) : num := fdiv (fold_left fadd w (int 0)) (int (len w)).
Definition variance_of (w : list num) (mean : num) : num :=
  fdiv (fold_left (fun a b => fadd a (fsquare (fsub b mean))) w (int 0)) (int (Z.max 1 (len w - 1))).

(** [Math.max(...l)]. *)
Definition max_of (l : list num) : num := fold_left num_max l (Infinity false).

(** Slope, volatility and drawdown of bar [i]. *)
Definition bar_metrics (close ret : list num) (i : nat) : num * num * num :=
  let w := slice (i - WINDOW + 1) (i + 1) ret in
  let mean := mean_of w in
  let vol := fsqrt (variance_of w mean) in
  let peak := max_of (slice (i + 1 - PEAK_WINDOW) (i + 1) close) in
  (mean, vol, fdiv (fsub (nth i close NaN) peak) peak).

Record Pass := { marks : list (option string); tally : list (string * Z); lastSlope : num; lastVol : num; lastDD : num }.

(** One turn of the loop. *)
Definition classify_bar (close ret : list num) (p : Pass) (i : nat) : Pass :=
  if (i <? WINDOW)%nat then {| marks := marks p ++ [None]; tally := tally p; lastSlope := lastSlope p; lastVol := lastVol p; lastDD := lastDD p |}
  else
    let '(slope, vol, dd) := bar_metrics close ret i in
    let lab := labelFor slope vol dd in
    {| marks := marks p ++ [Some lab]; tally := count_label (tally p) lab; lastSlope := slope; lastVol := vol; lastDD := dd |}.

Definition classify_bars (close : list num) : Pass :=
  fold_left (classify_bar close (returns close)) (seq 0 (length close))
    {| marks := []; tally := (fun l => (l, 0)) <$> labels; lastSlope := int 0; lastVol := int 0; lastDD := int 0 |}.

Definition last_label (regime : list (option string)) : string := default "chop" (default None (last regime)).

(** [regime.slice(-WINDOW)] without the bars that have no label. *)
Definition tail_of (regime : list (option string)) : list string := omap (fun x => x) (drop (length regime - WINDOW) regime).

Definition confidence_of (regime : list (option string)) : num :=
  let tail := tail_of regime in
  let agree := filter (fun x => x = last_label regime) tail in
  let rawConf := if len tail =? 0 then frac 1 2 else fdiv (int (len agree)) (int (len tail)) in
  num_max (frac 4 10) (num_min (frac 98 100) rawConf).

Definition risk_scale_of (vol : num) : num :=
  num_max (frac 1 10) (num_min (int 1) (fdiv (frac 1 100) (num_max (frac 3 1000) vol))).

Definition DISCLAIMER : string := "Regime classification computed from caller-supplied price series. Not investment advice.".

Definition payload_of (tick : string) (ds : list string) (close : list num) : Payload :=
  let p := classify_bars close in
  {| p_ticker := tick; dates := ds; close := close; regime := marks p; counts := (fun c => (c.1, int c.2)) <$> tally p;
     snapshot := Some {| s_label := last_label (marks p); realized_vol := toFixed 6 (lastVol p); trend_slope := toFixed 6 (lastSlope p);
                         drawdown := toFixed 6 (lastDD p); confidence := toFixed 4 (confidence_of (marks p));
                         risk_scale := toFixed 4 (risk_scale_of (lastVol p)); as_of := default "" (last ds) |};
     disclaimer := DISCLAIMER |}.

Definition classifyRegime (tick close_ dates_ : jval) (now : Z) : Classified :=
  match ticker_of tick with
  | None => Throws
  | Some t =>
      if negb (truthy t) || (str_len t >? 32) then Rejected bad_ticker else
      let close := array_or_empty close_ in
      if len close <? Z.of_nat WINDOW + 1 then Rejected series_too_short
      else if len close >? MAX_SERIES then Rejected series_too_long
      else match mapM isFinitePos close with
      | None => Rejected bad_close
      | Some close =>
          match dates_of dates_ (length close) now with
          | Err e => Rejected e
          | Ok ds => Classified_ok (payload_of t ds close)
          end
      end
  end.

(** ** What is classified *)

Lemma labelFor_label s v d : labelFor s v d ∈ labels.
Proof. unfold labelFor, labels. repeat case_match; set_solver. Qed.

Definition pass_ok (n : nat) (p : Pass) : Prop :=
  length (marks p) = n /\
  (forall i, (i < n)%nat -> marks p !! i = Some None <-> (i < WINDOW)%nat) /\
  (forall i l, marks p !! i = Some (Some l) -> l ∈ labels) /\
  (forall k, default 0 (assoc k (tally p)) = len (filter (fun l => l = Some k) (marks p))) /\
  (tally p).*1 = labels /\ total_of (tally p) = len (filter (fun l => l <> None) (marks p)).

Lemma count_label_keys m k : k ∈ m.*1 -> (count_label m k).*1 = m.*1.
Proof.
  intros Hk. unfold count_label. destruct (assoc k m) as [n|] eqn:E.
  - clear. induction m as [|[k' w] m IH]; [done|]. cbn. destruct (String.eqb k k'); [done|]. cbn. by rewrite IH.
  - exfalso. induction m as [|[k' w] m IH]; [by apply elem_of_nil in Hk|]. cbn in *. destruct (String.eqb_spec k k') as [->|Hne]; [done|].
    apply IH; [|done]. by apply elem_of_cons in Hk as [|].
Qed.

Lemma classify_bar_ok cl ret n p : pass_ok n p -> pass_ok (S n) (classify_bar cl ret p n).
Proof.
  intros (Hl & Hn & Hm & Hc & Hk & Ht). unfold classify_bar, pass_ok.
  assert (forall x i y, (marks p ++ [x]) !! i = Some y -> (i < n)%nat /\ marks p !! i = Some y \/ i = n /\ y = x) as Hat.
  { intros x i y [Hi|[Hi Hx]]%lookup_app_Some; [left; split; [apply lookup_lt_Some in Hi; lia|done]|].
    right. apply list_lookup_singleton_Some in Hx as [? <-]. split; [lia|done]. }
  assert (forall x i, (i < S n)%nat -> (x = None <-> (n < WINDOW)%nat) -> (marks p ++ [x]) !! i = Some None <-> (i < WINDOW)%nat) as Hnone.
  { intros x i Hi Hx. destruct (decide (i = n)) as [->|Hne].
    - rewrite lookup_app_r by lia. rewrite Hl, Nat.sub_diag. cbn. naive_solver.
    - rewrite lookup_app_l by lia. apply Hn. lia. }
  destruct (Nat.ltb_spec n WINDOW) as [Hw|Hw]; cbn [marks tally].
  - split_and!; [rewrite length_app; simpl; lia|intros; by apply Hnone| | |done|].
    + intros i l [[_ Hi]|[_ Hi]]%Hat; [by eapply Hm|done].
    + intros k. rewrite Hc, len_filter_snoc, decide_False by done. lia.
    + rewrite Ht, len_filter_snoc, decide_False by (intros Hx; by apply Hx). lia.
  - destruct (bar_metrics cl ret n) as [[s v] d]. cbn [marks tally]. pose proof (labelFor_label s v d) as Hlab. set (lab := labelFor s v d) in *.
    split_and!; [rewrite length_app; simpl; lia|intros; apply Hnone; [done|split; [done|lia]]| | | |].
    + intros i l [[_ Hi]|[_ Hi]]%Hat; [by eapply Hm|by injection Hi as ->].
    + intros k. rewrite count_label_assoc, Hc, len_filter_snoc. destruct (String.eqb_spec k lab) as [->|Hne]; [by rewrite decide_True|by rewrite decide_False by congruence].
    + rewrite count_label_keys; [done|]. by rewrite Hk.
    + by rewrite count_label_total, Ht, len_filter_snoc, decide_True by done.
Qed.

Lemma classify_bars_ok cl : pass_ok (length cl) (classify_bars cl).
Proof.
  unfold classify_bars. set (p0 := {| marks := [] |}). set (ret := returns cl).
  assert (forall n k p, pass_ok k p -> pass_ok (k + n) (fold_left (classify_bar cl ret) (seq k n) p)) as Hgo.
  { induction n as [|n IH]; intros k p Hp; cbn [seq fold_left]; [by rewrite Nat.add_0_r|].
    rewrite Nat.add_succ_r. apply (IH (S k)). by apply classify_bar_ok. }
  apply (Hgo (length cl) 0%nat p0). split_and!; try done; [intros; lia|].
  intros k. cbn. by repeat destruct (String.eqb k _).
Qed.

(** Read off a pass over a series of [n] bars. *)
Lemma labelled_bars n p : pass_ok n p -> (WINDOW < n)%nat ->
  len (filter (fun l => l <> None) (marks p)) = Z.of_nat (n - WINDOW) /\ exists l, last (marks p) = Some (Some l).
Proof.
  intros (Hl & Hn & _) Hw. split.
  - assert (forall (l : list (option string)) a b, length l = (a + b)%nat -> (forall i, (i < a + b)%nat -> l !! i = Some None <-> (i < a)%nat) ->
      len (filter (fun x => x <> None) l) = Z.of_nat b) as Hgo.
    { induction l as [|x l IH]; intros a b Hab Hi; [cbn in *; unfold len; cbn; lia|]. rewrite filter_cons. pose proof (Hi 0%nat) as H0'. cbn in H0', Hab.
      destruct a as [|a].
      - rewrite decide_True by (intros ->; destruct H0' as [H0' _]; [lia|]; specialize (H0' eq_refl); lia). unfold len in *. cbn [length]. rewrite Nat2Z.inj_succ.
        rewrite (IH 0%nat (b - 1)%nat); [lia|lia|]. intros i Hib. specialize (Hi (S i)). cbn in Hi. rewrite Hi by lia. lia.
      - rewrite decide_False by (intros Hx; apply Hx; destruct H0' as [_ H0']; [lia|]; assert (Some x = Some None) as [= ->] by (apply H0'; lia); done).
        apply (IH a); [lia|]. intros i Hib. specialize (Hi (S i)). cbn in Hi. rewrite Hi by lia. lia. }
    apply (Hgo (marks p) WINDOW); [lia|]. intros i Hi. apply Hn. lia.
  - rewrite last_lookup, Hl. destruct (marks p !! Nat.pred n) as [[l|]|] eqn:E; [by exists l| |apply lookup_ge_None in E; lia].
    apply Hn in E; lia.
Qed.

Lemma mapM_length {A B} (f : A -> option B) l k : mapM f l = Some k -> length k = length l.
Proof. intros H1%mapM_Some. symmetry. by eapply Forall2_length. Qed.

Lemma dates_of_length v n now ds : dates_of v n now = Ok ds -> length ds = n.
Proof.
  unfold dates_of, syntheticDates. destruct v as [[| | | |l|]|]; try done; [|intros [= <-]; by rewrite length_fmap, length_rev, length_seq].
  destruct (Nat.eqb_spec (length l) n) as [<-|]; [|done]. destruct (mapM date_text l) as [k|] eqn:E; [|done]. intros [= <-]. by eapply mapM_length.
Qed.

Lemma tail_agrees (regime : list (option string)) l : last regime = Some (Some l) ->
  last_label regime = l /\ (1 <= length (filter (fun x => x = l) (tail_of regime)) <= length (tail_of regime))%nat /\ (length (tail_of regime) <= WINDOW)%nat.
Proof.
  intros Hl. split; [unfold last_label; by rewrite Hl|]. unfold tail_of. set (d := drop _ _).
  assert (length d <= WINDOW)%nat as Hd by (unfold d; rewrite length_drop; lia).
  assert (forall x : list (option string), length (omap (fun y => y) x) <= length x)%nat as Ho.
  { induction x as [|[y|] x IH]; cbn; lia. }
  split_and!; [|apply length_filter|specialize (Ho d); lia].
  apply last_Some in Hl as [r ->]. assert (l ∈ omap (fun y => y) d) as Hin.
  { apply list_elem_of_omap. exists (Some l). split; [|done]. unfold d. rewrite drop_app, length_app. apply elem_of_app. right. cbn [length].
    replace (length r + 1 - WINDOW - length r)%nat with 0%nat by (unfold WINDOW; lia). by apply list_elem_of_singleton. }
  assert (l ∈ filter (fun x => x = l) (omap (fun y => y) d)) as Hf by (by apply list_elem_of_filter).
  destruct (filter _ _); [by apply elem_of_nil in Hf|cbn; lia].
Qed.

Lemma tally_counts m k : k ∈ m.*1 -> assoc k ((fun c : string * Z => (c.1, int c.2)) <$> m) = Some (int (default 0 (assoc k m))).
Proof.
  induction m as [|[k' w] m IH]; cbn; [by intros ?%elem_of_nil|]. intros Hk. destruct (String.eqb_spec k k') as [->|Hne]; [done|].
  apply IH. by apply elem_of_cons in Hk as [|].
Qed.

Lemma total_of_counts m : total_of m = fold_right Z.add 0 m.*2.
Proof. induction m as [|c m IH]; [done|]. unfold total_of in *. cbn. by rewrite IH. Qed.

(** What is saved as a run is consistent: a payload has between 21 and 5000
    bars, a date, a price and a mark for each; the first 20 bars have no label
    and every later one has one of the four; the counts of the four labels are
    those of the marks and sum to the number of labelled bars; the snapshot is
    that of the last bar, on the last date, and its confidence is the share,
    kept between 0.4 and 0.98, of the at most 20 last bars that agree with it,
    at least the last one itself. *)
Theorem classified_consistent tick close_ dates_ now p :
  classifyRegime tick close_ dates_ now = Classified_ok p ->
  Z.of_nat WINDOW < len (close p) <= MAX_SERIES /\ length (dates p) = length (close p) /\ length (regime p) = length (close p) /\
  (forall i, (i < length (close p))%nat -> regime p !! i = Some None <-> (i < WINDOW)%nat) /\
  (forall i l, regime p !! i = Some (Some l) -> l ∈ labels) /\
  (counts p).*1 = labels /\
  (forall k, k ∈ labels -> assoc k (counts p) = Some (int (len (filter (fun l => l = Some k) (regime p))))) /\
  (exists ns, (counts p).*2 = int <$> ns /\ fold_right Z.add 0 ns = len (close p) - Z.of_nat WINDOW) /\
  exists s, snapshot p = Some s /\ last (regime p) = Some (Some (s_label s)) /\ last (dates p) = Some (as_of s) /\
  exists agree n, 1 <= agree <= n /\ n <= Z.of_nat WINDOW /\
  confidence s = toFixed 4 (num_max (frac 4 10) (num_min (frac 98 100) (frac agree n))).
Proof.
  unfold classifyRegime. intros E. destruct (ticker_of tick) as [t|]; [|done]. destruct (_ || _); [done|]. cbv zeta in E.
  destruct (len (array_or_empty close_) <? _) eqn:Es; [done|]. destruct (len (array_or_empty close_) >? _) eqn:El; [done|].
  destruct (mapM isFinitePos _) as [cl|] eqn:Ec; [|done]. apply mapM_length in Ec. destruct (dates_of _ _ _) as [ds|] eqn:Ed; [|done].
  injection E as <-. apply dates_of_length in Ed. pose proof (classify_bars_ok cl) as Hok. set (q := classify_bars cl) in *.
  assert (WINDOW < length cl)%nat as Hw by (bool_to_prop; unfold len in Es; lia).
  destruct (labelled_bars _ _ Hok Hw) as [Hlen [lab Hlast]]. destruct Hok as (H1 & H2 & H3 & H4 & H5 & H6).
  cbn [payload_of close dates regime counts snapshot]. fold q. split_and!; try done.
  - unfold len. lia.
  - bool_to_prop. unfold len in *. lia.
  - rewrite <- list_fmap_compose. cbn. by rewrite <- H5.
  - intros k Hk. rewrite tally_counts by (by rewrite H5). by rewrite H4.
  - exists (tally q).*2. rewrite <- !list_fmap_compose. split; [done|]. rewrite <- total_of_counts, H6, Hlen. unfold len. lia.
  - eexists. split; [done|]. destruct (tail_agrees _ _ Hlast) as (Hl & Ha & Ht). cbn [s_label as_of confidence]. split_and!.
    + by rewrite Hl.
    + destruct (last ds) as [d|] eqn:El'; [done|]. apply last_None in El'. subst ds. cbn in Ed. lia.
    + exists (len (filter (fun x => x = lab) (tail_of (marks q)))), (len (tail_of (marks q))).
      split_and!; [unfold len; lia..|]. unfold confidence_of. rewrite Hl. cbv zeta. by rewrite (proj2 (Z.eqb_neq _ _)) by (unfold len; lia).
Qed.
End Classifier.

Section Demo.
Definition regime_op (f : QArith_base.Q -> QArith_base.Q -> QArith_base.Q) (a b : num) : num :=
  match a, b with Fin p, Fin q => Fin (Qreduction.Qred (f p q)) | _, _ => NaN end.
Local Instance regime_floats : FloatOps := {|
  fadd := regime_op QArith_base.Qplus; fsub := regime_op QArith_base.Qminus; fmul := regime_op QArith_base.Qmult; fdiv := regime_op QArith_base.Qdiv;
  toFixed _ n := n |}.
(** The logarithm to the first order; a root that is enough for a flat series. *)
Local Instance regime_maths : MathOps := {| flog n := fsub n (int 1); fsqrt n := n; fsquare n := fmul n n |}.

(** Twenty flat days and a rise of two percent. *)
Definition demo_series : jval := Some (JArr (replicate 20 (JNum (int 100)) ++ [JNum (int 102)])).

Lemma classified_consistent_witness :
  exists p, classifyRegime (Some (JStr " nvda ")) demo_series None 1767225600000 = Classified_ok p /\
  len (close p) = 21 /\ counts p = [("bull", int 1); ("chop", int 0); ("bear", int 0); ("crash", int 0)] /\
  exists ns, (counts p).*2 = int <$> ns /\ fold_right Z.add 0 ns = 1.
Proof.
  destruct (classifyRegime (Some (JStr " nvda ")) demo_series None 1767225600000) as [p| |] eqn:E; [|revert E; vm_compute; discriminate..].
  destruct (classified_consistent _ _ _ _ p E) as (_ & _ & _ & _ & _ & _ & _ & (ns & Hn & Hs) & _).
  assert (len (close p) = 21 /\ counts p = [("bull", int 1); ("chop", int 0); ("bear", int 0); ("crash", int 0)]) as [Hl Hc].
  { revert E. vm_compute. intros E. injection E as <-. split; reflexivity. }
  exists p. split; [reflexivity|]. split; [exact Hl|]. split; [exact Hc|]. exists ns. split; [exact Hn|]. rewrite Hs, Hl. reflexivity.
Defined.

(** A ticker that is neither a string nor falsy makes the classifier throw. *)
Lemma ticker_number_throws : classifyRegime (Some (JNum (int 7))) demo_series None 0 = Throws.
Proof. reflexivity. Qed.
End Demo.
