(* ===== verification/KeyLifecycle.v ===== *)
(** The age of keys: rotation ([web/lib/rotationPolicy.ts]), expiry reports
    ([web/lib/keyExpiry.ts]) and dormancy reports ([web/lib/keyDormancy.ts]). *)
From S2P Require Import Prelude JsNum JsDate IsoTime Json Store Interleave AuthLockout KeyStore.

Definition MS_PER_DAY : Z := 86400000.

(** ** Rotation policy *)

Record RotationPolicy := {
  max_age_days : Z;
  warn_days : Z;
  updated_at : iso;
  updated_by : option string;
}.

(** [Number.parseInt(raw, 10)]; [None] is [NaN]. *)
Fixpoint digits_value (acc : Z) (s : string) : Z :=
  match s with
  | "" => acc
  | String c r => match digit_value c with Some d => digits_value (10 * acc + d) r | None => acc end
  end.

Definition parse_digits (s : string) : option Z :=
  match s with String c _ => if digit_value c is Some _ then Some (digits_value 0 s) else None | "" => None end.

Definition parseInt (s : string) : option Z :=
  match trim_start s with
  | String "-" r => Z.opp <$> parse_digits r
  | String "+" r => parse_digits r
  | r => parse_digits r
  end.

(** The environment variable, when it is set. *)
Definition envInt (raw : option string) (fallback : Z) : Z :=
  match raw with
  | None => fallback
  | Some s => if negb (truthy s) then fallback
              else match parseInt s with Some n => if n <? 0 then fallback else n | None => fallback end
  end.

(** The environment the process was started with. *)
Record rotation_env := { SIGNALCLAW_MAX_KEY_AGE_DAYS : option string; SIGNALCLAW_KEY_ROTATION_WARN_DAYS : option string }.

Definition defaultPolicy (env : rotation_env) : RotationPolicy :=
  {| max_age_days := envInt (SIGNALCLAW_MAX_KEY_AGE_DAYS env) 0;
     warn_days := envInt (SIGNALCLAW_KEY_ROTATION_WARN_DAYS env) 7;
     updated_at := Iso 0; updated_by := None |}.

(** [Number.isFinite(v) ? Math.max(0, Math.floor(v)) : d]. *)
Definition days_or (d : Z) (v : jval) : Z :=
  match v with Some (JNum n) => if is_finite n then Z.max 0 (floorZ n) else d | _ => d end.

Definition normalize (env : rotation_env) (p : json) : RotationPolicy :=
  let d := defaultPolicy env in
  {| max_age_days := days_or (max_age_days d) (field "max_age_days" p);
     warn_days := days_or (warn_days d) (field "warn_days" p);
     updated_at := default (updated_at d) (iso_or_null (field "updated_at" p));
     updated_by := string_or_null (field "updated_by" p) |}.

Definition encode_policy (p : RotationPolicy) : json :=
  JObj [("max_age_days", JNum (int (max_age_days p))); ("warn_days", JNum (int (warn_days p)));
        ("updated_at", jiso (updated_at p)); ("updated_by", jopt JStr (updated_by p))].

Definition policy_ok (p : RotationPolicy) : Prop := 0 <= max_age_days p /\ 0 <= warn_days p /\ iso_ok (updated_at p).

Lemma rotation_policy_roundtrip env p : policy_ok p -> normalize env (encode_policy p) = p.
Proof.
  intros (H1 & H2 & H3). unfold normalize, encode_policy. cbn [field assoc String.eqb Ascii.eqb Bool.eqb days_or is_finite int].
  fold (int (max_age_days p)) (int (warn_days p)). rewrite !floorZ_int, !Z.max_r by done.
  change (iso_or_null (Some (jiso (updated_at p)))) with (Some (iso_of_string (iso_string (updated_at p)))).
  rewrite iso_of_string_iso, string_or_null_jopt by done. by destruct p.
Qed.

Section Policy.
Context (env : rotation_env).

#[local] Instance RotationPolicy_persisted : Persisted RotationPolicy := {|
  raw := json; encode := encode_policy; decode := normalize env; absent := defaultPolicy env;
  storable := policy_ok; decode_encode := rotation_policy_roundtrip env |}.

Definition getRotationPolicy (f : file RotationPolicy) : RotationPolicy := read_file f.

Inductive PolicyError := invalid_policy.
Record PolicyInput := { in_max_age_days : option num; in_warn_days : option num; in_updated_by : option string }.

Definition bad_days (n : num) : bool := negb (is_finite n) || num_lt n (int 0).

Definition set_rotation_tx (now : Z) (input : PolicyInput)
  : transaction RotationPolicy (result RotationPolicy PolicyError) := fun current =>
  let mx := default (int (max_age_days current)) (in_max_age_days input) in
  let wn := default (int (warn_days current)) (in_warn_days input) in
  if bad_days mx then (Err invalid_policy, None)
  else if bad_days wn then (Err invalid_policy, None)
  else let next := {| max_age_days := floorZ mx; warn_days := floorZ wn; updated_at := Iso now;
                      updated_by := in_updated_by input |} in
       (Ok next, Some next).

Definition setRotationPolicy now input (f : file RotationPolicy) := on_file (set_rotation_tx now input) f.

Lemma bad_days_floor n : bad_days n = false -> 0 <= floorZ n.
Proof.
  unfold bad_days. intros H. apply orb_false_elim in H as [Hf Hl]. destruct n as [| |q]; try done.
  by apply floor_ge_bound.
Qed.

(** What is set is what is read back. *)
Lemma setRotationPolicy_get now input f p f' :
  iso_range now -> setRotationPolicy now input f = (Ok p, f') -> getRotationPolicy f' = p /\ policy_ok p.
Proof.
  intros Hn. unfold setRotationPolicy, on_file, set_rotation_tx. cbn zeta.
  destruct (bad_days _) eqn:E1; [done|]. destruct (bad_days (default (int (warn_days _)) _)) eqn:E2; [done|].
  intros [= <- <-]. apply bad_days_floor in E1, E2. unfold getRotationPolicy.
  rewrite read_write; done.
Qed.
End Policy.

(** ** Evaluation *)

Inductive RotationStatus := ok | warning | stale | disabled.

#[export] Instance RotationStatus_eq_dec : EqDecision RotationStatus.
Proof. solve_decision. Defined.

Record RotationEvaluation := {
  status : RotationStatus;
  age_days : Z;
  days_until_rotation : option Z;
  rotate_by : option Z;
  policy : RotationPolicy;
}.

(** The largest time value; [toISOString] throws beyond it. *)
Definition MAX_TIME : Z := 8640000000000000.

Definition evaluateKeyRotation (created_at : iso) (p : RotationPolicy) (now : Z) : result RotationEvaluation unit :=
  let t0 := date_parse created_at in
  let ageMs := match t0 with Some t => Z.max 0 (now - t) | None => 0 end in
  let age := ageMs / MS_PER_DAY in
  if max_age_days p <=? 0 then
    Ok {| status := disabled; age_days := age; days_until_rotation := None; rotate_by := None; policy := p |}
  else
    let by_ := (fun t => t + max_age_days p * MS_PER_DAY) <$> t0 in
    if match by_ with Some b => Z.abs b >? MAX_TIME | None => false end then Err tt else
    let days := max_age_days p - age in
    Ok {| status := if days <=? 0 then stale else if days <=? warn_days p then warning else ok;
          age_days := age; days_until_rotation := Some days; rotate_by := by_; policy := p |}.

Record RotationDecision := { blocked : bool; evaluation : RotationEvaluation }.

Definition decideRotationBlock (created_at : iso) (p : RotationPolicy) (now : Z) : result RotationDecision unit :=
  result_bind (evaluateKeyRotation created_at p now) (fun e =>
    Ok {| blocked := bool_decide (status e = stale); evaluation := e |}).

Lemma age_reaches a m : 0 < m -> m <= Z.max 0 a / MS_PER_DAY <-> m * MS_PER_DAY <= a.
Proof. intros Hm. unfold MS_PER_DAY. Z.to_euclidean_division_equations; lia. Qed.

(** Rotation is enforced to the millisecond: a key is blocked exactly when a
    policy is in force and the moment [rotate_by], the creation time plus the
    allowed days, has come; it then stays blocked. The warning covers the last
    [warn_days] days before. The only other outcome is the [RangeError] of a
    limit beyond the range of dates. *)
Theorem rotation_blocks_exactly_overage created p now d :
  decideRotationBlock (Iso created) p now = Ok d ->
  (blocked d = true <-> 0 < max_age_days p /\ created + max_age_days p * MS_PER_DAY <= now) /\
  (0 < max_age_days p -> rotate_by (evaluation d) = Some (created + max_age_days p * MS_PER_DAY)) /\
  (status (evaluation d) = warning ->
     now < created + max_age_days p * MS_PER_DAY /\
     created + (max_age_days p - warn_days p) * MS_PER_DAY <= Z.max created now) /\
  (forall later d', now <= later -> decideRotationBlock (Iso created) p later = Ok d' ->
     blocked d = true -> blocked d' = true).
Proof.
  assert (Hspec : forall t x, decideRotationBlock (Iso created) p t = Ok x ->
    blocked x = true <-> 0 < max_age_days p /\ created + max_age_days p * MS_PER_DAY <= t).
  { intros t x. unfold decideRotationBlock, evaluateKeyRotation. simpl.
    destruct (max_age_days p <=? 0) eqn:Em; bool_to_prop; [intros [= <-]; simpl; split; [done|lia]|].
    destruct (_ >? _); [done|]. intros [= <-]. simpl. rewrite bool_decide_eq_true.
    pose proof (age_reaches (t - created) (max_age_days p) Em).
    destruct (_ - _ <=? 0) eqn:Ed; bool_to_prop; [split; [lia|done]|].
    split; [by destruct (_ <=? warn_days p)|]. lia. }
  intros Hd. split; [by apply Hspec|]. split; [|split].
  - intros Hm. revert Hd. unfold decideRotationBlock, evaluateKeyRotation. simpl.
    destruct (max_age_days p <=? 0) eqn:Em; bool_to_prop; [lia|]. destruct (_ >? _); [done|]. by intros [= <-].
  - intros Hw. revert Hd Hw. unfold decideRotationBlock, evaluateKeyRotation. simpl.
    destruct (max_age_days p <=? 0) eqn:Em; bool_to_prop; [by intros [= <-]|]. destruct (_ >? _); [done|].
    intros [= <-]. simpl. pose proof (age_reaches (now - created) (max_age_days p) Em).
    destruct (_ - _ <=? 0) eqn:Ed; bool_to_prop; [done|]. destruct (_ <=? warn_days p) eqn:Ew; bool_to_prop; [|done].
    intros _. split; [lia|]. unfold MS_PER_DAY in *. Z.to_euclidean_division_equations; lia.
  - intros later d' Hle Hd' Hb. apply (Hspec _ _ Hd') . apply (Hspec _ _ Hd) in Hb. lia.
Qed.

(** [setRotationPolicy] accepts every finite limit, and a limit of a few hundred
    million days makes the evaluation of every key throw. *)
Lemma huge_limit_throws :
  let p := {| max_age_days := 200000000; warn_days := 7; updated_at := Iso 0; updated_by := None |} in
  bad_days (int (max_age_days p)) = false /\ decideRotationBlock (Iso 1700000000000) p 1700000000000 = Err tt.
Proof. by split. Qed.

(** A creation time that is not a date is never old. *)
Lemma undated_key_never_stale s p now d : decideRotationBlock (NotADate s) p now = Ok d -> blocked d = false.
Proof.
  unfold decideRotationBlock, evaluateKeyRotation. simpl. destruct (max_age_days p <=? 0) eqn:Em; [by intros [= <-]|].
  bool_to_prop. intros [= <-]. simpl. apply bool_decide_eq_false. change (0 / MS_PER_DAY) with 0. rewrite Z.sub_0_r.
  destruct (max_age_days p <=? 0) eqn:E; [bool_to_prop; lia|]. by destruct (_ <=? warn_days p).
Qed.

(** ** Expiry report *)

Inductive ExpiryBucket := expired | critical | soon | upcoming.

#[export] Instance ExpiryBucket_eq_dec : EqDecision ExpiryBucket.
Proof. solve_decision. Defined.

Definition CRITICAL_MS : Z := 24 * 60 * 60 * 1000.
Definition SOON_MS : Z := 7 * 24 * 60 * 60 * 1000.
Definition MAX_WITHIN_DAYS : Z := 365.

Record ClassifiedKey := {
  c_id : string; c_label : string; c_prefix : string; c_scopes : list Scope; c_expires_at : iso;
  expires_in_ms : Z; expires_in_days : Z; bucket : ExpiryBucket; c_revoked : bool; c_suspended : bool }.

Definition classifyKey (k : StoredKey) (now : Z) : option ClassifiedKey :=
  match expires_at k with
  | None => None
  | Some e =>
      if negb (iso_truthy e) then None
      else if revoked k then None
      else if suspended k then None
      else match date_parse e with
           | None => None
           | Some t =>
               let ms := t - now in
               Some {| c_id := id k; c_label := label k; c_prefix := prefix k; c_scopes := scopes k;
                       c_expires_at := e; expires_in_ms := ms; expires_in_days := Z.quot ms (24 * 60 * 60 * 1000);
                       bucket := if ms <=? 0 then expired else if ms <=? CRITICAL_MS then critical
                                 else if ms <=? SOON_MS then soon else upcoming;
                       c_revoked := revoked k; c_suspended := suspended k |}
           end
  end.

(** [Math.max(1, Math.min(365, n))] of an integral value; [None] is [NaN]. *)
Definition window_of (n : num) : option Z :=
  match num_max (int 1) (num_min (int MAX_WITHIN_DAYS) n) with Fin q => Some (floorZ (Fin q)) | _ => None end.

Record expiry_counts := {
  n_expired : Z; n_critical : Z; n_soon : Z; n_upcoming : Z;
  active_with_expiry : Z; no_expiry : Z; revoked_or_suspended : Z }.

Record ExpirySummary := { generated_at : Z; window_days : option Z; counts : expiry_counts; listed : list ClassifiedKey }.

Definition count {A} (p : A -> bool) (l : list A) : Z := Z.of_nat (length (filter (fun a => p a = true) l)).

Definition inactive (k : StoredKey) : bool := revoked k || suspended k.
Definition undated (k : StoredKey) : bool :=
  match expires_at k with None => true | Some e => negb (iso_truthy e) end.

Definition in_window (w : option Z) (c : ClassifiedKey) : bool :=
  (expires_in_ms c <=? 0) || match w with Some d => expires_in_ms c <=? d * 24 * 60 * 60 * 1000 | None => false end.

Definition in_bucket (b : ExpiryBucket) (c : ClassifiedKey) : bool := bool_decide (bucket c = b).

Definition summarizeExpiry (ks : list StoredKey) (now : Z) (windowDays : option num) : ExpirySummary :=
  let w := window_of (num_trunc (default (int 30) windowDays)) in
  let live := filter (fun k => inactive k = false) ks in
  let classified := omap (fun k => classifyKey k now) (filter (fun k => undated k = false) live) in
  let inWindow := js_sort (by_asc expires_in_ms) (filter (fun c => in_window w c = true) classified) in
  {| generated_at := now; window_days := w;
     counts := {| n_expired := count (in_bucket expired) inWindow; n_critical := count (in_bucket critical) inWindow;
                  n_soon := count (in_bucket soon) inWindow; n_upcoming := count (in_bucket upcoming) inWindow;
                  active_with_expiry := Z.of_nat (length classified);
                  no_expiry := count undated live;
                  revoked_or_suspended := count inactive ks |};
     listed := inWindow |}.

(** The report calls a live key expired exactly when authentication does. *)
Lemma expired_bucket_agrees k now :
  inactive k = false ->
  isExpired k now = true <-> exists c, classifyKey k now = Some c /\ bucket c = expired.
Proof.
  unfold inactive, isExpired, classifyKey. intros Hi. apply orb_false_elim in Hi as [-> ->].
  destruct (expires_at k) as [e|]; [|naive_solver]. destruct (negb (iso_truthy e)); [naive_solver|].
  destruct (date_parse e) as [t|]; [|naive_solver]. split.
  - intros Hle. eexists. split; [done|]. simpl. bool_to_prop. by rewrite (proj2 (Z.leb_le _ _)) by lia.
  - intros (c & [= <-] & Hb). simpl in Hb. destruct (t - now <=? 0) eqn:E; bool_to_prop; [apply Z.leb_le; lia|].
    by repeat case_match.
Qed.

(** Expired keys are listed whatever the window, most urgent first. *)
Lemma expiry_report_order ks now w :
  StronglySorted (fun a b => expires_in_ms a <= expires_in_ms b) (listed (summarizeExpiry ks now w)) /\
  forall k c, k ∈ ks -> inactive k = false -> classifyKey k now = Some c -> bucket c = expired ->
    c ∈ listed (summarizeExpiry ks now w).
Proof.
  split; [apply by_asc_sorted|]. intros k c Hk Hi Hc Hb. simpl. rewrite js_sort_elem, list_elem_of_filter. split.
  - unfold in_window. apply orb_true_iff. left. revert Hc Hb. unfold classifyKey.
    destruct (expires_at k) as [e|]; [|done]. repeat (case_match; [done|]). case_match; [|done].
    intros [= <-]. simpl. destruct (_ <=? 0) eqn:E; [done|]. by repeat case_match.
  - apply list_elem_of_omap. exists k. split; [|done]. rewrite !list_elem_of_filter. repeat split; try done.
    unfold undated. unfold classifyKey in Hc. destruct (expires_at k) as [e|]; [|done]. by destruct (negb (iso_truthy e)).
Qed.

(** A key that expires in ninety days is filed as "upcoming" when the window
    reaches that far, although that bucket is documented as thirty days. *)
Lemma upcoming_beyond_thirty_days k c :
  expires_at k = Some (Iso (90 * MS_PER_DAY)) -> inactive k = false -> classifyKey k 0 = Some c ->
  bucket c = upcoming.
Proof. unfold inactive, classifyKey. intros -> [-> ->]%orb_false_elim. by intros [= <-]. Qed.

(** ** Dormancy report *)

Inductive DormancyBucket := active | quiet | dormant | abandoned | gone | unknown.

#[export] Instance DormancyBucket_eq_dec : EqDecision DormancyBucket.
Proof. solve_decision. Defined.

Definition QUIET_MS : Z := 30 * MS_PER_DAY.
Definition DORMANT_MS : Z := 90 * MS_PER_DAY.
Definition ABANDONED_MS : Z := 180 * MS_PER_DAY.

Definition parseIso (raw : option iso) : option Z :=
  match raw with Some d => if iso_truthy d then date_parse d else None | None => None end.

Definition silenceAnchorMs (k : StoredKey) : option Z :=
  match parseIso (last_used_at k) with Some t => Some t | None => parseIso (Some (created_at k)) end.

Definition lapsed (k : StoredKey) (now : Z) : bool :=
  match expires_at k with
  | Some e => match parseIso (Some e) with Some t => t <=? now | None => false end
  | None => false
  end.

(** [gone] is the bucket "revoked". *)
Definition dormancyBucket (k : StoredKey) (now : Z) : DormancyBucket :=
  if revoked k then gone
  else if suspended k then gone
  else if lapsed k now then gone
  else match silenceAnchorMs k with
       | None => unknown
       | Some a =>
           let silent := Z.max 0 (now - a) in
           if silent >=? ABANDONED_MS then abandoned
           else if silent >=? DORMANT_MS then dormant
           else if silent >=? QUIET_MS then quiet
           else active
       end.

Record ClassifiedDormantKey := {
  d_id : string; d_label : string; d_prefix : string; d_scopes : list Scope; d_last_used_at : option iso;
  d_created_at : iso; silent_ms : Z; silent_days : Z; d_bucket : DormancyBucket; never_used : bool; d_revoked : bool }.

Definition reviewed (b : DormancyBucket) : bool :=
  negb (bool_decide (b = active) || bool_decide (b = gone) || bool_decide (b = unknown)).

Definition classify_dormant (now : Z) (w : option Z) (k : StoredKey) : option ClassifiedDormantKey :=
  let b := dormancyBucket k now in
  if negb (reviewed b) then None else
  let ms := match silenceAnchorMs k with None => 0 | Some a => Z.max 0 (now - a) end in
  if match w with Some d => ms <? d * MS_PER_DAY | None => false end then None
  else Some {| d_id := id k; d_label := label k; d_prefix := prefix k; d_scopes := scopes k;
               d_last_used_at := last_used_at k; d_created_at := created_at k; silent_ms := ms;
               silent_days := ms / MS_PER_DAY; d_bucket := b;
               never_used := match last_used_at k with Some d => negb (iso_truthy d) | None => true end;
               d_revoked := revoked k |}.

Record dormancy_counts := {
  n_quiet : Z; n_dormant : Z; n_abandoned : Z; n_never_used : Z; n_active : Z; n_gone : Z; n_unknown : Z }.

Record DormancySummary := {
  d_generated_at : Z; d_window_days : option Z; d_counts : dormancy_counts; d_listed : list ClassifiedDormantKey }.

Definition summarizeDormancy (ks : list StoredKey) (now : Z) (windowDays : option num) : DormancySummary :=
  let w := window_of (num_floor (default (int 30) windowDays)) in
  let n b := count (fun k => bool_decide (dormancyBucket k now = b)) ks in
  let classified := omap (classify_dormant now w) ks in
  {| d_generated_at := now; d_window_days := w;
     d_counts := {| n_quiet := n quiet; n_dormant := n dormant; n_abandoned := n abandoned;
                    n_never_used := count never_used classified; n_active := n active; n_gone := n gone; n_unknown := n unknown |};
     d_listed := js_sort (by_desc silent_ms) classified |}.

Lemma count_cons {A} (p : A -> bool) a l : count p (a :: l) = (if p a then 1 else 0) + count p l.
Proof. unfold count. rewrite filter_cons. destruct (p a); simpl length; lia. Qed.

(** Every key is in exactly one bucket. *)
Lemma dormancy_partition ks now w :
  let c := d_counts (summarizeDormancy ks now w) in
  n_quiet c + n_dormant c + n_abandoned c + n_active c + n_gone c + n_unknown c = Z.of_nat (length ks).
Proof.
  unfold summarizeDormancy. cbn [d_counts n_quiet n_dormant n_abandoned n_active n_gone n_unknown].
  induction ks as [|k ks IH]; [done|]. rewrite !count_cons. cbn [length].
  assert (Hone : forall b, (if bool_decide (b = quiet) then 1 else 0) + (if bool_decide (b = dormant) then 1 else 0) +
    (if bool_decide (b = abandoned) then 1 else 0) + (if bool_decide (b = active) then 1 else 0) +
    (if bool_decide (b = gone) then 1 else 0) + (if bool_decide (b = unknown) then 1 else 0) = 1) by (by intros []).
  specialize (Hone (dormancyBucket k now)). lia.
Qed.

(** Silence only deepens: an unused key moves towards "abandoned" as time goes. *)
Definition depth (b : DormancyBucket) : Z :=
  match b with active => 0 | quiet => 1 | dormant => 2 | abandoned => 3 | gone => 4 | unknown => -1 end.

Lemma dormancy_deepens k now later :
  now <= later -> depth (dormancyBucket k now) <= depth (dormancyBucket k later).
Proof.
  intros Hle. unfold dormancyBucket. destruct (revoked k); [done|]. destruct (suspended k); [done|].
  destruct (lapsed k now) eqn:E1, (lapsed k later) eqn:E2.
  - done.
  - exfalso. unfold lapsed in *. destruct (expires_at k) as [e|]; [|done]. destruct (parseIso (Some e)); [|done].
    bool_to_prop. lia.
  - destruct (silenceAnchorMs k); [|done]. cbn zeta. repeat (destruct (_ >=? _)); done.
  - destruct (silenceAnchorMs k) as [a|]; [|done]. cbn zeta. unfold ABANDONED_MS, DORMANT_MS, QUIET_MS, MS_PER_DAY.
    repeat (destruct (_ >=? _) eqn:?; bool_to_prop); simpl; lia.
Qed.

Section Demo.
Definition demo_policy : RotationPolicy := {| max_age_days := 90; warn_days := 7; updated_at := Iso 0; updated_by := None |}.

Lemma rotation_blocks_exactly_overage_witness :
  match decideRotationBlock (Iso 0) demo_policy (90 * MS_PER_DAY) with
  | Ok d => blocked d = true
  | Err _ => False
  end.
Proof.
  destruct (decideRotationBlock (Iso 0) demo_policy (90 * MS_PER_DAY)) as [d|e] eqn:E.
  - apply (rotation_blocks_exactly_overage 0 demo_policy (90 * MS_PER_DAY) d E). vm_compute. split; [reflexivity|discriminate].
  - revert E. vm_compute. discriminate.
Defined.
End Demo.
