(* ===== verification/Base32.v ===== *)
(** RFC 4648 base32 without padding, as [base32Encode] and [base32Decode] of
    [web/lib/totpStore.ts] compute it: an accumulator in a signed 32-bit
    integer, of which only the last [bits] bits are still to be written. *)
From S2P Require Import Prelude Bits.

Definition B32_ALPHA : string := "ABCDEFGHIJKLMNOPQRSTUVWXYZ234567".

Definition b32_char (d : Z) : Ascii.ascii := default "A"%char (String.get (Z.to_nat d) B32_ALPHA).

(** [while (bits >= 5)]: the digits written, and the bits left. *)
Fixpoint emit (value : Z) (bits : nat) : list Z * nat :=
  match bits with
  | S (S (S (S (S b)))) => let '(ds, r) := emit value b in (js_and (js_shr value (Z.of_nat b)) 31 :: ds, r)
  | _ => ([], bits)
  end.

Record encoder := Encoder { e_value : Z; e_bits : nat; e_out : list Z }.

Definition encode_byte (st : encoder) (b : Z) : encoder :=
  let value := js_or (js_shl (e_value st) 8) b in
  let '(ds, bits) := emit value (e_bits st + 8) in
  Encoder value bits (e_out st ++ ds).

Definition encode_digits (bytes : list Z) : list Z :=
  let st := fold_left encode_byte bytes (Encoder 0 0 []) in
  e_out st ++ (if (0 <? e_bits st)%nat then [js_and (js_shl (e_value st) (5 - Z.of_nat (e_bits st))) 31] else []).

Definition string_of (ds : list Z) : string := foldr (fun d s => String (b32_char d) s) "" ds.

Definition base32Encode (bytes : list Z) : string := string_of (encode_digits bytes).

(** [s.replace(/=+$/g, "")] and [s.replace(/\s+/g, "")]. *)
Fixpoint drop_padding (s : string) : string :=
  match s with
  | "" => ""
  | String c r => let r' := drop_padding r in if Ascii.eqb c "=" && negb (truthy r') then "" else String c r'
  end.

Fixpoint drop_spaces (s : string) : string :=
  match s with "" => "" | String c r => if is_space c then drop_spaces r else String c (drop_spaces r) end.

Record decoder := Decoder { d_value : Z; d_bits : nat; d_out : list Z }.

Definition decode_digit (st : decoder) (idx : Z) : decoder :=
  let value := js_or (js_shl (d_value st) 5) idx in
  let bits := (d_bits st + 5)%nat in
  if (8 <=? bits)%nat then Decoder value (bits - 8) (d_out st ++ [js_and (js_shr value (Z.of_nat (bits - 8))) 0xff])
  else Decoder value bits (d_out st).

(** [None] when a character is not in the alphabet. *)
Fixpoint decode_chars (st : decoder) (s : string) : option decoder :=
  match s with
  | "" => Some st
  | String c r =>
      match str_index c B32_ALPHA with Some idx => decode_chars (decode_digit st (Z.of_nat idx)) r | None => None end
  end.

Definition base32Decode (s : string) : option (list Z) :=
  d_out <$> decode_chars (Decoder 0 0 []) (drop_spaces (drop_padding (to_upper s))).

(** ** Encoding *)

Definition is_digit32 (d : Z) : Prop := 0 <= d < 32.

Lemma js_shl_or_residue v k d n : 0 <= k -> 0 <= d < 2 ^ k -> 0 <= n <= 32 ->
  js_or (js_shl v k) d mod 2 ^ n = (v * 2 ^ k + d) mod 2 ^ n.
Proof.
  intros Hk Hd Hn. unfold js_or. rewrite i32_residue by done.
  rewrite <- (lor_shift v k d) by done. bitwise. destruct (Z.ltb_spec i n); [|done]. simpl. f_equal.
  unfold js_shl. rewrite <- (Z.mod_pow2_bits_low (i32 _) n i), i32_residue, Z.mod_pow2_bits_low by lia.
  by rewrite Z.shiftl_spec.
Qed.

(** The five bits above position [b]. *)
Lemma digit_of_value v b k :
  0 <= b -> 0 <= k < 32 -> b + k <= 32 -> js_and (js_shr v b) (Z.ones k) = (v mod 2 ^ (b + k)) / 2 ^ b.
Proof.
  intros Hb Hk Hbk. rewrite js_and_ones by lia. unfold js_shr, u32. rewrite <- Z.shiftr_div_pow2 by lia.
  bitwise. destruct (Z.ltb_spec i k), (Z.ltb_spec (i + b) 32), (Z.ltb_spec (i + b) (b + k)); try lia; done.
Qed.

Lemma split_bits v b k : 0 <= b -> 0 <= k -> v mod 2 ^ (b + k) = (v mod 2 ^ (b + k)) / 2 ^ b * 2 ^ b + v mod 2 ^ b.
Proof.
  intros Hb Hk. pose proof (Z.pow_pos_nonneg 2 b) as Hp. rewrite (Z.div_mod (v mod 2 ^ (b + k)) (2 ^ b)) at 1 by lia.
  rewrite (Z.mul_comm (2 ^ b)). f_equal. bitwise. destruct (Z.ltb_spec i b), (Z.ltb_spec i (b + k)); try lia; done.
Qed.

Lemma pow_digits B k n r : B = 2 ^ Z.of_nat k -> 2 ^ Z.of_nat (k * n + r) = B ^ Z.of_nat n * 2 ^ Z.of_nat r.
Proof. intros ->. rewrite Nat2Z.inj_add, Nat2Z.inj_mul, Z.pow_add_r, Z.pow_mul_r by lia. done. Qed.

Lemma emit_spec v n :
  (n < 32)%nat ->
  let '(ds, r) := emit v n in
  (r < 5)%nat /\ (n = 5 * length ds + r)%nat /\ Forall is_digit32 ds /\
  v mod 2 ^ Z.of_nat n = of_digits 32 ds * 2 ^ Z.of_nat r + v mod 2 ^ Z.of_nat r.
Proof.
  induction n as [n IH] using lt_wf_ind; intros Hn. destruct n as [|[|[|[|[|b]]]]]; try (simpl; split_and!; [lia|lia|constructor|done]).
  specialize (IH b ltac:(lia) ltac:(lia)). cbn [emit]. destruct (emit v b) as [ds r]. destruct IH as (Hr & Hb & Hds & Hv).
  replace (Z.of_nat (S (S (S (S (S b)))))) with (Z.of_nat b + 5) by lia. change 31 with (Z.ones 5). rewrite digit_of_value by lia.
  pose proof (Z.mod_pos_bound v (2 ^ (Z.of_nat b + 5)) ltac:(apply Z.pow_pos_nonneg; lia)) as Hm.
  split_and!; [lia|cbn [length]; lia| |].
  - constructor; [|done]. unfold is_digit32. split; [apply Z.div_pos; [lia|apply Z.pow_pos_nonneg; lia]|].
    apply Z.div_lt_upper_bound; [apply Z.pow_pos_nonneg; lia|]. change 32 with (2 ^ 5). rewrite <- Z.pow_add_r by lia. lia.
  - rewrite (split_bits v (Z.of_nat b) 5) at 1 by lia. rewrite Hv. change (?d :: ds) with ([d] ++ ds). rewrite of_digits_app.
    rewrite Hb at 3. rewrite (pow_digits 32 5) by done. change (of_digits 32 [?d]) with d. ring.
Qed.

(** What the digits and the pending bits stand for. *)
Definition encoded (bytes : list Z) (st : encoder) : Prop :=
  (e_bits st < 5)%nat /\ (8 * length bytes = 5 * length (e_out st) + e_bits st)%nat /\ Forall is_digit32 (e_out st) /\
  of_digits 256 bytes = of_digits 32 (e_out st) * 2 ^ Z.of_nat (e_bits st) + e_value st mod 2 ^ Z.of_nat (e_bits st).

Lemma encode_byte_spec bytes st b : is_byte b -> encoded bytes st -> encoded (bytes ++ [b]) (encode_byte st b).
Proof.
  unfold is_byte. intros Hb (H1 & H2 & H3 & H4). unfold encode_byte.
  pose proof (emit_spec (js_or (js_shl (e_value st) 8) b) (e_bits st + 8) ltac:(lia)) as He.
  destruct (emit _ _) as [ds r]. destruct He as (E1 & E2 & E3 & E4). unfold encoded. cbn [e_bits e_out e_value].
  rewrite !length_app. split_and!; [done|simpl; lia|by apply Forall_app|].
  rewrite of_digits_snoc, of_digits_app, H4. rewrite js_shl_or_residue in E4 by lia.
  rewrite Nat2Z.inj_add, Z.pow_add_r in E4 by lia. change (2 ^ Z.of_nat 8) with 256 in E4. change (2 ^ 8) with 256 in E4.
  assert (Hv : (e_value st * 256 + b) mod (2 ^ Z.of_nat (e_bits st) * 256) = e_value st mod 2 ^ Z.of_nat (e_bits st) * 256 + b).
  { pose proof (Z.pow_pos_nonneg 2 (Z.of_nat (e_bits st))). pose proof (Z.mod_pos_bound (e_value st) (2 ^ Z.of_nat (e_bits st))).
    symmetry. apply Z.mod_unique_pos with (e_value st / 2 ^ Z.of_nat (e_bits st)); [nia|].
    rewrite (Z.div_mod (e_value st) (2 ^ Z.of_nat (e_bits st))) at 1 by lia. ring. }
  rewrite Hv in E4. rewrite Z.mul_add_distr_r.
  replace (of_digits 32 (e_out st) * 2 ^ Z.of_nat (e_bits st) * 256)
    with (of_digits 32 (e_out st) * 2 ^ Z.of_nat (e_bits st + 8))
    by (rewrite Nat2Z.inj_add, Z.pow_add_r by lia; change (2 ^ Z.of_nat 8) with 256; ring).
  rewrite E2, (pow_digits 32 5) by done. rewrite <- Z.add_assoc, E4. ring.
Qed.

Lemma encode_bytes_spec bytes done st :
  Forall is_byte bytes -> encoded done st -> encoded (done ++ bytes) (fold_left encode_byte bytes st).
Proof.
  intros Hb. revert done st. induction Hb as [|b bytes Hb _ IH]; intros done st Hst; [by rewrite app_nil_r|].
  cbn [fold_left]. change (b :: bytes) with ([b] ++ bytes). rewrite app_assoc. apply IH. by apply encode_byte_spec.
Qed.

(** The digits are those of the number the bytes stand for, shifted to a
    multiple of five bits. *)
Lemma encode_digits_spec bytes :
  Forall is_byte bytes ->
  exists p, (p < 5)%nat /\ (5 * length (encode_digits bytes) = 8 * length bytes + p)%nat /\
    Forall is_digit32 (encode_digits bytes) /\ of_digits 32 (encode_digits bytes) = of_digits 256 bytes * 2 ^ Z.of_nat p.
Proof.
  intros Hb. unfold encode_digits.
  assert (He : encoded ([] ++ bytes) (fold_left encode_byte bytes (Encoder 0 0 []))).
  { apply encode_bytes_spec; [done|]. repeat split; [simpl; lia|constructor]. }
  set (st := fold_left _ _ _) in *. destruct He as (H1 & H2 & H3 & H4). rewrite app_nil_l in *.
  destruct (Nat.ltb_spec 0 (e_bits st)) as [Hp|Hp].
  - exists (5 - e_bits st)%nat. rewrite length_app. simpl length. split_and!; [lia|lia| |].
    + apply Forall_app. split; [done|]. constructor; [|constructor]. change 31 with (Z.ones 5). rewrite js_and_ones by lia.
      apply Z.mod_pos_bound. lia.
    + rewrite of_digits_snoc, H4. change 31 with (Z.ones 5). rewrite js_and_ones by lia. unfold js_shl. rewrite i32_residue by lia.
      rewrite Z.shiftl_mul_pow2 by lia. change 32 with (2 ^ 5) at 2.
      replace (2 ^ 5) with (2 ^ Z.of_nat (e_bits st) * 2 ^ Z.of_nat (5 - e_bits st)) by (rewrite <- Z.pow_add_r by lia; f_equal; lia).
      replace (5 - Z.of_nat (e_bits st)) with (Z.of_nat (5 - e_bits st)) by lia.
      rewrite Z.mul_mod_distr_r by (apply Z.pow_nonzero; lia). ring.
  - exists 0%nat. rewrite app_nil_r. replace (e_bits st) with 0%nat in * by lia. split_and!; [lia|lia|done|].
    rewrite H4. simpl Z.of_nat. rewrite Z.mod_1_r. lia.
Qed.

(** ** Decoding *)

Definition decoded (ds : list Z) (st : decoder) : Prop :=
  (d_bits st < 8)%nat /\ (5 * length ds = 8 * length (d_out st) + d_bits st)%nat /\ Forall is_byte (d_out st) /\
  of_digits 32 ds = of_digits 256 (d_out st) * 2 ^ Z.of_nat (d_bits st) + d_value st mod 2 ^ Z.of_nat (d_bits st).

Lemma decode_digit_spec ds st d : is_digit32 d -> decoded ds st -> decoded (ds ++ [d]) (decode_digit st d).
Proof.
  unfold is_digit32. intros Hd (H1 & H2 & H3 & H4). unfold decode_digit. set (v := js_or (js_shl (d_value st) 5) d).
  assert (Hv : v mod 2 ^ Z.of_nat (d_bits st + 5) = d_value st mod 2 ^ Z.of_nat (d_bits st) * 32 + d).
  { unfold v. rewrite js_shl_or_residue by lia. rewrite Nat2Z.inj_add, Z.pow_add_r by lia.
    change (2 ^ Z.of_nat 5) with 32. change (2 ^ 5) with 32.
    pose proof (Z.pow_pos_nonneg 2 (Z.of_nat (d_bits st))). pose proof (Z.mod_pos_bound (d_value st) (2 ^ Z.of_nat (d_bits st))).
    symmetry. apply Z.mod_unique_pos with (d_value st / 2 ^ Z.of_nat (d_bits st)); [nia|].
    rewrite (Z.div_mod (d_value st) (2 ^ Z.of_nat (d_bits st))) at 1 by lia. ring. }
  assert (Hn : of_digits 32 (ds ++ [d]) =
    of_digits 256 (d_out st) * 2 ^ Z.of_nat (d_bits st + 5) + v mod 2 ^ Z.of_nat (d_bits st + 5)).
  { rewrite of_digits_snoc, H4, Hv, Nat2Z.inj_add, Z.pow_add_r by lia. change (2 ^ Z.of_nat 5) with 32. ring. }
  destruct (Nat.leb_spec 8 (d_bits st + 5)) as [Hb|Hb]; unfold decoded; cbn [d_bits d_out d_value]; rewrite ?length_app; simpl length.
  - set (b := (d_bits st + 5 - 8)%nat) in *. change 0xff with (Z.ones 8). rewrite digit_of_value by lia.
    replace (Z.of_nat (d_bits st + 5)) with (Z.of_nat b + 8) in Hn by lia.
    pose proof (Z.mod_pos_bound v (2 ^ (Z.of_nat b + 8)) ltac:(apply Z.pow_pos_nonneg; lia)) as Hm.
    split_and!; [lia|lia| |].
    + apply Forall_app. split; [done|]. constructor; [|constructor]. unfold is_byte. split; [apply Z.div_pos; [lia|apply Z.pow_pos_nonneg; lia]|].
      apply Z.div_lt_upper_bound; [apply Z.pow_pos_nonneg; lia|]. change 256 with (2 ^ 8). rewrite <- Z.pow_add_r by lia. lia.
    + rewrite Hn, (split_bits v (Z.of_nat b) 8) at 1 by lia. rewrite of_digits_snoc, Z.pow_add_r by lia. change (2 ^ 8) with 256. ring.
  - split_and!; [lia|lia|done|done].
Qed.

Lemma alphabet_table :
  forallb (fun n => match str_index (b32_char (Z.of_nat n)) B32_ALPHA with Some i => (i =? n)%nat | None => false end &&
                    Ascii.eqb (upper_ascii (b32_char (Z.of_nat n))) (b32_char (Z.of_nat n)) &&
                    negb (Ascii.eqb (b32_char (Z.of_nat n)) "=") && negb (is_space (b32_char (Z.of_nat n)))) (seq 0 32) = true.
Proof. by vm_compute. Qed.

Lemma alphabet_char d :
  is_digit32 d ->
  str_index (b32_char d) B32_ALPHA = Some (Z.to_nat d) /\ upper_ascii (b32_char d) = b32_char d /\
  Ascii.eqb (b32_char d) "=" = false /\ is_space (b32_char d) = false.
Proof.
  intros Hd. unfold is_digit32 in Hd. pose proof alphabet_table as H. rewrite forallb_forall in H.
  specialize (H (Z.to_nat d) ltac:(apply in_seq; lia)). rewrite Z2Nat.id, !andb_true_iff, !negb_true_iff in H by lia.
  destruct H as [[[H1 H2] H3] H4]. destruct (str_index _ _) as [i|]; [|done]. apply Nat.eqb_eq in H1 as ->.
  apply Ascii.eqb_eq in H2. done.
Qed.

Lemma string_of_clean ds : Forall is_digit32 ds -> drop_spaces (drop_padding (to_upper (string_of ds))) = string_of ds.
Proof.
  intros Hd. assert (H1 : to_upper (string_of ds) = string_of ds).
  { induction Hd as [|d ds Hd _ IH]; [done|]. unfold to_upper in *. cbn [string_of foldr str_map]. fold (string_of ds).
    rewrite IH. by destruct (alphabet_char d Hd) as (_ & -> & _). }
  rewrite H1. clear H1. induction Hd as [|d ds Hd _ IH]; [done|]. cbn [string_of foldr drop_padding]. fold (string_of ds).
  destruct (alphabet_char d Hd) as (_ & _ & E & Es). rewrite E. cbn [andb drop_spaces]. by rewrite Es, IH.
Qed.

Lemma decode_chars_spec ds done st :
  Forall is_digit32 ds -> decoded done st ->
  exists st', decode_chars st (string_of ds) = Some st' /\ decoded (done ++ ds) st'.
Proof.
  intros Hd. revert done st. induction Hd as [|d ds Hd _ IH]; intros done st Hst; [exists st; by rewrite app_nil_r|].
  cbn [string_of foldr decode_chars]. fold (string_of ds). destruct (alphabet_char d Hd) as (-> & _).
  rewrite Z2Nat.id by apply Hd. change (d :: ds) with ([d] ++ ds). rewrite app_assoc. apply IH. by apply decode_digit_spec.
Qed.

(** Decoding what was encoded gives the bytes back, although the
    accumulator of either loop overflows its 32 bits on a 20-byte secret; the text
    has no padding and only letters of the alphabet. *)
Theorem base32_roundtrip bytes :
  Forall is_byte bytes ->
  base32Decode (base32Encode bytes) = Some bytes /\
  str_forall (fun c => str_includes (String c "") B32_ALPHA) (base32Encode bytes) = true.
Proof.
  intros Hb. destruct (encode_digits_spec bytes Hb) as (p & Hp & Hl & Hd & Hv). unfold base32Decode, base32Encode. split.
  - rewrite string_of_clean by done.
    destruct (decode_chars_spec (encode_digits bytes) [] (Decoder 0 0 []) Hd) as (st & -> & D1 & D2 & D3 & D4);
      [repeat split; [simpl; lia|constructor]|].
    rewrite app_nil_l in *. cbn [fmap option_fmap option_map]. f_equal.
    assert (length (d_out st) = length bytes /\ d_bits st = p) as [Hn <-] by lia.
    pose proof (Z.pow_pos_nonneg 2 (Z.of_nat (d_bits st)) ltac:(lia) ltac:(lia)) as Hpow.
    pose proof (Z.mod_pos_bound (d_value st) (2 ^ Z.of_nat (d_bits st)) ltac:(lia)) as Hm.
    apply (of_digits_inj 256); [lia|done|done|done|]. rewrite Hv in D4.
    destruct (Z.div_mod_unique (2 ^ Z.of_nat (d_bits st)) (of_digits 256 (d_out st)) (of_digits 256 bytes)
      (d_value st mod 2 ^ Z.of_nat (d_bits st)) 0) as [-> _]; [lia..|done].
  - clear Hl Hv. induction Hd as [|d ds Hd _ IH]; [done|]. cbn [string_of foldr str_forall]. fold (string_of ds). rewrite IH, andb_true_r.
    rewrite str_includes_char. destruct (no_char (b32_char d) B32_ALPHA) eqn:E; [|done].
    apply str_index_none in E. by destruct (alphabet_char d Hd) as (E' & _); rewrite E in E'.
Qed.

Lemma base32_roundtrip_witness :
  base32Encode [72; 101; 108; 108; 111; 33; 222; 173; 190; 239] = "JBSWY3DPEHPK3PXP" /\
  base32Decode "JBSWY3DPEHPK3PXP" = Some [72; 101; 108; 108; 111; 33; 222; 173; 190; 239].
Proof.
  split; [reflexivity|].
  apply (base32_roundtrip [72; 101; 108; 108; 111; 33; 222; 173; 190; 239]). repeat constructor; unfold is_byte; lia.
Defined.
