(* ===== verification/Totp.v ===== *)
(** Second factor of administrators: [web/lib/totpStore.ts], the gate
    [enforceAdminMfa] of [web/lib/adminMfaGuard.ts] and the enrolment route
    [web/app/api/admin/mfa/route.ts]. HMAC-SHA1 and SHA-256 are parameters; the
    bytes drawn from the random generator are arguments. *)
From S2P Require Import Prelude JsNum JsDate IsoTime Json Store Interleave Bits Base32.

Definition TOTP_STEP_SECONDS : Z := 30.
Definition TOTP_DIGITS : nat := 6.
Definition TOTP_TOLERANCE_STEPS : Z := 1.
Definition RECOVERY_CODE_COUNT : nat := 10.
Definition RECOVERY_ALPHA : string := "ABCDEFGHJKLMNPQRSTUVWXYZ23456789".

Record TotpRecord := {
  key_id : string;
  secret_b32 : string;
  created_at : Z;
  confirmed_at : option Z;
  last_verified_at : option Z;
  last_step : option Z;
  recovery_code_hashes : list string;
}.

(** The file, written only by this module. *)
Abbreviation records := (list TotpRecord).

#[export] Program Instance totp_persisted : Persisted records := {|
  raw := records; encode s := s; decode s := s; absent := []; storable _ := True |}.
Next Obligation. done. Qed.

(** ** Recovery codes *)

Definition recovery_char (b : Z) : Ascii.ascii := default "A"%char (String.get (Z.to_nat (b mod 32)) RECOVERY_ALPHA).

Fixpoint recovery_chars (bs : list Z) : string :=
  match bs with [] => "" | b :: r => String (recovery_char b) (recovery_chars r) end.

(** [randomRecoveryCode], from the ten bytes drawn. *)
Definition randomRecoveryCode (buf : list Z) : string :=
  recovery_chars (take 5 buf) +:+ "-" +:+ recovery_chars (take 5 (drop 5 buf)).

Definition is_upper_alnum (c : Ascii.ascii) : bool :=
  ((65 <=? code c) && (code c <=? 90)) || ((48 <=? code c) && (code c <=? 57)).

Definition normalizeRecoveryCode (s : string) : string := keep_chars is_upper_alnum (to_upper s).

(** ** Codes *)

(** The loop that fills the counter from its last byte. *)
Fixpoint counter_bytes (k : nat) (n : Z) : list Z :=
  match k with O => [] | S k' => counter_bytes k' (n / 256) ++ [js_and n 0xff] end.

Definition digits_only (n : nat) (s : string) : bool :=
  (String.length s =? n)%nat && str_forall (fun c => (48 <=? code c) && (code c <=? 57)) s.

Definition ctEq (a b : string) : bool := (str_len a =? str_len b) && String.eqb a b.

Definition currentStep (nowMs : Z) : Z := nowMs / (1000 * TOTP_STEP_SECONDS).

Inductive VerifyReason := not_enrolled | bad_format | invalid | replay.

Section Totp.
Variable hmac_sha1 : list Z -> list Z -> list Z.
Variable sha256 : string -> string.

(** A byte of the digest; beyond its end [undefined], which counts as 0. *)
Definition byte_at (h : list Z) (i : Z) : Z := nth (Z.to_nat i) h 0.

(** [None]: the secret is not base32. *)
Definition totpAtStep (secretB32 : string) (step : Z) : option string :=
  key ← base32Decode secretB32;
  let hmac := hmac_sha1 key (counter_bytes 8 step) in
  let offset := js_and (byte_at hmac (len hmac - 1)) 0x0f in
  let bin := js_or (js_or (js_or (js_shl (js_and (byte_at hmac offset) 0x7f) 24)
                                 (js_shl (js_and (byte_at hmac (offset + 1)) 0xff) 16))
                          (js_shl (js_and (byte_at hmac (offset + 2)) 0xff) 8))
                   (js_and (byte_at hmac (offset + 3)) 0xff) in
  Some (pad_start TOTP_DIGITS (pretty (Z.rem bin (10 ^ Z.of_nat TOTP_DIGITS)))).

(** The loop over the window, [d] from -1 to 1. *)
Fixpoint try_steps (record : TotpRecord) (code : string) (steps : list Z) : result Z VerifyReason :=
  match steps with
  | [] => Err invalid
  | step :: r =>
      match totpAtStep (secret_b32 record) step with
      | None => Err invalid
      | Some expected =>
          if ctEq expected code then
            match last_step record with
            | Some l => if step <=? l then Err replay else Ok step
            | None => Ok step
            end
          else try_steps record code r
      end
  end.

Definition window (nowMs : Z) : list Z :=
  let now := currentStep nowMs in [now - TOTP_TOLERANCE_STEPS; now; now + TOTP_TOLERANCE_STEPS].

Definition verifyCodeAgainst (record : option TotpRecord) (code : string) (nowMs : Z) : result Z VerifyReason :=
  match record with
  | None => Err not_enrolled
  | Some r => if negb (digits_only 6 code) then Err bad_format else try_steps r code (window nowMs)
  end.

(** ** Operations on the store *)

Definition find_key (keyId : string) (s : records) : option (nat * TotpRecord) := list_find (fun r => key_id r = keyId) s.

Definition get_record (keyId : string) (s : records) : option TotpRecord := snd <$> find_key keyId s.

Definition getRecord (keyId : string) (f : file records) : option TotpRecord := get_record keyId (read_file f).

Definition isEnrolled (keyId : string) (f : file records) : bool := bool_decide (getRecord keyId f <> None).

Definition is_some {A} (o : option A) : bool := match o with Some _ => true | None => false end.

Definition isFullyEnrolled (keyId : string) (f : file records) : bool :=
  match getRecord keyId f with Some r => is_some (confirmed_at r) | None => false end.

(** [encodeURIComponent]. *)
Definition uri_char (c : Ascii.ascii) : string :=
  let n := code c in
  if ((65 <=? n) && (n <=? 90)) || ((97 <=? n) && (n <=? 122)) || ((48 <=? n) && (n <=? 57)) ||
     str_includes (String c "") "-_.!~*'()" then String c ""
  else String.concat "" ((fun b => let hex d := chr (if d <? 10 then 48 + d else 55 + d) in
         String "%" (String (hex (b / 16)) (String (hex (b mod 16)) ""))) <$> utf8_char c).

Fixpoint encodeURIComponent (s : string) : string :=
  match s with "" => "" | String c r => uri_char c +:+ encodeURIComponent r end.

Record EnrollmentInit := { i_key_id : string; i_secret_b32 : string; otpauth_uri : string }.

Definition new_record (keyId secret : string) (now : Z) : TotpRecord :=
  {| key_id := keyId; secret_b32 := secret; created_at := now; confirmed_at := None; last_verified_at := None;
     last_step := None; recovery_code_hashes := [] |}.

Definition enroll_tx (keyId label : string) (random : list Z) (now : Z) : transaction records EnrollmentInit := fun s =>
  let secret := base32Encode random in
  let record := new_record keyId secret now in
  let s' := match find_key keyId s with Some (i, _) => <[i := record]> s | None => s ++ [record] end in
  let account := encodeURIComponent (if truthy label then label else keyId) in
  ({| i_key_id := keyId; i_secret_b32 := secret;
      otpauth_uri := "otpauth://totp/signalclaw:" +:+ account +:+ "?secret=" +:+ secret +:+
        "&issuer=signalclaw&algorithm=SHA1&digits=6&period=30" |}, Some s').

Definition startEnrollment keyId label random now (f : file records) := on_file (enroll_tx keyId label random now) f.

(** A code was accepted for [step]. *)
Definition mark_verified (step now : Z) (r : TotpRecord) : TotpRecord :=
  {| key_id := key_id r; secret_b32 := secret_b32 r; created_at := created_at r;
     confirmed_at := match confirmed_at r with Some t => Some t | None => Some now end;
     last_verified_at := Some now; last_step := Some step; recovery_code_hashes := recovery_code_hashes r |}.

Definition verify_tx (keyId code : string) (nowMs : Z) : transaction records (result Z VerifyReason) := fun s =>
  let rec := find_key keyId s in
  match verifyCodeAgainst (snd <$> rec) code nowMs, rec with
  | Ok step, Some (i, r) => (Ok step, Some (<[i := mark_verified step nowMs r]> s))
  | res, _ => (res, None)
  end.

Definition verifyAndMark keyId code nowMs (f : file records) := on_file (verify_tx keyId code nowMs) f.

(** [while (codes.length < RECOVERY_CODE_COUNT)], at the [i]-th draw. [fuel]
    bounds the number of draws. *)
Fixpoint mint_codes (fuel : nat) (draw : nat -> list Z) (i : nat) (codes : list string) : option (list string) :=
  if (RECOVERY_CODE_COUNT <=? length codes)%nat then Some codes else
  match fuel with
  | O => None
  | S fuel =>
      let c := randomRecoveryCode (draw i) in
      mint_codes fuel draw (S i) (if bool_decide (c ∈ codes) then codes else codes ++ [c])
  end.

Definition with_hashes (hs : list string) (r : TotpRecord) : TotpRecord :=
  {| key_id := key_id r; secret_b32 := secret_b32 r; created_at := created_at r; confirmed_at := confirmed_at r;
     last_verified_at := last_verified_at r; last_step := last_step r; recovery_code_hashes := hs |}.

(** [codes] are what the loop minted. *)
Definition regenerate_tx (keyId : string) (codes : list string) : transaction records (option (list string)) := fun s =>
  match find_key keyId s with
  | Some (i, r) =>
      if is_some (confirmed_at r) then (Some codes, Some (<[i := with_hashes (sha256 <$> codes) r]> s)) else (None, None)
  | None => (None, None)
  end.

Definition regenerateRecoveryCodes keyId codes (f : file records) := on_file (regenerate_tx keyId codes) f.

(** [norm.slice(0, 5)-norm.slice(5)]. *)
Definition dashed (norm : string) : string := str_take 5 norm +:+ "-" +:+ str_drop 5 norm.

(** A recovery code was burned. *)
Definition burn (i : nat) (now : Z) (r : TotpRecord) : TotpRecord :=
  {| key_id := key_id r; secret_b32 := secret_b32 r; created_at := created_at r; confirmed_at := confirmed_at r;
     last_verified_at := Some now; last_step := last_step r; recovery_code_hashes := delete i (recovery_code_hashes r) |}.

Definition recovery_tx (keyId candidate : string) (now : Z) : transaction records (bool * nat) := fun s =>
  match find_key keyId s with
  | None => ((false, 0%nat), None)
  | Some (i, r) =>
      let hashes := recovery_code_hashes r in
      let norm := normalizeRecoveryCode candidate in
      if negb (String.length norm =? 10)%nat then ((false, length hashes), None) else
      let wanted := sha256 (dashed norm) in
      match list_find (fun stored => ctEq stored wanted = true) hashes with
      | None => ((false, length hashes), None)
      | Some (j, _) => ((true, (length hashes - 1)%nat), Some (<[i := burn j now r]> s))
      end
  end.

Definition consumeRecoveryCode keyId candidate now (f : file records) := on_file (recovery_tx keyId candidate now) f.

Definition recoveryCodesRemaining (keyId : string) (f : file records) : nat :=
  match getRecord keyId f with Some r => length (recovery_code_hashes r) | None => 0%nat end.

Definition disable_tx (keyId : string) : transaction records bool := fun s =>
  let s' := filter (fun r => key_id r <> keyId) s in
  if (length s' =? length s)%nat then (false, None) else (true, Some s').

Definition disable keyId (f : file records) := on_file (disable_tx keyId) f.

Record TotpStatus := {
  st_key_id : string; enrolled : bool; pending : bool; st_last_verified_at : option Z; st_created_at : option Z;
  recovery_codes_remaining : nat }.

Definition statusFor (keyId : string) (f : file records) : TotpStatus :=
  match getRecord keyId f with
  | None => {| st_key_id := keyId; enrolled := false; pending := false; st_last_verified_at := None; st_created_at := None;
               recovery_codes_remaining := 0 |}
  | Some r => {| st_key_id := keyId; enrolled := is_some (confirmed_at r); pending := negb (is_some (confirmed_at r));
                 st_last_verified_at := last_verified_at r; st_created_at := Some (created_at r);
                 recovery_codes_remaining := length (recovery_code_hashes r) |}
  end.

End Totp.

(** ** RFC 6238 *)

(** Section 5.3 of RFC 4226: four bytes at the offset in the last half-byte, as
    a 31-bit number. *)
Definition dynamic_truncation (h : list Z) : Z :=
  of_digits 256 (take 4 (drop (Z.to_nat (nth 19 h 0 mod 16)) h)) mod 2 ^ 31.

Definition rfc6238 (hmac_sha1 : list Z -> list Z -> list Z) (key : list Z) (step : Z) : string :=
  pad 6 (dynamic_truncation (hmac_sha1 key (rev (le_bytes 8 step))) mod 10 ^ 6).

Lemma counter_bytes_spec k n : counter_bytes k n = rev (le_bytes k n).
Proof.
  revert n; induction k as [|k IH]; intros n; [done|]. cbn [counter_bytes le_bytes rev]. rewrite IH.
  f_equal. f_equal. change 0xff with (Z.ones 8). by rewrite js_and_ones by lia.
Qed.

Lemma js_or_shift a k d : 0 <= k -> 0 <= a -> 0 <= d < 2 ^ k -> a * 2 ^ k + d < 2 ^ 31 -> js_or (a * 2 ^ k) d = a * 2 ^ k + d.
Proof. intros Hk Ha Hd Hm. unfold js_or. rewrite <- Z.shiftl_mul_pow2, lor_shift, Z.shiftl_mul_pow2 by lia. apply i32_small. lia. Qed.

Lemma js_shl_small a k : 0 <= k -> 0 <= a -> a * 2 ^ k < 2 ^ 31 -> js_shl a k = a * 2 ^ k.
Proof. intros Hk Ha Hm. unfold js_shl. rewrite Z.shiftl_mul_pow2 by lia. apply i32_small. pose proof (Z.pow_nonneg 2 k). lia. Qed.

(** The four bytes put together with [<<] and [|]. *)
Lemma truncated a b c d :
  is_byte a -> is_byte b -> is_byte c -> is_byte d ->
  js_or (js_or (js_or (js_shl (js_and a 0x7f) 24) (js_shl (js_and b 0xff) 16)) (js_shl (js_and c 0xff) 8)) (js_and d 0xff) =
  of_digits 256 [a; b; c; d] mod 2 ^ 31.
Proof.
  unfold is_byte. intros Ha Hb Hc Hd. change 0x7f with (Z.ones 7). change 0xff with (Z.ones 8). rewrite !js_and_ones by lia.
  change (2 ^ 8) with 256. rewrite (Z.mod_small b), (Z.mod_small c), (Z.mod_small d) by lia.
  pose proof (Z.mod_pos_bound a (2 ^ 7) ltac:(lia)) as Hm. set (x := a mod 2 ^ 7) in *.
  rewrite !js_shl_small by lia.
  replace (x * 2 ^ 24) with (x * 2 ^ 8 * 2 ^ 16) by ring. replace (x * 2 ^ 8 * 2 ^ 16) with (x * 2 ^ 24) by ring.
  rewrite (js_or_shift x 24 (b * 2 ^ 16)) by lia.
  replace (x * 2 ^ 24 + b * 2 ^ 16) with ((x * 256 + b) * 2 ^ 16) by ring. rewrite (js_or_shift _ 16 (c * 2 ^ 8)) by lia.
  replace ((x * 256 + b) * 2 ^ 16 + c * 2 ^ 8) with (((x * 256 + b) * 256 + c) * 2 ^ 8) by ring. rewrite (js_or_shift _ 8 d) by lia.
  unfold of_digits. cbn [fold_left].
  apply Z.mod_unique_pos with (a / 2 ^ 7); [lia|]. unfold x. rewrite (Z.div_mod a (2 ^ 7)) at 1 by lia. ring.
Qed.

Section Rfc.
Context (hmac_sha1 : list Z -> list Z -> list Z).
(** SHA-1 digests are 20 bytes. *)
Hypothesis digest_length : forall k m, length (hmac_sha1 k m) = 20%nat.
Hypothesis digest_bytes : forall k m, Forall is_byte (hmac_sha1 k m).

Lemma take_four (h : list Z) o : (o + 4 <= length h)%nat ->
  take 4 (drop o h) = [nth o h 0; nth (o + 1) h 0; nth (o + 2) h 0; nth (o + 3) h 0].
Proof.
  revert o; induction h as [|x h IH]; intros o Ho; [simpl in Ho; lia|]. destruct o as [|o]; [|apply IH; simpl in Ho; lia].
  destruct h as [|y [|z [|w h]]]; simpl in Ho; try lia. done.
Qed.

Lemma nth_byte h i : Forall is_byte h -> is_byte (nth i h 0).
Proof.
  intros Hh. destruct (Nat.lt_ge_cases i (length h)); [|rewrite nth_overflow by done; split; lia].
  rewrite Forall_forall in Hh. by apply Hh, list_elem_of_In, nth_In.
Qed.

Lemma totpAtStep_rfc secret step : totpAtStep hmac_sha1 secret step = (fun key => rfc6238 hmac_sha1 key step) <$> base32Decode secret.
Proof using digest_length digest_bytes.
  unfold totpAtStep. destruct (base32Decode secret) as [key|]; [|done]. cbn [mbind option_bind fmap option_fmap option_map]. f_equal.
  rewrite counter_bytes_spec. set (h := hmac_sha1 key (rev (le_bytes 8 step))).
  assert (Hl : length h = 20%nat) by apply digest_length. assert (Hb : Forall is_byte h) by apply digest_bytes.
  unfold rfc6238, dynamic_truncation. fold h. change 0x0f with (Z.ones 4). unfold byte_at, len. rewrite Hl. rewrite js_and_ones by lia.
  change (Z.to_nat (Z.of_nat 20 - 1)) with 19%nat. change (2 ^ 4) with 16.
  pose proof (Z.mod_pos_bound (nth 19 h 0) 16 ltac:(lia)) as Ho. set (o := nth 19 h 0 mod 16) in *.
  rewrite truncated by (by apply nth_byte). rewrite take_four by lia. rewrite !Z2Nat.inj_add by lia.
  set (n := of_digits _ _ mod _). assert (Hn : 0 <= n < 2 ^ 31) by (by apply Z.mod_pos_bound).
  change (Z.of_nat TOTP_DIGITS) with 6. rewrite Z.rem_mod_nonneg by lia.
  apply pad_start_pretty; [unfold TOTP_DIGITS; lia|apply Z.mod_pos_bound; lia].
Qed.

Lemma pad_digits k n : 0 <= n < 10 ^ Z.of_nat k -> digits_only k (pad k n) = true.
Proof.
  intros Hn. unfold digits_only. rewrite pad_length, Nat.eqb_refl. cbn [andb]. revert n Hn; induction k as [|k IH]; intros n Hn; [done|].
  cbn [pad str_forall]. pose proof (pad_head_range k n Hn) as Hd. rewrite IH by (apply Z.mod_pos_bound, pow10_pos).
  unfold digit. rewrite code_chr by lia. rewrite andb_true_r, andb_true_iff, !Z.leb_le. lia.
Qed.

Lemma code_format secret step code : totpAtStep hmac_sha1 secret step = Some code -> digits_only 6 code = true.
Proof using digest_length digest_bytes.
  rewrite totpAtStep_rfc. destruct (base32Decode secret) as [key|]; [|done]. cbn [fmap option_fmap option_map]. intros H. injection H as <-.
  apply pad_digits, Z.mod_pos_bound. lia.
Qed.

(** C28. The code of a step is the one RFC 6238 defines: HMAC of the big-endian
    step counter, truncated to 31 bits and printed in six digits; the [<<] and [|]
    on signed 32-bit integers never reach the sign. Six digits is also the format
    the verifier insists on. *)
Theorem totp_is_rfc6238 secret step :
  totpAtStep hmac_sha1 secret step = (fun key => rfc6238 hmac_sha1 key step) <$> base32Decode secret /\
  forall code, totpAtStep hmac_sha1 secret step = Some code -> digits_only 6 code = true.
Proof using digest_length digest_bytes. split; [apply totpAtStep_rfc|apply code_format]. Qed.
End Rfc.

(** ** One record per key *)

Lemma get_record_spec k s r : get_record k s = Some r -> exists i, find_key k s = Some (i, r).
Proof. unfold get_record. destruct (find_key k s) as [[i r']|]; [|done]. intros [= ->]. by exists i. Qed.

Lemma find_key_id k s i r : find_key k s = Some (i, r) -> key_id r = k.
Proof. unfold find_key. intros H%list_find_Some. apply H. Qed.

Ltac by_search :=
  repeat case_decide; try congruence;
  repeat match goal with
         | H : context [list_find ?P ?l] |- _ => destruct (list_find P l) as [[? ?]|]
         | |- context [list_find ?P ?l] => destruct (list_find P l) as [[? ?]|]
         end; simpl in *; try congruence.

Lemma get_update k k' i r r' s :
  find_key k s = Some (i, r) -> key_id r' = k -> get_record k' (<[i := r']> s) = if decide (k' = k) then Some r' else get_record k' s.
Proof.
  intros Hf Hr. pose proof (find_key_id _ _ _ _ Hf) as Hid. unfold find_key in Hf. apply list_find_Some in Hf as (Hi & _ & Hb).
  unfold get_record, find_key. revert i Hi Hb. induction s as [|x s IH]; intros i Hi Hb; [done|]. destruct i as [|i]; simpl in *.
  - injection Hi as ->. by_search.
  - specialize (IH i Hi (fun j z Hj Hl => Hb (S j) z Hj ltac:(lia))). pose proof (Hb 0%nat x eq_refl ltac:(lia)) as Hx. by_search.
Qed.

Lemma get_app k k' r s : get_record k s = None -> key_id r = k -> get_record k' (s ++ [r]) = if decide (k' = k) then Some r else get_record k' s.
Proof. intros Hn Hr. unfold get_record, find_key in *. induction s as [|x s IH]; simpl in *; by_search; intuition congruence. Qed.

Lemma get_filter k k' s : k' <> k -> get_record k' (filter (fun r => key_id r <> k) s) = get_record k' s.
Proof.
  intros Hk. unfold get_record, find_key. induction s as [|x s IH]; [done|]. rewrite filter_cons. simpl.
  destruct (decide (key_id x <> k)) as [H|H]; simpl; [by_search|]. apply dec_stable in H. by_search.
Qed.

(** ** Histories *)

Inductive event :=
| Enroll (keyId label : string) (random : list Z) (now : Z)
| Verify (keyId code : string) (now : Z)
| Regenerate (keyId : string) (codes : list string)
| Recover (keyId candidate : string) (now : Z)
| Disable (keyId : string).

(** The event replaces or removes the enrolment of [k]. *)
Definition resets (k : string) (e : event) : bool :=
  match e with Enroll k' _ _ _ | Disable k' => String.eqb k k' | _ => false end.

Section History.
Context (hmac_sha1 : list Z -> list Z -> list Z) (sha256 : string -> string).

Definition run (e : event) (f : file records) : file records :=
  match e with
  | Enroll k l rnd now => snd (startEnrollment k l rnd now f)
  | Verify k c now => snd (verifyAndMark hmac_sha1 k c now f)
  | Regenerate k codes => snd (regenerateRecoveryCodes sha256 k codes f)
  | Recover k c now => snd (consumeRecoveryCode sha256 k c now f)
  | Disable k => snd (disable k f)
  end.

Definition run_all (evs : list event) (f : file records) : file records := fold_left (fun f e => run e f) evs f.

(** How far the replay defence of [k] has got. *)
Definition steps_upto (k : string) (l : Z) (f : file records) : Prop :=
  exists r l', getRecord k f = Some r /\ last_step r = Some l' /\ l <= l'.

Lemma on_file_get {R} (tx : transaction records R) f k :
  getRecord k (snd (on_file tx f)) = get_record k (after tx (read_file f)).
Proof. unfold getRecord. by rewrite on_file_view. Qed.

Lemma try_steps_ok r code steps st :
  try_steps hmac_sha1 r code steps = Ok st ->
  st ∈ steps /\ totpAtStep hmac_sha1 (secret_b32 r) st = Some code /\ (forall l, last_step r = Some l -> l < st).
Proof.
  induction steps as [|s steps IH]; [done|]. cbn [try_steps]. destruct (totpAtStep _ _ s) as [e|] eqn:E; [|done].
  destruct (ctEq e code) eqn:Ec.
  - unfold ctEq in Ec. apply andb_true_iff in Ec as [_ ->%String.eqb_eq].
    destruct (last_step r) as [l|]; [destruct (Z.leb_spec s l); [done|]|]; intros [= <-]; (split; [apply list_elem_of_here|]; split; [done|]);
      [intros ? [= <-]; lia|done].
  - intros H%IH. destruct H as (H1 & H2 & H3). split; [by apply list_elem_of_further|done].
Qed.

Lemma verify_ok k code now s st :
  fst (verify_tx hmac_sha1 k code now s) = Ok st ->
  exists i r, find_key k s = Some (i, r) /\ st ∈ window now /\ totpAtStep hmac_sha1 (secret_b32 r) st = Some code /\
    (forall l, last_step r = Some l -> l < st) /\ snd (verify_tx hmac_sha1 k code now s) = Some (<[i := mark_verified st now r]> s).
Proof.
  unfold verify_tx. destruct (find_key k s) as [[i r]|]; [|done]. cbn [fmap option_fmap option_map snd]. unfold verifyCodeAgainst.
  destruct (negb (digits_only 6 code)); [done|]. destruct (try_steps _ _ _ _) as [st'|] eqn:E; [|done]. cbn [fst snd]. intros [= <-].
  apply try_steps_ok in E as (H1 & H2 & H3). by exists i, r.
Qed.

Lemma after_update {R} (tx : transaction records R) k k' s i r r' :
  find_key k s = Some (i, r) -> key_id r' = k -> snd (tx s) = Some (<[i := r']> s) ->
  get_record k' (after tx s) = if decide (k' = k) then Some r' else get_record k' s.
Proof. intros Hf Hr Ht. unfold after. rewrite Ht. simpl. by apply (get_update k k' i r). Qed.

Lemma after_nothing {R} (tx : transaction records R) k s : snd (tx s) = None -> get_record k (after tx s) = get_record k s.
Proof. unfold after. by intros ->. Qed.

(** What an operation that does not reset the enrolment leaves: the secret, the
    confirmation, and a replay defence that only moves forward. *)
Definition keeps (r r' : TotpRecord) : Prop :=
  secret_b32 r' = secret_b32 r /\ (is_some (confirmed_at r) = true -> is_some (confirmed_at r') = true) /\
  forall l, last_step r = Some l -> exists l', last_step r' = Some l' /\ l <= l'.

#[local] Instance keeps_preorder : PreOrder keeps.
Proof.
  split; [intros r; split_and!; [done|done|intros l Hl; exists l; split; [done|lia]]|].
  intros a b c (H1 & H2 & H3) (K1 & K2 & K3). split_and!; [congruence|auto|].
  intros l Hl. destruct (H3 l Hl) as (l1 & Hl1 & ?). destruct (K3 l1 Hl1) as (l2 & ? & ?). exists l2. split; [done|lia].
Qed.

Section Relates.
Context (rel : relation TotpRecord) `{!Reflexive rel}.

Lemma updated {R} (tx : transaction records R) k k' f i r0 r' r :
  find_key k' (read_file f) = Some (i, r0) -> snd (tx (read_file f)) = Some (<[i := r']> (read_file f)) -> key_id r' = k' ->
  (k = k' -> rel r0 r') ->
  getRecord k f = Some r -> exists r1, getRecord k (snd (on_file tx f)) = Some r1 /\ rel r r1.
Proof using Type*.
  intros Hf Ht Hk Hr Hg. rewrite on_file_get, (after_update tx k' k _ i r0 r') by done. case_decide as E.
  - subst k. exists r'. split; [done|]. unfold getRecord, get_record in Hg. rewrite Hf in Hg. injection Hg as <-. by apply Hr.
  - by exists r.
Qed.

Lemma unchanged {R} (tx : transaction records R) k f r :
  snd (tx (read_file f)) = None -> getRecord k f = Some r -> exists r1, getRecord k (snd (on_file tx f)) = Some r1 /\ rel r r1.
Proof using Type*. intros Ht Hg. exists r. by rewrite on_file_get, after_nothing. Qed.

(** The record of [k] evolves along any relation that the three updates respect. *)
Lemma run_relates k e f r :
  (forall st now r, (forall l, last_step r = Some l -> l < st) -> rel r (mark_verified st now r)) ->
  (forall cs r, e = Regenerate k cs -> rel r (with_hashes (sha256 <$> cs) r)) ->
  (forall j now r, rel r (burn j now r)) ->
  resets k e = false -> getRecord k f = Some r -> exists r', getRecord k (run e f) = Some r' /\ rel r r'.
Proof using Type*.
  intros Rv Rh Rb He Hr. destruct e as [k' lb rnd now|k' c now|k' cs|k' c now|k']; cbn [run resets] in *.
  - apply String.eqb_neq in He. exists r. split; [|done]. unfold startEnrollment. rewrite on_file_get. unfold enroll_tx, after. cbn [snd from_option id].
    destruct (find_key k' (read_file f)) as [[i r0]|] eqn:Ef.
    + rewrite (get_update k' k i r0) by done. by rewrite decide_False.
    + rewrite (get_app k' k) by (unfold get_record; rewrite ?Ef; done). by rewrite decide_False.
  - destruct (verify_tx hmac_sha1 k' c now (read_file f)) as [[st|why] w] eqn:Ev.
    + destruct (verify_ok k' c now (read_file f) st) as (i & r0 & Hf & _ & _ & Hl & Hw); [by rewrite Ev|].
      eapply updated; [exact Hf|exact Hw|exact (find_key_id _ _ _ _ Hf)|intros _; by apply Rv|exact Hr].
    + apply unchanged; [|done]. revert Ev. unfold verify_tx. by destruct (verifyCodeAgainst _ _ _ _), (find_key k' (read_file f)) as [[? ?]|]; intros [= _ <-].
  - destruct (find_key k' (read_file f)) as [[i r0]|] eqn:Ef; [destruct (is_some (confirmed_at r0)) eqn:Ec|].
    + eapply updated; [exact Ef|unfold regenerate_tx; by rewrite Ef, Ec|exact (find_key_id _ _ _ _ Ef)|intros ->; by apply Rh|exact Hr].
    + apply unchanged; [|done]. unfold regenerate_tx. by rewrite Ef, Ec.
    + apply unchanged; [|done]. unfold regenerate_tx. by rewrite Ef.
  - destruct (find_key k' (read_file f)) as [[i r0]|] eqn:Ef.
    2:{ apply unchanged; [|done]. unfold recovery_tx. by rewrite Ef. }
    destruct (snd (recovery_tx sha256 k' c now (read_file f))) as [s'|] eqn:Es; [|by apply unchanged].
    assert (exists j, s' = <[i := burn j now r0]> (read_file f)) as [j ->].
    { revert Es. unfold recovery_tx. rewrite Ef. destruct (negb _); [done|]. destruct (list_find _ _) as [[j ?]|]; [|done]. intros [= <-]. by exists j. }
    eapply updated; [exact Ef|exact Es|exact (find_key_id _ _ _ _ Ef)|intros _; apply Rb|exact Hr].
  - apply String.eqb_neq in He. exists r. split; [|done]. unfold disable. rewrite on_file_get. unfold disable_tx, after.
    destruct (length _ =? length _)%nat; cbn [snd from_option id]; [done|]. by rewrite get_filter by done.
Qed.
End Relates.

Lemma run_keeps k e f r :
  resets k e = false -> getRecord k f = Some r -> exists r', getRecord k (run e f) = Some r' /\ keeps r r'.
Proof.
  apply run_relates.
  - apply _.
  - intros st now r0 Hl. split_and!; [done|simpl; by destruct (confirmed_at r0)|]. intros l E. exists st. split; [done|]. pose proof (Hl l E). lia.
  - intros cs r0 _. split_and!; [done|done|]. intros l E. exists l. split; [done|lia].
  - intros j now r0. split_and!; [done|done|]. intros l E. exists l. split; [done|lia].
Qed.

Lemma run_all_keeps k evs f r :
  Forall (fun e => resets k e = false) evs -> getRecord k f = Some r ->
  exists r', getRecord k (run_all evs f) = Some r' /\ keeps r r'.
Proof.
  intros He. revert f r. induction He as [|e evs He _ IH]; intros f r Hr; [by exists r|].
  destruct (run_keeps k e f r He Hr) as (r1 & H1 & K1). destruct (IH (run e f) r1 H1) as (r2 & H2 & K2).
  exists r2. split; [done|]. by transitivity r1.
Qed.

(** C12. A code is good for one use. Once [verifyAndMark] has accepted a code of
    a key, any code it accepts later, after whatever operations other than
    enrolling that key again or disabling it, belongs to a later time step. *)
Theorem totp_codes_single_use k code now st f f1 evs code' now' st' f2 :
  verifyAndMark hmac_sha1 k code now f = (Ok st, f1) ->
  Forall (fun e => resets k e = false) evs ->
  verifyAndMark hmac_sha1 k code' now' (run_all evs f1) = (Ok st', f2) ->
  st < st'.
Proof.
  unfold verifyAndMark. intros H1 Hevs H2.
  destruct (verify_ok k code now (read_file f) st) as (i & r & Hf & _ & _ & _ & Hw); [by rewrite <- on_file_result, H1|].
  assert (Hg : getRecord k f1 = Some (mark_verified st now r)).
  { replace f1 with (snd (on_file (verify_tx hmac_sha1 k code now) f)) by (by rewrite H1).
    rewrite on_file_get, (after_update _ k k _ i r (mark_verified st now r)) by (done || exact (find_key_id _ _ _ _ Hf)). by rewrite decide_True. }
  destruct (run_all_keeps k evs f1 _ Hevs Hg) as (r' & Hg' & _ & _ & Hl). destruct (Hl st eq_refl) as (l' & E & ?).
  destruct (verify_ok k code' now' (read_file (run_all evs f1)) st') as (i' & r0 & Hf' & _ & _ & Hl' & _); [by rewrite <- on_file_result, H2|].
  unfold getRecord, get_record in Hg'. rewrite Hf' in Hg'. injection Hg' as ->. pose proof (Hl' _ E). lia.
Qed.

(** A code that is due is accepted, if the replay defence has not passed it and
    no step of the window before it happens to have the same code. *)
Lemma due_code_accepted k code now f r st :
  getRecord k f = Some r -> totpAtStep hmac_sha1 (secret_b32 r) st = Some code -> digits_only 6 code = true -> st ∈ window now ->
  (forall l, last_step r = Some l -> l < st) ->
  Forall (fun s => st <= s \/ totpAtStep hmac_sha1 (secret_b32 r) s <> Some code) (window now) ->
  fst (verifyAndMark hmac_sha1 k code now f) = Ok st.
Proof.
  intros Hr Hc Hd Hw Hl Hn. unfold getRecord, get_record in Hr. destruct (find_key k (read_file f)) as [[i r0]|] eqn:Hf; [|done].
  injection Hr as ->. unfold verifyAndMark. rewrite on_file_result. unfold verify_tx. rewrite Hf. cbn [fmap option_fmap option_map snd].
  unfold verifyCodeAgainst. rewrite Hd. cbn [negb].
  assert (Ht : try_steps hmac_sha1 r code (window now) = Ok st); [|by rewrite Ht].
  assert (Hsome : forall s, is_Some (totpAtStep hmac_sha1 (secret_b32 r) s)).
  { intros s. unfold totpAtStep in *. destruct (base32Decode (secret_b32 r)); [|done]. cbn [mbind option_bind]. eauto. }
  assert (Hs : StronglySorted Z.lt (window now)) by (unfold window, TOTP_TOLERANCE_STEPS; repeat constructor; lia).
  revert Hw Hn Hs. generalize (window now). intros l. induction l as [|s l IH]; intros Hw Hn Hs; [by apply not_elem_of_nil in Hw|].
  apply Forall_cons in Hn as [Hs0 Hn]. apply StronglySorted_inv in Hs as [Hs Hlt]. cbn [try_steps].
  destruct (decide (s = st)) as [->|Hne].
  - rewrite Hc. unfold ctEq. rewrite Z.eqb_refl, String.eqb_refl. cbn [andb]. destruct (last_step r) as [l0|]; [|done].
    pose proof (Hl l0 eq_refl). destruct (Z.leb_spec st l0); [lia|done].
  - apply elem_of_cons in Hw as [Hw|Hw]; [by symmetry in Hw|]. rewrite Forall_forall in Hlt. pose proof (Hlt st Hw) as Hb.
    destruct Hs0 as [Hs0|Hs0]; [lia|]. destruct (Hsome s) as [e E]. rewrite E. unfold ctEq.
    destruct (String.eqb_spec e code) as [->|]; [by rewrite E in Hs0|]. rewrite andb_false_r. by apply IH.
Qed.

(** Nobody is locked out: when an enrolled key presents the code of a step
    in the window that is later than the last one accepted, it is accepted, unless
    an earlier step of the same window happens to have the same six digits; and
    from then on the enrolment counts as complete. *)
Theorem totp_due_code_accepted k now f r st :
  (forall key m, length (hmac_sha1 key m) = 20%nat) -> (forall key m, Forall is_byte (hmac_sha1 key m)) ->
  getRecord k f = Some r -> is_Some (base32Decode (secret_b32 r)) ->
  currentStep now - 1 <= st <= currentStep now + 1 -> (forall l, last_step r = Some l -> l < st) ->
  (forall s, currentStep now - 1 <= s < st -> totpAtStep hmac_sha1 (secret_b32 r) s <> totpAtStep hmac_sha1 (secret_b32 r) st) ->
  exists code, totpAtStep hmac_sha1 (secret_b32 r) st = Some code /\
    fst (verifyAndMark hmac_sha1 k code now f) = Ok st /\ isFullyEnrolled k (snd (verifyAndMark hmac_sha1 k code now f)) = true.
Proof.
  intros Hlen Hb Hr [key Hk] Hst Hl Hn. destruct (totpAtStep hmac_sha1 (secret_b32 r) st) as [code|] eqn:Hc.
  2:{ rewrite totpAtStep_rfc, Hk in Hc by done. done. }
  exists code. split; [done|].
  assert (Hok : fst (verifyAndMark hmac_sha1 k code now f) = Ok st).
  { apply (due_code_accepted k code now f r st Hr Hc); [by apply (code_format hmac_sha1 Hlen Hb) in Hc| |done|].
    - unfold window, TOTP_TOLERANCE_STEPS. rewrite !elem_of_cons, elem_of_nil. lia.
    - apply Forall_forall. intros s Hs. unfold window, TOTP_TOLERANCE_STEPS in Hs. rewrite !elem_of_cons, elem_of_nil in Hs.
      destruct (Z.le_gt_cases st s); [by left|right; apply Hn; lia]. }
  split; [done|]. destruct (verify_ok k code now (read_file f) st) as (i & r0 & Hf & _ & _ & _ & Hw); [by rewrite <- on_file_result, <- Hok|].
  unfold isFullyEnrolled, verifyAndMark. rewrite on_file_get, (after_update _ k k _ i r0 (mark_verified st now r0))
    by (done || exact (find_key_id _ _ _ _ Hf)).
  rewrite decide_True by done. simpl. by destruct (confirmed_at r0).
Qed.
End History.

(** ** Recovery codes *)

(** The codes of the draws from [i] on. *)
Definition drawn (draw : nat -> list Z) (i n : nat) : list string := (fun j => randomRecoveryCode (draw j)) <$> seq i n.

Lemma mint_codes_spec fuel draw i codes :
  (length codes <= RECOVERY_CODE_COUNT)%nat ->
  let all := codes ++ dedup_from codes (drawn draw i fuel) in
  mint_codes fuel draw i codes = if (RECOVERY_CODE_COUNT <=? length all)%nat then Some (take RECOVERY_CODE_COUNT all) else None.
Proof.
  revert i codes; induction fuel as [|fuel IH]; intros i codes Hc; cbn [mint_codes drawn seq fmap list_fmap dedup_from].
  - rewrite app_nil_r. destruct (Nat.leb_spec RECOVERY_CODE_COUNT (length codes)); [|done]. by rewrite take_ge by lia.
  - fold (drawn draw (S i) fuel). cbv zeta. destruct (Nat.leb_spec RECOVERY_CODE_COUNT (length codes)) as [H|H].
    + rewrite length_app. destruct (Nat.leb_spec RECOVERY_CODE_COUNT (length codes + length (if decide (randomRecoveryCode (draw i) ∈ codes) then dedup_from codes (drawn draw (S i) fuel) else randomRecoveryCode (draw i) :: dedup_from (randomRecoveryCode (draw i) :: codes) (drawn draw (S i) fuel)))); [|lia].
      by rewrite take_app_le, take_ge by lia.
    + case_bool_decide as E.
      * rewrite IH by lia. by rewrite decide_True by done.
      * rewrite IH by (rewrite length_app; simpl; lia). rewrite decide_False by done. rewrite <- app_assoc. cbn [app].
        replace (dedup_from (codes ++ [randomRecoveryCode (draw i)]) (drawn draw (S i) fuel))
          with (dedup_from (randomRecoveryCode (draw i) :: codes) (drawn draw (S i) fuel)); [done|].
        apply dedup_from_ext. set_solver.
Qed.

Lemma recovery_table :
  forallb (fun n => let c := recovery_char (Z.of_nat n) in is_upper_alnum c && Ascii.eqb (upper_ascii c) c) (seq 0 32) = true.
Proof. by vm_compute. Qed.

Lemma recovery_char_kept b : is_upper_alnum (recovery_char b) = true /\ upper_ascii (recovery_char b) = recovery_char b.
Proof.
  pose proof recovery_table as H. rewrite forallb_forall in H. pose proof (Z.mod_pos_bound b 32 ltac:(lia)) as Hb.
  specialize (H (Z.to_nat (b mod 32)) ltac:(apply in_seq; lia)). cbv zeta in H. rewrite Z2Nat.id in H by lia.
  replace (recovery_char (b mod 32)) with (recovery_char b) in H by (unfold recovery_char; by rewrite Z.mod_mod by lia).
  apply andb_true_iff in H as [H1 H2%Ascii.eqb_eq]. done.
Qed.

Lemma to_upper_app a b : to_upper (a +:+ b) = to_upper a +:+ to_upper b.
Proof. unfold to_upper. induction a as [|c a IH]; [done|]. rewrite str_cons_app. cbn [str_map]. by rewrite IH. Qed.

Lemma recovery_chars_kept bs : keep_chars is_upper_alnum (to_upper (recovery_chars bs)) = recovery_chars bs.
Proof.
  induction bs as [|b bs IH]; [done|]. cbn [recovery_chars]. unfold to_upper in *. cbn [str_map keep_chars].
  destruct (recovery_char_kept b) as [H1 ->]. by rewrite H1, IH.
Qed.

Lemma recovery_chars_length bs : String.length (recovery_chars bs) = length bs.
Proof. induction bs as [|b bs IH]; [done|]. simpl. by rewrite IH. Qed.

(** What the user types back is reassembled to the code that was hashed. *)
Lemma reassembled buf :
  length buf = 10%nat ->
  String.length (normalizeRecoveryCode (randomRecoveryCode buf)) = 10%nat /\
  dashed (normalizeRecoveryCode (randomRecoveryCode buf)) = randomRecoveryCode buf.
Proof.
  intros Hl. unfold randomRecoveryCode, normalizeRecoveryCode. rewrite !to_upper_app, !keep_chars_app, !recovery_chars_kept.
  change (keep_chars is_upper_alnum (to_upper "-")) with "". cbn [String.append].
  set (a := recovery_chars (take 5 buf)). set (b := recovery_chars (take 5 (drop 5 buf))).
  assert (Ha : String.length a = 5%nat) by (unfold a; rewrite recovery_chars_length, length_take; lia).
  assert (Hb : String.length b = 5%nat) by (unfold b; rewrite recovery_chars_length, length_take, length_drop; lia).
  split; [change ("" +:+ b) with b; rewrite str_length_app; lia|]. unfold dashed. change ("" +:+ b) with b.
  rewrite <- Ha at 1. rewrite str_take_app. f_equal. f_equal.
  destruct a as [|c1 [|c2 [|c3 [|c4 [|c5 [|]]]]]]; simpl in Ha; try done.
Qed.

Section Recovery.
Context (hmac_sha1 : list Z -> list Z -> list Z) (sha256 : string -> string).

(** The hash of a code is among those of the key. *)
Definition redeemable (k : string) (h : string) (f : file records) : Prop :=
  exists r, getRecord k f = Some r /\ h ∈ recovery_code_hashes r.

(** The hashes of the key are distinct and [h] is not one of them. *)
Definition burnt (h : string) (r : TotpRecord) : Prop := h ∉ recovery_code_hashes r.

Definition burnt_stays (h : string) : relation TotpRecord := fun r r' => burnt h r -> burnt h r'.

#[local] Instance burnt_stays_refl h : Reflexive (burnt_stays h).
Proof. intros r Hb. exact Hb. Qed.

Lemma ctEq_spec a b : ctEq a b = true <-> a = b.
Proof.
  unfold ctEq. rewrite andb_true_iff, Z.eqb_eq, String.eqb_eq. split; [intros [_ H]; exact H|intros ->; done].
Qed.

Lemma recovery_ok k cand now f r :
  getRecord k f = Some r -> String.length (normalizeRecoveryCode cand) = 10%nat ->
  match list_find (fun h => ctEq h (sha256 (dashed (normalizeRecoveryCode cand))) = true) (recovery_code_hashes r) with
  | Some (j, _) => fst (consumeRecoveryCode sha256 k cand now f) = (true, (length (recovery_code_hashes r) - 1)%nat) /\
      getRecord k (snd (consumeRecoveryCode sha256 k cand now f)) = Some (burn j now r)
  | None => consumeRecoveryCode sha256 k cand now f = ((false, length (recovery_code_hashes r)), f)
  end.
Proof.
  intros Hr Hl. unfold getRecord, get_record in Hr. destruct (find_key k (read_file f)) as [[i r0]|] eqn:Hf; [|done]. injection Hr as ->.
  destruct (list_find _ _) as [[j h]|] eqn:Hj.
  - unfold consumeRecoveryCode. rewrite on_file_result, on_file_get. unfold recovery_tx at 1. rewrite Hf, Hl, Hj. split; [done|].
    rewrite (after_update _ k k _ i r (burn j now r)); [by rewrite decide_True|done|exact (find_key_id _ _ _ _ Hf)|].
    unfold recovery_tx. by rewrite Hf, Hl, Hj.
  - unfold consumeRecoveryCode, on_file, recovery_tx. by rewrite Hf, Hl, Hj.
Qed.

Lemma mint_enough n more draw :
  (RECOVERY_CODE_COUNT <= length (dedup (drawn draw 0 n)))%nat ->
  mint_codes (n + more) draw 0 [] = Some (take RECOVERY_CODE_COUNT (dedup (drawn draw 0 n))).
Proof.
  intros Hn. rewrite mint_codes_spec by (simpl; lia). cbv zeta. cbn [app].
  assert (Hd : drawn draw 0 (n + more) = drawn draw 0 n ++ drawn draw n more) by (unfold drawn; by rewrite seq_app, fmap_app).
  rewrite Hd, dedup_from_app. unfold dedup in Hn. rewrite length_app.
  destruct (Nat.leb_spec RECOVERY_CODE_COUNT (length (dedup_from [] (drawn draw 0 n)) + length (dedup_from (drawn draw 0 n ++ []) (drawn draw n more)))); [|lia].
  by rewrite take_app_le.
Qed.

Lemma burnt_refused k cand now f r :
  getRecord k f = Some r -> burnt (sha256 (dashed (normalizeRecoveryCode cand))) r ->
  String.length (normalizeRecoveryCode cand) = 10%nat ->
  fst (fst (consumeRecoveryCode sha256 k cand now f)) = false.
Proof.
  intros Hr Hb Hl. pose proof (recovery_ok k cand now f r Hr Hl) as H.
  destruct (list_find _ _) as [[j h]|] eqn:Hj; [|by rewrite H]. exfalso. apply list_find_Some in Hj as (Hj & ->%ctEq_spec & _).
  apply Hb. by eapply list_elem_of_lookup_2.
Qed.

Lemma run_all_burnt k h evs f r :
  Forall (fun e => resets k e = false /\ forall cs, e <> Regenerate k cs) evs -> getRecord k f = Some r -> burnt h r ->
  exists r', getRecord k (run_all hmac_sha1 sha256 evs f) = Some r' /\ burnt h r'.
Proof.
  intros He. revert f r. induction He as [|e evs [He Hc] _ IH]; intros f r Hr Hb; [by exists r|].
  destruct (run_relates hmac_sha1 sha256 (burnt_stays h) k e f r) as (r1 & H1 & K1); [intros ? ? ? _ Hx; exact Hx|by intros cs ? E%Hc| |done|done|].
  - unfold burnt_stays, burnt. simpl. intros j now r0 Hn Hin. apply Hn. eapply elem_of_submseteq; [exact Hin|apply sublist_submseteq, sublist_delete].
  - apply (IH (run hmac_sha1 sha256 e f) r1 H1). by apply K1.
Qed.

(** C29. A recovery code works once. The generator ends as soon as its draws
    contain ten different codes and returns the first ten; each of them, typed in
    any case and with any separators, is accepted as long as it was not used, and
    after that never again, whatever operations follow other than enrolling,
    disabling or generating codes for that key. (SHA-256 is assumed not to collide
    on the ten codes.) *)
Theorem recovery_code_single_use k n draw f r c cand now evs cand' now' :
  (RECOVERY_CODE_COUNT <= length (dedup (drawn draw 0 n)))%nat -> (forall i, length (draw i) = 10%nat) ->
  getRecord k f = Some r -> is_some (confirmed_at r) = true ->
  exists codes, (forall more, mint_codes (n + more) draw 0 [] = Some codes) /\ length codes = RECOVERY_CODE_COUNT /\ NoDup codes /\
    (NoDup (sha256 <$> codes) -> c ∈ codes ->
     normalizeRecoveryCode cand = normalizeRecoveryCode c -> normalizeRecoveryCode cand' = normalizeRecoveryCode c ->
     Forall (fun e => resets k e = false /\ forall cs, e <> Regenerate k cs) evs ->
     let f1 := snd (regenerateRecoveryCodes sha256 k codes f) in
     let f2 := snd (consumeRecoveryCode sha256 k cand now f1) in
     fst (consumeRecoveryCode sha256 k cand now f1) = (true, 9%nat) /\
     fst (fst (consumeRecoveryCode sha256 k cand' now' (run_all hmac_sha1 sha256 evs f2))) = false).
Proof.
  intros Hn Hd Hr Hc. pose proof (mint_enough n 0 draw Hn) as Hm. rewrite Nat.add_0_r in Hm.
  set (codes := take RECOVERY_CODE_COUNT (dedup (drawn draw 0 n))) in *. exists codes.
  split; [intros; by apply mint_enough|]. split; [unfold codes; rewrite length_take; lia|].
  split; [eapply sublist_NoDup, sublist_take; apply dedup_NoDup|].
  intros Hnd Hin Hcand Hcand' Hevs f1 f2.
  assert (exists j, c = randomRecoveryCode (draw j)) as [j ->].
  { apply elem_of_take in Hin as (i & Hi & _). apply list_elem_of_lookup_2 in Hi. rewrite dedup_elem in Hi.
    apply list_elem_of_fmap in Hi as (x & -> & _). by exists x. }
  destruct (reassembled (draw j) (Hd j)) as [Hl Hs]. rewrite <- Hcand in Hl, Hs.
  assert (H1 : getRecord k f1 = Some (with_hashes (sha256 <$> codes) r)).
  { unfold f1, regenerateRecoveryCodes. rewrite on_file_get. unfold getRecord in Hr. pose proof Hr as [i Hf]%get_record_spec.
    rewrite (after_update _ k k _ i r (with_hashes (sha256 <$> codes) r)); [by rewrite decide_True|done|exact (find_key_id _ _ _ _ Hf)|].
    unfold regenerate_tx. by rewrite Hf, Hc. }
  pose proof (recovery_ok k cand now f1 _ H1 Hl) as H2. rewrite Hs in H2. cbn [recovery_code_hashes with_hashes] in H2.
  destruct (list_find _ _) as [[i h]|] eqn:Hi.
  2:{ exfalso. apply list_find_None in Hi. rewrite Forall_forall in Hi. apply (Hi (sha256 (randomRecoveryCode (draw j)))); [|by apply ctEq_spec].
      by apply list_elem_of_fmap_2. }
  apply list_find_Some in Hi as (Hi & ->%ctEq_spec & _). destruct H2 as [H2 H3]. split.
  { rewrite H2, length_fmap. unfold codes. rewrite length_take. by rewrite Nat.min_l by lia. }
  destruct (run_all_burnt k (sha256 (randomRecoveryCode (draw j))) evs f2 _ Hevs H3) as (r' & Hr' & Hb).
  { unfold burnt. simpl. by apply NoDup_delete_at. }
  eapply burnt_refused; [exact Hr'|by rewrite Hcand', <- Hcand, Hs|by rewrite Hcand', <- Hcand].
Qed.
End Recovery.

(** ** Concrete runs *)

Section Demo.
Definition demo_hmac (key m : list Z) : list Z := le_bytes 8 (of_digits 256 m + of_digits 256 key) ++ replicate 12 0.

Lemma totp_demo_length k m : length (demo_hmac k m) = 20%nat.
Proof. unfold demo_hmac. by rewrite length_app, le_bytes_length, length_replicate. Qed.

Lemma demo_hmac_bytes k m : Forall is_byte (demo_hmac k m).
Proof. unfold demo_hmac. apply Forall_app. split; [apply le_bytes_are_bytes|]. apply Forall_replicate. unfold is_byte. lia. Qed.

Definition demo_sha (s : string) : string := s.

Definition demo_file : file records := snd (startEnrollment "k1" "ops" [1; 2; 3; 4; 5; 6; 7; 8; 9; 10] 0 None).
Definition demo_now : Z := 1700000000000.
Definition demo_code (step : Z) : string := default "" (totpAtStep demo_hmac (base32Encode [1; 2; 3; 4; 5; 6; 7; 8; 9; 10]) step).
Definition demo_step : Z := currentStep demo_now.
Definition demo_confirmed : file records := snd (verifyAndMark demo_hmac "k1" (demo_code demo_step) demo_now demo_file).
Definition demo_draw (i : nat) : list Z := Z.of_nat i :: replicate 9 7.

Lemma totp_is_rfc6238_witness :
  totpAtStep demo_hmac "AEBAGBA" 5 = (fun key => rfc6238 demo_hmac key 5) <$> base32Decode "AEBAGBA" /\
  is_Some (totpAtStep demo_hmac "AEBAGBA" 5).
Proof.
  split; [exact (proj1 (totp_is_rfc6238 demo_hmac totp_demo_length demo_hmac_bytes "AEBAGBA" 5))|]. eexists. vm_compute. reflexivity.
Defined.

Lemma totp_codes_single_use_witness : demo_step < demo_step + 1.
Proof.
  refine (totp_codes_single_use demo_hmac demo_sha "k1" (demo_code demo_step) demo_now demo_step demo_file demo_confirmed
    [Verify "k1" (demo_code demo_step) demo_now; Enroll "k2" "" [1] 5] (demo_code (demo_step + 1)) demo_now (demo_step + 1) _ _ _ _).
  - vm_compute. reflexivity.
  - repeat constructor.
  - vm_compute. reflexivity.
Defined.

Lemma totp_due_code_accepted_witness :
  exists code, fst (verifyAndMark demo_hmac "k1" code demo_now demo_file) = Ok demo_step.
Proof.
  destruct (getRecord "k1" demo_file) as [r|] eqn:Hr; [|exfalso; vm_compute in Hr; discriminate Hr].
  assert (Hs : secret_b32 r = base32Encode [1; 2; 3; 4; 5; 6; 7; 8; 9; 10] /\ last_step r = None)
    by (vm_compute in Hr; injection Hr as <-; split; reflexivity).
  destruct (totp_due_code_accepted demo_hmac "k1" demo_now demo_file r demo_step totp_demo_length demo_hmac_bytes Hr) as (code & _ & H & _).
  - rewrite (proj1 Hs). eexists. vm_compute. reflexivity.
  - unfold demo_step. lia.
  - intros l. by rewrite (proj2 Hs).
  - intros s Hb. assert (s = demo_step - 1) as -> by (unfold demo_step in *; lia). rewrite (proj1 Hs). vm_compute. discriminate.
  - exists code. exact H.
Defined.

Lemma recovery_code_single_use_witness :
  exists codes, mint_codes 10 demo_draw 0 [] = Some codes /\ length codes = 10%nat.
Proof.
  destruct (getRecord "k1" demo_confirmed) as [r|] eqn:Hr; [|exfalso; vm_compute in Hr; discriminate Hr].
  destruct (recovery_code_single_use demo_hmac demo_sha "k1" 10 demo_draw demo_confirmed r "CHHHH-HHHHH" "chhhh hhhhh" 0 []
    "chhhhhhhhh" 0) as (codes & Hm & Hl & Hn & Hc).
  - vm_compute. lia.
  - reflexivity.
  - exact Hr.
  - vm_compute in Hr. injection Hr as <-. reflexivity.
  - pose proof (Hm 0%nat) as Hm0. exists codes. split; [exact Hm0|]. revert Hc. vm_compute in Hm0. injection Hm0 as <-. intros Hc.
    destruct Hc as [_ _]; [exact Hn|refine (bool_decide_unpack _ _); vm_compute; exact I|reflexivity|reflexivity|constructor|exact Hl].
Defined.
End Demo.
