(* ===== verification/MfaGate.v ===== *)
(** The gate that asks administrators for a second factor:
    [enforceAdminMfa] of [web/lib/adminMfaGuard.ts], and the route a key manages
    its own enrolment with, [web/app/api/admin/mfa/route.ts]. The key is the
    authenticated one; of an audit event its status, reason and key are kept. *)
From S2P Require Import Prelude JsNum JsDate IsoTime Json Store Interleave AuthLockout KeyStore.
From S2P Require Import Bits Base32 Totp.

Record trail_line := { t_status : Z; t_key : option string; t_reason : string }.

Record world := World { totp : file records; trail : list trail_line }.

(** [err(status, code, ...)]. *)
Definition denial : Type := Z * string.

Definition reason_text (r : VerifyReason) : string :=
  match r with not_enrolled => "not_enrolled" | bad_format => "bad_format" | invalid => "invalid" | replay => "replay" end.

(** [extractCode] and [extractRecovery]: the trimmed header, when there is one. *)
Definition extract (name : string) (headers : gmap string string) : option string :=
  h ← headers !! name; let t := trim h in if truthy t then Some t else None.

Definition extractCode := extract "x-mfa-code".
Definition extractRecovery := extract "x-mfa-recovery-code".

Section Gate.
Context (hmac_sha1 : list Z -> list Z -> list Z) (sha256 : string -> string).

Definition note (status : Z) (key : option string) (reason : string) (w : world) : world :=
  World (totp w) (trail w ++ [{| t_status := status; t_key := key; t_reason := reason |}]).

(** [None]: the request goes on. *)
Definition enforceAdminMfa (adminEnv : string) (headers : gmap string string) (key : option string) (now : Z) (w : world)
  : option denial * world :=
  if negb (truthy adminEnv) then (None, w) else
  match key with
  | None => (Some (401, "mfa_required"), note 401 None "mfa_required:no_key" w)
  | Some k =>
      if negb (isFullyEnrolled k (totp w)) then (None, note 200 key "mfa-not-enrolled" w) else
      match extractRecovery headers with
      | Some recovery =>
          let '((ok, remaining), f) := consumeRecoveryCode sha256 k recovery now (totp w) in
          let w := World f (trail w) in
          if ok then (None, note 200 key ("mfa-recovery-used:remaining=" +:+ pretty (Z.of_nat remaining)) w)
          else (Some (401, "mfa_invalid"), note 401 key "mfa_invalid:recovery_rejected" w)
      | None =>
          match extractCode headers with
          | None => (Some (401, "mfa_required"), note 401 key "mfa_required" w)
          | Some code =>
              let '(r, f) := verifyAndMark hmac_sha1 k code now (totp w) in
              let w := World f (trail w) in
              match r with
              | Ok _ => (None, w)
              | Err why => (Some (401, "mfa_invalid"), note 401 key ("mfa_invalid:" +:+ reason_text why) w)
              end
          end
      end
  end.

(** ** The enrolment route *)

Definition keyIdFor (key : option StoredKey) : string := match key with Some k => id k | None => "local" end.
Definition keyLabelFor (key : option StoredKey) : string := match key with Some k => label k | None => "local admin" end.

Definition requireAdmin (adminEnv : string) (key : option StoredKey) (w : world) : option denial * world :=
  if negb (truthy adminEnv) then (None, note 200 (id <$> key) "local-mode" w) else
  match key with
  | Some k => if bool_decide (admin ∈ scopes k) then (None, w) else (Some (403, "forbidden"), note 403 (id <$> key) "forbidden:admin-required" w)
  | None => (Some (403, "forbidden"), note 403 None "forbidden:admin-required" w)
  end.

Definition GET (adminEnv : string) (key : option StoredKey) (w : world) : result TotpStatus denial * world :=
  match requireAdmin adminEnv key w with
  | (Some d, w) => (Err d, w)
  | (None, w) => (Ok (statusFor (keyIdFor key) (totp w)), note 200 (id <$> key) "" w)
  end.

Definition POST (adminEnv : string) (key : option StoredKey) (random : list Z) (now : Z) (w : world)
  : result EnrollmentInit denial * world :=
  match requireAdmin adminEnv key w with
  | (Some d, w) => (Err d, w)
  | (None, w) =>
      let '(init, f) := startEnrollment (keyIdFor key) (keyLabelFor key) random now (totp w) in
      (Ok init, note 200 (id <$> key) "mfa-enroll-init" (World f (trail w)))
  end.

(** [body] is [None] when it is not JSON. *)
Definition PUT (adminEnv : string) (key : option StoredKey) (body : option json) (now : Z) (w : world)
  : result TotpStatus denial * world :=
  match requireAdmin adminEnv key w with
  | (Some d, w) => (Err d, w)
  | (None, w) =>
      match body with
      | None => (Err (400, "bad_json"), w)
      | Some b =>
          let code := match field "code" b with Some (JStr s) => trim s | _ => "" end in
          if negb (digits_only 6 code) then (Err (400, "bad_code"), note 400 (id <$> key) "mfa-verify-bad-format" w) else
          let '(r, f) := verifyAndMark hmac_sha1 (keyIdFor key) code now (totp w) in
          let w := World f (trail w) in
          match r with
          | Err why => (Err (401, "mfa_invalid"), note 401 (id <$> key) ("mfa-verify-fail:" +:+ reason_text why) w)
          | Ok _ => (Ok (statusFor (keyIdFor key) f), note 200 (id <$> key) "mfa-verify-ok" w)
          end
      end
  end.

(** The value is [removed]. *)
Definition DELETE (adminEnv : string) (headers : gmap string string) (key : option StoredKey) (now : Z) (w : world)
  : result bool denial * world :=
  match requireAdmin adminEnv key w with
  | (Some d, w) => (Err d, w)
  | (None, w) =>
      let id_ := keyIdFor key in
      let proof_ :=
        match getRecord id_ (totp w) with
        | None => (None, w)
        | Some _ =>
            let code := trim (default "" (headers !! "x-mfa-code")) in
            if negb (digits_only 6 code) then (Some (401, "mfa_required"), note 401 (id <$> key) "mfa-disable-missing-code" w) else
            let '(r, f) := verifyAndMark hmac_sha1 id_ code now (totp w) in
            let w := World f (trail w) in
            match r with
            | Err why => (Some (401, "mfa_invalid"), note 401 (id <$> key) ("mfa-disable-reject:" +:+ reason_text why) w)
            | Ok _ => (None, w)
            end
        end in
      match proof_ with
      | (Some d, w) => (Err d, w)
      | (None, w) =>
          let '(removed, f) := disable id_ (totp w) in
          (Ok removed, note 200 (id <$> key) (if removed then "mfa-disabled" else "mfa-not-enrolled") (World f (trail w)))
      end
  end.

(** ** What the gate promises *)

Lemma verify_refused k code now f why f' : verifyAndMark hmac_sha1 k code now f = (Err why, f') -> f' = f.
Proof.
  unfold verifyAndMark, on_file, verify_tx. destruct (find_key k (read_file f)) as [[i r]|]; destruct (verifyCodeAgainst _ _ _ _); by intros [= _ <-].
Qed.

Lemma verify_accepted k code now f st f' :
  verifyAndMark hmac_sha1 k code now f = (Ok st, f') ->
  exists r, getRecord k f = Some r /\ st ∈ window now /\ totpAtStep hmac_sha1 (secret_b32 r) st = Some code /\
    (forall l, last_step r = Some l -> l < st) /\ getRecord k f' = Some (mark_verified st now r).
Proof.
  intros H. destruct (verify_ok hmac_sha1 k code now (read_file f) st) as (i & r & Hf & Hw & Hc & Hl & Ht).
  { rewrite <- on_file_result. unfold verifyAndMark in H. by rewrite H. }
  exists r. split; [unfold getRecord, get_record; by rewrite Hf|]. split_and!; [done..|].
  replace f' with (snd (verifyAndMark hmac_sha1 k code now f)) by (by rewrite H). unfold verifyAndMark.
  rewrite on_file_get, (after_update _ k k _ i r (mark_verified st now r)); [by rewrite decide_True|done|exact (find_key_id _ _ _ _ Hf)|done].
Qed.

Lemma recovery_outcome k cand now f r :
  getRecord k f = Some r ->
  let '((ok, n), f') := consumeRecoveryCode sha256 k cand now f in
  if ok then exists j, recovery_code_hashes r !! j = Some (sha256 (dashed (normalizeRecoveryCode cand))) /\ getRecord k f' = Some (burn j now r)
  else f' = f.
Proof.
  intros Hr. destruct (decide (String.length (normalizeRecoveryCode cand) = 10%nat)) as [Hl|Hl].
  - pose proof (recovery_ok sha256 k cand now f r Hr Hl) as H. destruct (list_find _ _) as [[j h]|] eqn:Hj.
    + destruct (consumeRecoveryCode _ _ _ _ _) as [[ok n] f']. destruct H as [[= -> ->] H]. exists j.
      apply list_find_Some in Hj as (Hj & ->%ctEq_spec & _). done.
    + by rewrite H.
  - unfold getRecord, get_record in Hr. destruct (find_key k (read_file f)) as [[i r0]|] eqn:Hf; [|done]. injection Hr as ->.
    unfold consumeRecoveryCode, on_file, recovery_tx. rewrite Hf. by rewrite (proj2 (Nat.eqb_neq _ _) Hl).
Qed.

(** C13. Behind the gate stands a second factor. With the admin key configured, a
    fully enrolled key gets through only by burning one of its unused recovery
    codes or with the code of a step in the window later than any it used before;
    every refusal is a 401 that leaves the enrolments as they were and one line
    in the audit trail. *)
Theorem admin_gate_needs_second_factor adminEnv headers k now w :
  truthy adminEnv = true -> isFullyEnrolled k (totp w) = true ->
  match enforceAdminMfa adminEnv headers (Some k) now w with
  | (Some d, w') => fst d = 401 /\ totp w' = totp w /\ exists why, trail w' = trail w ++ [{| t_status := 401; t_key := Some k; t_reason := why |}]
  | (None, w') =>
      exists r, getRecord k (totp w) = Some r /\
        ((exists cand j, extractRecovery headers = Some cand /\
            recovery_code_hashes r !! j = Some (sha256 (dashed (normalizeRecoveryCode cand))) /\ getRecord k (totp w') = Some (burn j now r)) \/
         (exists code st, extractCode headers = Some code /\ st ∈ window now /\ totpAtStep hmac_sha1 (secret_b32 r) st = Some code /\
            (forall l, last_step r = Some l -> l < st) /\ getRecord k (totp w') = Some (mark_verified st now r)))
  end.
Proof.
  intros Ha He. unfold enforceAdminMfa. rewrite Ha, He. cbn [negb].
  assert (exists r, getRecord k (totp w) = Some r) as [r Hr] by (unfold isFullyEnrolled in He; destruct (getRecord k (totp w)); [eauto|done]).
  destruct (extractRecovery headers) as [cand|].
  - pose proof (recovery_outcome k cand now (totp w) r Hr) as H. destruct (consumeRecoveryCode _ _ _ _ _) as [[[] n] f].
    + destruct H as (j & Hj & Hg). exists r. split; [done|]. left. by exists cand, j.
    + subst f. cbn. eauto.
  - destruct (extractCode headers) as [code|]; [|cbn; eauto]. destruct (verifyAndMark _ _ _ _ _) as [[st|why] f] eqn:Hv.
    + destruct (verify_accepted _ _ _ _ _ _ Hv) as (r' & Hr' & H). exists r'. split; [done|]. right. exists code, st. split; [done|exact H].
    + apply verify_refused in Hv as ->. cbn. eauto.
Qed.

(** The gate can be opened without a second factor: beginning an enrolment
    again, which the route allows any admin key without a code, replaces a
    confirmed enrolment with an unconfirmed one, and an unconfirmed one is let
    through. *)
Theorem reenrolment_opens_gate adminEnv headers k random t now w :
  truthy adminEnv = true -> admin ∈ scopes k -> isFullyEnrolled (id k) (totp w) = true ->
  exists init w', POST adminEnv (Some k) random t w = (Ok init, w') /\
    fst (enforceAdminMfa adminEnv headers (Some (id k)) now w') = None.
Proof.
  intros Ha Hk He. unfold POST, requireAdmin. rewrite Ha, bool_decide_eq_true_2 by done. cbn [negb].
  destruct (startEnrollment _ _ _ _ _) as [init f] eqn:Hs. eexists _, _. split; [done|].
  assert (Hn : isFullyEnrolled (id k) f = false); [|unfold enforceAdminMfa; rewrite Ha; cbn [negb totp note]; by rewrite Hn].
  unfold isFullyEnrolled in *. destruct (getRecord (id k) (totp w)) as [r|] eqn:Hr; [|done].
  replace f with (snd (startEnrollment (id k) (label k) random t (totp w))) by (cbn [keyIdFor keyLabelFor] in Hs; by rewrite Hs).
  unfold startEnrollment. rewrite on_file_get. unfold enroll_tx, after. cbn [snd from_option Datatypes.id]. pose proof Hr as [i Hf]%get_record_spec.
  rewrite Hf. by rewrite (get_update (id k) (id k) i r) by done; rewrite decide_True.
Qed.
End Gate.

Section Demo.
Definition demo_key : StoredKey :=
  {| id := "k1"; label := "ops"; prefix := "sc_live_ab"; hash := ""; scopes := [admin; read; trade]; role := Some role_admin;
     KeyStore.created_at := Iso 0; last_used_at := None; revoked := false; ip_allowlist := []; route_allowlist := []; expires_at := None;
     suspended := false; suspended_at := None; suspended_reason := None |}.

Definition demo_world : world := World demo_confirmed [].

Lemma admin_gate_needs_second_factor_witness :
  exists d w', enforceAdminMfa demo_hmac demo_sha "secret" {[ "x-mfa-code" := demo_code demo_step ]} (Some "k1") demo_now demo_world = (Some d, w') /\
    fst d = 401 /\ totp w' = demo_confirmed.
Proof.
  pose proof (admin_gate_needs_second_factor demo_hmac demo_sha "secret" {[ "x-mfa-code" := demo_code demo_step ]} "k1" demo_now demo_world
    eq_refl ltac:(vm_compute; reflexivity)) as H.
  destruct (enforceAdminMfa _ _ _ _ _ _ _) as [[d|] w'] eqn:E.
  - exists d, w'. split; [reflexivity|]. destruct H as (H1 & H2 & _). exact (conj H1 H2).
  - exfalso. apply (f_equal (fun p => match fst p with Some _ => true | None => false end)) in E. vm_compute in E. discriminate.
Defined.

Lemma reenrolment_opens_gate_witness :
  exists init w', POST "secret" (Some demo_key) [9; 9] 7 demo_world = (Ok init, w') /\
    fst (enforceAdminMfa demo_hmac demo_sha "secret" ∅ (Some "k1") 8 w') = None.
Proof.
  refine (reenrolment_opens_gate demo_hmac demo_sha "secret" ∅ demo_key [9; 9] 7 8 demo_world eq_refl _ _).
  - apply list_elem_of_here.
  - vm_compute. reflexivity.
Defined.
End Demo.
