(* ===== verification/Sessions.v ===== *)
(** Server-side ledger of single sign-on sessions:
    [web/lib/ssoSessionRegistry.ts], with the idle and absolute timeouts of
    [web/lib/sessionTimeoutPolicy.ts].

    Both modules work on the copy they read once and keep for the life of the
    process; writing it to disk is left out. Times are Unix seconds. SHA-256 is a
    parameter. *)
From S2P Require Import Prelude JsNum JsDate IsoTime Json.

(** * [sessionTimeoutPolicy.ts] *)
Module Timeout.

Definition MIN_IDLE_S : Z := 60.
Definition MAX_IDLE_S : Z := 30 * 24 * 60 * 60.
Definition MIN_ABSOLUTE_S : Z := 5 * 60.
Definition MAX_ABSOLUTE_S : Z := 30 * 24 * 60 * 60.

Record SessionTimeoutPolicy := {
  enforce : bool; idle_timeout_s : Z; absolute_timeout_s : Z; updated_at : option Z; updated_by : option string }.

Definition defaultPolicy : SessionTimeoutPolicy :=
  {| enforce := false; idle_timeout_s := 30 * 60; absolute_timeout_s := 12 * 60 * 60; updated_at := None; updated_by := None |}.

(** The fields as they arrive; a missing one is [None]. *)
Record UpdateInput := { in_enforce : jval; in_idle : jval; in_absolute : jval; actor : string }.

Inductive UpdateCode := invalid_idle | invalid_absolute.

(** The value of a number that [isInt] accepts. *)
Definition isInt (v : json) : option Z :=
  match v with JNum n => if is_integer n then Some (floorZ n) else None | _ => None end.

(** The two checks of a timeout: a non-negative integer; zero, or in range. *)
Definition timeout_of (lo hi : Z) (cur : Z) (v : jval) : option Z :=
  match v with
  | None => Some cur
  | Some j =>
      match isInt j with
      | Some n => if n <? 0 then None
                  else if negb (n =? 0) && ((n <? lo) || (n >? hi)) then None else Some n
      | None => None
      end
  end.

Definition updatePolicy (input : UpdateInput) (now : Z) (cur : SessionTimeoutPolicy)
  : result SessionTimeoutPolicy UpdateCode * SessionTimeoutPolicy :=
  let e := match in_enforce input with Some (JBool b) => b | _ => enforce cur end in
  match timeout_of MIN_IDLE_S MAX_IDLE_S (idle_timeout_s cur) (in_idle input) with
  | None => (Err invalid_idle, cur)
  | Some idle =>
      match timeout_of MIN_ABSOLUTE_S MAX_ABSOLUTE_S (absolute_timeout_s cur) (in_absolute input) with
      | None => (Err invalid_absolute, cur)
      | Some abs =>
          let by_ := str_take 128 (actor input) in
          let next := {| enforce := e; idle_timeout_s := idle; absolute_timeout_s := abs; updated_at := Some now;
                         updated_by := Some (if truthy by_ then by_ else "unknown") |} in
          (Ok next, next)
      end
  end.

Inductive TimeoutReason := idle_timeout | absolute_timeout.

Definition decideTimeout (p : SessionTimeoutPolicy) (iat : Z) (last_seen_at : option Z) (now : Z) : option TimeoutReason :=
  if negb (enforce p) then None
  else if (absolute_timeout_s p >? 0) && (now - iat >=? absolute_timeout_s p) then Some absolute_timeout
  else if (idle_timeout_s p >? 0) && (now - default iat last_seen_at >=? idle_timeout_s p) then Some idle_timeout
  else None.

End Timeout.
Import Timeout.

(** * [ssoSessionRegistry.ts] *)

Definition MAX_RECORDS : Z := 5000.
Definition MAX_REASON_LEN : nat := 280.
Definition MAX_UA_LEN : nat := 255.

Record SsoSessionRecord := {
  jti : string; sub : string; email : string; iss : string; iat : Z; exp : Z; ip_hash : string; user_agent : string;
  last_seen_at : option Z; last_seen_ip_hash : string;
  revoked_at : option Z; revoked_by : option string; revoked_reason : option string;
}.

Record Store := { records : list SsoSessionRecord; global_epoch : Z }.

Definition empty_store : Store := {| records := []; global_epoch := 0 |}.

(** A time that counts as present: not [null], not 0. *)
Definition truthy_time (t : option Z) : bool := match t with Some n => negb (n =? 0) | None => false end.

Definition KEEP_S : Z := 7 * 24 * 60 * 60.

Definition kept (now : Z) (r : SsoSessionRecord) : bool :=
  if exp r >? now then true
  else if exp r >? now - KEEP_S then true
  else truthy_time (revoked_at r) && (default 0 (revoked_at r) >? now - KEEP_S).

Definition prune (now : Z) (l : list SsoSessionRecord) : list SsoSessionRecord :=
  let l := filter (fun r => kept now r = true) l in
  if len l >? MAX_RECORDS then take (Z.to_nat MAX_RECORDS) (js_sort (by_desc iat) l) else l.

Definition clamp (s : option string) (n : nat) : string := str_take n (default "" s).

Definition or_else (s other : string) : string := if truthy s then s else other.

Section Registry.
Variable sha256 : string -> string.

Definition hashIp (ip : option string) : string :=
  let v := trim (default "" ip) in if truthy v then str_take 32 (sha256 v) else "".

Record RegisterInput := {
  in_jti : string; in_sub : string; in_email : string; in_iss : string; in_iat : Z; in_exp : Z;
  in_ip : option string; in_user_agent : option string }.

Definition new_session (input : RegisterInput) : SsoSessionRecord :=
  {| jti := in_jti input; sub := in_sub input; email := to_lower (in_email input); iss := in_iss input;
     iat := in_iat input; exp := in_exp input; ip_hash := hashIp (in_ip input); user_agent := clamp (in_user_agent input) MAX_UA_LEN;
     last_seen_at := None; last_seen_ip_hash := ""; revoked_at := None; revoked_by := None; revoked_reason := None |}.

Definition registerSession (input : RegisterInput) (now : Z) (st : Store) : SsoSessionRecord * Store :=
  let rec := new_session input in
  (rec, {| records := prune now (filter (fun r => jti r <> jti rec) (records st) ++ [rec]); global_epoch := global_epoch st |}).

Definition getSession (j : string) (st : Store) : option SsoSessionRecord :=
  if negb (truthy j) then None else snd <$> list_find (fun r => jti r = j) (records st).

(** Revoke a row; record that it was seen. *)
Definition revoke_row (now : Z) (by_ : string) (why : option string) (r : SsoSessionRecord) : SsoSessionRecord :=
  {| jti := jti r; sub := sub r; email := email r; iss := iss r; iat := iat r; exp := exp r; ip_hash := ip_hash r;
     user_agent := user_agent r; last_seen_at := last_seen_at r; last_seen_ip_hash := last_seen_ip_hash r;
     revoked_at := Some now; revoked_by := Some by_; revoked_reason := why |}.

Definition see_row (now : Z) (ipH : string) (r : SsoSessionRecord) : SsoSessionRecord :=
  {| jti := jti r; sub := sub r; email := email r; iss := iss r; iat := iat r; exp := exp r; ip_hash := ip_hash r;
     user_agent := user_agent r; last_seen_at := Some now; last_seen_ip_hash := if truthy ipH then ipH else last_seen_ip_hash r;
     revoked_at := revoked_at r; revoked_by := revoked_by r; revoked_reason := revoked_reason r |}.

Inductive RevocationReason := revoked | global_epoch_passed | expired | unknown_jti | timed_out (why : TimeoutReason).

Definition timeout_text (w : TimeoutReason) : string := match w with idle_timeout => "idle-timeout" | absolute_timeout => "absolute-timeout" end.

Definition with_row (i : nat) (r : SsoSessionRecord) (st : Store) : Store :=
  {| records := <[i := r]> (records st); global_epoch := global_epoch st |}.

(** [None] is [{ revoked: false }]. [live] is the liveness argument: the address
    of the caller. The policy is the one in force. *)
Definition checkSession (policy : SessionTimeoutPolicy) (j : string) (iat_ exp_ : Z) (live : option (option string)) (now : Z) (st : Store)
  : option RevocationReason * Store :=
  if negb (truthy j) then (Some unknown_jti, st)
  else if exp_ <=? now then (Some expired, st)
  else if negb (global_epoch st =? 0) && (iat_ <=? global_epoch st) then (Some global_epoch_passed, st)
  else match list_find (fun r => jti r = j) (records st) with
  | None => (Some unknown_jti, st)
  | Some (i, row) =>
      if truthy_time (revoked_at row) then (Some revoked, st)
      else match decideTimeout policy iat_ (last_seen_at row) now with
      | Some why => (Some (timed_out why), with_row i (revoke_row now "session-timeout-policy" (Some (timeout_text why)) row) st)
      | None =>
          match live with
          | Some ip =>
              let ipH := hashIp ip in
              if negb (truthy_time (last_seen_at row)) || (now - default 0 (last_seen_at row) >? 30) ||
                 negb (String.eqb (last_seen_ip_hash row) ipH)
              then (None, with_row i (see_row now ipH row) st) else (None, st)
          | None => (None, st)
          end
      end
  end.

(** [clamp(s, n) || null]. *)
Definition reason_or (s : option string) (other : option string) : option string :=
  let c := clamp s MAX_REASON_LEN in if truthy c then Some c else other.

Record RevokeInput := { r_actor : string; r_reason : option string }.

Definition actor_of (opts : RevokeInput) : string := or_else (str_take 128 (r_actor opts)) "unknown".

Definition revokeBySession (j : string) (opts : RevokeInput) (now : Z) (st : Store) : option SsoSessionRecord * Store :=
  match list_find (fun r => jti r = j) (records st) with
  | None => (None, st)
  | Some (i, row) =>
      if truthy_time (revoked_at row) then (Some row, st)
      else let row' := revoke_row now (actor_of opts) (reason_or (r_reason opts) None) row in (Some row', with_row i row' st)
  end.

(** The loop over the rows that revokes the active ones selected by [p]. *)
Definition revoke_active (now : Z) (opts : RevokeInput) (why : option string) (p : SsoSessionRecord -> bool) (l : list SsoSessionRecord)
  : list SsoSessionRecord :=
  (fun r => if truthy_time (revoked_at r) then r else if exp r <=? now then r else if p r
            then revoke_row now (actor_of opts) (reason_or (r_reason opts) why) r else r) <$> l.

Definition active (now : Z) (r : SsoSessionRecord) : bool := negb (truthy_time (revoked_at r)) && negb (exp r <=? now).

Definition revokeByEmail (address : string) (opts : RevokeInput) (now : Z) (st : Store) : Z * Store :=
  let target := to_lower (trim address) in
  if negb (truthy target) then (0, st) else
  (len (filter (fun r => active now r && String.eqb (email r) target = true) (records st)),
   {| records := revoke_active now opts None (fun r => String.eqb (email r) target) (records st); global_epoch := global_epoch st |}).

Definition bumpEpoch (opts : RevokeInput) (now : Z) (st : Store) : (Z * Z) * Store :=
  ((now, len (filter (fun r => active now r = true) (records st))),
   {| records := revoke_active now opts (Some "global-epoch-bump") (fun _ => true) (records st); global_epoch := now |}).

Definition listSessions (include_revoked : bool) (limit : option Z) (email_ : option string) (now : Z) (st : Store)
  : list SsoSessionRecord * Z * Z :=
  let want := to_lower (trim (default "" email_)) in
  let rows := js_sort (by_desc iat)
    (filter (fun r => negb (truthy want) || String.eqb (email r) want = true)
      (filter (fun r => include_revoked || (negb (truthy_time (revoked_at r)) && (exp r >? now)) = true) (records st))) in
  (match limit with Some n => if n >? 0 then take (Z.to_nat n) rows else rows | None => rows end,
   global_epoch st,
   len (filter (fun r => negb (truthy_time (revoked_at r)) && (exp r >? now) = true) (records st))).
End Registry.

(** ** Histories of the registry *)

Inductive event :=
| Register (input : RegisterInput) (now : Z)
| Check_ (policy : SessionTimeoutPolicy) (j : string) (iat_ exp_ : Z) (live : option (option string)) (now : Z)
| Revoke (j : string) (opts : RevokeInput) (now : Z)
| RevokeEmail (address : string) (opts : RevokeInput) (now : Z)
| Bump (opts : RevokeInput) (now : Z).

Definition time_of (e : event) : Z :=
  match e with Register _ n | Check_ _ _ _ _ _ n | Revoke _ _ n | RevokeEmail _ _ n | Bump _ n => n end.

(** The event mints a session under the id [j]. *)
Definition registers (j : string) (e : event) : bool := match e with Register i _ => String.eqb (in_jti i) j | _ => false end.

(** The clock does not run backwards, and is past the epoch of Unix time. *)
Fixpoint chronological (t : Z) (evs : list event) : Prop :=
  match evs with [] => True | e :: r => t <= time_of e /\ chronological (time_of e) r end.

Section History.
Context (sha256 : string -> string).

Definition run (e : event) (st : Store) : Store :=
  match e with
  | Register i n => snd (registerSession sha256 i n st)
  | Check_ p j a b l n => snd (checkSession sha256 p j a b l n st)
  | Revoke j o n => snd (revokeBySession j o n st)
  | RevokeEmail a o n => snd (revokeByEmail a o n st)
  | Bump o n => snd (bumpEpoch o n st)
  end.

Definition run_all (evs : list event) (st : Store) : Store := fold_left (fun st e => run e st) evs st.

(** Rows have distinct ids and the epoch lies in the past. *)
Definition ok (t : Z) (st : Store) : Prop := NoDup (jti <$> records st) /\ 0 <= global_epoch st <= t.

Lemma prune_submseteq now l : prune now l ⊆+ l.
Proof.
  unfold prune. transitivity (filter (fun r => kept now r = true) l); [|apply sublist_submseteq, sublist_filter].
  destruct (len _ >? MAX_RECORDS); [|done]. rewrite <- (js_sort_Permutation (by_desc iat) (filter _ l)) at 2.
  apply sublist_submseteq, sublist_take.
Qed.

Lemma NoDup_jti_submseteq (l l' : list SsoSessionRecord) : l ⊆+ l' -> NoDup (jti <$> l') -> NoDup (jti <$> l).
Proof.
  intros Hs Hn. apply (fmap_submseteq jti) in Hs. apply submseteq_Permutation in Hs as [k Hk].
  rewrite Hk in Hn. by apply NoDup_app in Hn as [? _].
Qed.

(** Updates that keep the ids. *)
Lemma insert_jti (l : list SsoSessionRecord) i r r' : l !! i = Some r -> jti r' = jti r -> jti <$> <[i := r']> l = jti <$> l.
Proof. intros Hi Hj. by eapply fmap_insert_same. Qed.

Lemma revoke_active_jti now opts why p l : jti <$> revoke_active now opts why p l = jti <$> l.
Proof. unfold revoke_active. rewrite <- list_fmap_compose. apply list_fmap_ext. intros i r _. simpl. by repeat case_match. Qed.

Lemma find_row (l : list SsoSessionRecord) j i r : list_find (fun r => jti r = j) l = Some (i, r) -> l !! i = Some r /\ jti r = j.
Proof. intros H%list_find_Some. split; apply H. Qed.

(** A check leaves the store or updates the row in place. *)
Lemma checkSession_store p j a b live now st :
  snd (checkSession sha256 p j a b live now st) = st \/
  exists i r r', list_find (fun r => jti r = j) (records st) = Some (i, r) /\ truthy_time (revoked_at r) = false /\
    snd (checkSession sha256 p j a b live now st) = with_row i r' st /\
    jti r' = jti r /\ email r' = email r /\ exp r' = exp r /\ iat r' = iat r /\
    (r' = see_row now (hashIp sha256 (default None live)) r \/
     exists why, fst (checkSession sha256 p j a b live now st) = Some (timed_out why) /\ r' = revoke_row now "session-timeout-policy" (Some (timeout_text why)) r).
Proof.
  unfold checkSession. destruct (negb (truthy j)); [by left|]. destruct (b <=? now); [by left|]. destruct (negb _ && _); [by left|].
  destruct (list_find _ _) as [[i r]|] eqn:Hf; [|by left]. destruct (truthy_time (revoked_at r)) eqn:Er; [by left|].
  destruct (decideTimeout p a (last_seen_at r) now) as [why|].
  - right. eexists i, r, _. split_and!; [done|done|reflexivity|done..|]. right. eauto.
  - destruct live as [ip|]; [|by left]. destruct (_ || _ || _); [|by left].
    right. eexists i, r, _. split_and!; [done|done|reflexivity|done..|]. by left.
Qed.

Lemma run_ok t e st : ok t st -> t <= time_of e -> ok (time_of e) (run e st).
Proof.
  intros [Hn He] Ht. destruct e as [i n|p j a b l n|j o n|a o n|o n]; cbn [run time_of] in *.
  - split; [|simpl; lia]. simpl. eapply NoDup_jti_submseteq; [apply prune_submseteq|]. rewrite fmap_app. apply NoDup_app. split; [|split].
    + eapply NoDup_jti_submseteq; [apply sublist_submseteq, sublist_filter|done].
    + intros x Hx Hx'. apply list_elem_of_fmap in Hx as (r & -> & [Hr _]%list_elem_of_filter).
      apply list_elem_of_singleton in Hx'. by rewrite Hx' in Hr.
    + apply NoDup_singleton.
  - destruct (checkSession_store p j a b l n st) as [->|(i & r & r' & Hf & _ & -> & Hj & _)]; [split; [done|lia]|].
    split; [|simpl; lia]. simpl. apply find_row in Hf as [Hi _]. by rewrite (insert_jti _ _ r).
  - unfold revokeBySession. destruct (list_find _ _) as [[i r]|] eqn:Hf; [|split; [done|simpl; lia]].
    destruct (truthy_time _); [split; [done|simpl; lia]|]. split; [|simpl; lia]. simpl. apply find_row in Hf as [Hi _]. by rewrite (insert_jti _ _ r).
  - unfold revokeByEmail. destruct (negb _); [split; [done|simpl; lia]|]. split; [|simpl; lia]. simpl. by rewrite revoke_active_jti.
  - split; [simpl; by rewrite revoke_active_jti|simpl; lia].
Qed.

Lemma run_all_app evs evs' st : run_all (evs ++ evs') st = run_all evs' (run_all evs st).
Proof. apply fold_left_app. Qed.

(** A property kept by every step, at the time of the step, holds along a
    history; the history's later part starts at the time reached. *)
Lemma run_all_ind (P : Z -> Store -> Prop) (Q : event -> Prop) t evs rest st :
  (forall t e st, P t st -> Q e -> t <= time_of e -> P (time_of e) (run e st)) ->
  P t st -> Forall Q evs -> chronological t (evs ++ rest) ->
  exists t', P t' (run_all evs st) /\ chronological t' rest.
Proof.
  intros Hstep. revert t st; induction evs as [|e evs IH]; intros t st Hp HQ Hc; [by exists t|].
  apply Forall_cons in HQ as [Hq HQ]. destruct Hc as [Ht Hc]. apply (IH (time_of e) (run e st)); eauto.
Qed.

(** The store of a history that began with an empty registry. *)
Lemma reached_ok pre rest : chronological 1 (pre ++ rest) ->
  exists t, (1 <= t /\ ok t (run_all pre empty_store)) /\ chronological t rest.
Proof.
  intros Hc. apply (run_all_ind (fun t st => 1 <= t /\ ok t st) (fun _ => True) 1); [| |by apply Forall_true|done].
  - intros t e st [Ht Ho] _ Hle. split; [lia|]. by eapply run_ok.
  - split; [lia|]. split; [apply NoDup_nil; constructor|simpl; lia].
Qed.

(** ** A rejected session stays rejected *)

(** Why every check of the cookie from time [t] on rejects it. *)
Definition dead (j : string) (a b t : Z) (st : Store) : Prop :=
  j = "" \/ b <= t \/ (global_epoch st <> 0 /\ a <= global_epoch st) \/
  Forall (fun r => jti r = j -> truthy_time (revoked_at r) = true) (records st).

Lemma dead_rejects p j a b l now st : dead j a b now st -> is_Some (fst (checkSession sha256 p j a b l now st)).
Proof.
  unfold checkSession. intros Hd. destruct (negb (truthy j)) eqn:Ej; [done|]. destruct (b <=? now) eqn:Eb; [done|].
  destruct (negb _ && _) eqn:Ee; [done|]. destruct (list_find _ _) as [[i r]|] eqn:Hf; [|done].
  assert (truthy_time (revoked_at r) = true) as ->; [|done].
  destruct Hd as [->|[?|[?|Hd]]]; [done|lia|lia|]. apply find_row in Hf as [Hi Hr]. by apply (Forall_lookup_1 _ _ _ _ Hd Hi).
Qed.

Lemma rejects_dead p j a b l now st : now <> 0 -> NoDup (jti <$> records st) ->
  is_Some (fst (checkSession sha256 p j a b l now st)) -> dead j a b now (snd (checkSession sha256 p j a b l now st)).
Proof.
  unfold checkSession, dead. intros Hnow Hn. destruct (negb (truthy j)) eqn:Ej.
  { intros _. left. destruct j; [done|simpl in Ej; discriminate]. }
  destruct (b <=? now) eqn:Eb; [right; left; lia|]. destruct (negb _ && _) eqn:Ee; [right; right; left; simpl; lia|].
  destruct (list_find _ _) as [[i r]|] eqn:Hf.
  2: { intros _. do 3 right. apply list_find_None in Hf. eapply Forall_impl; [exact Hf|]. by intros r Hr ?. }
  apply find_row in Hf as [Hi Hr].
  assert (forall k r', records st !! k = Some r' -> jti r' = j -> k = i) as Huniq.
  { intros k r' Hk Hj. eapply (NoDup_lookup _ k i j Hn); rewrite list_lookup_fmap; [rewrite Hk|rewrite Hi]; simpl; congruence. }
  destruct (truthy_time (revoked_at r)) eqn:Er.
  { intros _. do 3 right. apply Forall_lookup. intros k r' Hk Hj. simpl in Hk. rewrite (Huniq _ _ Hk Hj) in Hk. congruence. }
  destruct (decideTimeout _ _ _ _) as [why|]; [|by destruct l; [destruct (_ || _ || _)|]; intros [? ?]].
  intros _. do 3 right. apply Forall_lookup. intros k r' Hk Hj. simpl in Hk.
  apply list_lookup_insert_Some in Hk as [(<- & <- & _)|(Hne & Hk)]; [simpl; lia|]. by destruct Hne; rewrite (Huniq _ _ Hk Hj).
Qed.

(** Where a row comes from: the new row, or a row that was there, with its id
    and, once revoked, its revocation. *)
Definition descends (j : string) (l l' : list SsoSessionRecord) : Prop :=
  Forall (fun r' => jti r' = j -> exists r, r ∈ l /\ jti r = j /\ (truthy_time (revoked_at r) = true -> truthy_time (revoked_at r') = true)) l'.

Lemma descends_refl j l : descends j l l.
Proof. apply Forall_forall. eauto. Qed.

Lemma descends_insert j l i r r' : l !! i = Some r -> jti r' = jti r ->
  (truthy_time (revoked_at r) = true -> truthy_time (revoked_at r') = true) -> descends j l (<[i := r']> l).
Proof.
  intros Hi Hj Hr. apply Forall_lookup. intros k x Hk Hx. apply list_lookup_insert_Some in Hk as [(<- & <- & _)|(_ & Hk)].
  - exists r. split; [by eapply list_elem_of_lookup_2|]. split; [congruence|done].
  - exists x. split; [by eapply list_elem_of_lookup_2|]. done.
Qed.

Lemma descends_revoke_active j now opts why p l : now <> 0 -> descends j l (revoke_active now opts why p l).
Proof.
  intros Hn. apply Forall_fmap, Forall_forall. intros r Hr Hj. exists r. split; [done|]. simpl in *.
  destruct (truthy_time (revoked_at r)) eqn:Er; [by rewrite Er|]. split; [|done]. revert Hj. by destruct (exp r <=? now), (p r).
Qed.

Lemma run_descends j e st : registers j e = false -> 1 <= time_of e -> descends j (records st) (records (run e st)).
Proof.
  intros Hq Ht. destruct e as [i n|p j' a b l n|j' o n|a o n|o n]; cbn [run time_of registers] in *.
  - apply Forall_forall. intros r Hr Hj. simpl in Hr.
    eapply elem_of_submseteq in Hr; [|apply prune_submseteq]. apply elem_of_app in Hr as [Hr|Hr].
    + apply list_elem_of_filter in Hr as [_ Hr]. eauto.
    + apply list_elem_of_singleton in Hr as ->. simpl in Hj. apply String.eqb_neq in Hq. done.
  - destruct (checkSession_store p j' a b l n st) as [->|(i & r & r' & Hf & Hr & -> & Hj & _)]; [apply descends_refl|].
    apply find_row in Hf as [Hi _]. eapply descends_insert; eauto. by rewrite Hr.
  - unfold revokeBySession. destruct (list_find _ _) as [[i r]|] eqn:Hf; [|apply descends_refl].
    destruct (truthy_time _) eqn:Er; [apply descends_refl|]. apply find_row in Hf as [Hi _].
    eapply descends_insert; eauto. by rewrite Er.
  - unfold revokeByEmail. destruct (negb _); [apply descends_refl|]. apply descends_revoke_active. lia.
  - apply descends_revoke_active. lia.
Qed.

(** The epoch only grows. *)
Lemma run_epoch e st : global_epoch (run e st) = global_epoch st \/ global_epoch (run e st) = time_of e.
Proof.
  destruct e as [i n|p j a b l n|j o n|a o n|o n]; cbn [run time_of]; auto.
  - destruct (checkSession_store p j a b l n st) as [->|(i & r & r' & _ & _ & -> & _)]; by left.
  - unfold revokeBySession. destruct (list_find _ _) as [[i r]|]; [|by left]. destruct (truthy_time _); by left.
  - unfold revokeByEmail. destruct (negb _); by left.
Qed.

Lemma dead_run j a b t e st : 1 <= t -> ok t st -> dead j a b t st -> registers j e = false -> t <= time_of e ->
  dead j a b (time_of e) (run e st).
Proof.
  intros H1 [_ He] [?|[?|[[Hz Ha]|Hd]]] Hq Ht; unfold dead; [auto|lia| |].
  - destruct (run_epoch e st) as [->| ->]; lia.
  - do 3 right. pose proof (run_descends j e st Hq) as Hdes. apply Forall_forall. intros r' Hr' Hj.
    destruct (proj1 (Forall_forall _ _) (Hdes ltac:(lia)) r' Hr' Hj) as (r & Hr & Hrj & Hk). apply Hk.
    by apply (proj1 (Forall_forall _ _) Hd).
Qed.

(** ** A session nobody ends stays accepted *)

(** The row of a session that has not been ended. *)
Definition alive (input : RegisterInput) (st : Store) : Prop :=
  global_epoch st < in_iat input /\
  exists r, r ∈ records st /\ jti r = in_jti input /\ email r = to_lower (in_email input) /\ exp r = in_exp input /\ iat r = in_iat input /\
            truthy_time (revoked_at r) = false.

(** Steps that revoke nobody's, or another's, session, and mint none under its id. *)
Definition spares (input : RegisterInput) (e : event) : bool :=
  match e with
  | Register i _ => negb (String.eqb (in_jti i) (in_jti input))
  | Check_ _ _ _ _ _ _ => true
  | Revoke j _ _ => negb (String.eqb j (in_jti input))
  | RevokeEmail a _ _ => negb (String.eqb (to_lower (trim a)) (to_lower (in_email input)))
  | Bump _ _ => false
  end.

(** The check turns the session away because a timeout is enforced on it. *)
Definition times_out (input : RegisterInput) (e : event) (st : Store) : Prop :=
  match e with
  | Check_ p j a b l n => j = in_jti input /\ exists why, fst (checkSession sha256 p j a b l n st) = Some (timed_out why)
  | _ => False
  end.

(** Nobody ends the session in the course of these events. *)
Fixpoint undisturbed (input : RegisterInput) (evs : list event) (st : Store) : Prop :=
  match evs with [] => True | e :: r => spares input e = true /\ ~ times_out input e st /\ undisturbed input r (run e st) end.

(** Sign-ins at that time or later. *)
Definition signs_in_since (a : Z) (e : event) : bool := match e with Register i _ => a <=? in_iat i | _ => false end.
Definition signed_in_since (a : Z) (evs : list event) : Z := len (filter (fun e => signs_in_since a e = true) evs).

Lemma signed_in_since_cons a e evs : signed_in_since a (e :: evs) = (if signs_in_since a e then 1 else 0) + signed_in_since a evs.
Proof. unfold signed_in_since, len. rewrite filter_cons. destruct (signs_in_since a e); simpl; lia. Qed.

Lemma signed_in_since_app a evs evs' : signed_in_since a (evs ++ evs') = signed_in_since a evs + signed_in_since a evs'.
Proof. unfold signed_in_since. by rewrite filter_app, len_app. Qed.

(** The rows of sessions signed in since. *)
Definition rows_since (a : Z) (l : list SsoSessionRecord) : Z := len (filter (fun r => a <= iat r) l).

Lemma rows_since_submseteq a l l' : l ⊆+ l' -> rows_since a l <= rows_since a l'.
Proof. intros [k Hk]%submseteq_Permutation. unfold rows_since, len. rewrite Hk, filter_app, length_app. lia. Qed.

Lemma rows_since_iat a l : forall l', iat <$> l = iat <$> l' -> rows_since a l = rows_since a l'.
Proof.
  induction l as [|r l IH]; intros [|r' l'] E; try done. injection E as Hr E. unfold rows_since in *. rewrite !filter_cons, Hr.
  specialize (IH l' E). destruct (decide (a <= iat r')); unfold len in *; simpl in *; lia.
Qed.

Lemma run_rows_since a e st : rows_since a (records (run e st)) <= (if signs_in_since a e then 1 else 0) + rows_since a (records st).
Proof.
  destruct e as [i n|p j b c l n|j o n|ad o n|o n]; cbn [run signs_in_since].
  - etransitivity; [apply rows_since_submseteq, prune_submseteq|]. unfold rows_since. rewrite filter_app, len_app, filter_cons, filter_nil.
    pose proof (len_filter_filter (fun r => a <= iat r) (fun r => jti r <> in_jti i) (records st)). cbn [jti new_session iat].
    destruct (decide (a <= in_iat i)), (Z.leb_spec a (in_iat i)); unfold len in *; simpl; lia.
  - destruct (checkSession_store p j b c l n st) as [->|(i & r & r' & Hf & _ & -> & _ & _ & _ & Hi & _)]; [lia|].
    apply find_row in Hf as [Hl _]. rewrite (rows_since_iat a _ (records st)); [lia|]. by apply (fmap_insert_same _ _ _ r).
  - unfold revokeBySession. destruct (list_find _ _) as [[i r]|] eqn:Hf; [|simpl; lia]. destruct (truthy_time _); [simpl; lia|].
    apply find_row in Hf as [Hl _]. rewrite (rows_since_iat a _ (records st)); [lia|]. by apply (fmap_insert_same _ _ _ r).
  - unfold revokeByEmail. destruct (negb _); [simpl; lia|]. rewrite (rows_since_iat a _ (records st)); [lia|].
    cbn. unfold revoke_active. rewrite <- list_fmap_compose. apply list_fmap_ext. intros i r _. simpl. by repeat case_match.
  - rewrite (rows_since_iat a _ (records st)); [lia|]. cbn. unfold revoke_active. rewrite <- list_fmap_compose. apply list_fmap_ext.
    intros i r _. simpl. by repeat case_match.
Qed.

Lemma run_all_rows_since a evs st : rows_since a (records (run_all evs st)) <= rows_since a (records st) + signed_in_since a evs.
Proof.
  revert st; induction evs as [|e evs IH]; intros st; [unfold signed_in_since, len; simpl; lia|]. rewrite signed_in_since_cons.
  pose proof (run_rows_since a e st). specialize (IH (run e st)). change (run_all (e :: evs) st) with (run_all evs (run e st)). lia.
Qed.

Lemma take_ranked {A} (f : A -> Z) (l : list A) n x : StronglySorted (fun a b => f b <= f a) l -> x ∈ l ->
  len (filter (fun y => f x <= f y) l) <= Z.of_nat n -> x ∈ take n l.
Proof.
  intros Hs (l1 & l2 & ->)%list_elem_of_split Hl. apply StronglySorted_app in Hs as (Hb & _ & _).
  rewrite filter_app, filter_cons_True, len_app, filter_all in Hl by (lia || (apply Forall_forall; intros y Hy; apply Hb; [done|by left])).
  rewrite take_app_ge by (unfold len in Hl; simpl in Hl; lia). apply elem_of_app. right.
  destruct (n - length l1)%nat eqn:En; [unfold len in Hl; simpl in Hl; lia|by left].
Qed.

(** The registry forgets the sessions that were signed in first. *)
Lemma prune_keeps now l x : x ∈ l -> kept now x = true -> rows_since (iat x) l <= MAX_RECORDS -> x ∈ prune now l.
Proof.
  intros Hx Hk Hl. unfold prune. assert (x ∈ filter (fun r => kept now r = true) l) as Hin by (by apply list_elem_of_filter).
  destruct (_ >? _); [|done]. apply (take_ranked iat); [apply by_desc_sorted|by rewrite js_sort_Permutation|].
  unfold len. rewrite js_sort_Permutation. fold (len (filter (fun r => iat x <= iat r) (filter (fun r => kept now r = true) l))).
  pose proof (len_filter_filter (fun r => iat x <= iat r) (fun r => kept now r = true) l). unfold rows_since in Hl. unfold MAX_RECORDS in *. lia.
Qed.

Lemma kept_unexpired now r : now < exp r -> kept now r = true.
Proof. unfold kept. intros H. by destruct (Z.gtb_spec (exp r) now); [|lia]. Qed.

Lemma alive_insert input st i r r' : records st !! i = Some r ->
  (jti r = in_jti input -> jti r' = jti r /\ email r' = email r /\ exp r' = exp r /\ iat r' = iat r /\
    (truthy_time (revoked_at r) = false -> truthy_time (revoked_at r') = false)) ->
  alive input st -> alive input (with_row i r' st).
Proof.
  intros Hi Hsame (He & x & Hx & Hj & Hm & Hexp & Hiat & Hr). split; [done|].
  apply list_elem_of_lookup in Hx as [k Hk]. destruct (decide (k = i)) as [->|Hne].
  - assert (x = r) as -> by congruence. destruct (Hsame Hj) as (? & ? & ? & ? & ?). exists r'. split_and!; try congruence; [|auto].
    eapply list_elem_of_lookup_2. simpl. apply list_lookup_insert_eq. by eapply lookup_lt_Some.
  - exists x. split_and!; try done. eapply list_elem_of_lookup_2. simpl. by rewrite list_lookup_insert_ne.
Qed.

Lemma alive_run input e st : alive input st -> spares input e = true -> ~ times_out input e st -> time_of e < in_exp input ->
  rows_since (in_iat input) (records st) + (if signs_in_since (in_iat input) e then 1 else 0) <= MAX_RECORDS -> alive input (run e st).
Proof.
  intros Ha Hs Hto Ht Hl. destruct e as [i n|p j a b l n|j o n|a o n|o n]; cbn [run spares times_out time_of signs_in_since] in *; [| | | |done].
  - destruct Ha as (He & x & Hx & Hj & Hm & Hexp & Hiat & Hr). split; [done|]. exists x. split_and!; try done. cbn [records registerSession snd].
    apply prune_keeps; [|apply kept_unexpired; lia|].
    + apply elem_of_app. left. apply list_elem_of_filter. split; [|done]. cbn. rewrite Hj. intros E. by rewrite E, String.eqb_refl in Hs.
    + rewrite Hiat. unfold rows_since in *. rewrite filter_app, len_app, filter_cons, filter_nil.
      pose proof (len_filter_filter (fun r => in_iat input <= iat r) (fun r => jti r <> in_jti i) (records st)). cbn [jti new_session iat] in *.
      destruct (decide (in_iat input <= in_iat i)), (Z.leb_spec (in_iat input) (in_iat i)); unfold len in *; simpl in *; lia.
  - destruct (checkSession_store p j a b l n st) as [->|(i & r & r' & Hf & Hrev & -> & H)]; [done|].
    apply find_row in Hf as [Hi Hj]. eapply alive_insert; [exact Hi| |done]. intros Hr. destruct H as (H1 & H2 & H3 & H4 & H).
    split_and!; try done. intros _. destruct H as [->|(why & Hw & ->)]; [done|]. exfalso. apply Hto. split; [congruence|by exists why].
  - unfold revokeBySession. destruct (list_find _ _) as [[i r]|] eqn:Hf; [|done]. destruct (truthy_time _); [done|].
    apply find_row in Hf as [Hi Hj]. eapply alive_insert; [exact Hi| |done]. intros Hr. by rewrite <- Hr, Hj, String.eqb_refl in Hs.
  - unfold revokeByEmail. destruct (negb (truthy _)); [done|]. destruct Ha as (He & x & Hx & Hj & Hm & Hexp & Hiat & Hr). split; [done|].
    exists x. split_and!; try done. simpl. unfold revoke_active. apply list_elem_of_fmap. exists x. split; [|done].
    rewrite Hr, Hm. destruct (exp x <=? n); [done|]. rewrite String.eqb_sym. by apply negb_true_iff in Hs as ->.
Qed.

Lemma alive_run_all input evs : forall st, alive input st -> undisturbed input evs st -> Forall (fun e => time_of e < in_exp input) evs ->
  rows_since (in_iat input) (records st) + signed_in_since (in_iat input) evs <= MAX_RECORDS -> alive input (run_all evs st).
Proof.
  induction evs as [|e evs IH]; intros st Ha Hu Ht Hl; [done|]. apply Forall_cons in Ht as [Ht Hr]. destruct Hu as (Hs & Hto & Hu).
  rewrite signed_in_since_cons in Hl. pose proof (run_rows_since (in_iat input) e st).
  assert (0 <= signed_in_since (in_iat input) evs) by (unfold signed_in_since, len; lia).
  apply (IH (run e st)); [apply alive_run; try done; lia|done|done|lia].
Qed.

Lemma registered_alive input n st : rows_since (in_iat input) (records st) + 1 <= MAX_RECORDS -> n < in_exp input -> global_epoch st < in_iat input ->
  alive input (run (Register input n) st).
Proof.
  intros Hl Hx He. split; [done|]. exists (new_session sha256 input). split_and!; try done. cbn [run records registerSession snd].
  apply prune_keeps; [apply elem_of_app; right; by apply list_elem_of_singleton|by apply kept_unexpired|].
  cbn [new_session iat]. unfold rows_since in *. rewrite filter_app, len_app, filter_cons, filter_nil.
  pose proof (len_filter_filter (fun r => in_iat input <= iat r) (fun r => jti r <> in_jti input) (records st)). cbn [jti new_session iat] in *.
  destruct (decide _); unfold len in *; simpl in *; lia.
Qed.

(** The times of a history do not decrease. *)
Lemma chronological_before t evs e : chronological t (evs ++ [e]) -> Forall (fun x => time_of x <= time_of e) evs /\ t <= time_of e.
Proof.
  revert t; induction evs as [|x evs IH]; intros t; cbn [app chronological]; [intros [H _]; split; [constructor|lia]|].
  intros [H Hc]. destruct (IH _ Hc) as [Hf Hl]. split; [constructor; [lia|done]|lia].
Qed.

Lemma alive_accepted input st p l now : NoDup (jti <$> records st) -> alive input st -> in_jti input <> "" -> now < in_exp input ->
  fst (checkSession sha256 p (in_jti input) (in_iat input) (in_exp input) l now st) = None \/
  times_out input (Check_ p (in_jti input) (in_iat input) (in_exp input) l now) st.
Proof.
  intros Hn (He & x & Hx & Hj & _ & _ & _ & Hr) Hne Hnow. unfold times_out, checkSession.
  destruct (in_jti input) as [|c s] eqn:Ej; [done|]. rewrite <- Ej in *. replace (truthy (in_jti input)) with true by (by rewrite Ej). simpl.
  destruct (Z.leb_spec (in_exp input) now); [lia|]. destruct (Z.leb_spec (in_iat input) (global_epoch st)); [lia|]. rewrite andb_false_r.
  destruct (list_find _ _) as [[i r]|] eqn:Hf.
  - apply find_row in Hf as [Hi Hri]. apply list_elem_of_lookup in Hx as [k Hk].
    assert (k = i) as ->. { eapply (NoDup_lookup _ k i _ Hn); rewrite list_lookup_fmap; [by rewrite Hk|rewrite Hi; simpl; congruence]. }
    assert (x = r) as -> by congruence. rewrite Hr. destruct (decideTimeout _ _ _ _) as [why|]; [right; split; [done|by exists why]|left].
    destruct l; [by destruct (_ || _ || _)|done].
  - apply list_find_None in Hf. exfalso. rewrite Forall_forall in Hf. by eapply Hf.
Qed.
End History.

(** C14. Once a cookie is rejected it is rejected for good: after any history of
    sign-ins, checks, revocations and epoch bumps, a cookie that a check turned
    away (expired, revoked, unknown, before the epoch or timed out) is turned
    away by every later check, whatever the timeout policy has become, as long
    as its id is not signed in again. *)
Theorem rejected_session_stays_rejected (sha256 : string -> string) (j : string) (a b : Z) p l n p' l' n' pre evs :
  chronological 1 (pre ++ Check_ p j a b l n :: evs ++ [Check_ p' j a b l' n']) ->
  Forall (fun e => registers j e = false) evs ->
  is_Some (fst (checkSession sha256 p j a b l n (run_all sha256 pre empty_store))) ->
  is_Some (fst (checkSession sha256 p' j a b l' n' (run_all sha256 (pre ++ Check_ p j a b l n :: evs) empty_store))).
Proof.
  intros Hc Hq Hrej. apply (reached_ok sha256) in Hc as (t & [H1 Ho] & Ht & Hc). simpl in Ht, Hc.
  assert (ok n (run sha256 (Check_ p j a b l n) (run_all sha256 pre empty_store))) as Ho' by (eapply run_ok; eauto).
  apply rejects_dead in Hrej; [|lia|apply Ho].
  destruct (run_all_ind sha256 (fun t st => 1 <= t /\ ok t st /\ dead j a b t st) (fun e => registers j e = false) n evs
    [Check_ p' j a b l' n'] (run sha256 (Check_ p j a b l n) (run_all sha256 pre empty_store))) as (t' & (H1' & Ho'' & Hd) & Hle & _);
    [|by split; [lia|]|done|done|].
  { intros u e st (Hu & Hok & Hdead) He Hue. split_and!; [lia|by eapply run_ok|by eapply dead_run]. }
  rewrite run_all_app. apply dead_rejects. simpl in Hle |- *.
  destruct Hd as [?|[?|Hd]]; unfold dead; [auto|lia|auto].
Qed.

(** A session nobody ends is accepted until its expiry: after a sign-in past
    the last epoch bump, if no later step revokes that session, its address or
    everyone, the id is not reused, no check of it runs into an enforced timeout,
    and fewer than the cap of sessions are signed in from then on, its cookie
    passes every check made before it expires, unless that check runs into an
    enforced timeout. *)
Theorem live_session_accepted (sha256 : string -> string) input n p l n' pre evs :
  let last := Check_ p (in_jti input) (in_iat input) (in_exp input) l n' in
  chronological 1 (pre ++ Register input n :: evs ++ [last]) ->
  in_jti input <> "" -> n' < in_exp input ->
  global_epoch (run_all sha256 pre empty_store) < in_iat input ->
  signed_in_since (in_iat input) (pre ++ Register input n :: evs) <= MAX_RECORDS ->
  undisturbed sha256 input evs (run_all sha256 (pre ++ [Register input n]) empty_store) ->
  let st := run_all sha256 (pre ++ Register input n :: evs) empty_store in
  fst (checkSession sha256 p (in_jti input) (in_iat input) (in_exp input) l n' st) = None \/ times_out sha256 input last st.
Proof.
  intros last Hc Hj Hx He Hr Hu. rewrite signed_in_since_app, signed_in_since_cons in Hr. cbn [signs_in_since] in Hr. rewrite Z.leb_refl in Hr.
  rewrite app_comm_cons, app_assoc in Hc. destruct (chronological_before _ _ _ Hc) as [Hb _]. apply Forall_app in Hb as [_ [Hn Hb]%Forall_cons].
  apply (reached_ok sha256) in Hc as (t & [_ Ho] & _). cbn [time_of last] in Hn, Hb.
  apply alive_accepted; try done; [apply Ho|]. rewrite run_all_app in Hu |- *.
  pose proof (run_all_rows_since sha256 (in_iat input) pre empty_store) as Hl. change (rows_since (in_iat input) (records empty_store)) with 0 in Hl.
  assert (0 <= signed_in_since (in_iat input) evs) by (unfold signed_in_since, len; lia).
  pose proof (run_rows_since sha256 (in_iat input) (Register input n) (run_all sha256 pre empty_store)) as Hl'. cbn [signs_in_since] in Hl'. rewrite Z.leb_refl in Hl'.
  apply (alive_run_all sha256 input evs (run sha256 (Register input n) (run_all sha256 pre empty_store))); [|exact Hu| |lia].
  - apply registered_alive; [lia|lia|done].
  - eapply Forall_impl; [exact Hb|]. cbn. lia.
Qed.

(** A value the policy may hold: off, or within the limits. *)
Definition allowed (lo hi n : Z) : Prop := n = 0 \/ lo <= n <= hi.

Lemma timeout_of_spec lo hi cur v n : 0 <= lo -> timeout_of lo hi cur v = Some n ->
  (v = None /\ n = cur) \/ (exists j, v = Some j /\ isInt j = Some n /\ allowed lo hi n).
Proof.
  intros Hlo. unfold timeout_of, allowed. destruct v as [j|]; [|intros [= ->]; by left]. destruct (isInt j) as [k|] eqn:Ej; [|done].
  destruct (k <? 0) eqn:E1; [done|]. destruct (_ && _) eqn:E2; [done|]. intros [= ->]. right. exists j. split_and!; [done|done|lia].
Qed.

Lemma timeout_of_refuses lo hi cur v : 0 <= lo -> timeout_of lo hi cur v = None ->
  exists j, v = Some j /\ forall n, isInt j = Some n -> ~ allowed lo hi n.
Proof.
  intros Hlo. unfold timeout_of, allowed. destruct v as [j|]; [|done]. intros H. exists j. split; [done|]. intros n Hn. rewrite Hn in H.
  destruct (n <? 0) eqn:E1; [lia|]. destruct (_ && _) eqn:E2; [lia|done].
Qed.

(** Changing the session timeouts: an update is refused exactly when a timeout
    given is not an integer that is zero or within its limits, the idle timeout
    being reported first, and then changes nothing; an accepted one is what the
    policy becomes, and a policy within the limits stays within them. *)
Theorem timeout_update_contract input now cur : 
  let '(res, nxt) := updatePolicy input now cur in
  match res with
  | Ok p => nxt = p /\ updated_at p = Some now /\
      (allowed MIN_IDLE_S MAX_IDLE_S (idle_timeout_s cur) -> allowed MIN_IDLE_S MAX_IDLE_S (idle_timeout_s p)) /\
      (allowed MIN_ABSOLUTE_S MAX_ABSOLUTE_S (absolute_timeout_s cur) -> allowed MIN_ABSOLUTE_S MAX_ABSOLUTE_S (absolute_timeout_s p))
  | Err invalid_idle => nxt = cur /\
      exists j, in_idle input = Some j /\ forall n, isInt j = Some n -> ~ allowed MIN_IDLE_S MAX_IDLE_S n
  | Err invalid_absolute => nxt = cur /\ is_Some (timeout_of MIN_IDLE_S MAX_IDLE_S (idle_timeout_s cur) (in_idle input)) /\
      exists j, in_absolute input = Some j /\ forall n, isInt j = Some n -> ~ allowed MIN_ABSOLUTE_S MAX_ABSOLUTE_S n
  end.
Proof.
  unfold updatePolicy. destruct (timeout_of MIN_IDLE_S _ _ _) as [i|] eqn:Hi; [|split; [done|by eapply timeout_of_refuses]].
  destruct (timeout_of MIN_ABSOLUTE_S _ _ _) as [a|] eqn:Ha; [|split; [done|split; [done|by eapply timeout_of_refuses]]].
  apply timeout_of_spec in Hi; [|done]. apply timeout_of_spec in Ha; [|done]. split_and!; try done; cbn.
  - destruct Hi as [[_ ->]|(j & _ & _ & ?)]; auto.
  - destruct Ha as [[_ ->]|(j & _ & _ & ?)]; auto.
Qed.

(** ** Witnesses *)

Definition demo_input : RegisterInput :=
  {| in_jti := "j1"; in_sub := "u1"; in_email := "Ada@Example.com"; in_iss := "idp"; in_iat := 1000; in_exp := 5000;
     in_ip := Some "10.0.0.1"; in_user_agent := None |}.
Definition demo_other : RegisterInput :=
  {| in_jti := "j2"; in_sub := "u2"; in_email := "bob@example.com"; in_iss := "idp"; in_iat := 1100; in_exp := 5000;
     in_ip := None; in_user_agent := None |}.
Definition demo_opts : RevokeInput := {| r_actor := "root"; r_reason := None |}.
Definition demo_strict : SessionTimeoutPolicy :=
  {| enforce := true; idle_timeout_s := 60; absolute_timeout_s := 0; updated_at := None; updated_by := None |}.

Lemma rejected_session_stays_rejected_witness :
  is_Some (fst (checkSession id defaultPolicy "j1" 1000 5000 None 1300
    (run_all id ([Register demo_input 1000] ++ Check_ demo_strict "j1" 1000 5000 (Some None) 1200 :: [Register demo_other 1250]) empty_store))).
Proof.
  refine (rejected_session_stays_rejected id "j1" 1000 5000 demo_strict (Some None) 1200 defaultPolicy None 1300
    [Register demo_input 1000] [Register demo_other 1250] _ _ _).
  - cbn. lia.
  - repeat constructor.
  - vm_compute. by eexists.
Defined.

Lemma live_session_accepted_witness :
  fst (checkSession id defaultPolicy "j1" 1000 5000 None 4000
    (run_all id ([Bump demo_opts 900] ++ Register demo_input 1000 :: [Register demo_other 1100; RevokeEmail "bob@example.com" demo_opts 1200]) empty_store))
  = None.
Proof.
  destruct (live_session_accepted id demo_input 1000 defaultPolicy None 4000 [Bump demo_opts 900]
    [Register demo_other 1100; RevokeEmail "bob@example.com" demo_opts 1200]) as [Ha|[_ [why Ht]]].
  - cbn. lia.
  - done.
  - done.
  - vm_compute. reflexivity.
  - vm_compute. discriminate.
  - repeat split; intros Ht; destruct Ht.
  - exact Ha.
  - revert Ht. vm_compute. discriminate.
Defined.
