(* ===== verification/RouteAllowlist.v ===== *)
(** Which v1 paths a key may reach: [web/lib/routeAllowlist.ts]. *)
From S2P Require Import Prelude JsNum JsDate IsoTime Json.

Definition MAX_ROUTE_ENTRIES : Z := 32.
Definition MAX_ROUTE_ENTRY_LEN : Z := 200.
Definition V1_PREFIX : string := "/api/v1/".

(** [/^[A-Za-z0-9_./*:-]+$/]. *)
Definition allowed_char (c : Ascii.ascii) : bool :=
  let n := code c in
  ((65 <=? n) && (n <=? 90)) || ((97 <=? n) && (n <=? 122)) || ((48 <=? n) && (n <=? 57))
  || (n =? 95) || (n =? 46) || (n =? 47) || (n =? 42) || (n =? 58) || (n =? 45).
Definition ALLOWED_CHARS (s : string) : bool := truthy s && str_forall allowed_char s.

(** [while (s.endsWith(c)) s = s.slice(0, -1)], at most down to [keep]
    characters; the length of [s] is fuel enough. *)
Fixpoint strip_end (fuel : nat) (c : Ascii.ascii) (keep : Z) (s : string) : string :=
  match fuel with
  | O => s
  | S f => if (str_len s >? keep) && ends_with_char c s then strip_end f c keep (drop_last s) else s
  end.

Definition normalizeEntry (raw : string) : string :=
  let s := trim raw in
  let s := strip_end (String.length s) "*"%char 0 s in
  strip_end (String.length s) "/"%char 1 s.

Inductive RouteError := bad_request | too_many_entries.

Fixpoint canon_routes (out : list string) (entries : list json) : result (list string) RouteError :=
  match entries with
  | [] => Ok out
  | JStr raw :: r =>
      if str_len raw >? MAX_ROUTE_ENTRY_LEN then Err bad_request else
      let s := normalizeEntry raw in
      if str_len s =? 0 then canon_routes out r
      else if negb (ALLOWED_CHARS s) then Err bad_request
      else if negb (starts_with V1_PREFIX s) && negb (String.eqb s "/api/v1") then Err bad_request
      else if str_includes "//" s then Err bad_request
      else canon_routes (if bool_decide (s ∈ out) then out else out ++ [s]) r
  | _ :: _ => Err bad_request
  end.

(** [None] is [undefined]. *)
Definition canonicalizeRouteList (input : jval) : result (list string) RouteError :=
  match input with
  | None | Some JNull => Ok []
  | Some (JArr l) => if Z.of_nat (length l) >? MAX_ROUTE_ENTRIES then Err too_many_entries else canon_routes [] l
  | Some _ => Err bad_request
  end.

Definition isRouteAllowed (path : string) (allowlist : list string) : bool :=
  if (length allowlist =? 0)%nat then true
  else let p := normalizeEntry path in
       existsb (fun entry => String.eqb p entry || starts_with (entry +:+ "/") p) allowlist.

(** ** Laws *)

(** A path lies under a prefix: it is the prefix, or continues it at a slash. *)
Definition under (entry p : string) : Prop := p = entry \/ exists rest, p = entry +:+ "/" +:+ rest.

Lemma isRouteAllowed_spec path l :
  isRouteAllowed path l = true <-> l = [] \/ exists entry, entry ∈ l /\ under entry (normalizeEntry path).
Proof.
  unfold isRouteAllowed. destruct l as [|e l]; [naive_solver|]. cbn [length Nat.eqb]. rewrite existsb_exists. split.
  - intros (x & Hx & Hm). right. exists x. split; [by apply list_elem_of_In|].
    apply orb_true_iff in Hm as [->%String.eqb_eq|(r & Hr)%prefix_spec]; [by left|].
    right. exists r. rewrite Hr. by rewrite str_app_assoc.
  - intros [|(x & Hx & Hu)]; [done|]. exists x. split; [by apply list_elem_of_In|]. apply orb_true_iff.
    destruct Hu as [->|(r & ->)]; [left; apply String.eqb_refl|right; apply prefix_spec; exists r; by rewrite str_app_assoc].
Qed.

(** What is stored of an entry. *)
Definition route_ok (s : string) : Prop :=
  s <> "" /\ ALLOWED_CHARS s = true /\ (s = "/api/v1" \/ exists r, s = V1_PREFIX +:+ r) /\ str_includes "//" s = false.

Definition routes_good (l : list string) : Prop := Forall route_ok l /\ NoDup l.

Lemma canon_routes_spec entries out res :
  canon_routes out entries = Ok res -> routes_good out ->
  routes_good res /\ (length res <= length out + length entries)%nat /\
  forall s, s ∈ res <-> s ∈ out \/ exists raw, JStr raw ∈ entries /\ s = normalizeEntry raw /\ s <> "".
Proof.
  revert out; induction entries as [|e entries IH]; intros out Hl Hg.
  { injection Hl as <-. split; [done|]. split; [lia|]. intros s. split; [by left|].
    intros [|(raw & Hin & _)]; [done|]. by apply elem_of_nil in Hin. }
  destruct e as [| | |raw| |]; try done. simpl in Hl. destruct (_ >? _); [done|].
  assert (Hcons : forall s, (exists raw', JStr raw' ∈ JStr raw :: entries /\ s = normalizeEntry raw' /\ s <> "") <->
    (s = normalizeEntry raw /\ s <> "") \/ exists raw', JStr raw' ∈ entries /\ s = normalizeEntry raw' /\ s <> "").
  { intros s. split.
    - intros (raw' & [[= ->]|Hin]%elem_of_cons & Hp); eauto.
    - intros [Hp|(raw' & Hin & Hp)]; [exists raw|exists raw']; (split; [|done]); [by left|by right]. }
  destruct (str_len (normalizeEntry raw) =? 0) eqn:E0.
  - assert (Hnil : normalizeEntry raw = "").
    { bool_to_prop. unfold str_len in E0. destruct (normalizeEntry raw); [done|simpl in E0; lia]. }
    destruct (IH _ Hl Hg) as (? & ? & Hr). split; [done|]. split; [simpl; lia|]. intros s. rewrite Hr, Hcons.
    naive_solver.
  - destruct (negb (ALLOWED_CHARS _)) eqn:E1; [done|]. destruct (negb _ && negb _) eqn:E2; [done|].
    destruct (str_includes "//" _) eqn:E3; [done|].
    assert (Hne : normalizeEntry raw <> "") by (intros Hx; by rewrite Hx in E0).
    assert (Hok : route_ok (normalizeEntry raw)).
    { split; [done|]. split; [by apply negb_false_iff in E1|]. split; [|done].
      apply andb_false_iff in E2 as [E2|E2]; apply negb_false_iff in E2;
        [right; by apply prefix_spec in E2|left; by apply String.eqb_eq in E2]. }
    destruct Hg as [Hf Hn]. case_bool_decide as Hin.
    + destruct (IH _ Hl) as (? & ? & Hr); [done|]. split; [done|]. split; [simpl; lia|]. intros s. rewrite Hr, Hcons.
      naive_solver.
    + destruct (IH _ Hl) as (? & Hlen & Hr).
      { split; [apply Forall_app; by rewrite Forall_singleton|]. apply NoDup_app. split; [done|].
        split; [|apply NoDup_singleton]. intros x Hx ->%list_elem_of_singleton. done. }
      split; [done|]. split; [rewrite length_app in Hlen; simpl in *; lia|]. intros s. rewrite Hr, Hcons, elem_of_app, list_elem_of_singleton.
      naive_solver.
Qed.

(** Least privilege by path: for a list the administrator submits, a request
    path passes exactly when the list denotes no restriction or the path is one
    of the submitted entries, or continues one at a path separator (so that
    "/api/v1/runs" never lets "/api/v1/runs-export" through); what is stored are
    distinct well-formed v1 prefixes. *)
Theorem route_allowlist_enforced entries l path :
  canonicalizeRouteList (Some (JArr entries)) = Ok l ->
  (isRouteAllowed path l = true <->
    (forall raw, JStr raw ∈ entries -> normalizeEntry raw = "") \/
    exists raw, JStr raw ∈ entries /\ normalizeEntry raw <> "" /\ under (normalizeEntry raw) (normalizeEntry path)) /\
  routes_good l /\ Z.of_nat (length l) <= MAX_ROUTE_ENTRIES.
Proof.
  unfold canonicalizeRouteList. destruct (_ >? _) eqn:El; [done|]. intros Hl. bool_to_prop.
  destruct (canon_routes_spec _ _ _ Hl) as (Hg & Hlen & Hr); [by repeat constructor|].
  split; [|split; [done|simpl in Hlen; lia]]. rewrite isRouteAllowed_spec.
  assert (Hr' : forall s, s ∈ l <-> exists raw, JStr raw ∈ entries /\ s = normalizeEntry raw /\ s <> "").
  { intros s. rewrite Hr. split; [|by right]. by intros [?%elem_of_nil|]. }
  split.
  - intros [->|(e & He & Hu)].
    + left. intros raw Hin. destruct (decide (normalizeEntry raw = "")) as [|Hne]; [done|].
      exfalso. apply (not_elem_of_nil (normalizeEntry raw)). apply Hr'. eauto.
    + apply Hr' in He as (raw & Hin & -> & Hne). right. eauto.
  - intros [Hall|(raw & Hin & Hne & Hu)].
    + left. apply elem_of_nil_inv. intros s (raw & Hin & -> & Hne)%Hr'. by apply Hne, Hall.
    + right. exists (normalizeEntry raw). split; [|done]. apply Hr'. eauto.
Qed.

(** A wildcard before the trailing slash survives normalisation, and the stored
    entry then matches no real path under it. *)
Lemma inner_wildcard_kept :
  canonicalizeRouteList (Some (JArr [JStr "/api/v1/runs*/"])) = Ok ["/api/v1/runs*"] /\
  normalizeEntry "/api/v1/runs*" = "/api/v1/runs" /\
  isRouteAllowed "/api/v1/runs" ["/api/v1/runs*"] = false.
Proof. vm_compute. auto. Qed.

Section Demo.
Lemma route_allowlist_enforced_witness :
  isRouteAllowed "/api/v1/runs/abc/export/" ["/api/v1/runs"; "/api/v1/alerts"] = true /\
  ~ isRouteAllowed "/api/v1/runs-export" ["/api/v1/runs"; "/api/v1/alerts"] = true.
Proof.
  assert (E : canonicalizeRouteList (Some (JArr [JStr " /api/v1/runs/* "; JStr "/api/v1/alerts"])) =
    Ok ["/api/v1/runs"; "/api/v1/alerts"]) by (vm_compute; reflexivity).
  split; [|vm_compute; discriminate].
  apply (route_allowlist_enforced _ _ "/api/v1/runs/abc/export/" E). right. exists " /api/v1/runs/* ".
  split; [apply list_elem_of_here|]. split; [vm_compute; discriminate|]. right. exists "abc/export". vm_compute. reflexivity.
Defined.
End Demo.
