(* ===== verification/Residency.v ===== *)
(** Data residency: [web/lib/residencyStore.ts]. *)
From S2P Require Import Prelude JsNum JsDate IsoTime Json Store.

Inductive Region := us | eu | ap | global.
Inductive ResidencyMode := off | monitor | enforce.

#[export] Instance Region_eq_dec : EqDecision Region.
Proof. solve_decision. Defined.
#[export] Instance ResidencyMode_eq_dec : EqDecision ResidencyMode.
Proof. solve_decision. Defined.

Record ResidencyPolicy := {
  region : Region;
  mode : ResidencyMode;
  updated_at : iso;
  updated_by : option string;
}.

Definition REGION_VALUES : list (string * Region) := [("us", us); ("eu", eu); ("ap", ap); ("global", global)].
Definition MODE_VALUES : list (string * ResidencyMode) := [("off", off); ("monitor", monitor); ("enforce", enforce)].

Definition region_name (r : Region) : string := match r with us => "us" | eu => "eu" | ap => "ap" | global => "global" end.
Definition mode_name (m : ResidencyMode) : string := match m with off => "off" | monitor => "monitor" | enforce => "enforce" end.

Definition in_bucket (r : Region) (codes : list string) : list (string * Region) := (fun c => (c, r)) <$> codes.

Definition REGION_COUNTRIES : list (string * Region) :=
  in_bucket us ["US"; "CA"; "MX"] ++
  in_bucket eu ["AT"; "BE"; "BG"; "HR"; "CY"; "CZ"; "DK"; "EE"; "FI"; "FR"; "DE"; "GR"; "HU"; "IE"; "IT"; "LV"; "LT";
                "LU"; "MT"; "NL"; "PL"; "PT"; "RO"; "SK"; "SI"; "ES"; "SE"; "IS"; "LI"; "NO"; "CH"; "GB"] ++
  in_bucket ap ["JP"; "KR"; "SG"; "AU"; "NZ"; "IN"; "HK"; "TW"; "MY"; "ID"; "PH"; "TH"; "VN"].

(** The environment variables; an unset one is the empty string. *)
Record residency_env := { SIGNALCLAW_DATA_REGION : string; SIGNALCLAW_RESIDENCY_MODE : string }.

Definition envRegion (env : residency_env) : Region := default global (assoc (to_lower (SIGNALCLAW_DATA_REGION env)) REGION_VALUES).
Definition envMode (env : residency_env) : ResidencyMode := default off (assoc (to_lower (SIGNALCLAW_RESIDENCY_MODE env)) MODE_VALUES).

Definition defaultPolicy (env : residency_env) : ResidencyPolicy :=
  {| region := envRegion env; mode := envMode env; updated_at := Iso 0; updated_by := None |}.

Definition normalize (env : residency_env) (p : json) : ResidencyPolicy :=
  let d := defaultPolicy env in
  {| region := default (region d) (s ← string_or_null (field "region" p); assoc s REGION_VALUES);
     mode := default (mode d) (s ← string_or_null (field "mode" p); assoc s MODE_VALUES);
     updated_at := default (updated_at d) (iso_or_null (field "updated_at" p));
     updated_by := string_or_null (field "updated_by" p) |}.

Definition encode_policy (p : ResidencyPolicy) : json :=
  JObj [("region", JStr (region_name (region p))); ("mode", JStr (mode_name (mode p)));
        ("updated_at", jiso (updated_at p)); ("updated_by", jopt JStr (updated_by p))].

Lemma residency_policy_roundtrip env p : iso_ok (updated_at p) -> normalize env (encode_policy p) = p.
Proof.
  intros H1. unfold normalize, encode_policy. cbn [field assoc String.eqb Ascii.eqb Bool.eqb].
  change (iso_or_null (Some (jiso (updated_at p)))) with (Some (iso_of_string (iso_string (updated_at p)))).
  rewrite iso_of_string_iso, string_or_null_jopt by done. by destruct p as [[] [] ? ?].
Qed.

Section Policy.
Context (env : residency_env).

#[local] Instance ResidencyPolicy_persisted : Persisted ResidencyPolicy := {|
  raw := json; encode := encode_policy; decode := normalize env; absent := defaultPolicy env;
  storable p := iso_ok (updated_at p); decode_encode := residency_policy_roundtrip env |}.

Definition getResidencyPolicy (f : file ResidencyPolicy) : ResidencyPolicy := read_file f.

Inductive PolicyError := invalid_policy.

(** [None] is [undefined]; the caller's strings are not validated yet. *)
Record PolicyInput := { in_region : option string; in_mode : option string; in_updated_by : option (option string) }.

Definition set_residency_tx (now : Z) (input : PolicyInput)
  : transaction ResidencyPolicy (result ResidencyPolicy PolicyError) := fun current =>
  match from_option (fun s => Some <$> assoc s REGION_VALUES) (Some None) (in_region input),
        from_option (fun s => Some <$> assoc s MODE_VALUES) (Some None) (in_mode input) with
  | Some r, Some m =>
      let next := {| region := default (region current) r; mode := default (mode current) m; updated_at := Iso now;
                     updated_by := default (updated_by current) (in_updated_by input) |} in
      (Ok next, Some next)
  | _, _ => (Err invalid_policy, None)
  end.

Definition setResidencyPolicy now input (f : file ResidencyPolicy) := on_file (set_residency_tx now input) f.

Lemma setResidencyPolicy_get now input f p f' :
  iso_range now -> setResidencyPolicy now input f = (Ok p, f') -> getResidencyPolicy f' = p.
Proof.
  intros Hn. unfold setResidencyPolicy, on_file, set_residency_tx.
  destruct (from_option _ _ (in_region input)); [|done]. destruct (from_option _ _ (in_mode input)); [|done].
  intros [= <- <-]. unfold getResidencyPolicy. by rewrite read_write.
Qed.
End Policy.

(** ** The region of a request *)

Definition COUNTRY_HEADERS : list string := ["x-vercel-ip-country"; "cf-ipcountry"; "x-forwarded-country"; "x-country"].

Inductive region_source := explicit | country | unknown.

Record RequestRegion := { req_region : Region; source : region_source; raw_value : option string }.

Definition header (h : gmap string string) (k : string) : string := default "" (h !! k).

(** The first header that names a listed country. *)
Fixpoint by_country (h : gmap string string) (names : list string) : option (string * Region) :=
  match names with
  | [] => None
  | k :: r =>
      let v := to_upper (trim (header h k)) in
      if negb (truthy v) then by_country h r
      else match assoc v REGION_COUNTRIES with Some g => Some (v, g) | None => by_country h r end
  end.

Definition detectRequestRegion (h : gmap string string) : RequestRegion :=
  let e := to_lower (trim (header h "x-data-region")) in
  match (if truthy e then assoc e REGION_VALUES else None) with
  | Some g => {| req_region := g; source := explicit; raw_value := Some e |}
  | None =>
      match by_country h COUNTRY_HEADERS with
      | Some (v, g) => {| req_region := g; source := country; raw_value := Some v |}
      | None => {| req_region := global; source := unknown; raw_value := None |}
      end
  end.

Inductive ResidencyStatus := ok | warn | blocked.

Record ResidencyDecision := {
  allowed : bool;
  status : ResidencyStatus;
  policy_region : Region;
  request_region : Region;
  request_source : region_source;
  d_mode : ResidencyMode;
}.

Definition isMutating (method : string) : bool :=
  bool_decide (to_upper method ∈ ["POST"; "PUT"; "PATCH"; "DELETE"]).

Definition decideResidency (h : gmap string string) (p : ResidencyPolicy) (method : string) : ResidencyDecision :=
  let d := detectRequestRegion h in
  let base a s := {| allowed := a; status := s; policy_region := region p; request_region := req_region d;
                     request_source := source d; d_mode := mode p |} in
  if bool_decide (mode p = off) || bool_decide (region p = global) then base true ok
  else if bool_decide (req_region d = region p) then base true ok
  else if bool_decide (mode p = monitor) || negb (isMutating method) then base true warn
  else base false blocked.

(** What is blocked: exactly the mutating requests of an enforcing workspace
    pinned to one region that resolve to another; reads pass with a warning, and
    nothing is blocked in the other modes or when the workspace is global. *)
Theorem residency_blocks_exactly h p method :
  let d := decideResidency h p method in
  (allowed d = false <->
     mode p = enforce /\ region p <> global /\ isMutating method = true /\
     req_region (detectRequestRegion h) <> region p) /\
  (status d = warn <->
     mode p <> off /\ region p <> global /\ req_region (detectRequestRegion h) <> region p /\
     (mode p = monitor \/ isMutating method = false)) /\
  (status d = blocked <-> allowed d = false).
Proof.
  unfold decideResidency. destruct (req_region _) eqn:Er, (region p) eqn:Ep, (mode p) eqn:Em, (isMutating method) eqn:Ei;
  simpl; naive_solver.
Qed.

(** A country the table does not list is taken for "global", and an enforcing
    workspace blocks it like any other mismatch, although the table's comment
    says that the policy never blocks on such data. *)
Theorem unlisted_country_is_blocked h p method c :
  h !! "x-data-region" = None -> h !! "x-vercel-ip-country" = Some c ->
  h !! "cf-ipcountry" = None -> h !! "x-forwarded-country" = None -> h !! "x-country" = None ->
  assoc (to_upper (trim c)) REGION_COUNTRIES = None ->
  mode p = enforce -> region p <> global -> isMutating method = true ->
  allowed (decideResidency h p method) = false.
Proof.
  intros H1 H2 H3 H4 H5 Hc Hm Hr Hi.
  assert (Hd : req_region (detectRequestRegion h) = global).
  { unfold detectRequestRegion, COUNTRY_HEADERS. cbn [by_country]. unfold header. rewrite H1, H2, H3, H4, H5.
    cbn [default from_option]. change (Datatypes.id c) with c. rewrite Hc. by destruct (negb (truthy (to_upper (trim c)))). }
  destruct (residency_blocks_exactly h p method) as [Hb _]. apply Hb. rewrite Hd. auto.
Qed.

Lemma unlisted_country_is_blocked_witness :
  allowed (decideResidency {[ "x-vercel-ip-country" := "br" ]}
    {| region := us; mode := enforce; updated_at := Iso 0; updated_by := None |} "post") = false.
Proof. apply (unlisted_country_is_blocked _ _ _ "br"); try reflexivity; discriminate. Defined.
