(* ===== verification/BreakGlass.v ===== *)
(** Emergency access: [web/lib/breakGlassStore.ts]. An administrator grants a
    short bypass of the workspace network policy; at most one grant is active,
    earlier ones are kept in a bounded history. Writes are queued on one promise
    chain. *)
From S2P Require Import Prelude JsNum JsDate IsoTime Json Store.

Definition MAX_TTL_SECONDS : Z := 60 * 60.
Definition DEFAULT_TTL_SECONDS : Z := 30 * 60.
Definition MIN_REASON_LEN : Z := 10.
Definition MAX_REASON_LEN : Z := 500.
Definition MAX_HISTORY : nat := 50.

Record BreakGlassGrant := {
  id : string;
  granted_at : iso;
  expires_at : iso;
  granted_by : option string;
  reason : string;
  ttl_seconds : num;
  uses : num;
  last_used_at : option iso;
  revoked_at : option iso;
  revoked_by : option string;
}.

Record BreakGlassState := { active : option BreakGlassGrant; history : list BreakGlassGrant }.

Definition EMPTY : BreakGlassState := {| active := None; history := [] |}.

(** ** The file *)

Definition encode_grant (g : BreakGlassGrant) : json :=
  JObj [("id", JStr (id g)); ("granted_at", jiso (granted_at g)); ("expires_at", jiso (expires_at g));
        ("granted_by", jopt JStr (granted_by g)); ("reason", JStr (reason g)); ("ttl_seconds", JNum (ttl_seconds g));
        ("uses", JNum (uses g)); ("last_used_at", jopt jiso (last_used_at g)); ("revoked_at", jopt jiso (revoked_at g));
        ("revoked_by", jopt JStr (revoked_by g))].

(** [Number.isFinite(v) ? Number(v) : 0]. *)
Definition finite_or_zero (v : jval) : num :=
  match v with Some (JNum n) => if is_finite n then n else int 0 | _ => int 0 end.

Definition parseGrant (j : json) : option BreakGlassGrant :=
  if negb (is_object j) then None else
  match field "id" j, field "granted_at" j, field "expires_at" j, field "reason" j with
  | Some (JStr i), Some (JStr g), Some (JStr e), Some (JStr r) =>
      Some {| id := i; granted_at := iso_of_string g; expires_at := iso_of_string e;
              granted_by := string_or_null (field "granted_by" j); reason := r;
              ttl_seconds := finite_or_zero (field "ttl_seconds" j); uses := finite_or_zero (field "uses" j);
              last_used_at := iso_or_null (field "last_used_at" j); revoked_at := iso_or_null (field "revoked_at" j);
              revoked_by := string_or_null (field "revoked_by" j) |}
  | _, _, _, _ => None
  end.

Definition encode_state (s : BreakGlassState) : json :=
  JObj [("active", jopt encode_grant (active s)); ("history", JArr (encode_grant <$> history s))].

Definition readState (j : json) : BreakGlassState :=
  if negb (is_object j) then EMPTY else
  {| active := a ← field "active" j; parseGrant a; history := omap parseGrant (array_or_empty (field "history" j)) |}.

Definition grant_storable (g : BreakGlassGrant) : Prop :=
  iso_ok (granted_at g) /\ iso_ok (expires_at g) /\ is_finite (ttl_seconds g) = true /\ is_finite (uses g) = true /\
  from_option iso_ok True (last_used_at g) /\ from_option iso_ok True (revoked_at g).

Lemma parse_encode_grant g : grant_storable g -> parseGrant (encode_grant g) = Some g.
Proof.
  intros (H1 & H2 & H3 & H4 & H5 & H6). unfold parseGrant, encode_grant.
  cbn [is_object negb field assoc String.eqb Ascii.eqb Bool.eqb jiso finite_or_zero].
  rewrite !iso_of_string_iso, !string_or_null_jopt, !iso_or_null_jiso by done. rewrite H3, H4. by destruct g.
Qed.

Definition state_storable (s : BreakGlassState) : Prop :=
  from_option grant_storable True (active s) /\ Forall grant_storable (history s).

#[export] Program Instance BreakGlassState_persisted : Persisted BreakGlassState := {|
  raw := json; encode := encode_state; decode := readState; absent := EMPTY; storable := state_storable |}.
Next Obligation.
  intros [a h] [Ha Hh]. unfold readState, encode_state.
  cbn [is_object negb field assoc String.eqb Ascii.eqb Bool.eqb array_or_empty active history] in *. f_equal.
  - destruct a as [g|]; [|done]. simpl jopt. cbn [mbind option_bind]. by apply parse_encode_grant.
  - apply omap_fmap_id. eapply Forall_impl; [exact Hh|]. apply parse_encode_grant.
Qed.

(** ** Operations *)

Definition isExpired (g : BreakGlassGrant) (now : Z) : bool :=
  if from_option iso_truthy false (revoked_at g) then true
  else match date_parse (expires_at g) with None => true | Some e => e <=? now end.

Definition mark_revoked (now : Z) (actor : option string) (g : BreakGlassGrant) : BreakGlassGrant :=
  {| id := id g; granted_at := granted_at g; expires_at := expires_at g; granted_by := granted_by g; reason := reason g;
     ttl_seconds := ttl_seconds g; uses := uses g; last_used_at := last_used_at g;
     revoked_at := Some (Iso now); revoked_by := actor |}.

(** [n + 1]. *)
Definition succ (n : num) : num := match n with Fin q => Fin (QArith_base.Qplus q (QArith_base.inject_Z 1)) | _ => n end.

Definition mark_used (now : Z) (g : BreakGlassGrant) : BreakGlassGrant :=
  {| id := id g; granted_at := granted_at g; expires_at := expires_at g; granted_by := granted_by g; reason := reason g;
     ttl_seconds := ttl_seconds g; uses := succ (uses g); last_used_at := Some (Iso now);
     revoked_at := revoked_at g; revoked_by := revoked_by g |}.

Inductive GrantCode := bad_reason | bad_ttl.

Record GrantInput := { in_reason : string; in_ttl : option num; in_actor : option string }.

Record Granted := { grant_ : BreakGlassGrant; superseded : option BreakGlassGrant }.

Definition new_grant (now : Z) (gid : string) (ttl : Z) (input : GrantInput) : BreakGlassGrant :=
  {| id := gid; granted_at := Iso now; expires_at := Iso (now + ttl * 1000); granted_by := in_actor input;
     reason := trim (in_reason input); ttl_seconds := int ttl; uses := int 0; last_used_at := None;
     revoked_at := None; revoked_by := None |}.

Definition requested_ttl (input : GrantInput) : Z :=
  match in_ttl input with Some n => if is_finite n then floorZ n else DEFAULT_TTL_SECONDS | None => DEFAULT_TTL_SECONDS end.

(** A live grant is revoked and archived, an expired one archived as it is. *)
Definition grant_tx (now : Z) (gid : string) (input : GrantInput)
  : transaction BreakGlassState (result Granted GrantCode) := fun s =>
  let r := trim (in_reason input) in
  let ttl := requested_ttl input in
  if str_len r <? MIN_REASON_LEN then (Err bad_reason, None)
  else if str_len r >? MAX_REASON_LEN then (Err bad_reason, None)
  else if (ttl <? 60) || (ttl >? MAX_TTL_SECONDS) then (Err bad_ttl, None)
  else
    let archived := match active s with
                    | Some g => Some (if isExpired g now then g else mark_revoked now (in_actor input) g)
                    | None => None
                    end in
    let sup := match active s with
               | Some g => if isExpired g now then None else Some (mark_revoked now (in_actor input) g)
               | None => None
               end in
    let g := new_grant now gid ttl input in
    (Ok {| grant_ := g; superseded := sup |},
     Some {| active := Some g; history := take MAX_HISTORY (option_list archived ++ history s) |}).

Definition grant now gid input (f : file BreakGlassState) := on_file (grant_tx now gid input) f.

Inductive RevokeCode := no_active.

Definition revoke_tx (now : Z) (actor : option string)
  : transaction BreakGlassState (result BreakGlassGrant RevokeCode) := fun s =>
  match active s with
  | None => (Err no_active, None)
  | Some g =>
      if isExpired g now then (Err no_active, None)
      else let g' := mark_revoked now actor g in
           (Ok g', Some {| active := None; history := take MAX_HISTORY (g' :: history s) |})
  end.

Definition revoke now actor (f : file BreakGlassState) := on_file (revoke_tx now actor) f.

Definition getState (f : file BreakGlassState) : BreakGlassState := read_file f.

Definition getActive (now : Z) (f : file BreakGlassState) : option BreakGlassGrant :=
  match active (read_file f) with Some g => if isExpired g now then None else Some g | None => None end.

Definition use_tx (now : Z) : transaction BreakGlassState unit := fun s =>
  match active s with
  | None => (tt, None)
  | Some g => if isExpired g now then (tt, None)
              else (tt, Some {| active := Some (mark_used now g); history := history s |})
  end.

Definition recordUse (now : Z) (f : file BreakGlassState) : file BreakGlassState := snd (on_file (use_tx now) f).

Record Remaining := { expired : bool; seconds_remaining : Z }.

Definition describeRemaining (g : BreakGlassGrant) (now : Z) : Remaining :=
  if isExpired g now then {| expired := true; seconds_remaining := 0 |}
  else match date_parse (expires_at g) with
       | Some e => {| expired := false; seconds_remaining := Z.max 0 ((e - now) / 1000) |}
       | None => {| expired := false; seconds_remaining := 0 |}
       end.

(** ** Laws *)

Lemma take_Forall {A} (P : A -> Prop) n l : Forall P l -> Forall P (take n l).
Proof. apply Forall_take. Qed.

Lemma mark_revoked_storable now a g : iso_range now -> grant_storable g -> grant_storable (mark_revoked now a g).
Proof. intros Hn (?&?&?&?&?&_). by repeat (split; [done|]). Qed.

Lemma mark_used_storable now g : iso_range now -> grant_storable g -> grant_storable (mark_used now g).
Proof.
  intros Hn (?&?&?&Hu&?&?). do 3 (split; [done|]). split; [|done]. unfold mark_used; simpl. by destruct (uses g).
Qed.

Lemma use_storable now s : iso_range now -> state_storable s -> writes_storable (use_tx now) s.
Proof.
  intros Hn [Ha Hh] s'. unfold use_tx. destruct (active s) as [g|]; [|done]. destruct (isExpired g now); [done|].
  intros [= <-]. split; [by apply mark_used_storable|done].
Qed.

Lemma revoke_storable now a s : iso_range now -> state_storable s -> writes_storable (revoke_tx now a) s.
Proof.
  intros Hn [Ha Hh] s'. unfold revoke_tx. destruct (active s) as [g|]; [|done]. destruct (isExpired g now); [done|].
  intros [= <-]. split; [done|].
  apply (take_Forall _ MAX_HISTORY (mark_revoked now a g :: history s)). constructor; [by apply mark_revoked_storable|done].
Qed.

Lemma grant_storable_tx now gid input s :
  iso_range now -> iso_range (now + requested_ttl input * 1000) -> state_storable s -> writes_storable (grant_tx now gid input) s.
Proof.
  intros Hn He [Ha Hh] s'. unfold grant_tx. cbn zeta. do 3 (case_match; [done|]). intros [= <-].
  split; [by repeat (split; [done|])|].
  apply (take_Forall _ MAX_HISTORY), Forall_app. split; [|done].
  destruct (active s) as [g|]; [|constructor]. simpl. apply Forall_singleton.
  destruct (isExpired g now); [done|by apply mark_revoked_storable].
Qed.

(** Uses do not change when a grant ends. *)
Lemma mark_used_expiry t now g : isExpired (mark_used t g) now = isExpired g now.
Proof. done. Qed.

Fixpoint use_all (times : list Z) (f : file BreakGlassState) : file BreakGlassState :=
  match times with [] => f | t :: r => use_all r (recordUse t f) end.

Lemma use_all_active times f g now :
  Forall iso_range times -> state_storable (read_file f) -> active (read_file f) = Some g ->
  exists g', active (read_file (use_all times f)) = Some g' /\ isExpired g' now = isExpired g now /\ id g' = id g /\
    state_storable (read_file (use_all times f)).
Proof.
  revert f g; induction times as [|t times IH]; intros f g Ht Hs Ha; [by exists g|].
  inversion Ht; subst. simpl.
  assert (Hv : read_file (recordUse t f) = after (use_tx t) (read_file f)) by (by apply on_file_view, use_storable).
  assert (Hs' : state_storable (read_file (recordUse t f))).
  { rewrite Hv. pose proof (use_storable t (read_file f)) as Hw. unfold after, writes_storable in *.
    destruct (snd (use_tx t (read_file f))); [by apply Hw|done]. }
  assert (Hg : exists g1, active (read_file (recordUse t f)) = Some g1 /\ isExpired g1 now = isExpired g now /\ id g1 = id g).
  { rewrite Hv. unfold after, use_tx. rewrite Ha. destruct (isExpired g t); simpl; eauto. }
  destruct Hg as (g1 & Ha1 & He1 & Hi1). destruct (IH _ _ ltac:(done) Hs' Ha1) as (g2 & ? & ? & ? & ?).
  exists g2. split; [done|]. split; [congruence|]. split; [congruence|done].
Qed.

(** Emergency access is time-boxed: a grant lasts between one minute and one
    hour from the moment it is made, however often it is used; within that time
    it is the one active grant, from its expiry on there is none, and a
    revocation ends it at once. *)
Theorem break_glass_time_boxed now gid input f r f' times later :
  iso_range now -> iso_range (now + requested_ttl input * 1000) -> state_storable (read_file f) -> Forall iso_range times ->
  grant now gid input f = (Ok r, f') ->
  60 <= requested_ttl input <= 3600 /\ MIN_REASON_LEN <= str_len (reason (grant_ r)) <= MAX_REASON_LEN /\
  (later < now + requested_ttl input * 1000 ->
     exists g, getActive later (use_all times f') = Some g /\ id g = gid /\
       (iso_range later -> forall a, getActive later (snd (revoke later a (use_all times f'))) = None)) /\
  (now + requested_ttl input * 1000 <= later -> getActive later (use_all times f') = None) /\
  (length (history (read_file f')) <= MAX_HISTORY)%nat.
Proof.
  intros Hn He Hs Ht Hg.
  pose proof (on_file_view _ f (grant_storable_tx now gid input _ Hn He Hs)) as Hv.
  pose proof (grant_storable_tx now gid input _ Hn He Hs) as Hw.
  fold (grant now gid input f) in Hv. rewrite Hg in Hv. cbn [snd] in Hv.
  pose proof (on_file_result (grant_tx now gid input) f) as Hr. fold (grant now gid input f) in Hr.
  rewrite Hg in Hr. cbn [fst] in Hr. symmetry in Hr.
  unfold writes_storable, after in Hw, Hv.
  assert (Hok : 60 <= requested_ttl input <= 3600 /\ MIN_REASON_LEN <= str_len (trim (in_reason input)) <= MAX_REASON_LEN /\
     grant_ r = new_grant now gid (requested_ttl input) input /\
     active (read_file f') = Some (new_grant now gid (requested_ttl input) input) /\ state_storable (read_file f') /\
     (length (history (read_file f')) <= MAX_HISTORY)%nat).
  { unfold grant_tx in Hr, Hv, Hw. cbn zeta in *. destruct (_ <? MIN_REASON_LEN) eqn:E1; [done|].
    destruct (_ >? MAX_REASON_LEN) eqn:E2; [done|]. destruct ((_ <? 60) || _) eqn:E3; [done|].
    injection Hr as <-. cbn [snd from_option] in *. specialize (Hw _ eq_refl).
    change (Datatypes.id ?x) with x in Hv. rewrite Hv. bool_to_prop. unfold MAX_TTL_SECONDS in *.
    split; [lia|]. split; [lia|]. do 3 (split; [done|]). cbn [history]. rewrite length_take. lia. }
  destruct Hok as (Httl & Hre & Hgr & Ha & Hs' & Hlen).
  split; [done|]. split; [by rewrite Hgr|].
  destruct (use_all_active times f' _ later Ht Hs' Ha) as (g & Hga & Hge & Hgi & Hgs).
  assert (Hexp : isExpired (new_grant now gid (requested_ttl input) input) later = (now + requested_ttl input * 1000 <=? later)) by done.
  rewrite Hexp in Hge. split; [|split; [|done]].
  - intros Hl. rewrite (proj2 (Z.leb_gt _ _)) in Hge by lia. exists g. unfold getActive at 1. rewrite Hga, Hge.
    split; [done|]. split; [done|]. intros Hlr a. unfold getActive, revoke.
    rewrite on_file_view by (by apply revoke_storable). unfold after, revoke_tx. by rewrite Hga, Hge.
  - intros Hl. rewrite (proj2 (Z.leb_le _ _)) in Hge by lia. unfold getActive. by rewrite Hga, Hge.
Qed.

Section Demo.
Definition demo_input : GrantInput := {| in_reason := "locked out, on the road"; in_ttl := Some (int 600); in_actor := Some "alice" |}.

Lemma break_glass_time_boxed_witness :
  match grant 1000 "g1" demo_input None with
  | (Ok _, f') => getActive 700000 (use_all [2000; 3000] f') = None
  | (Err _, _) => False
  end.
Proof.
  destruct (grant 1000 "g1" demo_input None) as [[r|e] f'] eqn:E; [|not_an_error E].
  destruct (break_glass_time_boxed 1000 "g1" demo_input None r f' [2000; 3000] 700000) as (_ & _ & _ & H & _);
    [vm_compute; split; discriminate|vm_compute; split; discriminate|split; [exact I|constructor]|
     repeat constructor; vm_compute; discriminate|exact E|].
  apply H. vm_compute. discriminate.
Defined.
End Demo.
