(* ===== verification/Quota.v ===== *)
(** The two request counters of a key: the per-minute limiter
    ([web/lib/rateLimitStore.ts], Module [RateLimit]) and the monthly quota
    ([web/lib/monthlyQuotaStore.ts], Module [Monthly]). Both count the requests
    of the current window and forget the count when the window changes; the
    shared law is [run_admissions]. *)
From S2P Require Import Prelude JsNum JsDate IsoTime Json.

(** ** A counter per window *)
Section Windowed.
Context {W : Type} `{EqDecision W}.

(** [cur && cur.window === w ? cur.count : 0]. *)
Definition used_in (w : W) (cur : option (W * Z)) : Z :=
  match cur with Some (w', c) => if decide (w' = w) then c else 0 | None => 0 end.

(** Admit below the limit, count what is admitted. *)
Definition admit_one (limit : Z) (w : W) (cur : option (W * Z)) : bool * option (W * Z) :=
  let n := used_in w cur in
  if n >=? limit then (false, cur) else (true, Some (w, n + 1)).

Fixpoint admissions (limit : Z) (ws : list W) (cur : option (W * Z)) : list bool * option (W * Z) :=
  match ws with
  | [] => ([], cur)
  | w :: r => let '(b, cur1) := admit_one limit w cur in let '(bs, cur2) := admissions limit r cur1 in (b :: bs, cur2)
  end.

(** Inside one window the first [limit] requests pass and the others do not. *)
Lemma run_admissions limit w n cur :
  0 <= used_in w cur ->
  fst (admissions limit (replicate n w) cur) = (fun i => used_in w cur + Z.of_nat i <? limit) <$> seq 0 n /\
  used_in w (snd (admissions limit (replicate n w) cur)) =
    Z.min (used_in w cur + Z.of_nat n) (Z.max limit (used_in w cur)).
Proof.
  revert cur; induction n as [|n IH]; intros cur H0; [simpl; split; [done|lia]|].
  cbn [replicate admissions]. unfold admit_one. destruct (used_in w cur >=? limit) eqn:E; bool_to_prop.
  - destruct (IH cur H0) as [IH1 IH2]. destruct (admissions _ _ cur) as [bs cur2]. cbn [fst snd] in *.
    split; [|rewrite IH2; lia]. rewrite IH1. cbn [seq fmap list_fmap]. f_equal; [symmetry; apply Z.ltb_ge; lia|].
    rewrite <- fmap_S_seq, <- list_fmap_compose. apply list_fmap_ext. intros i x _. simpl.
    rewrite !(proj2 (Z.ltb_ge _ _)) by lia. done.
  - assert (Hu : used_in w (Some (w, used_in w cur + 1)) = used_in w cur + 1) by (simpl; by rewrite decide_True).
    destruct (IH (Some (w, used_in w cur + 1))) as [IH1 IH2]; [lia|]. rewrite Hu in IH1, IH2.
    destruct (admissions _ _ (Some _)) as [bs cur2]. cbn [fst snd] in *.
    split; [|rewrite IH2; lia]. rewrite IH1. cbn [seq fmap list_fmap]. f_equal; [symmetry; apply Z.ltb_lt; lia|].
    rewrite <- fmap_S_seq, <- list_fmap_compose. apply list_fmap_ext. intros i x _. simpl. f_equal. lia.
Qed.

Lemma fmap_replicate_true k : (fun _ : nat => true) <$> seq 0 k = replicate k true.
Proof.
  assert (Hg : forall l : list nat, (fun _ => true) <$> l = replicate (length l) true).
  { induction l as [|x l IH]; [done|]. csimpl. by rewrite IH. }
  by rewrite Hg, length_seq.
Qed.

(** A new window starts from nothing. *)
Lemma used_elsewhere w w' c : w' <> w -> used_in w (Some (w', c)) = 0.
Proof. intros Hne. simpl. by rewrite decide_False. Qed.
End Windowed.

Module RateLimit.

Definition WINDOW_SECONDS : Z := 60.

(** [SIGNALCLAW_RATE_LIMIT_PER_MIN], from the value of [Number.parseInt]. *)
Definition default_per_minute (parsed : option Z) : Z :=
  match parsed with Some n => if 0 <? n then n else 60 | None => 60 end.

(** The cached store; it is loaded once and then written back after changes. *)
Record Store := { limits : gmap string Z; counters : gmap string (Z * Z) }.

Definition empty : Store := {| limits := ∅; counters := ∅ |}.

Record RateDecision := {
  allowed : bool; limit : Z; remaining : Z; reset_at : Z; retry_after : Z; window_start : Z; used : Z }.

Section Limiter.
Context (DEFAULT_PER_MINUTE : Z).

Definition getLimitForKey (keyId : string) (s : Store) : Z := default DEFAULT_PER_MINUTE (limits s !! keyId).

Inductive LimitError := limit_out_of_range.

(** [None] clears the override. *)
Definition setLimitForKey (keyId : string) (l : option num) (s : Store) : result Z LimitError * Store :=
  match l with
  | None => let s' := {| limits := delete keyId (limits s); counters := counters s |} in (Ok (getLimitForKey keyId s'), s')
  | Some n =>
      if negb (is_finite n) || num_lt n (int 1) || num_lt (int 100000) n then (Err limit_out_of_range, s)
      else let s' := {| limits := <[keyId := floorZ n]> (limits s); counters := counters s |} in
           (Ok (getLimitForKey keyId s'), s')
  end.

(** The start of the window, in seconds. *)
Definition window_of (now : Z) : Z := let nowSec := now / 1000 in nowSec - Z.rem nowSec WINDOW_SECONDS.

Definition getCounter (keyId : string) (now : Z) (s : Store) : Z * Z :=
  match counters s !! keyId with
  | Some (w, c) => if negb (w =? window_of now) then (window_of now, 0) else (w, c)
  | None => (window_of now, 0)
  end.

Definition consume (keyId : string) (now : Z) (s : Store) : RateDecision * Store :=
  let lim := getLimitForKey keyId s in
  let nowSec := now / 1000 in
  let ws := window_of now in
  let count := used_in ws (counters s !! keyId) in
  let reset := ws + WINDOW_SECONDS in
  if count >=? lim then
    ({| allowed := false; limit := lim; remaining := 0; reset_at := reset;
        retry_after := Z.max 1 (reset - nowSec); window_start := ws; used := count |}, s)
  else
    ({| allowed := true; limit := lim; remaining := lim - (count + 1); reset_at := reset;
        retry_after := 0; window_start := ws; used := count + 1 |},
     {| limits := limits s; counters := <[keyId := (ws, count + 1)]> (counters s) |}).

Definition applyRateHeaders (h : gmap string string) (d : RateDecision) : gmap string string :=
  let h := <["x-ratelimit-limit" := pretty (limit d)]> h in
  let h := <["x-ratelimit-remaining" := pretty (Z.max 0 (remaining d))]> h in
  let h := <["x-ratelimit-reset" := pretty (reset_at d)]> h in
  let h := <["x-ratelimit-window" := pretty WINDOW_SECONDS]> h in
  if allowed d then h else <["retry-after" := pretty (retry_after d)]> h.

(** Requests of one key at the given times: the answers and the store. *)
Fixpoint consume_all (keyId : string) (times : list Z) (s : Store) : list bool * Store :=
  match times with
  | [] => ([], s)
  | t :: r => let '(d, s1) := consume keyId t s in let '(bs, s2) := consume_all keyId r s1 in (allowed d :: bs, s2)
  end.

Lemma consume_admit keyId now s :
  let '(b, cur) := admit_one (getLimitForKey keyId s) (window_of now) (counters s !! keyId) in
  allowed (fst (consume keyId now s)) = b /\ counters (snd (consume keyId now s)) !! keyId = cur /\
  limits (snd (consume keyId now s)) = limits s.
Proof.
  unfold consume, admit_one. cbn zeta. destruct (_ >=? _); [done|]. simpl. by rewrite lookup_insert_eq.
Qed.

Lemma consume_all_admissions keyId times s :
  fst (consume_all keyId times s) =
    fst (admissions (getLimitForKey keyId s) (window_of <$> times) (counters s !! keyId)) /\
  counters (snd (consume_all keyId times s)) !! keyId =
    snd (admissions (getLimitForKey keyId s) (window_of <$> times) (counters s !! keyId)) /\
  limits (snd (consume_all keyId times s)) = limits s.
Proof.
  revert s; induction times as [|t r IH]; intros s; [done|]. csimpl.
  pose proof (consume_admit keyId t s) as Hc. destruct (consume keyId t s) as [d s1].
  destruct (admit_one _ (window_of t) _) as [b cur]. cbn [fst snd] in Hc. destruct Hc as (-> & Hcur & Hl).
  destruct (IH s1) as (I1 & I2 & I3). unfold getLimitForKey in *. rewrite Hl, Hcur in *.
  destruct (consume_all keyId r s1) as [bs s2]. destruct (admissions _ _ cur) as [bs' cur2]. cbn [fst snd] in *.
  subst. by rewrite I3.
Qed.

(** C32. The limiter admits exactly its limit: of the requests a key makes in one
    minute window, the first [limit] are admitted and every other one refused
    with a delay that leads into the next window; the requests of other keys and
    the limits are untouched. *)
Theorem rate_limit_exact keyId times now s :
  0 <= used_in (window_of now) (counters s !! keyId) -> 0 <= now ->
  Forall (fun t => window_of t = window_of now) times ->
  let lim := getLimitForKey keyId s in
  let n0 := used_in (window_of now) (counters s !! keyId) in
  fst (consume_all keyId times s) = (fun i => n0 + Z.of_nat i <? lim) <$> seq 0 (length times) /\
  (forall k, k <> keyId -> counters (snd (consume keyId now s)) !! k = counters s !! k) /\
  let d := fst (consume keyId now s) in
  (allowed d = false -> window_of (now + retry_after d * 1000) = window_of now + WINDOW_SECONDS) /\
  0 <= remaining d < Z.max 1 lim.
Proof.
  intros H0 Hnow Hw lim n0. split; [|split].
  - destruct (consume_all_admissions keyId times s) as [-> _].
    assert (window_of <$> times = replicate (length times) (window_of now)) as ->.
    { clear -Hw. induction Hw as [|t r Ht _ IH]; [done|]. csimpl. by rewrite Ht, IH. }
    by apply run_admissions.
  - intros k Hk. unfold consume. cbn zeta. destruct (_ >=? _); [done|]. simpl. by rewrite lookup_insert_ne.
  - cbn zeta. unfold consume. cbn zeta. fold lim n0. destruct (n0 >=? lim) eqn:E; bool_to_prop; cbn [fst allowed retry_after remaining].
    + split; [|lia]. intros _. unfold window_of, WINDOW_SECONDS.
      assert (Hs : 0 <= now / 1000) by (apply Z.div_pos; lia).
      rewrite !Z.rem_mod_nonneg by (try lia; apply Z.div_pos; lia).
      pose proof (Z.mod_pos_bound (now / 1000) 60 ltac:(lia)).
      rewrite Z.max_r by lia. rewrite Z.div_add by lia.
      Z.to_euclidean_division_equations; lia.
    + fold n0 in H0. split; [done|lia].
Qed.

(** The window is a fixed bucket, not a sliding one: a key that has been
    quiet can have [2 * limit] requests admitted within two seconds, the last
    one of a window and the first one of the next. *)
Theorem burst_across_windows keyId m s n :
  0 <= m -> counters s !! keyId = None -> getLimitForKey keyId s = Z.of_nat n ->
  let t1 := (60 * m + 59) * 1000 in let t2 := (60 * m + 60) * 1000 in
  fst (consume_all keyId (replicate n t1 ++ replicate n t2) s) = replicate (n + n) true.
Proof.
  intros Hm Hc Hl t1 t2. destruct (consume_all_admissions keyId (replicate n t1 ++ replicate n t2) s) as [-> _].
  rewrite Hl, Hc, fmap_app, !fmap_replicate.
  assert (Hne : window_of t1 <> window_of t2).
  { unfold window_of, WINDOW_SECONDS, t1, t2. rewrite !Z.div_mul by lia. rewrite !Z.rem_mod_nonneg by lia.
    Z.to_euclidean_division_equations; lia. }
  assert (Happ : forall (l1 l2 : list Z) cur, fst (admissions (Z.of_nat n) (l1 ++ l2) cur) =
    fst (admissions (Z.of_nat n) l1 cur) ++ fst (admissions (Z.of_nat n) l2 (snd (admissions (Z.of_nat n) l1 cur)))).
  { clear. induction l1 as [|w l1 IH]; intros l2 cur; [done|]. cbn [app admissions].
    destruct (admit_one _ w cur) as [b c1]. specialize (IH l2 c1).
    destruct (admissions _ (l1 ++ l2) c1), (admissions _ l1 c1). cbn [fst snd] in *. by rewrite IH. }
  assert (Hlt : forall k, (fun i => 0 + Z.of_nat i <? Z.of_nat k) <$> seq 0 k = replicate k true).
  { intros k. rewrite <- (fmap_replicate_true k). apply list_fmap_ext. intros i j Hj. apply lookup_seq in Hj as [-> Hj].
    apply Z.ltb_lt. lia. }
  rewrite Happ, replicate_add. f_equal.
  - destruct (run_admissions (Z.of_nat n) (window_of t1) n None) as [-> _]; [done|]. apply Hlt.
  - assert (H0 : used_in (window_of t2) (snd (admissions (Z.of_nat n) (replicate n (window_of t1)) None)) = 0).
    { assert (Hw : forall k cur, cur = None \/ (exists c, cur = Some (window_of t1, c)) ->
        let c' := snd (admissions (Z.of_nat n) (replicate k (window_of t1)) cur) in
        c' = None \/ exists c, c' = Some (window_of t1, c)).
      { clear. induction k as [|k IH]; intros cur Hcur; [done|]. cbn [replicate admissions]. unfold admit_one.
        destruct (_ >=? _).
        - specialize (IH cur Hcur). destruct (admissions _ _ cur). exact IH.
        - specialize (IH (Some (window_of t1, used_in (window_of t1) cur + 1)) ltac:(right; eauto)).
          destruct (admissions _ _ (Some _)). exact IH. }
      destruct (Hw n None) as [->|[c ->]]; [by left|done|by apply used_elsewhere]. }
    destruct (run_admissions (Z.of_nat n) (window_of t2) n (snd (admissions (Z.of_nat n) (replicate n (window_of t1)) None)))
      as [-> _]; [lia|]. rewrite H0. apply Hlt.
Qed.

(** The override is what the administrator set, rounded down, or the default. *)
Lemma setLimitForKey_spec keyId n s l s' :
  setLimitForKey keyId (Some n) s = (Ok l, s') -> l = floorZ n /\ 1 <= l <= 100000 /\ getLimitForKey keyId s' = l.
Proof.
  unfold setLimitForKey. destruct n as [| |q]; [done..|].
  destruct (negb _ || _ || _) eqn:E; [done|]. bool_to_prop. intros [= <- <-]. unfold getLimitForKey.
  cbn [limits]. rewrite lookup_insert_eq. simpl default. split; [done|]. split; [|done].
  split; [by apply floor_ge_bound|by apply floor_le_bound].
Qed.
End Limiter.
End RateLimit.

Module Monthly.

Record Store := { quotas : gmap string Z; counters : gmap string (string * Z) }.

Definition empty : Store := {| quotas := ∅; counters := ∅ |}.

(** "YYYY-MM". *)
Definition periodOf (now : Z) : string := pretty (getUTCFullYear now) +:+ "-" +:+ pad 2 (getUTCMonth now + 1).

Definition nextPeriodReset (now : Z) : Z := Date_UTC (getUTCFullYear now) (getUTCMonth now + 1) 1.

Record QuotaDecision := {
  allowed : bool; unlimited : bool; limit : Z; used : Z; remaining : Z; period : string; reset_at : Z }.

Section Quota.
(** [SIGNALCLAW_MONTHLY_QUOTA]; 0 is unlimited. *)
Context (DEFAULT_MONTHLY_QUOTA : Z).

Definition getQuotaForKey (keyId : string) (s : Store) : Z := default DEFAULT_MONTHLY_QUOTA (quotas s !! keyId).

Inductive QuotaError := quota_out_of_range.

Definition setQuotaForKey (keyId : string) (q : option num) (s : Store) : result Z QuotaError * Store :=
  match q with
  | None => let s' := {| quotas := delete keyId (quotas s); counters := counters s |} in (Ok (getQuotaForKey keyId s'), s')
  | Some n =>
      if negb (is_finite n) || num_lt n (int 0) || num_lt (int 100000000) n then (Err quota_out_of_range, s)
      else let s' := {| quotas := <[keyId := floorZ n]> (quotas s); counters := counters s |} in
           (Ok (getQuotaForKey keyId s'), s')
  end.

Definition getUsage (keyId : string) (now : Z) (s : Store) : string * Z :=
  (periodOf now, used_in (periodOf now) (counters s !! keyId)).

Definition reserve (keyId : string) (now : Z) (s : Store) : QuotaDecision * Store :=
  let lim := getQuotaForKey keyId s in
  let per := periodOf now in
  let count := used_in per (counters s !! keyId) in
  let counted := {| quotas := quotas s; counters := <[keyId := (per, count + 1)]> (counters s) |} in
  if lim =? 0 then
    ({| allowed := true; unlimited := true; limit := 0; used := count + 1; remaining := 0; period := per;
        reset_at := nextPeriodReset now |}, counted)
  else if count >=? lim then
    ({| allowed := false; unlimited := false; limit := lim; used := count; remaining := 0; period := per;
        reset_at := nextPeriodReset now |}, s)
  else
    ({| allowed := true; unlimited := false; limit := lim; used := count + 1; remaining := Z.max 0 (lim - (count + 1));
        period := per; reset_at := nextPeriodReset now |}, counted).

Definition applyQuotaHeaders (h : gmap string string) (d : QuotaDecision) : gmap string string :=
  let h := if unlimited d
           then <["x-quota-remaining" := "unlimited"]> (<["x-quota-used" := pretty (used d)]> (<["x-quota-limit" := "unlimited"]> h))
           else <["x-quota-remaining" := pretty (Z.max 0 (remaining d))]>
                  (<["x-quota-used" := pretty (used d)]> (<["x-quota-limit" := pretty (limit d)]> h)) in
  <["x-quota-reset" := toISOString (reset_at d)]> (<["x-quota-period" := period d]> h).

Fixpoint reserve_all (keyId : string) (times : list Z) (s : Store) : list bool * Store :=
  match times with
  | [] => ([], s)
  | t :: r => let '(d, s1) := reserve keyId t s in let '(bs, s2) := reserve_all keyId r s1 in (allowed d :: bs, s2)
  end.

(** ** The period is the calendar month *)

Lemma append_same_tail (a b s t : string) :
  String.length s = String.length t -> a +:+ s = b +:+ t -> a = b /\ s = t.
Proof.
  revert b; induction a as [|c a IH]; intros b Hlen He.
  - destruct b as [|d b]; [done|]. apply (f_equal String.length) in He. rewrite !str_length_app in He. simpl in He. lia.
  - destruct b as [|d b].
    + apply (f_equal String.length) in He. rewrite !str_length_app in He. simpl in He. lia.
    + rewrite !str_cons_app in He. injection He as -> He. by destruct (IH b Hlen He) as [-> ->].
Qed.

Lemma pad_inj k n m : 0 <= n < 10 ^ Z.of_nat k -> 0 <= m < 10 ^ Z.of_nat k -> pad k n = pad k m -> n = m.
Proof.
  intros Hn Hm He. pose proof (read_pad k n 0 "" Hn) as H1. pose proof (read_pad k m 0 "" Hm) as H2.
  rewrite He in H1. rewrite H1 in H2. injection H2 as H2. lia.
Qed.

Lemma periodOf_month t u : periodOf t = periodOf u <-> month_key t = month_key u.
Proof.
  rewrite !month_key_fields. pose proof (getUTCMonth_range t). pose proof (getUTCMonth_range u). split.
  - intros He. unfold periodOf in He. apply append_same_tail in He as [Hy Hm]; [|by rewrite !str_length_app, !pad_length].
    apply (inj pretty) in Hy.
    apply (f_equal (str_drop 1)) in Hm. change (pad 2 (getUTCMonth t + 1) = pad 2 (getUTCMonth u + 1)) in Hm.
    assert (getUTCMonth t + 1 = getUTCMonth u + 1); [|lia]. apply (pad_inj 2); [change (10 ^ Z.of_nat 2) with 100; lia..|done].
  - intros He. assert (Hy : getUTCFullYear t = getUTCFullYear u) by lia.
    assert (Hm : getUTCMonth t = getUTCMonth u) by lia. unfold periodOf. by rewrite Hy, Hm.
Qed.

(** The reset is the first moment of the next month. *)
Lemma nextPeriodReset_spec now :
  now < nextPeriodReset now /\ month_key (nextPeriodReset now) = month_key now + 1 /\
  forall t, now <= t < nextPeriodReset now -> month_key t = month_key now.
Proof.
  unfold nextPeriodReset. rewrite Date_UTC_first.
  replace (12 * getUTCFullYear now + (getUTCMonth now + 1)) with (month_key now + 1) by (rewrite month_key_fields; lia).
  pose proof (proj1 (month_key_bounds now (month_key now)) eq_refl) as Hb.
  split; [lia|]. split.
  - apply month_key_bounds. pose proof (month_first_step (month_key now + 1)). unfold ms_per_day. lia.
  - intros t Ht. apply month_key_bounds. lia.
Qed.

Lemma reserve_admit keyId now s :
  getQuotaForKey keyId s <> 0 ->
  let '(b, cur) := admit_one (getQuotaForKey keyId s) (periodOf now) (counters s !! keyId) in
  allowed (fst (reserve keyId now s)) = b /\ counters (snd (reserve keyId now s)) !! keyId = cur /\
  quotas (snd (reserve keyId now s)) = quotas s.
Proof.
  intros Hl. unfold reserve, admit_one. cbn zeta. rewrite (proj2 (Z.eqb_neq _ _) Hl).
  destruct (_ >=? _); [done|]. simpl. by rewrite lookup_insert_eq.
Qed.

Lemma reserve_all_admissions keyId times s :
  getQuotaForKey keyId s <> 0 ->
  fst (reserve_all keyId times s) = fst (admissions (getQuotaForKey keyId s) (periodOf <$> times) (counters s !! keyId)).
Proof.
  revert s; induction times as [|t r IH]; intros s Hne; [done|]. csimpl.
  pose proof (reserve_admit keyId t s Hne) as Hc. destruct (reserve keyId t s) as [d s1].
  destruct (admit_one _ (periodOf t) _) as [b cur]. cbn [fst snd] in Hc. destruct Hc as (-> & Hcur & Hl).
  assert (He : getQuotaForKey keyId s1 = getQuotaForKey keyId s) by (unfold getQuotaForKey; by rewrite Hl).
  specialize (IH s1). rewrite He, Hcur in IH. specialize (IH Hne).
  destruct (reserve_all keyId r s1) as [bs s2]. destruct (admissions _ _ cur) as [bs' cur2]. cbn [fst] in *. by subst.
Qed.

(** The monthly quota is a hard cap per calendar month: of the requests a
    capped key makes in one UTC month the first [limit] are admitted and the
    others refused, whenever in the month they come; the announced reset is the
    first millisecond of the next month, at which the count is zero again; a key
    without a cap is never refused. *)
Theorem monthly_quota_exact keyId times now s :
  0 <= used_in (periodOf now) (counters s !! keyId) ->
  Forall (fun t => month_key t = month_key now) times ->
  let lim := getQuotaForKey keyId s in
  let n0 := used_in (periodOf now) (counters s !! keyId) in
  (lim <> 0 -> fst (reserve_all keyId times s) = (fun i => n0 + Z.of_nat i <? lim) <$> seq 0 (length times)) /\
  (lim = 0 -> allowed (fst (reserve keyId now s)) = true) /\
  let reset := reset_at (fst (reserve keyId now s)) in
  now < reset /\ (forall t, now <= t < reset -> month_key t = month_key now) /\
  used_in (periodOf reset) (counters (snd (reserve keyId now s)) !! keyId) =
    used_in (periodOf reset) (if allowed (fst (reserve keyId now s)) then None else counters s !! keyId).
Proof.
  intros H0 Hw lim n0. split; [|split].
  - intros Hne. rewrite reserve_all_admissions by done.
    assert (periodOf <$> times = replicate (length times) (periodOf now)) as ->.
    { clear -Hw. induction Hw as [|t r Ht _ IH]; [done|]. csimpl. rewrite IH. f_equal. by apply periodOf_month. }
    by apply run_admissions.
  - unfold reserve. cbn zeta. fold lim. by intros ->.
  - assert (Hres : reset_at (fst (reserve keyId now s)) = nextPeriodReset now).
    { unfold reserve. cbn zeta. destruct (_ =? _); [done|]. by destruct (_ >=? _). }
    cbn zeta. rewrite Hres. destruct (nextPeriodReset_spec now) as (Hlt & Hk & Hin).
    split; [done|]. split; [done|].
    assert (Hne : periodOf now <> periodOf (nextPeriodReset now)) by (intros E%periodOf_month; lia).
    unfold reserve. cbn zeta. destruct (_ =? 0); [|destruct (_ >=? _); [done|]];
    cbn [snd fst counters allowed]; rewrite lookup_insert_eq; by rewrite used_elsewhere.
Qed.
End Quota.
End Monthly.

Section Demo.
Lemma rate_limit_exact_witness :
  fst (RateLimit.consume_all 2 "k1" [60000; 70000; 119999] RateLimit.empty) = [true; true; false].
Proof.
  rewrite (proj1 (RateLimit.rate_limit_exact 2 "k1" [60000; 70000; 119999] 60000 RateLimit.empty
    ltac:(vm_compute; discriminate) ltac:(lia) ltac:(repeat constructor))).
  reflexivity.
Defined.

Lemma burst_across_windows_witness :
  fst (RateLimit.consume_all 2 "k1" [59000; 59000; 60000; 60000] RateLimit.empty) = [true; true; true; true].
Proof. exact (RateLimit.burst_across_windows 2 "k1" 0 RateLimit.empty 2 ltac:(lia) eq_refl eq_refl). Defined.

(** The first and the last moment of February 2024, and one more request. *)
Lemma monthly_quota_exact_witness :
  fst (Monthly.reserve_all 2 "k1" [1706745600000; 1709251199999; 1709000000000] Monthly.empty) = [true; true; false].
Proof.
  rewrite (proj1 (Monthly.monthly_quota_exact 2 "k1" [1706745600000; 1709251199999; 1709000000000] 1706745600000
    Monthly.empty ltac:(vm_compute; discriminate) ltac:(repeat constructor)) ltac:(discriminate)).
  reflexivity.
Defined.
End Demo.
