(* ===== verification/AuditLog.v ===== *)
(** The tamper-evident audit log: [web/lib/auditStore.ts].

    Each event carries the HMAC of its predecessor's hash and of its own
    canonical text. [hmac] stands for HMAC-SHA256 under the installation's chain
    key, in hexadecimal, and [sha256] for the hash of the caller's address: both
    are library code. The event id is an argument. The data files are those of
    [Retention.data_dir], so that the sweep and the log work on the same lines.
    Appends go through one promise chain; rotation does not. *)
From Stdlib Require Import DecimalString.
From S2P Require Import Prelude JsNum JsDate IsoTime Json Store LegalHold Retention.

Definition MAX_LINES : Z := 50000.
Definition ROLL_TO : Z := 25000.
Definition MAX_DETAIL_BYTES : Z := 2048.
Definition GENESIS_PREV : string := pad 64 0.

(** ** [JSON.stringify] *)

Section Text.
(** The decimal text of a number that is not a small integer. *)
Variable double_text : num -> string.

Definition quote_mark : string := String (chr 34) "".

Definition escape_char (c : Ascii.ascii) : string :=
  let n := code c in
  if n =? 34 then "\" +:+ quote_mark
  else if n =? 92 then "\\"
  else if n =? 8 then "\b" else if n =? 9 then "\t" else if n =? 10 then "\n"
  else if n =? 12 then "\f" else if n =? 13 then "\r"
  else if n <? 32 then "\u00" +:+ String (digit (n / 16)) (String (chr (if n mod 16 <? 10 then 48 + n mod 16 else 87 + n mod 16)) "")
  else String c "".

Fixpoint escape (s : string) : string :=
  match s with "" => "" | String c r => escape_char c +:+ escape r end.

Definition quote (s : string) : string := quote_mark +:+ escape s +:+ quote_mark.

Definition num_text (n : num) : string :=
  match n with
  | NaN | Infinity _ => "null"
  | Fin _ => if is_integer n && (Z.abs (floorZ n) <? 10 ^ 21)
             then NilEmpty.string_of_int (Z.to_int (floorZ n)) else double_text n
  end.

Fixpoint stringify (j : json) : string :=
  match j with
  | JNull => "null"
  | JBool b => if b then "true" else "false"
  | JNum n => num_text n
  | JStr s => quote s
  | JArr l => "[" +:+ join "," (map stringify l) +:+ "]"
  | JObj fs => "{" +:+ join "," (map (fun '(k, v) => quote k +:+ ":" +:+ stringify v) fs) +:+ "}"
  end.
End Text.

(** ** Events *)

Record AuditEvent := {
  id : string; ts : Z; key_id : string; key_label : string; key_prefix : string; scopes : list string;
  route : string; method : string; status : Z; ok : bool; ip_hash : option string; user_agent : option string;
  reason : option string; details : option json; request_id : option string; prev_hash : string; hash : string;
}.

Definition event_json (e : AuditEvent) : json := JObj [
  ("id", JStr (id e)); ("ts", JStr (toISOString (ts e))); ("key_id", JStr (key_id e));
  ("key_label", JStr (key_label e)); ("key_prefix", JStr (key_prefix e)); ("scopes", JArr (JStr <$> scopes e));
  ("route", JStr (route e)); ("method", JStr (method e)); ("status", JNum (int (status e))); ("ok", JBool (ok e));
  ("ip_hash", jopt JStr (ip_hash e)); ("user_agent", jopt JStr (user_agent e)); ("reason", jopt JStr (reason e));
  ("details", default JNull (details e)); ("request_id", jopt JStr (request_id e));
  ("prev_hash", JStr (prev_hash e)); ("hash", JStr (hash e))].

Definition with_hashes (prev h : string) (e : AuditEvent) : AuditEvent :=
  {| id := id e; ts := ts e; key_id := key_id e; key_label := key_label e; key_prefix := key_prefix e;
     scopes := scopes e; route := route e; method := method e; status := status e; ok := ok e;
     ip_hash := ip_hash e; user_agent := user_agent e; reason := reason e; details := details e;
     request_id := request_id e; prev_hash := prev; hash := h |}.

(** [typeof v === "string" && v.length === 64]. *)
Definition is_hash (v : option json) : bool :=
  match v with Some (JStr s) => str_len s =? 64 | _ => false end.

Definition cmp_key (a b : string * json) : Z :=
  if str_lt (fst a) (fst b) then -1 else if str_lt (fst b) (fst a) then 1 else 0.

(** ** Input *)

Record AuditKey := { k_id : string; k_label : string; k_prefix : string; k_scopes : list string }.

Record RecordInput := {
  in_headers : option (gmap string string); in_route : string; in_method : string; in_status : Z;
  in_key : option AuditKey; in_reason : option string; in_details : option json;
}.

Definition header (k : string) (h : option (gmap string string)) : option string := m ← h; m !! k.

(** [s || null]. *)
Definition or_null (s : string) : option string := if truthy s then Some s else None.

Definition clientIp (h : gmap string string) : option string :=
  let xff := default "" (h !! "x-forwarded-for") in
  if truthy xff then or_null (trim (default "" (head (split "," xff))))
  else r ← h !! "x-real-ip"; or_null (trim r).

(** ** The log *)

(** The data files, and the module's copy of the last hash. *)
Record audit_state := { dir : data_dir; lastChainHashCache : option string }.

Definition with_files (p r : option (list content)) (d : data_dir) : data_dir :=
  {| runs_json := runs_json d; audit_jsonl := p; audit_jsonl_1 := r;
     webhook_deliveries_json := webhook_deliveries_json d |}.

Definition parsed (l : list content) : list json :=
  omap (fun c => match c with Parsed j => Some j | Unparsable _ => None end) l.

Definition primary (d : data_dir) : list content := default [] (audit_jsonl d).
Definition rolled (d : data_dir) : list content := default [] (audit_jsonl_1 d).

Definition readAllLines (d : data_dir) : list json := parsed (rolled d ++ primary d).

Definition last_hash_in (l : list content) : option string :=
  head (omap (fun j => if is_hash (field "hash" j) then string_or_null (field "hash" j) else None) (reverse (parsed l))).

Definition lastChainedHash (st : audit_state) : string :=
  match lastChainHashCache st with
  | Some h => h
  | None => default GENESIS_PREV (last_hash_in (primary (dir st)))
  end.

(** [stat.size] is an argument: the rotation only looks at larger files. *)
Definition rotation (size : Z) (d : data_dir) : option (list content * list content) :=
  if size <? MAX_LINES * 220 then None
  else if len (primary d) <=? MAX_LINES then None
  else Some (take (length (primary d) - Z.to_nat ROLL_TO) (primary d), drop (length (primary d) - Z.to_nat ROLL_TO) (primary d)).

Definition finish_rotation (r : option (list content * list content)) (st : audit_state) : audit_state :=
  match r with
  | Some (old, keep) => {| dir := with_files (Some keep) (Some old) (dir st); lastChainHashCache := lastChainHashCache st |}
  | None => st
  end.

Definition maybeRotate (size : Z) (st : audit_state) : audit_state := finish_rotation (rotation size (dir st)) st.

Section Log.
Variable double_text : num -> string.
Variables sha256 hmac : string -> string.

(** [const { hash, prev_hash, ...rest }], in the order of the names. *)
Definition canonicalForHash (ev : json) : string :=
  match ev with
  | JObj fs => stringify double_text (JObj (js_sort cmp_key (filter (fun e => fst e <> "hash" /\ fst e <> "prev_hash") fs)))
  | _ => "{}"
  end.

Definition computeHash (ev : json) (prev : string) : string := hmac (prev +:+ "|" +:+ canonicalForHash ev).

Definition hashIp (ip : option string) (keyId : string) : option string :=
  match ip with
  | Some a => if truthy a then Some (str_take 32 (sha256 (keyId +:+ ":" +:+ a))) else None
  | None => None
  end.

(** [JSON.parse(JSON.stringify(d))] is [d]. *)
Definition safeDetails (d : option json) : option json :=
  match d with
  | Some (JObj fs) =>
      let s := stringify double_text (JObj fs) in
      if str_len s >? MAX_DETAIL_BYTES then Some (JObj [("_truncated", JBool true); ("bytes", JNum (int (str_len s)))])
      else Some (JObj fs)
  | _ => None
  end.

Definition new_event (rid : string) (now : Z) (input : RecordInput) : AuditEvent :=
  let k := default {| k_id := "anon"; k_label := ""; k_prefix := ""; k_scopes := [] |} (in_key input) in
  {| id := rid; ts := now; key_id := k_id k; key_label := k_label k; key_prefix := k_prefix k; scopes := k_scopes k;
     route := in_route input; method := to_upper (in_method input); status := in_status input;
     ok := in_status input <? 400; ip_hash := hashIp (h ← in_headers input; clientIp h) (k_id k);
     user_agent := str_take 200 <$> header "user-agent" (in_headers input);
     reason := in_reason input; details := safeDetails (in_details input);
     request_id := or_null (str_take 128 (default "" (header "x-request-id" (in_headers input))));
     prev_hash := ""; hash := "" |}.

Definition append_event (e : AuditEvent) (st : audit_state) : AuditEvent * audit_state :=
  let prev := lastChainedHash st in
  let e' := with_hashes prev (computeHash (event_json e) prev) e in
  (e', {| dir := with_files (Some (primary (dir st) ++ [Parsed (event_json e')])) (audit_jsonl_1 (dir st)) (dir st);
          lastChainHashCache := Some (hash e') |}).

(** The rotation that [recordAuditEvent] starts is a step of its own: it is not
    awaited. The event goes on to the SIEM sink ([Siem]). *)
Definition recordAuditEvent (rid : string) (now : Z) (input : RecordInput) (st : audit_state) : AuditEvent * audit_state :=
  append_event (new_event rid now input) st.

(** ** Verification *)

Inductive break_reason := missing_hash_after_chain_started | prev_hash_mismatch | hash_mismatch.

Record ChainVerifyResult := {
  v_ok : bool; checked : Z; skipped_legacy : Z; first_chained_index : option Z; last_hash : option string;
  break_at_index : option Z; break_event_id : jval; v_reason : option break_reason;
}.

Definition broken (i : Z) (ev : json) (why : break_reason) (r : ChainVerifyResult) : ChainVerifyResult :=
  {| v_ok := false; checked := checked r; skipped_legacy := skipped_legacy r; first_chained_index := first_chained_index r;
     last_hash := last_hash r; break_at_index := Some i; break_event_id := field "id" ev; v_reason := Some why |}.

Definition skip_one (r : ChainVerifyResult) : ChainVerifyResult :=
  {| v_ok := v_ok r; checked := checked r; skipped_legacy := skipped_legacy r + 1; first_chained_index := first_chained_index r;
     last_hash := last_hash r; break_at_index := break_at_index r; break_event_id := break_event_id r; v_reason := v_reason r |}.

Definition start_at (i : Z) (r : ChainVerifyResult) : ChainVerifyResult :=
  {| v_ok := v_ok r; checked := checked r; skipped_legacy := skipped_legacy r; first_chained_index := Some i;
     last_hash := last_hash r; break_at_index := break_at_index r; break_event_id := break_event_id r; v_reason := v_reason r |}.

Definition check_one (h : string) (r : ChainVerifyResult) : ChainVerifyResult :=
  {| v_ok := v_ok r; checked := checked r + 1; skipped_legacy := skipped_legacy r; first_chained_index := first_chained_index r;
     last_hash := Some h; break_at_index := break_at_index r; break_event_id := break_event_id r; v_reason := v_reason r |}.

Definition text_field (k : string) (ev : json) : string := default "" (string_or_null (field k ev)).

(** [prev] is [None] until the first chained event, whose anchor is accepted.
    [None] is the [TypeError] that a [null] line raises. *)
Fixpoint verify_from (i : Z) (prev : option string) (res : ChainVerifyResult) (events : list json) : option ChainVerifyResult :=
  match events with
  | [] => Some res
  | JNull :: _ => None
  | ev :: rest =>
      if negb (is_hash (field "hash" ev) && is_hash (field "prev_hash" ev)) then
        match prev with
        | None => verify_from (i + 1) None (skip_one res) rest
        | Some _ => Some (broken i ev missing_hash_after_chain_started res)
        end
      else
        let res := match prev with None => start_at i res | Some _ => res end in
        let p := default (text_field "prev_hash" ev) prev in
        if negb (String.eqb (text_field "prev_hash" ev) p) then Some (broken i ev prev_hash_mismatch res)
        else if negb (String.eqb (computeHash ev p) (text_field "hash" ev)) then Some (broken i ev hash_mismatch res)
        else verify_from (i + 1) (Some (text_field "hash" ev)) (check_one (text_field "hash" ev) res) rest
  end.

Definition nothing_checked : ChainVerifyResult :=
  {| v_ok := true; checked := 0; skipped_legacy := 0; first_chained_index := None; last_hash := None;
     break_at_index := None; break_event_id := None; v_reason := None |}.

Definition verifyChain (d : data_dir) : option ChainVerifyResult := verify_from 0 None nothing_checked (readAllLines d).
End Log.

(** ** Queries *)

Record QueryInput := {
  q_key_id : option string; q_method : option string; q_route : option string; q_ok : option bool;
  q_since : option string; q_limit : option Z; q_offset : option Z;
}.

(** [e.k]; a property of [null] throws. *)
Definition prop (k : string) (e : json) : option jval := match e with JNull => None | _ => Some (field k e) end.

Definition same_string (s : string) (v : jval) : bool := match v with Some (JStr x) => String.eqb x s | _ => false end.

(** [v.includes(r)]: a method of strings and arrays. *)
Definition includes (r : string) (v : jval) : option bool :=
  match v with
  | Some (JStr s) => Some (str_includes r s)
  | Some (JArr l) => Some (existsb (fun j => match j with JStr s => String.eqb s r | _ => false end) l)
  | _ => None
  end.

Definition same_bool (b : bool) (v : jval) : bool := match v with Some (JBool x) => Bool.eqb x b | _ => false end.

(** [v >= t] for a string [v]; another value is taken not to be. *)
Definition not_before (t : string) (v : jval) : bool := match v with Some (JStr s) => negb (str_lt s t) | _ => false end.

(** One filter of the chain: what it rejects is not seen by the next ones. *)
Definition filter_with {A} (active : option A) (test : A -> option bool) (next : option bool) : option bool :=
  match active with Some a => b ← test a; if (b : bool) then next else Some false | None => next end.

Definition nonempty (o : option string) : option string := match o with Some s => or_null s | None => None end.

Definition matching (q : QueryInput) (e : json) : option bool :=
  filter_with (nonempty (q_key_id q)) (fun k => same_string k <$> prop "key_id" e) (
  filter_with (nonempty (q_method q)) (fun m => same_string (to_upper m) <$> prop "method" e) (
  filter_with (nonempty (q_route q)) (fun r => v ← prop "route" e; includes r v) (
  filter_with (q_ok q) (fun b => same_bool b <$> prop "ok" e) (
  filter_with (nonempty (q_since q)) (fun t => not_before t <$> prop "ts" e) (Some true))))).

Fixpoint filter_or_throw (p : json -> option bool) (l : list json) : option (list json) :=
  match l with
  | [] => Some []
  | e :: r => b ← p e; r' ← filter_or_throw p r; Some (if (b : bool) then e :: r' else r')
  end.

Definition is_null (e : json) : bool := match e with JNull => true | _ => false end.

(** [(a, b) => (a.ts < b.ts ? 1 : -1)]. *)
Definition cmp_ts (a b : json) : Z :=
  match string_or_null (field "ts" a), string_or_null (field "ts" b) with
  | Some s, Some t => if str_lt s t then 1 else -1
  | _, _ => -1
  end.

(** The sort compares every event of a list of two or more. *)
Definition newest_matching (q : QueryInput) (d : data_dir) : option (list json) :=
  l ← filter_or_throw (matching q) (readAllLines d);
  if (1 <? len l) && existsb is_null l then None else Some (js_sort cmp_ts l).

Record QueryResult := { r_events : list json; r_total : Z; r_limit : Z; r_offset : Z }.

Definition query_page (q : QueryInput) (d : data_dir) : option QueryResult :=
  let limit := Z.min (Z.max (default 100 (q_limit q)) 1) 1000 in
  let offset := Z.max (default 0 (q_offset q)) 0 in
  l ← newest_matching q d;
  Some {| r_events := take (Z.to_nat limit) (drop (Z.to_nat offset) l); r_total := len l; r_limit := limit; r_offset := offset |}.

Definition stream_all (q : QueryInput) (d : data_dir) : option (list json) :=
  l ← newest_matching q d;
  Some (take (Z.to_nat (Z.min (Z.max (default 1000000 (q_limit q)) 1) 1000000)) l).

Section Swept.
Context {H : Type} `{HoldRegister H}.

(** Both readers sweep first. *)
Definition queryAudit (clk : clock) (reg : H) (q : QueryInput) (last : Z) (pf : file RetentionPolicy) (d : data_dir)
  : option QueryResult * Z * file RetentionPolicy * data_dir :=
  let '(_, last', pf', d') := maybeAutoSweep clk reg last pf d in (query_page q d', last', pf', d').

Definition streamAuditFiltered (clk : clock) (reg : H) (q : QueryInput) (last : Z) (pf : file RetentionPolicy) (d : data_dir)
  : option (list json) * Z * file RetentionPolicy * data_dir :=
  let '(_, last', pf', d') := maybeAutoSweep clk reg last pf d in (stream_all q d', last', pf', d').
End Swept.

(** ** Laws of the events *)

Definition line (e : AuditEvent) : content := Parsed (event_json e).

Lemma parsed_app l l' : parsed (l ++ l') = parsed l ++ parsed l'.
Proof. apply omap_app. Qed.

Lemma parsed_lines evs : parsed (line <$> evs) = event_json <$> evs.
Proof. induction evs as [|e evs IH]; [done|]. rewrite !fmap_cons, <- IH. reflexivity. Qed.

Lemma iso_mono t u : iso_range t -> iso_range u -> t <= u -> forall c,
  str_lt (toISOString u) c = true -> str_lt (toISOString t) c = true.
Proof.
  intros Ht Hu Hle c Hc. destruct (decide (t = u)) as [->|Hne]; [done|].
  apply (str_lt_trans _ (toISOString u)); [|done]. rewrite toISOString_lt by done. apply Z.ltb_lt. lia.
Qed.

Lemma outdated_line c e : outdated c (line e) <-> str_lt (toISOString (ts e)) c = true.
Proof. done. Qed.

Section Chain.
#[local] Set Default Proof Using "Type*".
Variable double_text : num -> string.
Variable hmac : string -> string.
Hypothesis hmac_length : forall m, str_len (hmac m) = 64.

Local Abbreviation canonical := (canonicalForHash double_text).
Local Abbreviation digest := (computeHash double_text hmac).
Local Abbreviation verify := (verify_from double_text hmac).

(** The hashes of an event are not part of its canonical text. *)
Lemma canonical_with_hashes p h e : canonical (event_json (with_hashes p h e)) = canonical (event_json e).
Proof. reflexivity. Qed.

(** Events in sequence from the anchor [p]. *)
Fixpoint linked (p : string) (evs : list AuditEvent) : Prop :=
  match evs with
  | [] => True
  | e :: r => prev_hash e = p /\ str_len p = 64 /\ hash e = digest (event_json e) p /\ linked (hash e) r
  end.

Definition chained (evs : list AuditEvent) : Prop :=
  match evs with [] => True | e :: _ => linked (prev_hash e) evs end.

Definition head_of (p : string) (evs : list AuditEvent) : string := default p (hash <$> last evs).

Lemma linked_chained p evs : linked p evs -> chained evs.
Proof. destruct evs; [done|]. intros (? & ?). simpl in *. by subst. Qed.

Lemma linked_app p a b : linked p (a ++ b) <-> linked p a /\ linked (head_of p a) b.
Proof.
  revert p. induction a as [|e a IH]; intros p; [simpl; tauto|].
  simpl. rewrite IH. replace (head_of p (e :: a)) with (head_of (hash e) a); [tauto|].
  unfold head_of. rewrite last_cons. by destruct (last a).
Qed.

Lemma chained_suffix a b : chained (a ++ b) -> chained b.
Proof.
  destruct a as [|e a]; [done|]. simpl. intros (_ & _ & _ & Hl). apply linked_app in Hl as [_ Hl].
  by eapply linked_chained.
Qed.

Lemma chained_snoc evs e :
  chained evs -> str_len (prev_hash e) = 64 -> hash e = digest (event_json e) (prev_hash e) ->
  (forall l, last evs = Some l -> prev_hash e = hash l) -> chained (evs ++ [e]).
Proof.
  destruct evs as [|f evs]; simpl; [tauto|]. intros Hc Hl He Hp.
  change (linked (prev_hash f) ((f :: evs) ++ [e])). apply linked_app. split; [done|].
  destruct (last (f :: evs)) as [l|] eqn:El; [|by apply last_None in El].
  unfold head_of. rewrite El. simpl. rewrite <- (Hp l eq_refl). auto.
Qed.

Lemma event_hash e : field "hash" (event_json e) = Some (JStr (hash e)).
Proof. reflexivity. Qed.
Lemma event_prev e : field "prev_hash" (event_json e) = Some (JStr (prev_hash e)).
Proof. reflexivity. Qed.

Lemma verify_linked_step i prev res e rest p :
  prev_hash e = p -> str_len p = 64 -> hash e = digest (event_json e) p -> (prev = None \/ prev = Some p) ->
  verify i prev res (event_json e :: rest) =
  verify (i + 1) (Some (hash e)) (check_one (hash e) (match prev with None => start_at i res | Some _ => res end)) rest.
Proof.
  intros Hp Hl Hh Hprev. assert (Hn : str_len (hash e) = 64) by (rewrite Hh; apply hmac_length).
  pose proof (event_hash e) as Fh. pose proof (event_prev e) as Fp. revert Fh Fp Hh.
  generalize (event_json e) as ev. intros [| | | | |fs] Fh Fp Hh; try discriminate.
  cbn [verify_from]. unfold text_field. rewrite Fh, Fp. cbn [is_hash string_or_null].
  rewrite Hp, Hl, Hn, Z.eqb_refl. cbn [andb negb].
  destruct Hprev as [-> | ->]; cbn; rewrite String.eqb_refl; cbn [negb]; rewrite <- Hh, String.eqb_refl; done.
Qed.

Definition verified (n : Z) (h : option string) (r : ChainVerifyResult) : Prop :=
  v_ok r = true /\ checked r = n /\ last_hash r = h /\ break_at_index r = None /\ v_reason r = None /\ skipped_legacy r = 0.

Lemma verify_linked i p res evs rest n h :
  linked p evs -> verified n h res ->
  exists r, verify i (Some p) res ((event_json <$> evs) ++ rest) = verify (i + len evs) (Some (head_of p evs)) r rest /\
            verified (n + len evs) (match last evs with Some e => Some (hash e) | None => h end) r.
Proof.
  revert i p res n h. induction evs as [|e evs IH]; intros i p res n h Hl (V1 & V2 & V3 & V4 & V5 & V6).
  - exists res. unfold verified, len. simpl. rewrite !Z.add_0_r. by split_and!.
  - destruct Hl as (Hp & H64 & Hh & Hl). rewrite fmap_cons. simpl app.
    rewrite (verify_linked_step i (Some p) res e _ p) by auto. cbv iota.
    destruct (IH (i + 1) (hash e) (check_one (hash e) res) (n + 1) (Some (hash e)) Hl) as (r & -> & Hr).
    { unfold verified. simpl. rewrite V2. by split_and!. }
    exists r. unfold head_of. rewrite last_cons.
    replace (n + len (e :: evs)) with (n + 1 + len evs) by (unfold len; simpl; lia).
    replace (i + len (e :: evs)) with (i + 1 + len evs) by (unfold len; simpl; lia).
    by destruct (last evs).
Qed.

Lemma verify_chained evs rest : chained evs ->
  exists r, verify 0 None nothing_checked ((event_json <$> evs) ++ rest) = verify (len evs) (hash <$> last evs) r rest /\
            verified (len evs) (hash <$> last evs) r.
Proof.
  destruct evs as [|e evs]; [by intros _; exists nothing_checked|].
  intros (Hp & H64 & Hh & Hl). rewrite fmap_cons. simpl app.
  rewrite (verify_linked_step 0 None nothing_checked e _ (prev_hash e)) by auto. cbv iota.
  destruct (verify_linked (0 + 1) (hash e) (check_one (hash e) (start_at 0 nothing_checked)) evs rest 1 (Some (hash e)) Hl)
    as (r & -> & Hr); [by repeat split|].
  exists r. unfold head_of. rewrite last_cons. replace (len (e :: evs)) with (1 + len evs) by (unfold len; simpl; lia).
  by destruct (last evs).
Qed.

(** ** Tamper evidence *)

Definition has_chain (ev : json) : bool := is_hash (field "hash" ev) && is_hash (field "prev_hash" ev).

(** [linked] for the events of an arbitrary log. *)
Fixpoint authentic (p : string) (l : list json) : Prop :=
  match l with
  | [] => True
  | ev :: r => text_field "prev_hash" ev = p /\ str_len p = 64 /\ digest ev p = text_field "hash" ev /\
               authentic (text_field "hash" ev) r
  end.

Lemma is_hash_length k ev : is_hash (field k ev) = true -> str_len (text_field k ev) = 64.
Proof. unfold text_field. destruct (field k ev) as [[]|]; simpl; try done. by intros ?%Z.eqb_eq. Qed.

Definition chained_events (d : data_dir) : list json := filter (fun ev => has_chain ev = true) (readAllLines d).

Lemma verify_ok_authentic evs : forall i prev res r,
  verify i prev res evs = Some r -> v_ok r = true ->
  let l := filter (fun ev => has_chain ev = true) evs in
  authentic (match prev with Some p => p | None => from_option (text_field "prev_hash") "" (head l) end) l /\
  last_hash r = match last l with Some e => Some (text_field "hash" e) | None => last_hash res end /\
  checked r = checked res + len l.
Proof.
  induction evs as [|ev evs IH]; intros i prev res r Hv Hok; cbn zeta.
  { injection Hv as <-. unfold len. simpl. by rewrite Z.add_0_r. }
  assert (Hstep : verify i prev res (ev :: evs) = Some r /\ ev <> JNull) by (by destruct ev).
  destruct Hstep as [Hstep Hnn]. clear Hv. rewrite filter_cons. destruct (has_chain ev) eqn:Ec.
  - rewrite decide_True by done. unfold has_chain in Ec. apply andb_true_iff in Ec as [Eh Ep].
    pose proof (is_hash_length _ _ Ep) as Lp. pose proof (is_hash_length _ _ Eh) as Lh.
    set (p := default (text_field "prev_hash" ev) prev).
    set (res' := match prev with None => start_at i res | Some _ => res end).
    assert (Hv : text_field "prev_hash" ev = p /\ digest ev p = text_field "hash" ev /\
                 verify (i + 1) (Some (text_field "hash" ev)) (check_one (text_field "hash" ev) res') evs = Some r).
    { destruct ev; try done; cbn [verify_from] in Hstep; rewrite Eh, Ep in Hstep; cbn [andb negb] in Hstep;
      fold p res' in Hstep; (destruct (String.eqb (text_field "prev_hash" _) p) eqn:E1; cbn [negb] in Hstep; [|by simplify_eq]);
      (destruct (String.eqb (digest _ p) _) eqn:E2; cbn [negb] in Hstep; [|by simplify_eq]);
      apply String.eqb_eq in E1, E2; by split_and!. }
    destruct Hv as (Hp & Hd & Hv). destruct (IH _ _ _ _ Hv Hok) as (Ha & Hl & Hn). cbn zeta in *.
    split; [|split].
    + simpl. replace (match prev with Some p => p | None => text_field "prev_hash" ev end) with p by (by destruct prev).
      split_and!; try done. by rewrite <- Hp.
    + rewrite Hl, last_cons. by destruct (last _).
    + rewrite Hn. simpl. unfold res', len. destruct prev; simpl; lia.
  - rewrite decide_False by congruence. unfold has_chain in Ec.
    destruct prev as [p|].
    + exfalso. destruct ev; try done; cbn [verify_from] in Hstep; rewrite Ec in Hstep; injection Hstep as <-; discriminate Hok.
    + assert (Hv : verify (i + 1) None (skip_one res) evs = Some r).
      { destruct ev; try done; cbn [verify_from] in Hstep; by rewrite Ec in Hstep. }
      by destruct (IH _ _ _ _ Hv Hok) as (Ha & Hl & Hn).
Qed.

Lemma authentic_app p a b :
  authentic p (a ++ b) <-> authentic p a /\ authentic (default p (text_field "hash" <$> last a)) b.
Proof.
  revert p. induction a as [|e a IH]; intros p; [simpl; tauto|].
  simpl. rewrite IH, last_cons. destruct (last a); simpl; tauto.
Qed.

Lemma app_inj_length (a b c d : string) : str_len a = str_len c -> a +:+ b = c +:+ d -> a = c /\ b = d.
Proof.
  unfold str_len. revert c. induction a as [|x a IH]; intros [|y c] Hl E; simpl in Hl; try lia; [done|].
  injection E as -> E. destruct (IH c ltac:(lia) E) as [-> ->]. done.
Qed.

Definition collision : Prop := exists m m', m <> m' /\ hmac m = hmac m'.

Lemma authentic_determined l1 : forall p1 l2 p2 h,
  authentic p1 l1 -> authentic p2 l2 -> (length l1 <= length l2)%nat ->
  (l1 <> [] -> text_field "hash" <$> last l1 = Some h /\ text_field "hash" <$> last l2 = Some h) ->
  collision \/ (canonical <$> l1) `suffix_of` (canonical <$> l2).
Proof.
  induction l1 as [|e1 l1 IH] using rev_ind; intros p1 l2 p2 h H1 H2 Hlen Hh.
  { right. apply suffix_nil. }
  destruct (decide (l2 = [])) as [->|Hne]; [rewrite length_app in Hlen; simpl in Hlen; lia|].
  destruct (exists_last Hne) as (l2' & e2 & ->).
  destruct Hh as [Hh1 Hh2]; [by destruct l1|]. rewrite last_snoc in Hh1, Hh2. simpl in Hh1, Hh2.
  apply authentic_app in H1 as [H1 (Q1 & L1 & D1 & _)]. apply authentic_app in H2 as [H2 (Q2 & L2 & D2 & _)].
  set (q1 := default p1 _) in *. set (q2 := default p2 _) in *.
  destruct (decide (q1 +:+ "|" +:+ canonical e1 = q2 +:+ "|" +:+ canonical e2)) as [Em|Em].
  - apply app_inj_length in Em as [Eq Em]; [|lia]. injection Em as Em. change (canonical e1 = canonical e2) in Em. rewrite !length_app in Hlen. simpl in Hlen.
    destruct (IH p1 l2' p2 q1 H1 H2 ltac:(lia)) as [Hcol|Hs]; [|by left|].
    + intros Hn1. unfold q2, q1 in Eq |- *. destruct (last l1) as [x|] eqn:E1; [|by apply last_None in E1].
      split; [done|]. destruct (last l2') as [y|] eqn:E2; [simpl in Eq |- *; by rewrite Eq|].
      apply last_None in E2 as ->. destruct l1; [done|simpl in Hlen; lia].
    + right. destruct Hs as [k Hk]. exists k. rewrite !fmap_app, !fmap_cons, Em, Hk. by rewrite app_assoc.
  - left. eexists _, _. split; [exact Em|]. unfold computeHash in D1, D2. rewrite D1, D2. by simplify_eq.
Qed.

(** C10. Tamper evidence: if two logs both verify and end in the same hash, then
    the events of the shorter one are, in their canonical text, exactly the last
    events of the longer one, unless the HMAC collides. An edited, inserted,
    removed or reordered event therefore shows in the verification or in the
    head hash. *)
Theorem same_head_same_history d1 d2 r1 r2 h :
  verifyChain double_text hmac d1 = Some r1 -> verifyChain double_text hmac d2 = Some r2 ->
  v_ok r1 = true -> v_ok r2 = true -> last_hash r1 = Some h -> last_hash r2 = Some h -> checked r1 <= checked r2 ->
  collision \/ (canonical <$> chained_events d1) `suffix_of` (canonical <$> chained_events d2).
Proof.
  intros V1 V2 O1 O2 L1 L2 Hn.
  destruct (verify_ok_authentic _ _ _ _ _ V1 O1) as (A1 & E1 & N1).
  destruct (verify_ok_authentic _ _ _ _ _ V2 O2) as (A2 & E2 & N2). cbn zeta in *.
  eapply (authentic_determined _ _ _ _ h); [exact A1|exact A2| |].
  { rewrite N1, N2 in Hn. unfold len, chained_events in *. cbn in Hn. lia. }
  intros _. rewrite L1 in E1. rewrite L2 in E2. simpl in E1, E2. unfold chained_events.
  destruct (last _) as [x|]; [|done]. destruct (last (filter _ (readAllLines d2))) as [y|]; [|done].
  simpl. by rewrite <- E1, <- E2.
Qed.

(** ** Histories *)

Variable sha256 : string -> string.
Context {H : Type} `{HoldRegister H}.

(** The operations in sequence. A restart loses the module's copy of the last
    hash; a sweep deletes the old lines of both files. *)
Inductive operation :=
| Append (rid : string) (now : Z) (input : RecordInput)
| Rotate (size : Z)
| Restart
| Sweep (clk : clock) (reg : H) (pf : file RetentionPolicy).

Definition perform (st : audit_state) (o : operation) : audit_state :=
  match o with
  | Append rid now input => snd (recordAuditEvent double_text sha256 hmac rid now input st)
  | Rotate size => maybeRotate size st
  | Restart => {| dir := dir st; lastChainHashCache := None |}
  | Sweep clk reg pf => let '(_, _, d) := runRetentionSweep clk reg pf (dir st) in
                        {| dir := d; lastChainHashCache := lastChainHashCache st |}
  end.

Definition perform_all (st : audit_state) (os : list operation) : audit_state := fold_left perform os st.

(** The clock does not go back from one append to the next. *)
Fixpoint in_order (t : Z) (os : list operation) : Prop :=
  match os with
  | [] => True
  | Append _ now _ :: r => t <= now /\ iso_range now /\ in_order now r
  | _ :: r => in_order t r
  end.

(** The two files are one chain in the order of time, whose end is in the
    primary file and is what the module remembers. *)
Definition holds_chain (t : Z) (st : audit_state) (evs : list AuditEvent) : Prop :=
  rolled (dir st) ++ primary (dir st) = line <$> evs /\ chained evs /\
  Forall (fun e => iso_range (ts e) /\ ts e <= t) evs /\ StronglySorted (fun a b => ts a <= ts b) evs /\
  (primary (dir st) = [] -> evs = []) /\
  (forall h, lastChainHashCache st = Some h -> str_len h = 64 /\ forall e, last evs = Some e -> hash e = h).

Lemma last_of_suffix {A} (a b : list A) x : last b = Some x -> last (a ++ b) = Some x.
Proof. intros E. by rewrite last_app, E. Qed.

Lemma sorted_suffix {A} (R : relation A) (a b : list A) : StronglySorted R (a ++ b) -> StronglySorted R b.
Proof. induction a; [done|]. inversion 1; auto. Qed.

(** Dropping old events from the front keeps the chain. *)
Lemma holds_chain_suffix t st st' a b :
  holds_chain t st (a ++ b) -> rolled (dir st') ++ primary (dir st') = line <$> b ->
  (primary (dir st') = [] -> b = []) -> lastChainHashCache st' = lastChainHashCache st -> holds_chain t st' b.
Proof.
  intros (_ & Hc & Hf & Hs & _ & Hm) Hl Hn Hcache.
  split; [done|]. split; [by eapply chained_suffix|]. split; [by apply Forall_app in Hf as [_ ?]|].
  split; [by eapply sorted_suffix|]. split; [done|].
  rewrite Hcache. intros h Hh. destruct (Hm h Hh) as [H64 He]. split; [done|].
  intros e El. apply He. by apply last_of_suffix.
Qed.

Lemma fmap_suffix {A B} (f : A -> B) (l : list A) (x y : list B) :
  x ++ y = f <$> l -> exists a b, l = a ++ b /\ x = f <$> a /\ y = f <$> b.
Proof.
  intros E. exists (take (length x) l), (drop (length x) l). split; [by rewrite take_drop|].
  rewrite fmap_take, fmap_drop, <- E. by rewrite take_app_length, drop_app_length.
Qed.

Lemma rotate_keeps_chain t size st evs :
  holds_chain t st evs -> exists b, holds_chain t (maybeRotate size st) b.
Proof.
  intros Hc. unfold maybeRotate, rotation. destruct (_ <? _); [by exists evs|].
  destruct (len (primary (dir st)) <=? MAX_LINES) eqn:El; [by exists evs|]. bool_to_prop.
  destruct Hc as (Hl & Hc). destruct (fmap_suffix _ _ _ _ Hl) as (a & b & -> & Ea & Eb).
  exists b. eapply (holds_chain_suffix t st _ a b); [by split| | |done].
  - unfold finish_rotation, rolled, primary. cbn. rewrite <- Eb. apply take_drop.
  - unfold finish_rotation, primary. cbn. intros Ed. exfalso. apply (f_equal length) in Ed.
    rewrite length_drop in Ed. cbn in Ed. unfold len, MAX_LINES, ROLL_TO, primary in *. lia.
Qed.

(** What a sweep does to the two audit files. *)
Lemma sweep_lines clk reg pf d r pf' d' :
  runRetentionSweep clk reg pf d = (r, pf', d') ->
  (primary d' = primary d /\ rolled d' = rolled d) \/
  let c := cutoffIso (clk 2%nat) (audit_days (getPolicy pf)) in
  0 < audit_days (getPolicy pf) /\ primary d' = filter (fun l => ~ outdated c l) (primary d) /\
  rolled d' = filter (fun l => ~ outdated c l) (rolled d).
Proof.
  unfold runRetentionSweep. destruct (guarded (runs_days _) _ _ _) as [[nr r'] sr].
  destruct (guarded (audit_days _) _ _ _) as [[na [a' b']] sa] eqn:Ea.
  destruct (guarded (webhook_deliveries_days _) _ _ _) as [[nw w'] sw].
  intros [= _ _ <-]. unfold primary, rolled. simpl. unfold guarded in Ea.
  destruct (_ >? 0) eqn:Ed; [case_bool_decide; [left; by simplify_eq|]|left; by simplify_eq].
  right. cbv zeta. split; [lia|]. unfold sweepAuditFiles in Ea.
  destruct (audit_jsonl d) as [l1|], (audit_jsonl_1 d) as [l2|];
  rewrite ?sweepAuditFile_spec in Ea; simpl in Ea; by simplify_eq.
Qed.

(** Of events in the order of time, those before a cutoff are the first ones. *)
Lemma filter_outdated c evs :
  Forall (fun e => iso_range (ts e)) evs -> StronglySorted (fun a b => ts a <= ts b) evs ->
  exists a b, evs = a ++ b /\ filter (fun l => ~ outdated c l) (line <$> evs) = line <$> b.
Proof.
  intros Hf Hs. induction Hs as [|e evs Hs IH Hle]; [by exists [], []|].
  apply Forall_cons in Hf as [He Hf]. rewrite fmap_cons, filter_cons. case_decide as Ho.
  - exists [], (e :: evs). split; [done|]. rewrite fmap_cons. f_equal.
    clear IH. induction evs as [|f evs IH]; [done|]. apply Forall_cons in Hf as [Hf1 Hf], Hle as [Hl1 Hle].
    inversion Hs; subst. rewrite fmap_cons, filter_cons_True; [f_equal; auto|].
    rewrite outdated_line. intros Hlt. apply Ho. apply outdated_line. by apply (iso_mono (ts e) (ts f)).
  - destruct IH as (a & b & -> & Eb); [done|]. exists (e :: a), b. by split.
Qed.

Lemma sweep_keeps_chain t clk reg pf st evs :
  holds_chain t st evs -> exists b, holds_chain t (perform st (Sweep clk reg pf)) b /\ b `suffix_of` evs.
Proof.
  intros Hc. simpl. destruct (runRetentionSweep clk reg pf (dir st)) as [[r pf'] d'] eqn:Es.
  destruct (sweep_lines _ _ _ _ _ _ _ Es) as [[Ep Er]|(_ & Ep & Er)]; [|set (c := cutoffIso _ _) in Ep, Er].
  - exists evs. destruct Hc as (Hl & ? & ? & ? & Hn & ?). unfold holds_chain. simpl. rewrite Ep, Er. split; [by split_and!|done].
  - destruct Hc as (Hl & Hc). pose proof Hc as (_ & Hf & Hs & Hn & _).
    destruct (filter_outdated c evs) as (a & b & -> & Eb); [|done|].
    { eapply Forall_impl; [exact Hf|]. by intros ? []. }
    rewrite <- Hl, filter_app in Eb. exists b. split; [|by exists a].
    eapply (holds_chain_suffix t st _ a b); [by split| | |done]; simpl; [by rewrite Ep, Er|].
    rewrite Ep. intros E0. destruct (fmap_suffix _ _ _ _ Hl) as (x & y & Exy & Ex & Ey).
    destruct (last b) as [e|] eqn:Elast; [exfalso|by apply last_None in Elast].
    assert (Hy : last y = Some e \/ y = []).
    { destruct (last y) as [e'|] eqn:El; [left|right; by apply last_None in El].
      rewrite <- El. transitivity (last (a ++ b)); [|by apply last_of_suffix].
      rewrite Exy. symmetry. rewrite El. by apply last_of_suffix. }
    destruct Hy as [Hy| ->].
    + apply last_Some in Hy as [y' ->]. rewrite fmap_app in Ey.
      assert (Ho : outdated c (line e)).
      { destruct (decide (outdated c (line e))) as [|Hno]; [done|]. exfalso.
        assert (Hin : line e ∈ filter (fun l => ~ outdated c l) (primary (dir st))).
        { apply list_elem_of_filter. split; [done|]. rewrite Ey. set_solver. }
        rewrite E0 in Hin. set_solver. }
      apply last_Some in Elast as [b' ->]. rewrite fmap_app in Eb.
      assert (Hin : line e ∈ filter (fun l => ~ outdated c l) (rolled (dir st)) ++ filter (fun l => ~ outdated c l) (primary (dir st))).
      { rewrite Eb. set_solver. }
      apply elem_of_app in Hin as [Hin|Hin]; apply list_elem_of_filter in Hin as [? _]; done.
    + rewrite Ey in Hn. specialize (Hn eq_refl). apply app_eq_nil in Hn as [_ ->]. done.
Qed.

Lemma last_hash_in_lines l evs :
  chained evs -> l = line <$> evs -> last_hash_in l = hash <$> last evs.
Proof.
  intros Hc ->. unfold last_hash_in. rewrite parsed_lines.
  destruct (decide (evs = [])) as [->|Hne]; [done|].
  destruct (exists_last Hne) as (evs' & e & ->). rewrite fmap_app, reverse_app, last_snoc. simpl.
  replace (str_len (hash e) =? 64) with true; [done|]. symmetry. apply Z.eqb_eq.
  assert (He : exists p, linked p [e]).
  { destruct evs' as [|f evs']; [by exists (prev_hash e)|]. simpl in Hc. destruct Hc as (_ & _ & _ & Hc).
    apply linked_app in Hc as [_ Hc]. by eexists. }
  destruct He as (p & _ & _ & -> & _). apply hmac_length.
Qed.

Lemma lastChainedHash_spec t st evs :
  holds_chain t st evs ->
  str_len (lastChainedHash st) = 64 /\ forall e, last evs = Some e -> lastChainedHash st = hash e.
Proof.
  intros (Hl & Hc & _ & _ & Hn & Hm). unfold lastChainedHash.
  destruct (lastChainHashCache st) as [h|]; [destruct (Hm h eq_refl) as [? He]; split; [done|]; intros; symmetry; auto|].
  destruct (fmap_suffix _ _ _ _ Hl) as (a & b & -> & Ea & Eb).
  rewrite (last_hash_in_lines _ b) by (done || by eapply chained_suffix).
  destruct (last b) as [e|] eqn:El.
  - simpl. split.
    + apply last_Some in El as [b' ->]. rewrite app_assoc in Hc. apply chained_suffix in Hc. destruct Hc as (_ & _ & -> & _). apply hmac_length.
    + intros e' He. rewrite (last_of_suffix a b e El) in He. by simplify_eq.
  - apply last_None in El as ->. rewrite Eb in Hn. specialize (Hn eq_refl). rewrite Hn. split; [done|by intros].
Qed.

Lemma append_keeps_chain t rid now input st evs :
  holds_chain t st evs -> t <= now -> iso_range now ->
  exists e, recordAuditEvent double_text sha256 hmac rid now input st = (e, perform st (Append rid now input)) /\
            ts e = now /\ prev_hash e = lastChainedHash st /\ hash e = digest (event_json e) (prev_hash e) /\
            holds_chain now (perform st (Append rid now input)) (evs ++ [e]).
Proof.
  intros Hc Ht Hr. pose proof (lastChainedHash_spec _ _ _ Hc) as [H64 Hlast].
  destruct Hc as (Hl & Hc & Hf & Hs & Hn & _). simpl. unfold recordAuditEvent, append_event.
  set (e0 := new_event _ _ _ _ _). set (p := lastChainedHash st) in *.
  eexists. split; [done|]. split; [done|]. split; [done|]. split; [done|].
  set (e := with_hashes p _ e0). unfold holds_chain. simpl.
  split; [|split; [|split; [|split; [|split]]]].
  - unfold rolled, primary in *. simpl. by rewrite fmap_app, <- Hl, app_assoc.
  - apply chained_snoc; [done|done|reflexivity|]. intros l El. simpl. auto.
  - apply Forall_app. split; [|apply Forall_cons; split; [split; [done|simpl; lia]|by apply Forall_nil]].
    eapply Forall_impl; [exact Hf|]. intros ? [? ?]. split; [done|lia].
  - apply StronglySorted_app. split_and!; [|done|by repeat constructor]. intros x y Hx ->%list_elem_of_singleton.
    eapply Forall_forall in Hf as [_ Hle]; [|exact Hx]. change (ts e) with now. lia.
  - unfold primary. simpl. intros E. by apply app_eq_nil in E as [_ ?].
  - intros h [= <-]. split; [apply hmac_length|]. intros x. rewrite last_snoc. by intros [= <-].
Qed.

Lemma history_keeps_chain os : forall t st evs,
  holds_chain t st evs -> in_order t os -> exists t' evs', holds_chain t' (perform_all st os) evs'.
Proof.
  induction os as [|o os IH]; intros t st evs Hc Ho; [by exists t, evs|].
  destruct o as [rid now input|size| |clk reg pf].
  - destruct Ho as (Ht & Hr & Ho). destruct (append_keeps_chain t rid now input st evs Hc Ht Hr) as (e & _ & _ & _ & _ & Hc').
    by eapply IH.
  - destruct (rotate_keeps_chain t size st evs Hc) as (b & Hc'). by eapply IH.
  - apply (IH t (perform st Restart) evs); [|done].
    destruct Hc as (? & ? & ? & ? & ? & _). unfold holds_chain. simpl. by split_and!.
  - destruct (sweep_keeps_chain t clk reg pf st evs Hc) as (b & Hc' & _). by apply (IH _ _ _ Hc').
Qed.

Lemma holds_chain_lines t st evs : holds_chain t st evs -> readAllLines (dir st) = event_json <$> evs.
Proof. intros (Hl & _). unfold readAllLines. by rewrite Hl, parsed_lines. Qed.

(** C3. The audit log stays verifiable: from an installation without an audit
    file, after any sequence of appends at non-decreasing times, rotations,
    retention sweeps and restarts, the chain verifies, every event on disk is
    checked and none is skipped as a legacy event. *)
Theorem audit_chain_always_verifies t st os :
  primary (dir st) = [] -> rolled (dir st) = [] -> lastChainHashCache st = None -> in_order t os ->
  exists r, verifyChain double_text hmac (dir (perform_all st os)) = Some r /\ v_ok r = true /\
            checked r = len (readAllLines (dir (perform_all st os))) /\ skipped_legacy r = 0.
Proof.
  intros Hp Hr Hn Ho. destruct (history_keeps_chain os t st []) as (t' & evs & Hc); [|done|].
  { unfold holds_chain. rewrite Hp, Hr, Hn. split_and!; try done. constructor. }
  unfold verifyChain. rewrite (holds_chain_lines _ _ _ Hc). destruct Hc as (_ & Hc & _).
  destruct (verify_chained evs [] Hc) as (r & E & V1 & V2 & _ & _ & _ & V6). rewrite app_nil_r in E.
  exists r. rewrite E. split_and!; try done. rewrite V2. unfold len. by rewrite length_fmap.
Qed.

(** An append reads the module's copy of the last hash, not the file. *)
Lemma append_after_append rid1 now1 in1 rid2 now2 in2 st e1 st1 st2 e2 st3 :
  recordAuditEvent double_text sha256 hmac rid1 now1 in1 st = (e1, st1) ->
  lastChainHashCache st2 = lastChainHashCache st1 ->
  recordAuditEvent double_text sha256 hmac rid2 now2 in2 st2 = (e2, st3) ->
  prev_hash e1 = lastChainedHash st /\ prev_hash e2 = hash e1 /\ str_len (hash e1) = 64 /\ str_len (hash e2) = 64 /\
  primary (dir st3) = primary (dir st2) ++ [line e2] /\ rolled (dir st3) = rolled (dir st2).
Proof.
  unfold recordAuditEvent, append_event. intros [= <- <-] Hcache. simpl in Hcache.
  assert (Hl : forall h, lastChainHashCache st2 = Some h -> lastChainedHash st2 = h) by (unfold lastChainedHash; by intros ? ->).
  apply Hl in Hcache. intros [= <- <-]. split_and!; try done; apply hmac_length.
Qed.

Lemma verify_broken_link evs l e :
  chained (evs ++ [l]) -> str_len (prev_hash e) = 64 -> str_len (hash e) = 64 -> prev_hash e <> hash l ->
  exists r, verify 0 None nothing_checked ((event_json <$> evs ++ [l]) ++ [event_json e]) = Some r /\
            v_ok r = false /\ v_reason r = Some prev_hash_mismatch.
Proof.
  intros Hc Hp Hh Hne. destruct (verify_chained (evs ++ [l]) [event_json e] Hc) as (r & -> & _).
  rewrite last_snoc.
  pose proof (event_hash e) as Fh. pose proof (event_prev e) as Fp. revert Fh Fp.
  generalize (event_json e) as ev. intros [| | | | |fs] Fh Fp; try discriminate.
  cbn [verify_from]. unfold text_field. rewrite Fh, Fp. cbn. rewrite Hp, Hh. cbn.
  rewrite (proj2 (String.eqb_neq _ _)) by done. eexists. by split_and!.
Qed.

(** A rotation that overlaps an append loses the appended event and breaks
    the chain: [maybeRotate] is not part of the write queue, so an append
    between its read and its rename is overwritten, and the next event links to
    a hash that is no longer in the log. *)
Theorem rotation_race_breaks_chain t st evs size rid1 now1 in1 rid2 now2 in2 e1 st1 e2 st3 :
  holds_chain t st evs -> MAX_LINES * 220 <= size -> MAX_LINES < len (primary (dir st)) ->
  recordAuditEvent double_text sha256 hmac rid1 now1 in1 st = (e1, st1) -> hash e1 <> prev_hash e1 ->
  recordAuditEvent double_text sha256 hmac rid2 now2 in2 (finish_rotation (rotation size (dir st)) st1) = (e2, st3) ->
  readAllLines (dir st3) = parsed (primary (dir st)) ++ [event_json e2] /\
  exists r, verifyChain double_text hmac (dir st3) = Some r /\ v_ok r = false /\ v_reason r = Some prev_hash_mismatch.
Proof.
  intros Hc Hsize Hlen Hrec Hne Hrec2. pose proof (lastChainedHash_spec _ _ _ Hc) as [_ Hlast].
  set (n := (length (primary (dir st)) - Z.to_nat ROLL_TO)%nat).
  assert (Hrot : rotation size (dir st) = Some (take n (primary (dir st)), drop n (primary (dir st)))).
  { unfold rotation. rewrite (proj2 (Z.ltb_ge _ _)), (proj2 (Z.leb_gt _ _)) by lia. done. }
  rewrite Hrot in Hrec2. destruct (append_after_append _ _ _ _ _ _ _ _ _ _ _ _ Hrec
    (eq_refl : lastChainHashCache (finish_rotation (Some (_, _)) st1) = lastChainHashCache st1) Hrec2)
    as (Hp1 & Hp2 & H1 & H2 & Ep & Er).
  assert (Hread : readAllLines (dir st3) = parsed (primary (dir st)) ++ [event_json e2]).
  { unfold readAllLines. rewrite Ep, Er. change (rolled _) with (take n (primary (dir st))).
    change (primary (dir (finish_rotation _ _))) with (drop n (primary (dir st))).
    by rewrite app_assoc, take_drop, parsed_app. }
  split; [exact Hread|]. unfold verifyChain. rewrite Hread.
  destruct Hc as (Hl & Hc & _). destruct (fmap_suffix _ _ _ _ Hl) as (a & b & -> & _ & Eb).
  rewrite Eb, parsed_lines. destruct (decide (b = [])) as [->|Hb].
  { rewrite Eb in Hlen. unfold len, MAX_LINES in Hlen. simpl in Hlen. lia. }
  destruct (exists_last Hb) as (b' & l & ->).
  apply verify_broken_link; [by eapply chained_suffix|by rewrite Hp2|done|].
  rewrite Hp2. intros Heq. apply Hne. rewrite Heq, Hp1. symmetry. apply Hlast.
  apply last_of_suffix. by rewrite last_snoc.
Qed.

End Chain.

(** ** Pages of the log *)

(** The filters on an event the module wrote. *)
Definition selects (q : QueryInput) (e : AuditEvent) : bool :=
  let all {A} (o : option A) (p : A -> bool) := match o with Some a => p a | None => true end in
  all (nonempty (q_key_id q)) (fun k => String.eqb (key_id e) k) &&
  all (nonempty (q_method q)) (fun m => String.eqb (method e) (to_upper m)) &&
  all (nonempty (q_route q)) (fun r => str_includes r (route e)) &&
  all (q_ok q) (fun b => Bool.eqb (ok e) b) &&
  all (nonempty (q_since q)) (fun t => negb (str_lt (toISOString (ts e)) t)).

Lemma matching_event q e : matching q (event_json e) = Some (selects q e).
Proof.
  unfold matching, selects.
  destruct (nonempty (q_key_id q)), (nonempty (q_method q)), (nonempty (q_route q)), (q_ok q), (nonempty (q_since q));
  cbn [filter_with]; simpl; repeat case_match; simpl; try done; congruence.
Qed.



Lemma filter_events q evs :
  filter_or_throw (matching q) (event_json <$> evs) = Some (event_json <$> filter (fun e => selects q e = true) evs).
Proof.
  induction evs as [|e evs IH]; [done|]. rewrite fmap_cons. cbn [filter_or_throw].
  rewrite matching_event, IH, filter_cons. simpl. by destruct (selects q e).
Qed.

Lemma cmp_ts_event a b : iso_range (ts a) -> iso_range (ts b) -> cmp_ts (event_json a) (event_json b) = newest_first ts a b.
Proof. intros Ha Hb. unfold cmp_ts, newest_first. simpl. by rewrite toISOString_lt. Qed.

Lemma newest_matching_events q d evs :
  rolled d ++ primary d = line <$> evs -> Forall (fun e => iso_range (ts e)) evs ->
  newest_matching q d = Some (event_json <$> js_sort (newest_first ts) (filter (fun e => selects q e = true) evs)).
Proof.
  intros Hl Hr. unfold newest_matching, readAllLines. rewrite Hl, parsed_lines, filter_events. cbn [mbind option_bind].
  set (sel := filter _ evs).
  replace (existsb is_null (event_json <$> sel)) with false by (clear; by induction sel).
  rewrite andb_false_r. f_equal. apply js_sort_fmap.
  assert (Hs : Forall (fun e => iso_range (ts e)) sel).
  { apply Forall_forall. intros e He. apply list_elem_of_filter in He as [_ He]. by eapply Forall_forall in Hr. }
  eapply Forall_impl; [exact Hs|]. intros a Ha. eapply Forall_impl; [exact Hs|]. intros b Hb. by apply cmp_ts_event.
Qed.

(** A page of the log: on the events this module wrote, [queryAudit] reports
    the number of matching events and returns the asked slice of them, newest
    first, with at least one and at most a thousand events to a page. *)
Theorem audit_page_spec q d evs :
  rolled d ++ primary d = line <$> evs -> Forall (fun e => iso_range (ts e)) evs ->
  exists sorted limit offset,
    sorted ≡ₚ filter (fun e => selects q e = true) evs /\ StronglySorted (fun a b => ts b <= ts a) sorted /\
    1 <= limit <= 1000 /\ 0 <= offset /\
    query_page q d = Some {| r_events := event_json <$> take (Z.to_nat limit) (drop (Z.to_nat offset) sorted);
                             r_total := len sorted; r_limit := limit; r_offset := offset |} /\
    (forall l, q_limit q = Some l -> 1 <= l <= 1000 -> limit = l) /\
    (forall o, q_offset q = Some o -> 0 <= o -> offset = o).
Proof.
  intros Hl Hr. exists (js_sort (newest_first ts) (filter (fun e => selects q e = true) evs)).
  exists (Z.min (Z.max (default 100 (q_limit q)) 1) 1000), (Z.max (default 0 (q_offset q)) 0).
  split_and!; try lia; [apply js_sort_Permutation|apply newest_first_sorted| | |].
  - unfold query_page. rewrite (newest_matching_events q d evs) by done. cbn [mbind option_bind].
    rewrite <- fmap_drop, <- fmap_take. unfold len. by rewrite length_fmap.
  - intros l -> ?. simpl. lia.
  - intros o -> ?. simpl. lia.
Qed.

(** [since] is compared as text: a date that is not written like the stamps,
    though [Date.parse] reads it, selects nothing. *)
Lemma since_in_words_selects_nothing q e :
  q_since q = Some "Jan 1, 2026" -> iso_range (ts e) -> selects q e = false.
Proof.
  intros Hq Hr. unfold selects. rewrite Hq. cbn [nonempty or_null truthy String.eqb negb].
  replace (str_lt (toISOString (ts e)) "Jan 1, 2026") with true; [by rewrite andb_false_r|].
  unfold str_lt, toISOString. cbn [pad]. rewrite str_cons_app, ltb_cons. unfold digit.
  pose proof (pad_head_range 3 (getUTCFullYear (ts e)) ltac:(unfold iso_range in Hr; lia)).
  rewrite code_chr by lia. change (code "J"%char) with 74. by rewrite (proj2 (Z.ltb_lt _ 74)) by lia.
Qed.

(** ** Examples *)

Section Demo.

(** A 64-character digest that differs from the text its message starts with. *)
Definition ones : string := str_map (fun _ => "1"%char) GENESIS_PREV.
Definition demo_hmac (m : string) : string := if String.prefix "0" m then ones else GENESIS_PREV.
Definition demo_text (_ : num) : string := "0.5".
Definition demo_sha (s : string) : string := s.

Lemma demo_hmac_length m : str_len (demo_hmac m) = 64.
Proof. unfold demo_hmac. by destruct (String.prefix "0" m). Qed.

Lemma demo_hmac_differs s r : str_len s = 64 -> demo_hmac (s +:+ r) <> s.
Proof.
  destruct s as [|c s]; [discriminate|]. intros _ E. unfold demo_hmac in E. rewrite str_cons_app, prefix_one in E.
  destruct (Ascii.eqb "0"%char c) eqn:Ec; [apply Ascii.eqb_eq in Ec as <-; discriminate|].
  injection E as <- _. discriminate.
Qed.

Definition demo_input (r : string) : RecordInput :=
  {| in_headers := Some {[ "x-forwarded-for" := "203.0.113.5, 10.0.0.1" ]}; in_route := r; in_method := "get"; in_status := 200;
     in_key := Some {| k_id := "k1"; k_label := "ci"; k_prefix := "sc_live_ab"; k_scopes := ["read"] |};
     in_reason := None; in_details := Some (JObj [("n", JNum (int 3))]) |}.

Definition demo_start : audit_state :=
  {| dir := {| runs_json := None; audit_jsonl := None; audit_jsonl_1 := None; webhook_deliveries_json := None |};
     lastChainHashCache := None |}.

Definition demo_ops : list (operation (H := file (list LegalHold))) :=
  [Append "e1" 1767225600000 (demo_input "/api/v1/runs"); Restart;
   Append "e2" 1767225601000 (demo_input "/api/v1/audit"); Rotate 100].

Definition demo_log : audit_state := perform_all demo_text demo_hmac demo_sha demo_start demo_ops.

Lemma audit_chain_always_verifies_witness :
  exists r, verifyChain demo_text demo_hmac (dir demo_log) = Some r /\ v_ok r = true /\
           checked r = len (readAllLines (dir demo_log)) /\ skipped_legacy r = 0.
Proof.
  apply (audit_chain_always_verifies demo_text demo_hmac demo_hmac_length demo_sha 0 demo_start demo_ops);
    [reflexivity..|]. vm_compute. repeat split; discriminate.
Defined.

(** The log, and what is left of it when the first event has been swept. *)
Definition demo_tail : data_dir := with_files (Some (drop 1 (primary (dir demo_log)))) None (dir demo_log).

Lemma same_head_same_history_witness :
  collision demo_hmac \/
  (canonicalForHash demo_text <$> chained_events demo_tail) `suffix_of`
  (canonicalForHash demo_text <$> chained_events (dir demo_log)).
Proof.
  destruct (verifyChain demo_text demo_hmac demo_tail) as [r1|] eqn:E1; [|revert E1; vm_compute; discriminate].
  destruct (verifyChain demo_text demo_hmac (dir demo_log)) as [r2|] eqn:E2; [|revert E2; vm_compute; discriminate].
  apply (same_head_same_history demo_text demo_hmac demo_hmac_length demo_tail (dir demo_log) r1 r2 GENESIS_PREV E1 E2);
  revert E1 E2; vm_compute; intros [= <-] [= <-]; (reflexivity || discriminate).
Defined.

(** A log of [n] events. *)
Definition demo_many (n : nat) : audit_state :=
  Nat.iter n (fun st => snd (recordAuditEvent demo_text demo_sha demo_hmac "e" 1000 (demo_input "/api/v1/runs") st)) demo_start.

Lemma demo_many_holds n : exists evs,
  holds_chain demo_text demo_hmac 1000 (demo_many n) evs /\ length (primary (dir (demo_many n))) = n.
Proof.
  induction n as [|n (evs & Hc & Hn)].
  - exists []. split; [|done]. unfold holds_chain. split_and!; try done. constructor.
  - destruct (append_keeps_chain demo_text demo_hmac demo_hmac_length demo_sha (H := file (list LegalHold))
      1000 "e" 1000 (demo_input "/api/v1/runs") _ evs Hc) as (e & _ & _ & _ & _ & Hc'); [lia|vm_compute; by split|].
    exists (evs ++ [e]). split; [exact Hc'|].
    change (length (primary (dir (snd (recordAuditEvent demo_text demo_sha demo_hmac "e" 1000 (demo_input "/api/v1/runs") (demo_many n))))) = S n).
    clear - Hn. revert Hn. generalize (demo_many n) as st. intros st Hn. unfold recordAuditEvent, append_event, primary in *.
    cbn in *. rewrite length_app. cbn. unfold Datatypes.id in *. lia.
Qed.

Lemma rotation_race_breaks_chain_witness :
  let st := demo_many (Z.to_nat 50001) in
  let '(e1, st1) := recordAuditEvent demo_text demo_sha demo_hmac "x" 2000 (demo_input "/a") st in
  let '(e2, st3) := recordAuditEvent demo_text demo_sha demo_hmac "y" 3000 (demo_input "/b")
                      (finish_rotation (rotation 11000220 (dir st)) st1) in
  exists r, verifyChain demo_text demo_hmac (dir st3) = Some r /\ v_ok r = false /\ v_reason r = Some prev_hash_mismatch.
Proof.
  destruct (demo_many_holds (Z.to_nat 50001)) as (evs & Hc & Hn). revert Hc Hn.
  generalize (demo_many (Z.to_nat 50001)) as st. intros st Hc Hn. cbv zeta.
  destruct (recordAuditEvent _ _ _ "x" _ _ _) as [e1 st1] eqn:E1.
  destruct (recordAuditEvent _ _ _ "y" _ _ _) as [e2 st3] eqn:E2.
  apply (rotation_race_breaks_chain demo_text demo_hmac demo_hmac_length demo_sha 1000 st evs 11000220
    "x" 2000 (demo_input "/a") "y" 3000 (demo_input "/b") e1 st1 e2 st3 Hc); [unfold MAX_LINES; lia| |exact E1| |exact E2].
  - unfold len, MAX_LINES. rewrite Hn. lia.
  - pose proof (lastChainedHash_spec demo_text demo_hmac demo_hmac_length 1000 st evs Hc) as [H64 _].
    unfold recordAuditEvent, append_event in E1. injection E1 as <- _. simpl. unfold computeHash. by apply demo_hmac_differs.
Defined.

Lemma audit_page_spec_witness :
  exists sorted limit offset,
    query_page {| q_key_id := Some "k1"; q_method := Some "get"; q_route := None; q_ok := Some true; q_since := None;
                  q_limit := Some 1; q_offset := None |} (dir demo_log) =
      Some {| r_events := event_json <$> take (Z.to_nat limit) (drop (Z.to_nat offset) sorted);
              r_total := len sorted; r_limit := limit; r_offset := offset |} /\ limit = 1.
Proof.
  set (q := {| q_key_id := _ |}).
  set (e1 := with_hashes GENESIS_PREV ones (new_event demo_text demo_sha "e1" 1767225600000 (demo_input "/api/v1/runs"))).
  set (e2 := with_hashes ones GENESIS_PREV (new_event demo_text demo_sha "e2" 1767225601000 (demo_input "/api/v1/audit"))).
  destruct (audit_page_spec q (dir demo_log) [e1; e2]) as (s & l & o & _ & _ & _ & _ & E & Hl & _).
  - vm_compute. reflexivity.
  - repeat constructor; vm_compute; discriminate.
  - exists s, l, o. split; [exact E|]. apply Hl; [reflexivity|lia].
Defined.

End Demo.
