(* ===== verification/Guard.v ===== *)
(** The guard in front of every [/api/v1] handler: [enforceRateLimit] of
    [web/lib/v1Guard.ts], over the states of the components it consults.

    A stage either lets the request through with a value or ends it with a
    response; the stages are composed in the order of the code. Audit lines and
    metrics are kept as the calls that were made, in order. The bodies of the
    responses are reduced to their error code. Reading a policy does not fail. *)
From S2P Require Import Prelude JsNum JsDate IsoTime Json Store.
From S2P Require Import Freeze Concurrency IpMatch NetworkPolicy KeyStore KeyLifecycle RouteAllowlist Residency BreakGlass Quota.
From S2P Require Import LegalHold Retention AuditLog.

(** ** [classifyRoute] of [metricsStore.ts] *)

Inductive RouteClass := api_v1 | api_admin | api_other | page | asset | health | metrics.

Definition is_alnum (c : Ascii.ascii) : bool :=
  let n := code c in ((48 <=? n) && (n <=? 57)) || ((65 <=? n) && (n <=? 90)) || ((97 <=? n) && (n <=? 122)).

(** [/\.[a-z0-9]+$/i]. *)
Fixpoint has_extension (s : string) : bool :=
  match s with
  | "" => false
  | String c r => (Ascii.eqb c "."%char && truthy r && str_forall is_alnum r) || has_extension r
  end.

Definition classifyRoute (pathname : string) : RouteClass :=
  if String.eqb pathname "/metrics" then metrics
  else if String.eqb pathname "/healthz" || String.eqb pathname "/readyz" then health
  else if starts_with "/api/v1/" pathname then api_v1
  else if starts_with "/api/admin/" pathname then api_admin
  else if starts_with "/api/" pathname then api_other
  else if starts_with "/_next/" pathname || has_extension pathname then asset
  else page.

(** ** Requests, responses and the state *)

Record request := { headers : gmap string string; req_method : string }.

(** [r_code] is the code of an error body, [r_body] the text of any other. *)
Record response := { r_status : Z; r_code : option string; r_body : string; r_headers : gmap string string }.

Definition content (r : response) : option string * string := (r_code r, r_body r).

(** The value of a promise that is returned or rejected. *)
Inductive outcome := Returned (r : response) | Threw.

Record observation := { o_method : string; o_status : Z; o_class : RouteClass; o_key : string }.

(** The environment variables the policies default to, and the two limits. *)
Record environment := {
  env_rotation : rotation_env; env_residency : residency_env; env_per_minute : Z; env_monthly : Z }.

Section Guard.
(** The state the handler works on. *)
Context {A : Type} (env : environment).

#[local] Instance rotation_persisted : Persisted RotationPolicy := KeyLifecycle.RotationPolicy_persisted (env_rotation env).
#[local] Instance residency_persisted : Persisted ResidencyPolicy := Residency.ResidencyPolicy_persisted (env_residency env).

Record world := World {
  freeze : store FreezeState;
  network : file NetworkPolicy;
  cidrCache : cidr_cache;
  break_glass : file BreakGlassState;
  rotation : file RotationPolicy;
  residency : file ResidencyPolicy;
  quota : Monthly.Store;
  rate : RateLimit.Store;
  concurrency : store ConcurrencyPolicy;
  inFlight : Z;
  reqInFlight : Z;
  audited : list RecordInput;
  observed : list observation;
  app : A;
}.

Definition with_freeze x (w : world) : world :=
  World x (network w) (cidrCache w) (break_glass w) (rotation w) (residency w) (quota w)
        (rate w) (concurrency w) (inFlight w) (reqInFlight w) (audited w) (observed w) (app w).
Definition with_cidrCache x (w : world) : world :=
  World (freeze w) (network w) x (break_glass w) (rotation w) (residency w) (quota w)
        (rate w) (concurrency w) (inFlight w) (reqInFlight w) (audited w) (observed w) (app w).
Definition with_break_glass x (w : world) : world :=
  World (freeze w) (network w) (cidrCache w) x (rotation w) (residency w) (quota w)
        (rate w) (concurrency w) (inFlight w) (reqInFlight w) (audited w) (observed w) (app w).
Definition with_quota x (w : world) : world :=
  World (freeze w) (network w) (cidrCache w) (break_glass w) (rotation w) (residency w) x
        (rate w) (concurrency w) (inFlight w) (reqInFlight w) (audited w) (observed w) (app w).
Definition with_rate x (w : world) : world :=
  World (freeze w) (network w) (cidrCache w) (break_glass w) (rotation w) (residency w)
        (quota w) x (concurrency w) (inFlight w) (reqInFlight w) (audited w) (observed w) (app w).
Definition with_concurrency x (w : world) : world :=
  World (freeze w) (network w) (cidrCache w) (break_glass w) (rotation w) (residency w)
        (quota w) (rate w) x (inFlight w) (reqInFlight w) (audited w) (observed w) (app w).
Definition with_inFlight x (w : world) : world :=
  World (freeze w) (network w) (cidrCache w) (break_glass w) (rotation w) (residency w)
        (quota w) (rate w) (concurrency w) x (reqInFlight w) (audited w) (observed w) (app w).
Definition with_reqInFlight x (w : world) : world :=
  World (freeze w) (network w) (cidrCache w) (break_glass w) (rotation w) (residency w)
        (quota w) (rate w) (concurrency w) (inFlight w) x (audited w) (observed w) (app w).
Definition with_audited x (w : world) : world :=
  World (freeze w) (network w) (cidrCache w) (break_glass w) (rotation w) (residency w)
        (quota w) (rate w) (concurrency w) (inFlight w) (reqInFlight w) x (observed w) (app w).
Definition with_observed x (w : world) : world :=
  World (freeze w) (network w) (cidrCache w) (break_glass w) (rotation w) (residency w)
        (quota w) (rate w) (concurrency w) (inFlight w) (reqInFlight w) (audited w) x (app w).
Definition with_app x (w : world) : world :=
  World (freeze w) (network w) (cidrCache w) (break_glass w) (rotation w) (residency w)
        (quota w) (rate w) (concurrency w) (inFlight w) (reqInFlight w) (audited w) (observed w) x.

(** A computation on the world that goes on with a value or ends the request. *)
Definition stage (R : Type) : Type := world -> result R outcome * world.

Definition continue {R} (r : R) : stage R := fun w => (Ok r, w).

Definition and_then {R R'} (s : stage R) (k : R -> stage R') : stage R' := fun w =>
  let '(r, w') := s w in match r with Ok x => k x w' | Err o => (Err o, w') end.

Local Notation "x ↢ s ; k" := (and_then s (fun x => k)) (at level 100, s at next level, k at level 200, right associativity).

(** ** One request *)

Section Request.
Context (clk : clock) (req : request) (key : StoredKey) (route : string).
(** What the handler does to its state: a response, or an exception. *)
Context (handler : A -> option response * A).

Local Abbreviation method := (req_method req).

Definition scope_name (s : Scope) : string := match s with KeyStore.read => "read" | trade => "trade" | admin => "admin" end.

Definition audit_key : AuditKey :=
  {| k_id := KeyStore.id key; k_label := label key; k_prefix := prefix key; k_scopes := scope_name <$> KeyStore.scopes key |}.

(** [recordAuditEvent({ req, route, method, status, key, reason, details })]. *)
Definition record (status : Z) (reason : string) (details : option json) (w : world) : world :=
  with_audited (audited w ++ [{| in_headers := Some (headers req); in_route := route; in_method := method; in_status := status;
    in_key := Some audit_key; in_reason := Some reason; in_details := details |}]) w.

(** [obs]; a key without an id is only counted in the metrics. *)
Definition obs (status : Z) (w : world) : world :=
  with_observed (observed w ++ [{| o_method := method; o_status := status; o_class := classifyRoute route;
    o_key := KeyStore.id key |}]) w.

(** [req.headers.get("x-request-id") || undefined]. *)
Definition echo_request_id (h : gmap string string) : gmap string string :=
  let i := default "" (headers req !! "x-request-id") in if truthy i then <["x-request-id" := i]> h else h.

(** An early return: the audit line, the observation, the response. *)
Definition refuse {R} (status : Z) (code reason : string) (details : option json) (h : gmap string string) : stage R := fun w =>
  (Err (Returned {| r_status := status; r_code := Some code; r_body := ""; r_headers := echo_request_id h |}),
   obs status (record status reason details w)).

Definition check_freeze : stage unit := fun w =>
  let '(s, st) := getFreezeState (clk 0%nat) (freeze w) in
  let w := with_freeze st w in
  if frozen s then
    refuse 503 "workspace_frozen" "workspace_frozen"
      (Some (JObj [("frozen_at", jopt jiso (frozen_at s)); ("frozen_by", jopt JStr (frozen_by s))]))
      {[ "retry-after" := "0"; "x-workspace-frozen" := "1" ]} w
  else (Ok tt, w).

Definition deny_text (r : deny_reason) : string := match r with no_ip => "no-ip" | not_matched => "not-matched" end.

Definition check_network : stage unit := fun w =>
  let '(d, c) := decideAllowed (headers req) (NetworkPolicy.getPolicy (network w)) (cidrCache w) in
  let w := with_cidrCache c w in
  match d with
  | NetworkPolicy.Allowed _ => (Ok tt, w)
  | NetworkPolicy.Denied why ip =>
      match getActive (clk 1%nat) (break_glass w) with
      | Some bg =>
          let w := with_break_glass (recordUse (clk 2%nat) (break_glass w)) w in
          (Ok tt, record 200 "network_policy_break_glass_bypass"
             (Some (JObj [("grant_id", JStr (BreakGlass.id bg)); ("expires_at", jiso (BreakGlass.expires_at bg));
                          ("granted_by", jopt JStr (granted_by bg)); ("blocked_ip", JStr ip);
                          ("block_reason", JStr (deny_text why))])) w)
      | None => refuse 403 "network_policy_block" ("network_policy_block:" +:+ deny_text why) None ∅ w
      end
  end.

Definition enforceKeyIpAllowlist : stage unit := fun w =>
  match decideKeyIpAllowed (headers req) (ip_allowlist key) with
  | Ok _ => (Ok tt, w)
  | Err reason => refuse 403 "ip_not_allowed" reason None ∅ w
  end.

Definition check_route : stage unit := fun w =>
  if isRouteAllowed route (route_allowlist key) then (Ok tt, w)
  else refuse 403 "route_not_allowed" "route_not_allowed"
         (Some (JObj [("allowlist_size", JNum (int (len (route_allowlist key))))])) ∅ w.

Definition applyRotationHeaders (h : gmap string string) (ev : RotationEvaluation) : gmap string string :=
  let h := <["x-key-age-days" := pretty (age_days ev)]> h in
  if bool_decide (KeyLifecycle.status ev = disabled) then h else
  let h := match rotate_by ev with Some t => <["x-key-rotate-by" := toISOString t]> h | None => h end in
  let h := match days_until_rotation ev with Some n => <["x-key-rotation-days-remaining" := pretty n]> h | None => h end in
  match KeyLifecycle.status ev with
  | warning => <["x-key-rotation-status" := "warning"]> h
  | stale => <["x-key-rotation-status" := "stale"]> h
  | _ => h
  end.

(** [evaluateKeyRotation] can throw. *)
Definition enforceRotationPolicy : stage RotationEvaluation := fun w =>
  let policy := getRotationPolicy (env_rotation env) (rotation w) in
  match decideRotationBlock (KeyStore.created_at key) policy (clk 3%nat) with
  | Err _ => (Err Threw, w)
  | Ok d =>
      if KeyLifecycle.blocked d then
        refuse 403 "key_rotation_required" "key_rotation_required"
          (Some (JObj [("age_days", JNum (int (age_days (evaluation d)))); ("max_age_days", JNum (int (max_age_days policy)))]))
          (applyRotationHeaders ∅ (evaluation d)) w
      else (Ok (evaluation d), w)
  end.

Definition source_name (s : region_source) : string :=
  match s with explicit => "explicit" | country => "country" | unknown => "unknown" end.

Definition applyResidencyHeaders (h : gmap string string) (d : ResidencyDecision) : gmap string string :=
  if bool_decide (d_mode d = off) then h else
  let h := <["x-data-region" := region_name (policy_region d)]> h in
  let h := <["x-data-region-resolved" := region_name (request_region d)]> h in
  let h := <["x-data-region-source" := source_name (request_source d)]> h in
  match Residency.status d with
  | Residency.ok => h
  | warn => <["x-data-region-status" := "warn"]> h
  | Residency.blocked => <["x-data-region-status" := "blocked"]> h
  end.

Definition residency_details (d : ResidencyDecision) : json :=
  JObj [("policy_region", JStr (region_name (policy_region d))); ("request_region", JStr (region_name (request_region d)));
        ("source", JStr (source_name (request_source d)))].

Definition enforceDataResidency : stage ResidencyDecision := fun w =>
  let d := decideResidency (headers req) (getResidencyPolicy (env_residency env) (residency w)) method in
  if Residency.allowed d then
    (Ok d, match Residency.status d with
           | warn => record 200 "residency_warn" (Some (residency_details d)) w
           | _ => w
           end)
  else refuse 451 "residency_violation" "residency_violation" (Some (residency_details d)) (applyResidencyHeaders ∅ d) w.

Definition reserve_quota : stage Monthly.QuotaDecision := fun w =>
  let '(q, s) := Monthly.reserve (env_monthly env) (KeyStore.id key) (clk 4%nat) (quota w) in
  let w := with_quota s w in
  if Monthly.allowed q then (Ok q, w)
  else refuse 429 "monthly_quota_exceeded" "monthly_quota_exceeded" None (Monthly.applyQuotaHeaders ∅ q) w.

Definition consume_rate (q : Monthly.QuotaDecision) : stage RateLimit.RateDecision := fun w =>
  let '(d, s) := RateLimit.consume (env_per_minute env) (KeyStore.id key) (clk 5%nat) (rate w) in
  let w := with_rate s w in
  if RateLimit.allowed d then (Ok d, w)
  else refuse 429 "rate_limited" "rate_limited" None (Monthly.applyQuotaHeaders (RateLimit.applyRateHeaders ∅ d) q) w.

Definition acquire_slot (q : Monthly.QuotaDecision) (d : RateLimit.RateDecision) : stage AcquireDecision := fun w =>
  let '(p, st) := getConcurrencyPolicy (clk 6%nat) (concurrency w) in
  let '(a, n) := tryAcquire p (inFlight w) in
  let w := with_inFlight n (with_concurrency st w) in
  match a with
  | Concurrency.Allowed _ _ => (Ok a, w)
  | Concurrency.Refused n l _ =>
      refuse 429 "workspace_concurrency_exceeded" "workspace_concurrency_exceeded"
        (Some (JObj [("limit", JNum (int l)); ("in_flight", JNum (int n))]))
        (Monthly.applyQuotaHeaders (RateLimit.applyRateHeaders (applyConcurrencyHeaders ∅ a) d) q) w
  end.

(** The slot is released whether the handler returns or throws. *)
Definition run_handler : stage response := fun w =>
  let '(o, a) := handler (app w) in
  let w := with_inFlight (release (inFlight w)) (with_app a w) in
  match o with Some r => (Ok r, w) | None => (Err Threw, w) end.

Definition finish (res : response) (a : AcquireDecision) (d : RateLimit.RateDecision) (q : Monthly.QuotaDecision)
    (ev : RotationEvaluation) (rd : ResidencyDecision) : stage response := fun w =>
  let h := applyConcurrencyHeaders (r_headers res) a in
  let h := RateLimit.applyRateHeaders h d in
  let h := Monthly.applyQuotaHeaders h q in
  let h := applyRotationHeaders h ev in
  let h := applyResidencyHeaders h rd in
  let h := if truthy (default "" (h !! "x-request-id")) then h else echo_request_id h in
  (Ok {| r_status := r_status res; r_code := r_code res; r_body := r_body res; r_headers := h |}, obs (r_status res) w).

Definition guarded_request : stage response :=
  _ ↢ check_freeze;
  _ ↢ check_network;
  _ ↢ enforceKeyIpAllowlist;
  _ ↢ check_route;
  ev ↢ enforceRotationPolicy;
  rd ↢ enforceDataResidency;
  q ↢ reserve_quota;
  d ↢ consume_rate q;
  a ↢ acquire_slot q d;
  res ↢ run_handler;
  finish res a d q ev rd.

(** The [catch] observes a 500 and rethrows; the [finally] lowers the gauge. *)
Definition enforceRateLimit (w : world) : outcome * world :=
  let w := with_reqInFlight (reqInFlight w + 1) w in
  let '(r, w) := guarded_request w in
  let '(o, w) := match r with
                 | Ok res => (Returned res, w)
                 | Err (Returned res) => (Returned res, w)
                 | Err Threw => (Threw, obs 500 w)
                 end in
  (o, with_reqInFlight (Z.max 0 (reqInFlight w - 1)) w).

(** ** The contract

    What each gate decides in the world the request finds, and the verdict: the
    first gate that does not let it through. *)

Inductive refusal := Refused_with (status : Z) (code : string) | Failed.

Definition gate_freeze (w : world) : option refusal :=
  if frozen (fst (getFreezeState (clk 0%nat) (freeze w))) then Some (Refused_with 503 "workspace_frozen") else None.

Definition gate_network (w : world) : option refusal :=
  if NetworkPolicy.allowed (fst (decideAllowed (headers req) (NetworkPolicy.getPolicy (network w)) (cidrCache w))) then None
  else match getActive (clk 1%nat) (break_glass w) with Some _ => None | None => Some (Refused_with 403 "network_policy_block") end.

Definition gate_key_ip (w : world) : option refusal :=
  if is_ok (decideKeyIpAllowed (headers req) (ip_allowlist key)) then None else Some (Refused_with 403 "ip_not_allowed").

Definition gate_route (w : world) : option refusal :=
  if isRouteAllowed route (route_allowlist key) then None else Some (Refused_with 403 "route_not_allowed").

Definition gate_rotation (w : world) : option refusal :=
  match decideRotationBlock (KeyStore.created_at key) (getRotationPolicy (env_rotation env) (rotation w)) (clk 3%nat) with
  | Err _ => Some Failed
  | Ok d => if KeyLifecycle.blocked d then Some (Refused_with 403 "key_rotation_required") else None
  end.

Definition gate_residency (w : world) : option refusal :=
  if Residency.allowed (decideResidency (headers req) (getResidencyPolicy (env_residency env) (residency w)) method)
  then None else Some (Refused_with 451 "residency_violation").

Definition gate_quota (w : world) : option refusal :=
  if Monthly.allowed (fst (Monthly.reserve (env_monthly env) (KeyStore.id key) (clk 4%nat) (quota w)))
  then None else Some (Refused_with 429 "monthly_quota_exceeded").

Definition gate_rate (w : world) : option refusal :=
  if RateLimit.allowed (fst (RateLimit.consume (env_per_minute env) (KeyStore.id key) (clk 5%nat) (rate w)))
  then None else Some (Refused_with 429 "rate_limited").

Definition gate_slot (w : world) : option refusal :=
  if Concurrency.allowed (fst (tryAcquire (fst (getConcurrencyPolicy (clk 6%nat) (concurrency w))) (inFlight w)))
  then None else Some (Refused_with 429 "workspace_concurrency_exceeded").

Fixpoint first_refusal (gs : list (world -> option refusal)) (w : world) : option refusal :=
  match gs with
  | [] => None
  | g :: r => match g w with Some f => Some f | None => first_refusal r w end
  end.

Definition gates_of_key := [gate_key_ip; gate_route; gate_rotation].
Definition verdict (w : world) : option refusal :=
  first_refusal ([gate_freeze; gate_network] ++ gates_of_key ++ [gate_residency; gate_quota; gate_rate; gate_slot]) w.

(** What the gates leave alone: the handler's state, the counters and the metrics. *)
Definition core (w : world) := (app w, inFlight w, reqInFlight w, observed w).

(** An audit line about this request, with the given status. *)
Definition audit_line (s : Z) (a : RecordInput) : Prop :=
  in_status a = s /\ in_route a = route /\ in_method a = method /\ in_key a = Some audit_key.

(** The world after the status [s] was observed once. *)
Definition observed_once (s : Z) (w w' : world) : Prop :=
  exists x, observed w' = observed w ++ [x] /\ o_status x = s /\ o_key x = KeyStore.id key.

Definition refused (f : refusal) (o : outcome) (w w' : world) : Prop :=
  app w' = app w /\ inFlight w' = inFlight w /\ reqInFlight w' = reqInFlight w /\
  match f with
  | Refused_with s c =>
      (exists r, o = Returned r /\ r_status r = s /\ r_code r = Some c) /\
      (exists a, last (audited w') = Some a /\ audit_line s a) /\ observed_once s w w'
  | Failed => o = Threw /\ observed w' = observed w
  end.

Definition ends {R} (f : refusal) (s : stage R) (w : world) : Prop :=
  exists o w', s w = (Err o, w') /\ refused f o w w'.

(** The handler ran on the state the request found. *)
Definition completes (s : stage response) (w : world) : Prop :=
  exists w', app w' = snd (handler (app w)) /\ inFlight w' = inFlight w /\ reqInFlight w' = reqInFlight w /\
  match fst (handler (app w)) with
  | Some res => exists r, s w = (Ok r, w') /\ r_status r = r_status res /\ content r = content res /\
                          observed_once (r_status res) w w'
  | None => s w = (Err Threw, w') /\ observed w' = observed w
  end.

(** A stage implements a gate and leaves the later gates as they were. *)
Definition implements {R} (s : stage R) (g : world -> option refusal) (later : list (world -> option refusal)) (w : world) : Prop :=
  match g w with
  | Some f => ends f s w
  | None => exists x w', s w = (Ok x, w') /\ core w' = core w /\ first_refusal later w' = first_refusal later w
  end.

Definition follows (s : stage response) (gs : list (world -> option refusal)) (w : world) : Prop :=
  match first_refusal gs w with Some f => ends f s w | None => completes s w end.

Lemma core_inv w w' : core w' = core w ->
  app w' = app w /\ inFlight w' = inFlight w /\ reqInFlight w' = reqInFlight w /\ observed w' = observed w.
Proof. unfold core. by intros [= -> -> -> ->]. Qed.

Lemma follows_step {R} (s : stage R) (k : R -> stage response) g later w :
  implements s g later w ->
  (forall x w', core w' = core w -> follows (k x) later w') -> follows (and_then s k) (g :: later) w.
Proof.
  unfold implements, follows. intros Hs Hk. simpl. destruct (g w) as [f|].
  - destruct Hs as (o & w' & E & Hr). exists o, w'. split; [|done]. unfold and_then. by rewrite E.
  - destruct Hs as (x & w' & E & Hc & Hl). specialize (Hk x w' Hc). rewrite Hl in Hk.
    apply core_inv in Hc as (Ha & Hi & Hq & Ho).
    assert (Es : and_then s k w = k x w') by (unfold and_then; by rewrite E).
    destruct (first_refusal later w) as [f|].
    + destruct Hk as (o & w2 & E2 & Hr). exists o, w2. rewrite Es. split; [done|].
      unfold refused, observed_once in *. by rewrite Ha, Hi, Hq, Ho in Hr.
    + unfold completes, observed_once in Hk |- *. rewrite Ha, Hi, Hq, Ho in Hk. by rewrite Es.
Qed.

#[local] Arguments refuse : simpl never.

Lemma refuse_ends {R} s c reason d h w0 w :
  core w = core w0 -> exists o w', refuse (R := R) s c reason d h w = (Err o, w') /\ refused (Refused_with s c) o w0 w'.
Proof.
  intros (Ha & Hi & Hq & Ho)%core_inv. eexists _, _. split; [reflexivity|]. unfold refused. cbn.
  rewrite Ha, Hi, Hq. split_and!; try done.
  - by eexists.
  - eexists. rewrite last_snoc. by split_and!.
  - eexists. cbn. rewrite Ho. by split_and!.
Qed.

Lemma passes {R} later w (x : R) w' (r : result R outcome * world) :
  r = (Ok x, w') -> core w' = core w -> first_refusal later w' = first_refusal later w ->
  exists x w', r = (Ok x, w') /\ core w' = core w /\ first_refusal later w' = first_refusal later w.
Proof. intros ->. by exists x, w'. Qed.

Ltac stage_implements :=
  unfold implements, ends; cbv beta;
  repeat match goal with
  | |- context [let '(_, _) := ?e in _] => destruct e; cbn
  | |- context [if ?b then _ else _] => destruct b
  end; cbn;
  first [apply refuse_ends; done | eapply passes; [reflexivity|done|try done]].

Lemma check_freeze_implements later w :
  (forall st, first_refusal later (with_freeze st w) = first_refusal later w) -> implements check_freeze gate_freeze later w.
Proof. intros Hl. unfold check_freeze, gate_freeze. stage_implements. Qed.

Lemma check_network_implements later w :
  (forall c f a, first_refusal later (with_audited a (with_break_glass f (with_cidrCache c w))) = first_refusal later w) ->
  implements check_network gate_network later w.
Proof.
  intros Hl. unfold check_network, gate_network, implements, ends. cbv beta.
  destruct (decideAllowed _ _ _) as [[r|why ip] c] eqn:E; cbn.
  - eapply passes; [reflexivity|done|]. exact (Hl c (break_glass w) (audited w)).
  - destruct (getActive _ _) as [bg|]; [|by apply refuse_ends]. eapply passes; [reflexivity|done|apply Hl].
Qed.

Lemma key_ip_implements later w : implements enforceKeyIpAllowlist gate_key_ip later w.
Proof.
  unfold enforceKeyIpAllowlist, gate_key_ip, implements, ends. cbv beta.
  destruct (decideKeyIpAllowed _ _); cbn; [by eapply passes|by apply refuse_ends].
Qed.

Lemma check_route_implements later w : implements check_route gate_route later w.
Proof. unfold check_route, gate_route. stage_implements. Qed.

Lemma rotation_implements later w : implements enforceRotationPolicy gate_rotation later w.
Proof.
  unfold enforceRotationPolicy, gate_rotation, implements, ends. cbv beta.
  destruct (decideRotationBlock _ _ _) as [d|]; cbn; [|by eexists _, _].
  destruct (KeyLifecycle.blocked d); [by apply refuse_ends|by eapply passes].
Qed.

Lemma residency_implements later w :
  (forall a, first_refusal later (with_audited a w) = first_refusal later w) -> implements enforceDataResidency gate_residency later w.
Proof.
  intros Hl. unfold enforceDataResidency, gate_residency, implements, ends. cbv beta.
  set (d := decideResidency _ _ _). destruct (Residency.allowed d); [|by apply refuse_ends].
  destruct (Residency.status d); (eapply passes; [reflexivity|done|done || apply Hl]).
Qed.

Lemma quota_implements later w :
  (forall s, first_refusal later (with_quota s w) = first_refusal later w) -> implements reserve_quota gate_quota later w.
Proof. intros Hl. unfold reserve_quota, gate_quota. stage_implements. Qed.

Lemma rate_implements q later w :
  (forall s, first_refusal later (with_rate s w) = first_refusal later w) -> implements (consume_rate q) gate_rate later w.
Proof. intros Hl. unfold consume_rate, gate_rate. stage_implements. Qed.

(** The handler, run in a world that holds one more slot. *)
Lemma handler_completes q d ev rd s w w1 :
  0 <= inFlight w -> app w1 = app w -> inFlight w1 = inFlight w + 1 -> reqInFlight w1 = reqInFlight w -> observed w1 = observed w ->
  completes (fun _ => and_then run_handler (fun res => finish res s d q ev rd) w1) w.
Proof.
  intros Hw Ha Hi Hq Ho. exists (snd (and_then run_handler (fun res => finish res s d q ev rd) w1)).
  unfold and_then, run_handler, finish. rewrite Ha. destruct (handler (app w)) as [[res|] a]; cbn; rewrite Hi, Hq;
  (split; [done|split; [unfold release; lia|split; [done|]]]); [|by rewrite Ho].
  eexists. split; [reflexivity|]. split_and!; try done. unfold observed_once. cbn. rewrite Ho. by eexists.
Qed.

(** The last gate is followed by the handler. *)
Lemma slot_follows q d ev rd w :
  0 <= inFlight w ->
  follows (and_then (acquire_slot q d) (fun a => and_then run_handler (fun res => finish res a d q ev rd))) [gate_slot] w.
Proof.
  intros Hw. unfold follows, first_refusal, gate_slot. destruct (getConcurrencyPolicy (clk 6%nat) (concurrency w)) as [p st] eqn:Ep.
  destruct (tryAcquire p (inFlight w)) as [a n] eqn:Ea. cbn [fst]. rewrite Ea. cbn [fst].
  set (s := and_then _ _).
  assert (Es : forall x, a = Concurrency.Allowed (inFlight w + 1) x -> n = inFlight w + 1 ->
    s w = and_then run_handler (fun res => finish res a d q ev rd) (with_inFlight n (with_concurrency st w))).
  { intros x -> ->. unfold s, and_then at 1, acquire_slot. by rewrite Ep, Ea. }
  unfold tryAcquire in Ea. destruct (limit p) as [l|] eqn:El; [destruct (inFlight w >=? l) eqn:Eg|]; injection Ea as <- <-; cbn [Concurrency.allowed].
  - unfold ends, s, and_then at 1, acquire_slot. rewrite Ep. unfold tryAcquire. rewrite El, Eg.
    edestruct (refuse_ends (R := AcquireDecision)) as (o & w' & E & Hr); [|exists o, w'; rewrite E; split; [done|exact Hr]].
    done.
  - pose proof (handler_completes q d ev rd (Concurrency.Allowed (inFlight w + 1) (Some l)) w
      (with_inFlight (inFlight w + 1) (with_concurrency st w)) Hw) as Hc.
    unfold completes in *. erewrite Es by done. by apply Hc.
  - pose proof (handler_completes q d ev rd (Concurrency.Allowed (inFlight w + 1) None) w
      (with_inFlight (inFlight w + 1) (with_concurrency st w)) Hw) as Hc.
    unfold completes in *. erewrite Es by done. by apply Hc.
Qed.

Lemma guarded_request_follows w : 0 <= inFlight w ->
  follows guarded_request ([gate_freeze; gate_network] ++ gates_of_key ++ [gate_residency; gate_quota; gate_rate; gate_slot]) w.
Proof.
  intros Hw. unfold guarded_request. cbn [app gates_of_key Datatypes.app].
  apply follows_step; [by apply check_freeze_implements|intros _ w1 (_ & H1 & _)%core_inv].
  apply follows_step; [by apply check_network_implements|intros _ w2 (_ & H2 & _)%core_inv].
  apply follows_step; [apply key_ip_implements|intros _ w3 (_ & H3 & _)%core_inv].
  apply follows_step; [apply check_route_implements|intros _ w4 (_ & H4 & _)%core_inv].
  apply follows_step; [apply rotation_implements|intros ev w5 (_ & H5 & _)%core_inv].
  apply follows_step; [by apply residency_implements|intros rd w6 (_ & H6 & _)%core_inv].
  apply follows_step; [by apply quota_implements|intros q w7 (_ & H7 & _)%core_inv].
  apply follows_step; [by apply rate_implements|intros d w8 (_ & H8 & _)%core_inv].
  apply slot_follows. lia.
Qed.

(** C1. The guard lets the handler run exactly when every gate passes, and
    otherwise answers for the first gate that refuses, in the order freeze,
    network policy, key address, key route, rotation, residency, monthly quota,
    rate limit, concurrency: with its status and code, an audit line of that
    status about this request, and the handler's state untouched. *)
Theorem guard_obeys_first_gate w o w' :
  0 <= inFlight w -> enforceRateLimit w = (o, w') ->
  match verdict w with
  | Some (Refused_with s c) =>
      app w' = app w /\ (exists r, o = Returned r /\ r_status r = s /\ r_code r = Some c) /\
      exists a, last (audited w') = Some a /\ audit_line s a
  | Some Failed => app w' = app w /\ o = Threw
  | None =>
      app w' = snd (handler (app w)) /\
      match fst (handler (app w)) with
      | Some res => exists r, o = Returned r /\ r_status r = r_status res /\ content r = content res
      | None => o = Threw
      end
  end.
Proof.
  intros Hw. set (w0 := with_reqInFlight (reqInFlight w + 1) w).
  pose proof (guarded_request_follows w0 Hw) as Hf. unfold follows in Hf.
  change (first_refusal _ w0) with (verdict w) in Hf. unfold enforceRateLimit. fold w0.
  destruct (verdict w) as [[s c|]|].
  - destruct Hf as (o' & w1 & E & Ha & _ & _ & (r & -> & Hr) & Hl & _). rewrite E. intros [= <- <-].
    split; [done|]. split; [by exists r|done].
  - destruct Hf as (o' & w1 & E & Ha & _ & _ & -> & _). rewrite E. by intros [= <- <-].
  - destruct Hf as (w1 & Ha & _ & _ & Hh). change (app w0) with (app w) in *. destruct (fst (handler (app w))) as [res|].
    + destruct Hh as (r & E & Hs & Hc & _). rewrite E. intros [= <- <-]. split; [done|by exists r].
    + destruct Hh as [E _]. rewrite E. by intros [= <- <-].
Qed.

(** C19. The guard keeps its books: whatever the outcome, a request leaves the
    slot counter and the gauge of requests in flight as it found them, and is
    observed exactly once, with the status it was answered with, or 500 if the
    handler or the guard throws. *)
Theorem guard_keeps_books w o w' :
  0 <= inFlight w -> 0 <= reqInFlight w -> enforceRateLimit w = (o, w') ->
  inFlight w' = inFlight w /\ reqInFlight w' = reqInFlight w /\
  observed_once (match o with Returned r => r_status r | Threw => 500 end) w w'.
Proof.
  intros Hw Hq. set (w0 := with_reqInFlight (reqInFlight w + 1) w).
  pose proof (guarded_request_follows w0 Hw) as Hf. unfold follows in Hf.
  unfold enforceRateLimit. fold w0. destruct (first_refusal _ w0) as [[s c|]|].
  - destruct Hf as (o' & w1 & E & _ & Hi & Hg & (r & -> & Hr & _) & _ & Hx). rewrite E. intros [= <- <-]. cbn.
    rewrite Hg, Hr. split_and!; [done|cbn; lia|done].
  - destruct Hf as (o' & w1 & E & _ & Hi & Hg & -> & Ho). rewrite E. intros [= <- <-]. cbn.
    rewrite Hg. split_and!; [done|cbn; lia|]. unfold observed_once. cbn. rewrite Ho. by eexists.
  - destruct Hf as (w1 & _ & Hi & Hg & Hh). destruct (fst (handler (app w0))) as [res|].
    + destruct Hh as (r & E & Hs & _ & Hx). rewrite E. intros [= <- <-]. cbn. rewrite Hg, Hs. split_and!; [done|cbn; lia|done].
    + destruct Hh as [E Ho]. rewrite E. intros [= <- <-]. cbn. rewrite Hg. split_and!; [done|cbn; lia|].
      unfold observed_once. cbn. rewrite Ho. by eexists.
Qed.

(** Under a freeze nothing but the freeze is consulted: the answer is 503,
    and the request changes no policy, counter, grant or application state, only
    the audit and metrics logs and the cached copy of the switch. *)
Theorem frozen_request_touches_nothing w o w' :
  0 <= reqInFlight w -> frozen (fst (getFreezeState (clk 0%nat) (freeze w))) = true -> enforceRateLimit w = (o, w') ->
  (exists r, o = Returned r /\ r_status r = 503) /\
  w' = with_freeze (snd (getFreezeState (clk 0%nat) (freeze w))) (with_observed (observed w') (with_audited (audited w') w)).
Proof.
  intros Hq Hf. unfold enforceRateLimit, guarded_request, and_then at 1, check_freeze. cbn.
  destruct (getFreezeState _ _) as [s st]. cbn in Hf |- *. rewrite Hf. unfold refuse. cbn. intros [= <- <-]. cbn.
  split; [by eexists|]. unfold with_reqInFlight. cbn. by replace (Z.max 0 (reqInFlight w + 1 - 1)) with (reqInFlight w) by lia.
Qed.

End Request.
End Guard.

Arguments world A env : clear implicits.
Arguments World {A env}.
Arguments freeze {A env} w.
Arguments network {A env} w.
Arguments cidrCache {A env} w.
Arguments break_glass {A env} w.
Arguments rotation {A env} w.
Arguments residency {A env} w.
Arguments quota {A env} w.
Arguments rate {A env} w.
Arguments concurrency {A env} w.
Arguments inFlight {A env} w.
Arguments reqInFlight {A env} w.
Arguments audited {A env} w.
Arguments observed {A env} w.
Arguments app {A env} w.
Arguments with_freeze {A env} x w.
Arguments observed_once {A env} key s w w'.

(** ** Examples *)

Section Demo.

Definition demo_env : environment :=
  {| env_rotation := {| SIGNALCLAW_MAX_KEY_AGE_DAYS := None; SIGNALCLAW_KEY_ROTATION_WARN_DAYS := None |};
     env_residency := {| SIGNALCLAW_DATA_REGION := ""; SIGNALCLAW_RESIDENCY_MODE := "" |};
     env_per_minute := 1; env_monthly := 100 |}.

Definition demo_key : StoredKey := new_key (fun s => s) "k1" "sc_live_one" "ci" [KeyStore.read] 1000 None.
Definition demo_req : request := {| headers := {[ "x-request-id" := "r1" ]}; req_method := "GET" |}.
Definition demo_clock : clock := fun i => 1767225600000 + Z.of_nat i.

(** The handler counts its runs. *)
Definition demo_handler (n : Z) : option response * Z :=
  (Some {| r_status := 200; r_code := None; r_body := ""; r_headers := ∅ |}, n + 1).

Definition demo_world : world Z demo_env :=
  World (boot None) None None None None None Monthly.empty RateLimit.empty (boot None) 0 0 [] [] 0.

Definition demo_guard (w : world Z demo_env) : outcome * world Z demo_env :=
  enforceRateLimit demo_env demo_clock demo_req demo_key "/api/v1/runs" demo_handler w.

(** One request a minute: the first one runs, the second one is refused. *)
Definition demo_second : world Z demo_env := snd (demo_guard demo_world).

Lemma guard_obeys_first_gate_witness :
  app demo_second = 1 /\
  let '(o, w') := demo_guard demo_second in
  app w' = 1 /\ exists r, o = Returned r /\ r_status r = 429 /\ r_code r = Some "rate_limited".
Proof.
  split; [vm_compute; reflexivity|]. destruct (demo_guard demo_second) as [o w'] eqn:E.
  pose proof (guard_obeys_first_gate demo_env demo_clock demo_req demo_key "/api/v1/runs" demo_handler demo_second o w'
    ltac:(vm_compute; discriminate) E) as Hg.
  assert (Hv : verdict demo_env demo_clock demo_req demo_key "/api/v1/runs" demo_second = Some (Refused_with 429 "rate_limited"))
    by (vm_compute; reflexivity).
  rewrite Hv in Hg. destruct Hg as (Ha & Hr & _). split; [|exact Hr]. rewrite Ha. vm_compute. reflexivity.
Defined.

(** The monthly quota is reserved before the rate limit is consulted: a request
    that the rate limit refuses has used up quota. *)
Lemma refused_request_uses_quota :
  verdict demo_env demo_clock demo_req demo_key "/api/v1/runs" demo_second = Some (Refused_with 429 "rate_limited") /\
  snd (Monthly.getUsage "k1" 1767225600000 (quota demo_second)) = 1 /\
  snd (Monthly.getUsage "k1" 1767225600000 (quota (snd (demo_guard demo_second)))) = 2.
Proof. vm_compute. auto. Qed.

Lemma guard_keeps_books_witness :
  let '(o, w') := demo_guard demo_second in
  inFlight w' = 0 /\ reqInFlight w' = 0 /\
  observed_once demo_key (match o with Returned r => r_status r | Threw => 500 end) demo_second w'.
Proof.
  destruct (demo_guard demo_second) as [o w'] eqn:E.
  destruct (guard_keeps_books demo_env demo_clock demo_req demo_key "/api/v1/runs" demo_handler demo_second o w'
    ltac:(vm_compute; discriminate) ltac:(vm_compute; discriminate) E) as (Hi & Hq & Ho).
  split; [|split; [|exact Ho]]; [rewrite Hi|rewrite Hq]; vm_compute; reflexivity.
Defined.

Definition demo_frozen : world Z demo_env :=
  with_freeze (snd (freezeWorkspace demo_clock "incident" (Some "ops") (boot None))) demo_second.

Lemma frozen_request_touches_nothing_witness :
  let '(o, w') := demo_guard demo_frozen in
  (exists r, o = Returned r /\ r_status r = 503) /\ app w' = 1.
Proof.
  destruct (demo_guard demo_frozen) as [o w'] eqn:E.
  destruct (frozen_request_touches_nothing demo_env demo_clock demo_req demo_key "/api/v1/runs" demo_handler demo_frozen o w'
    ltac:(vm_compute; discriminate) ltac:(vm_compute; reflexivity) E) as [Hr ->].
  split; [exact Hr|].
  assert (Happ : forall f ob a (w : world Z demo_env),
    app (with_freeze f (with_observed demo_env ob (with_audited demo_env a w))) = app w) by reflexivity.
  rewrite Happ. vm_compute. reflexivity.
Defined.

End Demo.
