(* ===== verification/Idempotency.v ===== *)
(** Safe retries of mutating requests: [web/lib/idempotencyStore.ts] and the
    wrapper [withIdempotency] of [web/lib/idempotency.ts].

    The store works on its in-memory copy; writing it to disk is best effort and
    not modelled. SHA-256 and [JSON.parse] are parameters. A request is split
    where the handler is awaited, so that overlapping requests can be stated. *)
From S2P Require Import Prelude JsNum JsDate IsoTime Json Store LegalHold Retention AuditLog.

Definition TTL_MS : Z := 86400000.
Definition MAX_RECORDS : Z := 2000.
Definition MAX_HEADER_LEN : Z := 255.

Record IdempotencyRecord := {
  key_id : string;
  header : string;
  fingerprint_ : string;
  status : Z;
  body : string;
  content_type : string;
  cached_headers : list (string * string);
  created_at : Z;
  expires_at : Z;
}.

Abbreviation records := (list IdempotencyRecord).

(** ** The store *)

Definition live (now : Z) (r : IdempotencyRecord) : Prop := now < expires_at r.
#[export] Instance live_dec now r : Decision (live now r).
Proof. unfold live. apply _. Defined.

Definition gc (now : Z) (rs : records) : records :=
  let l := filter (live now) rs in
  if len l <=? MAX_RECORDS then l
  else drop (length l - Z.to_nat MAX_RECORDS) (js_sort (by_asc created_at) l).

Inductive HeaderCode := missing | empty | too_long | bad_chars.

(** [HEADER_RE]; the length is checked before. *)
Definition header_char (c : Ascii.ascii) : bool :=
  let n := code c in
  ((65 <=? n) && (n <=? 90)) || ((97 <=? n) && (n <=? 122)) || ((48 <=? n) && (n <=? 57)) ||
  existsb (Ascii.eqb c) ["."%char; "_"%char; ":"%char; "-"%char; "/"%char; "+"%char; "="%char].

Definition validateHeader (v : option string) : result string HeaderCode :=
  match v with
  | None => Err missing
  | Some v =>
      let s := trim v in
      if str_len s =? 0 then Err empty
      else if str_len s >? MAX_HEADER_LEN then Err too_long
      else if negb (str_forall header_char s) then Err bad_chars
      else Ok s
  end.

Definition same_slot (k h : string) (r : IdempotencyRecord) : Prop := key_id r = k /\ header r = h.
#[export] Instance same_slot_dec k h r : Decision (same_slot k h r).
Proof. unfold same_slot. apply _. Defined.

Inductive LookupResult := Miss | Hit (record : IdempotencyRecord) | Conflict (record : IdempotencyRecord).

(** The collected list is written back when it is shorter. *)
Definition lookup (keyId h fp : string) (now : Z) (rs : records) : LookupResult * records :=
  let l := gc now rs in
  let rs' := if negb (len l =? len rs) then l else rs in
  (match list_find (same_slot keyId h) l with
   | None => Miss
   | Some (_, r) => if negb (String.eqb (fingerprint_ r) fp) then Conflict r else Hit r
   end, rs').

Definition store (rec : IdempotencyRecord) (now : Z) (rs : records) : records :=
  filter (fun r => ~ same_slot (key_id rec) (header rec) r) (gc now rs) ++ [rec].

Definition listForKey (keyId : string) (limit : nat) (now : Z) (rs : records) : records :=
  take limit (js_sort (by_desc created_at) (filter (fun r => key_id r = keyId) (gc now rs))).

Definition listAll (limit : nat) (now : Z) (rs : records) : records :=
  take limit (js_sort (by_desc created_at) (gc now rs)).

(** ** The wrapper *)

Record request := { req_headers : gmap string string; req_method : string; raw : string }.

(** The body is the text of the response; [r_error] the code of an error body. *)
Record response := { r_status : Z; r_body : string; r_error : option string; r_headers : gmap string string }.

Section Wrapper.
Variable sha256 : string -> string.
(** [JSON.parse], [None] when it throws. *)
Variable json_parse : string -> option json.
Context {A : Type}.

Definition newline : string := String (chr 10) "".

Definition fingerprint (method route body : string) : string :=
  sha256 (to_upper method +:+ newline +:+ route +:+ newline +:+ body).

Record state := { cache : records; audited : list RecordInput; app : A }.

Definition with_cache (rs : records) (w : state) : state := {| cache := rs; audited := audited w; app := app w |}.
Definition with_app (a : A) (w : state) : state := {| cache := cache w; audited := audited w; app := a |}.

Section Request.
Context (req : request) (key : AuditKey) (route : string).
Context (handler : option json -> A -> option response * A).

Definition record (s : Z) (reason : string) (details : option json) (w : state) : state :=
  {| cache := cache w; app := app w;
     audited := audited w ++ [{| in_headers := Some (req_headers req); in_route := route; in_method := req_method req;
       in_status := s; in_key := Some key; in_reason := Some reason; in_details := details |}] |}.

Definition code_name (c : HeaderCode) : string :=
  match c with missing => "missing" | empty => "empty" | too_long => "too_long" | bad_chars => "bad_chars" end.

Definition err (s : Z) (code : string) : response := {| r_status := s; r_body := ""; r_error := Some code; r_headers := ∅ |}.

Definition set_header (k v : string) (r : response) : response :=
  {| r_status := r_status r; r_body := r_body r; r_error := r_error r; r_headers := <[k := v]> (r_headers r) |}.

Definition echo_request_id (r : response) : response :=
  let i := default "" (req_headers req !! "x-request-id") in if truthy i then set_header "x-request-id" i r else r.

(** What happens before the handler: an answer, or the body to run it on and the
    slot to store the response under. *)
Inductive start := Answer (r : response) | Run (body : option json) (slot : option (string * string)).

Definition replay (v : string) (rec : IdempotencyRecord) : response :=
  let r := {| r_status := status rec; r_body := body rec; r_error := None;
              r_headers := fold_left (fun h p => <[fst p := snd p]> h) (cached_headers rec) {[ "content-type" := content_type rec ]} |} in
  echo_request_id (set_header "idempotency-key" v (set_header "idempotent-replayed" "true" r)).

Definition slot_details (v : string) (rec : IdempotencyRecord) : json :=
  JObj [("idempotency_key", JStr v); ("first_seen_at", JStr (toISOString (created_at rec)))].

Definition begin (now : Z) (w : state) : start * state :=
  let go (b : option json) :=
    let headerRaw := default "" (req_headers req !! "idempotency-key") in
    if negb (truthy headerRaw) then (Run b None, w) else
    match validateHeader (Some headerRaw) with
    | Err c => (Answer (err 400 "bad_idempotency_key"), record 400 ("idempotency:bad_header:" +:+ code_name c) None w)
    | Ok v =>
        let fp := fingerprint (req_method req) route (raw req) in
        let '(d, rs) := lookup (k_id key) v fp now (cache w) in
        let w := with_cache rs w in
        match d with
        | Conflict rec =>
            (Answer (echo_request_id (set_header "idempotency-key" v (err 409 "idempotency_conflict"))),
             record 409 "idempotency:conflict" (Some (JObj [("idempotency_key", JStr v)])) w)
        | Hit rec => (Answer (replay v rec), record (status rec) "idempotency:replay" (Some (slot_details v rec)) w)
        | Miss => (Run b (Some (v, fp)), w)
        end
    end in
  if truthy (raw req) then
    match json_parse (raw req) with
    | None => (Answer (err 400 "bad_json"), w)
    | Some j => go (Some j)
    end
  else go None.

Definition safe_headers (h : gmap string string) : list (string * string) :=
  omap (fun k => v ← h !! k; if truthy v then Some (k, v) else None) ["location"; "etag"; "x-resource-id"].

(** The clock is read for [created_at] and by [store]. *)
Definition complete (clk : clock) (slot : option (string * string)) (res : response) (w : state) : response * state :=
  match slot with
  | None => (res, w)
  | Some (v, fp) =>
      let res := set_header "idempotent-replayed" "false" (set_header "idempotency-key" v res) in
      if (200 <=? r_status res) && (r_status res <? 300) then
        let ct := default "" (r_headers res !! "content-type") in
        let rec := {| key_id := k_id key; header := v; fingerprint_ := fp; status := r_status res; body := r_body res;
                      content_type := if truthy ct then ct else "application/json";
                      cached_headers := safe_headers (r_headers res); created_at := clk 0%nat; expires_at := clk 0%nat + TTL_MS |} in
        (res, with_cache (store rec (clk 1%nat) (cache w)) w)
      else (res, w)
  end.

(** [None] when the handler throws. *)
Definition withIdempotency (clk : clock) (w : state) : option response * state :=
  let '(s, w) := begin (clk 0%nat) w in
  match s with
  | Answer r => (Some r, w)
  | Run b slot =>
      let '(o, a) := handler b (app w) in
      let w := with_app a w in
      match o with
      | None => (None, w)
      | Some res => let '(r, w) := complete (fun i => clk (S i)) slot res w in (Some r, w)
      end
  end.
End Request.
End Wrapper.

(** ** Laws of the store *)

Lemma sort_insert_last {A} (f : A -> Z) (x : A) l :
  Forall (fun y => f y <= f x) l -> sort_insert (by_asc f) x l = l ++ [x].
Proof.
  induction 1 as [|y l Hy Hl IH]; [done|]. simpl. unfold by_asc at 1. rewrite (proj2 (Z.ltb_ge _ _)) by lia. by rewrite IH.
Qed.

Lemma js_sort_sorted_id {A} (f : A -> Z) l :
  StronglySorted (fun a b => f a <= f b) l -> js_sort (by_asc f) l = l.
Proof.
  induction l as [|x l IH] using rev_ind; [done|]. intros [Hx [Hl _]]%StronglySorted_app.
  unfold js_sort in *. rewrite fold_left_app. simpl. rewrite IH by done. apply sort_insert_last.
  apply Forall_forall. intros y Hy. apply Hx; [done|]. set_solver.
Qed.

Lemma filter_sorted {A} (R : relation A) (P : A -> Prop) `{!forall x, Decision (P x)} l :
  StronglySorted R l -> StronglySorted R (filter P l).
Proof.
  induction 1 as [|x l Hs IH Hx]; [constructor|]. rewrite filter_cons. case_decide; [|done].
  constructor; [done|]. apply Forall_forall. intros y [_ Hy]%list_elem_of_filter. by eapply Forall_forall in Hx.
Qed.

(** The records are in the order of their creation, so the collection drops the
    oldest ones from the front. *)
Definition chronological (rs : records) : Prop := StronglySorted (fun a b => created_at a <= created_at b) rs.

Lemma gc_drop now rs :
  chronological rs ->
  gc now rs = drop (length (filter (live now) rs) - Z.to_nat MAX_RECORDS) (filter (live now) rs).
Proof.
  intros Hc. unfold gc. destruct (_ <=? _) eqn:E; bool_to_prop; unfold len, MAX_RECORDS in E |- *.
  - replace (length (filter (live now) rs) - Z.to_nat 2000)%nat with 0%nat by lia. done.
  - rewrite js_sort_sorted_id; [done|]. by apply filter_sorted.
Qed.

Lemma gc_chronological now rs : chronological rs -> chronological (gc now rs).
Proof.
  intros Hc. rewrite gc_drop by done. unfold chronological.
  pose proof (filter_sorted _ (live now) rs Hc) as Hf. revert Hf. generalize (filter (live now) rs) as l.
  intros l. generalize (length l - Z.to_nat MAX_RECORDS)%nat as n. induction l as [|x l IH]; intros [|n] Hs; try done.
  simpl. inversion Hs; subst. by apply IH.
Qed.

Lemma gc_elem now rs r : chronological rs -> r ∈ gc now rs -> r ∈ rs.
Proof.
  intros Hc. rewrite gc_drop by done. intros Hr.
  assert (Hin : r ∈ filter (live now) rs) by (by eapply (subseteq_drop _ _ r)).
  by apply list_elem_of_filter in Hin as [_ ?].
Qed.

(** The store holds [rec] in its slot, with at most [n] newer records, none
    created after [t]. *)
Definition keeps (n : nat) (t : Z) (rec : IdempotencyRecord) (rs : records) : Prop :=
  chronological rs /\ Forall (fun r => created_at r <= t) rs /\
  exists a b, rs = a ++ rec :: b /\ (length b <= n)%nat /\
    Forall (fun r => ~ same_slot (key_id rec) (header rec) r) (a ++ b).

Lemma gc_keeps n t rec now rs :
  keeps n t rec rs -> now < expires_at rec -> Z.of_nat n < MAX_RECORDS -> keeps n t rec (gc now rs).
Proof.
  intros (Hc & Ht & a & b & -> & Hn & Hs) Hl Hmax.
  split; [by apply gc_chronological|]. split.
  { apply Forall_forall. intros r Hr. apply gc_elem in Hr; [|done]. by eapply Forall_forall in Ht. }
  rewrite gc_drop by done. rewrite filter_app, filter_cons_True by done.
  set (a' := filter (live now) a). set (b' := filter (live now) b).
  pose proof (length_filter (live now) b) as Hb. fold b' in Hb.
  exists (drop (length (a' ++ rec :: b') - Z.to_nat MAX_RECORDS) a'), b'. split_and!.
  - rewrite drop_app_le; [done|]. rewrite length_app. simpl. unfold MAX_RECORDS in *. lia.
  - lia.
  - apply Forall_app in Hs as [Ha Hb']. apply Forall_app. split; apply Forall_forall; intros r Hr.
    + assert (Hin : r ∈ a') by (by eapply (subseteq_drop _ _ r)). apply list_elem_of_filter in Hin as [_ Hin].
      by eapply Forall_forall in Ha.
    + apply list_elem_of_filter in Hr as [_ Hin]. by eapply Forall_forall in Hb'.
Qed.

Lemma store_keeps n t rec now r rs :
  keeps n t rec rs -> now < expires_at rec -> Z.of_nat n < MAX_RECORDS -> t <= created_at r ->
  ~ same_slot (key_id rec) (header rec) r -> keeps (S n) (created_at r) rec (store r now rs).
Proof.
  intros Hk Hl Hmax Ht Hr. destruct (gc_keeps n t rec now rs Hk Hl Hmax) as (Hc & Hf & a & b & E & Hn & Hs).
  unfold store. rewrite E in Hc, Hf |- *. split; [|split].
  - apply StronglySorted_app. split_and!; [|by apply filter_sorted|by repeat constructor].
    intros x y [_ Hx]%list_elem_of_filter ->%list_elem_of_singleton. eapply Forall_forall in Hf; [|exact Hx]. simpl in Hf. lia.
  - apply Forall_app. split; [|by repeat constructor]. apply Forall_forall. intros x [_ Hx]%list_elem_of_filter.
    eapply Forall_forall in Hf; [|exact Hx]. simpl in Hf. lia.
  - set (P := fun x => ~ same_slot (key_id r) (header r) x).
    assert (HP : P rec) by (unfold P, same_slot in *; intros [H1 H2]; apply Hr; by split).
    exists (filter P a), (filter P b ++ [r]). split_and!.
    + by rewrite filter_app, filter_cons_True, <- app_assoc.
    + rewrite length_app. pose proof (length_filter P b). simpl. lia.
    + apply Forall_app in Hs as [Ha Hb]. rewrite !Forall_app. split_and!; [| |by repeat constructor];
      apply Forall_forall; intros x [_ Hx]%list_elem_of_filter; [by eapply Forall_forall in Ha|by eapply Forall_forall in Hb].
Qed.

Lemma find_kept n t rec rs : keeps n t rec rs -> snd <$> list_find (same_slot (key_id rec) (header rec)) rs = Some rec.
Proof.
  intros (_ & _ & a & b & -> & _ & [Ha _]%Forall_app).
  replace (list_find _ (a ++ rec :: b)) with (Some (length a, rec)); [done|]. symmetry.
  apply list_find_Some. split_and!; [by apply list_lookup_middle|by split|].
  intros j y Hj Hlt. rewrite lookup_app_l in Hj by done. eapply Forall_forall in Ha; [exact Ha|]. by eapply list_elem_of_lookup_2.
Qed.

Lemma lookup_kept n t rec now fp rs :
  keeps n t rec rs -> now < expires_at rec -> Z.of_nat n < MAX_RECORDS ->
  fst (lookup (key_id rec) (header rec) fp now rs) =
    (if String.eqb (fingerprint_ rec) fp then Hit rec else Conflict rec) /\
  keeps n t rec (snd (lookup (key_id rec) (header rec) fp now rs)).
Proof.
  intros Hk Hl Hmax. pose proof (gc_keeps n t rec now rs Hk Hl Hmax) as Hg. unfold lookup. simpl. split.
  - pose proof (find_kept _ _ _ _ Hg) as Hf. destruct (list_find _ _) as [[i r]|]; [|done]. simplify_eq/=.
    by destruct (String.eqb _ _).
  - by destruct (negb _).
Qed.

Lemma lookup_chronological k h fp now t rs :
  chronological rs -> Forall (fun r => created_at r <= t) rs ->
  chronological (snd (lookup k h fp now rs)) /\ Forall (fun r => created_at r <= t) (snd (lookup k h fp now rs)).
Proof.
  intros Hc Hf. unfold lookup. simpl. destruct (negb _); [|done]. split; [by apply gc_chronological|].
  apply Forall_forall. intros r Hr. apply gc_elem in Hr; [|done]. by eapply Forall_forall in Hf.
Qed.

Lemma store_fresh t rec now rs :
  chronological rs -> Forall (fun r => created_at r <= t) rs -> t <= created_at rec ->
  keeps 0 (created_at rec) rec (store rec now rs).
Proof.
  intros Hc Hf Ht. pose proof (gc_chronological now rs Hc) as Hg. unfold store.
  assert (Hle : forall x, x ∈ gc now rs -> created_at x <= created_at rec).
  { intros x Hx. apply gc_elem in Hx; [|done]. eapply Forall_forall in Hf; [|exact Hx]. simpl in Hf. lia. }
  split; [|split].
  - apply StronglySorted_app. split_and!; [|by apply filter_sorted|by repeat constructor].
    intros x y [_ Hx]%list_elem_of_filter ->%list_elem_of_singleton. by apply Hle.
  - apply Forall_app. split; [|by repeat constructor]. apply Forall_forall. intros x [_ Hx]%list_elem_of_filter. by apply Hle.
  - eexists _, []. split; [reflexivity|]. split; [simpl; lia|]. rewrite app_nil_r. apply Forall_forall.
    by intros x [Hx _]%list_elem_of_filter.
Qed.

(** What other requests do to the store: lookups, and responses they store. *)
Inductive store_op :=
| Look (k h fp : string) (now : Z)
| Put (r : IdempotencyRecord) (now : Z).

Definition run_op (rs : records) (o : store_op) : records :=
  match o with Look k h fp now => snd (lookup k h fp now rs) | Put r now => store r now rs end.
Definition run_ops (rs : records) (os : list store_op) : records := fold_left run_op os rs.

Fixpoint puts (os : list store_op) : nat :=
  match os with [] => 0 | Put _ _ :: r => S (puts r) | Look _ _ _ _ :: r => puts r end.

(** Operations before [until], on other slots, with a clock that does not go back. *)
Fixpoint on_other_slots (k h : string) (until t : Z) (os : list store_op) : Prop :=
  match os with
  | [] => True
  | Look _ _ _ now :: r => now < until /\ on_other_slots k h until t r
  | Put rec now :: r => now < until /\ t <= created_at rec /\ ~ same_slot k h rec /\ on_other_slots k h until (created_at rec) r
  end.

Lemma gc_look n t rec k h fp now rs :
  keeps n t rec rs -> now < expires_at rec -> Z.of_nat n < MAX_RECORDS -> keeps n t rec (snd (lookup k h fp now rs)).
Proof. intros Hk Hl Hmax. unfold lookup. simpl. destruct (negb _); [by apply gc_keeps|done]. Qed.

Lemma ops_keep os : forall n t rec rs,
  keeps n t rec rs -> on_other_slots (key_id rec) (header rec) (expires_at rec) t os ->
  Z.of_nat (n + puts os) < MAX_RECORDS -> exists n' t', keeps n' t' rec (run_ops rs os) /\ Z.of_nat n' < MAX_RECORDS.
Proof.
  induction os as [|[k h fp now|r now] os IH]; intros n t rec rs Hk Ho Hn; simpl in *.
  - exists n, t. split; [done|lia].
  - destruct Ho as [Hl Ho]. apply (IH n t rec (snd (lookup k h fp now rs))); [apply gc_look; [done|done|lia]|done|done].
  - destruct Ho as (Hl & Ht & Hs & Ho). apply (IH (S n) (created_at r) rec (store r now rs)); [apply (store_keeps n t); [done|done|lia|done|done]|done|lia].
Qed.

Lemma lookup_miss k h fp now rs :
  fst (lookup k h fp now rs) = Miss -> Forall (fun r => ~ same_slot k h r) (gc now rs).
Proof.
  unfold lookup. simpl. destruct (list_find _ _) as [[i r]|] eqn:E; [by destruct (negb (String.eqb _ _))|].
  intros _. by apply list_find_None in E.
Qed.

(** No record is made up by the collection. *)
Lemma gc_subset now rs r : r ∈ gc now rs -> r ∈ rs.
Proof.
  unfold gc. destruct (_ <=? _); [by intros [_ ?]%list_elem_of_filter|]. intros Hr%(subseteq_drop _ _ r). rewrite js_sort_Permutation in Hr.
  by apply list_elem_of_filter in Hr as [_ ?].
Qed.

Definition empty_slot (k h : string) (rs : records) : Prop := Forall (fun r => ~ same_slot k h r) rs.

Lemma gc_empty k h now rs : empty_slot k h rs -> empty_slot k h (gc now rs).
Proof. intros He. apply Forall_forall. intros r Hr%gc_subset. by eapply Forall_forall in He. Qed.

(** After a miss the slot is empty: what was in it has been collected. *)
Lemma miss_empties k h fp now rs : chronological rs -> fst (lookup k h fp now rs) = Miss -> empty_slot k h (snd (lookup k h fp now rs)).
Proof.
  intros Hc Hm%lookup_miss. unfold lookup. cbn [snd]. destruct (len (gc now rs) =? len rs) eqn:El; cbn [negb]; [|done].
  assert (gc now rs = rs) as Hsame; [|by rewrite Hsame in Hm].
  rewrite gc_drop in El |- * by done. bool_to_prop. unfold len in El. rewrite length_drop in El.
  destruct (filter_same_length (live now) rs) as [Hle Heq]. unfold len in *.
  rewrite Heq by lia. replace (length rs - Z.to_nat MAX_RECORDS)%nat with 0%nat by lia. done.
Qed.

Lemma lookup_empty k h fp now rs : empty_slot k h rs -> lookup k h fp now rs = (Miss, snd (lookup k h fp now rs)).
Proof.
  intros He%(gc_empty k h now). unfold lookup. apply (proj2 (list_find_None (same_slot k h) _)) in He. by rewrite He.
Qed.

Lemma ops_empty k h until os : forall t rs, empty_slot k h rs -> on_other_slots k h until t os -> empty_slot k h (run_ops rs os).
Proof.
  induction os as [|[k' h' fp now|r now] os IH]; intros t rs He Ho; [done|..]; cbn [run_ops fold_left run_op] in *.
  - destruct Ho as [_ Ho]. apply (IH t); [|done]. unfold lookup. cbn [snd]. destruct (negb _); [by apply gc_empty|done].
  - destruct Ho as (_ & _ & Hs & Ho). apply (IH (created_at r)); [|done]. unfold store. apply Forall_app. split; [|by repeat constructor].
    apply Forall_forall. intros x [_ Hx]%list_elem_of_filter. apply (gc_empty k h now) in He. by eapply Forall_forall in He.
Qed.

(** ** Laws of the wrapper *)

Section Laws.
Variable sha256 : string -> string.
Variable json_parse : string -> option json.
Context {A : Type} (req : request) (key : AuditKey) (route : string).
Context (handler : option json -> A -> option response * A).

Local Abbreviation begin_ := (begin sha256 json_parse (A := A) req key route).
Local Abbreviation call := (withIdempotency sha256 json_parse req key route handler).

(** A request that carries a usable key does the same in every state: it looks
    its slot up. *)
Lemma begin_run now w b v fp w0 :
  begin_ now w = (Run b (Some (v, fp)), w0) ->
  forall now' w', begin_ now' w' =
    let '(d, rs) := lookup (k_id key) v fp now' (cache w') in
    match d with
    | Conflict rec => (Answer (echo_request_id req (set_header "idempotency-key" v (err 409 "idempotency_conflict"))),
                       record req key route 409 "idempotency:conflict" (Some (JObj [("idempotency_key", JStr v)])) (with_cache rs w'))
    | Hit rec => (Answer (replay req v rec), record req key route (status rec) "idempotency:replay" (Some (slot_details v rec)) (with_cache rs w'))
    | Miss => (Run b (Some (v, fp)), with_cache rs w')
    end.
Proof.
  unfold begin. intros Hb now' w'. set (hdr := default "" _) in *.
  assert (Hgo : forall b', (if negb (truthy hdr) then (Run b' None, w) else
    match validateHeader (Some hdr) with
    | Err c => (Answer (err 400 "bad_idempotency_key"), record req key route 400 ("idempotency:bad_header:" +:+ code_name c) None w)
    | Ok v0 => let '(d, rs) := lookup (k_id key) v0 (fingerprint sha256 (req_method req) route (raw req)) now (cache w) in
        match d with
        | Miss => (Run b' (Some (v0, fingerprint sha256 (req_method req) route (raw req))), with_cache rs w)
        | Hit rec => (Answer (replay req v0 rec), record req key route (status rec) "idempotency:replay" (Some (slot_details v0 rec)) (with_cache rs w))
        | Conflict _ => (Answer (echo_request_id req (set_header "idempotency-key" v0 (err 409 "idempotency_conflict"))),
            record req key route 409 "idempotency:conflict" (Some (JObj [("idempotency_key", JStr v0)])) (with_cache rs w))
        end
    end) = (Run b (Some (v, fp)), w0) ->
    b' = b /\ truthy hdr = true /\ validateHeader (Some hdr) = Ok v /\ fp = fingerprint sha256 (req_method req) route (raw req)).
  { intros b'. destruct (truthy hdr); [|done]. destruct (validateHeader _) as [v0|]; [|done].
    cbn [negb]. destruct (lookup _ _ _ _ _) as [[] rs]; intros; by simplify_eq. }
  destruct (truthy (raw req)); [destruct (json_parse (raw req)) as [j|]; [|done]|];
  apply Hgo in Hb as (<- & Ht & Hv & ->); rewrite Ht, Hv; cbn [negb]; destruct (lookup _ _ _ now' _) as [[] rs]; done.
Qed.

Lemma begin_run_cache now w b v fp w0 :
  begin_ now w = (Run b (Some (v, fp)), w0) ->
  fst (lookup (k_id key) v fp now (cache w)) = Miss /\ w0 = with_cache (snd (lookup (k_id key) v fp now (cache w))) w.
Proof.
  intros Hb. pose proof (begin_run _ _ _ _ _ _ Hb now w) as E. rewrite Hb in E.
  destruct (lookup _ _ _ _ _) as [[] rs]; by simplify_eq.
Qed.

(** A request that ran and succeeded is on record, with nothing newer. *)
Lemma stored_after_success t clk1 w b v fp w0 res a :
  chronological (cache w) -> Forall (fun r => created_at r <= t) (cache w) -> t <= clk1 1%nat ->
  begin_ (clk1 0%nat) w = (Run b (Some (v, fp)), w0) -> 200 <= r_status res < 300 ->
  exists rec, keeps 0 (clk1 1%nat) rec (cache (snd (complete key (fun i => clk1 (S i)) (Some (v, fp)) res (with_app a w0)))) /\
    key_id rec = k_id key /\ header rec = v /\ fingerprint_ rec = fp /\ status rec = r_status res /\ body rec = r_body res /\
    expires_at rec = clk1 1%nat + TTL_MS.
Proof.
  intros Hc Hf Ht Hb Hs. pose proof (begin_run_cache _ _ _ _ _ _ Hb) as [_ Hw0].
  unfold complete. cbn [r_status set_header]. rewrite (proj2 (andb_true_iff _ _)) by (split; lia). cbv zeta. cbn [snd with_cache cache with_app].
  match goal with |- context [store ?r _ _] => exists r end. split; [|done].
  rewrite Hw0. destruct (lookup_chronological (k_id key) v fp (clk1 0%nat) t (cache w) Hc Hf) as [Hc' Hf']. by apply (store_fresh t).
Qed.

(** A response that is no success leaves the store as the lookup left it. *)
Lemma not_stored clk slot res w : ~ (200 <= r_status res < 300) -> cache (snd (complete (A := A) key clk slot res w)) = cache w.
Proof.
  intros Hs. unfold complete. destruct slot as [[v fp]|]; [|done]. cbv zeta. cbn [r_status set_header].
  destruct ((200 <=? r_status res) && (r_status res <? 300)) eqn:Es; [|done]. exfalso. bool_to_prop. lia.
Qed.

(** C18. A retry of a request that succeeded replays its response, and a retry of
    one that did not runs again. The first request carries an idempotency key
    that is not in use and has been answered before the retry arrives; the retry
    is the same request of the same key, and arrives within 24 hours of the
    moment the first response was stored; other requests in between use other
    idempotency keys or are made by other keys, and store fewer than 2000
    responses. If the first request was answered with a status from 200 to 299,
    the retry is answered with the status and the body of that answer, marked as
    replayed, and the handler does not run. If it was answered with another
    status, or its handler threw, nothing was stored: the retry is handed to the
    handler as the first one was. Retries that overlap the first request are
    outside of this theorem: they run (overlapping_retries_both_run). *)
Theorem retry_replays_first_response t clk1 w b v fp w0 o1 w1 ops clk2 w2 :
  chronological (cache w) -> Forall (fun r => created_at r <= t) (cache w) -> t <= clk1 1%nat ->
  begin_ (clk1 0%nat) w = (Run b (Some (v, fp)), w0) ->
  call clk1 w = (o1, w1) ->
  on_other_slots (k_id key) v (clk1 1%nat + 24 * 3600000) (clk1 1%nat) ops -> Z.of_nat (puts ops) < 2000 ->
  cache w2 = run_ops (cache w1) ops -> clk2 0%nat < clk1 1%nat + 24 * 3600000 ->
  let succeeded := exists r1, o1 = Some r1 /\ 200 <= r_status r1 < 300 in
  (succeeded -> exists r1 r2 w3, o1 = Some r1 /\ call clk2 w2 = (Some r2, w3) /\ app w3 = app w2 /\
     r_status r2 = r_status r1 /\ r_body r2 = r_body r1 /\ r_headers r2 !! "idempotent-replayed" = Some "true") /\
  (~ succeeded -> exists w3, begin_ (clk2 0%nat) w2 = (Run b (Some (v, fp)), w3) /\ app w3 = app w2).
Proof.
  intros Hc Hf Ht Hb Hcall Ho Hp Hw2 Hclk. pose proof (begin_run_cache _ _ _ _ _ _ Hb) as [Hmiss Hw0].
  pose proof (begin_run _ _ _ _ _ _ Hb (clk2 0%nat) w2) as Hb2. unfold withIdempotency in Hcall |- *. rewrite Hb in Hcall. cbv zeta.
  destruct (handler b (app w0)) as [o a]. split.
  - intros (r1 & -> & Hs). destruct o as [res|]; [|done].
    assert (r_status res = r_status r1 /\ r_body res = r_body r1) as [Es Eb].
    { revert Hcall. unfold complete. cbv zeta. destruct (_ && _); intros E; by injection E as <- _. }
    destruct (stored_after_success t clk1 w b v fp w0 res a Hc Hf Ht Hb ltac:(by rewrite Es)) as (rec & Hk & E1 & E2 & E3 & E4 & E5 & E6).
    destruct (complete _ _ _ _ _) as [r w1'] in *. injection Hcall as -> ->. cbn [snd] in Hk.
    destruct (ops_keep ops _ _ _ _ Hk ltac:(by rewrite E1, E2, E6) ltac:(unfold MAX_RECORDS; lia)) as (n & t' & Hk' & Hn).
    destruct (lookup_kept n t' rec (clk2 0%nat) fp (cache w2)) as [Hlook _]; [by rewrite Hw2|by rewrite E6|done|].
    rewrite E1, E2, E3, String.eqb_refl in Hlook. rewrite Hb2.
    destruct (lookup (k_id key) v fp (clk2 0%nat) (cache w2)) as [d rs]. simpl in Hlook. subst d.
    eexists r1, _, _. split; [done|]. split; [reflexivity|]. split; [done|]. unfold replay, echo_request_id. rewrite E4, E5, <- Es, <- Eb.
    generalize (fold_left (fun (h : gmap string string) p => <[fst p := snd p]> h) (cached_headers rec) {[ "content-type" := content_type rec ]}) as h.
    intros h. destruct (truthy (default "" (req_headers req !! "x-request-id")));
    cbn [r_status r_body r_headers set_header]; split_and!; try done;
    rewrite !lookup_insert_ne by done; apply lookup_insert_eq.
  - intros Hns. assert (cache w1 = cache w0) as E1.
    { destruct o as [res|]; [|by injection Hcall as _ <-]. pose proof (not_stored (fun i => clk1 (S i)) (Some (v, fp)) res (with_app a w0)) as Hn.
      destruct (complete _ _ _ _ _) as [r w1'] eqn:Ec in *. injection Hcall as <- <-. apply Hn. intros Hs. apply Hns. exists r. split; [done|].
      revert Ec. unfold complete. cbv zeta. destruct (_ && _); intros E; by injection E as <- _. }
    assert (empty_slot (k_id key) v (cache w2)) as He.
    { rewrite Hw2, E1. eapply ops_empty; [|exact Ho]. rewrite Hw0. by apply miss_empties. }
    rewrite Hb2, lookup_empty by done. by eexists.
Qed.

(** Overlapping retries both run: a request is not recorded until its handler
    has returned, so the same request, arriving while the first one is still
    being handled, is a miss as well and runs the handler a second time. *)
Theorem overlapping_retries_both_run now now' w b slot w0 :
  chronological (cache w) -> begin_ now w = (Run b (Some slot), w0) ->
  exists w1, begin_ now' w0 = (Run b (Some slot), w1).
Proof.
  destruct slot as [v fp]. intros Hc Hb. pose proof (begin_run_cache _ _ _ _ _ _ Hb) as [Hmiss Hw0].
  rewrite (begin_run _ _ _ _ _ _ Hb now' w0). rewrite lookup_empty; [by eexists|].
  rewrite Hw0. by apply miss_empties.
Qed.

End Laws.

(** ** Examples *)

Section Demo.
Definition demo_sha (s : string) : string := s.
Definition demo_parse (s : string) : option json := Some (JStr s).
Definition demo_key : AuditKey := {| k_id := "k1"; k_label := "ci"; k_prefix := "sc"; k_scopes := ["trade"] |}.
Definition demo_req : request :=
  {| req_headers := {[ "idempotency-key" := " order-1 " ]}; req_method := "POST"; raw := "{}" |}.

(** The handler creates one more thing each time it runs. *)
Definition demo_handler (_ : option json) (n : Z) : option response * Z :=
  (Some {| r_status := 201; r_body := "created"; r_error := None; r_headers := ∅ |}, n + 1).

Definition demo_call := withIdempotency demo_sha demo_parse demo_req demo_key "/api/v1/alerts" demo_handler.
Definition demo_start : state (A := Z) := {| cache := []; audited := []; app := 0 |}.
Definition demo_first : state (A := Z) := snd (demo_call (fun _ => 1000) demo_start).

Definition demo_other : IdempotencyRecord :=
  {| key_id := "k2"; header := "order-1"; fingerprint_ := "x"; status := 200; body := ""; content_type := "text/plain";
     cached_headers := []; created_at := 2000; expires_at := 90000000 |}.
Definition demo_ops : list store_op := [Look "k2" "order-1" "x" 1500; Put demo_other 2000].
Definition demo_second : state (A := Z) :=
  {| cache := run_ops (cache demo_first) demo_ops; audited := []; app := 1 |}.

Definition demo_fp : string := fingerprint demo_sha "POST" "/api/v1/alerts" "{}".

Lemma demo_begin : begin demo_sha demo_parse demo_req demo_key "/api/v1/alerts" 1000 demo_start =
  (Run (Some (JStr "{}")) (Some ("order-1", demo_fp)), demo_start).
Proof. vm_compute. reflexivity. Qed.

Lemma retry_replays_first_response_witness :
  app demo_first = 1 /\
  exists r2 w3, demo_call (fun _ => 5000) demo_second = (Some r2, w3) /\ app w3 = 1 /\ r_status r2 = 201.
Proof.
  split; [vm_compute; reflexivity|].
  destruct (demo_call (fun _ => 1000) demo_start) as [[r1|] w1] eqn:E; [|revert E; vm_compute; discriminate].
  assert (Hr : r_status r1 = 201 /\ cache w1 = cache demo_first).
  { revert E. vm_compute. intros E. injection E as <- <-. split; reflexivity. }
  destruct Hr as [Hr Hcache].
  destruct (retry_replays_first_response demo_sha demo_parse demo_req demo_key "/api/v1/alerts" demo_handler
    0 (fun _ => 1000) demo_start (Some (JStr "{}")) "order-1" demo_fp demo_start (Some r1) w1 demo_ops (fun _ => 5000) demo_second)
    as [Hreplay _].
  - constructor.
  - constructor.
  - vm_compute. discriminate.
  - exact demo_begin.
  - exact E.
  - vm_compute. repeat split; try discriminate. intros [H _]. discriminate.
  - reflexivity.
  - rewrite Hcache. reflexivity.
  - reflexivity.
  - destruct Hreplay as (r1' & r2 & w3 & E1 & E2 & Ha & Hs & _).
    + exists r1. rewrite Hr. split; [reflexivity|]. split; [discriminate|reflexivity].
    + injection E1 as <-. exists r2, w3. split; [exact E2|]. split; [rewrite Ha; reflexivity|]. rewrite Hs. exact Hr.
Defined.

Lemma overlapping_retries_both_run_witness :
  exists w1, begin demo_sha demo_parse demo_req demo_key "/api/v1/alerts" 1001 demo_start =
    (Run (Some (JStr "{}")) (Some ("order-1", demo_fp)), w1).
Proof.
  apply (overlapping_retries_both_run demo_sha demo_parse demo_req demo_key "/api/v1/alerts" 1000 1001 demo_start
    (Some (JStr "{}")) ("order-1", demo_fp) demo_start); [constructor|exact demo_begin].
Defined.
End Demo.
