(* ===== verification/Egress.v ===== *)
(** Where webhooks may be sent: [web/lib/egressPolicy.ts]. The URL parser and the
    DNS resolver are parameters. *)
From S2P Require Import Prelude JsNum JsDate IsoTime Json Store IpMatch.
Local Open Scope js_scope.

Record EgressPolicy := {
  allow_private : bool;
  cidrs : list string;
  updated_at : option iso;
  updated_by : option string;
}.

Definition DEFAULT_POLICY : EgressPolicy :=
  {| allow_private := false; cidrs := []; updated_at := None; updated_by := None |}.

Definition encode_policy (p : EgressPolicy) : json :=
  JObj [("allow_private", JBool (allow_private p)); ("cidrs", JArr (JStr <$> cidrs p));
        ("updated_at", jopt jiso (updated_at p)); ("updated_by", jopt JStr (updated_by p))].

(** [null] has no properties: the [TypeError] is caught. *)
Definition read_policy (j : json) : EgressPolicy :=
  match j with
  | JNull => DEFAULT_POLICY
  | _ => {| allow_private := jtruthy (field "allow_private" j); cidrs := strings_of (array_or_empty (field "cidrs" j));
            updated_at := iso_or_null (field "updated_at" j); updated_by := string_or_null (field "updated_by" j) |}
  end.

Lemma egress_policy_roundtrip p : from_option iso_ok True (updated_at p) -> read_policy (encode_policy p) = p.
Proof.
  intros H1. unfold read_policy, encode_policy. cbn [field assoc String.eqb Ascii.eqb Bool.eqb jtruthy array_or_empty].
  rewrite strings_of_fmap, iso_or_null_jiso, string_or_null_jopt by done. by destruct p.
Qed.

#[export] Instance EgressPolicy_persisted : Persisted EgressPolicy := {|
  raw := json; encode := encode_policy; decode := read_policy; absent := DEFAULT_POLICY;
  storable p := from_option iso_ok True (updated_at p); decode_encode := egress_policy_roundtrip |}.

Definition getPolicy (f : file EgressPolicy) : EgressPolicy := read_file f.

(** [undefined] is [None]; [allow_private] counts only when it is a boolean, a
    [null] list keeps the current one. *)
Record PolicyInput := { in_allow_private : option json; in_cidrs : option json }.

Inductive SetCode := bad_cidr | too_many_cidrs.

Record Update := { policy : EgressPolicy; before : EgressPolicy }.

Definition set_tx (now : Z) (input : PolicyInput) (actor : option string)
  : transaction EgressPolicy (result Update SetCode) := fun s =>
  let ap := match in_allow_private input with Some (JBool b) => b | _ => allow_private s end in
  let wanted := match in_cidrs input with None | Some JNull => JArr (JStr <$> cidrs s) | Some j => j end in
  match canonicalizeCidrList wanted with
  | Err _ => (Err bad_cidr, None)
  | Ok l =>
      if Z.of_nat (length l) >? MAX_CIDR_ENTRIES then (Err too_many_cidrs, None)
      else let next := {| allow_private := ap; cidrs := l; updated_at := Some (Iso now); updated_by := actor |} in
           (Ok {| policy := next; before := s |}, Some next)
  end.

Definition setPolicy now input actor (f : file EgressPolicy) := on_file (set_tx now input actor) f.

(** ** Destinations *)

Definition V4_DENY_CIDRS : list string :=
  ["0.0.0.0/8"; "10.0.0.0/8"; "100.64.0.0/10"; "127.0.0.0/8"; "169.254.0.0/16"; "172.16.0.0/12"; "192.0.0.0/24";
   "192.0.2.0/24"; "192.168.0.0/16"; "198.18.0.0/15"; "198.51.100.0/24"; "203.0.113.0/24"; "224.0.0.0/4"; "240.0.0.0/4"].

Definition V6_DENY_CIDRS : list string :=
  ["::/128"; "::1/128"; "fc00::/7"; "fe80::/10"; "ff00::/8"; "::ffff:0:0/96"; "64:ff9b::/96"].

Definition PRIVATE_DENY : list ParsedCidr := ranges (V4_DENY_CIDRS ++ V6_DENY_CIDRS).
#[local] Opaque PRIVATE_DENY.

Definition parseAllowlist (p : EgressPolicy) : list ParsedCidr := omap parseCidr (cidrs p).

Record URL := { protocol : string; hostname : string; username : string; password : string }.

Inductive EvalCode := bad_url | bad_scheme | no_host | userinfo | no_addresses | dns_failed | private_destination | not_in_allowlist.

Definition parseIpLiteral (host : string) : option string :=
  let h := if starts_with "[" host && ends_with_char "]"%char host then drop_last (str_drop 1 host) else host in
  match parseCidr h with Some _ => Some h | None => None end.

Section Evaluate.
Variable parse_url : string -> option URL.
Variable resolve : string -> option (list string).

Definition addresses_of (host : string) : result (list string) EvalCode :=
  match parseIpLiteral host with
  | Some l => Ok [l]
  | None => match resolve host with
            | None => Err dns_failed
            | Some l => if (length l =? 0)%nat then Err no_addresses else Ok l
            end
  end.

Definition evaluateUrl (url : string) (p : EgressPolicy) : result (list string) EvalCode :=
  match parse_url url with
  | None => Err bad_url
  | Some u =>
      if negb (String.eqb (protocol u) "http:") && negb (String.eqb (protocol u) "https:") then Err bad_scheme
      else if negb (truthy (hostname u)) then Err no_host
      else if truthy (username u) || truthy (password u) then Err userinfo
      else
        let! addresses := addresses_of (hostname u) in
        if negb (allow_private p) && existsb (fun a => ipMatchesAny a PRIVATE_DENY) addresses then Err private_destination
        else
          let allow := parseAllowlist p in
          if negb (length allow =? 0)%nat && existsb (fun a => negb (ipMatchesAny a allow)) addresses then Err not_in_allowlist
          else Ok addresses
  end.

(** ** What is private

    The ranges a webhook must not reach, by first and last address. *)
Definition quad (a b c d : Z) : Z := ((a * 256 + b) * 256 + c) * 256 + d.

(** The IPv6 address whose first three groups and last group are given. *)
Definition groups (g0 g1 g2 tail : Z) : Z := g0 * 2 ^ 112 + g1 * 2 ^ 96 + g2 * 2 ^ 80 + tail.

Definition private_ranges : list (family * Z * Z) := [
  (v4, quad 0 0 0 0, quad 0 255 255 255); (v4, quad 10 0 0 0, quad 10 255 255 255);
  (v4, quad 100 64 0 0, quad 100 127 255 255); (v4, quad 127 0 0 0, quad 127 255 255 255);
  (v4, quad 169 254 0 0, quad 169 254 255 255); (v4, quad 172 16 0 0, quad 172 31 255 255);
  (v4, quad 192 0 0 0, quad 192 0 0 255); (v4, quad 192 0 2 0, quad 192 0 2 255);
  (v4, quad 192 168 0 0, quad 192 168 255 255); (v4, quad 198 18 0 0, quad 198 19 255 255);
  (v4, quad 198 51 100 0, quad 198 51 100 255); (v4, quad 203 0 113 0, quad 203 0 113 255);
  (v4, quad 224 0 0 0, quad 239 255 255 255); (v4, quad 240 0 0 0, quad 255 255 255 255);
  (v6, 0, 0); (v6, 1, 1);
  (v6, groups 0xfc00 0 0 0, groups 0xfe00 0 0 0 - 1);
  (v6, groups 0xfe80 0 0 0, groups 0xfec0 0 0 0 - 1);
  (v6, groups 0xff00 0 0 0, 2 ^ 128 - 1);
  (v6, groups 0 0 0 (0xffff * 2 ^ 32), groups 0 0 0 (0x10000 * 2 ^ 32 - 1));
  (v6, groups 0x64 0xff9b 0 0, groups 0x64 0xff9b 0 (2 ^ 32 - 1))].

Definition private (a : family * Z) : Prop :=
  exists lo hi, (fst a, lo, hi) ∈ private_ranges /\ lo <= snd a <= hi.

#[local] Transparent PRIVATE_DENY.
Lemma private_deny_ranges :
  (fun c => (kind c, value c, value c + 2 ^ (max_bits (kind c) - bits c) - 1)) <$> PRIVATE_DENY = private_ranges.
Proof. vm_compute. reflexivity. Qed.

Lemma PRIVATE_DENY_ok : Forall cidr_ok PRIVATE_DENY.
Proof. apply ranges_ok. Qed.
#[local] Opaque PRIVATE_DENY.

Lemma private_covered a : private a <-> exists c, c ∈ PRIVATE_DENY /\ covers c a.
Proof.
  unfold private, covers. rewrite <- private_deny_ranges. split.
  - intros (lo & hi & Hin & Hr). apply list_elem_of_fmap in Hin as (c & [= -> -> ->] & Hc). exists c. split; [done|]. split; [done|]. lia.
  - intros (c & Hc & Hk & Hr). eexists _, _. split; [apply list_elem_of_fmap; exists c; split; [by rewrite <- Hk|done]|]. lia.
Qed.

Lemma private_matched ip norm a :
  normalizeIp ip = Some norm -> address norm = Some a -> ipMatchesAny ip PRIVATE_DENY = true <-> private a.
Proof.
  intros Hn Ha. rewrite private_covered, ipMatchesAny_spec by apply PRIVATE_DENY_ok. split.
  - intros (n & b & c & ? & ? & Hc & Hcov). simplify_eq. by exists c.
  - intros (c & Hc & Hcov). by exists norm, a, c.
Qed.

Lemma existsb_false {A} (p : A -> bool) l x : existsb p l = false -> x ∈ l -> p x = false.
Proof.
  intros He Hx. destruct (p x) eqn:E; [|done]. exfalso. assert (Ht : existsb p l = true); [|congruence].
  apply existsb_exists. exists x. split; [by apply list_elem_of_In|done].
Qed.

(** C11. A destination that passes is reachable only at public addresses: unless
    the operator has allowed private destinations, no address it resolves to
    lies in a loopback, private, link-local, multicast, mapped or reserved
    range; with an allowlist every address lies in one of its ranges; and the
    URL is an http or https URL without credentials. *)
Theorem evaluateUrl_safe url p resolved :
  evaluateUrl url p = Ok resolved ->
  (exists u, parse_url url = Some u /\ (protocol u = "http:" \/ protocol u = "https:") /\
             username u = "" /\ password u = "" /\ hostname u <> "") /\
  resolved <> [] /\
  (allow_private p = false ->
     forall ip norm a, ip ∈ resolved -> normalizeIp ip = Some norm -> address norm = Some a -> ~ private a) /\
  (parseAllowlist p <> [] ->
     forall ip, ip ∈ resolved -> exists norm a c,
       normalizeIp ip = Some norm /\ address norm = Some a /\ c ∈ parseAllowlist p /\ covers c a).
Proof.
  unfold evaluateUrl. destruct (parse_url url) as [u|]; [|done].
  destruct (_ && _) eqn:Ep; [done|]. destruct (truthy (hostname u)) eqn:Eh; [|done]. cbn [negb].
  destruct (_ || _) eqn:Eu; [done|]. destruct (addresses_of _) as [l|] eqn:El; [|done]. cbn [result_bind].
  destruct (negb (allow_private p) && _) eqn:E1; [done|]. cbv zeta. destruct (negb (_ =? _)%nat && _) eqn:E2; [done|]. intros [= <-].
  split; [|split; [|split]].
  - apply orb_false_iff in Eu as [Eu1 Eu2]. rewrite truthy_false in Eu1, Eu2. apply truthy_spec in Eh.
    exists u. split_and!; try done. apply andb_false_iff in Ep as [Ep|Ep]; apply negb_false_iff, String.eqb_eq in Ep; auto.
  - clear E1 E2. unfold addresses_of in El. destruct (parseIpLiteral _); [by injection El as <-|].
    destruct (resolve _) as [[|x l']|]; [done| |done]. by injection El as <-.
  - intros Ha ip norm a Hip Hn Had Hp. rewrite Ha in E1. cbn in E1.
    pose proof (existsb_false _ _ _ E1 Hip) as Hm. cbv beta in Hm.
    apply (private_matched ip norm a Hn Had) in Hp. congruence.
  - intros Hal ip Hip. assert (Hlen : (length (parseAllowlist p) =? 0)%nat = false) by (by destruct (parseAllowlist p)).
    rewrite Hlen in E2. cbn in E2. pose proof (existsb_false _ _ _ E2 Hip) as Hm. cbv beta in Hm. apply negb_false_iff in Hm.
    by apply ipMatchesAny_spec in Hm; [|apply ranges_ok].
Qed.

End Evaluate.

#[local] Transparent PRIVATE_DENY.

(** The comment on [V6_DENY_CIDRS] lists the discard-only block 100::/64, the
    list does not. *)
Lemma discard_only_block_allowed : ipMatchesAny "100::1" PRIVATE_DENY = false.
Proof. vm_compute. reflexivity. Qed.

(** The hexadecimal spelling of a mapped address is caught as well. *)
Example mapped_loopback_blocked :
  ipMatchesAny "::ffff:7f00:1" PRIVATE_DENY = true /\ ipMatchesAny "::ffff:127.0.0.1" PRIVATE_DENY = true /\
  ipMatchesAny "169.254.169.254" PRIVATE_DENY = true /\ ipMatchesAny "93.184.216.34" PRIVATE_DENY = false.
Proof. vm_compute. auto. Qed.

Section Demo.
Definition demo_url (s : string) : option URL :=
  if String.eqb s "https://hooks.example.com/x"
  then Some {| protocol := "https:"; hostname := "hooks.example.com"; username := ""; password := "" |} else None.
Definition demo_resolve (h : string) : option (list string) := Some ["93.184.216.34"; "2606:2800:220:1::248"].

Lemma evaluateUrl_safe_witness :
  evaluateUrl demo_url demo_resolve "https://hooks.example.com/x" DEFAULT_POLICY = Ok ["93.184.216.34"; "2606:2800:220:1::248"] /\
  ~ private (v4, quad 93 184 216 34).
Proof.
  assert (E : evaluateUrl demo_url demo_resolve "https://hooks.example.com/x" DEFAULT_POLICY
            = Ok ["93.184.216.34"; "2606:2800:220:1::248"]) by (vm_compute; reflexivity).
  split; [exact E|].
  destruct (evaluateUrl_safe demo_url demo_resolve _ _ _ E) as (_ & _ & Hp & _).
  apply (Hp eq_refl "93.184.216.34" "93.184.216.34"); [left|vm_compute; reflexivity|vm_compute; reflexivity].
Defined.
End Demo.
