(* ===== verification/Webhooks.v ===== *)
(** Webhook subscriptions and deliveries: [web/lib/webhookStore.ts].

    The URL parser, the DNS resolver, the HMAC and the network are parameters:
    [fetch k] is what the [k]-th attempt of a delivery meets, a status or the
    message of an exception. Ids, minted secrets and the delivered body are
    arguments. Files are lists; the code rewrites them whole. *)
From S2P Require Import Prelude JsNum JsDate IsoTime Json Store IpMatch Egress.
Local Open Scope js_scope.

Definition EVENT_KINDS : list string := ["entered"; "exited"; "upgraded"; "downgraded"; "score_jump"].

Record Webhook := {
  id : string; url : string; events : list string; tickers : list string; secret : string; enabled : bool;
  created_at : Z; last_status : option Z; last_error : option string; last_delivered_at : option Z;
  previous_secret : option string; previous_secret_expires_at : option Z; secret_rotated_at : option Z;
}.

Record WebhookIn := {
  in_url : string; in_events : option (list string); in_tickers : option (list string); in_secret : option string;
  in_enabled : option bool }.

Record PickEvent := {
  kind : string; ticker : string; as_of : string; new_label : option string; prior_label : option string;
  score_delta : option num }.

Record DeliveryAttempt := {
  d_id : string; subscription_id : string; d_url : string; d_status : option Z; d_error : option string; attempt : Z;
  delivered_at : Z; signature : option string; event_count : Z; d_events : list PickEvent; replay_of : option string }.

#[export] Program Instance subs_persisted : Persisted (list Webhook) := {|
  raw := list Webhook; encode s := s; decode s := s; absent := []; storable _ := True |}.
Next Obligation. done. Qed.
#[export] Program Instance log_persisted : Persisted (list DeliveryAttempt) := {|
  raw := list DeliveryAttempt; encode s := s; decode s := s; absent := []; storable _ := True |}.
Next Obligation. done. Qed.

Abbreviation subs_file := (file (list Webhook)).
Abbreviation log_file := (file (list DeliveryAttempt)).

(** ** Subscriptions *)

Definition sanitizeEvents (es : option (list string)) : list string :=
  let xs := filter (fun e => e ∈ EVENT_KINDS) (default [] es) in
  if (0 <? length xs)%nat then dedup xs else EVENT_KINDS.

(** [/^[A-Z][A-Z0-9.\-]{0,9}$/]. *)
Definition is_upper (c : Ascii.ascii) : bool := (65 <=? code c) && (code c <=? 90).
Definition ticker_char (c : Ascii.ascii) : bool :=
  is_upper c || ((48 <=? code c) && (code c <=? 57)) || Ascii.eqb c "."%char || Ascii.eqb c "-"%char.
Definition valid_ticker (s : string) : bool :=
  match s with "" => false | String c r => is_upper c && (str_len r <=? 9) && str_forall ticker_char r end.

Definition sanitizeTickers (ts : option (list string)) : list string :=
  filter (fun t => valid_ticker t = true) ((fun t => to_upper (trim t)) <$> default [] ts).

Definition listWebhooks (f : subs_file) : list Webhook := js_sort (by_desc created_at) (read_file f).

Definition getWebhook (i : string) (f : subs_file) : option Webhook := snd <$> list_find (fun w => id w = i) (read_file f).

Definition appendLog (attempts : list DeliveryAttempt) (f : log_file) : log_file :=
  if (length attempts =? 0)%nat then f else write_file (take 500 (attempts ++ read_file f)).

Record StatusPatch := { p_status : option Z; p_error : option string; p_at : Z }.

Definition with_status (p : StatusPatch) (w : Webhook) : Webhook :=
  {| id := id w; url := url w; events := events w; tickers := tickers w; secret := secret w; enabled := enabled w;
     created_at := created_at w; last_status := p_status p; last_error := p_error p; last_delivered_at := Some (p_at p);
     previous_secret := previous_secret w; previous_secret_expires_at := previous_secret_expires_at w;
     secret_rotated_at := secret_rotated_at w |}.

Definition status_tx (i : string) (p : StatusPatch) : transaction (list Webhook) unit := fun s =>
  match list_find (fun w => id w = i) s with
  | Some (n, w) => (tt, Some (<[n := with_status p w]> s))
  | None => (tt, None)
  end.

Definition updateWebhookStatus i p (f : subs_file) : subs_file := snd (on_file (status_tx i p) f).

Definition delete_tx (i : string) : transaction (list Webhook) bool := fun s =>
  let next := filter (fun w => id w <> i) s in
  if (length next =? length s)%nat then (false, None) else (true, Some next).

Definition deleteWebhook i (f : subs_file) := on_file (delete_tx i) f.

Inductive RotateCode := not_found | invalid_grace.

Record Rotated := { r_webhook : Webhook; r_secret : string; grace_seconds : Z }.

Definition with_secret (s : string) (grace now : Z) (w : Webhook) : Webhook :=
  let keep := truthy (secret w) && (grace >? 0) in
  {| id := id w; url := url w; events := events w; tickers := tickers w; secret := s; enabled := enabled w;
     created_at := created_at w; last_status := last_status w; last_error := last_error w;
     last_delivered_at := last_delivered_at w;
     previous_secret := if keep then Some (secret w) else None;
     previous_secret_expires_at := if keep then Some (now + grace * 1000) else None;
     secret_rotated_at := Some now |}.

(** [minted] is [crypto.randomBytes(32).toString("hex")]. *)
Definition rotate_tx (i minted : string) (provided : option string) (graceSeconds : option num) (now : Z)
  : transaction (list Webhook) (result Rotated RotateCode) := fun s =>
  let grace := match graceSeconds with Some n => if is_finite n then floorZ n else 3600 | None => 3600 end in
  if (grace <? 0) || (grace >? 604800) then (Err invalid_grace, None) else
  match list_find (fun w => id w = i) s with
  | None => (Err not_found, None)
  | Some (n, w) =>
      let p := trim (default "" provided) in
      let newSecret := if truthy p then p else minted in
      let next := with_secret newSecret grace now w in
      (Ok {| r_webhook := next; r_secret := newSecret; grace_seconds := grace |}, Some (<[n := next]> s))
  end.

Definition rotateWebhookSecret i minted provided grace now (f : subs_file) := on_file (rotate_tx i minted provided grace now) f.

Definition matches (sub : Webhook) (ev : PickEvent) : bool :=
  if negb (enabled sub) then false
  else if (0 <? length (events sub))%nat && negb (bool_decide (kind ev ∈ events sub)) then false
  else if (0 <? length (tickers sub))%nat && negb (bool_decide (to_upper (ticker ev) ∈ tickers sub)) then false
  else true.

(** ** Signatures *)

Section Delivery.
Variable parse_url : string -> option URL.
Variable resolve : string -> option (list string).
(** HMAC-SHA256 in hexadecimal, of a secret and a text. *)
Variable hmac : string -> string -> string.

Definition macHex (secret body timestamp : string) : string := hmac secret (timestamp +:+ "." +:+ body).

Definition previous_active (sub : Webhook) (now : Z) : option string :=
  match previous_secret sub, previous_secret_expires_at sub with
  | Some p, Some e => if truthy p && (now <? e) then Some p else None
  | _, _ => None
  end.

Definition signatures (sub : Webhook) (body timestamp : string) (now : Z) : list string :=
  ("v1=" +:+ macHex (secret sub) body timestamp) ::
  match previous_active sub now with Some p => ["v1=" +:+ macHex p body timestamp] | None => [] end.

Definition signBodyForSub (sub : Webhook) (body timestamp : string) (now : Z) : option string :=
  if negb (truthy (secret sub)) then None
  else Some ("t=" +:+ timestamp +:+ "," +:+ join "," (signatures sub body timestamp now)).

(** ** One delivery *)

Definition is_2xx (s : Z) : bool := (200 <=? s) && (s <? 300).

(** Retry on 5xx and 429 and on exceptions. *)
Definition retryable (r : result Z string) : bool :=
  match r with Ok s => negb (s <? 500) || (s =? 429) | Err _ => true end.

Record outcome := { o_status : option Z; o_error : option string; o_attempt : Z; o_made : nat }.

(** The loop: [left] attempts remain, [k] is the current one; [o_made] counts
    the requests that were sent. *)
Fixpoint attempts (fetch : nat -> result Z string) (maxAttempts : nat) (left k : nat) (status : option Z) (error : option string) : outcome :=
  match left with
  | O => {| o_status := status; o_error := error; o_attempt := Z.of_nat maxAttempts; o_made := k - 1 |}
  | S left' =>
      match fetch k with
      | Ok s =>
          if is_2xx s then {| o_status := Some s; o_error := None; o_attempt := Z.of_nat k; o_made := k |}
          else if (s <? 500) && negb (s =? 429)
          then {| o_status := Some s; o_error := None; o_attempt := Z.of_nat maxAttempts; o_made := k |}
          else attempts fetch maxAttempts left' (S k) (Some s) None
      | Err e => attempts fetch maxAttempts left' (S k) None (Some e)
      end
  end.

Definition code_name (c : EvalCode) : string :=
  match c with
  | bad_url => "bad_url" | bad_scheme => "bad_scheme" | no_host => "no_host" | userinfo => "userinfo"
  | no_addresses => "no_addresses" | dns_failed => "dns_failed" | private_destination => "private_destination"
  | not_in_allowlist => "not_in_allowlist"
  end.

(** The reason that follows the code in the message is left out. The clock is
    read for the body's stamp (an argument), the timestamp, the grace test and
    [delivered_at]. *)
Definition deliverOne (clk : clock) (did body : string) (maxAttempts : nat) (fetch : nat -> result Z string)
    (sub : Webhook) (evs : list PickEvent) (pf : file EgressPolicy) : DeliveryAttempt * nat :=
  let timestamp := pretty (clk 0%nat / 1000) in
  let sig := signBodyForSub sub body timestamp (clk 1%nat) in
  let o := match evaluateUrl parse_url resolve (url sub) (Egress.getPolicy pf) with
           | Err c => {| o_status := None; o_error := Some ("egress_blocked:" +:+ code_name c); o_attempt := 0; o_made := 0 |}
           | Ok _ => attempts fetch maxAttempts maxAttempts 1 None None
           end in
  ({| d_id := did; subscription_id := id sub; d_url := url sub; d_status := o_status o; d_error := o_error o;
      attempt := o_attempt o; delivered_at := clk 2%nat; signature := sig; event_count := Z.of_nat (length evs);
      d_events := evs; replay_of := None |}, o_made o).

Definition patch_of (d : DeliveryAttempt) : StatusPatch :=
  {| p_status := d_status d; p_error := d_error d; p_at := delivered_at d |}.

(** ** Creation *)

Definition validateUrl (u : string) (pf : file EgressPolicy) : option EvalCode :=
  match parse_url u with
  | None => Some bad_url
  | Some p =>
      if negb (String.eqb (protocol p) "http:") && negb (String.eqb (protocol p) "https:") then Some bad_scheme
      else match evaluateUrl parse_url resolve u (Egress.getPolicy pf) with
           | Err dns_failed | Err no_addresses => None
           | Err c => Some c
           | Ok _ => None
           end
  end.

Definition new_webhook (wid : string) (now : Z) (input : WebhookIn) : Webhook :=
  {| id := wid; url := trim (in_url input); events := sanitizeEvents (in_events input);
     tickers := sanitizeTickers (in_tickers input); secret := trim (default "" (in_secret input));
     enabled := match in_enabled input with Some false => false | _ => true end; created_at := now;
     last_status := None; last_error := None; last_delivered_at := None; previous_secret := None;
     previous_secret_expires_at := None; secret_rotated_at := None |}.

Definition createWebhook (wid : string) (now : Z) (input : WebhookIn) (pf : file EgressPolicy) (f : subs_file)
  : result Webhook EvalCode * subs_file :=
  match validateUrl (in_url input) pf with
  | Some c => (Err c, f)
  | None => let w := new_webhook wid now input in on_file (fun s => (Ok w, Some (s ++ [w]))) f
  end.

(** ** Dispatch and replay

    What the environment supplies for each delivery: an id, a body, a network. *)
Record delivery_env := { e_clk : clock; e_id : string; e_body : string; e_fetch : nat -> result Z string }.

Fixpoint dispatch_to (env : string -> delivery_env) (maxAttempts : nat) (evs : list PickEvent) (pf : file EgressPolicy)
    (subs : list Webhook) (f : subs_file) : list DeliveryAttempt * subs_file :=
  match subs with
  | [] => ([], f)
  | sub :: r =>
      let matched := filter (fun e => matches sub e = true) evs in
      if (length matched =? 0)%nat then dispatch_to env maxAttempts evs pf r f
      else
        let e := env (id sub) in
        let '(d, _) := deliverOne (e_clk e) (e_id e) (e_body e) maxAttempts (e_fetch e) sub matched pf in
        let f := updateWebhookStatus (id sub) (patch_of d) f in
        let '(ds, f) := dispatch_to env maxAttempts evs pf r f in
        (d :: ds, f)
  end.

Definition dispatchEvents env maxAttempts evs pf (f : subs_file) (lf : log_file) : list DeliveryAttempt * subs_file * log_file :=
  let '(ds, f') := dispatch_to env maxAttempts evs pf (read_file f) f in (ds, f', appendLog ds lf).

Inductive ReplayCode := delivery_not_found | no_events | subscription_missing.

Definition as_replay (i : string) (d : DeliveryAttempt) : DeliveryAttempt :=
  {| d_id := d_id d; subscription_id := subscription_id d; d_url := d_url d; d_status := d_status d; d_error := d_error d;
     attempt := attempt d; delivered_at := delivered_at d; signature := signature d; event_count := event_count d;
     d_events := d_events d; replay_of := Some i |}.

Definition getDelivery (i : string) (lf : log_file) : option DeliveryAttempt :=
  snd <$> list_find (fun d => d_id d = i) (read_file lf).

Definition replayDelivery (e : delivery_env) (maxAttempts : nat) (i : string) pf (f : subs_file) (lf : log_file)
  : result DeliveryAttempt ReplayCode * subs_file * log_file :=
  match getDelivery i lf with
  | None => (Err delivery_not_found, f, lf)
  | Some prior =>
      if (length (d_events prior) =? 0)%nat then (Err no_events, f, lf) else
      match getWebhook (subscription_id prior) f with
      | None => (Err subscription_missing, f, lf)
      | Some sub =>
          let '(d, _) := deliverOne (e_clk e) (e_id e) (e_body e) maxAttempts (e_fetch e) sub (d_events prior) pf in
          let d := as_replay (d_id prior) d in
          (Ok d, updateWebhookStatus (id sub) (patch_of d) f, appendLog [d] lf)
      end
  end.

Definition delivered (d : DeliveryAttempt) : bool := match d_status d with Some s => is_2xx s | None => false end.

(** After the retention sweep; [Some true] asks for the delivered ones. *)
Definition listDeliveries (limit : Z) (subscriptionId : option string) (status : option bool) (lf : log_file) : list DeliveryAttempt :=
  let log := read_file lf in
  let l := match subscriptionId with
           | Some s => if truthy s then filter (fun d => subscription_id d = s) log else log
           | None => log
           end in
  let l := match status with
           | Some b => filter (fun d => delivered d = b) l
           | None => l
           end in
  take (Z.to_nat (Z.max 1 (Z.min 500 limit))) l.

End Delivery.

(** ** Laws *)

(** What an attempt leaves as the status and the error. *)
Definition outcome_of (r : result Z string) : option Z * option string :=
  match r with Ok s => (Some s, None) | Err e => (None, Some e) end.

Definition succeeds (r : result Z string) : bool := match r with Ok s => is_2xx s | Err _ => false end.

Lemma success_is_final r : succeeds r = true -> retryable r = false.
Proof.
  destruct r as [s|]; [|done]. unfold succeeds, is_2xx, retryable. intros Hs. bool_to_prop.
  rewrite (proj2 (Z.ltb_lt s 500)), (proj2 (Z.eqb_neq s 429)) by lia. done.
Qed.

(** One delivery of [n] attempts at most, of which [m] were made. *)
Record attempts_made (fetch : nat -> result Z string) (n m : nat) (o : outcome) : Prop := {
  made_count : o_made o = m;
  made_bound : (1 <= m <= n)%nat;
  made_retried : forall j, (1 <= j < m)%nat -> retryable (fetch j) = true;
  made_final : (m < n)%nat -> retryable (fetch m) = false;
  made_outcome : (o_status o, o_error o) = outcome_of (fetch m);
  made_reported : o_attempt o = Z.of_nat (if succeeds (fetch m) then m else n);
}.

Lemma attempts_spec fetch n left : forall k s e,
  (1 <= k)%nat -> (k + left = S n)%nat -> (forall j, (1 <= j < k)%nat -> retryable (fetch j) = true) ->
  (1 < k -> (s, e) = outcome_of (fetch (k - 1)%nat) /\ succeeds (fetch (k - 1)%nat) = false)%nat -> (1 <= n)%nat ->
  exists m, attempts_made fetch n m (attempts fetch n left k s e).
Proof.
  induction left as [|left IH]; intros k s e Hk Hn Hr Hp H1.
  - destruct (Hp ltac:(lia)) as [Ho Hf]. exists (k - 1)%nat. split; simpl; try done; try lia.
    + intros j Hj. apply Hr. lia.
    + rewrite Hf. lia.
  - assert (Hnext : retryable (fetch k) = true -> forall s' e', (s', e') = outcome_of (fetch k) ->
      exists m, attempts_made fetch n m (attempts fetch n left (S k) s' e')).
    { intros Hk' s' e' Ho. apply IH; [lia|lia| |intros _|done].
      - intros j Hj. destruct (decide (j = k)) as [->|]; [done|]. apply Hr. lia.
      - rewrite Nat.sub_succ, Nat.sub_0_r. split; [done|].
        destruct (succeeds (fetch k)) eqn:E; [|done]. apply success_is_final in E. congruence. }
    simpl. destruct (fetch k) as [st|msg] eqn:Ef.
    + destruct (is_2xx st) eqn:E2; [|destruct ((st <? 500) && negb (st =? 429)) eqn:Eb].
      * assert (Hs : succeeds (fetch k) = true) by (by rewrite Ef).
        exists k. split; simpl; rewrite ?Ef; simpl; rewrite ?E2; try done; try lia.
        intros _. exact (success_is_final (Ok st) E2).
      * exists k. split; simpl; rewrite ?Ef; simpl; rewrite ?E2; try done; try lia.
      * apply Hnext; [|done]. unfold retryable. apply andb_false_iff in Eb as [Eb|Eb]; [by rewrite Eb|].
        apply negb_false_iff in Eb. by rewrite Eb, orb_true_r.
    + by apply Hnext.
Qed.

(** *** Rotation of the secret *)

Lemma rotate_result i minted provided grace now s r s' :
  rotate_tx i minted provided grace now s = (Ok r, Some s') ->
  exists n w, list_find (fun w => id w = i) s = Some (n, w) /\ s' = <[n := r_webhook r]> s /\
    0 <= grace_seconds r <= 604800 /\ r_webhook r = with_secret (r_secret r) (grace_seconds r) now w.
Proof.
  unfold rotate_tx. destruct (_ || _) eqn:Eg; [done|]. destruct (list_find _ s) as [[n w]|]; [|done].
  intros [= <- <-]. exists n, w. apply orb_false_iff in Eg as [E1 E2]. bool_to_prop. split_and!; done || lia.
Qed.

Section Contract.
Variable parse_url : string -> option URL.
Variable resolve : string -> option (list string).
Variable hmac : string -> string -> string.

(** A secret is rotated without an unsigned or unverifiable event: after the
    rotation every delivery carries a signature with the new secret; while the
    grace window lasts it carries one with the old secret too, and none once it
    is over; the other subscriptions keep their secrets. *)
Theorem rotation_keeps_both_signatures i minted provided grace now s r s' body ts t :
  rotate_tx i minted provided grace now s = (Ok r, Some s') ->
  exists n w, list_find (fun w => id w = i) s = Some (n, w) /\ s' !! n = Some (r_webhook r) /\
    (forall m, m <> n -> s' !! m = s !! m) /\
    ("v1=" +:+ macHex hmac (r_secret r) body ts) ∈ signatures hmac (r_webhook r) body ts t /\
    (truthy (secret w) = true -> t < now + grace_seconds r * 1000 -> 0 < grace_seconds r ->
       ("v1=" +:+ macHex hmac (secret w) body ts) ∈ signatures hmac (r_webhook r) body ts t) /\
    (now + grace_seconds r * 1000 <= t ->
       signatures hmac (r_webhook r) body ts t = ["v1=" +:+ macHex hmac (r_secret r) body ts]).
Proof.
  intros Hr. destruct (rotate_result _ _ _ _ _ _ _ _ Hr) as (n & w & Hf & -> & Hg & Hw).
  exists n, w. pose proof (list_find_lt _ _ _ _ Hf) as Hlt. split; [done|].
  split; [by apply list_lookup_insert_eq|]. split; [intros; by apply list_lookup_insert_ne|]. rewrite Hw.
  set (g := grace_seconds r) in *. unfold signatures, previous_active, with_secret. simpl.
  split; [by left|]. split.
  - intros Ht Hlater Hpos. rewrite Ht. rewrite (proj2 (Z.gtb_lt g 0)) by lia. simpl.
    rewrite Ht, (proj2 (Z.ltb_lt _ _)) by done. simpl. right. by left.
  - intros Hover. destruct (truthy (secret w) && (g >? 0)) eqn:E; [|done]. apply andb_prop in E as [-> _].
    by rewrite (proj2 (Z.ltb_ge _ _)).
Qed.

(** C39. One delivery: a destination the egress policy refuses is never
    contacted, and the refusal is what is recorded. Otherwise the requests stop
    at the first final answer, a 2xx or an error that is not worth a retry, and
    at the latest after the allowed number; the record has the outcome of the
    last one. *)
Theorem delivery_contract clk did body n fetch sub evs pf d made :
  (1 <= n)%nat -> deliverOne parse_url resolve hmac clk did body n fetch sub evs pf = (d, made) ->
  match evaluateUrl parse_url resolve (url sub) (Egress.getPolicy pf) with
  | Err c => made = 0%nat /\ d_status d = None /\ d_error d = Some ("egress_blocked:" +:+ code_name c)
  | Ok _ =>
      (1 <= made <= n)%nat /\ (forall j, (1 <= j < made)%nat -> retryable (fetch j) = true) /\
      ((made < n)%nat -> retryable (fetch made) = false) /\
      (d_status d, d_error d) = outcome_of (fetch made) /\
      (delivered d = true <-> exists s, fetch made = Ok s /\ is_2xx s = true)
  end /\ d_events d = evs /\ d_url d = url sub.
Proof.
  intros Hn. unfold deliverOne. destruct (evaluateUrl _ _ _ _) as [l|c]; intros [= <- <-]; (split; [|done]); [|done].
  destruct (attempts_spec fetch n n 1 None None) as (m & [Hc Hb Hr Hf Ho _]); [lia|lia|lia|lia|done|].
  rewrite Hc. cbn. split_and!; try done; try lia.
  unfold delivered. cbn. unfold outcome_of in Ho. destruct (fetch m) as [s|e]; injection Ho as -> _; [|naive_solver].
  split; [by exists s|]. by intros (x & [= <-] & ?).
Qed.

(** The record of a delivery that stopped early on a client error says that all
    the attempts were made. *)
Lemma rejected_delivery_reports_all_attempts clk did body fetch sub evs pf l :
  evaluateUrl parse_url resolve (url sub) (Egress.getPolicy pf) = Ok l -> fetch 1%nat = Ok 404 ->
  let '(d, made) := deliverOne parse_url resolve hmac clk did body 3 fetch sub evs pf in
  made = 1%nat /\ attempt d = 3.
Proof. intros E Hf. unfold deliverOne. rewrite E. simpl. by rewrite Hf. Qed.

(** *** Dispatch *)

Lemma dispatch_targets env n evs pf subs : forall f,
  subscription_id <$> fst (dispatch_to parse_url resolve hmac env n evs pf subs f) =
  id <$> filter (fun s => existsb (matches s) evs = true) subs.
Proof.
  induction subs as [|s subs IH]; intros f; [done|]. simpl. rewrite filter_cons.
  assert (Hm : (length (filter (fun e => matches s e = true) evs) =? 0)%nat = negb (existsb (matches s) evs)).
  { clear. induction evs as [|e evs IH]; [done|]. rewrite filter_cons. simpl. destruct (matches s e); [done|]. exact IH. }
  rewrite Hm. destruct (existsb (matches s) evs); cbn [negb]; [|by rewrite decide_False].
  rewrite decide_True by done. unfold deliverOne. cbn zeta.
  match goal with |- context [dispatch_to _ _ _ _ _ _ _ _ ?g] => specialize (IH g); destruct (dispatch_to _ _ _ _ _ _ _ _ g) as [ds f'] end.
  exact (f_equal (cons (id s)) IH).
Qed.

(** An event batch is delivered once to every enabled subscription that
    wants one of its events, in the order of the subscriptions and to no other;
    the log shows the new attempts first and keeps the last 500. *)
Theorem dispatch_reaches_every_match env n evs pf f lf ds f' lf' :
  dispatchEvents parse_url resolve hmac env n evs pf f lf = (ds, f', lf') ->
  subscription_id <$> ds = id <$> filter (fun s => existsb (matches s) evs = true) (read_file f) /\
  (forall s e, matches s e = true -> enabled s = true /\ (events s = [] \/ kind e ∈ events s)) /\
  (ds <> [] -> read_file lf' = take 500 (ds ++ read_file lf)).
Proof.
  unfold dispatchEvents. pose proof (dispatch_targets env n evs pf (read_file f) f) as Ht.
  destruct (dispatch_to _ _ _ _ _ _ _ _ _) as [ds0 f0]. intros [= <- <- <-]. split; [exact Ht|]. split.
  - intros s e. unfold matches. destruct (enabled s); [|done]. simpl. destruct (events s) as [|x l] eqn:El; [auto|].
    simpl. case_bool_decide as Hk; [|done]. auto.
  - intros Hne. unfold appendLog. destruct ds0; [done|]. done.
Qed.
End Contract.

(** ** Examples *)

Section Demo.
Definition demo_hmac (k m : string) : string := k +:+ "/" +:+ m.
Definition demo_sub : Webhook :=
  new_webhook "w1" 1000 {| in_url := "https://hooks.example.com/x"; in_events := Some ["entered"]; in_tickers := None;
                           in_secret := Some " old "; in_enabled := None |}.
Definition demo_event : PickEvent :=
  {| kind := "entered"; ticker := "nvda"; as_of := "2026-01-02"; new_label := None; prior_label := None; score_delta := None |}.

Lemma rotation_keeps_both_signatures_witness :
  match rotate_tx "w1" "minted" None (Some (int 60)) 2000 [demo_sub] with
  | (Ok r, Some s') => ("v1=" +:+ macHex demo_hmac "old" "{}" "9") ∈ signatures demo_hmac (r_webhook r) "{}" "9" 30000
  | _ => False
  end.
Proof.
  destruct (rotate_tx "w1" "minted" None (Some (int 60)) 2000 [demo_sub]) as [[r|c] [s'|]] eqn:E;
    [|revert E; vm_compute; discriminate..].
  destruct (rotation_keeps_both_signatures demo_hmac "w1" "minted" None (Some (int 60)) 2000 [demo_sub] r s' "{}" "9" 30000 E)
    as (n & w & Hf & _ & _ & _ & Hold & _).
  assert (Hg : grace_seconds r = 60 /\ w = demo_sub).
  { split; [revert E; vm_compute; by intros [= <- _]|]. simpl in Hf. by injection Hf as _ <-. }
  destruct Hg as [Hg ->]. rewrite Hg in Hold. apply Hold; [reflexivity|lia|lia].
Defined.

(** A 503, then a 200. *)
Definition demo_fetch (k : nat) : result Z string := if (k =? 1)%nat then Ok 503 else Ok 200.

Lemma delivery_contract_witness :
  let '(d, made) := deliverOne demo_url demo_resolve demo_hmac (fun _ => 5000) "d1" "{}" 3 demo_fetch demo_sub [demo_event] None in
  made = 2%nat /\ delivered d = true.
Proof.
  destruct (deliverOne _ _ _ _ _ _ _ _ _ _ _) as [d made] eqn:E.
  pose proof (delivery_contract demo_url demo_resolve demo_hmac (fun _ => 5000) "d1" "{}" 3 demo_fetch demo_sub [demo_event] None
    d made ltac:(lia) E) as [Hd _].
  assert (He : evaluateUrl demo_url demo_resolve (url demo_sub) (Egress.getPolicy None) = Ok ["93.184.216.34"; "2606:2800:220:1::248"])
    by (vm_compute; reflexivity).
  rewrite He in Hd. destruct Hd as (Hb & Hr & Hf & _ & Hd).
  assert (Hm : made = 2%nat).
  { destruct made as [|[|[|[|made]]]]; try lia.
    - specialize (Hf ltac:(lia)). vm_compute in Hf. discriminate Hf.
    - specialize (Hr 2%nat ltac:(lia)). vm_compute in Hr. discriminate Hr. }
  split; [exact Hm|]. apply Hd. exists 200. rewrite Hm. split; reflexivity.
Defined.

Definition demo_env (_ : string) : delivery_env :=
  {| e_clk := fun _ => 5000; e_id := "d1"; e_body := "{}"; e_fetch := demo_fetch |}.

Lemma dispatch_reaches_every_match_witness :
  let '(ds, _, _) := dispatchEvents demo_url demo_resolve demo_hmac demo_env 3 [demo_event] None (Some [demo_sub]) None in
  subscription_id <$> ds = ["w1"].
Proof.
  destruct (dispatchEvents _ _ _ _ _ _ _ _ _) as [[ds f'] lf'] eqn:E.
  destruct (dispatch_reaches_every_match demo_url demo_resolve demo_hmac demo_env 3 [demo_event] None (Some [demo_sub]) None
    ds f' lf' E) as [Hd _].
  rewrite Hd. vm_compute. reflexivity.
Defined.
End Demo.
