(* ===== verification/Zip.v ===== *)
(** The archive writer of the evidence pack: [web/lib/zipBuilder.ts]. Stored
    entries, no compression. A number that does not fit its field makes
    [writeUInt16LE] or [writeUInt32LE] throw. *)
From S2P Require Import Prelude Bits.

Inductive zip_data := Text (s : string) | Bytes (l : list Z).

Record ZipEntry := { name : string; data : zip_data }.

(** ** CRC-32 *)

Definition table_step (c : Z) : Z :=
  if js_and c 1 =? 0 then js_shr c 1 else js_xor 0xedb88320 (js_shr c 1).

Definition CRC_TABLE : list Z := (fun n => u32 (Nat.iter 8 table_step (Z.of_nat n))) <$> seq 0 256.

Definition crc_step (c b : Z) : Z :=
  js_xor (nth (Z.to_nat (js_and (js_xor c b) 0xff)) CRC_TABLE 0) (js_shr c 8).

Definition crc32 (buf : list Z) : Z := u32 (js_xor (fold_left crc_step buf 0xffffffff) 0xffffffff).

(** ** The archive *)

Definition DOS_TIME : Z := 0.
Definition DOS_DATE : Z := 0x0021.

Definition alloc (n : nat) : list Z := replicate n 0.

Definition fits (k : nat) (v : Z) : bool := (0 <=? v) && (v <? 256 ^ Z.of_nat k).

Definition write_le (k : nat) (v : Z) (off : nat) (buf : list Z) : option (list Z) :=
  if fits k v then Some (take off buf ++ le_bytes k v ++ drop (off + k) buf) else None.

Definition writeUInt16LE := write_le 2.
Definition writeUInt32LE := write_le 4.

Definition local_header (crc size nameLength : Z) : option (list Z) :=
  b ← writeUInt32LE 0x04034b50 0 (alloc 30);
  b ← writeUInt16LE 20 4 b;
  b ← writeUInt16LE 0x0800 6 b;
  b ← writeUInt16LE 0 8 b;
  b ← writeUInt16LE DOS_TIME 10 b;
  b ← writeUInt16LE DOS_DATE 12 b;
  b ← writeUInt32LE crc 14 b;
  b ← writeUInt32LE size 18 b;
  b ← writeUInt32LE size 22 b;
  b ← writeUInt16LE nameLength 26 b;
  writeUInt16LE 0 28 b.

Definition central_header (crc size nameLength offset : Z) : option (list Z) :=
  b ← writeUInt32LE 0x02014b50 0 (alloc 46);
  b ← writeUInt16LE 20 4 b;
  b ← writeUInt16LE 20 6 b;
  b ← writeUInt16LE 0x0800 8 b;
  b ← writeUInt16LE 0 10 b;
  b ← writeUInt16LE DOS_TIME 12 b;
  b ← writeUInt16LE DOS_DATE 14 b;
  b ← writeUInt32LE crc 16 b;
  b ← writeUInt32LE size 20 b;
  b ← writeUInt32LE size 24 b;
  b ← writeUInt16LE nameLength 28 b;
  b ← writeUInt16LE 0 30 b;
  b ← writeUInt16LE 0 32 b;
  b ← writeUInt16LE 0 34 b;
  b ← writeUInt16LE 0 36 b;
  b ← writeUInt32LE 0 38 b;
  writeUInt32LE offset 42 b.

Definition end_record (count centralSize centralStart : Z) : option (list Z) :=
  b ← writeUInt32LE 0x06054b50 0 (alloc 22);
  b ← writeUInt16LE 0 4 b;
  b ← writeUInt16LE 0 6 b;
  b ← writeUInt16LE count 8 b;
  b ← writeUInt16LE count 10 b;
  b ← writeUInt32LE centralSize 12 b;
  b ← writeUInt32LE centralStart 16 b;
  writeUInt16LE 0 20 b.

Definition nameBuf (e : ZipEntry) : list Z := utf8 (name e).
Definition dataBuf (e : ZipEntry) : list Z := match data e with Text s => utf8 s | Bytes l => l end.

(** The loop over the entries: [localParts], [centralParts], [offset]. *)
Fixpoint add_entries (es : list ZipEntry) (localParts centralParts : list Z) (offset : Z) : option (list Z * list Z * Z) :=
  match es with
  | [] => Some (localParts, centralParts, offset)
  | e :: r =>
      let crc := crc32 (dataBuf e) in
      let size := len (dataBuf e) in
      local ← local_header crc size (len (nameBuf e));
      central ← central_header crc size (len (nameBuf e)) offset;
      add_entries r (localParts ++ local ++ nameBuf e ++ dataBuf e) (centralParts ++ central ++ nameBuf e)
        (offset + len local + len (nameBuf e) + len (dataBuf e))
  end.

Definition buildZip (entries : list ZipEntry) : option (list Z) :=
  '(locals, centrals, centralStart) ← add_entries entries [] [] 0;
  end_ ← end_record (len entries) (len centrals) centralStart;
  Some (locals ++ centrals ++ end_).

(** ** What a reader of the format does

    The end record, then the central directory, then each local header; the
    checksum of every entry is verified. *)

Definition read_le (k off : nat) (b : list Z) : Z := of_le (take k (drop off b)).
Definition read_nat (k off : nat) (b : list Z) : nat := Z.to_nat (read_le k off b).

Definition read_local (off size : nat) (crc : Z) (b : list Z) : option (list Z) :=
  let l := drop off b in
  if negb (read_le 4 0 l =? 0x04034b50) then None else
  let d := take size (drop (30 + read_nat 2 26 l + read_nat 2 28 l) l) in
  if (len d =? Z.of_nat size) && (crc32 d =? crc) then Some d else None.

Fixpoint read_central (n pos : nat) (b : list Z) : option (list (list Z * list Z)) :=
  match n with
  | O => Some []
  | S n' =>
      let c := drop pos b in
      if negb (read_le 4 0 c =? 0x02014b50) || negb (read_le 2 10 c =? 0) then None else
      d ← read_local (read_nat 4 42 c) (read_nat 4 24 c) (read_le 4 16 c) b;
      r ← read_central n' (pos + (46 + read_nat 2 28 c + read_nat 2 30 c + read_nat 2 32 c)) b;
      Some ((take (read_nat 2 28 c) (drop 46 c), d) :: r)
  end.

Definition unzip (b : list Z) : option (list (list Z * list Z)) :=
  let e := drop (length b - 22) b in
  if negb (read_le 4 0 e =? 0x06054b50) then None else read_central (read_nat 2 10 e) (read_nat 4 16 e) b.

(** CRC-32 bit by bit: the register is divided by the reflected IEEE polynomial. *)
Definition poly_step (c : Z) : Z := if Z.testbit c 0 then Z.lxor 0xedb88320 (Z.shiftr c 1) else Z.shiftr c 1.

Definition bits_of (b : Z) : list bool := Z.testbit b <$> [0; 1; 2; 3; 4; 5; 6; 7].

Definition crc_bit (c : Z) (b : bool) : Z := poly_step (Z.lxor c (Z.b2z b)).

Definition crc32_bitwise (buf : list Z) : Z :=
  Z.lxor (fold_left crc_bit (flat_map bits_of buf) 0xffffffff) 0xffffffff.

(** ** The checksum *)

Lemma poly_step_range c : 0 <= c < 2 ^ 32 -> 0 <= poly_step c < 2 ^ 32.
Proof.
  intros Hc. pose proof (shiftr_bound c 32 1 ltac:(lia) Hc) as Hs. unfold poly_step.
  destruct (Z.testbit c 0); [apply lxor_bound|]; lia.
Qed.

Lemma poly_step_linear a b : poly_step (Z.lxor a b) = Z.lxor (poly_step a) (poly_step b).
Proof.
  unfold poly_step. rewrite Z.lxor_spec, Z.shiftr_lxor. generalize (Z.shiftr a 1) (Z.shiftr b 1). intros x y.
  destruct (Z.testbit a 0), (Z.testbit b 0); cbn [xorb]; bitwise;
    by destruct (Z.testbit 0xedb88320 i), (Z.testbit x i), (Z.testbit y i).
Qed.

Lemma poly_step_injective c : 0 <= c < 2 ^ 32 -> poly_step c = 0 -> c = 0.
Proof.
  intros Hc. pose proof (shiftr_bound c 32 1 ltac:(lia) Hc) as Hs. unfold poly_step.
  pose proof (Z.div_mod c 2 ltac:(lia)) as Hd. rewrite Z.shiftr_div_pow2 in * by lia. change (2 ^ 1) with 2 in *. change (2 ^ (32 - 1)) with 2147483648 in Hs.
  destruct (Z.testbit c 0) eqn:E.
  - intros H%Z.lxor_eq. lia.
  - intros H. rewrite Z.bit0_odd in E. rewrite (Zmod_odd c), E in Hd. lia.
Qed.

Lemma iter_succ_in {A} n (f : A -> A) x : Nat.iter (S n) f x = Nat.iter n f (f x).
Proof. apply Nat.iter_succ_r. Qed.

Lemma steps_range n c : 0 <= c < 2 ^ 32 -> 0 <= Nat.iter n poly_step c < 2 ^ 32.
Proof. intros Hc. induction n; [done|]. by apply poly_step_range. Qed.

Lemma steps_linear n a b : Nat.iter n poly_step (Z.lxor a b) = Z.lxor (Nat.iter n poly_step a) (Nat.iter n poly_step b).
Proof. induction n as [|n IH]; [done|]. simpl. by rewrite IH, poly_step_linear. Qed.

Lemma steps_injective n a b :
  0 <= a < 2 ^ 32 -> 0 <= b < 2 ^ 32 -> Nat.iter n poly_step a = Nat.iter n poly_step b -> a = b.
Proof.
  intros Ha Hb He. apply Z.lxor_eq. pose proof (lxor_bound a b 32 ltac:(lia) Ha Hb) as Hx.
  assert (Hz : Nat.iter n poly_step (Z.lxor a b) = 0) by (by rewrite steps_linear, He, Z.lxor_nilpotent).
  clear He. induction n as [|n IH]; [done|]. apply IH. apply poly_step_injective; [by apply steps_range|done].
Qed.

(** Bits in the register that have not reached the low end only move. *)
Lemma poly_step_shift c : poly_step (Z.shiftl c 1) = c.
Proof.
  unfold poly_step. rewrite Z.shiftl_spec_low by lia. by rewrite Z.shiftr_shiftl_l, Z.shiftl_0_r by lia.
Qed.

Lemma steps_shift n c : Nat.iter n poly_step (Z.shiftl c (Z.of_nat n)) = c.
Proof.
  induction n as [|n IH]; [by rewrite Z.shiftl_0_r|]. rewrite iter_succ_in, Nat2Z.inj_succ, <- Z.add_1_r.
  by rewrite <- Z.shiftl_shiftl, poly_step_shift by lia.
Qed.

(** The value of bits, low end first. *)
Fixpoint of_bits (l : list bool) : Z := match l with [] => 0 | b :: r => Z.lxor (Z.b2z b) (Z.shiftl (of_bits r) 1) end.

Lemma crc_bits_steps l c : fold_left crc_bit l c = Nat.iter (length l) poly_step (Z.lxor c (of_bits l)).
Proof.
  revert c; induction l as [|b l IH]; intros c; [by rewrite Z.lxor_0_r|]. cbn [fold_left length of_bits].
  rewrite IH, iter_succ_in. unfold crc_bit. by rewrite <- Z.lxor_assoc, (poly_step_linear _ (Z.shiftl _ 1)), poly_step_shift.
Qed.

Lemma bits_of_value : forallb (fun n => of_bits (bits_of (Z.of_nat n)) =? Z.of_nat n) (seq 0 256) = true.
Proof. by vm_compute. Qed.

Lemma of_bits_of b : is_byte b -> of_bits (bits_of b) = b.
Proof.
  intros Hb. unfold is_byte in Hb. pose proof bits_of_value as H. rewrite forallb_forall in H. specialize (H (Z.to_nat b)).
  rewrite Z2Nat.id in H by lia. apply Z.eqb_eq, H, in_seq. lia.
Qed.

(** The register after a byte. *)
Lemma crc_byte b c : is_byte b -> fold_left crc_bit (bits_of b) c = Nat.iter 8 poly_step (Z.lxor c b).
Proof. intros Hb. by rewrite crc_bits_steps, of_bits_of. Qed.

(** *** The code's arithmetic *)

Lemma js_shr_u32 c k : js_shr c k = Z.shiftr (u32 c) k.
Proof. done. Qed.

Lemma table_step_u32 c : u32 (table_step c) = poly_step (u32 c).
Proof.
  unfold table_step, poly_step. change 1 with (Z.ones 1) at 1. rewrite js_and_ones by lia. rewrite <- (i32_residue c 1) by lia.
  pose proof (u32_range c) as Hc. pose proof (shiftr_bound (u32 c) 32 1 ltac:(lia) Hc) as Hs.
  assert (Hb : i32 c mod 2 ^ 1 = Z.b2z (Z.testbit (u32 c) 0)).
  { rewrite i32_residue by lia. unfold u32. rewrite mod_testbit, Z.bit0_odd by lia. simpl. by rewrite Zmod_odd; destruct (Z.odd c). }
  rewrite Hb. destruct (Z.testbit (u32 c) 0); simpl.
  - rewrite u32_xor, js_shr_u32. by rewrite !u32_small by lia.
  - rewrite js_shr_u32. rewrite u32_small; [done|lia].
Qed.

Lemma table_steps_u32 n c : u32 (Nat.iter n table_step c) = Nat.iter n poly_step (u32 c).
Proof. induction n as [|n IH]; [done|]. simpl. by rewrite table_step_u32, IH. Qed.

Lemma table_entry i : 0 <= i < 256 -> nth (Z.to_nat i) CRC_TABLE 0 = Nat.iter 8 poly_step i.
Proof.
  intros Hi. apply nth_lookup_Some. unfold CRC_TABLE. rewrite list_lookup_fmap, lookup_seq_lt by lia.
  change (?f <$> Some ?x) with (Some (f x)). f_equal.
  rewrite table_steps_u32, Nat.add_0_l, Z2Nat.id by lia. by rewrite u32_small by lia.
Qed.

(** One byte through the table is eight bits through the register. *)
Lemma crc_step_u32 c b : is_byte b -> u32 (crc_step c b) = Nat.iter 8 poly_step (Z.lxor (u32 c) b).
Proof.
  intros Hb. unfold is_byte in Hb. unfold crc_step. change 0xff with (Z.ones 8). rewrite js_and_ones by lia.
  unfold js_xor at 2. rewrite i32_residue by lia. pose proof (Z.mod_pos_bound (Z.lxor c b) (2 ^ 8) ltac:(lia)) as Hm.
  rewrite table_entry by exact Hm. rewrite u32_xor, js_shr_u32.
  pose proof (u32_range c) as Hc. pose proof (shiftr_bound (u32 c) 32 8 ltac:(lia) Hc) as Hs.
  rewrite (u32_small (Nat.iter 8 _ _)) by (apply steps_range; lia). rewrite (u32_small (Z.shiftr _ _)) by lia.
  rewrite <- (steps_shift 8 (Z.shiftr (u32 c) 8)), <- steps_linear. f_equal.
  unfold u32. bitwise. destruct (Z.ltb_spec i 8).
  - rewrite (Z.testbit_neg_r _ (i - Z.of_nat 8)) by lia. destruct (Z.ltb_spec i 32); [|lia]. by destruct (Z.testbit c i), (Z.testbit b i).
  - rewrite Z.shiftr_spec, mod_testbit by lia. replace (i - Z.of_nat 8 + 8) with i by lia.
    replace b with (b mod 2 ^ 8) by (apply Z.mod_small; lia). rewrite mod_testbit by lia.
    destruct (Z.ltb_spec i 8); [lia|]. by destruct (i <? 32), (Z.testbit c i).
Qed.

Lemma crc_fold_u32 buf c :
  Forall is_byte buf -> u32 (fold_left crc_step buf c) = fold_left crc_bit (flat_map bits_of buf) (u32 c).
Proof.
  intros Hb. revert c. induction Hb as [|b buf Hb _ IH]; intros c; [done|]. cbn [fold_left flat_map].
  by rewrite fold_left_app, IH, crc_step_u32, crc_byte.
Qed.

Lemma crc32_spec buf : Forall is_byte buf -> crc32 buf = crc32_bitwise buf.
Proof. intros Hb. unfold crc32. by rewrite u32_xor, crc_fold_u32. Qed.

Lemma bits_length x : length (flat_map bits_of x) = (8 * length x)%nat.
Proof. induction x as [|b x IH]; [done|]. cbn [flat_map]. rewrite length_app, IH. simpl. lia. Qed.

(** Bytes as bits: the register depends on their value alone. *)
Lemma crc_bytes_steps buf c :
  fold_left crc_bit (flat_map bits_of buf) c = Nat.iter (8 * length buf) poly_step (Z.lxor c (of_bits (flat_map bits_of buf))).
Proof. by rewrite crc_bits_steps, bits_length.
Qed.

Lemma of_bits_bound l : 0 <= of_bits l < 2 ^ Z.of_nat (length l).
Proof.
  induction l as [|b l IH]; [done|]. cbn [of_bits length]. rewrite Nat2Z.inj_succ, Z.pow_succ_r by lia.
  rewrite Z.lxor_comm, Z.lxor_lor, lor_shift; [destruct b; simpl Z.b2z; lia|destruct b; simpl Z.b2z; lia|lia|].
  apply land_shift_zero; [destruct b; simpl Z.b2z; lia|lia].
Qed.

Lemma of_bits_inj l l' : length l = length l' -> of_bits l = of_bits l' -> l = l'.
Proof.
  revert l'; induction l as [|b l IH]; intros [|b' l'] Hn; try done. cbn [of_bits]. intros He.
  assert (Hb : b = b').
  { apply (f_equal Z.odd) in He. rewrite <- !Z.bit0_odd, !Z.lxor_spec, !(Z.shiftl_spec_low _ 1 0) in He by lia.
    by destruct b, b'. }
  subst b'. f_equal. apply IH; [by injection Hn|]. apply (f_equal (Z.lxor (Z.b2z b))) in He.
  rewrite <- !Z.lxor_assoc, !Z.lxor_nilpotent, !Z.lxor_0_l in He.
  apply (f_equal (fun z => Z.shiftr z 1)) in He. by rewrite !Z.shiftr_shiftl_l, !Z.shiftl_0_r in He by lia.
Qed.

Lemma flat_bits_inj x y :
  Forall is_byte x -> Forall is_byte y -> length x = length y -> flat_map bits_of x = flat_map bits_of y -> x = y.
Proof.
  intros Hx. revert y. induction Hx as [|b x Hb _ IH]; intros [|b' y] Hy Hn; try done.
  apply Forall_cons in Hy as [Hb' Hy]. cbn [flat_map]. intros He. apply app_inj_1 in He as [He Hr]; [|done].
  f_equal; [|apply IH; [done|by injection Hn|done]]. by rewrite <- (of_bits_of b), <- (of_bits_of b'), He.
Qed.

(** A register that differs keeps differing: equal bytes do not repair it. *)
Lemma crc_separates x y c :
  0 <= c < 2 ^ 32 -> Forall is_byte x -> Forall is_byte y -> length x = length y -> (length x <= 4)%nat ->
  fold_left crc_bit (flat_map bits_of x) c = fold_left crc_bit (flat_map bits_of y) c -> x = y.
Proof.
  intros Hc Hx Hy Hn Hl. rewrite !crc_bytes_steps, <- Hn by done.
  pose proof (of_bits_bound (flat_map bits_of x)) as Bx. pose proof (of_bits_bound (flat_map bits_of y)) as By.
  rewrite bits_length in Bx, By. rewrite <- Hn in By.
  pose proof (Z.pow_le_mono_r 2 (Z.of_nat (8 * length x)) 32 ltac:(lia) ltac:(lia)) as Hp.
  intros He%steps_injective; [|apply lxor_bound; lia..].
  apply (f_equal (Z.lxor c)) in He. rewrite <- !Z.lxor_assoc, !Z.lxor_nilpotent, !Z.lxor_0_l in He.
  apply flat_bits_inj; [done..|]. apply of_bits_inj; [by rewrite !bits_length, Hn|done].
Qed.

Lemma crc_fold_range l c : 0 <= c < 2 ^ 32 -> 0 <= fold_left crc_bit l c < 2 ^ 32.
Proof.
  revert c; induction l as [|b l IH]; intros c Hc; [done|]. apply IH. unfold crc_bit. apply poly_step_range, lxor_bound; [lia|lia|].
  destruct b; simpl Z.b2z; lia.
Qed.

Lemma crc_fold_injective s a b :
  Forall is_byte s -> 0 <= a < 2 ^ 32 -> 0 <= b < 2 ^ 32 ->
  fold_left crc_bit (flat_map bits_of s) a = fold_left crc_bit (flat_map bits_of s) b -> a = b.
Proof.
  intros Hs. revert a b. induction Hs as [|x s Hx _ IH]; intros a b Ha Hb; [done|]. cbn [flat_map].
  rewrite !fold_left_app. intros He%IH; [|by apply crc_fold_range..]. rewrite !crc_byte in He by done.
  unfold is_byte in Hx. apply steps_injective in He; [|apply lxor_bound; lia..].
  apply (f_equal (Z.lxor x)) in He. rewrite !(Z.lxor_comm x), !Z.lxor_assoc, !Z.lxor_nilpotent, !Z.lxor_0_r in He. done.
Qed.

(** The table-driven [crc32], with JavaScript's signed 32-bit operators, is
    the bit-serial division by the IEEE polynomial; hence it tells apart any two
    messages that differ only within four consecutive bytes. *)
Theorem crc32_reference :
  (forall buf, Forall is_byte buf -> crc32 buf = crc32_bitwise buf) /\
  (forall p x y s, Forall is_byte (p ++ x ++ s) -> Forall is_byte y -> length x = length y -> (length x <= 4)%nat ->
     crc32 (p ++ x ++ s) = crc32 (p ++ y ++ s) -> x = y).
Proof.
  split; [apply crc32_spec|]. intros p x y s Hb Hy Hn Hl. apply Forall_app in Hb as [Hp [Hx Hs]%Forall_app].
  rewrite !crc32_spec by (rewrite !Forall_app; auto). unfold crc32_bitwise. intros He.
  apply (f_equal (fun z => Z.lxor z 0xffffffff)) in He. rewrite !Z.lxor_assoc, Z.lxor_nilpotent, !Z.lxor_0_r in He.
  rewrite !flat_map_app, !fold_left_app in He. revert He.
  pose proof (crc_fold_range (flat_map bits_of p) 0xffffffff ltac:(lia)) as Hc.
  intros He%crc_fold_injective; [|done|by apply crc_fold_range..]. by apply crc_separates in He.
Qed.

(** ** The layout *)

Lemma fits_spec k v : fits k v = true <-> 0 <= v < 256 ^ Z.of_nat k.
Proof. unfold fits. rewrite andb_true_iff, Z.leb_le, Z.ltb_lt. done. Qed.

Definition local_fields (crc size nameLength : Z) : list Z :=
  le_bytes 4 0x04034b50 ++ le_bytes 2 20 ++ le_bytes 2 0x0800 ++ le_bytes 2 0 ++ le_bytes 2 DOS_TIME ++ le_bytes 2 DOS_DATE ++
  le_bytes 4 crc ++ le_bytes 4 size ++ le_bytes 4 size ++ le_bytes 2 nameLength ++ le_bytes 2 0.

Definition central_fields (crc size nameLength offset : Z) : list Z :=
  le_bytes 4 0x02014b50 ++ le_bytes 2 20 ++ le_bytes 2 20 ++ le_bytes 2 0x0800 ++ le_bytes 2 0 ++ le_bytes 2 DOS_TIME ++
  le_bytes 2 DOS_DATE ++ le_bytes 4 crc ++ le_bytes 4 size ++ le_bytes 4 size ++ le_bytes 2 nameLength ++ le_bytes 2 0 ++
  le_bytes 2 0 ++ le_bytes 2 0 ++ le_bytes 2 0 ++ le_bytes 4 0 ++ le_bytes 4 offset.

Definition end_fields (count centralSize centralStart : Z) : list Z :=
  le_bytes 4 0x06054b50 ++ le_bytes 2 0 ++ le_bytes 2 0 ++ le_bytes 2 count ++ le_bytes 2 count ++
  le_bytes 4 centralSize ++ le_bytes 4 centralStart ++ le_bytes 2 0.

(** The writes go through the buffer from left to right. *)
Lemma write_next k v p n :
  fits k v = true -> write_le k v (length p) (p ++ replicate (k + n) 0) = Some ((p ++ le_bytes k v) ++ replicate n 0).
Proof.
  intros E. unfold write_le. rewrite E, take_app_length, drop_app_add, <- app_assoc. do 3 f_equal.
  rewrite replicate_add. by rewrite drop_app_length' by by rewrite length_replicate.
Qed.

Lemma write_le_throws k v off buf : fits k v = false -> write_le k v off buf = None.
Proof. unfold write_le. by intros ->. Qed.

Ltac run_write :=
  match goal with
  | |- context [write_le ?k ?v ?off (?p ++ replicate ?n 0)] =>
      match goal with
      | H : fits k v = false |- _ => rewrite (write_le_throws k v off _ H)
      | _ =>
        let m := eval cbv in (n - k)%nat in
        let E := fresh in
        assert (E : fits k v = true) by (assumption || (vm_compute; reflexivity));
        change (write_le k v off (p ++ replicate n 0)) with (write_le k v (length p) (p ++ replicate (k + m) 0));
        rewrite (write_next k v p m E); clear E
      end; cbn [mbind option_bind]
  end.

(** Run the writes of a header; [fits] is known of each value. *)
Ltac run_writes :=
  unfold writeUInt32LE, writeUInt16LE, alloc;
  match goal with |- context [replicate ?n 0] => change (replicate n 0) with ([] ++ replicate n 0) end;
  repeat run_write; rewrite ?app_nil_r, <- ?app_assoc, ?app_nil_l.

Lemma local_header_spec crc size nl :
  local_header crc size nl = if fits 4 crc && fits 4 size && fits 2 nl then Some (local_fields crc size nl) else None.
Proof.
  unfold local_header. destruct (fits 4 crc) eqn:E1; [|by run_writes]. destruct (fits 4 size) eqn:E2; [|by run_writes].
  destruct (fits 2 nl) eqn:E3; [|by run_writes]. run_writes. reflexivity.
Qed.

Lemma central_header_spec crc size nl off :
  central_header crc size nl off =
  if fits 4 crc && fits 4 size && fits 2 nl && fits 4 off then Some (central_fields crc size nl off) else None.
Proof.
  unfold central_header. destruct (fits 4 crc) eqn:E1; [|by run_writes]. destruct (fits 4 size) eqn:E2; [|by run_writes].
  destruct (fits 2 nl) eqn:E3; [|by run_writes]. destruct (fits 4 off) eqn:E4; [|by run_writes]. run_writes. reflexivity.
Qed.

Lemma end_record_spec n cs st :
  end_record n cs st = if fits 2 n && fits 4 cs && fits 4 st then Some (end_fields n cs st) else None.
Proof.
  unfold end_record. destruct (fits 2 n) eqn:E1; [|by run_writes]. destruct (fits 4 cs) eqn:E2; [|by run_writes].
  destruct (fits 4 st) eqn:E3; [|by run_writes]. run_writes. reflexivity.
Qed.

(** ** Reading it back *)

Definition entry (e : ZipEntry) : list Z * list Z := (nameBuf e, dataBuf e).

Definition local_part (e : ZipEntry) : list Z :=
  local_fields (crc32 (dataBuf e)) (len (dataBuf e)) (len (nameBuf e)) ++ nameBuf e ++ dataBuf e.

Definition central_part (off : Z) (e : ZipEntry) : list Z :=
  central_fields (crc32 (dataBuf e)) (len (dataBuf e)) (len (nameBuf e)) off ++ nameBuf e.

Definition local_size (e : ZipEntry) : Z := 30 + len (nameBuf e) + len (dataBuf e).

Definition locals (es : list ZipEntry) : list Z := flat_map local_part es.

Fixpoint centrals (off : Z) (es : list ZipEntry) : list Z :=
  match es with [] => [] | e :: r => central_part off e ++ centrals (off + local_size e) r end.

Definition locals_size (es : list ZipEntry) : Z := foldr (fun e n => local_size e + n) 0 es.

(** What has to fit in the fields of an entry at [off], and of all of them. *)
Definition entry_fits (off : Z) (e : ZipEntry) : bool :=
  fits 4 (len (dataBuf e)) && fits 2 (len (nameBuf e)) && fits 4 off.

Fixpoint entries_fit (off : Z) (es : list ZipEntry) : bool :=
  match es with [] => true | e :: r => entry_fits off e && entries_fit (off + local_size e) r end.

Lemma crc32_fits buf : fits 4 (crc32 buf) = true.
Proof. apply fits_spec, u32_range. Qed.

Lemma add_entries_spec es L C off :
  add_entries es L C off =
  if entries_fit off es then Some (L ++ locals es, C ++ centrals off es, off + locals_size es) else None.
Proof.
  revert L C off; induction es as [|e es IH]; intros L C off.
  - simpl. by rewrite !app_nil_r, Z.add_0_r.
  - cbn [add_entries entries_fit locals flat_map centrals locals_size foldr]. fold (locals es) (locals_size es).
    rewrite local_header_spec, crc32_fits. unfold entry_fits.
    destruct (fits 4 (len (dataBuf e))) eqn:E1; [|done]. destruct (fits 2 (len (nameBuf e))) eqn:E2; [|done].
    cbn [andb mbind option_bind]. rewrite central_header_spec, crc32_fits, E1, E2. cbn [andb].
    destruct (fits 4 off) eqn:E3; [|done]. cbn [mbind option_bind andb]. rewrite IH.
    replace (off + len (local_fields (crc32 (dataBuf e)) (len (dataBuf e)) (len (nameBuf e))) + len (nameBuf e) + len (dataBuf e))
      with (off + local_size e) by (unfold local_size; change (len (local_fields _ _ _)) with 30; lia).
    destruct (entries_fit (off + local_size e) es); [|done]. unfold local_part, central_part.
    do 2 f_equal; [|lia]. by rewrite <- !app_assoc.
Qed.

Lemma locals_length es : len (locals es) = locals_size es.
Proof.
  induction es as [|e es IH]; [done|]. cbn [locals flat_map locals_size foldr]. fold (locals es) (locals_size es).
  rewrite len_app, IH. unfold local_part, local_size. rewrite !len_app. change (len (local_fields _ _ _)) with 30. lia.
Qed.

(** The archive, and exactly when building it throws. *)
Lemma buildZip_spec es :
  buildZip es =
  if entries_fit 0 es && fits 2 (len es) && fits 4 (len (centrals 0 es)) && fits 4 (locals_size es)
  then Some (locals es ++ centrals 0 es ++ end_fields (len es) (len (centrals 0 es)) (locals_size es)) else None.
Proof.
  unfold buildZip. rewrite add_entries_spec. destruct (entries_fit 0 es); [|done]. cbn [mbind option_bind andb].
  rewrite end_record_spec. cbn [app]. rewrite Z.add_0_l.
  by destruct (fits 2 (len es)), (fits 4 (len (centrals 0 es))), (fits 4 (locals_size es)).
Qed.

(** The fields of the records, where a reader looks for them. *)
Ltac read_field v k :=
  unfold read_nat; change (of_le (le_bytes k v) = v) || change (Z.to_nat (of_le (le_bytes k v)) = Z.to_nat v);
  rewrite ?of_le_bytes by (first [by apply fits_spec | lia]); reflexivity.

Lemma local_reads crc size nl r :
  fits 4 crc = true -> fits 4 size = true -> fits 2 nl = true ->
  let l := local_fields crc size nl ++ r in
  read_le 4 0 l = 0x04034b50 /\ read_nat 2 26 l = Z.to_nat nl /\ read_nat 2 28 l = 0%nat.
Proof.
  intros H1 H2 H3 l. split; [|split].
  - read_field 0x04034b50 4%nat.
  - read_field nl 2%nat.
  - reflexivity.
Qed.

Lemma central_reads crc size nl off r :
  fits 4 crc = true -> fits 4 size = true -> fits 2 nl = true -> fits 4 off = true ->
  let c := central_fields crc size nl off ++ r in
  read_le 4 0 c = 0x02014b50 /\ read_le 2 10 c = 0 /\ read_le 4 16 c = crc /\ read_nat 4 24 c = Z.to_nat size /\
  read_nat 2 28 c = Z.to_nat nl /\ read_nat 2 30 c = 0%nat /\ read_nat 2 32 c = 0%nat /\ read_nat 4 42 c = Z.to_nat off.
Proof.
  intros H1 H2 H3 H4 c. split_and!; try reflexivity.
  - read_field crc 4%nat.
  - read_field size 4%nat.
  - read_field nl 2%nat.
  - read_field off 4%nat.
Qed.

Lemma end_reads n cs st :
  fits 2 n = true -> fits 4 cs = true -> fits 4 st = true ->
  let e := end_fields n cs st in
  read_le 4 0 e = 0x06054b50 /\ read_nat 2 10 e = Z.to_nat n /\ read_nat 4 16 e = Z.to_nat st.
Proof.
  intros H1 H2 H3 e. split; [|split].
  - read_field 0x06054b50 4%nat.
  - read_field n 2%nat.
  - read_field st 4%nat.
Qed.

Lemma nat_len {A} (l : list A) : Z.to_nat (len l) = length l.
Proof. unfold len. apply Nat2Z.id. Qed.

(** What follows a record of [n] bytes and a name. *)
Lemma after_name n (h nm d r : list Z) :
  length h = n -> take (length d) (drop (n + length nm + 0) (h ++ nm ++ d ++ r)) = d.
Proof.
  intros <-. rewrite Nat.add_0_r, app_assoc, <- length_app, drop_app_length. by rewrite take_app_length.
Qed.

Lemma read_local_spec off e r b :
  entry_fits off e = true -> drop (Z.to_nat off) b = local_part e ++ r ->
  read_local (Z.to_nat off) (Z.to_nat (len (dataBuf e))) (crc32 (dataBuf e)) b = Some (dataBuf e).
Proof.
  unfold entry_fits. rewrite !andb_true_iff. intros [[H1 H2] _] Hd. unfold read_local. rewrite Hd. unfold local_part.
  rewrite <- app_assoc. edestruct local_reads as (-> & -> & ->); [apply crc32_fits|exact H1|exact H2|].
  rewrite Z.eqb_refl, !nat_len, <- app_assoc. cbn [negb]. rewrite after_name by done.
  unfold len. by rewrite !Z.eqb_refl.
Qed.

(** The central directory of the entries from [off] on, read at [pos]. *)
Lemma read_central_spec es off pos b r r' :
  0 <= off -> entries_fit off es = true -> drop (Z.to_nat off) b = locals es ++ r -> drop pos b = centrals off es ++ r' ->
  read_central (length es) pos b = Some (entry <$> es).
Proof.
  revert off pos r r'; induction es as [|e es IH]; intros off pos r r' Ho Hf Hl Hc; [done|].
  cbn [entries_fit] in Hf. apply andb_true_iff in Hf as [He Hf]. cbn [locals flat_map centrals] in Hl, Hc. fold (locals es) in Hl.
  rewrite <- app_assoc in Hl, Hc. unfold central_part in Hc. rewrite <- app_assoc in Hc. cbn [length read_central]. rewrite Hc.
  pose proof He as Hs. unfold entry_fits in Hs. rewrite !andb_true_iff in Hs. destruct Hs as [[H1 H2] H3].
  edestruct central_reads as (-> & -> & -> & -> & -> & -> & -> & ->); [apply crc32_fits|exact H1|exact H2|exact H3|].
  rewrite !Z.eqb_refl. cbn [negb orb]. rewrite (read_local_spec off e _ b He Hl). cbn [mbind option_bind].
  rewrite !nat_len. rewrite (IH (off + local_size e) _ r r').
  - cbn [mbind option_bind]. f_equal. cbn [fmap list_fmap]. f_equal. unfold entry. f_equal.
    rewrite drop_app_length' by done. by rewrite take_app_length.
  - unfold local_size. pose proof (len_nonneg (nameBuf e)). pose proof (len_nonneg (dataBuf e)). lia.
  - done.
  - rewrite Z2Nat.inj_add, <- drop_drop, Hl by (unfold local_size, len; lia). rewrite drop_app_length'; [done|].
    unfold local_part, local_size. rewrite !length_app. change (length (local_fields _ _ _)) with 30%nat. unfold len. lia.
  - rewrite !Nat.add_0_r, <- drop_drop, Hc, app_assoc, drop_app_length'; [done|]. rewrite length_app. done.
Qed.

Definition central_size (es : list ZipEntry) : Z := foldr (fun e n => 46 + len (nameBuf e) + n) 0 es.

Lemma centrals_length off es : len (centrals off es) = central_size es.
Proof.
  revert off; induction es as [|e es IH]; intros off; [done|]. cbn [centrals central_size foldr]. fold (central_size es).
  rewrite len_app, IH. unfold central_part. rewrite len_app. change (len (central_fields _ _ _ _)) with 46. lia.
Qed.

Lemma locals_size_nonneg es : 0 <= locals_size es.
Proof. rewrite <- locals_length. apply len_nonneg. Qed.

Lemma fits_len {A} k (l : list A) : fits k (len l) = true <-> len l < 256 ^ Z.of_nat k.
Proof. rewrite fits_spec. pose proof (len_nonneg l). lia. Qed.

Lemma entries_fit_spec off es :
  0 <= off -> off + locals_size es < 2 ^ 32 -> entries_fit off es = true <-> Forall (fun e => len (nameBuf e) <= 65535) es.
Proof.
  revert off; induction es as [|e es IH]; intros off Ho Hb; [by split|]. cbn [entries_fit locals_size foldr] in *. fold (locals_size es) in Hb.
  pose proof (len_nonneg (nameBuf e)). pose proof (len_nonneg (dataBuf e)). pose proof (locals_size_nonneg es).
  rewrite Forall_cons, andb_true_iff, IH by (unfold local_size in *; lia). unfold entry_fits.
  rewrite !andb_true_iff, !fits_len, fits_spec. change (256 ^ Z.of_nat 4) with (2 ^ 32). change (256 ^ Z.of_nat 2) with 65536.
  unfold local_size in *. intuition lia.
Qed.

Lemma entries_fit_names off es : entries_fit off es = true -> Forall (fun e => len (nameBuf e) <= 65535) es.
Proof.
  revert off; induction es as [|e es IH]; intros off; [by constructor|]. cbn [entries_fit]. unfold entry_fits.
  rewrite !andb_true_iff, !fits_len. change (256 ^ Z.of_nat 2) with 65536. intros [[[_ Hn] _] Hf]. constructor; [lia|by eapply IH].
Qed.

(** The archive is read back. *)
Lemma unzip_build es z : buildZip es = Some z -> unzip z = Some (entry <$> es).
Proof.
  rewrite buildZip_spec. intros Hz. destruct (entries_fit 0 es && _ && _ && _) eqn:E; [|done]. injection Hz as <-.
  rewrite !andb_true_iff in E. destruct E as [[[E1 E2] E3] E4].
  unfold unzip. rewrite app_assoc, drop_app_length' by (rewrite (length_app _ (end_fields _ _ _)); change (length (end_fields _ _ _)) with 22%nat; lia).
  edestruct end_reads as (-> & -> & ->); [exact E2|exact E3|exact E4|]. rewrite Z.eqb_refl, nat_len. cbn [negb].
  eapply (read_central_spec es 0); [lia|done|by rewrite drop_0, <- app_assoc|].
  rewrite <- app_assoc, drop_app_length'; [done|]. by rewrite <- locals_length, nat_len.
Qed.

(** C27. Whatever [buildZip] returns, a reader that goes through the end record
    and the central directory and verifies every checksum gets back the names and
    contents of the entries, in order. It returns, instead of throwing, exactly
    when the number of entries and every name fit in 16 bits and the entries and
    the directory in 32. *)
Theorem buildZip_roundtrip es :
  (forall z, buildZip es = Some z -> unzip z = Some (entry <$> es)) /\
  (is_Some (buildZip es) <->
     len es <= 65535 /\ Forall (fun e => len (nameBuf e) <= 65535) es /\ locals_size es < 2 ^ 32 /\ central_size es < 2 ^ 32).
Proof.
  split; [by apply unzip_build|]. rewrite buildZip_spec, centrals_length. pose proof (locals_size_nonneg es) as Hl.
  split.
  - intros [z Hz]. destruct (entries_fit 0 es && _ && _ && _) eqn:E; [|done].
    rewrite !andb_true_iff, fits_len, !fits_spec in E. destruct E as [[[E1 E2] E3] E4].
    split_and!; [change (256 ^ Z.of_nat 2) with 65536 in E2; lia|by eapply entries_fit_names|apply E4|apply E3].
  - intros (H1 & H2 & H3 & H4). rewrite (proj2 (entries_fit_spec 0 es ltac:(lia) ltac:(lia)) H2).
    rewrite (proj2 (fits_len 2 es)) by (change (256 ^ Z.of_nat 2) with 65536; lia).
    rewrite (proj2 (fits_spec 4 (locals_size es))) by (split; [lia|exact H3]).
    rewrite (proj2 (fits_spec 4 (central_size es))); [done|]. rewrite <- (centrals_length 0). split; [apply len_nonneg|].
    by rewrite centrals_length.
Qed.

Definition demo_entries : list ZipEntry :=
  [ {| name := "audit.json"; data := Text "[]" |}; {| name := "key"; data := Bytes [0; 255; 7] |} ].

Lemma crc32_reference_witness : crc32 [1; 2; 3] <> crc32 [1; 9; 3].
Proof.
  intros He. assert (H : [2] = [9]); [|done].
  apply (proj2 crc32_reference [1] [2] [9] [3]); [repeat constructor; unfold is_byte; lia..|done|simpl; lia|exact He].
Defined.

Lemma buildZip_roundtrip_witness :
  exists z, buildZip demo_entries = Some z /\ unzip z = Some [(utf8 "audit.json", [91; 93]); (utf8 "key", [0; 255; 7])].
Proof.
  destruct (proj2 (proj2 (buildZip_roundtrip demo_entries))) as [z Hz].
  - split_and!; [vm_compute; discriminate|repeat constructor; vm_compute; discriminate|vm_compute; reflexivity..].
  - exists z. split; [exact Hz|]. exact (proj1 (buildZip_roundtrip demo_entries) z Hz).
Defined.
