(* ===== verification/Csv.v ===== *)
(** Comma-separated text as the exports write it (RFC 4180): the cell
    functions [csvCell] and [csvEscape], which the files [*Export.ts] of
    [web/lib] each hold a copy of, the lines joined from cells, and a reader of
    the format against which the exports are checked. *)
From S2P Require Import Prelude.

Definition DQ : Ascii.ascii := "034"%char.
Definition LF : Ascii.ascii := "010"%char.
Definition CR : Ascii.ascii := "013"%char.
Definition TAB : Ascii.ascii := "009"%char.
Definition nl : string := String LF "".

Definition one_of (l : list Ascii.ascii) (c : Ascii.ascii) : bool := existsb (Ascii.eqb c) l.

Fixpoint str_exists (p : Ascii.ascii -> bool) (s : string) : bool := match s with "" => false | String c r => p c || str_exists p r end.

(** [v.replace] of each double quote by two. *)
Fixpoint double_quotes (s : string) : string :=
  match s with "" => "" | String c r => if Ascii.eqb c DQ then String DQ (String DQ (double_quotes r)) else String c (double_quotes r) end.

Definition special : Ascii.ascii -> bool := one_of [DQ; ","%char; CR; LF].

Definition csvCell (v : string) : string :=
  if str_exists special v then String DQ (double_quotes v +:+ String DQ "") else v.

(** A spreadsheet takes a cell that begins so for a formula. *)
Definition formula_leader : Ascii.ascii -> bool := one_of ["="; "+"; "-"; "@"; TAB; CR]%char.

Definition guard (v : string) : string := match v with "" => "" | String c _ => if formula_leader c then String "'" v else v end.

Definition csvEscape (v : string) : string := if String.eqb v "" then "" else csvCell (guard v).

(** [[...].join(",")], and the lines joined and ended by line feeds. *)
Definition line (cells : list string) : string := join "," cells.
Definition document (lines : list string) : string := join nl lines +:+ nl.

(** ** A reader *)

Inductive position := Start | Bare | Quoted | Closing.

(** [cur] is the field being read, [row] the fields before it, [rows] the rows
    before that. *)
Fixpoint read_csv (p : position) (cur : string) (row : list string) (rows : list (list string)) (s : string)
  : option (list (list string)) :=
  match s with
  | "" => match p, row with Start, [] => Some rows | _, _ => None end
  | String c r =>
      match p with
      | Quoted => if Ascii.eqb c DQ then read_csv Closing cur row rows r else read_csv Quoted (cur +:+ String c "") row rows r
      | _ =>
          if Ascii.eqb c DQ then
            match p with
            | Start => read_csv Quoted "" row rows r
            | Closing => read_csv Quoted (cur +:+ String DQ "") row rows r
            | _ => None
            end
          else if Ascii.eqb c ","%char then read_csv Start "" (row ++ [cur]) rows r
          else if Ascii.eqb c LF then read_csv Start "" [] (rows ++ [row ++ [cur]]) r
          else match p with
               | Closing => None
               | _ => if Ascii.eqb c CR then None else read_csv Bare (cur +:+ String c "") row rows r
               end
      end
  end.

Definition parse_csv (s : string) : option (list (list string)) := read_csv Start "" [] [] s.

(** ** What is written is read back *)

Definition separator (c : Ascii.ascii) : bool := Ascii.eqb c ","%char || Ascii.eqb c LF.

(** Reading a field that ends with a comma or a line feed. *)
Lemma read_bare p cur row rows v c r : str_exists special v = false -> separator c = true -> (p = Start \/ p = Bare) ->
  read_csv p cur row rows (v +:+ String c r) =
    if Ascii.eqb c ","%char then read_csv Start "" (row ++ [cur +:+ v]) rows r else read_csv Start "" [] (rows ++ [row ++ [cur +:+ v]]) r.
Proof.
  intros Hv Hc. revert p cur; induction v as [|d v IH]; intros p cur Hp.
  - rewrite str_app_nil. change ("" +:+ String c r) with (String c r). unfold separator in Hc. apply orb_prop in Hc as [Hc|Hc]; apply Ascii.eqb_eq in Hc as ->;
      destruct Hp as [->| ->]; done.
  - cbn [str_exists] in Hv. apply orb_false_elim in Hv as [Hd Hv]. rewrite str_cons_app. cbn [read_csv].
    unfold special, one_of in Hd. cbn [existsb] in Hd. destruct (Ascii.eqb d DQ); [done|]. destruct (Ascii.eqb d ","%char); [done|].
    destruct (Ascii.eqb d CR); [done|]. destruct (Ascii.eqb d LF); [done|].
    assert (read_csv Bare (cur +:+ String d "") row rows (v +:+ String c r) =
      if Ascii.eqb c ","%char then read_csv Start "" (row ++ [cur +:+ String d v]) rows r else read_csv Start "" [] (rows ++ [row ++ [cur +:+ String d v]]) r) as E.
    { rewrite IH by auto. by rewrite str_app_assoc. }
    destruct Hp as [->| ->]; exact E.
Qed.

Lemma read_quoted cur row rows v c r : separator c = true ->
  read_csv Quoted cur row rows (double_quotes v +:+ String DQ (String c r)) =
    if Ascii.eqb c ","%char then read_csv Start "" (row ++ [cur +:+ v]) rows r else read_csv Start "" [] (rows ++ [row ++ [cur +:+ v]]) r.
Proof.
  intros Hc. revert cur; induction v as [|d v IH]; intros cur.
  - rewrite str_app_nil. unfold separator in Hc. apply orb_prop in Hc as [Hc|Hc]; apply Ascii.eqb_eq in Hc as ->; done.
  - cbn [double_quotes]. destruct (Ascii.eqb d DQ) eqn:Ed.
    + apply Ascii.eqb_eq in Ed as ->. rewrite !str_cons_app. cbn [read_csv]. rewrite Ascii.eqb_refl. rewrite IH. by rewrite str_app_assoc.
    + rewrite !str_cons_app. cbn [read_csv]. rewrite Ed, IH. by rewrite str_app_assoc.
Qed.

Lemma read_cell row rows v c r : separator c = true ->
  read_csv Start "" row rows (csvCell v +:+ String c r) =
    if Ascii.eqb c ","%char then read_csv Start "" (row ++ [v]) rows r else read_csv Start "" [] (rows ++ [row ++ [v]]) r.
Proof.
  intros Hc. unfold csvCell. destruct (str_exists special v) eqn:E.
  - rewrite str_cons_app, str_app_assoc. cbn [read_csv]. rewrite Ascii.eqb_refl. by apply read_quoted.
  - by apply read_bare; [| |left].
Qed.

Lemma read_line vs : vs <> [] -> forall row rows r,
  read_csv Start "" row rows (line (csvCell <$> vs) +:+ String LF r) = read_csv Start "" [] (rows ++ [row ++ vs]) r.
Proof.
  unfold line. induction vs as [|v vs IH]; [done|]. intros _ row rows r. destruct vs as [|w vs].
  - change (join "," (csvCell <$> [v])) with (csvCell v). by rewrite read_cell.
  - change (join "," (csvCell <$> v :: w :: vs)) with (csvCell v +:+ String "," (join "," (csvCell <$> w :: vs))).
    rewrite str_app_assoc, str_cons_app, read_cell by done. cbn [Ascii.eqb]. rewrite IH by done. simpl. by rewrite <- app_assoc.
Qed.

(** A document of non-empty rows. *)
Lemma parse_document rows : Forall (fun vs => vs <> []) rows -> rows <> [] ->
  parse_csv (document ((fun vs => line (csvCell <$> vs)) <$> rows)) = Some rows.
Proof.
  unfold parse_csv, document. intros Hr Hne.
  enough (forall done_, read_csv Start "" [] done_ (join nl ((fun vs => line (csvCell <$> vs)) <$> rows) +:+ nl) = Some (done_ ++ rows)) as H
    by apply (H []).
  induction Hr as [|vs rows Hvs _ IH]; [done|]. intros done_. destruct rows as [|ws rows].
  - change (join nl _ +:+ nl) with (line (csvCell <$> vs) +:+ String LF ""). by rewrite read_line.
  - change (join nl ((fun vs => line (csvCell <$> vs)) <$> vs :: ws :: rows))
      with (line (csvCell <$> vs) +:+ String LF (join nl ((fun vs => line (csvCell <$> vs)) <$> ws :: rows))).
    rewrite str_app_assoc, str_cons_app, read_line by done. rewrite IH by done. by rewrite <- app_assoc.
Qed.

(** Text without special characters is its own cell. *)
Lemma csvCell_plain v : str_exists special v = false -> csvCell v = v.
Proof. unfold csvCell. by intros ->. Qed.

Lemma csvEscape_guard v : csvEscape v = csvCell (guard v).
Proof. unfold csvEscape. by destruct v. Qed.

(** The guarded text never begins like a formula, and is the text itself or the
    text behind an apostrophe. *)
Lemma guard_safe v : match guard v with "" => True | String c _ => formula_leader c = false end.
Proof. destruct v as [|c v]; [done|]. simpl. destruct (formula_leader c) eqn:E; [done|exact E]. Qed.

Lemma guard_recovers v : guard v = v \/ guard v = String "'" v.
Proof. destruct v as [|c v]; [by left|]. simpl. destruct (formula_leader c); auto. Qed.
