(* ===== verification/Exports.v ===== *)
(** The CSV exports: [runsToCSV] of [web/lib/runStore.ts] and the files
    [activityExport.ts], [bracketsExport.ts], [earningsExport.ts],
    [newsExport.ts], [stopsExport.ts], [taxExport.ts], [usageExport.ts],
    [watchesExport.ts], [journalExport.ts] and [webhookDeliveriesExport.ts],
    with the filters of the pages that offer them. The order of the locale
    ([localeCompare]) and the text of a number are parameters. *)
From S2P Require Import Prelude JsNum JsDate IsoTime Json Store Csv Runs Webhooks.

Section Exports.
Context (localeCompare : string -> string -> Z) (num_str : num -> string).

(** The first of several comparisons that is not 0. *)
Fixpoint first_nonzero (cs : list Z) : Z := match cs with [] => 0 | [c] => c | c :: r => if negb (c =? 0) then c else first_nonzero r end.

Definition bool_str (b : bool) : string := if b then "true" else "false".

(** [num]: nothing for a missing or infinite number. *)
Definition num_or_empty (n : option num) : string := match n with Some n => if is_finite n then num_str n else "" | None => "" end.

Definition cell_of (s : option string) : string := csvCell (default "" s).
Definition escape_of (s : option string) : string := csvEscape (default "" s).

(** ** Saved runs *)

Definition runs_header : list string :=
  ["run_id"; "label"; "ticker"; "lookback_days"; "created_at"; "tags"; "regime_label"; "confidence"; "risk_scale"; "bar_date"; "close"; "bar_regime"].

(** The cells of a run that every bar repeats. *)
Definition run_cells (r : SavedRun) : list string :=
  [Runs.id r; Runs.label r; Runs.ticker r; num_str (Runs.lookback_days r); created r; join "|" (default [] (tags r));
   default "" (s_label <$> snapshot (payload r)); default "" ((fun s => num_str (confidence s)) <$> snapshot (payload r));
   default "" ((fun s => num_str (risk_scale s)) <$> snapshot (payload r))].

Definition bar_cells (p : Payload) (i : nat) (d : string) : list string :=
  [d; default "" (num_str <$> close p !! i); default "" (mjoin (Runs.regime p !! i))].

Definition run_rows (r : SavedRun) : list (list string) :=
  if len (dates (payload r)) =? 0 then [run_cells r ++ [""; ""; ""]]
  else imap (fun i d => run_cells r ++ bar_cells (payload r) i d) (dates (payload r)).

Definition runsToCSV (rs : runs) : string :=
  document (join "," runs_header :: ((fun cells => join "," (csvCell <$> cells)) <$> flat_map run_rows rs)).

(** ** Activity *)

Record ActivityEvent := { a_id : string; a_kind : string; a_title : string; a_body : string; a_href : option string; a_created_at : string; a_read : bool }.

Definition sortedActivity (rows : list ActivityEvent) : list ActivityEvent :=
  js_sort (fun a b => first_nonzero [localeCompare (a_created_at b) (a_created_at a); localeCompare (a_id a) (a_id b)]) rows.

Definition activity_cells (r : ActivityEvent) : list string :=
  [csvEscape (a_created_at r); csvEscape (a_kind r); csvEscape (a_title r); csvEscape (a_body r); escape_of (a_href r); bool_str (a_read r);
   csvEscape (a_id r)].

Definition activityEventsToCSV (rows : list ActivityEvent) : string :=
  document ("created_at,kind,title,body,href,read,id" :: (line ∘ activity_cells <$> sortedActivity rows)).

(** ** Brackets *)

Record Bracket := {
  b_id : string; b_ticker : string; b_side : string; b_entry : num; b_stop : num; b_target : num; b_shares : num; b_status : string;
  b_note : string; b_created_at : string; b_actual_entry : option num; b_actual_exit : option num; b_exit_reason : option string;
  b_planned_r : num; b_planned_risk : num; b_realized_r : option num; b_realized_pnl : option num }.

Definition statusRank (s : string) : Z :=
  if String.eqb s "open" then 0 else if String.eqb s "filled" then 1
  else if String.eqb s "closed_win" || String.eqb s "closed_loss" then 2 else if String.eqb s "cancelled" then 3 else 4.

Definition sortedPlans (rows : list Bracket) : list Bracket :=
  js_sort (fun a b => first_nonzero [statusRank (b_status a) - statusRank (b_status b); localeCompare (b_ticker a) (b_ticker b);
    localeCompare (b_created_at a) (b_created_at b); localeCompare (b_id a) (b_id b)]) rows.

Definition matchStatus (p : Bracket) (status : string) : bool :=
  if String.eqb status "all" then true
  else if String.eqb status "live" then String.eqb (b_status p) "open" || String.eqb (b_status p) "filled"
  else if String.eqb status "closed" then String.eqb (b_status p) "closed_win" || String.eqb (b_status p) "closed_loss"
  else String.eqb (b_status p) status.

(** A free-text filter on the ticker, as the three pages apply it. *)
Definition ticker_query (q : option string) : string := to_upper (trim (default "" q)).
Definition ticker_hit (q t : string) : bool := negb (truthy q) || str_includes q (to_upper t).

Definition filterPlans (rows : list Bracket) (q status : option string) : list Bracket :=
  filter (fun p => ticker_hit (ticker_query q) (b_ticker p) && matchStatus p (default "all" status) = true) rows.

Definition bracket_cells (r : Bracket) : list string :=
  [csvCell (b_ticker r); csvCell (b_side r); num_or_empty (Some (b_shares r)); num_or_empty (Some (b_entry r)); num_or_empty (Some (b_stop r));
   num_or_empty (Some (b_target r)); num_or_empty (Some (b_planned_r r)); num_or_empty (Some (b_planned_risk r)); csvCell (b_status r);
   num_or_empty (b_actual_entry r); num_or_empty (b_actual_exit r); cell_of (b_exit_reason r); num_or_empty (b_realized_r r);
   num_or_empty (b_realized_pnl r); csvCell (b_created_at r); csvCell (b_note r); csvCell (b_id r)].

Definition bracketsToCSV (rows : list Bracket) : string :=
  document ("ticker,side,shares,entry,stop,target,planned_r,planned_risk_usd,status,actual_entry,actual_exit,exit_reason,realized_r,realized_pnl_usd,created_at,note,id"
    :: (line ∘ bracket_cells <$> sortedPlans rows)).

(** ** Earnings and news *)

Record EarningsRow := { e_ticker : string; next_report : string; confirmed : bool; e_source : string }.

Definition sortedEarnings (rows : list EarningsRow) : list EarningsRow :=
  js_sort (fun a b => first_nonzero [localeCompare (next_report a) (next_report b); localeCompare (e_ticker a) (e_ticker b)]) rows.

Definition earnings_cells (r : EarningsRow) : list string :=
  [csvCell (e_ticker r); csvCell (next_report r); bool_str (confirmed r); csvCell (e_source r)].

Definition earningsToCSV (rows : list EarningsRow) : string :=
  document ("ticker,next_report,confirmed,source" :: (line ∘ earnings_cells <$> sortedEarnings rows)).

Record NewsEvent := { n_id : string; n_ticker : string; headline : string; event_date : string; n_tags : list string; n_source : string; n_url : string }.

Definition sortedNews (rows : list NewsEvent) : list NewsEvent :=
  js_sort (fun a b => first_nonzero [localeCompare (event_date b) (event_date a); localeCompare (n_ticker a) (n_ticker b);
    localeCompare (n_id a) (n_id b)]) rows.

Definition news_cells (r : NewsEvent) : list string :=
  [csvCell (event_date r); csvCell (to_upper (n_ticker r)); csvCell (headline r); csvCell (join "|" (n_tags r)); csvCell (n_source r);
   csvCell (n_url r); csvCell (n_id r)].

Definition newsEventsToCSV (rows : list NewsEvent) : string :=
  document ("event_date,ticker,headline,tags,source,url,id" :: (line ∘ news_cells <$> sortedNews rows)).

(** ** Stops and tax *)

Record StopRule := { st_id : string; st_ticker : string; st_kind : string; st_value : num; high_water : option num; armed_at : string; st_note : string }.

Definition sortedRules (rows : list StopRule) : list StopRule :=
  js_sort (fun a b => first_nonzero [localeCompare (st_ticker a) (st_ticker b); localeCompare (st_kind a) (st_kind b);
    localeCompare (st_id a) (st_id b)]) rows.

Definition stop_cells (r : StopRule) : list string :=
  [csvCell (st_ticker r); csvCell (st_kind r); num_or_empty (Some (st_value r)); num_or_empty (high_water r); csvCell (armed_at r);
   csvCell (st_note r); csvCell (st_id r)].

Definition stopsToCSV (rows : list StopRule) : string :=
  document ("ticker,kind,value,high_water,armed_at,note,id" :: (line ∘ stop_cells <$> sortedRules rows)).

Definition filterStops (rows : list StopRule) (q kind : option string) : list StopRule :=
  filter (fun r => ticker_hit (ticker_query q) (st_ticker r) &&
    (String.eqb (default "all" kind) "all" || String.eqb (st_kind r) (default "all" kind)) = true) rows.

Record TaxEvent := {
  t_ticker : string; sell_trade_id : string; sell_date : string; quantity : num; proceeds : num; cost_basis : num; realized_pnl : num;
  lot_acquired : option string; holding_days : option num; long_term : option bool }.

Definition sortedTax (rows : list TaxEvent) : list TaxEvent :=
  js_sort (fun a b => first_nonzero [localeCompare (sell_date a) (sell_date b); localeCompare (t_ticker a) (t_ticker b);
    localeCompare (sell_trade_id a) (sell_trade_id b)]) rows.

Definition tax_cells (r : TaxEvent) : list string :=
  [csvCell (sell_date r); csvCell (t_ticker r); num_or_empty (Some (quantity r)); num_or_empty (Some (proceeds r)); num_or_empty (Some (cost_basis r));
   num_or_empty (Some (realized_pnl r)); default "" (num_str <$> holding_days r); default "" (bool_str <$> long_term r);
   cell_of (lot_acquired r); csvCell (sell_trade_id r)].

Definition taxEventsToCSV (rows : list TaxEvent) : string :=
  document ("sell_date,ticker,quantity,proceeds,cost_basis,realized_pnl,holding_days,long_term,lot_acquired,sell_trade_id"
    :: (line ∘ tax_cells <$> sortedTax rows)).

(** ** Watches *)

Record WatchRow := {
  w_id : string; w_ticker : string; w_lookback : num; cadence_hours : num; enabled : bool; w_label : string; w_created_at : string;
  last_run_at : option string; last_run_id : option string; last_regime : option string; last_error : option string; runs_count : num }.

Definition sortedWatches (rows : list WatchRow) : list WatchRow :=
  js_sort (fun a b => first_nonzero [localeCompare (w_ticker a) (w_ticker b); localeCompare (w_created_at a) (w_created_at b);
    localeCompare (w_id a) (w_id b)]) rows.

Definition filterWatches (rows : list WatchRow) (q state : option string) : list WatchRow :=
  filter (fun w => ticker_hit (ticker_query q) (w_ticker w) && negb (String.eqb (default "all" state) "active" && negb (enabled w)) &&
    negb (String.eqb (default "all" state) "paused" && enabled w) = true) rows.

Definition watch_cells (r : WatchRow) : list string :=
  [csvEscape (w_ticker r); csvEscape (w_label r); num_str (cadence_hours r); num_str (w_lookback r); bool_str (enabled r); escape_of (last_regime r);
   escape_of (last_run_at r); num_str (runs_count r); escape_of (last_error r); csvEscape (w_created_at r); csvEscape (w_id r)].

Definition watchesToCSV (rows : list WatchRow) : string :=
  document ("ticker,label,cadence_hours,lookback_days,enabled,last_regime,last_run_at,runs_count,last_error,created_at,id"
    :: (line ∘ watch_cells <$> sortedWatches rows)).

(** ** Journal and webhook deliveries *)

Record JournalEntry := {
  trade_id : string; thesis : string; conviction : num; j_tags : list string; exit_reason : option string; j_created_at : string; updated_at : string }.

(** The two time stamps are written as they are. *)
Definition journal_cells (e : JournalEntry) : list string :=
  [csvEscape (trade_id e); j_created_at e; updated_at e; num_str (conviction e); escape_of (exit_reason e); csvEscape (join "|" (j_tags e));
   csvEscape (thesis e)].

Definition entriesToCSV (entries : list JournalEntry) : string :=
  document ("trade_id,created_at,updated_at,conviction,exit_reason,tags,thesis" :: (line ∘ journal_cells <$> entries)).

Definition delivery_cells (d : DeliveryAttempt) : list string :=
  [toISOString (delivered_at d); csvEscape (subscription_id d); csvEscape (d_url d); default "" ((fun s => num_str (int s)) <$> d_status d);
   num_str (int (attempt d)); num_str (int (event_count d)); escape_of (replay_of d); escape_of (d_error d)].

Definition deliveriesToCSV (ds : list DeliveryAttempt) : string :=
  document ("delivered_at,subscription_id,url,status,attempt,event_count,replay_of,error" :: (line ∘ delivery_cells <$> ds)).
End Exports.

(** ** What the exports say *)

Section Facts.
Context (localeCompare : string -> string -> Z) (num_str : num -> string).

Definition plain (s : string) : Prop := str_exists special s = false.

Lemma plain_cells l : Forall plain l -> csvCell <$> l = l.
Proof. induction 1 as [|s l Hs _ IH]; [done|]. rewrite fmap_cons, IH. f_equal. by apply csvCell_plain. Qed.

(** A header and lines whose cells are the cells of [values]. *)
Lemma export_parses {A} (header : list string) (cells values : A -> list string) (rows : list A) :
  header <> [] -> Forall plain header -> Forall (fun r => cells r = csvCell <$> values r /\ values r <> []) rows ->
  parse_csv (document (join "," header :: (line ∘ cells <$> rows))) = Some (header :: (values <$> rows)).
Proof.
  intros Hh Hp Hr. rewrite <- (parse_document (header :: (values <$> rows))); [|constructor; [done|]|done].
  - do 2 f_equal. rewrite fmap_cons. f_equal; [unfold line; by rewrite plain_cells|]. rewrite <- list_fmap_compose.
    apply list_fmap_ext. intros i r Hi. simpl. eapply Forall_lookup in Hr as [-> _]; done.
  - apply Forall_fmap. eapply Forall_impl; [exact Hr|]. by intros r [_ ?].
Qed.

Lemma plain_bool b : plain (bool_str b).
Proof. by destruct b. Qed.

(** An export of saved runs can be read back: the reader of the CSV format
    recovers the header and, for every run in order, one row per bar, or a single
    row for a run without bars, each cell with the exact text of its value,
    whatever commas, quotes and line breaks labels and tags contain. *)
Theorem runs_csv_roundtrip (rs : runs) :
  parse_csv (runsToCSV num_str rs) = Some (runs_header :: flat_map (run_rows num_str) rs) /\
  len (flat_map (run_rows num_str) rs) = foldr (fun r n => Z.max 1 (bars r) + n) 0 rs.
Proof.
  split.
  - rewrite <- (list_fmap_id (flat_map (run_rows num_str) rs)) at 1. apply (export_parses runs_header (fmap csvCell) Datatypes.id).
    + done.
    + by apply (bool_decide_unpack _).
    + apply Forall_forall. intros cells Hin. split; [done|]. apply list_elem_of_In, in_flat_map in Hin as (r & _ & Hin).
      apply list_elem_of_In in Hin. unfold run_rows in Hin. destruct (_ =? 0).
      * by apply list_elem_of_singleton in Hin as ->.
      * apply elem_of_lookup_imap in Hin as (i & d & -> & _). done.
  - unfold len. induction rs as [|r rs IH]; [done|]. cbn [flat_map foldr]. rewrite length_app, Nat2Z.inj_add, IH. f_equal.
    unfold run_rows, bars, len. destruct (_ =? 0) eqn:E; bool_to_prop; [rewrite E; done|]. rewrite length_imap. lia.
Qed.

(** ** Free text cannot become a formula *)

Lemma guard_cell v : csvEscape v = csvCell (guard v).
Proof. apply csvEscape_guard. Qed.

Definition activity_values (r : ActivityEvent) : list string :=
  [guard (a_created_at r); guard (a_kind r); guard (a_title r); guard (a_body r); guard (default "" (a_href r)); bool_str (a_read r); guard (a_id r)].

Definition watch_values (r : WatchRow) : list string :=
  [guard (w_ticker r); guard (w_label r); num_str (cadence_hours r); num_str (w_lookback r); bool_str (enabled r);
   guard (default "" (last_regime r)); guard (default "" (last_run_at r)); num_str (runs_count r); guard (default "" (last_error r));
   guard (w_created_at r); guard (w_id r)].

Definition journal_values (e : JournalEntry) : list string :=
  [guard (trade_id e); j_created_at e; updated_at e; num_str (conviction e); guard (default "" (exit_reason e)); guard (join "|" (j_tags e));
   guard (thesis e)].

Definition delivery_values (d : DeliveryAttempt) : list string :=
  [toISOString (delivered_at d); guard (subscription_id d); guard (d_url d); default "" ((fun s => num_str (int s)) <$> d_status d);
   num_str (int (attempt d)); num_str (int (event_count d)); guard (default "" (replay_of d)); guard (default "" (d_error d))].

(** The text columns of a row. *)
Definition columns (idx : list nat) (row : list string) : list string := (fun i => nth i row "") <$> idx.

(** No formula, and nothing lost but for an apostrophe in front. *)
Definition harmless (v : string) : Prop := match v with "" => True | String c _ => formula_leader c = false end.

Lemma plain_iso t : iso_range t -> plain (toISOString t).
Proof.
  intros H. pose proof (getUTCMonth_range t). pose proof (getUTCDate_range t). destruct (time_field_ranges t) as (Hh & Hmi & Hs & Hms).
  unfold iso_range in H.
  enough (str_forall (fun c => negb (special c)) (toISOString t) = true) as E.
  { unfold plain. clear -E. induction (toISOString t) as [|c s IH]; [done|]. cbn [str_forall str_exists] in *.
    apply andb_prop in E as [Hc E]. rewrite IH by done. by apply negb_true_iff in Hc as ->. }
  assert (forall d, 0 <= d < 10 -> negb (special (digit d)) = true) as Hd.
  { intros d Hd. assert (d = 0 \/ d = 1 \/ d = 2 \/ d = 3 \/ d = 4 \/ d = 5 \/ d = 6 \/ d = 7 \/ d = 8 \/ d = 9) as Hc by lia.
    by repeat destruct Hc as [->|Hc]; try subst d. }
  unfold toISOString. repeat (rewrite str_forall_app; cbn [str_forall]). rewrite !pad_forall by (done || lia). done.
Qed.

Context (num_plain : forall n, plain (num_str n)).

Lemma plain_opt_num {A} (f : A -> num) (o : option A) : plain (default "" ((fun x => num_str (f x)) <$> o)).
Proof using num_plain. destruct o; [apply num_plain|done]. Qed.

(** In the activity, watch, journal and delivery exports a reader recovers
    the header and every row in the order of the page, a number or a time as it
    was written and every free text guarded: a text that a spreadsheet would
    take for a formula comes back behind an apostrophe, any other text comes
    back unchanged, and none comes back as a formula. *)
Theorem guarded_exports_harmless acts watches journal ds :
  Forall (fun e => plain (j_created_at e) /\ plain (updated_at e)) journal -> Forall (fun d => iso_range (delivered_at d)) ds ->
  parse_csv (activityEventsToCSV localeCompare acts)
    = Some (split "," "created_at,kind,title,body,href,read,id" :: (activity_values <$> sortedActivity localeCompare acts)) /\
  parse_csv (watchesToCSV localeCompare num_str watches)
    = Some (split "," "ticker,label,cadence_hours,lookback_days,enabled,last_regime,last_run_at,runs_count,last_error,created_at,id"
            :: (watch_values <$> sortedWatches localeCompare watches)) /\
  parse_csv (entriesToCSV num_str journal)
    = Some (split "," "trade_id,created_at,updated_at,conviction,exit_reason,tags,thesis" :: (journal_values <$> journal)) /\
  parse_csv (deliveriesToCSV num_str ds)
    = Some (split "," "delivered_at,subscription_id,url,status,attempt,event_count,replay_of,error" :: (delivery_values <$> ds)) /\
  (forall a, Forall harmless (activity_values a)) /\ (forall w, Forall harmless (columns [0; 1; 5; 6; 8; 9; 10]%nat (watch_values w))) /\
  (forall e, Forall harmless (columns [0; 4; 5; 6]%nat (journal_values e))) /\
  (forall d, Forall harmless (columns [1; 2; 6; 7]%nat (delivery_values d))) /\
  (forall v, guard v = v \/ (guard v = String "'" v /\ ~ harmless v)).
Proof using num_plain.
  intros Hj Hd. assert (forall v, harmless (guard v)) as Hg by apply guard_safe.
  split_and!.
  - apply (export_parses (split "," "created_at,kind,title,body,href,read,id") activity_cells activity_values); [done|by apply (bool_decide_unpack _)|].
    apply Forall_forall. intros r _. split; [|done]. unfold activity_cells, activity_values, escape_of. rewrite !guard_cell.
    cbn [fmap list_fmap]. by rewrite (csvCell_plain _ (plain_bool _)).
  - apply (export_parses (split "," "ticker,label,cadence_hours,lookback_days,enabled,last_regime,last_run_at,runs_count,last_error,created_at,id")
      (watch_cells num_str) watch_values); [done|by apply (bool_decide_unpack _)|].
    apply Forall_forall. intros r _. split; [|done]. unfold watch_cells, watch_values, escape_of. rewrite !guard_cell.
    cbn [fmap list_fmap]. by rewrite (csvCell_plain _ (plain_bool _)), !(csvCell_plain _ (num_plain _)).
  - apply (export_parses (split "," "trade_id,created_at,updated_at,conviction,exit_reason,tags,thesis") (journal_cells num_str) journal_values);
      [done|by apply (bool_decide_unpack _)|].
    eapply Forall_impl; [exact Hj|]. intros e [H1 H2]. split; [|done]. unfold journal_cells, journal_values, escape_of. rewrite !guard_cell.
    cbn [fmap list_fmap]. by rewrite (csvCell_plain _ H1), (csvCell_plain _ H2), (csvCell_plain _ (num_plain _)).
  - apply (export_parses (split "," "delivered_at,subscription_id,url,status,attempt,event_count,replay_of,error") (delivery_cells num_str)
      delivery_values); [done|by apply (bool_decide_unpack _)|].
    eapply Forall_impl; [exact Hd|]. intros d H1. split; [|done]. unfold delivery_cells, delivery_values, escape_of. rewrite !guard_cell.
    cbn [fmap list_fmap]. by rewrite (csvCell_plain _ (plain_iso _ H1)), (csvCell_plain _ (plain_opt_num int _)), !(csvCell_plain _ (num_plain _)).
  - intros a. unfold activity_values. repeat apply Forall_cons_2; try apply Hg; [|constructor]. by destruct (a_read a).
  - intros w. unfold columns, watch_values. repeat (apply Forall_cons_2; [apply Hg|]). constructor.
  - intros e. unfold columns, journal_values. repeat (apply Forall_cons_2; [apply Hg|]). constructor.
  - intros d. unfold columns, delivery_values. repeat (apply Forall_cons_2; [apply Hg|]). constructor.
  - intros v. destruct v as [|c v]; [by left|]. simpl. destruct (formula_leader c) eqn:E; [right; split; [done|intros H; simpl in H; congruence]|by left].
Qed.

(** ** The exports that quote without guarding *)

Lemma plain_num_or_empty o : plain (num_or_empty num_str o).
Proof using num_plain. unfold num_or_empty. destruct o as [n|]; [|done]. destruct (is_finite n); [apply num_plain|done]. Qed.

Definition bracket_values (r : Bracket) : list string :=
  [b_ticker r; b_side r; num_or_empty num_str (Some (b_shares r)); num_or_empty num_str (Some (b_entry r)); num_or_empty num_str (Some (b_stop r));
   num_or_empty num_str (Some (b_target r)); num_or_empty num_str (Some (b_planned_r r)); num_or_empty num_str (Some (b_planned_risk r)); b_status r;
   num_or_empty num_str (b_actual_entry r); num_or_empty num_str (b_actual_exit r); default "" (b_exit_reason r);
   num_or_empty num_str (b_realized_r r); num_or_empty num_str (b_realized_pnl r); b_created_at r; b_note r; b_id r].

Definition earnings_values (r : EarningsRow) : list string := [e_ticker r; next_report r; bool_str (confirmed r); e_source r].

Definition news_values (r : NewsEvent) : list string :=
  [event_date r; to_upper (n_ticker r); headline r; join "|" (n_tags r); n_source r; n_url r; n_id r].

Definition stop_values (r : StopRule) : list string :=
  [st_ticker r; st_kind r; num_or_empty num_str (Some (st_value r)); num_or_empty num_str (high_water r); armed_at r; st_note r; st_id r].

Definition tax_values (r : TaxEvent) : list string :=
  [sell_date r; t_ticker r; num_or_empty num_str (Some (quantity r)); num_or_empty num_str (Some (proceeds r));
   num_or_empty num_str (Some (cost_basis r)); num_or_empty num_str (Some (realized_pnl r)); default "" (num_str <$> holding_days r);
   default "" (bool_str <$> long_term r); default "" (lot_acquired r); sell_trade_id r].

Lemma plain_opt_bool (o : option bool) : plain (default "" (bool_str <$> o)).
Proof. destruct o; [apply plain_bool|done]. Qed.

Ltac export_of header :=
  apply (export_parses (split "," header)); [done|by apply (bool_decide_unpack _)|];
  apply Forall_forall; intros r _; split; [|done];
  cbv [bracket_cells bracket_values earnings_cells earnings_values news_cells news_values stop_cells stop_values cell_of]; cbn [fmap list_fmap];
  repeat first [done | rewrite (csvCell_plain _ (plain_num_or_empty _)) | rewrite (csvCell_plain _ (plain_bool _))
               | rewrite (csvCell_plain _ (plain_opt_num Datatypes.id _)) | rewrite (csvCell_plain _ (plain_opt_bool _))].

(** Each is read back with the text of every value. *)
Lemma quoted_exports_roundtrip plans earnings news rules :
  parse_csv (bracketsToCSV localeCompare num_str plans)
    = Some (split "," "ticker,side,shares,entry,stop,target,planned_r,planned_risk_usd,status,actual_entry,actual_exit,exit_reason,realized_r,realized_pnl_usd,created_at,note,id"
            :: (bracket_values <$> sortedPlans localeCompare plans)) /\
  parse_csv (earningsToCSV localeCompare earnings)
    = Some (split "," "ticker,next_report,confirmed,source" :: (earnings_values <$> sortedEarnings localeCompare earnings)) /\
  parse_csv (newsEventsToCSV localeCompare news)
    = Some (split "," "event_date,ticker,headline,tags,source,url,id" :: (news_values <$> sortedNews localeCompare news)) /\
  parse_csv (stopsToCSV localeCompare num_str rules)
    = Some (split "," "ticker,kind,value,high_water,armed_at,note,id" :: (stop_values <$> sortedRules localeCompare rules)).
Proof using num_plain.
  split_and!.
  - export_of "ticker,side,shares,entry,stop,target,planned_r,planned_risk_usd,status,actual_entry,actual_exit,exit_reason,realized_r,realized_pnl_usd,created_at,note,id".
  - export_of "ticker,next_report,confirmed,source".
  - export_of "event_date,ticker,headline,tags,source,url,id".
  - export_of "ticker,kind,value,high_water,armed_at,note,id".
Qed.

Lemma tax_export_roundtrip events :
  parse_csv (taxEventsToCSV localeCompare num_str events)
    = Some (split "," "sell_date,ticker,quantity,proceeds,cost_basis,realized_pnl,holding_days,long_term,lot_acquired,sell_trade_id"
            :: (tax_values <$> sortedTax localeCompare events)).
Proof using num_plain.
  apply (export_parses (split "," "sell_date,ticker,quantity,proceeds,cost_basis,realized_pnl,holding_days,long_term,lot_acquired,sell_trade_id"));
    [done|by apply (bool_decide_unpack _)|].
  apply Forall_forall. intros r _. split; [|done]. unfold tax_cells, tax_values, cell_of. cbn [fmap list_fmap].
  rewrite !(csvCell_plain _ (plain_num_or_empty _)), (csvCell_plain _ (plain_opt_bool _)).
  assert (plain (default "" (num_str <$> holding_days r))) as Hh by apply (plain_opt_num Datatypes.id).
  by rewrite (csvCell_plain _ Hh).
Qed.
End Facts.

(** ** Witness *)

Lemma guarded_exports_harmless_witness :
  parse_csv (entriesToCSV (fun _ => "4") [{| trade_id := "t,1"; thesis := "=SUM(A1)"; conviction := int 4; j_tags := ["a"; "b"]; exit_reason := None;
    j_created_at := "2024-03-15T00:00:00.000Z"; updated_at := "2024-03-16T00:00:00.000Z" |}])
  = Some [split "," "trade_id,created_at,updated_at,conviction,exit_reason,tags,thesis";
          ["t,1"; "2024-03-15T00:00:00.000Z"; "2024-03-16T00:00:00.000Z"; "4"; ""; "a|b"; "'=SUM(A1)"]].
Proof.
  refine (proj1 (proj2 (proj2 (guarded_exports_harmless (fun _ _ => 0) (fun _ => "4") (fun _ => eq_refl) [] [] [{| trade_id := "t,1"; thesis := "=SUM(A1)";
    conviction := int 4; j_tags := ["a"; "b"]; exit_reason := None; j_created_at := "2024-03-15T00:00:00.000Z";
    updated_at := "2024-03-16T00:00:00.000Z" |}] [] _ (Forall_nil_2 _))))).
  repeat constructor.
Defined.
