(* ===== verification/Scim.v ===== *)
(** SCIM provisioning: [web/lib/scimStore.ts], the bearer gate of
    [scimGuard.ts], and the handlers of [app/api/scim/v2/Users]. The text
    JavaScript gives a JSON value that is not a string is a parameter, and so is
    SHA-256; ids and tokens are drawn by the caller. Audit lines and the layout
    of the responses are left out. *)
From S2P Require Import Prelude JsNum JsDate IsoTime Json Store.

(** An optional JSON value where [null] and missing mean the same. *)
Abbreviation text_or_null := json.

Record ScimUser := {
  id : string; externalId : text_or_null; userName : string; givenName : text_or_null; familyName : text_or_null; active : bool;
  created_at : Z; updated_at : Z }.

Abbreviation users := (list ScimUser).

#[export] Program Instance users_persisted : Persisted users := {|
  raw := users; encode s := s; decode s := s; absent := []; storable _ := True |}.
Next Obligation. done. Qed.

Record TokenStore := { t_prefix : option string; t_hash : option string; t_created_at : option Z; t_last_used_at : option Z }.

Definition no_token : TokenStore := {| t_prefix := None; t_hash := None; t_created_at := None; t_last_used_at := None |}.

#[export] Program Instance token_persisted : Persisted TokenStore := {|
  raw := TokenStore; encode s := s; decode s := s; absent := no_token; storable _ := True |}.
Next Obligation. done. Qed.

Definition normalizeEmail (e : string) : string := to_lower (trim e).

(** [/^[^\s@]+@[^\s@]+\.[^\s@]+$/]: one at sign; something before it; behind it
    a dot that is neither first nor last. *)
Definition email_char (c : Ascii.ascii) : bool := negb (is_space c) && negb (Ascii.eqb c "@"%char).
Definition has_inner_dot (d : string) : bool :=
  match d with "" => false | String _ r => match str_index "."%char (drop_last r) with Some _ => true | None => false end end.
Fixpoint email_from (seen : bool) (s : string) : bool :=
  match s with
  | "" => false
  | String c r => if Ascii.eqb c "@"%char then seen && str_forall email_char r && has_inner_dot r else email_char c && email_from true r
  end.
Definition is_email (s : string) : bool := email_from false s.

(** ** Tokens *)

Section Scim.
Context (sha256 : string -> string) (String_of : json -> string).

Record TokenStatus := { configured : bool; prefix : option string; s_created_at : option Z; s_last_used_at : option Z }.

Definition truthy_str (s : option string) : bool := truthy (default "" s).

Definition getTokenStatus (f : file TokenStore) : TokenStatus :=
  let t := read_file f in
  {| configured := truthy_str (t_hash t); prefix := t_prefix t; s_created_at := t_created_at t; s_last_used_at := t_last_used_at t |}.

(** [hex]: the 24 random bytes, in hexadecimal. *)
Definition rotateToken (hex : string) (now : Z) : string * file TokenStore :=
  let plaintext := "scim_live_" +:+ hex in
  (plaintext, write_file {| t_prefix := Some (str_take 10 plaintext); t_hash := Some (sha256 plaintext); t_created_at := Some now; t_last_used_at := None |}).

Definition revokeToken : file TokenStore := write_file no_token.

Definition verifyToken (plaintext : option string) (now : Z) (f : file TokenStore) : bool * file TokenStore :=
  if negb (truthy_str plaintext) then (false, f) else
  let t := read_file f in
  if negb (truthy_str (t_hash t)) then (false, f) else
  if negb (bool_decide (t_hash t = Some (sha256 (default "" plaintext)))) then (false, f) else
  (true, write_file {| t_prefix := t_prefix t; t_hash := t_hash t; t_created_at := t_created_at t; t_last_used_at := Some now |}).

(** [/^Bearer\s+(.+)$/i], then [trim]. *)
Definition extractBearer (headers : gmap string string) : option string :=
  match headers !! "authorization" with
  | Some h =>
      if truthy h && starts_with "bearer" (to_lower h) then
        match str_drop 6 h with
        | String c (String d r) => if is_space c then Some (trim (String d r)) else None
        | _ => None
        end
      else None
  | None => None
  end.

(** ** Users *)

Definition nullish (v : jval) (other : text_or_null) : text_or_null := match v with None | Some JNull => other | Some j => j end.

(** [userName eq "x"], when the filter has that form. *)
Definition listUsers (eq_filter : option string) (f : file users) : users :=
  match eq_filter with
  | Some x => filter (fun u => userName u = normalizeEmail x) (read_file f)
  | None => read_file f
  end.

Definition getUser (i : string) (f : file users) : option ScimUser := snd <$> list_find (fun u => id u = i) (read_file f).

Definition findByUserName (name : string) (f : file users) : option ScimUser :=
  snd <$> list_find (fun u => userName u = normalizeEmail name) (read_file f).

Record CreateUserInput := { in_userName : jval; in_externalId : jval; in_givenName : jval; in_familyName : jval; in_active : bool }.

Inductive ScimError := bad_body | userName_missing | invalid_userName | already_exists | user_not_found | unauthorized | thrown.

Definition create_tx (input : CreateUserInput) (newId : string) (now : Z) : transaction users (result ScimUser ScimError) := fun s =>
  let name := normalizeEmail (js_text String_of (in_userName input)) in
  if negb (truthy name) || negb (is_email name) then (Err invalid_userName, None)
  else if existsb (fun u => String.eqb (userName u) name) s then (Err already_exists, None)
  else let u := {| id := newId; externalId := nullish (in_externalId input) JNull; userName := name; givenName := nullish (in_givenName input) JNull;
                   familyName := nullish (in_familyName input) JNull; active := in_active input; created_at := now; updated_at := now |} in
       (Ok u, Some (s ++ [u])).

Definition createUser input newId now (f : file users) := on_file (create_tx input newId now) f.

(** Another row has the name. *)
Definition taken (name : string) (i : nat) (s : users) : bool := existsb (fun u => String.eqb (userName u) name) (delete i s).

Definition replace_tx (i : string) (input : CreateUserInput) (now : Z) : transaction users (result ScimUser ScimError) := fun s =>
  match list_find (fun u => id u = i) s with
  | None => (Err user_not_found, None)
  | Some (n, prev) =>
      let name := normalizeEmail (if jtruthy (in_userName input) then js_text String_of (in_userName input) else userName prev) in
      if negb (is_email name) then (Err invalid_userName, None)
      else if taken name n s then (Err already_exists, None)
      else let next := {| id := id prev; externalId := nullish (in_externalId input) (externalId prev); userName := name;
             givenName := nullish (in_givenName input) (givenName prev); familyName := nullish (in_familyName input) (familyName prev);
             active := in_active input; created_at := created_at prev; updated_at := now |} in
           (Ok next, Some (<[n := next]> s))
  end.

Definition replaceUser i input now (f : file users) := on_file (replace_tx i input now) f.

(** Assignments of the patch loop. *)
Definition set_active (b : bool) (u : ScimUser) : ScimUser :=
  {| id := id u; externalId := externalId u; userName := userName u; givenName := givenName u; familyName := familyName u; active := b;
     created_at := created_at u; updated_at := updated_at u |}.
Definition set_userName (n : string) (u : ScimUser) : ScimUser :=
  {| id := id u; externalId := externalId u; userName := n; givenName := givenName u; familyName := familyName u; active := active u;
     created_at := created_at u; updated_at := updated_at u |}.
Definition set_externalId (x : json) (u : ScimUser) : ScimUser :=
  {| id := id u; externalId := x; userName := userName u; givenName := givenName u; familyName := familyName u; active := active u;
     created_at := created_at u; updated_at := updated_at u |}.
Definition set_givenName (x : json) (u : ScimUser) : ScimUser :=
  {| id := id u; externalId := externalId u; userName := userName u; givenName := x; familyName := familyName u; active := active u;
     created_at := created_at u; updated_at := updated_at u |}.
Definition set_familyName (x : json) (u : ScimUser) : ScimUser :=
  {| id := id u; externalId := externalId u; userName := userName u; givenName := givenName u; familyName := x; active := active u;
     created_at := created_at u; updated_at := updated_at u |}.
Definition touch (now : Z) (u : ScimUser) : ScimUser :=
  {| id := id u; externalId := externalId u; userName := userName u; givenName := givenName u; familyName := familyName u; active := active u;
     created_at := created_at u; updated_at := now |}.

Definition if_bool (v : jval) (f : bool -> ScimUser -> ScimUser) (u : ScimUser) : ScimUser := match v with Some (JBool b) => f b u | _ => u end.
Definition if_string (v : jval) (f : string -> ScimUser -> ScimUser) (u : ScimUser) : ScimUser := match v with Some (JStr s) => f s u | _ => u end.

(** Azure AD pushes an object without a path. *)
Definition patch_value (v : json) (u : ScimUser) : ScimUser :=
  let u := if_bool (field "active" v) set_active u in
  let u := if_string (field "userName" v) (fun s => set_userName (normalizeEmail s)) u in
  let u := if_string (field "externalId" v) (fun s => set_externalId (JStr s)) u in
  match field "name" v with
  | Some n => if is_object n then
                if_string (field "familyName" n) (fun s => set_familyName (JStr s))
                  (if_string (field "givenName" n) (fun s => set_givenName (JStr s)) u)
              else u
  | None => u
  end.

(** Okta pushes a path and a value. *)
Definition patch_path (p : string) (removed : bool) (value : jval) (u : ScimUser) : ScimUser :=
  let text := if removed then JNull else JStr (js_text_nullish String_of value) in
  if String.eqb p "active" then
    match value with
    | Some (JBool b) => set_active b u
    | Some (JStr s) => set_active (String.eqb (to_lower s) "true") u
    | _ => u
    end
  else if String.eqb p "username" then
    if removed then u else if_string value (fun s => set_userName (normalizeEmail s)) u
  else if String.eqb p "name.givenname" then set_givenName text u
  else if String.eqb p "name.familyname" then set_familyName text u
  else if String.eqb p "externalid" then set_externalId text u
  else u.

(** One operation of a patch; [None]: reading a field of [null] throws. *)
Definition patch_op (op : json) (u : ScimUser) : option ScimUser :=
  match op with
  | JNull => None
  | _ =>
      let value := field "value" op in
      Some (if negb (jtruthy (field "path" op)) && jtruthy value && is_object (default JNull value) then patch_value (default JNull value) u
            else patch_path (to_lower (js_text String_of (field "path" op))) (String.eqb (to_lower (js_text String_of (field "op" op))) "remove") value u)
  end.

Fixpoint patch_ops (ops : list json) (u : ScimUser) : option ScimUser :=
  match ops with [] => Some u | op :: r => match patch_op op u with Some u => patch_ops r u | None => None end end.

Definition patch_tx (i : string) (ops : list json) (now : Z) : transaction users (result ScimUser ScimError) := fun s =>
  match list_find (fun u => id u = i) s with
  | None => (Err user_not_found, None)
  | Some (n, u) => match patch_ops ops u with
                   | None => (Err thrown, None)
                   | Some u' => (Ok (touch now u'), Some (<[n := touch now u']> s))
                   end
  end.

Definition patchUser i ops now (f : file users) := on_file (patch_tx i ops now) f.

Definition delete_tx (i : string) : transaction users bool := fun s =>
  let s' := filter (fun u => id u <> i) s in if len s' =? len s then (false, None) else (true, Some s').

Definition deleteUser i (f : file users) := on_file (delete_tx i) f.

Definition parseScimUserBody (body : json) : result CreateUserInput ScimError :=
  if negb (is_object body) then Err bad_body else
  let nm := match field "name" body with Some n => if is_object n then n else JObj [] | None => JObj [] end in
  let value_of e := match e with Some j => field "value" j | None => None end in
  let fromEmails := match field "emails" body with
    | Some (JArr es) =>
        let primary := snd <$> list_find (fun e => jtruthy (field "primary" e) = true) es in
        let v := value_of primary in if jtruthy v then v else value_of (es !! 0%nat)
    | _ => field "userName" body
    end in
  let name := if jtruthy (field "userName" body) then field "userName" body else fromEmails in
  if negb (jtruthy name) then Err userName_missing
  else Ok {| in_userName := name; in_externalId := field "externalId" body; in_givenName := field "givenName" nm;
             in_familyName := field "familyName" nm;
             in_active := match field "active" body with Some (JBool false) => false | _ => true end |}.

(** ** The handlers behind the gate *)

Record world := World { users_file : file users; token_file : file TokenStore }.

(** [requireScim]: the request goes on with the token stamped, or is refused. *)
Definition requireScim (headers : gmap string string) (now : Z) (w : world) : bool * world :=
  let '(ok, tf) := verifyToken (extractBearer headers) now (token_file w) in (ok, World (users_file w) tf).

Definition gated {R} (headers : gmap string string) (now : Z) (act : file users -> result R ScimError * file users) (w : world)
  : result R ScimError * world :=
  let '(ok, w) := requireScim headers now w in
  if negb ok then (Err unauthorized, w) else let '(r, uf) := act (users_file w) in (r, World uf (token_file w)).

Definition POST headers (body : json) newId now (w : world) :=
  gated headers now (fun f => match parseScimUserBody body with Err e => (Err e, f) | Ok input => createUser input newId now f end) w.

Definition PUT headers i (body : json) now (w : world) :=
  gated headers now (fun f => match parseScimUserBody body with Err e => (Err e, f) | Ok input => replaceUser i input now f end) w.

Definition PATCH headers i (ops : list json) now (w : world) :=
  gated headers now (fun f => if bool_decide (ops = []) then (Err bad_body, f) else patchUser i ops now f) w.

Definition DELETE headers i now (w : world) :=
  gated headers now (fun f => let '(ok, f') := deleteUser i f in (if ok then Ok tt else Err user_not_found, f')) w.
End Scim.

(** ** User names stay unique *)

Section Users.
Context (String_of : json -> string).

Inductive event :=
| Create (input : CreateUserInput) (newId : string) (now : Z)
| Replace (i : string) (input : CreateUserInput) (now : Z)
| Patch (i : string) (ops : list json) (now : Z)
| Delete (i : string).

Definition run (e : event) (f : file users) : file users :=
  match e with
  | Create input newId now => snd (createUser String_of input newId now f)
  | Replace i input now => snd (replaceUser String_of i input now f)
  | Patch i ops now => snd (patchUser String_of i ops now f)
  | Delete i => snd (deleteUser i f)
  end.

Definition run_all (evs : list event) (f : file users) : file users := fold_left (fun f e => run e f) evs f.

(** The operation assigns the user name. *)
Definition renames (op : json) : bool :=
  if negb (jtruthy (field "path" op)) then
    match field "value" op with Some v => match field "userName" v with Some (JStr _) => true | _ => false end | None => false end
  else String.eqb (to_lower (js_text String_of (field "path" op))) "username".

Definition renaming (e : event) : bool := match e with Patch _ ops _ => existsb renames ops | _ => false end.

Definition names_ok (s : users) : Prop := NoDup (userName <$> s) /\ Forall (fun u => is_email (userName u) = true) s.

Lemma if_string_id v f u : (forall s, userName (f s u) = userName u) -> userName (if_string v f u) = userName u.
Proof. intros Hf. destruct v as [[]|]; simpl; auto. Qed.

Lemma patch_value_name v u : (forall s, field "userName" v <> Some (JStr s)) -> userName (patch_value v u) = userName u.
Proof.
  intros Hv. unfold patch_value.
  assert (forall w, userName (if_string (field "userName" v) (fun s => set_userName (normalizeEmail s)) w) = userName w) as Hn.
  { intros w. destruct (field "userName" v) as [[]|]; try done. by destruct (Hv s). }
  assert (forall w, userName (if_bool (field "active" v) set_active w) = userName w) as Ha by (intros w; by destruct (field "active" v) as [[]|]).
  destruct (field "name" v) as [n|]; [destruct (is_object n)|]; rewrite ?if_string_id by done; by rewrite Hn.
Qed.

Lemma patch_path_name p removed value u : p <> "username" -> userName (patch_path String_of p removed value u) = userName u.
Proof.
  intros Hp. unfold patch_path. destruct (String.eqb p "active"); [by destruct value as [[]|]|].
  apply String.eqb_neq in Hp as ->. by repeat case_match.
Qed.

Lemma js_text_path v : negb (jtruthy v) = true -> js_text String_of v = "".
Proof. unfold js_text. by intros ->%negb_true_iff. Qed.

Lemma patch_op_name op u u' : patch_op String_of op u = Some u' -> renames op = false -> userName u' = userName u.
Proof.
  intros H Hr. assert (op <> JNull) as Hop by (by intros ->). unfold renames in Hr.
  assert (u' = if negb (jtruthy (field "path" op)) && jtruthy (field "value" op) && is_object (default JNull (field "value" op))
    then patch_value (default JNull (field "value" op)) u
    else patch_path String_of (to_lower (js_text String_of (field "path" op))) (String.eqb (to_lower (js_text String_of (field "op" op))) "remove")
           (field "value" op) u) as -> by (destruct op; try done; by injection H).
  destruct (negb (jtruthy (field "path" op))) eqn:Ep; cbn [andb].
  - destruct (jtruthy _ && is_object _); [|apply patch_path_name; by rewrite js_text_path].
    apply patch_value_name. intros s Hs. destruct (field "value" op) as [v|]; [simpl in Hs; by rewrite Hs in Hr|done].
  - apply patch_path_name. by apply String.eqb_neq.
Qed.

Lemma patch_ops_name ops u u' : patch_ops String_of ops u = Some u' -> existsb renames ops = false -> userName u' = userName u.
Proof.
  revert u; induction ops as [|op ops IH]; intros u H Hr; [by injection H as <-|]. cbn [existsb] in Hr. apply orb_false_elim in Hr as [H1 H2].
  cbn [patch_ops] in H. destruct (patch_op String_of op u) as [w|] eqn:E; [|done]. rewrite (IH w H H2). by eapply patch_op_name.
Qed.

Lemma names_insert s n u u' : names_ok s -> s !! n = Some u -> userName u' = userName u -> names_ok (<[n := u']> s).
Proof.
  intros [Hn He] Hu E. split; [by rewrite (fmap_insert_same userName s n u)|]. apply Forall_insert; [done|].
  rewrite E. exact (Forall_lookup_1 _ _ _ _ He Hu).
Qed.

Lemma names_replaced s n u u' : names_ok s -> s !! n = Some u -> is_email (userName u') = true -> taken (userName u') n s = false ->
  names_ok (<[n := u']> s).
Proof.
  intros [Hn He] Hu Hem Ht. split; [|by apply Forall_insert].
  rewrite list_fmap_insert. apply NoDup_insert_fresh; [done|]. intros Hin.
  apply list_elem_of_lookup in Hin as [k Hk]. rewrite <- list_fmap_delete in Hk. apply list_elem_of_lookup_2, list_elem_of_fmap in Hk as (w & Hw & Hin).
  unfold taken in Ht. enough (existsb (fun u => String.eqb (userName u) (userName u')) (delete n s) = true) by congruence.
  apply existsb_exists. exists w. split; [by apply list_elem_of_In|]. rewrite <- Hw. apply String.eqb_refl.
Qed.

Lemma run_names_ok e f : names_ok (read_file f) -> renaming e = false -> names_ok (read_file (run e f)).
Proof.
  intros Hok Hr. assert (forall R (tx : transaction users R), (forall s', snd (tx (read_file f)) = Some s' -> names_ok s') ->
    names_ok (read_file (snd (on_file tx f)))) as Htx.
  { intros R tx H. rewrite on_file_view by done. unfold after. destruct (snd (tx (read_file f))) as [s'|]; [by apply H|done]. }
  set (s := read_file f) in *. destruct e as [input newId now|i input now|i ops now|i]; cbn [run]; apply Htx; intros s'; fold s.
  - unfold create_tx. destruct (negb (truthy _) || negb (is_email _)) eqn:E1; [done|]. destruct (existsb _ _) eqn:E2; [done|].
    intros [= <-]. apply orb_false_elim in E1 as [_ E1]. apply negb_false_iff in E1. destruct Hok as [Hn He]. split.
    + rewrite fmap_app. apply NoDup_app. split; [done|]. split; [|apply NoDup_singleton]. intros x Hx Hx'.
      apply list_elem_of_singleton in Hx' as ->. apply list_elem_of_fmap in Hx as (w & Hw & Hin).
      enough (existsb (fun u => String.eqb (userName u) (normalizeEmail (js_text String_of (in_userName input)))) s = true) by congruence.
      apply existsb_exists. exists w. split; [by apply list_elem_of_In|]. simpl in Hw. rewrite <- Hw. apply String.eqb_refl.
    + apply Forall_app. split; [done|]. by apply Forall_singleton.
  - unfold replace_tx. destruct (list_find _ _) as [[n prev]|] eqn:Hf; [|done]. destruct (negb (is_email _)) eqn:E1; [done|].
    destruct (taken _ _ _) eqn:E2; [done|]. intros [= <-]. apply list_find_lookup in Hf as [Hn _]. eapply names_replaced; [done|done| |done].
    by apply negb_false_iff in E1.
  - unfold patch_tx. destruct (list_find _ _) as [[n u]|] eqn:Hf; [|done]. destruct (patch_ops _ _ _) as [u'|] eqn:E; [|done].
    intros [= <-]. apply list_find_lookup in Hf as [Hn _]. eapply names_insert; [done|done|]. cbn. by eapply patch_ops_name.
  - unfold delete_tx. destruct (_ =? _); [done|]. intros [= <-]. destruct Hok as [Hn He]. split; [|by apply Forall_filter_keep].
    eapply sublist_NoDup; [exact Hn|]. apply fmap_sublist, sublist_filter.
Qed.
End Users.

(** Whatever the identity provider pushes, in any order, the provisioned
    users have distinct names that are all e-mail addresses, as long as no patch
    assigns a user name. *)
Theorem scim_names_unique String_of evs :
  Forall (fun e => renaming String_of e = false) evs -> names_ok (read_file (run_all String_of evs None)).
Proof.
  intros Hev. enough (forall f, names_ok (read_file f) -> names_ok (read_file (run_all String_of evs f))) as H.
  { apply H. split; constructor. }
  induction Hev as [|e evs He _ IH]; intros f Hf; [done|]. apply (IH (run String_of e f)). by apply run_names_ok.
Qed.

Definition demo_create (n : string) : CreateUserInput :=
  {| in_userName := Some (JStr n); in_externalId := None; in_givenName := None; in_familyName := None; in_active := true |}.

(** A patch may give a user the name of another. *)
Lemma patch_duplicates_name :
  let f := run_all (fun _ => "") [Create (demo_create "ada@example.com") "u1" 1; Create (demo_create "Bob@example.com") "u2" 2;
     Patch "u2" [JObj [("op", JStr "replace"); ("path", JStr "userName"); ("value", JStr "ada@example.com")]] 3] None in
  (userName <$> read_file f) = ["ada@example.com"; "ada@example.com"].
Proof. vm_compute. reflexivity. Qed.

(** ** One token at a time *)

Section Tokens.
Context (sha256 : string -> string).

Inductive token_event := Rotate (hex : string) (now : Z) | Revoke | Verify (plaintext : option string) (now : Z).

Definition run_token (e : token_event) (f : file TokenStore) : file TokenStore :=
  match e with
  | Rotate hex now => snd (rotateToken sha256 hex now)
  | Revoke => revokeToken
  | Verify p now => snd (verifyToken sha256 p now f)
  end.

Definition run_tokens (evs : list token_event) (f : file TokenStore) : file TokenStore := fold_left (fun f e => run_token e f) evs f.

(** The token in force: the last one minted, unless it was revoked. *)
Definition current_token (evs : list token_event) : option string :=
  fold_left (fun cur e => match e with Rotate hex _ => Some ("scim_live_" +:+ hex) | Revoke => None | Verify _ _ => cur end) evs None.

Lemma verify_hash p now f : t_hash (read_file (snd (verifyToken sha256 p now f))) = t_hash (read_file f).
Proof. unfold verifyToken. cbv zeta. by repeat case_match. Qed.

Lemma token_hash evs : t_hash (read_file (run_tokens evs None)) = sha256 <$> current_token evs.
Proof.
  unfold run_tokens, current_token.
  enough (forall f cur, t_hash (read_file f) = sha256 <$> cur -> t_hash (read_file (fold_left (fun f e => run_token e f) evs f)) =
    sha256 <$> fold_left (fun cur e => match e with Rotate hex _ => Some ("scim_live_" +:+ hex) | Revoke => None | Verify _ _ => cur end) evs cur) as H
    by by apply H.
  induction evs as [|e evs IH]; intros f cur Hf; [done|]. simpl. apply IH. destruct e as [hex now| |p now]; [done|done|].
  simpl. by rewrite verify_hash.
Qed.

(** C22. Exactly the token in force opens the provisioning interface: after any
    minting, revoking and use, a bearer token is accepted when, and only when,
    it is the one minted last and not revoked since, provided that SHA-256 tells
    the two apart; a refused request changes nothing. *)
Theorem current_token_only evs headers now uf :
  (forall t, truthy (sha256 t) = true) ->
  (forall p t, extractBearer headers = Some p -> current_token evs = Some t -> sha256 p = sha256 t -> p = t) ->
  let w := World uf (run_tokens evs None) in
  (fst (requireScim sha256 headers now w) = true <->
     exists t, extractBearer headers = Some t /\ t <> "" /\ current_token evs = Some t) /\
  (fst (requireScim sha256 headers now w) = false -> snd (requireScim sha256 headers now w) = w) /\
  users_file (snd (requireScim sha256 headers now w)) = uf.
Proof.
  intros Hne Hinj. cbv zeta. pose proof (token_hash evs) as Hh. unfold requireScim. cbn [token_file users_file].
  set (f := run_tokens evs None) in *. unfold verifyToken. cbv zeta.
  destruct (extractBearer headers) as [p|] eqn:Ep; [|split_and!; try done; split; [done|by intros (t & [=] & _)]].
  destruct (negb (truthy_str (Some p))) eqn:Et.
  { split_and!; try done. split; [done|]. intros (t & [= <-] & Hp & _). apply negb_true_iff, truthy_false in Et. done. }
  apply negb_false_iff in Et. apply truthy_spec in Et. simpl in Et. rewrite Hh. destruct (current_token evs) as [t|] eqn:Ec; simpl.
  - unfold truthy_str. simpl. rewrite Hne. simpl. case_bool_decide as Hs; simpl.
    + split_and!; [|done|done]. split; [|done]. intros _. exists t. injection Hs as Hs. split_and!; [|by rewrite <- (Hinj p t)|done].
      f_equal. by apply (Hinj p t).
    + split_and!; [|done|done]. split; [done|]. intros (t' & [= <-] & _ & [= ->]). done.
  - split_and!; try done. split; [done|]. by intros (t & _ & _ & [=]).
Qed.
End Tokens.

(** ** Witnesses *)

Lemma scim_names_unique_witness :
  NoDup (userName <$> read_file (run_all (fun _ => "") [Create (demo_create "ada@example.com") "u1" 1; Create (demo_create "ADA@example.com ") "u2" 2;
     Patch "u1" [JObj [("op", JStr "Replace"); ("value", JObj [("active", JBool false)])]] 3; Create (demo_create "bob@example.com") "u3" 4] None)).
Proof.
  refine (proj1 (scim_names_unique (fun _ => "") [Create (demo_create "ada@example.com") "u1" 1; Create (demo_create "ADA@example.com ") "u2" 2;
     Patch "u1" [JObj [("op", JStr "Replace"); ("value", JObj [("active", JBool false)])]] 3; Create (demo_create "bob@example.com") "u3" 4] _)).
  repeat constructor.
Defined.

Lemma current_token_only_witness :
  fst (requireScim (fun s => String "h" s) {[ "authorization" := "Bearer scim_live_ab" ]} 9
    (World None (run_tokens (fun s => String "h" s) [Rotate "zz" 1; Verify (Some "scim_live_zz") 2; Rotate "ab" 3] None))) = true.
Proof.
  refine (proj2 (proj1 (current_token_only (fun s => String "h" s) [Rotate "zz" 1; Verify (Some "scim_live_zz") 2; Rotate "ab" 3]
    {[ "authorization" := "Bearer scim_live_ab" ]} 9 None _ _)) _).
  - done.
  - intros p t _ _ H. by injection H.
  - exists "scim_live_ab". split_and!; [vm_compute; reflexivity|discriminate|vm_compute; reflexivity].
Defined.
