(* ===== verification/Invites.v ===== *)
(** Seat-based onboarding: [web/lib/inviteStore.ts], [seats.ts] and the
    redemption [app/api/invites/[token]/accept/route.ts], which composes them
    with the keys of [keyStore.ts]. SHA-256 is a parameter; tokens, key ids and
    secrets are drawn by the caller. Audit lines and the activity feed are left
    out. *)
From S2P Require Import Prelude JsNum JsDate IsoTime Json Store Interleave AuthLockout KeyStore.

Record AcceptedRedemption := { key_id : string; at_time : Z; ip_hash : string }.

(** [scopes] ranges over [read] and [trade]; [expires_at] and [created_at] are
    the time values of the stored texts. *)
Record Invite := {
  token : string; label : string; scopes : list Scope; max_uses : num; used_count : Z; accepted_by : list AcceptedRedemption;
  expires_at : option Z; revoked : bool; created_at : Z; created_by_key_id : string }.

(** [Store.invites]; the file is only written by this module. *)
Abbreviation invites := (list Invite).

#[export] Program Instance invites_persisted : Persisted invites := {|
  raw := invites; encode s := s; decode s := s; absent := []; storable _ := True |}.
Next Obligation. done. Qed.

Inductive InviteStatus := pending | exhausted | expired | is_revoked.

#[export] Instance InviteStatus_eq_dec : EqDecision InviteStatus.
Proof. solve_decision. Defined.

Definition statusOf (inv : Invite) (now : Z) : InviteStatus :=
  if revoked inv then is_revoked
  else if match expires_at inv with Some e => e <=? now | None => false end then expired
  else if num_le (max_uses inv) (int (used_count inv)) then exhausted
  else pending.

Record PublicView := {
  v_token : string; v_label : string; v_scopes : list Scope; v_max_uses : num; v_used_count : Z; v_remaining : num;
  v_expires_at : option Z; v_revoked : bool; v_created_at : Z; v_created_by_key_id : string; v_accepted_by : list (string * Z);
  v_status : InviteStatus }.

(** [a - b] for an integer [b]. *)
Definition num_minus (a : num) (b : Z) : num := match a with Fin q => Fin (QArith_base.Qminus q (QArith_base.inject_Z b)) | _ => a end.

Definition publicView (inv : Invite) (now : Z) : PublicView :=
  {| v_token := token inv; v_label := label inv; v_scopes := scopes inv; v_max_uses := max_uses inv; v_used_count := used_count inv;
     v_remaining := num_max (int 0) (num_minus (max_uses inv) (used_count inv)); v_expires_at := expires_at inv; v_revoked := revoked inv;
     v_created_at := created_at inv; v_created_by_key_id := created_by_key_id inv;
     v_accepted_by := (fun a => (key_id a, at_time a)) <$> accepted_by inv; v_status := statusOf inv now |}.

Record RedeemerView := { r_token : string; r_label : string; r_scopes : list Scope; r_expires_at : option Z; r_status : InviteStatus }.

Definition redeemerView (inv : Invite) (now : Z) : RedeemerView :=
  {| r_token := token inv; r_label := label inv; r_scopes := scopes inv; r_expires_at := expires_at inv; r_status := statusOf inv now |}.

(** ** The store *)

Section Invites.
Context (sha256 : string -> string).

Definition hashIp (ip : string) : string := str_take 32 (sha256 ip).

Record CreateInviteInput := {
  in_label : string; in_scopes : list string; in_max_uses : option num; in_expires_in_seconds : option num; in_created_by : option string }.

Definition invite_scope (s : string) : option Scope :=
  if String.eqb s "read" then Some read else if String.eqb s "trade" then Some trade else None.

Definition invite_scopes (l : list string) : list Scope :=
  let ss := dedup (omap invite_scope l) in if (length ss =? 0)%nat then [read] else ss.

Definition bound_uses (m : option num) : num :=
  let n := default (int 1) m in
  let n := if negb (is_finite n) || num_lt n (int 1) then int 1 else n in
  if num_lt (int 100) n then int 100 else n.

Definition MAX_TTL_S : Z := 90 * 24 * 3600.

(** [0], [NaN], [null] and a missing value mean no expiry. *)
Definition invite_expiry (e : option num) (now : Z) : option Z :=
  match e with
  | Some n => if num_lt (int 0) n then Some (now + floorZ (num_min (num_floor n) (int MAX_TTL_S)) * 1000) else None
  | None => None
  end.

(** [hex]: the random part of the token. The clock is read for the expiry and
    for [created_at]. *)
Definition new_invite (clk : clock) (rnd : string) (input : CreateInviteInput) : Invite :=
  let l := str_take 80 (trim (in_label input)) in
  let by_ := default "" (in_created_by input) in
  {| token := "inv_" +:+ rnd; label := if truthy l then l else "invited member"; scopes := invite_scopes (in_scopes input);
     max_uses := bound_uses (in_max_uses input); used_count := 0; accepted_by := [];
     expires_at := invite_expiry (in_expires_in_seconds input) (clk 0%nat); revoked := false; created_at := clk 1%nat;
     created_by_key_id := str_take 64 (if truthy by_ then by_ else "anon") |}.

Definition create_tx (clk : clock) (rnd : string) (input : CreateInviteInput) : transaction invites Invite := fun s =>
  let inv := new_invite clk rnd input in (inv, Some (s ++ [inv])).

Definition createInvite clk rnd input (f : file invites) := on_file (create_tx clk rnd input) f.

Definition newest (a b : Invite) : Z := if str_lt (toISOString (created_at b)) (toISOString (created_at a)) then -1 else 1.

Definition listInvites (f : file invites) : list Invite := js_sort newest (read_file f).

Definition find_invite (t : string) (s : invites) : option (nat * Invite) := list_find (fun i => token i = t) s.

Definition getInvite (t : string) (f : file invites) : option Invite := snd <$> find_invite t (read_file f).

Definition mark_revoked (i : Invite) : Invite :=
  {| token := token i; label := label i; scopes := scopes i; max_uses := max_uses i; used_count := used_count i; accepted_by := accepted_by i;
     expires_at := expires_at i; revoked := true; created_at := created_at i; created_by_key_id := created_by_key_id i |}.

Definition revoke_tx (t : string) : transaction invites bool := fun s =>
  match find_invite t s with
  | None => (false, None)
  | Some (n, i) => if revoked i then (true, None) else (true, Some (<[n := mark_revoked i]> s))
  end.

Definition revokeInvite t (f : file invites) := on_file (revoke_tx t) f.

Definition redeemed (kid ip : string) (now : Z) (i : Invite) : Invite :=
  {| token := token i; label := label i; scopes := scopes i; max_uses := max_uses i; used_count := used_count i + 1;
     accepted_by := accepted_by i ++ [{| key_id := kid; at_time := now; ip_hash := hashIp ip |}];
     expires_at := expires_at i; revoked := revoked i; created_at := created_at i; created_by_key_id := created_by_key_id i |}.

(** The clock is read by [statusOf] and for the redemption. *)
Definition consume_tx (clk : clock) (t kid ip : string) : transaction invites (option Invite) := fun s =>
  match find_invite t s with
  | None => (None, None)
  | Some (n, i) =>
      if negb (bool_decide (statusOf i (clk 0%nat) = pending)) then (None, None)
      else let i' := redeemed kid ip (clk 1%nat) i in (Some i', Some (<[n := i']> s))
  end.

Definition consumeInvite clk t kid ip (f : file invites) := on_file (consume_tx clk t kid ip) f.

(** ** Seats *)

(** [limit]: the number of [SIGNALCLAW_SEAT_LIMIT], when it is set. *)
Definition seatLimit (limit : option num) : Z :=
  match limit with
  | None => 0
  | Some n => if negb (is_finite n) || num_le n (int 0) then 0 else floorZ n
  end.

Definition activeSeatCount (ks : keys) : Z := len (filter (fun k => KeyStore.revoked k = false) (listKeys ks)).

(** [None]: unlimited. *)
Record SeatUsage := { used : Z; limit_ : Z; remaining : option Z }.

Definition getSeatUsage (limit : option num) (ks : keys) : SeatUsage :=
  let u := activeSeatCount ks in let l := seatLimit limit in
  if l =? 0 then {| used := u; limit_ := 0; remaining := None |} else {| used := u; limit_ := l; remaining := Some (Z.max 0 (l - u)) |}.

(** Whether the call returns instead of throwing. *)
Definition ensureSeatAvailable (limit : option num) (ks : keys) : bool :=
  let u := getSeatUsage limit ks in
  match remaining u with None => true | Some _ => negb (limit_ u <=? used u) end.

(** ** Redemption *)

Record world := World { invites_file : file invites; keys_file : file keys }.

Inductive AcceptError := not_found | not_pending (s : InviteStatus) | seat_limit | race_lost | key_refused (e : KeyError).

(** The body of the request: a label, when it is a text that is not blank. *)
Definition label_override (body : jval) : option string :=
  match body with
  | Some j => match field "label" j with Some (JStr l) => if truthy (trim l) then Some (str_take 80 (trim l)) else None | _ => None end
  | None => None
  end.

(** Up to the minted key. The clock is read by [statusOf] and by [createKey]. *)
Definition accept_begin (clk : clock) (limit : option num) (t kid secret : string) (body : jval) (w : world)
  : result (StoredKey * string) AcceptError * world :=
  match getInvite t (invites_file w) with
  | None => (Err not_found, w)
  | Some inv =>
      let st := statusOf inv (clk 0%nat) in
      if negb (bool_decide (st = pending)) then (Err (not_pending st), w)
      else if negb (ensureSeatAvailable limit (read_file (keys_file w))) then (Err seat_limit, w)
      else
        let lbl := match label_override body with Some l => if truthy l then l else label inv | None => label inv end in
        let '(r, kf) := on_file (createKey sha256 (fun n => clk (S n)) kid secret
                          {| KeyStore.in_label := lbl; KeyStore.in_scopes := scopes inv; KeyStore.in_expires_at := None |}) (keys_file w) in
        (match r with Ok p => Ok p | Err e => Err (key_refused e) end, World (invites_file w) kf)
  end.

(** From there on; [clk] is read by [consumeInvite]. *)
Definition accept_finish (clk : clock) (t ip : string) (minted : StoredKey * string) (w : world)
  : result (StoredKey * string) AcceptError * world :=
  let kid := id (fst minted) in
  let '(c, vf) := consumeInvite clk t kid ip (invites_file w) in
  match c with
  | Some _ => (Ok minted, World vf (keys_file w))
  | None => (Err race_lost, World vf (snd (on_file (revokeKey kid) (keys_file w))))
  end.

(** A request nobody interferes with. *)
Definition accept (clk : clock) (limit : option num) (t kid secret ip : string) (body : jval) (w : world)
  : result (StoredKey * string) AcceptError * world :=
  let '(r, w) := accept_begin clk limit t kid secret body w in
  match r with
  | Ok minted => accept_finish (fun n => clk (n + 3)%nat) t ip minted w
  | Err e => (Err e, w)
  end.

(** ** Histories

    What other requests do between two steps: operations on either file. The
    halves of another redemption are such operations. *)
Inductive invite_event :=
| CreateInvite (clk : clock) (rnd : string) (input : CreateInviteInput)
| RevokeInvite (t : string)
| Consume (clk : clock) (t kid ip : string).

Definition run_invite (e : invite_event) : invites -> invites :=
  match e with
  | CreateInvite clk rnd input => after (create_tx clk rnd input)
  | RevokeInvite t => after (revoke_tx t)
  | Consume clk t kid ip => after (consume_tx clk t kid ip)
  end.

Definition run_invites (es : list invite_event) (s : invites) : invites := fold_left (fun s e => run_invite e s) es s.

Definition invites_of (w : world) : invites := read_file (invites_file w).
Definition keys_of (w : world) : keys := read_file (keys_file w).

(** [w'] comes from [w] by operations of other requests. *)
Definition interfered (w w' : world) : Prop :=
  exists ies kes, invites_of w' = run_invites ies (invites_of w) /\ keys_of w' = KeyStore.run_all sha256 kes (keys_of w).
End Invites.

(** ** What holds of every invitation *)

Section Cap.
Context (sha256 : string -> string).

Definition invite_ok (i : Invite) : Prop :=
  num_lt (max_uses i) (int 1) = false /\ num_lt (int 100) (max_uses i) = false /\ is_finite (max_uses i) = true /\
  used_count i = len (accepted_by i) /\ (used_count i = 0 \/ num_lt (int (used_count i - 1)) (max_uses i) = true) /\
  scopes i <> [] /\ NoDup (scopes i) /\ admin ∉ scopes i.

(** What operations may do to an invitation. *)
Definition invite_step (i i' : Invite) : Prop :=
  token i' = token i /\ scopes i' = scopes i /\ max_uses i' = max_uses i /\ expires_at i' = expires_at i /\
  (revoked i = true -> i' = i) /\ accepted_by i `prefix_of` accepted_by i'.

#[export] Instance invite_step_preorder : PreOrder invite_step.
Proof.
  split; [by intros i|]. intros a b c (A1 & A2 & A3 & A4 & A5 & A6) (B1 & B2 & B3 & B4 & B5 & B6).
  split_and!; try congruence; [|by etrans]. intros Ha. specialize (A5 Ha) as ->. by apply B5.
Qed.

Lemma bound_uses_ok m : let n := bound_uses m in num_lt n (int 1) = false /\ num_lt (int 100) n = false /\ is_finite n = true.
Proof.
  unfold bound_uses. cbv zeta. destruct (negb (is_finite (default (int 1) m)) || num_lt (default (int 1) m) (int 1)) eqn:E; [by vm_compute|].
  apply orb_false_elim in E as [E1 E2]. apply negb_false_iff in E1.
  destruct (num_lt (int 100) _) eqn:E3; [by vm_compute|done].
Qed.

Lemma invite_scope_not_admin s : invite_scope s <> Some admin.
Proof. unfold invite_scope. by repeat case_match. Qed.

Lemma invite_scopes_ok l : invite_scopes l <> [] /\ NoDup (invite_scopes l) /\ admin ∉ invite_scopes l.
Proof.
  unfold invite_scopes. cbv zeta. destruct (length _ =? 0)%nat eqn:E.
  - split_and!; [done|apply NoDup_singleton|]. intros H. by apply list_elem_of_singleton in H.
  - split_and!; [intros H; by rewrite H in E|apply dedup_NoDup|]. rewrite dedup_elem, list_elem_of_omap. intros (s & _ & Hs).
    by apply (invite_scope_not_admin s).
Qed.

Lemma new_invite_ok clk rnd input : invite_ok (new_invite clk rnd input).
Proof.
  destruct (bound_uses_ok (in_max_uses input)) as (H1 & H2 & H3). destruct (invite_scopes_ok (in_scopes input)) as (H4 & H5 & H6).
  unfold invite_ok. cbn [max_uses used_count accepted_by scopes new_invite]. split_and!; try done. by left.
Qed.

Lemma statusOf_pending i now : statusOf i now = pending ->
  revoked i = false /\ num_le (max_uses i) (int (used_count i)) = false /\ (forall e, expires_at i = Some e -> now < e).
Proof.
  unfold statusOf. destruct (revoked i); [done|]. destruct (match expires_at i with Some e => _ | None => _ end) eqn:E; [done|].
  destruct (num_le _ _); [done|]. intros _. split_and!; try done. intros e He. rewrite He in E. by apply Z.leb_gt in E.
Qed.

Lemma num_not_le a z : is_finite a = true -> num_le a (int z) = false -> num_lt (int z) a = true.
Proof. destruct a as [| |q]; try done. simpl. intros _ H. by rewrite H. Qed.

Lemma redeemed_ok kid ip now now' i : invite_ok i -> statusOf i now' = pending -> invite_ok (redeemed sha256 kid ip now i).
Proof.
  intros (H1 & H2 & H3 & H4 & H5 & H6 & H7 & H8) (Hr & Hu & _)%statusOf_pending. unfold invite_ok.
  cbn [max_uses used_count accepted_by scopes redeemed]. split_and!; try done.
  - rewrite H4. unfold len. rewrite length_app. simpl. lia.
  - right. replace (used_count i + 1 - 1) with (used_count i) by lia. by apply num_not_le.
Qed.

Lemma run_invite_ok e s : Forall invite_ok s -> Forall invite_ok (run_invite sha256 e s).
Proof.
  intros Hs. destruct e as [clk rnd input|t|clk t kid ip]; unfold run_invite, after, create_tx, revoke_tx, consume_tx.
  - apply Forall_app. split; [done|]. apply Forall_singleton, new_invite_ok.
  - destruct (find_invite t s) as [[n i]|] eqn:E; [|done]. destruct (revoked i); [done|]. apply Forall_insert; [done|].
    apply list_find_lookup in E as [Hl _]. exact (Forall_lookup_1 _ _ _ _ Hs Hl).
  - destruct (find_invite t s) as [[n i]|] eqn:E; [|done]. case_bool_decide as Hp; [|done]. apply Forall_insert; [done|].
    apply list_find_lookup in E as [Hl _]. eapply redeemed_ok; [|exact Hp]. exact (Forall_lookup_1 _ _ _ _ Hs Hl).
Qed.

Lemma run_invite_step e s : grows invite_step s (run_invite sha256 e s).
Proof.
  destruct e as [clk rnd input|t|clk t kid ip]; unfold run_invite, after, create_tx, revoke_tx, consume_tx.
  - apply (grows_app invite_step).
  - destruct (find_invite t s) as [[n i]|] eqn:E; [|reflexivity]. destruct (revoked i) eqn:Er; [reflexivity|].
    apply list_find_lookup in E as [Hl _]. eapply grows_update; [apply _|exact Hl|]. unfold invite_step. by rewrite Er.
  - destruct (find_invite t s) as [[n i]|] eqn:E; [|reflexivity]. case_bool_decide as Hp; [|reflexivity].
    apply list_find_lookup in E as [Hl _]. eapply grows_update; [apply _|exact Hl|]. unfold invite_step. cbn. split_and!; try done.
    + destruct (statusOf_pending _ _ Hp) as [-> _]. done.
    + by eexists.
Qed.

Lemma run_invites_step es s : grows invite_step s (run_invites sha256 es s).
Proof. revert s; induction es as [|e es IH]; intros s; [reflexivity|]. etrans; [apply run_invite_step|apply IH]. Qed.

(** Whatever is created, redeemed and revoked, an invitation counts its
    redemptions, has at most its [max_uses], never more than a hundred, and
    grants reading or trading but never administration; and whatever follows, it
    keeps its token, its terms and its past redemptions, and a revoked one never
    changes. *)
Theorem invite_cap es es' :
  let s := run_invites sha256 es [] in
  Forall (fun i => invite_ok i /\ used_count i <= 100) s /\ grows invite_step s (run_invites sha256 es' s).
Proof.
  intros s. split; [|apply run_invites_step].
  enough (Forall invite_ok s) as H.
  { apply (Forall_impl _ _ _ H). intros i Hi. split; [done|]. destruct Hi as (_ & H2 & H3 & _ & H5 & _).
    destruct H5 as [->|H5]; [lia|]. destruct (max_uses i) as [| |q]; try done.
    simpl in H2, H5. apply negb_false_iff, QArith_base.Qle_bool_iff in H2. apply negb_true_iff in H5.
    enough (~ 100 <= used_count i - 1) by lia. intros Hle.
    enough (QArith_base.Qle_bool q (QArith_base.inject_Z (used_count i - 1)) = true) by congruence. apply QArith_base.Qle_bool_iff.
    eapply QArith_base.Qle_trans; [exact H2|]. by rewrite <- QArith_base.Zle_Qle. }
  unfold s, run_invites. assert (Forall invite_ok []) as H0 by constructor. revert H0. generalize (@nil Invite).
  induction es as [|e es IH]; intros l Hl; [done|]. apply IH. by apply run_invite_ok.
Qed.
End Cap.

(** ** Redemption *)

Section Redeem.
Context (sha256 : string -> string).

Definition live (k : StoredKey) : Prop := KeyStore.revoked k = false.
#[export] Instance live_dec k : Decision (live k).
Proof. unfold live. apply _. Defined.

Lemma activeSeatCount_filter ks : activeSeatCount ks = len (filter live ks).
Proof.
  unfold activeSeatCount, listKeys, len. f_equal. apply Permutation_length, filter_Permutation, js_sort_Permutation.
Qed.

Lemma list_find_none_insert (ks : keys) n kid k : list_find (fun k => id k = kid) ks = None -> ks !! n = Some k -> id k <> kid.
Proof. intros H Hk E. apply list_find_None in H. rewrite Forall_forall in H. eapply H; [by eapply list_elem_of_lookup_2|done]. Qed.

(** The key [createKey] would add. *)
Lemma accept_begin_ok clk limit t kid secret body w k s w1 :
  accept_begin sha256 clk limit t kid secret body w = (Ok (k, s), w1) ->
  exists inv lbl, getInvite t (invites_file w) = Some inv /\ statusOf inv (clk 0%nat) = pending /\
    ensureSeatAvailable limit (keys_of w) = true /\
    s = secret /\ k = new_key sha256 kid secret lbl (grantable (scopes inv)) (clk 2%nat) None /\
    keys_of w1 = keys_of w ++ [k] /\ invites_file w1 = invites_file w.
Proof.
  unfold accept_begin. destruct (getInvite t (invites_file w)) as [inv|]; [|done]. cbv zeta.
  case_bool_decide as Hp; [|done]. cbn [negb]. destruct (ensureSeatAvailable _ _) eqn:Es; [|done]. cbn [negb].
  unfold on_file, createKey. cbn zeta. cbn [in_expires_at in_scopes]. intros [= <- <- <-].
  exists inv. eexists. split_and!; try done.
Qed.

Lemma accept_begin_err clk limit t kid secret body w e w1 :
  accept_begin sha256 clk limit t kid secret body w = (Err e, w1) -> w1 = w.
Proof.
  unfold accept_begin. destruct (getInvite t (invites_file w)) as [inv|]; [|by intros [= _ <-]]. cbv zeta.
  case_bool_decide as Hp; [|by intros [= _ <-]]. cbn [negb]. destruct (ensureSeatAvailable _ _) eqn:Es; [|by intros [= _ <-]]. cbn [negb].
  unfold on_file, createKey. by cbn zeta.
Qed.

Lemma consume_spec clk t kid ip f :
  match consumeInvite sha256 clk t kid ip f with
  | (Some i', f') => exists m i, find_invite t (read_file f) = Some (m, i) /\ statusOf i (clk 0%nat) = pending /\
      i' = redeemed sha256 kid ip (clk 1%nat) i /\ read_file f' = <[m := i']> (read_file f)
  | (None, f') => f' = f
  end.
Proof.
  unfold consumeInvite, on_file, consume_tx. destruct (find_invite t (read_file f)) as [[m i]|]; [|done].
  case_bool_decide; [|done]. cbn [negb]. by exists m, i.
Qed.

(** A search by id finds the key that was appended last, whatever happened since. *)
Lemma appended_key_found kid ks k ks' :
  list_find (fun k => id k = kid) ks = None -> id k = kid -> grows key_step (ks ++ [k]) ks' ->
  exists k', list_find (fun k => id k = kid) ks' = Some (length ks, k').
Proof.
  intros Hf Hk Hg. destruct Hg as (old & new & -> & Hg). apply Forall2_app_inv_l in Hg as (l1 & l2 & Hl1 & Hl2 & ->).
  apply Forall2_cons_inv_l in Hl2 as (k' & r & [Hid _] & Hnil & ->). apply Forall2_nil_inv_l in Hnil as ->.
  exists k'. apply list_find_Some. rewrite (Forall2_length _ _ _ Hl1).
  rewrite <- app_assoc, lookup_app_r, Nat.sub_diag by lia. split_and!; [done|congruence|].
  intros j y Hy Hj. rewrite lookup_app_l in Hy by done.
  destruct (Forall2_lookup_r _ _ _ _ _ Hl1 Hy) as (x & Hx & [Hxy _]). rewrite Hxy. by eapply list_find_none_insert.
Qed.

(** C24. A redemption ends in one of two ways, whatever other requests do between
    the minting of its key and the redemption of the invitation: the invitation
    was still pending and has one more redemption, by this key, and the keys are
    left alone; or the invitations are left alone and the minted key is revoked. *)
Theorem redemption_settles clk clk' limit t kid secret ip body w k s w1 w2 r w3 :
  accept_begin sha256 clk limit t kid secret body w = (Ok (k, s), w1) ->
  list_find (fun k => id k = kid) (keys_of w) = None ->
  interfered sha256 w1 w2 ->
  accept_finish sha256 clk' t ip (k, s) w2 = (r, w3) ->
  (r = Ok (k, secret) /\ keys_of w3 = keys_of w2 /\
   exists m i, find_invite t (invites_of w2) = Some (m, i) /\ statusOf i (clk' 0%nat) = pending /\
     invites_of w3 = <[m := redeemed sha256 kid ip (clk' 1%nat) i]> (invites_of w2))
  \/ (r = Err race_lost /\ invites_of w3 = invites_of w2 /\
      exists k', keys_of w3 !! length (keys_of w) = Some k' /\ id k' = kid /\ KeyStore.revoked k' = true).
Proof.
  intros (inv & lbl & _ & _ & _ & -> & -> & Hk1 & _)%accept_begin_ok Hfresh (ies & kes & _ & Hk2) Hfin.
  set (k := new_key _ _ _ _ _ _ _) in *.
  assert (grows key_step (keys_of w ++ [k]) (keys_of w2)) as Hg by (rewrite Hk2, Hk1; apply run_all_key_step).
  destruct (appended_key_found kid (keys_of w) k _ Hfresh eq_refl Hg) as [k' Hk'].
  unfold accept_finish in Hfin. cbn [fst] in Hfin. change (id k) with kid in Hfin. cbv zeta in Hfin.
  pose proof (consume_spec clk' t kid ip (invites_file w2)) as Hc.
  destruct (consumeInvite _ _ _ _ _ _) as [[i'|] vf].
  - left. injection Hfin as <- <-. split_and!; [done|done|]. destruct Hc as (m & i & Hi & Hp & -> & He). eauto.
  - right. injection Hfin as <- <-. subst vf. split_and!; [done|done|].
    destruct (list_find_lookup _ _ _ _ Hk') as [Hl Hid].
    unfold keys_of. cbn [keys_file]. rewrite on_file_view by done. unfold after, revokeKey. unfold keys_of in Hk', Hl. rewrite Hk'.
    destruct (KeyStore.revoked k') eqn:Er; cbn [snd from_option].
    + by exists k'.
    + exists (KeyStore.mark_revoked k'). split; [|done]. apply list_lookup_insert_eq. by eapply lookup_lt_Some.
Qed.

Lemma grantable_elem ss x : ss <> [] -> admin ∉ ss -> x ∈ grantable ss <-> x ∈ ss.
Proof.
  intros Hne Ha. unfold grantable. cbv zeta.
  assert (forall y, y ∈ dedup (filter (fun s => s = read \/ s = trade) ss) <-> y ∈ ss) as H.
  { intros y. rewrite dedup_elem, list_elem_of_filter. split; [tauto|]. intros Hy. split; [|done]. destruct y; auto. done. }
  destruct (length _ =? 0)%nat eqn:E; [|apply H]. apply Nat.eqb_eq, nil_length_inv in E. destruct ss as [|y ss]; [done|].
  assert (y ∈ dedup (filter (fun s => s = read \/ s = trade) (y :: ss))) as Hy by (apply H; left). by rewrite E in Hy; apply elem_of_nil in Hy.
Qed.

(** Redemptions that nobody interferes with take one seat each, never beyond
    the limit, and one that fails takes none and leaves the invitations as they
    were; the key that is handed out has the scopes of the invitation and never
    administers. *)
Theorem redemption_takes_a_seat clk limit t kid secret ip body w r w' :
  list_find (fun k => id k = kid) (keys_of w) = None ->
  Forall invite_ok (invites_of w) ->
  accept sha256 clk limit t kid secret ip body w = (r, w') ->
  let seats w := activeSeatCount (keys_of w) in
  match r with
  | Ok (k, s) => seats w' = seats w + 1 /\ (seatLimit limit <> 0 -> seats w' <= seatLimit limit) /\ s = secret /\
                 keys_of w' = keys_of w ++ [k] /\ live k /\ hash k = sha256 secret /\ admin ∉ KeyStore.scopes k /\
                 exists inv, getInvite t (invites_file w) = Some inv /\ (forall x, x ∈ KeyStore.scopes k <-> x ∈ scopes inv)
  | Err e => seats w' = seats w /\ invites_of w' = invites_of w /\
             exists dead, keys_of w' = keys_of w ++ dead /\ Forall (fun k => ~ live k) dead
  end.
Proof.
  intros Hfresh Hok Hacc. cbv zeta. unfold accept in Hacc.
  destruct (accept_begin _ _ _ _ _ _ _ _) as [[[k s]|e] w1] eqn:Hb; [|injection Hacc as <- <-; apply accept_begin_err in Hb as ->;
    split_and!; [done|done|]; exists []; by rewrite app_nil_r].
  apply accept_begin_ok in Hb as (inv & lbl & Hinv & _ & Hseat & -> & Hk & Hk1 & Hi1).
  assert (live k) as Hlive by by rewrite Hk.
  assert (KeyStore.id k = kid) as Hid by by rewrite Hk.
  unfold accept_finish in Hacc. cbn [fst] in Hacc. rewrite Hid in Hacc. cbv zeta in Hacc.
  pose proof (consume_spec (fun n => clk (n + 3)%nat) t kid ip (invites_file w1)) as Hc.
  destruct (consumeInvite _ _ _ _ _ _) as [[i'|] vf]; injection Hacc as <- <-.
  - change (keys_of (World vf (keys_file w1))) with (keys_of w1). rewrite Hk1, !activeSeatCount_filter. unfold len at 1 3. rewrite filter_app, length_app.
    unfold len. rewrite filter_cons, decide_True by done. cbn [length filter list_filter].
    split_and!; try done; try (by rewrite Hk); try lia.
    + intros Hne. unfold ensureSeatAvailable, getSeatUsage in Hseat. cbv zeta in Hseat. rewrite (proj2 (Z.eqb_neq _ _) Hne) in Hseat.
      cbn in Hseat. rewrite activeSeatCount_filter in Hseat. unfold len in Hseat. lia.
    + rewrite Hk. cbn. apply grantable_no_admin.
    + exists inv. split; [done|]. assert (scopes inv <> [] /\ admin ∉ scopes inv) as [Hne Hna]; [|intros x; rewrite Hk; cbn; by apply grantable_elem].
      unfold getInvite in Hinv. destruct (find_invite t _) as [[n i]|] eqn:E; [|done]. injection Hinv as ->.
      apply list_find_lookup in E as [Hl _]. destruct (Forall_lookup_1 _ _ _ _ Hok Hl) as (_ & _ & _ & _ & _ & H1 & H2 & H3). by split.
  - subst vf. assert (keys_of (World (invites_file w1) (snd (on_file (revokeKey kid) (keys_file w1)))) = keys_of w ++ [KeyStore.mark_revoked k]) as Hke.
    { unfold keys_of at 1. cbn [keys_file]. rewrite on_file_view by done. unfold after, revokeKey. fold (keys_of w1). rewrite Hk1.
      destruct (appended_key_found kid (keys_of w) k (keys_of w ++ [k]) Hfresh Hid) as [k' Hk']; [reflexivity|].
      rewrite Hk'. apply list_find_lookup in Hk' as [Hl _]. rewrite lookup_app_r, Nat.sub_diag in Hl by lia. injection Hl as <-.
      rewrite Hlive. cbn [snd from_option]. by rewrite insert_app_r_alt, Nat.sub_diag by lia. }
    rewrite Hke, !activeSeatCount_filter. split_and!.
    + unfold len. by rewrite filter_app, filter_cons, decide_False, filter_nil, app_nil_r by done.
    + unfold invites_of. cbn [invites_file]. by rewrite Hi1.
    + exists [KeyStore.mark_revoked k]. split; [done|]. by apply Forall_singleton.
Qed.
End Redeem.

(** Two redemptions of one invitation whose reads both precede the writes both
    succeed, the second write erasing the first redemption: the read and the
    write of [consumeInvite] are not one step. *)
Lemma overlapping_consumes_both_succeed sha256 t clk ip s m i :
  find_invite t s = Some (m, i) -> statusOf i (clk 0%nat) = pending ->
  let c := perform_all [consume_tx sha256 clk t "k1" ip; consume_tx sha256 clk t "k2" ip] [Read 0; Read 1; Write 0; Write 1] (start s) in
  results c !! 0%nat = Some (Some (redeemed sha256 "k1" ip (clk 1%nat) i)) /\
  results c !! 1%nat = Some (Some (redeemed sha256 "k2" ip (clk 1%nat) i)).
Proof.
  intros Hf Hp c. destruct (overlap_results (consume_tx sha256 clk t "k1" ip) (consume_tx sha256 clk t "k2" ip) s) as (H0 & H1 & _).
  unfold c. rewrite H0, H1. unfold consume_tx. rewrite Hf. rewrite bool_decide_true by done. done.
Qed.

Section Demo.
Definition demo_sha (s : string) : string := "#" +:+ s.
Definition demo_now (t : Z) : clock := fun _ => t.
Definition demo_input (uses : Z) (ttl : option num) : CreateInviteInput :=
  {| in_label := "trader"; in_scopes := ["trade"; "read"; "admin"; "trade"]; in_max_uses := Some (int uses);
     in_expires_in_seconds := ttl; in_created_by := None |}.
Definition demo_world : world :=
  World (write_file (run_invites demo_sha [CreateInvite (demo_now 1000) "a" (demo_input 1 (Some (int 60)))] [])) None.
(** Pending when it is looked up, expired when it is redeemed. *)
Definition slow : clock := fun n => if (n <? 3)%nat then 2000 else 90000.

Definition demo_key (t : Z) (n secret : string) : StoredKey := new_key demo_sha n secret "trader" [trade; read] t None.
Definition demo_minted : world := World (invites_file demo_world) (write_file [demo_key 2000 "k1" "sc_live_1"]).
(** Another request has redeemed the invitation in the meantime. *)
Definition demo_taken : world :=
  World (snd (consumeInvite demo_sha (demo_now 2500) "inv_a" "other" "10.0.0.1" (invites_file demo_minted))) (keys_file demo_minted).

Lemma redemption_settles_witness :
  fst (accept_finish demo_sha (demo_now 3000) "inv_a" "10.0.0.2" (demo_key 2000 "k1" "sc_live_1", "sc_live_1") demo_taken) = Err race_lost /\
  exists k', keys_of (snd (accept_finish demo_sha (demo_now 3000) "inv_a" "10.0.0.2" (demo_key 2000 "k1" "sc_live_1", "sc_live_1") demo_taken)) !! 0%nat
    = Some k' /\ id k' = "k1" /\ KeyStore.revoked k' = true.
Proof.
  set (x := accept_finish _ _ _ _ _ _).
  destruct (redemption_settles demo_sha (demo_now 2000) (demo_now 3000) (Some (int 5)) "inv_a" "k1" "sc_live_1" "10.0.0.2" None
    demo_world (demo_key 2000 "k1" "sc_live_1") "sc_live_1" demo_minted demo_taken (fst x) (snd x) eq_refl eq_refl)
    as [(H & _)|(H & _ & Hk)].
  - by exists [Consume (demo_now 2500) "inv_a" "other" "10.0.0.1"], [].
  - apply surjective_pairing.
  - vm_compute in H. discriminate.
  - done.
Defined.

Lemma redemption_takes_a_seat_witness :
  let w' := snd (accept demo_sha slow None "inv_a" "k1" "sc_live_1" "10.0.0.2" None demo_world) in
  activeSeatCount (keys_of w') = 0 /\ invites_of w' = invites_of demo_world /\
  exists dead, keys_of w' = [] ++ dead /\ Forall (fun k => ~ live k) dead.
Proof.
  apply (redemption_takes_a_seat demo_sha slow None "inv_a" "k1" "sc_live_1" "10.0.0.2" None demo_world (Err race_lost)
    (snd (accept demo_sha slow None "inv_a" "k1" "sc_live_1" "10.0.0.2" None demo_world)) eq_refl); [|vm_compute; reflexivity].
  apply Forall_singleton. unfold invite_ok. split_and!; [vm_compute; by auto..| | |].
  - discriminate.
  - apply (bool_decide_unpack _). vm_compute. exact I.
  - apply (bool_decide_unpack _). vm_compute. exact I.
Defined.
End Demo.
