(* ===== verification/SsoPolicy.v ===== *)
(** The OIDC policy of the workspace and the provider documents it leads to:
    [web/lib/ssoPolicyStore.ts]. The text JavaScript gives a JSON value that is
    not a string, and the network, are parameters. *)
From S2P Require Import Prelude JsNum JsDate IsoTime Json Store.

Record SsoPolicy := {
  enabled : bool; issuer : string; client_id : string; client_secret : string; allowed_domains : list string; enforce : bool;
  redirect_uri : option string; updated_at : option Z; updated_by : option string }.

Definition MAX_DOMAINS : Z := 32.

Definition defaultPolicy : SsoPolicy :=
  {| enabled := false; issuer := ""; client_id := ""; client_secret := ""; allowed_domains := []; enforce := false;
     redirect_uri := None; updated_at := None; updated_by := None |}.

(** [getSsoPolicy]; the file is only written by this module. *)
#[export] Program Instance policy_persisted : Persisted SsoPolicy := {|
  raw := SsoPolicy; encode s := s; decode s := s; absent := defaultPolicy; storable _ := True |}.
Next Obligation. done. Qed.

Definition getSsoPolicy (f : file SsoPolicy) : SsoPolicy := read_file f.

(** The policy without the secret, and whether one is set. *)
Definition toPublic (p : SsoPolicy) : SsoPolicy * bool :=
  ({| enabled := enabled p; issuer := issuer p; client_id := client_id p; client_secret := ""; allowed_domains := allowed_domains p;
      enforce := enforce p; redirect_uri := redirect_uri p; updated_at := updated_at p; updated_by := updated_by p |},
   truthy (client_secret p)).

(** ** The patterns *)

Definition is_digit (c : Ascii.ascii) : bool := (48 <=? code c) && (code c <=? 57).
Definition is_letter (c : Ascii.ascii) : bool := ((65 <=? code c) && (code c <=? 90)) || ((97 <=? code c) && (code c <=? 122)).
Definition one_of (cs : string) (c : Ascii.ascii) : bool := negb (str_forall (fun d => negb (Ascii.eqb c d)) cs).

Definition host_char (c : Ascii.ascii) : bool := is_letter c || is_digit c || one_of ".-" c.
Definition path_char (c : Ascii.ascii) : bool := is_letter c || is_digit c || one_of "._~/-" c.
Definition client_char (c : Ascii.ascii) : bool := is_letter c || is_digit c || one_of "._:-" c.

(** Nothing, or a slash and path characters. *)
Definition path_tail (s : string) : bool := match s with "" => true | String c r => Ascii.eqb c "/"%char && str_forall path_char r end.

(** An optional port, then the path. *)
Definition port_and_path (s : string) : bool :=
  match s with
  | String ":"%char r => let '(ds, rest) := str_span is_digit r in truthy ds && path_tail rest
  | _ => path_tail s
  end.

Definition ISSUER_RE (s : string) : bool :=
  String.eqb (to_lower (str_take 8 s)) "https://" && (let '(h, rest) := str_span host_char (str_drop 8 s) in truthy h && port_and_path rest).

(** The last dot splits the text: letters behind it, at least two. *)
Definition DOMAIN_RE (s : string) : bool :=
  match str_last_index "."%char s with
  | Some n => let top := str_drop (S n) s in
              (0 <? n)%nat && str_forall host_char (str_take n s) && (2 <=? str_len top) && str_forall is_letter top
  | None => false
  end.

(** ** Updating *)

Inductive SsoError :=
| issuer_required | issuer_too_long | issuer_not_https | domain_too_long | invalid_domain | too_many_domains
| client_id_required | client_id_too_long | invalid_client_id | secret_too_long | redirect_too_long | redirect_not_http
| incomplete | enforce_disabled.

Definition canonicalizeIssuer (raw : string) : result string SsoError :=
  let s := drop_trailing "/"%char (trim raw) in
  if negb (truthy s) then Err issuer_required
  else if str_len s >? 256 then Err issuer_too_long
  else if negb (ISSUER_RE s) then Err issuer_not_https
  else Ok s.

Section Policy.
Context (String_of : json -> string).

(** [seen] and [out] hold the same domains. *)
Fixpoint canon_domains (out : list string) (raw : list json) : result (list string) SsoError :=
  match raw with
  | [] => Ok out
  | r :: rest =>
      let v := to_lower (trim (js_text String_of (Some r))) in
      if negb (truthy v) then canon_domains out rest
      else if str_len v >? 253 then Err domain_too_long
      else if negb (DOMAIN_RE v) then Err invalid_domain
      else if bool_decide (v ∈ out) then canon_domains out rest
      else let out := out ++ [v] in if len out >? MAX_DOMAINS then Err too_many_domains else canon_domains out rest
  end.

Definition canonicalizeDomains (raw : list json) : result (list string) SsoError := canon_domains [] raw.

(** The fields as they arrive; a missing one is [None]. *)
Record UpdateInput := {
  in_enabled : jval; in_issuer : jval; in_client_id : jval; in_client_secret : jval; in_allowed_domains : jval; in_enforce : jval;
  in_redirect_uri : jval; in_actor : option string }.

Definition bool_or (v : jval) (cur : bool) : bool := match v with Some (JBool b) => b | _ => cur end.

Definition issuer_of (v : jval) (cur : string) : result string SsoError :=
  match v with Some (JStr s) => canonicalizeIssuer s | _ => Ok cur end.

Definition client_id_of (v : jval) (cur : string) : result string SsoError :=
  match v with
  | Some (JStr s) =>
      let s := trim s in
      if negb (truthy s) then Err client_id_required
      else if str_len s >? 256 then Err client_id_too_long
      else if negb (str_forall client_char s) then Err invalid_client_id
      else Ok s
  | _ => Ok cur
  end.

Definition client_secret_of (v : jval) (cur : string) : result string SsoError :=
  match v with
  | Some JNull => Ok ""
  | Some (JStr s) => if truthy s then if str_len s >? 512 then Err secret_too_long else Ok s else Ok cur
  | _ => Ok cur
  end.

Definition domains_of (v : jval) (cur : list string) : result (list string) SsoError :=
  match v with Some (JArr l) => canonicalizeDomains l | _ => Ok cur end.

Definition redirect_of (v : jval) (cur : option string) : result (option string) SsoError :=
  match v with
  | Some JNull => Ok None
  | Some (JStr s) =>
      let s := trim s in
      if truthy s then
        if str_len s >? 512 then Err redirect_too_long
        else if negb (starts_with "http://" s || starts_with "https://" s) then Err redirect_not_http
        else Ok (Some s)
      else Ok None
  | _ => Ok cur
  end.

Definition update_tx (input : UpdateInput) (now : Z) : transaction SsoPolicy (result (SsoPolicy * SsoPolicy) SsoError) := fun before =>
  let next :=
    result_bind (issuer_of (in_issuer input) (issuer before)) (fun iss =>
    result_bind (client_id_of (in_client_id input) (client_id before)) (fun cid =>
    result_bind (client_secret_of (in_client_secret input) (client_secret before)) (fun sec =>
    result_bind (domains_of (in_allowed_domains input) (allowed_domains before)) (fun doms =>
    result_bind (redirect_of (in_redirect_uri input) (redirect_uri before)) (fun uri =>
    let on := bool_or (in_enabled input) (enabled before) in
    let enf := bool_or (in_enforce input) (enforce before) in
    if on && negb (truthy iss && truthy cid && truthy sec) then Err incomplete
    else if enf && negb on then Err enforce_disabled
    else Ok {| enabled := on; issuer := iss; client_id := cid; client_secret := sec; allowed_domains := doms; enforce := enf;
               redirect_uri := uri; updated_at := Some now;
               updated_by := match in_actor input with Some a => Some a | None => updated_by before end |}))))) in
  match next with Ok p => (Ok (before, p), Some p) | Err e => (Err e, None) end.

Definition updateSsoPolicy (input : UpdateInput) (now : Z) (f : file SsoPolicy) := on_file (update_tx input now) f.
End Policy.

(** ** Discovery and keys *)

Definition DISCOVERY_TTL_MS : Z := 60 * 60 * 1000.
Definition JWKS_TTL_MS : Z := 60 * 60 * 1000.

(** What was fetched, and when. *)
Abbreviation cache := (gmap string (Z * json)).

Section Provider.
(** [fetch] without redirects, a status that is ok, and [json()]; [None] when
    one of them fails. *)
Context (fetch : string -> option json).

Definition https_url (v : jval) : bool := match v with Some (JStr s) => starts_with "https://" s | _ => false end.

(** [j.issuer] is present and is, up to slashes at its end, the issuer. *)
Definition names_issuer (j : json) (iss : string) : bool :=
  match field "issuer" j with Some (JStr s) => truthy s && String.eqb (drop_trailing "/"%char s) iss | _ => false end.

Definition fetchDiscovery (iss : string) (force : bool) (clk : clock) (c : cache) : option json * cache :=
  let url := drop_trailing "/"%char iss +:+ "/.well-known/openid-configuration" in
  let refetch :=
    match fetch url with
    | None => (None, c)
    | Some j =>
        if negb (names_issuer j iss) then (None, c)
        else if negb (forallb (fun f => https_url (field f j)) ["authorization_endpoint"; "token_endpoint"; "jwks_uri"]) then (None, c)
        else (Some j, <[iss := (clk 1%nat, j)]> c)
    end in
  match c !! iss with
  | Some (at_, doc) => if negb force && (clk 0%nat - at_ <? DISCOVERY_TTL_MS) then (Some doc, c) else refetch
  | None => refetch
  end.

(** The keys of the document. *)
Definition keys_of (j : json) : option (list json) := match field "keys" j with Some (JArr l) => Some l | _ => None end.

Definition fetchJwks (uri : string) (force : bool) (clk : clock) (c : cache) : option (list json) * cache :=
  let refetch :=
    match fetch uri with
    | None => (None, c)
    | Some j => match keys_of j with Some l => (Some l, <[uri := (clk 1%nat, j)]> c) | None => (None, c) end
    end in
  match c !! uri with
  | Some (at_, doc) => if negb force && (clk 0%nat - at_ <? JWKS_TTL_MS) then (keys_of doc, c) else refetch
  | None => refetch
  end.
End Provider.

(** ** The stored policy is usable *)

Lemma lower_ascii_twice c : lower_ascii (lower_ascii c) = lower_ascii c.
Proof.
  unfold lower_ascii. cbv zeta. destruct ((65 <=? code c) && (code c <=? 90)) eqn:E; [|by rewrite E].
  apply andb_true_iff in E as [H1%Z.leb_le H2%Z.leb_le]. rewrite code_chr by lia. by rewrite (proj2 (Z.leb_gt _ 90)), andb_false_r by lia.
Qed.

Lemma to_lower_twice s : to_lower (to_lower s) = to_lower s.
Proof. unfold to_lower. induction s as [|c s IH]; [done|]. simpl. by rewrite lower_ascii_twice, IH. Qed.

Definition domain_ok (d : string) : Prop := DOMAIN_RE d = true /\ to_lower d = d.

Definition policy_ok (p : SsoPolicy) : Prop :=
  (issuer p = "" \/ ISSUER_RE (issuer p) = true) /\ str_forall client_char (client_id p) = true /\
  (enabled p = true -> truthy (issuer p) = true /\ truthy (client_id p) = true /\ truthy (client_secret p) = true) /\
  (enforce p = true -> enabled p = true) /\
  NoDup (allowed_domains p) /\ len (allowed_domains p) <= MAX_DOMAINS /\ Forall domain_ok (allowed_domains p).

Section Usable.
Context (String_of : json -> string).

Lemma canon_domains_ok raw out doms :
  NoDup out -> len out <= MAX_DOMAINS -> Forall domain_ok out -> canon_domains String_of out raw = Ok doms ->
  NoDup doms /\ len doms <= MAX_DOMAINS /\ Forall domain_ok doms.
Proof.
  revert out; induction raw as [|r raw IH]; intros out Hn Hl Hf; [by intros [= <-]|]. cbn [canon_domains]. cbv zeta.
  set (v := to_lower _). destruct (negb (truthy v)); [by apply IH|]. destruct (_ >? 253); [done|].
  destruct (DOMAIN_RE v) eqn:Ed; [|done]. cbn [negb]. case_bool_decide as Hin; [by apply IH|].
  destruct (_ >? MAX_DOMAINS) eqn:El; [done|]. apply IH.
  - apply NoDup_app. split_and!; [done| |apply NoDup_singleton]. intros x Hx Hx'. apply list_elem_of_singleton in Hx' as ->. done.
  - lia.
  - apply Forall_app. split; [done|]. apply Forall_singleton. split; [done|]. apply to_lower_twice.
Qed.

Lemma canonicalizeIssuer_ok raw iss : canonicalizeIssuer raw = Ok iss -> ISSUER_RE iss = true.
Proof.
  unfold canonicalizeIssuer. cbv zeta. destruct (negb (truthy _)); [done|]. destruct (_ >? 256); [done|].
  destruct (ISSUER_RE _) eqn:E; [|done]. by intros [= <-].
Qed.

Lemma client_id_of_ok v cur cid : str_forall client_char cur = true -> client_id_of v cur = Ok cid -> str_forall client_char cid = true.
Proof.
  intros Hc. unfold client_id_of. destruct v as [[]|]; try by intros [= <-]. cbv zeta. destruct (negb (truthy _)); [done|].
  destruct (_ >? 256); [done|]. destruct (str_forall client_char (trim s)) eqn:E; [|done]. cbn [negb]. by intros [= <-].
Qed.

(** An accepted update satisfies the checks; a refused one writes nothing. *)
Lemma update_tx_ok input now p r w : policy_ok p -> update_tx String_of input now p = (r, w) ->
  match r with Ok (b, a) => b = p /\ w = Some a /\ policy_ok a | Err _ => w = None end.
Proof.
  intros (Hi & Hc & _ & _ & Hn & Hl & Hf). unfold update_tx.
  destruct (issuer_of _ _) as [iss|e] eqn:Ei; [|by intros [= <- <-]]. cbn [result_bind].
  destruct (client_id_of _ _) as [cid|e] eqn:Ec; [|by intros [= <- <-]]. cbn [result_bind].
  destruct (client_secret_of _ _) as [sec|e] eqn:Es; [|by intros [= <- <-]]. cbn [result_bind].
  destruct (domains_of _ _ _) as [doms|e] eqn:Ed; [|by intros [= <- <-]]. cbn [result_bind].
  destruct (redirect_of _ _) as [uri|e]; [|by intros [= <- <-]]. cbn [result_bind]. cbv zeta.
  destruct (_ && negb (truthy iss && truthy cid && truthy sec)) eqn:E1; [by intros [= <- <-]|].
  destruct (_ && negb (bool_or (in_enabled input) (enabled p))) eqn:E2; [by intros [= <- <-]|].
  intros [= <- <-]. split_and!; [done|done|]. unfold policy_ok. cbn [issuer client_id client_secret enabled enforce allowed_domains].
  assert (NoDup doms /\ len doms <= MAX_DOMAINS /\ Forall domain_ok doms) as Hd.
  { destruct (in_allowed_domains input) as [[]|]; simpl in Ed; try (injection Ed as <-; done).
    eapply canon_domains_ok; [constructor| |constructor|exact Ed]. done. }
  split_and!; try apply Hd.
  - destruct (in_issuer input) as [[]|]; simpl in Ei; try (injection Ei as <-; done). right. by eapply canonicalizeIssuer_ok.
  - by eapply client_id_of_ok.
  - intros Hon. rewrite Hon in E1. apply negb_false_iff, andb_true_iff in E1 as [[H1 H2]%andb_true_iff H3]. done.
  - intros Hen. rewrite Hen in E2. by apply negb_false_iff in E2.
Qed.
End Usable.

(** Whatever updates are tried from a fresh installation on, the stored policy
    is complete when it is on, is on when it is enforced, and has at most
    thirty-two distinct lower-case domains; an update that is refused leaves it
    as it was. *)
Theorem sso_policy_usable String_of updates input now :
  let f := fold_left (fun f u => snd (updateSsoPolicy String_of (fst u) (snd u) f)) updates None in
  policy_ok (getSsoPolicy f) /\
  match updateSsoPolicy String_of input now f with
  | (Ok (before, after_), f') => before = getSsoPolicy f /\ getSsoPolicy f' = after_
  | (Err _, f') => f' = f
  end.
Proof.
  intros f. assert (policy_ok (getSsoPolicy f)) as Hok.
  { subst f. assert (policy_ok (getSsoPolicy None)) as H0.
    { unfold policy_ok; cbn; split_and!; try done; first [by left|by apply NoDup_nil|by apply Forall_nil]. }
    revert H0. generalize (@None (raw SsoPolicy)). induction updates as [|u us IH]; intros f Hf; [done|]. cbn [fold_left]. apply IH.
    unfold updateSsoPolicy, getSsoPolicy, on_file. destruct (update_tx _ _ _ _) as [r w] eqn:E.
    pose proof (update_tx_ok String_of _ _ _ _ _ Hf E) as H. destruct r as [[b a]|e]; [|by subst w].
    destruct H as (_ & -> & Ha). done. }
  split; [done|]. unfold updateSsoPolicy, on_file. destruct (update_tx _ _ _ _) as [r w] eqn:E.
  pose proof (update_tx_ok String_of _ _ _ _ _ Hok E) as H. destruct r as [[b a]|e]; [|by subst w].
  destruct H as (-> & -> & _). done.
Qed.

(** ** Cached documents are checked documents *)

Definition discovery_ok (iss : string) (j : json) : Prop :=
  (exists s, field "issuer" j = Some (JStr s) /\ s <> "" /\ drop_trailing "/"%char s = iss) /\
  Forall (fun f => exists u, field f j = Some (JStr u) /\ starts_with "https://" u = true) ["authorization_endpoint"; "token_endpoint"; "jwks_uri"].

Lemma discovery_checked iss j : names_issuer j iss = true ->
  forallb (fun f => https_url (field f j)) ["authorization_endpoint"; "token_endpoint"; "jwks_uri"] = true -> discovery_ok iss j.
Proof.
  unfold names_issuer. intros Hn Hf. split.
  - destruct (field "issuer" j) as [[]|]; try done. apply andb_prop in Hn as [Ht%truthy_spec He%String.eqb_eq]. by exists s.
  - apply Forall_forall. intros f Hin. rewrite forallb_forall in Hf. apply list_elem_of_In, Hf in Hin. unfold https_url in Hin.
    destruct (field f j) as [[]|]; try done. by exists s.
Qed.

Definition configuration_url (iss : string) : string := drop_trailing "/"%char iss +:+ "/.well-known/openid-configuration".

(** [served url j]: the document [j] was once the answer to a request for [url]. *)
Section Served.
Context (fetch : string -> option json) (served : string -> json -> Prop) (Hserved : forall url j, fetch url = Some j -> served url j).

(** Every configuration on file was served by its issuer and passed the checks;
    every set of keys was served at its address. *)
Definition configurations_ok (c : cache) : Prop := map_Forall (fun iss e => served (configuration_url iss) (snd e) /\ discovery_ok iss (snd e)) c.
Definition keys_ok (c : cache) : Prop := map_Forall (fun uri e => served uri (snd e)) c.

Lemma fetchDiscovery_ok iss force clk c : configurations_ok c ->
  match fetchDiscovery fetch iss force clk c with
  | (Some j, c') => served (configuration_url iss) j /\ discovery_ok iss j /\ configurations_ok c'
  | (None, c') => c' = c
  end.
Proof using Hserved.
  intros Hc. unfold fetchDiscovery. cbv zeta.
  set (refetch := match fetch _ with Some _ => _ | None => _ end).
  assert (match refetch with (Some j, c') => served (configuration_url iss) j /\ discovery_ok iss j /\ configurations_ok c' | (None, c') => c' = c end) as Hr.
  { subst refetch. destruct (fetch _) as [j|] eqn:Ej; [|done]. destruct (names_issuer j iss) eqn:En; [|done]. cbn [negb].
    destruct (forallb _ _) eqn:Ef; [|done]. cbn [negb]. apply Hserved in Ej.
    assert (discovery_ok iss j) as Hj; [by apply discovery_checked|].
    split_and!; [done|done|]. by apply map_Forall_insert_2. }
  destruct (c !! iss) as [[at_ doc]|] eqn:E; [|exact Hr]. destruct (negb force && _); [|exact Hr].
  destruct (Hc _ _ E) as [H1 H2]. done.
Qed.

Lemma fetchJwks_ok uri force clk c : keys_ok c ->
  let '(r, c') := fetchJwks fetch uri force clk c in
  keys_ok c' /\ forall ks, r = Some ks -> exists j, served uri j /\ keys_of j = Some ks.
Proof using Hserved.
  intros Hc. unfold fetchJwks. cbv zeta. set (refetch := match fetch _ with Some _ => _ | None => _ end).
  assert (let '(r, c') := refetch in keys_ok c' /\ forall ks, r = Some ks -> exists j, served uri j /\ keys_of j = Some ks) as Hr.
  { subst refetch. destruct (fetch uri) as [j|] eqn:Ej; [|done]. apply Hserved in Ej. destruct (keys_of j) as [l|] eqn:El; [|done].
    split; [by apply map_Forall_insert_2|]. intros ks [= <-]. by exists j. }
  destruct (c !! uri) as [[at_ doc]|] eqn:E; [|exact Hr]. destruct (negb force && _); [|exact Hr].
  split; [done|]. intros ks Hk. exists doc. split; [exact (Hc _ _ E)|done].
Qed.
End Served.
