(* ===== verification/Sso.v ===== *)
(** Signing in with the identity provider: the cookies and the ID-token check
    of [web/lib/ssoSession.ts], and the handlers [app/api/auth/sso/login],
    [callback] and [logout] that compose them with the policy and the session
    registry. The MAC, base64url, the texts of the payloads, signature
    verification and the network are parameters; random values are arguments.
    Audit lines are left out. *)
From S2P Require Import Prelude JsNum JsDate IsoTime Json Store SsoPolicy Sessions.

Definition SESSION_TTL_S : Z := 12 * 60 * 60.
Definition TX_TTL_S : Z := 10 * 60.

(** [getSigningKey]: [env] is [SIGNALCLAW_SSO_SESSION_KEY], [stored] the key
    file, [fresh] a new random key. *)
Record KeyState := { cachedKey : option string; stored : option string }.

Definition long_enough (k : option string) : option string := match k with Some s => if 32 <=? str_len s then Some s else None | None => None end.

Definition getSigningKey (env : option string) (fresh : string) (st : KeyState) : string * KeyState :=
  match cachedKey st with
  | Some k => (k, st)
  | None =>
      match long_enough env with
      | Some k => (k, {| cachedKey := Some k; stored := stored st |})
      | None =>
          match long_enough (stored st) with
          | Some k => (k, {| cachedKey := Some k; stored := stored st |})
          | None => (fresh, {| cachedKey := Some fresh; stored := Some fresh |})
          end
      end
  end.

Record SsoSession := { v : Z; sub : string; email : string; iss : string; iat : Z; exp : Z; jti : option string }.
Record SsoTx := { tx_v : Z; tx_state : string; tx_nonce : string; tx_verifier : string; return_to : string; tx_iat : Z }.

(** The names and values of a cookie header: [split(/;\s*/)]. *)
Definition cookie_parts (raw : string) : list string :=
  match split ";" raw with [] => [] | p :: r => p :: (trim_start <$> r) end.

Section Cookies.
(** [Buffer.from] and [toString] with base64url; [hmac key text]. *)
Context (b64u : list Z -> string) (b64uDec : string -> list Z) (hmac : string -> string -> list Z).
(** The text of a payload, and reading one. *)
Context (session_text : SsoSession -> list Z) (session_parse : list Z -> option SsoSession).
Context (tx_text : SsoTx -> list Z) (tx_parse : list Z -> option SsoTx).
(** [None]: it throws. *)
Context (decodeURIComponent : string -> option string).

Definition seconds (ms : Z) : Z := ms / 1000.

Record MintInput := { in_sub : string; in_email : string; in_iss : string; in_jti : option string }.

Definition new_payload (random : string) (s : MintInput) (now : Z) : SsoSession :=
  let j := match in_jti s with Some j => if 8 <=? str_len j then j else random | None => random end in
  {| v := 1; sub := in_sub s; email := in_email s; iss := in_iss s; iat := now; exp := now + SESSION_TTL_S; jti := Some j |}.

(** [body.signature]; transaction cookies sign the body behind [tx:]. *)
Definition sealed (label key body : string) : string := body +:+ "." +:+ b64u (hmac key (label +:+ body)).

Definition mintSession (key random : string) (s : MintInput) (clk : clock) : string * SsoSession :=
  let p := new_payload random s (seconds (clk 0%nat)) in (sealed "" key (b64u (session_text p)), p).

(** The body of a token whose signature is right. *)
Definition opened (label key : string) (token : option string) : option string :=
  match token with
  | Some t =>
      if negb (truthy t) then None else
      match split "." t with
      | [body; sig] => if bool_decide (hmac key (label +:+ body) = b64uDec sig) then Some body else None
      | _ => None
      end
  | None => None
  end.

(** [live] is the liveness option; the clock is read here and by the registry. *)
Definition verifySessionCookie (sha256 : string -> string) (timeouts : Timeout.SessionTimeoutPolicy) (key : string) (token : option string)
    (skipRegistry : bool) (live : option (option string)) (clk : clock) (st : Sessions.Store) : option SsoSession * Sessions.Store :=
  match opened "" key token with
  | None => (None, st)
  | Some body =>
      match session_parse (b64uDec body) with
      | None => (None, st)
      | Some p =>
          if negb (v p =? 1) then (None, st)
          else if exp p <=? seconds (clk 0%nat) then (None, st)
          else if skipRegistry then (Some p, st)
          else let '(status, st) := checkSession sha256 timeouts (default "" (jti p)) (iat p) (exp p) live (seconds (clk 1%nat)) st in
               (match status with Some _ => None | None => Some p end, st)
      end
  end.

Definition mintTxCookie (key : string) (state nonce verifier ret : string) (clk : clock) : string :=
  sealed "tx:" key (b64u (tx_text {| tx_v := 1; tx_state := state; tx_nonce := nonce; tx_verifier := verifier; return_to := ret;
                                     tx_iat := seconds (clk 0%nat) |})).

Definition verifyTxCookie (key : string) (token : option string) (clk : clock) : option SsoTx :=
  match opened "tx:" key token with
  | None => None
  | Some body =>
      match tx_parse (b64uDec body) with
      | None => None
      | Some t => if negb (tx_v t =? 1) then None else if seconds (clk 0%nat) - tx_iat t >? TX_TTL_S then None else Some t
      end
  end.

(** The value of the first cookie of that name; [Err]: decoding it throws. *)
Fixpoint read_parts (name : string) (parts : list string) : result (option string) unit :=
  match parts with
  | [] => Ok None
  | part :: r =>
      match str_index "="%char part with
      | Some n => if String.eqb (str_take n part) name
                  then match decodeURIComponent (str_drop (S n) part) with Some s => Ok (Some s) | None => Err tt end
                  else read_parts name r
      | None => read_parts name r
      end
  end.

Definition readCookie (headers : gmap string string) (name : string) : result (option string) unit :=
  match headers !! "cookie" with
  | Some raw => if truthy raw then read_parts name (cookie_parts raw) else Ok None
  | None => Ok None
  end.

(** ** The ID token *)

Section IdToken.
(** [JSON.parse] of the decoded bytes; [verify alg key signature data], [None]
    when the key cannot be imported; the document of keys, with the refresh. *)
Context (json_parse : list Z -> option json) (verify : string -> json -> list Z -> string -> option bool).
Context (fetch : string -> option json).

Inductive JwtError :=
| malformed | bad_header | bad_payload | unsupported_alg | jwks_failed | kid_not_found | key_import | bad_signature | jwt_expired
| not_yet_valid | iat_in_future | issuer_mismatch | audience_mismatch | nonce_mismatch | sub_missing.

(** [===] between values of two documents: objects are never the same. *)
Definition strict_eq (a b : jval) : bool :=
  match a, b with
  | None, None | Some JNull, Some JNull => true
  | Some (JBool x), Some (JBool y) => Bool.eqb x y
  | Some (JStr x), Some (JStr y) => String.eqb x y
  | Some (JNum x), Some (JNum y) => bool_decide (x = y)
  | _, _ => false
  end.

Record VerifyOptions := { o_issuer : string; o_audience : string; o_nonce : string; o_jwks_uri : string }.

(** [clockSkewS]. *)
Definition SKEW_S : Z := 60.

Definition find_kid (kid : jval) (ks : list json) : option json := snd <$> list_find (fun k => strict_eq (field "kid" k) kid = true) ks.

(** The key of the token: by its id, the only one, or by its id after a refresh. *)
Definition key_of (kid : jval) (uri : string) (clk : clock) (c : cache) : result json JwtError * cache :=
  match fetchJwks fetch uri false clk c with
  | (None, c) => (Err jwks_failed, c)
  | (Some ks, c) =>
      let single := match ks with [k] => Some k | _ => None end in
      match (match find_kid kid ks with Some k => Some k | None => single end) with
      | Some k => (Ok k, c)
      | None =>
          match fetchJwks fetch uri true (fun n => clk (n + 2)%nat) c with
          | (None, c) => (Err jwks_failed, c)
          | (Some ks, c) => (match find_kid kid ks with Some k => Ok k | None => Err kid_not_found end, c)
          end
      end
  end.

Definition num_plus (n : num) (z : Z) : num := match n with Fin q => Fin (QArith_base.Qplus q (QArith_base.inject_Z z)) | _ => n end.

(** A number that lies, moved by the skew, behind [now]. *)
Definition later_than (field_ : jval) (now : Z) : bool :=
  match field_ with Some (JNum n) => num_lt (int now) (num_plus n (- SKEW_S)) | _ => false end.

Definition claims_ok (opts : VerifyOptions) (now : Z) (p : json) : option JwtError :=
  let expired := match field "exp" p with Some (JNum e) => num_lt (num_plus e SKEW_S) (int now) | _ => true end in
  let auds := match field "aud" p with Some (JArr l) => Some <$> l | a => [a] end in
  if expired then Some jwt_expired
  else if later_than (field "nbf" p) now then Some not_yet_valid
  else if later_than (field "iat" p) now then Some iat_in_future
  else if negb (strict_eq (field "iss" p) (Some (JStr (o_issuer opts)))) then Some issuer_mismatch
  else if negb (existsb (fun a => strict_eq a (Some (JStr (o_audience opts)))) auds) then Some audience_mismatch
  else if negb (strict_eq (field "nonce" p) (Some (JStr (o_nonce opts)))) then Some nonce_mismatch
  else match field "sub" p with Some (JStr s) => if truthy s then None else Some sub_missing | _ => Some sub_missing end.

Definition verifyIdToken (token : string) (opts : VerifyOptions) (clk : clock) (c : cache) : result json JwtError * cache :=
  match split "." token with
  | [h64; p64; s64] =>
      match json_parse (b64uDec h64), json_parse (b64uDec p64) with
      | None, _ => (Err bad_header, c)
      | Some _, None => (Err bad_payload, c)
      | Some header, Some payload =>
          match field "alg" header with
          | Some (JStr alg) =>
              if negb (String.eqb alg "RS256" || String.eqb alg "ES256") then (Err unsupported_alg, c) else
              match key_of (field "kid" header) (o_jwks_uri opts) clk c with
              | (Err e, c) => (Err e, c)
              | (Ok k, c) =>
                  match verify alg k (b64uDec s64) (h64 +:+ "." +:+ p64) with
                  | None => (Err key_import, c)
                  | Some false => (Err bad_signature, c)
                  | Some true => (match claims_ok opts (seconds (clk 4%nat)) payload with Some e => Err e | None => Ok payload end, c)
                  end
              end
          | _ => (Err unsupported_alg, c)
          end
      end
  | _ => (Err malformed, c)
  end.
End IdToken.
End Cookies.

(** * The handlers *)

Section SignIn.
Context (b64u : list Z -> string) (b64uDec : string -> list Z) (hmac : string -> string -> list Z) (sha256 : string -> string).
Context (session_text : SsoSession -> list Z) (session_parse : list Z -> option SsoSession).
Context (tx_text : SsoTx -> list Z) (tx_parse : list Z -> option SsoTx).
Context (decodeURIComponent : string -> option string) (String_of : json -> string).
Context (json_parse : list Z -> option json) (verify : string -> json -> list Z -> string -> option bool).
Context (fetch : string -> option json).
(** The token endpoint, with the form that is posted to it; [None]: no answer,
    or not an ok one. And the PKCE challenge of a verifier. *)
Context (exchange : string -> list (string * string) -> option json) (challenge : string -> string).

Record world := World { policy_file : file SsoPolicy; discovery : cache; jwks : cache; registry : Sessions.Store }.

Definition text_field (k : string) (j : json) : string := match field k j with Some (JStr s) => s | _ => "" end.

(** Only paths of the same origin. *)
Definition sameOriginReturn (raw : option string) : string :=
  match raw with
  | Some r => if negb (truthy r) then "/settings/sso" else if negb (starts_with "/" r) then "/settings/sso"
              else if starts_with "//" r then "/settings/sso" else if str_len r >? 256 then "/settings/sso" else r
  | None => "/settings/sso"
  end.

Inductive SsoFailure :=
| idp_error | missing_params | cookie_throws | tx_invalid | state_mismatch | sso_disabled | discovery_failed | token_exchange_failed
| no_id_token | id_token_invalid (e : JwtError) | no_email | email_unverified | domain_denied.

Definition redirect_of (p : SsoPolicy) (origin : string) : string :=
  match redirect_uri p with Some u => if truthy u then u else origin +:+ "/api/auth/sso/callback" | None => origin +:+ "/api/auth/sso/callback" end.

(** The endpoint to go to, its query, and the transaction cookie. *)
Record Authorize := { endpoint : string; query : list (string * string); tx_cookie : string }.

Record LoginRandom := { r_verifier : string; r_state : string; r_nonce : string }.

Definition login (key origin : string) (ret : option string) (rnd : LoginRandom) (clk : clock) (w : world) : result Authorize SsoFailure * world :=
  let p := getSsoPolicy (policy_file w) in
  if negb (enabled p) then (Err sso_disabled, w) else
  match fetchDiscovery fetch (issuer p) false clk (discovery w) with
  | (None, c) => (Err discovery_failed, World (policy_file w) c (jwks w) (registry w))
  | (Some doc, c) =>
      (Ok {| endpoint := text_field "authorization_endpoint" doc;
             query := [("response_type", "code"); ("client_id", client_id p); ("redirect_uri", redirect_of p origin);
                       ("scope", "openid email profile"); ("state", r_state rnd); ("nonce", r_nonce rnd);
                       ("code_challenge", challenge (r_verifier rnd)); ("code_challenge_method", "S256")];
             tx_cookie := mintTxCookie b64u hmac tx_text key (r_state rnd) (r_nonce rnd) (r_verifier rnd) (sameOriginReturn ret)
                            (fun n => clk (n + 2)%nat) |},
       World (policy_file w) c (jwks w) (registry w))
  end.

Record CallbackQuery := { q_code : option string; q_state : option string; q_error : option string }.

Definition text_or_empty (s : option string) : string := default "" s.

(** The address the registry is told. *)
Definition caller_ip (headers : gmap string string) : string :=
  let fwd := trim (hd "" (split "," (default "" (headers !! "x-forwarded-for")))) in
  if truthy fwd then fwd else default "" (headers !! "x-real-ip").

(** Where to, the session cookie, and its payload. *)
Record SignedIn := { dest : string; cookie : string; session : SsoSession }.

Definition domain_allowed (p : SsoPolicy) (address : string) : bool :=
  if negb (0 <? len (allowed_domains p)) then true
  else let dom := match str_last_index "@"%char address with Some n => to_lower (str_drop (S n) address) | None => "" end in
       bool_decide (dom ∈ allowed_domains p).

(** From the claims on. *)
Definition admit_claims (key random origin : string) (headers : gmap string string) (tx : SsoTx) (p : SsoPolicy) (claims : json) (clk : clock) (w : world)
  : result SignedIn SsoFailure * world :=
  let address := to_lower (js_text String_of (field "email" claims)) in
  if negb (truthy address) then (Err no_email, w)
  else if match field "email_verified" claims with Some (JBool false) => true | _ => false end then (Err email_unverified, w)
  else if negb (domain_allowed p address) then (Err domain_denied, w)
  else
    let s := {| in_sub := text_field "sub" claims; in_email := address; in_iss := issuer p; in_jti := None |} in
    let '(c, payload) := mintSession b64u hmac session_text key random s clk in
    let '(_, reg) := registerSession sha256
      {| Sessions.in_jti := default "" (jti payload); Sessions.in_sub := in_sub s; Sessions.in_email := address; Sessions.in_iss := issuer p;
         in_iat := iat payload; in_exp := exp payload; in_ip := Some (caller_ip headers);
         in_user_agent := Some (default "" (headers !! "user-agent")) |} (seconds (clk 1%nat)) (registry w) in
    (Ok {| dest := if starts_with "/" (return_to tx) then origin +:+ return_to tx else origin +:+ "/settings/sso";
           cookie := c; session := payload |},
     World (policy_file w) (discovery w) (jwks w) reg).

(** The form posted to the token endpoint. *)
Definition token_form (code origin : string) (p : SsoPolicy) (tx : SsoTx) : list (string * string) :=
  [("grant_type", "authorization_code"); ("code", code); ("redirect_uri", redirect_of p origin);
   ("client_id", client_id p); ("client_secret", client_secret p); ("code_verifier", tx_verifier tx)].

Definition callback (key random origin : string) (headers : gmap string string) (q : CallbackQuery) (clk : clock) (w : world)
  : result SignedIn SsoFailure * world :=
  if truthy (text_or_empty (q_error q)) then (Err idp_error, w)
  else if negb (truthy (text_or_empty (q_code q))) || negb (truthy (text_or_empty (q_state q))) then (Err missing_params, w)
  else match readCookie decodeURIComponent headers "sc_sso_tx" with
  | Err _ => (Err cookie_throws, w)
  | Ok token =>
  match verifyTxCookie b64uDec hmac tx_parse key token clk with
  | None => (Err tx_invalid, w)
  | Some tx =>
  if negb (bool_decide (Some (tx_state tx) = q_state q)) then (Err state_mismatch, w) else
  let p := getSsoPolicy (policy_file w) in
  if negb (enabled p) || negb (truthy (client_id p)) || negb (truthy (client_secret p)) || negb (truthy (issuer p)) then (Err sso_disabled, w) else
  match fetchDiscovery fetch (issuer p) false (fun n => clk (n + 1)%nat) (discovery w) with
  | (None, c) => (Err discovery_failed, World (policy_file w) c (jwks w) (registry w))
  | (Some doc, c) =>
  let w := World (policy_file w) c (jwks w) (registry w) in
  match exchange (text_field "token_endpoint" doc) (token_form (text_or_empty (q_code q)) origin p tx) with
  | None => (Err token_exchange_failed, w)
  | Some answer =>
  let idToken := text_field "id_token" answer in
  if negb (truthy idToken) then (Err no_id_token, w) else
  let '(r, ks) := verifyIdToken b64uDec json_parse verify fetch idToken
     {| o_issuer := issuer p; o_audience := client_id p; o_nonce := tx_nonce tx; o_jwks_uri := text_field "jwks_uri" doc |}
     (fun n => clk (n + 3)%nat) (jwks w) in
  let w := World (policy_file w) (discovery w) ks (registry w) in
  match r with
  | Err e => (Err (id_token_invalid e), w)
  | Ok claims => admit_claims key random origin headers tx p claims (fun n => clk (n + 8)%nat) w
  end end end end end.

(** The cookie, revoked or not, names the session to end. The last cookie of
    the name counts; [Err]: decoding a value throws. *)
Fixpoint logout_sessions (key : string) (timeouts : Timeout.SessionTimeoutPolicy) (clk : clock) (st : Sessions.Store) (parts : list string)
  (found : option SsoSession) : result (option SsoSession) unit :=
  match parts with
  | [] => Ok found
  | part :: r =>
      match str_index "="%char part with
      | Some n =>
          if String.eqb (str_take n part) "sc_sso" then
            match decodeURIComponent (str_drop (S n) part) with
            | None => Err tt
            | Some tok =>
                let '(s, _) := verifySessionCookie b64uDec hmac session_parse sha256 timeouts key (Some tok) true None clk st in
                logout_sessions key timeouts clk st r (match s with Some s => Some s | None => found end)
            end
          else logout_sessions key timeouts clk st r found
      | None => logout_sessions key timeouts clk st r found
      end
  end.

Definition logout (key : string) (timeouts : Timeout.SessionTimeoutPolicy) (headers : gmap string string) (clk : clock) (w : world) : world :=
  match logout_sessions key timeouts clk (registry w) (cookie_parts (default "" (headers !! "cookie"))) None with
  | Ok (Some s) =>
      let j := default "" (jti s) in
      if truthy j then
        World (policy_file w) (discovery w) (jwks w)
          (snd (revokeBySession j {| r_actor := or_else (email s) "self"; r_reason := Some "user-logout" |} (seconds (clk 1%nat)) (registry w)))
      else w
  | _ => w
  end.
End SignIn.

(** ** The key is stable *)

(** Every later call gives the key of the first one, in the same process or
    after a restart with the same environment. *)
Lemma signing_key_stable env fresh fresh' st :
  32 <= str_len fresh ->
  let '(k, st') := getSigningKey env fresh st in
  fst (getSigningKey env fresh' st') = k /\
  (cachedKey st = None -> fst (getSigningKey env fresh' {| cachedKey := None; stored := stored st' |}) = k).
Proof.
  intros Hl. unfold getSigningKey. destruct (cachedKey st) as [k|] eqn:E; [by rewrite E|].
  destruct (long_enough env) as [k|] eqn:E1; cbn [cachedKey stored fst]; [done|].
  destruct (long_enough (stored st)) as [k|] eqn:E2; cbn [cachedKey stored fst]; [by rewrite E2|].
  split; [done|]. intros _. unfold long_enough. by rewrite (proj2 (Z.leb_le _ _) Hl).
Qed.

(** * What a cookie proves *)

Section Sealed.
Context (b64u : list Z -> string) (b64uDec : string -> list Z) (hmac : string -> string -> list Z).
Context (session_text : SsoSession -> list Z) (session_parse : list Z -> option SsoSession).
Context (tx_text : SsoTx -> list Z) (tx_parse : list Z -> option SsoTx).
(** base64url can be decoded and uses no dot; texts can be read back. *)
Context (b64_inv : forall b, b64uDec (b64u b) = b) (b64_plain : forall b, no_char "."%char (b64u b) = true).
Context (session_inv : forall s, session_parse (session_text s) = Some s).

Lemma split_sealed body sig : no_char "."%char body = true -> no_char "."%char sig = true -> split "." (body +:+ "." +:+ sig) = [body; sig].
Proof.
  intros Hb Hs. apply (split_join "."%char [body; sig]); [done|]. by repeat constructor.
Qed.

Lemma opened_sealed label key b : opened b64uDec hmac label key (Some (sealed b64u hmac label key (b64u b))) = Some (b64u b).
Proof using b64_inv b64_plain.
  unfold opened, sealed. rewrite split_sealed by done. rewrite b64_inv, bool_decide_true by done.
  destruct (truthy _) eqn:E; [done|]. apply truthy_false in E. apply (f_equal String.length) in E. rewrite !str_length_app in E. simpl in E. lia.
Qed.

(** Nothing but the signature of this very body opens a token. *)
Lemma opened_inv label key token body : opened b64uDec hmac label key token = Some body ->
  exists t sig, token = Some t /\ split "." t = [body; sig] /\ b64uDec sig = hmac key (label +:+ body).
Proof.
  unfold opened. destruct token as [t|]; [|done]. destruct (negb (truthy t)); [done|].
  destruct (split "." t) as [|b [|s [|]]] eqn:E; try done. case_bool_decide as H; [|done]. intros [= <-]. by exists t, s.
Qed.

(** A session cookie is worth its payload until twelve hours after it was
    minted, to the second, and nothing from then on; and whoever presents
    another body under the signature of that cookie is refused, if the MAC has
    no collisions under the key. *)
Theorem session_cookie_exact sha256 timeouts key random s clk clk' st :
  (forall a b, hmac key a = hmac key b -> a = b) ->
  let '(c, p) := mintSession b64u hmac session_text key random s clk in
  let check token := fst (verifySessionCookie b64uDec hmac session_parse sha256 timeouts key (Some token) true None clk' st) in
  exp p = seconds (clk 0%nat) + SESSION_TTL_S /\
  check c = (if seconds (clk' 0%nat) <? exp p then Some p else None) /\
  forall body, no_char "."%char body = true -> body <> b64u (session_text p) ->
    check (body +:+ "." +:+ b64u (hmac key (b64u (session_text p)))) = None.
Proof using b64_inv b64_plain session_inv.
  intros Hcoll. destruct (mintSession _ _ _ _ _ _ _) as [c p] eqn:E. unfold mintSession in E. injection E as <- <-.
  set (p := new_payload _ _ _). cbv zeta. split_and!; [done| |].
  - unfold verifySessionCookie. rewrite opened_sealed, b64_inv, session_inv. change (v p =? 1) with true. cbn [negb].
    rewrite Z.leb_antisym. by destruct (_ <? exp p).
  - intros body Hb Hne. unfold verifySessionCookie. destruct (opened _ _ _ _ _) as [b|] eqn:Ho; [|done].
    apply opened_inv in Ho as (t & sig & [= <-] & Hs & Hm). rewrite split_sealed in Hs by done. injection Hs as <- <-.
    rewrite b64_inv in Hm. by apply Hcoll in Hm.
Qed.
End Sealed.

(** * What a sign-in proves *)

Lemma strict_eq_str a s : strict_eq a (Some (JStr s)) = true -> a = Some (JStr s).
Proof. destruct a as [[]|]; try done. simpl. by intros ->%String.eqb_eq. Qed.

(** The claims hold what the options ask for. *)
Definition claims_match (opts : VerifyOptions) (p : json) : Prop :=
  field "iss" p = Some (JStr (o_issuer opts)) /\ field "nonce" p = Some (JStr (o_nonce opts)) /\
  (field "aud" p = Some (JStr (o_audience opts)) \/ exists l, field "aud" p = Some (JArr l) /\ JStr (o_audience opts) ∈ l) /\
  exists s, field "sub" p = Some (JStr s) /\ s <> "".

(** The number is not, by more than a minute, in the past. *)
Definition not_past (v : jval) (now : Z) : Prop := exists e, v = Some (JNum e) /\ num_lt (num_plus e 60) (int now) = false.

Lemma claims_ok_spec opts now p : claims_ok opts now p = None -> claims_match opts p /\ not_past (field "exp" p) now.
Proof.
  unfold claims_ok, claims_match, not_past. cbv zeta. intros H.
  destruct (match field "exp" p with Some (JNum e) => _ | _ => true end) eqn:Ee; [done|].
  destruct (later_than _ _); [done|]. destruct (later_than _ _); [done|].
  destruct (strict_eq (field "iss" p) _) eqn:Ei; [|done]. cbn [negb] in H. destruct (existsb _ _) eqn:Ea; [|done]. cbn [negb] in H.
  destruct (strict_eq (field "nonce" p) _) eqn:En; [|done]. cbn [negb] in H. apply strict_eq_str in Ei, En.
  split_and!; try done.
  - apply existsb_exists in Ea as (a & Ha & Hs). apply strict_eq_str in Hs as ->. apply list_elem_of_In in Ha.
    destruct (field "aud" p) as [[]|]; try (apply list_elem_of_singleton in Ha; by left).
    apply list_elem_of_fmap in Ha as (x & [= <-] & Hx). right. by exists l.
  - destruct (field "sub" p) as [[]|]; try done. destruct (truthy s) eqn:Es; [|done]. exists s. split; [done|]. by apply truthy_spec.
  - destruct (field "exp" p) as [[]|]; try done. by exists n.
Qed.

Lemma find_kid_elem kid ks k : find_kid kid ks = Some k -> k ∈ ks.
Proof. unfold find_kid. destruct (list_find _ ks) as [[i x]|] eqn:E; [|done]. intros [= <-]. by apply list_find_elem in E as [Hx _]. Qed.

(** The key is one of a set that was served at the address. *)
Lemma key_of_ok fetch served (Hserved : forall url j, fetch url = Some j -> served url j) kid uri clk c :
  keys_ok served c ->
  let '(r, c') := key_of fetch kid uri clk c in
  keys_ok served c' /\ forall k, r = Ok k -> exists doc ks, served uri doc /\ keys_of doc = Some ks /\ k ∈ ks.
Proof.
  intros Hc. unfold key_of. pose proof (fetchJwks_ok fetch served Hserved uri false clk c Hc) as H1.
  destruct (fetchJwks _ _ _ _ _) as [[ks|] c1]; [|by destruct H1]. destruct H1 as [Hc1 Hk]. cbv zeta.
  destruct (match find_kid kid ks with Some _ => _ | None => _ end) as [k|] eqn:Ek.
  - split; [done|]. intros ? [= <-]. destruct (Hk _ eq_refl) as (doc & Hs & Hd). exists doc, ks. split_and!; [done|done|].
    destruct (find_kid kid ks) as [k'|] eqn:Ef; [injection Ek as <-; by eapply find_kid_elem|]. destruct ks as [|x [|]]; try done. injection Ek as <-. by left.
  - pose proof (fetchJwks_ok fetch served Hserved uri true (fun n => clk (n + 2)%nat) c1 Hc1) as H2.
    destruct (fetchJwks _ _ _ _ _) as [[ks2|] c2]; [|by destruct H2]. destruct H2 as [Hc2 Hk2]. split; [done|]. intros k Hr.
    destruct (Hk2 _ eq_refl) as (doc & Hs & Hd). exists doc, ks2. split_and!; [done|done|].
    destruct (find_kid kid ks2) as [k'|] eqn:Ef; [|done]. injection Hr as <-. by eapply find_kid_elem.
Qed.

(** The token carries these claims, signed as its header says under the key. *)
Definition signed_by (b64uDec : string -> list Z) (json_parse : list Z -> option json) (verify : string -> json -> list Z -> string -> option bool)
    (k : json) (token : string) (claims : json) : Prop :=
  exists h64 p64 s64 header alg, split "." token = [h64; p64; s64] /\ json_parse (b64uDec h64) = Some header /\ json_parse (b64uDec p64) = Some claims /\
    field "alg" header = Some (JStr alg) /\ alg ∈ ["RS256"; "ES256"] /\ verify alg k (b64uDec s64) (h64 +:+ "." +:+ p64) = Some true.

Lemma verifyIdToken_ok b64uDec json_parse verify fetch served (Hserved : forall url j, fetch url = Some j -> served url j) token opts clk c p c' :
  keys_ok served c ->
  verifyIdToken b64uDec json_parse verify fetch token opts clk c = (Ok p, c') ->
  keys_ok served c' /\
  (exists doc ks k, served (o_jwks_uri opts) doc /\ keys_of doc = Some ks /\ k ∈ ks /\ signed_by b64uDec json_parse verify k token p) /\
  claims_match opts p /\ not_past (field "exp" p) (seconds (clk 4%nat)).
Proof.
  intros Hc. unfold verifyIdToken. destruct (split "." token) as [|h64 [|p64 [|s64 [|]]]] eqn:Es; try done.
  destruct (json_parse (b64uDec h64)) as [hd|] eqn:Eh; [|done]. destruct (json_parse (b64uDec p64)) as [pl|] eqn:Ep; [|done].
  destruct (field "alg" hd) as [[]|] eqn:Ealg; try done. destruct (String.eqb s "RS256" || String.eqb s "ES256") eqn:Ea; [|done]. cbn [negb].
  pose proof (key_of_ok fetch served Hserved (field "kid" hd) (o_jwks_uri opts) clk c Hc) as Hk.
  destruct (key_of _ _ _ _ _) as [[k|e] c1]; [|done]. destruct (verify _ _ _ _) as [[]|] eqn:Ev; try done.
  destruct (claims_ok _ _ _) eqn:Ec; [done|]. intros [= <- <-]. apply claims_ok_spec in Ec as [H1 H2]. destruct Hk as [Hc' Hk].
  destruct (Hk _ eq_refl) as (doc & ks & Hd & Hks & Hin). split_and!; [done| |done|done]. exists doc, ks, k. split_and!; [done..|].
  exists h64, p64, s64, hd, s. split_and!; try done. apply orb_true_iff in Ea as [->%String.eqb_eq| ->%String.eqb_eq]; set_solver.
Qed.

Section Contract.
Context (b64u : list Z -> string) (b64uDec : string -> list Z) (hmac : string -> string -> list Z) (sha256 : string -> string).
Context (session_text : SsoSession -> list Z) (tx_parse : list Z -> option SsoTx).
Context (decodeURIComponent : string -> option string) (String_of : json -> string).
Context (json_parse : list Z -> option json) (verify : string -> json -> list Z -> string -> option bool).
Context (fetch : string -> option json) (exchange : string -> list (string * string) -> option json).

(** The row the registry gets. *)
Definition row_of (p : SsoSession) (headers : gmap string string) : RegisterInput :=
  {| Sessions.in_jti := default "" (jti p); Sessions.in_sub := sub p; Sessions.in_email := email p; Sessions.in_iss := iss p;
     in_iat := iat p; in_exp := exp p; in_ip := Some (caller_ip headers); in_user_agent := Some (default "" (headers !! "user-agent")) |}.

Lemma admit_claims_ok key random origin headers tx p claims clk w s w' :
  admit_claims b64u hmac sha256 session_text String_of key random origin headers tx p claims clk w = (Ok s, w') ->
  domain_allowed p (email (session s)) = true /\ email (session s) = to_lower (js_text String_of (field "email" claims)) /\
  field "email_verified" claims <> Some (JBool false) /\ iss (session s) = issuer p /\ sub (session s) = text_field "sub" claims /\
  (cookie s, session s) = mintSession b64u hmac session_text key random
     {| in_sub := text_field "sub" claims; in_email := email (session s); in_iss := issuer p; in_jti := None |} clk /\
  registry w' = run sha256 (Register (row_of (session s) headers) (seconds (clk 1%nat))) (registry w) /\
  policy_file w' = policy_file w /\ discovery w' = discovery w /\ jwks w' = jwks w.
Proof.
  unfold admit_claims. cbv zeta. destruct (negb (truthy _)); [done|].
  destruct (match field "email_verified" claims with Some _ => _ | None => _ end) eqn:Ev; [done|].
  destruct (domain_allowed _ _) eqn:Ed; [|done]. cbn [negb]. unfold mintSession, registerSession. cbv zeta.
  intros [= <- <-]. cbn. split_and!; try done. intros E. by rewrite E in Ev.
Qed.

Lemma callback_admits key random origin headers q clk w s w' :
  callback b64u b64uDec hmac sha256 session_text tx_parse decodeURIComponent String_of json_parse verify fetch exchange
    key random origin headers q clk w = (Ok s, w') ->
  let p := getSsoPolicy (policy_file w) in
  exists tx tx_token answer claims doc w1,
    readCookie decodeURIComponent headers "sc_sso_tx" = Ok tx_token /\
    verifyTxCookie b64uDec hmac tx_parse key tx_token clk = Some tx /\ q_state q = Some (tx_state tx) /\ enabled p = true /\
    fetchDiscovery fetch (issuer p) false (fun n => clk (n + 1)%nat) (discovery w) = (Some doc, discovery w1) /\
    exchange (text_field "token_endpoint" doc) (token_form (text_or_empty (q_code q)) origin p tx) = Some answer /\
    verifyIdToken b64uDec json_parse verify fetch (text_field "id_token" answer)
      {| o_issuer := issuer p; o_audience := client_id p; o_nonce := tx_nonce tx; o_jwks_uri := text_field "jwks_uri" doc |}
      (fun n => clk (n + 3)%nat) (jwks w) = (Ok claims, jwks w1) /\
    registry w1 = registry w /\ policy_file w1 = policy_file w /\
    admit_claims b64u hmac sha256 session_text String_of key random origin headers tx p claims (fun n => clk (n + 8)%nat) w1 = (Ok s, w').
Proof.
  intros Hcb. cbv zeta. set (p := getSsoPolicy _). unfold callback in Hcb. fold p in Hcb.
  destruct (truthy (text_or_empty (q_error q))); [done|]. destruct (_ || _) eqn:E0 in Hcb; [done|].
  destruct (readCookie _ _ _) as [tok|] eqn:Er; [|done]. destruct (verifyTxCookie _ _ _ _ _ _) as [tx|] eqn:Et; [|done].
  case_bool_decide as Hst; [|done]. cbn [negb] in Hcb.
  destruct (negb (enabled p) || _ || _ || _) eqn:Ep; [done|]. apply orb_false_elim in Ep as [[[Ep%negb_false_iff _]%orb_false_elim _]%orb_false_elim _].
  destruct (fetchDiscovery _ _ _ _ _) as [[doc|] c] eqn:Ed; [|done]. cbv zeta in Hcb. destruct (exchange _ _) as [answer|] eqn:Ex; [|done].
  destruct (negb (truthy (text_field _ _))); [done|]. destruct (verifyIdToken _ _ _ _ _ _ _ _) as [r ks] eqn:Ev.
  destruct r as [claims|err]; [|done]. exists tx, tok, answer, claims, doc, (World (policy_file w) c ks (registry w)).
  split_and!; [done|done|done|done|done|done|exact Ev|done|done|exact Hcb].
Qed.

(** The domain of an address: what follows its last at sign. *)
Lemma str_last_index_split c s : match str_last_index c s with
  | Some n => exists a, s = a +:+ String c (str_drop (S n) s) /\ no_char c (str_drop (S n) s) = true
  | None => no_char c s = true
  end.
Proof.
  induction s as [|d s IH]; [done|]. cbn [str_last_index]. destruct (str_last_index c s) as [n|].
  - destruct IH as (a & Ha & Hn). exists (String d a). split; [|exact Hn]. change (str_drop (S (S n)) (String d s)) with (str_drop (S n) s).
    exact (f_equal (String d) Ha).
  - destruct (Ascii.eqb c d) eqn:E.
    + apply Ascii.eqb_eq in E as ->. by exists "".
    + unfold no_char in *. cbn. by rewrite E.
Qed.

(** The list of domains is empty, or has, in lower case, what follows the last
    at sign of the address. *)
Definition in_domains (p : SsoPolicy) (address : string) : Prop :=
  allowed_domains p = [] \/
  exists local dom, no_char "@"%char dom = true /\ to_lower dom ∈ allowed_domains p /\ (address = local +:+ "@" +:+ dom \/ dom = "" /\ no_char "@"%char address = true).

Lemma domain_allowed_spec p address : domain_allowed p address = true -> in_domains p address.
Proof.
  unfold domain_allowed, in_domains. intros H. destruct (allowed_domains p) as [|d l] eqn:El; [by left|]. right. rewrite <- El in *.
  assert (0 <? len (allowed_domains p) = true) as Hl by (rewrite El; unfold len; rewrite length_cons; apply Z.ltb_lt; lia).
  rewrite Hl in H. cbv zeta in H. apply bool_decide_eq_true in H.
  pose proof (str_last_index_split "@"%char address) as Hs. destruct (str_last_index _ _) as [n|].
  - destruct Hs as (a & Ha & Hn). exists a, (str_drop (S n) address). split_and!; [done|done|left; exact Ha].
  - exists "", "". by split_and!; [done|done|right].
Qed.

(** The cookie of a sign-in attempt is worth its payload for ten minutes. *)
Lemma verifyTxCookie_ok key token clk tx : verifyTxCookie b64uDec hmac tx_parse key token clk = Some tx ->
  exists t body sig, token = Some t /\ split "." t = [body; sig] /\ b64uDec sig = hmac key ("tx:" +:+ body) /\
    tx_parse (b64uDec body) = Some tx /\ tx_v tx = 1 /\ seconds (clk 0%nat) <= tx_iat tx + 600.
Proof.
  unfold verifyTxCookie. destruct (opened _ _ _ _ _) as [body|] eqn:Eo; [|done]. destruct (tx_parse _) as [t|] eqn:Et; [|done].
  destruct (tx_v t =? 1) eqn:Ev; [|done]. cbn [negb]. destruct (_ >? _) eqn:El; [done|]. intros [= ->].
  apply opened_inv in Eo as (x & sig & -> & Hs & Hm). exists x, body, sig. unfold TX_TTL_S in El. split_and!; try done; lia.
Qed.

Definition caches_ok (served : string -> json -> Prop) (w : world) : Prop := configurations_ok served (discovery w) /\ keys_ok served (jwks w).

Lemma login_caches_ok challenge tx_text served key origin ret rnd clk w : (forall url j, fetch url = Some j -> served url j) -> caches_ok served w ->
  caches_ok served (snd (login b64u hmac tx_text fetch challenge key origin ret rnd clk w)).
Proof.
  intros Hs [Hd Hk]. unfold login. cbv zeta. destruct (negb _); [done|].
  pose proof (fetchDiscovery_ok fetch served Hs (issuer (getSsoPolicy (policy_file w))) false clk _ Hd) as H.
  destruct (fetchDiscovery _ _ _ _ _) as [[doc|] c]; [by destruct H as (_ & _ & H)|by subst c].
Qed.

(** C7. A sign-in succeeds only for the browser that started it and for a user the
    provider names. The browser presents a cookie sealed with the server's key
    for a sign-in attempt, stamped at most ten minutes before, whose state is the
    one in the URL. The ID token is what the token endpoint of the provider gave
    for the code; its signature is right, with RS256 or ES256, under one of the
    keys that were served at the address the provider's own configuration names,
    a configuration served at the provider's well-known address; it was made by
    the configured issuer, for this client and this attempt, names a subject, and
    has not expired by more than a minute. The address it names lies in the
    allowed domains and is not marked unverified. The session that is minted,
    sealed in the cookie and registered, names that subject and address and lasts
    twelve hours. *)
Theorem signin_contract served key random origin headers q clk w s w' :
  callback b64u b64uDec hmac sha256 session_text tx_parse decodeURIComponent String_of json_parse verify fetch exchange
    key random origin headers q clk w = (Ok s, w') ->
  (forall url j, fetch url = Some j -> served url j) -> caches_ok served w ->
  let p := getSsoPolicy (policy_file w) in
  (exists tx t body sig,
    readCookie decodeURIComponent headers "sc_sso_tx" = Ok (Some t) /\ split "." t = [body; sig] /\
    b64uDec sig = hmac key ("tx:" +:+ body) /\ tx_parse (b64uDec body) = Some tx /\ tx_v tx = 1 /\
    seconds (clk 0%nat) <= tx_iat tx + 600 /\ q_state q = Some (tx_state tx) /\
    exists doc keys ks k answer claims,
      served (configuration_url (issuer p)) doc /\ discovery_ok (issuer p) doc /\
      served (text_field "jwks_uri" doc) keys /\ keys_of keys = Some ks /\ k ∈ ks /\
      exchange (text_field "token_endpoint" doc) (token_form (text_or_empty (q_code q)) origin p tx) = Some answer /\
      signed_by b64uDec json_parse verify k (text_field "id_token" answer) claims /\
      claims_match {| o_issuer := issuer p; o_audience := client_id p; o_nonce := tx_nonce tx; o_jwks_uri := text_field "jwks_uri" doc |} claims /\
      not_past (field "exp" claims) (seconds (clk 7%nat)) /\
      sub (session s) = text_field "sub" claims /\ email (session s) = to_lower (js_text String_of (field "email" claims)) /\
      field "email_verified" claims <> Some (JBool false)) /\
  enabled p = true /\ in_domains p (email (session s)) /\ iss (session s) = issuer p /\
  exp (session s) = seconds (clk 8%nat) + 43200 /\
  cookie s = sealed b64u hmac "" key (b64u (session_text (session s))) /\
  registry w' = run sha256 (Register (row_of (session s) headers) (seconds (clk 9%nat))) (registry w) /\
  policy_file w' = policy_file w /\ caches_ok served w'.
Proof.
  intros Hcb Hserved [Hcd Hck]. cbv zeta. apply callback_admits in Hcb as (tx & tok & answer & claims & doc & w1 & C1 & C2 & C3 & C4 & Hdisc & Hx & Hv & C5 & C6 & Hadm).
  set (p := getSsoPolicy _) in *. apply verifyTxCookie_ok in C2 as (t & body & sig & -> & T1 & T2 & T3 & T4 & T5).
  pose proof (fetchDiscovery_ok fetch served Hserved (issuer p) false (fun n => clk (n + 1)%nat) (discovery w) Hcd) as Hd. rewrite Hdisc in Hd. destruct Hd as (D1 & D2 & D3).
  apply (verifyIdToken_ok _ _ _ _ _ Hserved) in Hv as (Hck' & (keys & ks & k & K1 & K2 & K3 & K4) & H4 & H5); [|done].
  apply admit_claims_ok in Hadm as (A1 & A2 & A3 & A4 & A5 & A6 & A7 & A8 & A9 & A10). unfold mintSession in A6. injection A6 as Hc Hs.
  split_and!; try done; [|by apply domain_allowed_spec|..].
  - exists tx, t, body, sig. split_and!; try done. exists doc, keys, ks, k, answer, claims. split_and!; done.
  - by rewrite Hs.
  - by rewrite Hc, <- Hs.
  - by rewrite A7, C5.
  - by rewrite A8.
  - split; [by rewrite A9|by rewrite A10].
Qed.
End Contract.

(** * Witnesses

    A codec that satisfies the laws: payloads and byte strings are numbered,
    and numbers written in binary. *)

#[export] Instance SsoSession_eq_dec : EqDecision SsoSession.
Proof. solve_decision. Defined.

#[export] Program Instance SsoSession_countable : Countable SsoSession :=
  inj_countable' (fun s => (v s, sub s, email s, iss s, iat s, exp s, jti s))
    (fun '(a, b, c, d, e, f, g) => {| v := a; sub := b; email := c; iss := d; iat := e; exp := f; jti := g |}) _.
Next Obligation. by intros []. Qed.

Section Demo.
Fixpoint bits (p : positive) : string :=
  match p with xH => "e" | xO p => String "o"%char (bits p) | xI p => String "i"%char (bits p) end.
Fixpoint unbits (s : string) : positive :=
  match s with "" => xH | String c r => if Ascii.eqb c "e"%char then xH else if Ascii.eqb c "o"%char then xO (unbits r) else xI (unbits r) end.

Definition demo_b64u (b : list Z) : string := bits (countable.encode b).
Definition demo_b64uDec (s : string) : list Z := default [] (countable.decode (unbits s)).
Definition demo_hmac (key s : string) : list Z := code <$> String.list_ascii_of_string s.
Definition demo_text (s : SsoSession) : list Z := [Zpos (countable.encode s)].
Definition demo_parse (b : list Z) : option SsoSession := match b with [Zpos p] => countable.decode p | _ => None end.

Lemma unbits_bits p : unbits (bits p) = p.
Proof. induction p as [p IH|p IH|]; simpl; by rewrite ?IH. Qed.

Lemma demo_b64_inv b : demo_b64uDec (demo_b64u b) = b.
Proof. unfold demo_b64uDec, demo_b64u. by rewrite unbits_bits, countable.decode_encode. Qed.

Lemma demo_b64_plain b : no_char "."%char (demo_b64u b) = true.
Proof. unfold demo_b64u. generalize (countable.encode b). by intros p; induction p. Qed.

Lemma demo_session_inv s : demo_parse (demo_text s) = Some s.
Proof. apply countable.decode_encode. Qed.

Lemma demo_hmac_inj key a b : demo_hmac key a = demo_hmac key b -> a = b.
Proof.
  revert b; induction a as [|c a IH]; intros [|d b]; try done. unfold demo_hmac. cbn. intros [= Hc Hr].
  apply code_inj in Hc as ->. f_equal. by apply IH.
Qed.

Definition demo_mint : MintInput := {| in_sub := "u"; in_email := "a@x.io"; in_iss := "https://i.io"; in_jti := None |}.
Definition demo_at (t : Z) : clock := fun _ => t.

(** The cookie, and another body under its signature. *)
Lemma session_cookie_exact_witness :
  let '(c, p) := mintSession demo_b64u demo_hmac demo_text "k" "r1" demo_mint (demo_at 5000) in
  let check token := fst (verifySessionCookie demo_b64uDec demo_hmac demo_parse id Timeout.defaultPolicy "k" (Some token) true None
                            (demo_at 43204999) empty_store) in
  check c = Some p /\ check ("forged" +:+ "." +:+ demo_b64u (demo_hmac "k" (demo_b64u (demo_text p)))) = None.
Proof.
  pose proof (session_cookie_exact demo_b64u demo_b64uDec demo_hmac demo_text demo_parse demo_b64_inv demo_b64_plain demo_session_inv
    id Timeout.defaultPolicy "k" "r1" demo_mint (demo_at 5000) (demo_at 43204999) empty_store (demo_hmac_inj "k")) as Hx.
  destruct (mintSession _ _ _ _ _ _ _) as [c p]. destruct Hx as (He & Hc & Hf). split.
  - rewrite Hc, He. reflexivity.
  - apply Hf; [reflexivity|]. unfold demo_b64u. intros E. destruct (countable.encode (demo_text p)); discriminate E.
Defined.

(** A short MAC, for cookies that are computed. *)
Definition demo_mac (key s : string) : list Z := [str_len s].

(** A sign-in: the browser that started it comes back with the code. *)
Definition demo_claims : json :=
  JObj [("iss", JStr "https://i.io"); ("aud", JArr [JStr "other"; JStr "app"]); ("exp", JNum (int 100)); ("nonce", JStr "n");
        ("sub", JStr "u"); ("email", JStr "A@X.io")].
Definition demo_token : string := demo_b64u [1] +:+ "." +:+ demo_b64u [2] +:+ "." +:+ demo_b64u [3].
Definition demo_json (b : list Z) : option json :=
  if bool_decide (b = [1]) then Some (JObj [("alg", JStr "RS256"); ("kid", JStr "k1")]) else Some demo_claims.
Definition demo_verify (alg : string) (k : json) (sig : list Z) (data : string) : option bool := Some (bool_decide (sig = [3])).
Definition demo_fetch (url : string) : option json :=
  if String.eqb url "https://i.io/keys" then Some (JObj [("keys", JArr [JObj [("kid", JStr "k1")]])])
  else Some (JObj [("issuer", JStr "https://i.io/"); ("authorization_endpoint", JStr "https://i.io/a");
                   ("token_endpoint", JStr "https://i.io/t"); ("jwks_uri", JStr "https://i.io/keys")]).
Definition demo_exchange (url : string) (form : list (string * string)) : option json := Some (JObj [("id_token", JStr demo_token)]).
Definition demo_tx : SsoTx :=
  {| tx_v := 1; tx_state := "st"; tx_nonce := "n"; tx_verifier := "pk"; return_to := "/settings/sso"; tx_iat := 1 |}.
Definition demo_tx_parse (b : list Z) : option SsoTx := Some demo_tx.
Definition demo_policy : SsoPolicy :=
  {| enabled := true; issuer := "https://i.io"; client_id := "app"; client_secret := "s"; allowed_domains := ["x.io"]; enforce := true;
     redirect_uri := None; updated_at := None; updated_by := None |}.
Definition demo_world : world := World (write_file demo_policy) ∅ ∅ empty_store.
Definition demo_query : CallbackQuery := {| q_code := Some "code"; q_state := Some "st"; q_error := None |}.
Definition demo_browser : gmap string string := {[ "cookie" := "theme=dark; sc_sso_tx=" +:+ sealed demo_b64u demo_mac "tx:" "k" (demo_b64u [7]) ]}.
Definition demo_callback : result SignedIn SsoFailure * world :=
  callback demo_b64u demo_b64uDec demo_mac id demo_text demo_tx_parse Some (fun _ => "") demo_json demo_verify demo_fetch demo_exchange
    "k" "r1" "https://app" demo_browser demo_query (demo_at 20000) demo_world.

Lemma signin_contract_witness :
  match demo_callback with
  | (Ok s, w') => email (session s) = "a@x.io" /\ in_domains demo_policy (email (session s)) /\ exp (session s) = 43220 /\
                  caches_ok (fun url j => demo_fetch url = Some j) w'
  | (Err _, _) => False
  end.
Proof.
  destruct demo_callback as [[s|e] w'] eqn:E; [|not_an_error E].
  assert (email (session s) = "a@x.io") as He.
  { apply (f_equal (fun r => match fst r with Ok s => email (session s) | Err _ => "" end)) in E. symmetry in E. simpl in E. rewrite E.
    vm_compute. reflexivity. }
  apply (signin_contract _ _ _ _ _ _ _ _ _ _ _ _ (fun url j => demo_fetch url = Some j)) in E as (_ & _ & Hd & _ & Hx & _ & _ & _ & Hcache);
    [|intros url j Hj; exact Hj|split; apply map_Forall_empty].
  split_and!; [exact He|exact Hd|exact Hx|exact Hcache].
Defined.
End Demo.
