(* ===== verification/AdminGate.v ===== *)
(** The gate of the management endpoints: [decideAdmin] of
    [web/lib/adminGuardCore.ts] and [requireAdmin] of [adminGuard.ts]. It
    composes the keys, the sign-in sessions and their policy, and the second
    factor. *)
From S2P Require Import Prelude JsNum JsDate IsoTime Json Store Interleave AuthLockout KeyStore.
From S2P Require Import Bits Base32 Totp MfaGate SsoPolicy Sessions Sso.

Inductive AdminMode := local | admin_key | sso.
Inductive DenyReason := admin_required | sso_required | sso_domain.

Definition reason_text (r : DenyReason) : string :=
  match r with
  | admin_required => "forbidden:admin-required" | sso_required => "forbidden:sso-required" | sso_domain => "forbidden:sso-domain"
  end.

Definition mode_text (m : AdminMode) : string := match m with local => "local-mode" | admin_key => "admin-key" | sso => "sso-session" end.

(** [enforce_sso] is reported with either answer. *)
Inductive AdminDecision :=
| Allowed (key : option StoredKey) (mode : AdminMode) (session : option SsoSession) (enforce_sso : bool)
| Denied (key : option StoredKey) (reason : DenyReason) (enforce_sso : bool).

Definition decided_key (d : AdminDecision) : option StoredKey := match d with Allowed k _ _ _ | Denied k _ _ => k end.

Definition emailDomain (address : string) : string :=
  match str_last_index "@"%char address with Some n => to_lower (str_drop (S n) address) | None => "" end.

Section Gate.
Context {L : Type} `{Lockout L}.
Context (sha256 : string -> string) (hmac_sha1 : list Z -> list Z -> list Z).
Context (b64uDec : string -> list Z) (hmac : string -> string -> list Z) (session_parse : list Z -> option SsoSession).
Context (decodeURIComponent : string -> option string).

Record world := World { keys_file : file keys; lockout : L; policy_file : file SsoPolicy; registry : Sessions.Store; second : MfaGate.world }.

(** What the gate is configured with, besides the stores. *)
Record settings := { adminEnv : option string; signing_key : string; timeouts : Timeout.SessionTimeoutPolicy }.

Definition production (cfg : settings) : bool := truthy (default "" (adminEnv cfg)).

(** [None]: decoding the cookie throws. The clock is read by the
    authentication, then by the check of the session. *)
Definition decideAdmin (cfg : settings) (headers : gmap string string) (clk : clock) (w : world) : option AdminDecision * world :=
  let '(k, kf, lk) := authenticate sha256 clk (adminEnv cfg) (extractKey headers) None (keys_file w) (lockout w) in
  let w := World kf lk (policy_file w) (registry w) (second w) in
  let p := getSsoPolicy (policy_file w) in
  match readCookie decodeURIComponent headers "sc_sso" with
  | Err _ => (None, w)
  | Ok tok =>
      let '(s, reg) :=
        match tok with
        | Some t => if truthy t then verifySessionCookie b64uDec hmac session_parse sha256 (timeouts cfg) (signing_key cfg) (Some t) false
                                       (Some (Some (caller_ip headers))) (fun n => clk (n + 3)%nat) (registry w)
                    else (None, registry w)
        | None => (None, registry w)
        end in
      let w := World (keys_file w) (lockout w) (policy_file w) reg (second w) in
      let d :=
        match (if enabled p then s else None) with
        | Some s =>
            if (0 <? len (allowed_domains p)) && negb (bool_decide (emailDomain (email s) ∈ allowed_domains p))
            then Denied k sso_domain (enforce p)
            else Allowed k sso (Some s) (enforce p)
        | None =>
            if negb (production cfg) then
              if enforce p && enabled p then Denied k sso_required true else Allowed k local None (enforce p)
            else
              match k with
              | Some key => if bool_decide (admin ∈ scopes key) then Allowed k admin_key None (enforce p) else Denied k admin_required (enforce p)
              | None => Denied k admin_required (enforce p)
              end
        end in
      (Some d, w)
  end.

(** [Ok]: the handler runs, with that key. [None]: it throws. *)
Definition requireAdmin (cfg : settings) (headers : gmap string string) (method : string) (clk : clock) (w : world)
  : option (result (option StoredKey) denial) * world :=
  let '(d, w) := decideAdmin cfg headers clk w in
  match d with
  | None => (None, w)
  | Some (Denied k r _) =>
      (Some (Err (403, "forbidden")),
       World (keys_file w) (lockout w) (policy_file w) (registry w) (note 403 (id <$> k) (reason_text r) (second w)))
  | Some (Allowed k m _ _) =>
      let trail := note 200 (id <$> k) (mode_text m) (second w) in
      if String.eqb method "GET" then (Some (Ok k), World (keys_file w) (lockout w) (policy_file w) (registry w) trail)
      else
        let '(denied, trail) := enforceAdminMfa hmac_sha1 sha256 (default "" (adminEnv cfg)) headers (id <$> k) (clk 5%nat) trail in
        (Some (match denied with Some d => Err d | None => Ok k end), World (keys_file w) (lockout w) (policy_file w) (registry w) trail)
  end.
End Gate.

(** * What lets a request through *)

Section Proofs.
Context {L : Type} `{Lockout L}.
Context (sha256 : string -> string) (hmac_sha1 : list Z -> list Z -> list Z).
Context (b64uDec : string -> list Z) (hmac : string -> string -> list Z) (session_parse : list Z -> option SsoSession).
Context (decodeURIComponent : string -> option string).

Abbreviation decide_ := (decideAdmin sha256 b64uDec hmac session_parse decodeURIComponent).
Abbreviation require_ := (requireAdmin sha256 hmac_sha1 b64uDec hmac session_parse decodeURIComponent).

(** The request presents the administrator key of the environment, or the
    secret of a stored key that is neither revoked, expired nor suspended. *)
Definition key_proven (cfg : settings) (headers : gmap string string) (clk : clock) (w : world (L := L)) (k : StoredKey) : Prop :=
  let secret := extractKey headers in
  secret <> "" /\
  ((adminEnv cfg = Some secret /\ k = env_admin sha256 secret (clk 1%nat)) \/
   exists n k0, list_find (fun k => hash k = sha256 secret /\ KeyStore.revoked k = false) (read_file (keys_file w)) = Some (n, k0) /\
     isExpired k0 (clk 1%nat) = false /\ suspended k0 = false /\ k = mark_used (clk 2%nat) k0).

(** It presents a cookie signed with our key, that has not expired and whose
    session the registry holds alive, of an address the policy admits. *)
Definition session_proven (cfg : settings) (headers : gmap string string) (clk : clock) (w : world (L := L)) (s : SsoSession) : Prop :=
  let p := getSsoPolicy (policy_file w) in
  enabled p = true /\ domain_allowed p (email s) = true /\
  exists t body, readCookie decodeURIComponent headers "sc_sso" = Ok (Some t) /\ opened b64uDec hmac "" (signing_key cfg) (Some t) = Some body /\
    session_parse (b64uDec body) = Some s /\ seconds (clk 3%nat) < exp s /\
    fst (checkSession sha256 (timeouts cfg) (default "" (jti s)) (iat s) (exp s) (Some (Some (caller_ip headers))) (seconds (clk 4%nat)) (registry w)) = None.

Lemma timingSafeEqual_eq a b : timingSafeEqual a b = true -> a = b.
Proof. unfold timingSafeEqual. intros [_ E%String.eqb_eq]%andb_true_iff. done. Qed.

Lemma authenticate_proven clk env secret f (l : L) k :
  fst (fst (authenticate sha256 clk env secret None f l)) = Some k ->
  secret <> "" /\
  ((env = Some secret /\ k = env_admin sha256 secret (clk 1%nat)) \/
   exists n k0, list_find (fun k => hash k = sha256 secret /\ KeyStore.revoked k = false) (read_file f) = Some (n, k0) /\
     isExpired k0 (clk 1%nat) = false /\ suspended k0 = false /\ k = mark_used (clk 2%nat) k0).
Proof.
  unfold authenticate, authenticateWithStatus. cbn [default truthy]. change (truthy "") with false. cbv iota zeta.
  destruct (truthy secret) eqn:Es; [|done]. cbn [negb]. apply truthy_spec in Es.
  destruct (match env with Some a => if truthy a && timingSafeEqual secret a then Some a else None | None => None end) as [a|] eqn:Ee.
  - intros [= <-]. destruct env as [a'|]; [|done]. destruct (truthy a' && _) eqn:E; [|done]. injection Ee as ->.
    apply andb_true_iff in E as [_ <-%timingSafeEqual_eq]. auto.
  - unfold on_file. destruct (lookup_tx sha256 clk secret (read_file f)) as [r x] eqn:El. intros Hk. split; [done|]. right.
    assert (r = AuthOk k) as ->. { destruct r as [k'|why|]; [by injection Hk as ->|destruct why; done|done]. }
    destruct (lookup_ok_inv sha256 clk secret (read_file f) k) as (n & k0 & H1 & H2 & H3 & H4 & _); [by rewrite El|]. by exists n, k0.
Qed.

Lemma verify_proven timeouts key t clk live st s st' :
  verifySessionCookie b64uDec hmac session_parse sha256 timeouts key (Some t) false live clk st = (Some s, st') ->
  exists body, opened b64uDec hmac "" key (Some t) = Some body /\ session_parse (b64uDec body) = Some s /\ seconds (clk 0%nat) < exp s /\
    fst (checkSession sha256 timeouts (default "" (jti s)) (iat s) (exp s) live (seconds (clk 1%nat)) st) = None.
Proof.
  unfold verifySessionCookie. destruct (opened _ _ _ _ _) as [body|]; [|done]. destruct (session_parse _) as [p|] eqn:Ep; [|done].
  destruct (negb _); [done|]. destruct (exp p <=? _) eqn:Ee; [done|]. destruct (checkSession _ _ _ _ _ _ _ _) as [[|] st1] eqn:Ec; [done|].
  intros [= -> <-]. exists body. split_and!; try done; [lia|by rewrite Ec].
Qed.

Lemma domain_allowed_emailDomain p address :
  domain_allowed p address = negb ((0 <? len (allowed_domains p)) && negb (bool_decide (emailDomain address ∈ allowed_domains p))).
Proof. unfold domain_allowed, emailDomain. destruct (0 <? _); cbn [negb andb]; [by rewrite negb_involutive|done]. Qed.

(** The decision of the gate in production. *)
Lemma decideAdmin_allows cfg headers clk w k m s e w' :
  production cfg = true -> decide_ cfg headers clk w = (Some (Allowed k m s e), w') ->
  (forall k', k = Some k' -> key_proven cfg headers clk w k') /\ second w' = second w /\
  ((exists k', k = Some k' /\ admin ∈ scopes k') \/ exists s', session_proven cfg headers clk w s').
Proof.
  intros Hprod. unfold decideAdmin. destruct (authenticate _ _ _ _ _ _ _) as [[ka kf] lk] eqn:Ea. cbv zeta.
  destruct (readCookie _ _ _) as [tok|] eqn:Er; [|done].
  assert (forall k', ka = Some k' -> key_proven cfg headers clk w k') as Hkey.
  { intros k' ->. unfold key_proven. apply (authenticate_proven clk (adminEnv cfg) (extractKey headers) (keys_file w) (lockout w)). by rewrite Ea. }
  cbn [keys_file lockout policy_file registry second]. set (p := getSsoPolicy (policy_file w)).
  destruct (match tok with Some _ => _ | None => _ end) as [so reg] eqn:Ev. intros E.
  rewrite Hprod in E. cbn [negb] in E.
  destruct (enabled p) eqn:Hen; [destruct so as [s'|]|].
  - destruct ((0 <? len (allowed_domains p)) && _) eqn:Ed; [done|]. injection E as -> <- <- <- <-. split; [exact Hkey|]. split; [done|]. right. exists s'.
    split; [done|]. split; [by rewrite domain_allowed_emailDomain; fold p; rewrite Ed|].
    destruct tok as [t|]; [|done]. destruct (truthy t); [|done]. apply verify_proven in Ev as (body & H1 & H2 & H3 & H4). by exists t, body.
  - destruct ka as [k'|]; [|done]. case_bool_decide as Ha; [|done]. injection E as <- <- <- <- <-. split; [exact Hkey|]. split; [done|]. left. by exists k'.
  - destruct ka as [k'|]; [|done]. case_bool_decide as Ha; [|done]. injection E as <- <- <- <- <-. split; [exact Hkey|]. split; [done|]. left. by exists k'.
Qed.

(** What the decision to let a request in was made of. *)
Lemma requireAdmin_admits cfg headers method clk w key w' :
  production cfg = true -> require_ cfg headers method clk w = (Some (Ok key), w') ->
  (forall k, key = Some k -> key_proven cfg headers clk w k) /\
  ((exists k, key = Some k /\ admin ∈ scopes k) \/ exists s, session_proven cfg headers clk w s).
Proof.
  intros Hprod. unfold requireAdmin. destruct (decide_ cfg headers clk w) as [d w1] eqn:Ed.
  destruct d as [[k m s e|k r e]|]; try done. apply decideAdmin_allows in Ed as (Hk & Hsec & Hwhy); [|done].
  destruct (String.eqb method "GET").
  - by intros [= <- <-].
  - destruct (enforceAdminMfa _ _ _ _ _ _ _) as [[?|] trail]; [done|]. by intros [= <- <-].
Qed.

(** A request that changes something passed the second factor with its key. *)
Lemma requireAdmin_second_factor cfg headers method clk w key w' :
  production cfg = true -> method <> "GET" -> require_ cfg headers method clk w = (Some (Ok key), w') ->
  exists k, key = Some k /\ key_proven cfg headers clk w k /\
    exists trail, totp trail = totp (second w) /\
      fst (enforceAdminMfa hmac_sha1 sha256 (default "" (adminEnv cfg)) headers (Some (id k)) (clk 5%nat) trail) = None.
Proof.
  intros Hprod Hm Hr. pose proof Hr as [Hk _]%requireAdmin_admits; [|done]. revert Hr. unfold requireAdmin.
  destruct (decide_ cfg headers clk w) as [d w1] eqn:Ed. destruct d as [[k m s e|k r e]|]; try done.
  apply decideAdmin_allows in Ed as (_ & Hsec & _); [|done]. rewrite (proj2 (String.eqb_neq _ _) Hm).
  destruct (enforceAdminMfa _ _ _ _ _ _ _) as [denied trail] eqn:Ef. intros E. destruct denied; [done|]. injection E as <- <-.
  destruct k as [k'|].
  - exists k'. split; [done|]. split; [by apply Hk|]. eexists. split; [|cbn [fmap option_fmap option_map] in Ef; by erewrite Ef].
    unfold note. cbn. by rewrite Hsec.
  - unfold enforceAdminMfa in Ef. unfold production in Hprod. by rewrite Hprod in Ef.
Qed.

(** C6. With an administrator key configured, a management request is let through
    only with proof: a key that administers, or a live session of an admitted
    address. And one that changes something always carries a valid key that
    passes the second factor: a session alone only reads. *)
Theorem management_request_authorised cfg headers method clk w key w' :
  production cfg = true -> require_ cfg headers method clk w = (Some (Ok key), w') ->
  ((exists k, key = Some k /\ key_proven cfg headers clk w k /\ admin ∈ scopes k) \/ exists s, session_proven cfg headers clk w s) /\
  (method <> "GET" ->
   exists k, key = Some k /\ key_proven cfg headers clk w k /\
     exists trail, totp trail = totp (second w) /\
       fst (enforceAdminMfa hmac_sha1 sha256 (default "" (adminEnv cfg)) headers (Some (id k)) (clk 5%nat) trail) = None).
Proof.
  intros Hprod Hr. destruct (requireAdmin_admits _ _ _ _ _ _ _ Hprod Hr) as [Hk Hwhy]. split; [|intros Hm; by eapply requireAdmin_second_factor].
  destruct Hwhy as [(k & -> & Ha)|Hs]; [left|by right]. exists k. auto.
Qed.
End Proofs.

(** * What a sign-in is good for *)

Section GateOpen.
Context {L : Type} `{Lockout L}.
Context (sha256 : string -> string) (hmac_sha1 : list Z -> list Z -> list Z).
Context (b64u : list Z -> string) (b64uDec : string -> list Z) (hmac : string -> string -> list Z).
Context (session_text : SsoSession -> list Z) (session_parse : list Z -> option SsoSession) (tx_parse : list Z -> option SsoTx).
Context (decodeURIComponent : string -> option string) (String_of : json -> string).
Context (json_parse : list Z -> option json) (verify : string -> json -> list Z -> string -> option bool).
Context (fetch : string -> option json) (exchange : string -> list (string * string) -> option json).
Context (b64_inv : forall b, b64uDec (b64u b) = b) (b64_plain : forall b, no_char "."%char (b64u b) = true).
Context (session_inv : forall s, session_parse (session_text s) = Some s).

(** The cookie of a sign-in, when the registry still holds its session. *)
Lemma minted_cookie_verifies timeouts key random s clk clk' live st c p :
  mintSession b64u hmac session_text key random s clk = (c, p) -> seconds (clk' 0%nat) < exp p ->
  fst (checkSession sha256 timeouts (default "" (jti p)) (iat p) (exp p) live (seconds (clk' 1%nat)) st) = None ->
  fst (verifySessionCookie b64uDec hmac session_parse sha256 timeouts key (Some c) false live clk' st) = Some p.
Proof using b64_inv b64_plain session_inv.
  unfold mintSession. intros [= <- <-]. set (p := new_payload _ _ _). intros Hexp Hc. unfold verifySessionCookie.
  rewrite opened_sealed, b64_inv, session_inv by done. change (v p =? 1) with true. cbn [negb].
  rewrite (proj2 (Z.leb_gt _ _)) by done. destruct (checkSession _ _ _ _ _ _ _ _) as [r st']. simpl in Hc. by subst r.
Qed.

Lemma sealed_truthy label key body : truthy (sealed b64u hmac label key body) = true.
Proof.
  apply truthy_spec. unfold sealed. intros E. apply (f_equal String.length) in E. rewrite !str_length_app in E. simpl in E. lia.
Qed.

Lemma times_out_enforced input timeouts j a b l n st : times_out sha256 input (Check_ timeouts j a b l n) st -> Timeout.enforce timeouts = true.
Proof.
  intros [_ [why Hw]]. unfold checkSession in Hw. destruct (negb (truthy j)); [done|]. destruct (b <=? n); [done|]. destruct (negb _ && _); [done|].
  destruct (list_find _ _) as [[i r]|]; [|done]. destruct (truthy_time _); [done|]. unfold Timeout.decideTimeout in Hw.
  destruct (Timeout.enforce timeouts); [done|]. cbn [negb] in Hw. destruct l; [|done]. by destruct (_ || _ || _).
Qed.

(** C30. Who has signed in can read the management pages until the session
    expires, to the second, as long as nobody ends the session. Take any history
    of the session registry in order of time, the sign-in past the second of the
    last sign-out of everybody, and the single sign-on policy on and admitting
    the address when the request is made, whatever it was in between. If in the
    meantime nobody revoked the session, its address or everybody, nor signed in
    under its id, no check found it timed out, and at most 5000 sessions, this
    one included, have been signed in from its second on (the registry forgets
    the oldest ones beyond that), then a request that reads is let through, or
    the timeout policy is enforced and this very request ran into one of its
    limits. Other sign-ins, checks and revocations do not matter. *)
Theorem signed_in_admitted cfg random origin headers q clk ws s ws' pre evs headers' clk' (w : world (L := L)) :
  let input := row_of (session s) headers in
  let n' := seconds (clk' 4%nat) in
  let check := Check_ (timeouts cfg) (Sessions.in_jti input) (in_iat input) (in_exp input) (Some (Some (caller_ip headers'))) n' in
  callback b64u b64uDec hmac sha256 session_text tx_parse decodeURIComponent String_of json_parse verify fetch exchange
    (signing_key cfg) random origin headers q clk ws = (Ok s, ws') ->
  Sso.registry ws = run_all sha256 pre empty_store -> registry w = run_all sha256 evs (Sso.registry ws') ->
  enabled (getSsoPolicy (policy_file w)) = true -> domain_allowed (getSsoPolicy (policy_file w)) (email (session s)) = true ->
  readCookie decodeURIComponent headers' "sc_sso" = Ok (Some (cookie s)) ->
  random <> "" -> global_epoch (Sso.registry ws) < iat (session s) ->
  chronological 1 (pre ++ Register input (seconds (clk 9%nat)) :: evs ++ [check]) ->
  seconds (clk' 3%nat) < exp (session s) -> n' < exp (session s) ->
  signed_in_since (iat (session s)) (pre ++ Register input (seconds (clk 9%nat)) :: evs) <= 5000 ->
  undisturbed sha256 input evs (Sso.registry ws') ->
  (exists key, fst (requireAdmin sha256 hmac_sha1 b64uDec hmac session_parse decodeURIComponent cfg headers' "GET" clk' w) = Some (Ok key)) \/
  Timeout.enforce (timeouts cfg) = true /\ times_out sha256 input check (registry w).
Proof using b64_inv b64_plain session_inv.
  intros input n' check Hcb Hreg0 Hreg Hen Hdom Hcookie Hrnd Hepoch Hchr Hc3 Hc4 Hcap Hun.
  apply callback_admits in Hcb as (tx & tok & answer & claims & doc & w1 & _ & _ & _ & _ & _ & _ & _ & C5 & C6 & Hadm).
  apply admit_claims_ok in Hadm as (_ & _ & _ & _ & _ & A6 & A7 & _ & _).
  assert (jti (session s) = Some random) as Hj by (unfold mintSession in A6; injection A6 as _ Hs; by rewrite Hs).
  assert (Sessions.in_jti input <> "") as Hj' by (cbn; by rewrite Hj).
  pose proof (live_session_accepted sha256 input (seconds (clk 9%nat)) (timeouts cfg) (Some (Some (caller_ip headers'))) n' pre evs) as HL.
  assert (run_all sha256 (pre ++ [Register input (seconds (clk 9%nat))]) empty_store = Sso.registry ws') as E1 by (rewrite A7, C5, Hreg0; apply run_all_app).
  assert (run_all sha256 (pre ++ Register input (seconds (clk 9%nat)) :: evs) empty_store = registry w) as E2.
  { rewrite Hreg, <- E1, <- run_all_app. by rewrite <- app_assoc. }
  cbv zeta in HL. rewrite E1, E2 in HL.
  destruct (HL Hchr Hj' Hc4 ltac:(by rewrite <- Hreg0) Hcap Hun) as [Hcheck|Ht]; [left|right; split; [by eapply times_out_enforced|exact Ht]].
  symmetry in A6. pose proof (minted_cookie_verifies (timeouts cfg) _ _ _ _ (fun n => clk' (n + 3)%nat) (Some (Some (caller_ip headers')))
    (registry w) _ _ A6 Hc3 Hcheck) as Hv.
  assert (truthy (cookie s) = true) as Htc by (unfold mintSession in A6; injection A6 as <- _; apply sealed_truthy).
  unfold requireAdmin, decideAdmin. destruct (authenticate _ _ _ _ _ _ _) as [[ka kf] lk]. cbv zeta. rewrite Hcookie, Htc.
  cbn [AdminGate.registry AdminGate.policy_file].
  destruct (verifySessionCookie _ _ _ _ _ _ _ _ _ _ _) as [so reg]. simpl in Hv. subst so.
  rewrite Hen. rewrite domain_allowed_emailDomain in Hdom. apply negb_true_iff in Hdom. rewrite Hdom. by exists ka.
Qed.
End GateOpen.

Section Demo.
Definition demo_sha (s : string) : string := "#" +:+ s.
Definition demo_cfg : settings := {| adminEnv := Some "root-secret"; signing_key := "k"; timeouts := Timeout.defaultPolicy |}.
Definition demo_admin : StoredKey := with_role owner (new_key demo_sha "k1" "sc_live_1" "ops" [read] 1000 None).
Definition demo_gate (reg : Sessions.Store) (pol : file SsoPolicy) : world (L := LockoutConfig * file State) :=
  World (L := LockoutConfig * file State) (write_file [demo_admin]) (DEFAULT_CONFIG, None) pol reg (MfaGate.World None []).

Lemma management_request_authorised_witness :
  exists k, key_proven demo_sha demo_cfg {[ "x-api-key" := "sc_live_1" ]} (demo_at 5000) (demo_gate empty_store None) k.
Proof.
  pose (r := requireAdmin demo_sha (fun _ _ => []) demo_b64uDec demo_mac demo_parse Some demo_cfg {[ "x-api-key" := "sc_live_1" ]} "PUT"
    (demo_at 5000) (demo_gate empty_store None)).
  assert (fst r = Some (Ok (Some (mark_used 5000 demo_admin)))) as E by (vm_compute; reflexivity).
  destruct (management_request_authorised demo_sha (fun _ _ => []) demo_b64uDec demo_mac demo_parse Some demo_cfg
    {[ "x-api-key" := "sc_live_1" ]} "PUT" (demo_at 5000) (demo_gate empty_store None) (Some (mark_used 5000 demo_admin)) (snd r)) as [_ Hk].
  - reflexivity.
  - fold r. rewrite <- E. apply surjective_pairing.
  - destruct (Hk ltac:(discriminate)) as (k & _ & Hp & _). by exists k.
Defined.

Lemma signed_in_admitted_witness :
  match demo_callback with
  | (Ok s, ws') =>
      exists key, fst (requireAdmin Datatypes.id (fun _ _ => []) demo_b64uDec demo_mac demo_parse Some demo_cfg {[ "cookie" := "sc_sso=" +:+ cookie s ]}
        "GET" (demo_at 43219999) (demo_gate (Sso.registry ws') (write_file demo_policy))) = Some (Ok key)
  | (Err _, _) => False
  end.
Proof.
  destruct demo_callback as [[s|e] ws'] eqn:E; [|not_an_error E].
  assert (Ok s = fst demo_callback) as Es by by rewrite E.
  assert (exp (session s) = 43220) as Hx.
  { transitivity (match fst demo_callback with Ok s => exp (session s) | Err _ => 0 end); [by rewrite <- Es|vm_compute; reflexivity]. }
  assert (iat (session s) = 20) as Hi.
  { transitivity (match fst demo_callback with Ok s => iat (session s) | Err _ => 0 end); [by rewrite <- Es|vm_compute; reflexivity]. }
  assert (email (session s) = "a@x.io") as He.
  { transitivity (match fst demo_callback with Ok s => email (session s) | Err _ => "" end); [by rewrite <- Es|vm_compute; reflexivity]. }
  assert (cookie s = match fst demo_callback with Ok s => cookie s | Err _ => "" end) as Hk by by rewrite <- Es.
  assert (readCookie Some {[ "cookie" := "sc_sso=" +:+ cookie s ]} "sc_sso" = Ok (Some (cookie s))) as Hc.
  { rewrite Hk. vm_compute. reflexivity. }
  destruct (signed_in_admitted Datatypes.id (fun _ _ => []) demo_b64u demo_b64uDec demo_mac demo_text demo_parse demo_tx_parse Some (fun _ => "") demo_json
    demo_verify demo_fetch demo_exchange demo_b64_inv demo_b64_plain demo_session_inv demo_cfg "r1" "https://app" demo_browser demo_query
    (demo_at 20000) demo_world s ws' [] [] {[ "cookie" := "sc_sso=" +:+ cookie s ]} (demo_at 43219999)
    (demo_gate (Sso.registry ws') (write_file demo_policy))) as [Hk'|[Hen _]];
    [exact E|done|done|done| |exact Hc|done| | | | | |done|exact Hk'|revert Hen; vm_compute; discriminate].
  - rewrite He. reflexivity.
  - rewrite Hi. reflexivity.
  - cbn. unfold seconds, demo_at. vm_compute. split_and!; try done; discriminate.
  - rewrite Hx. reflexivity.
  - rewrite Hx. reflexivity.
  - unfold signed_in_since. cbn [app]. rewrite filter_cons, filter_nil. destruct (decide _); unfold len; simpl; lia.
Defined.
End Demo.
