(* ===== verification/Ticker.v ===== *)
(** Ticker symbols: [TICKER_RE] and [normalizeTicker], which
    [web/lib/alertStore.ts] and [watchlistStore.ts] each hold a copy of. *)
From S2P Require Import Prelude JsNum JsDate IsoTime Json.

(** [/^[A-Z][A-Z0-9.\-]{0,15}$/]. *)
Definition is_upper (c : Ascii.ascii) : bool := (65 <=? code c) && (code c <=? 90).
Definition ticker_char (c : Ascii.ascii) : bool :=
  is_upper c || ((48 <=? code c) && (code c <=? 57)) || Ascii.eqb c "."%char || Ascii.eqb c "-"%char.
Definition TICKER_RE (s : string) : bool :=
  match s with "" => false | String c r => is_upper c && (str_len r <=? 15) && str_forall ticker_char r end.

Definition normalizeTicker (v : jval) : option string :=
  match v with Some (JStr s) => let t := to_upper (trim s) in if truthy t && TICKER_RE t then Some t else None | _ => None end.

Lemma normalizeTicker_ok v s : normalizeTicker v = Some s -> TICKER_RE s = true.
Proof. unfold normalizeTicker. destruct v as [[]|]; try done. cbv zeta. destruct (_ && _) eqn:E; [|done]. intros [= <-]. by apply andb_true_iff in E as [_ E]. Qed.

Lemma ticker_char_plain c : ticker_char c = true -> is_space c = false /\ upper_ascii c = c.
Proof.
  unfold ticker_char, is_upper, is_space, upper_ascii. cbv zeta. intros H.
  assert (code c <= 90 /\ 33 <= code c) as [H1 H2].
  { repeat (apply orb_true_iff in H as [H|H]); [lia|lia| |]; apply Ascii.eqb_eq in H as ->; by vm_compute. }
  split; [lia|]. by rewrite (proj2 (Z.leb_gt 97 _)) by lia.
Qed.

(** A symbol that has been normalised stays as it is. *)
Lemma normalizeTicker_id s : TICKER_RE s = true -> normalizeTicker (Some (JStr s)) = Some s.
Proof.
  intros Hs. assert (str_forall ticker_char s = true) as Hc.
  { destruct s as [|c r]; [done|]. simpl in *. apply andb_true_iff in Hs as [[H1 _]%andb_true_iff H2]. rewrite H2. unfold ticker_char. by rewrite H1. }
  assert (trim s = s) as Ht. { apply trim_no_space. eapply str_forall_impl; [|exact Hc]. intros c H. by destruct (ticker_char_plain c H) as [-> _]. }
  assert (to_upper s = s) as Hu.
  { clear Hs Ht. induction s as [|c r IH]; [done|]. simpl in *. apply andb_true_iff in Hc as [H1 H2]. unfold to_upper. simpl.
    destruct (ticker_char_plain c H1) as [_ ->]. f_equal. by apply IH. }
  unfold normalizeTicker. cbv zeta. rewrite Ht, Hu, Hs. by destruct s.
Qed.
