(* ===== verification/Alerts.v ===== *)
(** Price and percent alerts: [web/lib/alertStore.ts]. Each owner has a bucket
    of alerts and of fires. SHA-256, the collation of [localeCompare], the
    reading of numbers from text and the rounding of floating-point arithmetic
    are parameters; ids are drawn by the caller. *)
From S2P Require Import Prelude JsNum JsDate IsoTime Json Store Ticker.

Definition MAX_ALERTS : Z := 200.
Definition MAX_HISTORY : Z := 1000.
Definition OPERATOR_OWNER_ID : string := "__operator__".

Inductive Condition := price_above | price_below | pct_change_above | pct_change_below.
#[export] Instance Condition_eq_dec : EqDecision Condition.
Proof. solve_decision. Defined.

Definition CONDITIONS : list (string * Condition) :=
  [("price_above", price_above); ("price_below", price_below); ("pct_change_above", pct_change_above); ("pct_change_below", pct_change_below)].

Definition is_price (c : Condition) : bool := match c with price_above | price_below => true | _ => false end.

Record Alert := {
  id : string; ticker : string; condition : Condition; value : num; note : string; cooldown_hours : num; enabled : bool;
  last_fired_at : option Z; created_at : Z }.

Record AlertEvent := {
  alert_id : string; e_ticker : string; e_condition : Condition; e_value : num; observed : num; fired_at : Z; e_note : string }.

#[export] Instance Alert_eq_dec : EqDecision Alert.
Proof. solve_decision. Defined.
#[export] Instance AlertEvent_eq_dec : EqDecision AlertEvent.
Proof. solve_decision. Defined.

Record TenantBucket := { alerts : list Alert; history : list AlertEvent }.

Definition emptyBucket : TenantBucket := {| alerts := []; history := [] |}.

(** The buckets, in the order in which the owners came. *)
Abbreviation tenants := (list (string * TenantBucket)).

(** A file of the time before tenants, or one with them. *)
Inductive alerts_file := Legacy (b : TenantBucket) | Tenants (t : tenants).

#[export] Program Instance alerts_persisted : Persisted tenants := {|
  raw := alerts_file; encode t := Tenants t;
  decode r := match r with Legacy b => [(OPERATOR_OWNER_ID, b)] | Tenants t => t end; absent := []; storable _ := True |}.
Next Obligation. done. Qed.

Definition isCondition (v : jval) : option Condition := match v with Some (JStr s) => assoc s CONDITIONS | _ => None end.

Definition normalizeNote (v : jval) : string := match v with Some (JStr s) => str_take 200 (trim s) | _ => "" end.

Definition normalizeOwnerId (o : option string) : string :=
  match o with Some s => let t := trim s in if truthy t then str_take 128 t else OPERATOR_OWNER_ID | None => OPERATOR_OWNER_ID end.

Definition bucketFor (t : tenants) (owner : string) : TenantBucket := default emptyBucket (assoc owner t).

Section Alerts.
(** [parseFloat(String(v))] and [Number(v)] of a value that is no number. *)
Context (parseFloat_of Number_of : json -> num) (localeCompare : string -> string -> Z).

Definition listAlerts (owner : option string) (f : file tenants) : list Alert :=
  match assoc (normalizeOwnerId owner) (read_file f) with Some b => alerts b | None => [] end.

(** The fields as they arrive; a missing one is [None]. *)
Record AlertInput := {
  in_ticker : jval; in_condition : jval; in_value : jval; in_note : jval; in_cooldown_hours : jval; in_enabled : jval }.

Inductive ValidationError := bad_ticker | bad_condition | bad_value | bad_cooldown | limit_reached | alert_not_found | no_fields.

(** [undefined] is not a number. *)
Definition value_of (v : jval) : num := match v with Some (JNum n) => n | Some j => parseFloat_of j | None => NaN end.
Definition number_of (v : jval) : num := match v with Some (JNum n) => n | Some j => Number_of j | None => NaN end.

Definition blank (v : jval) : bool := match v with None | Some JNull => true | Some (JStr s) => String.eqb s "" | _ => false end.

(** The target is finite, and positive when it is a price. *)
Definition value_ok (c : Condition) (n : num) : bool := is_finite n && negb (is_price c && num_le n (int 0)).

Record AlertData := { d_ticker : string; d_condition : Condition; d_value : num; d_note : string; d_cooldown : num; d_enabled : bool }.

Definition validateInput (body : AlertInput) : result AlertData ValidationError :=
  match normalizeTicker (in_ticker body) with
  | None => Err bad_ticker
  | Some t =>
      match isCondition (in_condition body) with
      | None => Err bad_condition
      | Some c =>
          let v := value_of (in_value body) in
          if negb (value_ok c v) then Err bad_value else
          let cd := if blank (in_cooldown_hours body) then int 12 else num_max (int 0) (num_floor (number_of (in_cooldown_hours body))) in
          if negb (is_finite cd) then Err bad_cooldown else
          Ok {| d_ticker := t; d_condition := c; d_value := v; d_note := normalizeNote (in_note body); d_cooldown := cd;
                d_enabled := match in_enabled body with None => true | v => jtruthy v end |}
      end
  end.

Definition new_alert (newId : string) (d : AlertData) (now : Z) : Alert :=
  {| id := newId; ticker := d_ticker d; condition := d_condition d; value := d_value d; note := d_note d; cooldown_hours := d_cooldown d;
     enabled := d_enabled d; last_fired_at := None; created_at := now |}.

Definition with_alerts (l : list Alert) (b : TenantBucket) : TenantBucket := {| alerts := l; history := history b |}.

Definition create_tx (input : AlertInput) (owner : option string) (newId : string) (now : Z)
  : transaction tenants (result Alert ValidationError) := fun t =>
  match validateInput input with
  | Err e => (Err e, None)
  | Ok d =>
      let o := normalizeOwnerId owner in
      let b := bucketFor t o in
      if len (alerts b) >=? MAX_ALERTS then (Err limit_reached, None)
      else let a := new_alert newId d now in (Ok a, Some (put o (with_alerts (alerts b ++ [a]) b) t))
  end.

Definition createAlert input owner newId now (f : file tenants) := on_file (create_tx input owner newId now) f.

Definition find_alert (i : string) (b : TenantBucket) : option (nat * Alert) := list_find (fun a => id a = i) (alerts b).

Definition set_enabled (e : bool) (a : Alert) : Alert :=
  {| id := id a; ticker := ticker a; condition := condition a; value := value a; note := note a; cooldown_hours := cooldown_hours a;
     enabled := e; last_fired_at := last_fired_at a; created_at := created_at a |}.

Definition enable_tx (i : string) (e : bool) (owner : option string) : transaction tenants (option Alert) := fun t =>
  let o := normalizeOwnerId owner in
  match assoc o t with
  | None => (None, None)
  | Some b =>
      match find_alert i b with
      | None => (None, None)
      | Some (n, a) => if Bool.eqb (enabled a) e then (Some a, None)
                       else (Some (set_enabled e a), Some (put o (with_alerts (<[n := set_enabled e a]> (alerts b)) b) t))
      end
  end.

Definition setAlertEnabled i e owner (f : file tenants) := on_file (enable_tx i e owner) f.

(** [None]: the patch does not have the field. *)
Record AlertPatch := { p_value : option json; p_note : option json; p_cooldown_hours : option json; p_enabled : option json }.

Definition patch_value (p : AlertPatch) (a : Alert) : result num ValidationError :=
  match p_value p with
  | None => Ok (value a)
  | Some j => let v := value_of (Some j) in if value_ok (condition a) v then Ok v else Err bad_value
  end.

Definition patch_cooldown (p : AlertPatch) (a : Alert) : result num ValidationError :=
  match p_cooldown_hours p with
  | None => Ok (cooldown_hours a)
  | Some j => let n := if blank (Some j) then cooldown_hours a else num_floor (number_of (Some j)) in
              if negb (is_finite n) || num_lt n (int 0) then Err bad_cooldown else Ok n
  end.

Definition patched (p : AlertPatch) (a : Alert) (v cd : num) : Alert :=
  {| id := id a; ticker := ticker a; condition := condition a; value := v;
     note := match p_note p with Some j => normalizeNote (Some j) | None => note a end; cooldown_hours := cd;
     enabled := match p_enabled p with Some j => jtruthy (Some j) | None => enabled a end;
     last_fired_at := last_fired_at a; created_at := created_at a |}.

Definition no_field (p : AlertPatch) : bool :=
  match p_value p, p_note p, p_cooldown_hours p, p_enabled p with None, None, None, None => true | _, _, _, _ => false end.

Definition update_tx (i : string) (p : AlertPatch) (owner : option string) : transaction tenants (result Alert ValidationError) := fun t =>
  let o := normalizeOwnerId owner in
  match assoc o t with
  | None => (Err alert_not_found, None)
  | Some b =>
      match find_alert i b with
      | None => (Err alert_not_found, None)
      | Some (n, a) =>
          match result_bind (patch_value p a) (fun v => result_bind (patch_cooldown p a) (fun cd => Ok (patched p a v cd))) with
          | Err e => (Err e, None)
          | Ok a' => if no_field p then (Err no_fields, None) else (Ok a', Some (put o (with_alerts (<[n := a']> (alerts b)) b) t))
          end
      end
  end.

Definition updateAlert i p owner (f : file tenants) := on_file (update_tx i p owner) f.

Definition delete_tx (i : string) (owner : option string) : transaction tenants bool := fun t =>
  let o := normalizeOwnerId owner in
  match assoc o t with
  | None => (false, None)
  | Some b => let l := filter (fun a => id a <> i) (alerts b) in
              if len l =? len (alerts b) then (false, None) else (true, Some (put o (with_alerts l b) t))
  end.

Definition deleteAlert i owner (f : file tenants) := on_file (delete_tx i owner) f.

(** ** History *)

(** [/^\d{4}-\d{2}-\d{2}$/] and a valid date: with a time of day behind it, it
    reads as an instant. *)
Definition normalizeHistoryDate (v : option string) : option string :=
  match v with
  | Some s => let s := trim s in match parse_iso (s +:+ "T00:00:00.000Z") with Some _ => Some s | None => None end
  | None => None
  end.

Definition in_range (tick : option string) (from to : option string) (e : AlertEvent) : bool :=
  let day := str_take 10 (toISOString (fired_at e)) in
  negb (truthy (default "" tick) && negb (bool_decide (Some (e_ticker e) = tick))) &&
  negb (match from with Some d => str_lt day d | None => false end) && negb (match to with Some d => str_lt d day | None => false end).

Definition filterHistoryEvents (l : list AlertEvent) (tick : option string) (from to : option string) : list AlertEvent :=
  filter (fun e => in_range tick (normalizeHistoryDate from) (normalizeHistoryDate to) e = true) l.

Definition newest (a b : AlertEvent) : Z := localeCompare (toISOString (fired_at b)) (toISOString (fired_at a)).

Definition listAllHistory (tick from to owner : option string) (f : file tenants) : list AlertEvent :=
  let h := match assoc (normalizeOwnerId owner) (read_file f) with Some b => history b | None => [] end in
  js_sort newest (filterHistoryEvents h tick from to).

(** [limit] and [offset] are natural numbers. *)
Definition listHistory (tick from to owner : option string) (limit offset : nat) (f : file tenants) : Z * list AlertEvent :=
  let sorted := listAllHistory tick from to owner f in (len sorted, take limit (drop offset sorted)).

Definition clear_tx (owner : option string) : transaction tenants Z := fun t =>
  let o := normalizeOwnerId owner in
  match assoc o t with
  | None => (0, None)
  | Some b => (len (history b), Some (put o {| alerts := alerts b; history := [] |} t))
  end.

Definition clearHistory owner (f : file tenants) := on_file (clear_tx owner) f.

Record TenantSummary := { owner_id : string; alert_count : Z; history_count : Z; armed : Z }.

Definition listTenantSummary (f : file tenants) : list TenantSummary * Z * Z :=
  let rows := (fun ob => {| owner_id := fst ob; alert_count := len (alerts (snd ob)); history_count := len (history (snd ob));
                            armed := len (filter (fun a => enabled a = true) (alerts (snd ob))) |}) <$> read_file f in
  (js_sort (fun a b => localeCompare (owner_id a) (owner_id b)) rows,
   fold_right Z.add 0 (alert_count <$> rows), fold_right Z.add 0 (history_count <$> rows)).

(** ** Checking *)

Record Quote := { last : num; prev : num }.

Section Check.
Context `{FloatOps} (sha256 : string -> list Z).

Definition HOUR_MS : Z := 60 * 60 * 1000.

(** [now] is the clock reading made here. *)
Definition syntheticQuote (tick : string) (anchor : option num) (now : Z) : Quote :=
  let h := sha256 (tick +:+ "|" +:+ pretty (now / HOUR_MS)) in
  let u16 := nth 0 h 0 * 256 + nth 1 h 0 in
  let drift := fmul (fsub (fmul (fdiv (int u16) (int 65535)) (int 2)) (int 1)) (fdiv (int 4) (int 100)) in
  let base := match anchor with Some a => if num_lt (int 0) a then a else int (50 + nth 2 h 0 mod 200) | None => int (50 + nth 2 h 0 mod 200) end in
  {| last := toFixed 4 (num_max (fdiv (int 1) (int 100)) (fmul base (fadd (int 1) drift))); prev := toFixed 4 base |}.

Abbreviation quotes := (list (string * Quote)).

(** [now n] is the reading of the clock after [n] quotes. *)
Definition quoteFor (prices : list (string * num)) (now : nat -> Z) (qs : quotes) (tick : string) (anchor : option num) : Quote * quotes :=
  match assoc tick qs with
  | Some q => (q, qs)
  | None =>
      let q := match assoc tick prices with
               | Some p => if is_finite p then {| last := p; prev := match anchor with Some a => if num_lt (int 0) a then a else p | None => p end |}
                           else syntheticQuote tick anchor (now (length qs))
               | None => syntheticQuote tick anchor (now (length qs))
               end in
      (q, put tick q qs)
  end.

Definition hours (n : num) : num := match n with Fin q => Fin (QArith_base.Qmult q (QArith_base.inject_Z HOUR_MS)) | n => n end.

(** Enough time has passed since the last fire. *)
Definition cooled (a : Alert) (now : Z) : bool :=
  match last_fired_at a with
  | Some l => negb (num_lt (int (now - l)) (hours (cooldown_hours a)))
  | None => true
  end.

(** What is observed, and whether the alert fires on it. *)
Definition evaluate (a : Alert) (q : Quote) : num * bool :=
  match condition a with
  | price_above => (last q, num_lt (value a) (last q))
  | price_below => (last q, num_lt (last q) (value a))
  | c => let pct := if num_lt (int 0) (prev q) then fdiv (fsub (last q) (prev q)) (prev q) else int 0 in
         (pct, if bool_decide (c = pct_change_above) then num_lt (value a) pct else num_lt pct (value a))
  end.

Definition fire (a : Alert) (obs : num) (now : Z) : AlertEvent :=
  {| alert_id := id a; e_ticker := ticker a; e_condition := condition a; e_value := value a; observed := obs; fired_at := now; e_note := note a |}.

Definition fired (now : Z) (a : Alert) : Alert :=
  {| id := id a; ticker := ticker a; condition := condition a; value := value a; note := note a; cooldown_hours := cooldown_hours a;
     enabled := enabled a; last_fired_at := Some now; created_at := created_at a |}.

(** One turn of the loop: the quotes, the alert as it is left, its event. *)
Definition check_alert (prices : list (string * num)) (clk : clock) (qs : quotes) (a : Alert) : quotes * Alert * option AlertEvent :=
  let now := clk 0%nat in
  if negb (enabled a) || negb (cooled a now) then (qs, a, None) else
  let '(q, qs) := quoteFor prices (fun n => clk (S n)) qs (ticker a) (if is_price (condition a) then Some (value a) else None) in
  let '(obs, fires) := evaluate a q in
  if fires then (qs, fired now a, Some (fire a obs now)) else (qs, a, None).

Fixpoint check_all (prices : list (string * num)) (clk : clock) (qs : quotes) (l : list Alert) : quotes * list Alert * list AlertEvent :=
  match l with
  | [] => (qs, [], [])
  | a :: r =>
      let '(qs, a, e) := check_alert prices clk qs a in
      let '(qs, r, es) := check_all prices clk qs r in
      (qs, a :: r, match e with Some e => e :: es | None => es end)
  end.

(** [unshift], and the cut at the limit. *)
Definition push_event (h : list AlertEvent) (e : AlertEvent) : list AlertEvent :=
  let h := e :: h in if len h >? MAX_HISTORY then take (Z.to_nat MAX_HISTORY) h else h.

Record CheckResult := { hits : list AlertEvent; checked : Z; r_quotes : quotes }.

Definition check_tx (prices : list (string * num)) (dryRun : bool) (owner : option string) (clk : clock) : transaction tenants CheckResult := fun t =>
  let o := normalizeOwnerId owner in
  let b := bucketFor t o in
  let '(qs, l, es) := check_all prices clk [] (alerts b) in
  ({| hits := es; checked := len (alerts b); r_quotes := qs |},
   if bool_decide (es <> []) && negb dryRun then Some (put o {| alerts := l; history := fold_left push_event es (history b) |} t) else None).

Definition runCheck prices dryRun owner clk (f : file tenants) := on_file (check_tx prices dryRun owner clk) f.
End Check.
End Alerts.

(** * Histories *)

Section Histories.
Context (parseFloat_of Number_of : json -> num) `{FloatOps} (sha256 : string -> list Z).

Inductive event :=
| Create (input : AlertInput) (owner : option string) (newId : string) (now : Z)
| Enable (i : string) (e : bool) (owner : option string)
| Update (i : string) (p : AlertPatch) (owner : option string)
| Delete (i : string) (owner : option string)
| Clear (owner : option string)
| RunCheck (prices : list (string * num)) (dryRun : bool) (owner : option string) (clk : clock).

Definition owner_of (e : event) : string :=
  normalizeOwnerId (match e with Create _ o _ _ | Enable _ _ o | Update _ _ o | Delete _ o | Clear o | RunCheck _ _ o _ => o end).

Definition run (e : event) : tenants -> tenants :=
  match e with
  | Create input o newId now => after (create_tx parseFloat_of Number_of input o newId now)
  | Enable i e o => after (enable_tx i e o)
  | Update i p o => after (update_tx parseFloat_of Number_of i p o)
  | Delete i o => after (delete_tx i o)
  | Clear o => after (clear_tx o)
  | RunCheck prices d o clk => after (check_tx sha256 prices d o clk)
  end.

Definition run_all (evs : list event) (t : tenants) : tenants := fold_left (fun t e => run e t) evs t.

(** What the event makes of the bucket of its owner; [None]: it is not written. *)
Definition step (e : event) (b : option TenantBucket) : option TenantBucket :=
  match e with
  | Create input o newId now =>
      let b := default emptyBucket b in
      match validateInput parseFloat_of Number_of input with
      | Ok d => if len (alerts b) >=? MAX_ALERTS then None else Some (with_alerts (alerts b ++ [new_alert newId d now]) b)
      | Err _ => None
      end
  | Enable i e o =>
      b ← b; na ← find_alert i b;
      if Bool.eqb (enabled (snd na)) e then None else Some (with_alerts (<[fst na := set_enabled e (snd na)]> (alerts b)) b)
  | Update i p o =>
      b ← b; na ← find_alert i b;
      match patch_value parseFloat_of p (snd na), patch_cooldown Number_of p (snd na) with
      | Ok v, Ok cd => if no_field p then None else Some (with_alerts (<[fst na := patched p (snd na) v cd]> (alerts b)) b)
      | _, _ => None
      end
  | Delete i o => b ← b; let l := filter (fun a => id a <> i) (alerts b) in if len l =? len (alerts b) then None else Some (with_alerts l b)
  | Clear o => b ← b; Some {| alerts := alerts b; history := [] |}
  | RunCheck prices d o clk =>
      let b := default emptyBucket b in
      let '(_, l, es) := check_all sha256 prices clk [] (alerts b) in
      if bool_decide (es <> []) && negb d then Some {| alerts := l; history := fold_left push_event es (history b) |} else None
  end.

(** Every operation is a function of the bucket of its owner, and writes no other. *)
Lemma run_step e t : run e t = match step e (assoc (owner_of e) t) with Some b => put (owner_of e) b t | None => t end.
Proof.
  destruct e as [input o newId now|i e o|i p o|i o|o|prices d o clk]; unfold run, after, owner_of; cbn [step].
  - unfold create_tx, bucketFor. cbv zeta. destruct (validateInput _ _ _) as [d|]; [|done]. by destruct (_ >=? _).
  - unfold enable_tx. cbv zeta. destruct (assoc _ t) as [b|]; [|done]. cbn [mbind option_bind]. destruct (find_alert i b) as [[n a]|]; [|done].
    cbn [fst snd mbind option_bind]. by destruct (Bool.eqb _ _).
  - unfold update_tx. cbv zeta. destruct (assoc _ t) as [b|]; [|done]. cbn [mbind option_bind]. destruct (find_alert i b) as [[n a]|]; [|done].
    cbn [fst snd mbind option_bind]. destruct (patch_value _ _ _); [|done]. cbn [result_bind]. destruct (patch_cooldown _ _ _); [|done].
    cbn [result_bind]. by destruct (no_field p).
  - unfold delete_tx. cbv zeta. destruct (assoc _ t) as [b|]; [|done]. cbn [mbind option_bind]. by destruct (_ =? _).
  - unfold clear_tx. cbv zeta. by destruct (assoc _ t) as [b|].
  - unfold check_tx, bucketFor. cbv zeta. destruct (check_all _ _ _ _ _) as [[qs l] es]. by destruct (_ && _).
Qed.

Lemma run_own e t : assoc (owner_of e) (run e t) = match step e (assoc (owner_of e) t) with Some b => Some b | None => assoc (owner_of e) t end.
Proof. rewrite run_step. destruct (step e _); [by rewrite assoc_put_eq|done]. Qed.

Lemma run_other e t o : owner_of e <> o -> assoc o (run e t) = assoc o t.
Proof. intros Hne. rewrite run_step. destruct (step e _); [by apply assoc_put_ne|done]. Qed.

Lemma run_all_own o evs t t' : assoc o t = assoc o t' ->
  assoc o (run_all evs t) = assoc o (run_all (filter (fun e => owner_of e = o) evs) t').
Proof.
  revert t t'; induction evs as [|e evs IH]; intros t t' E; [done|]. change (run_all (e :: evs) t) with (run_all evs (run e t)).
  rewrite filter_cons. destruct (decide (owner_of e = o)) as [Ho|Hne].
  - apply (IH (run e t) (run e t')). rewrite <- Ho in *. by rewrite !run_own, E.
  - apply IH. by rewrite run_other.
Qed.

(** C15. What an owner sees depends on nobody else: after any history, its bucket is
    what its own operations alone would have made of it. *)
Theorem tenants_isolated o evs t :
  assoc o (run_all evs t) = assoc o (run_all (filter (fun e => owner_of e = o) evs) t).
Proof. by apply run_all_own. Qed.

(** * What holds of every bucket *)

Definition alert_ok (a : Alert) : Prop :=
  TICKER_RE (ticker a) = true /\ value_ok (condition a) (value a) = true /\ is_finite (cooldown_hours a) = true /\
  num_lt (cooldown_hours a) (int 0) = false.

Definition bucket_ok (b : TenantBucket) : Prop :=
  len (alerts b) <= MAX_ALERTS /\ len (history b) <= MAX_HISTORY /\ Forall alert_ok (alerts b).

Lemma num_max_zero_ok n : is_finite (num_max (int 0) n) = true -> num_lt (num_max (int 0) n) (int 0) = false.
Proof.
  unfold num_max. destruct n as [|[]|q]; try done. destruct (num_lt (int 0) (Fin q)) eqn:E; [|by vm_compute].
  intros _. simpl in *. apply negb_true_iff in E. apply negb_false_iff.
  destruct (QArith_base.Qlt_le_dec q (QArith_base.inject_Z 0)) as [Hlt|Hle]; [|by apply QArith_base.Qle_bool_iff].
  exfalso. enough (QArith_base.Qle_bool q (QArith_base.inject_Z 0) = true) by congruence.
  by apply QArith_base.Qle_bool_iff, QArith_base.Qlt_le_weak.
Qed.

Lemma push_event_len h e : len h <= MAX_HISTORY -> len (push_event h e) <= MAX_HISTORY.
Proof.
  intros Hh. unfold push_event. cbv zeta. destruct (_ >? _) eqn:E; [|lia]. unfold len. rewrite length_take. unfold MAX_HISTORY. lia.
Qed.

Lemma push_events_len es h : len h <= MAX_HISTORY -> len (fold_left push_event es h) <= MAX_HISTORY.
Proof. revert h; induction es as [|e es IH]; intros h Hh; [done|]. apply IH. by apply push_event_len. Qed.

Lemma validateInput_ok body d newId now : validateInput parseFloat_of Number_of body = Ok d -> alert_ok (new_alert newId d now).
Proof.
  unfold validateInput. destruct (normalizeTicker _) as [s|] eqn:Et; [|done]. destruct (isCondition _) as [c|]; [|done]. cbv zeta.
  destruct (value_ok _ _) eqn:Ev; [|done]. cbn [negb]. set (cd := if blank _ then _ else _). destruct (is_finite cd) eqn:Ec; [|done].
  intros [= <-]. split_and!; cbn; try done; [by eapply normalizeTicker_ok|]. subst cd. destruct (blank _); [by vm_compute|]. by apply num_max_zero_ok.
Qed.

Lemma patched_ok p a v cd : alert_ok a -> patch_value parseFloat_of p a = Ok v -> patch_cooldown Number_of p a = Ok cd -> alert_ok (patched p a v cd).
Proof.
  intros (H1 & H2 & H3 & H4) Hv Hc. unfold patch_value in Hv. unfold patch_cooldown in Hc. unfold alert_ok. cbn. split_and!; [done|..].
  - destruct (p_value p) as [j|]; [|by injection Hv as <-]. cbv zeta in Hv. destruct (value_ok (condition a) (value_of parseFloat_of (Some j))) eqn:E; [|done]. by injection Hv as <-.
  - destruct (p_cooldown_hours p) as [j|]; [|by injection Hc as <-]. cbv zeta in Hc. destruct (negb _ || _) eqn:E; [done|]. injection Hc as <-.
    apply orb_false_elim in E as [E _]. by apply negb_false_iff in E.
  - destruct (p_cooldown_hours p) as [j|]; [|by injection Hc as <-]. cbv zeta in Hc. destruct (negb _ || _) eqn:E; [done|]. injection Hc as <-.
    by apply orb_false_elim in E as [_ E].
Qed.

Lemma check_all_alerts prices clk qs l : 
  Forall2 (fun a a' => a' = a \/ a' = fired (clk 0%nat) a) l (snd (fst (check_all sha256 prices clk qs l))).
Proof.
  revert qs; induction l as [|a l IH]; intros qs; [constructor|]. cbn [check_all]. unfold check_alert.
  destruct (negb (enabled a) || _).
  - specialize (IH qs). destruct (check_all _ _ _ qs l) as [[qs2 r] es]. constructor; [by left|exact IH].
  - cbv zeta. destruct (quoteFor _ _ _ _ _ _) as [q qs1]. destruct (evaluate a q) as [obs []]; specialize (IH qs1);
      destruct (check_all _ _ _ qs1 l) as [[qs2 r] es]; (constructor; [auto|exact IH]).
Qed.

Lemma alert_step_ok e b b' : from_option bucket_ok True b -> step e b = Some b' -> bucket_ok b'.
Proof.
  assert (bucket_ok emptyBucket) as He by (split_and!; [done|done|constructor]).
  destruct e as [input o newId now|i e o|i p o|i o|o|prices d o clk]; cbn [step]; intros Hb Hs.
  - assert (bucket_ok (default emptyBucket b)) as (H1 & H2 & H3) by by destruct b.
    destruct (validateInput _ _ _) as [d|] eqn:Ev; [|done]. cbv zeta in Hs. destruct (_ >=? _) eqn:El; [done|]. injection Hs as <-.
    split_and!; cbn; [unfold len in *; rewrite length_app; simpl; lia|done|]. apply Forall_app. split; [done|]. apply Forall_singleton.
    by eapply validateInput_ok.
  - destruct b as [b|]; [|done]. destruct Hb as (H1 & H2 & H3). cbn [mbind option_bind] in Hs. destruct (find_alert i b) as [[n a]|] eqn:Ef; [|done].
    cbn [mbind option_bind fst snd] in Hs. destruct (Bool.eqb _ _); [done|]. injection Hs as <-. apply list_find_lookup in Ef as [Hn _].
    split_and!; cbn; [unfold len in *; by rewrite length_insert|done|]. apply Forall_insert; [done|]. exact (Forall_lookup_1 _ _ _ _ H3 Hn).
  - destruct b as [b|]; [|done]. destruct Hb as (H1 & H2 & H3). cbn [mbind option_bind] in Hs. destruct (find_alert i b) as [[n a]|] eqn:Ef; [|done].
    cbn [mbind option_bind fst snd] in Hs. destruct (patch_value _ p a) as [v|] eqn:Ev; [|done]. destruct (patch_cooldown _ p a) as [cd|] eqn:Ec; [|done].
    destruct (no_field p); [done|]. injection Hs as <-. apply list_find_lookup in Ef as [Hn _].
    split_and!; cbn; [unfold len in *; by rewrite length_insert|done|]. apply Forall_insert; [done|].
    apply patched_ok; [|done|done]. exact (Forall_lookup_1 _ _ _ _ H3 Hn).
  - destruct b as [b|]; [|done]. destruct Hb as (H1 & H2 & H3). cbn [mbind option_bind] in Hs. cbv zeta in Hs. destruct (_ =? _); [done|].
    injection Hs as <-. split_and!; cbn; [|done|by apply Forall_filter_keep]. unfold len in *. pose proof (length_filter (fun a => id a <> i) (alerts b)). lia.
  - destruct b as [b|]; [|done]. destruct Hb as (H1 & H2 & H3). injection Hs as <-. done.
  - assert (bucket_ok (default emptyBucket b)) as (H1 & H2 & H3) by by destruct b. cbv zeta in Hs.
    pose proof (check_all_alerts prices clk [] (alerts (default emptyBucket b))) as HF.
    destruct (check_all _ _ _ _ _) as [[qs l] es]. destruct (_ && _); [|done]. injection Hs as <-. cbn [fst snd] in HF. split_and!; cbn.
    + unfold len in *. by rewrite <- (Forall2_length _ _ _ HF).
    + by apply push_events_len.
    + apply Forall_lookup_2. intros k a' Hk. destruct (Forall2_lookup_r _ _ _ _ _ HF Hk) as (a & Ha & [->| ->]);
        exact (Forall_lookup_1 _ _ _ _ H3 Ha).
Qed.

(** C36. Over any history, every owner has at most 200 alerts and 1000 recorded
    fires, and every alert has a well-formed ticker, a finite target, positive
    when it is a price, and a finite cooldown that is not negative. *)
Theorem alerts_well_formed evs o b : assoc o (run_all evs []) = Some b -> bucket_ok b.
Proof.
  intros Hb. enough (forall t, from_option bucket_ok True (assoc o t) -> from_option bucket_ok True (assoc o (run_all evs t))) as Hi.
  { specialize (Hi [] I). by rewrite Hb in Hi. }
  clear Hb. induction evs as [|e evs IH]; intros t Ht; [done|]. apply (IH (run e t)). destruct (decide (owner_of e = o)) as [<-|Hne].
  - rewrite run_own. destruct (step e _) eqn:E; [by eapply alert_step_ok|done].
  - by rewrite run_other.
Qed.

(** * The cooldown *)

(** The alerts with the id [i] have that cooldown, and fired not before [t]. *)
Definition rests (i : string) (cd : num) (t : Z) (b : TenantBucket) : Prop :=
  Forall (fun a => id a = i -> cooldown_hours a = cd /\ exists l, last_fired_at a = Some l /\ t <= l) (alerts b).

(** The event neither changes the cooldown of [i] nor reuses the id, and checks
    happen after [t]. *)
Definition spares (i : string) (t : Z) (e : event) : Prop :=
  match e with
  | Create _ _ newId _ => newId <> i
  | Update j p _ => j <> i \/ p_cooldown_hours p = None
  | RunCheck _ _ _ clk => t <= clk 0%nat
  | _ => True
  end.

Lemma rests_step i cd t e b b' : from_option (rests i cd t) True b -> spares i t e -> step e b = Some b' -> rests i cd t b'.
Proof.
  assert (rests i cd t emptyBucket) as He by constructor.
  destruct e as [input o newId now|j e o|j p o|j o|o|prices d o clk]; cbn [step spares]; intros Hb Hsp Hs.
  - assert (rests i cd t (default emptyBucket b)) as H1 by by destruct b.
    destruct (validateInput _ _ _) as [d|]; [|done]. cbv zeta in Hs. destruct (_ >=? _); [done|]. injection Hs as <-.
    apply Forall_app. split; [done|]. apply Forall_singleton. done.
  - destruct b as [b|]; [|done]. cbn [mbind option_bind] in Hs. destruct (find_alert j b) as [[n a]|] eqn:Ef; [|done].
    cbn [mbind option_bind fst snd] in Hs. destruct (Bool.eqb _ _); [done|]. injection Hs as <-. apply list_find_lookup in Ef as [Hn _].
    apply Forall_insert; [done|]. exact (Forall_lookup_1 _ _ _ _ Hb Hn).
  - destruct b as [b|]; [|done]. cbn [mbind option_bind] in Hs. destruct (find_alert j b) as [[n a]|] eqn:Ef; [|done].
    cbn [mbind option_bind fst snd] in Hs. destruct (patch_value _ p a) as [v|]; [|done]. destruct (patch_cooldown _ p a) as [c|] eqn:Ec; [|done].
    destruct (no_field p); [done|]. injection Hs as <-. apply list_find_lookup in Ef as [Hn Hid]. apply Forall_insert; [done|]. cbn.
    intros Hi. destruct Hsp as [Hne|Hnone]; [congruence|]. unfold patch_cooldown in Ec. rewrite Hnone in Ec. injection Ec as <-.
    exact (Forall_lookup_1 _ _ _ _ Hb Hn Hi).
  - destruct b as [b|]; [|done]. cbn [mbind option_bind] in Hs. cbv zeta in Hs. destruct (_ =? _); [done|]. injection Hs as <-. by apply Forall_filter_keep.
  - destruct b as [b|]; [|done]. injection Hs as <-. done.
  - assert (rests i cd t (default emptyBucket b)) as H1 by by destruct b. cbv zeta in Hs.
    pose proof (check_all_alerts prices clk [] (alerts (default emptyBucket b))) as HF.
    destruct (check_all _ _ _ _ _) as [[qs l] es]. destruct (_ && _); [|done]. injection Hs as <-. cbn [fst snd] in HF.
    apply Forall_lookup_2. intros k a' Hk. destruct (Forall2_lookup_r _ _ _ _ _ HF Hk) as (a & Ha & Hor).
    pose proof (Forall_lookup_1 _ _ _ _ H1 Ha) as Hr. cbn beta in Hr. destruct Hor as [->| ->]; [done|]. cbn. intros Hi.
    destruct (Hr Hi) as [Hc _]. split; [done|]. by exists (clk 0%nat).
Qed.

Lemma rests_run_all i cd t o evs ts : from_option (rests i cd t) True (assoc o ts) -> Forall (spares i t) evs ->
  from_option (rests i cd t) True (assoc o (run_all evs ts)).
Proof.
  intros Hr Hs. revert ts Hr; induction Hs as [|e evs He _ IH]; intros ts Hr; [done|]. apply (IH (run e ts)).
  destruct (decide (owner_of e = o)) as [<-|Hne]; [|by rewrite run_other].
  rewrite run_own. destruct (step e _) eqn:E; [|done]. by eapply rests_step.
Qed.

(** Whose event is in the hits had cooled down. *)
Lemma check_all_hit prices clk qs l i :
  (exists ev, ev ∈ snd (check_all sha256 prices clk qs l) /\ alert_id ev = i) ->
  exists a, a ∈ l /\ id a = i /\ cooled a (clk 0%nat) = true.
Proof.
  revert qs; induction l as [|a l IH]; intros qs (ev & Hin & Hid); [by apply elem_of_nil in Hin|].
  cbn [check_all] in Hin. unfold check_alert in Hin. destruct (negb (enabled a) || _) eqn:Ec.
  - destruct (check_all _ _ _ qs l) as [[qs2 r] es] eqn:E. destruct (IH qs) as (a' & Ha & H'); [by rewrite E; exists ev|]. exists a'. split; [by right|done].
  - apply orb_false_elim in Ec as [_ Ec]. apply negb_false_iff in Ec. cbv zeta in Hin. destruct (quoteFor _ _ _ _ _ _) as [q qs1].
    destruct (evaluate a q) as [obs []]; destruct (check_all _ _ _ qs1 l) as [[qs2 r] es] eqn:E; cbn [snd] in Hin.
    + apply elem_of_cons in Hin as [->|Hin]; [exists a; split; [left|done]|].
      destruct (IH qs1) as (a' & Ha & H'); [by rewrite E; exists ev|]. exists a'. split; [by right|done].
    + destruct (IH qs1) as (a' & Ha & H'); [by rewrite E; exists ev|]. exists a'. split; [by right|done].
Qed.

(** When ids are distinct, the alerts of a hit are left as fired. *)
Lemma check_all_fired prices clk qs l i :
  NoDup (id <$> l) -> (exists ev, ev ∈ snd (check_all sha256 prices clk qs l) /\ alert_id ev = i) ->
  Forall (fun a' => id a' = i -> last_fired_at a' = Some (clk 0%nat)) (snd (fst (check_all sha256 prices clk qs l))).
Proof.
  revert qs; induction l as [|a l IH]; intros qs Hn (ev & Hin & Hid); [constructor|]. cbn [fmap list_fmap] in Hn.
  apply NoDup_cons in Hn as [Hna Hn]. pose proof (check_all_hit prices clk) as Hhit. pose proof (check_all_alerts prices clk) as Hal.
  assert (forall a', a' ∈ l -> id a' <> id a) as Hother.
  { intros a' Ha' E. apply Hna. rewrite <- E. by apply list_elem_of_fmap_2. }
  cbn [check_all] in *. unfold check_alert in *. destruct (negb (enabled a) || _).
  - specialize (IH qs Hn). specialize (Hhit qs l i). specialize (Hal qs l). destruct (check_all _ _ _ qs l) as [[qs2 r] es]. cbn [fst snd] in *.
    destruct Hhit as (a' & Ha & Hi & _); [by exists ev|]. constructor; [intros E; by destruct (Hother a' Ha); congruence|]. apply IH. by exists ev.
  - cbv zeta in *. destruct (quoteFor _ _ _ _ _ _) as [q qs1]. specialize (IH qs1 Hn). specialize (Hhit qs1 l i). specialize (Hal qs1 l).
    destruct (evaluate a q) as [obs []]; destruct (check_all _ _ _ qs1 l) as [[qs2 r] es]; cbn [fst snd] in *.
    + constructor; [done|]. apply elem_of_cons in Hin as [->|Hin]; [|apply IH; by exists ev]. cbn in Hid.
      apply Forall_lookup_2. intros k a' Hk Hi. destruct (Forall2_lookup_r _ _ _ _ _ Hal Hk) as (a0 & Ha0 & Hor).
      exfalso. apply (Hother a0); [by eapply list_elem_of_lookup_2|]. rewrite Hid. by destruct Hor as [<-| ->].
    + destruct Hhit as (a' & Ha & Hi & _); [by exists ev|]. constructor; [intros E; by destruct (Hother a' Ha); congruence|]. apply IH. by exists ev.
Qed.

Lemma num_lt_int_mono x y n : x <= y -> num_lt (int x) n = false -> num_lt (int y) n = false.
Proof.
  intros Hle. destruct n as [|[]|q]; try done. simpl. rewrite !negb_false_iff, !QArith_base.Qle_bool_iff. intros Hq.
  eapply QArith_base.Qle_trans; [exact Hq|]. by rewrite <- QArith_base.Zle_Qle.
Qed.

(** Between two fires of an alert, whatever happens in between, its cooldown
    passes, as long as the cooldown is not edited. *)
Theorem alert_cooldown t owner a prices clk evs prices' dry clk' :
  let o := normalizeOwnerId owner in
  let '(r, w) := check_tx sha256 prices false owner clk t in
  NoDup (id <$> alerts (bucketFor t o)) -> a ∈ alerts (bucketFor t o) -> (exists e, e ∈ hits r /\ alert_id e = id a) ->
  Forall (spares (id a) (clk 0%nat)) evs ->
  (exists e, e ∈ hits (fst (check_tx sha256 prices' dry owner clk' (run_all evs (default t w)))) /\ alert_id e = id a) ->
  num_lt (int (clk' 0%nat - clk 0%nat)) (hours (cooldown_hours a)) = false.
Proof.
  intros o. destruct (check_tx _ _ _ _ _ t) as [r w] eqn:Et. intros Hn Ha Hhit Hs Hhit'. unfold check_tx in Et. cbv zeta in Et. fold o in Et.
  pose proof (check_all_fired prices clk [] (alerts (bucketFor t o)) (id a) Hn) as Hf. pose proof (check_all_alerts prices clk [] (alerts (bucketFor t o))) as Hal.
  destruct (check_all _ _ _ _ _) as [[qs l] es]. injection Et as <- <-. cbn [fst snd hits] in *. specialize (Hf Hhit).
  rewrite bool_decide_true in Hhit' by (destruct Hhit as (e & He & _); by intros ->; apply elem_of_nil in He). cbn [andb negb default] in Hhit'.
  set (t1 := put o _ t) in Hhit'. change (Datatypes.id t1) with t1 in Hhit'.
  assert (from_option (rests (id a) (cooldown_hours a) (clk 0%nat)) True (assoc o t1)) as Hr.
  { subst t1. rewrite assoc_put_eq. cbn. apply Forall_lookup_2. intros k a' Hk Hi. destruct (Forall2_lookup_r _ _ _ _ _ Hal Hk) as (a0 & Ha0 & Hor).
    assert (a0 = a) as ->.
    { apply list_elem_of_lookup in Ha as [m Hm]. assert (id a0 = id a) as E by (destruct Hor as [<-| ->]; done).
      assert (k = m) as ->; [|congruence]. eapply (NoDup_lookup _ k m (id a) Hn); rewrite list_lookup_fmap; [by rewrite Ha0; simpl; rewrite E|by rewrite Hm]. }
    split; [by destruct Hor as [->| ->]|]. exists (clk 0%nat). split; [|done]. exact (Forall_lookup_1 _ _ _ _ Hf Hk Hi). }
  apply (rests_run_all _ _ _ _ evs) in Hr; [|done]. unfold check_tx in Hhit'. cbv zeta in Hhit'. fold o in Hhit'.
  destruct (check_all _ _ _ _ (alerts (bucketFor (run_all evs t1) o))) as [[qs2 l2] es2] eqn:E2. cbn [fst hits] in Hhit'.
  destruct (check_all_hit prices' clk' [] (alerts (bucketFor (run_all evs t1) o)) (id a)) as (a2 & Ha2 & Hi2 & Hc2); [by rewrite E2|].
  unfold bucketFor in Ha2. destruct (assoc o (run_all evs t1)) as [b2|]; [|by apply elem_of_nil in Ha2]. cbn in Hr, Ha2.
  unfold rests in Hr. rewrite Forall_forall in Hr. destruct (Hr a2 Ha2 Hi2) as (Hcd & l2' & Hl2 & Hle).
  unfold cooled in Hc2. rewrite Hl2, Hcd in Hc2. apply negb_true_iff in Hc2. eapply num_lt_int_mono; [|exact Hc2]. lia.
Qed.
End Histories.

(** * Witnesses *)

Section Demo.
(** Arithmetic without rounding. *)
Definition demo_op (f : QArith_base.Q -> QArith_base.Q -> QArith_base.Q) (a b : num) : num := match a, b with Fin p, Fin q => Fin (f p q) | _, _ => NaN end.
#[local] Instance demo_floats : FloatOps := {|
  fadd := demo_op QArith_base.Qplus; fsub := demo_op QArith_base.Qminus; fmul := demo_op QArith_base.Qmult; fdiv := demo_op QArith_base.Qdiv;
  toFixed _ n := n |}.
Definition demo_nan (j : json) : num := NaN.
Definition demo_sha (s : string) : list Z := [].
Definition demo_at (t : Z) : clock := fun _ => t.
Definition demo_input (tick c : string) (v : Z) : AlertInput :=
  {| in_ticker := Some (JStr tick); in_condition := Some (JStr c); in_value := Some (JNum (int v)); in_note := None;
     in_cooldown_hours := Some (JNum (int 2)); in_enabled := None |}.
Definition demo_evs : list event :=
  [Create (demo_input " aapl" "price_above" 100) (Some "k1") "a1" 1000; Create (demo_input "AAPL" "pct_change_above" 0) (Some "k1") "a2" 2000;
   Create (demo_input "nvda" "price_below" 50) None "a3" 3000].
Definition demo_tenants : tenants := run_all demo_nan demo_nan demo_sha demo_evs [].

(** The reference price of a percent alert is the target of the price alert on
    the ticker that comes before it: a quote that did not move, 120 above the
    target 100, counts as a gain. Alone, the same alert does not fire. *)
Lemma percent_reference_is_another_target :
  (alert_id <$> hits (fst (check_tx demo_sha [("AAPL", int 120)] true (Some "k1") (demo_at 5000) demo_tenants))) = ["a1"; "a2"] /\
  (alert_id <$> hits (fst (check_tx demo_sha [("AAPL", int 120)] true (Some "k1") (demo_at 5000)
     (run_all demo_nan demo_nan demo_sha [Delete "a1" (Some "k1")] demo_tenants)))) = [].
Proof. vm_compute. done. Qed.

Lemma alerts_well_formed_witness : exists b, assoc "k1" demo_tenants = Some b /\ bucket_ok b.
Proof.
  destruct (assoc "k1" demo_tenants) as [b|] eqn:E; [|vm_compute in E; discriminate].
  exists b. split; [done|]. exact (alerts_well_formed demo_nan demo_nan demo_sha demo_evs "k1" b E).
Defined.

Definition demo_alert : Alert :=
  {| id := "a1"; ticker := "AAPL"; condition := price_above; value := int 100; note := ""; cooldown_hours := int 2; enabled := true;
     last_fired_at := None; created_at := 1000 |}.

Lemma alert_cooldown_witness :
  let w := snd (check_tx demo_sha [("AAPL", int 120)] false (Some "k1") (demo_at 5000) demo_tenants) in
  (exists e, e ∈ hits (fst (check_tx demo_sha [("AAPL", int 130)] false (Some "k1") (demo_at 7205000)
     (run_all demo_nan demo_nan demo_sha [Enable "a1" false (Some "k1"); Enable "a1" true (Some "k1")] (default demo_tenants w)))) /\ alert_id e = "a1") /\
  num_lt (int (7205000 - 5000)) (hours (int 2)) = false.
Proof.
  assert (exists e, e ∈ hits (fst (check_tx demo_sha [("AAPL", int 130)] false (Some "k1") (demo_at 7205000)
     (run_all demo_nan demo_nan demo_sha [Enable "a1" false (Some "k1"); Enable "a1" true (Some "k1")]
       (default demo_tenants (snd (check_tx demo_sha [("AAPL", int 120)] false (Some "k1") (demo_at 5000) demo_tenants)))))) /\ alert_id e = "a1") as Hh.
  { eexists (fire demo_alert (int 130) 7205000). split; [|reflexivity]. apply (bool_decide_unpack _). vm_compute. exact I. }
  split; [exact Hh|].
  pose proof (alert_cooldown demo_nan demo_nan demo_sha demo_tenants (Some "k1") demo_alert [("AAPL", int 120)] (demo_at 5000)
    [Enable "a1" false (Some "k1"); Enable "a1" true (Some "k1")] [("AAPL", int 130)] false (demo_at 7205000)) as Hx.
  cbv zeta in Hx. destruct (check_tx _ [("AAPL", int 120)] _ _ _ _) as [r w] eqn:E. apply Hx; [| | | |exact Hh].
  - apply (bool_decide_unpack _). vm_compute. exact I.
  - apply (bool_decide_unpack _). vm_compute. exact I.
  - exists (fire demo_alert (int 120) 5000). split; [|reflexivity].
    replace r with (fst (check_tx demo_sha [("AAPL", int 120)] false (Some "k1") (demo_at 5000) demo_tenants)) by (by rewrite E).
    apply (bool_decide_unpack _). vm_compute. exact I.
  - by repeat constructor.
Defined.
End Demo.
