(* ===== verification/Watchlist.v ===== *)
(** The tracked tickers: [web/lib/watchlistStore.ts], and the check of their
    targets against the saved runs, [app/api/watchlist/check/route.ts]. Reading
    numbers from text, collation and floating-point rounding are parameters. The
    activity feed is left out. *)
From S2P Require Import Prelude JsNum JsDate IsoTime Json Store Ticker Runs.

Definition MAX_TICKERS : Z := 100.

Inductive Side := above_high | below_low.
#[export] Instance Side_eq_dec : EqDecision Side.
Proof. solve_decision. Defined.

Record Cross := { side : Side; price : num; at_ : Z }.

Record WatchlistEntry := {
  ticker : string; added_at : Z; note : option string; target_high : option num; target_low : option num; last_cross : option Cross }.

#[export] Instance Cross_eq_dec : EqDecision Cross.
Proof. solve_decision. Defined.
#[export] Instance WatchlistEntry_eq_dec : EqDecision WatchlistEntry.
Proof. solve_decision. Defined.

Abbreviation entries := (list WatchlistEntry).

(** A row of the file; older rows lack the later fields. *)
Record RawEntry := {
  w_ticker : string; w_added_at : Z; w_note : option string; w_target_high : jval; w_target_low : jval; w_last_cross : option Cross }.

Definition number_or_null (v : jval) : option num := match v with Some (JNum n) => Some n | _ => None end.

Definition migrate (e : RawEntry) : WatchlistEntry :=
  {| ticker := w_ticker e; added_at := w_added_at e; note := w_note e; target_high := number_or_null (w_target_high e);
     target_low := number_or_null (w_target_low e); last_cross := w_last_cross e |}.

Definition raw_entry (e : WatchlistEntry) : RawEntry :=
  {| w_ticker := ticker e; w_added_at := added_at e; w_note := note e; w_target_high := Some (jopt JNum (target_high e));
     w_target_low := Some (jopt JNum (target_low e)); w_last_cross := last_cross e |}.

Lemma migrate_raw e : migrate (raw_entry e) = e.
Proof. destruct e as [? ? ? [] [] ?]; done. Qed.

#[export] Program Instance entries_persisted : Persisted entries := {|
  raw := list RawEntry; encode s := raw_entry <$> s; decode r := migrate <$> r; absent := []; storable _ := True |}.
Next Obligation. intros s _. rewrite <- list_fmap_compose. apply fmap_id_on. intros e _. apply migrate_raw. Qed.

Section Watchlist.
Context `{FloatOps} (parseFloat_of : json -> num).

(** [Math.round]. *)
Definition math_round (n : num) : num := match n with Fin q => int (Qround.Qfloor (QArith_base.Qplus q (QArith_base.Qmake 1 2))) | n => n end.

Definition normalizePrice (v : jval) : option num :=
  match v with
  | None | Some JNull | Some (JStr "") => None
  | Some j =>
      let n := match j with JNum n => n | _ => parseFloat_of j end in
      if negb (is_finite n) then None
      else if num_le n (int 0) || num_lt (int 1000000) n then None
      else Some (fdiv (math_round (fmul n (int 1000000))) (int 1000000))
  end.

Definition normalizeNote (v : jval) : option string :=
  match v with Some (JStr s) => let t := trim s in if truthy t then Some (str_take 200 t) else None | _ => None end.
End Watchlist.

Definition listWatchlist (f : file entries) : entries := read_file f.

Definition find_entry (t : string) (s : entries) : option (nat * WatchlistEntry) := list_find (fun e => ticker e = t) s.

Definition with_targets (hi lo : option num) (e : WatchlistEntry) : WatchlistEntry :=
  {| ticker := ticker e; added_at := added_at e; note := note e; target_high := hi; target_low := lo; last_cross := None |}.
Definition with_cross (c : option Cross) (e : WatchlistEntry) : WatchlistEntry :=
  {| ticker := ticker e; added_at := added_at e; note := note e; target_high := target_high e; target_low := target_low e; last_cross := c |}.
Definition with_note (n : option string) (e : WatchlistEntry) : WatchlistEntry :=
  {| ticker := ticker e; added_at := added_at e; note := n; target_high := target_high e; target_low := target_low e; last_cross := last_cross e |}.

Definition new_entry (t : string) (n : option string) (now : Z) : WatchlistEntry :=
  {| ticker := t; added_at := now; note := n; target_high := None; target_low := None; last_cross := None |}.

Inductive WatchError := low_above_high | invalid_ticker | limit_reached | bad_list.

(** Change the entry of a ticker; [None]: it has none. *)
Definition on_entry (t : string) (f : WatchlistEntry -> WatchlistEntry) : transaction entries (option WatchlistEntry) := fun s =>
  match normalizeTicker (Some (JStr t)) with
  | None => (None, None)
  | Some t => match find_entry t s with None => (None, None) | Some (n, e) => (Some (f e), Some (<[n := f e]> s)) end
  end.

(** The low target does not lie below the high one. *)
Definition crossed_targets (hi lo : option num) : bool := match hi, lo with Some h, Some l => num_le h l | _, _ => false end.

Definition targets_tx (t : string) (hi lo : option num) : transaction entries (result (option WatchlistEntry) WatchError) := fun s =>
  match normalizeTicker (Some (JStr t)) with
  | None => (Ok None, None)
  | Some t => match find_entry t s with
              | None => (Ok None, None)
              | Some (n, e) => if crossed_targets hi lo then (Err low_above_high, None)
                               else (Ok (Some (with_targets hi lo e)), Some (<[n := with_targets hi lo e]> s))
              end
  end.

Definition setTargets t hi lo (f : file entries) := on_file (targets_tx t hi lo) f.
Definition recordCross t (c : option Cross) (f : file entries) := on_file (on_entry t (with_cross c)) f.
Definition updateNote t (n : option string) (f : file entries) := on_file (on_entry t (with_note n)) f.

Definition add_tx (t : string) (n : option string) (now : Z) : transaction entries (result WatchlistEntry WatchError) := fun s =>
  match normalizeTicker (Some (JStr t)) with
  | None => (Err invalid_ticker, None)
  | Some t =>
      if len s >=? MAX_TICKERS then (Err limit_reached, None) else
      match find_entry t s with
      | Some (i, e) => let e' := match n with Some _ => with_note n e | None => e end in (Ok e', Some (<[i := e']> s))
      | None => let e := new_entry t n now in (Ok e, Some (e :: s))
      end
  end.

Definition addTicker t n now (f : file entries) := on_file (add_tx t n now) f.

(** ** Bulk operations *)

(** [split(/[\s,;]+/)]; the empty pieces are dropped by the callers. *)
Definition separator (c : Ascii.ascii) : bool := is_space c || Ascii.eqb c ","%char || Ascii.eqb c ";"%char.
Fixpoint pieces (cur s : string) : list string :=
  match s with
  | "" => [cur]
  | String c r => if separator c then cur :: pieces "" r else pieces (cur +:+ String c "") r
  end.

Definition tokens_of (raw_ : jval) : list string :=
  match raw_ with
  | Some (JArr l) => flat_map (pieces "") (strings_of l)
  | Some (JStr s) => pieces "" s
  | _ => []
  end.

(** [seen] and [tickers] hold the same symbols. *)
Fixpoint parse_tokens (ts tickers bad : list string) : list string * list string :=
  match ts with
  | [] => (tickers, bad)
  | tok :: r =>
      let s := trim tok in
      if negb (truthy s) then parse_tokens r tickers bad else
      match normalizeTicker (Some (JStr s)) with
      | None => parse_tokens r tickers (if bool_decide (s ∈ bad) then bad else bad ++ [s])
      | Some t => parse_tokens r (if bool_decide (t ∈ tickers) then tickers else tickers ++ [t]) bad
      end
  end.

Definition parseBulkTickers (raw_ : jval) : list string * list string := parse_tokens (tokens_of raw_) [] [].

Record BulkAddResult := { added : entries; skipped_existing : list string; skipped_limit : list string; a_invalid : list string }.

(** The loop; [present] are the symbols of [s]. The clock is read once for every
    entry that is added. *)
Fixpoint bulk_add (now : nat -> Z) (ts : list string) (s : entries) (r : BulkAddResult) : entries * BulkAddResult :=
  match ts with
  | [] => (s, r)
  | t :: ts =>
      if bool_decide (t ∈ ticker <$> s) then
        bulk_add now ts s {| added := added r; skipped_existing := skipped_existing r ++ [t]; skipped_limit := skipped_limit r; a_invalid := a_invalid r |}
      else if len s >=? MAX_TICKERS then
        bulk_add now ts s {| added := added r; skipped_existing := skipped_existing r; skipped_limit := skipped_limit r ++ [t]; a_invalid := a_invalid r |}
      else
        let e := new_entry t None (now (length (added r))) in
        bulk_add now ts (e :: s) {| added := added r ++ [e]; skipped_existing := skipped_existing r; skipped_limit := skipped_limit r; a_invalid := a_invalid r |}
  end.

Definition bulk_add_tx (raw_ : jval) (clk : clock) : transaction entries BulkAddResult := fun s =>
  let '(ts, bad) := parseBulkTickers raw_ in
  let '(s', r) := bulk_add clk ts s {| added := []; skipped_existing := []; skipped_limit := []; a_invalid := bad |} in
  (r, if 0 <? len (added r) then Some s' else None).

Definition addTickersBulk raw_ clk (f : file entries) := on_file (bulk_add_tx raw_ clk) f.

Definition remove_tx (t : string) : transaction entries bool := fun s =>
  match normalizeTicker (Some (JStr t)) with
  | None => (false, None)
  | Some t => let s' := filter (fun e => ticker e <> t) s in if len s' =? len s then (false, None) else (true, Some s')
  end.

Definition removeTicker t (f : file entries) := on_file (remove_tx t) f.

Record BulkRemoveResult := { removed : list string; missing : list string; r_invalid : list string }.

Definition remove_items (raw_ : jval) : option (list string) :=
  match raw_ with
  | Some (JArr l) => Some ((fun j => match j with JStr s => s | _ => "" end) <$> l)
  | Some (JStr s) => Some (pieces "" s)
  | _ => None
  end.

Fixpoint remove_targets (items targets bad : list string) : list string * list string :=
  match items with
  | [] => (targets, bad)
  | item :: r =>
      if negb (truthy item) || negb (truthy (trim item)) then remove_targets r targets bad else
      match normalizeTicker (Some (JStr item)) with
      | None => remove_targets r targets (bad ++ [str_take 32 (trim item)])
      | Some t => remove_targets r (if bool_decide (t ∈ targets) then targets else targets ++ [t]) bad
      end
  end.

Definition bulk_remove_tx (raw_ : jval) : transaction entries (result BulkRemoveResult WatchError) := fun s =>
  match remove_items raw_ with
  | None => (Err bad_list, None)
  | Some items =>
      let '(ts, bad) := remove_targets items [] [] in
      let gone := filter (fun t => t ∈ ticker <$> s) ts in
      (Ok {| removed := gone; missing := filter (fun t => t ∉ ticker <$> s) ts; r_invalid := bad |},
       if 0 <? len gone then Some (filter (fun e => ticker e ∉ gone) s) else None)
  end.

Definition removeTickersBulk raw_ (f : file entries) := on_file (bulk_remove_tx raw_) f.

(** ** The check against the saved runs *)

Section Check.
Context (localeCompare : string -> string -> Z) (other_dates : string -> option Z).

Inductive Status := no_targets | no_data | inside | crossed (s : Side).

(** The last close that is a finite number. *)
Definition last_finite (l : list num) : option num := last (filter (fun n => is_finite n = true) l).

Definition latest_query (t : string) : QueryOpts :=
  {| q := None; o_regime := None; o_ticker := Some t; o_tag := None; o_pinned := false; since := None; until := None;
     minConfidence := None; maxConfidence := None; minBars := None; maxBars := None; limit := Some 1; offset := Some 0; sort := None;
     ownerFilter := None |}.

(** The close; where and when it was taken is left out. *)
Definition latestCloseForTicker (t : string) (rs : file runs) : option num :=
  match page (queryRuns localeCompare other_dates (latest_query t) rs) with
  | run :: _ => last_finite (close (payload run))
  | [] => None
  end.

Definition classify (e : WatchlistEntry) (c : num) : Status :=
  match target_high e, target_low e with
  | None, None => no_targets
  | hi, lo =>
      if match hi with Some h => num_le h c | None => false end then crossed above_high
      else if match lo with Some l => num_le c l | None => false end then crossed below_low
      else inside
  end.

Record CheckRow := { r_ticker : string; status : Status; crossed_now : bool }.

(** The row of one entry, and the cross to record. *)
Definition check_entry (rs : file runs) (e : WatchlistEntry) : CheckRow * option (Side * num) :=
  match latestCloseForTicker (ticker e) rs with
  | None => ({| r_ticker := ticker e; status := match target_high e, target_low e with None, None => no_targets | _, _ => no_data end;
                crossed_now := false |}, None)
  | Some c =>
      match classify e c with
      | crossed sd =>
          let again := match last_cross e with Some x => bool_decide (side x = sd) | None => false end in
          ({| r_ticker := ticker e; status := crossed sd; crossed_now := negb again |}, if again then None else Some (sd, c))
      | st => ({| r_ticker := ticker e; status := st; crossed_now := false |}, None)
      end
  end.

(** [k] counts the crosses recorded so far: the clock is read for each. *)
Fixpoint check_rows (rs : file runs) (clk : clock) (k : nat) (es : entries) (f : file entries) : list CheckRow * file entries :=
  match es with
  | [] => ([], f)
  | e :: r =>
      let '(row, x) := check_entry rs e in
      let '(rows, f) :=
        match x with
        | Some (sd, c) => check_rows rs clk (S k) r (snd (recordCross (ticker e) (Some {| side := sd; price := c; at_ := clk k |}) f))
        | None => check_rows rs clk k r f
        end in
      (row :: rows, f)
  end.

Definition is_crossed (r : CheckRow) : bool := match status r with crossed _ => true | _ => false end.

(** The rows, and how many crossed now. *)
Definition GET (onlyAlerts : bool) (rs : file runs) (clk : clock) (f : file entries) : list CheckRow * Z * file entries :=
  let '(rows, f) := check_rows rs clk 0 (listWatchlist f) f in
  (if onlyAlerts then filter (fun r => is_crossed r = true) rows else rows, len (filter (fun r => crossed_now r = true) rows), f).
End Check.

(** * What holds of the list *)

Inductive event :=
| Add (t : string) (n : option string) (now : Z)
| Targets (t : string) (hi lo : option num)
| Record_ (t : string) (c : option Cross)
| Note (t : string) (n : option string)
| BulkAdd (raw_ : jval) (clk : clock)
| Remove (t : string)
| BulkRemove (raw_ : jval).

Definition run (e : event) : entries -> entries :=
  match e with
  | Add t n now => after (add_tx t n now)
  | Targets t hi lo => after (targets_tx t hi lo)
  | Record_ t c => after (on_entry t (with_cross c))
  | Note t n => after (on_entry t (with_note n))
  | BulkAdd r clk => after (bulk_add_tx r clk)
  | Remove t => after (remove_tx t)
  | BulkRemove r => after (bulk_remove_tx r)
  end.

Definition run_all (evs : list event) (s : entries) : entries := fold_left (fun s e => run e s) evs s.

Definition symbol (t : string) : Prop := TICKER_RE t = true.

Definition watch_ok (s : entries) : Prop :=
  NoDup (ticker <$> s) /\ len s <= MAX_TICKERS /\ Forall (fun e => symbol (ticker e) /\ crossed_targets (target_high e) (target_low e) = false) s.

Lemma watch_ok_insert s n e e' : watch_ok s -> s !! n = Some e -> ticker e' = ticker e ->
  crossed_targets (target_high e') (target_low e') = false -> watch_ok (<[n := e']> s).
Proof.
  intros (Hn & Hl & Hf) He Ht Hc. split_and!; [by rewrite (fmap_insert_same ticker s n e)|unfold len in *; by rewrite length_insert|].
  apply Forall_insert; [done|]. rewrite Ht. split; [exact (proj1 (Forall_lookup_1 _ _ _ _ Hf He))|done].
Qed.

Lemma watch_ok_filter s (P : WatchlistEntry -> Prop) `{!forall x, Decision (P x)} : watch_ok s -> watch_ok (filter P s).
Proof.
  intros (Hn & Hl & Hf). split_and!; [|unfold len in *; pose proof (length_filter P s); lia|by apply Forall_filter_keep].
  eapply sublist_NoDup; [exact Hn|]. apply fmap_sublist, sublist_filter.
Qed.

Lemma watch_ok_cons s t n now : watch_ok s -> symbol t -> t ∉ ticker <$> s -> len s < MAX_TICKERS -> watch_ok (new_entry t n now :: s).
Proof.
  intros (Hn & Hl & Hf) Ht Hi Hlen. split_and!; [by constructor|unfold len in *; simpl; lia|]. by constructor.
Qed.

Lemma on_entry_ok t f s : watch_ok s -> (forall e, ticker (f e) = ticker e /\ target_high (f e) = target_high e /\ target_low (f e) = target_low e) ->
  watch_ok (after (on_entry t f) s).
Proof.
  intros Hs Hf. unfold after, on_entry. destruct (normalizeTicker _) as [t'|]; [|done]. destruct (find_entry t' s) as [[n e]|] eqn:E; [|done].
  apply list_find_lookup in E as [Hn _]. destruct (Hf e) as (H1 & H2 & H3). eapply watch_ok_insert; [done|exact Hn|done|].
  rewrite H2, H3. destruct Hs as (_ & _ & HF). exact (proj2 (Forall_lookup_1 _ _ _ _ HF Hn)).
Qed.

Lemma bulk_add_ok clk ts s r : Forall symbol ts -> watch_ok s -> watch_ok (fst (bulk_add clk ts s r)).
Proof.
  intros Hts. revert s r; induction Hts as [|t ts Ht _ IH]; intros s r Hs; [done|]. cbn [bulk_add]. case_bool_decide as Hin; [by apply IH|].
  destruct (_ >=? _) eqn:E; [by apply IH|]. apply IH. apply watch_ok_cons; [done|done|done|lia].
Qed.

Lemma parse_tokens_ok ts tickers bad : Forall symbol tickers -> NoDup tickers ->
  Forall symbol (fst (parse_tokens ts tickers bad)) /\ NoDup (fst (parse_tokens ts tickers bad)).
Proof.
  revert tickers bad; induction ts as [|tok ts IH]; intros tickers bad Hf Hn; [done|]. cbn [parse_tokens]. cbv zeta.
  destruct (negb (truthy _)); [by apply IH|]. destruct (normalizeTicker _) as [t|] eqn:E; [|by apply IH].
  case_bool_decide as Hin; [by apply IH|]. apply IH.
  - apply Forall_app. split; [done|]. apply Forall_singleton. by eapply normalizeTicker_ok.
  - apply NoDup_app. split_and!; [done| |apply NoDup_singleton]. intros x Hx Hx'. apply list_elem_of_singleton in Hx' as ->. done.
Qed.

Lemma watch_run_ok e s : watch_ok s -> watch_ok (run e s).
Proof.
  intros Hs. destruct e as [t n now|t hi lo|t c|t n|r clk|t|r]; cbn [run]; [| |by apply on_entry_ok|by apply on_entry_ok|..]; unfold after.
  - unfold add_tx. destruct (normalizeTicker _) as [t'|] eqn:Et; [|done]. destruct (_ >=? _) eqn:El; [done|].
    destruct (find_entry t' s) as [[i e]|] eqn:E; cbn.
    + apply list_find_lookup in E as [Hi _]. pose proof Hs as (_ & _ & HF). pose proof (proj2 (Forall_lookup_1 _ _ _ _ HF Hi)).
      eapply watch_ok_insert; [done|exact Hi|by destruct n|by destruct n].
    + apply watch_ok_cons; [done|by eapply normalizeTicker_ok| |lia]. unfold find_entry in E. apply list_find_None in E.
      intros (x & Hx & Hin)%list_elem_of_fmap. rewrite Forall_forall in E. by eapply E.
  - unfold targets_tx. destruct (normalizeTicker _) as [t'|]; [|done]. destruct (find_entry t' s) as [[i e]|] eqn:E; [|done].
    destruct (crossed_targets hi lo) eqn:Ec; [done|]. apply list_find_lookup in E as [Hi _]. by eapply watch_ok_insert.
  - unfold bulk_add_tx, parseBulkTickers. destruct (parse_tokens_ok (tokens_of r) [] []) as [Hp _]; [constructor|constructor|].
    destruct (parse_tokens _ _ _) as [ts bad]. pose proof (bulk_add_ok clk ts s {| added := []; skipped_existing := []; skipped_limit := []; a_invalid := bad |} Hp Hs) as Hb.
    destruct (bulk_add _ _ _ _) as [s' res]. by destruct (0 <? _).
  - unfold remove_tx. destruct (normalizeTicker _) as [t'|]; [|done]. cbv zeta. destruct (_ =? _); [done|]. by apply watch_ok_filter.
  - unfold bulk_remove_tx. destruct (remove_items r) as [items|]; [|done]. destruct (remove_targets _ _ _) as [ts bad]. cbv zeta.
    destruct (0 <? _); [|done]. by apply watch_ok_filter.
Qed.

Lemma run_all_ok evs s : watch_ok s -> watch_ok (run_all evs s).
Proof. revert s; induction evs as [|e evs IH]; intros s Hs; [done|]. apply IH. by apply watch_run_ok. Qed.

Lemma watch_ok_empty : watch_ok [].
Proof. split_and!; [constructor|done|constructor]. Qed.

Lemma bulk_add_spec clk ts s r : NoDup ts ->
  let '(s', r') := bulk_add clk ts s r in
  exists new lim, added r' = added r ++ new /\ skipped_existing r' = skipped_existing r ++ filter (fun t => t ∈ ticker <$> s) ts /\
    skipped_limit r' = skipped_limit r ++ lim /\ s' = rev new ++ s /\ (ticker <$> new) ++ lim = filter (fun t => t ∉ ticker <$> s) ts /\
    (lim <> [] -> MAX_TICKERS <= len s') /\ (MAX_TICKERS <= len s -> new = []).
Proof.
  revert s r; induction ts as [|t ts IH]; intros s r Hn.
  { exists [], []. rewrite !app_nil_r. done. }
  apply NoDup_cons in Hn as [Ht Hn]. cbn [bulk_add]. rewrite !filter_cons. case_bool_decide as Hin.
  - rewrite (decide_True _ _ Hin), (decide_False (P := t ∉ ticker <$> s)) by tauto. set (r1 := Build_BulkAddResult _ _ _ _).
    specialize (IH s r1 Hn). destruct (bulk_add _ _ _ _) as [s' r']. destruct IH as (new & lim & H1 & H2 & H3 & H4).
    exists new, lim. split; [done|]. split; [rewrite H2; cbn; by rewrite <- app_assoc|done].
  - rewrite (decide_False _ _ Hin), (decide_True (P := t ∉ ticker <$> s)) by done. destruct (_ >=? _) eqn:El.
    + set (r1 := Build_BulkAddResult _ _ _ _). specialize (IH s r1 Hn). destruct (bulk_add _ _ _ _) as [s' r'].
      destruct IH as (new & lim & H1 & H2 & H3 & H4 & H5 & H6 & H7). assert (new = []) as -> by (apply H7; lia).
      exists [], (t :: lim). split_and!; try done; [rewrite H3; cbn; by rewrite <- app_assoc|by rewrite <- H5|]. intros _. rewrite H4. simpl. lia.
    + set (e := new_entry _ _ _). set (r1 := Build_BulkAddResult _ _ _ _). specialize (IH (e :: s) r1 Hn).
      destruct (bulk_add _ _ _ _) as [s' r']. destruct IH as (new & lim & H1 & H2 & H3 & H4 & H5 & H6 & H7).
      assert (forall x, x ∈ ts -> x ∈ ticker <$> e :: s <-> x ∈ ticker <$> s) as Hx.
      { intros x Hx. rewrite fmap_cons, elem_of_cons. split; [intros [->|]; done|auto]. }
      exists (e :: new), lim. split_and!.
      * rewrite H1. cbn. by rewrite <- app_assoc.
      * rewrite H2. cbn [skipped_existing r1]. f_equal. apply filter_ext. done.
      * done.
      * rewrite H4. simpl. by rewrite <- app_assoc.
      * cbn. f_equal. rewrite H5. apply filter_ext. intros x Hx'. by rewrite Hx.
      * done.
      * lia.
Qed.

(** A bulk import changes the list as it reports: whatever has been done to the
    list before, the symbols read from the input, each once, are split into the
    ones that were tracked already, the ones for which there was room, and the
    rest, which comes last and only when the list is full; the list keeps its
    entries behind the new ones, within its limit. *)
Theorem bulk_import_exact evs raw_ clk :
  let s := run_all evs [] in
  let '(r, w) := bulk_add_tx raw_ clk s in
  let wanted := fst (parseBulkTickers raw_) in
  let s' := default s w in
  NoDup wanted /\ watch_ok s' /\
  skipped_existing r = filter (fun t => t ∈ ticker <$> s) wanted /\
  (ticker <$> added r) ++ skipped_limit r = filter (fun t => t ∉ ticker <$> s) wanted /\
  s' = rev (added r) ++ s /\ (skipped_limit r <> [] -> len s' = MAX_TICKERS).
Proof.
  intros s. unfold bulk_add_tx, parseBulkTickers.
  destruct (parse_tokens_ok (tokens_of raw_) [] []) as [Hp Hnd]; [constructor|constructor|].
  destruct (parse_tokens _ _ _) as [ts bad]. cbn [fst] in *.
  assert (watch_ok s) as Hs by apply run_all_ok, watch_ok_empty.
  set (r0 := {| added := []; skipped_existing := []; skipped_limit := []; a_invalid := bad |}).
  pose proof (bulk_add_ok clk ts s r0 Hp Hs) as Hok. pose proof (bulk_add_spec clk ts s r0 Hnd) as Hspec.
  destruct (bulk_add _ _ _ _) as [s' r]. destruct Hspec as (new & lim & Ha & He & Hl & Hs' & Hf & Hfull & _). cbn in Ha, He, Hl, Hok.
  assert (default s (if 0 <? len (added r) then Some s' else None) = s') as ->.
  { rewrite Ha, Hs'. by destruct new. }
  rewrite Ha, He, Hl. split_and!; try done. intros Hne. specialize (Hfull Hne). destruct Hok as (_ & Hle & _). lia.
Qed.

(** * A cross is reported once *)

Section Settled.
Context (localeCompare : string -> string -> Z) (other_dates : string -> option Z) (rs : file runs).

Abbreviation check_ := (check_entry localeCompare other_dates rs).

(** The entry as the check leaves it. *)
Definition settled (e e' : WatchlistEntry) : Prop :=
  match snd (check_ e) with
  | None => e' = e
  | Some (sd, c) => exists t, e' = with_cross (Some {| side := sd; price := c; at_ := t |}) e
  end.

Lemma check_entry_quiet e row x : check_ e = (row, x) -> crossed_now row = bool_decide (is_Some x).
Proof.
  unfold check_entry. destruct (latestCloseForTicker _ _ _ _) as [c|]; [|by intros [= <- <-]]. destruct (classify e c); try by intros [= <- <-].
  cbv zeta. destruct (match last_cross e with Some _ => _ | None => _ end); by intros [= <- <-].
Qed.

Lemma settled_quiet e e' : settled e e' ->
  snd (check_ e') = None /\ status (fst (check_ e')) = status (fst (check_ e)) /\ r_ticker (fst (check_ e')) = r_ticker (fst (check_ e)).
Proof.
  unfold settled. destruct (snd (check_ e)) as [[sd c]|] eqn:E; [|by intros ->]. intros [t ->]. revert E. unfold check_entry, classify.
  cbn [ticker with_cross target_high target_low last_cross]. destruct (latestCloseForTicker _ _ _ _) as [c'|]; [|done].
  destruct (match target_high e with Some _ => _ | None => _ end) as [| | |sd'] eqn:Ec; try done. cbv zeta.
  destruct (match last_cross e with Some _ => _ | None => _ end); [done|]. cbn. intros [= <- <-]. by rewrite bool_decide_true.
Qed.

Lemma recordCross_read t c f n e : TICKER_RE t = true -> find_entry t (read_file f) = Some (n, e) ->
  read_file (snd (recordCross t c f)) = <[n := with_cross c e]> (read_file f).
Proof.
  intros Ht Hf. unfold recordCross. rewrite on_file_view by done. unfold after, on_entry. rewrite normalizeTicker_id by done. by rewrite Hf.
Qed.

Lemma find_entry_middle pre e r : NoDup (ticker <$> pre ++ e :: r) -> find_entry (ticker e) (pre ++ e :: r) = Some (length pre, e).
Proof.
  intros Hn. apply list_find_Some. split; [by rewrite lookup_app_r, Nat.sub_diag by lia|]. split; [done|]. intros j y Hy Hj Heq.
  rewrite lookup_app_l in Hy by done. rewrite fmap_app in Hn. apply NoDup_app in Hn as (_ & Hd & _).
  apply (Hd (ticker y)); [apply list_elem_of_fmap_2; by eapply list_elem_of_lookup_2|]. rewrite Heq. left.
Qed.

Lemma check_rows_settles clk k es pre f :
  read_file f = pre ++ es -> NoDup (ticker <$> pre ++ es) -> Forall (fun e => symbol (ticker e)) es ->
  let '(rows, f') := check_rows localeCompare other_dates rs clk k es f in
  rows = (fun e => fst (check_ e)) <$> es /\ exists es', read_file f' = pre ++ es' /\ Forall2 settled es es'.
Proof.
  intros Hf Hn Hs. revert k pre f Hf Hn; induction Hs as [|e es He _ IH]; intros k pre f Hf Hn; [cbn; split; [done|]; by exists []|].
  cbn [check_rows]. destruct (check_ e) as [row x] eqn:Ec. assert (settled e (match x with Some (sd, c) => with_cross (Some {| side := sd; price := c; at_ := clk k |}) e | None => e end)) as Hset.
  { unfold settled. rewrite Ec. cbn. destruct x as [[sd c]|]; [by eexists|done]. }
  assert (forall e', ticker e' = ticker e -> NoDup (ticker <$> (pre ++ [e']) ++ es)) as Hn'.
  { intros e' Ht. rewrite <- app_assoc. cbn. rewrite fmap_app, fmap_cons, Ht. by rewrite fmap_app, fmap_cons in Hn. }
  destruct x as [[sd c]|].
  - set (cr := {| side := sd; price := c; at_ := clk k |}) in *. specialize (IH (S k) (pre ++ [with_cross (Some cr) e]) (snd (recordCross (ticker e) (Some cr) f))).
    destruct (check_rows _ _ _ _ _ es _) as [rows f']. destruct IH as (Hr & es' & H1 & H2).
    + rewrite (recordCross_read (ticker e) _ f (length pre) e); [|done|rewrite Hf; by apply find_entry_middle].
      rewrite Hf, insert_app_r_alt, Nat.sub_diag by lia. cbn. by rewrite <- app_assoc.
    + by apply Hn'.
    + split; [rewrite fmap_cons, Ec; by f_equal|]. exists (with_cross (Some cr) e :: es'). split; [by rewrite H1, <- app_assoc|]. by constructor.
  - specialize (IH k (pre ++ [e]) f). destruct (check_rows _ _ _ _ _ es _) as [rows f']. destruct IH as (Hr & es' & H1 & H2).
    + by rewrite <- app_assoc.
    + by apply Hn'.
    + split; [rewrite fmap_cons, Ec; by f_equal|]. exists (e :: es'). split; [by rewrite H1, <- app_assoc|]. by constructor.
Qed.

Lemma check_rows_quiet clk k es f : Forall (fun e => snd (check_ e) = None) es ->
  check_rows localeCompare other_dates rs clk k es f = ((fun e => fst (check_ e)) <$> es, f).
Proof.
  intros Hq. revert k; induction Hq as [|e es He _ IH]; intros k; [done|]. cbn [check_rows]. destruct (check_ e) as [row x] eqn:Ec. cbn in He. subst x.
  rewrite IH. by rewrite fmap_cons, Ec.
Qed.
End Settled.

(** A target that is crossed is reported once: whatever has been done to the
    list, checking it again against the same runs reports no new cross, changes
    nothing, and finds every ticker in the state the first check found it in. *)
Theorem crosses_reported_once localeCompare other_dates evs rs clk clk' only :
  let '(rows, _, f) := GET localeCompare other_dates false rs clk (write_file (run_all evs [])) in
  let '(rows', fired, f') := GET localeCompare other_dates only rs clk' f in
  fired = 0 /\ f' = f /\ Forall (fun r => crossed_now r = false) rows' /\
  (only = false -> ((fun r => (r_ticker r, status r)) <$> rows') = ((fun r => (r_ticker r, status r)) <$> rows)).
Proof.
  set (s := run_all evs []). assert (watch_ok s) as (Hn & _ & Hs) by apply run_all_ok, watch_ok_empty.
  assert (read_file (write_file s) = s) as Hrd by by apply read_write.
  unfold GET at 1, listWatchlist. rewrite Hrd.
  pose proof (check_rows_settles localeCompare other_dates rs clk 0 s [] (write_file s) Hrd Hn) as Hc.
  destruct (check_rows _ _ _ _ _ s _) as [rows f]. destruct Hc as (-> & es & Hes & HF); [by eapply Forall_impl; [exact Hs|]; intros ? []|].
  cbn in Hes.
  assert (Forall (fun e => snd (check_entry localeCompare other_dates rs e) = None) es) as Hq.
  { apply Forall_lookup_2. intros k e' Hk. destruct (Forall2_lookup_r _ _ _ _ _ HF Hk) as (e & _ & He). by apply settled_quiet in He as [? _]. }
  unfold GET, listWatchlist. rewrite Hes, check_rows_quiet by done.
  assert (Forall (fun r => crossed_now r = false) ((fun e => fst (check_entry localeCompare other_dates rs e)) <$> es)) as Hnow.
  { apply Forall_fmap. eapply Forall_impl; [exact Hq|]. intros e He. change (crossed_now (fst (check_entry localeCompare other_dates rs e)) = false).
    rewrite (check_entry_quiet _ _ _ e _ _ (surjective_pairing _)). by rewrite He. }
  split_and!; [|done|by destruct only; [apply Forall_filter_keep|]|].
  - rewrite filter_none; [done|]. intros r Hr. rewrite Forall_forall in Hnow. by rewrite Hnow.
  - intros ->. rewrite <- !list_fmap_compose. clear -HF. induction HF as [|e e' s es He _ IH]; [done|]. rewrite !fmap_cons, IH. f_equal. cbn.
    destruct (settled_quiet _ _ _ _ _ He) as (_ & -> & ->). done.
Qed.

(** At the limit, a note on a ticker that is tracked already is refused. *)
Lemma note_refused_at_limit t n now s : TICKER_RE t = true -> len s = MAX_TICKERS -> add_tx t n now s = (Err limit_reached, None).
Proof. intros Ht Hl. unfold add_tx. rewrite normalizeTicker_id by done. by rewrite Hl. Qed.
