(* ===== verification/Browser.v ===== *)
(** What browsers are told: the CORS policy [web/lib/corsPolicy.ts], the content
    security policy [cspPolicyStore.ts], and the edge middleware
    [web/middleware.ts] that puts both, and a request id, on every request.
    Reading a number from text is a parameter; a fresh id is an argument. *)
From S2P Require Import Prelude JsNum JsDate IsoTime Json Store.

Definition is_digit (c : Ascii.ascii) : bool := (48 <=? code c) && (code c <=? 57).
Definition is_letter (c : Ascii.ascii) : bool := ((65 <=? code c) && (code c <=? 90)) || ((97 <=? code c) && (code c <=? 122)).
Definition in_set (cs : string) (c : Ascii.ascii) : bool := str_includes (String c "") cs.

(** * [corsPolicy.ts] *)

Inductive CorsReason := loopback_default | allowlist | denied | no_origin.
Record CorsDecision := { allowOrigin : option string; reason : CorsReason }.
Record CorsPolicy := { production : bool; origins : list string; loopback_allowed : bool }.

Definition host_char (c : Ascii.ascii) : bool := is_letter c || is_digit c || in_set ".-" c.
Definition ipv6_char (c : Ascii.ascii) : bool := in_set "0123456789abcdefABCDEF:" c.

(** [(?::\d{1,5})?$] *)
Definition port_tail (s : string) : bool :=
  match s with "" => true | String c r => Ascii.eqb c ":"%char && truthy r && (str_len r <=? 5) && str_forall is_digit r end.

Definition after_scheme (s : string) : option string :=
  if starts_with "http://" s then Some (str_drop 7 s) else if starts_with "https://" s then Some (str_drop 8 s) else None.

Definition ORIGIN_RE (s : string) : bool :=
  match after_scheme s with
  | Some (String "["%char r) => let '(h, rest) := str_span ipv6_char r in
                               truthy h && match rest with String "]"%char rest => port_tail rest | _ => false end
  | Some r => let '(h, rest) := str_span host_char r in truthy h && port_tail rest
  | None => false
  end.

Definition LOOPBACK_RE (s : string) : bool :=
  String.eqb (to_lower (str_take 7 s)) "http://" &&
  ((String.eqb (to_lower (str_take 9 (str_drop 7 s))) "localhost" && port_tail (str_drop 16 s)) ||
   (String.eqb (str_take 9 (str_drop 7 s)) "127.0.0.1" && port_tail (str_drop 16 s))).

Fixpoint origin_list (out parts : list string) : list string :=
  match parts with
  | [] => out
  | part :: r =>
      let s := trim part in
      if negb (truthy s) || (str_len s >? 253) || negb (ORIGIN_RE s) || bool_decide (s ∈ out) then origin_list out r else origin_list (out ++ [s]) r
  end.

Definition parseOriginList (raw_ : option string) : list string :=
  match raw_ with Some s => if truthy s then origin_list [] (split "," s) else [] | None => [] end.

(** The variables of the environment the policies are read from. *)
Record Env := {
  ADMIN_KEY : option string; CORS_ORIGINS : option string; HEADERS_ENABLED : option string; HSTS_MAX_AGE : option string;
  CSP_MODE : option string; CSP_EXTRA_HOSTS : option string; CSP_REPORT_DISABLED : option string }.

Definition getPolicy (env : Env) : CorsPolicy :=
  let prod := truthy (default "" (ADMIN_KEY env)) in
  let os := parseOriginList (CORS_ORIGINS env) in
  {| production := prod; origins := os; loopback_allowed := negb prod && (length os =? 0)%nat |}.

Definition decide_origin (origin : option string) (p : CorsPolicy) : CorsDecision :=
  match origin with
  | None => {| allowOrigin := None; reason := no_origin |}
  | Some raw_ =>
      let o := trim raw_ in
      if negb (truthy o) then {| allowOrigin := None; reason := no_origin |}
      else if str_len o >? 253 then {| allowOrigin := None; reason := denied |}
      else if negb (ORIGIN_RE o) then {| allowOrigin := None; reason := denied |}
      else if bool_decide (o ∈ origins p) then {| allowOrigin := Some o; reason := allowlist |}
      else if loopback_allowed p && LOOPBACK_RE o then {| allowOrigin := Some o; reason := loopback_default |}
      else {| allowOrigin := None; reason := denied |}
  end.

Definition ALLOW_HEADERS : string :=
  "Authorization, Content-Type, X-Request-Id, X-Correlation-Id, X-MFA-Code, X-MFA-Recovery-Code, Idempotency-Key".
Definition ALLOW_METHODS : string := "GET, POST, PUT, DELETE, OPTIONS".
Definition EXPOSE_HEADERS : string := "X-Request-Id, X-RateLimit-Limit, X-RateLimit-Remaining, X-RateLimit-Reset, Retry-After".
Definition MAX_AGE : string := "600".

(** Headers by their lower-case names. *)
Abbreviation headers := (gmap string string).

(** The names of [Vary], and more of them. *)
Definition vary_with (more : list string) (h : headers) : headers :=
  let parts := filter (fun s => truthy s = true) (trim <$> split "," (default "" (h !! "vary"))) in
  <["vary" := join ", " (dedup (parts ++ more))]> h.

Definition applyCors (d : CorsDecision) (isPreflight : bool) (h : headers) : headers :=
  let h := vary_with ("Origin" :: if isPreflight then ["Access-Control-Request-Method"; "Access-Control-Request-Headers"] else []) h in
  match allowOrigin d with
  | None => h
  | Some o =>
      if negb (truthy o) then h else
      let h := <["access-control-expose-headers" := EXPOSE_HEADERS]> (<["access-control-allow-credentials" := "true"]> (<["access-control-allow-origin" := o]> h)) in
      if isPreflight then
        <["access-control-max-age" := MAX_AGE]> (<["access-control-allow-headers" := ALLOW_HEADERS]> (<["access-control-allow-methods" := ALLOW_METHODS]> h))
      else h
  end.

(** * [cspPolicyStore.ts] *)

Inductive CspMode := off | report | enforce.
#[export] Instance CspMode_eq_dec : EqDecision CspMode.
Proof. solve_decision. Defined.

Record CspPolicy := { mode : CspMode; extra_hosts : list string; reporting_enabled : bool; updated_at : option Z; updated_by : option string }.

Definition MAX_HOSTS : Z := 32.
Definition MAX_HOST_LEN : Z := 200.

Definition hash_char (c : Ascii.ascii) : bool := is_letter c || is_digit c || in_set "+/=" c.
Definition path_char (c : Ascii.ascii) : bool := is_letter c || is_digit c || in_set "._~/-" c.

(** What stands between the quotes of a keyword. *)
Definition keyword (s : string) : bool :=
  let l := to_lower s in
  bool_decide (l ∈ ["self"; "none"; "unsafe-inline"; "unsafe-eval"; "strict-dynamic"]) ||
  (bool_decide (str_take 7 l ∈ ["sha256-"; "sha384-"; "sha512-"]) && truthy (str_drop 7 s) && str_forall hash_char (str_drop 7 s)).

Definition quoted (s : string) : bool :=
  match s with String "'"%char r => ends_with_char "'"%char r && keyword (drop_last r) | _ => false end.

(** [(?:\*\.)?[a-z0-9.-]+(?::\d+)?], then nothing, or a path where one may stand. *)
Definition host_source (path : bool) (s : string) : bool :=
  let s := if starts_with "*." s then str_drop 2 s else s in
  let '(h, rest) := str_span host_char s in
  let ending r := match r with "" => true | String c p => path && Ascii.eqb c "/"%char && str_forall path_char p end in
  truthy h &&
  match rest with
  | String ":"%char r => let '(ds, rest) := str_span is_digit r in truthy ds && ending rest
  | _ => ending rest
  end.

Definition scheme_source (s : string) : bool :=
  let '(sch, rest) := str_span is_letter s in
  bool_decide (to_lower sch ∈ ["data"; "http"; "https"; "ws"; "wss"]) &&
  match rest with
  | String ":"%char "" => true
  | String ":"%char r => starts_with "//" r && host_source true (str_drop 2 r)
  | _ => false
  end.

Definition SRC_RE (s : string) : bool := quoted s || scheme_source s || host_source false s.

Inductive CspError := bad_mode | bad_type | bad_host | too_many.

(** [seen] holds the lower-case forms of [out]. *)
Fixpoint canon_hosts (out : list string) (input : list json) : result (list string) CspError :=
  match input with
  | [] => Ok out
  | JStr raw_ :: r =>
      let v := trim raw_ in
      if negb (truthy v) then canon_hosts out r
      else if str_len v >? MAX_HOST_LEN then Err bad_host
      else if negb (SRC_RE v) then Err bad_host
      else if bool_decide (to_lower v ∈ to_lower <$> out) then canon_hosts out r
      else let out := out ++ [v] in if len out >? MAX_HOSTS then Err too_many else canon_hosts out r
  | _ :: _ => Err bad_type
  end.

Definition canonicalizeHosts (input : jval) : result (list string) CspError :=
  match input with Some (JArr l) => canon_hosts [] l | _ => Err bad_type end.

Definition mode_of_env (env : Env) : CspMode :=
  let raw_ := to_lower (default "" (CSP_MODE env)) in
  if String.eqb raw_ "enforce" then enforce else if String.eqb raw_ "report" || String.eqb raw_ "report-only" then report else off.

(** [split(/[\s,]+/)] without the empty pieces. *)
Fixpoint words (cur s : string) : list string :=
  match s with
  | "" => if truthy cur then [cur] else []
  | String c r => if is_space c || Ascii.eqb c ","%char then (if truthy cur then [cur] else []) ++ words "" r else words (cur +:+ String c "") r
  end.

(** The hosts of the environment are not defaulted: a bad one throws. *)
Definition defaultPolicy (env : Env) : result CspPolicy CspError :=
  result_bind (canonicalizeHosts (Some (JArr (JStr <$> words "" (default "" (CSP_EXTRA_HOSTS env)))))) (fun hs =>
  Ok {| mode := mode_of_env env; extra_hosts := hs; reporting_enabled := true; updated_at := None; updated_by := None |}).

Definition mode_text (m : CspMode) : string := match m with off => "off" | report => "report" | enforce => "enforce" end.

(** What the file holds: the object that was stored. *)
Definition encode_policy (p : CspPolicy) : json :=
  JObj [("mode", JStr (mode_text (mode p))); ("extra_hosts", JArr (JStr <$> extra_hosts p)); ("reporting_enabled", JBool (reporting_enabled p));
        ("updated_at", jopt (fun t => JStr (toISOString t)) (updated_at p)); ("updated_by", jopt JStr (updated_by p))].

Definition read_policy (j : json) : CspPolicy :=
  {| mode := match field "mode" j with Some (JStr "enforce") => enforce | Some (JStr "report") => report | _ => off end;
     extra_hosts := match field "extra_hosts" j with
                    | Some (JArr l) => match canonicalizeHosts (Some (JArr l)) with Ok hs => hs | Err _ => [] end
                    | _ => []
                    end;
     reporting_enabled := match field "reporting_enabled" j with Some (JBool false) => false | _ => true end;
     updated_at := match string_or_null (field "updated_at" j) with Some s => parse_iso s | None => None end;
     updated_by := string_or_null (field "updated_by" j) |}.

(** [None]: there is no file. *)
Definition getCspPolicy (env : Env) (f : option json) : result CspPolicy CspError :=
  match f with Some j => if is_object j then Ok (read_policy j) else defaultPolicy env | None => defaultPolicy env end.

Record UpdateCspInput := { in_mode : string; in_extra_hosts : jval; in_reporting_enabled : bool; in_actor : option string }.

Definition updateCspPolicy (env : Env) (input : UpdateCspInput) (now : Z) (f : option json) : result (CspPolicy * CspPolicy) CspError * option json :=
  match assoc (in_mode input) [("off", off); ("report", report); ("enforce", enforce)] with
  | None => (Err bad_mode, f)
  | Some m =>
      match canonicalizeHosts (in_extra_hosts input) with
      | Err e => (Err e, f)
      | Ok hs =>
          match getCspPolicy env f with
          | Err e => (Err e, f)
          | Ok before =>
              let next := {| mode := m; extra_hosts := hs; reporting_enabled := in_reporting_enabled input; updated_at := Some now; updated_by := in_actor input |} in
              (Ok (next, before), Some (encode_policy next))
          end
      end
  end.

(** The directives, the extra hosts behind the three that take them. *)
Definition directives (extras : string) (reporting : bool) : list string :=
  let with_extras base := if truthy extras then base +:+ " " +:+ extras else base in
  ["default-src 'self'"; with_extras "script-src 'self'"; "style-src 'self' 'unsafe-inline'"; with_extras "img-src 'self' data: blob:";
   with_extras "connect-src 'self'"; "font-src 'self' data:"; "frame-ancestors 'none'"; "base-uri 'self'"; "form-action 'self'";
   "object-src 'none'"; "worker-src 'self' blob:"] ++ (if reporting then ["report-uri /api/csp-report"] else []).

Definition buildCspHeader (p : CspPolicy) : string := join "; " (directives (join " " (extra_hosts p)) (reporting_enabled p)).

Definition cspHeaderName (m : CspMode) : option string :=
  match m with off => None | enforce => Some "Content-Security-Policy" | report => Some "Content-Security-Policy-Report-Only" end.

(** * [middleware.ts] *)

Definition hex_char (c : Ascii.ascii) : bool := in_set "0123456789abcdefABCDEF" c.
Definition token_char (c : Ascii.ascii) : bool := is_letter c || is_digit c || in_set "._:-" c.

Definition UUID_V4 (s : string) : bool :=
  (str_len s =? 36) &&
  match split "-" s with
  | [a; b; String "4"%char c; String v d; e] =>
      (str_len a =? 8) && (str_len b =? 4) && (str_len c =? 3) && (str_len d =? 3) && (str_len e =? 12) &&
      in_set "89abAB" v && forallb (str_forall hex_char) [a; b; c; d; e]
  | _ => false
  end.

Definition safeIncomingId (v : option string) : option string :=
  match v with
  | None => None
  | Some v =>
      if negb (truthy v) then None else
      let s := trim v in
      if (str_len s =? 0) || (str_len s >? 128) then None
      else if UUID_V4 s then Some s
      else if truthy s && str_forall token_char s then Some s
      else None
  end.

(** A request as the middleware sees it, and what it makes of it: an answer of
    its own to a preflight, or the request let through with headers of its own. *)
Record Req := { method : string; pathname : string; req_headers : headers }.
Inductive Reply :=
  | Preflight204 (response : headers)
  | Next (forwarded response : headers).

Definition response_of (r : Reply) : headers := match r with Preflight204 h | Next _ h => h end.

Definition isApi (r : Req) : bool := starts_with "/api/" (pathname r).

Definition cors_decision (env : Env) (r : Req) : option CorsDecision :=
  match req_headers r !! "origin" with
  | Some o => if isApi r && truthy o then Some (decide_origin (Some o) (getPolicy env)) else None
  | None => None
  end.

(** The environment's policy, its bad hosts dropped. *)
Definition env_csp (env : Env) (h : headers) : headers :=
  let cspMode := to_lower (default "" (CSP_MODE env)) in
  if bool_decide (cspMode ∈ ["report"; "report-only"; "enforce"]) then
    let extras := join " " (filter (fun s => SRC_RE s = true) (words "" (default "" (CSP_EXTRA_HOSTS env)))) in
    let reportOff := bool_decide (CSP_REPORT_DISABLED env = Some "1") in
    <[(if String.eqb cspMode "enforce" then "content-security-policy" else "content-security-policy-report-only") :=
      join "; " (directives extras (negb reportOff))]> h
  else h.

Section middleware.
(** [Number(s)] of a text, and the fresh id. *)
Context (Number_of : string -> num) (mintId : string).

Definition security_headers (env : Env) (h : headers) : headers :=
  if bool_decide (HEADERS_ENABLED env = Some "0") then h else
  let hstsAge := default "31536000" (HSTS_MAX_AGE env) in
  let h := if num_lt (int 0) (Number_of hstsAge) then <["strict-transport-security" := "max-age=" +:+ hstsAge +:+ "; includeSubDomains"]> h else h in
  let h := <["x-content-type-options" := "nosniff"]> h in
  let h := <["x-frame-options" := "DENY"]> h in
  let h := <["referrer-policy" := "no-referrer"]> h in
  let h := <["permissions-policy" := "accelerometer=(), camera=(), geolocation=(), gyroscope=(), magnetometer=(), microphone=(), payment=(), usb=()"]> h in
  let h := <["cross-origin-opener-policy" := "same-origin"]> h in
  let h := <["cross-origin-resource-policy" := "same-site"]> h in
  env_csp env h.

Definition request_id (r : Req) : string :=
  match safeIncomingId (req_headers r !! "x-request-id") with
  | Some i => i
  | None => match safeIncomingId (req_headers r !! "x-correlation-id") with Some i => i | None => mintId end
  end.

Definition middleware (env : Env) (r : Req) : Reply :=
  let requestId := request_id r in
  let forwarded := <["x-request-id" := requestId]> (req_headers r) in
  let with_id : headers := {["x-request-id" := requestId]} in
  if isApi r && String.eqb (method r) "OPTIONS" then
    Preflight204 (match cors_decision env r with Some d => applyCors d true with_id | None => <["vary" := "Origin"]> with_id end)
  else
    let res := match cors_decision env r with
               | Some d => applyCors d false with_id
               | None => if isApi r then vary_with ["Origin"] with_id else with_id
               end in
    Next forwarded (security_headers env res).
End middleware.

(** * Lemmas *)

Definition hstr (h : headers) (k : string) : string := default "" (h !! k).

Lemma vary_with_other more h k : k <> "vary" -> vary_with more h !! k = h !! k.
Proof. intros Hk. unfold vary_with. by rewrite lookup_insert_ne. Qed.

(** Nothing but the names it sets is touched by the security headers. *)
Definition cors_names : list string :=
  ["access-control-allow-origin"; "access-control-allow-credentials"; "vary"; "x-request-id"].

Lemma not_cors n k : bool_decide (n ∉ cors_names) = true -> k ∈ cors_names -> n <> k.
Proof. intros Hn%bool_decide_eq_true Hk ->. by apply Hn. Qed.

Lemma env_csp_other env h k : k ∈ cors_names -> env_csp env h !! k = h !! k.
Proof.
  intros Hk. unfold env_csp. case_bool_decide; [|done].
  rewrite lookup_insert_ne; [done|]. by destruct (String.eqb _ "enforce"); apply not_cors.
Qed.

Lemma security_headers_other N env h k : k ∈ cors_names -> security_headers N env h !! k = h !! k.
Proof.
  intros Hk. unfold security_headers. case_bool_decide; [done|]. cbv zeta. rewrite env_csp_other by done.
  repeat (rewrite lookup_insert_ne by (by apply not_cors)).
  destruct (num_lt _ _); [|done]. by apply lookup_insert_ne, not_cors.
Qed.

(** Where CORS headers come from. *)
Lemma applyCors_origin d pre h k :
  k = "access-control-allow-origin" \/ k = "access-control-allow-credentials" -> h !! k = None ->
  applyCors d pre h !! k =
    match allowOrigin d with
    | Some o => if truthy o then Some (if String.eqb k "access-control-allow-origin" then o else "true") else None
    | None => None
    end.
Proof.
  intros Hk Hh. assert (Hv : forall m, vary_with m h !! k = None) by (intros m; rewrite vary_with_other; [done|by destruct Hk; subst]).
  unfold applyCors. cbv zeta. destruct (allowOrigin d) as [o|]; [|apply Hv]. destruct (truthy o); [|apply Hv]. simpl negb. cbv iota.
  destruct pre, Hk; subst k; repeat (rewrite lookup_insert_ne by done); by rewrite lookup_insert_eq.
Qed.

Lemma vary_names more h x :
  x ∈ more -> exists l, vary_with more h !! "vary" = Some (join ", " l) /\ x ∈ l /\ NoDup l.
Proof.
  intros Hx. eexists. unfold vary_with. rewrite lookup_insert_eq. split; [done|]. split; [|apply dedup_NoDup].
  apply dedup_elem, elem_of_app. by right.
Qed.

Lemma applyCors_vary d pre h : exists l, applyCors d pre h !! "vary" = Some (join ", " l) /\ "Origin" ∈ l /\ NoDup l.
Proof.
  destruct (vary_names ("Origin" :: if pre then ["Access-Control-Request-Method"; "Access-Control-Request-Headers"] else []) h "Origin") as (l & Hl & Ho).
  { left. }
  exists l. split; [|done]. rewrite <- Hl. unfold applyCors. cbv zeta.
  destruct (allowOrigin d) as [o|]; [|done]. destruct (truthy o); [|done]. simpl negb. cbv iota.
  destruct pre; by repeat (rewrite lookup_insert_ne by done).
Qed.

(** The listed origins are the well-formed pieces of the setting. *)
Definition well_formed_origin (o : string) : Prop := o <> "" /\ str_len o <= 253 /\ ORIGIN_RE o = true.

Lemma origin_list_elem out parts o :
  o ∈ origin_list out parts <-> o ∈ out \/ exists p, p ∈ parts /\ trim p = o /\ well_formed_origin o.
Proof.
  revert out. induction parts as [|p r IH]; intros out; cbn [origin_list].
  { split; [by left|]. intros [?|(p & Hp & _)]; [done|by apply elem_of_nil in Hp]. }
  cbv zeta. destruct (_ || _) eqn:E; rewrite IH; [|clear IH].
  - split; (intros [Ho|(q & Hq & He & Hw)]; [by left|]).
    + right. exists q. by split; [right|].
    + apply elem_of_cons in Hq as [->|Hq]; [|right; by exists q]. left. destruct Hw as (H1 & H2 & H3). subst o.
      apply truthy_spec in H1. rewrite H1, H3 in E. assert ((str_len (trim p) >? 253) = false) as E2 by lia. rewrite E2 in E. simpl in E.
      by apply bool_decide_eq_true in E.
  - rewrite !orb_false_iff in E. destruct E as [[[E1 E2] E3] E4]. apply negb_false_iff in E1, E3. apply truthy_spec in E1.
    rewrite elem_of_app, list_elem_of_singleton. split.
    + intros [[Ho| ->]|(q & Hq & Hr)]; [by left| |].
      * right. exists p. split; [left|]. split; [done|]. by split_and!; [|lia|].
      * right. exists q. by split; [right|].
    + intros [Ho|(q & Hq & He & Hw)]; [by left; left|]. apply elem_of_cons in Hq as [->|Hq]; [left; by right|]. right. by exists q.
Qed.

Lemma parseOriginList_elem raw_ o :
  o ∈ parseOriginList raw_ <-> exists s p, raw_ = Some s /\ p ∈ split "," s /\ trim p = o /\ well_formed_origin o.
Proof.
  unfold parseOriginList. destruct raw_ as [s|]; [|split; [by intros ?%elem_of_nil|by intros (? & ? & ? & _)]].
  destruct (truthy s) eqn:E.
  - rewrite origin_list_elem. split.
    + intros [Ho%elem_of_nil|(p & Hp & Hr)]; [done|]. by exists s, p.
    + intros (s' & p & Hs & Hp & Hr). injection Hs as <-. right. by exists p.
  - apply truthy_false in E as ->. split; [by intros ?%elem_of_nil|]. intros (s & p & Hs & Hp & <- & H1 & _). injection Hs as <-.
    apply list_elem_of_singleton in Hp. by subst p.
Qed.

(** Who may read an answer: the origins listed, or in local mode with none
    listed any loopback one. *)
Definition admitted_origin (env : Env) (o : string) : Prop :=
  well_formed_origin o /\
  (o ∈ parseOriginList (CORS_ORIGINS env) \/
   default "" (ADMIN_KEY env) = "" /\ parseOriginList (CORS_ORIGINS env) = [] /\ LOOPBACK_RE o = true).

Lemma decide_origin_spec env raw_ o :
  allowOrigin (decide_origin (Some raw_) (getPolicy env)) = Some o <-> trim raw_ = o /\ admitted_origin env o.
Proof.
  unfold decide_origin, admitted_origin, well_formed_origin. cbv zeta.
  destruct (truthy (trim raw_)) eqn:E1; [apply truthy_spec in E1|apply truthy_false in E1; split; [done|naive_solver]]. simpl negb. cbv iota.
  destruct (str_len (trim raw_) >? 253) eqn:E2; [split; [done|intros (<- & (_ & ? & _) & _); lia]|].
  destruct (ORIGIN_RE (trim raw_)) eqn:E3; simpl negb; cbv iota; [|split; [done|intros (<- & (_ & _ & ?) & _); congruence]].
  case_bool_decide as E4; simpl in E4.
  - simpl. split; [intros [= <-]; split_and!; auto; lia|by intros [-> _]].
  - destruct (_ && LOOPBACK_RE _) eqn:E5; simpl.
    + apply andb_prop in E5 as [[E6 E7]%andb_prop E8]. apply negb_true_iff, truthy_false in E6. apply Nat.eqb_eq, length_zero_iff_nil in E7.
      split; [intros [= <-]; split_and!; auto; lia|by intros [-> _]].
    + split; [done|]. intros (<- & _ & [?|(E6 & E7 & E8)]); [done|].
      unfold getPolicy in E5. simpl in E5. by rewrite E6, E7, E8 in E5.
Qed.

(** The answer's headers before the security headers. *)
Lemma response_headers N i env r k :
  k ∈ cors_names ->
  response_of (middleware N i env r) !! k =
    (let h : headers := {["x-request-id" := request_id i r]} in
     let pre := isApi r && String.eqb (method r) "OPTIONS" in
     match cors_decision env r with
     | Some d => applyCors d pre h
     | None => if pre then <["vary" := "Origin"]> h else if isApi r then vary_with ["Origin"] h else h
     end) !! k.
Proof.
  intros Hk. unfold middleware. cbv zeta. destruct (_ && String.eqb _ _); simpl.
  - by destruct (cors_decision env r).
  - rewrite security_headers_other by done. by destruct (cors_decision env r).
Qed.

Lemma cors_decision_some env r d :
  cors_decision env r = Some d <->
  isApi r = true /\ exists raw_, req_headers r !! "origin" = Some raw_ /\ raw_ <> "" /\ d = decide_origin (Some raw_) (getPolicy env).
Proof.
  unfold cors_decision. destruct (req_headers r !! "origin") as [o|]; [|naive_solver].
  destruct (isApi r); simpl; [|naive_solver]. destruct (truthy o) eqn:E.
  - apply truthy_spec in E. naive_solver.
  - apply truthy_false in E as ->. naive_solver.
Qed.

Lemma no_cors N i env r k :
  cors_decision env r = None -> k = "access-control-allow-origin" \/ k = "access-control-allow-credentials" ->
  response_of (middleware N i env r) !! k = None.
Proof.
  intros Hd Hk. rewrite response_headers by (destruct Hk; subst; by apply (bool_decide_unpack _)). cbv zeta. rewrite Hd.
  destruct (_ && String.eqb _ _); [|destruct (isApi r)]; [|rewrite vary_with_other by (by destruct Hk; subst)|];
    destruct Hk; subst k; by rewrite ?lookup_insert_ne, ?lookup_singleton_ne.
Qed.

Lemma some_cors N i env r k d :
  cors_decision env r = Some d -> k = "access-control-allow-origin" \/ k = "access-control-allow-credentials" ->
  response_of (middleware N i env r) !! k =
    match allowOrigin d with
    | Some o => if truthy o then Some (if String.eqb k "access-control-allow-origin" then o else "true") else None
    | None => None
    end.
Proof.
  intros Hd Hk. rewrite response_headers by (destruct Hk; subst; by apply (bool_decide_unpack _)). cbv zeta. rewrite Hd.
  apply applyCors_origin; [done|]. destruct Hk; subst k; by rewrite lookup_singleton_ne.
Qed.

(** C25. An answer names an origin exactly when the request is one under [/api/], came
    from that origin, and the origin is admitted; credentials go with a named origin and with no other answer; no
    answer names a wildcard; and what a cache holds is always kept per origin. *)
Theorem cors_exact N mintId env r v :
  let h := response_of (middleware N mintId env r) in
  (h !! "access-control-allow-origin" = Some v <->
     isApi r = true /\ exists raw_, req_headers r !! "origin" = Some raw_ /\ trim raw_ = v /\ admitted_origin env v) /\
  (is_Some (h !! "access-control-allow-credentials") <-> is_Some (h !! "access-control-allow-origin")) /\
  h !! "access-control-allow-origin" <> Some "*" /\
  (isApi r = true -> exists names, h !! "vary" = Some (join ", " names) /\ "Origin" ∈ names).
Proof.
  cbv zeta.
  assert (Hexact : forall v, response_of (middleware N mintId env r) !! "access-control-allow-origin" = Some v <->
     isApi r = true /\ exists raw_, req_headers r !! "origin" = Some raw_ /\ trim raw_ = v /\ admitted_origin env v).
  { clear v. intros v. destruct (cors_decision env r) as [d|] eqn:E.
    - rewrite (some_cors _ _ _ _ _ d) by auto. apply cors_decision_some in E as (Ha & raw_ & Hr & Hne & ->).
      transitivity (allowOrigin (decide_origin (Some raw_) (getPolicy env)) = Some v).
      + destruct (allowOrigin _) as [o|] eqn:Eo; [|done]. apply decide_origin_spec in Eo as [<- [(Ho & _ & _) _]].
        apply truthy_spec in Ho. by rewrite Ho.
      + rewrite decide_origin_spec, Hr. naive_solver.
    - rewrite no_cors by auto. split; [done|]. intros (Ha & raw_ & Hr & <- & (Hne & _ & _) & _).
      assert (cors_decision env r = Some (decide_origin (Some raw_) (getPolicy env))); [|congruence].
      apply cors_decision_some. split; [done|]. exists raw_. split; [done|]. split; [|done]. by intros ->. }
  split; [apply Hexact|]. split; [|split].
  - destruct (cors_decision env r) as [d|] eqn:E; [|by rewrite !no_cors by auto].
    rewrite !(some_cors _ _ _ _ _ d) by auto. destruct (allowOrigin d) as [o|]; [|done]. by destruct (truthy o).
  - intros (_ & raw_ & _ & _ & (_ & _ & Hre) & _)%Hexact. done.
  - intros Ha. rewrite response_headers by (by apply (bool_decide_unpack _)). cbv zeta. destruct (cors_decision env r) as [d|].
    + destruct (applyCors_vary d (isApi r && String.eqb (method r) "OPTIONS") {["x-request-id" := request_id mintId r]}) as (l & Hl & Ho & _).
      by exists l.
    + rewrite Ha. destruct (String.eqb (method r) "OPTIONS"); simpl.
      * exists ["Origin"]. rewrite lookup_insert_eq. split; [done|left].
      * destruct (vary_names ["Origin"] {["x-request-id" := request_id mintId r]} "Origin") as (l & Hl & Ho & _); [left|]. by exists l.
Qed.

Definition demo_env : Env :=
  {| ADMIN_KEY := Some "k"; CORS_ORIGINS := Some "https://app.example.com, https://b.example:8443/x"; HEADERS_ENABLED := None;
     HSTS_MAX_AGE := None; CSP_MODE := Some "report"; CSP_EXTRA_HOSTS := None; CSP_REPORT_DISABLED := None |}.

Definition demo_req : Req :=
  {| method := "OPTIONS"; pathname := "/api/v1/runs"; req_headers := {["origin" := " https://app.example.com"]} |}.

Lemma cors_exact_witness :
  let h := response_of (middleware (fun _ => int 1) "fresh" demo_env demo_req) in
  (h !! "access-control-allow-origin" = Some "https://app.example.com" <->
     isApi demo_req = true /\ exists raw_, req_headers demo_req !! "origin" = Some raw_ /\ trim raw_ = "https://app.example.com" /\
       admitted_origin demo_env "https://app.example.com") /\
  exists names, h !! "vary" = Some (join ", " names) /\ "Origin" ∈ names.
Proof.
  destruct (cors_exact (fun _ => int 1) "fresh" demo_env demo_req "https://app.example.com") as (H1 & _ & _ & H2).
  split; [exact H1|]. apply H2. by vm_compute.
Defined.

(** ** What an extra host can do to the header *)

(** A header read the way a browser reads it: directives end at a semicolon,
    and are a name and its sources, apart by blanks. *)
Definition browser_csp (h : string) : list (list string) := (fun d => split " " (trim d)) <$> split ";" h.

(** Characters of a source expression. *)
Definition source_char (c : Ascii.ascii) : bool := negb (is_space c || in_set ";," c).

Definition word (s : string) : Prop := s <> "" /\ str_forall source_char s = true.

Definition all_chars : list Ascii.ascii := Ascii.ascii_of_nat <$> seq 0 256.

Lemma all_chars_elem c : c ∈ all_chars.
Proof.
  unfold all_chars. apply list_elem_of_fmap. exists (Ascii.nat_of_ascii c). rewrite Ascii.ascii_nat_embedding. split; [done|].
  apply elem_of_seq. pose proof (Ascii.nat_ascii_bounded c). lia.
Qed.

(** A claim on characters holds when it holds on the 256 of them. *)
Lemma by_all_chars (p q : Ascii.ascii -> bool) :
  forallb (fun c => implb (p c) (q c)) all_chars = true -> forall c, p c = true -> q c = true.
Proof.
  intros Hall c Hp. rewrite forallb_forall in Hall. specialize (Hall c). rewrite Hp in Hall. apply Hall.
  apply list_elem_of_In, all_chars_elem.
Qed.

Lemma str_span_spec p s : s = (str_span p s).1 +:+ (str_span p s).2 /\ str_forall p (str_span p s).1 = true.
Proof.
  induction s as [|c s [IH1 IH2]]; [done|]. cbn [str_span]. destruct (p c) eqn:E; [|done].
  destruct (str_span p s) as [a b]. simpl in *. rewrite E, IH2. split; [by rewrite IH1|done].
Qed.

Lemma lower_all (q : Ascii.ascii -> bool) s :
  forallb (fun c => implb (q (lower_ascii c)) (q c)) all_chars = true -> str_forall q (to_lower s) = true -> str_forall q s = true.
Proof.
  intros Hq. unfold to_lower. induction s as [|c s IH]; [done|]. cbn [str_map str_forall]. intros [Hc Hs]%andb_prop.
  rewrite IH by done. rewrite andb_true_r. revert Hc. by apply (by_all_chars (fun c => q (lower_ascii c)) q).
Qed.

Lemma to_lower_drop n s : to_lower (str_drop n s) = str_drop n (to_lower s).
Proof. revert s. induction n as [|n IH]; intros [|c s]; try done. apply IH. Qed.

Lemma take_drop n s : s = str_take n s +:+ str_drop n s.
Proof.
  revert s. induction n as [|n IH]; intros [|c s]; try done.
  change (String c s = String c (str_take n s +:+ str_drop n s)). by rewrite <- IH.
Qed.

Lemma listed_plain q (l : list string) s : forallb (str_forall q) l = true -> s ∈ l -> str_forall q s = true.
Proof. rewrite forallb_forall. intros Hl Hs. apply Hl. by apply list_elem_of_In. Qed.

Lemma spanned_plain p q s :
  forallb (fun c => implb (p c) (q c)) all_chars = true ->
  str_forall q (str_span p s).2 = true -> str_forall q s = true.
Proof.
  intros Hpq H2. destruct (str_span_spec p s) as [Hs Hp]. rewrite Hs, str_forall_app, H2, andb_true_r.
  revert Hp. apply str_forall_impl. by apply by_all_chars.
Qed.

Lemma host_source_plain path s : host_source path s = true -> str_forall source_char s = true.
Proof.
  intros H.
  assert (Hend : forall r, match r with "" => true | String c p => path && Ascii.eqb c "/"%char && str_forall path_char p end = true ->
     str_forall source_char r = true).
  { intros [|c p]; [done|]. intros [[_ Hc]%andb_prop Hp]%andb_prop. apply Ascii.eqb_eq in Hc as ->. simpl. revert Hp.
    apply str_forall_impl. by apply by_all_chars. }
  assert (Hbody : forall s', (let '(h, rest) := str_span host_char s' in
     truthy h && match rest with
       | String ":"%char r => let '(ds, rest) := str_span is_digit r in
           truthy ds && match rest with "" => true | String c p => path && Ascii.eqb c "/"%char && str_forall path_char p end
       | _ => match rest with "" => true | String c p => path && Ascii.eqb c "/"%char && str_forall path_char p end end) = true ->
     str_forall source_char s' = true).
  { intros s' Hs'. apply (spanned_plain host_char); [by vm_compute|]. destruct (str_span host_char s') as [h rest]. simpl.
    apply andb_prop in Hs' as [_ Hs']. destruct rest as [|c r]; [done|]. destruct (Ascii.eqb c ":"%char) eqn:Ec.
    - apply Ascii.eqb_eq in Ec as ->. simpl. apply (spanned_plain is_digit); [by vm_compute|].
      destruct (str_span is_digit r) as [ds rest]. apply andb_prop in Hs' as [_ Hs']. by apply Hend.
    - apply Hend. revert Hs'. destruct c as [[] [] [] [] [] [] [] []]; try done; by vm_compute in Ec. }
  unfold host_source in H. cbv zeta in H. destruct (starts_with "*." s) eqn:Es; [|by apply Hbody].
  apply prefix_spec in Es as [r ->]. rewrite str_forall_app. by rewrite (Hbody r).
Qed.

Lemma scheme_source_plain s : scheme_source s = true -> str_forall source_char s = true.
Proof.
  unfold scheme_source. intros H. apply (spanned_plain is_letter); [by vm_compute|].
  destruct (str_span is_letter s) as [sch rest]. apply andb_prop in H as [_ H]. simpl.
  destruct rest as [|c r]; [done|]. destruct (Ascii.eqb c ":"%char) eqn:Ec.
  - apply Ascii.eqb_eq in Ec as ->. destruct r as [|d r]; [done|].
    apply andb_prop in H as [[r' Hr]%prefix_spec H]. rewrite Hr in H |- *. simpl. by apply host_source_plain in H.
  - revert H. destruct c as [[] [] [] [] [] [] [] []]; try done; by vm_compute in Ec.
Qed.

Lemma keyword_plain s : keyword s = true -> str_forall source_char s = true.
Proof.
  unfold keyword. cbv zeta. intros [Hs%bool_decide_eq_true|[[Hs _]%andb_prop Hh]%andb_prop]%orb_prop;
    (apply (lower_all source_char); [by vm_compute|]).
  - by apply (listed_plain _ ["self"; "none"; "unsafe-inline"; "unsafe-eval"; "strict-dynamic"]).
  - apply bool_decide_eq_true in Hs. rewrite (take_drop 7 (to_lower s)), str_forall_app, <- to_lower_drop.
    rewrite (listed_plain source_char ["sha256-"; "sha384-"; "sha512-"]) by done. rewrite andb_true_l.
    revert Hh. generalize (str_drop 7 s) as t. induction t as [|c t IH]; [done|]. cbn. intros [Hc Ht]%andb_prop.
    apply andb_true_intro. split; [|by apply IH]. revert Hc. by apply (by_all_chars hash_char (fun c => source_char (lower_ascii c))).
Qed.

Lemma quoted_end s : ends_with_char "'"%char s = true -> s = drop_last s +:+ "'".
Proof.
  induction s as [|c r IH]; [done|]. destruct r as [|d r].
  - change (Ascii.eqb "'"%char c = true -> String c "" = "'"). by intros <-%Ascii.eqb_eq.
  - intros H. change (String c (String d r) = String c (drop_last (String d r) +:+ "'")). f_equal. by apply IH.
Qed.

Lemma SRC_RE_word s : SRC_RE s = true -> word s.
Proof.
  intros H. split; [by intros ->|]. unfold SRC_RE in H. apply orb_prop in H as [[H|H]%orb_prop|H].
  - destruct s as [|c r]; [done|]. unfold quoted in H. destruct (Ascii.eqb c "'"%char) eqn:Ec.
    + apply Ascii.eqb_eq in Ec as ->. apply andb_prop in H as [He Hk]. cbn [str_forall]. apply quoted_end in He. rewrite He, str_forall_app.
      by rewrite keyword_plain.
    + revert H. destruct c as [[] [] [] [] [] [] [] []]; try done; by vm_compute in Ec.
  - by apply scheme_source_plain.
  - by apply host_source_plain in H.
Qed.

(** The accepted hosts are words, no two the same but for case, and at most 32. *)
Definition hosts_ok (hs : list string) : Prop :=
  Forall (fun h => SRC_RE h = true /\ str_len h <= MAX_HOST_LEN /\ trim h = h) hs /\ NoDup (to_lower <$> hs) /\ len hs <= MAX_HOSTS.

Lemma canon_hosts_ok out input hs : hosts_ok out -> canon_hosts out input = Ok hs -> hosts_ok hs.
Proof.
  revert out. induction input as [|j r IH]; intros out Hout; cbn [canon_hosts]; [by intros [= <-]|].
  destruct j as [| | |raw_| |]; try done. cbv zeta. destruct (truthy (trim raw_)); simpl negb; cbv iota; [|by apply IH].
  destruct (str_len (trim raw_) >? MAX_HOST_LEN) eqn:E1; [done|]. destruct (SRC_RE (trim raw_)) eqn:E2; [|done]. simpl negb; cbv iota.
  case_bool_decide as E3; [by apply IH|]. destruct (_ >? MAX_HOSTS) eqn:E4; [done|]. apply IH.
  destruct Hout as (H1 & H2 & H3). split_and!.
  - apply Forall_app; split; [done|]. constructor; [|done]. split_and!; [done|lia|apply trim_idempotent].
  - rewrite fmap_app. apply NoDup_app. split_and!; [done| |apply NoDup_singleton]. by intros x Hx ->%list_elem_of_singleton.
  - lia.
Qed.

Lemma canonicalizeHosts_ok input hs : canonicalizeHosts input = Ok hs -> hosts_ok hs.
Proof.
  destruct input as [[| | | |l|]|]; try done. apply canon_hosts_ok. split_and!; [done|constructor|done].
Qed.

(** What a browser reads off the header of a policy with those extra hosts. *)
Definition directive_table (hs : list string) (reporting : bool) : list (list string) :=
  [["default-src"; "'self'"]; "script-src" :: "'self'" :: hs; ["style-src"; "'self'"; "'unsafe-inline'"];
   "img-src" :: "'self'" :: "data:" :: "blob:" :: hs; "connect-src" :: "'self'" :: hs; ["font-src"; "'self'"; "data:"];
   ["frame-ancestors"; "'none'"]; ["base-uri"; "'self'"]; ["form-action"; "'self'"]; ["object-src"; "'none'"];
   ["worker-src"; "'self'"; "blob:"]] ++ (if reporting then [["report-uri"; "/api/csp-report"]] else []).

Lemma word_no_char c s : negb (source_char c) = true -> word s -> no_char c s = true.
Proof.
  intros Hc [_ Hs]. revert Hs. apply str_forall_impl. intros d Hd. apply negb_true_iff. destruct (Ascii.eqb c d) eqn:E; [|done].
  apply Ascii.eqb_eq in E as ->. by rewrite Hd in Hc.
Qed.

Lemma word_no_space s : word s -> str_forall (fun c => negb (is_space c)) s = true.
Proof. intros [_ Hs]. revert Hs. apply str_forall_impl. intros c. unfold source_char. by destruct (is_space c). Qed.

Lemma trim_end_word a s : word s -> trim_end (a +:+ s) = a +:+ s.
Proof.
  intros Hw. assert (Hs : trim_end s = s /\ s <> "").
  { split; [|apply Hw]. pose proof (trim_no_space s (word_no_space s Hw)) as Ht. unfold trim in Ht.
    destruct s as [|c s]; [done|]. rewrite trim_start_head in Ht; [done|]. apply word_no_space in Hw. simpl in Hw.
    apply andb_prop in Hw as [Hc _]. by apply negb_true_iff in Hc. }
  destruct Hs as [Hs Hne]. induction a as [|c a IH]; [done|].
  change (String c a +:+ s) with (String c (a +:+ s)). cbn [trim_end]. rewrite IH.
  destruct (a +:+ s) eqn:E; [|by rewrite andb_false_r || done]. destruct a; [by subst|done].
Qed.

Lemma join_last l w : exists a, join " " (l ++ [w]) = a +:+ w.
Proof.
  induction l as [|x l [a IH]]; [by exists ""|]. destruct l as [|y l]; [exists (x +:+ " "); simpl; by rewrite str_app_assoc|].
  exists (x +:+ " " +:+ a). change (join " " ((x :: y :: l) ++ [w])) with (x +:+ " " +:+ join " " ((y :: l) ++ [w])).
  rewrite IH. by rewrite !str_app_assoc.
Qed.

Lemma trim_words l : l <> [] -> Forall word l -> trim (join " " l) = join " " l.
Proof.
  intros Hne Hl. destruct l as [|x l _] using rev_ind; [done|]. apply Forall_app in Hl as [Hl [Hx _]%Forall_cons].
  destruct (join_last l x) as [a Ha].
  assert (Hstart : exists c r, join " " (l ++ [x]) = String c r /\ is_space c = false).
  { destruct (l ++ [x]) as [|y k] eqn:E; [by destruct l|].
    assert (Hy : word y) by (destruct l; injection E as <- _; [done|by inversion Hl]).
    pose proof (word_no_space y Hy) as Hs. destruct y as [|c y]; [by destruct Hy|]. simpl in Hs. apply andb_prop in Hs as [Hs%negb_true_iff _].
    destruct k; simpl; eauto. }
  destruct Hstart as (c & r & E & Hc). unfold trim. rewrite E, trim_start_head by done. rewrite <- E, Ha. by apply trim_end_word.
Qed.

Lemma join_semis x l : join "; " (x :: l) = join ";" (x :: ((String " "%char) <$> l)).
Proof.
  revert x. induction l as [|y l IH]; intros x; [done|].
  change (join "; " (x :: y :: l)) with (x +:+ "; " +:+ join "; " (y :: l)).
  change (join ";" (x :: (String " "%char <$> y :: l))) with (x +:+ ";" +:+ join ";" (String " "%char y :: (String " "%char <$> l))).
  f_equal. rewrite IH. destruct l; done.
Qed.

Lemma words_no_char c l : negb (source_char c) = true -> Ascii.eqb c " "%char = false -> Forall word l -> no_char c (join " " l) = true.
Proof.
  intros Hc Hb Hl. apply str_forall_join; [simpl; by rewrite Hb|]. eapply Forall_impl; [exact Hl|]. intros s. by apply word_no_char.
Qed.

(** Lines of words are read back as they were written. *)
Lemma browser_reads_table tbl :
  tbl <> [] -> Forall (fun l => l <> [] /\ Forall word l) tbl -> browser_csp (join "; " (join " " <$> tbl)) = tbl.
Proof.
  intros Hne Ht. destruct tbl as [|x tbl]; [done|]. unfold browser_csp. rewrite fmap_cons, join_semis, split_join; [|done|].
  - assert (Hrow : forall l, l <> [] /\ Forall word l -> split " " (trim (join " " l)) = l).
    { intros l [Hl Hw]. rewrite trim_words by done. apply split_join; [done|]. eapply Forall_impl; [exact Hw|]. intros s. by apply word_no_char. }
    apply Forall_cons in Ht as [Hx Ht]. rewrite fmap_cons. f_equal; [by apply Hrow|].
    induction Ht as [|l tbl Hl _ IH]; [done|]. rewrite !fmap_cons. f_equal; [by apply Hrow|exact (IH ltac:(done))].
  - apply Forall_cons in Ht as [[_ Hx] Ht]. constructor; [by apply words_no_char|]. rewrite !Forall_fmap. eapply Forall_impl; [exact Ht|].
    intros l [_ Hl]. change (no_char ";"%char (join " " l) = true). by apply words_no_char.
Qed.

Lemma directives_table hs rep : Forall word hs -> directives (join " " hs) rep = join " " <$> directive_table hs rep.
Proof.
  intros Hhs. unfold directives, directive_table. destruct hs as [|h hs]; [by destruct rep|].
  assert (truthy (join " " (h :: hs)) = true) as ->.
  { inversion_clear Hhs as [|? ? [Hh _] _]. destruct h; [done|]. by destruct hs. }
  destruct rep; reflexivity.
Qed.

Lemma header_read hs rep : Forall word hs -> browser_csp (join "; " (directives (join " " hs) rep)) = directive_table hs rep.
Proof.
  intros Hhs. rewrite directives_table by done. apply browser_reads_table; [done|].
  assert (Hfix : forall l, forallb (fun s => truthy s && str_forall source_char s) l = true -> Forall word l).
  { intros l. rewrite forallb_forall. intros Hl. apply Forall_forall. intros s Hs. destruct (andb_prop _ _ (Hl s (proj1 (list_elem_of_In _ _) Hs))).
    split; [by apply truthy_spec|done]. }
  unfold directive_table. apply Forall_app. split; [|destruct rep; repeat constructor; try done; apply Hfix; reflexivity].
  repeat (apply Forall_cons; split); try (split; [done|]); try (apply Hfix; reflexivity); [| | |constructor].
  - apply (Forall_app_2 word ["script-src"; "'self'"]); [apply Hfix; reflexivity|done].
  - apply (Forall_app_2 word ["img-src"; "'self'"; "data:"; "blob:"]); [apply Hfix; reflexivity|done].
  - apply (Forall_app_2 word ["connect-src"; "'self'"]); [apply Hfix; reflexivity|done].
Qed.

Lemma hosts_are_words hs : hosts_ok hs -> Forall word hs.
Proof. intros [H _]. eapply Forall_impl; [exact H|]. intros h (Hh & _). by apply SRC_RE_word. Qed.

(** A canonical list is its own canonical form. *)
Lemma canon_hosts_again out hs : hosts_ok (out ++ hs) -> canon_hosts out (JStr <$> hs) = Ok (out ++ hs).
Proof.
  revert out. induction hs as [|h hs IH]; intros out Hok; [by rewrite app_nil_r|]. cbn [fmap list_fmap canon_hosts].
  pose proof Hok as (H1 & H2 & H3). apply Forall_app in H1 as [_ H1]. apply Forall_cons in H1 as [(Hs & Hl & Ht) _].
  rewrite Ht. pose proof (proj1 (SRC_RE_word h Hs)) as Hne. apply truthy_spec in Hne. rewrite Hne, Hs. simpl negb. cbv iota.
  assert ((str_len h >? MAX_HOST_LEN) = false) as -> by lia.
  rewrite bool_decide_eq_false_2.
  - replace (out ++ h :: hs) with ((out ++ [h]) ++ hs) in * by (by rewrite <- app_assoc).
    assert ((len (out ++ [h]) >? MAX_HOSTS) = false) as ->; [|by apply IH].
    unfold len in *. rewrite length_app in H3. lia.
  - rewrite fmap_app in H2. apply NoDup_app in H2 as (_ & H2 & _). intros Hin. apply (H2 _ Hin). left.
Qed.

Lemma getCspPolicy_encode env p :
  hosts_ok (extra_hosts p) -> from_option iso_range True (updated_at p) -> getCspPolicy env (Some (encode_policy p)) = Ok p.
Proof.
  intros Hh Ht. unfold getCspPolicy. simpl is_object. cbv iota. f_equal. destruct p as [m hs rep ts by_]. unfold read_policy, encode_policy. simpl in *.
  f_equal.
  - by destruct m.
  - by rewrite (canon_hosts_again []).
  - by destruct rep.
  - destruct ts as [t|]; [|done]. simpl. by apply parse_toISOString.
  - by destruct by_.
Qed.

(** An accepted policy is the one read back, and a browser reads off its header
    the fixed directives with the accepted hosts, each as one source, behind
    scripts, images and connections only: no host can end a directive, start
    one, or smuggle in a second source. *)
Theorem csp_exact env input now f next before f' :
  updateCspPolicy env input now f = (Ok (next, before), f') -> iso_range now ->
  getCspPolicy env f' = Ok next /\
  browser_csp (buildCspHeader next) = directive_table (extra_hosts next) (reporting_enabled next) /\
  hosts_ok (extra_hosts next).
Proof.
  unfold updateCspPolicy. destruct (assoc _ _) as [m|]; [|done]. destruct (canonicalizeHosts (in_extra_hosts input)) as [hs|] eqn:E; [|done].
  destruct (getCspPolicy env f) as [b|]; [|done]. cbv zeta. intros H Ht. injection H as <- <- <-. apply canonicalizeHosts_ok in E.
  split; [by apply getCspPolicy_encode|]. split; [|done]. by apply header_read, hosts_are_words.
Qed.

Lemma csp_exact_witness :
  let input := {| in_mode := "enforce"; in_extra_hosts := Some (JArr [JStr " https://cdn.example.com/x"; JStr "data:"; JStr "DATA:"; JStr "'sha256-Ab+/='"]);
                  in_reporting_enabled := true; in_actor := Some "root" |} in
  match updateCspPolicy demo_env input 1700000000000 None with
  | (Ok (next, _), f') => getCspPolicy demo_env f' = Ok next /\ extra_hosts next = ["https://cdn.example.com/x"; "data:"; "'sha256-Ab+/='"]
  | _ => False
  end.
Proof.
  intros input. destruct (updateCspPolicy demo_env input 1700000000000 None) as [[[next before]|] f'] eqn:E; [|by vm_compute in E].
  pose proof (csp_exact _ _ _ _ _ _ _ E) as H. split; [apply H; by vm_compute|]. vm_compute in E. by injection E as <- _ _.
Defined.
