(* ===== verification/KeyUsage.v ===== *)
(** Per-key usage analytics, [web/lib/keyUsageStore.ts] with the read of
    [web/app/api/admin/keys/[id]/usage/route.ts]: counters by key, UTC day, class
    of route and class of status, kept for 35 days, and the dense summary of a
    window. The specification is the log of requests itself: what is counted is
    what was asked. The locale's order of two strings is a parameter. *)
From S2P Require Import Prelude JsNum JsDate IsoTime Json Store.

Definition RETENTION_DAYS : Z := 35.

Inductive StatusClass := c2xx | c3xx | c4xx | c5xx.
#[export] Instance StatusClass_eq_dec : EqDecision StatusClass.
Proof. solve_decision. Defined.

Definition classifyStatus (status : Z) : StatusClass :=
  if status >=? 500 then c5xx else if status >=? 400 then c4xx else if status >=? 300 then c3xx else c2xx.

(** A row of counters; the code makes it with the four zeros. *)
Record Counts := { n2xx : Z; n3xx : Z; n4xx : Z; n5xx : Z }.
Definition no_counts : Counts := {| n2xx := 0; n3xx := 0; n4xx := 0; n5xx := 0 |}.
Definition get (c : StatusClass) (r : Counts) : Z := match c with c2xx => n2xx r | c3xx => n3xx r | c4xx => n4xx r | c5xx => n5xx r end.
Definition bump (c : StatusClass) (r : Counts) : Counts :=
  match c with
  | c2xx => {| n2xx := n2xx r + 1; n3xx := n3xx r; n4xx := n4xx r; n5xx := n5xx r |}
  | c3xx => {| n2xx := n2xx r; n3xx := n3xx r + 1; n4xx := n4xx r; n5xx := n5xx r |}
  | c4xx => {| n2xx := n2xx r; n3xx := n3xx r; n4xx := n4xx r + 1; n5xx := n5xx r |}
  | c5xx => {| n2xx := n2xx r; n3xx := n3xx r; n4xx := n4xx r; n5xx := n5xx r + 1 |}
  end.

(** [routes] in the order its keys were first written. *)
Record DayBucket := { day : string; routes : list (string * Counts) }.
Record KeyUsage := { key_id : string; total : Z; last_request_at : option string; buckets : list DayBucket }.

(** [store.keys]. *)
Abbreviation Store := (list (string * KeyUsage)).

Definition utcDay (now : Z) : string := str_take 10 (toISOString now).

(** A request as it is recorded: the instant of the call, which gives the day,
    and the one its turn in the chain of writes came. *)
Record Request := { rq_key : string; rq_route : string; rq_status : Z; rq_called : Z; rq_ran : Z }.

Definition route_class_of (r : Request) : string := if truthy (rq_route r) then rq_route r else "other".

Definition new_entry (k : string) : KeyUsage := {| key_id := k; total := 0; last_request_at := None; buckets := [] |}.

Definition bump_route (rc : string) (c : StatusClass) (b : DayBucket) : DayBucket :=
  {| day := day b; routes := put rc (bump c (default no_counts (assoc rc (routes b)))) (routes b) |}.

(** The bucket of the day, behind the others when it is new, counts one more. *)
Definition count_in (d rc : string) (c : StatusClass) (bs : list DayBucket) : list DayBucket :=
  match list_find (fun b => day b = d) bs with
  | Some (i, b) => <[i := bump_route rc c b]> bs
  | None => bs ++ [bump_route rc c {| day := d; routes := [] |}]
  end.

Section KeyUsage.
Context (localeCompare : string -> string -> Z).

Definition pruneBuckets (bs : list DayBucket) : list DayBucket :=
  if len bs <=? RETENTION_DAYS then bs
  else let sorted := js_sort (fun a b => localeCompare (day a) (day b)) bs in drop (length sorted - Z.to_nat RETENTION_DAYS) sorted.

Definition recordRequest (r : Request) (s : Store) : Store :=
  let entry := default (new_entry (rq_key r)) (assoc (rq_key r) s) in
  put (rq_key r)
    {| key_id := key_id entry; total := total entry + 1; last_request_at := Some (toISOString (rq_ran r));
       buckets := pruneBuckets (count_in (utcDay (rq_called r)) (route_class_of r) (classifyStatus (rq_status r)) (buckets entry)) |} s.

(** The chain of writes runs the requests one after the other. *)
Definition record_all (log : list Request) (s : Store) : Store := fold_left (fun s r => recordRequest r s) log s.

Definition getUsage (k : string) (s : Store) : option KeyUsage := assoc k s.
Definition listUsage (s : Store) : list KeyUsage := snd <$> s.

(** ** The summary *)

(** The four sums a day, a route and the window have. *)
Record Totals := { t_total : Z; success : Z; client_error : Z; server_error : Z }.
Definition no_totals : Totals := {| t_total := 0; success := 0; client_error := 0; server_error := 0 |}.
Definition add_totals (a b : Totals) : Totals :=
  {| t_total := t_total a + t_total b; success := success a + success b;
     client_error := client_error a + client_error b; server_error := server_error a + server_error b |}.

(** What a row of counters adds. *)
Definition totals_of (r : Counts) : Totals :=
  {| t_total := n2xx r + n3xx r + n4xx r + n5xx r; success := n2xx r + n3xx r; client_error := n4xx r; server_error := n5xx r |}.

Record DailyPoint := { p_day : string; p_totals : Totals }.
Record RouteRow := { route_class : string; r_totals : Totals }.
Record UsageSummary := {
  s_key_id : string; s_total : Z; s_last_request_at : option string; window_days : num; window_totals : Totals;
  daily : list DailyPoint; by_route : list RouteRow }.

(** The days from [today - window + 1] to today. *)
Definition axis (window : num) (now : Z) : list string :=
  (fun i => utcDay (now - Z.of_nat i * ms_per_day)) <$> rev (seq 0 (Z.to_nat (floorZ window))).

(** The map from a day to its bucket: of two buckets of a day the later one. *)
Definition bucketByDay (bs : list DayBucket) (d : string) : option DayBucket := snd <$> list_find (fun b => day b = d) (rev bs).

Definition add_route (acc : list (string * Totals)) (rc : string * Counts) : list (string * Totals) :=
  put rc.1 (add_totals (default no_totals (assoc rc.1 acc)) (totals_of rc.2)) acc.

(** One day: its point, and its routes in the accumulator. *)
Definition day_point (bs : list DayBucket) (st : list DailyPoint * list (string * Totals)) (d : string) : list DailyPoint * list (string * Totals) :=
  let rows := match bucketByDay bs d with Some b => routes b | None => [] end in
  (st.1 ++ [{| p_day := d; p_totals := fold_left (fun t rc => add_totals t (totals_of rc.2)) rows no_totals |}], fold_left add_route rows st.2).

Definition row_of (v : string * Totals) : RouteRow := {| route_class := v.1; r_totals := v.2 |}.

Definition summarise (usage : option KeyUsage) (days : num) (now : Z) : UsageSummary :=
  let window := clamp_floor 1 RETENTION_DAYS days in
  let ax := axis window now in
  match usage with
  | None => {| s_key_id := ""; s_total := 0; s_last_request_at := None; window_days := window; window_totals := no_totals;
               daily := (fun d => {| p_day := d; p_totals := no_totals |}) <$> ax; by_route := [] |}
  | Some u =>
      let '(points, acc) := fold_left (day_point (buckets u)) ax ([], []) in
      {| s_key_id := key_id u; s_total := total u; s_last_request_at := last_request_at u; window_days := window;
         window_totals := fold_left (fun t p => add_totals t (p_totals p)) points no_totals;
         daily := points; by_route := js_sort (by_desc (fun r => t_total (r_totals r))) (row_of <$> acc) |}
  end.
End KeyUsage.

(** The days a reader asks for, when they can be. *)
Definition parse_days (Number_of : string -> num) (rawDays : option string) : option num :=
  match rawDays with
  | None => Some (int 14)
  | Some s => let n := Number_of s in
              if negb (is_finite n) || num_lt n (int 1) || num_lt (int RETENTION_DAYS) n then None else Some (num_floor n)
  end.

Inductive Answer := invalid_days | not_found | Found (s : UsageSummary).

(** The answer behind the admin gate. *)
Definition usage_GET (Number_of : string -> num) (known : list string) (i : string) (rawDays : option string) (now : Z) (s : Store) : Answer :=
  match parse_days Number_of rawDays with
  | None => invalid_days
  | Some days =>
      if negb (bool_decide (i ∈ known)) then not_found
      else let r := summarise (getUsage i s) days now in
           Found {| s_key_id := i; s_total := s_total r; s_last_request_at := s_last_request_at r; window_days := window_days r;
                    window_totals := window_totals r; daily := daily r; by_route := by_route r |}
  end.

(** * The specification: sums over the log *)

Lemma totals_eq a b :
  t_total a = t_total b -> success a = success b -> client_error a = client_error b -> server_error a = server_error b -> a = b.
Proof. destruct a, b. simpl. by intros -> -> -> ->. Qed.

Ltac totals := repeat match goal with t : Totals |- _ => destruct t end; unfold add_totals, no_totals; simpl; apply totals_eq; simpl; lia.

Lemma add_totals_assoc a b c : add_totals (add_totals a b) c = add_totals a (add_totals b c).
Proof. totals. Qed.
Lemma add_totals_comm a b : add_totals a b = add_totals b a.
Proof. totals. Qed.
Lemma add_no_totals a : add_totals a no_totals = a.
Proof. totals. Qed.
Lemma no_totals_add a : add_totals no_totals a = a.
Proof. totals. Qed.

Create Rewrite HintDb totals.
#[export] Hint Rewrite add_no_totals no_totals_add : totals.

(** What one request counts, and what the ones that meet [p] do. *)
Definition one (r : Request) : Totals := totals_of (bump (classifyStatus (rq_status r)) no_counts).
Definition tally (p : Request -> bool) (log : list Request) : Totals :=
  fold_right (fun r t => if p r then add_totals (one r) t else t) no_totals log.

Definition of_key (k : string) (r : Request) : bool := String.eqb (rq_key r) k.
Definition on_day (d : Z) (r : Request) : bool := day_of (rq_called r) =? d.
Definition on_route (rc : string) (r : Request) : bool := String.eqb (route_class_of r) rc.
Definition in_window (n now : Z) (r : Request) : bool := (day_of now - n <? day_of (rq_called r)) && (day_of (rq_called r) <=? day_of now).

Lemma tally_snoc p l r : tally p (l ++ [r]) = add_totals (tally p l) (if p r then one r else no_totals).
Proof.
  induction l as [|x l IH]; simpl; [destruct (p r); by autorewrite with totals|]. rewrite IH. destruct (p x); [|done]. by rewrite add_totals_assoc.
Qed.

Lemma tally_ext p q l : (forall r, r ∈ l -> p r = q r) -> tally p l = tally q l.
Proof.
  induction l as [|x l IH]; intros H; [done|]. cbn [tally fold_right]. unfold tally in IH. rewrite IH by (intros r Hr; apply H; by right). by rewrite (H x) by left.
Qed.

Lemma tally_none p l : (forall r, r ∈ l -> p r = false) -> tally p l = no_totals.
Proof. intros H. rewrite (tally_ext p (fun _ => false)) by done. clear H. by induction l. Qed.

Lemma tally_filter (P : Request -> Prop) `{!forall r, Decision (P r)} p l : tally p (filter P l) = tally (fun r => bool_decide (P r) && p r) l.
Proof.
  induction l as [|x l IH]; [done|]. rewrite filter_cons. cbn [tally fold_right] in *. unfold tally in *.
  destruct (decide (P x)) as [Hx|Hx]; [rewrite bool_decide_eq_true_2 by done|rewrite bool_decide_eq_false_2 by done]; simpl; by rewrite IH.
Qed.

Lemma tally_or p q l : (forall r, p r = true -> q r = false) -> tally (fun r => p r || q r) l = add_totals (tally p l) (tally q l).
Proof.
  intros H. induction l as [|x l IH]; [done|]. simpl. rewrite IH. destruct (p x) eqn:E; simpl.
  - rewrite H by done. by rewrite add_totals_assoc.
  - destruct (q x); [|done]. rewrite <- !add_totals_assoc. f_equal. apply add_totals_comm.
Qed.

(** The sum of the keyed values whose key meets [P]. *)
Section wsum.
Context {A : Type} (f : A -> Totals) (z : A) (f_z : f z = no_totals).

Definition wsum (P : string -> bool) (l : list (string * A)) : Totals :=
  fold_right (fun kv t => if P kv.1 then add_totals (f kv.2) t else t) no_totals l.

Lemma wsum_app P l m : wsum P (l ++ m) = add_totals (wsum P l) (wsum P m).
Proof using Type.
  induction l as [|x l IH]; simpl; [by autorewrite with totals|]. rewrite IH. destruct (P x.1); [by rewrite add_totals_assoc|done].
Qed.

Lemma wsum_put P k v d l :
  f v = add_totals (f (default z (assoc k l))) d -> wsum P (put k v l) = add_totals (wsum P l) (if P k then d else no_totals).
Proof using f_z.
  unfold put. destruct (assoc k l) as [w|] eqn:E; simpl default; intros Hv.
  - revert E. induction l as [|[k' w'] l IH]; [done|]. simpl. destruct (String.eqb k k') eqn:Ek.
    + apply String.eqb_eq in Ek as <-. intros [= <-]. simpl. destruct (P k); [|by autorewrite with totals]. rewrite Hv.
      rewrite !add_totals_assoc. f_equal. apply add_totals_comm.
    + intros E. simpl. rewrite IH by done. destruct (P k'); [by rewrite add_totals_assoc|done].
  - rewrite f_z, no_totals_add in Hv. rewrite wsum_app. f_equal. simpl. rewrite Hv. destruct (P k); by autorewrite with totals.
Qed.

Lemma wsum_one l k v : NoDup l.*1 -> (k, v) ∈ l -> wsum (String.eqb k) l = f v.
Proof using Type.
  induction l as [|[k' w] l IH]; intros Hnd Hin; [by apply elem_of_nil in Hin|]. apply NoDup_cons in Hnd as [Hk Hnd]. simpl.
  destruct (String.eqb k k') eqn:E.
  - apply String.eqb_eq in E as <-. apply elem_of_cons in Hin as [[= <-]|Hin].
    + assert (wsum (String.eqb k) l = no_totals) as ->; [|by autorewrite with totals].
      clear IH Hnd. induction l as [|[k2 w2] l IH]; [done|]. simpl in *. rewrite not_elem_of_cons in Hk. destruct Hk as [H1 H2].
      apply String.eqb_neq in H1. rewrite H1. by apply IH.
    + exfalso. apply Hk. apply list_elem_of_fmap. by exists (k, v).
  - apply elem_of_cons in Hin as [[= -> ->]|Hin]; [by rewrite String.eqb_refl in E|]. by apply IH.
Qed.

Lemma wsum_absent P l : (forall k v, (k, v) ∈ l -> P k = false) -> wsum P l = no_totals.
Proof using Type.
  induction l as [|[k v] l IH]; intros H; [done|]. simpl. rewrite (H k v) by left. apply IH. intros k' v' Hin. apply (H k' v'). by right.
Qed.
End wsum.

Lemma put_keys {A} k (v : A) l : (put k v l).*1 = if bool_decide (k ∈ l.*1) then l.*1 else l.*1 ++ [k].
Proof.
  unfold put. destruct (assoc k l) as [w|] eqn:E.
  - revert E. induction l as [|[k' w'] l IH]; [done|]. cbn [assoc set_assoc]. destruct (String.eqb k k') eqn:Ek.
    + apply String.eqb_eq in Ek as <-. intros _. rewrite bool_decide_eq_true_2 by left. done.
    + intros E. rewrite !fmap_cons, IH by done. apply String.eqb_neq in Ek. simpl fst. case_bool_decide as H1; case_bool_decide as H2; try done.
      * exfalso. apply H2. by right.
      * exfalso. apply H1. by apply elem_of_cons in H2 as [].
  - rewrite fmap_app. rewrite bool_decide_eq_false_2; [done|]. revert E. induction l as [|[k' w'] l IH]; intros E; [by intros ?%elem_of_nil|].
    simpl in *. destruct (String.eqb k k') eqn:Ek; [done|]. apply String.eqb_neq in Ek. rewrite not_elem_of_cons. split; [done|by apply IH].
Qed.

Lemma put_NoDup {A} k (v : A) l : NoDup l.*1 -> NoDup (put k v l).*1.
Proof.
  rewrite put_keys. case_bool_decide as H; [done|]. intros Hl. apply NoDup_app. split_and!; [done| |apply NoDup_singleton].
  by intros x Hx ->%list_elem_of_singleton.
Qed.

(** ** The buckets of a key *)

Definition rq_day (r : Request) : Z := day_of (rq_called r).

(** The bucket of the day [d] holds what the log has on that day. *)
Definition counted (L : list Request) (b : DayBucket) (d : Z) : Prop :=
  day b = date_string d /\ forall P, wsum totals_of P (routes b) = tally (fun r => on_day d r && P (route_class_of r)) L.

(** Days in order, none but days of the log, and the last 35 of those. *)
Definition kept_days (L : list Request) (ds : list Z) : Prop :=
  StronglySorted Z.lt ds /\ len ds <= RETENTION_DAYS /\ (forall d, d ∈ ds -> exists r, r ∈ L /\ rq_day r = d) /\
  forall r, r ∈ L -> rq_day r ∈ ds \/ len ds = RETENTION_DAYS /\ Forall (fun d => rq_day r < d) ds.

(** Recorded calls come in the order of the days, all of them printable. *)
Definition log_ok (L : list Request) : Prop :=
  StronglySorted (fun a b => rq_day a <= rq_day b) L /\ Forall (fun r => day_range (rq_day r)) L.

Definition usage_inv (L : list Request) (u : KeyUsage) : Prop :=
  total u = len L /\ exists ds, kept_days L ds /\ Forall2 (counted L) (buckets u) ds.

Lemma sorted_snoc (ds : list Z) d : StronglySorted Z.lt ds -> Forall (fun x => x < d) ds -> StronglySorted Z.lt (ds ++ [d]).
Proof.
  induction 1 as [|x ds Hs IH Hx]; intros Hd; [repeat constructor|]. inversion Hd; subst. simpl. constructor; [by apply IH|].
  apply Forall_app. by split; [|constructor].
Qed.

Lemma sorted_snoc_inv (ds : list Z) d : StronglySorted Z.lt (ds ++ [d]) -> Forall (fun x => x < d) ds.
Proof.
  induction ds as [|x ds IH]; intros H; [constructor|]. simpl in H. inversion H as [|? ? Hs Hx]; subst. constructor; [|by apply IH].
  rewrite Forall_forall in Hx. apply Hx, elem_of_app. right. left.
Qed.

Lemma sorted_NoDup (ds : list Z) : StronglySorted Z.lt ds -> NoDup ds.
Proof.
  induction 1 as [|x ds Hs IH Hx]; [constructor|]. constructor; [|done]. intros Hin. rewrite Forall_forall in Hx. specialize (Hx _ Hin). lia.
Qed.

(** In order and all within [(a, b]], they are no more than that has room for. *)
Lemma sorted_within ds a b : StronglySorted Z.lt ds -> Forall (fun d => a < d <= b) ds -> a <= b -> len ds <= b - a.
Proof.
  intros Hs. revert a. induction Hs as [|x ds Hs IH Hx]; intros a Hin Hab; [unfold len; simpl; lia|]. inversion Hin as [|? ? Hxa Hin']; subst.
  assert (len ds <= b - x); [|unfold len in *; simpl; lia]. apply IH; [|lia]. apply Forall_forall. intros d Hd. rewrite Forall_forall in Hx, Hin'.
  pose proof (Hx d Hd). pose proof (Hin' d Hd). lia.
Qed.

Lemma counted_other L r b d : rq_day r <> d -> counted L b d -> counted (L ++ [r]) b d.
Proof.
  intros Hd [H1 H2]. split; [done|]. intros P. rewrite tally_snoc, H2. assert (on_day d r = false) as -> by (unfold on_day, rq_day in *; lia).
  by autorewrite with totals.
Qed.

Lemma bump_adds c r : totals_of (bump c r) = add_totals (totals_of r) (totals_of (bump c no_counts)).
Proof. destruct c, r; apply totals_eq; simpl; lia. Qed.

Lemma counted_bump L r b : counted L b (rq_day r) -> counted (L ++ [r]) (bump_route (route_class_of r) (classifyStatus (rq_status r)) b) (rq_day r).
Proof.
  intros [H1 H2]. split; [done|]. intros P. simpl. rewrite (wsum_put totals_of no_counts eq_refl _ _ _ (one r)) by apply bump_adds.
  rewrite tally_snoc, H2. assert (on_day (rq_day r) r = true) as -> by (unfold on_day, rq_day; lia). done.
Qed.

Lemma counted_new L r : rq_day r ∉ rq_day <$> L -> counted L {| day := date_string (rq_day r); routes := [] |} (rq_day r).
Proof.
  intros H. split; [done|]. intros P. simpl. symmetry. apply tally_none. intros x Hx. unfold on_day.
  assert ((day_of (rq_called x) =? rq_day r) = false) as ->; [|done]. apply Z.eqb_neq. intros He. apply H. rewrite <- He. apply list_elem_of_fmap. by exists x.
Qed.

(** The days behind one more request. *)
Definition days_with (d : Z) (ds : list Z) : list Z := if bool_decide (d ∈ ds) then ds else ds ++ [d].

Definition keep_days (ds : list Z) : list Z := drop (length ds - Z.to_nat RETENTION_DAYS) ds.

Lemma days_of_bucket L bs ds : Forall2 (counted L) bs ds -> day <$> bs = date_string <$> ds.
Proof. induction 1 as [|b d bs ds [H _] _ IH]; [done|]. by rewrite !fmap_cons, H, IH. Qed.

Lemma count_in_counted L r bs ds :
  Forall2 (counted L) bs ds -> StronglySorted Z.lt ds -> Forall (fun d => d <= rq_day r /\ day_range d) ds -> day_range (rq_day r) ->
  (rq_day r ∈ ds \/ rq_day r ∉ rq_day <$> L) ->
  Forall2 (counted (L ++ [r])) (count_in (utcDay (rq_called r)) (route_class_of r) (classifyStatus (rq_status r)) bs) (days_with (rq_day r) ds).
Proof.
  intros Hc Hs Hle Hr Hnew. unfold utcDay, count_in, days_with. rewrite iso_day. change (day_of (rq_called r)) with (rq_day r).
  case_bool_decide as Hin.
  - apply list_elem_of_lookup in Hin as [i Hi]. destruct (Forall2_lookup_r _ _ _ _ _ Hc Hi) as (b & Hb & Hbd).
    assert (list_find (fun b => day b = date_string (rq_day r)) bs = Some (i, b)) as ->.
    { apply list_find_Some. split; [done|]. split; [apply Hbd|]. intros j b' Hj Hji He.
      destruct (Forall2_lookup_l _ _ _ _ _ Hc Hj) as (d' & Hd' & [Hb' _]). rewrite Hb' in He.
      rewrite Forall_forall in Hle. pose proof (Hle d' (list_elem_of_lookup_2 _ _ _ Hd')) as [_ Hd'r].
      apply date_string_inj in He; [|done..]. subst d'. pose proof (NoDup_lookup _ _ _ _ (sorted_NoDup _ Hs) Hd' Hi). lia. }
    rewrite <- (list_insert_id ds i (rq_day r)) by done. apply Forall2_same_length_lookup.
    rewrite !length_insert. split; [by apply Forall2_length in Hc|]. intros j b' d' Hb' Hd'. rewrite list_insert_id in Hd' by done.
    destruct (decide (j = i)) as [->|Hji].
    + rewrite list_lookup_insert_eq in Hb' by (by eapply lookup_lt_Some). injection Hb' as <-. rewrite Hi in Hd'. injection Hd' as <-. by apply counted_bump.
    + rewrite list_lookup_insert_ne in Hb' by done. apply counted_other; [|by eapply Forall2_lookup_lr].
      intros <-. apply Hji. exact (NoDup_lookup _ _ _ _ (sorted_NoDup _ Hs) Hd' Hi).
  - destruct Hnew as [?|Hnew]; [done|].
    assert (list_find (fun b => day b = date_string (rq_day r)) bs = None) as ->.
    { apply list_find_None, Forall_forall. intros b Hb He. apply list_elem_of_lookup in Hb as [i Hi].
      destruct (Forall2_lookup_l _ _ _ _ _ Hc Hi) as (d' & Hd' & [Hb' _]). rewrite Hb' in He.
      rewrite Forall_forall in Hle. pose proof (Hle d' (list_elem_of_lookup_2 _ _ _ Hd')) as [_ Hd'r].
      apply date_string_inj in He; [|done..]. subst d'. apply Hin. by eapply list_elem_of_lookup_2. }
    apply Forall2_app; [|constructor; [|constructor]; by apply counted_bump, counted_new].
    apply Forall2_same_length_lookup. split; [by eapply Forall2_length|]. intros j b d Hb Hd. apply counted_other; [|by eapply Forall2_lookup_lr].
    intros <-. apply Hin. by eapply list_elem_of_lookup_2.
Qed.

(** What is kept of the days, and of the buckets with them. *)
Lemma keep_elem ds d : d ∈ keep_days ds -> d ∈ ds.
Proof. unfold keep_days. intros H. rewrite <- (take_drop (length ds - Z.to_nat RETENTION_DAYS) ds). apply elem_of_app. by right. Qed.

Lemma keep_sorted ds : StronglySorted Z.lt ds -> StronglySorted Z.lt (keep_days ds).
Proof.
  unfold keep_days. generalize (length ds - Z.to_nat RETENTION_DAYS)%nat as n. intros n H. revert n. induction H as [|x ds Hs IH Hx]; intros n; [rewrite drop_nil; constructor|].
  destruct n as [|n]; [by constructor|apply IH].
Qed.

Lemma keep_length ds : len (keep_days ds) <= RETENTION_DAYS.
Proof. unfold keep_days, len. rewrite length_drop. unfold RETENTION_DAYS. lia. Qed.

Lemma keep_few ds : len ds <= RETENTION_DAYS -> keep_days ds = ds.
Proof. intros H. unfold keep_days, len in *. replace (length ds - Z.to_nat RETENTION_DAYS)%nat with 0%nat by (unfold RETENTION_DAYS in *; lia). done. Qed.

Lemma keep_covers ds d :
  StronglySorted Z.lt ds -> d ∈ ds -> d ∈ keep_days ds \/ len (keep_days ds) = RETENTION_DAYS /\ Forall (fun x => d < x) (keep_days ds).
Proof.
  intros Hs Hd. unfold keep_days. set (n := (length ds - Z.to_nat RETENTION_DAYS)%nat).
  rewrite <- (take_drop n ds) in Hd. apply elem_of_app in Hd as [Hd|Hd]; [right|by left].
  split. { unfold len. rewrite length_drop. unfold n. assert (n <> 0%nat) by (intros E; rewrite E in Hd; by apply elem_of_nil in Hd). unfold n, RETENTION_DAYS in *. lia. }
  clearbody n. revert n Hd. induction Hs as [|x ds Hs IH Hx]; intros [|n] Hd; simpl in *; try (by apply elem_of_nil in Hd).
  apply elem_of_cons in Hd as [->|Hd]; [|by apply IH]. apply Forall_forall. intros y Hy. rewrite Forall_forall in Hx. apply Hx.
  rewrite <- (take_drop n ds). apply elem_of_app. by right.
Qed.

Lemma days_with_sorted d ds : StronglySorted Z.lt ds -> Forall (fun x => x <= d) ds -> StronglySorted Z.lt (days_with d ds).
Proof.
  intros Hs Hd. unfold days_with. case_bool_decide as Hin; [done|]. apply sorted_snoc; [done|]. apply Forall_forall. intros x Hx.
  rewrite Forall_forall in Hd. specialize (Hd x Hx). assert (x <> d) by (by intros ->). lia.
Qed.

Lemma days_with_elem d ds x : x ∈ days_with d ds <-> x ∈ ds \/ x = d.
Proof. unfold days_with. case_bool_decide; [naive_solver|]. by rewrite elem_of_app, list_elem_of_singleton. Qed.

Lemma kept_days_step L ds r :
  kept_days L ds -> Forall (fun x => rq_day x <= rq_day r) L -> kept_days (L ++ [r]) (keep_days (days_with (rq_day r) ds)).
Proof.
  intros (Hs & Hlen & Hin & Hcov) Hle.
  assert (Hds : Forall (fun x => x <= rq_day r) ds).
  { apply Forall_forall. intros d (x & Hx & <-)%Hin. rewrite Forall_forall in Hle. by apply Hle. }
  pose proof (days_with_sorted _ _ Hs Hds) as Hs'. split; [by apply keep_sorted|]. split; [apply keep_length|]. split.
  - intros d [Hd| ->]%keep_elem%days_with_elem.
    + destruct (Hin d Hd) as (x & Hx & Hxd). exists x. split; [apply elem_of_app; by left|done].
    + exists r. split; [apply elem_of_app; right; left|done].
  - intros x Hx. assert (Hxd : rq_day x ∈ days_with (rq_day r) ds \/ len ds = RETENTION_DAYS /\ Forall (fun d => rq_day x < d) ds).
    { rewrite days_with_elem. apply elem_of_app in Hx as [Hx| ->%list_elem_of_singleton]; [|by left; right]. destruct (Hcov x Hx); [by left; left|by right]. }
    destruct Hxd as [Hxd|[H35 Hlt]]; [by apply keep_covers|]. right.
    assert (Forall (fun d => rq_day x < d) (days_with (rq_day r) ds)) as Hall.
    { apply Forall_forall. intros d [Hd| ->]%days_with_elem; [rewrite Forall_forall in Hlt; by apply Hlt|].
      destruct ds as [|d0 ds]; [by vm_compute in H35|]. apply Forall_cons in Hlt as [Hlt _]. apply Forall_cons in Hds as [Hd0 _]. lia. }
    split; [|apply Forall_forall; intros d Hd%keep_elem; rewrite Forall_forall in Hall; by apply Hall].
    unfold len, keep_days in *. rewrite length_drop. unfold days_with. case_bool_decide; [|rewrite length_app; simpl]; unfold RETENTION_DAYS in *; lia.
Qed.

Section correctness.
Context (localeCompare : string -> string -> Z)
  (dates_in_order : forall a b, day_range a -> day_range b -> a < b -> 0 < localeCompare (date_string b) (date_string a)).

Lemma prune_counted L bs ds :
  Forall2 (counted L) bs ds -> StronglySorted Z.lt ds -> Forall day_range ds ->
  Forall2 (counted L) (pruneBuckets localeCompare bs) (keep_days ds).
Proof using dates_in_order.
  intros Hc Hs Hr. pose proof (Forall2_length _ _ _ Hc) as Hlen. unfold pruneBuckets. destruct (Z.leb_spec (len bs) RETENTION_DAYS) as [Hl|_].
  - rewrite keep_few; [done|]. unfold len in *. lia.
  - cbv zeta. rewrite js_sort_id; [unfold keep_days; rewrite Hlen; by apply Forall2_drop|].
    clear Hlen. induction Hc as [|b d bs ds Hb Hc IH]; [constructor|]. inversion Hs as [|? ? Hs' Hd]; subst. inversion Hr as [|? ? Hdr Hr']; subst.
    constructor; [by apply IH|]. apply Forall_forall. intros b' Hb'. apply list_elem_of_lookup in Hb' as [i Hi].
    destruct (Forall2_lookup_l _ _ _ _ _ Hc Hi) as (d' & Hd' & [-> _]). destruct Hb as [-> _]. apply list_elem_of_lookup_2 in Hd'.
    rewrite Forall_forall in Hd, Hr'. apply Z.lt_le_incl, dates_in_order; [done|by apply Hr'|by apply Hd].
Qed.

Lemma usage_step L u r :
  usage_inv L u -> Forall (fun x => day_range (rq_day x)) (L ++ [r]) -> Forall (fun x => rq_day x <= rq_day r) L ->
  usage_inv (L ++ [r])
    {| key_id := key_id u; total := total u + 1; last_request_at := Some (toISOString (rq_ran r));
       buckets := pruneBuckets localeCompare (count_in (utcDay (rq_called r)) (route_class_of r) (classifyStatus (rq_status r)) (buckets u)) |}.
Proof using dates_in_order.
  intros (Ht & ds & Hk & Hc) Hr Hle. split; [simpl; rewrite Ht; unfold len; rewrite length_app; simpl; lia|].
  exists (keep_days (days_with (rq_day r) ds)). split; [by apply kept_days_step|]. simpl.
  apply Forall_app in Hr as [HrL [Hr _]%Forall_cons].
  assert (Hds : Forall (fun d => d <= rq_day r /\ day_range d) ds).
  { apply Forall_forall. intros d Hd. destruct Hk as (_ & _ & Hin & _). destruct (Hin d Hd) as (x & Hx & <-).
    rewrite Forall_forall in HrL, Hle. split; [by apply Hle|by apply HrL]. }
  apply prune_counted.
  - apply count_in_counted; [done|apply Hk|done|done|]. destruct Hk as (Hs & _ & _ & Hcov). destruct (decide (rq_day r ∈ ds)) as [|Hn]; [by left|right].
    intros (x & Hx & Hin)%list_elem_of_fmap. destruct (Hcov x Hin) as [Hd|[H35 Hlt]]; [by rewrite <- Hx in Hd|].
    destruct ds as [|d0 ds]; [by vm_compute in H35|]. apply Forall_cons in Hlt as [Hlt _]. apply Forall_cons in Hds as [[Hd0 _] _]. lia.
  - apply days_with_sorted; [apply Hk|]. eapply Forall_impl; [exact Hds|]. by intros d [].
  - apply Forall_forall. intros d [Hd| ->]%days_with_elem; [|done]. rewrite Forall_forall in Hds. by apply Hds.
Qed.

(** The requests of a key. *)
Definition mine (k : string) (log : list Request) : list Request := filter (fun r => of_key k r = true) log.

Lemma mine_snoc k log r : mine k (log ++ [r]) = if of_key k r then mine k log ++ [r] else mine k log.
Proof.
  unfold mine. rewrite filter_app, filter_cons, filter_nil. destruct (of_key k r) eqn:E; destruct (decide _); try done; by rewrite app_nil_r.
Qed.

Lemma sorted_before (log : list Request) r : StronglySorted (fun a b => rq_day a <= rq_day b) (log ++ [r]) ->
  StronglySorted (fun a b => rq_day a <= rq_day b) log /\ Forall (fun x => rq_day x <= rq_day r) log.
Proof.
  induction log as [|x log IH]; intros H; [split; constructor|]. simpl in H. inversion H as [|? ? Hs Hx]; subst. destruct (IH Hs) as [H1 H2].
  apply Forall_app in Hx as [Hx [Hxr _]%Forall_cons]. split; by constructor.
Qed.

(** What is kept of a key, whatever the history of all of them. *)
Lemma record_all_inv log k :
  log_ok log ->
  match getUsage k (record_all localeCompare log []) with
  | None => mine k log = []
  | Some u => key_id u = k /\ usage_inv (mine k log) u /\ mine k log <> []
  end.
Proof using dates_in_order.
  induction log as [|r log IH] using rev_ind; [done|]. intros [Hs Hr]. destruct (sorted_before _ _ Hs) as [Hs' Hle].
  assert (IH' := IH (conj Hs' (proj1 (proj1 (Forall_app _ _ _) Hr)))). clear IH.
  unfold record_all in *. rewrite fold_left_app. simpl. set (s := fold_left _ log []) in *. unfold getUsage, recordRequest in *.
  rewrite mine_snoc. unfold of_key. destruct (String.eqb (rq_key r) k) eqn:E.
  - apply String.eqb_eq in E as <-. rewrite assoc_put_eq. simpl.
    assert (Hsub : forall (P : Request -> Prop), Forall P (log ++ [r]) -> Forall P (mine (rq_key r) log ++ [r])).
    { intros P HP. apply Forall_app in HP as [HP1 HP2]. apply Forall_app. split; [|done]. apply Forall_forall. intros x [_ Hx]%list_elem_of_filter.
      rewrite Forall_forall in HP1. by apply HP1. }
    assert (Hmle : Forall (fun x => rq_day x <= rq_day r) (mine (rq_key r) log)).
    { apply Forall_forall. intros x [_ Hx]%list_elem_of_filter. rewrite Forall_forall in Hle. by apply Hle. }
    destruct (assoc (rq_key r) s) as [u|]; simpl.
    + destruct IH' as (Hk & Hu & _). split; [done|]. split; [|by destruct (mine (rq_key r) log)]. by apply usage_step; [|apply Hsub|].
    + rewrite IH' in *. split; [done|]. split; [|done]. apply (usage_step [] (new_entry (rq_key r)) r); [|by apply Hsub|constructor].
      split; [done|]. exists []. split; [|constructor]. split_and!; [constructor|done|by intros d ?%elem_of_nil|by intros d ?%elem_of_nil].
  - apply String.eqb_neq in E. by rewrite assoc_put_ne.
Qed.
End correctness.

(** ** What the summary adds up *)

Lemma fold_add {A} (f : A -> Totals) l t : fold_left (fun t x => add_totals t (f x)) l t = add_totals t (fold_right (fun x t => add_totals (f x) t) no_totals l).
Proof.
  revert t. induction l as [|x l IH]; intros t; simpl; [by autorewrite with totals|]. by rewrite IH, add_totals_assoc.
Qed.

Definition rows_of (bs : list DayBucket) (d : string) : list (string * Counts) := match bucketByDay bs d with Some b => routes b | None => [] end.

Definition point_of (bs : list DayBucket) (d : string) : DailyPoint := {| p_day := d; p_totals := wsum totals_of (fun _ => true) (rows_of bs d) |}.

Lemma add_routes_sum P rows acc : wsum Datatypes.id P (fold_left add_route rows acc) = add_totals (wsum Datatypes.id P acc) (wsum totals_of P rows).
Proof.
  revert acc. induction rows as [|[k c] rows IH]; intros acc; simpl; [by autorewrite with totals|]. rewrite IH. unfold add_route. simpl.
  rewrite (wsum_put Datatypes.id no_totals eq_refl _ _ _ (totals_of c)) by done. rewrite add_totals_assoc. by destruct (P k); autorewrite with totals.
Qed.

Lemma add_routes_NoDup rows acc : NoDup acc.*1 -> NoDup (fold_left add_route rows acc).*1.
Proof. revert acc. induction rows as [|rc rows IH]; intros acc H; simpl; [done|]. by apply IH, put_NoDup. Qed.

(** The fold over the axis: a point for each day, and an accumulator that sums
    the rows of all days. *)
Lemma day_points_spec bs ax st :
  let r := fold_left (day_point bs) ax st in
  r.1 = st.1 ++ (point_of bs <$> ax) /\
  (forall P, wsum Datatypes.id P r.2 = add_totals (wsum Datatypes.id P st.2) (fold_right (fun d t => add_totals (wsum totals_of P (rows_of bs d)) t) no_totals ax)) /\
  (NoDup st.2.*1 -> NoDup r.2.*1).
Proof.
  revert st. induction ax as [|d ax IH]; intros st; cbv zeta; simpl.
  - rewrite app_nil_r. split; [done|]. split; [|done]. intros P. by autorewrite with totals.
  - destruct (IH (day_point bs st d)) as (H1 & H2 & H3). rewrite H1. split; [|split].
    + unfold day_point at 1. simpl. rewrite <- app_assoc, fold_add, no_totals_add. reflexivity.
    + intros P. rewrite H2. unfold day_point at 1. simpl. fold (rows_of bs d). by rewrite add_routes_sum, add_totals_assoc.
    + intros Hnd. apply H3. unfold day_point. simpl. by apply add_routes_NoDup.
Qed.

(** A day in reach of the window is counted in full: its bucket is kept. *)
Lemma rows_of_day L bs ds now d P :
  kept_days L ds -> Forall2 (counted L) bs ds -> Forall (fun r => day_range (rq_day r) /\ rq_day r <= day_of now) L ->
  day_range d -> day_of now - RETENTION_DAYS < d <= day_of now ->
  wsum totals_of P (rows_of bs (date_string d)) = tally (fun r => on_day d r && P (route_class_of r)) L.
Proof.
  intros (Hs & Hlen & Hin & Hcov) Hc HL Hd Hwin. unfold rows_of, bucketByDay.
  assert (Hdays : forall x, x ∈ ds -> day_range x /\ x <= day_of now).
  { intros x (r & Hr & <-)%Hin. rewrite Forall_forall in HL. by apply HL. }
  destruct (list_find (fun b => day b = date_string d) (rev bs)) as [[i b]|] eqn:E; simpl.
  - apply list_find_Some in E as (Hb & Hday & _). apply list_elem_of_lookup_2 in Hb.
    assert (Hb' : b ∈ bs) by (by apply list_elem_of_In, in_rev, list_elem_of_In).
    apply list_elem_of_lookup in Hb' as [j Hj]. destruct (Forall2_lookup_l _ _ _ _ _ Hc Hj) as (d' & Hd' & [Hbd Hsum]).
    rewrite Hday in Hbd. apply date_string_inj in Hbd; [|done|apply Hdays; by eapply list_elem_of_lookup_2]. subst d'. apply Hsum.
  - symmetry. apply tally_none. intros r Hr. destruct (on_day d r) eqn:Er; [|done]. exfalso. unfold on_day in Er. apply Z.eqb_eq in Er. fold (rq_day r) in Er.
    destruct (Hcov r Hr) as [Hrd|[H35 Hlt]].
    + apply list_elem_of_lookup in Hrd as [j Hj]. destruct (Forall2_lookup_r _ _ _ _ _ Hc Hj) as (b & Hb & [Hbd _]). rewrite Er in Hbd.
      apply list_find_None in E. rewrite Forall_forall in E. apply (E b); [|done]. apply list_elem_of_In. apply -> in_rev. apply list_elem_of_In. by eapply list_elem_of_lookup_2.
    + assert (len ds <= day_of now - d); [|unfold RETENTION_DAYS in *; lia]. apply sorted_within; [done| |lia].
      apply Forall_forall. intros x Hx. rewrite Forall_forall in Hlt. specialize (Hlt x Hx). destruct (Hdays x Hx). lia.
Qed.

(** Days one by one make up the window. *)
Lemma days_add_up L P (ds : list Z) : NoDup ds ->
  fold_right (fun d t => add_totals (tally (fun r => on_day d r && P r) L) t) no_totals ds = tally (fun r => bool_decide (rq_day r ∈ ds) && P r) L.
Proof.
  induction 1 as [|d ds Hd Hnd IH]; simpl; [symmetry; by apply tally_none|]. rewrite IH, <- tally_or.
  - apply tally_ext. intros r _. unfold on_day. fold (rq_day r). destruct (Z.eqb_spec (rq_day r) d) as [->|Hne]; simpl.
    + rewrite (bool_decide_eq_true_2 (d ∈ d :: ds)) by left. rewrite (bool_decide_eq_false_2 (d ∈ ds)) by done. by destruct (P r).
    + assert (bool_decide (rq_day r ∈ ds) = bool_decide (rq_day r ∈ d :: ds)) as ->; [|done].
      apply bool_decide_ext. rewrite elem_of_cons. naive_solver.
  - intros r [Hr _]%andb_prop. unfold on_day in Hr. apply Z.eqb_eq in Hr. fold (rq_day r) in Hr. rewrite bool_decide_eq_false_2; [done|]. by rewrite Hr.
Qed.

(** The days of a window, in order. *)
Definition window_list (n now : Z) : list Z := (fun i => day_of now - Z.of_nat i) <$> rev (seq 0 (Z.to_nat n)).

Lemma window_list_elem n now d : 0 <= n -> d ∈ window_list n now <-> day_of now - n < d <= day_of now.
Proof.
  intros Hn. unfold window_list. rewrite list_elem_of_fmap. split.
  - intros (i & -> & Hi%list_elem_of_In%in_rev%list_elem_of_In%elem_of_seq). lia.
  - intros Hd. exists (Z.to_nat (day_of now - d)). split; [lia|]. apply list_elem_of_In. apply -> in_rev. apply list_elem_of_In, elem_of_seq. lia.
Qed.

Lemma window_list_NoDup n now : NoDup (window_list n now).
Proof.
  unfold window_list. apply NoDup_fmap_2_strong; [intros x y _ _ H; lia|]. apply NoDup_ListNoDup, NoDup_rev, NoDup_ListNoDup, NoDup_seq.
Qed.

Lemma axis_days w now : axis w now = date_string <$> window_list (floorZ w) now.
Proof.
  unfold axis, window_list. rewrite <- list_fmap_compose. apply list_fmap_ext. intros _ i _. unfold utcDay, compose. rewrite iso_day. f_equal.
  unfold day_of. replace (now - Z.of_nat i * ms_per_day) with (now + (- Z.of_nat i) * ms_per_day) by lia. rewrite Z.div_add by done. lia.
Qed.

Lemma window_bounds days : 0 <= floorZ (clamp_floor 1 RETENTION_DAYS days) <= RETENTION_DAYS.
Proof.
  rewrite clamp_floor_spec by done. destruct days as [|[]|q]; rewrite ?floorZ_int; unfold RETENTION_DAYS; simpl floorZ; lia.
Qed.

Lemma tally_mine k p log : tally p (mine k log) = tally (fun r => of_key k r && p r) log.
Proof. unfold mine. rewrite tally_filter. apply tally_ext. intros r _. f_equal. by destruct (of_key k r). Qed.

Lemma fold_right_same {A} (f g : A -> Totals) l : (forall x, x ∈ l -> f x = g x) ->
  fold_right (fun x t => add_totals (f x) t) no_totals l = fold_right (fun x t => add_totals (g x) t) no_totals l.
Proof.
  induction l as [|x l IH]; intros H; [done|]. simpl. rewrite (H x) by left. f_equal. apply IH. intros y Hy. apply H. by right.
Qed.

Lemma tally_some p L r : r ∈ L -> p r = true -> tally p L <> no_totals.
Proof.
  intros Hr Hp. assert (Hpos : forall l, 0 <= t_total (tally p l)).
  { clear. induction l as [|x l IH]; [done|]. simpl. destruct (p x); [|done]. simpl. unfold one. by destruct (classifyStatus _); simpl; lia. }
  enough (0 < t_total (tally p L)) by (intros E; rewrite E in *; simpl in *; lia).
  induction L as [|x L IH]; [by apply elem_of_nil in Hr|]. simpl. pose proof (Hpos L). apply elem_of_cons in Hr as [<-|Hr].
  - rewrite Hp. simpl. unfold one. destruct (classifyStatus _); simpl; lia.
  - specialize (IH Hr). destruct (p x); [|done]. simpl. unfold one. destruct (classifyStatus _); simpl; lia.
Qed.

Lemma len_tally L : len L = t_total (tally (fun _ => true) L).
Proof.
  induction L as [|r L IH]; [done|]. unfold len in *. simpl. rewrite <- IH. unfold one. destruct (classifyStatus _); simpl; lia.
Qed.

(** The summary of counters that hold the log [L]. *)
Lemma summary_exact L u days now :
  usage_inv L u -> Forall (fun r => day_range (rq_day r) /\ rq_day r <= day_of now) L ->
  day_range (day_of now - RETENTION_DAYS) -> day_range (day_of now) ->
  let s := summarise (Some u) days now in
  let n := floorZ (clamp_floor 1 RETENTION_DAYS days) in
  daily s = (fun d => {| p_day := date_string d; p_totals := tally (on_day d) L |}) <$> window_list n now /\
  window_totals s = tally (in_window n now) L /\
  (forall row, row ∈ by_route s -> r_totals row = tally (fun r => in_window n now r && on_route (route_class row) r) L) /\
  (forall r, r ∈ L -> in_window n now r = true -> route_class_of r ∈ route_class <$> by_route s).
Proof.
  intros (_ & ds & Hk & Hc) HL Hlo Hhi s n. pose proof (window_bounds days) as Hn. fold n in Hn.
  assert (Hrows : forall d P, d ∈ window_list n now -> wsum totals_of P (rows_of (buckets u) (date_string d)) = tally (fun r => on_day d r && P (route_class_of r)) L).
  { intros d P Hd%window_list_elem; [|lia]. apply (rows_of_day L _ ds now); try done; [|lia].
    apply (day_range_between (day_of now - RETENTION_DAYS) _ (day_of now)); [done|done|lia]. }
  assert (Hsum : forall P, fold_right (fun d t => add_totals (wsum totals_of P (rows_of (buckets u) d)) t) no_totals (axis (clamp_floor 1 RETENTION_DAYS days) now)
     = tally (fun r => in_window n now r && P (route_class_of r)) L).
  { intros P. rewrite axis_days. fold n. rewrite foldr_fmap.
    rewrite (fold_right_same _ _ _ (fun d Hd => Hrows d P Hd)), (days_add_up L (fun r => P (route_class_of r))) by apply window_list_NoDup.
    apply tally_ext. intros r _. f_equal. apply eq_true_iff_eq. rewrite bool_decide_eq_true, window_list_elem by lia. unfold in_window, rq_day. lia. }
  destruct (day_points_spec (buckets u) (axis (clamp_floor 1 RETENTION_DAYS days) now) ([], [])) as (H1 & H2 & H3).
  unfold s, summarise. cbv zeta. destruct (fold_left _ _ _) as [points acc]. simpl in *. specialize (H3 (NoDup_nil_2)).
  assert (Hacc : forall P, wsum Datatypes.id P acc = tally (fun r => in_window n now r && P (route_class_of r)) L) by (intros P; by rewrite H2, no_totals_add).
  split; [|split; [|split]].
  - rewrite H1, axis_days, <- list_fmap_compose. fold n. apply list_fmap_ext. intros i d Hd%list_elem_of_lookup_2. unfold point_of, compose. f_equal.
    rewrite Hrows by done. apply tally_ext. intros r _. by rewrite andb_true_r.
  - rewrite fold_add, no_totals_add, H1, foldr_fmap. etransitivity; [apply (Hsum (fun _ => true))|]. apply tally_ext. intros r _. by rewrite andb_true_r.
  - intros row Hrow. rewrite js_sort_elem in Hrow. apply list_elem_of_fmap in Hrow as ([rc v] & -> & Hv). simpl.
    transitivity (wsum Datatypes.id (String.eqb rc) acc); [symmetry; by apply (wsum_one Datatypes.id)|]. rewrite Hacc. apply tally_ext. intros r _. unfold on_route. by rewrite String.eqb_sym.
  - intros r Hr Hw. destruct (decide (route_class_of r ∈ route_class <$> js_sort (by_desc (fun r => t_total (r_totals r))) (row_of <$> acc))) as [|Hn']; [done|exfalso].
    apply (tally_some (fun x => in_window n now x && String.eqb (route_class_of r) (route_class_of x)) L r Hr); [by rewrite Hw, String.eqb_refl|].
    rewrite <- (Hacc (String.eqb (route_class_of r))). apply wsum_absent. intros rc v Hv. apply String.eqb_neq. intros <-. apply Hn'.
    apply list_elem_of_fmap. exists (row_of (route_class_of r, v)). split; [done|]. rewrite js_sort_elem. by apply list_elem_of_fmap_2.
Qed.

(** C21. The analytics of a key are its requests: the lifetime total counts them
    all; the days of the window, each in full, and the rows of the routes the
    ones of the window, every route used having its row; and no more than 35
    days are ever stored. *)
Theorem usage_exact localeCompare log k days now :
  (forall a b, day_range a -> day_range b -> a < b -> 0 < localeCompare (date_string b) (date_string a)) ->
  log_ok log -> Forall (fun r => rq_day r <= day_of now) log ->
  day_range (day_of now - RETENTION_DAYS) -> day_range (day_of now) ->
  let u := getUsage k (record_all localeCompare log []) in
  let s := summarise u days now in
  let n := floorZ (window_days s) in
  s_total s = t_total (tally (of_key k) log) /\
  daily s = (fun d => {| p_day := date_string d; p_totals := tally (fun r => of_key k r && on_day d r) log |}) <$> window_list n now /\
  window_totals s = tally (fun r => of_key k r && in_window n now r) log /\
  (forall row, row ∈ by_route s -> r_totals row = tally (fun r => of_key k r && (in_window n now r && on_route (route_class row) r)) log) /\
  (forall r, r ∈ log -> of_key k r = true -> in_window n now r = true -> route_class_of r ∈ route_class <$> by_route s) /\
  from_option (fun u => len (buckets u) <= RETENTION_DAYS) True u.
Proof.
  intros Hcol Hlog Hpast Hlo Hhi u s n. pose proof (record_all_inv localeCompare Hcol log k Hlog) as Hu. fold u in Hu.
  assert (En : n = floorZ (clamp_floor 1 RETENTION_DAYS days)) by (unfold n, s, summarise; cbv zeta; destruct u; [by destruct (fold_left _ _ _)|done]).
  clearbody n. subst n. unfold s. clear s. destruct u as [u|].
  - destruct Hu as (_ & Hu & _).
    assert (HL : Forall (fun r => day_range (rq_day r) /\ rq_day r <= day_of now) (mine k log)).
    { apply Forall_forall. intros r [_ Hr]%list_elem_of_filter. destruct Hlog as [_ Hr']. rewrite Forall_forall in Hpast, Hr'. split; [by apply Hr'|by apply Hpast]. }
    destruct (summary_exact (mine k log) u days now Hu HL Hlo Hhi) as (H1 & H2 & H3 & H4). split_and!.
    + assert (s_total (summarise (Some u) days now) = total u) as -> by (unfold summarise; cbv zeta; by destruct (fold_left _ _ _)).
      destruct Hu as [-> _]. rewrite len_tally, tally_mine. f_equal. apply tally_ext. intros r _. by rewrite andb_true_r.
    + rewrite H1. apply list_fmap_ext. intros i d _. by rewrite tally_mine.
    + by rewrite H2, tally_mine.
    + intros row Hrow. by rewrite (H3 row Hrow), tally_mine.
    + intros r Hr Hkr Hw. apply H4; [|done]. by apply list_elem_of_filter.
    + simpl. destruct Hu as (_ & ds & (_ & Hlen & _) & Hc). unfold len in *. by rewrite (Forall2_length _ _ _ Hc).
  - assert (Hnone : forall p, tally (fun r => of_key k r && p r) log = no_totals) by (intros p; by rewrite <- tally_mine, Hu).
    split_and!; simpl.
    + rewrite (tally_ext _ (fun r => of_key k r && true)); [by rewrite Hnone|]. intros r _. by rewrite andb_true_r.
    + rewrite axis_days, <- list_fmap_compose. apply list_fmap_ext. intros i d _. unfold compose. by rewrite Hnone.
    + by rewrite Hnone.
    + by intros row ?%elem_of_nil.
    + intros r Hr Hkr _. exfalso. assert (r ∈ mine k log) as Hm by (by apply list_elem_of_filter). rewrite Hu in Hm. by apply elem_of_nil in Hm.
    + done.
Qed.

Definition code_order (a b : string) : Z := if str_lt a b then -1 else if str_lt b a then 1 else 0.

Lemma code_order_dates a b : day_range a -> day_range b -> a < b -> 0 < code_order (date_string b) (date_string a).
Proof.
  intros Ha Hb Hab. unfold code_order. rewrite !date_string_lt by done.
  destruct (Z.ltb_spec b a); [lia|]. by destruct (Z.ltb_spec a b); [|lia].
Qed.

Definition demo_log : list Request :=
  let rq k rc st t := {| rq_key := k; rq_route := rc; rq_status := st; rq_called := t; rq_ran := t + 3 |} in
  [rq "k1" "api_v1" 200 1700000000000; rq "k2" "api_v1" 200 1700000000001; rq "k1" "" 404 1700000000002; rq "k1" "api_v1" 503 1700050000000].

Lemma usage_exact_witness :
  let s := summarise (getUsage "k1" (record_all code_order demo_log [])) (int 2) 1700050000001 in
  s_total s = 3 /\ t_total (window_totals s) = 3 /\ t_total <$> (p_totals <$> daily s) = [2; 1].
Proof.
  assert (Hd : forall r, r ∈ demo_log -> rq_day r = 19675 \/ rq_day r = 19676).
  { intros r Hr. apply list_elem_of_In in Hr. destruct Hr as [<-|[<-|[<-|[<-|[]]]]]; first [left; by vm_compute|right; by vm_compute]. }
  assert (H0 : forall d, d = 19675 \/ d = 19676 -> day_range d) by (intros d [-> | ->]; split; vm_compute; discriminate).
  assert (H1 : log_ok demo_log).
  { split; [|apply Forall_forall; intros r Hr; by apply H0, Hd]. repeat (constructor; [|repeat (apply Forall_cons; split; [by vm_compute|]); apply Forall_nil_2]).
    constructor. }
  assert (H2 : Forall (fun r => rq_day r <= day_of 1700050000001) demo_log).
  { apply Forall_forall. intros r Hr. change (day_of 1700050000001) with 19676. destruct (Hd r Hr); lia. }
  destruct (usage_exact code_order demo_log "k1" (int 2) 1700050000001 code_order_dates H1 H2) as (E1 & E2 & E3 & _);
    [split; vm_compute; discriminate|split; vm_compute; discriminate|].
  split; [rewrite E1; by vm_compute|]. split; [rewrite E3; by vm_compute|]. rewrite E2. by vm_compute.
Defined.
