(* ===== verification/Sla.v ===== *)
(** The register of service-level commitments, [web/lib/slaStore.ts]: what can
    be published, the versions with their history, the chain of writes, and the
    credit owed for an observed uptime; with the coercions of
    [web/app/api/admin/sla/route.ts]. SHA-256 of the notes and the number of a
    JSON value are parameters. *)
From S2P Require Import Prelude JsNum JsDate IsoTime Json Store Scim.

Definition MAX_NOTE_LEN : Z := 2000.
Definition MAX_CONTACT_LEN : Z := 200.
Definition MAX_HISTORY : Z := 200.
Definition UPTIME_BPS_MIN : Z := 9000.
Definition UPTIME_BPS_MAX : Z := 9999.
Definition RESP_MIN_MINUTES : Z := 5.
Definition RESP_MAX_MINUTES : Z := 7 * 24 * 60.
Definition CREDIT_MAX_PCT : Z := 100.

Record ResponseMatrix := { sev1 : num; sev2 : num; sev3 : num; sev4 : num }.
Record CreditTier := { below_uptime_bps : num; credit_pct : num }.

Record PublishInput := {
  in_uptime : num; in_response : ResponseMatrix; in_ladder : list CreditTier; in_notes : string; in_support_email : string;
  in_status_page_url : option string; in_security_email : option string; actor_id : string; actor_email : option string }.

Record SlaCommitment := {
  version : num; effective_at : Z; published_by : string; published_by_email : option string; uptime_target_bps : num;
  response_targets : ResponseMatrix; credit_ladder : list CreditTier; notes : string; notes_sha256 : string;
  support_email : string; status_page_url : option string; security_email : option string }.

Inductive SlaError := bad_uptime | bad_response | bad_response_order | bad_ladder | bad_ladder_order | bad_notes | bad_contact.

(** [Number.isInteger(v) && lo <= v && v <= hi]. *)
Definition int_between (lo hi : Z) (n : num) : bool := is_integer n && negb (num_lt n (int lo)) && negb (num_lt (int hi) n).

(** The tiers one by one, against the one before and the target. *)
Fixpoint check_ladder (target prevBps prevPct : num) (l : list CreditTier) : option SlaError :=
  match l with
  | [] => None
  | t :: r =>
      if negb (int_between UPTIME_BPS_MIN UPTIME_BPS_MAX (below_uptime_bps t)) then Some bad_ladder
      else if negb (int_between 1 CREDIT_MAX_PCT (credit_pct t)) then Some bad_ladder
      else if num_le prevBps (below_uptime_bps t) then Some bad_ladder_order
      else if num_le (credit_pct t) prevPct then Some bad_ladder_order
      else if num_le target (below_uptime_bps t) then Some bad_ladder
      else check_ladder target (below_uptime_bps t) (credit_pct t) r
  end.

(** [/^https:\/\/[^\s]+$/]. *)
Definition https_url (s : string) : bool :=
  starts_with "https://" s && truthy (str_drop 8 s) && str_forall (fun c => negb (is_space c)) (str_drop 8 s).

(** The first refusal, if any. *)
Definition validate (i : PublishInput) : option SlaError :=
  let r := in_response i in
  if negb (int_between UPTIME_BPS_MIN UPTIME_BPS_MAX (in_uptime i)) then Some bad_uptime
  else if negb (forallb (int_between RESP_MIN_MINUTES RESP_MAX_MINUTES) [sev1 r; sev2 r; sev3 r; sev4 r]) then Some bad_response
  else if num_lt (sev2 r) (sev1 r) || num_lt (sev3 r) (sev2 r) || num_lt (sev4 r) (sev3 r) then Some bad_response_order
  else if (length (in_ladder i) =? 0)%nat then Some bad_ladder
  else if len (in_ladder i) >? 10 then Some bad_ladder
  else match check_ladder (in_uptime i) (Infinity true) (int (-1)) (in_ladder i) with
       | Some e => Some e
       | None =>
           if negb (truthy (in_notes i)) then Some bad_notes
           else if str_len (in_notes i) >? MAX_NOTE_LEN then Some bad_notes
           else if negb (is_email (in_support_email i)) || (str_len (in_support_email i) >? MAX_CONTACT_LEN) then Some bad_contact
           else if match in_status_page_url i with Some s => truthy s && negb (https_url s) | None => false end then Some bad_contact
           else if match in_security_email i with
                   | Some s => truthy s && (negb (is_email s) || (str_len s >? MAX_CONTACT_LEN)) | None => false end then Some bad_contact
           else None
       end.

(** ** The register: a file of raw commitments *)

Definition tier_json (t : CreditTier) : json := JObj [("below_uptime_bps", JNum (below_uptime_bps t)); ("credit_pct", JNum (credit_pct t))].

Definition commitment_json (c : SlaCommitment) : json :=
  JObj [("version", JNum (version c)); ("effective_at", JStr (toISOString (effective_at c))); ("published_by", JStr (published_by c));
        ("published_by_email", jopt JStr (published_by_email c)); ("uptime_target_bps", JNum (uptime_target_bps c));
        ("response_targets", let r := response_targets c in
           JObj [("sev1", JNum (sev1 r)); ("sev2", JNum (sev2 r)); ("sev3", JNum (sev3 r)); ("sev4", JNum (sev4 r))]);
        ("credit_ladder", JArr (tier_json <$> credit_ladder c)); ("notes", JStr (notes c)); ("notes_sha256", JStr (notes_sha256 c));
        ("contacts", JObj [("support_email", JStr (support_email c)); ("status_page_url", jopt JStr (status_page_url c));
                           ("security_email", jopt JStr (security_email c))])].

Definition isCommitment (v : jval) : bool :=
  match v with
  | Some j =>
      is_object j && match field "version" j with Some (JNum _) => true | _ => false end &&
      match field "uptime_target_bps" j with Some (JNum _) => true | _ => false end &&
      match field "response_targets" j with Some r => is_object r | None => false end &&
      match field "credit_ladder" j with Some (JArr _) => true | _ => false end &&
      match field "notes" j with Some (JStr _) => true | _ => false end &&
      match field "notes_sha256" j with Some (JStr _) => true | _ => false end
  | None => false
  end.

Record SlaRegister := { current : option json; history : list json }.
Definition EMPTY : SlaRegister := {| current := None; history := [] |}.

(** What the disk holds: nothing, text that is no JSON, or a value. *)
Inductive Disk := NoFile | Garbage | Value (j : json).

(** [None]: reading throws. *)
Definition readRaw (d : Disk) : option SlaRegister :=
  match d with
  | NoFile => Some EMPTY
  | Garbage => None
  | Value parsed =>
      Some (if negb (is_object parsed) then EMPTY else
        {| current := if isCommitment (field "current" parsed) then field "current" parsed else None;
           history := match field "history" parsed with
                      | Some (JArr l) => take (Z.to_nat MAX_HISTORY) (filter (fun j => isCommitment (Some j) = true) l)
                      | _ => []
                      end |})
  end.

Definition register_json (r : SlaRegister) : json :=
  JObj [("current", match current r with Some j => j | None => JNull end); ("history", JArr (history r))].

(** The disk, and whether the chain of writes is still fulfilled. *)
Record Process := { disk : Disk; chain_ok : bool }.

Inductive Outcome := Refused (e : SlaError) | Throws | Published (c : SlaCommitment).

(** [(current?.version ?? 0) + 1], exact on the integers below 2^53. *)
Definition js_succ (n : num) : num := match n with Fin q => Fin (QArith_base.Qplus q (QArith_base.inject_Z 1)) | _ => n end.
Definition next_version (r : SlaRegister) : num :=
  match current r with Some j => match field "version" j with Some (JNum n) => js_succ n | _ => int 1 end | None => int 1 end.

Section Sla.
Context (sha256 : string -> string).

(** A text, or [null] when it is missing or empty. *)
Definition text_or_null (s : option string) : option string := match s with Some t => if truthy t then Some t else None | None => None end.

Definition new_commitment (v : num) (now : Z) (i : PublishInput) : SlaCommitment :=
  {| version := v; effective_at := now; published_by := actor_id i; published_by_email := actor_email i; uptime_target_bps := in_uptime i;
     response_targets := in_response i; credit_ladder := in_ladder i; notes := in_notes i; notes_sha256 := sha256 (in_notes i);
     support_email := in_support_email i; status_page_url := text_or_null (in_status_page_url i); security_email := text_or_null (in_security_email i) |}.

(** [io]: the directory, the write and the rename succeed. A link of the chain
    that throws leaves the chain rejected, and a rejected chain runs no further
    link. *)
Definition publish (i : PublishInput) (now : Z) (io : bool) (p : Process) : Outcome * Process :=
  match validate i with
  | Some e => (Refused e, p)
  | None =>
      if negb (chain_ok p) then (Throws, p) else
      match readRaw (disk p) with
      | None => (Throws, {| disk := disk p; chain_ok := false |})
      | Some reg =>
          let c := new_commitment (next_version reg) now i in
          let history' := take (Z.to_nat MAX_HISTORY) ((match current reg with Some j => [j] | None => [] end) ++ history reg) in
          if io then (Published c, {| disk := Value (register_json {| current := Some (commitment_json c); history := history' |}); chain_ok := true |})
          else (Throws, {| disk := disk p; chain_ok := false |})
      end
  end.

Definition getState (p : Process) : option SlaRegister := readRaw (disk p).
End Sla.

(** The credit owed: the largest of the tiers the uptime falls below. *)
Definition owed_step (observed : num) (owed : option (num * num)) (t : CreditTier) : option (num * num) :=
  if num_lt observed (below_uptime_bps t) then
    match owed with
    | Some (pct, _) => if num_lt pct (credit_pct t) then Some (credit_pct t, below_uptime_bps t) else owed
    | None => Some (credit_pct t, below_uptime_bps t)
    end
  else owed.

Definition evaluateCredit (c : SlaCommitment) (observed : num) : option (num * num) :=
  if num_le (uptime_target_bps c) observed then None else fold_left (owed_step observed) (credit_ladder c) None.

(** ** The route's coercions *)

Section Route.
Context (Number_of : jval -> num).

Definition asMatrix (v : jval) : ResponseMatrix :=
  match v with
  | Some j => if is_object j then {| sev1 := Number_of (field "sev1" j); sev2 := Number_of (field "sev2" j);
                                     sev3 := Number_of (field "sev3" j); sev4 := Number_of (field "sev4" j) |}
              else {| sev1 := NaN; sev2 := NaN; sev3 := NaN; sev4 := NaN |}
  | None => {| sev1 := NaN; sev2 := NaN; sev3 := NaN; sev4 := NaN |}
  end.

Definition asLadder (v : jval) : list CreditTier :=
  match v with
  | Some (JArr l) => (fun t => {| below_uptime_bps := Number_of (field "below_uptime_bps" t); credit_pct := Number_of (field "credit_pct" t) |}) <$>
                     filter (fun t => is_object t = true) l
  | _ => []
  end.

Definition input_of (body : json) (actor : string) : PublishInput :=
  {| in_uptime := Number_of (field "uptime_target_bps" body); in_response := asMatrix (field "response_targets" body);
     in_ladder := asLadder (field "credit_ladder" body); in_notes := default "" (string_or_null (field "notes" body));
     in_support_email := default "" (string_or_null (field "support_email" body));
     in_status_page_url := string_or_null (field "status_page_url" body); in_security_email := string_or_null (field "security_email" body);
     actor_id := actor; actor_email := string_or_null (field "actor_email" body) |}.
End Route.

(** * The register *)

Lemma js_succ_int z : js_succ (int z) = int (z + 1).
Proof. unfold js_succ, int, QArith_base.inject_Z, QArith_base.Qplus. simpl. do 2 f_equal. lia. Qed.

(** A register of commitments is read back as it was written. *)
Definition readable (r : SlaRegister) : Prop :=
  from_option (fun j => isCommitment (Some j) = true) True (current r) /\ Forall (fun j => isCommitment (Some j) = true) (history r) /\
  len (history r) <= MAX_HISTORY.

Lemma readRaw_register r : readable r -> readRaw (Value (register_json r)) = Some r.
Proof.
  intros (Hc & Hh & Hl). destruct r as [cur h]. unfold readRaw. simpl in *. f_equal. f_equal.
  - destruct cur as [j|]; [by rewrite Hc|done].
  - rewrite filter_all by done. apply take_ge. unfold len, MAX_HISTORY in *. lia.
Qed.

Lemma isCommitment_json c : isCommitment (Some (commitment_json c)) = true.
Proof. done. Qed.

(** Publications one after the other, and what was published. *)
Definition attempts := (list (PublishInput * Z * bool)).

Fixpoint run (sha256 : string -> string) (ops : attempts) (p : Process) : list Outcome * Process :=
  match ops with
  | [] => ([], p)
  | (i, now, io) :: r => let '(o, p) := publish sha256 i now io p in let '(os, p) := run sha256 r p in (o :: os, p)
  end.

Definition published (os : list Outcome) : list SlaCommitment := omap (fun o => match o with Published c => Some c | _ => None end) os.

(** What the register holds once [cs] has been published, the newest first. *)
Definition register_of (cs : list SlaCommitment) : SlaRegister :=
  {| current := commitment_json <$> head cs; history := take (Z.to_nat MAX_HISTORY) (commitment_json <$> tail cs) |}.

Definition holds (cs : list SlaCommitment) (p : Process) : Prop :=
  readRaw (disk p) = Some (register_of cs) /\ from_option version (int 0) (head cs) = int (len cs).

Lemma register_readable cs : readable (register_of cs).
Proof.
  unfold readable, register_of. simpl. split; [by destruct cs|]. split.
  - apply Forall_forall. intros j Hj. assert (j ∈ commitment_json <$> tail cs) as (c & -> & _)%list_elem_of_fmap; [|done].
    rewrite <- (take_drop (Z.to_nat MAX_HISTORY) (commitment_json <$> tail cs)). apply elem_of_app. by left.
  - unfold len. rewrite length_take. unfold MAX_HISTORY. lia.
Qed.

Lemma publish_holds sha256 i now io p cs :
  holds cs p ->
  let '(o, p') := publish sha256 i now io p in
  match o with
  | Published c => holds (c :: cs) p' /\ c = new_commitment sha256 (int (len cs + 1)) now i /\ validate i = None
  | _ => holds cs p'
  end.
Proof.
  intros [Hr Hv]. unfold publish. destruct (validate i) as [e|]; [done|]. destruct (chain_ok p); [|done]. simpl negb. cbv iota.
  rewrite Hr. destruct io; [|done]. cbv zeta.
  assert (Hnext : next_version (register_of cs) = int (len cs + 1)).
  { unfold next_version, register_of. simpl. destruct cs as [|c cs]; [done|]. simpl in *. by rewrite Hv, js_succ_int. }
  rewrite Hnext. split; [|done]. split; [|unfold len; simpl; f_equal; lia].
  match goal with |- context [register_json ?r] => assert (r = register_of (new_commitment sha256 (int (len cs + 1)) now i :: cs)) as -> end.
  { unfold register_of. simpl. f_equal. destruct cs as [|c cs]; [done|]. simpl. f_equal. by rewrite take_take. }
  apply readRaw_register, register_readable.
Qed.

Lemma run_holds sha256 ops p cs :
  holds cs p -> let '(os, p') := run sha256 ops p in holds (rev (published os) ++ cs) p' /\
    forall k c, published os !! k = Some c -> version c = int (len cs + Z.of_nat k + 1) /\ notes_sha256 c = sha256 (notes c).
Proof.
  revert p cs. induction ops as [|[[i now] io] ops IH]; intros p cs Hp; simpl; [done|].
  pose proof (publish_holds sha256 i now io p cs Hp) as Hstep. destruct (publish sha256 i now io p) as [o p1]. destruct o as [e| |c].
  1, 2: specialize (IH p1 cs Hstep); by destruct (run sha256 ops p1).
  destruct Hstep as (H1 & -> & _). specialize (IH p1 _ H1). destruct (run sha256 ops p1) as [os p2]. destruct IH as [IH1 IH2]. split.
  - simpl. by rewrite <- app_assoc.
  - intros [|k] c' Hk; simpl in Hk.
    + injection Hk as <-. simpl. split; [|done]. f_equal. lia.
    + destruct (IH2 k c' Hk) as [-> ->]. split; [|done]. f_equal. unfold len. simpl. lia.
Qed.

(** Whatever is tried and whatever fails on the way, the register is a ledger:
    the n-th commitment published carries version n and the hash of its notes;
    the last is the one in force, and behind it stand the ones before it, the
    newest first and each as it was published, 200 of them at most. *)
Theorem sla_ledger sha256 ops :
  let '(os, p) := run sha256 ops {| disk := NoFile; chain_ok := true |} in
  getState p = Some (register_of (rev (published os))) /\
  forall k c, published os !! k = Some c -> version c = int (Z.of_nat k + 1) /\ notes_sha256 c = sha256 (notes c).
Proof.
  pose proof (run_holds sha256 ops {| disk := NoFile; chain_ok := true |} []) as H. destruct (run sha256 ops _) as [os p].
  destruct H as [[H1 _] H2]; [done|]. rewrite app_nil_r in H1. split; [done|]. intros k c Hk. by apply H2.
Qed.

(** One failed write ends the chain for good: nothing can be published until the
    process restarts, the disk working again or not. *)
Lemma failed_write_ends_publishing sha256 i now p ops :
  validate i = None -> chain_ok p = true -> is_Some (readRaw (disk p)) ->
  let p' := snd (publish sha256 i now false p) in
  snd (run sha256 ops p') = p' /\ published (fst (run sha256 ops p')) = [].
Proof.
  intros Hi Hc [reg Hr] p'. assert (Hp : chain_ok p' = false) by (unfold p', publish; by rewrite Hi, Hc, Hr).
  clearbody p'. induction ops as [|[[j t] io] ops IH]; [done|]. simpl.
  assert (Hj : (publish sha256 j t io p').2 = p' /\ match (publish sha256 j t io p').1 with Published _ => False | _ => True end).
  { unfold publish. destruct (validate j); [done|]. by rewrite Hp. }
  destruct (publish sha256 j t io p') as [o p2]. simpl in Hj. destruct Hj as [-> Ho]. destruct (run sha256 ops p') as [os p3]. simpl in *.
  destruct IH as [-> IH]. by destruct o.
Qed.

(** * The credit *)

Lemma num_lt_fin a b : num_lt (Fin a) (Fin b) = true <-> QArith_base.Qlt a b.
Proof.
  simpl. rewrite negb_true_iff, <- not_true_iff_false, QArith_base.Qle_bool_iff. split; [apply QArith_base.Qnot_le_lt|apply QArith_base.Qlt_not_le].
Qed.

Lemma num_le_fin a b : num_le (Fin a) (Fin b) = true <-> QArith_base.Qle a b.
Proof. simpl. apply QArith_base.Qle_bool_iff. Qed.

Lemma num_le_lt_false a b : num_le (Fin a) (Fin b) = negb (num_lt (Fin b) (Fin a)).
Proof. simpl. by rewrite negb_involutive. Qed.

(** The ladder as it stands: finite, below the target, and each tier lower and
    worth more than the one before it. *)
Definition steeper (s t : CreditTier) : Prop :=
  num_lt (below_uptime_bps t) (below_uptime_bps s) = true /\ num_lt (credit_pct s) (credit_pct t) = true.

Definition tier_ok (target : num) (t : CreditTier) : Prop :=
  is_finite (below_uptime_bps t) = true /\ is_finite (credit_pct t) = true /\ num_lt (below_uptime_bps t) target = true.

Lemma int_between_finite lo hi n : int_between lo hi n = true -> is_finite n = true.
Proof. unfold int_between. by destruct n as [|b|q]. Qed.

#[export] Instance steeper_trans : Transitive steeper.
Proof.
  intros [ab ap] [bb bp] [cb cp] [H1 H2] [H3 H4]. unfold steeper in *. simpl in *.
  destruct ab as [|[]|], ap as [|[]|], bb as [|[]|], bp as [|[]|], cb as [|[]|], cp as [|[]|]; try done;
    rewrite ?num_lt_fin in *; split; try done; rewrite ?num_lt_fin; by eapply QArith_base.Qlt_trans.
Qed.

Lemma check_ladder_ok target pb pp l :
  is_finite target = true -> check_ladder target pb pp l = None ->
  Forall (tier_ok target) l /\ (is_finite pb = true -> is_finite pp = true -> Forall (steeper {| below_uptime_bps := pb; credit_pct := pp |}) l) /\
  StronglySorted steeper l.
Proof.
  intros Ht. revert pb pp. induction l as [|t l IH]; intros pb pp H; [split_and!; constructor|]. cbn [check_ladder] in H.
  destruct (int_between UPTIME_BPS_MIN UPTIME_BPS_MAX _) eqn:E1; [|done]. destruct (int_between 1 _ _) eqn:E2; [|done]. simpl negb in H. cbv iota in H.
  destruct (num_le pb _) eqn:E3; [done|]. destruct (num_le _ pp) eqn:E4; [done|]. destruct (num_le target _) eqn:E5; [done|].
  apply int_between_finite in E1, E2. destruct (IH _ _ H) as (H1 & H2 & H3). specialize (H2 E1 E2).
  assert (Hok : tier_ok target t).
  { split_and!; [done..|]. destruct target as [| |q]; try done. destruct (below_uptime_bps t) as [| |b]; try done. rewrite num_le_lt_false in E5. by apply negb_false_iff in E5. }
  assert (Hst : Forall (steeper t) l) by (by destruct t).
  split_and!; [by constructor| |by constructor].
  intros Hpb Hpp. assert (Hs : steeper {| below_uptime_bps := pb; credit_pct := pp |} t).
  { unfold steeper. simpl. destruct pb as [| |pb], pp as [| |pp], (below_uptime_bps t) as [| |b], (credit_pct t) as [| |c]; try done.
    rewrite num_le_lt_false in E3, E4. apply negb_false_iff in E3, E4. done. }
  constructor; [done|]. eapply Forall_impl; [exact Hst|]. intros u Hu. by etrans.
Qed.

(** The fold picks the last tier the uptime is below. *)
Lemma fold_owed l o acc :
  StronglySorted steeper l -> from_option (fun w => Forall (fun t => num_lt w.1 (credit_pct t) = true) l) True acc ->
  fold_left (owed_step o) l acc =
    match last (filter (fun t => num_lt o (below_uptime_bps t) = true) l) with Some t => Some (credit_pct t, below_uptime_bps t) | None => acc end.
Proof.
  intros Hs. revert acc. induction Hs as [|t l Hs IH Ht]; intros acc Hacc; [done|]. cbn [fold_left]. rewrite filter_cons.
  unfold owed_step at 2. destruct (num_lt o (below_uptime_bps t)) eqn:E; (destruct (decide _) as [Hd|Hd]; [|]); try congruence.
  - assert ((match acc with Some (pct, _) => if num_lt pct (credit_pct t) then Some (credit_pct t, below_uptime_bps t) else acc
             | None => Some (credit_pct t, below_uptime_bps t) end) = Some (credit_pct t, below_uptime_bps t)) as ->.
    { destruct acc as [[pct b]|]; [|done]. simpl in Hacc. apply Forall_cons in Hacc as [-> _]. done. }
    rewrite IH. { rewrite last_cons. by destruct (last _). } { simpl. eapply Forall_impl; [exact Ht|]. by intros u []. }
  - apply IH. destruct acc as [w|]; [|done]. simpl in *. by apply Forall_cons in Hacc as [].
Qed.

Lemma validate_ladder i : validate i = None -> is_finite (in_uptime i) = true /\ check_ladder (in_uptime i) (Infinity true) (int (-1)) (in_ladder i) = None.
Proof.
  unfold validate. cbv zeta. destruct (int_between UPTIME_BPS_MIN UPTIME_BPS_MAX (in_uptime i)) eqn:E; [|done]. intros H.
  split; [by apply int_between_finite in E|]. simpl negb in H. cbv iota in H.
  repeat match type of H with (if ?b then _ else _) = None => destruct b; [done|] end. by destruct (check_ladder _ _ _ _).
Qed.

Lemma evaluateCredit_last i c o :
  validate i = None -> uptime_target_bps c = in_uptime i -> credit_ladder c = in_ladder i -> is_finite o = true ->
  StronglySorted steeper (credit_ladder c) /\ Forall (tier_ok (uptime_target_bps c)) (credit_ladder c) /\
  evaluateCredit c o = (fun t => (credit_pct t, below_uptime_bps t)) <$> last (filter (fun t => num_lt o (below_uptime_bps t) = true) (credit_ladder c)).
Proof.
  intros Hv Hu Hl Ho. rewrite Hl, Hu. apply validate_ladder in Hv as [E1 E2]. destruct (check_ladder_ok _ _ _ _ E1 E2) as (H1 & _ & H3).
  split; [done|]. split; [done|]. unfold evaluateCredit. rewrite Hl, Hu. destruct (num_le (in_uptime i) o) eqn:E3.
  - assert (filter (fun t => num_lt o (below_uptime_bps t) = true) (in_ladder i) = []) as ->; [|done]. apply filter_none. intros t Ht Hlt.
    rewrite Forall_forall in H1. destruct (H1 t Ht) as (_ & _ & Hb). destruct o as [| |o], (in_uptime i) as [| |u], (below_uptime_bps t) as [|[]|b]; try done.
    rewrite num_lt_fin in *. rewrite num_le_fin in E3. apply (QArith_base.Qlt_irrefl o). eapply QArith_base.Qlt_trans; [exact Hlt|]. by eapply QArith_base.Qlt_le_trans.
  - rewrite fold_owed by done. by destruct (last _).
Qed.

(** Of the tiers of a published ladder no other comes behind the last. *)
Lemma last_steepest l t o : StronglySorted steeper l -> last (filter (fun t => num_lt o (below_uptime_bps t) = true) l) = Some t ->
  t ∈ l /\ num_lt o (below_uptime_bps t) = true /\ forall u, u ∈ l -> num_lt o (below_uptime_bps u) = true -> u = t \/ steeper u t.
Proof.
  intros Hs Hl. pose proof (last_Some_elem_of _ _ Hl) as [Hlt Hin]%list_elem_of_filter. split; [done|]. split; [done|].
  clear Hin Hlt. induction Hs as [|x l Hs IH Hx]; [done|]. rewrite filter_cons in Hl. intros u Hu Hou.
  destruct (decide (num_lt o (below_uptime_bps x) = true)) as [Hd|Hd].
  - rewrite last_cons in Hl. destruct (last (filter _ l)) as [y|] eqn:El.
    + injection Hl as ->. apply elem_of_cons in Hu as [->|Hu]; [|by apply IH]. right. rewrite Forall_forall in Hx. apply Hx.
      by apply last_Some_elem_of, list_elem_of_filter in El as [_ El].
    + injection Hl as ->. apply elem_of_cons in Hu as [->|Hu]; [by left|]. apply last_None in El.
      assert (u ∈ filter (fun t => num_lt o (below_uptime_bps t) = true) l) as Hf by (by apply list_elem_of_filter). rewrite El in Hf. by apply elem_of_nil in Hf.
  - apply elem_of_cons in Hu as [->|Hu]; [done|]. by apply IH.
Qed.

Lemma num_lt_le_trans a b c : is_finite a = true -> is_finite b = true -> num_le a b = true -> num_lt b c = true -> num_lt a c = true.
Proof.
  destruct a as [| |a], b as [| |b]; try done. destruct c as [|[]|c]; try done. intros _ _. rewrite num_le_fin, !num_lt_fin.
  apply QArith_base.Qle_lt_trans.
Qed.

(** The credit owed under a commitment that could be published, for an observed
    uptime: that of the lowest tier the uptime is below, which is the largest
    credit of all the tiers it is below; none when it is below none of them,
    which is so whenever the target is met; and never less for a lower uptime. *)
Theorem credit_exact sha256 v now i c :
  validate i = None -> c = new_commitment sha256 v now i ->
  forall o, is_finite o = true ->
  match evaluateCredit c o with
  | Some (pct, below) =>
      num_lt o below = true /\ num_lt below (uptime_target_bps c) = true /\
      (exists t, t ∈ credit_ladder c /\ t = {| below_uptime_bps := below; credit_pct := pct |}) /\
      forall t, t ∈ credit_ladder c -> num_lt o (below_uptime_bps t) = true -> num_le below (below_uptime_bps t) = true /\ num_le (credit_pct t) pct = true
  | None => forall t, t ∈ credit_ladder c -> num_lt o (below_uptime_bps t) = false
  end /\
  (num_le (uptime_target_bps c) o = true -> evaluateCredit c o = None) /\
  forall o' pct below, is_finite o' = true -> num_le o' o = true -> evaluateCredit c o = Some (pct, below) ->
    exists pct' below', evaluateCredit c o' = Some (pct', below') /\ num_le pct pct' = true.
Proof.
  intros Hv Hc o Ho.
  assert (Hlast : forall o, is_finite o = true -> _) by (intros o0 Ho0; apply (evaluateCredit_last i c o0 Hv); [by subst c|by subst c|done]).
  destruct (Hlast o Ho) as (Hs & Hok & He). rewrite Forall_forall in Hok.
  assert (Hrefl : forall n, is_finite n = true -> num_le n n = true) by (intros [| |q] Hq; try done; apply num_le_fin, QArith_base.Qle_refl).
  assert (Hlt_le : forall a b, num_lt a b = true -> is_finite a = true -> is_finite b = true -> num_le a b = true).
  { intros [| |a] [| |b] Hab; try done. intros _ _. apply num_le_fin, QArith_base.Qlt_le_weak. by apply num_lt_fin. }
  split; [|split].
  - rewrite He. destruct (last _) as [t|] eqn:El; simpl.
    + destruct (last_steepest _ _ _ Hs El) as (Hin & Hot & Hall). destruct (Hok t Hin) as (Hb & Hp & Ht). split_and!; [done|done|by exists t; destruct t|].
      intros u Hu Hou. destruct (Hok u Hu) as (Hub & Hup & _). destruct (Hall u Hu Hou) as [->|[H1 H2]]; [by split; apply Hrefl|by split; apply Hlt_le].
    + intros t Ht. apply not_true_is_false. intros Hot. apply last_None in El.
      assert (t ∈ filter (fun t => num_lt o (below_uptime_bps t) = true) (credit_ladder c)) as Hf by (by apply list_elem_of_filter). rewrite El in Hf. by apply elem_of_nil in Hf.
  - intros Hm. unfold evaluateCredit. by rewrite Hm.
  - intros o' pct below Ho' Hle Ho2. rewrite He in Ho2. destruct (last _) as [t|] eqn:El; [|done]. injection Ho2 as <- <-.
    destruct (last_steepest _ _ _ Hs El) as (Hin & Hot & _). destruct (Hok t Hin) as (Hb & Hp & _).
    assert (Hot' : num_lt o' (below_uptime_bps t) = true) by (by apply (num_lt_le_trans _ o)).
    destruct (Hlast o' Ho') as (_ & _ & He'). rewrite He'. destruct (last (filter (fun t => num_lt o' _ = true) _)) as [u|] eqn:Eu; simpl.
    + exists (credit_pct u), (below_uptime_bps u). split; [done|]. destruct (last_steepest _ _ _ Hs Eu) as (Hinu & _ & Hall). destruct (Hok u Hinu) as (_ & Hpu & _).
      destruct (Hall t Hin Hot') as [->|[_ H2]]; [by apply Hrefl|by apply Hlt_le].
    + apply last_None in Eu. assert (t ∈ filter (fun t => num_lt o' (below_uptime_bps t) = true) (credit_ladder c)) as Hf by (by apply list_elem_of_filter).
      rewrite Eu in Hf. by apply elem_of_nil in Hf.
Qed.

Definition demo_sla : PublishInput :=
  {| in_uptime := int 9995; in_response := {| sev1 := int 15; sev2 := int 60; sev3 := int 240; sev4 := int 1440 |};
     in_ladder := [{| below_uptime_bps := int 9990; credit_pct := int 10 |}; {| below_uptime_bps := int 9900; credit_pct := int 25 |}];
     in_notes := "n"; in_support_email := "a@b.co"; in_status_page_url := Some "https://s.co"; in_security_email := Some "";
     actor_id := "k"; actor_email := None |}.

Lemma credit_exact_witness :
  let c := new_commitment (fun s => s) (int 1) 0 demo_sla in
  evaluateCredit c (int 9950) = Some (int 10, int 9990) /\ exists pct below, evaluateCredit c (int 9800) = Some (pct, below) /\ num_le (int 10) pct = true.
Proof.
  intros c. destruct (credit_exact (fun s => s) (int 1) 0 demo_sla c ltac:(by vm_compute) eq_refl (int 9950) eq_refl) as (_ & _ & H).
  split; [by vm_compute|]. apply (H (int 9800) (int 10) (int 9990)); by vm_compute.
Defined.

Lemma sla_ledger_witness :
  let '(os, p) := run (fun s => s) [(demo_sla, 1, true); (demo_sla, 2, true)] {| disk := NoFile; chain_ok := true |} in
  getState p = Some (register_of (rev (published os))) /\ version <$> published os = [int 1; int 2].
Proof.
  pose proof (sla_ledger (fun s => s) [(demo_sla, 1, true); (demo_sla, 2, true)]) as H.
  destruct (run _ _ _) as [os p] eqn:E. destruct H as [H1 H2]. split; [done|]. vm_compute in E. injection E as <- _. by vm_compute.
Defined.

(** Between the top tier and the target nothing is owed, though the target was
    missed. *)
Lemma missed_target_without_credit :
  let c := new_commitment (fun s => s) (int 1) 0 demo_sla in
  validate demo_sla = None /\ num_lt (int 9992) (uptime_target_bps c) = true /\ evaluateCredit c (int 9992) = None.
Proof. by vm_compute. Qed.
