(* ===== verification/Pool.v ===== *)
(** [mapConcurrent] of [web/lib/batch.ts]: a worker over a list of items, by a
    bounded number of lanes that take the next item from a shared counter. The
    lanes interleave at the awaited calls, so a run is a sequence of steps; which
    results a call may give is a parameter. *)
From stdpp Require Import relations.
From S2P Require Import Prelude.

Section Pool.
Context {T R : Type} (worker : T -> nat -> R -> Prop).

(** Where a lane stands: about to take an item, awaiting the call on item [i],
    or returned. *)
Inductive lane := Idle | Busy (i : nat) | Returned.

Record pool := Pool { next : nat; out : list (option R); at_ : list lane }.

Definition lanes (concurrency : Z) (n : nat) : nat := Z.to_nat (Z.max 1 (Z.min concurrency (Z.of_nat n))).

Definition start (items : list T) (concurrency : Z) : pool :=
  Pool 0 (replicate (length items) None) (replicate (lanes concurrency (length items)) Idle).

(** A lane between two calls runs to the next one without a break:
    [i = next++], then it returns or calls the worker. *)
Inductive step (items : list T) : pool -> pool -> Prop :=
  | Take p k : at_ p !! k = Some Idle -> (next p < length items)%nat ->
      step items p (Pool (S (next p)) (out p) (<[k := Busy (next p)]> (at_ p)))
  | Stop p k : at_ p !! k = Some Idle -> (length items <= next p)%nat ->
      step items p (Pool (S (next p)) (out p) (<[k := Returned]> (at_ p)))
  | Finish p k i x r : at_ p !! k = Some (Busy i) -> items !! i = Some x -> worker x i r ->
      step items p (Pool (next p) (<[i := Some r]> (out p)) (<[k := Idle]> (at_ p))).

(** [Promise.all] resolves. *)
Definition finished (p : pool) : Prop := Forall (fun l => l = Returned) (at_ p).

(** ** The invariant *)

Record pool_ok (items : list T) (L : nat) (p : pool) : Prop := {
  ok_out : length (out p) = length items;
  ok_lanes : length (at_ p) = L;
  ok_busy : forall k i, at_ p !! k = Some (Busy i) -> (i < next p)%nat /\ (i < length items)%nat /\ out p !! i = Some None;
  ok_apart : forall k k' i, at_ p !! k = Some (Busy i) -> at_ p !! k' = Some (Busy i) -> k = k';
  ok_done : forall i r, out p !! i = Some (Some r) -> (i < next p)%nat /\ exists x, items !! i = Some x /\ worker x i r;
  ok_taken : forall i, (i < next p)%nat -> (i < length items)%nat -> (exists k, at_ p !! k = Some (Busy i)) \/ exists r, out p !! i = Some (Some r);
}.

Lemma lookup_replicate_None n i (o : option R) : replicate n (@None R) !! i = Some o -> o = None.
Proof. intros [-> _]%lookup_replicate. done. Qed.

Lemma start_ok items c : pool_ok items (lanes c (length items)) (start items c).
Proof.
  split; simpl; rewrite ?length_replicate; try done.
  - intros k i [H _]%lookup_replicate. done.
  - intros k k' i [H _]%lookup_replicate. done.
  - intros i r H%lookup_replicate_None. done.
  - intros i Hi. lia.
Qed.

Lemma lane_insert (ls : list lane) k l k' l' : <[k := l]> ls !! k' = Some l' -> k' = k /\ l' = l \/ k' <> k /\ ls !! k' = Some l'.
Proof. rewrite list_lookup_insert_Some. naive_solver. Qed.

Lemma out_insert (o : list (option R)) i r j v : <[i := r]> o !! j = Some v -> j = i /\ v = r \/ j <> i /\ o !! j = Some v.
Proof. rewrite list_lookup_insert_Some. naive_solver. Qed.

Lemma step_keeps_ok items L p p' : pool_ok items L p -> step items p p' -> pool_ok items L p'.
Proof.
  intros [H1 H2 H3 H4 H5 H6] Hs. destruct Hs as [p k Hk Hn|p k Hk Hn|p k i x r Hk Hx Hr]; split; simpl; rewrite ?length_insert; try done.
  - intros k' i [[-> [= ->]]|[Hne Hl]]%lane_insert; [split_and!; [lia|done|]|destruct (H3 _ _ Hl) as (? & ? & ?); split_and!; [lia|done|done]].
    destruct (out p !! next p) as [[r|]|] eqn:E; [|done|apply lookup_ge_None in E; lia]. destruct (H5 _ _ E) as [? _]. lia.
  - intros k' k2 i [[-> [= ->]]|[Hne Hl]]%lane_insert [[-> He]|[Hne2 Hl2]]%lane_insert; try done.
    + destruct (H3 _ _ Hl2) as [? _]. lia.
    + injection He as ->. destruct (H3 _ _ Hl) as [? _]. lia.
    + by eapply H4.
  - intros i r E. destruct (H5 _ _ E) as [? ?]. split; [lia|done].
  - intros i Hi Hin. destruct (decide (i = next p)) as [->|Hne].
    + left. exists k. apply list_lookup_insert_eq. by eapply lookup_lt_Some.
    + destruct (H6 i) as [[k' Hk']|]; [lia|done| |by right]. left. exists k'. rewrite list_lookup_insert_ne; [done|]. intros <-. congruence.
  - intros k' i [[-> He]|[Hne Hl]]%lane_insert; [done|]. destruct (H3 _ _ Hl) as (? & ? & ?). split_and!; [lia|done|done].
  - intros k' k2 i [[-> He]|[Hne Hl]]%lane_insert [[-> He2]|[Hne2 Hl2]]%lane_insert; try done. by eapply H4.
  - intros i r E. destruct (H5 _ _ E) as [? ?]. split; [lia|done].
  - intros i Hi Hin. destruct (H6 i) as [[k' Hk']|]; [lia|done| |by right]. left. exists k'. rewrite list_lookup_insert_ne; [done|]. intros <-. congruence.
  - intros k' j [[-> He]|[Hne Hl]]%lane_insert; [done|]. destruct (H3 _ _ Hl) as (? & ? & ?). split_and!; [done|done|].
    rewrite list_lookup_insert_ne; [done|]. intros <-. by apply Hne, (H4 _ _ _ Hl).
  - intros k' k2 j [[-> He]|[Hne Hl]]%lane_insert [[-> He2]|[Hne2 Hl2]]%lane_insert; try done. by eapply H4.
  - intros j v [[-> [= ->]]|[Hne E]]%out_insert; [|by apply H5]. destruct (H3 _ _ Hk) as [? _]. split; [done|by exists x].
  - intros j Hj Hjn. destruct (decide (j = i)) as [->|Hne].
    + right. exists r. apply list_lookup_insert_eq. by rewrite H1.
    + destruct (H6 j Hj Hjn) as [[k' Hk']|[r' Hr']].
      * left. exists k'. rewrite list_lookup_insert_ne; [done|]. intros <-. congruence.
      * right. exists r'. by rewrite list_lookup_insert_ne.
Qed.

Lemma run_reachable_ok items c p : rtc (step items) (start items c) p -> pool_ok items (lanes c (length items)) p.
Proof.
  intros Hr. pose proof (start_ok items c) as H. revert H. generalize (lanes c (length items)) as L. intros L.
  induction Hr as [p|p p' p'' Hs _ IH]; [done|]. intros H. apply IH. by eapply step_keeps_ok.
Qed.

(** ** The run ends *)

Definition weight (l : lane) : nat := match l with Idle => 1 | Busy _ => 2 | Returned => 0 end.

(** Every step takes one of these away. *)
Definition remaining (items : list T) (p : pool) : nat := 2 * (length items - next p) + sum_list_with weight (at_ p).

Lemma sum_insert {A} (f : A -> nat) (l : list A) k x y :
  l !! k = Some x -> (sum_list_with f (<[k := y]> l) + f x = sum_list_with f l + f y)%nat.
Proof. revert k. induction l as [|z l IH]; intros [|k]; simpl; [done|done|intros [= ->]; lia|]. intros Hk. specialize (IH k Hk). lia. Qed.

Lemma step_remaining items p p' : step items p p' -> remaining items p = S (remaining items p').
Proof.
  unfold remaining. intros [q k Hk Hn|q k Hk Hn|q k i x r Hk Hx Hr]; simpl;
    [pose proof (sum_insert weight _ _ _ (Busy (next q)) Hk)|pose proof (sum_insert weight _ _ _ Returned Hk)|pose proof (sum_insert weight _ _ _ Idle Hk)]; simpl in *; lia.
Qed.

Lemma steps_remaining items m p p' : nsteps (step items) m p p' -> remaining items p = (m + remaining items p')%nat.
Proof. induction 1 as [p|m p p' p'' Hs _ IH]; [done|]. rewrite (step_remaining _ _ _ Hs), IH. lia. Qed.

Lemma start_remaining items c : remaining items (start items c) = (2 * length items + lanes c (length items))%nat.
Proof.
  unfold remaining, start. simpl. assert (forall m, sum_list_with weight (replicate m Idle) = m) as -> by (induction m as [|m IH]; simpl; lia). lia.
Qed.

Lemma not_finished (p : pool) : ~ finished p -> exists k l, at_ p !! k = Some l /\ l <> Returned.
Proof.
  unfold finished. generalize (at_ p) as ls. induction ls as [|l ls IH]; intros H; [by destruct H|].
  destruct l as [|i|]; [by exists 0%nat, Idle|by exists 0%nat, (Busy i)|]. destruct IH as (k & l & Hk & Hl).
  - intros Hf. apply H. by constructor.
  - by exists (S k), l.
Qed.

(** Calls awaited at the same time. *)
Definition in_flight (p : pool) : nat := length (filter (fun l => weight l = 2%nat) (at_ p)).

(** A lane returns when nothing is left to take. *)
Definition exhausted (items : list T) (p : pool) : Prop := forall k, at_ p !! k = Some Returned -> (length items <= next p)%nat.

Lemma start_exhausted items c : exhausted items (start items c).
Proof. intros k [H _]%lookup_replicate. done. Qed.

Lemma returned_exhausted items p p' : rtc (step items) p p' -> exhausted items p -> exhausted items p'.
Proof.
  induction 1 as [p|p q p' Hs _ IH]; [done|]. intros H. apply IH. clear IH. unfold exhausted in *.
  destruct Hs as [p k Hk Hn|p k Hk Hn|p k i x r Hk Hx Hr]; simpl; intros k' [[-> He]|[Hne Hl]]%lane_insert; try done; try (apply H in Hl; lia). lia.
Qed.

(** What every reachable state of a run satisfies. *)
Lemma pool_run items c m p :
  nsteps (step items) m (start items c) p ->
  (Z.of_nat (in_flight p) <= Z.max 1 c) /\
  (forall k k' i, at_ p !! k = Some (Busy i) -> at_ p !! k' = Some (Busy i) -> k = k') /\
  (m <= 2 * length items + lanes c (length items))%nat /\
  ((forall x i, exists r, worker x i r) -> ~ finished p -> exists p', step items p p') /\
  (finished p -> exists rs, out p = Some <$> rs /\ length rs = length items /\
     forall i x r, items !! i = Some x -> rs !! i = Some r -> worker x i r).
Proof.
  intros Hm. pose proof (run_reachable_ok items c p (rtc_nsteps_2 _ _ _ Hm)) as [H1 H2 H3 H4 H5 H6]. split_and!; [|exact H4| | |].
  - unfold in_flight. pose proof (length_filter (fun l => weight l = 2%nat) (at_ p)). unfold lanes in *. lia.
  - pose proof (steps_remaining _ _ _ _ Hm). rewrite start_remaining in *. lia.
  - intros Hw (k & l & Hk & Hl)%not_finished. destruct l as [|i|]; [| |done].
    + destruct (decide (next p < length items)%nat); [eexists; by apply (Take _ _ k)|]. eexists. apply (Stop _ _ k); [done|lia].
    + destruct (H3 _ _ Hk) as (_ & Hi & _). apply lookup_lt_is_Some in Hi as [x Hx]. destruct (Hw x i) as [r Hr]. eexists. by eapply Finish.
  - intros Hf. assert (Hall : forall i, (i < length items)%nat -> exists r, out p !! i = Some (Some r)).
    { intros i Hi. destruct (decide (i < next p)%nat) as [Hn|Hn].
      - destruct (H6 i Hn Hi) as [[k Hk]|]; [|done]. unfold finished in Hf. rewrite Forall_lookup in Hf. by apply Hf in Hk.
      - exfalso. assert (exists k, at_ p !! k = Some Returned) as [k Hk].
        { unfold finished in Hf. destruct (at_ p) as [|l ls] eqn:E; [unfold lanes in H2; simpl in H2; lia|]. apply Forall_cons in Hf as [-> _]. by exists 0%nat. }
        apply rtc_nsteps_2 in Hm. pose proof (returned_exhausted _ _ _ Hm) as Hret. specialize (Hret (start_exhausted items c) k Hk). lia. }
    exists (omap (fun o => o) (out p)). assert (out p = Some <$> omap (fun o => o) (out p)) as He.
    { clear -Hall H1. assert (Hs : Forall (fun o => is_Some o) (out p)).
      { apply Forall_lookup. intros i o Ho. destruct (Hall i) as [r Hr]; [rewrite <- H1; by eapply lookup_lt_Some|]. rewrite Ho in Hr. injection Hr as ->. done. }
      revert Hs. generalize (out p) as o. clear. induction o as [|[x|] o IH]; intros Hs; [done| |].
      - apply Forall_cons in Hs as [_ Hs]. simpl. f_equal. by apply IH.
      - apply Forall_cons in Hs as [Hs _]. by destruct Hs. }
    split; [done|]. split; [rewrite <- H1; rewrite He at 2; by rewrite length_fmap|].
    intros i x r Hx Hr. assert (out p !! i = Some (Some r)) as Ho by (by rewrite He, list_lookup_fmap, Hr).
    destruct (H5 i r Ho) as (_ & x' & Hx' & Hw). congruence.
Qed.

(** However the lanes interleave: no more calls are awaited at a time than the
    concurrency asked for (one at least), and no two on the same item; as long as
    the calls give a result some lane can go on, and the run is over after at
    most two steps an item and one a lane; and when it is, every item has been
    handled and its result stands at its place. *)
Theorem map_concurrent items c m p :
  nsteps (step items) m (start items c) p ->
  (Z.of_nat (in_flight p) <= Z.max 1 c) /\
  (forall k k' i, at_ p !! k = Some (Busy i) -> at_ p !! k' = Some (Busy i) -> k = k') /\
  (m <= 2 * length items + lanes c (length items))%nat /\
  ((forall x i, exists r, worker x i r) -> ~ finished p -> exists p', step items p p') /\
  (finished p -> exists rs, out p = Some <$> rs /\ length rs = length items /\
     forall i x r, items !! i = Some x -> rs !! i = Some r -> worker x i r).
Proof. apply pool_run. Qed.
End Pool.

Arguments lane : clear implicits.
Arguments pool R : clear implicits.

(** A worker of which less is known. *)
Lemma step_weaken {T R} (w w' : T -> nat -> R -> Prop) items :
  (forall x i r, w x i r -> w' x i r) -> forall p p', step w items p p' -> step w' items p p'.
Proof. intros Hw p p' [q k Hk Hn|q k Hk Hn|q k i x r Hk Hx Hr]; [by apply Take|by apply Stop|eapply Finish; eauto]. Qed.

(** A run by a schedule of lanes, for a worker that is a function. *)
Definition move {T R} (f : T -> nat -> R) (items : list T) (p : pool R) (k : nat) : option (pool R) :=
  match at_ p !! k with
  | Some Idle => Some (Pool (S (next p)) (out p) (<[k := if (next p <? length items)%nat then Busy (next p) else Returned]> (at_ p)))
  | Some (Busy i) => match items !! i with
                     | Some x => Some (Pool (next p) (<[i := Some (f x i)]> (out p)) (<[k := Idle]> (at_ p)))
                     | None => None
                     end
  | _ => None
  end.

Fixpoint moves {T R} (f : T -> nat -> R) (items : list T) (ks : list nat) (p : pool R) : option (pool R) :=
  match ks with [] => Some p | k :: r => match move f items p k with Some p' => moves f items r p' | None => None end end.

Lemma move_step {T R} (f : T -> nat -> R) items p k p' : move f items p k = Some p' -> step (fun x i r => r = f x i) items p p'.
Proof.
  unfold move. destruct (at_ p !! k) as [[|i|]|] eqn:Ek; [| |done|done].
  - intros [= <-]. destruct (Nat.ltb_spec (next p) (length items)); [by apply Take|by apply Stop].
  - destruct (items !! i) as [x|] eqn:Ex; [|done]. intros [= <-]. by eapply Finish.
Qed.

Lemma moves_steps {T R} (f : T -> nat -> R) items ks p p' : moves f items ks p = Some p' -> nsteps (step (fun x i r => r = f x i) items) (length ks) p p'.
Proof.
  revert p. induction ks as [|k ks IH]; intros p; simpl; [intros [= ->]; constructor|].
  destruct (move f items p k) as [q|] eqn:E; [|done]. intros H. econstructor; [by eapply move_step|by apply IH].
Qed.

Lemma map_concurrent_witness :
  exists p : pool Z, moves (fun x i => x + Z.of_nat i) [10; 20; 30] [0; 1; 1; 1; 0; 0; 1; 1]%nat (start [10; 20; 30] 2) = Some p /\
    exists rs, out p = Some <$> rs /\ rs = [10; 21; 32].
Proof.
  destruct (moves (fun x i => x + Z.of_nat i) [10; 20; 30] [0; 1; 1; 1; 0; 0; 1; 1]%nat (start [10; 20; 30] 2)) as [p|] eqn:E;
    [|vm_compute in E; discriminate E].
  exists p. split; [done|]. pose proof (moves_steps _ _ _ _ _ E) as Hs.
  destruct (map_concurrent (fun x i r => r = x + Z.of_nat i) [10; 20; 30] 2 _ _ Hs) as (_ & _ & _ & _ & Hf).
  vm_compute in E. injection E as <-. destruct Hf as (rs & Ho & Hl & Hw); [repeat constructor|].
  exists rs. split; [done|]. simpl in Ho. destruct rs as [|a [|b [|c [|]]]]; try done. injection Ho as <- <- <-. done.
Defined.
