(* ===== verification/Batch.v ===== *)
(** The batch scan: [parseTickers] and [rowsToCSV] of [web/lib/batch.ts], and the
    handler of [web/app/api/batch/route.ts] that classifies the symbols through
    the lanes of [Pool]. The answers of the Python service, the payload made of
    one and the texts of numbers and other values are parameters. *)
From S2P Require Import Prelude JsNum JsDate IsoTime Json Store Interleave Csv Runs Ticker Watchlist Pool.

Definition is_cr : Ascii.ascii -> bool := Ascii.eqb CR.
Definition is_quote (c : Ascii.ascii) : bool := Ascii.eqb c DQ || Ascii.eqb c "'"%char.

Fixpoint strip_start (s : string) : string := match s with "" => "" | String c r => if is_quote c then strip_start r else s end.
Fixpoint strip_end (s : string) : string :=
  match s with "" => "" | String c r => let r' := strip_end r in if is_quote c && String.eqb r' "" then "" else String c r' end.

(** [t.replace(/^["']+|["']+$/g, "")]. *)
Definition unquote (s : string) : string := strip_end (strip_start s).

Definition symbol_char (c : Ascii.ascii) : bool :=
  let n := code c in ((65 <=? n) && (n <=? 90)) || ((97 <=? n) && (n <=? 122)) || ((48 <=? n) && (n <=? 57)) || Ascii.eqb c "."%char || Ascii.eqb c "-"%char.

(** [/^[A-Za-z0-9.\-]{1,16}$/]. *)
Definition symbol_re (s : string) : bool := (1 <=? str_len s) && (str_len s <=? 16) && str_forall symbol_char s.

Definition is_header (t : string) : bool := bool_decide (to_lower t ∈ ["ticker"; "symbol"]).

Fixpoint take_tickers (maxCount : Z) (out : list string) (first : bool) (raw_ : list string) : list string :=
  match raw_ with
  | [] => out
  | t :: r =>
      let t := trim t in
      if negb (truthy t) then take_tickers maxCount out false r
      else if first && is_header t then take_tickers maxCount out false r
      else let t := unquote t in
           if negb (truthy t) then take_tickers maxCount out false r
           else if negb (symbol_re t) then take_tickers maxCount out false r
           else let up := to_upper t in
                if bool_decide (up ∈ out) then take_tickers maxCount out false r
                else let out := out ++ [up] in
                     if len out >=? maxCount then out else take_tickers maxCount out false r
  end.

Definition parseTickers (input : string) (maxCount : Z) : list string :=
  if truthy input then take_tickers maxCount [] true (pieces "" (keep_chars (fun c => negb (is_cr c)) input)) else [].

(** ** Rows *)

(** The fields of the answer are handed on whatever they are. *)
Record BatchRow := {
  b_ticker : string; ok : bool; status : Z; b_regime : json; b_confidence : json; b_risk_scale : json; b_as_of : json;
  run_id : option string; b_error : option string }.

Section Batch.
Context (String_of : json -> string) (num_str : num -> string).

Definition cell (j : json) : string := match j with JNull => "" | JStr s => s | JNum n => num_str n | _ => String_of j end.
Definition row_cells (r : BatchRow) : list string :=
  [b_ticker r; if ok r then "true" else "false"; num_str (int (status r)); cell (b_regime r); cell (b_confidence r); cell (b_risk_scale r);
   cell (b_as_of r); default "" (run_id r); default "" (b_error r)].

Definition batch_header : list string := ["ticker"; "ok"; "status"; "regime"; "confidence"; "risk_scale"; "as_of"; "run_id"; "error"].

Definition rowsToCSV (rows : list BatchRow) : string := document (line batch_header :: ((fun r => line (csvCell <$> row_cells r)) <$> rows)).

(** ** One symbol *)

(** The service's answer: a status with a body, or the message with which its
    parsing fails; or an exception with its name and message. *)
Inductive Upstream := Answered (status : Z) (body : result json string) | Thrown (name : string) (message : option string).

Definition res_ok (status : Z) : bool := (200 <=? status) && (status <? 300).

Definition failed_row (ticker : string) (st : Z) (e : string) : BatchRow :=
  {| b_ticker := ticker; ok := false; status := st; b_regime := JNull; b_confidence := JNull; b_risk_scale := JNull; b_as_of := JNull;
     run_id := None; b_error := Some e |}.

(** [v ?? null]. *)
Definition or_null (v : jval) : json := match v with Some j => j | None => JNull end.

(** [j?.k]: [null] and [undefined] have no fields. *)
Definition opt_field (k : string) (j : json) : jval := field k j.

Definition upstream_message (st : Z) (body : result json string) : string :=
  match body with
  | Ok j => if jtruthy (opt_field "detail" j) then str_take 200 (js_text String_of (opt_field "detail" j)) else "upstream " +:+ num_str (int st)
  | Err _ => "upstream " +:+ num_str (int st)
  end.

(** [saved]: the id of the run, when one was saved. *)
Definition classifyOne (ticker : string) (up : Upstream) (saved : option string) : BatchRow :=
  match up with
  | Answered st body =>
      if negb (res_ok st) then failed_row ticker st (upstream_message st body)
      else match body with
           | Err message => failed_row ticker 0 message
           | Ok j =>
               let snap := or_null (opt_field "snapshot" j) in
               {| b_ticker := ticker; ok := true; status := 200; b_regime := or_null (opt_field "label" snap);
                  b_confidence := or_null (opt_field "confidence" snap); b_risk_scale := or_null (opt_field "risk_scale" snap);
                  b_as_of := or_null (opt_field "as_of" snap); run_id := saved; b_error := None |}
           end
  | Thrown name message => failed_row ticker 0 (if String.eqb name "AbortError" then "timeout" else default "fetch failed" message)
  end.

(** ** The request *)

Definition MAX_TICKERS : Z := 50.
Definition CONCURRENCY : Z := 4.

Record BatchRequest := { q_tickers : list string; q_lookback : num; q_save : bool; q_csv : bool }.
(** [null] has no fields: reading one throws. *)
Inductive BatchError := bad_json | bad_tickers | no_tickers | type_error.

Definition joined (l : list json) : string := join "," ((fun j => match j with JNull => "" | JStr s => s | _ => String_of j end) <$> l).

Section Request.
Context (Number_of : json -> num).

Definition lookback_of (v : jval) : num :=
  let n := match v with None | Some JNull => int 504 | Some (JNum n) => n | Some j => Number_of j end in
  let n := if is_finite n then n else int 504 in
  num_max (int 120) (num_min (num_trunc n) (int 1260)).

Definition parse_request (body : option json) : result BatchRequest BatchError :=
  match body with
  | None => Err bad_json
  | Some JNull => Err type_error
  | Some b =>
      let raw_ := match field "tickers" b with
                  | Some (JArr l) => Some (joined l)
                  | None | Some JNull => Some ""
                  | Some (JStr s) => Some s
                  | _ => None
                  end in
      match raw_ with
      | None => Err bad_tickers
      | Some s =>
          let tickers := parseTickers s MAX_TICKERS in
          if (length tickers =? 0)%nat then Err no_tickers
          else Ok {| q_tickers := tickers; q_lookback := lookback_of (field "lookback_days" b);
                     q_save := match field "save" b with Some (JBool false) => false | _ => true end;
                     q_csv := match field "format" b with Some (JStr s) => String.eqb s "csv" | _ => false end |}
      end
  end.
End Request.

Record BatchSummary := { requested : Z; n_ok : Z; n_failed : Z }.

Definition summary_of (tickers : list string) (rows : list BatchRow) : BatchSummary :=
  {| requested := len tickers; n_ok := len (filter (fun r => ok r = true) rows); n_failed := len (filter (fun r => ok r = false) rows) |}.

(** The worker of the scan: any answer of the service, a run saved or not. *)
Definition scan (ticker : string) (i : nat) (r : BatchRow) : Prop := exists up saved, r = classifyOne ticker up saved.

(** The save of a lane. *)
Definition save_input (payload_of : json -> Payload) (ticker : string) (lookback : num) (j : json) : RunInput :=
  {| in_label := "batch " +:+ ticker; in_ticker := ticker; in_lookback_days := lookback; in_tags := None; in_notes := None;
     in_key_id := None; in_key_label := None; in_payload := payload_of j |}.
End Batch.

(** * What is scanned *)

(** What a piece of the text stands for; the first may be a header. *)
Definition symbol_of (first : bool) (t : string) : option string :=
  let t := trim t in
  if negb (truthy t) || (first && is_header t) then None
  else let u := unquote t in if truthy u && symbol_re u then Some (to_upper u) else None.

Definition symbols (first : bool) (raw_ : list string) : list string :=
  match raw_ with [] => [] | t :: r => option_list (symbol_of first t) ++ omap (symbol_of false) r end.

Lemma symbols_false raw_ : symbols false raw_ = omap (symbol_of false) raw_.
Proof. destruct raw_ as [|t r]; [done|]. simpl. by destruct (symbol_of false t). Qed.

Lemma take_tickers_spec maxCount out first raw_ :
  len out < maxCount -> take_tickers maxCount out first raw_ = take (Z.to_nat maxCount) (out ++ dedup_from out (symbols first raw_)).
Proof.
  revert out first. induction raw_ as [|t r IH]; intros out first Hl.
  { simpl. rewrite app_nil_r, take_ge; [done|]. unfold len in Hl. lia. }
  assert (Hskip : symbol_of first t = None -> take_tickers maxCount out false r = take (Z.to_nat maxCount) (out ++ dedup_from out (symbols first (t :: r)))).
  { intros E. simpl symbols. rewrite E. simpl. rewrite IH by done. by rewrite symbols_false. }
  cbn [take_tickers]. cbv zeta. destruct (truthy (trim t)) eqn:E1; [|apply Hskip; unfold symbol_of; cbv zeta; by rewrite E1].
  simpl negb. cbv iota. destruct (first && is_header (trim t)) eqn:E2; [apply Hskip; unfold symbol_of; cbv zeta; by rewrite E1, E2|].
  destruct (truthy (unquote (trim t))) eqn:E3; [|apply Hskip; unfold symbol_of; cbv zeta; by rewrite E1, E2, E3].
  destruct (symbol_re (unquote (trim t))) eqn:E4; [|apply Hskip; unfold symbol_of; cbv zeta; by rewrite E1, E2, E3, E4].
  simpl negb. cbv iota. assert (symbol_of first t = Some (to_upper (unquote (trim t)))) as Es by (unfold symbol_of; cbv zeta; by rewrite E1, E2, E3, E4).
  simpl symbols. rewrite Es. simpl. case_bool_decide as Hin.
  - rewrite IH by done. rewrite symbols_false. by rewrite decide_True by done.
  - rewrite decide_False by done. set (up := to_upper _) in *. replace (out ++ up :: dedup_from (up :: out) (omap (symbol_of false) r)) with ((out ++ [up]) ++ dedup_from (up :: out) (omap (symbol_of false) r)) by (by rewrite <- app_assoc).
    assert (Hd : dedup_from (up :: out) (omap (symbol_of false) r) = dedup_from (out ++ [up]) (omap (symbol_of false) r)).
    { apply dedup_from_ext. intros x. rewrite elem_of_cons, elem_of_app, list_elem_of_singleton. naive_solver. }
    rewrite Hd. destruct (len (out ++ [up]) >=? maxCount) eqn:E5.
    + assert (Z.to_nat maxCount = length (out ++ [up])) as ->; [|by rewrite take_app_length].
      apply Z.geb_le in E5. unfold len in *. rewrite length_app in E5 |- *. simpl in *. lia.
    + rewrite IH by lia. by rewrite symbols_false.
Qed.

(** The symbols read off a text are those of its pieces, each once, as many of
    the first as fit. *)
Lemma parseTickers_spec input maxCount : 1 <= maxCount ->
  parseTickers input maxCount = take (Z.to_nat maxCount) (dedup (symbols true (pieces "" (keep_chars (fun c => negb (is_cr c)) input)))).
Proof.
  intros Hm. unfold parseTickers. destruct (truthy input) eqn:E; [by rewrite take_tickers_spec by (unfold len; simpl; lia)|].
  apply truthy_false in E as ->. symmetry. apply take_nil.
Qed.

Lemma parseTickers_NoDup input maxCount : 1 <= maxCount -> NoDup (parseTickers input maxCount) /\ len (parseTickers input maxCount) <= maxCount.
Proof.
  intros Hm. rewrite parseTickers_spec by done. split; [eapply sublist_NoDup, sublist_take; apply dedup_NoDup|]. unfold len. rewrite length_take. lia.
Qed.

(** * What is answered *)

Lemma ok_partition (rows : list BatchRow) : len (filter (fun r => ok r = true) rows) + len (filter (fun r => ok r = false) rows) = len rows.
Proof.
  induction rows as [|r rows IH]; [done|]. rewrite !filter_cons. unfold len in *. destruct (ok r) eqn:E; simpl; rewrite ?E in *;
    repeat (destruct (decide _); try congruence); simpl; lia.
Qed.

Section Scan.
Context (String_of : json -> string) (num_str : num -> string).

Lemma classifyOne_ticker t up saved : b_ticker (classifyOne String_of num_str t up saved) = t.
Proof. destruct up as [st body|]; simpl; [|done]. destruct (res_ok st); [|done]. by destruct body. Qed.

(** However the four lanes interleave and whatever the service answers, a scan
    that is over has a row for every symbol, in the order they were asked for,
    and accounts for all of them; and four calls at most are awaited at a time. *)
Theorem scan_accounts_for_all tickers m p :
  nsteps (step (scan String_of num_str) tickers) m (start tickers CONCURRENCY) p ->
  Z.of_nat (in_flight p) <= CONCURRENCY /\
  (finished p -> exists rows, out p = Some <$> rows /\ b_ticker <$> rows = tickers /\
     n_ok (summary_of tickers rows) + n_failed (summary_of tickers rows) = requested (summary_of tickers rows) /\
     Forall (fun r => ok r = false -> run_id r = None /\ b_error r <> None) rows).
Proof.
  intros Hm. destruct (pool_run _ _ _ _ _ Hm) as (H1 & _ & _ & _ & H2). split; [done|]. intros Hf.
  destruct (H2 Hf) as (rows & Ho & Hl & Hw). exists rows. split; [done|].
  assert (Hrow : forall i r, rows !! i = Some r -> exists t up saved, tickers !! i = Some t /\ r = classifyOne String_of num_str t up saved).
  { intros i r Hi. pose proof (lookup_lt_Some _ _ _ Hi) as Hlt. rewrite Hl in Hlt. apply lookup_lt_is_Some in Hlt as [t Ht].
    destruct (Hw i t r Ht Hi) as (up & saved & ->). by exists t, up, saved. }
  assert (Ht : b_ticker <$> rows = tickers).
  { apply list_eq. intros i. rewrite list_lookup_fmap. destruct (rows !! i) as [r|] eqn:E.
    - destruct (Hrow i r E) as (t & up & saved & -> & ->). simpl. by rewrite classifyOne_ticker.
    - simpl. symmetry. apply lookup_ge_None. apply lookup_ge_None in E. lia. }
  split; [done|]. split; [simpl; rewrite ok_partition; unfold len; lia|].
  apply Forall_lookup. intros i r Hi. destruct (Hrow i r Hi) as (t & up & saved & _ & ->). destruct up as [st body|]; simpl; [|done].
  destruct (res_ok st); [|done]. by destruct body.
Qed.
End Scan.

(** The table reads back as its cells. *)
Lemma batch_csv_reads_back String_of num_str rows :
  parse_csv (rowsToCSV String_of num_str rows) = Some (batch_header :: (row_cells String_of num_str <$> rows)).
Proof.
  rewrite <- (parse_document (batch_header :: (row_cells String_of num_str <$> rows))).
  - unfold rowsToCSV. do 2 f_equal. rewrite fmap_cons. f_equal. by rewrite <- list_fmap_compose.
  - constructor; [done|]. apply Forall_fmap, Forall_forall. done.
  - done.
Qed.

(** Two lanes that save at the same time: both report the id of a run, and only
    the run written last is in the store. *)
Lemma overlapping_saves_lose_a_run payload_of t1 t2 lb j1 j2 i1 i2 now1 now2 (s : runs) :
  len s < MAX_RUNS -> i1 <> i2 -> (forall r, r ∈ s -> id r <> i1) ->
  let c := perform_all [create_tx (save_input payload_of t1 lb j1) i1 now1; create_tx (save_input payload_of t2 lb j2) i2 now2]
             [Read 0; Read 1; Write 0; Write 1] (Interleave.start s) in
  (exists r, results c !! 0%nat = Some r /\ id r = i1) /\ (exists r, results c !! 1%nat = Some r /\ id r = i2) /\
  (forall r, r ∈ shared c -> id r <> i1).
Proof.
  intros Hl Hne Hnew c. destruct (overlap_results (create_tx (save_input payload_of t1 lb j1) i1 now1) (create_tx (save_input payload_of t2 lb j2) i2 now2) s) as (H0 & H1 & Hs).
  split; [eexists; split; [exact H0|done]|]. split; [eexists; split; [exact H1|done]|].
  unfold c. rewrite Hs. simpl. unfold bound_size.
  assert (forall x, (len (s ++ [x]) >? MAX_RUNS) = false) as Hb.
  { intros x. rewrite Z.gtb_ltb. apply Z.ltb_ge. unfold len in *. rewrite length_app, Nat2Z.inj_add. simpl (Z.of_nat (length [x])). lia. }
  rewrite Hb. intros r [Hr| ->%list_elem_of_singleton]%elem_of_app; [by apply Hnew|]. simpl. congruence.
Qed.

Lemma scan_accounts_for_all_witness :
  let f t i := classifyOne (fun _ => "") (fun _ => "503") t (if String.eqb t "SPY" then Answered 200 (Ok (JObj [])) else Answered 503 (Err "")) None in
  exists p, moves f ["SPY"; "QQQ"] [0; 1; 1; 0; 0; 1]%nat (start ["SPY"; "QQQ"] CONCURRENCY) = Some p /\
    exists rows, out p = Some <$> rows /\ b_ticker <$> rows = ["SPY"; "QQQ"] /\ n_failed (summary_of ["SPY"; "QQQ"] rows) = 1.
Proof.
  intros f. destruct (moves f ["SPY"; "QQQ"] [0; 1; 1; 0; 0; 1]%nat (start ["SPY"; "QQQ"] CONCURRENCY)) as [p|] eqn:E; [|vm_compute in E; discriminate E].
  exists p. split; [done|]. pose proof (moves_steps _ _ _ _ _ E) as Hs.
  assert (Hs' : nsteps (step (scan (fun _ => "") (fun _ => "503")) ["SPY"; "QQQ"]) 6 (start ["SPY"; "QQQ"] CONCURRENCY) p).
  { eapply (nsteps_congruence (fun x => x)); [|exact Hs]. intros a b. apply step_weaken. intros x i r ->. by eexists _, None. }
  destruct (scan_accounts_for_all (fun _ => "") (fun _ => "503") ["SPY"; "QQQ"] 6 p Hs') as [_ H]. vm_compute in E. injection E as <-.
  destruct H as (rows & Ho & Ht & _); [repeat constructor|]. exists rows. split; [done|]. split; [done|].
  simpl in Ho. destruct rows as [|a [|b [|]]]; try done. injection Ho as <- <-. done.
Defined.
