(* ===== verification/Watches.v ===== *)
(** Scheduled regime watches: [web/lib/watchStore.ts], the routes of
    [web/app/api/watches], and the scheduler [web/app/api/watches/run/route.ts],
    which asks the Python service about the watches that are due, saves a run
    and reports a change of regime. The service's answers, the payload made of
    one, and the number of a JSON value are parameters. *)
From S2P Require Import Prelude JsNum JsDate IsoTime Json Store Runs Ticker.

Definition MAX_WATCHES : Z := 50.
Definition CADENCES : list Z := [1; 4; 12; 24; 168].
Definition MIN_LOOKBACK : Z := 30.
Definition MAX_LOOKBACK : Z := 365.

Record Watch := {
  w_id : string; w_ticker : string; w_lookback : Z; cadence_hours : Z; enabled : bool; w_label : string; w_created_at : Z;
  last_run_at : option Z; last_run_id : option string; last_regime : option string; last_error : option string; runs_count : Z }.

Abbreviation watches := (list Watch).

#[export] Program Instance watches_persisted : Persisted watches := {|
  raw := watches; encode s := s; decode s := s; absent := []; storable _ := True |}.
Next Obligation. done. Qed.

(** [/[\u0000-\u001F\u007F]/]. *)
Definition control (c : Ascii.ascii) : bool := (code c <=? 31) || (code c =? 127).

Definition normalizeLabel (input : jval) : string :=
  match input with Some (JStr s) => str_take 80 (trim (keep_chars (fun c => negb (control c)) s)) | _ => "" end.

Inductive WatchError := bad_ticker | bad_lookback | bad_cadence | limit_reached | duplicate.

(** What a request asks for, once validated. *)
Record WatchSpec := { v_ticker : string; v_lookback : Z; v_cadence : Z; v_label : string; v_enabled : bool }.

Section Watches.
Context (Number_of : jval -> num).

Definition validate (input : json) : result WatchSpec WatchError :=
  let tickerRaw := match field "ticker" input with Some (JStr s) => to_upper (trim s) | _ => "" end in
  if negb (TICKER_RE tickerRaw) then Err bad_ticker else
  let lookback := Number_of (field "lookback_days" input) in
  if negb (is_finite lookback) || negb (is_integer lookback) || num_lt lookback (int MIN_LOOKBACK) || num_lt (int MAX_LOOKBACK) lookback then Err bad_lookback else
  let cadence := Number_of (field "cadence_hours" input) in
  match list_find (fun c => num_le cadence (int c) = true /\ num_le (int c) cadence = true) CADENCES with
  | None => Err bad_cadence
  | Some (_, c) =>
      let l := normalizeLabel (field "label" input) in
      Ok {| v_ticker := tickerRaw; v_lookback := floorZ lookback; v_cadence := c;
            v_label := if truthy l then l else "watch " +:+ tickerRaw;
            v_enabled := match field "enabled" input with None => true | Some _ => jtruthy (field "enabled" input) end |}
  end.

Definition same_watch (v : WatchSpec) (w : Watch) : Prop := w_ticker w = v_ticker v /\ w_lookback w = v_lookback v /\ cadence_hours w = v_cadence v.
#[export] Instance same_watch_dec v w : Decision (same_watch v w).
Proof. unfold same_watch. apply _. Defined.

Definition new_watch (v : WatchSpec) (newId : string) (now : Z) : Watch :=
  {| w_id := newId; w_ticker := v_ticker v; w_lookback := v_lookback v; cadence_hours := v_cadence v; enabled := v_enabled v;
     w_label := v_label v; w_created_at := now; last_run_at := None; last_run_id := None; last_regime := None; last_error := None; runs_count := 0 |}.

Definition create_tx (input : json) (newId : string) (now : Z) : transaction watches (result Watch WatchError) := fun s =>
  match validate input with
  | Err e => (Err e, None)
  | Ok v =>
      if len s >=? MAX_WATCHES then (Err limit_reached, None)
      else match list_find (same_watch v) s with
           | Some _ => (Err duplicate, None)
           | None => let w := new_watch v newId now in (Ok w, Some (w :: s))
           end
  end.

Definition createWatch input newId now (f : file watches) := on_file (create_tx input newId now) f.
End Watches.

Definition listWatches (f : file watches) : watches := read_file f.
Definition find_watch (i : string) (s : watches) : option (nat * Watch) := list_find (fun w => w_id w = i) s.
Definition getWatch (i : string) (f : file watches) : option Watch := snd <$> find_watch i (read_file f).

Definition delete_tx (i : string) : transaction watches bool := fun s =>
  match find_watch i s with None => (false, None) | Some (n, _) => (true, Some (delete n s)) end.

Definition deleteWatch i (f : file watches) := on_file (delete_tx i) f.

Definition with_enabled (on : bool) (w : Watch) : Watch :=
  {| w_id := w_id w; w_ticker := w_ticker w; w_lookback := w_lookback w; cadence_hours := cadence_hours w; enabled := on;
     w_label := w_label w; w_created_at := w_created_at w; last_run_at := last_run_at w; last_run_id := last_run_id w;
     last_regime := last_regime w; last_error := last_error w; runs_count := runs_count w |}.

Record RunResult := { r_run_id : option string; r_regime : option string; r_error : option string }.

Definition truthy_opt (s : option string) : bool := truthy (default "" s).

Definition with_result (res : RunResult) (at_ : Z) (w : Watch) : Watch :=
  {| w_id := w_id w; w_ticker := w_ticker w; w_lookback := w_lookback w; cadence_hours := cadence_hours w; enabled := enabled w;
     w_label := w_label w; w_created_at := w_created_at w; last_run_at := Some at_; last_run_id := r_run_id res;
     last_regime := r_regime res; last_error := r_error res; runs_count := runs_count w + if truthy_opt (r_run_id res) then 1 else 0 |}.

(** The watch found, changed and written back. *)
Definition edit_tx (i : string) (f : Watch -> Watch) : transaction watches (option Watch) := fun s =>
  match find_watch i s with None => (None, None) | Some (n, w) => (Some (f w), Some (<[n := f w]> s)) end.

Definition setEnabled i on (f : file watches) := on_file (edit_tx i (with_enabled on)) f.
Definition recordRunResult i res at_ (f : file watches) := on_file (edit_tx i (with_result res at_)) f.

Definition isDue (w : Watch) (now : Z) : bool :=
  if negb (enabled w) then false
  else match last_run_at w with None => true | Some last => last + cadence_hours w * 3600000 <=? now end.

(** ** The scheduler *)

Definition checkAuth (expected headerTok queryTok : option string) : bool :=
  match expected with
  | Some e => if truthy e then String.eqb (default "" headerTok) e || String.eqb (default "" queryTok) e else true
  | None => true
  end.

Record Tick := { watch_id : string; t_ok : bool; t_run_id : option string; t_regime : option string; changed : bool; t_error : option string }.

(** What the service and the store made of a watch: an error status, with its
    message; an exception; or an answer, whose run is saved or is not. *)
Inductive Fetched :=
  | Upstream (msg : string)
  | Failed (msg : string)
  | Answered (regime : option string) (saved : result string string).

Definition tick_of (w : Watch) (fd : Fetched) : Tick * RunResult :=
  match fd with
  | Upstream msg | Failed msg =>
      ({| watch_id := w_id w; t_ok := false; t_run_id := None; t_regime := None; changed := false; t_error := Some msg |},
       {| r_run_id := None; r_regime := None; r_error := Some msg |})
  | Answered regime (Err msg) =>
      ({| watch_id := w_id w; t_ok := false; t_run_id := None; t_regime := regime; changed := false; t_error := Some msg |},
       {| r_run_id := None; r_regime := regime; r_error := Some msg |})
  | Answered regime (Ok rid) =>
      ({| watch_id := w_id w; t_ok := true; t_run_id := Some rid; t_regime := regime;
          changed := truthy_opt regime && truthy_opt (last_regime w) && negb (bool_decide (regime = last_regime w)); t_error := None |},
       {| r_run_id := Some rid; r_regime := regime; r_error := None |})
  end.

(** One watch: what was fetched, and when its result was recorded. *)
Definition runOne (w : Watch) (fd : Fetched) (at_ : Z) (f : file watches) : Tick * file watches :=
  let '(t, res) := tick_of w fd in (t, snd (recordRunResult (w_id w) res at_ f)).

Definition select (force : bool) (onlyId : option string) (now : Z) (all : watches) : watches :=
  match onlyId with
  | Some i => if truthy i then filter (fun w => w_id w = i) all else filter (fun w => (if force then enabled w else isDue w now) = true) all
  | None => filter (fun w => (if force then enabled w else isDue w now) = true) all
  end.

(** The watches one after the other; [env] is what happens to each. *)
Fixpoint run_due (env : Watch -> Fetched * Z) (due : watches) (f : file watches) : list Tick * file watches :=
  match due with
  | [] => ([], f)
  | w :: r => let '(t, f) := runOne w (env w).1 (env w).2 f in let '(ts, f) := run_due env r f in (t :: ts, f)
  end.

Record CronAnswer := { ran_at : Z; checked_n : Z; due_n : Z; ticks : list Tick }.

Definition POST (authorized force : bool) (onlyId : option string) (now : Z) (env : Watch -> Fetched * Z) (f : file watches)
  : option CronAnswer * file watches :=
  if negb authorized then (None, f) else
  let all := listWatches f in
  let due := select force onlyId now all in
  let '(ts, f) := run_due env due f in
  (Some {| ran_at := now; checked_n := len all; due_n := len due; ticks := ts |}, f).

Definition GET (authorized : bool) (now : Z) (f : file watches) : option (Z * Z) :=
  if negb authorized then None else Some (len (listWatches f), len (filter (fun w => isDue w now = true) (listWatches f))).

(** * What holds of the list over time *)

Section History.
Context (Number_of : jval -> num).

Inductive event :=
  | Create (input : json) (newId : string) (now : Z)
  | Delete (i : string)
  | Enable (i : string) (on : bool)
  | Record_ (i : string) (res : RunResult) (at_ : Z).

Definition step (s : watches) (e : event) : watches :=
  match e with
  | Create input newId now => after (create_tx Number_of input newId now) s
  | Delete i => after (delete_tx i) s
  | Enable i on => after (edit_tx i (with_enabled on)) s
  | Record_ i res at_ => after (edit_tx i (with_result res at_)) s
  end.

Definition run_all (es : list event) (s : watches) : watches := fold_left step es s.

Definition watch_key (w : Watch) : string * Z * Z := (w_ticker w, w_lookback w, cadence_hours w).

Definition watch_ok (w : Watch) : Prop :=
  TICKER_RE (w_ticker w) = true /\ MIN_LOOKBACK <= w_lookback w <= MAX_LOOKBACK /\ cadence_hours w ∈ CADENCES.

Definition watches_ok (s : watches) : Prop := len s <= MAX_WATCHES /\ NoDup (watch_key <$> s) /\ Forall watch_ok s.

Lemma after_edit i f s :
  after (edit_tx i f) s = match find_watch i s with Some (n, w) => <[n := f w]> s | None => s end.
Proof. unfold after, edit_tx. by destruct (find_watch i s) as [[n w]|]. Qed.

Lemma after_delete i s : after (delete_tx i) s = match find_watch i s with Some (n, _) => delete n s | None => s end.
Proof. unfold after, delete_tx. by destruct (find_watch i s) as [[n w]|]. Qed.

Lemma edit_ok i f s : (forall w, watch_key (f w) = watch_key w) -> watches_ok s -> watches_ok (after (edit_tx i f) s).
Proof.
  intros Hf (H1 & H2 & H3). rewrite after_edit. destruct (find_watch i s) as [[n w]|] eqn:E; [|done].
  apply list_find_lookup in E as [Hn _]. split_and!; [unfold len in *; by rewrite length_insert| |].
  - by rewrite (fmap_insert_same _ _ _ w) by done.
  - apply Forall_insert; [done|]. pose proof (Forall_lookup_1 _ _ _ _ H3 Hn) as Hw. pose proof (Hf w) as Hk. unfold watch_key, watch_ok in *. by injection Hk as -> -> ->.
Qed.

Lemma validate_ok input v : validate Number_of input = Ok v ->
  TICKER_RE (v_ticker v) = true /\ MIN_LOOKBACK <= v_lookback v <= MAX_LOOKBACK /\ v_cadence v ∈ CADENCES.
Proof.
  unfold validate. set (t := match field "ticker" input with Some (JStr s) => _ | _ => _ end).
  destruct (TICKER_RE t) eqn:Et; [|done]. cbn [negb]. cbv zeta. destruct (negb (is_finite _) || _ || _ || _) eqn:El; [done|].
  apply orb_false_elim in El as [[[Hf _]%orb_false_elim Hlo]%orb_false_elim Hhi].
  destruct (list_find _ CADENCES) as [[k c]|] eqn:Ec; [|done]. intros [= <-]. cbn. split; [done|].
  destruct (Number_of (field "lookback_days" input)) as [| |q]; [done|done|]. split; [split; [by apply floor_ge_bound|by apply floor_le_bound]|].
  apply list_find_Some in Ec as (Hk & _). by eapply list_elem_of_lookup_2.
Qed.

Lemma watches_step_ok s e : watches_ok s -> watches_ok (step s e).
Proof.
  intros Hs. destruct e as [input newId now|i|i on|i res at_]; cbn [step]; [| |by apply edit_ok|by apply edit_ok].
  - unfold after, create_tx. destruct (validate Number_of input) as [v|] eqn:Ev; [|done]. destruct (Z.geb_spec (len s) MAX_WATCHES); [done|].
    destruct (list_find (same_watch v) s) as [|] eqn:Ed; [done|]. destruct Hs as (H1 & H2 & H3). apply validate_ok in Ev as (V1 & V2 & V3).
    apply list_find_None in Ed. cbn. split_and!; [unfold len in *; simpl; lia| |by constructor].
    constructor; [|done]. intros (w & Hk & Hw)%list_elem_of_fmap. rewrite Forall_forall in Ed. apply (Ed w Hw). unfold same_watch. by injection Hk as -> -> ->.
  - rewrite after_delete. destruct (find_watch i s) as [[n w]|]; [|done]. destruct Hs as (H1 & H2 & H3).
    pose proof (sublist_delete s n) as Hd. split_and!; [|eapply sublist_NoDup; [exact H2|by apply fmap_sublist]|].
    + apply sublist_length in Hd. unfold len in *. lia.
    + rewrite Forall_forall in *. intros x Hx. apply H3. by eapply elem_of_sublist.
Qed.

(** Over any history there are at most 50 watches, of distinct ticker, lookback
    and cadence, each with a well-formed ticker, a lookback of 30 to 365 days
    and a cadence of the table. *)
Theorem watches_distinct es : watches_ok (run_all es []).
Proof.
  assert (watches_ok []) as H0 by (split_and!; [done|constructor|constructor]). revert H0. generalize ([] : watches).
  induction es as [|e es IH]; intros s Hs; [done|]. cbn. by apply IH, watches_step_ok.
Qed.

(** ** The cadence *)

(** An event that does not record a result for watch [i], nor reuses its id. *)
Definition spares (i : string) (e : event) : Prop :=
  match e with Create _ newId _ => newId <> i | Record_ j _ _ => j <> i | _ => True end.

Definition stamped (i : string) (t : Z) (s : watches) : Prop := forall w, w ∈ s -> w_id w = i -> last_run_at w = Some t.

Lemma find_watch_id i s n w : find_watch i s = Some (n, w) -> s !! n = Some w /\ w_id w = i.
Proof. intros H. by apply list_find_lookup in H. Qed.

Lemma spares_stamped i t s e : spares i e -> stamped i t s -> stamped i t (step s e).
Proof.
  intros He Hs w Hw Hi. destruct e as [input newId now|j|j on|j res at_]; cbn [step spares] in *.
  - unfold after, create_tx in Hw. destruct (validate Number_of input) as [v|]; [|by apply Hs]. destruct (_ >=? _); [by apply Hs|].
    destruct (list_find _ s); [by apply Hs|]. cbn in Hw. apply elem_of_cons in Hw as [->|Hw]; [done|by apply Hs].
  - rewrite after_delete in Hw. destruct (find_watch j s) as [[n x]|]; [|by apply Hs]. apply Hs; [|done].
    eapply elem_of_sublist; [exact Hw|apply sublist_delete].
  - rewrite after_edit in Hw. destruct (find_watch j s) as [[n x]|] eqn:E; [|by apply Hs]. apply find_watch_id in E as [Hn Hx].
    apply elem_of_insert_inv in Hw as [->|Hw]; [|by apply Hs]. cbn in *. apply Hs; [by eapply list_elem_of_lookup_2|done].
  - rewrite after_edit in Hw. destruct (find_watch j s) as [[n x]|] eqn:E; [|by apply Hs]. apply find_watch_id in E as [Hn Hx].
    apply elem_of_insert_inv in Hw as [->|Hw]; [|by apply Hs]. cbn in *. congruence.
Qed.

Lemma spared_history i t es s : Forall (spares i) es -> stamped i t s -> stamped i t (run_all es s).
Proof. intros He. revert s. induction He as [|e es He _ IH]; intros s Hs; [done|]. cbn. by apply IH, spares_stamped. Qed.

Lemma edited_elem i f s w : NoDup (w_id <$> s) -> w ∈ after (edit_tx i f) s -> (forall x, w_id (f x) = w_id x) ->
  exists x, x ∈ s /\ w_id w = w_id x /\ w = if decide (w_id x = i) then f x else x.
Proof.
  intros Hnd Hw Hf. rewrite after_edit in Hw. destruct (find_watch i s) as [[n x]|] eqn:E.
  - apply find_watch_id in E as [Hn Hx]. apply list_elem_of_lookup in Hw as [k Hk]. destruct (decide (k = n)) as [->|Hne].
    + rewrite list_lookup_insert_eq in Hk by (by eapply lookup_lt_Some). injection Hk as <-.
      exists x. rewrite decide_True by done. split_and!; [by eapply list_elem_of_lookup_2|done|done].
    + rewrite list_lookup_insert_ne in Hk by done. exists w. split_and!; [by eapply list_elem_of_lookup_2|done|]. rewrite decide_False; [done|].
      intros Hi. apply Hne. eapply NoDup_lookup; [exact Hnd| |]; rewrite list_lookup_fmap; [by rewrite Hk|rewrite Hn; simpl; congruence].
  - exists w. split_and!; [done|done|]. rewrite decide_False; [done|]. intros Hi. apply list_find_None in E. rewrite Forall_forall in E. by apply (E w).
Qed.

Lemma record_stamped i res t s : NoDup (w_id <$> s) -> stamped i t (after (edit_tx i (with_result res t)) s).
Proof.
  intros Hnd w Hw Hi. destruct (edited_elem _ _ _ _ Hnd Hw ltac:(done)) as (x & _ & Hx & ->). by rewrite decide_True by congruence.
Qed.

(** When a result is recorded for a watch, then whatever else happens to the
    list, until another is recorded the scheduler picks the watch exactly when
    it is enabled and its cadence has passed since. *)
Theorem cadence_respected i res t s es now w :
  NoDup (w_id <$> s) -> Forall (spares i) es ->
  let s' := run_all es (after (edit_tx i (with_result res t)) s) in
  w ∈ s' -> w_id w = i ->
  (w ∈ select false None now s' <-> enabled w = true /\ t + cadence_hours w * 3600000 <= now).
Proof.
  intros Hnd He s' Hw Hi. assert (last_run_at w = Some t) as Hl by (eapply spared_history; [exact He|by apply record_stamped|exact Hw|done]).
  cbn [select]. rewrite list_elem_of_filter. unfold isDue. rewrite Hl. destruct (enabled w); cbn; [rewrite Z.leb_le|]; naive_solver.
Qed.
End History.

(** ** The scheduler *)

Lemma runOne_view w fd t (f : file watches) : read_file (runOne w fd t f).2 = after (edit_tx (w_id w) (with_result (tick_of w fd).2 t)) (read_file f).
Proof. unfold runOne. destruct (tick_of w fd) as [tk res]. cbn [snd]. unfold recordRunResult. by apply on_file_view. Qed.

Lemma run_due_ticks env due f : watch_id <$> (run_due env due f).1 = w_id <$> due.
Proof.
  revert f. induction due as [|w due IH]; intros f; [done|]. cbn [run_due]. unfold runOne. destruct (tick_of w (env w).1) as [tk res] eqn:E.
  pose proof (IH (recordRunResult (w_id w) res (env w).2 f).2) as H. destruct (run_due env due _) as [ts f2]. cbn in *. f_equal; [|done].
  unfold tick_of in E. destruct (env w).1 as [m|m|r [rid|m]]; by injection E as <- <-.
Qed.

Lemma edit_ids i f s : (forall x, w_id (f x) = w_id x) -> w_id <$> after (edit_tx i f) s = w_id <$> s.
Proof.
  intros Hf. rewrite after_edit. destruct (find_watch i s) as [[n x]|] eqn:E; [|done]. apply find_watch_id in E as [Hn _]. by rewrite (fmap_insert_same _ _ _ x) by done.
Qed.

Lemma run_due_elem env due f w : NoDup (w_id <$> read_file f) -> w ∈ read_file (run_due env due f).2 ->
  exists x, x ∈ read_file f /\ w_id w = w_id x /\ cadence_hours w = cadence_hours x /\ enabled w = enabled x /\
    (w_id x ∈ w_id <$> due -> exists d, d ∈ due /\ last_run_at w = Some (env d).2) /\
    (w_id x ∉ w_id <$> due -> w = x).
Proof.
  revert f. induction due as [|d due IH]; intros f Hnd Hw; [exists w; split_and!; [done..|by intros ?%elem_of_nil|done]|].
  cbn [run_due] in Hw. pose proof (runOne_view d (env d).1 (env d).2 f) as Hv.
  destruct (runOne d (env d).1 (env d).2 f) as [tk f1]. cbn [snd] in Hv.
  assert (NoDup (w_id <$> read_file f1)) as Hnd1 by (by rewrite Hv, edit_ids).
  specialize (IH f1 Hnd1). destruct (run_due env due f1) as [ts f2]. cbn [snd] in *.
  destruct (IH Hw) as (x & Hx & H1 & H2 & H3 & H4 & H5). rewrite Hv in Hx.
  destruct (edited_elem _ _ _ _ Hnd Hx ltac:(done)) as (y & Hy & Hi & He). exists y. rewrite H1, H2, H3, Hi.
  assert (cadence_hours x = cadence_hours y /\ enabled x = enabled y) as [-> ->] by (rewrite He; by case_decide).
  split_and!; [done..| |].
  - intros Hin. destruct (decide (w_id x ∈ w_id <$> due)) as [Hd|Hd].
    + destruct (H4 Hd) as (d' & Hd' & Hl). exists d'. split; [by right|done].
    + rewrite (H5 Hd). exists d. split; [by left|]. rewrite fmap_cons in Hin. apply elem_of_cons in Hin as [Heq|Hin]; [|by rewrite Hi in Hd].
      rewrite He. by rewrite decide_True by done.
  - intros Hn. rewrite fmap_cons, not_elem_of_cons in Hn. destruct Hn as [Hne Hn]. rewrite H5 by (by rewrite Hi). rewrite He. by rewrite decide_False by done.
Qed.

Lemma run_due_ids env due f : w_id <$> read_file (run_due env due f).2 = w_id <$> read_file f.
Proof.
  revert f. induction due as [|d due IH]; intros f; [done|]. cbn [run_due]. pose proof (runOne_view d (env d).1 (env d).2 f) as Hv.
  destruct (runOne d _ _ f) as [tk f1]. cbn [snd] in Hv. specialize (IH f1). destruct (run_due env due f1) as [ts f2]. cbn [snd] in *. by rewrite IH, Hv, edit_ids.
Qed.

(** C23. A scheduled call leaves nothing due: it has one tick for every watch that
    was due, in their order, and a call at the same moment has none. *)
Theorem cron_settles env now f :
  NoDup (w_id <$> read_file f) -> Forall watch_ok (read_file f) -> (forall w, now <= (env w).2) ->
  let '(r, f') := POST true false None now env f in
  (exists a, r = Some a /\ checked_n a = len (listWatches f) /\ due_n a = len (ticks a) /\
     watch_id <$> ticks a = w_id <$> filter (fun w => isDue w now = true) (listWatches f)) /\
  (exists a, fst (POST true false None now env f') = Some a /\ due_n a = 0 /\ ticks a = [] /\ snd (POST true false None now env f') = f') /\
  (forall w, w ∈ read_file f -> isDue w now = false -> w ∈ read_file f').
Proof.
  intros Hnd Hok Henv. unfold POST at 1. cbn [negb]. cbv zeta. cbn [select].
  set (due := filter _ (listWatches f)). pose proof (run_due_ticks env due f) as Ht. pose proof (fun w => run_due_elem env due f w Hnd) as He.
  assert (forall w, w ∈ read_file f -> isDue w now = false -> w ∈ read_file (run_due env due f).2) as Hkeep.
  { intros w Hw Hdue. assert (w_id w ∈ w_id <$> read_file (run_due env due f).2) as (w' & Hi & Hw')%list_elem_of_fmap.
    { rewrite run_due_ids. apply list_elem_of_fmap. by exists w. }
    destruct (He w' Hw') as (x & Hx & H1 & _ & _ & _ & H5).
    assert (x = w) as -> by (apply (key_inj w_id (read_file f)); [done..|congruence]).
    rewrite <- H5; [done|]. intros (d & Hd & Hin)%list_elem_of_fmap. apply list_elem_of_filter in Hin as [Hdd Hin].
    assert (d = w) as -> by by apply (key_inj w_id (read_file f)). congruence. }
  destruct (run_due env due f) as [ts f'] eqn:E. cbn [fst snd] in *. split_and!; [|cut (filter (fun w => isDue w now = true) (listWatches f') = [])|exact Hkeep].
  - eexists. split; [done|]. cbn. split_and!; [done| |done]. unfold len. f_equal. apply (f_equal length) in Ht. by rewrite !length_fmap in Ht.
  - intros Hnil. unfold POST. cbn [negb]. cbv zeta. cbn [select]. rewrite Hnil. by eexists.
  - apply filter_none. intros w Hw Hdue. destruct (He w Hw) as (x & Hx & H1 & H2 & H3 & H4 & H5).
    destruct (decide (w_id x ∈ w_id <$> due)) as [Hd|Hd].
    + destruct (H4 Hd) as (d & _ & Hl). unfold isDue in Hdue. rewrite Hl in Hdue. destruct (negb _); [done|]. apply Z.leb_le in Hdue.
      rewrite Forall_forall in Hok. destruct (Hok x Hx) as (_ & _ & Hc). specialize (Henv d). rewrite H2 in Hdue.
      assert (0 < cadence_hours x) by (unfold CADENCES in Hc; set_unfold; lia). lia.
    + rewrite (H5 Hd) in Hdue. apply Hd, list_elem_of_fmap. exists x. split; [done|]. by apply list_elem_of_filter.
Qed.

(** A change of regime is reported when both answers name one; a failure in
    between clears the regime of the watch, and the change is not reported. *)
Lemma change_reported w a b i t : a <> b -> truthy a = true -> truthy b = true -> last_regime w = Some a ->
  changed (tick_of w (Answered (Some b) (Ok i))).1 = true /\
  (forall msg, changed (tick_of (with_result (tick_of w (Failed msg)).2 t w) (Answered (Some b) (Ok i))).1 = false).
Proof.
  intros Hne Ha Hb Hl. cbn. rewrite Hl. unfold truthy_opt. cbn. rewrite Ha, Hb. split; [|done]. rewrite bool_decide_false by congruence. done.
Qed.

(** ** Instances *)

Definition demo_watch (i t : string) (last : option Z) : Watch :=
  {| w_id := i; w_ticker := t; w_lookback := 90; cadence_hours := 4; enabled := true; w_label := "watch " +:+ t; w_created_at := 0;
     last_run_at := last; last_run_id := None; last_regime := None; last_error := None; runs_count := 0 |}.
Definition demo_list : watches := [demo_watch "w1" "SPY" None; demo_watch "w2" "QQQ" (Some 0)].
Definition demo_env (w : Watch) : Fetched * Z := (if String.eqb (w_id w) "w1" then Answered (Some "bull") (Ok "r1") else Failed "timeout", 100).

Lemma cadence_respected_witness :
  let s' := run_all (fun _ => NaN) [Enable "w1" true; Delete "w2"] (after (edit_tx "w1" (with_result (tick_of (demo_watch "w1" "SPY" None) (Failed "timeout")).2 100)) demo_list) in
  forall w, w ∈ s' -> w_id w = "w1" -> (w ∈ select false None 14400100 s' <-> enabled w = true /\ 100 + cadence_hours w * 3600000 <= 14400100).
Proof.
  intros s' w Hw Hi. apply (cadence_respected (fun _ => NaN)); [vm_compute; repeat constructor; set_solver| |exact Hw|exact Hi].
  repeat constructor.
Defined.

Lemma cron_settles_witness :
  let '(r, f') := POST true false None 100 demo_env (write_file demo_list) in
  exists a, r = Some a /\ due_n a = 1 /\ watch_id <$> ticks a = ["w1"] /\ fst (POST true false None 100 demo_env f') = Some {| ran_at := 100; checked_n := 2; due_n := 0; ticks := [] |}.
Proof.
  pose proof (cron_settles demo_env 100 (write_file demo_list)) as H.
  destruct (POST true false None 100 demo_env (write_file demo_list)) as [r f'] eqn:E.
  destruct H as ((a & -> & H1 & H2 & H3) & (b & Hb & H4 & H5 & H6) & _).
  - vm_compute; repeat constructor; set_solver.
  - repeat constructor; vm_compute; congruence || set_solver.
  - intros w. vm_compute. congruence.
  - exists a. split; [done|]. vm_compute in E. injection E as <- <-. vm_compute. done.
Defined.
