(* ===== verification/Comments.v ===== *)
(** Public comments on shared runs: [web/lib/commentStore.ts] and the routes
    [web/app/api/runs/[id]/comments] and [.../comments/[cid]]. Anyone may leave a
    comment, so the store bounds what an address can write and what a run can
    hold. SHA-256 is a parameter. *)
From S2P Require Import Prelude JsNum JsDate IsoTime Json Store Interleave Runs.

Definition MAX_AUTHOR_LEN : nat := 40.
Definition MAX_BODY_LEN : nat := 1000.
Definition MAX_COMMENTS_PER_RUN : Z := 500.
Definition RATE_WINDOW_MS : Z := 60000.
Definition RATE_MAX_PER_WINDOW : Z := 3.

Record Comment := { c_id : string; run_id : string; author : string; body : string; created_at : Z; ip_hash : string }.

Abbreviation comments := (list Comment).

#[export] Program Instance comments_persisted : Persisted comments := {|
  raw := comments; encode s := s; decode s := s; absent := []; storable _ := True |}.
Next Obligation. done. Qed.

(** [/[\u0000-\u0008\u000B-\u001F\u007F]/]. *)
Definition stripped (c : Ascii.ascii) : bool :=
  (code c <=? 8) || (11 <=? code c) && (code c <=? 31) || (code c =? 127).

Definition sanitize (s : string) (max : nat) : string := str_take max (trim (keep_chars (fun c => negb (stripped c)) s)).

Definition normalizeAuthor (input : jval) : string :=
  match input with Some (JStr s) => let cleaned := sanitize s MAX_AUTHOR_LEN in if truthy cleaned then cleaned else "anon" | _ => "anon" end.

Definition normalizeBody (input : jval) : string :=
  match input with Some (JStr s) => sanitize s MAX_BODY_LEN | _ => "" end.

(** Oldest first. *)
Definition by_creation (a b : Comment) : Z := if created_at a <? created_at b then -1 else 1.

Definition listComments (runId : string) (f : file comments) : comments :=
  js_sort by_creation (filter (fun c => run_id c = runId) (read_file f)).

Definition from_since (h : string) (cutoff : Z) (s : comments) : comments := filter (fun c => ip_hash c = h /\ cutoff <= created_at c) s.

Definition countByIpSince (ipHash : string) (sinceMs now : Z) (f : file comments) : Z := len (from_since ipHash (now - sinceMs) (read_file f)).

Inductive AddError := rate_limited | empty_body | run_full.

Record PublicComment := { p_id : string; p_run_id : string; p_author : string; p_body : string; p_created_at : Z }.

Definition publicView (c : Comment) : PublicComment :=
  {| p_id := c_id c; p_run_id := run_id c; p_author := author c; p_body := body c; p_created_at := created_at c |}.

Section Comments.
Context (sha256 : string -> string).

Definition hashIp (ip : string) : string := str_take 24 (sha256 ("signalclaw|" +:+ ip)).

Record AddInput := { i_run_id : string; i_author : jval; i_body : jval; i_ip : string }.

(** The clock is read for the window, [now], and for the comment, [now']. *)
Definition add_tx (input : AddInput) (newId : string) (now now' : Z) : transaction comments (result Comment AddError) := fun s =>
  let b := normalizeBody (i_body input) in
  if negb (truthy b) then (Err empty_body, None) else
  let a := normalizeAuthor (i_author input) in
  let h := hashIp (if truthy (i_ip input) then i_ip input else "0.0.0.0") in
  let forRun := filter (fun c => run_id c = i_run_id input) s in
  if len forRun >=? MAX_COMMENTS_PER_RUN then (Err run_full, None) else
  let recent := len (from_since h (now - RATE_WINDOW_MS) s) in
  if recent >=? RATE_MAX_PER_WINDOW then (Err rate_limited, None) else
  let comment := {| c_id := newId; run_id := i_run_id input; author := a; body := b; created_at := now'; ip_hash := h |} in
  (Ok comment, Some (s ++ [comment])).

Definition addComment input newId now now' (f : file comments) := on_file (add_tx input newId now now') f.

Definition delete_tx (runId commentId : string) : transaction comments bool := fun s =>
  let kept := filter (fun c => ~ (run_id c = runId /\ c_id c = commentId)) s in
  if len kept =? len s then (false, None) else (true, Some kept).

Definition deleteComment runId commentId (f : file comments) := on_file (delete_tx runId commentId) f.

(** ** The routes *)

Definition clientIp (forwarded real : option string) : string :=
  match forwarded with
  | Some fwd => if truthy fwd then trim (default "" (head (split "," fwd))) else match real with Some r => if truthy r then trim r else "0.0.0.0" | None => "0.0.0.0" end
  | None => match real with Some r => if truthy r then trim r else "0.0.0.0" | None => "0.0.0.0" end
  end.

Definition comments_GET (key : string) (fr : file runs) (f : file comments) : result (list PublicComment * Z) (Z * string) :=
  match getRun key fr with
  | None => Err (404, "not_found")
  | Some _ => let items := listComments key f in Ok (publicView <$> items, len items)
  end.

(** What the body of a post is refused for. *)
Definition refusal (bd : option json) : option (Z * string) :=
  match bd with
  | None => Some (400, "bad_json")
  | Some j =>
      if negb (is_object j) then Some (400, "bad_body") else
      match field "body" j with
      | Some (JStr s) =>
          if negb (truthy (trim s)) then Some (400, "empty_body")
          else if str_len s >? Z.of_nat MAX_BODY_LEN * 2 then Some (400, "body_too_long")
          else match field "author" j with
               | None => None
               | Some (JStr a) => if str_len a >? Z.of_nat MAX_AUTHOR_LEN * 2 then Some (400, "author_too_long") else None
               | Some _ => Some (400, "bad_author")
               end
      | _ => Some (400, "empty_body")
      end
  end.

Definition error_answer (e : AddError) : Z * string :=
  match e with rate_limited => (429, "rate_limited") | empty_body => (400, "empty_body") | run_full => (409, "run_full") end.

Definition comments_POST (key : string) (bd : option json) (forwarded real : option string) (newId : string) (now now' : Z) (fr : file runs) (f : file comments)
  : result PublicComment (Z * string) * file comments :=
  match getRun key fr with
  | None => (Err (404, "not_found"), f)
  | Some _ =>
      match refusal bd with
      | Some e => (Err e, f)
      | None =>
          let j := default JNull bd in
          let '(r, f') := addComment {| i_run_id := key; i_author := field "author" j; i_body := field "body" j; i_ip := clientIp forwarded real |} newId now now' f in
          (match r with Ok c => Ok (publicView c) | Err e => Err (error_answer e) end, f')
      end
  end.

(** [admin_key] is SIGNALCLAW_ADMIN_KEY, [scopes] those of the key of the call. *)
Definition comment_DELETE (admin_key : option string) (scopes : option (list string)) (key cid : string) (f : file comments) : Z * file comments :=
  if truthy (default "" admin_key) && negb (bool_decide ("admin" ∈ default [] scopes)) then (403, f)
  else let '(ok, f') := deleteComment key cid f in (if ok then 200 else 404, f').

(** * What the store never exceeds *)

Inductive event :=
  | Add (input : AddInput) (newId : string) (now now' : Z)
  | Delete (runId commentId : string).

Definition step (s : comments) (e : event) : comments :=
  match e with Add i n t t' => after (add_tx i n t t') s | Delete r c => after (delete_tx r c) s end.

Definition run_all (es : list event) (s : comments) : comments := fold_left step es s.

(** The clock does not go back between two lines. *)
Definition timely (e : event) : Prop := match e with Add _ _ t t' => t <= t' | Delete _ _ => True end.

Definition text_ok (max : nat) (s : string) : Prop :=
  s <> "" /\ (String.length s <= max)%nat /\ str_forall (fun c => negb (stripped c)) s = true.

(** The comments an address wrote between two times. *)
Definition within (h : string) (t t' : Z) (s : comments) : comments := filter (fun c => ip_hash c = h /\ t <= created_at c <= t') s.

Definition comments_ok (s : comments) : Prop :=
  (forall h t, len (within h t (t + RATE_WINDOW_MS) s) <= RATE_MAX_PER_WINDOW) /\
  (forall r, len (filter (fun c => run_id c = r) s) <= MAX_COMMENTS_PER_RUN) /\
  Forall (fun c => text_ok MAX_AUTHOR_LEN (author c) /\ text_ok MAX_BODY_LEN (body c)) s.

Lemma within_recent h t now now' s : now <= now' -> t <= now' <= t + RATE_WINDOW_MS ->
  len (within h t (t + RATE_WINDOW_MS) s) <= len (from_since h (now - RATE_WINDOW_MS) s).
Proof. intros Hn Ht. apply len_filter_impl. intros x _ [-> Hx]. split; [done|lia]. Qed.

Lemma sanitize_ok s max : sanitize s max <> "" -> text_ok max (sanitize s max).
Proof.
  intros H. split_and!; [done|apply str_take_length|]. apply str_forall_take, str_forall_trim, keep_chars_forall.
Qed.

Lemma normalizeAuthor_ok j : text_ok MAX_AUTHOR_LEN (normalizeAuthor j).
Proof.
  assert (text_ok MAX_AUTHOR_LEN "anon") as Ha by (split_and!; [done|vm_compute; lia|done]).
  destruct j as [[| | |s| |]|]; simpl; try done. destruct (truthy (sanitize s MAX_AUTHOR_LEN)) eqn:E; [|done]. by apply sanitize_ok, truthy_spec.
Qed.

Lemma normalizeBody_ok j : truthy (normalizeBody j) = true -> text_ok MAX_BODY_LEN (normalizeBody j).
Proof. intros H%truthy_spec. destruct j as [[| | |s| |]|]; try done. by apply sanitize_ok. Qed.

Lemma comments_step_ok e s : timely e -> comments_ok s -> comments_ok (step s e).
Proof.
  intros He (H1 & H2 & H3). destruct e as [i n t t'|r c]; cbn [step timely] in *; unfold after.
  - unfold add_tx. cbv zeta. destruct (truthy (normalizeBody (i_body i))) eqn:Eb; [|done]. cbn [negb].
    destruct (Z.geb_spec (len (filter (fun c => run_id c = i_run_id i) s)) MAX_COMMENTS_PER_RUN) as [|Hf]; [done|].
    generalize (hashIp (if truthy (i_ip i) then i_ip i else "0.0.0.0")) as h; intros h. destruct (Z.geb_spec (len (from_since h (t - RATE_WINDOW_MS) s)) RATE_MAX_PER_WINDOW) as [|Hr]; [done|].
    cbn [snd from_option id Datatypes.id]. split_and!.
    + intros h0 t0. unfold within. rewrite len_filter_snoc. case_decide as Hd; [|specialize (H1 h0 t0); unfold within in H1; lia].
      cbn [ip_hash created_at] in Hd. destruct Hd as [<- Hd]. pose proof (within_recent h t0 t t' s He Hd) as Hw. unfold within, RATE_MAX_PER_WINDOW in *. lia.
    + intros r. rewrite len_filter_snoc. case_decide as Hd; [|specialize (H2 r); lia]. cbn in Hd. subst r. unfold MAX_COMMENTS_PER_RUN in *. lia.
    + apply Forall_app. split; [done|]. apply Forall_singleton. split; [apply normalizeAuthor_ok|by apply normalizeBody_ok].
  - unfold delete_tx. cbv zeta. destruct (_ =? _); [done|]. cbn [snd from_option id Datatypes.id]. split_and!.
    + intros h t. etrans; [apply len_filter_filter|apply H1].
    + intros r0. etrans; [apply len_filter_filter|apply H2].
    + by apply Forall_filter_keep.
Qed.

(** Whatever is posted and deleted, from whichever addresses, no minute holds
    more than three comments of one address, no run more than 500, and every
    comment has a body and an author within their lengths and free of control
    characters. *)
Theorem comments_bounded es : Forall timely es -> comments_ok (run_all es []).
Proof.
  assert (comments_ok []) as H0 by (split_and!; done). revert H0. generalize ([] : comments).
  induction es as [|e es IH]; intros s Hs He; [done|]. apply Forall_cons in He as [He Hes]. cbn. by apply IH; [apply comments_step_ok|].
Qed.

(** The limits hold of one writer at a time: the store has no lock, and two
    posts that overlap both answer with their comment while one is lost. *)
Lemma overlapping_comments_lose_one i1 i2 n1 n2 t (s : comments) c1 c2 :
  fst (add_tx i1 n1 t t s) = Ok c1 -> fst (add_tx i2 n2 t t s) = Ok c2 -> c_id c1 <> c_id c2 -> (forall c, c ∈ s -> c_id c <> c_id c1) ->
  let c := perform_all [add_tx i1 n1 t t; add_tx i2 n2 t t] [Read 0; Read 1; Write 0; Write 1] (start s) in
  results c !! 0%nat = Some (Ok c1) /\ results c !! 1%nat = Some (Ok c2) /\ c1 ∉ shared c.
Proof.
  intros H1 H2 Hne Hnew c. destruct (overlap_results (add_tx i1 n1 t t) (add_tx i2 n2 t t) s) as (Hr1 & Hr2 & Hs).
  unfold c. rewrite Hr1, Hr2, Hs, H1, H2. split_and!; [done..|]. clear - H1 H2 Hne Hnew. unfold add_tx in *. cbv zeta in *.
  destruct (negb (truthy (normalizeBody (i_body i1)))); [done|]. destruct (negb (truthy (normalizeBody (i_body i2)))); [done|].
  do 4 (destruct (_ >=? _); [done|]). cbn in *. injection H2 as <-. intros [Hin|He%list_elem_of_singleton]%elem_of_app; [by apply (Hnew c1 Hin)|congruence].
Qed.

End Comments.

Lemma listComments_exact r f c : c ∈ listComments r f <-> c ∈ read_file f /\ run_id c = r.
Proof. unfold listComments. rewrite js_sort_elem, list_elem_of_filter. naive_solver. Qed.

Definition demo_add (t : Z) : event :=
  Add {| i_run_id := "r1"; i_author := None; i_body := Some (JStr "hello"); i_ip := "10.0.0.1" |} "c" t t.

Lemma comments_bounded_witness :
  let s := run_all (fun x => x) [demo_add 0; demo_add 1; demo_add 2; demo_add 3; demo_add 60001] [] in
  len s = 4 /\ comments_ok s.
Proof.
  split; [by vm_compute|]. apply comments_bounded.
  do 5 (apply Forall_cons_2; [unfold timely; cbn; lia|]). apply Forall_nil_2.
Defined.
