(* ===== verification/Activity.v ===== *)
(** The activity feed: [web/lib/activityStore.ts] and the routes
    [web/app/api/activity] and [web/app/api/activity/[id]]. Every other part of
    the app records what it did here; the feed keeps the newest 500 events. *)
From S2P Require Import Prelude JsNum JsDate IsoTime Json Store.

Definition MAX_EVENTS : Z := 500.
Definition VALID_KINDS : list string :=
  ["run.saved"; "run.deleted"; "webhook.delivered"; "webhook.failed"; "batch.completed"; "key.created"; "key.revoked"; "key.rotated";
   "webhook.secret_rotated"; "invite.created"; "invite.revoked"; "invite.accepted"; "alert.fired"; "system"].

Record ActivityEvent := { e_id : string; kind : string; title : string; e_body : string; href : option string; created_at : Z; e_read : bool }.

Abbreviation events := (list ActivityEvent).

#[export] Program Instance events_persisted : Persisted events := {|
  raw := events; encode s := s; decode s := s; absent := []; storable _ := True |}.
Next Obligation. done. Qed.

Definition clamp (s : jval) (max : Z) (fallback : string) : string :=
  match s with
  | Some (JStr s) => let t := trim s in if negb (truthy t) then fallback else if str_len t >? max then str_take (Z.to_nat max) t else t
  | _ => fallback
  end.

Record RecordInput := { i_kind : string; i_title : jval; i_body : jval; i_href : jval }.
Inductive RecordError := invalid_kind | title_required.

Definition path_or_null (v : jval) : option string :=
  match v with Some (JStr s) => if starts_with "/" s then Some (str_take 240 s) else None | _ => None end.

(** The event of a request, or what is thrown before the file is read. *)
Definition new_event (input : RecordInput) (newId : string) (now : Z) : result ActivityEvent RecordError :=
  if negb (bool_decide (i_kind input ∈ VALID_KINDS)) then Err invalid_kind else
  let t := clamp (i_title input) 120 "" in
  if negb (truthy t) then Err title_required else
  Ok {| e_id := newId; kind := i_kind input; title := t; e_body := clamp (i_body input) 400 ""; href := path_or_null (i_href input); created_at := now; e_read := false |}.

Definition newest_order := newest_first created_at.

(** [push], then the newest [MAX_EVENTS] when there are more. *)
Definition push_bounded (s : events) (ev : ActivityEvent) : events :=
  let s := s ++ [ev] in if len s >? MAX_EVENTS then take (Z.to_nat MAX_EVENTS) (js_sort newest_order s) else s.

Definition record_tx (input : RecordInput) (newId : string) (now : Z) : transaction events (result ActivityEvent RecordError) := fun s =>
  match new_event input newId now with Err e => (Err e, None) | Ok ev => (Ok ev, Some (push_bounded s ev)) end.

Definition recordActivity input newId now (f : file events) := on_file (record_tx input newId now) f.
Definition recordSafe input newId now (f : file events) : file events := snd (recordActivity input newId now f).

(** The numbers of a query are those of [Number.parseInt]. *)
Record QueryOpts := { q_kind : option string; q_unreadOnly : bool; q_limit : option Z; q_offset : option Z }.
Record QueryResult := { r_events : events; r_total : Z; r_unread : Z; r_limit : Z; r_offset : Z }.

Definition unread (s : events) : Z := fold_right (fun e n => n + if e_read e then 0 else 1) 0 s.

Definition matching (opts : QueryOpts) (all : events) : events :=
  let f := match q_kind opts with Some k => if truthy k && bool_decide (k ∈ VALID_KINDS) then filter (fun e => kind e = k) all else all | None => all end in
  if q_unreadOnly opts then filter (fun e => e_read e = false) f else f.

Definition queryActivity (opts : QueryOpts) (fl : file events) : QueryResult :=
  let all := js_sort newest_order (read_file fl) in
  let filtered := matching opts all in
  let lim := Z.min (Z.max (default 25 (q_limit opts)) 1) 200 in
  let off := Z.max (default 0 (q_offset opts)) 0 in
  {| r_events := take (Z.to_nat lim) (drop (Z.to_nat off) filtered); r_total := len filtered; r_unread := unread all; r_limit := lim; r_offset := off |}.

Definition unreadCount (f : file events) : Z := unread (read_file f).

Definition as_read (e : ActivityEvent) : ActivityEvent :=
  {| e_id := e_id e; kind := kind e; title := title e; e_body := e_body e; href := href e; created_at := created_at e; e_read := true |}.

Definition mark_tx (i : string) : transaction events (option ActivityEvent) := fun s =>
  match list_find (fun e => e_id e = i) s with None => (None, None) | Some (n, e) => (Some (as_read e), Some (<[n := as_read e]> s)) end.
Definition markRead i (f : file events) := on_file (mark_tx i) f.

Definition mark_all_tx : transaction events Z := fun s =>
  let n := unread s in (n, if n >? 0 then Some (as_read <$> s) else None).
Definition markAllRead (f : file events) := on_file mark_all_tx f.

Definition delete_tx (i : string) : transaction events bool := fun s =>
  let kept := filter (fun e => e_id e <> i) s in if len kept =? len s then (false, None) else (true, Some kept).
Definition deleteEvent i (f : file events) := on_file (delete_tx i) f.

Definition clear_tx : transaction events Z := fun s => (len s, Some []).
Definition clearAll (f : file events) := on_file clear_tx f.

(** ** The routes *)

Definition intParam (v : option string) (parseInt : string -> option Z) (fallback : Z) : Z :=
  match v with None => fallback | Some s => default fallback (parseInt s) end.

Definition activity_GET (parseInt : string -> option Z) (k u l o : option string) (f : file events) : QueryResult * bool :=
  let out := queryActivity {| q_kind := k; q_unreadOnly := bool_decide (u = Some "1") || bool_decide (u = Some "true");
                              q_limit := Some (intParam l parseInt 25); q_offset := Some (intParam o parseInt 0) |} f in
  (out, r_offset out + len (r_events out) <? r_total out).

(** The number updated, or 400. *)
Definition activity_PATCH (bd : option json) (f : file events) : option Z * file events :=
  let action := match field "action" (default (JObj []) bd) with Some (JStr s) => s | _ => "mark_all_read" end in
  if String.eqb action "mark_all_read" then let '(n, f) := markAllRead f in (Some n, f) else (None, f).

Definition event_PATCH (i : string) (f : file events) : Z * file events :=
  if negb (truthy i) then (400, f) else let '(e, f) := markRead i f in (if e is Some _ then 200 else 404, f).

Definition event_DELETE (i : string) (f : file events) : Z * file events :=
  if negb (truthy i) then (400, f) else let '(ok, f) := deleteEvent i f in (if ok then 200 else 404, f).

(** * What the feed holds *)

Inductive event :=
  | Record_ (input : RecordInput) (newId : string) (now : Z)
  | MarkRead (i : string)
  | MarkAll
  | Delete (i : string)
  | Clear.

Definition step (s : events) (e : event) : events :=
  match e with
  | Record_ input newId now => after (record_tx input newId now) s
  | MarkRead i => after (mark_tx i) s
  | MarkAll => after mark_all_tx s
  | Delete i => after (delete_tx i) s
  | Clear => after clear_tx s
  end.

Definition run_all (es : list event) (s : events) : events := fold_left step es s.

(** The events recorded by a history, in its order. *)
Definition recorded (es : list event) : events :=
  omap (fun e => match e with Record_ input newId now => match new_event input newId now with Ok ev => Some ev | Err _ => None end | _ => None end) es.

Definition event_ok (e : ActivityEvent) : Prop :=
  kind e ∈ VALID_KINDS /\ title e <> "" /\ str_len (title e) <= 120 /\ str_len (e_body e) <= 400 /\
  (forall h, href e = Some h -> starts_with "/" h = true /\ str_len h <= 240).

(** Nobody deletes anything. *)
Definition keeps (e : event) : Prop := match e with Delete _ | Clear => False | _ => True end.

(** [s] holds the newest of [all], read or not, at most [MAX_EVENTS] of them. *)
Definition newest_of (all s : events) : Prop :=
  exists dropped, (as_read <$> s) ++ (as_read <$> dropped) ≡ₚ (as_read <$> all) /\
    len s = Z.min MAX_EVENTS (len all) /\ (forall k d, k ∈ s -> d ∈ dropped -> created_at d <= created_at k).

Lemma clamp_len s max fb : 0 <= max -> str_len fb <= max -> str_len (clamp s max fb) <= max.
Proof.
  intros H0 H. destruct s as [[| | |s| |]|]; simpl; try done. destruct (negb _); [done|]. destruct (_ >? _) eqn:E; [|lia].
  pose proof (str_take_length (Z.to_nat max) (trim s)). unfold str_len. lia.
Qed.

Lemma starts_take c n s : starts_with (String c "") s = true -> starts_with (String c "") (str_take (S n) s) = true.
Proof. destruct s as [|d s]; [done|]. unfold starts_with. cbn [str_take]. by rewrite !prefix_one. Qed.

Lemma new_event_ok input i now ev : new_event input i now = Ok ev -> event_ok ev.
Proof.
  unfold new_event. case_bool_decide as Hk; [|done]. cbn [negb]. cbv zeta. destruct (truthy _) eqn:Et; [|done]. intros [= <-].
  split_and!; cbn [kind title e_body href]; [done|by apply truthy_spec|by apply clamp_len|by apply clamp_len|].
  intros h. unfold path_or_null. destruct (i_href input) as [[| | |s| |]|]; try done. destruct (starts_with "/" s) eqn:Es; [|done]. intros Hh. assert (h = str_take 240 s) as -> by congruence.
  split; [by apply (starts_take "/"%char 239)|]. pose proof (str_take_length 240 s). unfold str_len. lia.
Qed.

(** An element of both parts of a list cut in two is there when its last
    occurrence is taken away. *)
Lemma elem_of_both {A} (l1 l2 s : list A) x : l1 ++ l2 ≡ₚ s ++ [x] -> x ∈ l1 -> x ∈ l2 -> x ∈ s.
Proof.
  intros Hp (a & b & ->)%list_elem_of_split H2. assert (s ≡ₚ a ++ b ++ l2) as ->; [|set_solver].
  apply (Permutation_cons_inv (a := x)). etrans; [|etrans; [symmetry; exact Hp|]]; solve_Permutation.
Qed.

Lemma push_newest all s ev : newest_of all s -> newest_of (all ++ [ev]) (push_bounded s ev).
Proof.
  intros (dr & Hp & Hl & Hd). unfold push_bounded. cbv zeta. set (sorted := js_sort newest_order (s ++ [ev])).
  pose proof (newest_first_sorted created_at (s ++ [ev])) as Hs. fold newest_order in Hs. fold sorted in Hs.
  assert (sorted ≡ₚ s ++ [ev]) as Hperm by apply js_sort_Permutation.
  assert (len dr = len all - len s) as Hdr.
  { apply Permutation_length in Hp. rewrite length_app, !length_fmap in Hp. unfold len. lia. }
  unfold newest_of. rewrite !len_app. change (len [ev]) with 1. destruct (Z.gtb_spec (len s + 1) MAX_EVENTS) as [Hgt|Hle].
  - set (kept := take _ sorted). set (out := drop (Z.to_nat MAX_EVENTS) sorted).
    assert (kept ++ out ≡ₚ s ++ [ev]) as Hko by (by unfold kept, out; rewrite take_drop).
    assert (forall k d, k ∈ kept -> d ∈ out -> created_at d <= created_at k) as Hord.
    { intros k d Hk Hdd. eapply (StronglySorted_app_1_elem_of (fun a b => created_at b <= created_at a) kept out); [by unfold kept, out; rewrite take_drop|done..]. }
    assert (length out = 1%nat) as Hout.
    { unfold out. rewrite length_drop, Hperm, length_app. simpl. unfold len, MAX_EVENTS in *. lia. }
    exists (out ++ dr). split_and!.
    + rewrite fmap_app, app_assoc, <- fmap_app, Hko, !fmap_app, <- Hp. solve_Permutation.
    + unfold len in *. apply Permutation_length in Hko. rewrite !length_app in Hko. simpl in Hko. lia.
    + intros k d Hk [Hdd|Hdd]%elem_of_app; [by apply Hord|].
      assert (k ∈ s ++ [ev]) as [Hks|Hke]%elem_of_app by (rewrite <- Hko; apply elem_of_app; by left); [by apply Hd|].
      apply list_elem_of_singleton in Hke as ->. destruct out as [|x [|]]; [done| |done]. assert (x ∈ [x]) as Hx by apply list_elem_of_here.
      specialize (Hord ev x Hk Hx). assert (x ∈ s ++ [ev]) as [Hxs|Hxe]%elem_of_app by (rewrite <- Hko; apply elem_of_app; by right).
      * specialize (Hd x d Hxs Hdd). lia.
      * apply list_elem_of_singleton in Hxe as ->. apply Hd; [|done]. by eapply elem_of_both.
  - exists dr. split_and!; [rewrite !fmap_app, <- Hp; solve_Permutation|rewrite len_app; change (len [ev]) with 1; lia|].
    intros k d [Hk|Hk]%elem_of_app Hdd; [by apply Hd|]. destruct dr as [|x dr]; [by apply elem_of_nil in Hdd|].
    unfold len in Hdr, Hle, Hl; simpl in *; lia.
Qed.

Lemma as_read_idem e : as_read (as_read e) = as_read e.
Proof. done. Qed.

(** Reading changes nothing else. *)
Lemma newest_reads all s s' : newest_of all s -> as_read <$> s' = as_read <$> s -> newest_of all s'.
Proof.
  intros (dr & Hp & Hl & Hd) He. exists dr. rewrite He. split_and!; [done| |].
  - rewrite <- Hl. apply (f_equal length) in He. rewrite !length_fmap in He. unfold len. lia.
  - intros k d Hk Hdd. assert (as_read k ∈ as_read <$> s) as (k' & Hk' & Hin)%list_elem_of_fmap by (rewrite <- He; by apply list_elem_of_fmap_2).
    apply (f_equal created_at) in Hk'. cbn in Hk'. rewrite Hk'. by apply Hd.
Qed.

Lemma after_mark i s : as_read <$> after (mark_tx i) s = as_read <$> s.
Proof.
  unfold after, mark_tx. destruct (list_find _ s) as [[n e]|] eqn:E; [|done]. apply list_find_lookup in E as [Hn _]. cbn [snd from_option].
  by apply (fmap_insert_same as_read s n e).
Qed.

Lemma after_mark_all s : as_read <$> after mark_all_tx s = as_read <$> s.
Proof. unfold after, mark_all_tx. cbv zeta. destruct (_ >? 0); [|done]. cbn [snd from_option]. unfold Datatypes.id. rewrite <- list_fmap_compose. done. Qed.

Lemma recorded_ok es : Forall event_ok (recorded es).
Proof.
  induction es as [|e es IH]; [constructor|]. unfold recorded. cbn [omap list_omap]. destruct e as [input i now|i| |i|]; try exact IH.
  destruct (new_event input i now) as [ev|] eqn:E; [|exact IH]. constructor; [by eapply new_event_ok|exact IH].
Qed.

Lemma event_ok_read e e' : as_read e = as_read e' -> event_ok e -> event_ok e'.
Proof. intros He. unfold event_ok. destruct e, e'. cbn in *. by injection He as -> -> -> -> -> ->. Qed.

(** Over any history in which nobody deletes events the feed holds the newest
    500 of those recorded, all of them while there are no more, whatever was
    marked as read; each with a kind of the list, a title, texts within their
    lengths and a link into the app or none. *)
Theorem feed_keeps_newest es : Forall keeps es -> newest_of (recorded es) (run_all es []) /\ Forall event_ok (run_all es []).
Proof.
  intros Hk. assert (newest_of (recorded es) (run_all es [])) as Hn.
  { cut (forall all s, newest_of all s -> newest_of (all ++ recorded es) (run_all es s)); [intros H; apply (H [] []); exists []; split_and!; [done|done|by intros k d ?%elem_of_nil]|].
    induction Hk as [|e es He _ IH]; intros all s Hs; [unfold recorded; cbn; by rewrite app_nil_r|]. cbn [run_all fold_left].
    unfold recorded. cbn [omap list_omap]. destruct e as [input i now|i| |i|]; cbn [step keeps] in *; [|..|done|done].
    - unfold after, record_tx. destruct (new_event input i now) as [ev|]; [|by apply IH]. cbn [snd from_option]. unfold Datatypes.id.
      rewrite (cons_middle ev), app_assoc. by apply IH, push_newest.
    - apply IH. eapply newest_reads; [exact Hs|apply after_mark].
    - apply IH. eapply newest_reads; [exact Hs|apply after_mark_all]. }
  split; [done|]. destruct Hn as (dr & Hp & _ & _). apply Forall_forall. intros e He.
  assert (as_read e ∈ as_read <$> recorded es) as (e' & Heq & He')%list_elem_of_fmap.
  { rewrite <- Hp. apply elem_of_app. left. by apply list_elem_of_fmap_2. }
  eapply event_ok_read; [symmetry; exact Heq|]. pose proof (recorded_ok es) as H. rewrite Forall_forall in H. by apply H.
Qed.

(** With deletions too there are never more than 500. *)
Lemma feed_bounded es : len (run_all es []) <= MAX_EVENTS.
Proof.
  cut (forall s, len s <= MAX_EVENTS -> len (run_all es s) <= MAX_EVENTS); [intros H; by apply H|].
  induction es as [|e es IH]; intros s Hs; [done|]. cbn. apply IH. destruct e as [input i now|i| |i|]; cbn [step].
  - unfold after, record_tx. destruct (new_event input i now) as [ev|]; [|done]. cbn [snd from_option]. unfold Datatypes.id, push_bounded. cbv zeta.
    destruct (Z.gtb_spec (len (s ++ [ev])) MAX_EVENTS); [|done]. unfold len. rewrite length_take. unfold MAX_EVENTS. lia.
  - pose proof (f_equal length (after_mark i s)) as H. rewrite !length_fmap in H. unfold len in *. lia.
  - pose proof (f_equal length (after_mark_all s)) as H. rewrite !length_fmap in H. unfold len in *. lia.
  - unfold after, delete_tx. cbv zeta. destruct (_ =? _); [done|]. cbn [snd from_option]. unfold Datatypes.id.
    pose proof (len_filter (fun e => e_id e <> i) s). lia.
  - done.
Qed.

(** ** Reading *)

Lemma unread_filter s : unread s = len (filter (fun e => e_read e = false) s).
Proof.
  induction s as [|e s IH]; [done|]. unfold unread in *. cbn [fold_right]. rewrite IH, filter_cons.
  destruct (e_read e) eqn:E; [rewrite decide_False by congruence|rewrite decide_True by done]; unfold len; simpl; lia.
Qed.

(** Marking everything counts what was unread, leaves nothing unread, and done
    again counts nothing. *)
Lemma mark_all_read f : let '(n, f') := markAllRead f in
  n = unreadCount f /\ unreadCount f' = 0 /\ markAllRead f' = (0, f').
Proof.
  unfold markAllRead, unreadCount, on_file, mark_all_tx. cbv zeta. set (s := read_file f). assert (unread (as_read <$> s) = 0) as H0.
  { clearbody s. induction s as [|e s IH]; [done|]. cbn. cbn in IH. unfold unread in IH. rewrite IH. lia. }
  destruct (Z.gtb_spec (unread s) 0) as [Hgt|Hle].
  - assert (read_file (write_file (as_read <$> s)) = as_read <$> s) as -> by by apply read_write. by rewrite H0.
  - assert (unread s = 0) as Hu by (pose proof (unread_filter s); pose proof (len_nonneg (filter (fun e => e_read e = false) s)); lia). fold s. by rewrite Hu.
Qed.

(** The pages of a query, each from where the last ended, are its events. *)
Lemma activity_pages opts f n :
  let at_ i := {| q_kind := q_kind opts; q_unreadOnly := q_unreadOnly opts; q_limit := q_limit opts; q_offset := Some (Z.of_nat i * r_limit (queryActivity opts f)) |} in
  let all := matching opts (js_sort newest_order (read_file f)) in
  r_unread (queryActivity opts f) = unreadCount f /\
  (len all <= Z.of_nat n * r_limit (queryActivity opts f) -> flat_map (fun i => r_events (queryActivity (at_ i) f)) (seq 0 n) = all).
Proof.
  cbv zeta. split.
  - cbn. unfold unreadCount. rewrite !unread_filter. unfold len. f_equal. by rewrite js_sort_Permutation.
  - set (lim := r_limit (queryActivity opts f)). assert (lim = Z.min (Z.max (default 25 (q_limit opts)) 1) 200) as Hlim by done. clearbody lim. intros Hn.
    etrans; [|apply (firstn_all2 (n := n * Z.to_nat lim)); unfold len in Hn; lia].
    rewrite <- take_drop_pages. apply flat_map_ext. intros i. unfold queryActivity. cbn [r_events q_limit q_offset default]. rewrite <- Hlim.
    replace (Z.to_nat (Z.max (Datatypes.id (Z.of_nat i * lim)) 0)) with (i * Z.to_nat lim)%nat by (unfold Datatypes.id; lia). done.
Qed.

Definition demo_record (i : string) (t : Z) : event :=
  Record_ {| i_kind := "system"; i_title := Some (JStr " Run saved "); i_body := None; i_href := Some (JStr "https://x") |} i t.

Lemma feed_keeps_newest_witness :
  let es := [demo_record "a" 1; MarkRead "a"; demo_record "b" 2; Record_ {| i_kind := "other"; i_title := None; i_body := None; i_href := None |} "c" 3] in
  len (run_all es []) = 2 /\ newest_of (recorded es) (run_all es []).
Proof. split; [by vm_compute|]. apply feed_keeps_newest. repeat constructor. Defined.
