(* ===== verification/Dpa.v ===== *)
(** The ledger of data processing agreements: [web/lib/dpaStore.ts] and what the
    route [web/app/api/admin/dpa/route.ts] passes to it. Acceptances and
    withdrawals are rows of an append-only file; the acceptance in force is
    computed from them. The operations run one after the other, through
    [withLock]. The published agreement [CURRENT_DPA], a constant of a
    deployment, and SHA-256 are parameters. *)
From S2P Require Import Prelude JsNum JsDate IsoTime Json Store.

Definition MIN_SIGNATORY_LEN : Z := 2.
Definition MAX_SIGNATORY_LEN : Z := 200.
Definition MAX_TITLE_LEN : Z := 200.
Definition MAX_ENTITY_LEN : Z := 200.
Definition MAX_NOTE_LEN : Z := 1000.

Record DpaPublishedVersion := { version : string; effective_date : string; url : string; p_sha256 : string }.

Inductive Action := accepted | withdrawn.
#[export] Instance action_eq_dec : EqDecision Action.
Proof. solve_decision. Defined.

Record DpaAcceptance := {
  d_id : string; action : Action; dpa_version : string; dpa_sha256 : string; dpa_url : string; accepted_at : string;
  actor_id : string; actor_email : option string; signatory_name : string; signatory_title : string; customer_entity : string;
  ip_hash : option string; user_agent : option string; d_note : string }.

Abbreviation ledger := (list DpaAcceptance).

(** ** The file *)

Definition action_text (a : Action) : string := match a with accepted => "accepted" | withdrawn => "withdrawn" end.

Definition acceptance_json (a : DpaAcceptance) : json :=
  JObj [("id", JStr (d_id a)); ("action", JStr (action_text (action a))); ("dpa_version", JStr (dpa_version a)); ("dpa_sha256", JStr (dpa_sha256 a));
        ("dpa_url", JStr (dpa_url a)); ("accepted_at", JStr (accepted_at a)); ("actor_id", JStr (actor_id a)); ("actor_email", jopt JStr (actor_email a));
        ("signatory_name", JStr (signatory_name a)); ("signatory_title", JStr (signatory_title a)); ("customer_entity", JStr (customer_entity a));
        ("ip_hash", jopt JStr (ip_hash a)); ("user_agent", jopt JStr (user_agent a)); ("note", JStr (d_note a))].

Definition text_or (v : jval) (fallback : string) : string := match v with Some (JStr s) => s | _ => fallback end.

Definition parseAcceptance (a : json) : option DpaAcceptance :=
  if negb (is_object a) then None else
  i ← string_or_null (field "id" a);
  act ← match field "action" a with
        | Some (JStr s) => if String.eqb s "accepted" then Some accepted else if String.eqb s "withdrawn" then Some withdrawn else None
        | _ => None end;
  v ← string_or_null (field "dpa_version" a);
  t ← string_or_null (field "accepted_at" a);
  n ← string_or_null (field "signatory_name" a);
  Some {| d_id := i; action := act; dpa_version := v; dpa_sha256 := text_or (field "dpa_sha256" a) ""; dpa_url := text_or (field "dpa_url" a) "";
          accepted_at := t; actor_id := text_or (field "actor_id" a) "unknown"; actor_email := string_or_null (field "actor_email" a);
          signatory_name := n; signatory_title := text_or (field "signatory_title" a) ""; customer_entity := text_or (field "customer_entity" a) "";
          ip_hash := string_or_null (field "ip_hash" a); user_agent := string_or_null (field "user_agent" a); d_note := text_or (field "note" a) "" |}.

Definition readLedger (j : json) : ledger :=
  if negb (is_object j) then [] else omap parseAcceptance (array_or_empty (field "acceptances" j)).

Section Dpa.
Context (CURRENT_DPA : DpaPublishedVersion) (sha256 : string -> string).

Definition current_json : json :=
  JObj [("version", JStr (version CURRENT_DPA)); ("effective_date", JStr (effective_date CURRENT_DPA)); ("url", JStr (url CURRENT_DPA)); ("sha256", JStr (p_sha256 CURRENT_DPA))].

Definition ledger_json (l : ledger) : json := JObj [("current", current_json); ("acceptances", JArr (acceptance_json <$> l))].

Lemma parse_acceptance a : parseAcceptance (acceptance_json a) = Some a.
Proof. destruct a as [i [] v s u t ai [ae|] n ti e [ip|] [ua|] no]; done. Qed.

#[export] Program Instance ledger_persisted : Persisted ledger := {|
  raw := json; encode := ledger_json; decode := readLedger; absent := []; storable _ := True |}.
Next Obligation.
  intros l _. unfold readLedger, ledger_json. cbn. apply omap_fmap_id. apply Forall_forall. intros a _. apply parse_acceptance.
Qed.

(** ** The acceptance in force *)

(** A later row that withdraws the version of [r]. *)
Definition kills (r x : DpaAcceptance) : Prop := action x = withdrawn /\ dpa_version x = dpa_version r.
#[export] Instance kills_dec r x : Decision (kills r x).
Proof. unfold kills. apply _. Defined.

(** The last row that is an acceptance no later row kills: those after the first
    row are looked at before it. *)
Fixpoint findLatestActive (rows : ledger) : option DpaAcceptance :=
  match rows with
  | [] => None
  | r :: later =>
      match findLatestActive later with
      | Some a => Some a
      | None => if decide (action r = accepted) then if decide (Exists (kills r) later) then None else Some r else None
      end
  end.

(** ** The operations *)

Definition hashIp (ip : option string) : option string :=
  if truthy (default "" ip) then Some (str_take 32 (sha256 ("signalclaw-dpa:" +:+ default "" ip))) else None.

Record AcceptInput := {
  i_name : string; i_title : string; i_entity : string; i_note : string; i_actor_id : string; i_actor_email : option string; i_ip : option string; i_user_agent : option string }.

Inductive AcceptError := bad_signatory | bad_entity | bad_title | bad_note.

Definition non_empty (s : string) : option string := if truthy s then Some s else None.

Definition check_accept (input : AcceptInput) : option AcceptError :=
  let name := trim (i_name input) in let title := trim (i_title input) in let entity := trim (i_entity input) in let note := trim (i_note input) in
  if (str_len name <? MIN_SIGNATORY_LEN) || (str_len name >? MAX_SIGNATORY_LEN) then Some bad_signatory
  else if (str_len title =? 0) || (str_len title >? MAX_TITLE_LEN) then Some bad_title
  else if (str_len entity =? 0) || (str_len entity >? MAX_ENTITY_LEN) then Some bad_entity
  else if str_len note >? MAX_NOTE_LEN then Some bad_note else None.

Definition acceptance_row (input : AcceptInput) (newId : string) (now : Z) : DpaAcceptance :=
  {| d_id := newId; action := accepted; dpa_version := version CURRENT_DPA; dpa_sha256 := p_sha256 CURRENT_DPA; dpa_url := url CURRENT_DPA;
     accepted_at := toISOString now; actor_id := default "unknown" (non_empty (i_actor_id input)); actor_email := i_actor_email input;
     signatory_name := trim (i_name input); signatory_title := trim (i_title input); customer_entity := trim (i_entity input);
     ip_hash := hashIp (i_ip input); user_agent := non_empty (str_take 300 (default "" (i_user_agent input))); d_note := str_take (Z.to_nat MAX_NOTE_LEN) (trim (i_note input)) |}.

Definition accept_tx (input : AcceptInput) (newId : string) (now : Z) : transaction ledger (result (DpaAcceptance * option DpaAcceptance) AcceptError) :=
  checked (check_accept input) (fun l => let row := acceptance_row input newId now in (Ok (row, findLatestActive l), Some (l ++ [row]))).

Definition accept input newId now (f : file ledger) := on_file (accept_tx input newId now) f.

Record WithdrawInput := { w_reason : string; w_actor_id : string; w_actor_email : option string; w_ip : option string; w_user_agent : option string }.
Inductive WithdrawError := bad_reason | no_active.

Definition withdrawal_row (input : WithdrawInput) (active : DpaAcceptance) (newId : string) (now : Z) : DpaAcceptance :=
  {| d_id := newId; action := withdrawn; dpa_version := dpa_version active; dpa_sha256 := dpa_sha256 active; dpa_url := dpa_url active;
     accepted_at := toISOString now; actor_id := default "unknown" (non_empty (w_actor_id input)); actor_email := w_actor_email input;
     signatory_name := signatory_name active; signatory_title := signatory_title active; customer_entity := customer_entity active;
     ip_hash := hashIp (w_ip input); user_agent := non_empty (str_take 300 (default "" (w_user_agent input)));
     d_note := str_take (Z.to_nat MAX_NOTE_LEN) (trim (w_reason input)) |}.

Definition check_withdraw (input : WithdrawInput) : option WithdrawError :=
  let reason := trim (w_reason input) in if (str_len reason <? 4) || (str_len reason >? MAX_NOTE_LEN) then Some bad_reason else None.

Definition withdraw_tx (input : WithdrawInput) (newId : string) (now : Z) : transaction ledger (result (DpaAcceptance * DpaAcceptance) WithdrawError) :=
  checked (check_withdraw input) (fun l =>
    match findLatestActive l with
    | None => (Err no_active, None)
    | Some active => let row := withdrawal_row input active newId now in (Ok (row, active), Some (l ++ [row]))
    end).

Definition withdraw input newId now (f : file ledger) := on_file (withdraw_tx input newId now) f.

Record State := { s_current : DpaPublishedVersion; s_active : option DpaAcceptance; needs_re_acceptance : bool; s_acceptances : ledger }.

Definition getState (f : file ledger) : State :=
  let l := read_file f in
  let active := findLatestActive l in
  {| s_current := CURRENT_DPA; s_active := active;
     needs_re_acceptance := match active with None => true | Some a => negb (String.eqb (dpa_version a) (version CURRENT_DPA)) end;
     s_acceptances := rev l |}.

Definition getActiveAcceptance (f : file ledger) : option DpaAcceptance := findLatestActive (read_file f).

(** ** The route *)

Definition accept_input (body : jval) (actor : string) (ip ua : option string) : AcceptInput :=
  let t k := text_or (j ← body; field k j) "" in
  {| i_name := t "signatory_name"; i_title := t "signatory_title"; i_entity := t "customer_entity"; i_note := t "note"; i_actor_id := actor;
     i_actor_email := string_or_null (j ← body; field "actor_email" j); i_ip := ip; i_user_agent := ua |}.

Definition withdraw_input (body : jval) (actor : string) (ip ua : option string) : WithdrawInput :=
  {| w_reason := text_or (j ← body; field "reason" j) ""; w_actor_id := actor; w_actor_email := string_or_null (j ← body; field "actor_email" j); w_ip := ip; w_user_agent := ua |}.

(** The status; a body that does not parse is refused by POST and empty for DELETE. *)
Definition dpa_POST (body : option json) (actor : string) (ip ua : option string) (newId : string) (now : Z) (f : file ledger) : Z * file ledger :=
  match body with
  | None => (400, f)
  | Some j => let '(r, f) := accept (accept_input (Some j) actor ip ua) newId now f in (if is_ok r then 200 else 400, f)
  end.

Definition dpa_DELETE (body : option json) (actor : string) (ip ua : option string) (newId : string) (now : Z) (f : file ledger) : Z * file ledger :=
  let '(r, f) := withdraw (withdraw_input (Some (default (JObj []) body)) actor ip ua) newId now f in
  (match r with Ok _ => 200 | Err no_active => 409 | Err bad_reason => 400 end, f).
End Dpa.

(** * The ledger against a stack of acceptances *)

Lemma filter_same {A} (P : A -> Prop) `{!forall x, Decision (P x)} (l : list A) : (forall x, x ∈ l -> P x) -> filter P l = l.
Proof.
  induction l as [|x l IH]; intros Hl; [done|]. rewrite filter_cons, decide_True by (apply Hl; by left). f_equal. apply IH. intros y Hy. apply Hl. by right.
Qed.

(** What the rows stand for: the acceptances not withdrawn, the last one first. *)
Definition live_step (st : ledger) (r : DpaAcceptance) : ledger :=
  if decide (action r = accepted) then r :: st else filter (fun a => dpa_version a <> dpa_version r) st.
Definition live (rows : ledger) : ledger := fold_left live_step rows [].

Lemma active_from rows st :
  head (fold_left live_step rows st) =
  match findLatestActive rows with Some a => Some a | None => head (filter (fun a => ~ Exists (kills a) rows) st) end.
Proof.
  revert st. induction rows as [|r later IH]; intros st.
  - cbn. f_equal. symmetry. apply filter_same. intros x _ Hx. by apply Exists_nil in Hx.
  - cbn [fold_left findLatestActive]. rewrite IH. destruct (findLatestActive later) as [a|]; [done|]. unfold live_step.
    destruct (decide (action r = accepted)) as [Ha|Ha].
    + rewrite filter_cons. assert (filter (fun a => ~ Exists (kills a) (r :: later)) st = filter (fun a => ~ Exists (kills a) later) st) as ->.
      { apply filter_ext. intros x _. rewrite Exists_cons. unfold kills at 1. rewrite Ha. naive_solver. }
      destruct (decide (Exists (kills r) later)) as [Hk|Hk]; [by rewrite decide_False by tauto|by rewrite decide_True].
    + f_equal. rewrite list_filter_filter. apply filter_ext. intros x _. rewrite Exists_cons. unfold kills at 2.
      assert (action r = withdrawn) by (by destruct (action r)). naive_solver.
Qed.

Lemma active_live rows : findLatestActive rows = head (live rows).
Proof. unfold live. rewrite active_from. by destruct (findLatestActive rows). Qed.

Lemma live_snoc rows r : live (rows ++ [r]) = live_step (live rows) r.
Proof. unfold live. by rewrite fold_left_app. Qed.

Section History.
Context (sha256 : string -> string).

(** A deployment publishes its own agreement. *)
Inductive event :=
  | Accept (current : DpaPublishedVersion) (input : AcceptInput) (newId : string) (now : Z)
  | Withdraw (input : WithdrawInput) (newId : string) (now : Z).

Definition step (l : ledger) (e : event) : ledger :=
  match e with
  | Accept cur input newId now => after (accept_tx cur sha256 input newId now) l
  | Withdraw input newId now => after (withdraw_tx sha256 input newId now) l
  end.
Definition run_all (es : list event) (l : ledger) : ledger := fold_left step es l.

(** An acceptance is pushed; a withdrawal takes away every acceptance of the
    version of the top one. *)
Definition spec_step (st : ledger) (e : event) : ledger :=
  match e with
  | Accept cur input newId now => match check_accept input with None => acceptance_row cur sha256 input newId now :: st | Some _ => st end
  | Withdraw input _ _ => match check_withdraw input, st with None, a :: _ => filter (fun b => dpa_version b <> dpa_version a) st | _, _ => st end
  end.
Definition spec_all (es : list event) (st : ledger) : ledger := fold_left spec_step es st.

Lemma live_step_spec l e : live (step l e) = spec_step (live l) e.
Proof.
  destruct e as [cur input i now|input i now]; cbn [step spec_step]; unfold after.
  - unfold accept_tx, checked. destruct (check_accept input); [done|]. cbn [snd from_option]. unfold Datatypes.id. by rewrite live_snoc.
  - unfold withdraw_tx, checked. destruct (check_withdraw input); [done|]. rewrite active_live. destruct (live l) as [|a st] eqn:E; cbn [head]; [done|].
    cbn [snd from_option]. unfold Datatypes.id. rewrite live_snoc, E. done.
Qed.

Lemma live_run es l : live (run_all es l) = spec_all es (live l).
Proof. revert l. induction es as [|e es IH]; intros l; [done|]. cbn. by rewrite <- live_step_spec, <- IH. Qed.

Lemma step_appends l e : exists more, step l e = l ++ more.
Proof.
  destruct e as [cur input i now|input i now]; cbn [step]; unfold after.
  - unfold accept_tx, checked. destruct (check_accept input); [exists []; by rewrite app_nil_r|by eexists].
  - unfold withdraw_tx, checked. destruct (check_withdraw input); [exists []; by rewrite app_nil_r|].
    destruct (findLatestActive l); [by eexists|exists []; by rewrite app_nil_r].
Qed.

Lemma run_appends es l : exists more, run_all es l = l ++ more.
Proof.
  revert l. induction es as [|e es IH]; intros l; [exists []; by rewrite app_nil_r|]. cbn. destruct (step_appends l e) as [m1 H1].
  destruct (IH (step l e)) as [m2 H2]. exists (m1 ++ m2). unfold run_all in H2. rewrite H2, H1. by rewrite app_assoc.
Qed.

(** C38. The ledger implements a stack of acceptances. Whatever is accepted and
    withdrawn, under whatever published agreements: the acceptance in force is
    the top of the stack, an acceptance reports it as superseded, a withdrawal
    withdraws it and is refused exactly when there is none; and no row written
    is ever changed. *)
Theorem ledger_implements_stack es :
  let l := run_all es [] in let st := spec_all es [] in
  (forall cur, s_active (getState cur (write_file (H := ledger_persisted cur) l)) = head st) /\
  (forall cur input i now, fst (accept_tx cur sha256 input i now l) =
     match check_accept input with None => Ok (acceptance_row cur sha256 input i now, head st) | Some e => Err e end) /\
  (forall input i now, fst (withdraw_tx sha256 input i now l) =
     match check_withdraw input, st with
     | Some e, _ => Err e
     | None, [] => Err no_active
     | None, a :: _ => Ok (withdrawal_row sha256 input a i now, a)
     end) /\
  (forall es', exists more, run_all (es ++ es') [] = l ++ more).
Proof.
  cbv zeta. assert (live (run_all es []) = spec_all es []) as Hl by apply live_run. split_and!.
  - intros cur. unfold getState. cbv zeta. cbn [s_active]. rewrite (read_write (H := ledger_persisted cur)) by done. by rewrite active_live, Hl.
  - intros cur input i now. unfold accept_tx, checked. destruct (check_accept input); [done|]. cbn. by rewrite active_live, Hl.
  - intros input i now. unfold withdraw_tx, checked. destruct (check_withdraw input); [done|]. rewrite active_live, Hl. by destruct (spec_all es []).
  - intros es'. unfold run_all. rewrite fold_left_app. apply run_appends.
Qed.

(** Once the current agreement is accepted no acceptance is asked for, and once
    it is withdrawn one is, even when an older agreement comes back in force. *)
Lemma acceptance_needed cur l input i now w j now' :
  check_accept input = None -> check_withdraw w = None ->
  let l1 := after (accept_tx cur sha256 input i now) l in
  let l2 := after (withdraw_tx sha256 w j now') l1 in
  let needs l := needs_re_acceptance (getState cur (write_file (H := ledger_persisted cur) l)) in
  needs l1 = false /\ needs l2 = true /\
  findLatestActive l2 = head (filter (fun a => dpa_version a <> version cur) (live l)).
Proof.
  intros Ha Hw. cbv zeta. set (l1 := after (accept_tx _ _ _ _ _) l). set (l2 := after (withdraw_tx _ _ _ _) l1).
  assert (live l1 = acceptance_row cur sha256 input i now :: live l) as H1.
  { pose proof (live_step_spec l (Accept cur input i now)) as H. cbn [spec_step] in H. by rewrite Ha in H. }
  assert (live l2 = filter (fun a => dpa_version a <> version cur) (live l)) as H2.
  { pose proof (live_step_spec l1 (Withdraw w j now')) as H. cbn [spec_step] in H. rewrite Hw, H1 in H. rewrite filter_cons, decide_False in H by (intros Hn; by apply Hn). exact H. }
  unfold getState. cbv zeta. cbn [needs_re_acceptance]. rewrite !(read_write (H := ledger_persisted cur)) by done. rewrite !active_live, H1, H2. cbn. rewrite String.eqb_refl. split_and!; [done| |done].
  destruct (filter _ (live l)) as [|a r] eqn:E; [done|]. assert (a ∈ filter (fun a => dpa_version a <> version cur) (live l)) as [Hne _]%list_elem_of_filter by (rewrite E; by left).
  cbn. by rewrite (proj2 (String.eqb_neq _ _)).
Qed.
End History.
