(* ===== verification/Siem.v ===== *)
(** The mirror of the audit log to a collector of the customer:
    [web/lib/siemSinkStore.ts], with the test of
    [web/app/api/admin/siem/test/route.ts] and the field check of the PUT of
    [web/app/api/admin/siem/route.ts]. A sink is configured once per deployment;
    every audited event is posted to it, signed. The URL parser, the HMAC, the
    JSON text and the network are parameters; inputs have the declared types. *)
From S2P Require Import Prelude JsNum JsDate IsoTime Json Store Egress.
Local Open Scope js_scope.

Record SinkOnDisk := {
  enabled : bool; s_url : option string; s_secret : option string; extra_header_name : option string; extra_header_value : option string;
  timeout_ms : Z; updated_at : Z }.

Definition DEFAULT : SinkOnDisk :=
  {| enabled := false; s_url := None; s_secret := None; extra_header_name := None; extra_header_value := None; timeout_ms := 2000; updated_at := 0 |}.

Record SiemSink := { p_enabled : bool; p_url : option string; secret_set : bool; p_header_name : option string; extra_header_set : bool; p_timeout_ms : Z; p_updated_at : Z }.

Definition set_ (s : option string) : bool := truthy (default "" s).

Definition publicView (s : SinkOnDisk) : SiemSink :=
  {| p_enabled := enabled s; p_url := s_url s; secret_set := set_ (s_secret s); p_header_name := extra_header_name s;
     extra_header_set := set_ (extra_header_value s); p_timeout_ms := timeout_ms s; p_updated_at := updated_at s |}.

Record DeliveryAttempt := { a_id : string; ts : Z; event_id : string; a_url : string; a_status : option Z; a_ok : bool; a_error : option string; duration_ms : Z }.

Definition MAX_DELIVERIES : nat := 50.

(** The process: the sink it loaded, its log of attempts; and the file. *)
Record siem := Siem { disk : option SinkOnDisk; cached : option SinkOnDisk; deliveries : list DeliveryAttempt }.

Definition load (p : siem) : SinkOnDisk * siem :=
  match cached p with
  | Some s => (s, p)
  | None => let s := default DEFAULT (disk p) in (s, Siem (disk p) (Some s) (deliveries p))
  end.

Definition save (s : SinkOnDisk) (p : siem) : siem := Siem (Some s) (Some s) (deliveries p).

Definition getSink (p : siem) : SiemSink * siem := let '(s, p) := load p in (publicView s, p).

(** An outer [None] is [undefined]. *)
Record UpdateInput := {
  i_enabled : option bool; i_url : option (option string); i_secret : option (option string); i_header_name : option (option string);
  i_header_value : option (option string); i_timeout_ms : option num }.

Inductive SinkError := bad_url | bad_scheme | userinfo | bad_secret | bad_header_name | bad_header_value | bad_timeout | missing_url | missing_secret.

Definition is_letter (c : Ascii.ascii) : bool := ((65 <=? code c) && (code c <=? 90)) || ((97 <=? code c) && (code c <=? 122)).
Definition header_char (c : Ascii.ascii) : bool := is_letter c || ((48 <=? code c) && (code c <=? 57)) || Ascii.eqb c "-"%char.

(** [/^[A-Za-z][A-Za-z0-9-]{0,63}$/]. *)
Definition HEADER_NAME_RE (s : string) : bool :=
  match s with "" => false | String c r => is_letter c && str_forall header_char r && (str_len r <=? 63) end.

(** A field that is [undefined], to be cleared, or to be checked. *)
Definition field_of {A} (i : option (option string)) (current : A) (cleared : A) (check : string -> result A SinkError) : result A SinkError :=
  match i with
  | None => Ok current
  | Some v => if truthy (default "" v) then check (default "" v) else Ok cleared
  end.

Section Siem.
Context (new_URL : string -> option (URL * string)) (hmac : string -> string -> string) (stringify : json -> string).

Definition check_url (u : string) : result (option string) SinkError :=
  match new_URL u with
  | None => Err bad_url
  | Some (u, text) =>
      if negb (String.eqb (protocol u) "https:") && negb (String.eqb (protocol u) "http:") then Err bad_scheme
      else if truthy (username u) || truthy (password u) then Err userinfo
      else Ok (Some text)
  end.

Definition check_secret (s : string) : result (option string) SinkError :=
  if (str_len s <? 16) || (str_len s >? 256) then Err bad_secret else Ok (Some s).
Definition check_header_name (s : string) : result (option string) SinkError := if negb (HEADER_NAME_RE s) then Err bad_header_name else Ok (Some s).
Definition check_header_value (s : string) : result (option string) SinkError := if str_len s >? 512 then Err bad_header_value else Ok (Some s).

Definition check_timeout (i : option num) (current : Z) : result Z SinkError :=
  match i with
  | None => Ok current
  | Some n => let t := num_floor n in
              if negb (is_finite t) || num_lt t (int 100) || num_lt (int 10000) t then Err bad_timeout else Ok (floorZ t)
  end.

Definition check_enabled (i : option bool) (u s : option string) (current : bool) : result bool SinkError :=
  match i with
  | None => Ok current
  | Some true => if negb (set_ u) then Err missing_url else if negb (set_ s) then Err missing_secret else Ok true
  | Some false => Ok false
  end.

(** The configuration the fields of an update make, or what is thrown. *)
Definition next_sink (input : UpdateInput) (now : Z) (cur : SinkOnDisk) : result SinkOnDisk SinkError :=
  let! u := field_of (i_url input) (s_url cur) None check_url in
  let! s := field_of (i_secret input) (s_secret cur) None check_secret in
  let! hn := field_of (i_header_name input) (extra_header_name cur) None check_header_name in
  let! hv := field_of (i_header_value input) (extra_header_value cur) None check_header_value in
  let! t := check_timeout (i_timeout_ms input) (timeout_ms cur) in
  let! e := check_enabled (i_enabled input) u s (enabled cur) in
  Ok {| enabled := e; s_url := u; s_secret := s; extra_header_name := hn; extra_header_value := hv; timeout_ms := t; updated_at := now |}.

Definition updateSink (input : UpdateInput) (now : Z) (p : siem) : result SiemSink SinkError * siem :=
  let '(cur, p) := load p in
  match next_sink input now cur with
  | Err e => (Err e, p)
  | Ok s => (Ok (publicView s), save s p)
  end.

(** ** Dispatch *)

Record DispatchEvent := {
  e_id : string; e_ts : string; e_route : string; e_method : string; e_status : Z; e_ok : bool; e_key_id : string; e_key_label : string;
  e_scopes : list string; e_reason : option string; e_request_id : option string; e_ip_hash : option string; e_hash : string }.

Definition event_json (e : DispatchEvent) : json :=
  JObj [("id", JStr (e_id e)); ("ts", JStr (e_ts e)); ("route", JStr (e_route e)); ("method", JStr (e_method e)); ("status", JNum (int (e_status e)));
        ("ok", JBool (e_ok e)); ("key_id", JStr (e_key_id e)); ("key_label", JStr (e_key_label e)); ("scopes", JArr (JStr <$> e_scopes e));
        ("reason", jopt JStr (e_reason e)); ("request_id", jopt JStr (e_request_id e)); ("ip_hash", jopt JStr (e_ip_hash e)); ("hash", JStr (e_hash e))].

Record Request := { q_url : string; q_headers : list (string * string); q_body : string; q_timeout : Z }.

(** [headers[k] = v]. *)
Definition set_header (k v : string) (hs : list (string * string)) : list (string * string) :=
  match assoc k hs with Some _ => set_assoc k v hs | None => hs ++ [(k, v)] end.

Definition recordAttempt (a : DeliveryAttempt) (l : list DeliveryAttempt) : list DeliveryAttempt := take MAX_DELIVERIES (a :: l).

Definition listDeliveries (p : siem) : list DeliveryAttempt := deliveries p.

(** The clock is read once here; [aid] is the id of the attempt, [took] the time
    the answer took and [answer] its status or the message of the exception. *)
Record Outcome := { aid : string; took : Z; answer : result Z string }.

Definition request_of (s : SinkOnDisk) (u secret : string) (ev : DispatchEvent) (now : Z) : Request :=
  let body := stringify (JObj [("event", event_json ev); ("delivered_at", JStr (toISOString now))]) in
  let sig := "sha256=" +:+ hmac secret body in
  let headers := [("content-type", "application/json"); ("user-agent", "signalclaw-siem/1"); ("x-signalclaw-signature", sig);
                  ("x-signalclaw-event-id", e_id ev); ("x-signalclaw-timestamp", toISOString now)] in
  {| q_url := u;
     q_headers := if set_ (extra_header_name s) && set_ (extra_header_value s)
                  then set_header (to_lower (default "" (extra_header_name s))) (default "" (extra_header_value s)) headers else headers;
     q_body := body; q_timeout := timeout_ms s |}.

Definition attempt_of (u : string) (ev : DispatchEvent) (now : Z) (o : Outcome) : DeliveryAttempt :=
  {| a_id := aid o; ts := now + took o; event_id := e_id ev; a_url := u;
     a_status := match answer o with Ok st => Some st | Err _ => None end;
     a_ok := match answer o with Ok st => (200 <=? st) && (st <? 300) | Err _ => false end;
     a_error := match answer o with Ok _ => None | Err msg => Some (str_take 200 msg) end; duration_ms := took o |}.

Definition live (s : SinkOnDisk) : bool := enabled s && set_ (s_url s) && set_ (s_secret s).

Definition dispatch (ev : DispatchEvent) (now : Z) (o : Outcome) (p : siem) : option (Request * DeliveryAttempt) * siem :=
  let '(s, p) := load p in
  if negb (live s) then (None, p) else
  let u := default "" (s_url s) in
  let a := attempt_of u ev now o in
  (Some (request_of s u (default "" (s_secret s)) ev now, a), Siem (disk p) (cached p) (recordAttempt a (deliveries p))).

(** The hook of [recordAuditEvent]. *)
Definition dispatchInBackground (ev : DispatchEvent) (now : Z) (o : Outcome) (p : siem) : siem := snd (dispatch ev now o p).

(** ** The routes *)

Definition known_fields : list string := ["enabled"; "url"; "secret"; "extra_header_name"; "extra_header_value"; "timeout_ms"].

(** The first field of a body that is not one of the sink. *)
Definition unknown_field (keys : list string) : option string := snd <$> list_find (fun k => k ∉ known_fields) keys.

Definition test_POST (ev : DispatchEvent) (now : Z) (o : Outcome) (p : siem) : result (option DeliveryAttempt) string * siem :=
  let '(s, p) := getSink p in
  if negb (set_ (p_url s)) || negb (secret_set s) then (Err "not_configured", p)
  else if negb (p_enabled s) then (Err "not_enabled", p)
  else let '(r, p) := dispatch ev now o p in (Ok (snd <$> r), p).

(** * What is configured, and what is sent *)

Definition current (p : siem) : SinkOnDisk := fst (load p).

Definition url_ok (u : string) : Prop :=
  exists given parsed, new_URL given = Some (parsed, u) /\ (protocol parsed = "https:" \/ protocol parsed = "http:") /\ username parsed = "" /\ password parsed = "".

Definition sink_ok (s : SinkOnDisk) : Prop :=
  (forall u, s_url s = Some u -> url_ok u) /\ (forall k, s_secret s = Some k -> 16 <= str_len k <= 256) /\
  (forall h, extra_header_name s = Some h -> HEADER_NAME_RE h = true) /\ (forall v, extra_header_value s = Some v -> str_len v <= 512) /\
  100 <= timeout_ms s <= 10000.

Lemma field_ok i (cur : option string) check v (P : string -> Prop) :
  (forall x, cur = Some x -> P x) -> (forall s w, check s = Ok (Some w) -> P w) ->
  field_of i cur None check = Ok v -> forall x, v = Some x -> P x.
Proof.
  intros Hc Hk. destruct i as [g|]; simpl; [|intros [= <-]; exact Hc]. destruct (truthy (default "" g)); [|by intros [= <-]].
  intros Hg x ->. by eapply Hk.
Qed.

Lemma next_sink_ok input now cur s : sink_ok cur -> next_sink input now cur = Ok s -> sink_ok s.
Proof.
  intros (H1 & H2 & H3 & H4 & H5). unfold next_sink, result_bind.
  destruct (field_of (i_url input) _ _ _) as [u|] eqn:Eu; [|done]. destruct (field_of (i_secret input) _ _ _) as [k|] eqn:Ek; [|done].
  destruct (field_of (i_header_name input) _ _ _) as [hn|] eqn:En; [|done]. destruct (field_of (i_header_value input) _ _ _) as [hv|] eqn:Ev; [|done].
  destruct (check_timeout _ _) as [t|] eqn:Et; [|done]. destruct (check_enabled _ _ _ _) as [e|]; [|done]. intros [= <-].
  assert (100 <= t <= 10000) as Ht.
  { unfold check_timeout in Et. destruct (i_timeout_ms input) as [n|]; [|by injection Et as <-]. cbv zeta in Et.
    destruct (_ || _ || _) eqn:E; [done|]. injection Et as <-. apply orb_false_elim in E as [[E1 E2]%orb_false_elim E3].
    destruct (num_floor n) as [| |q]; try done. by split; [apply floor_ge_bound|apply floor_le_bound]. }
  split_and!; cbn [s_url s_secret extra_header_name extra_header_value timeout_ms].
  - eapply field_ok; [exact H1| |exact Eu]. intros g w. unfold check_url. destruct (new_URL g) as [[U text]|] eqn:E; [|done].
    destruct (String.eqb_spec (protocol U) "https:"), (String.eqb_spec (protocol U) "http:"); cbn [negb andb]; try done;
      (destruct (truthy (username U)) eqn:Eun; [done|]; destruct (truthy (password U)) eqn:Ep; [done|]; intros [= <-]; exists g, U;
       apply truthy_false in Eun; apply truthy_false in Ep; split_and!; auto).
  - eapply field_ok; [exact H2| |exact Ek]. intros g w. unfold check_secret. destruct (_ || _) eqn:E; [done|]. intros [= <-].
    apply orb_false_elim in E as [?%Z.ltb_ge E]. rewrite Z.gtb_ltb in E. apply Z.ltb_ge in E. lia.
  - eapply field_ok; [exact H3| |exact En]. intros g w. unfold check_header_name. destruct (HEADER_NAME_RE g) eqn:E; [|done]. by intros [= <-].
  - eapply field_ok; [exact H4| |exact Ev]. intros g w. unfold check_header_value. destruct (Z.gtb_spec (str_len g) 512); [done|]. by intros [= <-].
  - apply Ht.
  - apply Ht.
Qed.

Lemma set_header_other k k' v hs : k <> k' -> assoc k' (set_header k v hs) = assoc k' hs.
Proof.
  intros Hne. unfold set_header. destruct (assoc k hs).
  - clear -Hne. induction hs as [|[k1 w] hs IH]; [done|]. cbn. destruct (String.eqb_spec k k1) as [<-|]; cbn.
    + by rewrite (proj2 (String.eqb_neq k' k)).
    + by rewrite IH.
  - induction hs as [|[k1 w] hs IH]; cbn; [by rewrite (proj2 (String.eqb_neq k' k))|]. by rewrite IH.
Qed.

Inductive event :=
  | Update (input : UpdateInput) (now : Z)
  | Dispatch (ev : DispatchEvent) (now : Z) (o : Outcome)
  | Restart.

Definition step (p : siem) (e : event) : siem :=
  match e with
  | Update input now => snd (updateSink input now p)
  | Dispatch ev now o => dispatchInBackground ev now o p
  | Restart => Siem (disk p) None []
  end.
Definition run_all (es : list event) (p : siem) : siem := fold_left step es p.

(** The cache is what the file says. *)
Definition siem_ok (p : siem) : Prop :=
  sink_ok (current p) /\ current p = default DEFAULT (disk p) /\ (length (deliveries p) <= MAX_DELIVERIES)%nat.

Lemma load_current p : load p = (current p, Siem (disk p) (Some (current p)) (deliveries p)).
Proof. unfold current, load. by destruct p as [d [s|] l]. Qed.

Lemma siem_step_ok p e : siem_ok p -> siem_ok (step p e).
Proof.
  intros (H1 & H2 & H3). destruct e as [input now|ev now o|]; cbn [step].
  - unfold updateSink. rewrite load_current. destruct (next_sink input now (current p)) as [s|] eqn:E; [|done].
    by split_and!; [eapply next_sink_ok| |].
  - unfold dispatchInBackground, dispatch. rewrite load_current. destruct (live (current p)); cbn [negb]; [|done].
    split_and!; [done|done|]. cbn [snd deliveries]. unfold recordAttempt. rewrite length_take. lia.
  - unfold siem_ok, current in *. cbn. rewrite H2 in H1. split_and!; [done|done|lia].
Qed.

(** Whatever the sink went through, an audited event is posted exactly when the
    sink in force is enabled and has a URL and a secret; the request goes to
    that URL, an http(s) one without credentials, is abandoned after the
    configured time, and bears the HMAC of its body under that secret unless the
    extra header takes that name; its attempt succeeds on a 2xx answer alone,
    and the last 50 are kept. Nothing else of the sink changes. *)
Theorem siem_mirror_exact es ev now o :
  let p := run_all es (Siem None None []) in
  let s := current p in
  let '(sent, p') := dispatch ev now o p in
  current p' = s /\
  match sent with
  | None => live s = false /\ deliveries p' = deliveries p
  | Some (r, a) =>
      live s = true /\ s_url s = Some (q_url r) /\ url_ok (q_url r) /\ q_timeout r = timeout_ms s /\ 100 <= timeout_ms s <= 10000 /\
      (exists k, s_secret s = Some k /\ 16 <= str_len k <= 256 /\
         (to_lower (default "" (extra_header_name s)) <> "x-signalclaw-signature" ->
          assoc "x-signalclaw-signature" (q_headers r) = Some ("sha256=" +:+ hmac k (q_body r)))) /\
      (a_ok a = true <-> exists st, answer o = Ok st /\ 200 <= st < 300) /\
      deliveries p' = take MAX_DELIVERIES (a :: deliveries p)
  end.
Proof.
  cbv zeta. assert (siem_ok (run_all es (Siem None None []))) as (Hs & _ & _).
  { cut (forall p, siem_ok p -> siem_ok (run_all es p)); [intros H; apply H; split_and!; [split_and!; cbn; [done..|lia|lia]|done|cbn; unfold MAX_DELIVERIES; lia]|].
    induction es as [|e es IH]; intros p Hp; [done|]. cbn. by apply IH, siem_step_ok. }
  revert Hs. generalize (run_all es (Siem None None [])) as p. intros p (H1 & H2 & H3 & H4 & H5).
  unfold dispatch. rewrite load_current. destruct (live (current p)) eqn:El; cbn [negb]; [|done]. split; [done|].
  unfold live in El. apply andb_prop in El as [[_ Hu]%andb_prop Hk]. destruct (s_url (current p)) as [u|] eqn:Eu; [|done].
  destruct (s_secret (current p)) as [k|] eqn:Ek; [|done]. cbn [default q_url request_of q_timeout deliveries].
  split_and!; [done|done|by apply H1|done|lia|lia| | |done].
  - exists k. split; [done|]. split; [by apply H2|]. intros Hn. unfold request_of. cbn [q_headers q_body].
    destruct (set_ _ && set_ _); [|done]. by apply set_header_other.
  - cbn [a_ok attempt_of]. destruct (answer o) as [st|msg]; [|naive_solver]. rewrite andb_true_iff, Z.leb_le, Z.ltb_lt. naive_solver.
Qed.

(** A refused update leaves the configuration as it was. *)
Lemma refused_update input now p e : fst (updateSink input now p) = Err e -> current (snd (updateSink input now p)) = current p /\ disk (snd (updateSink input now p)) = disk p.
Proof. unfold updateSink. rewrite load_current. by destruct (next_sink input now (current p)). Qed.

(** A test is only sent by a sink that is enabled. *)
Lemma test_needs_enabled ev now o p : enabled (current p) = false -> exists e, fst (test_POST ev now o p) = Err e.
Proof.
  intros H. unfold test_POST, getSink. rewrite load_current. cbn [p_url secret_set p_enabled publicView]. rewrite H. destruct (_ || _); by eexists.
Qed.

(** The extra header may be the signature's own: what is sent then bears its
    value in place of the signature. *)
Lemma extra_header_replaces_signature v s u k ev now :
  HEADER_NAME_RE "X-SignalClaw-Signature" = true /\
  (truthy v = true -> extra_header_name s = Some "X-SignalClaw-Signature" -> extra_header_value s = Some v ->
   assoc "x-signalclaw-signature" (q_headers (request_of s u k ev now)) = Some v).
Proof.
  split; [done|]. intros Hv Hn Hw. unfold request_of. cbn [q_headers]. assert (set_ (extra_header_value s) = true) as -> by by rewrite Hw.
  assert (set_ (extra_header_name s) = true) as -> by by rewrite Hn. rewrite Hn, Hw. done.
Qed.

(** Clearing the URL or the secret of an enabled sink leaves it enabled, and
    nothing is sent any more. *)
Lemma cleared_sink_stays_enabled now s : enabled s = true ->
  exists s', next_sink {| i_enabled := None; i_url := Some None; i_secret := None; i_header_name := None; i_header_value := None; i_timeout_ms := None |} now s = Ok s' /\
    p_enabled (publicView s') = true /\ live s' = false.
Proof. intros He. eexists. split; [done|]. cbn. unfold live. by rewrite andb_false_r. Qed.
End Siem.

Definition demo_new_URL (u : string) : option (URL * string) :=
  Some ({| protocol := "https:"; hostname := "siem.example"; username := ""; password := "" |}, u).
Definition demo_update : UpdateInput :=
  {| i_enabled := Some true; i_url := Some (Some "https://siem.example/in"); i_secret := Some (Some "0123456789abcdef"); i_header_name := None;
     i_header_value := None; i_timeout_ms := Some (int 500) |}.
Definition demo_event : DispatchEvent :=
  {| e_id := "e1"; e_ts := "t"; e_route := "/api/v1/runs"; e_method := "GET"; e_status := 200; e_ok := true; e_key_id := "k"; e_key_label := ""; e_scopes := [];
     e_reason := None; e_request_id := None; e_ip_hash := None; e_hash := "h" |}.

Example demo_sent :
  let p := run_all demo_new_URL (fun k b => k) (fun _ => "body") [Update demo_update 5; Dispatch demo_event 6 {| aid := "a"; took := 1; answer := Ok 500 |}; Restart] (Siem None None []) in
  let '(sent, p') := dispatch (fun k b => k) (fun _ => "body") demo_event 7 {| aid := "b"; took := 1; answer := Ok 204 |} p in
  (a_ok <$> (snd <$> sent)) = Some true /\ (q_timeout <$> (fst <$> sent)) = Some 500 /\ deliveries p' = option_list (snd <$> sent).
Proof. by vm_compute. Qed.
