(* ===== verification/Digest.v ===== *)
(** The activity digest and its subscriptions: [web/lib/digest.ts],
    [web/lib/digestSubStore.ts], and their use by the routes
    [web/app/api/digest/cron] and [web/app/api/digest/subscriptions/[id]/deliver].
    The URL parser, the HMAC, the conversion to a number, the formatting of a
    percentage and the network are parameters; the rendering to text and HTML is
    not modelled. A secret has its declared type. *)
From stdpp Require Import pretty.
From S2P Require Import Prelude JsNum JsDate IsoTime Json Store Interleave Runs Activity.

(** * The digest *)

Definition DAY_MS : Z := 86400000.

Record DigestStats := { n_runs : Z; webhook_deliveries : Z; webhook_failures : Z; batch_completions : Z; alerts_fired : Z; keys_changed : Z }.
Record DigestRunRow := { row_id : string; row_ticker : string; row_label : string; row_regime : string; row_confidence : num; row_created : iso; row_href : string }.
Record Digest := {
  g_days : Z; g_since : string; g_until : string; stats : DigestStats; top_runs : list DigestRunRow; by_regime : list (string * Z); headline : string; empty : bool }.

Definition in_range (since until iso : string) : bool := negb (str_lt iso since) && negb (str_lt until iso).

Definition label_of (r : SavedRun) : string := default "unknown" (s_label <$> snapshot (payload r)).

(** [b.confidence - a.confidence]. *)
Definition by_confidence (a b : SavedRun * Snapshot) : Z := cmp_desc (confidence a.2) (confidence b.2) 0.

Definition with_snapshot (r : SavedRun) : option (SavedRun * Snapshot) := (fun s => (r, s)) <$> snapshot (payload r).

Definition digest_row (p : SavedRun * Snapshot) : DigestRunRow :=
  {| row_id := Runs.id p.1; row_ticker := ticker p.1; row_label := label p.1; row_regime := s_label p.2; row_confidence := confidence p.2;
     row_created := Runs.created_at p.1; row_href := "/r/" +:+ Runs.id p.1 |}.

Definition count_kind (ks : list string) (es : events) : Z := len (filter (fun e => Activity.kind e ∈ ks) es).

Section Build.
Context (Number_of : jval -> num) (fmtPct : num -> string).

Definition clampDays (input : jval) : Z :=
  let n := Number_of input in if negb (is_finite n) then 7 else Z.min (Z.max (floorZ (num_trunc n)) 1) 90.

Definition plural (n : Z) : string := if n =? 1 then "" else "s".

Definition buildDigest (es : events) (rs : runs) (days_in : jval) (now : Z) : Digest :=
  let days := clampDays days_in in
  let until := toISOString now in
  let since := toISOString (now - days * DAY_MS) in
  let es := filter (fun e => in_range since until (toISOString (Activity.created_at e)) = true) es in
  let rs := filter (fun r => in_range since until (created r) = true) rs in
  let st := {| n_runs := len rs; webhook_deliveries := count_kind ["webhook.delivered"] es; webhook_failures := count_kind ["webhook.failed"] es;
               batch_completions := count_kind ["batch.completed"] es; alerts_fired := count_kind ["alert.fired"] es;
               keys_changed := count_kind ["key.created"; "key.revoked"; "key.rotated"] es |} in
  let ranked := digest_row <$> take 5 (js_sort by_confidence (omap with_snapshot rs)) in
  let total := n_runs st + webhook_deliveries st + batch_completions st + alerts_fired st in
  let empty := total =? 0 in
  let regimePart := match ranked with
                    | top :: _ => "Top signal " +:+ row_ticker top +:+ " " +:+ to_upper (row_regime top) +:+ " at " +:+ fmtPct (row_confidence top) +:+ " confidence."
                    | [] => "" end in
  {| g_days := days; g_since := since; g_until := until; stats := st; top_runs := ranked; by_regime := fold_left count_label (label_of <$> rs) [];
     headline := if empty then "Quiet " +:+ pretty days +:+ "-day window. Nothing to report."
                 else trim (pretty (n_runs st) +:+ " run" +:+ plural (n_runs st) +:+ " saved over the last " +:+ pretty days +:+ " day" +:+ plural days +:+ ". " +:+ regimePart);
     empty := empty |}.

(** * Subscriptions *)

Inductive Cadence := daily | weekly.
Inductive DeliveryFormat := fmt_json | fmt_text | fmt_slack.

Definition cadence_of (v : jval) : option Cadence :=
  match v with Some (JStr s) => if String.eqb s "daily" then Some daily else if String.eqb s "weekly" then Some weekly else None | _ => None end.
Definition format_of (v : jval) : option DeliveryFormat :=
  match v with
  | Some (JStr s) => if String.eqb s "json" then Some fmt_json else if String.eqb s "text" then Some fmt_text else if String.eqb s "slack" then Some fmt_slack else None
  | _ => None end.

(** [days] is kept as it was given. *)
Record DigestSub := {
  s_id : string; s_lbl : string; s_url : string; cadence : Cadence; days : json; format : DeliveryFormat; secret : string; enabled : bool; owner : string;
  s_created_at : Z; last_delivered_at : option Z; last_status : option Z; last_error : option string }.

Record DigestDelivery := {
  v_id : string; subscription_id : string; v_url : string; v_status : option Z; v_error : option string; attempt : Z; delivered_at : Z;
  v_signature : string; v_cadence : Cadence; v_format : DeliveryFormat; bytes : Z }.

Abbreviation subs := (list DigestSub).
Abbreviation log := (list DigestDelivery).

#[export] Program Instance subs_persisted : Persisted subs := {| raw := subs; encode s := s; decode s := s; absent := []; storable _ := True |}.
Next Obligation. done. Qed.

Definition MAX_LOG : nat := 200.
Definition MAX_LABEL : nat := 80.
Definition MAX_DAYS : Z := 90.

(** [arr.slice(-n)]. *)
Definition last_n {A} (n : nat) (l : list A) : list A := drop (length l - n) l.

(** Every log that is written holds at most [MAX_LOG] entries. *)
#[export] Program Instance log_persisted : Persisted log := {| raw := log; encode s := last_n MAX_LOG s; decode s := s; absent := []; storable s := (length s <= MAX_LOG)%nat |}.
Next Obligation. intros s Hs. cbn in Hs. unfold last_n, MAX_LOG in *. by replace (length s - 200)%nat with 0%nat by lia. Qed.

Context (protocol_of : string -> option string).

Definition isHttpsLike (u : string) : bool :=
  match protocol_of u with Some p => String.eqb p "https:" || String.eqb p "http:" | None => false end.

Definition days_ok (v : jval) : bool :=
  let n := Number_of v in is_finite n && negb (num_lt n (int 1)) && negb (num_lt (int MAX_DAYS) n).

Inductive SubError := url_required | url_scheme | bad_cadence | bad_format | bad_days | bad_label.

Definition is_none {A} (o : option A) : bool := match o with None => true | Some _ => false end.

Definition validateSubInput (body : json) : option SubError :=
  match field "url" body with
  | Some (JStr u) =>
      if negb (truthy (trim u)) then Some url_required
      else if negb (isHttpsLike u) then Some url_scheme
      else if negb (is_none (field "cadence" body)) && is_none (cadence_of (field "cadence" body)) then Some bad_cadence
      else if negb (is_none (field "format" body)) && is_none (format_of (field "format" body)) then Some bad_format
      else if negb (is_none (field "days" body)) && negb (days_ok (field "days" body)) then Some bad_days
      else match field "label" body with None | Some (JStr _) => None | Some _ => Some bad_label end
  | _ => Some url_required
  end.

Definition str_of (v : jval) : string := match v with Some (JStr s) => s | _ => "" end.

Definition or_else (s fallback : string) : string := if truthy s then s else fallback.

Definition new_sub (body : json) (newId minted : string) (now : Z) : DigestSub :=
  {| s_id := newId; s_lbl := or_else (trim (str_take MAX_LABEL (str_of (field "label" body)))) "Digest subscription"; s_url := trim (str_of (field "url" body));
     cadence := default weekly (cadence_of (field "cadence" body));
     days := default (JNum (int (match cadence_of (field "cadence" body) with Some daily => 1 | _ => 7 end))) (field "days" body);
     format := default fmt_json (format_of (field "format" body));
     secret := if 8 <=? str_len (str_of (field "secret" body)) then str_of (field "secret" body) else minted;
     enabled := match field "enabled" body with Some (JBool false) => false | _ => true end; owner := "local"; s_created_at := now;
     last_delivered_at := None; last_status := None; last_error := None |}.

Definition create_tx (body : json) (newId minted : string) (now : Z) : transaction subs (result DigestSub SubError) :=
  checked (validateSubInput body) (fun s => let sub := new_sub body newId minted now in (Ok sub, Some (s ++ [sub]))).

Context (String_of : json -> string).

Definition text_of (v : jval) : string := match v with Some (JStr s) => s | Some j => String_of j | None => "" end.

Definition merged (patch : json) (cur : DigestSub) : DigestSub :=
  {| s_id := s_id cur;
     s_lbl := match field "label" patch with Some _ => or_else (trim (str_take MAX_LABEL (text_of (field "label" patch)))) (s_lbl cur) | None => s_lbl cur end;
     s_url := match field "url" patch with Some _ => if isHttpsLike (text_of (field "url" patch)) then trim (text_of (field "url" patch)) else s_url cur | None => s_url cur end;
     cadence := default (cadence cur) (cadence_of (field "cadence" patch));
     days := if negb (is_none (field "days" patch)) && days_ok (field "days" patch) then JNum (Number_of (field "days" patch)) else days cur;
     format := default (format cur) (format_of (field "format" patch)); secret := secret cur;
     enabled := match field "enabled" patch with Some _ => jtruthy (field "enabled" patch) | None => enabled cur end; owner := owner cur; s_created_at := s_created_at cur;
     last_delivered_at := last_delivered_at cur; last_status := last_status cur; last_error := last_error cur |}.

Definition find_sub (i : string) (s : subs) : option (nat * DigestSub) := list_find (fun x => s_id x = i) s.

Definition update_tx (i : string) (patch : json) : transaction subs (option DigestSub) := fun s =>
  match find_sub i s with None => (None, None) | Some (n, cur) => let m := merged patch cur in (Some m, Some (<[n := m]> s)) end.

Definition delete_tx (i : string) : transaction subs bool := fun s =>
  let next := filter (fun x => s_id x <> i) s in if len next =? len s then (false, None) else (true, Some next).

Definition listSubs (f : file subs) : subs := js_sort (newest_first s_created_at) (read_file f).
Definition getSub (i : string) (f : file subs) : option DigestSub := snd <$> find_sub i (read_file f).

Definition delivered (status : option Z) (err : option string) (now : Z) (x : DigestSub) : DigestSub :=
  {| s_id := s_id x; s_lbl := s_lbl x; s_url := s_url x; cadence := cadence x; days := days x; format := format x; secret := secret x; enabled := enabled x;
     owner := owner x; s_created_at := s_created_at x; last_delivered_at := Some now; last_status := status; last_error := err |}.

Definition mark_tx (i : string) (status : option Z) (err : option string) (now : Z) : transaction subs () := fun s =>
  match find_sub i s with None => (tt, None) | Some (n, x) => (tt, Some (<[n := delivered status err now x]> s)) end.
Definition markDelivered i status err now (f : file subs) := on_file (mark_tx i status err now) f.

Definition record_tx (entry : DigestDelivery) : transaction log DigestDelivery := fun l => (entry, Some (l ++ [entry])).
Definition recordDelivery entry (f : file log) := on_file (record_tx entry) f.

Definition listDeliveries (subscription : option string) (limit : nat) (f : file log) : log :=
  let l := read_file f in
  let l := match subscription with Some i => if truthy i then filter (fun d => subscription_id d = i) l else l | None => l end in
  rev (last_n limit l).

Definition isDueNow (x : DigestSub) (now : Z) : bool :=
  if negb (enabled x) then false
  else let ageMs := now - default 0 (last_delivered_at x) in
       match cadence x with daily => DAY_MS <=? ageMs | weekly => 7 * DAY_MS <=? ageMs end.

(** * Deliveries *)

Context (hmac : string -> string -> string) (payload_of : DigestSub -> Digest -> string) (byteLength : string -> Z).

Definition signBody (secret body : string) : string := "sha256=" +:+ hmac secret body.

(** What a POST meets: a status, or the message of an exception. *)
Definition outcome (a : result Z string) : option Z * option string :=
  match a with
  | Ok st => (Some st, if (200 <=? st) && (st <? 300) then None else Some ("HTTP " +:+ pretty st))
  | Err msg => (None, Some (str_take 200 msg))
  end.

(** The body posted to a subscription: the digest of the newest 200 events and of all runs. *)
Definition body_for (x : DigestSub) (fe : file events) (fr : file runs) (now : Z) : string :=
  let es := r_events (queryActivity {| q_kind := None; q_unreadOnly := false; q_limit := Some 200; q_offset := None |} fe) in
  payload_of x (buildDigest es (listRuns fr) (Some (days x)) now).

Definition entry_of (x : DigestSub) (newId body : string) (o : option Z * option string) (att now : Z) : DigestDelivery :=
  {| v_id := newId; subscription_id := s_id x; v_url := s_url x; v_status := o.1; v_error := o.2; attempt := att; delivered_at := now;
     v_signature := signBody (secret x) body; v_cadence := cadence x; v_format := format x; bytes := byteLength body |}.

(** The status after which a delivery on demand is tried once more. *)
Definition transient (o : option Z * option string) : bool := match o.1 with None => true | Some st => (500 <=? st) && (st <? 600) end.

Record Delivered := { ok : bool; d_attempt : Z; d_status : option Z; d_entry : DigestDelivery }.

(** [net k] answers the [k]-th POST. *)
Definition deliver_POST (i newId : string) (net : nat -> result Z string) (now : Z) (fe : file events) (fr : file runs) (fs : file subs) (fl : file log)
  : option Delivered * file subs * file log :=
  match getSub i fs with
  | None => (None, fs, fl)
  | Some x =>
      let body := body_for x fe fr now in
      let first := outcome (net 1%nat) in
      let '(att, o) := if transient first then (2, outcome (net 2%nat)) else (1, first) in
      let entry := entry_of x newId body o att now in
      (Some {| ok := is_none o.2; d_attempt := att; d_status := o.1; d_entry := entry |}, snd (markDelivered i o.1 o.2 now fs), snd (recordDelivery entry fl))
  end.

Definition cron_auth (expected header query : option string) : bool :=
  match expected with Some e => if truthy e then bool_decide (header = Some e) || bool_decide (query = Some e) else true | None => true end.

(** Those a call of the scheduler delivers to; all at the same time. *)
Definition due_subs (force : bool) (now : Z) (f : file subs) : subs :=
  filter (fun x => (if force then enabled x else isDueNow x now) = true) (listSubs f).

(** What each delivery does to the subscriptions when its POST is answered. *)
Definition marks (env : DigestSub -> result Z string * Z) (due : subs) : list (transaction subs ()) :=
  (fun x => let o := outcome (env x).1 in mark_tx (s_id x) o.1 o.2 (env x).2) <$> due.

(** ** The digest counts what it is given *)

Lemma filter_labels (l : runs) k : 0 + len (filter (fun x => x = k) (label_of <$> l)) = len (filter (fun r => label_of r = k) l).
Proof. induction l as [|r l IH]; [done|]. rewrite fmap_cons, !filter_cons. unfold len in *. case_decide; cbn [length]; lia. Qed.

Lemma ranked_sorted (l : list (SavedRun * Snapshot)) :
  Forall (fun p => is_finite (confidence p.2) = true) l ->
  StronglySorted (fun a b => num_le (confidence b.2) (confidence a.2) = true) (js_sort by_confidence l).
Proof.
  apply js_sort_sorted_on; unfold by_confidence, cmp_desc.
  - intros [? sx] [? sy] [? sz]; cbn. destruct (confidence sx), (confidence sy), (confidence sz); try done. cbn. intros _ _ _ H1 H2.
    apply QArith_base.Qle_bool_iff in H1, H2. apply QArith_base.Qle_bool_iff. by eapply QArith_base.Qle_trans.
  - intros [? sx] [? sy]; cbn. destruct (confidence sx) as [| |p], (confidence sy) as [| |q]; try done. cbn. intros _ _.
    destruct (QArith_base.Qle_bool p q) eqn:E; cbn; [destruct (negb _); lia|]. intros _. apply QArith_base.Qle_bool_iff.
    destruct (QArith_base.Qlt_le_dec q p) as [Hl|Hl]; [by apply QArith_base.Qlt_le_weak|]. apply QArith_base.Qle_bool_iff in Hl. congruence.
  - intros [? sx] [? sy]; cbn. destruct (confidence sx) as [| |p], (confidence sy) as [| |q]; try done. cbn. intros _ _.
    destruct (QArith_base.Qle_bool p q) eqn:E; cbn; [done|]. lia.
Qed.

(** A digest accounts for the window it covers: runs and events of each kind
    created in the 1 to 90 days before it, every run under its regime or as
    unknown, and as top runs the five of highest confidence. *)
Theorem digest_counts es rs d now :
  let g := buildDigest es rs d now in
  let es' := filter (fun e => in_range (g_since g) (g_until g) (toISOString (Activity.created_at e)) = true) es in
  let rs' := filter (fun r => in_range (g_since g) (g_until g) (created r) = true) rs in
  1 <= g_days g <= 90 /\ g_since g = toISOString (now - g_days g * DAY_MS) /\ g_until g = toISOString now /\
  n_runs (stats g) = len rs' /\ webhook_deliveries (stats g) + webhook_failures (stats g) + batch_completions (stats g) + alerts_fired (stats g) + keys_changed (stats g) <= len es' /\
  (total_of (by_regime g) = len rs' /\ forall k, default 0 (assoc k (by_regime g)) = len (filter (fun r => label_of r = k) rs')) /\
  (exists ranked, top_runs g = digest_row <$> take 5 ranked /\ ranked ≡ₚ omap with_snapshot rs' /\
     (Forall (fun p => is_finite (confidence p.2) = true) ranked -> StronglySorted (fun a b => num_le (confidence b.2) (confidence a.2) = true) ranked)) /\
  (empty g = true <-> n_runs (stats g) = 0 /\ webhook_deliveries (stats g) = 0 /\ batch_completions (stats g) = 0 /\ alerts_fired (stats g) = 0).
Proof.
  cbv zeta. cbn [g_since g_until g_days stats by_regime top_runs empty buildDigest n_runs webhook_deliveries webhook_failures batch_completions alerts_fired keys_changed].
  set (es' := filter _ es). set (rs' := filter _ rs). split_and!; try done.
  - unfold clampDays. cbv zeta. destruct (negb _); lia.
  - unfold clampDays. cbv zeta. destruct (negb _); lia.
  - clearbody es'. clear. unfold count_kind. induction es' as [|e es IH]; [done|]. rewrite !filter_cons. unfold len in *.
    repeat case_decide; cbn [length]; try lia; set_unfold; naive_solver congruence.
  - destruct (labels_counted (label_of <$> rs') []) as [H1 _]. rewrite H1. unfold len. by rewrite length_fmap.
  - intros k. destruct (labels_counted (label_of <$> rs') []) as [_ H2]. rewrite H2. cbn [assoc default from_option]. apply filter_labels.
  - eexists. split; [done|]. split; [apply js_sort_Permutation|]. intros H. apply ranked_sorted. by rewrite js_sort_Permutation in H.
  - rewrite Z.eqb_eq. unfold count_kind, len. lia.
Qed.

(** ** When a subscription is due *)

Definition period (c : Cadence) : Z := match c with daily => DAY_MS | weekly => 7 * DAY_MS end.

Lemma after_delivery i st e t s : after (mark_tx i st e t) s = match find_sub i s with Some (n, x) => <[n := delivered st e t x]> s | None => s end.
Proof. unfold after, mark_tx. by destruct (find_sub i s) as [[n x]|]. Qed.

(** A delivery, failed or not, is followed by another one period later. *)
Lemma marked_due st e t now x : isDueNow (delivered st e t x) now = enabled x && (t + period (cadence x) <=? now).
Proof.
  unfold isDueNow. cbn [enabled delivered last_delivered_at cadence default from_option]. destruct (enabled x); [|done]. cbn [negb andb].
  unfold Datatypes.id, period, DAY_MS. destruct (cadence x); lia.
Qed.

Lemma mark_fmap i st e t s : NoDup (s_id <$> s) ->
  after (mark_tx i st e t) s = (fun x => if decide (s_id x = i) then delivered st e t x else x) <$> s.
Proof. intros Hn. rewrite after_delivery. by apply (edit_is_fmap s_id). Qed.

(** What a call leaves of a subscription. *)
Definition settled (env : DigestSub -> result Z string * Z) (due : subs) (y : DigestSub) : DigestSub :=
  match find_sub (s_id y) due with Some (_, x) => delivered (outcome (env x).1).1 (outcome (env x).1).2 (env x).2 y | None => y end.

Lemma settled_cons env x l y : NoDup (s_id <$> x :: l) ->
  settled env l (if decide (s_id y = s_id x) then delivered (outcome (env x).1).1 (outcome (env x).1).2 (env x).2 y else y) = settled env (x :: l) y.
Proof.
  intros [Hx _]%NoDup_cons. unfold settled, find_sub. cbn [list_find]. destruct (decide (s_id y = s_id x)) as [He|He].
  - rewrite decide_True by done. cbn [s_id delivered]. destruct (list_find _ l) as [[n z]|] eqn:E; [|done].
    apply list_find_elem in E as [Hz Hi]. destruct Hx. apply list_elem_of_fmap. exists z. by rewrite Hi.
  - rewrite decide_False by congruence. by destruct (list_find _ l) as [[n z]|].
Qed.

(** One after the other, the deliveries of a call all leave their mark. *)
Lemma serial_marks env s due : NoDup (s_id <$> s) -> NoDup (s_id <$> due) ->
  shared (perform_all (marks env due) (serial (seq 0 (length due))) (Interleave.start s)) = settled env due <$> s.
Proof.
  intros Hs Hd. rewrite serial_sequential.
  2:{ unfold marks. rewrite length_fmap. apply Forall_forall. intros k [_ Hk]%elem_of_seq. lia. }
  cbn [shared Interleave.start]. unfold sequentially.
  assert (forall pre post st, due = pre ++ post -> NoDup (s_id <$> post) -> NoDup (s_id <$> st) ->
    fold_left (fun s k => match marks env due !! k with Some tx => after tx s | None => s end) (seq (length pre) (length post)) st = settled env post <$> st) as Hfold;
    [|by apply (Hfold [] due)].
  intros pre post. revert pre. induction post as [|y post IH]; intros pre st -> Hp Hn.
  - cbn [length seq fold_left]. symmetry. by apply fmap_id_on.
  - cbn [length seq fold_left].
    assert (marks env (pre ++ y :: post) !! length pre = Some (let o := outcome (env y).1 in mark_tx (s_id y) o.1 o.2 (env y).2)) as ->
      by (unfold marks; by rewrite list_lookup_fmap, list_lookup_middle).
    cbv zeta. rewrite mark_fmap by done. specialize (IH (pre ++ [y])). rewrite length_app, Nat.add_1_r, <- app_assoc in IH. cbn [app] in IH.
    rewrite IH; [|done|by apply NoDup_cons in Hp as [_ Hp]|].
    + rewrite <- list_fmap_compose. apply list_fmap_ext. intros k x _. by apply settled_cons.
    + rewrite <- list_fmap_compose. replace (s_id ∘ _ <$> st) with (s_id <$> st); [done|]. apply list_fmap_ext. intros k x _. cbn. by case_decide.
Qed.

(** A call of the scheduler leaves nothing due, when its deliveries are
    recorded one after the other. *)
Theorem digest_cron_settles (env : DigestSub -> result Z string * Z) (now : Z) (f : file subs) : NoDup (s_id <$> read_file f) -> (forall x, now <= (env x).2) ->
  let due := due_subs false now f in
  let s' := shared (perform_all (marks env due) (serial (seq 0 (length due))) (Interleave.start (read_file f))) in
  (forall x, x ∈ due <-> x ∈ read_file f /\ isDueNow x now = true) /\
  s_id <$> s' = s_id <$> read_file f /\ (forall y, y ∈ s' -> isDueNow y now = false) /\
  (forall y, y ∈ read_file f -> isDueNow y now = false -> y ∈ s').
Proof.
  intros Hn Henv. cbv zeta. set (due := due_subs false now f).
  assert (forall x, x ∈ due <-> x ∈ read_file f /\ isDueNow x now = true) as Hdue.
  { intros x. unfold due, due_subs, listSubs. rewrite list_elem_of_filter, js_sort_elem. split; intros []; by split. }
  assert (NoDup (s_id <$> due)) as Hnd.
  { unfold due, due_subs, listSubs. eapply sublist_NoDup; [|apply fmap_sublist, sublist_filter]. by rewrite js_sort_Permutation. }
  assert (forall y, y ∈ read_file f -> isDueNow y now = true -> settled env due y = delivered (outcome (env y).1).1 (outcome (env y).1).2 (env y).2 y) as Hyes.
  { intros y Hy Hd. unfold settled. destruct (find_sub (s_id y) due) as [[n x]|] eqn:E.
    - apply list_find_elem in E as [Hx Hi]. apply Hdue in Hx as [Hx _]. assert (x = y) as ->; [|done]. by apply (key_inj s_id (read_file f)).
    - exfalso. apply list_find_None in E. rewrite Forall_forall in E. eapply E; [by apply Hdue|done]. }
  assert (forall y, y ∈ read_file f -> isDueNow y now = false -> settled env due y = y) as Hno.
  { intros y Hy Hd. unfold settled. destruct (find_sub (s_id y) due) as [[n x]|] eqn:E; [|done].
    apply list_find_elem in E as [Hx Hi]. apply Hdue in Hx as [Hx Hxd]. assert (x = y) as ->; [by apply (key_inj s_id (read_file f))|]. congruence. }
  rewrite serial_marks by done. split_and!; [done| | |].
  - rewrite <- list_fmap_compose. apply list_fmap_ext. intros k x _. cbn. unfold settled. by destruct (find_sub _ due) as [[]|].
  - intros y (x & -> & Hx)%list_elem_of_fmap. destruct (isDueNow x now) eqn:Ex; [|by rewrite Hno].
    rewrite Hyes, marked_due by done. specialize (Henv x). unfold period, DAY_MS. destruct (enabled x), (cadence x); cbn; lia.
  - intros y Hy Hd. apply list_elem_of_fmap. exists y. by rewrite Hno.
Qed.

(** The deliveries of a call are not recorded one after the other: they are
    posted at the same time, and a mark is a read and a write of the whole file.
    When two overlap the first is lost, and its digest is sent again. *)
Lemma overlapping_marks_redeliver env s x y now :
  find_sub (s_id x) s = Some (0%nat, x) -> find_sub (s_id y) s = Some (1%nat, y) -> s_id x <> s_id y -> isDueNow x now = true ->
  let c := perform_all (marks env [x; y]) [Read 0; Read 1; Write 0; Write 1] (Interleave.start s) in
  results c !! 0%nat = Some tt /\ results c !! 1%nat = Some tt /\ find_sub (s_id x) (shared c) = Some (0%nat, x) /\ isDueNow x now = true.
Proof.
  intros Hx Hy Hne Hd. cbv zeta. unfold marks. cbn [fmap list_fmap].
  match goal with |- context [perform_all [?t1; ?t2] _ _] => destruct (overlap_results t1 t2 s) as (H0 & H1 & Hs) end.
  rewrite H0, H1, Hs. unfold mark_tx. rewrite Hx, Hy. cbn [fst snd from_option]. split_and!; [done..| |done]. unfold Datatypes.id.
  apply list_find_Some in Hx as (Hx0 & Hxi & _). apply list_find_Some. split_and!; [|done|intros j z _ Hj; lia]. by rewrite list_lookup_insert_ne.
Qed.

(** A delivery on demand makes a second attempt exactly when the first failed on
    the network or with a 5xx status, and is recorded with the last outcome. *)
Lemma deliver_attempts i newId net now fe fr fs fl x : getSub i fs = Some x ->
  exists d fs' fl', deliver_POST i newId net now fe fr fs fl = (Some d, fs', fl') /\
    (d_attempt d = 2 <-> (exists m, net 1%nat = Err m) \/ exists st, net 1%nat = Ok st /\ 500 <= st < 600) /\
    (ok d = true <-> exists st, net (Z.to_nat (d_attempt d)) = Ok st /\ 200 <= st < 300) /\
    d_entry d ∈ read_file fl'.
Proof.
  intros Hx. unfold deliver_POST. rewrite Hx. cbv zeta. assert (forall a, is_none (outcome a).2 = true <-> exists st, a = Ok st /\ 200 <= st < 300) as Hok.
  { intros [st|m]; cbn; [|split; [done|by intros (? & [=] & _)]]. destruct (Z.leb_spec 200 st), (Z.ltb_spec st 300); cbn;
      (split; [try done; intros _; by exists st|intros (? & [= <-] & ?); done || lia]). }
  assert (forall (e : DigestDelivery) l, e ∈ read_file (recordDelivery e l).2) as Hrec.
  { intros e l. unfold recordDelivery, on_file, record_tx. cbn. unfold last_n. rewrite length_app. cbn [length]. unfold MAX_LOG.
    rewrite drop_app_le by lia. apply elem_of_app. right. by left. }
  destruct (transient (outcome (net 1%nat))) eqn:Et; do 3 eexists; (split; [done|]); cbn [d_attempt ok d_entry]; (split; [|split; [apply Hok|apply Hrec]]).
  - split; [|done]. intros _. unfold transient in Et. destruct (net 1%nat) as [st|m]; [right; exists st|left; by exists m]. cbn in Et. split; [done|]. lia.
  - split; [done|]. intros [[m Hm]|(st & Hm & Hst)]; rewrite Hm in Et; cbn in Et; [done|lia].
Qed.
End Build.

(** ** Instances *)

Definition demo_days (v : jval) : num := match v with Some (JNum n) => n | _ => NaN end.

(** The routes hand over the newest 200 events of a feed of up to 500, so a busy
    window is undercounted. *)
Definition demo_feed : events :=
  (fun k => {| e_id := "e"; kind := "webhook.delivered"; title := "t"; e_body := ""; href := None; Activity.created_at := Z.of_nat k; e_read := false |}) <$> seq 1000 201.

Lemma digest_undercounts :
  let es := r_events (queryActivity {| q_kind := None; q_unreadOnly := false; q_limit := Some 200; q_offset := None |} (write_file demo_feed)) in
  let d := Some (JNum (int 1)) in
  webhook_deliveries (stats (buildDigest demo_days (fun _ => "") demo_feed [] d 5000)) = 201 /\
  webhook_deliveries (stats (buildDigest demo_days (fun _ => "") es [] d 5000)) = 200.
Proof. by vm_compute. Qed.

Definition demo_sub (i : string) (last : option Z) : DigestSub :=
  {| s_id := i; s_lbl := "l"; s_url := "https://hooks.example/x"; cadence := daily; days := JNum (int 1); format := fmt_json; secret := "12345678"; enabled := true;
     owner := "local"; s_created_at := 0; last_delivered_at := last; last_status := None; last_error := None |}.

Lemma digest_cron_settles_witness :
  let f := write_file [demo_sub "a" None; demo_sub "b" (Some 90000000); demo_sub "c" (Some 0)] in
  let env (x : DigestSub) := ((if String.eqb (s_id x) "a" then Ok 200 else Err "timeout") : result Z string, 100000000) in
  s_id <$> due_subs false 100000000 f = ["c"; "a"] /\
  forall y, y ∈ shared (perform_all (marks env (due_subs false 100000000 f)) (serial (seq 0 2)) (Interleave.start (read_file f))) -> isDueNow y 100000000 = false.
Proof.
  split; [by vm_compute|]. intros y Hy.
  match goal with |- context [isDueNow y ?now] => destruct (digest_cron_settles (fun x => ((if String.eqb (s_id x) "a" then Ok 200 else Err "timeout") : result Z string, 100000000)) now
    (write_file [demo_sub "a" None; demo_sub "b" (Some 90000000); demo_sub "c" (Some 0)])) as (_ & _ & H & _) end.
  - vm_compute. repeat constructor; set_solver.
  - intros x. cbn. lia.
  - by apply H.
Defined.
