(* ===== verification/Usage.v ===== *)
(** The usage meter of the free tier: [web/lib/quotaCore.ts], [web/lib/quota.ts]
    and the handler of [web/app/api/v1/usage/route.ts]. The share in use is a
    double, so the arithmetic is the interface [FloatOps]. *)
From stdpp Require Import pretty.
From S2P Require Import Prelude JsNum JsDate IsoTime Json Store Runs.
From S2P Require RunAcl.

(** [raw] is the environment variable. *)
Definition FREE_TIER_LIMIT (parseInt : string -> option Z) (raw : option string) : Z :=
  match raw with
  | Some s => if truthy s then match parseInt s with Some n => if 0 <? n then n else 50 | None => 50 end else 50
  | None => 50
  end.

Record UsageSummary := {
  used : Z; u_limit : Z; remaining : Z; pct : num; over_quota : bool; period_start : string; period_end : string; resets_at : string;
  days_remaining : Z; by_day : list (string * Z); by_ticker : list (string * Z); by_regime : list (string * Z); lifetime : Z }.

Definition startOfMonthUTC (d : Z) : Z := Date_UTC (getUTCFullYear d) (getUTCMonth d) 1.
Definition addMonthsUTC (d n : Z) : Z := Date_UTC (getUTCFullYear d) (getUTCMonth d + n) 1.

Definition ymdUTC (d : Z) : string :=
  pretty (getUTCFullYear d) +:+ "-" +:+ pad_start 2 (pretty (getUTCMonth d + 1)) +:+ "-" +:+ pad_start 2 (pretty (getUTCDate d)).

(** [new Date(r.created_at)]; an invalid date is in no period and has no day. *)
Definition created_ms (r : SavedRun) : option Z := date_parse (created_at r).

Definition in_period (a b : Z) (r : SavedRun) : bool := match created_ms r with Some t => (a <=? t) && (t <? b) | None => false end.

(** The days of the month that begins at [start] and ends at [end_]. *)
Definition days_in_month (end_ : Z) : Z := getUTCDate (Date_UTC (getUTCFullYear end_) (getUTCMonth end_) 0).
Definition month_days (start end_ : Z) : list Z :=
  (fun i => Date_UTC (getUTCFullYear start) (getUTCMonth start) (Z.of_nat i)) <$> seq 1 (Z.to_nat (days_in_month end_)).

(** [if (dayMap.has(k)) dayMap.set(k, ...)]. *)
Definition tally_day (m : list (string * Z)) (r : SavedRun) : list (string * Z) :=
  match created_ms r with Some t => match assoc (ymdUTC t) m with Some _ => count_label m (ymdUTC t) | None => m end | None => m end.

Definition regime_label (r : SavedRun) : string := default "unknown" (s_label <$> snapshot (payload r)).

Definition ranked (m : list (string * Z)) : list (string * Z) := js_sort (by_desc snd) m.

Definition day_ms : Z := 86400000.
Definition ceil_div (a b : Z) : Z := - (- a / b).

Section Summary.
Context `{FloatOps}.

Definition summarizeUsage (rs : list SavedRun) (now limit : Z) : UsageSummary :=
  let start := startOfMonthUTC now in
  let end_ := addMonthsUTC start 1 in
  let inPeriod := filter (fun r => in_period start end_ r = true) rs in
  let n := len inPeriod in
  {| used := n; u_limit := limit; remaining := Z.max (limit - n) 0;
     pct := if 0 <? limit then num_min (fdiv (int n) (int limit)) (int 1) else int 0; over_quota := limit <=? n;
     period_start := toISOString start; period_end := toISOString end_; resets_at := toISOString end_;
     days_remaining := Z.max 0 (ceil_div (end_ - now) day_ms);
     by_day := fold_left tally_day inPeriod ((fun d => (ymdUTC d, 0)) <$> month_days start end_);
     by_ticker := take 10 (ranked (fold_left count_label ((fun r => to_upper (ticker r)) <$> inPeriod) []));
     by_regime := ranked (fold_left count_label (regime_label <$> inPeriod) []);
     lifetime := len rs |}.

Definition getUsageSummary (limit now : Z) (f : file runs) : UsageSummary := summarizeUsage (listRuns f) now limit.
End Summary.

(** ** The days of a month *)

Lemma month_start now : startOfMonthUTC now = month_first (month_key now) * ms_per_day.
Proof. unfold startOfMonthUTC. by rewrite Date_UTC_first. Qed.

Lemma month_key_start now : month_key (startOfMonthUTC now) = month_key now.
Proof. rewrite month_start. apply month_key_bounds. pose proof (month_first_step (month_key now)). unfold ms_per_day. lia. Qed.

Lemma month_end now : addMonthsUTC (startOfMonthUTC now) 1 = month_first (month_key now + 1) * ms_per_day.
Proof. unfold addMonthsUTC. rewrite Date_UTC_first, Z.add_assoc. rewrite <- month_key_fields. by rewrite month_key_start. Qed.

Lemma make_day_shift y m d : make_day y m d = make_day y m 1 + (d - 1).
Proof. unfold make_day. cbv zeta. lia. Qed.

Lemma same_month t u : month_key t = month_key u -> getUTCFullYear t = getUTCFullYear u /\ getUTCMonth t = getUTCMonth u.
Proof. rewrite !month_key_fields. pose proof (getUTCMonth_range t). pose proof (getUTCMonth_range u). lia. Qed.

(** The day of a time within its month. *)
Lemma date_of_time t i : month_key t = i -> getUTCDate t = day_of t - month_first i + 1.
Proof. intros <-. unfold getUTCDate. by rewrite make_day_month_first, <- month_key_fields. Qed.

Lemma day_in_month t : month_first (month_key t) <= day_of t < month_first (month_key t + 1).
Proof. apply month_index_spec. Qed.

Lemma days_of_month now : days_in_month (addMonthsUTC (startOfMonthUTC now) 1) = month_first (month_key now + 1) - month_first (month_key now).
Proof.
  set (i := month_key now). unfold days_in_month. set (e := addMonthsUTC _ 1).
  assert (month_key e = i + 1) as He.
  { apply month_key_bounds. unfold e. rewrite month_end. fold i. pose proof (month_first_step (i + 1)). unfold ms_per_day. lia. }
  set (l := Date_UTC _ _ 0). assert (l = (month_first (i + 1) - 1) * ms_per_day) as Hl.
  { unfold l, Date_UTC. rewrite make_day_shift, make_day_month_first, <- month_key_fields, He. lia. }
  pose proof (month_first_step i). assert (month_key l = i) as Hk by (apply month_key_bounds; rewrite Hl; unfold ms_per_day; lia).
  rewrite (date_of_time _ _ Hk). assert (day_of l = month_first (i + 1) - 1) as -> by (rewrite Hl; unfold day_of, ms_per_day; by rewrite Z.div_mul by lia). lia.
Qed.

Lemma month_days_spec now :
  month_days (startOfMonthUTC now) (addMonthsUTC (startOfMonthUTC now) 1) =
  (fun k => (month_first (month_key now) + Z.of_nat k) * ms_per_day) <$> seq 0 (Z.to_nat (month_first (month_key now + 1) - month_first (month_key now))).
Proof.
  unfold month_days. rewrite days_of_month, <- fmap_S_seq, <- list_fmap_compose. apply list_fmap_ext. intros _ k _. unfold compose, Date_UTC. rewrite make_day_shift, make_day_month_first, <- month_key_fields, month_key_start. lia.
Qed.

(** The text of a day tells the days of a month apart. *)
Lemma ymd_same_month t u : month_key t = month_key u -> ymdUTC t = ymdUTC u <-> day_of t = day_of u.
Proof.
  intros Hm. destruct (same_month t u Hm) as [Hy Hmo]. unfold ymdUTC. rewrite Hy, Hmo. rewrite (date_of_time t _ eq_refl), (date_of_time u _ eq_refl), Hm.
  split; [|by intros ->]. pose proof (day_in_month t) as Ht. pose proof (day_in_month u) as Hu. rewrite Hm in Ht. set (i := month_key u) in *.
  pose proof (month_first_step i). intros E. apply (inj (String.append _)) in E. apply (inj (String.append _)) in E.
  apply (inj (String.append _)) in E. apply (inj (String.append _)) in E.
  rewrite !pad_start_pretty in E by lia. pose proof (f_equal (read 2 0) E) as E'.
  rewrite <- (str_app_nil (pad 2 (day_of t - _ + 1))), <- (str_app_nil (pad 2 (day_of u - _ + 1))) in E'.
  rewrite !read_pad in E' by lia. injection E' as E'. lia.
Qed.

(** ** Tallies *)

Lemma set_assoc_fmap {A} (f : A -> string) (c : A -> Z) ds k v : NoDup (f <$> ds) ->
  set_assoc k v ((fun d => (f d, c d)) <$> ds) = (fun d => (f d, if String.eqb (f d) k then v else c d)) <$> ds.
Proof.
  induction ds as [|d ds IH]; [done|]. rewrite !fmap_cons. intros [Hd Hnd]%NoDup_cons. cbn [set_assoc]. rewrite (String.eqb_sym (f d) k).
  destruct (String.eqb_spec k (f d)) as [->|Hne]; [|by rewrite IH]. f_equal. apply list_fmap_ext. intros j x Hx.
  rewrite (proj2 (String.eqb_neq (f x) (f d))); [done|]. intros E. apply Hd. rewrite <- E. apply list_elem_of_fmap_2. by eapply list_elem_of_lookup_2.
Qed.

Lemma assoc_fmap {A} (f : A -> string) (c : A -> Z) ds x : NoDup (f <$> ds) -> x ∈ ds -> assoc (f x) ((fun d => (f d, c d)) <$> ds) = Some (c x).
Proof.
  induction ds as [|d ds IH]; [by intros _ ?%elem_of_nil|]. rewrite !fmap_cons. intros [Hd Hnd]%NoDup_cons Hx. cbn [assoc].
  destruct (String.eqb_spec (f x) (f d)) as [E|Hne].
  - apply elem_of_cons in Hx as [->|Hx]; [done|]. exfalso. apply Hd. rewrite <- E. by apply list_elem_of_fmap_2.
  - apply IH; [done|]. by apply elem_of_cons in Hx as [->|].
Qed.

Lemma count_label_fmap {A} (f : A -> string) (c : A -> Z) ds x : NoDup (f <$> ds) -> x ∈ ds ->
  count_label ((fun d => (f d, c d)) <$> ds) (f x) = (fun d => (f d, c d + if String.eqb (f d) (f x) then 1 else 0)) <$> ds.
Proof.
  intros Hnd Hx. unfold count_label. rewrite (assoc_fmap f c ds x Hnd Hx), set_assoc_fmap by done. apply list_fmap_ext. intros j d Hd.
  destruct (String.eqb_spec (f d) (f x)) as [E|Hne]; [|by rewrite Z.add_0_r]. do 2 f_equal.
  apply list_elem_of_lookup_2 in Hd. pose proof (assoc_fmap f c ds x Hnd Hx) as Ha. rewrite <- E, (assoc_fmap f c ds d Hnd Hd) in Ha. congruence.
Qed.

(** Distinct keys stay distinct, and every row of a tally is its count. *)
Lemma count_label_NoDup m k : NoDup m.*1 -> NoDup (count_label m k).*1.
Proof.
  intros Hnd. unfold count_label. destruct (assoc k m) as [n|] eqn:E.
  - assert ((set_assoc k (n + 1) m).*1 = m.*1) as ->; [|done]. clear. induction m as [|[k' w] m IH]; [done|]. cbn. destruct (String.eqb k k'); cbn; by rewrite ?IH.
  - rewrite fmap_app. apply NoDup_app. split_and!; [done| |by apply NoDup_singleton]. intros x Hx Hk%list_elem_of_singleton. cbn in Hk. rewrite Hk in Hx. clear Hnd Hk x. induction m as [|[k' w] m IH]; [by apply elem_of_nil in Hx|].
    cbn in *. destruct (String.eqb k k') eqn:Ek; [done|]. apply String.eqb_neq in Ek. apply elem_of_cons in Hx as [Hx|Hx]; [done|by apply IH].
Qed.

Lemma tally_NoDup ls m : NoDup m.*1 -> NoDup (fold_left count_label ls m).*1.
Proof. revert m. induction ls as [|l ls IH]; intros m Hm; [done|]. by apply IH, count_label_NoDup. Qed.

Lemma assoc_elem {A} (m : list (string * A)) k n : NoDup m.*1 -> (k, n) ∈ m -> assoc k m = Some n.
Proof.
  induction m as [|[k' w] m IH]; [by intros _ ?%elem_of_nil|]. cbn. intros [Hk Hnd]%NoDup_cons Hin.
  apply elem_of_cons in Hin as [[= -> ->]|Hin]; [by rewrite String.eqb_refl|]. destruct (String.eqb_spec k k') as [->|]; [|by apply IH].
  exfalso. apply Hk. apply list_elem_of_fmap. by exists (k', n).
Qed.

Lemma tally_row ls k n : (k, n) ∈ fold_left count_label ls [] -> n = len (filter (fun l => l = k) ls).
Proof.
  intros Hin. apply assoc_elem in Hin; [|apply tally_NoDup; constructor]. destruct (labels_counted ls []) as [_ Hc]. specialize (Hc k). rewrite Hin in Hc.
  change (n = 0 + len (filter (fun l => l = k) ls)) in Hc. lia.
Qed.

Lemma total_of_perm m m' : m ≡ₚ m' -> total_of m = total_of m'.
Proof. unfold total_of. induction 1; cbn in *; lia. Qed.

Lemma len_filter_fmap {A} (f : A -> string) (l : list A) k : len (filter (fun x => x = k) (f <$> l)) = len (filter (fun r => f r = k) l).
Proof. induction l as [|x l IH]; [done|]. rewrite fmap_cons, !filter_cons. unfold len in *. case_decide; cbn [length]; lia. Qed.

Lemma len_filter_cons {A} (P : A -> Prop) `{!forall x, Decision (P x)} x (l : list A) : len (filter P (x :: l)) = (if decide (P x) then 1 else 0) + len (filter P l).
Proof. rewrite filter_cons. unfold len. case_decide; cbn [length]; lia. Qed.

(** ** What the summary says *)

Definition on_day (d : Z) (r : SavedRun) : Prop := (day_of <$> created_ms r) = Some d.
Definition in_month (i : Z) (r : SavedRun) : Prop := (month_key <$> created_ms r) = Some i.
#[export] Instance on_day_dec d r : Decision (on_day d r).
Proof. unfold on_day. apply _. Defined.
#[export] Instance in_month_dec i r : Decision (in_month i r).
Proof. unfold in_month. apply _. Defined.

Lemma in_period_month now r : in_period (startOfMonthUTC now) (addMonthsUTC (startOfMonthUTC now) 1) r = true <-> in_month (month_key now) r.
Proof.
  unfold in_period, in_month. rewrite month_end, month_start. destruct (created_ms r) as [t|]; [|done]. cbn.
  rewrite andb_true_iff, Z.leb_le, Z.ltb_lt, <- month_key_bounds. split; [by intros ->|by intros [= ->]].
Qed.

Lemma on_day_month d i r : month_first i <= d < month_first (i + 1) -> on_day d r -> in_month i r.
Proof.
  unfold on_day, in_month. destruct (created_ms r) as [t|]; [|done]. cbn. intros Hd [= <-]. f_equal. by apply month_index_unique.
Qed.

Lemma tally_days i ds c rs : (forall d, d ∈ ds -> month_key (d * ms_per_day) = i /\ day_of (d * ms_per_day) = d) -> NoDup ds ->
  (forall d, month_first i <= d < month_first (i + 1) -> d ∈ ds) -> Forall (in_month i) rs ->
  fold_left tally_day rs ((fun d => (ymdUTC (d * ms_per_day), c d)) <$> ds) = (fun d => (ymdUTC (d * ms_per_day), c d + len (filter (on_day d) rs))) <$> ds.
Proof.
  intros Hds Hnd Hall Hrs. revert c. induction Hrs as [|r rs Hr _ IH]; intros c.
  - cbn [fold_left]. apply list_fmap_ext. intros _ d _. change (len (filter (on_day d) [])) with 0. by rewrite Z.add_0_r.
  - cbn [fold_left]. unfold in_month in Hr. destruct (created_ms r) as [t|] eqn:Et; [|done]. cbn in Hr. injection Hr as Hr.
    assert (day_of t ∈ ds) as Ht by (apply Hall; rewrite <- Hr; apply day_in_month). destruct (Hds _ Ht) as [Hk Hd].
    assert (NoDup ((fun d => ymdUTC (d * ms_per_day)) <$> ds)) as Hnames.
    { apply NoDup_fmap_2_strong; [|done]. intros d e H1 H2 E. destruct (Hds d H1) as [Hd1 Hd2], (Hds e H2) as [He1 He2].
      apply ymd_same_month in E; congruence. }
    assert (ymdUTC t = ymdUTC (day_of t * ms_per_day)) as Eymd by (apply ymd_same_month; congruence).
    assert (tally_day ((fun d => (ymdUTC (d * ms_per_day), c d)) <$> ds) r =
      (fun d => (ymdUTC (d * ms_per_day), c d + if decide (on_day d r) then 1 else 0)) <$> ds) as ->.
    { unfold tally_day. rewrite Et, Eymd. rewrite (assoc_fmap (fun d => ymdUTC (d * ms_per_day)) c ds _ Hnames Ht).
      rewrite (count_label_fmap (fun d => ymdUTC (d * ms_per_day)) c ds _ Hnames Ht). apply list_fmap_ext. intros j d Hj%list_elem_of_lookup_2.
      do 2 f_equal. destruct (Hds d Hj) as [Hd1 Hd2]. assert (on_day d r <-> day_of t = d) as Hod by (unfold on_day; rewrite Et; split; [by intros [= ->]|intros Hx; cbn; by rewrite Hx]).
      destruct (String.eqb_spec (ymdUTC (d * ms_per_day)) (ymdUTC (day_of t * ms_per_day))) as [E|Hne].
      - apply ymd_same_month in E; [|congruence]. rewrite decide_True; [done|]. apply Hod. congruence.
      - rewrite decide_False; [done|]. intros <-%Hod. done. }
    rewrite IH. apply list_fmap_ext. intros _ d _. rewrite len_filter_cons. f_equal. lia.
Qed.

Lemma tally_days_total rs m : (forall r, r ∈ rs -> exists t, created_ms r = Some t /\ ymdUTC t ∈ m.*1) -> total_of (fold_left tally_day rs m) = total_of m + len rs.
Proof.
  revert m. induction rs as [|r rs IH]; intros m Hm; [cbn [fold_left]; change (len (@nil SavedRun)) with 0; lia|]. cbn [fold_left]. destruct (Hm r ltac:(by left)) as (t & Et & Hk).
  assert (is_Some (assoc (ymdUTC t) m)) as [n Hn].
  { clear -Hk. induction m as [|[k w] m IH]; [by apply elem_of_nil in Hk|]. cbn in *. destruct (String.eqb_spec (ymdUTC t) k) as [|Hne]; [by eexists|].
    apply IH. by apply elem_of_cons in Hk as [|]. }
  assert (tally_day m r = count_label m (ymdUTC t)) as Htd by (unfold tally_day; by rewrite Et, Hn). rewrite IH.
  - rewrite Htd, count_label_total. unfold len. cbn [length]. lia.
  - intros r' Hr'. destruct (Hm r' ltac:(by right)) as (t' & Et' & Hk'). exists t'. split; [done|]. rewrite Htd. unfold count_label. rewrite Hn.
    assert ((set_assoc (ymdUTC t) (n + 1) m).*1 = m.*1) as ->; [|done]. clear. induction m as [|[k' w] m IH]; [done|]. cbn. destruct (String.eqb _ k'); cbn; by rewrite ?IH.
Qed.

Section Claims.
Context `{FloatOps}.

(** The usage meter adds up: with the month of the present moment, what is
    used is the number of runs created in it; there is one bar for each of its
    days, in order, with the runs of that day; the bars sum to what is used, and
    so do the regimes, each with its number of runs; at most ten tickers are
    listed, each with its number of runs; a quota is over exactly when nothing
    remains, and between 1 and 31 days remain of the month. *)
Theorem usage_adds_up rs now limit :
  let u := summarizeUsage rs now limit in
  let i := month_key now in
  let month := filter (in_month i) rs in
  used u = len month /\
  by_day u = (fun d => (ymdUTC (d * ms_per_day), len (filter (on_day d) rs))) <$>
    ((fun k => month_first i + Z.of_nat k) <$> seq 0 (Z.to_nat (month_first (i + 1) - month_first i))) /\
  total_of (by_day u) = used u /\ total_of (by_regime u) = used u /\
  (forall g n, (g, n) ∈ by_regime u -> n = len (filter (fun r => regime_label r = g) month)) /\
  (forall t n, (t, n) ∈ by_ticker u -> n = len (filter (fun r => to_upper (ticker r) = t) month)) /\ len (by_ticker u) <= 10 /\
  (over_quota u = true <-> remaining u = 0) /\ 1 <= days_remaining u <= 31.
Proof.
  cbv zeta. unfold summarizeUsage. cbn [used by_day by_regime by_ticker over_quota remaining days_remaining].
  assert (filter (fun r => in_period (startOfMonthUTC now) (addMonthsUTC (startOfMonthUTC now) 1) r = true) rs = filter (in_month (month_key now)) rs) as ->.
  { apply filter_ext. intros r _. apply in_period_month. }
  set (i := month_key now). set (month := filter (in_month i) rs). pose proof (month_first_step i) as Hstep.
  set (ds := (fun k => month_first i + Z.of_nat k) <$> seq 0 (Z.to_nat (month_first (i + 1) - month_first i))).
  assert (forall d, d ∈ ds <-> month_first i <= d < month_first (i + 1)) as Hin.
  { intros d. unfold ds. rewrite list_elem_of_fmap. split.
    - intros (k & -> & Hk%elem_of_seq). lia.
    - intros Hd. exists (Z.to_nat (d - month_first i)). rewrite elem_of_seq. lia. }
  assert (forall d, d ∈ ds -> month_key (d * ms_per_day) = i /\ day_of (d * ms_per_day) = d) as Hds.
  { intros d Hd%Hin. assert (day_of (d * ms_per_day) = d) as Hdd by (unfold day_of, ms_per_day; by rewrite Z.div_mul by lia).
    split; [|done]. unfold month_key. rewrite Hdd. by apply month_index_unique. }
  assert (NoDup ds) as Hnd by (apply NoDup_fmap_2_strong; [intros; lia|apply NoDup_seq]).
  assert (Forall (in_month i) month) as Hmonth by (apply Forall_forall; intros r [Hr _]%list_elem_of_filter; done).
  assert (fold_left tally_day month ((fun d => (ymdUTC d, 0)) <$> month_days (startOfMonthUTC now) (addMonthsUTC (startOfMonthUTC now) 1)) =
    (fun d => (ymdUTC (d * ms_per_day), len (filter (on_day d) rs))) <$> ds) as Hdays.
  { rewrite month_days_spec. fold i. rewrite <- list_fmap_compose.
    transitivity (fold_left tally_day month ((fun d => (ymdUTC (d * ms_per_day), 0)) <$> ds)); [unfold ds; by rewrite <- list_fmap_compose|].
    rewrite (tally_days i ds (fun _ => 0) month Hds Hnd (fun d Hd => proj2 (Hin d) Hd) Hmonth). apply list_fmap_ext. intros j d Hd%list_elem_of_lookup_2%Hin.
    f_equal. unfold month. rewrite list_filter_filter, Z.add_0_l. f_equal. apply filter_ext. intros r _. pose proof (on_day_month d i r Hd). tauto. }
  assert (1 <= Z.max 0 (ceil_div (addMonthsUTC (startOfMonthUTC now) 1 - now) day_ms) <= 31) as Hrem.
  { rewrite month_end. fold i. assert (month_first i * ms_per_day <= now < month_first (i + 1) * ms_per_day) as Hb by (by apply month_key_bounds).
    unfold ceil_div, day_ms, ms_per_day in *. revert Hb Hstep. generalize (month_first i) (month_first (i + 1)). intros a b. Z.to_euclidean_division_equations. lia. }
  rewrite Hdays. split_and!; try done; try apply Hrem.
  - rewrite <- Hdays, tally_days_total.
    + assert (forall l, total_of ((fun d => (ymdUTC d, 0)) <$> l) = 0) as -> by (induction l; [done|]; unfold total_of in *; cbn; lia). lia.
    + intros r Hr. rewrite Forall_forall in Hmonth. specialize (Hmonth r Hr). unfold in_month in Hmonth. destruct (created_ms r) as [t|]; [|done].
      cbn in Hmonth. injection Hmonth as Hk. exists t. split; [done|]. rewrite <- list_fmap_compose, month_days_spec. fold i.
      rewrite <- list_fmap_compose. apply list_elem_of_fmap. pose proof (day_in_month t) as Hd. rewrite Hk in Hd.
      exists (Z.to_nat (day_of t - month_first i)). split; [|apply elem_of_seq; lia]. unfold compose. cbn [fst].
      replace (month_first i + _) with (day_of t) by lia. assert (day_of t ∈ ds) as [H1 H2]%Hds by (by apply Hin). apply ymd_same_month; congruence.
  - unfold ranked. rewrite (total_of_perm _ _ (js_sort_Permutation _ _)). destruct (labels_counted (regime_label <$> month) []) as [-> _].
    unfold len. by rewrite length_fmap.
  - intros g n Hg. unfold ranked in Hg. rewrite js_sort_elem in Hg. apply tally_row in Hg. by rewrite len_filter_fmap in Hg.
  - intros t n Ht. apply (subseteq_take 10) in Ht. unfold ranked in Ht. rewrite js_sort_elem in Ht. apply tally_row in Ht. by rewrite len_filter_fmap in Ht.
  - unfold len. rewrite length_take. lia.
  - rewrite Z.leb_le. lia.
Qed.
End Claims.

Section Demo.
Local Instance usage_floats : FloatOps := {| fadd a _ := a; fsub a _ := a; fmul a _ := a; fdiv a _ := a; toFixed _ n := n |}.

(** The meter of [GET /api/v1/usage] counts the runs of every key, and names
    their tickers, also to a key that may not read those runs. *)
Lemma usage_names_foreign_runs :
  RunAcl.GET RunAcl.demo_trader "r1" demo_runs = RunAcl.NotFound /\ by_ticker (getUsageSummary 50 demo_time demo_runs) = [("NVDA", 1)].
Proof. vm_compute. auto. Qed.
End Demo.
