(* ===== verification/V1Entry.v ===== *)
(** The way into a handler of the v1 API: authentication, the scope, the audit
    line, the request guard and the retry wrapper, composed as every route of
    [web/app/api/v1] composes them.

    What the routes need of a wrapper is the class [Wrapper]: it runs what it
    wraps at most once and answers for it when it did. The guard and the retry
    wrapper are instances, and so is their composition. *)
From S2P Require Import Prelude JsNum JsDate IsoTime Json Store AuditLog AuthLockout KeyStore IpMatch Guard Idempotency.

(** ** Wrappers *)

(** [inner] is the part of the state that the wrapped computation works on, [O]
    and [R] are the answers inside and outside, [V] what a client sees
    of them. *)
Class Wrapper {I S O R V : Type} (wrap : (I -> O * I) -> S -> R * S) (inner : S -> I) (st_in : O -> option V) (st_out : R -> option V) (pre : S -> Prop) := {
  runs_once h s : pre s ->
    inner (snd (wrap h s)) = inner s \/
    inner (snd (wrap h s)) = snd (h (inner s)) /\ st_out (fst (wrap h s)) = st_in (fst (h (inner s)));
}.

Definition seen (r : Guard.response) : Z * string := (Guard.r_status r, Guard.r_body r).
Definition seen_outcome (o : outcome) : option (Z * string) := match o with Returned r => Some (seen r) | Threw => None end.
Definition seen_retry (r : Idempotency.response) : Z * string := (Idempotency.r_status r, Idempotency.r_body r).

#[export] Instance guard_wrapper {A} (env : environment) clk req key route :
  Wrapper (fun h (w : world A env) => enforceRateLimit env clk req key route h w) Guard.app (fmap seen) seen_outcome (fun w => 0 <= inFlight w).
Proof.
  constructor. intros h w Hw. destruct (enforceRateLimit env clk req key route h w) as [o w'] eqn:E.
  pose proof (guarded_request_follows env clk req key route h (with_reqInFlight env (reqInFlight w + 1) w) Hw) as Hf.
  unfold follows in Hf. unfold enforceRateLimit in E. cbn [fst snd].
  destruct (first_refusal _ _) as [[s c|]|].
  - destruct Hf as (o' & w1 & Eg & Ha & _ & _ & (r & -> & _) & _). rewrite Eg in E. injection E as <- <-. by left.
  - destruct Hf as (o' & w1 & Eg & Ha & _ & _ & -> & _). rewrite Eg in E. injection E as <- <-. by left.
  - destruct Hf as (w1 & Ha & _ & _ & Hh). right. change (Guard.app (with_reqInFlight env (reqInFlight w + 1) w)) with (Guard.app w) in *.
    destruct (fst (h (Guard.app w))) as [res|] eqn:Er.
    + destruct Hh as (r & Eg & Hs & Hc & _). rewrite Eg in E. injection E as <- <-. split; [done|]. cbn. unfold seen. injection Hc as _ Hb. by rewrite Hs, Hb.
    + destruct Hh as [Eg _]. rewrite Eg in E. injection E as <- <-. done.
Qed.

Section Retry.
Context (sha256 : string -> string) (json_parse : string -> option json) {A : Type}.

(** The body a handler is given. *)
Definition body_of (raw : string) : option json := if truthy raw then json_parse raw else None.

Lemma begin_body req key route now (w : state (A := A)) b slot w' :
  begin sha256 json_parse req key route now w = (Run b slot, w') -> b = body_of (raw req) /\ Idempotency.app w' = Idempotency.app w.
Proof.
  unfold begin, body_of. set (hdr := default "" _). assert (forall b0 : option json, (if negb (truthy hdr) then (Run b0 None, w) else
    match validateHeader (Some hdr) with
    | Err c => (Answer (err 400 "bad_idempotency_key"), Idempotency.record req key route 400 ("idempotency:bad_header:" +:+ code_name c) None w)
    | Ok v => let '(d, rs) := lookup (k_id key) v (fingerprint sha256 (Idempotency.req_method req) route (raw req)) now (cache w) in
        match d with
        | Conflict _ => (Answer (Idempotency.echo_request_id req (set_header "idempotency-key" v (err 409 "idempotency_conflict"))),
            Idempotency.record req key route 409 "idempotency:conflict" (Some (JObj [("idempotency_key", JStr v)])) (with_cache rs w))
        | Hit rec => (Answer (replay req v rec), Idempotency.record req key route (status rec) "idempotency:replay" (Some (slot_details v rec)) (with_cache rs w))
        | Miss => (Run b0 (Some (v, fingerprint sha256 (Idempotency.req_method req) route (raw req))), with_cache rs w)
        end
    end) = (Run b slot, w') -> b = b0 /\ Idempotency.app w' = Idempotency.app w) as Hgo.
  { intros b0. destruct (truthy hdr); cbn [negb]; [|by intros [= <- <- <-]]. destruct (validateHeader _) as [v|c]; [|done].
    destruct (lookup _ _ _ _ _) as [[] rs]; try done. by intros [= <- <- <-]. }
  destruct (truthy (raw req)); [destruct (json_parse (raw req)); [|done]|]; apply Hgo.
Qed.

Lemma complete_app clk slot key res (w : state (A := A)) :
  Idempotency.app (snd (complete key clk slot res w)) = Idempotency.app w /\ seen_retry (fst (complete key clk slot res w)) = seen_retry res.
Proof. unfold complete. destruct slot as [[v fp]|]; [|done]. cbn. by destruct (_ && _). Qed.

Lemma answer_app req key route now (w : state (A := A)) : Idempotency.app (snd (begin sha256 json_parse req key route now w)) = Idempotency.app w.
Proof.
  unfold begin. destruct (truthy (raw req)); [destruct (json_parse (raw req)); [|done]|]; (destruct (truthy (default "" _)); cbn [negb]; [|done]);
    (destruct (validateHeader _) as [v|c]; [|done]); by destruct (lookup _ _ _ _ _) as [[] rs].
Qed.

#[export] Instance retry_wrapper req key route clk :
  Wrapper (fun h => withIdempotency sha256 json_parse req key route (fun _ => h) clk) (Idempotency.app (A := A)) (fmap seen_retry) (fmap seen_retry) (fun _ => True).
Proof.
  constructor. intros h w _. unfold withIdempotency. destruct (begin _ _ _ _ _ _ w) as [s w1] eqn:Eb.
  assert (Idempotency.app w1 = Idempotency.app w) as Ha by (by rewrite <- (answer_app req key route (clk 0%nat) w), Eb).
  destruct s as [r|b slot]; [by left|]. right. rewrite Ha. destruct (h (Idempotency.app w)) as [[res|] a]; [|done].
  pose proof (complete_app (fun i => clk (S i)) slot key res (with_app a w1)) as [Hc Hs].
  destruct (complete _ _ _ _ _) as [r w2]. cbn [fst snd] in *. split; [by rewrite Hc|]. cbn. by rewrite Hs.
Qed.

(** The handler only ever sees the body of the request. *)
Lemma handler_body req key route clk h (w : state (A := A)) :
  withIdempotency sha256 json_parse req key route h clk w = withIdempotency sha256 json_parse req key route (fun _ => h (body_of (raw req))) clk w.
Proof.
  unfold withIdempotency. destruct (begin _ _ _ _ _ _ w) as [[r|b slot] w1] eqn:Eb; [done|]. by apply begin_body in Eb as [-> _].
Qed.
End Retry.

(** A wrapper around a wrapped computation. *)
#[export] Instance wrapper_compose {I S T O P R V : Type} w1 (i1 : S -> I) (s1 : O -> option V) (t1 : P -> option V) p1
    w2 (i2 : T -> S) (s2 : P -> option V) (t2 : R -> option V) p2 :
  Wrapper w1 i1 s1 t1 p1 -> Wrapper w2 i2 s2 t2 p2 -> (forall p, s2 p = t1 p) ->
  Wrapper (fun h => w2 (w1 h)) (fun t => i1 (i2 t)) s1 t2 (fun t => p2 t /\ p1 (i2 t)).
Proof.
  intros H1 H2 Hst. constructor. intros h t [Hp2 Hp1]. destruct (@runs_once _ _ _ _ _ _ _ _ _ _ H2 (w1 h) t Hp2) as [E|[E Es]].
  - left. by rewrite E.
  - destruct (@runs_once _ _ _ _ _ _ _ _ _ _ H1 h (i2 t) Hp1) as [E'|[E' Es']]; [left; by rewrite E, E'|right]. rewrite E, E', Es, Hst. by split.
Qed.

(** ** The entry *)

Record v1_request := { v_headers : gmap string string; v_method : string; v_raw : string; v_query : gmap string string }.

Inductive need := NoScope | NeedRead | NeedTrade | NeedAdmin.

Definition admitted (n : need) (k : StoredKey) : bool :=
  match n with
  | NoScope => true
  | NeedRead => bool_decide (read ∈ scopes k) || bool_decide (admin ∈ scopes k)
  | NeedTrade => bool_decide (trade ∈ scopes k) || bool_decide (admin ∈ scopes k)
  | NeedAdmin => bool_decide (admin ∈ scopes k)
  end.

Definition forbidden_reason (n : need) : string :=
  match n with NeedTrade => "forbidden:trade-required" | NeedAdmin => "forbidden:admin-required" | _ => "forbidden:read-required" end.

(** [recordAuditEvent({ req, route, method, status, key, reason, details })]. *)
Definition line (req : v1_request) (route : string) (key : option StoredKey) (status : Z) (reason : option string) (details : option json) : RecordInput :=
  {| in_headers := Some (v_headers req); in_route := route; in_method := v_method req; in_status := status;
     in_key := audit_key <$> key; in_reason := reason; in_details := details |}.

(** The clocks of authentication, of the guard and of the retry wrapper. *)
Record clocks := { c_auth : clock; c_guard : clock; c_retry : clock }.

Section Entry.
Context {L : Type} `{Lockout L} (env : environment) (adminEnv : option string).
Context (sha256 : string -> string) (json_parse : string -> option json) {A : Type}.

(** The keys, the lockout, and the state the guard is in front of: the retry
    records and the stores of the handlers. *)
Record api := { keys_file : file keys; lockout : L; guard : world (state (A := A)) env }.

Definition stores_of (a : api) : A := Idempotency.app (Guard.app (guard a)).

Definition err_outcome (status : Z) (code : string) : outcome :=
  Returned {| Guard.r_status := status; r_code := Some code; Guard.r_body := ""; Guard.r_headers := ∅ |}.

Definition audit (l : RecordInput) (w : world (state (A := A)) env) : world state env := with_audited env (Guard.audited w ++ [l]) w.

(** [opening]: the line of status 200 that most routes write before the guard. *)
Definition enter (n : need) (opening : bool) (clk : clock) (req : v1_request) (route : string)
    (run : StoredKey -> world state env -> outcome * world state env) (a : api) : outcome * api :=
  let '(k, kf, lk) := authenticate sha256 clk adminEnv (extractKey (v_headers req)) (Some (clientIpFromRequest (v_headers req))) (keys_file a) (lockout a) in
  let w := guard a in
  let '(o, w) :=
    match k with
    | None => (err_outcome 401 "unauthorized", audit (line req route None 401 (Some "unauthorized") None) w)
    | Some key =>
        if negb (admitted n key) then (err_outcome 403 "forbidden", audit (line req route (Some key) 403 (Some (forbidden_reason n)) None) w)
        else run key (if opening then audit (line req route (Some key) 200 None None) w else w)
    end in
  (o, {| keys_file := kf; lockout := lk; guard := w |}).

Definition guard_request (req : v1_request) : Guard.request := {| headers := v_headers req; Guard.req_method := v_method req |}.
Definition retry_request (req : v1_request) : Idempotency.request :=
  {| req_headers := v_headers req; Idempotency.req_method := v_method req; raw := v_raw req |}.

Definition to_guard (r : Idempotency.response) : Guard.response :=
  {| Guard.r_status := Idempotency.r_status r; r_code := r_error r; Guard.r_body := Idempotency.r_body r; Guard.r_headers := Idempotency.r_headers r |}.

(** A handler that only the guard is in front of. *)
Definition unwrapped (h : A -> option Idempotency.response * A) (s : state (A := A)) : option Guard.response * state (A := A) :=
  let '(o, x) := h (Idempotency.app s) in (to_guard <$> o, with_app x s).

(** A handler behind [withIdempotency]. *)
Definition retried (clk : clock) (req : v1_request) (key : StoredKey) (route : string) (h : A -> option Idempotency.response * A)
    (s : state (A := A)) : option Guard.response * state (A := A) :=
  let '(o, s) := withIdempotency sha256 json_parse (retry_request req) (audit_key key) route (fun _ => h) clk s in (to_guard <$> o, s).

Definition guarded (clk : clock) (req : v1_request) (route : string) (h : state (A := A) -> option Guard.response * state (A := A)) (key : StoredKey) :=
  enforceRateLimit env clk (guard_request req) key route h.

(** A route that reads, and one that writes: its handler is given the body. *)
Definition read_route n opening (c : clocks) req route (h : StoredKey -> A -> option Idempotency.response * A) : api -> outcome * api :=
  enter n opening (c_auth c) req route (fun key => guarded (c_guard c) req route (unwrapped (h key)) key).
Definition write_route n (c : clocks) req route (h : StoredKey -> option json -> A -> option Idempotency.response * A) : api -> outcome * api :=
  enter n true (c_auth c) req route (fun key =>
    guarded (c_guard c) req route (retried (c_retry c) req key route (h key (body_of json_parse (v_raw req)))) key).

#[export] Instance unwrapped_wrapper : Wrapper unwrapped (Idempotency.app (A := A)) (fmap seen_retry) (fmap seen) (fun _ => True).
Proof. constructor. intros h s _. right. unfold unwrapped. by destruct (h (Idempotency.app s)) as [[r|] x]. Qed.

#[export] Instance retried_wrapper clk req key route :
  Wrapper (retried clk req key route) (Idempotency.app (A := A)) (fmap seen_retry) (fmap seen) (fun _ => True).
Proof.
  constructor. intros h s _. destruct (retry_wrapper sha256 json_parse (A := A) (retry_request req) (audit_key key) route clk) as [Hr].
  specialize (Hr h s I). unfold retried. destruct (withIdempotency _ _ _ _ _ _ _ _) as [o s']. cbn [fst snd] in *.
  destruct Hr as [E|[E Ho]]; [by left|right]. split; [done|]. rewrite <- Ho. by destruct o.
Qed.

(** What the entry promises of any route: the stores are left alone, or a key
    that authenticated and has the scope ran the handler on them, once, and the
    client sees the status and the body it answered. *)
Definition contained (n : need) (req : v1_request) (clk : clock) (h : StoredKey -> A -> option Idempotency.response * A) (a : api) (r : outcome * api) : Prop :=
  stores_of r.2 = stores_of a \/
  exists key, fst (fst (authenticate sha256 clk adminEnv (extractKey (v_headers req)) (Some (clientIpFromRequest (v_headers req))) (keys_file a) (lockout a))) = Some key /\
    admitted n key = true /\ stores_of r.2 = snd (h key (stores_of a)) /\ seen_outcome r.1 = seen_retry <$> fst (h key (stores_of a)).

Lemma enter_contained n opening clk gclk req route wrap h a :
  (forall key, Wrapper (wrap key) (Idempotency.app (A := A)) (fmap seen_retry) (fmap seen) (fun _ => True)) ->
  0 <= inFlight (guard a) ->
  contained n req clk h a (enter n opening clk req route (fun key => guarded gclk req route (wrap key (h key)) key) a).
Proof.
  intros Hw Hi. unfold contained, enter. destruct (authenticate _ _ _ _ _ _ _) as [[k kf] lk]. cbn [fst].
  destruct k as [key|]; [|by left]. destruct (admitted n key) eqn:Ea; cbn [negb]; [|by left].
  set (w := if opening then _ else _). assert (inFlight w = inFlight (guard a) /\ Guard.app w = Guard.app (guard a)) as [Hf Hs] by (by unfold w; destruct opening).
  pose proof (wrapper_compose (wrap key) _ _ _ _ _ _ _ _ _ (Hw key) (guard_wrapper env gclk (guard_request req) key route) (fun p => eq_refl)) as [Hc].
  unfold guarded. specialize (Hc (h key) w ltac:(split; [by rewrite Hf|done])).
  destruct (enforceRateLimit _ _ _ _ _ _ w) as [o w']. cbn [fst snd] in *. unfold stores_of. cbn [guard]. rewrite Hs in Hc.
  destruct Hc as [E|[E Eo]]; [by left|right]. by exists key.
Qed.

Lemma read_contained n opening c req route h a : 0 <= inFlight (guard a) -> contained n req (c_auth c) h a (read_route n opening c req route h a).
Proof. intros Hi. exact (enter_contained n opening (c_auth c) (c_guard c) req route (fun _ => unwrapped) h a (fun _ => unwrapped_wrapper) Hi). Qed.

Lemma write_contained n c req route h a : 0 <= inFlight (guard a) ->
  contained n req (c_auth c) (fun key => h key (body_of json_parse (v_raw req))) a (write_route n c req route h a).
Proof.
  intros Hi. exact (enter_contained n true (c_auth c) (c_guard c) req route (fun key => retried (c_retry c) req key route)
    (fun key => h key (body_of json_parse (v_raw req))) a (fun key => retried_wrapper (c_retry c) req key route) Hi).
Qed.
End Entry.

Arguments api L env A : clear implicits.
Arguments keys_file {L env A} a.
Arguments lockout {L env A} a.
Arguments guard {L env A} a.
Arguments stores_of {L env A} a.
