(* ===== verification/V1Routes.v ===== *)
(** The handlers of the v1 API: [web/app/api/v1/runs], [runs/[id]], [alerts],
    [alerts/[id]], [alerts/check], [watchlist], [watchlist/[ticker]] and
    [whoami], with the dry-run switch of [web/lib/dryRunCore.ts] and
    [web/lib/dryRun.ts], behind the entry of [V1Entry].

    Reading of numbers, collation, the classifier's arithmetic, the hash behind
    synthetic quotes and the text of a number are parameters; ids and clock
    readings of a request are an argument. Webhook events are kept as the
    dispatches that were started. *)
From S2P Require Import Prelude JsNum JsDate IsoTime Json Store AuditLog AuthLockout KeyStore Guard Idempotency V1Entry.
From S2P Require Runs RunAcl Regime Ticker Alerts Watchlist Activity Webhooks.
#[local] Existing Instances Runs.runs_persisted Alerts.alerts_persisted Watchlist.entries_persisted Activity.events_persisted RunAcl.foreign_dec.

Definition truthy_words : list string := ["1"; "true"; "yes"].

Definition among (v : option string) (l : list string) : bool := match v with Some v => bool_decide (v ∈ l) | None => false end.

(** The URL of a request parses. *)
Definition isDryRun (req : v1_request) (body : option json) : bool :=
  let q := to_lower <$> v_query req !! "dry_run" in
  if among q truthy_words then true
  else if among q ["0"; "false"; "no"] then false
  else if among ((fun h => to_lower (trim h)) <$> v_headers req !! "x-dry-run") truthy_words then true
  else match j ← body; field "dry_run" j with Some (JBool true) => true | _ => false end.

Record stores := {
  runs : file (list Runs.SavedRun); alerts : file (list (string * Alerts.TenantBucket)); watchlist : file (list Watchlist.WatchlistEntry);
  activity : file (list Activity.ActivityEvent); dispatched : list Webhooks.PickEvent; lines : list RecordInput }.

Definition with_runs x (s : stores) : stores :=
  {| runs := x; alerts := alerts s; watchlist := watchlist s; activity := activity s; dispatched := dispatched s; lines := lines s |}.
Definition with_alerts x (s : stores) : stores :=
  {| runs := runs s; alerts := x; watchlist := watchlist s; activity := activity s; dispatched := dispatched s; lines := lines s |}.
Definition with_watchlist x (s : stores) : stores :=
  {| runs := runs s; alerts := alerts s; watchlist := x; activity := activity s; dispatched := dispatched s; lines := lines s |}.
Definition with_activity x (s : stores) : stores :=
  {| runs := runs s; alerts := alerts s; watchlist := watchlist s; activity := x; dispatched := dispatched s; lines := lines s |}.
Definition with_dispatched x (s : stores) : stores :=
  {| runs := runs s; alerts := alerts s; watchlist := watchlist s; activity := activity s; dispatched := x; lines := lines s |}.
Definition with_line l (s : stores) : stores :=
  {| runs := runs s; alerts := alerts s; watchlist := watchlist s; activity := activity s; dispatched := dispatched s; lines := lines s ++ [l] |}.

(** Ids and clock of one request. *)
Record fresh := { f_id : string; f_event : string; f_now : clock }.

Definition middot : string := " " +:+ String (chr 183) " ".
Definition handler := stores -> option response * stores.
Definition fail (status : Z) (code : string) : handler := fun s => (Some (err status code), s).

Section Routes.
Context (double_text : num -> string) (parseInt : string -> option Z) (parseFloat_of Number_of : json -> num).
Context (localeCompare : string -> string -> Z) (other_dates : string -> option Z) (sha256 : string -> list Z).
Context `{FloatOps} `{Regime.MathOps}.

(** [NextResponse.json]. *)
Definition json_answer (status : Z) (j : json) : response :=
  {| r_status := status; r_body := stringify double_text j; r_error := None; r_headers := {[ "content-type" := "application/json" ]} |}.

Definition done_ (status : Z) (j : json) : handler := fun s => (Some (json_answer status j), s).

Definition dryRunResponse (effect : json) : response :=
  set_header "x-dry-run" "true" (json_answer 200 (JObj [("dry_run", JBool true); ("would", effect);
    ("note", JStr "no state was changed. remove ?dry_run=true (or the X-Dry-Run header) to execute.")])).

Definition effect_ (action resource : string) (i : json) (preview : json) : json :=
  JObj [("action", JStr action); ("resource", JStr resource); ("id", i); ("preview", preview)].

Section Request.
Context (req : v1_request) (fr : fresh) (route : string) (key : StoredKey).

(** The audit line of a dry run, then its answer. *)
Definition preview_only (details : json) (effect : json) : handler := fun s =>
  (Some (dryRunResponse effect), with_line (line req route (Some key) 200 (Some "dry_run") (Some details)) s).
Definition would (effect : json) : handler := preview_only (JObj [("would", effect)]) effect.

Definition recordSafe (kind title body : string) (href : option string) (n : nat) (s : stores) : stores :=
  with_activity (Activity.recordSafe {| Activity.i_kind := kind; Activity.i_title := Some (JStr title); Activity.i_body := Some (JStr body);
    Activity.i_href := JStr <$> href |} (f_event fr) (f_now fr n) (activity s)) s.

Definition not_an_object (body : option json) : bool := match body with Some j => negb (is_object j) | None => true end.
Definition member (k : string) (body : option json) : jval := j ← body; field k j.

Definition parseIntParam (v : option string) (fallback : Z) : Z := match v with None => fallback | Some s => default fallback (parseInt s) end.
Definition param (k : string) : string := default "" (v_query req !! k).

(** ** Runs *)

Definition owner_json (r : Runs.SavedRun) : json :=
  JObj [("key_id", jopt JStr (Runs.created_by_key_id r)); ("key_label", jopt JStr (Runs.created_by_key_label r))].

Definition run_item (r : Runs.SavedRun) : json :=
  let snap := Runs.snapshot (Runs.payload r) in
  JObj [("id", JStr (Runs.id r)); ("label", JStr (Runs.label r)); ("ticker", JStr (Runs.ticker r)); ("lookback_days", JNum (Runs.lookback_days r));
        ("created_at", jiso (Runs.created_at r)); ("bars", JNum (int (Runs.bars r))); ("regime", jopt (fun x => JStr (Runs.s_label x)) snap);
        ("confidence", jopt (fun x => JNum (Runs.confidence x)) snap); ("pinned", JBool (Runs.is_pinned r));
        ("share_url", JStr ("/r/" +:+ Runs.id r)); ("owner", owner_json r)].

Definition runs_query : Runs.QueryOpts :=
  let pin := v_query req !! "pinned" in
  {| Runs.q := Some (param "q"); Runs.o_regime := Some (param "regime"); Runs.o_ticker := Some (param "ticker"); Runs.o_tag := None;
     Runs.o_pinned := bool_decide (pin = Some "1") || bool_decide (pin = Some "true"); Runs.since := None; Runs.until := None;
     Runs.minConfidence := None; Runs.maxConfidence := None; Runs.minBars := None; Runs.maxBars := None;
     Runs.limit := Some (Z.min (parseIntParam (v_query req !! "limit") 25) 200); Runs.offset := Some (Z.max (parseIntParam (v_query req !! "offset") 0) 0);
     Runs.sort := None; Runs.ownerFilter := Some (RunAcl.ownerFilterForKey key) |}.

Definition runs_GET : handler := fun s =>
  let out := Runs.queryRuns localeCompare other_dates runs_query (runs s) in
  done_ 200 (JObj [("runs", JArr (run_item <$> Runs.page out)); ("total", JNum (int (Runs.total out))); ("limit", JNum (int (Runs.r_limit out)));
    ("offset", JNum (int (Runs.r_offset out))); ("has_more", JBool (Runs.r_offset out + len (Runs.page out) <? Runs.total out))]) s.

Definition snapshot_json (x : Runs.Snapshot) : json :=
  JObj [("label", JStr (Runs.s_label x)); ("realized_vol", JNum (Runs.realized_vol x)); ("trend_slope", JNum (Runs.trend_slope x));
        ("drawdown", JNum (Runs.drawdown x)); ("confidence", JNum (Runs.confidence x)); ("risk_scale", JNum (Runs.risk_scale x));
        ("as_of", JStr (Runs.as_of x))].

Definition lookback_of (v : jval) (bars : Z) : num :=
  match v with Some (JNum n) => if num_le (int 1) n && num_le n (int 10000) then num_floor n else int bars | _ => int bars end.

Definition safe_label (v : jval) (fallback : string) : string :=
  match v with Some (JStr l) => if 0 <? str_len (trim l) then str_take 80 (trim l) else fallback | _ => fallback end.

(** The run to be saved. *)
Definition run_input (body : option json) (p : Runs.Payload) : Runs.RunInput :=
  let lb := lookback_of (member "lookback_days" body) (len (Runs.dates p)) in
  {| Runs.in_label := safe_label (member "label" body) (Runs.p_ticker p +:+ middot +:+ num_text double_text lb +:+ "d" +:+ middot +:+ "api");
     Runs.in_ticker := Runs.p_ticker p; Runs.in_lookback_days := lb;
     Runs.in_tags := Some (JArr (JStr <$> Runs.normalizeTags (member "tags" body))); Runs.in_notes := None;
     Runs.in_key_id := Some (KeyStore.id key); Runs.in_key_label := Some (KeyStore.label key); Runs.in_payload := p |}.

Definition classify_code (e : Regime.ClassifyError) : string :=
  match e with
  | Regime.bad_ticker => "bad_ticker" | Regime.series_too_short => "series_too_short" | Regime.series_too_long => "series_too_long"
  | Regime.bad_close => "bad_close" | Regime.bad_dates => "bad_dates"
  end.

Definition entered (r : Runs.SavedRun) : list Webhooks.PickEvent :=
  match Runs.snapshot (Runs.payload r) with
  | Some x => [{| Webhooks.kind := "entered"; Webhooks.ticker := Runs.ticker r; Webhooks.as_of := Runs.as_of x;
                  Webhooks.new_label := Some (Runs.s_label x); Webhooks.prior_label := None; Webhooks.score_delta := None |}]
  | None => []
  end.

Definition run_created (r : Runs.SavedRun) : json :=
  JObj [("id", JStr (Runs.id r)); ("label", JStr (Runs.label r)); ("ticker", JStr (Runs.ticker r)); ("created_at", jiso (Runs.created_at r));
        ("lookback_days", JNum (Runs.lookback_days r)); ("bars", JNum (int (Runs.bars r)));
        ("snapshot", jopt snapshot_json (Runs.snapshot (Runs.payload r))); ("tags", JArr (JStr <$> default [] (Runs.tags r)));
        ("share_url", JStr ("/r/" +:+ Runs.id r)); ("owner", owner_json r)].

Definition runs_POST (body : option json) : handler := fun s =>
  if not_an_object body then fail 400 "bad_body" s else
  match Regime.classifyRegime (member "ticker" body) (member "close" body) (member "dates" body) (f_now fr 0%nat) with
  | Regime.Throws => (None, s)
  | Regime.Rejected e => fail 400 (classify_code e) s
  | Regime.Classified_ok p =>
      let input := run_input body p in
      if isDryRun req body then
        would (effect_ "create" "run" JNull (JObj [("label", JStr (Runs.in_label input)); ("ticker", JStr (Runs.in_ticker input));
          ("lookback_days", JNum (Runs.in_lookback_days input)); ("bars", JNum (int (len (Runs.dates p))));
          ("snapshot", jopt snapshot_json (Runs.snapshot p)); ("tags", JArr (JStr <$> Runs.normalizeTags (member "tags" body)))])) s
      else
        let '(r, f) := Runs.createRun input (f_id fr) (f_now fr 1%nat) (runs s) in
        let s := recordSafe "run.saved" ("API run" +:+ middot +:+ Runs.ticker r)
                   (Runs.label r +:+ middot +:+ default "unknown regime" (Runs.s_label <$> Runs.snapshot p)) (Some ("/r/" +:+ Runs.id r)) 2 (with_runs f s) in
        done_ 201 (run_created r) (with_dispatched (dispatched s ++ entered r) s)
  end.

Definition owner_key (d : RunAcl.RunAclDecision) : json := match d with RunAcl.NotOwner w => JStr w | RunAcl.Allowed _ => JNull end.

(** [forbidden:not_owner]. *)
Definition not_owner (status : Z) (i : string) (d : RunAcl.RunAclDecision) (s : stores) : stores :=
  with_line (line req route (Some key) status (Some "forbidden:not_owner") (Some (JObj [("run_id", JStr i); ("owner_key_id", owner_key d)]))) s.

Definition payload_json (p : Runs.Payload) : json :=
  JObj [("ticker", JStr (Runs.p_ticker p)); ("dates", JArr (JStr <$> Runs.dates p)); ("close", JArr (JNum <$> Runs.close p));
        ("regime", JArr (jopt JStr <$> Runs.regime p)); ("counts", JObj ((fun c => (c.1, JNum c.2)) <$> Runs.counts p));
        ("snapshot", jopt snapshot_json (Runs.snapshot p)); ("disclaimer", JStr (Runs.disclaimer p))].

Definition run_full (r : Runs.SavedRun) : json :=
  JObj [("id", JStr (Runs.id r)); ("label", JStr (Runs.label r)); ("ticker", JStr (Runs.ticker r)); ("lookback_days", JNum (Runs.lookback_days r));
        ("created_at", jiso (Runs.created_at r)); ("payload", payload_json (Runs.payload r)); ("share_url", JStr ("/r/" +:+ Runs.id r));
        ("owner", owner_json r)].

Definition run_GET (i : string) : handler := fun s =>
  match Runs.getRun i (runs s) with
  | None => fail 404 "not_found" s
  | Some r => let d := RunAcl.decideRunRead r key in
              if negb (RunAcl.allowed d) then fail 404 "not_found" (not_owner 404 i d s) else done_ 200 (run_full r) s
  end.

Definition run_DELETE (i : string) : handler := fun s =>
  match Runs.getRun i (runs s) with
  | None => fail 404 "not_found" s
  | Some r =>
      let d := RunAcl.decideRunRead r key in
      if negb (RunAcl.allowed d) then fail 404 "not_found" (not_owner 404 i d s) else
      let d := RunAcl.decideRunMutation r key in
      if negb (RunAcl.allowed d) then fail 403 "forbidden" (not_owner 403 i d s) else
      if isDryRun req None then would (effect_ "delete" "run" (JStr i) (JObj [("label", JStr (Runs.label r)); ("ticker", JStr (Runs.ticker r))])) s else
      let '(ok, f) := Runs.deleteRun i (runs s) in
      let s := with_runs f s in
      if negb ok then fail 500 "delete_failed" s
      else done_ 200 (JObj [("id", JStr i); ("deleted", JBool true)])
             (recordSafe "run.deleted" ("API run deleted" +:+ middot +:+ Runs.ticker r) (Runs.label r) (Some "/history") 0 s)
  end.

(** ** Alerts *)

Definition condition_name (c : Alerts.Condition) : string :=
  match c with
  | Alerts.price_above => "price_above" | Alerts.price_below => "price_below"
  | Alerts.pct_change_above => "pct_change_above" | Alerts.pct_change_below => "pct_change_below"
  end.

Definition alert_json (a : Alerts.Alert) : json :=
  JObj [("id", JStr (Alerts.id a)); ("ticker", JStr (Alerts.ticker a)); ("condition", JStr (condition_name (Alerts.condition a)));
        ("value", JNum (Alerts.value a)); ("note", JStr (Alerts.note a)); ("cooldown_hours", JNum (Alerts.cooldown_hours a));
        ("enabled", JBool (Alerts.enabled a)); ("last_fired_at", jopt (fun t => JStr (toISOString t)) (Alerts.last_fired_at a));
        ("created_at", JStr (toISOString (Alerts.created_at a)))].

Definition alerts_GET : handler := fun s =>
  let l := Alerts.listAlerts (Some (KeyStore.id key)) (alerts s) in
  done_ 200 (JObj [("alerts", JArr (alert_json <$> l)); ("total", JNum (int (len l))); ("limit", JNum (int Alerts.MAX_ALERTS))]) s.

Definition alert_input (body : option json) : Alerts.AlertInput :=
  {| Alerts.in_ticker := member "ticker" body; Alerts.in_condition := member "condition" body; Alerts.in_value := member "value" body;
     Alerts.in_note := member "note" body; Alerts.in_cooldown_hours := member "cooldown_hours" body; Alerts.in_enabled := member "enabled" body |}.

Definition alert_code (e : Alerts.ValidationError) : Z * string :=
  match e with
  | Alerts.bad_ticker => (400, "bad_ticker") | Alerts.bad_condition => (400, "bad_condition") | Alerts.bad_value => (400, "bad_value")
  | Alerts.bad_cooldown => (400, "bad_cooldown") | Alerts.limit_reached => (409, "limit_reached")
  | Alerts.alert_not_found => (404, "not_found") | Alerts.no_fields => (400, "no_fields")
  end.
Definition alert_fail (e : Alerts.ValidationError) : handler := fail (alert_code e).1 (alert_code e).2.

Definition data_json (d : Alerts.AlertData) : json :=
  JObj [("ticker", JStr (Alerts.d_ticker d)); ("condition", JStr (condition_name (Alerts.d_condition d))); ("value", JNum (Alerts.d_value d));
        ("note", JStr (Alerts.d_note d)); ("cooldown_hours", JNum (Alerts.d_cooldown d)); ("enabled", JBool (Alerts.d_enabled d))].

Definition alerts_POST (body : option json) : handler := fun s =>
  if not_an_object body then fail 400 "bad_body" s else
  if isDryRun req body then
    match Alerts.validateInput parseFloat_of Number_of (alert_input body) with
    | Err e => alert_fail e s
    | Ok d => would (effect_ "create" "alert" JNull (data_json d)) s
    end
  else
    let '(r, f) := Alerts.createAlert parseFloat_of Number_of (alert_input body) (Some (KeyStore.id key)) (f_id fr) (f_now fr 0%nat) (alerts s) in
    let s := with_alerts f s in
    match r with
    | Err e => alert_fail e s
    | Ok a =>
        done_ 201 (JObj [("alert", alert_json a)])
          (recordSafe "system" ("Alert" +:+ middot +:+ "armed " +:+ Alerts.ticker a +:+ " (api)")
             (condition_name (Alerts.condition a) +:+ " " +:+ num_text double_text (Alerts.value a)) (Some "/alerts") 1 s)
    end.

Definition alert_DELETE (i : string) : handler := fun s =>
  if negb (truthy i) then fail 400 "bad_id" s else
  if isDryRun req None then
    match list_find (fun a => Alerts.id a = i) (Alerts.listAlerts (Some (KeyStore.id key)) (alerts s)) with
    | None => fail 404 "not_found" s
    | Some (_, a) => would (effect_ "delete" "alert" (JStr i) (JObj [("ticker", JStr (Alerts.ticker a));
                       ("condition", JStr (condition_name (Alerts.condition a))); ("value", JNum (Alerts.value a))])) s
    end
  else
    let '(ok, f) := Alerts.deleteAlert i (Some (KeyStore.id key)) (alerts s) in
    let s := with_alerts f s in
    if negb ok then fail 404 "not_found" s else done_ 200 (JObj [("ok", JBool true); ("id", JStr i)]) s.

(** The prices of a check: [None] when none are given. *)
Fixpoint prices_from (fs : list (string * json)) (ps : list (string * num)) : option (list (string * num)) :=
  match fs with
  | [] => Some ps
  | (k, v) :: r =>
      let n := match v with JNum n => n | _ => Number_of v end in
      if negb (is_finite n) || num_le n (int 0) then None else prices_from r (put (to_upper k) n ps)
  end.

Inductive PricesError := bad_prices | bad_price.

Definition prices_of (v : jval) : result (list (string * num)) PricesError :=
  match v with
  | None | Some JNull => Ok []
  | Some (JObj fs) => match prices_from fs [] with Some ps => Ok ps | None => Err bad_price end
  | Some _ => Err bad_prices
  end.

Definition event_json (e : Alerts.AlertEvent) : json :=
  JObj [("alert_id", JStr (Alerts.alert_id e)); ("ticker", JStr (Alerts.e_ticker e)); ("condition", JStr (condition_name (Alerts.e_condition e)));
        ("value", JNum (Alerts.e_value e)); ("observed", JNum (Alerts.observed e)); ("fired_at", JStr (toISOString (Alerts.fired_at e)));
        ("note", JStr (Alerts.e_note e))].

Definition check_json (r : Alerts.CheckResult) : list (string * json) :=
  [("hits", JArr (event_json <$> Alerts.hits r)); ("checked", JNum (int (Alerts.checked r)));
   ("quotes", JObj ((fun q => (q.1, JObj [("last", JNum (Alerts.last q.2)); ("prev", JNum (Alerts.prev q.2))])) <$> Alerts.r_quotes r))].

Definition check_POST (body : option json) : handler := fun s =>
  match prices_of (member "prices" body) with
  | Err bad_prices => fail 400 "bad_prices" s
  | Err bad_price => fail 400 "bad_price" s
  | Ok prices =>
      let dry := isDryRun req body in
      let '(r, f) := Alerts.runCheck sha256 prices dry (Some (KeyStore.id key)) (f_now fr) (alerts s) in
      let s := with_alerts f s in
      if dry then preview_only (JObj [("hit_count", JNum (int (len (Alerts.hits r))))]) (effect_ "evaluate" "alert_check" JNull (JObj (check_json r))) s
      else done_ 200 (JObj (check_json r)) s
  end.

(** ** Watchlist *)

Definition cross_json (c : Watchlist.Cross) : json :=
  JObj [("side", JStr (match Watchlist.side c with Watchlist.above_high => "above_high" | Watchlist.below_low => "below_low" end));
        ("price", JNum (Watchlist.price c)); ("at", JStr (toISOString (Watchlist.at_ c)))].

Definition entry_json (e : Watchlist.WatchlistEntry) : json :=
  JObj [("ticker", JStr (Watchlist.ticker e)); ("added_at", JStr (toISOString (Watchlist.added_at e))); ("note", jopt JStr (Watchlist.note e));
        ("target_high", jopt JNum (Watchlist.target_high e)); ("target_low", jopt JNum (Watchlist.target_low e));
        ("last_cross", jopt cross_json (Watchlist.last_cross e))].

Definition watchlist_GET : handler := fun s =>
  let l := Watchlist.listWatchlist (watchlist s) in
  done_ 200 (JObj [("entries", JArr (entry_json <$> l)); ("tickers", JArr ((fun e => JStr (Watchlist.ticker e)) <$> l));
    ("total", JNum (int (len l))); ("limit", JNum (int Watchlist.MAX_TICKERS))]) s.

Definition watchlist_POST (body : option json) : handler := fun s =>
  if not_an_object body then fail 400 "bad_body" s else
  match Ticker.normalizeTicker (member "ticker" body) with
  | None => fail 400 "bad_ticker" s
  | Some t =>
      let note := Watchlist.normalizeNote (member "note" body) in
      if isDryRun req body then would (effect_ "create" "watchlist_entry" (JStr t) (JObj [("ticker", JStr t); ("note", jopt JStr note)])) s else
      let '(r, f) := Watchlist.addTicker t note (f_now fr 0%nat) (watchlist s) in
      let s := with_watchlist f s in
      match r with
      | Ok e => done_ 201 (JObj [("entry", entry_json e)])
                  (recordSafe "system" ("Watchlist" +:+ middot +:+ "added " +:+ Watchlist.ticker e +:+ " (api)")
                     (default "tracked by daily pipeline" (Watchlist.note e)) (Some ("/ticker/" +:+ Watchlist.ticker e)) 1 s)
      | Err Watchlist.limit_reached => fail 409 "limit_reached" s
      | Err _ => fail 400 "bad_request" s
      end
  end.

Definition tracked (t : string) (s : stores) : option Watchlist.WatchlistEntry :=
  snd <$> list_find (fun e => Watchlist.ticker e = t) (Watchlist.listWatchlist (watchlist s)).

Definition ticker_PATCH (tick : string) (body : option json) : handler := fun s =>
  match Ticker.normalizeTicker (Some (JStr tick)) with
  | None => fail 400 "bad_ticker" s
  | Some t =>
      if not_an_object body then fail 400 "bad_body" s else
      let note := Watchlist.normalizeNote (member "note" body) in
      if isDryRun req body then
        match tracked t s with
        | None => fail 404 "not_found" s
        | Some e => would (effect_ "update" "watchlist_entry" (JStr t) (JObj [("ticker", JStr t);
            ("before", JObj [("note", jopt JStr (Watchlist.note e))]); ("after", JObj [("note", jopt JStr note)])])) s
        end
      else
        let '(r, f) := Watchlist.updateNote t note (watchlist s) in
        let s := with_watchlist f s in
        match r with None => fail 404 "not_found" s | Some e => done_ 200 (JObj [("entry", entry_json e)]) s end
  end.

Definition ticker_DELETE (tick : string) : handler := fun s =>
  match Ticker.normalizeTicker (Some (JStr tick)) with
  | None => fail 400 "bad_ticker" s
  | Some t =>
      if isDryRun req None then
        match tracked t s with
        | None => fail 404 "not_found" s
        | Some e => would (effect_ "delete" "watchlist_entry" (JStr t) (JObj [("ticker", JStr t); ("note", jopt JStr (Watchlist.note e))])) s
        end
      else
        let '(ok, f) := Watchlist.removeTicker t (watchlist s) in
        let s := with_watchlist f s in
        if negb ok then fail 404 "not_found" s
        else done_ 200 (JObj [("ok", JBool true); ("ticker", JStr t)])
               (recordSafe "system" ("Watchlist" +:+ middot +:+ "removed " +:+ t +:+ " (api)") "no longer tracked" None 0 s)
  end.

Definition whoami_GET : handler := fun s =>
  done_ 200 (JObj [("id", JStr (KeyStore.id key)); ("label", JStr (KeyStore.label key)); ("prefix", JStr (KeyStore.prefix key));
    ("scopes", JArr ((fun x => JStr (scope_name x)) <$> KeyStore.scopes key)); ("created_at", jiso (KeyStore.created_at key));
    ("last_used_at", jopt jiso (KeyStore.last_used_at key)); ("server_time", JStr (toISOString (f_now fr 0%nat)))]) s.
End Request.

(** ** The routes *)

(** The calls of the API, with the parameters of their paths. *)
Inductive call :=
| ListRuns | CreateRun | ReadRun (i : string) | DeleteRun (i : string)
| ListAlerts | CreateAlert | DeleteAlert (i : string) | CheckAlerts
| ListWatchlist | AddTicker | PatchTicker (t : string) | RemoveTicker (t : string)
| Whoami.

Definition reads (c : call) : bool := match c with ListRuns | ReadRun _ | ListAlerts | ListWatchlist | Whoami => true | _ => false end.

Definition need_of (c : call) : need := match c with Whoami => NoScope | _ => if reads c then NeedRead else NeedTrade end.

Definition route_of (c : call) : string :=
  match c with
  | ListRuns | CreateRun => "/api/v1/runs" | ReadRun _ | DeleteRun _ => "/api/v1/runs/[id]"
  | ListAlerts | CreateAlert => "/api/v1/alerts" | DeleteAlert _ => "/api/v1/alerts/[id]" | CheckAlerts => "/api/v1/alerts/check"
  | ListWatchlist | AddTicker => "/api/v1/watchlist" | PatchTicker _ | RemoveTicker _ => "/api/v1/watchlist/[ticker]"
  | Whoami => "/api/v1/whoami"
  end.

Definition handle (c : call) (req : v1_request) (fr : fresh) (key : StoredKey) (body : option json) : handler :=
  match c with
  | ListRuns => runs_GET req key
  | CreateRun => runs_POST req fr (route_of c) key body
  | ReadRun i => run_GET req (route_of c) key i
  | DeleteRun i => run_DELETE req fr (route_of c) key i
  | ListAlerts => alerts_GET key
  | CreateAlert => alerts_POST req fr (route_of c) key body
  | DeleteAlert i => alert_DELETE req (route_of c) key i
  | CheckAlerts => check_POST req fr (route_of c) key body
  | ListWatchlist => watchlist_GET
  | AddTicker => watchlist_POST req fr (route_of c) key body
  | PatchTicker t => ticker_PATCH req (route_of c) key t body
  | RemoveTicker t => ticker_DELETE req fr (route_of c) key t
  | Whoami => whoami_GET fr key
  end.

Section Serve.
Context {L : Type} `{Lockout L} (env : environment) (adminEnv : option string) (key_hash : string -> string) (json_parse : string -> option json).

(** The request as the route serves it. *)
Definition serve (c : call) (cl : clocks) (req : v1_request) (fr : fresh) : api L env stores -> outcome * api L env stores :=
  if reads c then read_route env adminEnv key_hash (need_of c) true cl req (route_of c) (fun key => handle c req fr key None)
  else write_route env adminEnv key_hash json_parse (need_of c) cl req (route_of c) (handle c req fr).
End Serve.

(** ** What a handler may change *)

(** Everything but the audit lines. *)
Definition data (s : stores) := (runs s, alerts s, watchlist s, activity s, dispatched s).

Definition succeeded (o : option response) : Prop := exists r, o = Some r /\ 200 <= r_status r < 300.

(** The body [isDryRun] is given: the handlers of DELETE pass none. *)
Definition seen_body (c : call) (body : option json) : option json :=
  match c with DeleteRun _ | DeleteAlert _ | RemoveTicker _ => None | _ => body end.

Lemma on_file_none {S} `{Persisted S} {R} (tx : transaction S R) (f : file S) : snd (tx (read_file f)) = None -> on_file tx f = (fst (tx (read_file f)), f).
Proof. unfold on_file. destruct (tx (read_file f)) as [r [w|]]; [done|by intros _]. Qed.

Definition on_alerts (c : call) : bool := match c with CreateAlert | DeleteAlert _ | CheckAlerts => true | _ => false end.
Definition on_watchlist (c : call) : bool := match c with AddTicker | PatchTicker _ | RemoveTicker _ => true | _ => false end.
Definition creates_run (c : call) : bool := match c with CreateRun => true | _ => false end.
Definition same_unless {A} (b : bool) (x y : A) : Prop := if b then True else x = y.

(** What a call of [key] does to the runs: the create call adds one run, owned by
    the key, and drops none unless the store is full; the delete call takes away
    one run, the named one, which belongs to no other key. *)
Definition runs_after (c : call) (key : StoredKey) (l l' : list Runs.SavedRun) : Prop :=
  match c with
  | CreateRun => exists r, Runs.created_by_key_id r = Some (KeyStore.id key) /\ Forall (fun x => x ∈ l \/ x = r) l' /\
      (len l < Runs.MAX_RUNS -> l' = l ++ [r])
  | DeleteRun i => exists r before after, Runs.id r = i /\ ~ RunAcl.foreign key r /\ l = before ++ r :: after /\ l' = before ++ after
  | _ => l' = l
  end.

(** The call stays in its own store, the alerts in the bucket of the key. *)
Record spares (c : call) (key : StoredKey) (s s' : stores) : Prop := {
  sp_runs : runs_after c key (read_file (runs s)) (read_file (runs s'));
  sp_tenants o : o <> Alerts.normalizeOwnerId (Some (KeyStore.id key)) -> assoc o (read_file (alerts s')) = assoc o (read_file (alerts s));
  sp_alerts : same_unless (on_alerts c) (alerts s') (alerts s);
  sp_watchlist : same_unless (on_watchlist c) (watchlist s') (watchlist s);
  sp_dispatched : same_unless (creates_run c) (dispatched s') (dispatched s);
}.

Lemma spares_watchlist c key s s' : on_watchlist c = true -> runs s' = runs s -> alerts s' = alerts s -> dispatched s' = dispatched s -> spares c key s s'.
Proof. intros Hc Hr Ha Hd. destruct c; try done; by split; intros; cbn; rewrite ?Hr, ?Ha. Qed.

Lemma spares_tenants c key s s' e : on_alerts c = true -> runs s' = runs s -> watchlist s' = watchlist s -> dispatched s' = dispatched s ->
  read_file (alerts s') = Alerts.run parseFloat_of Number_of sha256 e (read_file (alerts s)) ->
  Alerts.owner_of e = Alerts.normalizeOwnerId (Some (KeyStore.id key)) -> spares c key s s'.
Proof using All.
  intros Hc Hr Hw Hd Ha He. destruct c; try done; (split; [cbn; by rewrite ?Hr| |done..]); intros; rewrite Ha; apply Alerts.run_other; by rewrite He.
Qed.

(** What is left of a handler: nothing changed, or a success that was no dry
    run, and spared the others. *)
Definition contract (c : call) (req : v1_request) (key : StoredKey) (body : option json) (s : stores) (r : option response * stores) : Prop :=
  data r.2 = data s \/ succeeded r.1 /\ reads c = false /\ isDryRun req (seen_body c body) = false /\ spares c key s r.2.

Lemma answered status j s : 200 <= status < 300 -> succeeded (fst (done_ status j s)).
Proof. intros Hs. by eexists. Qed.

Lemma runs_POST_contract req fr key body s : contract CreateRun req key body s (runs_POST req fr "/api/v1/runs" key body s).
Proof.
  unfold runs_POST. destruct (not_an_object body); [by left|]. destruct (Regime.classifyRegime _ _ _ _) as [p|e|]; [|by left|by left]. cbv zeta.
  destruct (isDryRun req body) eqn:Ed; [by left|]. unfold Runs.createRun, on_file, Runs.create_tx. cbn iota beta zeta.
  set (input := run_input key body p). set (run := Runs.new_run input (f_id fr) (f_now fr 1%nat)). set (l := read_file (runs s)).
  right. split; [by apply answered|]. split_and!; [done|done|]. destruct (Runs.bound_size_perm (l ++ [run])) as (d & Hp & _ & Hb).
  assert (Runs.ensureTags <$> l = l) as Hl by apply Runs.read_complete.
  split; cbn [done_ snd runs alerts watchlist with_dispatched recordSafe with_activity with_runs on_alerts on_watchlist same_unless creates_run]; [|done..].
  exists (Runs.ensureTags run). split_and!; [done|apply Forall_forall; intros r (r0 & -> & Hr)%list_elem_of_fmap|intros Hlt].
  - assert (r0 ∈ l ++ [run]) as [Hr0|Hr0]%elem_of_app by (rewrite Hp; apply elem_of_app; by left).
    + left. fold l. rewrite <- Hl. by apply list_elem_of_fmap_2.
    + right. by apply list_elem_of_singleton in Hr0 as ->.
  - change (Runs.ensureTags <$> Runs.bound_size (l ++ [run]) = l ++ [Runs.ensureTags run]).
    destruct Hb as [-> _]; [rewrite len_app; change (len [run]) with 1; fold l in Hlt; lia|]. by rewrite fmap_app, Hl.
Qed.

Lemma filter_one_key (r : Runs.SavedRun) before after : NoDup (Runs.id <$> before ++ r :: after) ->
  filter (fun x => Runs.id x <> Runs.id r) (before ++ r :: after) = before ++ after.
Proof.
  rewrite fmap_app, fmap_cons. intros (_ & Hb & [Ha _]%NoDup_cons)%NoDup_app. rewrite filter_app, filter_cons_False by tauto.
  f_equal; apply filter_all, Forall_forall; intros x Hx Hid.
  - apply (Hb (Runs.id x)); [by apply list_elem_of_fmap_2|]. rewrite Hid. by left.
  - apply Ha. rewrite <- Hid. by apply list_elem_of_fmap_2.
Qed.

Lemma run_DELETE_contract req fr key i s : NoDup (Runs.id <$> read_file (runs s)) ->
  contract (DeleteRun i) req key None s (run_DELETE req fr "/api/v1/runs/[id]" key i s).
Proof.
  intros Hnd. unfold run_DELETE. destruct (Runs.getRun i (runs s)) as [r|] eqn:Eg; [|by left]. cbv zeta.
  unfold RunAcl.decideRunMutation, RunAcl.decideRunRead. destruct (RunAcl.allowed _) eqn:Ea; [|by left]. cbn [negb].
  destruct (isDryRun req None) eqn:Ed; [by left|]. pose proof (RunAcl.read_file_delete i (runs s)) as Hv.
  destruct (Runs.deleteRun i (runs s)) as [ok f] eqn:E. cbn [snd] in Hv.
  destruct ok; cbn [negb].
  - right. split; [by apply answered|]. split_and!; [done|done|]. apply RunAcl.getRun_elem in Eg as [Hr <-].
    split; cbn [done_ snd runs alerts watchlist dispatched recordSafe with_activity with_runs on_alerts on_watchlist creates_run same_unless]; [|done..].
    apply list_elem_of_split in Hr as (before & after & El). exists r, before, after. split_and!; [done| |done|].
    + intros Hf%RunAcl.decide_run_spec. by rewrite Ea in Hf.
    + rewrite Hv, El. by apply filter_one_key; rewrite <- El.
  - left. unfold Runs.deleteRun, on_file, Runs.delete_tx in E. destruct (_ =? _); [|done]. injection E as <-. done.
Qed.

Lemma alerts_POST_contract req fr key body s : contract CreateAlert req key body s (alerts_POST req fr "/api/v1/alerts" key body s).
Proof using All.
  unfold alerts_POST. destruct (not_an_object body); [by left|]. destruct (isDryRun req body) eqn:Ed; [by destruct (Alerts.validateInput _ _ _); left|].
  set (input := alert_input body). set (o := Some (KeyStore.id key)). unfold Alerts.createAlert. set (tx := Alerts.create_tx _ _ _ _ _ _).
  pose proof (on_file_view tx (alerts s) ltac:(done)) as Hv. pose proof (on_file_result tx (alerts s)) as Hr.
  destruct (on_file tx (alerts s)) as [[a|e] f] eqn:E; cbn [fst snd] in *.
  - right. split; [by apply answered|]. split_and!; [done|done|]. by apply (spares_tenants _ _ _ _ (Alerts.Create input o (f_id fr) (f_now fr 0%nat))).
  - left. rewrite on_file_none in E by (unfold tx, Alerts.create_tx in *; destruct (Alerts.validateInput _ _ _); [|done]; cbv zeta in *; by destruct (_ >=? _)).
    by injection E as _ <-.
Qed.

Lemma alert_DELETE_contract req key i s : contract (DeleteAlert i) req key None s (alert_DELETE req "/api/v1/alerts/[id]" key i s).
Proof using All.
  unfold alert_DELETE. destruct (truthy i); cbn [negb]; [|by left]. destruct (isDryRun req None) eqn:Ed; [destruct (list_find _ _) as [[n a]|]; by left|].
  set (o := Some (KeyStore.id key)). unfold Alerts.deleteAlert. set (tx := Alerts.delete_tx _ _).
  pose proof (on_file_view tx (alerts s) ltac:(done)) as Hv. pose proof (on_file_result tx (alerts s)) as Hr.
  destruct (on_file tx (alerts s)) as [[] f] eqn:E; cbn [fst snd negb] in *.
  - right. split; [by apply answered|]. split_and!; [done|done|]. by apply (spares_tenants _ _ _ _ (Alerts.Delete i o)).
  - left. rewrite on_file_none in E by (unfold tx, Alerts.delete_tx in *; cbv zeta in *; destruct (assoc _ _); [|done]; by destruct (_ =? _)).
    by injection E as _ <-.
Qed.

Lemma check_POST_contract req fr key body s : contract CheckAlerts req key body s (check_POST req fr "/api/v1/alerts/check" key body s).
Proof using All.
  unfold check_POST. destruct (prices_of _) as [ps|[]]; [|by left|by left]. cbv zeta. destruct (isDryRun req body) eqn:Ed.
  - left. unfold Alerts.runCheck. rewrite on_file_none; [done|]. unfold Alerts.check_tx. cbv zeta. destruct (Alerts.check_all _ _ _ _ _) as [[qs l] es].
    cbn [snd negb]. by rewrite andb_false_r.
  - unfold Alerts.runCheck. set (o := Some (KeyStore.id key)). set (tx := Alerts.check_tx _ _ _ _ _). pose proof (on_file_view tx (alerts s) ltac:(done)) as Hv.
    destruct (on_file tx (alerts s)) as [r f]. right. split; [by apply answered|]. split_and!; [done|done|].
    by apply (spares_tenants _ _ _ _ (Alerts.RunCheck ps false o (f_now fr))).
Qed.

Lemma watchlist_contract c req fr key body s : match c with AddTicker | PatchTicker _ | RemoveTicker _ => True | _ => False end ->
  contract c req key body s (handle c req fr key body s).
Proof.
  destruct c as [| | | | | | | | | |tick|tick|]; intros []; cbn [handle].
  - unfold watchlist_POST. destruct (not_an_object body); [by left|]. destruct (Ticker.normalizeTicker _) as [t|]; [|by left]. cbv zeta.
    destruct (isDryRun req body) eqn:Ed; [by left|]. unfold Watchlist.addTicker. set (tx := Watchlist.add_tx _ _ _).
    destruct (on_file tx (watchlist s)) as [[e|e] f] eqn:E.
    + right. split; [by apply answered|]. split_and!; [done|done|]. by apply spares_watchlist.
    + left. pose proof (on_file_result tx (watchlist s)) as Hr. rewrite E in Hr. cbn [fst] in Hr. rewrite on_file_none in E.
      * injection E as _ <-. by destruct e.
      * unfold tx, Watchlist.add_tx in *. destruct (Ticker.normalizeTicker _); [|done]. destruct (_ >=? _); [done|]. by destruct (Watchlist.find_entry _ _) as [[]|].
  - unfold ticker_PATCH. destruct (Ticker.normalizeTicker _) as [t|]; [|by left]. destruct (not_an_object body); [by left|]. cbv zeta.
    destruct (isDryRun req body) eqn:Ed; [by destruct (tracked t s); left|]. unfold Watchlist.updateNote. set (tx := Watchlist.on_entry _ _).
    destruct (on_file tx (watchlist s)) as [[e|] f] eqn:E.
    + right. split; [by apply answered|]. split_and!; [done|done|]. by apply spares_watchlist.
    + left. pose proof (on_file_result tx (watchlist s)) as Hr. rewrite E in Hr. cbn [fst] in Hr. rewrite on_file_none in E; [by injection E as _ <-|].
      unfold tx, Watchlist.on_entry in *. destruct (Ticker.normalizeTicker _); [|done]. by destruct (Watchlist.find_entry _ _) as [[]|].
  - unfold ticker_DELETE. destruct (Ticker.normalizeTicker _) as [t|]; [|by left].
    destruct (isDryRun req None) eqn:Ed; [by destruct (tracked t s); left|]. unfold Watchlist.removeTicker. set (tx := Watchlist.remove_tx _).
    destruct (on_file tx (watchlist s)) as [[] f] eqn:E; cbn [negb].
    + right. split; [by apply answered|]. split_and!; [done|done|]. by apply spares_watchlist.
    + left. pose proof (on_file_result tx (watchlist s)) as Hr. rewrite E in Hr. cbn [fst] in Hr. rewrite on_file_none in E; [by injection E as _ <-|].
      unfold tx, Watchlist.remove_tx in *. destruct (Ticker.normalizeTicker _); [|done]. cbv zeta in *. by destruct (_ =? _).
Qed.

Lemma handle_contract c req fr key body s : NoDup (Runs.id <$> read_file (runs s)) -> contract c req key body s (handle c req fr key body s).
Proof using All.
  intros Hnd. destruct c; try (by apply watchlist_contract); cbn [handle route_of].
  - by left.
  - apply runs_POST_contract.
  - left. unfold run_GET. destruct (Runs.getRun i (runs s)) as [r|]; [|done]. cbv zeta. by destruct (negb _).
  - destruct (run_DELETE_contract req fr key i s Hnd) as [H1|H1]; [by left|by right].
  - by left.
  - apply alerts_POST_contract.
  - destruct (alert_DELETE_contract req key i s) as [H1|H1]; [by left|by right].
  - apply check_POST_contract.
  - by left.
  - by left.
Qed.

(** ** The runs of other keys *)

Lemma filter_swap {A} (P Q : A -> Prop) `{!forall x, Decision (P x), !forall x, Decision (Q x)} (l : list A) : filter P (filter Q l) = filter Q (filter P l).
Proof. rewrite !list_filter_filter. apply list_filter_iff. tauto. Qed.

(** What a key may see of the runs, and the run of an id among it. *)
Definition visible (key : StoredKey) (s : stores) : list Runs.SavedRun := filter (fun r => ~ RunAcl.foreign key r) (read_file (runs s)).
Definition in_sight (key : StoredKey) (i : string) (s : stores) : option Runs.SavedRun :=
  snd <$> list_find (fun r => Runs.id r = i) (visible key s).

Lemma in_sight_spec key i s : NoDup (Runs.id <$> read_file (runs s)) ->
  in_sight key i s = match Runs.getRun i (runs s) with Some r => if RunAcl.allowed (RunAcl.decide_run r key) then Some r else None | None => None end.
Proof.
  intros Hnd. unfold in_sight, visible. rewrite RunAcl.getRun_visible by done. destruct (Runs.getRun i (runs s)) as [r|]; [|done].
  destruct (decide _) as [Hf|Hf].
  - by apply RunAcl.decide_run_spec in Hf as ->.
  - destruct (RunAcl.allowed _) eqn:E; [done|]. by apply RunAcl.decide_run_spec in E.
Qed.

Lemma runs_GET_sight req key s1 s2 : visible key s1 = visible key s2 -> fst (runs_GET req key s1) = fst (runs_GET req key s2).
Proof.
  intros Hv. unfold runs_GET, done_. cbn [fst]. assert (Runs.queryRuns localeCompare other_dates (runs_query req key) (runs s1) =
    Runs.queryRuns localeCompare other_dates (runs_query req key) (runs s2)) as ->; [|done].
  unfold Runs.queryRuns. rewrite <- (RunAcl.matching_visible other_dates key _ (read_file (runs s1))), <- (RunAcl.matching_visible other_dates key _ (read_file (runs s2))) by done.
  unfold visible in Hv. by rewrite Hv.
Qed.

Lemma run_GET_sight req route key i s : NoDup (Runs.id <$> read_file (runs s)) ->
  fst (run_GET req route key i s) = Some (match in_sight key i s with Some r => json_answer 200 (run_full r) | None => err 404 "not_found" end) /\
  runs (snd (run_GET req route key i s)) = runs s.
Proof.
  intros Hnd. rewrite in_sight_spec by done. unfold run_GET. destruct (Runs.getRun i (runs s)) as [r|]; [|done]. cbv zeta.
  unfold RunAcl.decideRunRead. by destruct (RunAcl.allowed _).
Qed.

Lemma run_DELETE_sight req fr route key i s : NoDup (Runs.id <$> read_file (runs s)) ->
  let '(o, s') := run_DELETE req fr route key i s in
  o = Some (match in_sight key i s with
            | None => err 404 "not_found"
            | Some r => if isDryRun req None
                then dryRunResponse (effect_ "delete" "run" (JStr i) (JObj [("label", JStr (Runs.label r)); ("ticker", JStr (Runs.ticker r))]))
                else json_answer 200 (JObj [("id", JStr i); ("deleted", JBool true)])
            end) /\
  read_file (runs s') = (if isDryRun req None then fun l => l else match in_sight key i s with Some _ => filter (fun r => Runs.id r <> i) | None => fun l => l end)
    (read_file (runs s)).
Proof.
  intros Hnd. rewrite in_sight_spec by done. unfold run_DELETE. destruct (Runs.getRun i (runs s)) as [r|] eqn:Eg; [|by destruct (isDryRun req None)]. cbv zeta.
  unfold RunAcl.decideRunMutation, RunAcl.decideRunRead. destruct (RunAcl.allowed _); cbn [negb]; [|by destruct (isDryRun req None)].
  destruct (isDryRun req None); [done|]. pose proof (RunAcl.read_file_delete i (runs s)) as Hv. pose proof (RunAcl.getRun_elem _ _ _ Eg) as [Hr Hi].
  destruct (Runs.deleteRun i (runs s)) as [ok f] eqn:E. cbn [snd] in Hv. destruct ok; cbn [negb]; [done|]. exfalso.
  unfold Runs.deleteRun, on_file, Runs.delete_tx in E. destruct (_ =? _) eqn:El; [|done]. apply Z.eqb_eq, filter_same_length in El.
  rewrite <- El in Hr. by apply list_elem_of_filter in Hr as [? _].
Qed.

Lemma foreign_by_id key i s r : NoDup (Runs.id <$> read_file (runs s)) -> in_sight key i s = Some r -> forall x, x ∈ read_file (runs s) -> RunAcl.foreign key x -> Runs.id x <> i.
Proof.
  intros Hnd Hr x Hx Hf Hi. unfold in_sight in Hr. destruct (list_find _ _) as [[n y]|] eqn:E; [|done]. injection Hr as ->.
  apply list_find_elem in E as [[Hnf Hy]%list_elem_of_filter Hid]. rewrite (key_inj Runs.id _ x r Hnd Hx Hy ltac:(congruence)) in Hf. done.
Qed.

Definition on_runs (c : call) : bool := match c with ListRuns | ReadRun _ | DeleteRun _ => true | _ => false end.

(** C5. The runs of other keys are out of sight and out of reach at the routes
    [v1/runs] and [v1/runs/[id]], for a key without the admin scope. Take two
    stores that hold the same runs but for those owned by other keys: listing
    runs, reading one and deleting one are answered alike in both, so no answer,
    no total and no error tells whether another key has runs. Reading or deleting
    an id is answered with a run the key may see, and otherwise with the 404 of a
    run that does not exist; deleting takes away that run alone and leaves the
    runs of other keys as they were. *)
Theorem foreign_runs_invisible c req fr key body s1 s2 : on_runs c = true ->
  NoDup (Runs.id <$> read_file (runs s1)) -> NoDup (Runs.id <$> read_file (runs s2)) -> visible key s1 = visible key s2 ->
  let '(o1, s1') := handle c req fr key body s1 in
  let '(o2, s2') := handle c req fr key body s2 in
  o1 = o2 /\ visible key s1' = visible key s2' /\
  filter (RunAcl.foreign key) (read_file (runs s1')) = filter (RunAcl.foreign key) (read_file (runs s1)) /\
  match c with
  | ReadRun i => o1 = Some (match in_sight key i s1 with Some r => json_answer 200 (run_full r) | None => err 404 "not_found" end)
  | DeleteRun i => isDryRun req None = false ->
      match in_sight key i s1 with
      | Some _ => o1 = Some (json_answer 200 (JObj [("id", JStr i); ("deleted", JBool true)])) /\ visible key s1' = filter (fun r => Runs.id r <> i) (visible key s1)
      | None => o1 = Some (err 404 "not_found") /\ read_file (runs s1') = read_file (runs s1)
      end
  | _ => True
  end.
Proof using All.
  intros Hc H1 H2 Hv. assert (forall i, in_sight key i s1 = in_sight key i s2) as Hs by (intros; unfold in_sight; by rewrite Hv).
  destruct c as [| |i|i| | | | | | | | |]; try done; cbn [handle route_of].
  - pose proof (runs_GET_sight req key s1 s2 Hv) as Ho. unfold runs_GET, done_ in *. cbn [fst] in Ho. by rewrite Ho.
  - pose proof (run_GET_sight req "/api/v1/runs/[id]" key i s1 H1) as [Ho1 Hr1]. pose proof (run_GET_sight req "/api/v1/runs/[id]" key i s2 H2) as [Ho2 Hr2].
    destruct (run_GET _ _ _ _ s1), (run_GET _ _ _ _ s2). cbn [fst snd] in *. unfold visible in *. rewrite Hr1, Hr2, Ho1, Ho2, <- Hs. done.
  - pose proof (run_DELETE_sight req fr "/api/v1/runs/[id]" key i s1 H1) as Ho1. pose proof (run_DELETE_sight req fr "/api/v1/runs/[id]" key i s2 H2) as Ho2.
    destruct (run_DELETE _ _ _ _ _ s1), (run_DELETE _ _ _ _ _ s2). destruct Ho1 as [-> Hr1], Ho2 as [-> Hr2]. rewrite <- Hs in Hr2. rewrite <- Hs.
    unfold visible in *. rewrite Hr1, Hr2. pose proof (foreign_by_id key i s1) as Hf. destruct (isDryRun req None); [done|].
    destruct (in_sight key i s1) as [r|]; [|done]. rewrite !(filter_swap (fun r => ~ RunAcl.foreign key r)), Hv. split_and!; [done|done| |done].
    rewrite filter_swap. apply filter_all, Forall_forall. intros x [Hx1 Hx2]%list_elem_of_filter. by eapply Hf.
Qed.

Section Requests.
Context {L : Type} `{Lockout L} (env : environment) (adminEnv : option string) (key_hash : string -> string) (json_parse : string -> option json).

Local Abbreviation served := (serve env adminEnv key_hash json_parse).

(** The key a request authenticates as. *)
Definition caller (cl : clocks) (req : v1_request) (a : api L env stores) : option StoredKey :=
  fst (fst (authenticate key_hash (c_auth cl) adminEnv (extractKey (v_headers req)) (Some (IpMatch.clientIpFromRequest (v_headers req))) (keys_file a) (lockout a))).

End Requests.
End Routes.

(** ** Examples *)

Section Demo.
Local Instance no_lockout : Lockout unit := {| lk_decide _ _ _ := Unlocked; lk_fail _ _ _ := tt; lk_clear _ _ := tt;
  lk_clear_unlocks _ _ _ := eq_refl; lk_clear_other _ _ _ _ _ := eq_refl |}.
Local Instance demo_floats : FloatOps := {| fadd a _ := a; fsub a _ := a; fmul a _ := a; fdiv a _ := a; toFixed _ n := n |}.
Local Instance demo_maths : Regime.MathOps := {| Regime.flog n := n; Regime.fsqrt n := n; Regime.fsquare n := n |}.

Definition demo_env : environment :=
  {| env_rotation := {| KeyLifecycle.SIGNALCLAW_MAX_KEY_AGE_DAYS := None; KeyLifecycle.SIGNALCLAW_KEY_ROTATION_WARN_DAYS := None |};
     env_residency := {| Residency.SIGNALCLAW_DATA_REGION := ""; Residency.SIGNALCLAW_RESIDENCY_MODE := "" |};
     env_per_minute := 100; env_monthly := 100 |}.

(** Two requests know how to be written: an alert, and a wish for a dry run. *)
Definition demo_parse (s : string) : option json :=
  if String.eqb s "alert" then Some (JObj [("ticker", JStr "nvda"); ("condition", JStr "price_above"); ("value", JNum (int 100))])
  else Some (JObj [("dry_run", JBool true)]).

Definition demo_call (method raw : string) (dry : bool) (retry : option string) : v1_request :=
  {| v_headers := from_option (fun r => <["idempotency-key" := r]>) (fun m => m) retry {[ "x-api-key" := "secret" ]};
     v_method := method; v_raw := raw; v_query := if dry then {[ "dry_run" := "true" ]} else ∅ |}.

Definition demo_at (t : Z) : clocks := {| c_auth := fun _ => t; c_guard := fun _ => t; c_retry := fun _ => t |}.
Definition demo_fresh (i : string) : fresh := {| f_id := i; f_event := "e" +:+ i; f_now := fun _ => 1767225600000 |}.

Definition demo_api : api unit demo_env stores :=
  {| keys_file := Some [new_key (fun s => s) "k1" "secret" "bot" [KeyStore.read; trade] 1767225600000 None]; lockout := tt;
     guard := World (boot None) None None None None None Quota.Monthly.empty Quota.RateLimit.empty (boot None) 0 0 [] []
       {| cache := []; Idempotency.audited := [];
          Idempotency.app := {| runs := None; alerts := None; watchlist := None; activity := None; dispatched := []; lines := [] |} |} |}.

Definition demo_serve c t req fr (a : api unit demo_env stores) : outcome * api unit demo_env stores :=
  serve (fun _ => "") (fun _ => None) (fun _ => NaN) (fun _ => NaN) (fun _ _ => 0) (fun _ => None) (fun _ => []) demo_env None (fun s => s) demo_parse
    c (demo_at t) req fr a.

Definition alert_ids (a : api unit demo_env stores) : list string := Alerts.id <$> Alerts.listAlerts (Some "k1") (alerts (stores_of a)).

(** Two alerts are armed. *)
Definition demo_armed : api unit demo_env stores :=
  snd (demo_serve CreateAlert 1767225602000 (demo_call "POST" "alert" false None) (demo_fresh "a2")
    (snd (demo_serve CreateAlert 1767225601000 (demo_call "POST" "alert" false None) (demo_fresh "a1") demo_api))).


Definition demo_stores (l : file (list Runs.SavedRun)) : stores :=
  {| runs := l; alerts := None; watchlist := None; activity := None; dispatched := []; lines := [] |}.
Definition demo_run (owner : string) (i : string) (f : file (list Runs.SavedRun)) : file (list Runs.SavedRun) :=
  snd (Runs.createRun {| Runs.in_label := "first"; Runs.in_ticker := "NVDA"; Runs.in_lookback_days := int 2; Runs.in_tags := None; Runs.in_notes := None;
    Runs.in_key_id := Some owner; Runs.in_key_label := None; Runs.in_payload := Runs.demo_payload |} i 1767225600000 f).
(** The runs of k2, with and without a run of k1. *)
Definition demo_alone : stores := demo_stores (demo_run "k2" "r2" None).
Definition demo_shared : stores := demo_stores (demo_run "k2" "r2" (demo_run "k1" "r1" None)).
Definition demo_handle (c : call) (s : stores) : option response * stores :=
  handle (fun _ => "") (fun _ => None) (fun _ => NaN) (fun _ => NaN) (fun _ _ => 0) (fun _ => None) (fun _ => [])
    c (demo_call "DELETE" "" false None) (demo_fresh "x") RunAcl.demo_trader None s.

Lemma foreign_runs_invisible_witness :
  (Runs.id <$> read_file (runs demo_shared)) = ["r1"; "r2"] /\
  (let '(o1, s1') := demo_handle (DeleteRun "r1") demo_shared in
   let '(o2, s2') := demo_handle (DeleteRun "r1") demo_alone in
   o1 = o2 /\ o1 = Some (err 404 "not_found") /\ read_file (runs s1') = read_file (runs demo_shared)) /\
  Runs.id <$> read_file (runs (snd (demo_handle (DeleteRun "r2") demo_shared))) = ["r1"].
Proof.
  split; [vm_compute; reflexivity|]. split; [|vm_compute; reflexivity].
  pose proof (foreign_runs_invisible (fun _ => "") (fun _ => None) (fun _ => NaN) (fun _ => NaN) (fun _ _ => 0) (fun _ => None) (fun _ => [])
    (DeleteRun "r1") (demo_call "DELETE" "" false None) (demo_fresh "x") RunAcl.demo_trader None demo_shared demo_alone eq_refl
    ltac:(apply (bool_decide_unpack _); vm_compute; exact I) ltac:(apply (bool_decide_unpack _); vm_compute; exact I) ltac:(vm_compute; reflexivity)) as Hc.
  fold (demo_handle (DeleteRun "r1") demo_shared) (demo_handle (DeleteRun "r1") demo_alone) in Hc.
  destruct (demo_handle (DeleteRun "r1") demo_shared) as [o1 s1'], (demo_handle (DeleteRun "r1") demo_alone) as [o2 s2'].
  destruct Hc as (He & _ & _ & Hd). specialize (Hd eq_refl).
  assert (in_sight RunAcl.demo_trader "r1" demo_shared = None) as Hn by (vm_compute; reflexivity). rewrite Hn in Hd. destruct Hd as [Ho Hr].
  split; [exact He|]. split; [exact Ho|exact Hr].
Defined.

(** One retry key on two alerts: the fingerprint of a request is its method, the
    pattern of its route and its body, so deleting the second alert is answered
    with the success of deleting the first one, and the second alert stays. *)
Lemma retry_key_spans_ids :
  let '(o1, a1) := demo_serve (DeleteAlert "a1") 1767225603000 (demo_call "DELETE" "" false (Some "clean-up")) (demo_fresh "x") demo_armed in
  let '(o2, a2) := demo_serve (DeleteAlert "a2") 1767225604000 (demo_call "DELETE" "" false (Some "clean-up")) (demo_fresh "y") a1 in
  fst <$> seen_outcome o2 = Some 200 /\ seen_outcome o2 = seen_outcome o1 /\ alert_ids a2 = ["a2"].
Proof. vm_compute. auto. Qed.

(** A dry run asked for in the URL, then the request itself under the same retry
    key: it is answered with the dry run, and nothing is created. *)
Lemma dry_run_shadows_the_request :
  let '(o1, a1) := demo_serve CreateAlert 1767225603000 (demo_call "POST" "alert" true (Some "order-1")) (demo_fresh "a3") demo_armed in
  let '(o2, a2) := demo_serve CreateAlert 1767225604000 (demo_call "POST" "alert" false (Some "order-1")) (demo_fresh "a4") a1 in
  seen_outcome o2 = seen_outcome o1 /\ fst <$> seen_outcome o2 = Some 200 /\ alert_ids a2 = ["a1"; "a2"].
Proof. vm_compute. auto. Qed.

(** A DELETE whose body asks for a dry run deletes. *)
Lemma delete_ignores_body_dry_run :
  let '(o, a) := demo_serve (DeleteAlert "a1") 1767225603000 (demo_call "DELETE" "dry" false None) (demo_fresh "x") demo_armed in
  body_of demo_parse "dry" = Some (JObj [("dry_run", JBool true)]) /\ fst <$> seen_outcome o = Some 200 /\ alert_ids a = ["a2"].
Proof. vm_compute. auto. Qed.
End Demo.
