(* ===== verification/AdminKeys.v ===== *)
(** The management of API keys: the routes [web/app/api/admin/keys] and, under
    [keys/[id]], DELETE, [suspend], [role], [label], [expiry], [ip-allowlist],
    [route-allowlist], [rotate], [rate-limit], [monthly-quota] and [idempotency],
    with [keys/expiring] and [keys/dormant]. Each has the same [requireAdmin] in
    front of it; revocation and suspension ask for a second administrator as
    well. [Date.parse] and [Number] of what the caller sends are parameters. *)
From S2P Require Import Prelude JsNum JsDate IsoTime Json Store Interleave AuthLockout KeyStore.
From S2P Require DualControl IpMatch KeyLifecycle RouteAllowlist Quota Idempotency Activity Totp MfaGate Invites.
Import Quota.
#[local] Existing Instances DualControl.State_persisted Activity.events_persisted.

(** ** Requests and answers *)

(** [body] is [None] when it is not JSON. *)
Record request := { headers : gmap string string; query : gmap string string; body : option json }.

(** What a request draws from the clock and the random generator. It can
    authenticate three times; each has its own readings. *)
Record draws := {
  d_auth : nat -> clock; d_mfa : Z; d_approval : clock; d_op : clock; d_view : nat -> Z; d_event : Z;
  d_request_id : string; d_key_id : string; d_secret : string; d_event_id : string }.

(** [publicView] of a key: everything but the hash. *)
Record PublicView := {
  v_id : string; v_label : string; v_prefix : string; v_scopes : list Scope; v_role : KeyRole; v_created_at : iso;
  v_last_used_at : option iso; v_revoked : bool; v_ips : list string; v_routes : list string; v_expires_at : option iso;
  v_expired : bool; v_suspended : bool; v_suspended_at : option iso; v_suspended_reason : option string }.

Definition publicView (k : StoredKey) (now : Z) : PublicView :=
  {| v_id := id k; v_label := label k; v_prefix := prefix k; v_scopes := scopes k; v_role := default (inferRole (scopes k)) (role k);
     v_created_at := created_at k; v_last_used_at := last_used_at k; v_revoked := revoked k; v_ips := ip_allowlist k;
     v_routes := route_allowlist k; v_expires_at := expires_at k; v_expired := isExpired k now; v_suspended := suspended k;
     v_suspended_at := suspended_at k; v_suspended_reason := suspended_reason k |}.

Record RetryView := { fingerprint_prefix : string; rt_header : string; rt_status : Z; rt_created_at : Z; rt_expires_at : Z; bytes : nat }.

(** The bodies of the answers. [Refused] is [err(status, code, ...)]. *)
Inductive reply :=
| Refused (status : Z) (code : string)
| Pending (r : DualControl.ApprovalRequest)
| Revoked
| Keys (l : list PublicView)
| Key (v : PublicView)
| Secret (v : PublicView) (secret : string)
| Suspension (s : bool) (at_ : option iso) (why : option string)
| RoleOf (r : KeyRole) (effective_scopes : list Scope)
| ExpiryOf (e : option iso)
| Entries (l : list string) (max_entries : Z)
| Rate (limit_per_minute : Z) (is_override : bool)
| MonthlyView (monthly_quota : Z) (is_override unlimited : bool) (period : string) (used : Z) (remaining : option Z) (resets_at : Z)
| Retries (l : list RetryView)
| Expiring (s : KeyLifecycle.ExpirySummary)
| Dormant (s : KeyLifecycle.DormancySummary).

Definition member (k : string) (b : json) : jval := field k b.

(** [!body || typeof body !== "object"]. *)
Definition no_object (b : json) : bool := negb (is_object b).

Definition role_text (r : KeyRole) : string := match r with owner => "owner" | role_admin => "admin" | KeyStore.member => "member" | viewer => "viewer" end.
Definition key_error (e : KeyError) : string :=
  match e with invalid_role => "invalid_role" | invalid_label => "invalid_label" | invalid_expiry => "invalid_expiry" end.
Definition request_code (c : DualControl.RequestCode) : string :=
  match c with DualControl.bad_action => "bad_action" | DualControl.bad_target => "bad_target" | DualControl.bad_reason => "bad_reason"
  | DualControl.bad_requester => "bad_requester" end.
Definition consume_code (c : DualControl.ConsumeCode) : string :=
  match c with DualControl.missing_token => "missing_token" | DualControl.bad_token => "bad_token" | DualControl.not_approved => "not_approved"
  | DualControl.t_expired => "expired" | DualControl.action_mismatch => "action_mismatch" | DualControl.target_mismatch => "target_mismatch"
  | DualControl.wrong_caller => "wrong_caller" end.
Definition consume_status (c : DualControl.ConsumeCode) : Z :=
  match c with DualControl.missing_token | DualControl.bad_token => 401 | DualControl.t_expired => 410 | _ => 409 end.
Definition cidr_code (c : IpMatch.CidrListCode) : string :=
  match c with IpMatch.bad_type => "bad_type" | IpMatch.bad_cidr => "bad_cidr" | IpMatch.too_many => "too_many" end.
Definition route_code (c : RouteAllowlist.RouteError) : string :=
  match c with RouteAllowlist.bad_request => "bad_request" | RouteAllowlist.too_many_entries => "too_many_entries" end.

Section Routes.
Context {L : Type} `{Lockout L} (sha256 : string -> string) (hmac_sha1 : list Z -> list Z -> list Z).
Context (stamp : string -> iso) (Number_of : json -> num).

(** [SIGNALCLAW_ADMIN_KEY] and the limits of the environment. *)
Record settings := { adminEnv : option string; seat_limit : option num; DEFAULT_PER_MINUTE : Z; DEFAULT_MONTHLY_QUOTA : Z }.
Context (cfg : settings).

Record world := World {
  keys_file : file keys; lockout : L; approvals : store DualControl.State; minute : RateLimit.Store; month : Monthly.Store;
  retries : Idempotency.records; feed : file Activity.events; second : MfaGate.world }.

Definition with_keys (f : file keys) (w : world) : world :=
  World f (lockout w) (approvals w) (minute w) (month w) (retries w) (feed w) (second w).
Definition with_auth (f : file keys) (l : L) (w : world) : world :=
  World f l (approvals w) (minute w) (month w) (retries w) (feed w) (second w).
Definition with_approvals (s : store DualControl.State) (w : world) : world :=
  World (keys_file w) (lockout w) s (minute w) (month w) (retries w) (feed w) (second w).
Definition with_minute (s : RateLimit.Store) (w : world) : world :=
  World (keys_file w) (lockout w) (approvals w) s (month w) (retries w) (feed w) (second w).
Definition with_month (s : Monthly.Store) (w : world) : world :=
  World (keys_file w) (lockout w) (approvals w) (minute w) s (retries w) (feed w) (second w).
Definition with_feed (f : file Activity.events) (w : world) : world :=
  World (keys_file w) (lockout w) (approvals w) (minute w) (month w) (retries w) f (second w).
Definition with_second (s : MfaGate.world) (w : world) : world :=
  World (keys_file w) (lockout w) (approvals w) (minute w) (month w) (retries w) (feed w) s.

(** [recordAuditEvent({ status, key, reason })]. *)
Definition recordAuditEvent (status : Z) (k : option StoredKey) (reason : string) (w : world) : world :=
  with_second (MfaGate.note status (id <$> k) reason (second w)) w.

Definition production : bool := truthy (default "" (adminEnv cfg)).

Section Request.
Context (req : request) (d : draws).

(** [authenticate(extractKey(req), { req })], for the [n]-th time. *)
Definition authenticated (n : nat) (w : world) : option StoredKey * world :=
  let '(k, f, l) := authenticate sha256 (d_auth d n) (adminEnv cfg) (extractKey (headers req)) (Some (IpMatch.clientIpFromRequest (headers req)))
                      (keys_file w) (lockout w) in
  (k, with_auth f l w).

(** [None]: the handler goes on. *)
Definition requireAdmin (method : string) (w : world) : option MfaGate.denial * world :=
  let '(k, w) := authenticated 0 w in
  if negb production then (None, recordAuditEvent 200 k "local-mode" w) else
  match k with
  | Some key =>
      if negb (bool_decide (admin ∈ scopes key)) then (Some (403, "forbidden"), recordAuditEvent 403 k "forbidden:admin-required" w) else
      let w := recordAuditEvent 200 k "" w in
      if String.eqb method "GET" then (None, w)
      else let '(denied, s) := MfaGate.enforceAdminMfa hmac_sha1 sha256 (default "" (adminEnv cfg)) (headers req) (id <$> k) (d_mfa d) (second w) in
           (denied, with_second s w)
  | None => (Some (403, "forbidden"), recordAuditEvent 403 None "forbidden:admin-required" w)
  end.

Abbreviation handler := (world -> reply * world).

Definition gated (method : string) (h : handler) : handler := fun w =>
  let '(denied, w) := requireAdmin method w in
  match denied with Some (s, c) => (Refused s c, w) | None => h w end.

(** The parsed body, or the refusal of a body that is no JSON. *)
Definition with_body (h : json -> handler) : handler := fun w =>
  match body req with None => (Refused 400 "bad_json", w) | Some b => h b w end.

(** ** A second administrator

    In production the action is requested, or goes on with the token of an
    approved request, when the key authenticates a second time. *)
Definition dual_control (action target why : string) (h : handler) : handler := fun w =>
  if negb production then h w else
  let '(caller, w) := authenticated 1 w in
  match caller with
  | None => h w
  | Some c =>
      let token := default "" (headers req !! "x-approval-token") in
      if negb (truthy token) then
        let '(r, st) := DualControl.requestApproval (d_approval d) (d_request_id d)
          {| DualControl.in_action := action; DualControl.in_target := target; DualControl.in_reason := why; DualControl.in_requested_by := id c |}
          (approvals w) in
        match r with
        | Err e => (Refused 400 (request_code e), with_approvals st w)
        | Ok r => (Pending (DualControl.publicView r), recordAuditEvent 202 caller ("dual_control:request:" +:+ action) (with_approvals st w))
        end
      else
        let '(r, st) := DualControl.consumeApproval (d_approval d)
          {| DualControl.co_action := action; DualControl.co_target := target; DualControl.co_token := token; DualControl.co_caller := id c |}
          (approvals w) in
        match r with
        | Err e => (Refused (consume_status e) (consume_code e),
                    recordAuditEvent (consume_status e) caller ("dual_control:consume:" +:+ consume_code e) (with_approvals st w))
        | Ok _ => h (recordAuditEvent 200 caller ("dual_control:consume:" +:+ action) (with_approvals st w))
        end
  end.

(** ** The list of keys *)

Definition keys_GET : handler := fun w =>
  (Keys (imap (fun n k => publicView k (d_view d n)) (listKeys (read_file (keys_file w)))), w).

Definition scope_of (j : json) : option Scope :=
  match j with JStr s => if String.eqb s "read" then Some read else if String.eqb s "trade" then Some trade else None | _ => None end.

Definition scope_names (ss : list Scope) : string :=
  String.concat ", " ((fun s => match s with read => "read" | trade => "trade" | admin => "admin" end) <$> ss).

Definition recordSafe (kind title text : string) (w : world) : world :=
  with_feed (Activity.recordSafe {| Activity.i_kind := kind; Activity.i_title := Some (JStr title); Activity.i_body := Some (JStr text);
    Activity.i_href := Some (JStr "/settings/keys") |} (d_event_id d) (d_event d) (feed w)) w.

Definition dot : string := " " +:+ String (chr 183) " ".

(** The ellipsis, as the bytes of its encoding. *)
Definition ellipsis : string := String (chr 226) (String (chr 128) (String (chr 166) "")).

Definition keys_POST : handler := with_body (fun b w =>
  let lbl := match member "label" b with Some (JStr s) => s | _ => "" end in
  let ss := match member "scopes" b with Some (JArr l) => omap scope_of l | _ => [] end in
  if negb (truthy (trim lbl)) then (Refused 400 "bad_label", w)
  else if 80 <? str_len lbl then (Refused 400 "label_too_long", w) else
  let e := match member "expires_at" b with Some (JStr s) => if truthy (trim s) then Some (stamp s) else None | _ => None end in
  if negb (Invites.ensureSeatAvailable (seat_limit cfg) (read_file (keys_file w))) then (Refused 409 "seat_limit", w) else
  let '(r, f) := on_file (createKey sha256 (d_op d) (d_key_id d) (d_secret d) {| in_label := lbl; in_scopes := ss; in_expires_at := e |}) (keys_file w) in
  match r with
  | Err c => (Refused 400 (key_error c), with_keys f w)
  | Ok (k, secret) =>
      (Secret (publicView k (d_view d 0%nat)) secret,
       recordSafe "key.created" ("API key created" +:+ dot +:+ label k)
         ("Scopes: " +:+ (if (length (scopes k) =? 0)%nat then "none" else scope_names (scopes k)) +:+ ". Prefix " +:+ prefix k +:+ ellipsis) (with_keys f w))
  end).

(** ** One key: revocation and suspension *)

Definition key_DELETE (i : string) : handler :=
  dual_control "keys.revoke" i (default "key revocation" (headers req !! "x-reason")) (fun w =>
    let '(found, f) := on_file (revokeKey i) (keys_file w) in
    (if found then Revoked else Refused 404 "not_found", with_keys f w)).

Definition suspend_GET (i : string) : handler := fun w =>
  match getKey i (read_file (keys_file w)) with
  | None => (Refused 404 "not_found", w)
  | Some k => (Suspension (suspended k) (suspended_at k) (suspended_reason k), w)
  end.

Definition state_text (s : bool) : string := if s then "suspended" else "active".

(** The audit line after an edit names the key that authenticates once more. *)
Definition edited (k : StoredKey) (line : string) (w : world) : reply * world :=
  let '(caller, w) := authenticated 2 w in (Key (publicView k (d_view d 0%nat)), recordAuditEvent 200 caller line w).

Definition suspend_PUT (i : string) : handler := with_body (fun b w =>
  match member "suspended" b with
  | Some (JBool s) =>
      match (match member "reason" b with None | Some JNull => Some None | Some (JStr r) => Some (Some r) | _ => None end) with
      | None => (Refused 400 "bad_request", w)
      | Some reason =>
          match getKey i (read_file (keys_file w)) with
          | None => (Refused 404 "not_found", w)
          | Some k0 =>
              if revoked k0 then (Refused 409 "revoked", w)
              else if String.eqb i "env-admin" then (Refused 409 "env_admin", w) else
              let action := if s then "keys.suspend" else "keys.unsuspend" in
              let why := default (default (action +:+ " requested") (headers req !! "x-reason")) reason in
              dual_control action i why (fun w =>
                let '(r, f) := on_file (setKeySuspended (d_op d 0%nat) i s reason) (keys_file w) in
                match r with
                | Ok (Some k) => edited k ("suspend:" +:+ state_text (suspended k0) +:+ "->" +:+ state_text (suspended k)) (with_keys f w)
                | _ => (Refused 404 "not_found", with_keys f w)
                end) w
          end
      end
  | _ => (Refused 400 "bad_request", w)
  end).

(** ** One key: edits *)

(** [forbidden]: the routes that name the environment's key ask for it after
    the key was found. [tx] is the operation, [line] the text of the audit. *)
Definition edit (i : string) (forbidden : bool) (tx : transaction keys (result (option StoredKey) KeyError))
    (line : StoredKey -> StoredKey -> string) : handler := fun w =>
  match getKey i (read_file (keys_file w)) with
  | None => (Refused 404 "not_found", w)
  | Some k0 =>
      if revoked k0 then (Refused 409 "revoked", w)
      else if forbidden && String.eqb i "env-admin" then (Refused 409 "forbidden_target", w) else
      let '(r, f) := on_file tx (keys_file w) in
      match r with
      | Err e => (Refused 400 (key_error e), with_keys f w)
      | Ok None => (Refused 404 "not_found", with_keys f w)
      | Ok (Some k) => edited k (line k0 k) (with_keys f w)
      end
  end.

Definition role_GET (i : string) : handler := fun w =>
  match getKey i (read_file (keys_file w)) with
  | None => (Refused 404 "not_found", w)
  | Some k => let v := publicView k (d_view d 0%nat) in (RoleOf (v_role v) (v_scopes v), w)
  end.

Definition role_name (r : option KeyRole) : string := default "unset" (role_text <$> r).

Definition role_PUT (i : string) : handler := with_body (fun b w =>
  match member "role" b with
  | Some (JStr raw) =>
      let next := to_lower (trim raw) in
      match assoc next ALL_ROLES with
      | None => (Refused 400 "invalid_role", w)
      | Some _ => edit i true (setKeyRole i next) (fun k0 k => "role:" +:+ role_name (role k0) +:+ "->" +:+ role_name (role k)) w
      end
  | _ => (Refused 400 "bad_request", w)
  end).

Definition label_PUT (i : string) : handler := with_body (fun b w =>
  match member "label" b with
  | Some (JStr raw) => edit i true (setKeyLabel i raw) (fun k0 k => "label:" +:+ str_take 60 (label k0) +:+ "->" +:+ str_take 60 (label k)) w
  | _ => (Refused 400 "bad_request", w)
  end).

Definition expiry_GET (i : string) : handler := fun w =>
  match getKey i (read_file (keys_file w)) with None => (Refused 404 "not_found", w) | Some k => (ExpiryOf (expires_at k), w) end.

Definition expiry_text (e : option iso) : string := default "null" (iso_string <$> e).

Definition expiry_PUT (i : string) : handler := with_body (fun b w =>
  match (match member "expires_at" b with
         | Some JNull => Some None
         | Some (JStr s) => Some (if truthy s then Some (stamp s) else None)
         | _ => None
         end) with
  | None => (Refused 400 "bad_request", w)
  | Some e => edit i false (setKeyExpiry (d_op d 0%nat) i e)
                (fun k0 k => "expiry:" +:+ expiry_text (expires_at k0) +:+ "->" +:+ expiry_text (expires_at k)) w
  end).

Definition ips_GET (i : string) : handler := fun w =>
  match getKey i (read_file (keys_file w)) with None => (Refused 404 "not_found", w) | Some k => (Entries (ip_allowlist k) IpMatch.MAX_CIDR_ENTRIES, w) end.

Definition sizes (name : string) (before after : list string) : string := name +:+ ":" +:+ pretty (len before) +:+ "->" +:+ pretty (len after).

Definition ips_PUT (i : string) : handler := with_body (fun b w =>
  match IpMatch.canonicalizeCidrList (default JNull (member "ip_allowlist" b)) with
  | Err c => (Refused 400 (cidr_code c), w)
  | Ok canonical => edit i false (setKeyIpAllowlist i canonical) (fun k0 _ => sizes "ip_allowlist" (ip_allowlist k0) canonical) w
  end).

Definition routes_GET (i : string) : handler := fun w =>
  match getKey i (read_file (keys_file w)) with
  | None => (Refused 404 "not_found", w)
  | Some k => (Entries (route_allowlist k) RouteAllowlist.MAX_ROUTE_ENTRIES, w)
  end.

Definition routes_PUT (i : string) : handler := fun w =>
  if String.eqb i "env-admin" then (Refused 409 "env_admin", w) else
  with_body (fun b w =>
    match RouteAllowlist.canonicalizeRouteList (member "route_allowlist" b) with
    | Err c => (Refused 400 (route_code c), w)
    | Ok canonical => edit i false (setKeyRouteAllowlist i canonical) (fun k0 _ => sizes "route_allowlist" (route_allowlist k0) canonical) w
    end) w.

(** [grace_seconds] is checked and otherwise ignored. *)
Definition bad_grace : bool :=
  match (b ← body req; if is_object b then member "grace_seconds" b else None) with
  | Some g => let n := Number_of g in negb (is_finite n) || num_lt n (int 0) || num_lt (int (7 * 24 * 3600)) n
  | None => false
  end.

Definition rotate_POST (i : string) : handler := fun w =>
  if bad_grace then (Refused 400 "invalid", w) else
  let '(out, f) := on_file (rotateKey sha256 (d_op d 0%nat) i (d_secret d)) (keys_file w) in
  match out with
  | None => (Refused 404 "not_rotatable", with_keys f w)
  | Some (k, secret) =>
      (Secret (publicView k (d_view d 0%nat)) secret,
       recordSafe "key.rotated" ("Rotated API key" +:+ dot +:+ label k) (prefix k +:+ dot +:+ "scopes " +:+ scope_names (scopes k)) (with_keys f w))
  end.

(** ** The limits of a key, its retries, and the two watch lists *)

(** [raw !== null && (typeof raw !== "number" || !Number.isFinite(raw))]. *)
Definition number_or_null (v : jval) : option (option num) :=
  match v with Some JNull => Some None | Some (JNum n) => if is_finite n then Some (Some n) else None | _ => None end.

Definition rate_view (n : Z) : reply := Rate n (negb (n =? DEFAULT_PER_MINUTE cfg)).

Definition rate_GET (i : string) : handler := fun w => (rate_view (RateLimit.getLimitForKey (DEFAULT_PER_MINUTE cfg) i (minute w)), w).

Definition rate_PUT (i : string) : handler := with_body (fun b w =>
  if no_object b then (Refused 400 "bad_body", w) else
  match number_or_null (member "limit" b) with
  | None => (Refused 400 "bad_limit", w)
  | Some l =>
      let '(r, s) := RateLimit.setLimitForKey (DEFAULT_PER_MINUTE cfg) i l (minute w) in
      (match r with Ok n => rate_view n | Err _ => Refused 400 "bad_limit" end, with_minute s w)
  end).

Definition quota_view (n count : Z) (period : string) (at_ : Z) : reply :=
  MonthlyView n (negb (n =? DEFAULT_MONTHLY_QUOTA cfg)) (n =? 0) period count (if n =? 0 then None else Some (Z.max 0 (n - count)))
    (Monthly.nextPeriodReset at_).

Definition quota_GET (i : string) : handler := fun w =>
  let '(p, c) := Monthly.getUsage i (d_op d 0%nat) (month w) in
  (quota_view (Monthly.getQuotaForKey (DEFAULT_MONTHLY_QUOTA cfg) i (month w)) c p (d_op d 1%nat), w).

Definition quota_PUT (i : string) : handler := with_body (fun b w =>
  if no_object b then (Refused 400 "bad_body", w) else
  match number_or_null (member "quota" b) with
  | None => (Refused 400 "bad_quota", w)
  | Some q =>
      let '(r, s) := Monthly.setQuotaForKey (DEFAULT_MONTHLY_QUOTA cfg) i q (month w) in
      (match r with
       | Ok n => quota_view n (snd (Monthly.getUsage i (d_op d 0%nat) s)) (Monthly.periodOf (d_op d 1%nat)) (d_op d 2%nat)
       | Err _ => Refused 400 "bad_quota"
       end, with_month s w)
  end).

Definition retry_view (r : Idempotency.IdempotencyRecord) : RetryView :=
  {| fingerprint_prefix := str_take 12 (Idempotency.fingerprint_ r); rt_header := Idempotency.header r; rt_status := Idempotency.status r;
     rt_created_at := Idempotency.created_at r; rt_expires_at := Idempotency.expires_at r; bytes := String.length (Idempotency.body r) |}.

Definition retry_limit : Z :=
  let n := default 50 (KeyLifecycle.parseInt (default "50" (query req !! "limit"))) in
  Z.min (Z.max (if n =? 0 then 50 else n) 1) 200.

Definition retries_GET (i : string) : handler := fun w =>
  (Retries (retry_view <$> Idempotency.listForKey i (Z.to_nat retry_limit) (d_op d 0%nat) (retries w)), w).

(** [within_days]: the default when it is absent or empty, [None] when it is
    not a number between 1 and [max]. *)
Definition window_days (fallback max : Z) : option Z :=
  let raw := default "" (query req !! "within_days") in
  if negb (truthy raw) then Some fallback
  else match KeyLifecycle.parseInt raw with Some n => if (n <? 1) || (max <? n) then None else Some n | None => None end.

Definition expiring_GET : handler := fun w =>
  (match window_days 30 KeyLifecycle.MAX_WITHIN_DAYS with
   | None => Refused 400 "bad_within_days"
   | Some n => Expiring (KeyLifecycle.summarizeExpiry (listKeys (read_file (keys_file w))) (d_op d 0%nat) (Some (int n)))
   end, w).

Definition MAX_DORMANT_WITHIN_DAYS : Z := 365.
Definition DEFAULT_DORMANT_WITHIN_DAYS : Z := 30.

Definition dormant_GET : handler := fun w =>
  (match window_days DEFAULT_DORMANT_WITHIN_DAYS MAX_DORMANT_WITHIN_DAYS with
   | None => Refused 400 "bad_within_days"
   | Some n => Dormant (KeyLifecycle.summarizeDormancy (listKeys (read_file (keys_file w))) (d_op d 0%nat) (Some (int n)))
   end, w).

(** ** The routes *)

Inductive call :=
| ListKeys | CreateKey | RevokeKey (i : string) | GetSuspend (i : string) | PutSuspend (i : string) | GetRole (i : string) | PutRole (i : string)
| PutLabel (i : string) | GetExpiry (i : string) | PutExpiry (i : string) | GetIps (i : string) | PutIps (i : string) | GetRoutes (i : string)
| PutRoutes (i : string) | Rotate_ (i : string) | GetRate (i : string) | PutRate (i : string) | GetQuota (i : string) | PutQuota (i : string)
| GetRetries (i : string) | GetExpiring | GetDormant.

Definition method_of (c : call) : string :=
  match c with
  | CreateKey | Rotate_ _ => "POST"
  | RevokeKey _ => "DELETE"
  | PutSuspend _ | PutRole _ | PutLabel _ | PutExpiry _ | PutIps _ | PutRoutes _ | PutRate _ | PutQuota _ => "PUT"
  | _ => "GET"
  end.

Definition handle (c : call) : handler :=
  match c with
  | ListKeys => keys_GET | CreateKey => keys_POST | RevokeKey i => key_DELETE i
  | GetSuspend i => suspend_GET i | PutSuspend i => suspend_PUT i | GetRole i => role_GET i | PutRole i => role_PUT i
  | PutLabel i => label_PUT i | GetExpiry i => expiry_GET i | PutExpiry i => expiry_PUT i
  | GetIps i => ips_GET i | PutIps i => ips_PUT i | GetRoutes i => routes_GET i | PutRoutes i => routes_PUT i
  | Rotate_ i => rotate_POST i | GetRate i => rate_GET i | PutRate i => rate_PUT i | GetQuota i => quota_GET i | PutQuota i => quota_PUT i
  | GetRetries i => retries_GET i | GetExpiring => expiring_GET | GetDormant => dormant_GET
  end.

Definition serve (c : call) : handler := gated (method_of c) (handle c).
End Request.
End Routes.

(** * What the routes promise *)

Section Proofs.
Context {L : Type} `{Lockout L} (sha256 : string -> string) (hmac_sha1 : list Z -> list Z -> list Z).
Context (stamp : string -> iso) (Number_of : json -> num) (cfg : settings).

Abbreviation W := (world (L := L)).
Abbreviation keys_of w := (read_file (keys_file w)).
Abbreviation authenticated_ := (authenticated (L := L) sha256 cfg).
Abbreviation require_ := (requireAdmin (L := L) sha256 hmac_sha1 cfg).
Abbreviation serve_ := (serve (L := L) sha256 hmac_sha1 stamp Number_of cfg).
Abbreviation handle_ := (handle (L := L) sha256 stamp Number_of cfg).
Abbreviation dual_ := (dual_control (L := L) sha256 cfg).

(** ** Histories of the key file

    Authentications of one secret, and a request that did those and at most one
    administrative operation. *)
Definition looks (secret : string) (e : event) : Prop := exists clk, e = Lookup clk secret.

Definition looked_up (secret : string) (ks ks' : keys) : Prop :=
  exists es, Forall (looks secret) es /\ ks' = run_all sha256 es ks.

#[export] Instance looked_up_preorder secret : PreOrder (looked_up secret).
Proof.
  split; [by intros ks; exists []|]. intros a b c (e1 & H1 & ->) (e2 & H2 & ->). exists (e1 ++ e2).
  split; [by apply Forall_app|]. unfold run_all. by rewrite fold_left_app.
Qed.

Definition managed (secret : string) (E : event -> Prop) (ks ks' : keys) : Prop :=
  looked_up secret ks ks' \/
  exists e ks1, E e /\ looked_up secret ks ks1 /\ looked_up secret (run sha256 e ks1) ks'.

Lemma managed_l secret E a b c : looked_up secret a b -> managed secret E b c -> managed secret E a c.
Proof. intros Hab [Hbc|(e & k & He & H1 & H2)]; [left; by etrans|right; exists e, k]. split_and!; [done|by etrans|done]. Qed.

Lemma managed_once secret (E : event -> Prop) e ks : E e -> managed secret E ks (run sha256 e ks).
Proof. intros He. right. by exists e, ks. Qed.

Lemma managed_r secret E a b c : managed secret E a b -> looked_up secret b c -> managed secret E a c.
Proof. intros [Hab|(e & k & He & H1 & H2)] Hbc; [left; by etrans|right; exists e, k]. split_and!; [done|done|by etrans]. Qed.

Section Request.
Context (req : request) (d : draws).
Let secret := extractKey (headers req).

(** Two worlds that differ in the last use of the caller's key, the lockout
    and the trail alone. *)
Record quiet (w w' : W) : Prop := {
  q_keys : looked_up secret (keys_of w) (keys_of w');
  q_approvals : approvals w' = approvals w; q_minute : minute w' = minute w; q_month : month w' = month w;
  q_retries : retries w' = retries w; q_feed : feed w' = feed w }.

#[export] Instance quiet_preorder : PreOrder quiet.
Proof.
  split; [by intros w|]. intros a b c [A1 A2 A3 A4 A5 A6] [B1 B2 B3 B4 B5 B6].
  split; [by etrans|congruence..].
Qed.

Lemma recordAuditEvent_quiet s k r w : quiet w (recordAuditEvent s k r w).
Proof. by split. Qed.

Lemma lookup_looked_up clk f (l : L) ip :
  looked_up secret (read_file f) (read_file (snd (fst (authenticate sha256 clk (adminEnv cfg) secret ip f l)))).
Proof.
  unfold authenticate, authenticateWithStatus. cbn zeta. destruct (if truthy _ then lk_decide _ _ l else Unlocked); [|done].
  destruct (truthy secret); [|done]. cbn [negb]. destruct (match adminEnv cfg with Some _ => _ | None => _ end); [done|].
  destruct (on_file _ f) as [r f'] eqn:E. assert (looked_up secret (read_file f) (read_file f')) as Hf.
  { exists [Lookup clk secret]. split; [constructor; [by exists clk|done]|]. cbn.
    change f' with (snd (r, f')). rewrite <- E. by rewrite on_file_view. }
  by destruct r as [|[]|].
Qed.

Lemma authenticated_quiet n w : quiet w (snd (authenticated_ req d n w)).
Proof.
  unfold authenticated. pose proof (lookup_looked_up (d_auth d n) (keys_file w) (lockout w) (Some (IpMatch.clientIpFromRequest (headers req)))) as Hl.
  unfold secret in *. by destruct (authenticate _ _ _ _ _ _ _) as [[k f] l].
Qed.

(** The gate: only an administrator's key, with its second factor where the
    request is not a GET. *)
Definition proven (method : string) (w : W) (key : StoredKey) : Prop :=
  fst (authenticated_ req d 0 w) = Some key /\ admin ∈ scopes key /\
  (method <> "GET" -> exists s, fst (MfaGate.enforceAdminMfa hmac_sha1 sha256 (default "" (adminEnv cfg)) (headers req) (Some (id key)) (d_mfa d) s) = None /\
    MfaGate.totp s = MfaGate.totp (second w)).

Lemma require_spec method w : production cfg = true ->
  quiet w (snd (require_ req d method w)) /\
  (fst (require_ req d method w) = None -> exists key, proven method w key).
Proof.
  intros Hp. unfold requireAdmin, proven. pose proof (authenticated_quiet 0 w) as Hq.
  assert (second (snd (authenticated_ req d 0 w)) = second w) as Hs by (unfold authenticated; by destruct (authenticate _ _ _ _ _ _ _) as [[]]).
  destruct (authenticated_ req d 0 w) as [k w1]. cbn [fst snd] in *. rewrite Hp. cbn [negb].
  destruct k as [key|]; [|by split; [etrans; [done|apply recordAuditEvent_quiet]|]].
  case_bool_decide as Ha; cbn [negb]; [|by split; [etrans; [done|apply recordAuditEvent_quiet]|]].
  destruct (String.eqb_spec method "GET") as [->|Hm].
  - split; [etrans; [done|apply recordAuditEvent_quiet]|]. intros _. by exists key.
  - destruct (MfaGate.enforceAdminMfa _ _ _ _ _ _ _) as [den s] eqn:E. cbn [fst snd]. split; [etrans; [done|by split]|].
    intros ->. exists key. split_and!; [done|done|]. intros _. eexists. cbn [fmap option_fmap option_map] in E. rewrite E. split; [done|]. cbn. by rewrite Hs.
Qed.

(** As [quiet], with the register of approvals free. *)
Record calm (w w' : W) : Prop := {
  c_keys : looked_up secret (keys_of w) (keys_of w'); c_minute : minute w' = minute w; c_month : month w' = month w; c_feed : feed w' = feed w }.

#[export] Instance calm_preorder : PreOrder calm.
Proof. split; [by intros w|]. intros a b c [A1 A2 A3 A4] [B1 B2 B3 B4]. split; [by etrans|congruence..]. Qed.

Lemma quiet_calm w w' : quiet w w' -> calm w w'.
Proof. by intros []. Qed.

(** The caller authenticates again, and the request's token redeems an approval
    of this action on this key; or the second authentication fails. *)
Definition redeems (action i : string) (caller : StoredKey) (w : W) : Prop :=
  exists r st, DualControl.consumeApproval (d_approval d)
    {| DualControl.co_action := action; DualControl.co_target := i; DualControl.co_token := default "" (headers req !! "x-approval-token");
       DualControl.co_caller := id caller |} (approvals w) = (Ok r, st).

Definition second_admin (action i : string) (w : W) : Prop :=
  match fst (authenticated_ req d 1 w) with Some caller => redeems action i caller w | None => True end.

Lemma dual_spec action i why h w : production cfg = true ->
  calm w (snd (dual_ req d action i why h w)) \/
  second_admin action i w /\ exists w1, calm w w1 /\ dual_ req d action i why h w = h w1.
Proof.
  intros Hp. unfold dual_control, second_admin. rewrite Hp. cbn [negb]. pose proof (quiet_calm _ _ (authenticated_quiet 1 w)) as Hc.
  pose proof (q_approvals _ _ (authenticated_quiet 1 w)) as Ha.
  destruct (authenticated_ req d 1 w) as [[c|] w1]; cbn [fst snd] in *; [|by right; split; [|exists w1]].
  cbn zeta. destruct (truthy (default "" _)); cbn [negb].
  - destruct (DualControl.consumeApproval _ _ _) as [[r|e] st] eqn:E; [|left; etrans; [exact Hc|done]].
    right. split; [exists r, st; by rewrite <- Ha|]. eexists. split; [|reflexivity]. etrans; [exact Hc|done].
  - left. destruct (DualControl.requestApproval _ _ _ _) as [[r|e] st]; (etrans; [exact Hc|done]).
Qed.

(** ** The handlers, as operations of the key file *)

Definition administers (c : call) (e : event) : Prop :=
  match c, e with
  | CreateKey, Create clk kid s _ => clk = d_op d /\ kid = d_key_id d /\ s = d_secret d
  | RevokeKey i, Revoke j => j = i
  | PutSuspend i, SetSuspended _ j s _ => j = i /\ j <> "env-admin" /\ (b ← body req; member "suspended" b) = Some (JBool s)
  | PutRole i, SetRole j r => j = i /\ is_Some (assoc r ALL_ROLES)
  | PutLabel i, SetLabel j _ => j = i
  | PutExpiry i, SetExpiry _ j _ => j = i
  | PutIps i, SetIps j l => j = i /\ exists v, IpMatch.canonicalizeCidrList v = Ok l
  | PutRoutes i, SetRoutes j l => j = i /\ exists v, RouteAllowlist.canonicalizeRouteList v = Ok l
  | Rotate_ i, Rotate _ j s => j = i /\ s = d_secret d
  | _, _ => False
  end.

(** What asks for a second administrator. *)
Definition destructive (c : call) (e : event) : option (string * string) :=
  match c, e with
  | RevokeKey i, _ => Some ("keys.revoke", i)
  | PutSuspend i, SetSuspended _ _ s _ => Some (if s then "keys.suspend" else "keys.unsuspend", i)
  | _, _ => None
  end.

(** The operations that a handler may perform in the world [w]. *)
Definition entitled (c : call) (w : W) (e : event) : Prop :=
  administers c e /\ match destructive c e with Some (a, i) => second_admin a i w | None => True end.

(** The limits and the feed belong to a few calls. *)
Definition framed (c : call) (w w' : W) : Prop :=
  (match c with PutRate _ => True | _ => minute w' = minute w end) /\
  (match c with PutQuota _ => True | _ => month w' = month w end) /\
  (match c with CreateKey | Rotate_ _ => True | _ => feed w' = feed w end).

Lemma calm_framed c w w' : calm w w' -> framed c w w'.
Proof. intros [_ H1 H2 H3]. by destruct c. Qed.

Definition obeys (c : call) (w w' : W) : Prop := managed secret (entitled c w) (keys_of w) (keys_of w') /\ framed c w w'.

Lemma calm_obeys c w w' : calm w w' -> obeys c w w'.
Proof. intros Hc. split; [left; apply Hc|by apply calm_framed]. Qed.

Lemma obeys_refl c w : obeys c w w.
Proof. apply calm_obeys. reflexivity. Qed.

Lemma framed_trans c a b w : framed c a b -> framed c b w -> framed c a w.
Proof. intros (A1 & A2 & A3) (B1 & B2 & B3). destruct c; (split_and!; try done; congruence). Qed.

(** One transaction on the file is one operation. *)
Lemma with_keys_obeys {R} c w1 w (tx : transaction keys R) e : calm w w1 ->
  (forall ks, run sha256 e ks = after tx ks) -> entitled c w e -> obeys c w (with_keys (snd (on_file tx (keys_file w1))) w1).
Proof.
  intros Hc He Hent. split.
  - eapply managed_l; [apply Hc|]. cbn [with_keys keys_file]. rewrite on_file_view by done. rewrite <- He. by apply managed_once.
  - eapply framed_trans; [by apply calm_framed|]. by destruct c.
Qed.

Lemma edited_obeys c w k line w1 : obeys c w w1 -> obeys c w (snd (edited sha256 cfg req d k line w1)).
Proof.
  intros [Hm Hf]. unfold edited. pose proof (authenticated_quiet 2 w1) as Hq. destruct (authenticated_ req d 2 w1) as [caller w2]. cbn [snd] in *.
  split; [eapply managed_r; [exact Hm|apply Hq]|]. eapply framed_trans; [exact Hf|].
  apply calm_framed, quiet_calm. etrans; [exact Hq|apply recordAuditEvent_quiet].
Qed.

Lemma edit_obeys c i fb tx line w e :
  (forall ks, run sha256 e ks = after tx ks) -> entitled c w e -> obeys c w (snd (edit sha256 cfg req d i fb tx line w)).
Proof.
  intros He Hent. unfold edit. destruct (getKey i _) as [k0|]; [|apply obeys_refl]. destruct (revoked k0); [apply obeys_refl|].
  destruct (fb && _); [apply obeys_refl|]. pose proof (with_keys_obeys c w w tx e (reflexivity w) He Hent) as Ho.
  destruct (on_file tx (keys_file w)) as [r f]. cbn [snd] in Ho. destruct r as [[k|]|er]; [by apply edited_obeys|done..].
Qed.

Lemma dual_obeys c action i why h w : production cfg = true ->
  (second_admin action i w -> forall w1, calm w w1 -> obeys c w (snd (h w1))) -> obeys c w (snd (dual_ req d action i why h w)).
Proof.
  intros Hp Hh. destruct (dual_spec action i why h w Hp) as [Hc|(Hs & w1 & Hc & ->)]; [by apply calm_obeys|by apply Hh].
Qed.

Lemma suspend_obeys i w : production cfg = true -> obeys (PutSuspend i) w (snd (suspend_PUT sha256 cfg req d i w)).
Proof.
  intros Hp. unfold suspend_PUT, with_body. destruct (body req) as [b|] eqn:Eb; [|apply obeys_refl].
  destruct (member "suspended" b) as [[|s| | | |]|] eqn:Es; try apply obeys_refl.
  destruct (match member "reason" b with Some _ => _ | None => _ end) as [reason|]; [|apply obeys_refl].
  destruct (getKey i _) as [k0|]; [|apply obeys_refl]. destruct (revoked k0); [apply obeys_refl|].
  destruct (String.eqb_spec i "env-admin") as [|Hi]; [apply obeys_refl|]. apply dual_obeys; [done|]. intros Hs w1 Hc.
  pose proof (with_keys_obeys (PutSuspend i) w1 w (setKeySuspended (d_op d 0%nat) i s reason) (SetSuspended (d_op d 0%nat) i s reason) Hc
    (fun _ => eq_refl)) as Ho.
  destruct (on_file _ (keys_file w1)) as [r f]. cbn [snd] in Ho.
  assert (obeys (PutSuspend i) w (with_keys f w1)) as Hw.
  { apply Ho. split; [|exact Hs]. cbn [administers]. rewrite Eb. by split_and!. }
  destruct r as [[k|]|er]; [by apply edited_obeys|done..].
Qed.

Lemma handle_obeys c w : production cfg = true -> obeys c w (snd (handle_ req d c w)).
Proof.
  intros Hp. destruct c as [| |i|i|i|i|i|i|i|i|i|i|i|i|i|i|i|i|i|i| |]; cbn [handle]; try apply obeys_refl;
    unfold suspend_GET, role_GET, expiry_GET, ips_GET, routes_GET; try (by destruct (getKey i _); apply obeys_refl).
  - unfold keys_POST, with_body. destruct (body req) as [b|]; [|apply obeys_refl]. cbn zeta.
    repeat (match goal with |- context [if ?x then (Refused _ _, _) else _] => destruct x; [apply obeys_refl|] end).
    match goal with |- context [on_file (createKey _ ?a ?b ?c ?x) _] =>
      pose proof (with_keys_obeys CreateKey w w (createKey sha256 a b c x) (Create a b c x) (reflexivity w) (fun _ => eq_refl)) as Ho end.
    destruct (on_file _ _) as [[[k s]|er] f]; cbn [snd] in *; [|by apply Ho].
    assert (obeys CreateKey w (with_keys f w)) as [Hm Hf]; [by apply Ho|by split].
  - apply dual_obeys; [done|]. intros Hs w1 Hc. pose proof (with_keys_obeys (RevokeKey i) w1 w (revokeKey i) (Revoke i) Hc (fun _ => eq_refl)) as Ho.
    destruct (on_file _ _) as [b f]; cbn [snd] in *. by apply Ho.
  - by apply suspend_obeys.
  - unfold role_PUT, with_body. destruct (body req) as [b|]; [|apply obeys_refl]. destruct (member "role" b) as [[| | |s| |]|]; try apply obeys_refl.
    cbn zeta. destruct (assoc _ _) eqn:Ea; [|apply obeys_refl]. apply edit_obeys with (e := SetRole i (to_lower (trim s))); [done|]. split; [|done]. split; [done|]. by rewrite Ea.
  - unfold label_PUT, with_body. destruct (body req) as [b|]; [|apply obeys_refl]. destruct (member "label" b) as [[| | |s| |]|]; try apply obeys_refl.
    apply edit_obeys with (e := SetLabel i s); [done|]. done.
  - unfold expiry_PUT, with_body. destruct (body req) as [b|]; [|apply obeys_refl].
    destruct (match member "expires_at" b with Some _ => _ | None => _ end) as [e|]; [|apply obeys_refl]. apply edit_obeys with (e := SetExpiry (d_op d 0%nat) i e); [done|]. done.
  - unfold ips_PUT, with_body. destruct (body req) as [b|]; [|apply obeys_refl].
    destruct (IpMatch.canonicalizeCidrList _) as [l|] eqn:El; [|apply obeys_refl]. apply edit_obeys with (e := SetIps i l); [done|]. split; [|done]. split; [done|]. by eexists.
  - unfold routes_PUT, with_body. destruct (String.eqb i _); [apply obeys_refl|]. destruct (body req) as [b|]; [|apply obeys_refl].
    destruct (RouteAllowlist.canonicalizeRouteList _) as [l|] eqn:El; [|apply obeys_refl]. apply edit_obeys with (e := SetRoutes i l); [done|]. split; [|done]. split; [done|]. by eexists.
  - unfold rotate_POST. destruct (bad_grace _ _); [apply obeys_refl|].
    pose proof (with_keys_obeys (Rotate_ i) w w (rotateKey sha256 (d_op d 0%nat) i (d_secret d)) (Rotate (d_op d 0%nat) i (d_secret d)) (reflexivity w) (fun _ => eq_refl)) as Ho.
    destruct (on_file _ _) as [[[k s]|] f]; cbn [snd] in *; [|by apply Ho].
    assert (obeys (Rotate_ i) w (with_keys f w)) as [Hm Hf]; [by apply Ho|by split].
  - unfold rate_PUT, with_body. destruct (body req) as [b|]; [|apply obeys_refl]. destruct (no_object b); [apply obeys_refl|].
    destruct (number_or_null _) as [l|]; [|apply obeys_refl]. destruct (RateLimit.setLimitForKey _ _ _ _) as [r s]. split; [by left|done].
  - unfold quota_PUT, with_body. destruct (body req) as [b|]; [|apply obeys_refl]. destruct (no_object b); [apply obeys_refl|].
    destruct (number_or_null _) as [l|]; [|apply obeys_refl]. destruct (Monthly.setQuotaForKey _ _ _ _) as [r s]. split; [by left|done].
Qed.

(** An approval of this action on this key, that the caller requested, another
    administrator approved, and the request's token redeems in time. *)
Definition approved_for (action i : string) (caller : StoredKey) (s : DualControl.State) : Prop :=
  exists r, r ∈ DualControl.expireSweep (d_approval d 1%nat) s /\ DualControl.action r = action /\ DualControl.target r = i /\
    DualControl.requested_by r = id caller /\ DualControl.status r = DualControl.approved /\ DualControl.Lifecycle.approved_by_other r /\
    DualControl.approval_token_hash r = Some (DualControl.hashToken (default "" (headers req !! "x-approval-token"))) /\
    exists e, DualControl.approval_token_expires_at r = Some e /\ d_approval d 2%nat < e.

Lemma redeems_approved action i caller w : coherent (approvals w) -> DualControl.Lifecycle.reachable (view (approvals w)) ->
  redeems action i caller w -> approved_for action i caller (view (approvals w)).
Proof.
  intros Hc Hr (q & st & Hq). pose proof (f_equal fst Hq) as Hv. rewrite DualControl.consume_view in Hv by done.
  destruct (DualControl.consume_ok_inv _ _ _ _ Hv) as (n & r & Hl & Hh & Hs & He & Ha & Ht & Hb & _).
  pose proof (DualControl.Lifecycle.lookup_ok _ _ _ (DualControl.Lifecycle.sweep_state_ok (d_approval d 1%nat) _ (DualControl.Lifecycle.reachable_ok _ Hr)) Hl) as [_ Hok].
  rewrite Hs in Hok. exists r. split_and!; try done; [by eapply list_elem_of_lookup_2|apply Hok].
Qed.
End Request.

(** C37. In production nothing of the keys changes without an administrator: whatever
    the call and the request, the keys change by authentications of the
    caller's secret alone, and the limits and the feed do not, or the caller
    authenticated with the admin scope and, unless the call is a GET, passed the
    second factor; and then the keys changed by one operation more at most, the
    one the call names, on the key it names. A revocation or a suspension was in
    addition approved, for this caller, action and key, with another key than the
    caller's, by a token that came with the request, in time, unless the caller
    no longer authenticated when asked again. *)
Theorem key_management_guarded c req d w :
  production cfg = true -> coherent (approvals w) -> DualControl.Lifecycle.reachable (view (approvals w)) ->
  let w1 := snd (require_ req d (method_of c) w) in
  let w' := snd (serve_ req d c w) in
  let secret := extractKey (headers req) in
  (looked_up secret (keys_of w) (keys_of w') /\ minute w' = minute w /\ month w' = month w /\ feed w' = feed w) \/
  exists key, proven req d (method_of c) w key /\ framed c w w' /\
    (looked_up secret (keys_of w) (keys_of w') \/
     exists e ks, administers req d c e /\ looked_up secret (keys_of w) ks /\ looked_up secret (run sha256 e ks) (keys_of w') /\
       match destructive c e with
       | Some (action, i) =>
           match fst (authenticated_ req d 1 w1) with Some caller => approved_for req d action i caller (view (approvals w)) | None => True end
       | None => True
       end).
Proof.
  intros Hp Hc Hr. cbv zeta. destruct (require_spec req d (method_of c) w Hp) as [Hq Hk]. unfold serve, gated.
  destruct (require_ req d (method_of c) w) as [den w1]. cbn [fst snd] in *. destruct den as [[s x]|]; [left; by destruct Hq|].
  right. destruct (Hk eq_refl) as [key Hkey]. exists key. split; [done|].
  destruct (handle_obeys req d c w1 Hp) as [Hm Hf]. split; [eapply framed_trans; [by eapply calm_framed, quiet_calm|done]|].
  destruct (managed_l _ _ _ _ _ (q_keys _ _ _ Hq) Hm) as [Hl|(e & ks & [He Hd] & H1 & H2)]; [by left|right]. exists e, ks. split_and!; [done..|].
  destruct (destructive c e) as [[action i]|]; [|done]. unfold second_admin in Hd. destruct (fst (authenticated_ req d 1 w1)) as [caller|]; [|done].
  rewrite <- (q_approvals _ _ _ Hq) in Hc, Hr |- *. by apply redeems_approved.
Qed.

(** ** The answers of the edits *)

Definition target_of (c : call) : option string :=
  match c with
  | PutSuspend i | PutRole i | PutLabel i | PutExpiry i | PutIps i | PutRoutes i => Some i
  | _ => None
  end.

(** A transaction that answers a key has changed that key, in place. *)
Definition in_place (i : string) (tx : transaction keys (result (option StoredKey) KeyError)) : Prop :=
  forall ks k x, tx ks = (Ok (Some k), x) ->
    exists n k0, list_find (fun k => id k = i) ks = Some (n, k0) /\ revoked k0 = false /\ id k = i /\ x = Some (<[n := k]> ks).

Lemma on_key_in_place i f : (forall k0 k, f k0 = Ok k -> id k = id k0) -> in_place i (on_key i f).
Proof.
  intros Hf ks k x. unfold on_key. destruct (list_find _ ks) as [[n k0]|] eqn:E; [|done]. destruct (revoked k0) eqn:Er; [done|].
  destruct (f k0) as [k'|] eqn:Ef; [|done]. intros [= <- <-]. exists n, k0. apply list_find_lookup in E as Hi. destruct Hi as [_ Hi].
  split_and!; [done..| |done]. rewrite <- Hi. by apply Hf.
Qed.

(** The edits end with [edited], behind guards that only refuse. *)
Definition answers_edit (req : request) (d : draws) (c : call) (w : W) (r : reply * W) : Prop :=
  forall v, fst r = Key v ->
  exists e ks n k0 k, administers req d c e /\ looked_up (extractKey (headers req)) (keys_of w) ks /\
    ks !! n = Some k0 /\ target_of c = Some (id k0) /\ revoked k0 = false /\ id k = id k0 /\
    run sha256 e ks = <[n := k]> ks /\ looked_up (extractKey (headers req)) (<[n := k]> ks) (keys_of (snd r)) /\ v = publicView k (d_view d 0%nat).

Lemma tx_answers req d c i w w1 tx e k f line :
  target_of c = Some i -> calm req w w1 -> in_place i tx -> (forall ks, run sha256 e ks = after tx ks) -> administers req d c e ->
  on_file tx (keys_file w1) = (Ok (Some k), f) -> answers_edit req d c w (edited sha256 cfg req d k line (with_keys f w1)).
Proof.
  intros Ht Hc Hp He Ha Hf v Hv. unfold edited in Hv |- *. pose proof (authenticated_quiet req d 2 (with_keys f w1)) as Hq.
  destruct (authenticated_ req d 2 (with_keys f w1)) as [caller w2]. cbn [fst snd] in *. injection Hv as <-.
  pose proof Hf as Hw. unfold on_file in Hw. destruct (tx (keys_of w1)) as [r x] eqn:E. injection Hw as -> Hw.
  destruct (Hp _ _ _ E) as (n & k0 & Hl & Hr & Hi & ->). apply list_find_lookup in Hl as [Hl Hid].
  exists e, (keys_of w1), n, k0, k. split_and!; try done; [apply Hc|by rewrite Hid|congruence|by rewrite He; unfold after; rewrite E|].
  etrans; [|apply (q_keys _ _ _ Hq)]. cbn [with_keys keys_file]. by rewrite <- Hw.
Qed.

Lemma edit_answers req d c i fb tx line w e :
  target_of c = Some i -> in_place i tx -> (forall ks, run sha256 e ks = after tx ks) -> administers req d c e ->
  answers_edit req d c w (edit sha256 cfg req d i fb tx line w).
Proof.
  intros Ht Hp He Ha. unfold edit. destruct (getKey i _) as [k0|]; [|done]. destruct (revoked k0); [done|]. destruct (fb && _); [done|].
  destruct (on_file tx (keys_file w)) as [r f] eqn:E. destruct r as [[k|]|er]; [|done..]. by eapply tx_answers.
Qed.

Lemma suspend_answers req d i w : answers_edit req d (PutSuspend i) w (suspend_PUT sha256 cfg req d i w).
Proof.
  unfold suspend_PUT, with_body. destruct (body req) as [b|] eqn:Eb; [|done]. destruct (member "suspended" b) as [[|s| | | |]|] eqn:Es; try done.
  destruct (match member "reason" b with Some _ => _ | None => _ end) as [reason|]; [|done].
  destruct (getKey i _) as [k0|]; [|done]. destruct (revoked k0); [done|]. destruct (String.eqb_spec i "env-admin") as [|Hi]; [done|].
  assert (in_place i (setKeySuspended (d_op d 0%nat) i s reason)) as Hp.
  { unfold setKeySuspended. rewrite (proj2 (String.eqb_neq _ _) Hi). apply on_key_in_place. intros k1 k2. by destruct s; intros [= <-]. }
  assert (administers req d (PutSuspend i) (SetSuspended (d_op d 0%nat) i s reason)) as Ha by (split_and!; [done|done|by rewrite Eb]).
  assert (forall w1, calm req w w1 -> answers_edit req d (PutSuspend i) w
    (let '(r, f) := on_file (setKeySuspended (d_op d 0%nat) i s reason) (keys_file w1) in
     match r with
     | Ok (Some k) => edited sha256 cfg req d k ("suspend:" +:+ state_text (suspended k0) +:+ "->" +:+ state_text (suspended k)) (with_keys f w1)
     | _ => (Refused 404 "not_found", with_keys f w1)
     end)) as Hh.
  { intros w1 Hc. destruct (on_file _ (keys_file w1)) as [[[k|]|er] f] eqn:E; [|done..].
    by eapply (tx_answers req d (PutSuspend i) i w w1 _ (SetSuspended (d_op d 0%nat) i s reason)). }
  unfold dual_control. destruct (negb _); [by apply Hh|]. pose proof (quiet_calm _ _ _ (authenticated_quiet req d 1 w)) as Hc.
  destruct (authenticated_ req d 1 w) as [[k|] w1]; [|by apply Hh]. cbn zeta.
  destruct (negb _); [by destruct (DualControl.requestApproval _ _ _ _) as [[] ?]|]. destruct (DualControl.consumeApproval _ _ _) as [[] ?]; [|done].
  apply Hh. etrans; [exact Hc|done].
Qed.

(** The answer of an edit is what was stored: when a change of the role, the
    label, the expiry, an allowlist or the suspension answers with a key, the
    key it names was found first in the file and was not revoked, it was
    replaced in place by the operation of the call, every other key kept its
    place and its content, and the answer is the public view of the key as
    written. *)
Theorem key_edits_answer_what_is_stored req d c w : answers_edit req d c w (handle_ req d c w).
Proof.
  destruct c as [| |i|i|i|i|i|i|i|i|i|i|i|i|i|i|i|i|i|i| |]; cbn [handle]; try (by intros v); unfold suspend_GET, role_GET, expiry_GET, ips_GET, routes_GET;
    try (by destruct (getKey i _); intros v).
  - unfold keys_POST, with_body. destruct (body req) as [b|]; [|done]. cbn zeta.
    repeat (match goal with |- context [if ?x then (Refused _ _, _) else _] => destruct x; [done|] end). by destruct (on_file _ _) as [[[k s]|er] f].
  - unfold key_DELETE, dual_control. destruct (negb _); [by destruct (on_file _ _) as [[] f]|]. destruct (authenticated_ req d 1 w) as [[k|] w1]; cbn zeta.
    + destruct (negb _); [by destruct (DualControl.requestApproval _ _ _ _) as [[] ?]|]. destruct (DualControl.consumeApproval _ _ _) as [[] ?]; [|done].
      by destruct (on_file _ _) as [[] f].
    + by destruct (on_file _ _) as [[] f].
  - apply suspend_answers.
  - unfold role_PUT, with_body. destruct (body req) as [b|]; [|done]. destruct (member "role" b) as [[| | |s| |]|]; try done. cbn zeta.
    destruct (assoc _ _) eqn:Ea; [|done]. apply edit_answers with (i := i) (e := SetRole i (to_lower (trim s))); [done| |done|split; [done|by rewrite Ea]].
    unfold setKeyRole. rewrite Ea. destruct (String.eqb i _); [done|]. apply on_key_in_place. by intros k1 k2 [= <-].
  - unfold label_PUT, with_body. destruct (body req) as [b|]; [|done]. destruct (member "label" b) as [[| | |s| |]|]; try done.
    apply edit_answers with (i := i) (e := SetLabel i s); [done| |done|done]. unfold setKeyLabel. destruct (String.eqb i _); [done|]. cbn zeta.
    destruct (negb _); [done|]. apply on_key_in_place. by intros k1 k2 [= <-].
  - unfold expiry_PUT, with_body. destruct (body req) as [b|]; [|done].
    destruct (match member "expires_at" b with Some _ => _ | None => _ end) as [e|]; [|done].
    apply edit_answers with (i := i) (e := SetExpiry (d_op d 0%nat) i e); [done| |done|done]. unfold setKeyExpiry. destruct (String.eqb i _); [done|].
    apply on_key_in_place. intros k0 k. destruct e as [e|]; [|by intros [= <-]]. case_bool_decide; [by intros [= <-]|].
    destruct (future_expiry _ e); [by intros [= <-]|done].
  - unfold ips_PUT, with_body. destruct (body req) as [b|]; [|done]. destruct (IpMatch.canonicalizeCidrList _) as [l|] eqn:El; [|done].
    apply edit_answers with (i := i) (e := SetIps i l); [done| |done|split; [done|by eexists]]. apply on_key_in_place. by intros k1 k2 [= <-].
  - unfold routes_PUT, with_body. destruct (String.eqb_spec i "env-admin") as [|Hi]; [done|]. destruct (body req) as [b|]; [|done].
    destruct (RouteAllowlist.canonicalizeRouteList _) as [l|] eqn:El; [|done].
    apply edit_answers with (i := i) (e := SetRoutes i l); [done| |done|split; [done|by eexists]].
    unfold setKeyRouteAllowlist. rewrite (proj2 (String.eqb_neq _ _) Hi). apply on_key_in_place. by intros k1 k2 [= <-].
  - unfold rotate_POST. destruct (bad_grace _ _); [done|]. by destruct (on_file _ _) as [[[k s]|] f].
  - unfold rate_PUT, with_body. destruct (body req) as [b|]; [|done]. destruct (no_object b); [done|].
    destruct (number_or_null _) as [l|]; [|done]. by destruct (RateLimit.setLimitForKey _ _ _ _) as [[] s].
  - unfold quota_PUT, with_body. destruct (body req) as [b|]; [|done]. destruct (no_object b); [done|].
    destruct (number_or_null _) as [l|]; [|done]. by destruct (Monthly.setQuotaForKey _ _ _ _) as [[] s].
  - unfold expiring_GET. by destruct (window_days _ _ _).
  - unfold dormant_GET. by destruct (window_days _ _ _).
Qed.

(** When the second authentication fails, the action goes on without approval. *)
Lemma dual_control_skipped req d action i why h w :
  fst (authenticated_ req d 1 w) = None -> dual_ req d action i why h w = h (if production cfg then snd (authenticated_ req d 1 w) else w).
Proof. intros Hn. unfold dual_control. destruct (production cfg); [|done]. cbn [negb]. destruct (authenticated_ req d 1 w) as [k w1]. cbn in Hn. by subst. Qed.
End Proofs.

(** ** An administrator, a key, and an approval of its revocation *)

Section Demo.
Definition demo_sha (s : string) : string := "#" +:+ s.
Definition demo_cfg : settings := {| adminEnv := Some "root-secret"; seat_limit := None; DEFAULT_PER_MINUTE := 60; DEFAULT_MONTHLY_QUOTA := 0 |}.
Definition demo_alice : StoredKey := with_role owner (new_key demo_sha "alice" "sc_live_a" "ops" [read] 0 (Some (Iso 6000))).
Definition demo_bot : StoredKey := new_key demo_sha "key_abc" "sc_live_b" "bot" [trade] 0 None.
Definition demo_world (s : store DualControl.State) : world (L := LockoutConfig * file AuthLockout.State) :=
  World (L := LockoutConfig * file AuthLockout.State) (write_file [demo_alice; demo_bot]) (DEFAULT_CONFIG, None) s RateLimit.empty Monthly.empty [] None
    (MfaGate.World None []).
Definition demo_draws (first then_ : Z) : draws :=
  {| d_auth := fun n => match n with O => DualControl.at_ first | _ => DualControl.at_ then_ end; d_mfa := first; d_approval := DualControl.at_ 2000;
     d_op := DualControl.at_ then_; d_view := fun _ => then_; d_event := then_; d_request_id := "apr_2"; d_key_id := "k9"; d_secret := "sc_live_n";
     d_event_id := "e1" |}.
Definition demo_request (token : string) : request :=
  {| headers := <["x-approval-token" := token]> {[ "x-api-key" := "sc_live_a" ]}; query := ∅; body := None |}.
Definition demo_delete (token : string) (d : draws) (s : store DualControl.State) :=
  serve demo_sha (fun _ _ => []) NotADate (fun _ => NaN) demo_cfg (demo_request token) d (RevokeKey "key_abc") (demo_world s).

(** With the token of the approval the key is revoked; without it, requested. *)
Example approved_revocation : fst (demo_delete "tok" (demo_draws 2000 2000) DualControl.demo_store) = Revoked.
Proof. vm_compute. reflexivity. Qed.
Example requested_revocation :
  match fst (demo_delete "" (demo_draws 2000 2000) (boot None)) with Pending r => DualControl.status r = DualControl.pending | _ => False end.
Proof. vm_compute. reflexivity. Qed.

(** The key of the caller lapses between the two authentications, and the other
    key is revoked although no one ever requested or approved it. *)
Lemma revoked_without_approval :
  let '(r, w) := demo_delete "" (demo_draws 5000 6000) (boot None) in
  r = Revoked /\ view (approvals w) = [] /\ revoked <$> read_file (keys_file w) = [false; true].
Proof. vm_compute. done. Qed.

Lemma key_management_guarded_witness :
  fst (demo_delete "tok" (demo_draws 2000 2000) DualControl.demo_store) = Revoked /\
  framed (RevokeKey "key_abc") (demo_world DualControl.demo_store) (snd (demo_delete "tok" (demo_draws 2000 2000) DualControl.demo_store)).
Proof.
  split; [vm_compute; reflexivity|].
  destruct (key_management_guarded demo_sha (fun _ _ => []) NotADate (fun _ => NaN) demo_cfg (RevokeKey "key_abc") (demo_request "tok")
    (demo_draws 2000 2000) (demo_world DualControl.demo_store) eq_refl DualControl.demo_store_coherent DualControl.demo_reachable)
    as [(_ & H1 & H2 & H3)|(key & _ & Hf & _)]; [exact (conj H1 (conj H2 H3))|exact Hf].
Defined.
End Demo.
