(* ===== verification/Metrics.v ===== *)
(** The metrics registry: [web/lib/metricsStore.ts] and the routes
    [web/app/metrics], [healthz] and [readyz]. Requests are counted per method,
    class of status
    and class of route, their durations in a histogram, and the whole is
    printed in the text format of Prometheus. Sums of seconds are doubles, in
    the interface [FloatOps]; their text, the memory figures and the versions
    are parameters. [classifyRoute] is modelled with the guard. *)
From stdpp Require Import pretty.
From S2P Require Import Prelude JsNum JsDate IsoTime Json.
From S2P Require Guard.

Abbreviation RouteClass := Guard.RouteClass.

Definition class_text (c : RouteClass) : string :=
  match c with
  | Guard.api_v1 => "api_v1" | Guard.api_admin => "api_admin" | Guard.api_other => "api_other" | Guard.page => "page"
  | Guard.asset => "asset" | Guard.health => "health" | Guard.metrics => "metrics"
  end.

Definition statusClass (status : Z) : string :=
  if 500 <=? status then "5xx" else if 400 <=? status then "4xx" else if 300 <=? status then "3xx" else if 200 <=? status then "2xx" else "1xx".

(** [counts] is not cumulative; [count] includes what no bucket holds. *)
Record Histogram := { h_counts : list Z; h_sum : num; h_count : Z }.

Record Store := { startedAt : Z; reqTotal : list (string * Z); reqInFlight : Z; reqHist : list (string * Histogram) }.

Definition BUCKETS_MS : list Z := [5; 10; 25; 50; 100; 250; 500; 1000; 2500; 5000; 10000].

Definition new_store (now : Z) : Store := {| startedAt := now; reqTotal := []; reqInFlight := 0; reqHist := [] |}.

Definition labelKey (method status_class : string) (route_class : RouteClass) : string :=
  method +:+ "|" +:+ status_class +:+ "|" +:+ class_text route_class.

Definition incInFlight (s : Store) : Store :=
  {| startedAt := startedAt s; reqTotal := reqTotal s; reqInFlight := reqInFlight s + 1; reqHist := reqHist s |}.
Definition decInFlight (s : Store) : Store :=
  {| startedAt := startedAt s; reqTotal := reqTotal s; reqInFlight := Z.max 0 (reqInFlight s - 1); reqHist := reqHist s |}.

Record Observation := { method : string; status : Z; route_class : RouteClass; durationMs : Z }.

Definition key_of (o : Observation) : string :=
  labelKey (to_upper (if truthy (method o) then method o else "GET")) (statusClass (status o)) (route_class o).

(** The first bucket that holds the duration is counted up. *)
Fixpoint place (d : Z) (buckets counts : list Z) : list Z :=
  match buckets, counts with
  | b :: bs, c :: cs => if d <=? b then (c + 1) :: cs else c :: place d bs cs
  | _, _ => counts
  end.

Section Registry.
Context `{FloatOps}.

Definition new_histogram : Histogram := {| h_counts := replicate (length BUCKETS_MS) 0; h_sum := int 0; h_count := 0 |}.

Definition add_duration (d : Z) (h : Histogram) : Histogram :=
  {| h_counts := place d BUCKETS_MS (h_counts h); h_sum := fadd (h_sum h) (fdiv (int d) (int 1000)); h_count := h_count h + 1 |}.

Definition observeRequest (o : Observation) (s : Store) : Store :=
  let k := key_of o in
  let h := default new_histogram (assoc k (reqHist s)) in
  {| startedAt := startedAt s; reqTotal := put k (default 0 (assoc k (reqTotal s)) + 1) (reqTotal s); reqInFlight := reqInFlight s;
     reqHist := put k (add_duration (Z.max 0 (durationMs o)) h) (reqHist s) |}.

(** ** The text *)

Definition BACKSLASH : Ascii.ascii := chr 92.
Definition QUOTE : Ascii.ascii := chr 34.
Definition NEWLINE : Ascii.ascii := chr 10.

Definition escape_char (c : Ascii.ascii) : string :=
  if Ascii.eqb c BACKSLASH then String BACKSLASH (String BACKSLASH "")
  else if Ascii.eqb c QUOTE then String BACKSLASH (String QUOTE "")
  else if Ascii.eqb c NEWLINE then String BACKSLASH "n"
  else String c "".

Fixpoint escapeLabel (v : string) : string := match v with "" => "" | String c r => escape_char c +:+ escapeLabel r end.

(** [k.split("|")], of which the first three pieces are used. *)
Definition parseKey (k : string) : string * string * string :=
  let p := split "|" k in (default "" (p !! 0%nat), default "" (p !! 1%nat), default "" (p !! 2%nat)).

Definition quoted (v : string) : string := String QUOTE (escapeLabel v) +:+ String QUOTE "".

Definition labels (k : string) : string :=
  let '(m, sc, rc) := parseKey k in
  "method=" +:+ quoted m +:+ ",status_class=" +:+ quoted sc +:+ ",route_class=" +:+ quoted rc.

(** [(ms / 1000).toFixed(3)] of a time that is not negative. *)
Definition seconds (ms : Z) : string := pretty (ms / 1000) +:+ "." +:+ pad 3 (ms mod 1000).

Definition total_line (k : string) (n : Z) : string := "signalclaw_http_requests_total{" +:+ labels k +:+ "} " +:+ pretty n.

Definition bucket_line (k le : string) (n : Z) : string :=
  "signalclaw_http_request_duration_seconds_bucket{" +:+ labels k +:+ ",le=" +:+ String QUOTE le +:+ String QUOTE "} " +:+ pretty n.

Fixpoint cumulate (cum : Z) (l : list Z) : list Z := match l with [] => [] | c :: r => (cum + c) :: cumulate (cum + c) r end.

(** [fixed6] is [x.toFixed(6)]. *)
Context (fixed6 : num -> string).

Definition sum_line (k : string) (x : num) : string := "signalclaw_http_request_duration_seconds_sum{" +:+ labels k +:+ "} " +:+ fixed6 x.
Definition count_line (k : string) (n : Z) : string := "signalclaw_http_request_duration_seconds_count{" +:+ labels k +:+ "} " +:+ pretty n.

Definition histogram_lines (k : string) (h : Histogram) : list string :=
  zip_with (fun b n => bucket_line k (seconds b) n) BUCKETS_MS (cumulate 0 (h_counts h)) ++
  [bucket_line k "+Inf" (h_count h); sum_line k (h_sum h); count_line k (h_count h)].

(** The process: version of the package and of node, memory in bytes. *)
Record process := { p_version : option string; node : string; rss : Z; heapUsed : Z }.

Definition process_lines (p : process) (now : Z) (s : Store) : list string :=
  let version := default "" (p_version p) in
  ["# HELP signalclaw_build_info Build metadata for the dashboard.";
   "# TYPE signalclaw_build_info gauge";
   "signalclaw_build_info{version=" +:+ quoted (if truthy version then version else "0.0.0") +:+ ",node=" +:+ quoted (node p) +:+ "} 1";
   "# HELP signalclaw_process_uptime_seconds Seconds since process start.";
   "# TYPE signalclaw_process_uptime_seconds gauge";
   "signalclaw_process_uptime_seconds " +:+ seconds (now - startedAt s);
   "# HELP signalclaw_process_resident_memory_bytes Resident set size in bytes.";
   "# TYPE signalclaw_process_resident_memory_bytes gauge";
   "signalclaw_process_resident_memory_bytes " +:+ pretty (rss p);
   "# HELP signalclaw_process_heap_used_bytes Heap used in bytes.";
   "# TYPE signalclaw_process_heap_used_bytes gauge";
   "signalclaw_process_heap_used_bytes " +:+ pretty (heapUsed p);
   "# HELP signalclaw_http_requests_in_flight In-flight HTTP requests.";
   "# TYPE signalclaw_http_requests_in_flight gauge";
   "signalclaw_http_requests_in_flight " +:+ pretty (reqInFlight s)].

Definition total_lines (s : Store) : list string :=
  ["# HELP signalclaw_http_requests_total HTTP requests served."; "# TYPE signalclaw_http_requests_total counter"] ++
  ((fun p => total_line p.1 p.2) <$> reqTotal s).

Definition duration_lines (s : Store) : list string :=
  ["# HELP signalclaw_http_request_duration_seconds HTTP request duration in seconds.";
   "# TYPE signalclaw_http_request_duration_seconds histogram"] ++
  concat ((fun p => histogram_lines p.1 p.2) <$> reqHist s).

Definition lines (p : process) (now : Z) (s : Store) : list string := process_lines p now s ++ total_lines s ++ duration_lines s.

Definition renderProm (p : process) (now : Z) (s : Store) : string :=
  join (String NEWLINE "") (lines p now s) +:+ String NEWLINE "".

(** The scrape, which is counted itself. The clock is read at the start, for
    the text and at the end. *)
Definition metrics_GET (p : process) (m : string) (clk : clock) (s : Store) : string * Store :=
  let s := incInFlight s in
  let text := renderProm p (clk 1%nat) s in
  (text, observeRequest {| method := m; status := 200; route_class := Guard.classifyRoute "/metrics"; durationMs := clk 2%nat - clk 0%nat |} (decInFlight s)).

(** ** The probes *)

(** A probe of the platform is counted as well; its status and body. *)
Definition probed (m path : string) (status : Z) (body : json) (clk : clock) (s : Store) : (Z * json) * Store :=
  ((status, body), observeRequest {| method := m; status := status; route_class := Guard.classifyRoute path; durationMs := clk 2%nat - clk 0%nat |}
                     (decInFlight (incInFlight s))).

(** [uptime] is rounded. *)
Definition healthz_GET (version : option string) (uptime : Z) (m : string) (clk : clock) (s : Store) : (Z * json) * Store :=
  probed m "/healthz" 200
    (JObj [("status", JStr "ok"); ("service", JStr "signalclaw-web");
           ("version", JStr (match version with Some v => if truthy v then v else "0.0.0" | None => "0.0.0" end));
           ("uptime_seconds", JNum (int uptime)); ("time", JStr (toISOString (clk 1%nat)))]) clk s.

(** [Err]: the data directory cannot be written, and why. *)
Definition checkDataDir (written : result () string) : bool * json :=
  match written with
  | Ok _ => (true, JObj [("name", JStr "data_dir_writable"); ("ok", JBool true)])
  | Err e => (false, JObj [("name", JStr "data_dir_writable"); ("ok", JBool false); ("detail", JStr e)])
  end.

Definition readyz_GET (written : result () string) (m : string) (clk : clock) (s : Store) : (Z * json) * Store :=
  let checks := [checkDataDir written] in
  let allOk := forallb fst checks in
  probed m "/readyz" (if allOk then 200 else 503)
    (JObj [("status", JStr (if allOk then "ready" else "not_ready")); ("service", JStr "signalclaw-web"); ("checks", JArr (snd <$> checks));
           ("time", JStr (toISOString (clk 1%nat)))]) clk s.

(** * What a scrape reports *)

Definition run_all (os : list Observation) (s : Store) : Store := fold_left (fun s o => observeRequest o s) os s.

(** The keys in the order they were first observed. *)
Definition add_key (ks : list string) (k : string) : list string := if bool_decide (k ∈ ks) then ks else ks ++ [k].
Definition seen (os : list Observation) : list string := fold_left add_key (key_of <$> os) [].

(** The durations observed for a key. *)
Definition durations (k : string) (os : list Observation) : list Z :=
  (fun o => Z.max 0 (durationMs o)) <$> filter (fun o => key_of o = k) os.

Definition within (b : Z) (ds : list Z) : Z := len (filter (fun d => d <= b) ds).
Definition total_seconds (ds : list Z) : num := fold_left (fun x d => fadd x (fdiv (int d) (int 1000))) ds (int 0).

Definition reference_lines (k : string) (ds : list Z) : list string :=
  ((fun b => bucket_line k (seconds b) (within b ds)) <$> BUCKETS_MS) ++
  [bucket_line k "+Inf" (len ds); sum_line k (total_seconds ds); count_line k (len ds)].

(** ** Maps that are functions of their keys *)

Definition tabulate {A} (f : string -> A) (ks : list string) : list (string * A) := (fun k => (k, f k)) <$> ks.

Lemma assoc_tabulate {A} (f : string -> A) ks k : assoc k (tabulate f ks) = if bool_decide (k ∈ ks) then Some (f k) else None.
Proof.
  induction ks as [|x ks IH]; [done|]. cbn. destruct (String.eqb_spec k x) as [->|Hn]; [by rewrite bool_decide_true by by left|].
  unfold tabulate in IH. rewrite IH. destruct (decide (k ∈ ks)) as [Hi|Hi]; [by rewrite !bool_decide_true by (try right; done)|].
  rewrite !bool_decide_false; [done|by intros [|]%elem_of_cons|done].
Qed.

Lemma set_assoc_tabulate {A} (f : string -> A) ks k v : NoDup ks -> k ∈ ks ->
  set_assoc k v (tabulate f ks) = tabulate (fun x => if String.eqb x k then v else f x) ks.
Proof.
  induction 1 as [|x ks Hx Hnd IH]; [by intros ?%elem_of_nil|]. intros Hk. cbn. destruct (String.eqb_spec k x) as [->|Hn].
  - rewrite String.eqb_refl. f_equal. apply list_fmap_ext. intros i y Hy. apply list_elem_of_lookup_2 in Hy.
    by rewrite (proj2 (String.eqb_neq y x)) by (intros ->; done).
  - rewrite (proj2 (String.eqb_neq x k)) by done. f_equal. apply IH. by apply elem_of_cons in Hk as [->|].
Qed.

Lemma put_tabulate {A} (f : string -> A) ks k v : NoDup ks ->
  put k v (tabulate f ks) = tabulate (fun x => if String.eqb x k then v else f x) (add_key ks k).
Proof.
  intros Hnd. unfold put, add_key. rewrite assoc_tabulate. case_bool_decide as Hk; [by apply set_assoc_tabulate|].
  unfold tabulate. rewrite fmap_app. cbn. rewrite String.eqb_refl. f_equal. apply list_fmap_ext. intros i y Hy. apply list_elem_of_lookup_2 in Hy.
  by rewrite (proj2 (String.eqb_neq y k)) by (intros ->; done).
Qed.

Lemma add_key_NoDup ks k : NoDup ks -> NoDup (add_key ks k).
Proof. intros Hnd. unfold add_key. case_bool_decide; [done|]. apply NoDup_app. split_and!; [done|by intros x Hx ->%list_elem_of_singleton|apply NoDup_singleton]. Qed.

Lemma add_key_elem ks k x : x ∈ add_key ks k <-> x ∈ ks \/ x = k.
Proof.
  unfold add_key. case_bool_decide as Hk; [split; [by left|by intros [| ->]]|]. by rewrite elem_of_app, list_elem_of_singleton.
Qed.

Lemma seen_snoc os o : seen (os ++ [o]) = add_key (seen os) (key_of o).
Proof. unfold seen. by rewrite fmap_app, fold_left_app. Qed.

Lemma seen_spec os : NoDup (seen os) /\ forall k, k ∈ seen os <-> exists o, o ∈ os /\ key_of o = k.
Proof.
  induction os as [|o os [IH1 IH2]] using rev_ind; [split; [constructor|intros k; split; [by intros ?%elem_of_nil|by intros (o & ?%elem_of_nil & _)]]|].
  rewrite seen_snoc. split; [by apply add_key_NoDup|]. intros k. rewrite add_key_elem, IH2. split.
  - intros [(x & Hx & <-)| ->]; [exists x|exists o]; (split; [|done]); apply elem_of_app; [by left|right; by apply list_elem_of_singleton].
  - intros (x & [Hx| ->%list_elem_of_singleton]%elem_of_app & <-); [left; by exists x|by right].
Qed.

Lemma durations_snoc k os o :
  durations k (os ++ [o]) = if String.eqb k (key_of o) then durations k os ++ [Z.max 0 (durationMs o)] else durations k os.
Proof.
  unfold durations. rewrite filter_app, fmap_app, filter_cons, filter_nil. destruct (String.eqb_spec k (key_of o)) as [->|Hn].
  - by rewrite decide_True.
  - rewrite decide_False by (intros E; by apply Hn). by rewrite app_nil_r.
Qed.

Lemma durations_unseen k os : k ∉ seen os -> durations k os = [].
Proof.
  intros Hk. unfold durations. assert (filter (fun o => key_of o = k) os = []) as ->; [|done].
  apply Forall_filter_nil || (destruct (filter (fun o => key_of o = k) os) as [|o l] eqn:E; [done|]).
  exfalso. apply Hk, seen_spec. exists o. assert (o ∈ filter (fun o => key_of o = k) os) as Ho by (rewrite E; by left).
  apply list_elem_of_filter in Ho. tauto.
Qed.

(** ** The registry is a table of the durations of its keys *)

Definition histogram_of (ds : list Z) : Histogram := fold_left (fun h d => add_duration d h) ds new_histogram.

Lemma histogram_fields ds : h_count (histogram_of ds) = len ds /\ h_sum (histogram_of ds) = total_seconds ds /\
  h_counts (histogram_of ds) = fold_left (fun cs d => place d BUCKETS_MS cs) ds (replicate (length BUCKETS_MS) 0).
Proof.
  unfold histogram_of, total_seconds. induction ds as [|d ds (H1 & H2 & H3)] using rev_ind; [done|].
  rewrite !fold_left_app. cbn [fold_left add_duration h_count h_sum h_counts]. rewrite H1, H2, H3. split_and!; [|done..]. unfold len. rewrite length_app. cbn. lia.
Qed.

Lemma run_table os now : let s := run_all os (new_store now) in
  reqTotal s = tabulate (fun k => len (durations k os)) (seen os) /\ reqHist s = tabulate (fun k => histogram_of (durations k os)) (seen os) /\
  startedAt s = now /\ reqInFlight s = 0.
Proof.
  induction os as [|o os (H1 & H2 & H3 & H4)] using rev_ind; [done|]. cbv zeta in *.
  assert (run_all (os ++ [o]) (new_store now) = observeRequest o (run_all os (new_store now))) as -> by (unfold run_all; by rewrite fold_left_app).
  destruct (seen_spec os) as [Hnd _].
  set (k := key_of o). assert (default 0 (assoc k (tabulate (fun k => len (durations k os)) (seen os))) = len (durations k os)) as E1.
  { rewrite assoc_tabulate. case_bool_decide as Hk; [done|]. by rewrite durations_unseen. }
  assert (default new_histogram (assoc k (tabulate (fun k => histogram_of (durations k os)) (seen os))) = histogram_of (durations k os)) as E2.
  { rewrite assoc_tabulate. case_bool_decide as Hk; [done|]. by rewrite durations_unseen. }
  unfold observeRequest. fold k. cbn [reqTotal reqHist startedAt reqInFlight]. rewrite H1, H2, E1, E2, !put_tabulate, seen_snoc by done.
  split_and!; [| |done..]; apply list_fmap_ext; intros i x _; rewrite durations_snoc; fold k; destruct (String.eqb_spec x k) as [->|]; try done.
  - unfold len. rewrite length_app. cbn. f_equal. lia.
  - unfold histogram_of. by rewrite fold_left_app.
Qed.

(** Probes are requests like others: the gauge is what it was, and the registry
    has one more request of the class [health], with the status that is answered.
    Readiness is 200 exactly when the data directory can be written, liveness
    always. *)
Theorem probes_are_counted written version uptime m clk s :
  0 <= reqInFlight s ->
  let '((st, _), s') := readyz_GET written m clk s in
  let '((st2, _), s2) := healthz_GET version uptime m clk s in
  (st = 200 /\ (exists u, written = Ok u) \/ st = 503 /\ exists e, written = Err e) /\ st2 = 200 /\
  let o n := {| method := m; status := n; route_class := Guard.health; durationMs := clk 2%nat - clk 0%nat |} in
  s' = run_all [o st] s /\ s2 = run_all [o 200] s.
Proof.
  intros Hg. unfold readyz_GET, healthz_GET, probed. cbn [run_all fold_left].
  assert (decInFlight (incInFlight s) = s) as ->.
  { destruct s as [a b g h]. unfold decInFlight, incInFlight. cbn in *. f_equal. lia. }
  destruct written as [u|e]; cbn [checkDataDir forallb fst andb]; (split_and!; [|done..]); [left|right]; by eauto.
Qed.

(** ** The printed buckets *)

Lemma place_length d bs cs : length (place d bs cs) = length cs.
Proof. revert cs. induction bs as [|b bs IH]; intros [|c cs]; try done. cbn. destruct (d <=? b); cbn; [done|by rewrite IH]. Qed.

Lemma cumulate_length a l : length (cumulate a l) = length l.
Proof. revert a. induction l as [|c l IH]; intros a; [done|]. cbn. by rewrite IH. Qed.

Lemma cumulate_shift a l : cumulate (a + 1) l = Z.succ <$> cumulate a l.
Proof. revert a. induction l as [|c l IH]; intros a; [done|]. cbn. rewrite <- IH. f_equal; [lia|f_equal; lia]. Qed.

(** One more duration counts in every bucket that can hold it. *)
Lemma cumulate_place d a bs cs : StronglySorted Z.le bs -> length cs = length bs ->
  cumulate a (place d bs cs) = zip_with (fun b n => n + if d <=? b then 1 else 0) bs (cumulate a cs).
Proof.
  intros Hs. revert a cs. induction Hs as [|b bs Hs IH Hb]; intros a [|c cs] Hl; try done. cbn in Hl. injection Hl as Hl. cbn [place].
  destruct (Z.leb_spec d b) as [Hd|Hd]; cbn [cumulate zip_with].
  - rewrite (proj2 (Z.leb_le _ _)) by done. f_equal; [lia|]. replace (a + (c + 1)) with (a + c + 1) by lia. rewrite cumulate_shift.
    assert (length (cumulate (a + c) cs) = length bs) as Hlc by (by rewrite cumulate_length).
    clear IH Hl Hs. revert Hlc. generalize (cumulate (a + c) cs) as l. induction Hb as [|x bs Hx Hb IH]; intros [|y l] Hlc; try done. cbn.
    rewrite (proj2 (Z.leb_le d x)) by lia. f_equal. apply IH. by injection Hlc.
  - rewrite (proj2 (Z.leb_gt _ _)) by done. f_equal; [lia|by apply IH].
Qed.

Lemma buckets_sorted : StronglySorted Z.le BUCKETS_MS.
Proof. unfold BUCKETS_MS. repeat constructor; done. Qed.

Lemma within_snoc b ds d : within b (ds ++ [d]) = within b ds + if d <=? b then 1 else 0.
Proof.
  unfold within, len. rewrite filter_app, length_app, filter_cons, filter_nil. destruct (Z.leb_spec d b).
  - rewrite decide_True by done. cbn. lia.
  - rewrite decide_False by lia. cbn. lia.
Qed.

Lemma cumulate_counts ds : cumulate 0 (h_counts (histogram_of ds)) = (fun b => within b ds) <$> BUCKETS_MS.
Proof.
  rewrite (proj2 (proj2 (histogram_fields ds))). induction ds as [|d ds IH] using rev_ind; [done|]. rewrite fold_left_app. cbn [fold_left].
  assert (length (fold_left (fun cs d => place d BUCKETS_MS cs) ds (replicate (length BUCKETS_MS) 0)) = length BUCKETS_MS) as Hl.
  { clear IH. induction ds as [|x ds IH] using rev_ind; [done|]. rewrite fold_left_app. cbn [fold_left]. by rewrite place_length. }
  rewrite cumulate_place, IH by (done || apply buckets_sorted). generalize BUCKETS_MS as bs. induction bs as [|b bs IHb]; [done|].
  cbn. by rewrite IHb, within_snoc.
Qed.

Lemma histogram_lines_reference k ds : histogram_lines k (histogram_of ds) = reference_lines k ds.
Proof.
  unfold histogram_lines, reference_lines. rewrite cumulate_counts. destruct (histogram_fields ds) as (-> & -> & _). by f_equal.
Qed.

(** A scrape reports what happened: after any requests, whatever their
    methods, statuses and durations, there is one series for every combination
    of labels that occurred, in the order of first occurrence; its counter is the
    number of its requests, each bucket the number of those that took at most
    its bound, the last bucket and the count all of them, and the sum the sum of
    their seconds in order. *)
Theorem scrape_reports_requests os now :
  let s := run_all os (new_store now) in
  NoDup (seen os) /\ (forall k, k ∈ seen os <-> exists o, o ∈ os /\ key_of o = k) /\
  drop 2 (total_lines s) = (fun k => total_line k (len (durations k os))) <$> seen os /\
  drop 2 (duration_lines s) = concat ((fun k => reference_lines k (durations k os)) <$> seen os).
Proof.
  destruct (seen_spec os) as [Hnd Hin]. destruct (run_table os now) as (H1 & H2 & _). split_and!; [done|done|..].
  - transitivity ((fun p => total_line p.1 p.2) <$> reqTotal (run_all os (new_store now))); [done|]. rewrite H1. unfold tabulate. by rewrite <- list_fmap_compose.
  - transitivity (concat ((fun p => histogram_lines p.1 p.2) <$> reqHist (run_all os (new_store now)))); [done|]. rewrite H2. unfold tabulate. rewrite <- list_fmap_compose. f_equal. apply list_fmap_ext. intros i k _. apply histogram_lines_reference.
Qed.

(** ** Reading the text back *)

(** The value of a label up to the closing quote, and the rest. *)
Fixpoint read_label (s : string) : option (string * string) :=
  match s with
  | "" => None
  | String c r =>
      if Ascii.eqb c QUOTE then Some ("", r)
      else if Ascii.eqb c BACKSLASH then
        match r with
        | String e r' => match read_label r' with
                         | Some (v, rest) => Some (String (if Ascii.eqb e "n" then NEWLINE else e) v, rest)
                         | None => None
                         end
        | "" => None
        end
      else match read_label r with Some (v, rest) => Some (String c v, rest) | None => None end
  end.

Lemma read_label_escape e s :
  read_label (String BACKSLASH (String e s)) =
  match read_label s with Some (v, rest) => Some (String (if Ascii.eqb e "n" then NEWLINE else e) v, rest) | None => None end.
Proof. done. Qed.

Lemma read_escaped v rest : read_label (escapeLabel v +:+ String QUOTE rest) = Some (v, rest).
Proof.
  induction v as [|c v IH]; [done|]. cbn [escapeLabel]. rewrite str_app_assoc. set (t := escapeLabel v +:+ String QUOTE rest) in *. unfold escape_char.
  destruct (Ascii.eqb_spec c BACKSLASH) as [->|Hb]; [|destruct (Ascii.eqb_spec c QUOTE) as [->|Hq]; [|destruct (Ascii.eqb_spec c NEWLINE) as [->|Hn]]].
  - change (read_label (String BACKSLASH (String BACKSLASH t)) = Some (String BACKSLASH v, rest)). by rewrite read_label_escape, IH.
  - change (read_label (String BACKSLASH (String QUOTE t)) = Some (String QUOTE v, rest)). by rewrite read_label_escape, IH.
  - change (read_label (String BACKSLASH (String "n" t)) = Some (String NEWLINE v, rest)). by rewrite read_label_escape, IH.
  - change (read_label (String c t) = Some (String c v, rest)). cbn [read_label].
    by rewrite (proj2 (Ascii.eqb_neq _ _) Hq), (proj2 (Ascii.eqb_neq _ _) Hb), IH.
Qed.

Definition one_line : string -> bool := str_forall (fun c => negb (Ascii.eqb NEWLINE c)).

Lemma one_line_app a b : one_line (a +:+ b) = one_line a && one_line b.
Proof. apply str_forall_app. Qed.
Lemma one_line_cons c s : one_line (String c s) = negb (Ascii.eqb NEWLINE c) && one_line s.
Proof. done. Qed.

Lemma escaped_one_line v : one_line (escapeLabel v) = true.
Proof.
  unfold one_line. induction v as [|c v IH]; [done|]. cbn [escapeLabel]. rewrite str_forall_app, IH, andb_true_r. unfold escape_char.
  destruct (Ascii.eqb c BACKSLASH); [done|]. destruct (Ascii.eqb c QUOTE); [done|]. destruct (Ascii.eqb_spec c NEWLINE) as [|Hn]; [done|].
  cbn [str_forall]. rewrite andb_true_r. apply negb_true_iff, Ascii.eqb_neq. congruence.
Qed.

Lemma pretty_N_char_line n : (n < 10)%N -> negb (Ascii.eqb NEWLINE (pretty_N_char n)) = true.
Proof. intros Hn. rewrite pretty_digit by done. assert (exists z, 0 <= z < 10 /\ Z.of_N n = z) as (z & Hz & ->) by (exists (Z.of_N n); lia).
  assert (z = 0 \/ z = 1 \/ z = 2 \/ z = 3 \/ z = 4 \/ z = 5 \/ z = 6 \/ z = 7 \/ z = 8 \/ z = 9) as Hc by lia.
  by destruct Hc as [->|[->|[->|[->|[->|[->|[->|[->|[->| ->]]]]]]]]].
Qed.

Lemma pretty_one_line (z : Z) : one_line (pretty z) = true.
Proof.
  assert (forall n s, one_line s = true -> one_line (pretty_N_go n s) = true) as Hgo.
  { induction n as [n IH] using (well_founded_ind N.lt_wf_0). intros s Hs. destruct (decide (0 < n)%N) as [Hp|Hp].
    - rewrite pretty_N_go_step by done. apply IH; [by apply N.div_lt|]. unfold one_line in *. cbn [str_forall]. rewrite Hs, andb_true_r.
      apply pretty_N_char_line, N.mod_lt. lia.
    - replace n with 0%N by lia. by rewrite pretty_N_go_0. }
  assert (forall n : N, one_line (pretty n) = true) as Hn.
  { intros n. unfold pretty, pretty_N. case_decide; [done|by apply Hgo]. }
  destruct z as [|p|p]; [done|apply Hn|]. change (pretty (Z.neg p)) with ("-" +:+ pretty (N.pos p)). unfold one_line. rewrite str_forall_app. by rewrite (Hn _).
Qed.

Lemma pad_one_line k n : 0 <= n < 10 ^ Z.of_nat k -> one_line (pad k n) = true.
Proof.
  revert n. induction k as [|k IH]; intros n Hn; [done|]. cbn [pad]. unfold one_line in *. cbn [str_forall].
  rewrite Nat2Z.inj_succ, Z.pow_succ_r in Hn by lia. assert (0 < 10 ^ Z.of_nat k) as Hp by (apply Z.pow_pos_nonneg; lia).
  rewrite IH, andb_true_r by (by apply Z.mod_pos_bound).
  assert (0 <= n / 10 ^ Z.of_nat k < 10) as Hz by (split; [apply Z.div_pos; lia|apply Z.div_lt_upper_bound; lia]).
  rewrite <- (Z2N.id (n / _)), <- pretty_digit by lia. apply pretty_N_char_line. lia.
Qed.

Lemma seconds_one_line ms : one_line (seconds ms) = true.
Proof. unfold seconds. rewrite !one_line_app, pretty_one_line, pad_one_line; [done|]. by apply Z.mod_pos_bound. Qed.

Lemma quoted_one_line v : one_line (quoted v) = true.
Proof. unfold quoted. by rewrite one_line_app, one_line_cons, escaped_one_line. Qed.

Lemma labels_one_line k : one_line (labels k) = true.
Proof. unfold labels. destruct (parseKey k) as [[m sc] rc]. by rewrite !one_line_app, !quoted_one_line. Qed.

Lemma bucket_one_line k le n : one_line le = true -> one_line (bucket_line k le n) = true.
Proof. intros Hle. unfold bucket_line. by rewrite !one_line_app, !one_line_cons, labels_one_line, Hle, pretty_one_line. Qed.

Lemma histogram_one_line k h : (forall x, one_line (fixed6 x) = true) -> Forall (fun l => one_line l = true) (histogram_lines k h).
Proof.
  intros Hf. unfold histogram_lines. apply Forall_app. split.
  - generalize (cumulate 0 (h_counts h)) as l. generalize BUCKETS_MS as bs. induction bs as [|b bs IH]; intros [|n l]; constructor; [|apply IH].
    apply bucket_one_line, seconds_one_line.
  - rewrite !Forall_cons. split_and!; [by apply bucket_one_line|unfold sum_line|unfold count_line|done];
      rewrite !one_line_app, (labels_one_line k), ?Hf, ?pretty_one_line; done.
Qed.

Lemma join_snoc_empty sep l : l <> [] -> join sep (l ++ [""]) = join sep l +:+ sep.
Proof.
  induction l as [|x l IH]; [done|]. intros _. destruct l as [|y l].
  - cbn. by rewrite str_app_nil.
  - change (join sep ((x :: y :: l) ++ [""])) with (x +:+ sep +:+ join sep ((y :: l) ++ [""])). rewrite IH by done.
    change (join sep (x :: y :: l)) with (x +:+ sep +:+ join sep (y :: l)). by rewrite !str_app_assoc.
Qed.

Lemma upper_no_bar s : no_char "|"%char s = true -> no_char "|"%char (to_upper s) = true.
Proof.
  unfold no_char, to_upper. induction s as [|c s IH]; [done|]. cbn [str_forall str_map]. intros [Hc Hs]%andb_prop. rewrite IH, andb_true_r by done.
  revert Hc. clear. destruct c as [[] [] [] [] [] [] [] []]; vm_compute; done.
Qed.

Lemma lines_one_line p now s : (forall x, one_line (fixed6 x) = true) -> Forall (fun l => one_line l = true) (lines p now s).
Proof.
  intros Hf. unfold lines. rewrite !Forall_app. split_and!.
  - unfold process_lines. rewrite !Forall_cons. split_and!; rewrite ?one_line_app, ?quoted_one_line, ?seconds_one_line, ?pretty_one_line; done.
  - unfold total_lines. apply Forall_app. split; [by rewrite !Forall_cons|]. apply Forall_fmap, Forall_true. intros [k n].
    change (one_line (total_line k n) = true). unfold total_line.
    by rewrite !one_line_app, labels_one_line, pretty_one_line.
  - unfold duration_lines. apply Forall_app. split; [by rewrite !Forall_cons|]. induction (reqHist s) as [|[k h] l IH]; [constructor|].
    cbn. apply Forall_app. split; [by apply histogram_one_line|done].
Qed.

(** The text can be read back whatever the labels contain: cut at its line
    ends it is the lines that were printed, one series each; a quoted label is
    read as the value it was made of; and the labels of a series are those of
    its requests when no method contains a bar. *)
Theorem exposition_reads_back p now s o v rest :
  (forall x, one_line (fixed6 x) = true) -> no_char "|"%char (method o) = true ->
  split (String NEWLINE "") (renderProm p now s) = lines p now s ++ [""] /\
  read_label (escapeLabel v +:+ String QUOTE rest) = Some (v, rest) /\
  parseKey (key_of o) = (to_upper (if truthy (method o) then method o else "GET"), statusClass (status o), class_text (route_class o)).
Proof.
  intros Hf Hm. split_and!; [|apply read_escaped|].
  - unfold renderProm. rewrite <- (join_snoc_empty (String NEWLINE "")) by (by unfold lines).
    apply split_join; [by destruct (lines p now s)|]. apply Forall_app. split; [by apply lines_one_line|by constructor].
  - unfold parseKey, key_of, labelKey. set (m := to_upper _).
    assert (split "|" (m +:+ "|" +:+ statusClass (status o) +:+ "|" +:+ class_text (route_class o)) = [m; statusClass (status o); class_text (route_class o)]) as ->; [|done].
    transitivity (split "|" (join "|" [m; statusClass (status o); class_text (route_class o)])); [done|].
    apply (split_join "|"%char); [done|]. rewrite !Forall_cons. split_and!; [| | |done].
    + unfold m. apply upper_no_bar. by destruct (truthy (method o)).
    + unfold statusClass. by repeat case_match.
    + by destruct (route_class o).
Qed.
End Registry.

(** ** Three requests *)

Section Demo.
Definition demo_floats : FloatOps :=
  {| fadd a b := match a, b with Fin p, Fin q => Fin (QArith_base.Qplus p q) | _, _ => NaN end; fsub a _ := a; fmul a _ := a;
     fdiv a b := match a, b with Fin p, Fin q => Fin (QArith_base.Qdiv p q) | _, _ => NaN end; toFixed _ a := a |}.
#[local] Existing Instance demo_floats.
Definition demo_fixed (x : num) : string := pretty (floorZ x) +:+ ".000000".
Definition demo_observed (m : string) (st ms : Z) : Observation := {| method := m; status := st; route_class := Guard.api_v1; durationMs := ms |}.
Definition demo_requests : list Observation := [demo_observed "get" 200 7; demo_observed "POST" 429 2; demo_observed "GET" 204 12000].

Example demo_scrape :
  drop 2 (total_lines (run_all demo_requests (new_store 0))) =
    (fun p => total_line p.1 p.2) <$> [("GET|2xx|api_v1", 2); ("POST|4xx|api_v1", 1)] /\
  within 10 (durations "GET|2xx|api_v1" demo_requests) = 1.
Proof. vm_compute. done. Qed.

Lemma exposition_reads_back_witness :
  parseKey (key_of (demo_observed "get" 200 7)) = ("GET", "2xx", "api_v1").
Proof.
  assert (forall x, one_line (demo_fixed x) = true) as Hf by (intros x; unfold demo_fixed; by rewrite one_line_app, pretty_one_line).
  destruct (exposition_reads_back demo_fixed {| p_version := None; node := "v22"; rss := 1; heapUsed := 1 |} 0 (new_store 0)
    (demo_observed "get" 200 7) "x" "" Hf eq_refl) as (_ & _ & E). exact E.
Defined.

Lemma probes_are_counted_witness :
  let '((st, _), s') := readyz_GET (Err "read-only") "GET" (fun _ => 0) (new_store 0) in st = 503 /\ s' = run_all [{| method := "GET"; status := st; route_class := Guard.health; durationMs := 0 |}] (new_store 0).
Proof.
  pose proof (probes_are_counted (Err "read-only") None 5 "GET" (fun _ => 0) (new_store 0) ltac:(vm_compute; discriminate)) as Hp.
  destruct (readyz_GET _ _ _ _) as [[st b] s']. destruct (healthz_GET _ _ _ _ _) as [[st2 b2] s2]. destruct Hp as (Hs & _ & Ho & _). split; [|exact Ho].
  destruct Hs as [[_ [u Hu]]|[Hs _]]; [discriminate Hu|exact Hs].
Defined.
End Demo.
