(* ===== verification/ListViews.v ===== *)
(** The lists of the pages: [web/lib/alertSort.ts], [alertFilter.ts],
    [watchlistSort.ts] and [watchlistDistance.ts]. The rows are those the pages
    receive. [Date.parse] and [parseFloat] of their texts are parameters, and
    percentages are doubles, in the interface [FloatOps].

    The comparators are put together from a few combinators; the class
    [Comparator] says what makes one consistent, and its instances show it of
    every composition. *)
From Stdlib Require QArith.
From S2P Require Import Prelude JsNum JsDate IsoTime Json.
Import QArith_base(Q).

(** ** Consistent comparators *)

Class Comparator {A} (c : A -> A -> Z) := {
  c_flip x y : Z.sgn (c y x) = - Z.sgn (c x y);
  c_trans x y z : c x y <= 0 -> c y z <= 0 -> c x z <= 0;
}.

Section Comparator.
Context {A : Type} (c : A -> A -> Z) `{!Comparator c}.

Lemma c_pos x y : 0 < c x y <-> c y x < 0.
Proof using All. pose proof (c_flip x y). rewrite <- !Z.sgn_pos_iff, <- !Z.sgn_neg_iff. lia. Qed.

Lemma c_refl x : c x x = 0.
Proof using All. pose proof (c_flip x x). apply Z.sgn_null_iff. lia. Qed.

Lemma c_zero x y : c x y = 0 <-> c y x = 0.
Proof using All. pose proof (c_flip x y). rewrite <- (Z.sgn_null_iff (c x y)), <- (Z.sgn_null_iff (c y x)). lia. Qed.

Lemma c_lt_le x y z : c x y < 0 -> c y z <= 0 -> c x z < 0.
Proof using All.
  intros H1 H2. destruct (Z.lt_trichotomy (c x z) 0) as [|[H0|H0]]; [done|..]; exfalso.
  - apply c_zero in H0. assert (c y x <= 0) as Hy by (apply (c_trans y z x); lia). apply c_pos in H1. lia.
  - pose proof (c_trans x y z). lia.
Qed.

Lemma c_le_lt x y z : c x y <= 0 -> c y z < 0 -> c x z < 0.
Proof using All.
  intros H1 H2. destruct (Z.lt_trichotomy (c x z) 0) as [|[H0|H0]]; [done|..]; exfalso.
  - apply c_zero in H0. assert (c z y <= 0) as Hy by (apply (c_trans z x y); lia). apply c_pos in H2. lia.
  - pose proof (c_trans x y z). lia.
Qed.

Definition ordered : relation A := fun x y => c x y <= 0.

Lemma sorts l : StronglySorted ordered (js_sort c l).
Proof using All.
  apply js_sort_sorted_on with (P := fun _ => True); [intros x y z _ _ _; apply c_trans|unfold ordered; lia| |by apply Forall_true].
  intros x y _ _ Hxy. unfold ordered. pose proof (c_flip x y) as Hf. destruct (Z.sgn_spec (c x y)) as [[]|[[]|[]]]; destruct (Z.sgn_spec (c y x)) as [[]|[[]|[]]]; lia.
Qed.

(** The order of the input shows only in rows the comparator takes for equal. *)
Lemma sort_determined l l' : l ≡ₚ l' -> (forall x y, x ∈ l -> y ∈ l -> c x y = 0 -> x = y) -> js_sort c l = js_sort c l'.
Proof using All.
  intros Hp He. assert (js_sort c l ≡ₚ js_sort c l') as Hs by (by rewrite !js_sort_Permutation).
  assert (forall x y, x ∈ js_sort c l -> y ∈ js_sort c l -> c x y = 0 -> x = y) as Hd by (intros x y; rewrite !js_sort_elem; apply He).
  clear Hp He. pose proof (sorts l) as S1. pose proof (sorts l') as S2. revert S1 S2 Hs Hd. generalize (js_sort c l) as a, (js_sort c l') as b. clear l l'.
  induction a as [|x a IH]; intros b Sa Sb Hab Hd; [by apply Permutation_nil_l in Hab as ->|].
  destruct b as [|y b]; [by apply Permutation_nil_r in Hab|]. inversion_clear Sa as [|? ? Sa' Fa]. inversion_clear Sb as [|? ? Sb' Fb].
  assert (x = y) as ->.
  { assert (y ∈ x :: a) as Hy by (rewrite Hab; by left). assert (x ∈ y :: b) as Hx by (rewrite <- Hab; by left).
    apply elem_of_cons in Hy as [|Hy]; [done|]. apply elem_of_cons in Hx as [|Hx]; [done|]. apply Hd; [by left|by right|].
    rewrite Forall_forall in Fa, Fb. specialize (Fa y Hy). specialize (Fb x Hx). unfold ordered in *. pose proof (c_pos y x). lia. }
  f_equal. apply IH; [done|done|by apply Permutation_cons_inv in Hab|]. intros u v Hu Hv. apply Hd; by right.
Qed.
End Comparator.

(** ** Combinators *)

Definition then_by {A} (c1 c2 : A -> A -> Z) (a b : A) : Z := let p := c1 a b in if negb (p =? 0) then p else c2 a b.
Definition by_key {A B} (f : A -> B) (c : B -> B -> Z) (a b : A) : Z := c (f a) (f b).
Definition none_last {A} (c : A -> A -> Z) (a b : option A) : Z :=
  match a, b with None, None => 0 | None, _ => 1 | _, None => -1 | Some x, Some y => c x y end.
Definition directed {A} (sign : Z) (c : A -> A -> Z) (a b : A) : Z := c a b * sign.

#[export] Instance then_by_comparator {A} (c1 c2 : A -> A -> Z) : Comparator c1 -> Comparator c2 -> Comparator (then_by c1 c2).
Proof.
  intros H1 H2. split.
  - intros x y. unfold then_by. cbn zeta. pose proof (c_flip (c := c1) x y). pose proof (c_flip (c := c2) x y). pose proof (c_zero c1 x y) as Hz.
    destruct (Z.eqb_spec (c1 x y) 0), (Z.eqb_spec (c1 y x) 0); cbn [negb]; tauto.
  - intros x y z. unfold then_by. cbn zeta. destruct (Z.eqb_spec (c1 x y) 0) as [E1|E1], (Z.eqb_spec (c1 y z) 0) as [E2|E2]; cbn [negb]; intros Hxy Hyz.
    + assert (c1 x z = 0) as ->; [|cbn; by eapply c_trans]. pose proof (c_trans (c := c1) x y z). pose proof (c_trans (c := c1) z y x) as Hzx.
      pose proof (proj1 (c_zero c1 x y) E1). pose proof (proj1 (c_zero c1 y z) E2). pose proof (c_pos c1 z x). lia.
    + pose proof (c_le_lt c1 x y z ltac:(lia) ltac:(lia)). rewrite (proj2 (Z.eqb_neq _ _)) by lia. cbn. lia.
    + pose proof (c_lt_le c1 x y z ltac:(lia) ltac:(lia)). rewrite (proj2 (Z.eqb_neq _ _)) by lia. cbn. lia.
    + pose proof (c_lt_le c1 x y z ltac:(lia) ltac:(lia)). rewrite (proj2 (Z.eqb_neq _ _)) by lia. cbn. lia.
Qed.

#[export] Instance by_key_comparator {A B} (f : A -> B) (c : B -> B -> Z) : Comparator c -> Comparator (by_key f c).
Proof. intros H. split; intros; unfold by_key in *; [apply (c_flip (c := c))|by eapply (c_trans (c := c))]. Qed.

#[export] Instance none_last_comparator {A} (c : A -> A -> Z) : Comparator c -> Comparator (none_last c).
Proof.
  intros H. split; [intros [x|] [y|]; try done; apply (c_flip (c := c))|]. intros [x|] [y|] [z|]; cbn; try lia. apply (c_trans (c := c)).
Qed.

Lemma directed_comparator {A} (sign : Z) (c : A -> A -> Z) : sign = 1 \/ sign = -1 -> Comparator c -> Comparator (directed sign c).
Proof.
  intros Hs H. split.
  - intros x y. unfold directed. rewrite !Z.sgn_mul, (c_flip x y). lia.
  - intros x y z. unfold directed. pose proof (c_trans (c := c) x y z) as H1. pose proof (c_trans (c := c) z y x) as H2.
    pose proof (c_pos c x y). pose proof (c_pos c y z). pose proof (c_pos c x z). pose proof (c_pos c y x). pose proof (c_pos c z y). pose proof (c_pos c z x).
    destruct Hs as [-> | ->]; intros; [lia|]. pose proof (c_zero c x y). pose proof (c_zero c y z). pose proof (c_zero c x z). lia.
Qed.

(** [a < b ? -1 : a > b ? 1 : 0], the difference of integers, and the sign of
    the difference of two finite doubles. *)
Definition cmpStrings (a b : string) : Z := if str_lt a b then -1 else if str_lt b a then 1 else 0.
Definition cmp_int (a b : Z) : Z := a - b.
Definition cmp_finite (a b : Q) : Z := match QArith_base.Qcompare a b with Lt => -1 | Gt => 1 | Eq => 0 end.

#[export] Instance cmpStrings_comparator : Comparator cmpStrings.
Proof.
  split.
  - intros x y. unfold cmpStrings. destruct (str_lt x y) eqn:E; [by rewrite (str_lt_asym _ _ E)|]. by destruct (str_lt y x).
  - intros x y z. unfold cmpStrings. intros H1 H2.
    assert (str_lt y x = false) as E1 by (destruct (str_lt x y) eqn:E; [by apply str_lt_asym|by destruct (str_lt y x)]).
    assert (str_lt z y = false) as E2 by (destruct (str_lt y z) eqn:E; [by apply str_lt_asym|by destruct (str_lt z y)]).
    rewrite (str_le_trans z y x E2 E1). by destruct (str_lt x z).
Qed.

#[export] Instance cmp_int_comparator : Comparator cmp_int.
Proof. split; unfold cmp_int; intros; [|lia]. replace (y - x) with (- (x - y)) by lia. apply Z.sgn_opp. Qed.

#[export] Instance cmp_finite_comparator : Comparator cmp_finite.
Proof.
  split.
  - intros x y. unfold cmp_finite. rewrite <- (QArith_base.Qcompare_antisym x y). by destruct (QArith_base.Qcompare x y).
  - intros x y z. unfold cmp_finite. intros H1 H2.
    assert (QArith_base.Qle x y) as L1 by (apply QArith_base.Qle_alt; destruct (QArith_base.Qcompare x y); (discriminate || lia)).
    assert (QArith_base.Qle y z) as L2 by (apply QArith_base.Qle_alt; destruct (QArith_base.Qcompare y z); (discriminate || lia)).
    pose proof (QArith_base.Qle_trans _ _ _ L1 L2) as L3. apply (proj1 (QArith_base.Qle_alt x z)) in L3. destruct (QArith_base.Qcompare x z); (done || lia).
Qed.

Lemma cmpStrings_eq a b : cmpStrings a b = 0 -> a = b.
Proof.
  unfold cmpStrings, str_lt. revert b. induction a as [|c a IH]; intros [|d b]; try done. rewrite !ltb_cons. intros H.
  destruct (Z.lt_trichotomy (code c) (code d)) as [Hc|[Hc|Hc]].
  - rewrite (proj2 (Z.ltb_lt _ _) Hc) in H. done.
  - rewrite Hc, Z.ltb_irrefl, Z.eqb_refl in H. cbn in H. rewrite (IH b) by done. f_equal. by apply code_inj.
  - rewrite (proj2 (Z.ltb_ge (code c) (code d))), (proj2 (Z.eqb_neq (code c) (code d))), (proj2 (Z.ltb_lt _ _) Hc) in H by lia. done.
Qed.

(** ** Two comparators that agree, and filtering *)

Lemma sort_insert_ext {A} (c c' : A -> A -> Z) x l : (forall y, y ∈ l -> Z.sgn (c x y) = Z.sgn (c' x y)) -> sort_insert c x l = sort_insert c' x l.
Proof.
  induction l as [|y l IH]; intros He; [done|]. cbn. assert ((c x y <? 0) = (c' x y <? 0)) as ->.
  { pose proof (He y ltac:(by left)) as E. destruct (Z.ltb_spec (c x y) 0), (Z.ltb_spec (c' x y) 0); lia. }
  destruct (c' x y <? 0); [done|]. rewrite IH; [done|]. intros z Hz. apply He. by right.
Qed.

Lemma js_sort_ext_on {A} (c c' : A -> A -> Z) l : (forall x y, x ∈ l -> y ∈ l -> Z.sgn (c x y) = Z.sgn (c' x y)) -> js_sort c l = js_sort c' l.
Proof.
  induction l as [|x l IH] using rev_ind; intros He; [done|]. unfold js_sort in *. rewrite !fold_left_app. cbn [fold_left].
  rewrite IH by (intros a b Ha Hb; apply He; apply elem_of_app; by left). apply sort_insert_ext. intros y Hy.
  change (y ∈ js_sort c' l) in Hy. rewrite js_sort_elem in Hy. apply He; apply elem_of_app; [right; by apply list_elem_of_singleton|by left].
Qed.

Section Filter.
Context {A : Type} (c : A -> A -> Z) `{!Comparator c} (P : A -> Prop) `{forall x, Decision (P x)}.

Lemma sort_insert_first x l : Forall (fun y => c x y < 0) l -> sort_insert c x l = x :: l.
Proof using. intros Hl. destruct Hl as [|y l Hy _]; [done|]. cbn. by rewrite (proj2 (Z.ltb_lt _ _) Hy). Qed.

Lemma filter_sort_insert x l : StronglySorted (ordered c) l ->
  filter P (sort_insert c x l) = if decide (P x) then sort_insert c x (filter P l) else filter P l.
Proof using All.
  induction 1 as [|y l Hs IH Hy]; [cbn; by destruct (decide (P x))|]. cbn [sort_insert]. destruct (Z.ltb_spec (c x y) 0) as [Hxy|Hxy].
  - rewrite filter_cons. destruct (decide (P x)) as [Hx|Hx]; [|done]. symmetry. apply sort_insert_first.
    rewrite Forall_forall. intros z [_ Hz]%list_elem_of_filter. apply elem_of_cons in Hz as [->|Hz]; [done|]. rewrite Forall_forall in Hy.
    by eapply (c_lt_le c), Hy.
  - rewrite !filter_cons. rewrite IH. destruct (decide (P y)), (decide (P x)); try done. cbn. by rewrite (proj2 (Z.ltb_ge _ _) Hxy).
Qed.

(** Filtering the sorted rows is sorting the filtered ones. *)
Lemma filter_js_sort l : filter P (js_sort c l) = js_sort c (filter P l).
Proof using All.
  induction l as [|x l IH] using rev_ind; [done|]. rewrite filter_app, filter_cons, filter_nil.
  assert (js_sort c (l ++ [x]) = sort_insert c x (js_sort c l)) as -> by (unfold js_sort; by rewrite fold_left_app).
  rewrite filter_sort_insert, IH by by apply sorts. destruct (decide (P x)); [|by rewrite app_nil_r].
  unfold js_sort. by rewrite fold_left_app.
Qed.
End Filter.

(** Rows without a key come last. *)
Lemma none_last_split {A B} (f : A -> option B) (l : list A) : StronglySorted (fun x y => f x = None -> f y = None) l ->
  exists some none, l = some ++ none /\ Forall (fun x => is_Some (f x)) some /\ Forall (fun x => f x = None) none.
Proof.
  induction 1 as [|x l Hs (s & n & -> & H1 & H2) Hx]; [by exists [], []|]. destruct (f x) as [b|] eqn:E.
  - exists (x :: s), n. split_and!; [done| |done]. by constructor.
  - exists [], (x :: s ++ n). split_and!; [done|constructor|]. constructor; [done|]. eapply Forall_impl; [exact Hx|]. auto.
Qed.

Lemma sorted_weaken {A} (R R' : relation A) l : (forall a b, R a b -> R' a b) -> StronglySorted R l -> StronglySorted R' l.
Proof. intros Hi. induction 1 as [|x l Hs IH Hx]; constructor; [done|]. eapply Forall_impl; [exact Hx|]. auto. Qed.

(** ** The table of alerts *)

Inductive shown_value := Number (n : num) | Text (s : string).

Record AlertRow := {
  a_id : string; a_ticker : string; a_note : option string; a_value : shown_value; a_cooldown_hours : Q; a_enabled : bool;
  a_last_fired_at : option string }.

Inductive AlertSortKey := AsTicker | AsValue | AsLastFired | AsCooldown.
Inductive SortDir := asc | desc.
Inductive AlertStateFilter := AnyState | Enabled | Disabled.

#[export] Instance SortDir_eq_dec : EqDecision SortDir.
Proof. solve_decision. Defined.

Definition sign_of (dir : SortDir) : Z := match dir with asc => 1 | desc => -1 end.

Section Alerts.
Context (Date_parse : string -> option Z) (parseFloat : string -> num).

Definition finite_or_zero (n : num) : Q := match n with Fin q => q | _ => QArith_base.inject_Z 0 end.

Definition numericValue (v : shown_value) : Q := match v with Number n => finite_or_zero n | Text s => finite_or_zero (parseFloat s) end.

Definition lastFiredMs (s : option string) : option Z := match s with Some s => if truthy s then Date_parse s else None | None => None end.

(** The comparator of [sortAlerts]; of a difference of numbers only the sign
    matters. *)
Definition compareAlerts (key : AlertSortKey) (dir : SortDir) (a b : AlertRow) : Z :=
  let rest primary :=
    if negb (primary =? 0) then primary * sign_of dir
    else let t := cmpStrings (a_ticker a) (a_ticker b) in if negb (t =? 0) then t else cmpStrings (a_id a) (a_id b) in
  match key with
  | AsTicker => rest (cmpStrings (a_ticker a) (a_ticker b))
  | AsValue => rest (cmp_finite (numericValue (a_value a)) (numericValue (a_value b)))
  | AsCooldown => rest (cmp_finite (a_cooldown_hours a) (a_cooldown_hours b))
  | AsLastFired =>
      match lastFiredMs (a_last_fired_at a), lastFiredMs (a_last_fired_at b) with
      | None, None => rest 0
      | None, _ => 1
      | _, None => -1
      | Some av, Some bv => rest (av - bv)
      end
  end.

Definition sortAlerts (alerts : list AlertRow) (key : AlertSortKey) (dir : SortDir) : list AlertRow := js_sort (compareAlerts key dir) alerts.

(** [query] and [state] are absent or given. *)
Definition keeps_alert (q : string) (state : AlertStateFilter) (a : AlertRow) : bool :=
  negb (match state with Enabled => negb (a_enabled a) | Disabled => a_enabled a | AnyState => false end) &&
  (negb (truthy q) || str_includes q (to_lower (a_ticker a)) || str_includes q (to_lower (default "" (a_note a)))).

Definition filterAlerts (alerts : list AlertRow) (query : option string) (state : option AlertStateFilter) : list AlertRow :=
  let q := to_lower (trim (default "" query)) in
  let state := default AnyState state in
  match negb (truthy q), state with
  | true, AnyState => alerts
  | _, _ => filter (fun a => keeps_alert q state a = true) alerts
  end.

(** ** What the table shows *)

(** The comparator is a composition: the key, in its direction, with alerts that
    never fired last in either; then ticker and id, always ascending. *)
Definition key_order (key : AlertSortKey) (dir : SortDir) : AlertRow -> AlertRow -> Z :=
  match key with
  | AsTicker => directed (sign_of dir) (by_key a_ticker cmpStrings)
  | AsValue => directed (sign_of dir) (by_key (fun a => numericValue (a_value a)) cmp_finite)
  | AsCooldown => directed (sign_of dir) (by_key a_cooldown_hours cmp_finite)
  | AsLastFired => by_key (fun a => lastFiredMs (a_last_fired_at a)) (none_last (directed (sign_of dir) cmp_int))
  end.

Definition tie_order : AlertRow -> AlertRow -> Z := then_by (by_key a_ticker cmpStrings) (by_key a_id cmpStrings).

Lemma sign_of_cases dir : sign_of dir = 1 \/ sign_of dir = -1.
Proof. destruct dir; auto. Qed.

Lemma sign_of_zero dir n : (n * sign_of dir =? 0) = (n =? 0).
Proof. destruct dir; cbn; [by rewrite Z.mul_1_r|]. destruct (Z.eqb_spec n 0) as [->|]; [done|]. apply Z.eqb_neq. lia. Qed.

Lemma compareAlerts_composed key dir a b : compareAlerts key dir a b = then_by (key_order key dir) tie_order a b.
Proof.
  unfold compareAlerts, then_by, tie_order, then_by, key_order, by_key, none_last, directed. cbv zeta.
  destruct key; rewrite ?sign_of_zero; try done.
  destruct (lastFiredMs (a_last_fired_at a)), (lastFiredMs (a_last_fired_at b)); try done. unfold cmp_int. by rewrite sign_of_zero.
Qed.

#[local] Instance key_order_comparator key dir : Comparator (key_order key dir).
Proof.
  pose proof (@directed_comparator) as Hd. pose proof (sign_of_cases dir). destruct key; cbn [key_order]; try (apply Hd; [done|apply _]).
  apply by_key_comparator, none_last_comparator, Hd; [done|apply _].
Qed.
End Alerts.

Section AlertTable.
Context (Date_parse : string -> option Z) (parseFloat : string -> num).
#[local] Existing Instance key_order_comparator.

Abbreviation composed key dir := (then_by (key_order Date_parse parseFloat key dir) tie_order).

Lemma sortAlerts_composed rows key dir : sortAlerts Date_parse parseFloat rows key dir = js_sort (composed key dir) rows.
Proof. apply js_sort_ext_on. intros x y _ _. by rewrite compareAlerts_composed. Qed.

(** The table of alerts: sorting keeps every row, puts the rows in the order
    of the chosen key and direction and equal ones by ticker, in either
    direction, with alerts that never fired after all that did; the order the
    rows came in does not show as long as their ids differ; and filtering the
    sorted rows gives the sorted rows of the filter. *)
Theorem alert_table_sorted rows key dir :
  let out := sortAlerts Date_parse parseFloat rows key dir in
  out ≡ₚ rows /\ StronglySorted (ordered (key_order Date_parse parseFloat key dir)) out /\
  StronglySorted (fun a b => key_order Date_parse parseFloat key dir a b = 0 -> cmpStrings (a_ticker a) (a_ticker b) <= 0) out /\
  (key = AsLastFired -> exists fired never, out = fired ++ never /\
    Forall (fun a => is_Some (lastFiredMs Date_parse (a_last_fired_at a))) fired /\ Forall (fun a => lastFiredMs Date_parse (a_last_fired_at a) = None) never) /\
  (NoDup (a_id <$> rows) -> forall rows', rows ≡ₚ rows' -> sortAlerts Date_parse parseFloat rows' key dir = out) /\
  (forall query state, filterAlerts out query state = sortAlerts Date_parse parseFloat (filterAlerts rows query state) key dir).
Proof.
  cbv zeta. rewrite sortAlerts_composed. pose proof (sorts (composed key dir) rows) as Hs.
  assert (StronglySorted (ordered (key_order Date_parse parseFloat key dir)) (js_sort (composed key dir) rows)) as Hk.
  { eapply sorted_weaken; [|exact Hs]. intros a b. unfold ordered, then_by. cbn zeta. destruct (Z.eqb_spec (key_order Date_parse parseFloat key dir a b) 0); cbn; lia. }
  split_and!; [apply js_sort_Permutation|done| | | |].
  - eapply sorted_weaken; [|exact Hs]. intros a b. unfold ordered, then_by at 1. cbn zeta. intros Hab E. rewrite E in Hab. cbn in Hab.
    unfold tie_order, then_by, by_key in Hab. cbn zeta in Hab. destruct (Z.eqb_spec (cmpStrings (a_ticker a) (a_ticker b)) 0); cbn in Hab; lia.
  - intros ->. apply none_last_split. eapply sorted_weaken; [|exact Hk]. intros a b. unfold ordered. cbn [key_order]. unfold by_key, none_last.
    intros Hab E. rewrite E in Hab. destruct (lastFiredMs Date_parse (a_last_fired_at b)); [cbn in Hab; lia|done].
  - intros Hnd rows' Hp. rewrite sortAlerts_composed. symmetry. apply sort_determined; [apply _|done|]. intros a b Ha Hb Hab.
    assert (a_id a = a_id b) as Hid.
    { unfold then_by at 1 in Hab. cbn zeta in Hab. destruct (Z.eqb_spec (key_order Date_parse parseFloat key dir a b) 0) as [|]; cbn in Hab; [|lia].
      unfold tie_order, then_by, by_key in Hab. cbn zeta in Hab. destruct (Z.eqb_spec (cmpStrings (a_ticker a) (a_ticker b)) 0); cbn in Hab; [|lia].
      by apply cmpStrings_eq. }
    apply list_elem_of_lookup in Ha as [i Hi], Hb as [j Hj]. assert (i = j) as ->; [|congruence].
    apply (NoDup_lookup (a_id <$> rows) i j (a_id a)); [done|by rewrite list_lookup_fmap, Hi|rewrite list_lookup_fmap, Hj; cbn; by rewrite Hid].
  - intros query state. rewrite sortAlerts_composed. unfold filterAlerts. cbn zeta.
    destruct (negb (truthy _)), (default AnyState state); try done; by rewrite filter_js_sort by apply _.
Qed.
End AlertTable.

(** ** The distance to a target *)

Inductive side := high | low.

Record TargetDistance := { d_side : side; pct : num; d_abs : num }.

Definition num_abs (n : num) : num :=
  match n with NaN => NaN | Infinity _ => Infinity true | Fin q => Fin (if num_lt n (int 0) then QArith_base.Qopp q else q) end.

Definition num_neg (n : num) : num :=
  match n with NaN => NaN | Infinity s => Infinity (negb s) | Fin q => Fin (QArith_base.Qopp q) end.

(** The difference of two numbers as far as a comparator shows it; [None] is
    [NaN]. *)
Definition difference (a b : num) : option Z :=
  match a, b with
  | NaN, _ | _, NaN => None
  | Infinity s, Infinity t => if Bool.eqb s t then None else Some (if s then 1 else -1)
  | _, _ => Some (if num_lt a b then -1 else if num_lt b a then 1 else 0)
  end.

Definition finite_target (t : option num) : option num := match t with Some n => if is_finite n then Some n else None | None => None end.

Section Watchlist.
Context `{FloatOps} (Date_parse : string -> option Z).

Definition nearestTargetDistance (close targetHigh targetLow : option num) : option TargetDistance :=
  match close with
  | None => None
  | Some c =>
      if negb (is_finite c) || num_le c (int 0) then None else
      let above := match finite_target targetHigh with
                   | Some t => if num_lt c t
                               then let a := fsub t c in [{| d_side := high; d_abs := a; pct := fmul (num_neg (fdiv a c)) (int 100) |}]
                               else []
                   | None => []
                   end in
      let below := match finite_target targetLow with
                   | Some t => if num_lt t c then let a := fsub c t in [{| d_side := low; d_abs := a; pct := fmul (fdiv a c) (int 100) |}] else []
                   | None => []
                   end in
      head (js_sort (fun a b => default 0 (difference (num_abs (pct a)) (num_abs (pct b)))) (above ++ below))
  end.

Record WatchRow := { r_ticker : string; r_added_at : string; r_target_high : option num; r_target_low : option num }.
Record CheckRow := { c_ticker : string; last_close : option num }.

Inductive SortKey := Added | ByTicker | Distance.

(** [checks] is indexed by ticker. *)
Definition distanceForSort (e : WatchRow) (check : option CheckRow) : option num :=
  match check with
  | Some c => match last_close c with
              | Some _ => (fun d => num_abs (pct d)) <$> nearestTargetDistance (last_close c) (r_target_high e) (r_target_low e)
              | None => None
              end
  | None => None
  end.

Definition added (e : WatchRow) : Z := default 0 (Date_parse (r_added_at e)).

(** Only the sign of a comparator's value matters; [NaN] counts as 0. *)
Definition compareEntries (key : SortKey) (dir : SortDir) (checks : list (string * CheckRow)) (a b : WatchRow) : Z :=
  let rest primary := if negb (primary =? 0) then primary * sign_of dir else cmpStrings (r_ticker a) (r_ticker b) in
  match key with
  | ByTicker => rest (cmpStrings (r_ticker a) (r_ticker b))
  | Added => rest (added a - added b)
  | Distance =>
      match distanceForSort a (assoc (r_ticker a) checks), distanceForSort b (assoc (r_ticker b) checks) with
      | None, None => rest 0
      | None, _ => 1
      | _, None => -1
      | Some da, Some db => match difference da db with Some x => rest x | None => 0 end
      end
  end.

Definition sortEntries (entries : list WatchRow) (key : SortKey) (dir : SortDir) (checks : list (string * CheckRow)) : list WatchRow :=
  js_sort (compareEntries key dir checks) entries.

(** ** The order of the watchlist *)

(** A distance as far as the order sees it, when it is a finite number. *)
Definition shown_distance (checks : list (string * CheckRow)) (e : WatchRow) : option Q :=
  match distanceForSort e (assoc (r_ticker e) checks) with Some (Fin q) => Some q | Some _ => Some (QArith_base.inject_Z 0) | None => None end.

Definition entry_order (key : SortKey) (dir : SortDir) (checks : list (string * CheckRow)) : WatchRow -> WatchRow -> Z :=
  match key with
  | ByTicker => directed (sign_of dir) (by_key r_ticker cmpStrings)
  | Added => directed (sign_of dir) (by_key added cmp_int)
  | Distance => by_key (shown_distance checks) (none_last (directed (sign_of dir) cmp_finite))
  end.

#[export] Instance entry_order_comparator key dir checks : Comparator (entry_order key dir checks).
Proof.
  pose proof (@directed_comparator) as Hd. pose proof (sign_of_cases dir). destruct key; cbn [entry_order]; try (apply Hd; [done|apply _]).
  apply by_key_comparator, none_last_comparator, Hd; [done|apply _].
Qed.

Definition finite_distances (rows : list WatchRow) (checks : list (string * CheckRow)) : Prop :=
  Forall (fun e => match distanceForSort e (assoc (r_ticker e) checks) with Some n => is_finite n = true | None => True end) rows.

Lemma difference_finite p q : difference (Fin p) (Fin q) = Some (cmp_finite p q).
Proof.
  unfold difference, cmp_finite. cbn. f_equal. destruct (QArith_base.Qcompare p q) eqn:E.
  - apply QArith_base.Qeq_alt in E. rewrite !(proj2 (QArith_base.Qle_bool_iff _ _)); [done|..]; apply QArith_base.Qle_lteq; right; [done|by symmetry].
  - apply QArith_base.Qlt_alt in E. assert (QArith_base.Qle_bool q p = false) as ->; [|done].
    apply not_true_iff_false. rewrite QArith_base.Qle_bool_iff. by apply QArith_base.Qlt_not_le.
  - apply QArith_base.Qgt_alt in E. rewrite (proj2 (QArith_base.Qle_bool_iff q p)) by by apply QArith_base.Qlt_le_weak.
    assert (QArith_base.Qle_bool p q = false) as ->; [|done]. apply not_true_iff_false. rewrite QArith_base.Qle_bool_iff. by apply QArith_base.Qlt_not_le.
Qed.

Lemma sortEntries_composed rows key dir checks : (key = Distance -> finite_distances rows checks) ->
  sortEntries rows key dir checks = js_sort (then_by (entry_order key dir checks) (by_key r_ticker cmpStrings)) rows.
Proof.
  intros Hf. apply js_sort_ext_on. intros x y Hx Hy. f_equal. unfold compareEntries, then_by, entry_order, by_key, none_last, directed. cbv zeta.
  destruct key; rewrite ?sign_of_zero; try done. specialize (Hf eq_refl). unfold finite_distances in Hf. rewrite Forall_forall in Hf.
  pose proof (Hf x Hx) as Fx. pose proof (Hf y Hy) as Fy. cbn beta in Fx, Fy. unfold shown_distance.
  destruct (distanceForSort x _) as [[| |p]|], (distanceForSort y _) as [[| |q]|]; try done. rewrite difference_finite. by rewrite sign_of_zero.
Qed.

(** The watchlist: sorting keeps every row and puts the rows in the order of the
    chosen key and direction, equal ones by ticker; rows with no distance to a
    target come last in either direction; and the order the rows came in does
    not show, as long as no ticker is listed twice. *)
Theorem watchlist_sorted rows key dir checks :
  (key = Distance -> finite_distances rows checks) ->
  let out := sortEntries rows key dir checks in
  out ≡ₚ rows /\ StronglySorted (ordered (entry_order key dir checks)) out /\
  (key = Distance -> exists near none, out = near ++ none /\
    Forall (fun e => is_Some (distanceForSort e (assoc (r_ticker e) checks))) near /\
    Forall (fun e => distanceForSort e (assoc (r_ticker e) checks) = None) none) /\
  (NoDup (r_ticker <$> rows) -> forall rows', rows ≡ₚ rows' -> sortEntries rows' key dir checks = out).
Proof.
  intros Hf. cbv zeta. rewrite sortEntries_composed by done. set (c := then_by _ _). pose proof (sorts c rows) as Hs.
  assert (StronglySorted (ordered (entry_order key dir checks)) (js_sort c rows)) as Hk.
  { eapply sorted_weaken; [|exact Hs]. intros a b. unfold ordered, c, then_by. cbn zeta. destruct (Z.eqb_spec (entry_order key dir checks a b) 0); cbn; lia. }
  split_and!; [apply js_sort_Permutation|done|..].
  - intros ->. apply none_last_split. eapply sorted_weaken; [|exact Hk]. intros a b. unfold ordered. cbn [entry_order]. unfold by_key, none_last, shown_distance.
    intros Hab E. rewrite E in Hab. destruct (distanceForSort b _) as [[]|]; cbn in Hab; (done || lia).
  - intros Hnd rows' Hp. rewrite sortEntries_composed. 2: { intros Hd. specialize (Hf Hd). unfold finite_distances in *. by rewrite <- Hp. }
    fold c. symmetry. apply sort_determined; [apply _|done|]. intros a b Ha Hb Hab.
    assert (r_ticker a = r_ticker b) as Ht.
    { unfold c, then_by in Hab. cbn zeta in Hab. destruct (Z.eqb_spec (entry_order key dir checks a b) 0) as [|]; cbn in Hab; [|lia]. by apply cmpStrings_eq. }
    apply list_elem_of_lookup in Ha as [i Hi], Hb as [j Hj]. assert (i = j) as ->; [|congruence].
    apply (NoDup_lookup (r_ticker <$> rows) i j (r_ticker a)); [done|by rewrite list_lookup_fmap, Hi|rewrite list_lookup_fmap, Hj; cbn; by rewrite Ht].
Qed.
End Watchlist.

(** ** The link to a watchlist view *)

Definition SORT_KEYS : list (string * SortKey) := [("added", Added); ("ticker", ByTicker); ("distance", Distance)].
Definition SORT_DIRS : list (string * SortDir) := [("asc", asc); ("desc", desc)].

Record WatchlistUrlState := { u_filter : string; u_key : SortKey; u_dir : SortDir }.

(** [get] is [URLSearchParams.get]. *)
Definition parseWatchlistUrlState (get : string -> option string) : WatchlistUrlState :=
  {| u_filter := str_take 200 (default "" (get "q")); u_key := default Added (assoc (default "" (get "sort")) SORT_KEYS);
     u_dir := default desc (assoc (default "" (get "dir")) SORT_DIRS) |}.

Definition key_text (k : SortKey) : string := match k with Added => "added" | ByTicker => "ticker" | Distance => "distance" end.
Definition dir_text (d : SortDir) : string := match d with asc => "asc" | desc => "desc" end.

(** The parameters, in the order they are set. *)
Definition serializeWatchlistUrlState (st : WatchlistUrlState) : list (string * string) :=
  (if truthy (u_filter st) then [("q", u_filter st)] else []) ++
  (match u_key st with Added => [] | k => [("sort", key_text k)] end) ++
  (match u_dir st with desc => [] | x => [("dir", dir_text x)] end).

(** A link shows the view it was made from: the parameters of a state are read
    back as that state when its filter has at most 200 characters; and whatever
    a link contains, its reading is a state that is written and read back as
    itself. *)
Theorem watchlist_link_roundtrip st get :
  (str_len (u_filter st) <= 200 -> parseWatchlistUrlState (fun k => assoc k (serializeWatchlistUrlState st)) = st) /\
  (let s := parseWatchlistUrlState get in parseWatchlistUrlState (fun k => assoc k (serializeWatchlistUrlState s)) = s).
Proof.
  assert (forall st, str_len (u_filter st) <= 200 -> parseWatchlistUrlState (fun k => assoc k (serializeWatchlistUrlState st)) = st) as Hr.
  { intros [f k d] Hl. unfold parseWatchlistUrlState, serializeWatchlistUrlState. cbn [u_filter u_key u_dir] in *.
    assert (str_take 200 f = f) as Hf by (apply str_take_all; unfold str_len in Hl; lia).
    destruct (truthy f) eqn:Et; [|apply truthy_false in Et as ->]; destruct k, d; cbn -[str_take]; by rewrite ?Hf. }
  split; [apply Hr|]. cbv zeta. apply Hr. cbn -[str_take]. unfold str_len. pose proof (str_take_length 200 (default "" (get "q"))). lia.
Qed.

(** The filter is cut but not trimmed. *)
Lemma link_filter_not_trimmed : u_filter (parseWatchlistUrlState (fun k => assoc k [("q", " SPY ")])) = " SPY ".
Proof. done. Qed.

(** ** Three rows *)

Section Demo.
Definition demo_arith : FloatOps :=
  {| fadd a _ := a; fsub a b := match a, b with Fin p, Fin q => Fin (QArith_base.Qminus p q) | _, _ => NaN end;
     fmul a b := match a, b with Fin p, Fin q => Fin (QArith_base.Qmult p q) | _, _ => NaN end;
     fdiv a b := match a, b with Fin p, Fin q => Fin (QArith_base.Qdiv p q) | _, _ => NaN end; toFixed _ a := a |}.
#[local] Existing Instance demo_arith.

Definition demo_row (t : string) (hi : option Z) : WatchRow :=
  {| r_ticker := t; r_added_at := "2026-01-01T00:00:00.000Z"; r_target_high := int <$> hi; r_target_low := None |}.
Definition demo_check (t : string) (c : Z) : string * CheckRow := (t, {| c_ticker := t; last_close := Some (int c) |}).
Definition demo_rows : list WatchRow := [demo_row "SPY" (Some 120); demo_row "QQQ" None; demo_row "IWM" (Some 101)].
Definition demo_checks : list (string * CheckRow) := [demo_check "SPY" 100; demo_check "IWM" 100].

Example demo_order dir : (r_ticker <$> sortEntries parse_iso demo_rows Distance dir demo_checks) = match dir with asc => ["IWM"; "SPY"; "QQQ"] | desc => ["SPY"; "IWM"; "QQQ"] end.
Proof. by destruct dir; vm_compute. Qed.

Lemma watchlist_sorted_witness : sortEntries parse_iso (rev demo_rows) Distance asc demo_checks = sortEntries parse_iso demo_rows Distance asc demo_checks.
Proof.
  destruct (watchlist_sorted parse_iso demo_rows Distance asc demo_checks) as (_ & _ & _ & H).
  - intros _. unfold finite_distances, demo_rows. repeat constructor.
  - apply H; [|apply Permutation_rev]. apply (bool_decide_unpack (NoDup (r_ticker <$> demo_rows))). vm_compute. exact I.
Defined.
End Demo.
