(* ===== verification/AdminRoute.v ===== *)
(** What the administrative routes under [web/app/api/admin] have in common:
    the request, the gate [requireAdmin] that each of them repeats in front of its
    handlers, the audit line and the feed entry of a handler. The stores behind
    the gate are a parameter, and what the gate promises to every handler is
    proved once for all of them. *)
From S2P Require Import Prelude JsNum JsDate IsoTime Json Store Interleave AuthLockout KeyStore.
From S2P Require IpMatch Activity Totp MfaGate.
#[local] Existing Instance Activity.events_persisted.

(** [body] is [None] when it is not JSON. *)
Record request := { headers : gmap string string; query : gmap string string; body : option json }.

(** The clocks of the first and of the second authentication, of the second
    factor, of the operation; and what is drawn at random. *)
Record draws := { d_auth : nat -> clock; d_mfa : Z; d_op : clock; d_event : Z; d_id : string; d_event_id : string }.

(** Two ways in which the copies of the gate differ: whether a request in local
    mode is recorded, and whether one with the admin scope is, before its second
    factor is looked at. *)
Record gate_kind := { logs_local : bool; logs_admission : option string }.
Definition plain_gate : gate_kind := {| logs_local := true; logs_admission := None |}.

Record world (L G : Type) := World { keys_file : file keys; lockout : L; second : MfaGate.world; feed : file Activity.events; gov : G }.
Arguments World {L G} _ _ _ _ _.
Arguments keys_file {L G} w.
Arguments lockout {L G} w.
Arguments second {L G} w.
Arguments feed {L G} w.
Arguments gov {L G} w.

(** [err(status, code, ...)], a body, or an exception that nobody catches. *)
Inductive reply (A : Type) := Refused (status : Z) (code : string) | Answer (status : Z) (a : A) | Raised.
Arguments Refused {A} status code.
Arguments Answer {A} status a.
Arguments Raised {A}.

(** ** Refusals write nothing

    A transaction that ends in an error leaves the file, or the cached store,
    as its readers see it. *)
Definition errs_quietly {S} `{Persisted S} {R E} (tx : transaction S (result R E)) : Prop :=
  forall s e, fst (tx s) = Err e -> snd (tx s) = None.

Section Quiet.
Context {S : Type} `{Persisted S} {R E : Type} (tx : transaction S (result R E)) (Htx : errs_quietly tx).

Lemma on_file_err f e f' : on_file tx f = (Err e, f') -> f' = f.
Proof using Type*.
  unfold on_file. pose proof (Htx (read_file f)) as Hq. destruct (tx (read_file f)) as [r w]. cbn [fst snd] in Hq.
  intros [= -> <-]. by rewrite (Hq e eq_refl).
Qed.

Lemma transact_err ttl a b st e st' : transact ttl a b tx st = (Err e, st') -> view st' = view st.
Proof using Type*.
  unfold transact. pose proof (load_view_after ttl a st) as Hv. destruct (load ttl a st) as [s st1]. pose proof (Htx s) as Hq.
  destruct (tx s) as [r w]. cbn [fst snd] in Hq, Hv. intros [= -> <-]. by rewrite (Hq e eq_refl).
Qed.

Lemma transact_checked_err ttl a b v st e st' : transact_checked ttl a b v tx st = (Err e, st') -> view st' = view st.
Proof using Type*. unfold transact_checked. destruct v; [by intros [= _ <-]|]. apply transact_err. Qed.
End Quiet.

(** ** Pieces of a body *)

Definition text_of (v : jval) : string := match v with Some (JStr s) => s | _ => "" end.

(** What is not a number fails the same test as [NaN]. *)
Definition number_of (v : jval) : num := match v with Some (JNum n) => n | _ => NaN end.

Definition actor_label (k : option StoredKey) : option string := label <$> k.

Section Gate.
Context {L : Type} `{Lockout L} {G : Type} (sha256 : string -> string) (hmac_sha1 : list Z -> list Z -> list Z) (adminEnv : option string).
Abbreviation W := (world L G).

Definition with_gov (g : G) (w : W) : W := World (keys_file w) (lockout w) (second w) (feed w) g.

Definition recordAuditEvent (status : Z) (k : option StoredKey) (reason : string) (w : W) : W :=
  World (keys_file w) (lockout w) (MfaGate.note status (id <$> k) reason (second w)) (feed w) (gov w).

Definition production : bool := truthy (default "" adminEnv).

Section Request.
Context (req : request) (d : draws).

Definition authenticated (n : nat) (w : W) : option StoredKey * W :=
  let '(k, f, l) := authenticate sha256 (d_auth d n) adminEnv (extractKey (headers req)) (Some (IpMatch.clientIpFromRequest (headers req)))
                      (keys_file w) (lockout w) in
  (k, World f l (second w) (feed w) (gov w)).

(** [Ok]: the handler goes on, with that key. *)
Definition requireAdmin (kind : gate_kind) (method : string) (w : W) : result (option StoredKey) MfaGate.denial * W :=
  let '(k, w) := authenticated 0 w in
  if negb production then (Ok k, if logs_local kind then recordAuditEvent 200 k "local-mode" w else w) else
  match k with
  | Some key =>
      if negb (bool_decide (admin ∈ scopes key)) then (Err (403, "forbidden"), recordAuditEvent 403 k "forbidden:admin-required" w) else
      let w := match logs_admission kind with Some why => recordAuditEvent 200 k why w | None => w end in
      if String.eqb method "GET" then (Ok k, w)
      else let '(denied, s) := MfaGate.enforceAdminMfa hmac_sha1 sha256 (default "" adminEnv) (headers req) (id <$> k) (d_mfa d) (second w) in
           (match denied with Some e => Err e | None => Ok k end, World (keys_file w) (lockout w) s (feed w) (gov w))
  | None => (Err (403, "forbidden"), recordAuditEvent 403 None "forbidden:admin-required" w)
  end.

Definition handler (A : Type) : Type := option StoredKey -> W -> reply A * W.

Definition gated {A} (kind : gate_kind) (method : string) (h : handler A) (w : W) : reply A * W :=
  let '(r, w) := requireAdmin kind method w in
  match r with Err (s, c) => (Refused s c, w) | Ok k => h k w end.

(** A refusal with its audit line. *)
Definition refuse {A} (status : Z) (code : string) (k : option StoredKey) (w : W) : reply A * W :=
  (Refused status code, recordAuditEvent status k code w).

(** The body of the routes that record a bad one. *)
Definition recorded_body {A} (k : option StoredKey) (w : W) (h : json -> reply A * W) : reply A * W :=
  match body req with
  | None => refuse 400 "bad_json" k w
  | Some b => if negb (is_object b) then refuse 400 "bad_body" k w else h b
  end.

(** The audit line of a route that authenticates again for it. *)
Definition record_again (status : Z) (reason : string) (w : W) : W :=
  let '(k, w) := authenticated 1 w in recordAuditEvent status k reason w.

Definition recordSafe (kind title text href : string) (w : W) : W :=
  World (keys_file w) (lockout w) (second w)
    (Activity.recordSafe {| Activity.i_kind := kind; Activity.i_title := Some (JStr title); Activity.i_body := Some (JStr text);
       Activity.i_href := Some (JStr href) |} (d_event_id d) (d_event d) (feed w))
    (gov w).

(** ** What the gate promises *)

(** The stores and the feed are as they were. *)
Definition untouched (w w' : W) : Prop := gov w' = gov w /\ feed w' = feed w.

#[export] Instance untouched_preorder : PreOrder untouched.
Proof. split; [by intros w|]. intros a b c [] []. split; congruence. Qed.

Lemma authenticated_untouched n w : untouched w (snd (authenticated n w)).
Proof. unfold authenticated. by destruct (authenticate _ _ _ _ _ _ _) as [[]]. Qed.

Lemma authenticated_second n w : second (snd (authenticated n w)) = second w.
Proof. unfold authenticated. by destruct (authenticate _ _ _ _ _ _ _) as [[]]. Qed.

Lemma record_again_untouched s r w : untouched w (record_again s r w).
Proof. unfold record_again. rewrite (surjective_pairing (authenticated 1 w)). apply (authenticated_untouched 1 w). Qed.

Lemma requireAdmin_untouched kind method w : untouched w (snd (requireAdmin kind method w)).
Proof.
  unfold requireAdmin. pose proof (authenticated_untouched 0 w) as Hg. destruct (authenticated 0 w) as [k w1]. cbn [snd] in Hg.
  destruct (negb production); [by destruct (logs_local kind)|]. destruct k as [key|]; [|done]. destruct (negb _); [done|]. cbn zeta.
  assert (forall o : option string, untouched w (match o with Some why => recordAuditEvent 200 (Some key) why w1 | None => w1 end)) as Ho by (by intros []).
  specialize (Ho (logs_admission kind)). destruct (String.eqb _ _); [done|]. by destruct (MfaGate.enforceAdminMfa _ _ _ _ _ _ _).
Qed.

(** The caller authenticated with the admin scope, and passed the second factor
    with the enrolments of [w]. *)
Definition proven (w : W) (key : StoredKey) : Prop :=
  fst (authenticated 0 w) = Some key /\ admin ∈ scopes key /\
  exists s, fst (MfaGate.enforceAdminMfa hmac_sha1 sha256 (default "" adminEnv) (headers req) (Some (id key)) (d_mfa d) s) = None /\
    MfaGate.totp s = MfaGate.totp (second w).

Lemma requireAdmin_proven kind method w k : production = true -> method <> "GET" ->
  fst (requireAdmin kind method w) = Ok k -> exists key, k = Some key /\ proven w key.
Proof.
  intros Hp Hm. unfold requireAdmin, proven. pose proof (authenticated_second 0 w) as Hs.
  destruct (authenticated 0 w) as [k0 w1]. cbn [fst snd] in *. rewrite Hp. cbn [negb]. destruct k0 as [key|]; [|done].
  case_bool_decide as Ha; cbn [negb]; [|done]. rewrite (proj2 (String.eqb_neq _ _) Hm). cbn zeta.
  assert (forall o : option string, MfaGate.totp (second (match o with Some why => recordAuditEvent 200 (Some key) why w1 | None => w1 end)) = MfaGate.totp (second w))
    as Ho by (intros []; cbn; by rewrite Hs).
  specialize (Ho (logs_admission kind)). destruct (MfaGate.enforceAdminMfa _ _ _ _ _ _ _) as [den s] eqn:E. cbn [fst]. destruct den; [done|].
  intros [= <-]. exists key. split_and!; [done..|]. eexists. cbn [fmap option_fmap option_map] in E. by rewrite E.
Qed.

(** The gate refuses and nothing but the trail and the caller's key changes, or
    it runs the handler on stores that are as they were, with a proven key when
    the request changes something. *)
Lemma gated_spec {A} kind method (h : handler A) w :
  (exists s c, fst (gated kind method h w) = Refused s c /\ untouched w (snd (gated kind method h w))) \/
  exists k w1, gated kind method h w = h k w1 /\ untouched w w1 /\
    (production = true -> method <> "GET" -> exists key, k = Some key /\ proven w key).
Proof.
  unfold gated. pose proof (requireAdmin_untouched kind method w) as Hu. pose proof (requireAdmin_proven kind method w) as Hp.
  destruct (requireAdmin kind method w) as [[k|[s c]] w1]; cbn [fst snd] in *; [right|left; by exists s, c].
  exists k, w1. split_and!; [done|done|]. intros H1 H2. by apply Hp.
Qed.
End Request.
End Gate.
