(* ===== verification/Governance.v ===== *)
(** The governance of a workspace: the routes [web/app/api/admin/freeze],
    [legal-hold], [breakglass], [concurrency], [network-policy],
    [rotation-policy], [residency] and [privacy/delete], behind the gate of
    [AdminRoute]; every route changes one store. The feed entry of a hold and of
    an erasure is part of the model; informational fields of the answers, such
    as the limits of a form, are left out. *)
From S2P Require Import Prelude JsNum JsDate IsoTime Json Store Interleave AuthLockout KeyStore AdminRoute.
From S2P Require Freeze LegalHold BreakGlass Concurrency NetworkPolicy KeyLifecycle Residency Privacy Activity Totp MfaGate.
#[local] Existing Instances Freeze.FreezeState_persisted LegalHold.holds_persisted BreakGlass.BreakGlassState_persisted
  Concurrency.ConcurrencyPolicy_persisted NetworkPolicy.NetworkPolicy_persisted LegalHold.file_register.

(** The operations of these routes err without writing. *)
Ltac quiet_tx :=
  intros ? ?; unfold Freeze.freeze_body, Freeze.unfreeze_body, LegalHold.open_tx, LegalHold.release_tx, BreakGlass.grant_tx, BreakGlass.revoke_tx,
    Concurrency.set_body, NetworkPolicy.update_tx, KeyLifecycle.set_rotation_tx, Residency.set_residency_tx; cbn zeta; repeat (case_match; try (by intros)); by intros.

(** What a deployment sets: the defaults of two policies are variables of the
    environment. *)
Section Routes.
Context (rotation_defaults : KeyLifecycle.rotation_env) (residency_defaults : Residency.residency_env).
#[local] Instance rotation_file : Persisted KeyLifecycle.RotationPolicy := KeyLifecycle.RotationPolicy_persisted rotation_defaults.
#[local] Instance residency_file : Persisted Residency.ResidencyPolicy := Residency.ResidencyPolicy_persisted residency_defaults.

(** The stores the routes govern. *)
Record stores := Stores {
  freeze : store Freeze.FreezeState; holds : file (list LegalHold.LegalHold); grants : file BreakGlass.BreakGlassState;
  slots : store Concurrency.ConcurrencyPolicy; network : file NetworkPolicy.NetworkPolicy; rotation : file KeyLifecycle.RotationPolicy;
  residency : file Residency.ResidencyPolicy; data : gmap string Privacy.text_file }.

Record GrantView := { g_grant : BreakGlass.BreakGlassGrant; g_remaining : BreakGlass.Remaining }.

Inductive answer :=
| FreezeView (s : Freeze.FreezeState)
| Holds (l : list LegalHold.LegalHold)
| HoldView (h : LegalHold.LegalHold)
| GrantsView (active : option GrantView) (history : list GrantView)
| Granted (g : GrantView) (superseded : option GrantView)
| RevokedView (g : GrantView)
| Limit (p : Concurrency.ConcurrencyPolicy)
| Network (p : NetworkPolicy.NetworkPolicy)
| Aging (p : KeyLifecycle.RotationPolicy) (keys : list (string * KeyLifecycle.RotationEvaluation))
| Rotation (p : KeyLifecycle.RotationPolicy)
| Located (p : Residency.ResidencyPolicy) (self : Residency.RequestRegion)
| ResidencyView (p : Residency.ResidencyPolicy)
| Plan (will_remove will_preserve : list string)
| HeldBack (holds : list LegalHold.LegalHold)
| Erased (s : Privacy.EraseSummary).

Context {L : Type} `{Lockout L} (sha256 : string -> string) (hmac_sha1 : list Z -> list Z -> list Z) (adminEnv : option string).
Abbreviation W := (world L stores).
Abbreviation R := (reply answer).

Section Request.
Context (req : request) (d : draws).
Abbreviation handler := (option StoredKey -> W -> R * W).
Abbreviation record_again := (record_again sha256 adminEnv req d).
Abbreviation recorded_body := (recorded_body req).
Abbreviation note_feed := (recordSafe d "system").
Abbreviation ok a := (Answer 200 a).

(** ** The freeze switch *)

Definition with_freeze (s : store Freeze.FreezeState) (w : W) : W :=
  with_gov (let g := gov w in Stores s (holds g) (grants g) (slots g) (network g) (rotation g) (residency g) (data g)) w.

Definition freeze_GET : handler := fun k w =>
  let '(s, st) := Freeze.getFreezeState (d_op d 0%nat) (freeze (gov w)) in
  (ok (FreezeView s), recordAuditEvent 200 k "" (with_freeze st w)).

Definition freeze_code (c : Freeze.MutationCode) : string :=
  match c with Freeze.bad_reason => "bad_reason" | Freeze.already_frozen => "already_frozen" | Freeze.not_frozen => "not_frozen" end.

Definition freeze_POST : handler := fun k w => recorded_body k w (fun b =>
  let '(r, st) := Freeze.freezeWorkspace (d_op d) (text_of (field "reason" b)) (actor_label k) (freeze (gov w)) in
  let w := with_freeze st w in
  match r with
  | Err c => refuse (match c with Freeze.already_frozen => 409 | _ => 400 end) (freeze_code c) k w
  | Ok m => (ok (FreezeView (Freeze.state m)), recordAuditEvent 200 k "workspace_frozen" w)
  end).

Definition freeze_DELETE : handler := fun k w =>
  let '(r, st) := Freeze.unfreezeWorkspace (d_op d) (actor_label k) (freeze (gov w)) in
  let w := with_freeze st w in
  match r with
  | Err c => refuse (match c with Freeze.not_frozen => 409 | _ => 400 end) (freeze_code c) k w
  | Ok m => (ok (FreezeView (Freeze.state m)), recordAuditEvent 200 k "workspace_unfrozen" w)
  end.

(** ** Legal holds *)

Definition with_holds (f : file (list LegalHold.LegalHold)) (w : W) : W :=
  with_gov (let g := gov w in Stores (freeze g) f (grants g) (slots g) (network g) (rotation g) (residency g) (data g)) w.

Definition hold_actor (k : option StoredKey) : string := match k with Some k => id k | None => "local" end.

Definition hold_GET : handler := fun k w => (ok (Holds (LegalHold.listHolds (holds (gov w)))), record_again 200 "legal_hold.list" w).

Definition hold_scopes (l : list json) : list string := filter (fun s => is_Some (assoc s LegalHold.LEGAL_HOLD_SCOPES)) (strings_of l).

Definition scope_text (s : LegalHold.LegalHoldScope) : string :=
  match s with LegalHold.runs => "runs" | LegalHold.audit => "audit" | LegalHold.webhook_deliveries => "webhook_deliveries" | LegalHold.user_data => "user_data" end.

Definition hold_POST : handler := fun k w =>
  match body req with
  | None => (Refused 400 "bad_json", w)
  | Some b =>
      match field "scopes" b with
      | Some (JArr (x :: l)) =>
          let scs := hold_scopes (x :: l) in
          if bool_decide (scs = []) then (Refused 400 "scopes_invalid", w) else
          let '(r, f) := LegalHold.openHold (d_op d 0%nat) (d_id d)
            {| LegalHold.in_matter := text_of (field "matter" b); LegalHold.in_reason := Some (text_of (field "reason" b)); LegalHold.in_scopes := scs;
               LegalHold.in_opened_by := hold_actor k |} (holds (gov w)) in
          let w := with_holds f w in
          match r with
          | Err LegalHold.matter_required => (Refused 400 "matter_required", w)
          | Err LegalHold.scopes_required => (Raised, w)
          | Ok h => (Answer 201 (HoldView h),
                     note_feed "Legal hold opened" (LegalHold.matter h +:+ " (" +:+ join ", " (scope_text <$> LegalHold.scopes h) +:+ ")") "/settings/legal-hold"
                       (record_again 200 "legal_hold.opened" w))
          end
      | _ => (Refused 400 "scopes_required", w)
      end
  end.

(** The body is read when the content type says JSON; a bad one is ignored. *)
Definition release_body : json :=
  if str_includes "json" (default "" (headers req !! "content-type")) then default (JObj []) (body req) else JObj [].

Definition hold_DELETE : handler := fun k w =>
  let i := default "" (query req !! "id") in
  if negb (truthy i) then (Refused 400 "id_required", w) else
  let '(r, f) := LegalHold.releaseHold (d_op d 0%nat)
    {| LegalHold.rel_id := i; LegalHold.rel_by := hold_actor k; LegalHold.rel_reason := text_of (field "released_reason" release_body) |} (holds (gov w)) in
  let w := with_holds f w in
  match r with
  | Err LegalHold.not_found => (Refused 404 "not_found", w)
  | Err LegalHold.already_released => (Refused 409 "already_released", w)
  | Err LegalHold.release_reason_required => (Refused 400 "release_reason_required", w)
  | Ok h => (ok (HoldView h), note_feed "Legal hold released" (LegalHold.matter h) "/settings/legal-hold" (record_again 200 "legal_hold.released" w))
  end.

(** ** Break-glass grants *)

Definition with_grants (f : file BreakGlass.BreakGlassState) (w : W) : W :=
  with_gov (let g := gov w in Stores (freeze g) (holds g) f (slots g) (network g) (rotation g) (residency g) (data g)) w.

Definition shapeGrant (g : BreakGlass.BreakGlassGrant) : GrantView :=
  {| g_grant := g; g_remaining := BreakGlass.describeRemaining g (d_op d 1%nat) |}.

Definition breakglass_GET : handler := fun k w =>
  let s := BreakGlass.getState (grants (gov w)) in
  (ok (GrantsView (shapeGrant <$> BreakGlass.active s) (shapeGrant <$> BreakGlass.history s)), recordAuditEvent 200 k "" w).

Definition grant_code (c : BreakGlass.GrantCode) : string := match c with BreakGlass.bad_reason => "bad_reason" | BreakGlass.bad_ttl => "bad_ttl" end.

Definition breakglass_POST : handler := fun k w => recorded_body k w (fun b =>
  let '(r, f) := BreakGlass.grant (d_op d 0%nat) (d_id d)
    {| BreakGlass.in_reason := text_of (field "reason" b); BreakGlass.in_ttl := match field "ttl_seconds" b with Some (JNum n) => Some n | _ => None end;
       BreakGlass.in_actor := actor_label k |} (grants (gov w)) in
  let w := with_grants f w in
  match r with
  | Err c => refuse 400 (grant_code c) k w
  | Ok g => (ok (Granted (shapeGrant (BreakGlass.grant_ g)) (shapeGrant <$> BreakGlass.superseded g)), recordAuditEvent 200 k "break_glass_granted" w)
  end).

Definition breakglass_DELETE : handler := fun k w =>
  let '(r, f) := BreakGlass.revoke (d_op d 0%nat) (actor_label k) (grants (gov w)) in
  let w := with_grants f w in
  match r with
  | Err _ => refuse 404 "no_active" k w
  | Ok g => (ok (RevokedView (shapeGrant g)), recordAuditEvent 200 k "break_glass_revoked" w)
  end.

(** ** The limit of concurrent requests *)

Definition with_slots (s : store Concurrency.ConcurrencyPolicy) (w : W) : W :=
  with_gov (let g := gov w in Stores (freeze g) (holds g) (grants g) s (network g) (rotation g) (residency g) (data g)) w.

Definition concurrency_GET : handler := fun k w =>
  let '(p, st) := Concurrency.getConcurrencyPolicy (d_op d 0%nat) (slots (gov w)) in (ok (Limit p), recordAuditEvent 200 k "" (with_slots st w)).

Definition concurrency_PUT : handler := fun k w => recorded_body k w (fun b =>
  let '(r, st) := Concurrency.setConcurrencyPolicy (d_op d) (number_of (field "limit" b)) (actor_label k) (slots (gov w)) in
  let w := with_slots st w in
  match r with
  | Err _ => refuse 400 "bad_limit" k w
  | Ok c => (ok (Limit (Concurrency.policy c)), recordAuditEvent 200 k "concurrency_limit_set" w)
  end).

Definition concurrency_DELETE : handler := fun k w =>
  let '(c, st) := Concurrency.clearConcurrencyPolicy (d_op d) (actor_label k) (slots (gov w)) in
  (ok (Limit (Concurrency.policy c)), recordAuditEvent 200 k "concurrency_limit_cleared" (with_slots st w)).

(** ** The network policy *)

Definition with_network (f : file NetworkPolicy.NetworkPolicy) (w : W) : W :=
  with_gov (let g := gov w in Stores (freeze g) (holds g) (grants g) (slots g) f (rotation g) (residency g) (data g)) w.

Definition network_GET : handler := fun k w => (ok (Network (NetworkPolicy.getPolicy (network (gov w)))), recordAuditEvent 200 k "" w).

Definition network_code (c : NetworkPolicy.UpdateCode) : string :=
  match c with
  | NetworkPolicy.list_error IpMatch.bad_type => "bad_type" | NetworkPolicy.list_error IpMatch.bad_cidr => "bad_cidr"
  | NetworkPolicy.list_error IpMatch.too_many => "too_many" | NetworkPolicy.empty_allowlist => "empty_allowlist"
  end.

Definition network_PUT : handler := fun k w => recorded_body k w (fun b =>
  let '(r, f) := NetworkPolicy.updatePolicy (d_op d 0%nat)
    {| NetworkPolicy.in_enabled := jtruthy (field "enabled" b); NetworkPolicy.in_cidrs := default JNull (field "cidrs" b);
       NetworkPolicy.in_actor := actor_label k |} (network (gov w)) in
  let w := with_network f w in
  match r with
  | Err c => refuse 400 (network_code c) k w
  | Ok u => (ok (Network (NetworkPolicy.policy u)), recordAuditEvent 200 k "network_policy_updated" w)
  end).


(** ** The rotation policy *)

Definition with_rotation (f : file KeyLifecycle.RotationPolicy) (w : W) : W :=
  with_gov (let g := gov w in Stores (freeze g) (holds g) (grants g) (slots g) (network g) f (residency g) (data g)) w.

Fixpoint all_ok {A B E} (f : A -> result B E) (l : list A) : option (list B) :=
  match l with
  | [] => Some []
  | x :: l => match f x with Ok y => (y ::.) <$> all_ok f l | Err _ => None end
  end.

(** The table of aging keys. A key so old that its rotation date is no date
    makes the route throw. *)
Definition rotation_GET : handler := fun k w =>
  let p := KeyLifecycle.getRotationPolicy rotation_defaults (rotation (gov w)) in
  let live := filter (fun x => revoked x = false) (listKeys (read_file (keys_file w))) in
  match all_ok (fun x => KeyLifecycle.evaluateKeyRotation (created_at x) p (d_op d 0%nat)) live with
  | None => (Raised, w)
  | Some evs => (ok (Aging p (zip (id <$> live) evs)), recordAuditEvent 200 k "" w)
  end.

(** [undefined], or a number between 0 and ten years. *)
Definition days_field (v : jval) : option (option num) :=
  match v with
  | None => Some None
  | Some (JNum n) => if negb (is_finite n) || num_lt n (int 0) || num_lt (int 3650) n then None else Some (Some n)
  | _ => None
  end.

Definition rotation_text (p : KeyLifecycle.RotationPolicy) : string :=
  pretty (KeyLifecycle.max_age_days p) +:+ "/" +:+ pretty (KeyLifecycle.warn_days p).

Definition rotation_PUT : handler := fun k w =>
  match body req with
  | None => (Refused 400 "bad_json", w)
  | Some b =>
      match days_field (field "max_age_days" b), days_field (field "warn_days" b) with
      | Some mx, Some wn =>
          let before := KeyLifecycle.getRotationPolicy rotation_defaults (rotation (gov w)) in
          let '(r, f) := KeyLifecycle.setRotationPolicy rotation_defaults (d_op d 0%nat)
            {| KeyLifecycle.in_max_age_days := mx; KeyLifecycle.in_warn_days := wn; KeyLifecycle.in_updated_by := id <$> k |} (rotation (gov w)) in
          let w := with_rotation f w in
          match r with
          | Err _ => (Refused 400 "invalid_policy", w)
          | Ok next => (ok (Rotation next), recordAuditEvent 200 k ("rotation-policy:" +:+ rotation_text before +:+ "->" +:+ rotation_text next) w)
          end
      | _, _ => (Refused 400 "bad_request", w)
      end
  end.

(** ** The data residency *)

Definition with_residency (f : file Residency.ResidencyPolicy) (w : W) : W :=
  with_gov (let g := gov w in Stores (freeze g) (holds g) (grants g) (slots g) (network g) (rotation g) f (data g)) w.

Definition residency_GET : handler := fun k w =>
  (ok (Located (Residency.getResidencyPolicy residency_defaults (residency (gov w))) (Residency.detectRequestRegion (headers req))),
   recordAuditEvent 200 k "" w).

(** [undefined], or one of the names. *)
Definition name_field {A} (names : list (string * A)) (v : jval) : option (option string) :=
  match v with
  | None => Some None
  | Some (JStr s) => if bool_decide (is_Some (assoc s names)) then Some (Some s) else None
  | _ => None
  end.

Definition residency_text (p : Residency.ResidencyPolicy) : string :=
  Residency.region_name (Residency.region p) +:+ "/" +:+ Residency.mode_name (Residency.mode p).

Definition residency_PUT : handler := fun k w =>
  match body req with
  | None => (Refused 400 "bad_json", w)
  | Some b =>
      match name_field Residency.REGION_VALUES (field "region" b), name_field Residency.MODE_VALUES (field "mode" b) with
      | Some r, Some m =>
          let before := Residency.getResidencyPolicy residency_defaults (residency (gov w)) in
          let '(r, f) := Residency.setResidencyPolicy residency_defaults (d_op d 0%nat)
            {| Residency.in_region := r; Residency.in_mode := m; Residency.in_updated_by := Some (id <$> k) |} (residency (gov w)) in
          let w := with_residency f w in
          match r with
          | Err _ => (Refused 400 "invalid_policy", w)
          | Ok next => (ok (ResidencyView next), recordAuditEvent 200 k ("residency:" +:+ residency_text before +:+ "->" +:+ residency_text next) w)
          end
      | _, _ => (Refused 400 "bad_request", w)
      end
  end.

(** ** Erasure *)

(** The directory after the erasure: the feed is gone with the customer files,
    the keys with the compliance stores. *)
Definition with_erased (opts : Privacy.EraseOptions) (dir : gmap string Privacy.text_file) (w : W) : W :=
  World (if Privacy.wipeCompliance opts then None else keys_file w) (lockout w) (second w) None
    (let g := gov w in Stores (freeze g) (holds g) (grants g) (slots g) (network g) (rotation g) (residency g) dir).

Definition erase_GET : handler := fun k w =>
  let asked s := bool_decide (query req !! s = Some "true") in
  let '(rm, keep) := Privacy.describeErase
    {| Privacy.wipeCompliance := asked "wipe_compliance"; Privacy.wipeAudit := asked "wipe_audit" |} in
  (ok (Plan rm keep), record_again 200 "privacy.delete.preview" w).

Definition erase_options (b : json) : Privacy.EraseOptions :=
  let asked s := match field s b with Some (JBool v) => v | _ => false end in
  {| Privacy.wipeCompliance := asked "wipe_compliance"; Privacy.wipeAudit := asked "wipe_audit" |}.

Definition erased_text (s : Privacy.EraseSummary) : string :=
  "Removed " +:+ pretty (len (Privacy.removed s)) +:+ " file(s), freed " +:+ pretty (Privacy.bytes_freed s) +:+ " bytes. Preserved " +:+
  pretty (len (Privacy.preserved s)) +:+ ".".

Definition erase_POST : handler := fun k w =>
  match body req with
  | None => (Refused 400 "bad_json", w)
  | Some b =>
      if negb (String.eqb (text_of (field "confirm" b)) "DELETE") then (Refused 400 "confirm_required", record_again 400 "privacy.delete.unconfirmed" w) else
      let opts := erase_options b in
      let '(r, dir) := Privacy.eraseAll (d_op d 0%nat) opts (holds (gov w)) (data (gov w)) in
      match r with
      | Err hs => (Answer 409 (HeldBack hs), record_again 409 "privacy.delete.blocked_by_legal_hold" w)
      | Ok s => (ok (Erased s), note_feed "Workspace data erased" (erased_text s) "/settings/privacy"
                             (record_again 200 "privacy.delete.executed" (with_erased opts dir w)))
      end
  end.

(** ** The routes *)

Inductive call :=
| GetFreeze | PostFreeze | DeleteFreeze | GetHolds | PostHold | DeleteHold | GetGrants | PostGrant | DeleteGrant
| GetLimit | PutLimit | DeleteLimit | GetNetwork | PutNetwork | GetRotation | PutRotation | GetResidency | PutResidency | GetErase | PostErase.

Definition method_of (c : call) : string :=
  match c with
  | PostFreeze | PostHold | PostGrant | PostErase => "POST"
  | DeleteFreeze | DeleteHold | DeleteGrant | DeleteLimit => "DELETE"
  | PutLimit | PutNetwork | PutRotation | PutResidency => "PUT"
  | _ => "GET"
  end.

Definition handle (c : call) : handler :=
  match c with
  | GetFreeze => freeze_GET | PostFreeze => freeze_POST | DeleteFreeze => freeze_DELETE
  | GetHolds => hold_GET | PostHold => hold_POST | DeleteHold => hold_DELETE
  | GetGrants => breakglass_GET | PostGrant => breakglass_POST | DeleteGrant => breakglass_DELETE
  | GetLimit => concurrency_GET | PutLimit => concurrency_PUT | DeleteLimit => concurrency_DELETE
  | GetNetwork => network_GET | PutNetwork => network_PUT | GetRotation => rotation_GET | PutRotation => rotation_PUT
  | GetResidency => residency_GET | PutResidency => residency_PUT | GetErase => erase_GET | PostErase => erase_POST
  end.

Definition serve (c : call) (w : W) : R * W := gated sha256 hmac_sha1 adminEnv req d plain_gate (method_of c) (handle c) w.
End Request.

(** * What the routes promise *)

Section Proofs.
Context (req : request) (d : draws).

(** The stores as their readers see them, and the feed, are the same. *)
Record unchanged (w w' : W) : Prop := {
  u_freeze : view (freeze (gov w')) = view (freeze (gov w)); u_slots : view (slots (gov w')) = view (slots (gov w));
  u_holds : holds (gov w') = holds (gov w); u_grants : grants (gov w') = grants (gov w); u_network : network (gov w') = network (gov w);
  u_rotation : rotation (gov w') = rotation (gov w); u_residency : residency (gov w') = residency (gov w);
  u_data : data (gov w') = data (gov w); u_feed : feed w' = feed w }.

#[export] Instance unchanged_preorder : PreOrder unchanged.
Proof. split; [by intros w|]. intros a b c [] []. split; congruence. Qed.

Lemma untouched_unchanged w w' : untouched w w' -> unchanged w w'.
Proof. intros [Hg Hf]. by split; rewrite ?Hg. Qed.

(** The part of the stores that a call governs. *)
Definition governed (c : call) (w w' : W) : Prop :=
  (match c with PostFreeze | DeleteFreeze => True | _ => view (freeze (gov w')) = view (freeze (gov w)) end) /\
  (match c with PutLimit | DeleteLimit => True | _ => view (slots (gov w')) = view (slots (gov w)) end) /\
  (match c with PostHold | DeleteHold => True | _ => holds (gov w') = holds (gov w) end) /\
  (match c with PostGrant | DeleteGrant => True | _ => grants (gov w') = grants (gov w) end) /\
  (match c with PutNetwork => True | _ => network (gov w') = network (gov w) end) /\
  (match c with PutRotation => True | _ => rotation (gov w') = rotation (gov w) end) /\
  (match c with PutResidency => True | _ => residency (gov w') = residency (gov w) end) /\
  (match c with PostErase => True | _ => data (gov w') = data (gov w) end) /\
  (match c with PostHold | DeleteHold | PostErase => True | _ => feed w' = feed w end).

Lemma governed_get c w w' : method_of c = "GET" -> governed c w w' -> unchanged w w'.
Proof. intros Hm (?&?&?&?&?&?&?&?&?). by destruct c; try discriminate Hm. Qed.

Lemma record_again_gov s r (w : W) : gov (record_again sha256 adminEnv req d s r w) = gov w.
Proof. apply record_again_untouched. Qed.

Lemma record_again_feed s r (w : W) : feed (record_again sha256 adminEnv req d s r w) = feed w.
Proof. apply record_again_untouched. Qed.

(** Each branch of a handler ends with a store replaced and lines in the trail. *)
Ltac governed_branch := unfold recordSafe; cbn [snd fst]; rewrite ?record_again_gov, ?record_again_feed; split_and!; done.
Ltac governed_split := repeat (case_match; try governed_branch); try governed_branch.

Lemma handle_governed c k w : governed c w (snd (handle req d c k w)).
Proof.
  unfold governed. destruct c; cbn [handle];
    [unfold freeze_GET|unfold freeze_POST|unfold freeze_DELETE|unfold hold_GET|unfold hold_POST|unfold hold_DELETE
    |unfold breakglass_GET|unfold breakglass_POST|unfold breakglass_DELETE|unfold concurrency_GET|unfold concurrency_PUT|unfold concurrency_DELETE
    |unfold network_GET|unfold network_PUT|unfold rotation_GET|unfold rotation_PUT|unfold residency_GET|unfold residency_PUT
    |unfold erase_GET|unfold erase_POST]; unfold recorded_body, refuse; try solve [governed_split].
  - unfold Freeze.getFreezeState. pose proof (load_view_after Freeze.CACHE_TTL_MS (d_op d 0%nat) (freeze (gov w))) as Hv.
    destruct (load _ _ _) as [s st]. split_and!; done.
  - unfold Concurrency.getConcurrencyPolicy. pose proof (load_view_after Concurrency.CACHE_TTL_MS (d_op d 0%nat) (slots (gov w))) as Hv.
    destruct (load _ _ _) as [s st]. split_and!; done.
Qed.

(** Governance is gated. In production a call leaves every store as its readers
    see it, or it is not a GET, its caller authenticated with the admin scope and
    passed the second factor, and it changed the store that it names and, for a hold and an
    erasure, the feed: nothing else. A GET changes nothing for anyone. *)
Theorem governance_gated c w :
  production adminEnv = true ->
  unchanged w (snd (serve req d c w)) \/
  method_of c <> "GET" /\ (exists key, proven sha256 hmac_sha1 adminEnv req d w key) /\ governed c w (snd (serve req d c w)).
Proof.
  intros Hp. unfold serve. destruct (gated_spec sha256 hmac_sha1 adminEnv req d plain_gate (method_of c) (handle req d c) w)
    as [(s & x & _ & Hu)|(k & w1 & -> & Hu & Hk)]; [left; by apply untouched_unchanged|].
  pose proof (handle_governed c k w1) as Hh. destruct Hu as [Hg Hf].
  assert (governed c w (snd (handle req d c k w1))) as Hw by (unfold governed in *; by rewrite <- Hg, <- Hf).
  destruct (decide (method_of c = "GET")) as [Hm|Hm]; [left; by eapply governed_get|right].
  destruct (Hk Hp Hm) as (key & _ & Hkey). split_and!; [done|by exists key|done].
Qed.

(** An answer that refuses. *)
Definition refuses (r : R) : bool := match r with Refused _ _ | Answer _ (HeldBack _) => true | _ => false end.

(** Case analysis of a handler down to the operation on its store. *)
Ltac refused_branch :=
  unfold recordSafe; cbn [snd fst refuses gov with_gov]; intros Hr; first [discriminate Hr | split; rewrite ?record_again_gov, ?record_again_feed; done].

Lemma handle_refused c k w :
  refuses (fst (handle req d c k w)) = true -> unchanged w (snd (handle req d c k w)).
Proof.
  destruct c; cbn [handle];
    [unfold freeze_GET|unfold freeze_POST|unfold freeze_DELETE|unfold hold_GET|unfold hold_POST|unfold hold_DELETE
    |unfold breakglass_GET|unfold breakglass_POST|unfold breakglass_DELETE|unfold concurrency_GET|unfold concurrency_PUT|unfold concurrency_DELETE
    |unfold network_GET|unfold network_PUT|unfold rotation_GET|unfold rotation_PUT|unfold residency_GET|unfold residency_PUT
    |unfold erase_GET|unfold erase_POST]; unfold recorded_body, refuse; repeat (case_match; try refused_branch); try refused_branch;
    intros _; subst; match goal with E : _ = (Err _, _) |- _ =>
      
      unfold Freeze.freezeWorkspace, Freeze.unfreezeWorkspace, LegalHold.openHold, LegalHold.releaseHold, BreakGlass.grant, BreakGlass.revoke,
        Concurrency.setConcurrencyPolicy, NetworkPolicy.updatePolicy, KeyLifecycle.setRotationPolicy, Residency.setResidencyPolicy in E;
      first [apply transact_checked_err in E; [|quiet_tx] | apply transact_err in E; [|quiet_tx] | apply on_file_err in E; [|quiet_tx]] end;
    (split; first [done | assumption]).
Qed.

(** What is refused changes nothing. Whichever call answers with a refusal, be it of
    the gate, of the body, of the operation itself or of a legal hold, every store
    is as its readers saw it before. *)
Theorem refusals_change_nothing c w :
  refuses (fst (serve req d c w)) = true -> unchanged w (snd (serve req d c w)).
Proof.
  unfold serve. destruct (gated_spec sha256 hmac_sha1 adminEnv req d plain_gate (method_of c) (handle req d c) w)
    as [(s & x & _ & Hu)|(k & w1 & -> & Hu & _)]; intros Hr; [by apply untouched_unchanged|].
  etrans; [by apply untouched_unchanged|by apply handle_refused].
Qed.

(** ** Holds and erasure *)

(** What a call does to the register of holds. *)
Lemma handle_holds c k w :
  holds (gov (snd (handle req d c k w))) = holds (gov w) \/
  exists e, holds (gov (snd (handle req d c k w))) = LegalHold.run e (holds (gov w)) /\
    match e with
    | LegalHold.Open now _ _ => now = d_op d 0%nat
    | LegalHold.Release now input => now = d_op d 0%nat /\ c = DeleteHold /\ query req !! "id" = Some (LegalHold.rel_id input)
    end.
Proof.
  pose proof (handle_governed c k w) as (_ & _ & Hh & _). destruct c; try (by left); clear Hh; cbn [handle].
  - unfold hold_POST. destruct (body req) as [b|]; [|by left]. destruct (field "scopes" b) as [[| | | |[|x l]|]|]; try by left.
    cbn zeta. case_bool_decide; [by left|]. right. destruct (LegalHold.openHold _ _ _ _) as [r f] eqn:E.
    eexists (LegalHold.Open _ _ _). cbn [LegalHold.run]. rewrite E. split; [|done].
    destruct r as [h|[]]; unfold recordSafe; cbn [snd gov with_gov holds]; by rewrite ?record_again_gov.
  - unfold hold_DELETE. destruct (query req !! "id") as [i|] eqn:Ei; [|by left]. cbn [default from_option]. destruct (negb _); [by left|].
    right. destruct (LegalHold.releaseHold _ _ _) as [r f] eqn:E. eexists (LegalHold.Release _ _). cbn [LegalHold.run]. rewrite E. split; [|done].
    destruct r as [h|[]]; unfold recordSafe; cbn [snd gov with_gov holds]; by rewrite ?record_again_gov.
Qed.

(** A hold that covers what every erasure removes. *)
Definition holding (h : LegalHold.LegalHold) (g : stores) : Prop :=
  h ∈ read_file (holds g) /\ LegalHold.active h /\ (LegalHold.runs ∈ LegalHold.scopes h \/ LegalHold.user_data ∈ LegalHold.scopes h) /\
  Forall LegalHold.hold_storable (read_file (holds g)).

Definition spares (h : LegalHold.LegalHold) (c : call) : Prop := c = DeleteHold -> query req !! "id" <> Some (LegalHold.id h).

Lemma erase_held h opts now g : holding h g -> exists hs, Privacy.eraseAll now opts (holds g) (data g) = (Err hs, data g) /\ h ∈ hs.
Proof.
  intros (Hin & Ha & Hs & _). unfold Privacy.eraseAll, Privacy.eraseBlockingHolds.
  assert (h ∈ LegalHold.blocking (Privacy.erase_scopes opts) (holds g)) as Hb.
  { apply LegalHold.holdsBlocking_elem. split_and!; [done|done|]. unfold Privacy.erase_scopes. destruct Hs; eexists; (split; [done|]); set_solver. }
  destruct (LegalHold.blocking _ _) as [|x l]; [by apply elem_of_nil in Hb|]. by eexists.
Qed.

Lemma handle_holding h c k w :
  iso_range (d_op d 0%nat) -> spares h c -> holding h (gov w) ->
  holding h (gov (snd (handle req d c k w))) /\ data (gov (snd (handle req d c k w))) = data (gov w).
Proof.
  intros Hn Hsp Hh. split.
  - destruct Hh as (Hin & Ha & Hs & Hst). unfold holding. destruct (handle_holds c k w) as [->|(e & -> & He)]; [done|].
    assert (LegalHold.event_ok e) as Hok by (destruct e; [by subst|by destruct He as [-> _]]).
    split_and!; [|done|done|by apply LegalHold.run_grows]. apply LegalHold.run_keeps_active; [done..| |done|done].
    destruct e as [|now input]; [done|]. destruct He as (_ & Hc & Hq). intros Hid. apply (Hsp Hc). by rewrite Hq, Hid.
  - destruct (handle_governed c k w) as (_ & _ & _ & _ & _ & _ & _ & Hd & _). destruct c; try done. clear Hd. cbn [handle].
    unfold erase_POST. destruct (body req) as [b|]; [|done]. destruct (negb _); cbn [snd]; [by rewrite record_again_gov|]. cbn zeta.
    destruct (erase_held h (erase_options b) (d_op d 0%nat) _ Hh) as (hs & -> & _). cbn [snd]. by rewrite record_again_gov.
Qed.

Lemma serve_holding h c w :
  iso_range (d_op d 0%nat) -> spares h c -> holding h (gov w) ->
  holding h (gov (snd (serve req d c w))) /\ data (gov (snd (serve req d c w))) = data (gov w).
Proof.
  intros Hn Hsp Hh. unfold serve. destruct (gated_spec sha256 hmac_sha1 adminEnv req d plain_gate (method_of c) (handle req d c) w)
    as [(s & x & _ & Hg & _)|(k & w1 & -> & [Hg _] & _)]; [by rewrite Hg|]. rewrite <- Hg in Hh |- *. by apply handle_holding.
Qed.

Lemma serve_erase_held h w : holding h (gov w) ->
  match fst (serve req d PostErase w) with Answer _ (HeldBack hs) => h ∈ hs | Refused _ _ => True | _ => False end.
Proof.
  intros Hh. unfold serve. destruct (gated_spec sha256 hmac_sha1 adminEnv req d plain_gate (method_of PostErase) (handle req d PostErase) w)
    as [(s & x & -> & _)|(k & w1 & -> & [Hg _] & _)]; [done|]. rewrite <- Hg in Hh. cbn [handle]. unfold erase_POST. destruct (body req) as [b|]; [|done]. destruct (negb _); [done|]. cbn zeta.
  by destruct (erase_held h (erase_options b) (d_op d 0%nat) _ Hh) as (hs & -> & Hb).
Qed.
End Proofs.

(** A session: calls of any callers, one after the other. *)
Definition session : Type := list (call * request * draws).

Definition serve_all (s : session) (w : W) : W := fold_left (fun w '(c, req, d) => snd (serve req d c w)) s w.

(** C34. A legal hold outlasts the session. Once a hold on the runs or on the user data is
    open, whatever calls follow, from whoever and in whatever order, the hold stays
    and no file of the workspace changes as long as no call names the hold for
    release; and every request to erase, also then, is refused and told about it. *)
Theorem held_data_outlives_sessions h (s : session) w :
  holding h (gov w) ->
  Forall (fun '(c, req, d) => iso_range (d_op d 0%nat) /\ spares req h c) s ->
  let w' := serve_all s w in
  holding h (gov w') /\ data (gov w') = data (gov w) /\
  forall req d, match fst (serve req d PostErase w') with Answer _ (HeldBack hs) => h ∈ hs | Refused _ _ => True | _ => False end.
Proof.
  intros Hh Hs. cbv zeta. assert (holding h (gov (serve_all s w)) /\ data (gov (serve_all s w)) = data (gov w)) as [Hw Hd].
  { revert w Hh. induction s as [|[[c req] d] s IH]; intros w Hh; [done|]. apply Forall_cons in Hs as [Hx Hs']. cbn beta iota in Hx. destruct Hx as [Hn Hsp].
    destruct (serve_holding req d h c w Hn Hsp Hh) as [Hh' Hd']. destruct (IH Hs' _ Hh') as [H1 H2]. split; [done|].
    unfold serve_all in *. cbn [fold_left]. by rewrite H2. }
  split_and!; [done|done|]. intros req d. by apply serve_erase_held.
Qed.
End Routes.

(** ** A hold on an administrator *)
Section Demo.
Definition demo_sha (s : string) : string := "#" +:+ s.
Definition demo_rotation : KeyLifecycle.rotation_env := {| KeyLifecycle.SIGNALCLAW_MAX_KEY_AGE_DAYS := None; KeyLifecycle.SIGNALCLAW_KEY_ROTATION_WARN_DAYS := None |}.
Definition demo_residency : Residency.residency_env := {| Residency.SIGNALCLAW_DATA_REGION := ""; Residency.SIGNALCLAW_RESIDENCY_MODE := "" |}.
Definition demo_alice : StoredKey := with_role owner (new_key demo_sha "alice" "sc_live_a" "ops" [read] 0 None).
Definition demo_stores : stores demo_rotation demo_residency :=
  Stores _ _ (boot None) None None (boot None) None None None {[ "runs.json" := {| Privacy.size := 7; Privacy.empty := false; Privacy.whole := Parsed (JArr []); Privacy.lines := [] |} ]}.
Definition demo_world : world (LockoutConfig * file AuthLockout.State) (stores demo_rotation demo_residency) :=
  World (write_file [demo_alice]) (DEFAULT_CONFIG, None) (MfaGate.World None []) None demo_stores.
Definition demo_draws (t : Z) : draws :=
  {| d_auth := fun _ => fun _ => t; d_mfa := t; d_op := fun _ => t; d_event := t; d_id := "h1"; d_event_id := "e1" |}.
Definition demo_request (secret : string) (q : gmap string string) (b : list (string * json)) : request :=
  {| headers := {[ "x-api-key" := secret ]}; query := q; body := Some (JObj b) |}.
Definition demo_serve (t : Z) (req : request) :=
  serve demo_rotation demo_residency demo_sha (fun _ _ => []) (Some "root-secret") req (demo_draws t).
Definition demo_open : request := demo_request "sc_live_a" ∅ [("matter", JStr "Acme v. Doe"); ("scopes", JArr [JStr "runs"])].
Definition demo_erase (secret : string) : request := demo_request secret ∅ [("confirm", JStr "DELETE")].

(** Before the hold the erasure works; after it, it does not. *)
Example erased_without_hold :
  match demo_serve 2000 (demo_erase "sc_live_a") PostErase demo_world with (Answer _ (Erased s), w) => Privacy.bytes_freed s = 7 /\ data _ _ (gov w) = ∅ | _ => False end.
Proof. vm_compute. done. Qed.

Definition demo_held := snd (demo_serve 2000 demo_open PostHold demo_world).
Definition demo_hold : LegalHold.LegalHold :=
  {| LegalHold.id := "h1"; LegalHold.matter := "Acme v. Doe"; LegalHold.reason := ""; LegalHold.scopes := [LegalHold.runs]; LegalHold.opened_at := Iso 2000;
     LegalHold.opened_by := "alice"; LegalHold.released_at := None; LegalHold.released_by := None; LegalHold.released_reason := None |}.

(** A stranger and the administrator try to erase, and a release names another hold. *)
Definition demo_session : session :=
  [(PostErase, demo_erase "nobody", demo_draws 3000); (PostErase, demo_erase "sc_live_a", demo_draws 4000);
   (DeleteHold, demo_request "sc_live_a" {[ "id" := "h2" ]} [("released_reason", JStr "settled")], demo_draws 5000)].

Lemma demo_holding : holding _ _ demo_hold (gov demo_held).
Proof.
  split; [apply list_elem_of_singleton; reflexivity|]. split; [done|]. split; [left; apply list_elem_of_singleton; reflexivity|].
  apply Forall_singleton. split; [done|]. split; [|done]. vm_compute. split; discriminate.
Qed.

Lemma held_data_outlives_sessions_witness :
  fst (demo_serve 6000 (demo_erase "sc_live_a") PostErase (serve_all demo_rotation demo_residency demo_sha (fun _ _ => []) (Some "root-secret") demo_session demo_held))
    = Answer 409 (HeldBack [demo_hold]) /\
  data _ _ (gov (serve_all demo_rotation demo_residency demo_sha (fun _ _ => []) (Some "root-secret") demo_session demo_held)) = data _ _ (gov demo_held).
Proof.
  split; [vm_compute; reflexivity|].
  apply (held_data_outlives_sessions demo_rotation demo_residency demo_sha (fun _ _ => []) (Some "root-secret") demo_hold demo_session demo_held demo_holding).
  apply Forall_cons. split; [split; [vm_compute; split; discriminate|done]|].
  apply Forall_cons. split; [split; [vm_compute; split; discriminate|done]|].
  apply Forall_cons. split; [split; [vm_compute; split; discriminate|intros _; discriminate]|constructor].
Defined.

(** A stranger is turned away; the hold above was opened through the gate. *)
Lemma governance_gated_witness :
  fst (demo_serve 2000 (demo_erase "nobody") PostErase demo_world) = Refused 403 "forbidden" /\
  (unchanged _ _ demo_world demo_held \/
   "POST" <> "GET" /\ (exists key, proven demo_sha (fun _ _ => []) (Some "root-secret") demo_open (demo_draws 2000) demo_world key) /\
   governed _ _ PostHold demo_world demo_held).
Proof.
  split; [vm_compute; reflexivity|].
  exact (governance_gated demo_rotation demo_residency demo_sha (fun _ _ => []) (Some "root-secret") demo_open (demo_draws 2000) PostHold demo_world eq_refl).
Defined.

Lemma refusals_change_nothing_witness :
  unchanged _ _ demo_held (snd (demo_serve 6000 (demo_erase "sc_live_a") PostErase demo_held)).
Proof.
  apply (refusals_change_nothing demo_rotation demo_residency demo_sha (fun _ _ => []) (Some "root-secret") (demo_erase "sc_live_a") (demo_draws 6000) PostErase demo_held).
  vm_compute. reflexivity.
Defined.
End Demo.
