(* ===== verification/AdminSettings.v ===== *)
(** The settings of a deployment: the routes [csp], [cors], [auth-lockout],
    [webhooks/egress-policy], [sla], [retention], [retention/run], [siem],
    [siem/test], [siem/deliveries], [dpa], [invites], [invites/[token]],
    [seats], [scim], [scim/users] and [privacy/export] of [web/app/api/admin],
    behind the gate of [AdminRoute]. The values that the code does not check
    the type of ([Number(x)], the fields of a SIEM update), the network and the
    outcome of a write are parameters. *)
From S2P Require Import Prelude JsNum JsDate IsoTime Json Store Interleave AuthLockout KeyStore AdminRoute.
From S2P Require IpMatch Browser Egress Sla LegalHold Retention Siem Dpa Invites Scim Privacy Activity Totp MfaGate.
#[local] Existing Instances Egress.EgressPolicy_persisted LegalHold.holds_persisted LegalHold.file_register Retention.RetentionPolicy_persisted
  Invites.invites_persisted Scim.users_persisted Scim.token_persisted AuthLockout.State_persisted Browser.CspMode_eq_dec.

(** Three more forms of the gate. *)
Definition silent_gate : gate_kind := {| logs_local := false; logs_admission := None |}.
Definition recorded_gate : gate_kind := {| logs_local := true; logs_admission := Some "" |}.
Definition export_gate : gate_kind := {| logs_local := true; logs_admission := Some "privacy.export" |}.

Section Routes.
Context (CURRENT_DPA : Dpa.DpaPublishedVersion) (sha256 : string -> string) (hmac_sha1 : list Z -> list Z -> list Z) (adminEnv : option string).
Context (env : Browser.Env) (seat_limit : option num).
Context (Number_of : jval -> num) (sink_fields : json -> Siem.UpdateInput) (new_URL : string -> option (Egress.URL * string))
  (hmac : string -> string -> string) (stringify : json -> string).
#[local] Instance ledger_file : Persisted Dpa.ledger := Dpa.ledger_persisted CURRENT_DPA.

Record stores := Stores {
  csp : option json; egress : file Egress.EgressPolicy; sla : Sla.Process; retention : file Retention.RetentionPolicy;
  holds : file (list LegalHold.LegalHold); purged : Retention.data_dir; siem : Siem.siem; dpa : file Dpa.ledger;
  invites : file Invites.invites; users : file Scim.users; token : file Scim.TokenStore; files : gmap string Privacy.text_file }.

(** The configuration of the lockout is the one authentication uses. *)
Abbreviation W := (world (LockoutConfig * file State) stores).

Record CspView := { c_policy : Browser.CspPolicy; c_effective : Browser.CspPolicy; c_header : option (string * string); c_drift : bool }.

Inductive answer :=
| Csp (v : CspView)
| Cors (p : Browser.CorsPolicy)
| Lockouts (c : LockoutConfig) (entries : list LockoutEntry) (locked_count : nat)
| Config (c : LockoutConfig)
| Unlocked_ip (ip : string)
| EgressView (p : Egress.EgressPolicy)
| SlaState (r : Sla.SlaRegister)
| Commitment (c : Sla.SlaCommitment)
| Policy (p : Retention.RetentionPolicy)
| Swept (r : Retention.SweepResult)
| Sink (s : Siem.SiemSink)
| Attempt (a : option Siem.DeliveryAttempt)
| Deliveries (l : list Siem.DeliveryAttempt)
| DpaState (s : Dpa.State)
| Accepted (a : Dpa.DpaAcceptance) (superseded : option Dpa.DpaAcceptance)
| Withdrawn (a : Dpa.DpaAcceptance)
| InviteList (l : list Invites.PublicView) (seats : Invites.SeatUsage)
| InviteView (v : Invites.PublicView)
| Seats (u : Invites.SeatUsage)
| TokenState (s : Scim.TokenStatus)
| NewToken (plaintext : string)
| Users (total active : nat) (l : list Scim.ScimUser)
| Bundle (b : Privacy.ExportBundle) (filename : string)
| Done.

(** The answer of a delivery and whether a write succeeds. *)
Record outside := { o_delivery : Siem.Outcome; o_write : bool }.

Section Request.
Context (req : request) (d : draws) (o : outside).
Abbreviation handler := (option StoredKey -> W -> reply answer * W).
Abbreviation ok a := (Answer 200 a).
Abbreviation op n := (d_op d n).
Abbreviation feed_line := (recordSafe d).
Abbreviation recorded_body := (recorded_body req).
Abbreviation record_again := (record_again sha256 adminEnv req d).

(** ** The content security policy and the origins *)

Definition with_csp (f : option json) (w : W) : W :=
  with_gov (let g := gov w in Stores f (egress g) (sla g) (retention g) (holds g) (purged g) (siem g) (dpa g) (invites g) (users g) (token g) (files g)) w.

(** What the middleware applies, which reads the environment and not the store. *)
Definition effectiveFromEnv : Browser.CspPolicy :=
  {| Browser.mode := Browser.mode_of_env env; Browser.extra_hosts := Browser.words "" (default "" (Browser.CSP_EXTRA_HOSTS env));
     Browser.reporting_enabled := negb (bool_decide (Browser.CSP_REPORT_DISABLED env = Some "1")); Browser.updated_at := None; Browser.updated_by := None |}.

Definition withMeta (p : Browser.CspPolicy) : CspView :=
  let e := effectiveFromEnv in
  {| c_policy := p; c_effective := e; c_header := (fun n => (n, Browser.buildCspHeader e)) <$> Browser.cspHeaderName (Browser.mode e);
     c_drift := negb (bool_decide (Browser.mode p = Browser.mode e)) ||
                negb (String.eqb (to_lower (join "," (Browser.extra_hosts p))) (join "," (to_lower <$> Browser.extra_hosts e))) |}.

Definition csp_GET : handler := fun k w =>
  match Browser.getCspPolicy env (csp (gov w)) with
  | Err _ => (Raised, w)
  | Ok p => (ok (Csp (withMeta p)), recordAuditEvent 200 k "" w)
  end.

Definition csp_code (e : Browser.CspError) : string :=
  match e with Browser.bad_mode => "bad_mode" | Browser.bad_type => "bad_type" | Browser.bad_host => "bad_host" | Browser.too_many => "too_many" end.

Definition csp_PUT : handler := fun k w => recorded_body k w (fun b =>
  let m := text_of (field "mode" b) in
  if negb (bool_decide (m ∈ ["off"; "report"; "enforce"])) then refuse 400 "bad_mode" k w else
  let hosts := match field "extra_hosts" b with Some (JArr l) => Some (JArr l) | _ => Some (JArr []) end in
  let '(r, f) := Browser.updateCspPolicy env
    {| Browser.in_mode := m; Browser.in_extra_hosts := hosts;
       Browser.in_reporting_enabled := match field "reporting_enabled" b with Some (JBool false) => false | _ => true end;
       Browser.in_actor := id <$> k |} (op 0%nat) (csp (gov w)) in
  let w := with_csp f w in
  match r with
  | Ok (p, _) => (ok (Csp (withMeta p)), recordAuditEvent 200 k "" w)
  | Err e => match Browser.canonicalizeHosts hosts with Err _ => refuse 400 (csp_code e) k w | Ok _ => (Raised, w) end
  end).

Definition cors_GET : handler := fun k w => (ok (Cors (Browser.getPolicy env)), recordAuditEvent 200 k "" w).

(** ** The lockout of addresses *)

Definition with_lockout (c : LockoutConfig) (f : file State) (w : W) : W := World (keys_file w) (c, f) (second w) (feed w) (gov w).

Definition lockout_GET : handler := fun k w =>
  let entries := listLockouts (fst (lockout w)) (op 0%nat) (read_file (snd (lockout w))) in
  (ok (Lockouts (fst (lockout w)) entries (length (filter (fun e => e_locked e = true) entries))), recordAuditEvent 200 k "" w).

(** [body[name] ?? before], then [Number]. A value that is not a number anymore
    stays none. *)
Definition config_number (v : jval) (before : option Z) : option num :=
  match v with None | Some JNull => Some (from_option int NaN before) | Some j => Some (Number_of (Some j)) end.

Definition lockout_PUT : handler := fun k w => recorded_body k w (fun b =>
  let before := fst (lockout w) in
  let '(after, _) := setConfig
    {| raw_threshold := config_number (field "threshold" b) (threshold before);
       raw_window := config_number (field "window_seconds" b) (window_seconds before);
       raw_cooldown := config_number (field "cooldown_seconds" b) (cooldown_seconds before);
       raw_enabled := match field "enabled" b with Some (JBool e) => e | _ => enabled before end |}
    {| config_file := None; cachedConfig := Some before |} in
  (ok (Config after), recordAuditEvent 200 k "auth_lockout_config_updated" (with_lockout after (snd (lockout w)) w))).

Definition lockout_DELETE : handler := fun k w =>
  match IpMatch.normalizeIp (default "" (query req !! "ip")) with
  | None => refuse 400 "bad_ip" k w
  | Some ip =>
      let '(found, f) := unlockIp ip (snd (lockout w)) in
      let w := with_lockout (fst (lockout w)) f w in
      if found then (ok (Unlocked_ip ip), recordAuditEvent 200 k "auth_lockout_cleared" w) else refuse 404 "not_found" k w
  end.

(** ** The destinations of webhooks *)

Definition with_egress (f : file Egress.EgressPolicy) (w : W) : W :=
  with_gov (let g := gov w in Stores (csp g) f (sla g) (retention g) (holds g) (purged g) (siem g) (dpa g) (invites g) (users g) (token g) (files g)) w.

Definition egress_GET : handler := fun k w => (ok (EgressView (Egress.getPolicy (egress (gov w)))), w).

Definition egress_code (c : Egress.SetCode) : string := match c with Egress.bad_cidr => "bad_cidr" | Egress.too_many_cidrs => "too_many_cidrs" end.

Definition object_or_null (b : json) : bool := match b with JNull => true | _ => is_object b end.

Definition egress_PUT : handler := fun k w =>
  match body req with
  | None => (Refused 400 "bad_json", w)
  | Some b =>
      if negb (object_or_null b) then (Refused 400 "bad_body", w) else
      match field "allow_private" b with
      | None | Some (JBool _) =>
          let '(r, f) := Egress.setPolicy (op 0%nat)
            {| Egress.in_allow_private := field "allow_private" b; Egress.in_cidrs := field "cidrs" b |} (id <$> k) (egress (gov w)) in
          let w := with_egress f w in
          match r with
          | Err c => refuse 400 (egress_code c) None w
          | Ok u => (ok (EgressView (Egress.policy u)), recordAuditEvent 200 None "egress.policy.updated" w)
          end
      | _ => (Refused 400 "bad_allow_private", w)
      end
  end.

(** ** The service level commitment *)

Definition with_sla (p : Sla.Process) (w : W) : W :=
  with_gov (let g := gov w in Stores (csp g) (egress g) p (retention g) (holds g) (purged g) (siem g) (dpa g) (invites g) (users g) (token g) (files g)) w.

Definition actor (k : option StoredKey) : string := match k with Some k => id k | None => "local" end.

Definition sla_GET : handler := fun k w =>
  match Sla.getState (sla (gov w)) with
  | None => (Raised, w)
  | Some r => (ok (SlaState r), recordAuditEvent 200 k "sla.list" w)
  end.

Definition sla_code (e : Sla.SlaError) : string :=
  match e with
  | Sla.bad_uptime => "bad_uptime" | Sla.bad_response => "bad_response" | Sla.bad_response_order => "bad_response_order"
  | Sla.bad_ladder => "bad_ladder" | Sla.bad_ladder_order => "bad_ladder_order" | Sla.bad_notes => "bad_notes" | Sla.bad_contact => "bad_contact"
  end.

Definition sla_POST : handler := fun k w =>
  match body req with
  | None => (Refused 400 "bad_json", w)
  | Some b =>
      let '(r, p) := Sla.publish sha256 (Sla.input_of Number_of b (actor k)) (op 0%nat) (o_write o) (sla (gov w)) in
      let w := with_sla p w in
      match r with
      | Sla.Refused e => (Refused 400 (sla_code e), recordAuditEvent 400 k ("sla.publish_rejected:" +:+ sla_code e) w)
      | Sla.Throws => (Raised, w)
      | Sla.Published c => (ok (Commitment c), recordAuditEvent 200 k "sla.published" w)
      end
  end.

(** ** Retention *)

Definition with_retention (f : file Retention.RetentionPolicy) (x : Retention.data_dir) (w : W) : W :=
  with_gov (let g := gov w in Stores (csp g) (egress g) (sla g) f (holds g) x (siem g) (dpa g) (invites g) (users g) (token g) (files g)) w.

Definition retention_GET : handler := fun k w => (ok (Policy (Retention.getPolicy (retention (gov w)))), w).

Definition days_text (n : Z) : string := if n =? 0 then "forever" else pretty n.

(** ["runs_days" in body]. *)
Definition days_of (name : string) (b : json) : option num := match field name b with Some j => Some (Number_of (Some j)) | None => None end.

Definition retention_PUT : handler := fun k w =>
  match body req with
  | None => (Refused 400 "bad_json", w)
  | Some b =>
      let '(after, f) := Retention.setPolicy (op 0%nat)
        {| Retention.u_runs := days_of "runs_days" b; Retention.u_audit := days_of "audit_days" b;
           Retention.u_webhook := days_of "webhook_deliveries_days" b |} (retention (gov w)) in
      let w := record_again 200 "retention.policy.updated" (with_retention f (purged (gov w)) w) in
      (ok (Policy after),
       feed_line "system" "Retention policy updated"
         ("Runs " +:+ days_text (Retention.runs_days after) +:+ "d, audit " +:+ days_text (Retention.audit_days after) +:+ "d, deliveries " +:+
          days_text (Retention.webhook_deliveries_days after) +:+ "d.") "/settings/retention" w)
  end.

Definition count_text (n : num) : string := pretty (floorZ n).

Definition sweep_POST : handler := fun k w =>
  let '(r, f, x) := Retention.runRetentionSweep (d_op d) (holds (gov w)) (retention (gov w)) (purged (gov w)) in
  let c := Retention.swept r in
  (ok (Swept r),
   feed_line "system" "Retention sweep ran"
     ("Purged " +:+ count_text (Retention.n_runs c) +:+ " runs, " +:+ count_text (Retention.n_audit c) +:+ " audit, " +:+
      count_text (Retention.n_webhook_deliveries c) +:+ " deliveries.") "/settings/retention" (with_retention f x w)).

(** ** The SIEM sink *)

Definition with_siem (p : Siem.siem) (w : W) : W :=
  with_gov (let g := gov w in Stores (csp g) (egress g) (sla g) (retention g) (holds g) (purged g) p (dpa g) (invites g) (users g) (token g) (files g)) w.

Definition siem_GET : handler := fun k w =>
  let '(s, p) := Siem.getSink (siem (gov w)) in (ok (Sink s), recordAuditEvent 200 k "" (with_siem p w)).

Definition siem_code (e : Siem.SinkError) : string :=
  match e with
  | Siem.bad_url => "bad_url" | Siem.bad_scheme => "bad_scheme" | Siem.userinfo => "userinfo" | Siem.bad_secret => "bad_secret"
  | Siem.bad_header_name => "bad_header_name" | Siem.bad_header_value => "bad_header_value" | Siem.bad_timeout => "bad_timeout"
  | Siem.missing_url => "missing_url" | Siem.missing_secret => "missing_secret"
  end.

(** [Object.keys(body)]: an array has its indices. *)
Definition keys_of (b : json) : list string :=
  match b with JObj fs => fst <$> fs | JArr l => (fun n : nat => pretty (Z.of_nat n)) <$> seq 0 (length l) | _ => [] end.

Definition siem_PUT : handler := fun k w =>
  match body req with
  | None => refuse 400 "bad_json" k w
  | Some b =>
      if negb (is_object b) then (Refused 400 "bad_body", w) else
      match Siem.unknown_field (keys_of b) with
      | Some _ => (Refused 400 "unknown_field", w)
      | None =>
          let '(r, p) := Siem.updateSink new_URL (sink_fields b) (op 0%nat) (siem (gov w)) in
          let w := with_siem p w in
          match r with
          | Ok s => (ok (Sink s), recordAuditEvent 200 k "" w)
          | Err e => refuse 400 (siem_code e) k w
          end
      end
  end.

Definition scope_text (s : Scope) : string := match s with read => "read" | trade => "trade" | admin => "admin" end.

Definition test_event (k : option StoredKey) : Siem.DispatchEvent :=
  {| Siem.e_id := d_id d; Siem.e_ts := toISOString (op 1%nat); Siem.e_route := "/api/admin/siem/test"; Siem.e_method := "POST"; Siem.e_status := 200;
     Siem.e_ok := true; Siem.e_key_id := from_option id "anon" k; Siem.e_key_label := from_option label "" k;
     Siem.e_scopes := from_option (fun k => scope_text <$> scopes k) [] k; Siem.e_reason := Some "siem-test";
     Siem.e_request_id := headers req !! "x-request-id"; Siem.e_ip_hash := None; Siem.e_hash := "test" |}.

Definition siem_test_POST : handler := fun k w =>
  let '(r, p) := Siem.test_POST hmac stringify (test_event k) (op 0%nat) (o_delivery o) (siem (gov w)) in
  let w := with_siem p w in
  match r with
  | Err c => refuse 400 c k w
  | Ok a => (ok (Attempt a), recordAuditEvent 200 k "" w)
  end.

Definition siem_deliveries_GET : handler := fun k w => (ok (Deliveries (Siem.listDeliveries (siem (gov w)))), recordAuditEvent 200 k "" w).

(** ** The data processing agreement *)

Definition with_dpa (f : file Dpa.ledger) (w : W) : W :=
  with_gov (let g := gov w in Stores (csp g) (egress g) (sla g) (retention g) (holds g) (purged g) (siem g) f (invites g) (users g) (token g) (files g)) w.

Definition dpa_GET : handler := fun k w => (ok (DpaState (Dpa.getState CURRENT_DPA (dpa (gov w)))), recordAuditEvent 200 k "dpa.list" w).

Definition accept_code (e : Dpa.AcceptError) : string :=
  match e with Dpa.bad_signatory => "bad_signatory" | Dpa.bad_entity => "bad_entity" | Dpa.bad_title => "bad_title" | Dpa.bad_note => "bad_note" end.

Definition withdraw_code (e : Dpa.WithdrawError) : string := match e with Dpa.bad_reason => "bad_reason" | Dpa.no_active => "no_active" end.

Definition caller_ip : option string := Some (IpMatch.clientIpFromRequest (headers req)).

Definition dpa_POST : handler := fun k w =>
  match body req with
  | None => (Refused 400 "bad_json", w)
  | Some b =>
      let '(r, f) := Dpa.accept CURRENT_DPA sha256 (Dpa.accept_input (Some b) (actor k) caller_ip (headers req !! "user-agent")) (d_id d) (op 0%nat) (dpa (gov w)) in
      let w := with_dpa f w in
      match r with
      | Err e => (Refused 400 (accept_code e), recordAuditEvent 400 k ("dpa.accept_rejected:" +:+ accept_code e) w)
      | Ok (a, old) =>
          (ok (Accepted a old),
           feed_line "system" ("DPA " +:+ Dpa.dpa_version a +:+ " accepted")
             (Dpa.signatory_name a +:+ " (" +:+ Dpa.signatory_title a +:+ ") for " +:+ Dpa.customer_entity a) "/settings/dpa"
             (recordAuditEvent 200 k "dpa.accepted" w))
      end
  end.

Definition dpa_DELETE : handler := fun k w =>
  let '(r, f) := Dpa.withdraw CURRENT_DPA sha256 (Dpa.withdraw_input (Some (default (JObj []) (body req))) (actor k) caller_ip (headers req !! "user-agent"))
    (d_id d) (op 0%nat) (dpa (gov w)) in
  let w := with_dpa f w in
  match r with
  | Err e =>
      let status := match e with Dpa.no_active => 409 | _ => 400 end in
      (Refused status (withdraw_code e), recordAuditEvent status k ("dpa.withdraw_rejected:" +:+ withdraw_code e) w)
  | Ok (a, _) =>
      (ok (Withdrawn a),
       feed_line "system" ("DPA " +:+ Dpa.dpa_version a +:+ " acceptance withdrawn") (str_take 200 (Dpa.d_note a)) "/settings/dpa"
         (recordAuditEvent 200 k "dpa.withdrawn" w))
  end.

(** ** Invitations and seats *)

Definition with_invites (f : file Invites.invites) (w : W) : W :=
  with_gov (let g := gov w in Stores (csp g) (egress g) (sla g) (retention g) (holds g) (purged g) (siem g) (dpa g) f (users g) (token g) (files g)) w.

Definition seats_of (w : W) : Invites.SeatUsage := Invites.getSeatUsage seat_limit (read_file (keys_file w)).

Definition invites_GET : handler := fun k w =>
  (ok (InviteList (imap (fun n i => Invites.publicView i (op n)) (Invites.listInvites (invites (gov w)))) (seats_of w)), w).

Definition seats_GET : handler := fun k w => (ok (Seats (seats_of w)), w).

(** A number between two bounds, rounded down; [None] when it is not. *)
Definition bounded (lo hi : Z) (v : jval) : option (option num) :=
  match v with
  | None | Some JNull => Some None
  | Some j => let n := Number_of (Some j) in
              if negb (is_finite n) || num_lt n (int lo) || num_lt (int hi) n then None else Some (Some (num_floor n))
  end.

Definition wanted_scopes (v : jval) : list string :=
  match v with Some (JArr l) => filter (fun s => s = "read" \/ s = "trade") (strings_of l) | _ => ["read"] end.

Definition plural (n : num) : string := if floorZ n =? 1 then "" else "s".

Definition invites_POST : handler := fun k w =>
  match body req with
  | None => (Refused 400 "bad_json", w)
  | Some b =>
      let lbl := text_of (field "label" b) in
      if negb (truthy (trim lbl)) then (Refused 400 "bad_label", w)
      else if 80 <? str_len lbl then (Refused 400 "label_too_long", w) else
      let ss := wanted_scopes (field "scopes" b) in
      if bool_decide (ss = []) then (Refused 400 "bad_scopes", w) else
      match bounded 1 100 (field "max_uses" b) with
      | None => (Refused 400 "bad_max_uses", w)
      | Some uses =>
          match bounded 0 (90 * 24 * 3600) (field "expires_in_seconds" b) with
          | None => (Refused 400 "bad_expiry", w)
          | Some ttl =>
              let '(inv, f) := Invites.createInvite (d_op d) (d_id d)
                {| Invites.in_label := lbl; Invites.in_scopes := ss; Invites.in_max_uses := uses; Invites.in_expires_in_seconds := ttl;
                   Invites.in_created_by := Some (from_option id "anon" k) |} (invites (gov w)) in
              (ok (InviteView (Invites.publicView inv (op 2%nat))),
               feed_line "invite.created" ("Invite created " +:+ String (chr 183) " " +:+ Invites.label inv)
                 ("Scopes: " +:+ join ", " (scope_text <$> Invites.scopes inv) +:+ ". " +:+ count_text (Invites.max_uses inv) +:+ " seat" +:+
                  plural (Invites.max_uses inv) +:+ ".") "/settings/invites" (with_invites f w))
          end
      end
  end.

Definition invite_GET (t : string) : handler := fun k w =>
  match Invites.getInvite t (invites (gov w)) with
  | None => (Refused 404 "not_found", w)
  | Some i => (ok (InviteView (Invites.publicView i (op 0%nat))), w)
  end.

Definition ellipsis : string := String (chr 226) (String (chr 128) (String (chr 166) "")).

Definition invite_DELETE (t : string) : handler := fun k w =>
  let '(found, f) := Invites.revokeInvite t (invites (gov w)) in
  let w := with_invites f w in
  if found then (ok Done, feed_line "invite.revoked" "Invite revoked" ("Token " +:+ str_take 12 t +:+ ellipsis +:+ " revoked.") "/settings/invites" w)
  else (Refused 404 "not_found", w).

(** ** Provisioning *)

Definition with_token (f : file Scim.TokenStore) (w : W) : W :=
  with_gov (let g := gov w in Stores (csp g) (egress g) (sla g) (retention g) (holds g) (purged g) (siem g) (dpa g) (invites g) (users g) f (files g)) w.

Definition scim_GET : handler := fun k w => (ok (TokenState (Scim.getTokenStatus (token (gov w)))), w).

Definition scim_POST : handler := fun k w =>
  let '(plaintext, f) := Scim.rotateToken sha256 (d_id d) (op 0%nat) in
  (ok (NewToken plaintext), recordAuditEvent 200 None "scim:token-rotated" (with_token f w)).

Definition scim_DELETE : handler := fun k w => (ok Done, recordAuditEvent 200 None "scim:token-revoked" (with_token Scim.revokeToken w)).

Definition scim_users_GET : handler := fun k w =>
  let w := recordAuditEvent 200 k "" w in
  let l := Scim.listUsers None (users (gov w)) in (ok (Users (length l) (length (filter (fun u => Scim.active u = true) l)) l), w).

(** ** The export of the workspace *)

Definition export_GET : handler := fun k w =>
  (ok (Bundle (Privacy.collectExport (op 0%nat) (files (gov w))) (Privacy.exportFilename (op 1%nat))), w).

(** ** The routes *)

Inductive call :=
| GetCsp | PutCsp | GetCors | GetLockouts | PutLockout | DeleteLockout | GetEgress | PutEgress | GetSla | PostSla
| GetRetention | PutRetention | PostSweep | GetSiem | PutSiem | PostSiemTest | GetDeliveries | GetDpa | PostDpa | DeleteDpa
| GetInvites | PostInvite | GetInvite (t : string) | DeleteInvite (t : string) | GetSeats | GetScim | PostScim | DeleteScim | GetScimUsers | GetExport.

Definition method_of (c : call) : string :=
  match c with
  | PutCsp | PutLockout | PutEgress | PutRetention | PutSiem => "PUT"
  | PostSla | PostSweep | PostSiemTest | PostDpa | PostInvite | PostScim => "POST"
  | DeleteLockout | DeleteDpa | DeleteInvite _ | DeleteScim => "DELETE"
  | _ => "GET"
  end.

Definition kind_of (c : call) : gate_kind :=
  match c with
  | GetSla | PostSla | GetDpa | PostDpa | DeleteDpa | PostSiemTest | GetDeliveries | GetScimUsers => silent_gate
  | GetRetention | PutRetention | PostSweep | GetInvites | PostInvite | GetInvite _ | DeleteInvite _ | GetSeats
  | GetScim | PostScim | DeleteScim => recorded_gate
  | GetExport => export_gate
  | _ => plain_gate
  end.

Definition handle (c : call) : handler :=
  match c with
  | GetCsp => csp_GET | PutCsp => csp_PUT | GetCors => cors_GET
  | GetLockouts => lockout_GET | PutLockout => lockout_PUT | DeleteLockout => lockout_DELETE
  | GetEgress => egress_GET | PutEgress => egress_PUT | GetSla => sla_GET | PostSla => sla_POST
  | GetRetention => retention_GET | PutRetention => retention_PUT | PostSweep => sweep_POST
  | GetSiem => siem_GET | PutSiem => siem_PUT | PostSiemTest => siem_test_POST | GetDeliveries => siem_deliveries_GET
  | GetDpa => dpa_GET | PostDpa => dpa_POST | DeleteDpa => dpa_DELETE
  | GetInvites => invites_GET | PostInvite => invites_POST | GetInvite t => invite_GET t | DeleteInvite t => invite_DELETE t
  | GetSeats => seats_GET | GetScim => scim_GET | PostScim => scim_POST | DeleteScim => scim_DELETE | GetScimUsers => scim_users_GET
  | GetExport => export_GET
  end.

Definition serve (c : call) (w : W) : reply answer * W := gated sha256 hmac_sha1 adminEnv req d (kind_of c) (method_of c) (handle c) w.
End Request.

(** * What the routes promise *)

Section Proofs.
Context (req : request) (d : draws) (o : outside).

(** The configuration of the lockout is no business of an authentication. *)
Definition config (w : W) : LockoutConfig := fst (lockout w).

Lemma authenticate_config clk secret ip f (l : LockoutConfig * file State) : fst (snd (authenticate sha256 clk adminEnv secret ip f l)) = fst l.
Proof.
  unfold authenticate, authenticateWithStatus. cbn zeta. destruct (if truthy _ then lk_decide _ _ l else Unlocked); [|done].
  destruct (truthy secret); [|done]. cbn [negb]. destruct (match adminEnv with Some _ => _ | None => _ end); [by destruct (truthy _)|].
  destruct (on_file _ f) as [[k|[]|] f']; cbn; try done; by destruct (truthy _).
Qed.

Lemma authenticated_config n (w : W) : config (snd (authenticated sha256 adminEnv req d n w)) = config w.
Proof.
  unfold authenticated. pose proof (authenticate_config (d_auth d n) (extractKey (headers req)) (Some (IpMatch.clientIpFromRequest (headers req)))
    (keys_file w) (lockout w)) as Hc. by destruct (authenticate _ _ _ _ _ _ _) as [[]].
Qed.

Lemma record_again_config s r (w : W) : config (record_again sha256 adminEnv req d s r w) = config w.
Proof. unfold record_again. rewrite (surjective_pairing (authenticated _ _ _ _ _ _)). apply (authenticated_config 1). Qed.

Lemma requireAdmin_config kind method (w : W) : config (snd (requireAdmin sha256 hmac_sha1 adminEnv req d kind method w)) = config w.
Proof.
  unfold requireAdmin. pose proof (authenticated_config 0 w) as Hg. destruct (authenticated _ _ _ _ _ _) as [k w1]. cbn [snd] in Hg.
  destruct (negb _); [by destruct (logs_local kind)|]. destruct k as [key|]; [|done]. destruct (negb _); [done|]. cbn zeta.
  destruct (logs_admission kind); (destruct (String.eqb _ _); [done|]); by destruct (MfaGate.enforceAdminMfa _ _ _ _ _ _ _).
Qed.

(** The part of the settings that a call may change. What counts of the SIEM sink
    is its configuration and its log, not whether it is cached. *)
Definition confined (c : call) (w w' : W) : Prop :=
  (match c with PutCsp => True | _ => csp (gov w') = csp (gov w) end) /\
  (match c with PutLockout => True | _ => config w' = config w end) /\
  (match c with PutEgress => True | _ => egress (gov w') = egress (gov w) end) /\
  (match c with PostSla => True | _ => sla (gov w') = sla (gov w) end) /\
  (match c with PutRetention | PostSweep => True | _ => retention (gov w') = retention (gov w) end) /\
  (match c with PostSweep => True | _ => purged (gov w') = purged (gov w) end) /\
  (match c with PutSiem => True | _ => Siem.current (siem (gov w')) = Siem.current (siem (gov w)) end) /\
  (match c with PostSiemTest => True | _ => Siem.listDeliveries (siem (gov w')) = Siem.listDeliveries (siem (gov w)) end) /\
  (match c with PostDpa | DeleteDpa => True | _ => dpa (gov w') = dpa (gov w) end) /\
  (match c with PostInvite | DeleteInvite _ => True | _ => invites (gov w') = invites (gov w) end) /\
  (match c with PostScim | DeleteScim => True | _ => token (gov w') = token (gov w) end) /\
  (match c with PutRetention | PostSweep | PostDpa | DeleteDpa | PostInvite | DeleteInvite _ => True | _ => feed w' = feed w end) /\
  holds (gov w') = holds (gov w) /\ users (gov w') = users (gov w) /\ files (gov w') = files (gov w).

(** Nothing of the settings changes: what a call that only reads may do. *)
Abbreviation settled := (confined GetCors).

Lemma settled_untouched w w' : untouched w w' -> config w' = config w -> settled w w'.
Proof. intros [Hg Hf] Hc. unfold confined. rewrite Hg. split_and!; done. Qed.

Lemma settled_confined c a b w : settled a b -> confined c b w -> confined c a w.
Proof. unfold confined. intros Ha Hb. destruct c; destruct_and!; split_and!; first [exact I|congruence]. Qed.

Lemma confined_settled c a b w : confined c a b -> settled b w -> confined c a w.
Proof. unfold confined. intros Ha Hb. destruct c; destruct_and!; split_and!; first [exact I|congruence]. Qed.

Lemma confined_refl c w : confined c w w.
Proof. unfold confined. by destruct c; split_and!. Qed.

Lemma confined_get c w w' : method_of c = "GET" -> confined c w w' -> settled w w'.
Proof. intros Hm. unfold confined. intros Hw. destruct c; try discriminate Hm; destruct_and!; by split_and!. Qed.

Lemma record_again_settled s r (w : W) : settled w (record_again sha256 adminEnv req d s r w).
Proof. apply settled_untouched; [apply record_again_untouched|apply record_again_config]. Qed.

Lemma load_keeps_current p : Siem.current (snd (Siem.load p)) = Siem.current p /\ Siem.listDeliveries (snd (Siem.load p)) = Siem.listDeliveries p.
Proof. unfold Siem.current, Siem.load. by destruct (Siem.cached p) eqn:E; simpl; rewrite ?E. Qed.

Lemma getSink_settled w : settled w (with_siem (snd (Siem.getSink (siem (gov w)))) w).
Proof.
  unfold Siem.getSink. pose proof (load_keeps_current (siem (gov w))) as [Hc Hd]. destruct (Siem.load _) as [s p]. cbn [snd] in *.
  unfold confined. cbn. split_and!; done.
Qed.

Lemma updateSink_listed input now p : Siem.listDeliveries (snd (Siem.updateSink new_URL input now p)) = Siem.listDeliveries p.
Proof.
  unfold Siem.updateSink. pose proof (load_keeps_current p) as [_ Hd]. destruct (Siem.load p) as [s p1]. cbn [snd] in Hd. by destruct (Siem.next_sink _ _ _ _).
Qed.

Lemma updateSink_err input now p e p' : Siem.updateSink new_URL input now p = (Err e, p') -> Siem.current p' = Siem.current p.
Proof.
  unfold Siem.updateSink. pose proof (load_keeps_current p) as [Hc _]. destruct (Siem.load p) as [s p1]. cbn [snd] in Hc.
  destruct (Siem.next_sink _ _ _ _); [done|]. by intros [= _ <-].
Qed.

Lemma dispatch_current ev now out p : Siem.current (snd (Siem.dispatch hmac stringify ev now out p)) = Siem.current p.
Proof.
  unfold Siem.dispatch. pose proof (load_keeps_current p) as [Hc _]. destruct (Siem.load p) as [s p1]. cbn [snd] in Hc.
  destruct (negb (Siem.live s)); [done|]. rewrite <- Hc. unfold Siem.current, Siem.load. cbn. by destruct (Siem.cached p1).
Qed.

Lemma test_current ev now out p : Siem.current (snd (Siem.test_POST hmac stringify ev now out p)) = Siem.current p.
Proof.
  unfold Siem.test_POST, Siem.getSink. pose proof (load_keeps_current p) as [Hc _]. destruct (Siem.load p) as [s p1]. cbn [snd] in Hc. cbn zeta.
  destruct (negb _ || _); [done|]. destruct (negb _); [done|]. pose proof (dispatch_current ev now out p1) as Hd.
  destruct (Siem.dispatch _ _ _ _ _ _) as [r p2]. cbn [snd] in *. congruence.
Qed.

Lemma test_err ev now out p e p' : Siem.test_POST hmac stringify ev now out p = (Err e, p') ->
  Siem.current p' = Siem.current p /\ Siem.listDeliveries p' = Siem.listDeliveries p.
Proof.
  unfold Siem.test_POST, Siem.getSink. pose proof (load_keeps_current p) as Hc. destruct (Siem.load p) as [s p1]. cbn [snd] in Hc. cbn zeta.
  destruct (negb _ || _); [by intros [= _ <-]|]. destruct (negb _); [by intros [= _ <-]|]. by destruct (Siem.dispatch _ _ _ _ _ _) as [r p2].
Qed.

Ltac confined_branch := cbn [snd]; unfold confined; cbn; split_and!; done.
Ltac confined_split := repeat (case_match; try confined_branch); try confined_branch.

Lemma handle_confined c k w : confined c w (snd (handle req d o c k w)).
Proof.
  destruct c; cbn [handle];
    [unfold csp_GET|unfold csp_PUT|unfold cors_GET|unfold lockout_GET|unfold lockout_PUT|unfold lockout_DELETE|unfold egress_GET|unfold egress_PUT
    |unfold sla_GET|unfold sla_POST|unfold retention_GET| |unfold sweep_POST| | |
    |unfold siem_deliveries_GET|unfold dpa_GET|unfold dpa_POST|unfold dpa_DELETE|unfold invites_GET|unfold invites_POST|unfold invite_GET|unfold invite_DELETE
    |unfold seats_GET|unfold scim_GET|unfold scim_POST|unfold scim_DELETE|unfold scim_users_GET|unfold export_GET];
    unfold recorded_body, refuse; try solve [confined_split].
  - unfold retention_PUT. destruct (body req) as [b|]; [|apply confined_refl]. destruct (Retention.setPolicy _ _ _) as [after_ f]. cbn [snd].
    set (w1 := with_retention f (purged (gov w)) w). assert (confined PutRetention w w1) as H1 by (unfold confined; cbn; by split_and!).
    pose proof (confined_settled _ _ _ _ H1 (record_again_settled 200 "retention.policy.updated" w1)) as H2.
    unfold confined in *. cbn in *. destruct_and!; by split_and!.
  - unfold siem_GET. pose proof (getSink_settled w) as Hs. by destruct (Siem.getSink _) as [s p].
  - unfold siem_PUT, refuse. destruct (body req) as [b|]; [|by unfold confined; split_and!].
    destruct (negb _); [apply confined_refl|]. destruct (Siem.unknown_field _); [apply confined_refl|].
    pose proof (updateSink_listed (sink_fields b) (d_op d 0%nat) (siem (gov w))) as Hd. destruct (Siem.updateSink _ _ _ _) as [r p]. cbn [snd] in Hd.
    destruct r; unfold confined; cbn; by split_and!.
  - unfold siem_test_POST. match goal with |- context [Siem.test_POST _ _ ?a ?b ?e ?p] => pose proof (test_current a b e p) as Hc end.
    destruct (Siem.test_POST _ _ _ _ _ _) as [r p]. cbn [snd] in Hc. destruct r; unfold confined; cbn; by split_and!.
Qed.

Abbreviation serve_ c := (serve req d o c).

Lemma gated_settled {A} kind method (h : option StoredKey -> W -> reply A * W) w :
  (exists s c, fst (gated sha256 hmac_sha1 adminEnv req d kind method h w) = Refused s c /\
     settled w (snd (gated sha256 hmac_sha1 adminEnv req d kind method h w))) \/
  exists k w1, gated sha256 hmac_sha1 adminEnv req d kind method h w = h k w1 /\ settled w w1 /\
    (production adminEnv = true -> method <> "GET" -> exists key, k = Some key /\ proven sha256 hmac_sha1 adminEnv req d w key).
Proof.
  unfold gated. pose proof (requireAdmin_untouched sha256 hmac_sha1 adminEnv req d kind method w) as Hu.
  pose proof (requireAdmin_config kind method w) as Hc. pose proof (requireAdmin_proven sha256 hmac_sha1 adminEnv req d kind method w) as Hp.
  destruct (requireAdmin _ _ _ _ _ _ _ _) as [[k|[s c]] w1]; cbn [fst snd] in *; [right|left; exists s, c; split; [done|by apply settled_untouched]].
  exists k, w1. split_and!; [done|by apply settled_untouched|]. intros H1 H2. by apply Hp.
Qed.

(** The settings are gated. In production a call changes no setting, entry of the
    feed or file, or it is not a GET, its caller authenticated with the admin
    scope and passed the second factor, and it changed what it names and
    nothing else: the retention policy, the swept files, the sink, the agreement
    and so on stay apart, and no call here opens or releases a hold, edits the
    provisioned users or touches the customer's files but by a sweep. *)
Theorem settings_gated c w :
  production adminEnv = true ->
  settled w (snd (serve_ c w)) \/
  method_of c <> "GET" /\ (exists key, proven sha256 hmac_sha1 adminEnv req d w key) /\ confined c w (snd (serve_ c w)).
Proof.
  intros Hp. unfold serve. destruct (gated_settled (kind_of c) (method_of c) (handle req d o c) w) as [(s & x & _ & Hs)|(k & w1 & -> & Hs & Hk)]; [by left|].
  pose proof (settled_confined _ _ _ _ Hs (handle_confined c k w1)) as Hc.
  destruct (decide (method_of c = "GET")) as [Hm|Hm]; [left; by eapply confined_get|right].
  destruct (Hk Hp Hm) as (key & _ & Hkey). split_and!; [done|by exists key|done].
Qed.

(** ** Refusals *)

Definition refuses (r : reply answer) : bool := match r with Refused _ _ => true | _ => false end.

Lemma egress_quiet now input a : errs_quietly (Egress.set_tx now input a).
Proof. intros s e. unfold Egress.set_tx. cbn zeta. repeat (case_match; try by intros). Qed.

Lemma accept_quiet input i now : errs_quietly (Dpa.accept_tx CURRENT_DPA sha256 input i now).
Proof. intros s e. unfold Dpa.accept_tx, checked. by destruct (Dpa.check_accept input). Qed.

Lemma withdraw_quiet input i now : errs_quietly (Dpa.withdraw_tx sha256 input i now).
Proof. intros s e. unfold Dpa.withdraw_tx, checked. destruct (Dpa.check_withdraw input); [done|]. by destruct (Dpa.findLatestActive s). Qed.

Lemma csp_err input now f e f' : Browser.updateCspPolicy env input now f = (Err e, f') -> f' = f.
Proof. unfold Browser.updateCspPolicy. repeat (case_match; try by intros [= _ <-]). Qed.

Lemma publish_refused i now io p e p' : Sla.publish sha256 i now io p = (Sla.Refused e, p') -> p' = p.
Proof. unfold Sla.publish. destruct (Sla.validate i); [by intros [= _ <-]|]. repeat (case_match; try done). Qed.

Lemma revoke_missing t f f' : Invites.revokeInvite t f = (false, f') -> f' = f.
Proof.
  unfold Invites.revokeInvite, on_file, Invites.revoke_tx. destruct (Invites.find_invite _ _) as [[n i]|]; [|by intros [= <-]]. by destruct (Invites.revoked i).
Qed.

Ltac refused_branch :=
  cbn [snd fst refuses]; intros Hr; first [discriminate Hr | apply confined_refl | unfold confined; cbn; split_and!; done].

Lemma refusing_handler_settled c k w : refuses (fst (handle req d o c k w)) = true -> settled w (snd (handle req d o c k w)).
Proof.
  destruct c; cbn [handle];
    [unfold csp_GET|unfold csp_PUT|unfold cors_GET|unfold lockout_GET|unfold lockout_PUT|unfold lockout_DELETE|unfold egress_GET|unfold egress_PUT
    |unfold sla_GET|unfold sla_POST|unfold retention_GET|unfold retention_PUT|unfold sweep_POST|unfold siem_GET|unfold siem_PUT|unfold siem_test_POST
    |unfold siem_deliveries_GET|unfold dpa_GET|unfold dpa_POST|unfold dpa_DELETE|unfold invites_GET|unfold invites_POST|unfold invite_GET|unfold invite_DELETE
    |unfold seats_GET|unfold scim_GET|unfold scim_POST|unfold scim_DELETE|unfold scim_users_GET|unfold export_GET];
    unfold recorded_body, refuse; repeat (case_match; try refused_branch); try refused_branch; subst;
    intros _; unfold Egress.setPolicy, Dpa.accept, Dpa.withdraw in *;
    match goal with
    | E : Browser.updateCspPolicy _ _ _ _ = (Err _, _) |- _ => apply csp_err in E as ->
    | E : on_file (Egress.set_tx _ _ _) _ = (Err _, _) |- _ => apply (on_file_err _ (egress_quiet _ _ _)) in E as ->
    | E : on_file (Dpa.accept_tx _ _ _ _ _) _ = (Err _, _) |- _ => apply (on_file_err _ (accept_quiet _ _ _)) in E as ->
    | E : on_file (Dpa.withdraw_tx _ _ _ _) _ = (Err _, _) |- _ => apply (on_file_err _ (withdraw_quiet _ _ _)) in E as ->
    | E : Sla.publish _ _ _ _ _ = (Sla.Refused _, _) |- _ => apply publish_refused in E as ->
    | E : Invites.revokeInvite _ _ = (false, _) |- _ => apply revoke_missing in E as ->
    | E : Siem.updateSink _ ?a ?b ?p = (Err _, _) |- _ =>
        pose proof (updateSink_listed a b p) as Hl; rewrite E in Hl; cbn [snd] in Hl; apply updateSink_err in E
    | E : Siem.test_POST _ _ _ _ _ _ = (Err _, _) |- _ => apply test_err in E as [? ?]
    end; unfold confined; cbn; by split_and!.
Qed.

(** A refused change is no change: whichever call answers with a refusal, every
    setting, the feed and every file are as before. *)
Theorem refused_settings_stay c w : refuses (fst (serve_ c w)) = true -> settled w (snd (serve_ c w)).
Proof.
  unfold serve. destruct (gated_settled (kind_of c) (method_of c) (handle req d o c) w) as [(s & x & _ & Hs)|(k & w1 & -> & Hs & _)]; [done|].
  intros Hr. by eapply settled_confined; [|apply refusing_handler_settled].
Qed.

(** An administrator can let an address in again. When the call to unlock an
    address answers that it did, then that address is not locked out, at any later
    time, until it fails again. *)
Theorem unlock_lets_in w ip now :
  fst (serve_ DeleteLockout w) = Answer 200 (Unlocked_ip ip) ->
  decideLockout (config (snd (serve_ DeleteLockout w))) ip now (read_file (snd (lockout (snd (serve_ DeleteLockout w))))) = Unlocked.
Proof.
  unfold serve. destruct (gated_settled (kind_of DeleteLockout) (method_of DeleteLockout) (handle req d o DeleteLockout) w)
    as [(s & x & -> & _)|(k & w1 & -> & _)]; [done|]. cbn [handle]. unfold lockout_DELETE.
  destruct (IpMatch.normalizeIp _) as [i|]; [|done]. destruct (unlockIp i _) as [found f] eqn:E. destruct found; [|done].
  intros [= <-]. cbn [snd config lockout with_lockout recordAuditEvent fst].
  destruct (truthy i) eqn:Ht; [|unfold decideLockout; by rewrite Ht].
  pose proof (lk_clear_unlocks i now (lockout w1)) as Hl. unfold lk_clear, lk_decide, store_lockout, clearAuthFailures in Hl.
  rewrite Ht in Hl. cbn [negb fst snd] in Hl. fold (unlockIp i (snd (lockout w1))) in Hl. by rewrite E in Hl.
Qed.

Lemma mfa_trail_grows key now x sec : x ∈ MfaGate.trail sec ->
  x ∈ MfaGate.trail (snd (MfaGate.enforceAdminMfa hmac_sha1 sha256 (default "" adminEnv) (headers req) key now sec)).
Proof. intros Hx. unfold MfaGate.enforceAdminMfa. repeat case_match; cbn; rewrite ?elem_of_app; (done || by left). Qed.

(** With the gates that record an admission, the line of status 200 is written
    before the second factor is looked at: a request that is then refused leaves
    a line that says it was admitted. *)
Lemma admission_recorded_before_denial kind method (w : W) why s c :
  production adminEnv = true -> logs_admission kind = Some why ->
  fst (requireAdmin sha256 hmac_sha1 adminEnv req d kind method w) = Err (s, c) -> c <> "forbidden" ->
  exists key, {| MfaGate.t_status := 200; MfaGate.t_key := Some (id key); MfaGate.t_reason := why |} ∈
    MfaGate.trail (second (snd (requireAdmin sha256 hmac_sha1 adminEnv req d kind method w))).
Proof.
  intros Hp Hk. unfold requireAdmin. destruct (authenticated _ _ _ _ _ _) as [[key|] w1]; rewrite Hp; cbn [negb]; [|by intros [= _ <-]].
  destruct (negb _); [by intros [= _ <-]|]. cbn zeta. rewrite Hk. destruct (String.eqb _ _); [done|].
  destruct (MfaGate.enforceAdminMfa _ _ _ _ _ _ _) as [den sec] eqn:E. intros _ _. exists key. cbn [snd second].
  change sec with (snd (den, sec)). rewrite <- E. apply mfa_trail_grows. cbn. rewrite elem_of_app, list_elem_of_singleton. by right.
Qed.
End Proofs.
End Routes.

(** ** A locked address is let in again *)
Section Demo.
Definition demo_sha (s : string) : string := "#" +:+ s.
Definition demo_dpa : Dpa.DpaPublishedVersion := {| Dpa.version := "1.0"; Dpa.effective_date := "2025-01-01"; Dpa.url := "/dpa"; Dpa.p_sha256 := "aa" |}.
Definition demo_env : Browser.Env :=
  {| Browser.ADMIN_KEY := Some "root-secret"; Browser.CORS_ORIGINS := None; Browser.HEADERS_ENABLED := None; Browser.HSTS_MAX_AGE := None;
     Browser.CSP_MODE := None; Browser.CSP_EXTRA_HOSTS := None; Browser.CSP_REPORT_DISABLED := None |}.
Definition demo_alice : StoredKey := with_role owner (new_key demo_sha "alice" "sc_live_a" "ops" [read] 0 None).
Definition demo_config : LockoutConfig := {| threshold := Some 1; window_seconds := Some 300; cooldown_seconds := Some 900; enabled := true |}.
Definition demo_stores : stores demo_dpa :=
  Stores demo_dpa None None (Sla.Build_Process Sla.NoFile true) None None (Retention.Build_data_dir None None None None) (Siem.Siem None None []) None None None None ∅.
Definition demo_world : world (LockoutConfig * file State) (stores demo_dpa) :=
  World (write_file [demo_alice]) (demo_config, recordAuthFailure demo_config "10.0.0.9" 1000000 None) (MfaGate.World None []) None demo_stores.
Definition demo_draws : draws :=
  {| d_auth := fun _ _ => 1000500; d_mfa := 1000500; d_op := fun _ => 1000500; d_event := 1000500; d_id := "x1"; d_event_id := "e1" |}.
Definition demo_outside : outside := {| o_delivery := {| Siem.aid := "a"; Siem.took := 3; Siem.answer := Ok 200 |}; o_write := true |}.
Definition demo_request (secret ip : string) : request :=
  {| headers := {[ "x-api-key" := secret ]}; query := {[ "ip" := ip ]}; body := None |}.
Definition demo_serve (req : request) (c : call) :=
  serve demo_dpa demo_sha (fun _ _ => []) (Some "root-secret") demo_env None (fun _ => NaN) (fun _ => Siem.Build_UpdateInput None None None None None None)
    (fun _ => None) (fun _ _ => "") (fun _ => "") req demo_draws demo_outside c demo_world.

Lemma unlock_lets_in_witness :
  decideLockout demo_config "10.0.0.9" 1001000 (read_file (snd (lockout demo_world))) <> Unlocked /\
  decideLockout demo_config "10.0.0.9" 1001000 (read_file (snd (lockout (snd (demo_serve (demo_request "sc_live_a" "10.0.0.9") DeleteLockout))))) = Unlocked.
Proof.
  split; [vm_compute; discriminate|].
  apply (unlock_lets_in demo_dpa demo_sha (fun _ _ => []) (Some "root-secret") demo_env None (fun _ => NaN) (fun _ => Siem.Build_UpdateInput None None None None None None)
    (fun _ => None) (fun _ _ => "") (fun _ => "") (demo_request "sc_live_a" "10.0.0.9") demo_draws demo_outside demo_world "10.0.0.9" 1001000).
  vm_compute. reflexivity.
Defined.

Lemma settings_gated_witness :
  confined demo_dpa GetCors demo_world (snd (demo_serve (demo_request "nobody" "10.0.0.9") PostScim)) \/
  "POST" <> "GET" /\ (exists key, proven demo_sha (fun _ _ => []) (Some "root-secret") (demo_request "nobody" "10.0.0.9") demo_draws demo_world key) /\
  confined demo_dpa PostScim demo_world (snd (demo_serve (demo_request "nobody" "10.0.0.9") PostScim)).
Proof.
  exact (settings_gated demo_dpa demo_sha (fun _ _ => []) (Some "root-secret") demo_env None (fun _ => NaN) (fun _ => Siem.Build_UpdateInput None None None None None None)
    (fun _ => None) (fun _ _ => "") (fun _ => "") (demo_request "nobody" "10.0.0.9") demo_draws demo_outside PostScim demo_world eq_refl).
Defined.

Lemma refused_settings_stay_witness :
  confined demo_dpa GetCors demo_world (snd (demo_serve (demo_request "sc_live_a" "nowhere") DeleteLockout)).
Proof.
  apply (refused_settings_stay demo_dpa demo_sha (fun _ _ => []) (Some "root-secret") demo_env None (fun _ => NaN) (fun _ => Siem.Build_UpdateInput None None None None None None)
    (fun _ => None) (fun _ _ => "") (fun _ => "") (demo_request "sc_live_a" "nowhere") demo_draws demo_outside DeleteLockout demo_world).
  vm_compute. reflexivity.
Defined.
End Demo.
