(* ===== verification/Console.v ===== *)
(** The management console: the routes [approvals], [approvals/[id]/approve],
    [approvals/[id]/cancel], [sessions], [sessions/[jti]],
    [sessions/bump-epoch], [sessions/revoke-by-email], [session-timeout] and
    [sso] of [web/app/api/admin], behind the gate of [AdminGate], which lets in a
    key that administers or a signed-in session. The provider's answers,
    [String(x)], [Number(x)] of a text and what the gate is parametric in are
    parameters. *)
From S2P Require Import Prelude JsNum JsDate IsoTime Json Store Interleave AuthLockout KeyStore.
From S2P Require Import MfaGate AdminGate.
From S2P Require DualControl Sessions SsoPolicy Sso AdminRoute.
Import AdminRoute(reply, Refused, Answer, Raised, request, headers, query, body, text_of).
#[local] Existing Instances DualControl.State_persisted SsoPolicy.policy_persisted DualControl.ApprovalStatus_eq_dec.

Record draws := { d_gate : clock; d_op : clock; d_id : string; d_token : string }.

Section Console.
Context {L : Type} `{Lockout L}.
Context (sha256 : string -> string) (hmac_sha1 : list Z -> list Z -> list Z).
Context (b64uDec : string -> list Z) (hmac : string -> string -> list Z) (session_parse : list Z -> option Sso.SsoSession).
Context (decodeURIComponent : string -> option string).
Context (String_of : json -> string) (Number_of : string -> num) (fetch : string -> option json).
Context (admin_env : option string) (sign_key : string).

Abbreviation gate_world := (AdminGate.world (L := L)).
Abbreviation gate_require := (AdminGate.requireAdmin sha256 hmac_sha1 b64uDec hmac session_parse decodeURIComponent).

Record world := World { gate : gate_world; approvals : store DualControl.State; timeout : Sessions.Timeout.SessionTimeoutPolicy; discovery : gmap string (Z * json) }.

Definition cfg_of (w : world) : settings := {| adminEnv := admin_env; signing_key := sign_key; timeouts := timeout w |}.

Inductive answer :=
| Requests (l : list DualControl.ApprovalRequest)
| RequestView (r : DualControl.ApprovalRequest)
| Approval (r : DualControl.ApprovalRequest) (token : string)
| SessionList (rows : list Sessions.SsoSessionRecord) (epoch active : Z)
| SessionView (r : option Sessions.SsoSessionRecord)
| Epoch (epoch revoked : Z)
| RevokedFor (email : string) (revoked : Z)
| Timeouts (p : Sessions.Timeout.SessionTimeoutPolicy)
| Policy (p : SsoPolicy.SsoPolicy) (secret_set : bool).

Section Request.
Context (req : request) (d : draws).
Abbreviation handler := (option StoredKey -> world -> reply answer * world).
Abbreviation ok a := (Answer 200 a).

Definition with_gate (g : gate_world) (w : world) : world := World g (approvals w) (timeout w) (discovery w).
Definition with_approvals (s : store DualControl.State) (w : world) : world := World (gate w) s (timeout w) (discovery w).

Definition recordAuditEvent (status : Z) (k : option StoredKey) (reason : string) (w : world) : world :=
  with_gate (let g := gate w in AdminGate.World (keys_file g) (lockout g) (policy_file g) (registry g) (note status (id <$> k) reason (second g))) w.

Definition guarded (method : string) (h : handler) (w : world) : reply answer * world :=
  let '(r, g) := gate_require (cfg_of w) (headers req) method (d_gate d) (gate w) in
  let w := with_gate g w in
  match r with
  | None => (Raised, w)
  | Some (Err (s, c)) => (Refused s c, w)
  | Some (Ok k) => h k w
  end.

Definition actor (k : option StoredKey) : string := from_option id "local" k.

(** ** Approvals *)

Definition VALID_STATUSES : list (string * DualControl.ApprovalStatus) :=
  [("pending", DualControl.pending); ("approved", DualControl.approved); ("consumed", DualControl.consumed);
   ("cancelled", DualControl.cancelled); ("expired", DualControl.expired)].

Definition list_approvals (status : option DualControl.ApprovalStatus) : handler := fun k w =>
  let '(rows, s) := DualControl.listRequests (d_op d) status (approvals w) in
  (ok (Requests (DualControl.publicView <$> rows)), with_approvals s w).

Definition approvals_GET : handler := fun k w =>
  let status := default "" (query req !! "status") in
  if negb (truthy status) then list_approvals None k w else
  match assoc status VALID_STATUSES with
  | None => (Refused 400 "bad_request", w)
  | Some s => list_approvals (Some s) k w
  end.

Definition request_code (e : DualControl.RequestCode) : string :=
  match e with
  | DualControl.bad_action => "bad_action" | DualControl.bad_target => "bad_target" | DualControl.bad_reason => "bad_reason"
  | DualControl.bad_requester => "bad_requester"
  end.

Definition approvals_POST : handler := fun k w =>
  match body req with
  | None => (Refused 400 "bad_json", w)
  | Some b =>
      let '(r, s) := DualControl.requestApproval (d_op d) (d_id d)
        {| DualControl.in_action := text_of (field "action" b); DualControl.in_target := text_of (field "target" b);
           DualControl.in_reason := text_of (field "reason" b); DualControl.in_requested_by := actor k |} (approvals w) in
      let w := with_approvals s w in
      match r with
      | Err e => (Refused 400 (request_code e), w)
      | Ok r => (Answer 202 (RequestView (DualControl.publicView r)), recordAuditEvent 202 k ("dual_control:request:" +:+ DualControl.action r) w)
      end
  end.

Definition approve_code (e : DualControl.ApproveCode) : Z * string :=
  match e with
  | DualControl.a_not_found => (404, "not_found") | DualControl.self_approval => (403, "self_approval") | DualControl.a_expired => (410, "expired")
  | DualControl.a_not_pending => (409, "not_pending") | DualControl.bad_approver => (409, "bad_approver")
  end.

(** The token is answered here, once. *)
Definition approve_POST (i : string) : handler := fun k w =>
  let approver := from_option id "" k in
  if negb (truthy approver) then (Refused 409 "no_second_admin", w) else
  let '(r, s) := DualControl.approveRequest (d_op d) (d_token d) {| DualControl.ap_id := i; DualControl.ap_approver := approver |} (approvals w) in
  let w := with_approvals s w in
  match r with
  | Err e => (Refused (fst (approve_code e)) (snd (approve_code e)),
              recordAuditEvent (fst (approve_code e)) k ("dual_control:approve:" +:+ snd (approve_code e)) w)
  | Ok (r, token) => (ok (Approval (DualControl.publicView r) token), recordAuditEvent 200 k ("dual_control:approve:" +:+ DualControl.action r) w)
  end.

Definition cancel_POST (i : string) : handler := fun k w =>
  let '(r, s) := DualControl.cancelRequest (d_op d) {| DualControl.ca_id := i; DualControl.ca_actor := actor k |} (approvals w) in
  let w := with_approvals s w in
  match r with
  | Err DualControl.c_not_found => (Refused 404 "not_found", w)
  | Err DualControl.not_cancellable => (Refused 409 "not_cancellable", w)
  | Ok r => (ok (RequestView (DualControl.publicView r)), recordAuditEvent 200 k ("dual_control:cancel:" +:+ DualControl.action r) w)
  end.

(** ** Sessions *)

Definition with_registry (r : Sessions.Store) (w : world) : world :=
  with_gate (let g := gate w in AdminGate.World (keys_file g) (lockout g) (policy_file g) r (second g)) w.

(** [Math.max(1, Math.min(1000, Number(raw) || 0))]; a slice cuts the fraction off. *)
Definition list_limit : option Z :=
  match query req !! "limit" with
  | Some raw => if truthy raw then Some (match Number_of raw with NaN => 1 | n => floorZ (num_max (int 1) (num_min (int 1000) n)) end) else None
  | None => None
  end.

Definition list_email : option string :=
  match query req !! "email" with
  | Some raw => if truthy raw && (str_len raw <=? 254) then Some (to_lower (trim raw)) else None
  | None => None
  end.

Definition sessions_GET : handler := fun k w =>
  let all := match query req !! "include_revoked" with Some v => bool_decide (v = "1") || bool_decide (v = "true") | None => false end in
  let '(rows, epoch, active) := Sessions.listSessions all list_limit list_email (d_op d 0%nat) (registry (gate w)) in
  (ok (SessionList rows epoch active), recordAuditEvent 200 k ("sessions-list:active=" +:+ pretty active) w).

(** A body that is not JSON counts as none. *)
Definition given_reason : option string :=
  match (b ← body req; field "reason" b) with Some (JStr s) => Some (str_take Sessions.MAX_REASON_LEN s) | _ => None end.

Definition revoke_input (k : option StoredKey) : Sessions.RevokeInput := {| Sessions.r_actor := actor k; Sessions.r_reason := given_reason |}.

Definition session_DELETE (j : string) : handler := fun k w =>
  if negb (truthy j) || (64 <? str_len j) then (Refused 400 "invalid_jti", recordAuditEvent 400 k "invalid-jti" w) else
  match Sessions.getSession j (registry (gate w)) with
  | None => (Refused 404 "not_found", recordAuditEvent 404 k "session-not-found" w)
  | Some existing =>
      let '(row, st) := Sessions.revokeBySession j (revoke_input k) (d_op d 0%nat) (registry (gate w)) in
      (ok (SessionView row), recordAuditEvent 200 k ("session-revoked:" +:+ Sessions.email existing) (with_registry st w))
  end.

Definition bump_POST : handler := fun k w =>
  let '((epoch, revoked), st) := Sessions.bumpEpoch (revoke_input k) (d_op d 0%nat) (registry (gate w)) in
  (ok (Epoch epoch revoked), recordAuditEvent 200 k ("sessions-bump-epoch:" +:+ pretty revoked) (with_registry st w)).

(** [/^[^\s@]{1,128}@[^\s@.]{1,63}(\.[^\s@.]{1,63})+$/]. *)
Definition plain_char (c : Ascii.ascii) : bool := negb (is_space c) && negb (Ascii.eqb c "@"%char).
Definition email_part (n : Z) (s : string) : bool := (1 <=? str_len s) && (str_len s <=? n) && str_forall plain_char s.

Definition EMAIL_RE (s : string) : bool :=
  match split "@" s with
  | [name; host] =>
      let labels := split "." host in
      email_part 128 name && (2 <=? len labels) && forallb (email_part 63) labels
  | _ => false
  end.

Definition revoke_email_POST : handler := fun k w =>
  match body req with
  | None => (Refused 400 "invalid_json", w)
  | Some b =>
      let e := to_lower (trim (js_text String_of (field "email" b))) in
      if negb (truthy e) || negb (EMAIL_RE e) then (Refused 400 "invalid_email", recordAuditEvent 400 k "invalid-email" w) else
      let '(n, st) := Sessions.revokeByEmail e (revoke_input k) (d_op d 0%nat) (registry (gate w)) in
      (ok (RevokedFor e n), recordAuditEvent 200 k ("sessions-revoked-by-email:" +:+ e +:+ ":" +:+ pretty n) (with_registry st w))
  end.

(** ** The timeouts of sessions *)

Definition timeout_GET : handler := fun k w => (ok (Timeouts (timeout w)), w).

Definition timeout_code (c : Sessions.Timeout.UpdateCode) : string :=
  match c with Sessions.Timeout.invalid_idle => "invalid_idle" | Sessions.Timeout.invalid_absolute => "invalid_absolute" end.

Definition only_number (v : jval) : jval := match v with Some (JNum n) => Some (JNum n) | _ => None end.
Definition only_bool (v : jval) : jval := match v with Some (JBool b) => Some (JBool b) | _ => None end.

Definition timeout_text (p q : Sessions.Timeout.SessionTimeoutPolicy) : string :=
  let flag b := if b : bool then "true" else "false" in
  "enforce=" +:+ flag (Sessions.Timeout.enforce p) +:+ "->" +:+ flag (Sessions.Timeout.enforce q) +:+
  ":idle=" +:+ pretty (Sessions.Timeout.idle_timeout_s p) +:+ "->" +:+ pretty (Sessions.Timeout.idle_timeout_s q) +:+
  ":absolute=" +:+ pretty (Sessions.Timeout.absolute_timeout_s p) +:+ "->" +:+ pretty (Sessions.Timeout.absolute_timeout_s q).

Definition timeout_PUT : handler := fun k w =>
  match body req with
  | None => (Refused 400 "invalid_json", w)
  | Some b =>
      if negb (is_object b) then (Refused 400 "invalid_body", w) else
      let '(r, p) := Sessions.Timeout.updatePolicy
        {| Sessions.Timeout.in_enforce := only_bool (field "enforce" b); Sessions.Timeout.in_idle := only_number (field "idle_timeout_s" b);
           Sessions.Timeout.in_absolute := only_number (field "absolute_timeout_s" b); Sessions.Timeout.actor := actor k |} (d_op d 0%nat) (timeout w) in
      match r with
      | Err c => (Refused 400 (timeout_code c), recordAuditEvent 400 k ("session-timeout-update-rejected:" +:+ timeout_code c) w)
      | Ok next => (ok (Timeouts next), recordAuditEvent 200 k ("session-timeout-update:" +:+ timeout_text (timeout w) next)
                                          (World (gate w) (approvals w) p (discovery w)))
      end
  end.

(** ** Single sign-on *)

Definition public (p : SsoPolicy.SsoPolicy) : answer := let '(p, s) := SsoPolicy.toPublic p in Policy p s.

Definition sso_GET : handler := fun k w => (ok (public (SsoPolicy.getSsoPolicy (policy_file (gate w)))), w).

(** The fields of the body, spread, with the actor put over them. *)
Definition sso_input (b : json) (k : option StoredKey) : SsoPolicy.UpdateInput :=
  {| SsoPolicy.in_enabled := field "enabled" b; SsoPolicy.in_issuer := field "issuer" b; SsoPolicy.in_client_id := field "client_id" b;
     SsoPolicy.in_client_secret := field "client_secret" b; SsoPolicy.in_allowed_domains := field "allowed_domains" b;
     SsoPolicy.in_enforce := field "enforce" b; SsoPolicy.in_redirect_uri := field "redirect_uri" b; SsoPolicy.in_actor := Some (actor k) |}.

Definition sso_PUT : handler := fun k w =>
  match body req with
  | None => (Refused 400 "invalid_json", w)
  | Some b =>
      let before := SsoPolicy.getSsoPolicy (policy_file (gate w)) in
      let wantEnabled := SsoPolicy.bool_or (field "enabled" b) (SsoPolicy.enabled before) in
      let wantIssuer := match field "issuer" b with Some (JStr s) => drop_trailing "/"%char (trim s) | _ => SsoPolicy.issuer before end in
      let probe := wantEnabled && truthy wantIssuer in
      let '(doc, c) := if probe then SsoPolicy.fetchDiscovery fetch wantIssuer true (d_op d) (discovery w) else (None, discovery w) in
      let w := World (gate w) (approvals w) (timeout w) c in
      if probe && negb (bool_decide (is_Some doc)) then (Refused 400 "discovery_failed", recordAuditEvent 400 k "discovery-failed" w) else
      let '(r, f) := SsoPolicy.updateSsoPolicy String_of (sso_input b k) (d_op d 2%nat) (policy_file (gate w)) in
      let w := with_gate (let g := gate w in AdminGate.World (keys_file g) (lockout g) f (registry g) (second g)) w in
      match r with
      | Err _ => (Refused 400 "invalid_input", w)
      | Ok (_, after) => (ok (public after), recordAuditEvent 200 k "sso-policy-updated" w)
      end
  end.

(** ** The routes *)

Inductive call :=
| ListApprovals | PostApproval | ApproveIt (i : string) | CancelIt (i : string) | ListSessions | RevokeSession (j : string) | BumpEpoch
| RevokeEmail | GetTimeout | PutTimeout | GetSso | PutSso.

Definition method_of (c : call) : string :=
  match c with
  | ListApprovals | ListSessions | GetTimeout | GetSso => "GET"
  | RevokeSession _ => "DELETE"
  | PutTimeout | PutSso => "PUT"
  | _ => "POST"
  end.

Definition handle (c : call) : handler :=
  match c with
  | ListApprovals => approvals_GET | PostApproval => approvals_POST | ApproveIt i => approve_POST i | CancelIt i => cancel_POST i
  | ListSessions => sessions_GET | RevokeSession j => session_DELETE j | BumpEpoch => bump_POST | RevokeEmail => revoke_email_POST
  | GetTimeout => timeout_GET | PutTimeout => timeout_PUT | GetSso => sso_GET | PutSso => sso_PUT
  end.

Definition serve (c : call) (w : world) : reply answer * world := guarded (method_of c) (handle c) w.
End Request.

(** ** What a call does to the approvals *)
Import DualControl.Lifecycle.

Lemma handle_approvals req d c k w :
  let s' := approvals (snd (handle req d c k w)) in
  s' = approvals w \/
  exists e, s' = DualControl.run_store e (approvals w) /\
    match e with
    | Request _ rid input => c = PostApproval /\ rid = d_id d /\ DualControl.in_requested_by input = actor k
    | Approve _ token input =>
        c = ApproveIt (DualControl.ap_id input) /\ token = d_token d /\ exists key, k = Some key /\ DualControl.ap_approver input = id key
    | _ => True
    end.
Proof.
  cbv zeta. destruct c as [| |i|i| |j| | | | | |]; cbn [handle].
  - assert (forall st, exists e, approvals (snd (list_approvals d st k w)) = DualControl.run_store e (approvals w) /\ match e with List_ _ _ => True | _ => False end) as Hl.
    { intros st. unfold list_approvals. exists (List_ (d_op d) st). cbn [DualControl.run_store].
      by destruct (DualControl.listRequests (d_op d) st (approvals w)) as [rows s]. }
    unfold approvals_GET. cbv zeta. case_match; [|case_match; [|by left]];
      right; (edestruct Hl as (e & He & Hm); exists e; split; [exact He|by destruct e]).
  - unfold approvals_POST. destruct (body req) as [b|]; [|by left]. right.
    destruct (DualControl.requestApproval _ _ _ _) as [r s] eqn:E. eexists (Request _ _ _). cbn [DualControl.run_store]. rewrite E.
    split; [by destruct r|done].
  - unfold approve_POST. cbv zeta. destruct k as [key|]; [|by left]. cbn [from_option]. destruct (truthy (id key)); [|by left]. right.
    destruct (DualControl.approveRequest _ _ _ _) as [r s] eqn:E. eexists (Approve _ _ _). cbn [DualControl.run_store]. rewrite E.
    split; [by destruct r as [[? ?]|]|]. by split_and!; [..|exists key].
  - right. unfold cancel_POST. destruct (DualControl.cancelRequest _ _ _) as [r s] eqn:E. eexists (Cancel _ _). cbn [DualControl.run_store].
    rewrite E. split; [by destruct r as [?|[]]|done].
  - left. unfold sessions_GET. cbv zeta. by destruct (Sessions.listSessions _ _ _ _ _) as [[? ?] ?].
  - left. unfold session_DELETE. case_match; [done|]. destruct (Sessions.getSession _ _); [|done]. by destruct (Sessions.revokeBySession _ _ _ _).
  - left. unfold bump_POST. by destruct (Sessions.bumpEpoch _ _ _) as [[? ?] ?].
  - left. unfold revoke_email_POST. destruct (body req); [|done]. cbv zeta. case_match; [done|]. by destruct (Sessions.revokeByEmail _ _ _ _).
  - by left.
  - left. unfold timeout_PUT. destruct (body req); [|done]. case_match; [done|]. destruct (Sessions.Timeout.updatePolicy _ _ _) as [[?|?] ?]; done.
  - by left.
  - left. unfold sso_PUT. destruct (body req); [|done]. cbv zeta.
    destruct (if _ && _ then _ else _) as [doc cc]. case_match; [done|]. by destruct (SsoPolicy.updateSsoPolicy _ _ _ _) as [[[? ?]|?] ?].
Qed.

(** What a history holds: a call with the world it meets, and a request for
    approval made elsewhere, by its id and the key it is made for: the routes of
    the guarded actions make one when they are called without a token. *)
Inductive entry := Called (c : call) (req : request) (d : draws) (w : world) | Asked (rid who : string).

(** Histories of the console from an empty file of approvals, with ids and
    tokens never seen. Between two calls anything else may change: keys,
    policies and sessions at will, the approvals by whatever does not approve. *)
Definition elsewhere (e : event) : Prop := match e with Request _ _ _ | Approve _ _ _ => False | _ => True end.

Inductive history : list entry -> world -> Prop :=
| began w : view (approvals w) = [] -> coherent (approvals w) -> history [] w
| called es w c req d :
    history es w -> d_id d ∉ (DualControl.id <$> view (approvals w)) -> DualControl.hashToken (d_token d) ∉ live_hashes (view (approvals w)) ->
    history (es ++ [Called c req d w]) (snd (serve req d c w))
| asked es w w' clk rid input :
    history es w -> rid ∉ (DualControl.id <$> view (approvals w)) -> approvals w' = DualControl.run_store (Request clk rid input) (approvals w) ->
    history (es ++ [Asked rid (DualControl.in_requested_by input)]) w'
| changed es w w' e :
    history es w -> elsewhere e -> approvals w' = DualControl.run_store e (approvals w) \/ approvals w' = approvals w -> history es w'.

(** The call was let in for the bearer of that key, who passed the second factor. *)
Definition let_in (c : call) (req : request) (d : draws) (w : world) (key : StoredKey) : Prop :=
  AdminGate.key_proven sha256 (cfg_of w) (headers req) (d_gate d) (gate w) key /\
  exists trail, totp trail = totp (second (gate w)) /\
    fst (MfaGate.enforceAdminMfa hmac_sha1 sha256 (default "" admin_env) (headers req) (Some (id key)) (d_gate d 5%nat) trail) = None.

(** The request was posted at the console by a call let in, or made elsewhere. *)
Definition requested_in (es : list entry) (rid who : string) : Prop :=
  (exists req d w key, Called PostApproval req d w ∈ es /\ let_in PostApproval req d w key /\ rid = d_id d /\ who = id key) \/ Asked rid who ∈ es.

Definition approved_in (es : list entry) (rid who h : string) : Prop :=
  exists req d w key, Called (ApproveIt rid) req d w ∈ es /\ let_in (ApproveIt rid) req d w key /\ DualControl.hashToken (d_token d) = h /\ who = id key.

(** What the history explains of the approvals on file. *)
Record explained (es : list entry) (s : DualControl.State) : Prop := {
  all_requested r : r ∈ s -> requested_in es (DualControl.id r) (DualControl.requested_by r);
  all_approved r h : r ∈ s -> DualControl.approval_token_hash r = Some h -> exists who, DualControl.approved_by r = Some who /\ approved_in es (DualControl.id r) who h;
}.

Lemma requested_more es es' rid who : (forall x, x ∈ es -> x ∈ es') -> requested_in es rid who -> requested_in es' rid who.
Proof. intros Hs [(req & d & w & key & He & Hrest)|He]; [left; exists req, d, w, key; auto|right; auto]. Qed.

Lemma approved_more es es' rid who h : (forall x, x ∈ es -> x ∈ es') -> approved_in es rid who h -> approved_in es' rid who h.
Proof. intros Hs (req & d & w & key & He & Hrest). exists req, d, w, key. auto. Qed.

Lemma explained_more es es' s : (forall x, x ∈ es -> x ∈ es') -> explained es s -> explained es' s.
Proof.
  intros Hs [Hr Ha]. split.
  - intros r Hin. by apply (requested_more es), Hr.
  - intros r h Hin Hh. destruct (Ha r h Hin Hh) as (who & Hw & Happ). exists who. split; [done|]. by apply (approved_more es).
Qed.

Lemma in_front (es es' : list entry) x : x ∈ es -> x ∈ es ++ es'.
Proof. rewrite elem_of_app. by left. Qed.
Lemma in_back (es es' : list entry) x : x ∈ es' -> x ∈ es ++ es'.
Proof. rewrite elem_of_app. by right. Qed.

(** Where the requests on file come from. *)
Definition kept (s : DualControl.State) (r' : DualControl.ApprovalRequest) : Prop :=
  exists r, r ∈ s /\ DualControl.id r = DualControl.id r' /\ DualControl.requested_by r = DualControl.requested_by r'.

(** The request a transaction finds and replaces, if it does. *)
Ltac found_request Hr :=
  cbn zeta in Hr;
  match type of Hr with context [list_find ?P ?l] =>
    let Hf := fresh in
    destruct (list_find P l) as [[i r]|] eqn:Hf; [apply list_find_lookup in Hf as [Hf _]; apply list_elem_of_lookup_2 in Hf|]
  end;
  repeat case_match; cbn [snd from_option] in Hr;
  first [by eauto | apply elem_of_insert_inv in Hr as [->|Hr]; unfold kept in *; cbn; by eauto].

Lemma run_subject e s r' :
  r' ∈ run e s ->
  kept s r' \/ exists clk rid input, e = Request clk rid input /\ DualControl.id r' = rid /\ DualControl.requested_by r' = DualControl.in_requested_by input.
Proof.
  assert (forall r, r ∈ s -> kept s r) as Hself by (intros; by exists r).
  assert (forall now r, r ∈ DualControl.expireSweep now s -> kept s r) as Hsweep.
  { intros now r (r0 & Hr0 & ->)%DualControl.sweep_elem. exists r0. destruct (sweep_evolves now r0) as [(-> & _ & _ & -> & _) _ _]. done. }
  destruct e as [clk rid input|clk token input|clk input|clk input|clk o|clk rid]; cbn [run]; unfold after;
    [|intros Hr; left..].
  - unfold DualControl.request_tx, checked, DualControl.request_body. cbn zeta.
    destruct (DualControl.check_request input); [intros; left; by apply Hself|].
    match goal with |- context [list_find ?P ?l] => destruct (list_find P l) as [[i dup]|] end; [intros; left; by apply Hself|].
    simpl. rewrite elem_of_app, list_elem_of_singleton. intros [Hr| ->]; [left; by eapply Hsweep|]. right. by exists clk, rid, input.
  - unfold DualControl.approve_tx, checked, DualControl.approve_body in Hr.
    destruct (DualControl.check_approver input); [by apply Hself|]. found_request Hr. 
  - unfold DualControl.cancel_tx in Hr. found_request Hr.
  - unfold DualControl.consume_tx, checked, DualControl.consume_body in Hr.
    destruct (DualControl.check_token input); [by apply Hself|]. found_request Hr.
  - simpl in Hr. by eapply Hsweep.
  - by apply Hself.
Qed.

(** The history holds the call that makes the operation. *)
Definition credited (es : list entry) (e : event) : Prop :=
  match e with
  | Request _ rid input => requested_in es rid (DualControl.in_requested_by input)
  | Approve _ token input => approved_in es (DualControl.ap_id input) (DualControl.ap_approver input) (DualControl.hashToken token)
  | _ => True
  end.

Lemma explained_run es s e : explained es s -> credited es e -> explained es (run e s).
Proof.
  intros [Hr Ha] Hc. split.
  - intros r [(r0 & Hin & <- & <-)|(clk & rid & input & -> & -> & ->)]%run_subject; [by apply Hr|done].
  - intros r h Hin Hh. destruct (DualControl.run_hash_origin e s r h Hin Hh) as [(r0 & Hin0 & Hh0 & <- & <-)|(clk & token & input & He & <- & Hi & Hw)].
    + by apply Ha.
    + apply list_elem_of_singleton in He as <-. exists (DualControl.ap_approver input). by rewrite <- Hi.
Qed.

Definition drawn (d : draws) (e : event) : Prop :=
  match e with Request _ rid _ => rid = d_id d | Approve _ token _ => token = d_token d | _ => True end.

(** What a call does to the approvals was made by an admitted key. *)
Lemma serve_credited req d c w :
  truthy (default "" admin_env) = true ->
  let s' := approvals (snd (serve req d c w)) in
  s' = approvals w \/ exists e, s' = DualControl.run_store e (approvals w) /\ credited [Called c req d w] e /\ drawn d e.
Proof.
  intros Hp. cbv zeta. unfold serve, guarded. destruct (gate_require (cfg_of w) (headers req) (method_of c) (d_gate d) (gate w)) as [r g] eqn:Eg.
  destruct r as [[k|[st x]]|]; [|by left..].
  destruct (handle_approvals req d c k (with_gate g w)) as [->|(e & -> & He)]; [by left|right]. exists e. split; [done|].
  assert (method_of c <> "GET" -> exists key, k = Some key /\ let_in c req d w key) as Hk.
  { intros Hm. destruct (AdminGate.requireAdmin_second_factor sha256 hmac_sha1 b64uDec hmac session_parse decodeURIComponent (cfg_of w)
      (headers req) (method_of c) (d_gate d) (gate w) k g Hp Hm Eg) as (key & -> & Hkey & trail & Ht & Hmfa). exists key. split; [done|]. split; [done|]. by exists trail. }
  destruct e as [clk rid input|clk token input|clk input|clk input|clk o|clk rid]; try done.
  - destruct He as (-> & -> & Hby). destruct (Hk ltac:(done)) as (key & -> & Hl). split; [|done].
    left. exists req, d, w, key. rewrite list_elem_of_singleton. done.
  - destruct He as (-> & -> & key' & -> & Hby). destruct (Hk ltac:(done)) as (key & [= <-] & Hl). split; [|done].
    exists req, d, w, key'. rewrite list_elem_of_singleton. done.
Qed.

Lemma history_explained es w :
  truthy (default "" admin_env) = true -> history es w ->
  coherent (approvals w) /\ reachable (view (approvals w)) /\ explained es (view (approvals w)).
Proof.
  intros Hp Hh. induction Hh as [w Hv Hc|es w c req d _ (Hc & Hr & He) Hid Htok|es w w' clk rid input _ (Hc & Hr & He) Hid Hw|es w w' e _ (Hc & Hr & He) Hel Hw].
  - rewrite Hv. split_and!; [done|apply rtc_refl|]. split; [by intros r ?%elem_of_nil|by intros r h ?%elem_of_nil].
  - assert (explained (es ++ [Called c req d w]) (view (approvals w))) as He' by (by apply (explained_more es); [apply in_front|]).
    destruct (serve_credited req d c w Hp) as [->|(e & -> & Hcr & Hd)]; [by split_and!|].
    destruct (DualControl.run_store_view e (approvals w) Hc) as [-> Hc']. split_and!; [done| |].
    + eapply rtc_r; [exact Hr|]. constructor. by destruct e; cbn [fresh drawn] in *; subst.
    + apply explained_run; [done|]. destruct e; cbn [credited] in *; try done.
      * by apply (requested_more [Called c req d w]); [apply in_back|].
      * by apply (approved_more [Called c req d w]); [apply in_back|].
  - rewrite Hw. destruct (DualControl.run_store_view (Request clk rid input) (approvals w) Hc) as [-> Hc']. split_and!; [done| |].
    + eapply rtc_r; [exact Hr|]. by constructor.
    + apply explained_run; [by apply (explained_more es); [apply in_front|]|]. right. rewrite elem_of_app, list_elem_of_singleton. by right.
  - destruct Hw as [->| ->]; [|done]. destruct (DualControl.run_store_view e (approvals w) Hc) as [-> Hc']. split_and!; [done| |].
    + eapply rtc_r; [exact Hr|]. constructor. by destruct e.
    + apply explained_run; [done|]. by destruct e.
Qed.

(** C40. Two keys. In production, from an empty file of approvals, whatever is
    called at the console, whatever requests for approval are made elsewhere (the
    routes of the guarded actions make them, for the key of their caller), and
    whatever else happens to keys, policies and sessions in between: a request on
    file whose token is alive was made for one key, by a call of the console or
    elsewhere, and was approved at the console, under its id, with another key.
    The approver, and the requester at the console, presented the secret of a live
    key (or of the environment) and passed the second factor, and the token on
    file is the one drawn at the approval. *)
Theorem approvals_made_by_two es w r h :
  truthy (default "" admin_env) = true -> history es w ->
  r ∈ view (approvals w) -> DualControl.approval_token_hash r = Some h ->
  exists one other, one <> other /\ DualControl.requested_by r = one /\ DualControl.approved_by r = Some other /\
    requested_in es (DualControl.id r) one /\ approved_in es (DualControl.id r) other h.
Proof.
  intros Hp Hh Hr Ht. destruct (history_explained es w Hp Hh) as (_ & Hreach & Hq & Ha).
  destruct (Ha r h Hr Ht) as (who & Hw & Happ). exists (DualControl.requested_by r), who. split_and!; auto.
  pose proof (all_ok _ (reachable_ok _ Hreach)) as Hok. rewrite Forall_forall in Hok. destruct (Hok r Hr) as [_ Hs].
  destruct (DualControl.status r); destruct_and?; try congruence. destruct H0 as (a & Ha' & Hne). congruence.
Qed.
End Console.

(** ** Alice posts, Bob approves *)
Section Demo.
Definition demo_sha (s : string) : string := "#" +:+ s.
Definition demo_key (i secret : string) : StoredKey := with_role owner (new_key demo_sha i secret "ops" [read] 0 None).
Definition demo_start : world (L := LockoutConfig * file AuthLockout.State) :=
  World (AdminGate.World (L := LockoutConfig * file AuthLockout.State) (write_file [demo_key "alice" "sc_live_a"; demo_key "bob" "sc_live_b"])
    (DEFAULT_CONFIG, None) None Sessions.empty_store (MfaGate.World None [])) (boot None) Sessions.Timeout.defaultPolicy ∅.
Definition demo_request (secret : string) : request :=
  {| headers := {[ "x-api-key" := secret ]}; query := ∅;
     body := Some (JObj [("action", JStr "keys.revoke"); ("target", JStr "key_abc"); ("reason", JStr "rotating")]) |}.
Definition demo_draws (i : string) (n : Z) (token : string) : draws := {| d_gate := fun _ => n; d_op := fun _ => n; d_id := i; d_token := token |}.
Definition demo_serve (c : call) (secret i : string) (n : Z) (token : string) (w : world (L := LockoutConfig * file AuthLockout.State)) :=
  serve demo_sha (fun _ _ => []) Sso.demo_b64uDec Sso.demo_mac Sso.demo_parse Some (fun _ => "") (fun _ => NaN) (fun _ => None)
    (Some "root-secret") "k" (demo_request secret) (demo_draws i n token) c w.
Definition demo_posted := snd (demo_serve PostApproval "sc_live_a" "apr_1" 1000 "t0" demo_start).
Definition demo_approved (secret : string) := demo_serve (ApproveIt "apr_1") secret "apr_2" 2000 "tok" demo_posted.

Example own_request_not_approved : fst (demo_approved "sc_live_a") = Refused 403 "self_approval".
Proof. vm_compute. reflexivity. Qed.
Example approved_by_bob :
  match fst (demo_approved "sc_live_b") with Answer 200 (Approval r "tok") => DualControl.approved_by r = Some "bob" | _ => False end.
Proof. vm_compute. reflexivity. Qed.

(** Carol's deletion of a key asks for approval elsewhere; Bob approves Alice's. *)
Definition demo_elsewhere : DualControl.RequestInput :=
  {| DualControl.in_action := "keys.suspend"; DualControl.in_target := "key_x"; DualControl.in_reason := "lost"; DualControl.in_requested_by := "carol" |}.
Definition demo_asked : world (L := LockoutConfig * file AuthLockout.State) :=
  with_approvals (DualControl.run_store (DualControl.Lifecycle.Request (fun _ => 1500) "apr_9" demo_elsewhere) (approvals demo_posted)) demo_posted.
Definition demo_settled (i : string) := snd (demo_serve (ApproveIt i) "sc_live_b" "apr_3" 2000 "tok" demo_asked).

Lemma approvals_made_by_two_witness :
  Forall (fun i => match filter (fun r => DualControl.id r = i) (view (approvals (demo_settled i))) with
    | [r] => exists one other, one <> other /\ DualControl.requested_by r = one /\ DualControl.approved_by r = Some other
    | _ => False
    end) ["apr_1"; "apr_9"].
Proof.
  assert (forall i r, i ∈ ["apr_1"; "apr_9"] -> filter (fun r => DualControl.id r = i) (view (approvals (demo_settled i))) = [r] ->
    DualControl.approval_token_hash r = Some (DualControl.hashToken "tok") ->
    exists one other, one <> other /\ DualControl.requested_by r = one /\ DualControl.approved_by r = Some other) as Hall.
  { intros i r _ Ev Ht.
    destruct (approvals_made_by_two demo_sha (fun _ _ => []) Sso.demo_b64uDec Sso.demo_mac Sso.demo_parse Some (fun _ => "") (fun _ => NaN) (fun _ => None)
      (Some "root-secret") "k"
      ((([] ++ [Called PostApproval (demo_request "sc_live_a") (demo_draws "apr_1" 1000 "t0") demo_start]) ++ [Asked "apr_9" (DualControl.in_requested_by demo_elsewhere)])
        ++ [Called (ApproveIt i) (demo_request "sc_live_b") (demo_draws "apr_3" 2000 "tok") demo_asked])
      (demo_settled i) r (DualControl.hashToken "tok")) as (one & other & Hne & H1 & H2 & _).
    - reflexivity.
    - apply called.
      + eapply asked with (w := demo_posted); [|apply (bool_decide_unpack _); vm_compute; exact I|reflexivity].
        apply called; [by constructor; [|apply boot_coherent]|apply not_elem_of_nil|apply not_elem_of_nil].
      + apply (bool_decide_unpack _). vm_compute. exact I.
      + vm_compute. apply not_elem_of_nil.
    - assert (r ∈ [r]) as Hr by left. rewrite <- Ev in Hr. by apply list_elem_of_filter in Hr as [_ Hr].
    - exact Ht.
    - by exists one, other. }
  assert (forall i, i ∈ ["apr_1"; "apr_9"] -> (fun l => match l with [r] => bool_decide (DualControl.approval_token_hash r = Some (DualControl.hashToken "tok")) | _ => false end)
    (filter (fun r => DualControl.id r = i) (view (approvals (demo_settled i)))) = true) as Hc.
  { intros i Hi. repeat (apply elem_of_cons in Hi as [->|Hi]; [vm_compute; reflexivity|]). by apply elem_of_nil in Hi. }
  apply Forall_forall. intros i Hi. specialize (Hc i Hi). specialize (Hall i).
  destruct (filter _ _) as [|r [|r' l]]; [discriminate Hc| |discriminate Hc]. apply bool_decide_eq_true in Hc. by apply Hall.
Defined.
End Demo.
