(* ===== verification/Account.v ===== *)
(** The account settings of [web/lib/settingsStore.ts] and the route
    [web/app/api/settings/route.ts]: profile and notifications as the JSON
    objects they are, merged over the defaults at every read. The directory of
    data files is the state; a file holds a JSON value or text that does not
    parse. [String(x)] and [Number(x)] of other values than texts and numbers, and
    the text of an exception, are parameters. *)
From S2P Require Import Prelude JsNum JsDate IsoTime Json.

Abbreviation object := (list (string * json)).

Record Settings := { profile : object; notifications : object; updated_at : string }.

Definition default_profile : object :=
  [("display_name", JStr ""); ("email", JStr ""); ("timezone", JStr "America/Los_Angeles"); ("base_currency", JStr "USD")].

Definition default_notifications : object :=
  [("email_digest", JBool false); ("digest_frequency", JStr "daily");
   ("alert_kinds", JArr (JStr <$> ["entered"; "exited"; "upgraded"; "downgraded"]));
   ("quiet_hours_start", JNum (int 22)); ("quiet_hours_end", JNum (int 8))].

Definition DEFAULT_SETTINGS : Settings :=
  {| profile := default_profile; notifications := default_notifications; updated_at := toISOString 0 |}.

Abbreviation dir := (gmap string content).
Definition DATA_FILE : string := "settings.json".

(** [{ ...a, ...b }]. The own properties of a value that is not an object are
    its elements or characters, by index. *)
Definition own_entries (j : json) : object :=
  match j with
  | JObj fs => fs
  | JArr l => imap (fun i v => (pretty i, v)) l
  | JStr s => imap (fun i c => (pretty i, JStr (String c ""))) (String.list_ascii_of_string s)
  | _ => []
  end.

Definition spread (a b : object) : object := fold_left (fun o e => put e.1 e.2 o) b a.

(** [{ ...base, ...(v || {}) }]. *)
Definition over (base : object) (v : jval) : object :=
  spread base (if jtruthy v then from_option own_entries [] v else []).

Definition mergeDefaults (j : json) : Settings :=
  if negb (is_object j) then DEFAULT_SETTINGS else
  {| profile := over default_profile (field "profile" j); notifications := over default_notifications (field "notifications" j);
     updated_at := match field "updated_at" j with Some (JStr s) => s | _ => updated_at DEFAULT_SETTINGS end |}.

Inductive error := Unreadable (text : string) | invalid_email | invalid_currency | invalid_frequency | kinds_not_array.

Definition readRaw (d : dir) : result Settings error :=
  match d !! DATA_FILE with
  | None => Ok DEFAULT_SETTINGS
  | Some (Parsed j) => Ok (mergeDefaults j)
  | Some (Unparsable t) => Err (Unreadable t)
  end.

Definition to_json (s : Settings) : json :=
  JObj [("profile", JObj (profile s)); ("notifications", JObj (notifications s)); ("updated_at", JStr (updated_at s))].

Definition writeAtomic (s : Settings) (d : dir) : dir := <[DATA_FILE := Parsed (to_json s)]> d.

Definition getSettings (d : dir) : result Settings error := readRaw d.

Definition VALID_FREQ : list string := ["daily"; "weekly"; "off"].
Definition VALID_KINDS : list string := ["entered"; "exited"; "upgraded"; "downgraded"; "score_jump"].

Section Store.
Context (String_of : json -> string) (Number_of : json -> num).

Definition to_string (j : json) : string := match j with JStr s => s | _ => String_of j end.
Definition to_number (j : json) : num := match j with JNum n => n | _ => Number_of j end.

Definition clampHour (n fallback : json) : json :=
  let v := to_number n in
  if negb (is_finite v) then fallback else
  let i := num_trunc v in
  if num_lt i (int 0) || num_lt (int 23) i then fallback else JNum i.

Definition sanitizeStr (v : json) (max : nat) : string := match v with JStr s => str_take max (trim s) | _ => "" end.

(** [/^[^\s@]+@[^\s@]+\.[^\s@]+$/]: one at sign, no white space, and in what
    follows it a dot with something on either side. *)
Definition address_char (c : Ascii.ascii) : bool := negb (is_space c) && negb (Ascii.eqb c "@"%char).

Definition is_address (s : string) : bool :=
  match split "@" s with
  | [name; host] =>
      truthy name && str_forall address_char name && str_forall address_char host && negb (no_char "."%char (drop_last (str_drop 1 host)))
  | _ => false
  end.

(** [/^[A-Z]{3}$/]. *)
Definition is_currency (s : string) : bool :=
  (str_len s =? 3) && str_forall (fun c => (65 <=? code c) && (code c <=? 90)) s.

(** [o.k], of a property that [o] has. *)
Definition prop (k : string) (o : object) : json := default JNull (assoc k o).

Definition set_name (v : jval) (p : object) : object :=
  match v with Some v => put "display_name" (JStr (sanitizeStr v 80)) p | None => p end.

Definition set_email (v : jval) (p : object) : result object error :=
  match v with
  | Some v => let e := sanitizeStr v 200 in if truthy e && negb (is_address e) then Err invalid_email else Ok (put "email" (JStr e) p)
  | None => Ok p
  end.

Definition or_else (s : string) (old : json) : json := if truthy s then JStr s else old.

Definition set_timezone (cur : object) (v : jval) (p : object) : object :=
  match v with Some v => put "timezone" (or_else (sanitizeStr v 80) (prop "timezone" cur)) p | None => p end.

Definition set_currency (cur : object) (v : jval) (p : object) : result object error :=
  match v with
  | Some v =>
      let c := to_upper (sanitizeStr v 8) in
      if truthy c && negb (is_currency c) then Err invalid_currency else Ok (put "base_currency" (or_else c (prop "base_currency" cur)) p)
  | None => Ok p
  end.

(** The settings are read, changed and written; an exception writes nothing. *)
Definition update (f : Settings -> result Settings error) (d : dir) : result Settings error * dir :=
  match readRaw d with
  | Err e => (Err e, d)
  | Ok cur => match f cur with Err e => (Err e, d) | Ok out => (Ok out, writeAtomic out d) end
  end.

Definition next_profile (patch : json) (cur : object) : result object error :=
  let p := set_name (field "display_name" patch) cur in
  result_bind (set_email (field "email" patch) p) (fun p =>
  set_currency cur (field "base_currency" patch) (set_timezone cur (field "timezone" patch) p)).

Definition updateProfile (patch : json) (now : Z) : dir -> result Settings error * dir :=
  update (fun cur => result_bind (next_profile patch (profile cur)) (fun p =>
    Ok {| profile := p; notifications := notifications cur; updated_at := toISOString now |})).

Definition set_digest (v : jval) (p : object) : object :=
  match v with Some _ => put "email_digest" (JBool (jtruthy v)) p | None => p end.

Definition set_frequency (v : jval) (p : object) : result object error :=
  match v with
  | Some v => let f := to_string v in if negb (bool_decide (f ∈ VALID_FREQ)) then Err invalid_frequency else Ok (put "digest_frequency" (JStr f) p)
  | None => Ok p
  end.

Definition set_kinds (v : jval) (p : object) : result object error :=
  match v with
  | Some (JArr l) => Ok (put "alert_kinds" (JArr (JStr <$> dedup (filter (fun k => k ∈ VALID_KINDS) (to_string <$> l)))) p)
  | Some _ => Err kinds_not_array
  | None => Ok p
  end.

Definition set_hour (k : string) (cur : object) (v : jval) (p : object) : object :=
  match v with Some v => put k (clampHour v (prop k cur)) p | None => p end.

Definition next_notifications (patch : json) (cur : object) : result object error :=
  let p := set_digest (field "email_digest" patch) cur in
  result_bind (set_frequency (field "digest_frequency" patch) p) (fun p =>
  result_bind (set_kinds (field "alert_kinds" patch) p) (fun p =>
  Ok (set_hour "quiet_hours_end" cur (field "quiet_hours_end" patch) (set_hour "quiet_hours_start" cur (field "quiet_hours_start" patch) p)))).

Definition updateNotifications (patch : json) (now : Z) : dir -> result Settings error * dir :=
  update (fun cur => result_bind (next_notifications patch (notifications cur)) (fun p =>
    Ok {| profile := profile cur; notifications := p; updated_at := toISOString now |})).

Definition resetSettings (now : Z) (d : dir) : Settings * dir :=
  let out := {| profile := default_profile; notifications := default_notifications; updated_at := toISOString now |} in
  (out, writeAtomic out d).

(** ** Export and removal of the account *)

Definition ACCOUNT_FILES : list string :=
  ["settings.json"; "runs.json"; "journal.json"; "watchlist.json"; "alerts.json"; "webhooks.json"; "batch.json"; "quota.json"].

(** What the bundle says of a file: its value, or the error of the parser. *)
Definition bundled (message : string -> string) (c : content) : json :=
  match c with Parsed j => j | Unparsable t => JObj [("error", JStr (message t))] end.

Definition exportAccount (message : string -> string) (now : Z) (d : dir) : object :=
  [("exported_at", JStr (toISOString now)); ("schema", JStr "signalclaw.account.v1")] ++
  omap (fun name => (fun c => (name, bundled message c)) <$> d !! name) ACCOUNT_FILES.

Definition remove_one (acc : list string * dir) (name : string) : list string * dir :=
  match acc.2 !! name with Some _ => (acc.1 ++ [name], delete name acc.2) | None => acc end.

Definition deleteAccount (d : dir) : list string * dir :=
  fold_left remove_one ACCOUNT_FILES ([], d).

(** ** The route *)

Inductive reply := Answered (s : Settings) | Refused (status : Z) (code : string).

(** An exception of the read is the server's to answer. *)
Definition GET (d : dir) : option Settings := match getSettings d with Ok s => Some s | Err _ => None end.

(** The clock is read by either update. *)
Definition PATCH (body : option json) (clk : nat -> Z) (d : dir) : reply * dir :=
  match body with
  | None => (Refused 400 "bad_json", d)
  | Some b =>
      if negb (is_object b) then (Refused 400 "bad_body", d) else
      match getSettings d with
      | Err _ => (Refused 400 "validation", d)
      | Ok out =>
          let '(r, d) := match field "profile" b with
            | Some p => if jtruthy (Some p) then updateProfile p (clk 0%nat) d else (Ok out, d)
            | None => (Ok out, d) end in
          match r with
          | Err _ => (Refused 400 "validation", d)
          | Ok out =>
              let '(r, d) := match field "notifications" b with
                | Some p => if jtruthy (Some p) then updateNotifications p (clk 1%nat) d else (Ok out, d)
                | None => (Ok out, d) end in
              match r with Err _ => (Refused 400 "validation", d) | Ok out => (Answered out, d) end
          end
      end
  end.
End Store.

(** * What the settings promise *)

Section Proofs.
Context (String_of : json -> string) (Number_of : json -> num).
Abbreviation next_notifications_ := (next_notifications String_of Number_of).
Abbreviation patch_ := (PATCH String_of Number_of).

Definition profile_of (name email zone currency : string) : object :=
  [("display_name", JStr name); ("email", JStr email); ("timezone", JStr zone); ("base_currency", JStr currency)].

(** A profile that a page can show and a mail can be sent to. *)
Definition profile_ok (p : object) : Prop :=
  exists name email zone currency,
    p = profile_of name email zone currency /\
    str_len name <= 80 /\ str_len email <= 200 /\ (email = "" \/ is_address email = true) /\
    zone <> "" /\ str_len zone <= 80 /\ is_currency currency = true.

Definition hour_ok (j : json) : Prop := exists h, 0 <= h <= 23 /\ j = JNum (int h).

Definition notifications_of (digest : bool) (frequency : string) (kinds : list string) (start finish : json) : object :=
  [("email_digest", JBool digest); ("digest_frequency", JStr frequency); ("alert_kinds", JArr (JStr <$> kinds));
   ("quiet_hours_start", start); ("quiet_hours_end", finish)].

Definition notifications_ok (p : object) : Prop :=
  exists digest frequency kinds start finish,
    p = notifications_of digest frequency kinds start finish /\
    frequency ∈ VALID_FREQ /\ NoDup kinds /\ kinds ⊆ VALID_KINDS /\ hour_ok start /\ hour_ok finish.

Definition settings_ok (s : Settings) : Prop := profile_ok (profile s) /\ notifications_ok (notifications s).

Lemma sanitizeStr_length v n : str_len (sanitizeStr v n) <= Z.of_nat n.
Proof. unfold sanitizeStr, str_len. destruct v as [| | |s| |]; [cbn; lia..| |cbn; lia|cbn; lia]. pose proof (str_take_length n (trim s)). lia. Qed.

Lemma to_upper_length s : str_len (to_upper s) = str_len s.
Proof. unfold str_len, to_upper. f_equal. induction s as [|c s IH]; simpl; congruence. Qed.

Lemma clampHour_ok n old : hour_ok old -> hour_ok (clampHour Number_of n old).
Proof.
  intros Ho. unfold clampHour. destruct (to_number Number_of n) as [|b|q]; cbn [is_finite negb]; try done.
  destruct (num_lt _ (int 0) || _) eqn:E; [done|]. apply orb_false_iff in E as [E1 E2].
  assert (exists z, num_trunc (Fin q) = int z) as (z & Hz) by (cbn; case_match; by eexists).
  rewrite Hz in *. rewrite num_lt_int in E1, E2. exists z. split; [lia|done].
Qed.

(** A text as the field keeps it: what the patch gives, or what there was. *)
Definition kept_text (v : jval) (max : nat) (old : string) : string := match v with Some v => sanitizeStr v max | None => old end.
Definition or_old (s old : string) : string := if truthy s then s else old.

Lemma or_else_text s old : or_else s (JStr old) = JStr (or_old s old).
Proof. unfold or_else, or_old. by destruct (truthy s). Qed.

Definition email_of (v : jval) (old : string) : string := kept_text v 200 old.
Definition zone_of (v : jval) (old : string) : string := match v with Some v => or_old (sanitizeStr v 80) old | None => old end.
Definition currency_of (v : jval) (old : string) : string := match v with Some v => or_old (to_upper (sanitizeStr v 8)) old | None => old end.

Definition bad_email (v : jval) : bool := match v with Some v => let e := sanitizeStr v 200 in truthy e && negb (is_address e) | None => false end.
Definition bad_currency (v : jval) : bool := match v with Some v => let c := to_upper (sanitizeStr v 8) in truthy c && negb (is_currency c) | None => false end.

(** The profile a patch leads to, field by field. *)
Lemma next_profile_fields patch name email zone currency :
  next_profile patch (profile_of name email zone currency) =
  if bad_email (field "email" patch) then Err invalid_email else if bad_currency (field "base_currency" patch) then Err invalid_currency
  else Ok (profile_of (kept_text (field "display_name" patch) 80 name) (email_of (field "email" patch) email)
                      (zone_of (field "timezone" patch) zone) (currency_of (field "base_currency" patch) currency)).
Proof.
  unfold next_profile, set_email, set_currency, bad_email, bad_currency.
  destruct (field "display_name" patch); (destruct (field "email" patch) as [e|]; cbn [result_bind]; [case_match; [done|]|]);
    (destruct (field "base_currency" patch) as [c|]; [case_match; [done|]|]); destruct (field "timezone" patch);
    cbn; by rewrite ?or_else_text.
Qed.

Lemma next_profile_ok patch cur p : profile_ok cur -> next_profile patch cur = Ok p -> profile_ok p.
Proof.
  intros (name & email & zone & currency & -> & Hn & He & Hea & Hz & Hzl & Hc). rewrite (next_profile_fields patch).
  destruct (bad_email _) eqn:Ee; [done|]. destruct (bad_currency _) eqn:Ec; [done|]. intros [= <-]. eexists _, _, _, _. split; [done|].
  split_and!.
  - unfold kept_text. destruct (field "display_name" patch) as [v|]; [apply (sanitizeStr_length v 80)|done].
  - unfold email_of, kept_text. destruct (field "email" patch) as [v|]; [apply (sanitizeStr_length v 200)|done].
  - unfold email_of, kept_text, bad_email in *. destruct (field "email" patch) as [v|]; [|done]. cbv zeta in Ee.
    destruct (truthy (sanitizeStr v 200)) eqn:Et; [right|left; by apply truthy_false]. by apply negb_false_iff in Ee.
  - unfold zone_of, or_old. destruct (field "timezone" patch) as [v|]; [|done]. destruct (truthy (sanitizeStr v 80)) eqn:Et; [by apply truthy_spec|done].
  - unfold zone_of, or_old. destruct (field "timezone" patch) as [v|]; [|done]. destruct (truthy _); [apply (sanitizeStr_length v 80)|done].
  - unfold currency_of, or_old, bad_currency in *. destruct (field "base_currency" patch) as [v|]; [|done]. cbv zeta in Ec.
    destruct (truthy _); [by apply negb_false_iff in Ec|done].
Qed.

Lemma kept_text_twice v n old : kept_text v n (kept_text v n old) = kept_text v n old.
Proof. by destruct v. Qed.

Lemma or_old_twice s old : or_old s (or_old s old) = or_old s old.
Proof. unfold or_old. by destruct (truthy s). Qed.

Lemma next_profile_twice patch cur p : profile_ok cur -> next_profile patch cur = Ok p -> next_profile patch p = Ok p.
Proof.
  intros (name & email & zone & currency & -> & _). rewrite (next_profile_fields patch).
  destruct (bad_email _) eqn:Ee; [done|]. destruct (bad_currency _) eqn:Ec; [done|]. intros [= <-]. rewrite next_profile_fields, Ee, Ec.
  do 2 f_equal; unfold email_of; rewrite ?kept_text_twice; try done.
  - unfold zone_of. destruct (field "timezone" patch); [apply or_old_twice|done].
  - unfold currency_of. destruct (field "base_currency" patch); [apply or_old_twice|done].
Qed.

(** The notifications a patch leads to, field by field. *)
Definition digest_of (v : jval) (old : bool) : bool := match v with Some _ => jtruthy v | None => old end.
Definition frequency_of (v : jval) (old : string) : string := match v with Some v => to_string String_of v | None => old end.
Definition kinds_of (v : jval) (old : list string) : list string :=
  match v with Some (JArr l) => dedup (filter (fun k => k ∈ VALID_KINDS) (to_string String_of <$> l)) | _ => old end.
Definition hour_of (v : jval) (old : json) : json := match v with Some v => clampHour Number_of v old | None => old end.

Definition bad_frequency (v : jval) : bool := match v with Some v => negb (bool_decide (to_string String_of v ∈ VALID_FREQ)) | None => false end.
Definition bad_kinds (v : jval) : bool := match v with Some (JArr _) | None => false | Some _ => true end.

Lemma next_notifications_fields patch digest frequency kinds start finish :
  next_notifications_ patch (notifications_of digest frequency kinds start finish) =
  if bad_frequency (field "digest_frequency" patch) then Err invalid_frequency else if bad_kinds (field "alert_kinds" patch) then Err kinds_not_array
  else Ok (notifications_of (digest_of (field "email_digest" patch) digest) (frequency_of (field "digest_frequency" patch) frequency)
    (kinds_of (field "alert_kinds" patch) kinds) (hour_of (field "quiet_hours_start" patch) start) (hour_of (field "quiet_hours_end" patch) finish)).
Proof.
  unfold next_notifications, set_frequency, set_kinds, bad_frequency, bad_kinds.
  destruct (field "email_digest" patch); (destruct (field "digest_frequency" patch); cbn [result_bind]; [case_match; [done|]|]);
    (destruct (field "alert_kinds" patch) as [[]|]; cbn [result_bind]; try done);
    destruct (field "quiet_hours_start" patch), (field "quiet_hours_end" patch); done.
Qed.

Lemma next_notifications_ok patch cur p : notifications_ok cur -> next_notifications_ patch cur = Ok p -> notifications_ok p.
Proof.
  intros (digest & frequency & kinds & start & finish & -> & Hf & Hn & Hk & Hs & He). rewrite next_notifications_fields.
  destruct (bad_frequency _) eqn:Eb; [done|]. destruct (bad_kinds _); [done|]. intros [= <-]. eexists _, _, _, _, _. split; [done|].
  split_and!.
  - unfold frequency_of, bad_frequency in *. destruct (field "digest_frequency" patch); [|done]. by case_bool_decide.
  - unfold kinds_of. destruct (field "alert_kinds" patch) as [[]|]; try done. apply dedup_NoDup.
  - unfold kinds_of. destruct (field "alert_kinds" patch) as [[]|]; try done. intros k [Hin _]%dedup_elem%list_elem_of_filter. done.
  - unfold hour_of. destruct (field "quiet_hours_start" patch); [by apply clampHour_ok|done].
  - unfold hour_of. destruct (field "quiet_hours_end" patch); [by apply clampHour_ok|done].
Qed.

Lemma clampHour_twice n old : clampHour Number_of n (clampHour Number_of n old) = clampHour Number_of n old.
Proof. unfold clampHour. cbv zeta. by repeat case_match. Qed.

Lemma next_notifications_twice patch cur p : notifications_ok cur -> next_notifications_ patch cur = Ok p -> next_notifications_ patch p = Ok p.
Proof.
  intros (digest & frequency & kinds & start & finish & -> & _). rewrite next_notifications_fields.
  destruct (bad_frequency _) eqn:Eb; [done|]. destruct (bad_kinds _) eqn:Ek; [done|]. intros [= <-]. rewrite next_notifications_fields, Eb, Ek.
  do 2 f_equal.
  - unfold digest_of. by destruct (field "email_digest" patch).
  - unfold frequency_of. by destruct (field "digest_frequency" patch).
  - unfold kinds_of. by destruct (field "alert_kinds" patch) as [[]|].
  - unfold hour_of. destruct (field "quiet_hours_start" patch); [apply clampHour_twice|done].
  - unfold hour_of. destruct (field "quiet_hours_end" patch); [apply clampHour_twice|done].
Qed.

(** ** Reading back what was written *)

Lemma read_write_settings s d : settings_ok s -> readRaw (writeAtomic s d) = Ok s.
Proof.
  intros [(name & email & zone & currency & Hp & _) (digest & frequency & kinds & start & finish & Hn & _)].
  unfold readRaw, writeAtomic. rewrite lookup_insert_eq. destruct s as [p n u]. cbn [profile notifications] in *. by subst.
Qed.

(** The settings are readable and well formed. *)
Definition holds_settings (d : dir) (s : Settings) : Prop := readRaw d = Ok s /\ settings_ok s.

Lemma default_ok : settings_ok DEFAULT_SETTINGS.
Proof.
  split; [eexists "", "", _, "USD"; split; [done|]; split_and!; [done..|by left|done|done|done]|].
  eexists false, "daily", _, _, _. split; [done|]. split_and!; [by left| | |by exists 22|by exists 8].
  - apply (bool_decide_unpack _). vm_compute. done.
  - intros k Hk. unfold VALID_KINDS. rewrite !elem_of_cons in *. tauto.
Qed.

(** Of a section of the settings, the properties a patch does not name. *)
Definition unnamed (patch : jval) (cur p : object) : Prop := forall k, (v ← patch; field k v) = None -> assoc k p = assoc k cur.

Lemma next_profile_frame patch cur p : profile_ok cur -> next_profile patch cur = Ok p -> unnamed (Some patch) cur p.
Proof.
  intros (name & email & zone & currency & -> & _). rewrite next_profile_fields. destruct (bad_email _); [done|]. destruct (bad_currency _); [done|].
  intros [= <-] k Hk. cbn in Hk. unfold profile_of. cbn [assoc].
  destruct (String.eqb k "display_name") eqn:E1; [apply String.eqb_eq in E1 as ->; by rewrite Hk|].
  destruct (String.eqb k "email") eqn:E2; [apply String.eqb_eq in E2 as ->; by rewrite Hk|].
  destruct (String.eqb k "timezone") eqn:E3; [apply String.eqb_eq in E3 as ->; by rewrite Hk|].
  destruct (String.eqb k "base_currency") eqn:E4; [apply String.eqb_eq in E4 as ->; by rewrite Hk|done].
Qed.

Lemma next_notifications_frame patch cur p : notifications_ok cur -> next_notifications_ patch cur = Ok p -> unnamed (Some patch) cur p.
Proof.
  intros (digest & frequency & kinds & start & finish & -> & _). rewrite next_notifications_fields.
  destruct (bad_frequency _); [done|]. destruct (bad_kinds _); [done|].
  intros [= <-] k Hk. cbn in Hk. unfold notifications_of. cbn [assoc].
  destruct (String.eqb k "email_digest") eqn:E1; [apply String.eqb_eq in E1 as ->; by rewrite Hk|].
  destruct (String.eqb k "digest_frequency") eqn:E2; [apply String.eqb_eq in E2 as ->; by rewrite Hk|].
  destruct (String.eqb k "alert_kinds") eqn:E3; [apply String.eqb_eq in E3 as ->; by rewrite Hk|].
  destruct (String.eqb k "quiet_hours_start") eqn:E4; [apply String.eqb_eq in E4 as ->; by rewrite Hk|].
  destruct (String.eqb k "quiet_hours_end") eqn:E5; [apply String.eqb_eq in E5 as ->; by rewrite Hk|done].
Qed.

Lemma updateProfile_spec patch now d s0 :
  holds_settings d s0 ->
  match updateProfile patch now d with
  | (Ok s, d') => d' = writeAtomic s d /\ settings_ok s /\ notifications s = notifications s0 /\ next_profile patch (profile s0) = Ok (profile s)
  | (Err _, d') => d' = d
  end.
Proof.
  intros [Hr [Hp Hn]]. unfold updateProfile, update. rewrite Hr. destruct (next_profile patch (profile s0)) as [p|e] eqn:E; [|done].
  cbn [result_bind]. split_and!; [done| |done|done]. split; [by eapply next_profile_ok|done].
Qed.

Lemma updateNotifications_spec patch now d s0 :
  holds_settings d s0 ->
  match updateNotifications String_of Number_of patch now d with
  | (Ok s, d') => d' = writeAtomic s d /\ settings_ok s /\ profile s = profile s0 /\ next_notifications_ patch (notifications s0) = Ok (notifications s)
  | (Err _, d') => d' = d
  end.
Proof.
  intros [Hr [Hp Hn]]. unfold updateNotifications, update. rewrite Hr. destruct (next_notifications_ patch (notifications s0)) as [p|e] eqn:E; [|done].
  cbn [result_bind]. split_and!; [done| |done|done]. split; [done|by eapply next_notifications_ok].
Qed.

(** A section of the body that counts. *)
Definition section (name : string) (b : json) : jval := match field name b with Some p => if jtruthy (Some p) then Some p else None | None => None end.

(** The two updates of a patch, in order. *)
Definition patched (b : json) (clk : nat -> Z) (s0 : Settings) (d : dir) : result Settings error * dir :=
  let '(r, d) := match section "profile" b with Some p => updateProfile p (clk 0%nat) d | None => (Ok s0, d) end in
  match r with
  | Err e => (Err e, d)
  | Ok s => match section "notifications" b with Some p => updateNotifications String_of Number_of p (clk 1%nat) d | None => (Ok s, d) end
  end.

Lemma PATCH_patched body clk d s0 :
  readRaw d = Ok s0 ->
  match body with
  | Some b => if is_object b then patch_ body clk d = match patched b clk s0 d with (Ok s, d') => (Answered s, d') | (Err _, d') => (Refused 400 "validation", d') end
              else patch_ body clk d = (Refused 400 "bad_body", d)
  | None => patch_ body clk d = (Refused 400 "bad_json", d)
  end.
Proof.
  intros Hr. destruct body as [b|]; [|done]. unfold PATCH. destruct (is_object b); [|done]. cbn [negb]. unfold getSettings. rewrite Hr.
  unfold patched, section. destruct (field "profile" b) as [p|]; [destruct (jtruthy (Some p)); [destruct (updateProfile _ _ _) as [[s|e] d']; [|done]|]|];
    (destruct (field "notifications" b) as [q|]; [destruct (jtruthy (Some q)); [destruct (updateNotifications _ _ _ _ _) as [[s'|e'] d'']|]|]); done.
Qed.

Lemma written_settings s d : settings_ok s -> holds_settings (writeAtomic s d) s.
Proof. intros Hs. split; [by apply read_write_settings|done]. Qed.

Lemma patched_spec b clk d s0 :
  holds_settings d s0 ->
  match patched b clk s0 d with
  | (Ok s, d') => holds_settings d' s /\
      (match section "profile" b with Some p => next_profile p (profile s0) = Ok (profile s) | None => profile s = profile s0 end) /\
      (match section "notifications" b with Some p => next_notifications_ p (notifications s0) = Ok (notifications s) | None => notifications s = notifications s0 end)
  | (Err _, d') => exists s, holds_settings d' s /\ notifications s = notifications s0 /\
      (d' = d \/ exists p, section "profile" b = Some p /\ next_profile p (profile s0) = Ok (profile s))
  end.
Proof.
  intros Hh. unfold patched. destruct (section "profile" b) as [p|].
  - pose proof (updateProfile_spec p (clk 0%nat) d s0 Hh) as Hp. destruct (updateProfile p (clk 0%nat) d) as [[s|e] d1].
    + destruct Hp as (-> & Hs & Hn & Hp). pose proof (written_settings s d Hs) as Hw. destruct (section "notifications" b) as [q|]; [|done].
      pose proof (updateNotifications_spec q (clk 1%nat) _ s Hw) as Hq. destruct (updateNotifications _ _ q _ _) as [[s'|e'] d2].
      * destruct Hq as (-> & Hs' & Hpp & Hq). rewrite Hpp, <- Hn. split; [by apply written_settings|done].
      * subst d2. exists s. split_and!; [done..|]. right. by exists p.
    + subst d1. exists s0. by split_and!; [..|left].
  - destruct (section "notifications" b) as [q|]; [|done].
    pose proof (updateNotifications_spec q (clk 1%nat) _ s0 Hh) as Hq. destruct (updateNotifications _ _ q _ _) as [[s'|e'] d2].
    + destruct Hq as (-> & Hs' & Hpp & Hq). split; [by apply written_settings|done].
    + subst d2. exists s0. by split_and!; [..|left].
Qed.

(** A request whose sections are accepted is answered. *)
Lemma patched_again b clk d s0 pf nf :
  holds_settings d s0 ->
  (match section "profile" b with Some p => next_profile p (profile s0) = Ok pf | None => pf = profile s0 end) ->
  (match section "notifications" b with Some p => next_notifications_ p (notifications s0) = Ok nf | None => nf = notifications s0 end) ->
  exists s, fst (patched b clk s0 d) = Ok s /\ profile s = pf /\ notifications s = nf.
Proof.
  intros Hh Hp Hn. unfold patched. destruct (section "profile" b) as [p|].
  - pose proof (updateProfile_spec p (clk 0%nat) d s0 Hh) as Hu. unfold updateProfile, update in *. rewrite (proj1 Hh), Hp in *.
    cbn [result_bind] in *. destruct Hu as (_ & Hs & _). destruct (section "notifications" b) as [q|]; [|subst; by eexists].
    unfold updateNotifications, update. rewrite (read_write_settings _ d Hs). cbn [notifications]. rewrite Hn. by eexists.
  - destruct (section "notifications" b) as [q|]; [|subst; by eexists]. unfold updateNotifications, update. rewrite (proj1 Hh), Hn. subst. by eexists.
Qed.

(** What can happen to the directory. *)
Inductive event := Patch (body : option json) (clk : nat -> Z) | Reset (now : Z) | Remove | Elsewhere (name : string) (c : option content).

Definition run (e : event) (d : dir) : dir :=
  match e with
  | Patch body clk => snd (patch_ body clk d)
  | Reset now => snd (resetSettings now d)
  | Remove => snd (deleteAccount d)
  | Elsewhere name c => if String.eqb name DATA_FILE then d else partial_alter (fun _ => c) name d
  end.

Lemma remove_lookup names acc f :
  (fold_left remove_one names acc).2 !! f = if bool_decide (f ∈ names) then None else acc.2 !! f.
Proof.
  revert acc. induction names as [|name names IH]; intros acc; [by rewrite bool_decide_eq_false_2 by apply not_elem_of_nil|].
  cbn [fold_left]. rewrite IH. unfold remove_one.
  destruct (decide (f ∈ names)) as [Hin|Hin].
  - rewrite !bool_decide_eq_true_2; [done| |done]. by right.
  - rewrite (bool_decide_eq_false_2 _ Hin). destruct (decide (f = name)) as [->|Hne].
    + rewrite bool_decide_eq_true_2 by by left. destruct (acc.2 !! name) eqn:E; cbn [snd]; [by rewrite lookup_delete_eq|done].
    + rewrite bool_decide_eq_false_2 by (by intros [?|?]%elem_of_cons). destruct (acc.2 !! name); cbn [snd]; [by rewrite lookup_delete_ne|done].
Qed.

Lemma remove_listed names acc :
  NoDup names -> (fold_left remove_one names acc).1 = acc.1 ++ filter (fun name => is_Some (acc.2 !! name)) names.
Proof.
  revert acc. induction names as [|name names IH]; intros acc; [by rewrite app_nil_r|]. intros [Hn Hd]%NoDup_cons.
  cbn [fold_left]. rewrite IH by done. unfold remove_one. rewrite filter_cons. destruct (acc.2 !! name) eqn:E.
  - rewrite decide_True by done. cbn [fst snd]. rewrite <- app_assoc. cbn. do 2 f_equal. apply filter_ext. intros x Hx.
    rewrite lookup_delete_ne by (by intros ->). done.
  - by rewrite decide_False by (by intros [? ?]).
Qed.

(** The settings stay valid. From a directory without a settings file, whatever
    requests come to change, reset or remove them and whatever else is written to
    the other files, the settings can be read and are well formed: texts within
    their bounds, an address or none, a currency of three letters, a known
    frequency, known kinds without repetition, hours from 0 to 23. *)
Theorem settings_stay_valid es d :
  d !! DATA_FILE = None -> exists s, readRaw (fold_left (fun d e => run e d) es d) = Ok s /\ settings_ok s.
Proof.
  intros Hd. assert (exists s, holds_settings d s) as Hs by (exists DEFAULT_SETTINGS; split; [by unfold readRaw; rewrite Hd|apply default_ok]).
  clear Hd. revert d Hs. induction es as [|e es IH]; intros d [s Hs]; [by exists s|]. cbn [fold_left]. apply IH.
  destruct e as [body clk|now| |name c]; cbn [run].
  - pose proof (PATCH_patched body clk d s (proj1 Hs)) as Hp. destruct body as [b|]; [|rewrite Hp; by exists s].
    destruct (is_object b); [|rewrite Hp; by exists s]. rewrite Hp. pose proof (patched_spec b clk d s Hs) as Hq.
    destruct (patched b clk s d) as [[s'|e'] d']; [destruct Hq as [Hq _]; by exists s'|]. destruct Hq as (s' & Hq & _). by exists s'.
  - eexists. apply written_settings. apply default_ok.
  - exists DEFAULT_SETTINGS. split; [|apply default_ok]. unfold readRaw.
    unfold deleteAccount. rewrite remove_lookup. by rewrite bool_decide_eq_true_2 by by left.
  - destruct (String.eqb_spec name DATA_FILE) as [->|Hne]; [by exists s|]. exists s. destruct Hs as [Hr Ho]. split; [|done].
    unfold readRaw in *. by rewrite lookup_partial_alter_ne by done.
Qed.

(** C33. A change of the settings. An answer with settings is an answer to an
    object: the next reading gives the same settings, what the body does not name
    is as it was, and the same request changes nothing more. A refusal is a 400
    and leaves the settings as they were, or is given after the profile of the
    body was stored. *)
Theorem settings_change_settles body clk d s0 :
  readRaw d = Ok s0 -> settings_ok s0 ->
  let '(r, d') := patch_ body clk d in
  match r with
  | Answered s =>
      exists b, body = Some b /\ is_object b = true /\ readRaw d' = Ok s /\ settings_ok s /\
        unnamed (section "profile" b) (profile s0) (profile s) /\ unnamed (section "notifications" b) (notifications s0) (notifications s) /\
        forall clk', match fst (patch_ body clk' d') with Answered s' => profile s' = profile s /\ notifications s' = notifications s | _ => False end
  | Refused status _ =>
      status = 400 /\ exists s, readRaw d' = Ok s /\ settings_ok s /\ notifications s = notifications s0 /\
        (d' = d \/ exists b p, body = Some b /\ section "profile" b = Some p /\ next_profile p (profile s0) = Ok (profile s))
  end.
Proof.
  intros Hr Ho. pose proof (PATCH_patched body clk d s0 Hr) as Hp.
  destruct body as [b|]; [|rewrite Hp; split; [done|]; exists s0; by split_and!; [..|left]].
  destruct (is_object b) eqn:Eb; [|rewrite Hp; split; [done|]; exists s0; by split_and!; [..|left]].
  rewrite Hp. pose proof (patched_spec b clk d s0 (conj Hr Ho)) as Hq. destruct (patched b clk s0 d) as [[s|e] d'].
  - destruct Hq as (Hs & Hpf & Hnf). exists b. split_and!; [done|done|apply Hs|apply Hs| | |].
    + destruct (section "profile" b) as [p|]; [by eapply next_profile_frame; [apply Ho|]|by intros k _; rewrite Hpf].
    + destruct (section "notifications" b) as [p|]; [by eapply next_notifications_frame; [apply Ho|]|by intros k _; rewrite Hnf].
    + intros clk'. pose proof (PATCH_patched (Some b) clk' d' s (proj1 Hs)) as Hp'. cbv beta iota in Hp'. rewrite Eb in Hp'. rewrite Hp'.
      destruct (patched_again b clk' d' s (profile s) (notifications s) Hs) as (s' & Hf & H1 & H2).
      * destruct (section "profile" b) as [p|]; [|done]. by eapply next_profile_twice; [apply Ho|].
      * destruct (section "notifications" b) as [p|]; [|done]. by eapply next_notifications_twice; [apply Ho|].
      * destruct (patched b clk' s d') as [r' d'']. cbn [fst] in Hf. subst r'. done.
  - destruct Hq as (s & Hs & Hn & Hd). split; [done|]. exists s. split_and!; [apply Hs|apply Hs|done|].
    destruct Hd as [->|(p & Hp1 & Hp2)]; [by left|right]. by exists b, p.
Qed.

(** Removing the account reports the account files that were there, in order,
    takes exactly those away and leaves every other file alone; an export lists
    the same files, and nothing once they are removed. *)
Theorem account_removed message now d :
  let present := filter (fun name => is_Some (d !! name)) ACCOUNT_FILES in
  let '(deleted, d') := deleteAccount d in
  deleted = present /\ (forall f, d' !! f = if bool_decide (f ∈ ACCOUNT_FILES) then None else d !! f) /\
  (exportAccount message now d).*1 = ["exported_at"; "schema"] ++ present /\ (exportAccount message now d').*1 = ["exported_at"; "schema"].
Proof.
  assert (forall d : dir, (omap (fun name => (fun c => (name, bundled message c)) <$> d !! name) ACCOUNT_FILES).*1 =
    filter (fun name => is_Some (d !! name)) ACCOUNT_FILES) as He.
  { intros d0. induction ACCOUNT_FILES as [|name names IH]; [done|]. rewrite filter_cons. cbn [omap list_omap].
    destruct (d0 !! name) eqn:E; cbn; [rewrite decide_True by done; cbn; by rewrite <- IH|rewrite decide_False by (by intros [? ?]); apply IH]. }
  cbv zeta. destruct (deleteAccount d) as [deleted d'] eqn:Ed. unfold deleteAccount in Ed.
  assert (forall f, d' !! f = if bool_decide (f ∈ ACCOUNT_FILES) then None else d !! f) as Hl by (intros f; pose proof (remove_lookup ACCOUNT_FILES ([], d) f) as Hf; by rewrite Ed in Hf).
  split_and!; [|exact Hl| |].
  - pose proof (remove_listed ACCOUNT_FILES ([], d)) as Hr. rewrite Ed in Hr. apply Hr. apply (bool_decide_unpack _). vm_compute. done.
  - unfold exportAccount. rewrite fmap_app, He. done.
  - unfold exportAccount. rewrite fmap_app, He. cbn [fmap list_fmap fst]. rewrite filter_none; [done|].
    intros f Hf. rewrite Hl, bool_decide_eq_true_2 by done. by intros [? ?].
Qed.
End Proofs.

(** ** A change that is refused half-way *)
Section Demo.
Definition demo_body : json :=
  JObj [("profile", JObj [("display_name", JStr " Ada "); ("base_currency", JStr "eur")]);
        ("notifications", JObj [("digest_frequency", JStr "hourly")])].
Definition demo_patch (body : json) (d : dir) : reply * dir := PATCH (fun _ => "") (fun _ => NaN) (Some body) (fun _ => 1000) d.

(** The answer is that the request is not valid; the profile of it is stored. *)
Lemma refused_change_half_stored :
  fst (demo_patch demo_body ∅) = Refused 400 "validation" /\
  match readRaw (snd (demo_patch demo_body ∅)) with
  | Ok s => profile s = profile_of "Ada" "" "America/Los_Angeles" "EUR" /\ notifications s = default_notifications
  | Err _ => False
  end.
Proof. vm_compute. done. Qed.

Definition demo_event : event := Patch (Some demo_body) (fun _ => 1000).

Lemma settings_stay_valid_witness :
  exists s, readRaw (run (fun _ => "") (fun _ => NaN) demo_event ∅) = Ok s /\ settings_ok s.
Proof. apply (settings_stay_valid (fun _ => "") (fun _ => NaN) [demo_event] ∅). reflexivity. Defined.

Definition demo_accepted : json := JObj [("notifications", JObj [("quiet_hours_start", JNum (int 23)); ("quiet_hours_end", JNum (int 24))])].

Lemma settings_change_settles_witness :
  match demo_patch demo_accepted ∅ with
  | (Answered s, d') => readRaw d' = Ok s /\ prop "quiet_hours_start" (notifications s) = JNum (int 23) /\ prop "quiet_hours_end" (notifications s) = JNum (int 8)
  | _ => False
  end.
Proof.
  pose proof (settings_change_settles (fun _ => "") (fun _ => NaN) (Some demo_accepted) (fun _ => 1000) ∅ DEFAULT_SETTINGS eq_refl default_ok) as H.
  unfold demo_patch. assert (match fst (demo_patch demo_accepted ∅) with Answered s => prop "quiet_hours_start" (notifications s) = JNum (int 23) /\
    prop "quiet_hours_end" (notifications s) = JNum (int 8) | Refused _ _ => False end) as Hv by (vm_compute; done).
  unfold demo_patch in Hv. destruct (PATCH _ _ _ _ _) as [[s|st c] d']; [|done]. destruct H as (b & _ & _ & Hr & _). split; [exact Hr|exact Hv].
Defined.
End Demo.
