(* ===== verification/LegacyPrivacy.v ===== *)
(** The older routes to the data of a workspace, [web/app/api/settings/delete]
    and [web/app/api/settings/export]. They repeat the check for the admin scope
    but not the second factor, and go to the same erasure and export as the
    administrative routes of [Governance], on the same stores. *)
From S2P Require Import Prelude JsNum JsDate IsoTime Json Store Interleave AuthLockout KeyStore.
From S2P Require Totp MfaGate LegalHold Privacy AdminRoute Governance.
Import AdminRoute Governance.
#[local] Existing Instances LegalHold.holds_persisted LegalHold.file_register.

Section Routes.
Context (rotation_defaults : KeyLifecycle.rotation_env) (residency_defaults : Residency.residency_env).
Context {L : Type} `{Lockout L} (sha256 : string -> string) (hmac_sha1 : list Z -> list Z -> list Z) (adminEnv : option string).
Abbreviation S := (stores rotation_defaults residency_defaults).
Abbreviation W := (world L S).

Section Request.
Context (req : request) (d : draws).

(** [adminConfigured && (!k || !k.scopes.includes("admin"))]. *)
Definition legacy_gate (w : W) : result (option StoredKey) MfaGate.denial * W :=
  let '(k, w) := authenticated sha256 adminEnv req d 0 w in
  let administers := match k with Some key => bool_decide (admin ∈ scopes key) | None => false end in
  if production adminEnv && negb administers then (Err (403, "forbidden"), recordAuditEvent 403 k "forbidden:admin-required" w)
  else (Ok k, w).

Definition confirmed (b : json) : bool := match field "confirm" b with Some (JStr s) => String.eqb s "DELETE" | _ => false end.

(** Customer data only. *)
Definition legacy_options : Privacy.EraseOptions := {| Privacy.wipeCompliance := false; Privacy.wipeAudit := false |}.

Definition legacy_text (s : Privacy.EraseSummary) : string :=
  "Removed " +:+ pretty (len (Privacy.removed s)) +:+ " file(s), freed " +:+ pretty (Privacy.bytes_freed s) +:+ " bytes.".

(** The exception of the erasure is not caught here. *)
Definition delete_POST (w : W) : reply Privacy.EraseSummary * W :=
  let '(r, w) := legacy_gate w in
  match r with
  | Err (s, c) => (Refused s c, w)
  | Ok k =>
      match body req with
      | None => (Refused 400 "bad_json", w)
      | Some b =>
          if negb (confirmed b) then (Refused 400 "confirm_required", recordAuditEvent 400 k "privacy.delete.unconfirmed" w) else
          let '(r, dir) := Privacy.eraseAll (d_op d 0%nat) legacy_options (holds _ _ (gov w)) (data _ _ (gov w)) in
          match r with
          | Err _ => (Raised, w)
          | Ok s => (Answer 200 s, recordSafe d "system" "Workspace data erased" (legacy_text s) "/settings/privacy"
                                     (recordAuditEvent 200 k "privacy.delete.executed.legacy" (with_erased _ _ legacy_options dir w)))
          end
      end
  end.

(** The bundle and the name of the file. *)
Definition legacy_export_GET (w : W) : reply (Privacy.ExportBundle * string) * W :=
  let '(r, w) := legacy_gate w in
  match r with
  | Err (s, c) => (Refused s c, w)
  | Ok k =>
      let w := recordAuditEvent 200 k (if production adminEnv then "privacy.export.legacy" else "privacy.export.local-mode") w in
      (Answer 200 (Privacy.collectExport (d_op d 0%nat) (data _ _ (gov w)), Privacy.exportFilename (d_op d 1%nat)), w)
  end.
End Request.

(** * What they promise *)

Section Proofs.
Context (req : request) (d : draws).
Abbreviation delete_ := (delete_POST req d).

Definition administrator (w : W) (key : StoredKey) : Prop := fst (authenticated sha256 adminEnv req d 0 w) = Some key /\ admin ∈ scopes key.

Lemma legacy_gate_spec w :
  untouched w (snd (legacy_gate req d w)) /\
  match fst (legacy_gate req d w) with
  | Ok k => production adminEnv = true -> exists key, k = Some key /\ administrator w key
  | Err e => e = (403, "forbidden")
  end.
Proof.
  unfold legacy_gate, administrator. pose proof (authenticated_untouched sha256 adminEnv req d 0 w) as Hu.
  destruct (authenticated _ _ _ _ 0 w) as [k w1]. cbn [fst snd] in *. destruct (production adminEnv) eqn:Ep; cbn [andb]; [|done].
  destruct k as [key|]; [|done]. case_bool_decide as Ha; cbn [negb]; [|done]. split; [done|]. intros _. by exists key.
Qed.

(** An erasure that is carried out found no hold in its way, and takes the
    files of its plan only. *)
Lemma erased_unheld now reg (dir dir' : Privacy.dir) s :
  Privacy.eraseAll now legacy_options reg dir = (Ok s, dir') ->
  (forall scope, scope ∈ [LegalHold.runs; LegalHold.user_data] -> ~ LegalHold.held reg scope) /\
  (forall f, f ∉ (Privacy.describeErase legacy_options).1 -> dir' !! f = dir !! f).
Proof.
  intros E. split.
  - intros scope Hin Hheld. destruct (Privacy.erase_blocked now legacy_options reg dir scope) as (hs & E' & _); [|done|congruence].
    rewrite !elem_of_cons, elem_of_nil in Hin. by destruct_or! Hin; subst.
  - intros f Hf. unfold Privacy.eraseAll in E. destruct (Privacy.eraseBlockingHolds _ _); [|done]. destruct (Privacy.describeErase _) as [rm keep].
    pose proof (Privacy.erase_fold_other rm ([], 0, dir) f Hf) as Ho. destruct (fold_left _ _ _) as [[? ?] d']. by injection E as _ <-.
Qed.

(** The older way to erase. In production, whatever the request: the stores
    and the feed are as they were, and the answer is a refusal, or an exception
    that nobody catches when a hold is in the way; or the caller authenticated with
    the admin scope, the body says DELETE, no hold covers the runs or the user
    data, and the directory is what the erasure leaves, which takes customer files
    only. *)
Theorem legacy_erasure_guarded w :
  production adminEnv = true ->
  let '(r, w') := delete_ w in
  let '(out, dir) := Privacy.eraseAll (d_op d 0%nat) legacy_options (holds _ _ (gov w)) (data _ _ (gov w)) in
  untouched w w' /\ (match r with Answer _ _ => False | Raised => exists hs, out = Err hs | Refused s _ => s = 400 \/ s = 403 end) \/
  exists s key b, r = Answer 200 s /\ out = Ok s /\ administrator w key /\ body req = Some b /\ confirmed b = true /\
    (forall scope, scope ∈ [LegalHold.runs; LegalHold.user_data] -> ~ LegalHold.held (holds _ _ (gov w)) scope) /\
    data _ _ (gov w') = dir /\ holds _ _ (gov w') = holds _ _ (gov w) /\ keys_file w' = keys_file (snd (legacy_gate req d w)) /\
    (forall f, f ∉ (Privacy.describeErase legacy_options).1 -> dir !! f = data _ _ (gov w) !! f).
Proof.
  intros Hp. pose proof (legacy_gate_spec w) as [Hu Hg]. unfold delete_POST. destruct (legacy_gate req d w) as [[k|[s c]] w1]; cbn [fst snd] in *.
  - destruct (Hg Hp) as (key & -> & Hk). pose proof Hu as [Hgov _]. rewrite <- Hgov.
    destruct (Privacy.eraseAll _ _ _ _) as [out dir] eqn:Ee. destruct (body req) as [b|] eqn:Eb; [|left; split; [done|by left]].
    destruct (confirmed b) eqn:Ec; cbn [negb]; [|left; split; [done|by left]].
    destruct out as [s|hs]; [right|left; split; [done|by exists hs]].
    apply erased_unheld in Ee as [H1 H2]. exists s, key, b. by split_and!.
  - injection Hg as -> ->. destruct (Privacy.eraseAll _ _ _ _) as [out dir]. left. split; [done|by right].
Qed.

(** The two ways agree. On a confirmed request that the console admits, what
    is left of the data is the same whether the older route or the console serves
    it; so is what is left of the registers, and the answer when there is one. *)
Theorem legacy_matches_console w k w1 :
  requireAdmin sha256 hmac_sha1 adminEnv req d plain_gate "POST" w = (Ok k, w1) ->
  body req = Some (JObj [("confirm", JStr "DELETE")]) ->
  let '(r, w') := delete_ w in
  let '(r2, w2) := serve rotation_defaults residency_defaults sha256 hmac_sha1 adminEnv req d PostErase w in
  gov w' = gov w2 /\
  match r2 with Answer _ (Erased s) => r = Answer 200 s | Answer _ (HeldBack _) => r = Raised | _ => False end.
Proof.
  intros Hr Hb. assert (exists k0 w0, legacy_gate req d w = (Ok k0, w0) /\ gov w0 = gov w) as (k0 & w0 & Hl & Hg0).
  { pose proof (legacy_gate_spec w) as [[Hu _] _]. unfold legacy_gate in *. unfold requireAdmin in Hr.
    destruct (authenticated _ _ _ _ 0 w) as [k0 w0]. destruct (production adminEnv); cbn [negb andb fst snd] in *; [|by exists k0, w0].
    destruct k0 as [key|]; [|done]. case_bool_decide; [|done]. by exists (Some key), w0. }
  unfold delete_POST. rewrite Hl, Hb. unfold serve, gated. cbn [method_of]. rewrite Hr. cbn [handle]. unfold erase_POST. rewrite Hb.
  pose proof (requireAdmin_untouched sha256 hmac_sha1 adminEnv req d plain_gate "POST" w) as [Hu _]. rewrite Hr in Hu. cbn [snd] in Hu.
  rewrite Hg0, Hu. change (Governance.erase_options _) with legacy_options. cbn -[Privacy.eraseAll].
  destruct (Privacy.eraseAll _ _ _ _) as [[s|hs] dir]; cbn [gov recordSafe].
  - split; [|done]. rewrite (proj1 (record_again_untouched sha256 adminEnv req d 200 _ _)). cbn. by rewrite ?Hg0, ?Hu.
  - split; [|done]. rewrite (proj1 (record_again_untouched sha256 adminEnv req d 409 _ _)). by rewrite Hg0, Hu.
Qed.
End Proofs.
End Routes.

(** ** An administrator with a second factor *)
Section Demo.
Definition demo_enrolled : MfaGate.world :=
  MfaGate.World (snd (Totp.verifyAndMark Totp.demo_hmac "alice" (Totp.demo_code Totp.demo_step) Totp.demo_now
    (snd (Totp.startEnrollment "alice" "ops" [1; 2; 3; 4; 5; 6; 7; 8; 9; 10] 0 None)))) [].
Definition demo_start : world (LockoutConfig * file AuthLockout.State) (stores demo_rotation demo_residency) :=
  World (write_file [demo_alice]) (DEFAULT_CONFIG, None) demo_enrolled None demo_stores.
Definition demo_delete (secret : string) (w : world (LockoutConfig * file AuthLockout.State) (stores demo_rotation demo_residency)) :=
  delete_POST demo_rotation demo_residency demo_sha (Some "root-secret") (demo_erase secret) (demo_draws 2000) w.

(** The same request, without a code: the console asks for one, the older route
    erases. *)
Lemma legacy_erases_without_second_factor :
  fst (serve demo_rotation demo_residency demo_sha Totp.demo_hmac (Some "root-secret") (demo_erase "sc_live_a") (demo_draws 2000) PostErase demo_start)
    = Refused 401 "mfa_required" /\
  match demo_delete "sc_live_a" demo_start with (Answer 200 s, w) => Privacy.bytes_freed s = 7 /\ data _ _ (gov w) = ∅ | _ => False end.
Proof. vm_compute. done. Qed.

(** With a hold in the way the request ends in an exception. *)
Lemma held_legacy_erasure_raises : fst (demo_delete "sc_live_a" demo_held) = Raised.
Proof. vm_compute. reflexivity. Qed.

Lemma legacy_erasure_guarded_witness :
  fst (demo_delete "nobody" demo_start) = Refused 403 "forbidden" /\ data _ _ (gov (snd (demo_delete "nobody" demo_start))) = data _ _ (gov demo_start).
Proof.
  assert (fst (demo_delete "nobody" demo_start) = Refused 403 "forbidden") as E by (vm_compute; reflexivity). split; [exact E|].
  pose proof (legacy_erasure_guarded demo_rotation demo_residency demo_sha (Some "root-secret") (demo_erase "nobody") (demo_draws 2000) demo_start eq_refl) as H.
  unfold demo_delete in *. destruct (delete_POST _ _ _ _ _ _ _) as [r w']. cbn [fst snd] in *. subst r. destruct (Privacy.eraseAll _ _ _ _) as [out dir].
  destruct H as [[[Hg _] _]|(s & key & b & Hr & _)]; [by rewrite Hg|discriminate Hr].
Defined.

Lemma legacy_matches_console_witness :
  gov (snd (demo_delete "sc_live_a" demo_held)) = gov (snd (demo_serve 2000 (demo_erase "sc_live_a") PostErase demo_held)).
Proof.
  pose (g := requireAdmin demo_sha (fun _ _ => []) (Some "root-secret") (demo_erase "sc_live_a") (demo_draws 2000) plain_gate "POST" demo_held).
  assert (match fst g with Ok _ => True | Err _ => False end) as Hg by (vm_compute; exact I).
  destruct (fst g) as [k|e] eqn:Ek; [|destruct Hg].
  pose proof (legacy_matches_console demo_rotation demo_residency demo_sha (fun _ _ => []) (Some "root-secret") (demo_erase "sc_live_a") (demo_draws 2000) demo_held
    k (snd g)) as H.
  unfold demo_delete, demo_serve. destruct (delete_POST _ _ _ _ _ _ _) as [r w']. destruct (serve _ _ _ _ _ _ _ _ _) as [r2 w2].
  apply H; [rewrite <- Ek; apply surjective_pairing|reflexivity].
Defined.
End Demo.
