(* ===== verification/Links.v ===== *)
(** The links to the views of the pages: [earningsUrl.ts], [portfolioUrl.ts],
    [bracketsUrl.ts], [stopsUrl.ts], [taxUrl.ts], [watchesUrl.ts],
    [correlationUrl.ts] and [diversificationUrl.ts] of [web/lib], and the
    parameters of an export of runs, [runsExportParams.ts]. A view is read from the
    parameters of a link ([URLSearchParams.get]) and written as the parameters that
    differ from the defaults, in the order they are set. The readings of numbers
    and the text of a number are parameters. *)
From S2P Require Import Prelude JsNum JsDate IsoTime Json.
From S2P Require Runs Watchlist.

Abbreviation params := (list (string * string)).

(** The parameters as a page finds them when it opens the link. *)
Definition opened (l : params) : string -> option string := fun k => assoc k l.

(** ** The filter box, which all but two of the views have *)

Definition QUERY_MAX : nat := 64.
Definition query_of (get : string -> option string) : string := str_take QUERY_MAX (trim (default "" (get "q"))).
Definition query_param (query : string) : params := let q := trim query in if truthy q then [("q", str_take QUERY_MAX q)] else [].

Definition ticker_matches (ticker query : string) : bool :=
  let q := to_lower (trim query) in if negb (truthy q) then true else str_includes q (to_lower ticker).

(** ** A choice among the texts of a list, with a default that a link omits *)

Definition choice_of (choices : list string) (fallback : string) (raw : option string) : string :=
  match raw with Some s => if bool_decide (s ∈ choices) then s else fallback | None => fallback end.
Definition choice_param (name fallback value : string) : params := if bool_decide (value = fallback) then [] else [(name, value)].

Definition BRACKET_STATUS_FILTERS : list string := ["all"; "open"; "filled"; "live"; "closed"; "closed_win"; "closed_loss"; "cancelled"].
Definition STOP_KIND_FILTERS : list string := ["all"; "stop_loss"; "take_profit"; "trailing"].
Definition WATCH_STATE_FILTERS : list string := ["all"; "active"; "paused"].
Definition PORTFOLIO_SORT_KEYS : list string := ["ticker"; "qty"; "avg"; "mark"; "mv"; "weight"; "pnl"; "pct"; "realized"].

Record BracketsUrlState := { b_query : string; b_status : string }.
Record StopsUrlState := { s_query : string; s_kind : string }.
Record TaxUrlState := { t_query : string }.
Record WatchesUrlState := { w_query : string; w_state : string }.
Record PortfolioUrlState := { p_sortKey : string; p_sortDir : Z; p_query : string }.

Definition parseBracketsUrlState (get : string -> option string) : BracketsUrlState :=
  {| b_query := query_of get; b_status := choice_of BRACKET_STATUS_FILTERS "all" (get "status") |}.
Definition serializeBracketsUrlState (st : BracketsUrlState) : params := query_param (b_query st) ++ choice_param "status" "all" (b_status st).

Definition parseStopsUrlState (get : string -> option string) : StopsUrlState :=
  {| s_query := query_of get; s_kind := choice_of STOP_KIND_FILTERS "all" (get "kind") |}.
Definition serializeStopsUrlState (st : StopsUrlState) : params := query_param (s_query st) ++ choice_param "kind" "all" (s_kind st).

Definition parseTaxUrlState (get : string -> option string) : TaxUrlState := {| t_query := query_of get |}.
Definition serializeTaxUrlState (st : TaxUrlState) : params := query_param (t_query st).
Definition tickerMatchesTaxQuery : string -> string -> bool := ticker_matches.

Definition parseWatchesUrlState (get : string -> option string) : WatchesUrlState :=
  {| w_query := query_of get; w_state := choice_of WATCH_STATE_FILTERS "all" (get "state") |}.
Definition serializeWatchesUrlState (st : WatchesUrlState) : params := query_param (w_query st) ++ choice_param "state" "all" (w_state st).

Definition parseDir (raw : option string) : Z :=
  match raw with
  | Some s => if bool_decide (s = "asc") || bool_decide (s = "1") then 1 else -1
  | None => -1
  end.

Definition parsePortfolioUrlState (get : string -> option string) : PortfolioUrlState :=
  {| p_sortKey := choice_of PORTFOLIO_SORT_KEYS "mv" (get "sort"); p_sortDir := parseDir (get "dir"); p_query := query_of get |}.
Definition serializePortfolioUrlState (st : PortfolioUrlState) : params :=
  choice_param "sort" "mv" (p_sortKey st) ++
  (if p_sortDir st =? -1 then [] else [("dir", if p_sortDir st =? 1 then "asc" else "desc")]) ++ query_param (p_query st).

(** ** The days of the earnings page *)

Record EarningsUrlState := { e_query : string; e_within : option Z }.

Definition EARNINGS_WITHIN_CHOICES : list (option Z) := [None; Some 7; Some 14; Some 30].

Section Earnings.
Context (parseInt : string -> option Z).

Definition normaliseWithin (raw : option string) : option Z :=
  match raw with
  | None => None
  | Some s => match parseInt s with Some n => if bool_decide (Some n ∈ EARNINGS_WITHIN_CHOICES) then Some n else None | None => None end
  end.

Definition parseEarningsUrlState (get : string -> option string) : EarningsUrlState :=
  {| e_query := query_of get; e_within := normaliseWithin (get "within") |}.
Definition serializeEarningsUrlState (st : EarningsUrlState) : params :=
  query_param (e_query st) ++ match e_within st with Some n => [("within", pretty n)] | None => [] end.
Definition tickerMatchesEarningsQuery : string -> string -> bool := ticker_matches.
End Earnings.

(** ** The window and the threshold of the correlation pages *)

(** The doubles nearest to 0.7, 0.1 and 0.99. *)
Definition p7 : num := Fin (QArith_base.Qmake 3152519739159347 4503599627370496).
Definition p1 : num := Fin (QArith_base.Qmake 3602879701896397 36028797018963968).
Definition p99 : num := Fin (QArith_base.Qmake 4458563631096791 4503599627370496).

Record knobs := { window_default : Z; window_min : Z; window_max : Z; threshold_default : num; threshold_min : num; threshold_max : num }.
Definition CORR : knobs := {| window_default := 60; window_min := 5; window_max := 500; threshold_default := p7; threshold_min := p1; threshold_max := p99 |}.
Definition DIV : knobs := {| window_default := 60; window_min := 10; window_max := 500; threshold_default := p7; threshold_min := int 0; threshold_max := int 1 |}.

Record MatrixUrlState := { m_window : num; m_threshold : num }.

Section Matrix.
Context `{FloatOps} (Number_of_text : string -> num) (text_of_number : num -> string) (k : knobs).

Definition clampWindow (n : num) : num :=
  if negb (is_finite n) then int (window_default k) else
  let i := num_trunc n in
  if num_lt i (int (window_min k)) then int (window_min k) else if num_lt (int (window_max k)) i then int (window_max k) else i.

Definition clampThreshold (n : num) : num :=
  if negb (is_finite n) then threshold_default k
  else if num_lt n (threshold_min k) then threshold_min k else if num_lt (threshold_max k) n then threshold_max k
  else fdiv (Watchlist.math_round (fmul n (int 100))) (int 100).

Definition knob (clamp : num -> num) (fallback : num) (raw : option string) : num :=
  match raw with Some s => if truthy s then clamp (Number_of_text s) else fallback | None => fallback end.

Definition parseMatrixUrlState (get : string -> option string) : MatrixUrlState :=
  {| m_window := knob clampWindow (int (window_default k)) (get "window"); m_threshold := knob clampThreshold (threshold_default k) (get "threshold") |}.

Definition serializeMatrixUrlState (st : MatrixUrlState) : params :=
  let w := clampWindow (m_window st) in
  let t := clampThreshold (m_threshold st) in
  (if bool_decide (w = int (window_default k)) then [] else [("window", text_of_number w)]) ++
  (if bool_decide (t = threshold_default k) then [] else [("threshold", text_of_number t)]).
End Matrix.

(** Each page has its copy of these functions, with its own bounds. *)
Section Pages.
Context `{FloatOps} (Number_of_text : string -> num) (text_of_number : num -> string).
Definition parseCorrelationUrlState : (string -> option string) -> MatrixUrlState := parseMatrixUrlState Number_of_text CORR.
Definition serializeCorrelationUrlState : MatrixUrlState -> params := serializeMatrixUrlState text_of_number CORR.
Definition parseDiversificationUrlState : (string -> option string) -> MatrixUrlState := parseMatrixUrlState Number_of_text DIV.
Definition serializeDiversificationUrlState : MatrixUrlState -> params := serializeMatrixUrlState text_of_number DIV.
End Pages.

(** ** The parameters of an export of runs *)

Inductive ExportFormat := csv | as_json | md.

Section ExportParams.
Context `{FloatOps} (parseInt : string -> option Z) (parseFloat : string -> num).

Definition parseExportFormat (raw : option string) : option ExportFormat :=
  let f := to_lower (default "csv" raw) in
  assoc f [("csv", csv); ("json", as_json); ("md", md); ("markdown", md)].

Definition EXPORT_MAX_LIMIT : Z := 200.
Definition EXPORT_DEFAULT_LIMIT : Z := 200.

(** The default is read from its own text. *)
Definition parseExportLimit (raw : option string) : Z :=
  let n := match raw with Some s => parseInt s | None => Some EXPORT_DEFAULT_LIMIT end in
  let v := match n with Some n => if 0 <? n then n else EXPORT_DEFAULT_LIMIT | None => EXPORT_DEFAULT_LIMIT end in
  Z.min (Z.max v 1) EXPORT_MAX_LIMIT.

Definition parseMinConfidence (raw : option string) : option num :=
  match raw with
  | None => None
  | Some raw =>
      let s := trim raw in
      if negb (truthy s) then None else
      let pct := ends_with_char "%"%char s in
      let n := parseFloat (if pct then drop_last s else s) in
      if negb (is_finite n) then None else
      let frac := if pct || num_lt (int 1) n then fdiv n (int 100) else n in
      if negb (is_finite frac) || num_lt frac (int 0) || num_lt (int 1) frac then None else Some frac
  end.
Definition parseMaxConfidence : option string -> option num := parseMinConfidence.

Definition parseMinBars (raw : option string) : option num :=
  match raw with
  | None => None
  | Some raw =>
      let s := trim raw in
      if negb (truthy s) then None else
      let n := parseFloat s in
      if negb (is_finite n) || num_lt n (int 0) then None else Some (num_floor n)
  end.
Definition parseMaxBars : option string -> option num := parseMinBars.

Definition nonempty (s : string) : option string := if truthy s then Some s else None.

Definition sort_of (raw : string) : Runs.SortOrder :=
  default Runs.recent (assoc raw [("oldest", Runs.oldest); ("ticker", Runs.by_ticker); ("confidence", Runs.by_confidence); ("bars", Runs.by_bars)]).

Definition parseExportQuery (get : string -> option string) : Runs.QueryOpts :=
  {| Runs.q := Some (default "" (get "q")); Runs.o_regime := Some (default "" (get "regime")); Runs.o_ticker := Some (default "" (get "ticker"));
     Runs.o_tag := Some (default "" (get "tag"));
     Runs.o_pinned := match get "pinned" with Some s => bool_decide (s = "1") || bool_decide (s = "true") | None => false end;
     Runs.since := nonempty (trim (default "" (get "since"))); Runs.until := nonempty (trim (default "" (get "until")));
     Runs.minConfidence := parseMinConfidence (get "min_confidence"); Runs.maxConfidence := parseMaxConfidence (get "max_confidence");
     Runs.minBars := parseMinBars (get "min_bars"); Runs.maxBars := parseMaxBars (get "max_bars");
     Runs.sort := Some (sort_of (to_lower (default "" (get "sort")))); Runs.limit := Some (parseExportLimit (get "limit")); Runs.offset := Some 0;
     Runs.ownerFilter := None |}.

Definition extension (f : ExportFormat) : string := match f with as_json => "json" | md => "md" | csv => "csv" end.
Definition contentType (f : ExportFormat) : string :=
  match f with as_json => "application/json; charset=utf-8" | md => "text/markdown; charset=utf-8" | csv => "text/csv; charset=utf-8" end.

(** [new Date().toISOString().slice(0, 19).replace(/[:T]/g, "-")]. *)
Definition stamp (now : Z) : string :=
  str_map (fun c => if Ascii.eqb c ":"%char || Ascii.eqb c "T"%char then "-"%char else c) (str_take 19 (toISOString now)).

Definition quote_char : string := String (chr 34) "".

Definition exportHeaders (total exported : Z) (f : ExportFormat) (now : Z) : params :=
  [("x-total-count", pretty total); ("x-exported-count", pretty exported); ("x-truncated", if exported <? total then "1" else "0");
   ("content-type", contentType f);
   ("content-disposition", "attachment; filename=" +:+ quote_char +:+ "signalclaw-runs-" +:+ stamp now +:+ "." +:+ extension f +:+ quote_char)].
End ExportParams.

(** * What a link promises *)

(** A view is written to a link and read back. [normal] is what comes of a view
    on the way. *)
Class Link (S : Type) := {
  read_link : (string -> option string) -> S;
  write_link : S -> params;
  normal : S -> S;
  shown : S -> Prop;
  link_reads s : read_link (opened (write_link s)) = normal s;
  link_shown s : shown s -> normal s = s;
  link_settles get : shown (normal (read_link get)) }.

(** A view that a page shows comes back from its link as it is; whatever a link
    says, once the view it shows is shared again the link shows the same for good. *)
Lemma link_contract {S} `{Link S} :
  (forall s, shown s -> read_link (opened (write_link s)) = s) /\
  (forall get, let s := read_link (opened (write_link (read_link get))) in shown s /\ read_link (opened (write_link s)) = s).
Proof.
  split; [intros s Hs; by rewrite link_reads, link_shown|]. intros get. cbv zeta. rewrite (link_reads (read_link get)). split; [apply link_settles|].
  by rewrite link_reads, link_shown by apply link_settles.
Qed.

(** ** The filter box *)

Lemma trim_start_length s : (String.length (trim_start s) <= String.length s)%nat.
Proof. induction s as [|c s IH]; [done|]. simpl. destruct (is_space c); simpl in *; lia. Qed.

Lemma trim_end_length s : (String.length (trim_end s) <= String.length s)%nat.
Proof. induction s as [|c s IH]; [done|]. simpl. case_match; simpl in *; lia. Qed.

Lemma trim_length s : (String.length (trim s) <= String.length s)%nat.
Proof. unfold trim. pose proof (trim_end_length (trim_start s)). pose proof (trim_start_length s). lia. Qed.

(** What the box shows: no blanks around, at most 64 characters. *)
Definition query_shown (q : string) : Prop := trim q = q /\ (String.length q <= QUERY_MAX)%nat.
Definition query_normal (q : string) : string := trim (str_take QUERY_MAX (trim q)).

Lemma query_normal_shown q : query_shown (query_normal q).
Proof.
  unfold query_shown, query_normal. split; [apply trim_idempotent|]. pose proof (trim_length (str_take QUERY_MAX (trim q))). pose proof (str_take_length QUERY_MAX (trim q)). lia.
Qed.

Lemma query_shown_normal q : query_shown q -> query_normal q = q.
Proof. intros [Ht Hl]. unfold query_normal. by rewrite Ht, str_take_all. Qed.

Lemma query_reads q get : get "q" = assoc "q" (query_param q) -> query_of get = query_normal q.
Proof.
  unfold query_of, query_param, query_normal. intros ->. destruct (truthy (trim q)) eqn:Et.
  - set (x := str_take QUERY_MAX (trim q)). change (default "" (assoc "q" [("q", x)])) with x.
    pose proof (trim_length x). pose proof (str_take_length QUERY_MAX (trim q)). apply str_take_all. unfold x in *. lia.
  - apply truthy_false in Et as ->. done.
Qed.

Definition choice_normal (choices : list string) (fallback value : string) : string := choice_of choices fallback (Some value).

Lemma choice_reads choices fallback name value get :
  fallback ∈ choices -> get name = assoc name (choice_param name fallback value) ->
  choice_of choices fallback (get name) = choice_normal choices fallback value.
Proof.
  intros Hf ->. unfold choice_normal, choice_of, choice_param. case_bool_decide as E; [subst; cbn; by rewrite bool_decide_eq_true_2|].
  cbn [assoc]. by rewrite String.eqb_refl.
Qed.

Lemma choice_shown choices fallback value : value ∈ choices -> choice_normal choices fallback value = value.
Proof. intros Hv. unfold choice_normal, choice_of. by rewrite bool_decide_eq_true_2. Qed.

Lemma choice_of_elem choices fallback raw : fallback ∈ choices -> choice_of choices fallback raw ∈ choices.
Proof. intros Hf. unfold choice_of. destruct raw; [|done]. by case_bool_decide. Qed.

Lemma assoc_app k (a b : params) : assoc k (a ++ b) = match assoc k a with Some v => Some v | None => assoc k b end.
Proof. induction a as [|[k' v] a IH]; [done|]. cbn. by destruct (String.eqb k k'). Qed.

Lemma choice_param_other k name fallback value : k <> name -> assoc k (choice_param name fallback value) = None.
Proof. intros Hk. unfold choice_param. case_bool_decide; [done|]. cbn. by rewrite (proj2 (String.eqb_neq _ _) Hk). Qed.

Lemma query_param_other k q : k <> "q" -> assoc k (query_param q) = None.
Proof. intros Hk. unfold query_param. cbv zeta. destruct (truthy _); [|done]. cbn. by rewrite (proj2 (String.eqb_neq _ _) Hk). Qed.

Lemma assoc_query_first q l : assoc "q" l = None -> assoc "q" (query_param q ++ l) = assoc "q" (query_param q).
Proof. intros Hl. rewrite assoc_app, Hl. by destruct (assoc "q" (query_param q)). Qed.

Lemma assoc_query_skip k q l : k <> "q" -> assoc k (query_param q ++ l) = assoc k l.
Proof. intros Hk. by rewrite assoc_app, query_param_other. Qed.

(** ** The views with a filter box and a choice *)

#[export] Program Instance brackets_link : Link BracketsUrlState := {
  read_link := parseBracketsUrlState; write_link := serializeBracketsUrlState;
  normal st := {| b_query := query_normal (b_query st); b_status := choice_normal BRACKET_STATUS_FILTERS "all" (b_status st) |};
  shown st := query_shown (b_query st) /\ b_status st ∈ BRACKET_STATUS_FILTERS }.
Next Obligation.
  intros [q s]. unfold parseBracketsUrlState, serializeBracketsUrlState, opened. cbn [b_query b_status]. f_equal.
  - apply query_reads. apply assoc_query_first. by apply choice_param_other.
  - apply (choice_reads BRACKET_STATUS_FILTERS "all" "status" s (fun k => assoc k _)); [by left|]. by apply assoc_query_skip.
Qed.
Next Obligation. intros [q s]. cbn [b_query b_status]. intros [Hq Hs]. by rewrite query_shown_normal, choice_shown. Qed.
Next Obligation. intros get. cbn [b_query b_status]. split; [apply query_normal_shown|]. by apply choice_of_elem; left. Qed.

#[export] Program Instance stops_link : Link StopsUrlState := {
  read_link := parseStopsUrlState; write_link := serializeStopsUrlState;
  normal st := {| s_query := query_normal (s_query st); s_kind := choice_normal STOP_KIND_FILTERS "all" (s_kind st) |};
  shown st := query_shown (s_query st) /\ s_kind st ∈ STOP_KIND_FILTERS }.
Next Obligation.
  intros [q s]. unfold parseStopsUrlState, serializeStopsUrlState, opened. cbn [s_query s_kind]. f_equal.
  - apply query_reads. apply assoc_query_first. by apply choice_param_other.
  - apply (choice_reads STOP_KIND_FILTERS "all" "kind" s (fun k => assoc k _)); [by left|]. by apply assoc_query_skip.
Qed.
Next Obligation. intros [q s]. cbn [s_query s_kind]. intros [Hq Hs]. by rewrite query_shown_normal, choice_shown. Qed.
Next Obligation. intros get. cbn [s_query s_kind]. split; [apply query_normal_shown|]. by apply choice_of_elem; left. Qed.

#[export] Program Instance watches_link : Link WatchesUrlState := {
  read_link := parseWatchesUrlState; write_link := serializeWatchesUrlState;
  normal st := {| w_query := query_normal (w_query st); w_state := choice_normal WATCH_STATE_FILTERS "all" (w_state st) |};
  shown st := query_shown (w_query st) /\ w_state st ∈ WATCH_STATE_FILTERS }.
Next Obligation.
  intros [q s]. unfold parseWatchesUrlState, serializeWatchesUrlState, opened. cbn [w_query w_state]. f_equal.
  - apply query_reads. apply assoc_query_first. by apply choice_param_other.
  - apply (choice_reads WATCH_STATE_FILTERS "all" "state" s (fun k => assoc k _)); [by left|]. by apply assoc_query_skip.
Qed.
Next Obligation. intros [q s]. cbn [w_query w_state]. intros [Hq Hs]. by rewrite query_shown_normal, choice_shown. Qed.
Next Obligation. intros get. cbn [w_query w_state]. split; [apply query_normal_shown|]. by apply choice_of_elem; left. Qed.

#[export] Program Instance tax_link : Link TaxUrlState := {
  read_link := parseTaxUrlState; write_link := serializeTaxUrlState;
  normal st := {| t_query := query_normal (t_query st) |}; shown st := query_shown (t_query st) }.
Next Obligation. intros [q]. unfold parseTaxUrlState. f_equal. by apply query_reads. Qed.
Next Obligation. intros [q]. cbn [t_query]. intros Hq. by rewrite query_shown_normal. Qed.
Next Obligation. intros get. apply query_normal_shown. Qed.

(** The direction is written when it is not the default, descending. *)
Definition dir_normal (d : Z) : Z := if d =? 1 then 1 else -1.

Definition dir_param (d : Z) : params := if d =? -1 then [] else [("dir", if d =? 1 then "asc" else "desc")].

Lemma dir_reads d get : get "dir" = assoc "dir" (dir_param d) -> parseDir (get "dir") = dir_normal d.
Proof. intros ->. unfold dir_param, dir_normal, parseDir. destruct (Z.eqb_spec d (-1)) as [->|Hd]; [done|]. by destruct (d =? 1). Qed.

#[export] Program Instance portfolio_link : Link PortfolioUrlState := {
  read_link := parsePortfolioUrlState; write_link := serializePortfolioUrlState;
  normal st := {| p_sortKey := choice_normal PORTFOLIO_SORT_KEYS "mv" (p_sortKey st); p_sortDir := dir_normal (p_sortDir st); p_query := query_normal (p_query st) |};
  shown st := p_sortKey st ∈ PORTFOLIO_SORT_KEYS /\ (p_sortDir st = 1 \/ p_sortDir st = -1) /\ query_shown (p_query st) }.
Next Obligation.
  intros [k d q]. unfold parsePortfolioUrlState, serializePortfolioUrlState, opened. cbn [p_sortKey p_sortDir p_query]. fold (dir_param d).
  assert (forall n, n <> "dir" -> assoc n (dir_param d) = None) as Hdir.
  { intros n Hn. unfold dir_param. destruct (d =? -1); [done|]. cbn. by rewrite (proj2 (String.eqb_neq _ _) Hn). }
  f_equal.
  - apply (choice_reads PORTFOLIO_SORT_KEYS "mv" "sort" k (fun k => assoc k _)); [by apply (bool_decide_unpack _); vm_compute|].
    rewrite !assoc_app, Hdir, query_param_other by done. by destruct (assoc "sort" _).
  - apply (dir_reads d (fun k => assoc k _)). rewrite assoc_app, choice_param_other, assoc_app, query_param_other by done. by destruct (assoc "dir" _).
  - apply query_reads. by rewrite assoc_app, choice_param_other, assoc_app, Hdir by done.
Qed.
Next Obligation.
  intros [k d q]. cbn [p_sortKey p_sortDir p_query]. intros (Hk & Hd & Hq). rewrite query_shown_normal, choice_shown by done. f_equal.
  by destruct Hd as [->| ->].
Qed.
Next Obligation.
  intros get. cbn [p_sortKey p_sortDir p_query]. split_and!; [|unfold dir_normal; case_match; first [by left|by right]|apply query_normal_shown].
  apply choice_of_elem. by apply (bool_decide_unpack _); vm_compute.
Qed.

Section EarningsLink.
Context (parseInt : string -> option Z).

(** The decimal text of the windows on offer is read as the number. *)
Definition reads_windows : Prop := forall n, Some n ∈ EARNINGS_WITHIN_CHOICES -> parseInt (pretty n) = Some n.

Definition within_normal (o : option Z) : option Z := match o with Some n => normaliseWithin parseInt (Some (pretty n)) | None => None end.

Lemma within_elem raw : normaliseWithin parseInt raw ∈ EARNINGS_WITHIN_CHOICES.
Proof. unfold normaliseWithin. destruct raw; [|by left]. destruct (parseInt _); [|by left]. case_bool_decide; [done|by left]. Qed.

Lemma within_elem_normal o : reads_windows -> within_normal o ∈ EARNINGS_WITHIN_CHOICES.
Proof. intros _. destruct o; [apply within_elem|by left]. Qed.

Lemma within_shown o : reads_windows -> o ∈ EARNINGS_WITHIN_CHOICES -> within_normal o = o.
Proof. intros Hr Ho. destruct o as [n|]; [|done]. cbn. by rewrite Hr, bool_decide_eq_true_2. Qed.

Definition earnings_link (Hr : reads_windows) : Link EarningsUrlState.
Proof.
  refine {| read_link := parseEarningsUrlState parseInt; write_link := serializeEarningsUrlState;
    normal st := {| e_query := query_normal (e_query st); e_within := within_normal (e_within st) |};
    shown st := query_shown (e_query st) /\ e_within st ∈ EARNINGS_WITHIN_CHOICES |}.
  - intros [q w]. unfold parseEarningsUrlState, serializeEarningsUrlState, opened. cbn [e_query e_within]. f_equal.
    + apply query_reads, assoc_query_first. by destruct w.
    + rewrite assoc_query_skip by done. by destruct w.
  - intros [q w]. cbn [e_query e_within]. intros [Hq Hw]. by rewrite query_shown_normal, within_shown.
  - intros get. cbn [e_query e_within]. split; [apply query_normal_shown|by apply within_elem_normal].
Defined.
End EarningsLink.

(** What is promised of the links of a view. *)
Definition reads_back (S : Type) `{Link S} : Prop :=
  (forall s, shown s -> read_link (opened (write_link s)) = s) /\
  (forall get, let s := read_link (opened (write_link (read_link get))) in shown s /\ read_link (opened (write_link s)) = s).

(** Links show the view they were made from. For each of the pages with a
    filter box: a view with a trimmed filter of at most 64 characters and choices
    that are on offer comes back from its link as it is; and whatever is in a
    link, the view it opens, shared again, gives a link that shows such a view
    and the same one for ever after. *)
Theorem links_read_back parseInt (Hr : reads_windows parseInt) :
  reads_back BracketsUrlState /\ reads_back StopsUrlState /\ reads_back WatchesUrlState /\ reads_back TaxUrlState /\ reads_back PortfolioUrlState /\
  @reads_back EarningsUrlState (earnings_link parseInt Hr).
Proof. split_and!; apply link_contract. Qed.

(** A filter that is cut right after a blank keeps it, so the first sharing of
    such a link still changes it. *)
Lemma cut_filter_changes_once :
  let get := opened [("q", String.concat "" (replicate 63 "A") +:+ " tail")] in
  String.length (t_query (parseTaxUrlState get)) = 64%nat /\
  String.length (t_query (parseTaxUrlState (opened (serializeTaxUrlState (parseTaxUrlState get))))) = 63%nat.
Proof. vm_compute. done. Qed.

(** ** The correlation pages *)

Section MatrixLink.
Context `{FloatOps} (Number_of_text : string -> num) (text_of_number : num -> string) (k : knobs).
Context (Hpage : k = CORR \/ k = DIV).
(** [Number(String(x))] is [x], and no number has an empty text. *)
Context (Hread : forall n, Number_of_text (text_of_number n) = n) (Htext : forall n, text_of_number n <> "").
Abbreviation parse_ := (parseMatrixUrlState Number_of_text k).
Abbreviation serialize_ := (serializeMatrixUrlState text_of_number k).

Lemma clampWindow_int n : exists w, clampWindow k n = int w /\ window_min k <= w <= window_max k.
Proof using Hpage.
  assert (window_min k <= window_default k <= window_max k) as Hd by (destruct Hpage as [->| ->]; cbn; lia).
  unfold clampWindow. destruct n as [|b|q]; cbn [is_finite negb]; try (exists (window_default k); split; [done|lia]).
  assert (exists z, num_trunc (Fin q) = int z) as (z & Hz) by (cbn; case_match; by eexists). rewrite Hz, !num_lt_int.
  destruct (Z.ltb_spec z (window_min k)); [by exists (window_min k); split; [|lia]|].
  destruct (Z.ltb_spec (window_max k) z); [by exists (window_max k); split; [|lia]|by exists z].
Qed.

Lemma clampWindow_twice n : clampWindow k (clampWindow k n) = clampWindow k n.
Proof using Hpage.
  destruct (clampWindow_int n) as (w & -> & Hw). unfold clampWindow. cbn [is_finite int negb]. rewrite num_trunc_int, !num_lt_int.
  destruct (Z.ltb_spec w (window_min k)); [lia|]. by destruct (Z.ltb_spec (window_max k) w); [lia|].
Qed.

Definition knob_param (name : string) (fallback v : num) : params := if bool_decide (v = fallback) then [] else [(name, text_of_number v)].

Lemma knob_reads clamp fallback name v get :
  get name = assoc name (knob_param name fallback v) -> knob Number_of_text clamp fallback (get name) = if bool_decide (v = fallback) then v else clamp v.
Proof using Hread Htext.
  intros ->. unfold knob, knob_param. case_bool_decide as E; [done|]. cbn [assoc]. rewrite String.eqb_refl.
  by rewrite (proj2 (truthy_spec _) (Htext v)), Hread.
Qed.
End MatrixLink.

(** The links of the correlation and the diversification page. Whatever the
    state, the link shows the window that the state is clamped to, a whole number
    of bars within the bounds of the page, and the threshold it is clamped to,
    clamped once more unless it is the default. *)
Theorem matrix_link_reads `{FloatOps} Number_of_text text_of_number k st :
  k = CORR \/ k = DIV -> (forall n, Number_of_text (text_of_number n) = n) -> (forall n, text_of_number n <> "") ->
  parseMatrixUrlState Number_of_text k (opened (serializeMatrixUrlState text_of_number k st)) =
    {| m_window := clampWindow k (m_window st);
       m_threshold := let t := clampThreshold k (m_threshold st) in if bool_decide (t = threshold_default k) then t else clampThreshold k t |} /\
  exists w, clampWindow k (m_window st) = int w /\ window_min k <= w <= window_max k.
Proof.
  intros Hp Hread Htext. split; [|by apply clampWindow_int]. unfold parseMatrixUrlState, serializeMatrixUrlState, opened. cbv zeta.
  fold (knob_param text_of_number "window" (int (window_default k)) (clampWindow k (m_window st))).
  fold (knob_param text_of_number "threshold" (threshold_default k) (clampThreshold k (m_threshold st))).
  assert (forall a b f v, a <> b -> assoc a (knob_param text_of_number b f v) = None) as Ho.
  { intros a b f v Hn. unfold knob_param. case_bool_decide; [done|]. cbn. by rewrite (proj2 (String.eqb_neq _ _) Hn). }
  f_equal.
  - rewrite (knob_reads Number_of_text text_of_number Hread Htext (clampWindow k) _ "window" (clampWindow k (m_window st)) (fun n => assoc n _)).
    + rewrite clampWindow_twice by done. by case_bool_decide.
    + rewrite assoc_app, (Ho "window" "threshold") by done. by destruct (assoc "window" _).
  - rewrite (knob_reads Number_of_text text_of_number Hread Htext (clampThreshold k) _ "threshold" (clampThreshold k (m_threshold st)) (fun n => assoc n _)).
    + done.
    + by rewrite assoc_app, (Ho "threshold" "window").
Qed.

(** ** The export of runs *)

Lemma parseMinConfidence_bounds `{FloatOps} parseFloat raw c :
  parseMinConfidence parseFloat raw = Some c -> is_finite c = true /\ num_lt c (int 0) = false /\ num_lt (int 1) c = false.
Proof.
  unfold parseMinConfidence. destruct raw as [raw|]; [|done]. destruct (negb (truthy _)); [done|]. cbv zeta.
  destruct (negb (is_finite (parseFloat _))); [done|]. destruct (negb (is_finite _) || _ || _) eqn:E; [done|].
  intros [= <-]. apply orb_false_iff in E as [[E1 E2]%orb_false_iff E3]. by apply negb_false_iff in E1.
Qed.

Lemma parseMinBars_bounds parseFloat raw n : parseMinBars parseFloat raw = Some n -> exists z, n = int z /\ 0 <= z.
Proof.
  unfold parseMinBars. destruct raw as [raw|]; [|done]. destruct (negb (truthy _)); [done|]. cbv zeta.
  destruct (parseFloat _) as [|b|q]; cbn [is_finite negb orb]; try done. destruct (num_lt (Fin q) (int 0)) eqn:E; [done|]. intros [= <-].
  exists (Qround.Qfloor q). split; [done|]. by apply floor_ge_bound in E.
Qed.

(** Whatever the parameters of an export: it asks for 1 to 200 runs from the
    first, its confidence bounds are finite and between 0 and 1, its bounds on
    bars are whole numbers, not negative, and its dates are not empty; without
    parameters it asks for 200 runs, newest first, and nothing is filtered. *)
Theorem export_query_bounded `{FloatOps} parseInt parseFloat get :
  let o := parseExportQuery parseInt parseFloat get in
  (exists n, Runs.limit o = Some n /\ 1 <= n <= 200) /\ Runs.offset o = Some 0 /\
  (forall c, Runs.minConfidence o = Some c \/ Runs.maxConfidence o = Some c -> is_finite c = true /\ num_lt c (int 0) = false /\ num_lt (int 1) c = false) /\
  (forall n, Runs.minBars o = Some n \/ Runs.maxBars o = Some n -> exists z, n = int z /\ 0 <= z) /\
  (forall d, Runs.since o = Some d \/ Runs.until o = Some d -> d <> "") /\
  parseExportQuery parseInt parseFloat (opened []) =
    {| Runs.q := Some ""; Runs.o_regime := Some ""; Runs.o_ticker := Some ""; Runs.o_tag := Some ""; Runs.o_pinned := false; Runs.since := None; Runs.until := None;
       Runs.minConfidence := None; Runs.maxConfidence := None; Runs.minBars := None; Runs.maxBars := None; Runs.limit := Some 200; Runs.offset := Some 0;
       Runs.sort := Some Runs.recent; Runs.ownerFilter := None |}.
Proof.
  cbn -[parseMinConfidence parseMinBars parseExportLimit nonempty trim]. split_and!.
  - eexists. split; [done|]. unfold parseExportLimit, EXPORT_MAX_LIMIT. lia.
  - done.
  - intros c [Hc|Hc]; by eapply parseMinConfidence_bounds.
  - intros n [Hn|Hn]; by eapply parseMinBars_bounds.
  - intros d Hd. unfold nonempty in Hd. destruct Hd as [Hd|Hd]; (destruct (truthy _) eqn:Et; [|done]); injection Hd as <-; by apply truthy_spec.
  - done.
Qed.

Section Demo.
Definition demo_parseInt (s : string) : option Z := assoc s [("7", 7); ("14", 14); ("30", 30)].

Lemma demo_windows : reads_windows demo_parseInt.
Proof. intros n Hn. unfold EARNINGS_WITHIN_CHOICES in Hn. rewrite !elem_of_cons, elem_of_nil in Hn. destruct_or! Hn; try done; by injection Hn as ->. Qed.

Definition demo_view : BracketsUrlState := {| b_query := "aapl"; b_status := "live" |}.

Lemma links_read_back_witness :
  serializeBracketsUrlState demo_view = [("q", "aapl"); ("status", "live")] /\ parseBracketsUrlState (opened [("q", "aapl"); ("status", "live")]) = demo_view.
Proof.
  split; [reflexivity|]. destruct (links_read_back demo_parseInt demo_windows) as ((Hb & _) & _). apply (Hb demo_view).
  split; [split; [reflexivity|unfold QUERY_MAX; cbn; lia]|]. apply (bool_decide_unpack _). vm_compute. exact I.
Defined.

#[local] Instance demo_arith : FloatOps := {| fadd a _ := a; fsub a _ := a; fmul a _ := a; fdiv a _ := a; toFixed _ a := a |}.

(** A printer of numbers with its reader. *)
Fixpoint demo_bits (p : positive) : string := match p with xH => "e" | xO p => String "o"%char (demo_bits p) | xI p => String "i"%char (demo_bits p) end.
Fixpoint demo_unbits (s : string) : positive :=
  match s with "" => xH | String c r => if Ascii.eqb c "e"%char then xH else if Ascii.eqb c "o"%char then xO (demo_unbits r) else xI (demo_unbits r) end.

Definition demo_text (n : num) : string :=
  match n with
  | NaN => "n" | Infinity b => if b then "p" else "m"
  | Fin (QArith_base.Qmake a b) => String "f"%char (demo_bits (countable.encode (a, b)))
  end.
Definition demo_number (s : string) : num :=
  match s with
  | String "p"%char _ => Infinity true | String "m"%char _ => Infinity false
  | String "f"%char r => match countable.decode (demo_unbits r) with Some (a, b) => Fin (QArith_base.Qmake a b) | None => NaN end
  | _ => NaN
  end.

Lemma demo_bits_read p : demo_unbits (demo_bits p) = p.
Proof. induction p as [p IH|p IH|]; simpl; by rewrite ?IH. Qed.

Lemma demo_text_read n : demo_number (demo_text n) = n.
Proof. destruct n as [|[]|[a b]]; try done. cbn -[countable.decode countable.encode]. by rewrite demo_bits_read, countable.decode_encode. Qed.

(** A window and a threshold out of bounds. *)
Lemma matrix_link_reads_witness :
  m_window (parseMatrixUrlState demo_number CORR (opened (serializeMatrixUrlState demo_text CORR {| m_window := int 900; m_threshold := int 2 |}))) = int 500.
Proof.
  destruct (matrix_link_reads demo_number demo_text CORR {| m_window := int 900; m_threshold := int 2 |} (or_introl eq_refl) demo_text_read) as [E _].
  - intros [|[]|[a b]]; discriminate.
  - rewrite E. reflexivity.
Defined.
End Demo.
