(* ===== verification/Reports.v ===== *)
(** The comparison of two saved runs ([web/lib/compare.ts] and the routes
    [web/app/api/runs/compare] and [compare/export]) and the exports that are
    reports with a summary: [usageExport.ts], [executionExport.ts],
    [portfolioExport.ts], [correlationExport.ts], [diversificationExport.ts] and
    [rotationExport.ts]. The texts of a number, [String(x)] and [x.toFixed(n)],
    are parameters, and so is rounded arithmetic. *)
From S2P Require Import Prelude JsNum JsDate IsoTime Json Store Csv.
From S2P Require Runs Exports Links.
#[local] Existing Instance Runs.runs_persisted.

Section Reports.
Context `{FloatOps} (num_str : num -> string) (fixed : nat -> num -> string).

(** Nothing for a missing or infinite number. *)
Abbreviation num_cell := (Exports.num_or_empty num_str).
Definition fixed_cell (digits : nat) (n : option num) : string :=
  match n with Some n => if is_finite n then fixed digits n else "" | None => "" end.

(** ** Comparing two runs *)

Definition REGIME_ORDER : list string := ["bull"; "chop"; "bear"; "crash"].

(** [o[k] || 0]. *)
Definition or_zero (n : option num) : num :=
  match n with Some (Fin q) => Fin q | Some (Infinity b) => Infinity b | _ => int 0 end.

Record RegimeMix := { total : num; mix : list (string * num) }.

Definition regimeMix (counts : list (string * num)) : RegimeMix :=
  let total := fold_left (fun t k => fadd t (or_zero (assoc k counts))) REGIME_ORDER (int 0) in
  {| total := total; mix := (fun k => (k, if num_lt (int 0) total then fdiv (or_zero (assoc k counts)) total else int 0)) <$> REGIME_ORDER |}.

Definition pctChange (close : list num) : option num :=
  if len close <? 2 then None else
  match head close, last close with
  | Some a, Some b => if negb (is_finite a) || negb (is_finite b) || (num_le a (int 0) && num_le (int 0) a) then None else Some (fdiv (fsub b a) a)
  | _, _ => None
  end.

Definition mixDiff (a b : list (string * num)) : list (string * num) :=
  (fun k => (k, fsub (or_zero (assoc k b)) (or_zero (assoc k a)))) <$> REGIME_ORDER.

Definition id_char (c : Ascii.ascii) : bool :=
  let n := code c in
  ((65 <=? n) && (n <=? 90)) || ((97 <=? n) && (n <=? 122)) || ((48 <=? n) && (n <=? 57)) || Ascii.eqb c "_"%char || Ascii.eqb c "-"%char.

(** [/^[A-Za-z0-9_-]{6,64}$/]. *)
Definition isValidRunId (s : string) : bool := (6 <=? str_len s) && (str_len s <=? 64) && str_forall id_char s.

Definition valid_id (raw : option string) : option string := match raw with Some s => if isValidRunId s then Some s else None | None => None end.

Definition parseCompareParams (get : string -> option string) : option string * option string :=
  let a := valid_id (get "a") in
  let b := valid_id (get "b") in
  (a, match a, b with Some x, Some y => if String.eqb x y then None else b | _, _ => b end).

Record CompareSummarySide := { bars : Z; s_mix : list (string * num); s_regime : option string; s_confidence : option num; pct_change : option num }.
Record CompareSummary := { s_a : CompareSummarySide; s_b : CompareSummarySide; mix_diff : list (string * num) }.
Record MetaSide := { m_id : string; m_label : string; m_ticker : string; m_lookback : num; m_created : string }.
Record CompareMeta := { meta_a : MetaSide; meta_b : MetaSide }.

(** [String(n)] of a finite number, and nothing otherwise. *)
Definition delta (a b : option num) : string := match a, b with Some a, Some b => num_str (fsub b a) | _, _ => "" end.
Definition at_regime (m : list (string * num)) (k : string) : num := default (int 0) (assoc k m).

Definition meta_cells (name : string) (m : MetaSide) : list string :=
  ["# " +:+ name; csvCell (m_id m); csvCell (m_ticker m); csvCell (m_label m); csvCell (num_str (m_lookback m)) +:+ "d"; csvCell (m_created m)].

Definition metric_rows (s : CompareSummary) : list (list string) :=
  [["bars"; num_str (int (bars (s_a s))); num_str (int (bars (s_b s))); num_str (int (bars (s_b s) - bars (s_a s)))];
   ["regime"; default "" (s_regime (s_a s)); default "" (s_regime (s_b s)); ""];
   ["confidence"; num_cell (s_confidence (s_a s)); num_cell (s_confidence (s_b s)); delta (s_confidence (s_a s)) (s_confidence (s_b s))];
   ["pct_change"; num_cell (pct_change (s_a s)); num_cell (pct_change (s_b s)); delta (pct_change (s_a s)) (pct_change (s_b s))]] ++
  ((fun k => ["mix_" +:+ k; num_str (at_regime (s_mix (s_a s)) k); num_str (at_regime (s_mix (s_b s)) k); num_str (at_regime (mix_diff s) k)])
     <$> REGIME_ORDER).

Definition compareToCSV (meta : CompareMeta) (s : CompareSummary) : string :=
  document (["# signalclaw compare export"; line (meta_cells "A" (meta_a meta)); line (meta_cells "B" (meta_b meta)); line ["metric"; "a"; "b"; "delta"]] ++
    ((fun cells => line (csvCell <$> cells)) <$> metric_rows s)).

(** [s.replace(/[^A-Za-z0-9._-]/g, "_")]. *)
Definition name_char (c : Ascii.ascii) : bool := id_char c || Ascii.eqb c "."%char.
Definition safe (s : string) : string := str_map (fun c => if name_char c then c else "_"%char) s.

Inductive CompareFormat := as_csv | as_json | as_md.
Definition format_text (f : CompareFormat) : string := match f with as_csv => "csv" | as_json => "json" | as_md => "md" end.

Definition compareExportFilename (meta : CompareMeta) (f : CompareFormat) : string :=
  "signalclaw-compare-" +:+ safe (m_ticker (meta_a meta)) +:+ "-vs-" +:+ safe (m_ticker (meta_b meta)) +:+ "-" +:+ safe (m_id (meta_a meta)) +:+ "-" +:+
  safe (m_id (meta_b meta)) +:+ "." +:+ format_text f.

Definition sign_of (n : num) : string := if num_lt (int 0) n then "+" else "".
Definition fmtPct (n : option num) : string :=
  match n with Some n => if is_finite n then sign_of n +:+ fixed 2 (fmul n (int 100)) +:+ "%" else "--" | None => "--" end.
Definition fmtDeltaPct (n : num) : string := if is_finite n then sign_of n +:+ fixed 2 (fmul n (int 100)) +:+ " pts" else "--".
Definition fmtConf (n : option num) : string :=
  match n with Some n => if is_finite n then fixed 0 (fmul n (int 100)) +:+ "%" else "--" | None => "--" end.

Definition middot : string := " " +:+ String (chr 183) " ".
Definition tick : string := String (chr 96) "".
Definition md_title (m : MetaSide) : string := m_ticker m +:+ " (" +:+ num_str (m_lookback m) +:+ "d)".
Definition md_side (name : string) (m : MetaSide) : string :=
  "- **" +:+ name +:+ "** " +:+ tick +:+ m_id m +:+ tick +:+ middot +:+ m_label m +:+ middot +:+ "saved " +:+ m_created m.
Definition md_row (cells : list string) : string := "| " +:+ join " | " cells +:+ " |".

Definition compareToMarkdown (meta : CompareMeta) (s : CompareSummary) : string :=
  join nl (["# SignalClaw compare: " +:+ md_title (meta_a meta) +:+ " vs " +:+ md_title (meta_b meta); ""; md_side "A" (meta_a meta); md_side "B" (meta_b meta);
    ""; "## Summary"; ""; "| Metric | A | B | Delta (B - A) |"; "| --- | --- | --- | --- |";
    md_row ["Bars"; num_str (int (bars (s_a s))); num_str (int (bars (s_b s))); num_str (int (bars (s_b s) - bars (s_a s)))];
    md_row ["Regime"; default "--" (s_regime (s_a s)); default "--" (s_regime (s_b s)); ""];
    md_row ["Confidence"; fmtConf (s_confidence (s_a s)); fmtConf (s_confidence (s_b s));
            match s_confidence (s_a s), s_confidence (s_b s) with Some a, Some b => fixed 0 (fmul (fsub b a) (int 100)) +:+ " pts" | _, _ => "--" end];
    md_row ["Window return"; fmtPct (pct_change (s_a s)); fmtPct (pct_change (s_b s));
            match pct_change (s_a s), pct_change (s_b s) with Some a, Some b => fmtDeltaPct (fsub b a) | _, _ => "--" end];
    ""; "## Regime mix"; ""; "| Regime | A | B | Delta (B - A) |"; "| --- | --- | --- | --- |"] ++
    ((fun k => md_row [k; fmtPct (Some (at_regime (s_mix (s_a s)) k)); fmtPct (Some (at_regime (s_mix (s_b s)) k)); fmtDeltaPct (at_regime (mix_diff s) k)])
       <$> REGIME_ORDER) ++ [""]).

(** ** The two routes *)

Definition side_of (r : Runs.SavedRun) : CompareSummarySide :=
  let p := Runs.payload r in
  {| bars := len (Runs.dates p); s_mix := mix (regimeMix (Runs.counts p)); s_regime := Runs.s_label <$> Runs.snapshot p;
     s_confidence := Runs.confidence <$> Runs.snapshot p; pct_change := pctChange (Runs.close p) |}.

Definition summary_of (ra rb : Runs.SavedRun) : CompareSummary :=
  {| s_a := side_of ra; s_b := side_of rb; mix_diff := mixDiff (mix (regimeMix (Runs.counts (Runs.payload ra)))) (mix (regimeMix (Runs.counts (Runs.payload rb)))) |}.

Definition meta_side (r : Runs.SavedRun) : MetaSide :=
  {| m_id := Runs.id r; m_label := Runs.label r; m_ticker := Runs.ticker r; m_lookback := Runs.lookback_days r; m_created := Runs.created r |}.

(** What either route refuses; otherwise the two runs. *)
Definition both_runs (get : string -> option string) (f : file Runs.runs) : result (Runs.SavedRun * Runs.SavedRun) (Z * string) :=
  let a := trim (default "" (get "a")) in
  let b := trim (default "" (get "b")) in
  if negb (truthy a) || negb (truthy b) then Err (400, "missing_ids") else
  if negb (isValidRunId a) || negb (isValidRunId b) then Err (400, "bad_id") else
  if String.eqb a b then Err (400, "same_id") else
  match Runs.getRun a f, Runs.getRun b f with
  | None, _ => Err (404, "a_not_found")
  | _, None => Err (404, "b_not_found")
  | Some ra, Some rb => Ok (ra, rb)
  end.

Definition compare_GET (get : string -> option string) (f : file Runs.runs) : result (Runs.SavedRun * Runs.SavedRun * CompareSummary) (Z * string) :=
  result_bind (both_runs get f) (fun '(ra, rb) => Ok (ra, rb, summary_of ra rb)).

Inductive download := Csv (text : string) | Markdown (text : string) | Summary (m : CompareMeta) (s : CompareSummary).

(** The file and its name. *)
Definition compare_export_GET (get : string -> option string) (f : file Runs.runs) : result (download * string) (Z * string) :=
  match assoc (to_lower (default "csv" (get "format"))) [("csv", as_csv); ("json", as_json); ("md", as_md); ("markdown", as_md)] with
  | None => Err (400, "bad_format")
  | Some format =>
      result_bind (both_runs get f) (fun '(ra, rb) =>
        let s := summary_of ra rb in
        let meta := {| meta_a := meta_side ra; meta_b := meta_side rb |} in
        Ok (match format with as_csv => Csv (compareToCSV meta s) | as_json => Summary meta s | as_md => Markdown (compareToMarkdown meta s) end,
            compareExportFilename meta format))
  end.

(** ** Usage *)

Record UsageSummary := { used : num; limit : num; remaining : num; period_start : string; period_end : string; by_day : list (string * num) }.

(** Dates in code-point order. *)
Definition sortedDays (days : list (string * num)) : list (string * num) :=
  js_sort (fun a b => if String.ltb a.1 b.1 then -1 else if String.ltb b.1 a.1 then 1 else 0) days.

(** The running total of the days up to each one. *)
Fixpoint cumulative (cum : num) (days : list (string * num)) : list (string * num * num) :=
  match days with
  | [] => []
  | (date, count) :: rest => let cum := fadd cum (if is_finite count then count else int 0) in (date, count, cum) :: cumulative cum rest
  end.

Definition usage_cells (s : UsageSummary) (row : string * num * num) : list string :=
  let '(date, count, cum) := row in
  [csvEscape date; num_cell (Some count); num_cell (Some cum); num_cell (Some (used s)); num_cell (Some (limit s)); num_cell (Some (remaining s));
   csvEscape (period_start s); csvEscape (period_end s)].

Definition usageToCSV (s : UsageSummary) : string :=
  document ("date,count,cumulative,used,limit,remaining,period_start,period_end" :: (line ∘ usage_cells s <$> cumulative (int 0) (sortedDays (by_day s)))).

(** [/^\d{4}-\d{2}$/] on the first seven characters. *)
Definition is_digit (c : Ascii.ascii) : bool := (48 <=? code c) && (code c <=? 57).
Definition month_like (p : string) : bool :=
  (str_len p =? 7) && str_forall is_digit (str_take 4 p) && String.eqb (str_take 1 (str_drop 4 p)) "-" && str_forall is_digit (str_drop 5 p).

Definition usageFilename (s : UsageSummary) (ext : string) (now : Z) : string :=
  let period := str_take 7 (period_start s) in
  join "-" (["signalclaw-usage"] ++ (if month_like period then [period] else []) ++ [str_take 10 (toISOString now)]) +:+ "." +:+ ext.

(** ** Execution *)

Record ExecFill := { bar_index : num; f_shares : num; fill_price : num; market_price : num; participation : num; slippage_bps : num; f_commission : num }.
Record ExecReport := {
  x_ticker : string; x_side : string; arrival_price : num; avg_fill_price : num; interval_vwap : num; vs_arrival : num; vs_vwap : num; fills : list ExecFill }.

(** By bar; what is not a number orders nothing. *)
Definition sign (n : num) : Z := if num_lt n (int 0) then -1 else if num_lt (int 0) n then 1 else 0.
Definition sortedFills (l : list ExecFill) : list ExecFill := js_sort (fun a b => sign (fsub (bar_index a) (bar_index b))) l.

Definition exec_cells (r : ExecReport) (f : ExecFill) : list string :=
  [csvCell (to_upper (x_ticker r)); csvCell (x_side r); num_cell (Some (bar_index f)); num_cell (Some (f_shares f)); fixed_cell 4 (Some (fill_price f));
   fixed_cell 4 (Some (market_price f)); fixed_cell 2 (if is_finite (participation f) then Some (fmul (participation f) (int 100)) else None);
   fixed_cell 2 (Some (slippage_bps f)); fixed_cell 4 (Some (f_commission f)); fixed_cell 4 (Some (arrival_price r)); fixed_cell 4 (Some (avg_fill_price r));
   fixed_cell 4 (Some (interval_vwap r)); fixed_cell 2 (Some (vs_arrival r)); fixed_cell 2 (Some (vs_vwap r))].

Definition exec_header : string :=
  "ticker,side,bar_index,shares,fill_price,market_price,participation_pct,slippage_bps,commission,arrival_price,avg_fill_price,interval_vwap,slippage_vs_arrival_bps,slippage_vs_vwap_bps".

Definition executionToCSV (r : ExecReport) : string := document (exec_header :: (line ∘ exec_cells r <$> sortedFills (fills r))).

Definition upper_name (c : Ascii.ascii) : bool :=
  let n := code c in ((65 <=? n) && (n <=? 90)) || is_digit c || Ascii.eqb c "."%char || Ascii.eqb c "_"%char || Ascii.eqb c "-"%char.
Definition lower_letter (c : Ascii.ascii) : bool := (97 <=? code c) && (code c <=? 122).

Definition executionFilename (ticker side ext : string) (now : Z) : string :=
  let t := keep_chars upper_name (to_upper (trim ticker)) in
  let s := keep_chars lower_letter (to_lower (trim side)) in
  join "-" (["signalclaw-execution"] ++ (if truthy t then [t] else []) ++ (if truthy s then [s] else []) ++ [str_take 10 (toISOString now)]) +:+ "." +:+ ext.

(** ** Portfolio *)

Record Position := {
  p_ticker : string; quantity : num; avg_cost : num; last_price : option num; market_value : num; p_cost : num; unrealized : num; unrealized_pct : num;
  realized : num }.
Record PortfolioSnapshot := { positions : list Position; total_market_value : num; weights : list (string * num) }.

(** [Number.isNaN] only: an infinite number is written. *)
Definition position_num (n : option num) : string := match n with None | Some NaN => "" | Some n => num_str n end.

Definition weightOf (snap : PortfolioSnapshot) (p : Position) : num :=
  match assoc (p_ticker p) (weights snap) with
  | Some w => w
  | None => if num_lt (int 0) (total_market_value snap) then fdiv (market_value p) (total_market_value snap) else int 0
  end.

Definition position_cells (snap : PortfolioSnapshot) (p : Position) : list string :=
  [csvCell (p_ticker p); position_num (Some (quantity p)); position_num (Some (avg_cost p)); position_num (last_price p);
   position_num (Some (market_value p)); position_num (Some (p_cost p)); position_num (Some (weightOf snap p)); position_num (Some (unrealized p));
   position_num (Some (unrealized_pct p)); position_num (Some (realized p))].

Definition positionsToCSV (snap : PortfolioSnapshot) : string :=
  document ("ticker,quantity,avg_cost,last_price,market_value,cost,weight,unrealized_pnl,unrealized_pct,realized_pnl"
    :: (line ∘ position_cells snap <$> positions snap)).

Definition portfolioExportFilename (ext : string) (now : Z) : string := "signalclaw-portfolio-" +:+ Links.stamp now +:+ "." +:+ ext.

(** ** Correlation and diversification *)

Record CorrelationMatrix := { tickers : list string; matrix : list (list (option num)); c_window : num }.

Definition fmtCorr (v : option num) : string := fixed_cell 4 v.

Definition corr_cells (m : CorrelationMatrix) (i : nat) (t : string) : list string :=
  csvCell t :: ((fun j => fmtCorr (row ← matrix m !! i; mjoin (row !! j))) <$> seq 0 (length (tickers m))).

Definition correlationToCSV (m : CorrelationMatrix) : string :=
  document (line ("" :: (csvCell <$> tickers m)) :: imap (fun i t => line (corr_cells m i t)) (tickers m)).

Definition finite_or_zero (n : num) : num := if is_finite n then n else int 0.

Definition correlationFilename (window : num) (ext : string) (now : Z) : string :=
  "signalclaw-correlation-w" +:+ num_str (finite_or_zero window) +:+ "-" +:+ Links.stamp now +:+ "." +:+ ext.

Record Diversification := {
  d_window : num; d_threshold : num; n_tickers : num; avg_pairwise : num; max_pairwise : num; most_correlated : option (list string);
  clusters : list (list string); warnings : list string }.

Definition count_text (n : nat) : string := num_str (int (Z.of_nat n)).
Definition cluster_cells (i : nat) (members : list string) : list string := [count_text (i + 1); count_text (length members); csvCell (join " " members)].
Definition warning_cells (i : nat) (w : string) : list string := [count_text (i + 1); csvCell w].

Definition diversificationToCSV (d : Diversification) : string :=
  document ((line <$> [["section"; "key"; "value"]; ["summary"; "window"; num_str (d_window d)]; ["summary"; "threshold"; fixed_cell 4 (Some (d_threshold d))];
      ["summary"; "n_tickers"; num_str (n_tickers d)]; ["summary"; "avg_pairwise_corr"; fixed_cell 4 (Some (avg_pairwise d))];
      ["summary"; "max_pairwise_corr"; fixed_cell 4 (Some (max_pairwise d))];
      ["summary"; "most_correlated_pair"; csvCell (from_option (join " / ") "" (most_correlated d))]; [""]; ["cluster_index"; "size"; "members"]]) ++
    (line <$> imap cluster_cells (clusters d)) ++ (line <$> [[""]; ["warning_index"; "message"]]) ++ (line <$> imap warning_cells (warnings d))).

Definition diversificationFilename (window threshold : num) (ext : string) (now : Z) : string :=
  "signalclaw-diversification-w" +:+ num_str (finite_or_zero window) +:+ "-t" +:+ (if is_finite threshold then fixed 2 threshold else "0.00") +:+ "-" +:+
  Links.stamp now +:+ "." +:+ ext.

(** ** Rotation *)

Record SectorScore := {
  sector : string; r_tickers : num; ret_1m : num; ret_3m : num; ret_6m : num; rs_slope : num; breadth : num; composite : num; r_call : string;
  members : list string }.
Record RotationReport := {
  benchmark : string; asof : string; overweight : list string; underweight : list string; scores : list SectorScore;
  skipped_unknown : list string; skipped_short : list string }.

Definition score_cells (i : nat) (s : SectorScore) : list string :=
  [count_text (i + 1); csvCell (sector s); csvCell (r_call s); fixed_cell 4 (Some (composite s)); fixed_cell 4 (Some (ret_1m s));
   fixed_cell 4 (Some (ret_3m s)); fixed_cell 4 (Some (ret_6m s)); fixed_cell 4 (Some (rs_slope s)); fixed_cell 4 (Some (breadth s));
   num_str (r_tickers s); csvCell (join " " (members s))].

Definition byComposite (l : list SectorScore) : list SectorScore := js_sort (fun a b => sign (fsub (composite b) (composite a))) l.

Definition rotationToCSV (r : RotationReport) : string :=
  document ((line <$> [["section"; "key"; "value"]; ["summary"; "benchmark"; csvCell (benchmark r)]; ["summary"; "as_of"; csvCell (asof r)];
      ["summary"; "n_sectors"; count_text (length (scores r))]; ["summary"; "overweight"; csvCell (join " " (overweight r))];
      ["summary"; "underweight"; csvCell (join " " (underweight r))]; [""];
      ["rank"; "sector"; "call"; "composite"; "ret_1m"; "ret_3m"; "ret_6m"; "rs_slope"; "breadth"; "n_tickers"; "members"]]) ++
    (line <$> imap score_cells (byComposite (scores r))) ++
    (line <$> [[""]; ["skipped_reason"; "tickers"]; ["unknown_sector"; csvCell (join " " (skipped_unknown r))];
               ["short_history"; csvCell (join " " (skipped_short r))]])).

(** [s.replace(/[^A-Za-z0-9._-]+/g, "_")]: a run of other characters becomes one
    underscore. *)
Fixpoint collapse (inside : bool) (s : string) : string :=
  match s with
  | "" => ""
  | String c r => if name_char c then String c (collapse false r) else if inside then collapse true r else String "_"%char (collapse true r)
  end.

Definition rotationFilename (b ext : string) (now : Z) : string :=
  "signalclaw-rotation-" +:+ collapse false (if truthy b then b else "BENCH") +:+ "-" +:+ Links.stamp now +:+ "." +:+ ext.
End Reports.

(** * What the reports say *)

Section Facts.
Context `{FloatOps} (num_str : num -> string) (fixed : nat -> num -> string).
(** The text of a number holds no comma, quote or line break. *)
Context (num_plain : forall n, Exports.plain (num_str n)) (fixed_plain : forall k n, Exports.plain (fixed k n)).

Definition writes (values cells : list string) : Prop := cells = csvCell <$> values /\ values <> [].

(** Lines whose cells are those of the values. *)
Lemma lines_parse values rows : Forall2 writes values rows -> values <> [] -> parse_csv (document (line <$> rows)) = Some values.
Proof.
  intros Hf Hne. rewrite <- (parse_document values); [|apply Forall_forall; intros v Hv; apply list_elem_of_lookup in Hv as [i Hi]; by destruct (Forall2_lookup_l _ _ _ _ _ Hf Hi) as (? & _ & _ & ?)|done]. do 2 f_equal.
  clear Hne. induction Hf as [|v r values rows [-> _] _ IH]; [done|]. cbn. by rewrite IH.
Qed.

Lemma plain_fixed_cell k o : Exports.plain (fixed_cell fixed k o).
Proof using fixed_plain. unfold fixed_cell. destruct o as [n|]; [|done]. destruct (is_finite n); [apply fixed_plain|done]. Qed.

Lemma plain_position o : Exports.plain (position_num num_str o).
Proof using num_plain. destruct o as [[]|]; try done; apply num_plain. Qed.

Lemma plain_num_cell o : Exports.plain (Exports.num_or_empty num_str o).
Proof using num_plain. by apply Exports.plain_num_or_empty. Qed.

Lemma plain_delta a b : Exports.plain (delta num_str a b).
Proof using num_plain. destruct a, b; try done; apply num_plain. Qed.

(** The cells of a row, one by one: a quoted text, a number, a constant. *)
Ltac cells :=
  split; [|done]; cbn [fmap list_fmap];
  repeat first [rewrite (csvCell_plain _ (num_plain _)) | rewrite (csvCell_plain _ (fixed_plain _ _)) | rewrite (csvCell_plain _ (plain_num_cell _))
               | rewrite (csvCell_plain _ (plain_fixed_cell _ _)) | rewrite (csvCell_plain _ (plain_position _)) | rewrite (csvCell_plain _ (plain_delta _ _))];
  rewrite ?csvEscape_guard; reflexivity.

Lemma writes_fmap {A} (values cells : A -> list string) l : (forall x, writes (values x) (cells x)) -> Forall2 writes (values <$> l) (cells <$> l).
Proof. intros Hw. induction l; cbn; by constructor. Qed.

Lemma writes_imap {A} (values cells : nat -> A -> list string) l : (forall i x, writes (values i x) (cells i x)) -> Forall2 writes (imap values l) (imap cells l).
Proof. intros Hw. revert values cells Hw. induction l as [|x l IH]; intros values cells Hw; [constructor|]. cbn. constructor; [apply Hw|]. apply IH. intros i y. apply Hw. Qed.

(** ** Usage, execution and positions: a header and a line for each row *)

Definition usage_values (s : UsageSummary) (row : string * num * num) : list string :=
  let '(date, count, cum) := row in
  [guard date; Exports.num_or_empty num_str (Some count); Exports.num_or_empty num_str (Some cum); Exports.num_or_empty num_str (Some (used s));
   Exports.num_or_empty num_str (Some (limit s)); Exports.num_or_empty num_str (Some (remaining s)); guard (period_start s); guard (period_end s)].

Definition exec_values (r : ExecReport) (f : ExecFill) : list string :=
  [to_upper (x_ticker r); x_side r; Exports.num_or_empty num_str (Some (bar_index f)); Exports.num_or_empty num_str (Some (f_shares f));
   fixed_cell fixed 4 (Some (fill_price f)); fixed_cell fixed 4 (Some (market_price f));
   fixed_cell fixed 2 (if is_finite (participation f) then Some (fmul (participation f) (int 100)) else None);
   fixed_cell fixed 2 (Some (slippage_bps f)); fixed_cell fixed 4 (Some (f_commission f)); fixed_cell fixed 4 (Some (arrival_price r));
   fixed_cell fixed 4 (Some (avg_fill_price r)); fixed_cell fixed 4 (Some (interval_vwap r)); fixed_cell fixed 2 (Some (vs_arrival r));
   fixed_cell fixed 2 (Some (vs_vwap r))].

Definition position_values (snap : PortfolioSnapshot) (p : Position) : list string :=
  [p_ticker p; position_num num_str (Some (quantity p)); position_num num_str (Some (avg_cost p)); position_num num_str (last_price p);
   position_num num_str (Some (market_value p)); position_num num_str (Some (p_cost p)); position_num num_str (Some (weightOf snap p));
   position_num num_str (Some (unrealized p)); position_num num_str (Some (unrealized_pct p)); position_num num_str (Some (realized p))].

Lemma usage_writes s row : writes (usage_values s row) (usage_cells num_str s row).
Proof using num_plain. destruct row as [[date count] cum]. unfold usage_values, usage_cells. cells. Qed.
Lemma exec_writes r f : writes (exec_values r f) (exec_cells num_str fixed r f).
Proof using num_plain fixed_plain. unfold exec_values, exec_cells. cells. Qed.
Lemma position_writes snap p : writes (position_values snap p) (position_cells num_str snap p).
Proof using num_plain. unfold position_values, position_cells. cells. Qed.

(** A header without special characters, then a line for each row. *)
Lemma table_parses {A} (header : list string) (values cells : A -> list string) l :
  header <> [] -> Forall Exports.plain header -> (forall x, writes (values x) (cells x)) ->
  parse_csv (document (line header :: (line ∘ cells <$> l))) = Some (header :: (values <$> l)).
Proof.
  intros Hne Hh Hw. rewrite (list_fmap_compose cells line). apply (lines_parse (header :: (values <$> l)) (header :: (cells <$> l))); [|done].
  constructor; [|by apply writes_fmap]. split; [|done]. by rewrite Exports.plain_cells.
Qed.

Definition usage_header : list string := ["date"; "count"; "cumulative"; "used"; "limit"; "remaining"; "period_start"; "period_end"].
Definition exec_columns : list string := split "," exec_header.
Definition position_header : list string :=
  ["ticker"; "quantity"; "avg_cost"; "last_price"; "market_value"; "cost"; "weight"; "unrealized_pnl"; "unrealized_pct"; "realized_pnl"].

(** ** Correlation, diversification and rotation: several tables *)

Definition corr_values (m : CorrelationMatrix) (i : nat) (t : string) : list string :=
  t :: ((fun j => fmtCorr fixed (row ← matrix m !! i; mjoin (row !! j))) <$> seq 0 (length (tickers m))).

Lemma plain_fixed_cells {A} (f : A -> option num) (l : list A) : csvCell <$> ((fun j => fmtCorr fixed (f j)) <$> l) = (fun j => fmtCorr fixed (f j)) <$> l.
Proof using fixed_plain. apply Exports.plain_cells. apply Forall_fmap, Forall_forall. intros j _. apply plain_fixed_cell. Qed.

Lemma corr_writes m i t : writes (corr_values m i t) (corr_cells fixed m i t).
Proof using fixed_plain. split; [|done]. unfold corr_values, corr_cells. rewrite fmap_cons. by rewrite plain_fixed_cells. Qed.

Definition div_values (d : Diversification) : list (list string) :=
  [["section"; "key"; "value"]; ["summary"; "window"; num_str (d_window d)]; ["summary"; "threshold"; fixed_cell fixed 4 (Some (d_threshold d))];
   ["summary"; "n_tickers"; num_str (n_tickers d)]; ["summary"; "avg_pairwise_corr"; fixed_cell fixed 4 (Some (avg_pairwise d))];
   ["summary"; "max_pairwise_corr"; fixed_cell fixed 4 (Some (max_pairwise d))];
   ["summary"; "most_correlated_pair"; from_option (join " / ") "" (most_correlated d)]; [""]; ["cluster_index"; "size"; "members"]] ++
  imap (fun i m => [count_text num_str (i + 1); count_text num_str (length m); join " " m]) (clusters d) ++ [[""]; ["warning_index"; "message"]] ++
  imap (fun i w => [count_text num_str (i + 1); w]) (warnings d).

Definition score_values (i : nat) (s : SectorScore) : list string :=
  [count_text num_str (i + 1); sector s; r_call s; fixed_cell fixed 4 (Some (composite s)); fixed_cell fixed 4 (Some (ret_1m s));
   fixed_cell fixed 4 (Some (ret_3m s)); fixed_cell fixed 4 (Some (ret_6m s)); fixed_cell fixed 4 (Some (rs_slope s)); fixed_cell fixed 4 (Some (breadth s));
   num_str (r_tickers s); join " " (members s)].

Definition rotation_values (r : RotationReport) : list (list string) :=
  [["section"; "key"; "value"]; ["summary"; "benchmark"; benchmark r]; ["summary"; "as_of"; asof r];
   ["summary"; "n_sectors"; count_text num_str (length (scores r))]; ["summary"; "overweight"; join " " (overweight r)];
   ["summary"; "underweight"; join " " (underweight r)]; [""];
   ["rank"; "sector"; "call"; "composite"; "ret_1m"; "ret_3m"; "ret_6m"; "rs_slope"; "breadth"; "n_tickers"; "members"]] ++
  imap score_values (byComposite (scores r)) ++
  [[""]; ["skipped_reason"; "tickers"]; ["unknown_sector"; join " " (skipped_unknown r)]; ["short_history"; join " " (skipped_short r)]].

Lemma div_parses d : parse_csv (diversificationToCSV num_str fixed d) = Some (div_values d).
Proof using num_plain fixed_plain.
  unfold diversificationToCSV. rewrite <- !fmap_app. apply lines_parse; [|done]. unfold div_values. unfold count_text.
  repeat apply Forall2_app; [repeat (constructor; [cells|]); constructor| |repeat (constructor; [cells|]); constructor|].
  - apply writes_imap. intros i m. unfold cluster_cells, count_text. cells.
  - apply writes_imap. intros i w. unfold warning_cells, count_text. cells.
Qed.

Lemma rotation_parses r : parse_csv (rotationToCSV num_str fixed r) = Some (rotation_values r).
Proof using num_plain fixed_plain.
  unfold rotationToCSV. rewrite <- !fmap_app. apply lines_parse; [|done]. unfold rotation_values, count_text.
  repeat apply Forall2_app; [repeat (constructor; [cells|]); constructor| |repeat (constructor; [cells|]); constructor].
  apply writes_imap. intros i s. unfold score_values, score_cells, count_text. cells.
Qed.

(** ** The comparison *)

Definition meta_values (name : string) (m : MetaSide) : list string :=
  ["# " +:+ name; m_id m; m_ticker m; m_label m; num_str (m_lookback m) +:+ "d"; m_created m].

Lemma plain_app a b : Exports.plain a -> Exports.plain b -> Exports.plain (a +:+ b).
Proof. unfold Exports.plain. induction a as [|c a IH]; [done|]. rewrite str_cons_app. cbn [str_exists]. destruct (special c); [done|exact IH]. Qed.

Lemma meta_writes name m : Exports.plain name -> writes (meta_values name m) (meta_cells num_str name m).
Proof using num_plain.
  intros Hn. split; [|done]. unfold meta_values, meta_cells. cbn [fmap list_fmap]. rewrite (csvCell_plain _ (plain_app "# " name eq_refl Hn)).
  rewrite (csvCell_plain _ (num_plain _)). by rewrite (csvCell_plain _ (plain_app _ "d" (num_plain (m_lookback m)) eq_refl)).
Qed.

Definition compare_values (meta : CompareMeta) (s : CompareSummary) : list (list string) :=
  [["# signalclaw compare export"]; meta_values "A" (meta_a meta); meta_values "B" (meta_b meta); ["metric"; "a"; "b"; "delta"]] ++ metric_rows num_str s.

Lemma compare_parses meta s : parse_csv (compareToCSV num_str meta s) = Some (compare_values meta s).
Proof using num_plain.
  unfold compareToCSV. assert ((fun cells => line (csvCell <$> cells)) <$> metric_rows num_str s = line <$> (fmap csvCell <$> metric_rows num_str s)) as ->
    by by rewrite <- list_fmap_compose.
  change (["# signalclaw compare export"; line (meta_cells num_str "A" (meta_a meta)); line (meta_cells num_str "B" (meta_b meta)); line ["metric"; "a"; "b"; "delta"]])
    with (line <$> [["# signalclaw compare export"]; meta_cells num_str "A" (meta_a meta); meta_cells num_str "B" (meta_b meta); ["metric"; "a"; "b"; "delta"]]).
  rewrite <- fmap_app. apply lines_parse; [|done]. unfold compare_values. apply Forall2_app.
  - constructor; [cells|]. constructor; [by apply meta_writes|]. constructor; [by apply meta_writes|]. constructor; [cells|constructor].
  - unfold metric_rows. repeat (constructor; [by split|]). constructor.
Qed.

(** The reports are read back. For each of the seven, a reader of the format
    finds the header lines and every row in the order of the report, each text
    exactly as it was, or behind an apostrophe where the usage report guards it,
    and each number as it is printed, whatever commas, quotes and line breaks the
    texts contain. *)
Theorem reports_read_back usage exec snap corr div rot meta s :
  parse_csv (usageToCSV num_str usage) = Some (usage_header :: (usage_values usage <$> cumulative (int 0) (sortedDays (by_day usage)))) /\
  parse_csv (executionToCSV num_str fixed exec) = Some (exec_columns :: (exec_values exec <$> sortedFills (fills exec))) /\
  parse_csv (positionsToCSV num_str snap) = Some (position_header :: (position_values snap <$> positions snap)) /\
  parse_csv (correlationToCSV fixed corr) = Some (("" :: tickers corr) :: imap (corr_values corr) (tickers corr)) /\
  parse_csv (diversificationToCSV num_str fixed div) = Some (div_values div) /\
  parse_csv (rotationToCSV num_str fixed rot) = Some (rotation_values rot) /\
  parse_csv (compareToCSV num_str meta s) = Some (compare_values meta s).
Proof using num_plain fixed_plain.
  split_and!; [..|apply div_parses|apply rotation_parses|apply compare_parses].
  - apply (table_parses usage_header); [done|by apply (bool_decide_unpack _)|apply usage_writes].
  - apply (table_parses exec_columns); [done|by apply (bool_decide_unpack _)|apply exec_writes].
  - apply (table_parses position_header); [done|by apply (bool_decide_unpack _)|apply position_writes].
  - unfold correlationToCSV.
    assert (imap (fun i t => line (corr_cells fixed corr i t)) (tickers corr) = line <$> imap (corr_cells fixed corr) (tickers corr)) as -> by by rewrite fmap_imap.
    apply (lines_parse (("" :: tickers corr) :: imap (corr_values corr) (tickers corr)) (("" :: (csvCell <$> tickers corr)) :: imap (corr_cells fixed corr) (tickers corr)));
      [|done]. constructor; [by split|]. apply writes_imap. intros i t. apply corr_writes.
Qed.
End Facts.

(** ** Names of files *)

Lemma str_forall_map p f s : (forall c, p (f c) = true) -> str_forall p (str_map f s) = true.
Proof. intros Hf. induction s as [|c s IH]; [done|]. cbn. by rewrite Hf. Qed.

Lemma safe_name s : str_forall name_char (safe s) = true.
Proof. apply str_forall_map. intros c. by destruct (name_char c) eqn:E; rewrite ?E. Qed.

Lemma collapse_name b s : str_forall name_char (collapse b s) = true.
Proof.
  revert b. induction s as [|c s IH]; intros b; [done|]. cbn [collapse]. destruct (name_char c) eqn:E; [cbn [str_forall]; by rewrite E, IH|].
  destruct b; [apply IH|]. cbn [str_forall]. by rewrite IH.
Qed.

Lemma keep_name p s : (forall c, p c = true -> name_char c = true) -> str_forall name_char (keep_chars p s) = true.
Proof. intros Hp. eapply str_forall_impl; [|apply keep_chars_forall]. done. Qed.

Lemma digit_name d : 0 <= d < 10 -> name_char (digit d) = true.
Proof. intros Hd. assert (d = 0 \/ d = 1 \/ d = 2 \/ d = 3 \/ d = 4 \/ d = 5 \/ d = 6 \/ d = 7 \/ d = 8 \/ d = 9) as Hc by lia. by repeat destruct Hc as [->|Hc]; subst. Qed.

Lemma pad_name k n : 0 <= n < 10 ^ Z.of_nat k -> str_forall name_char (pad k n) = true.
Proof. apply Runs.pad_forall. exact digit_name. Qed.

Lemma date_name t : iso_range t -> str_forall name_char (str_take 10 (toISOString t)) = true.
Proof.
  intros H. rewrite iso_day. destruct (Runs.date_string_range (day_of t)) as (Hy & Hm & Hd).
  { unfold day_range, iso_range, getUTCFullYear in *. unfold day_of in *. by rewrite Z.div_mul. }
  unfold date_string. cbv zeta. rewrite str_forall_app, pad_name by lia. cbn [str_forall andb]. rewrite str_forall_app, pad_name by lia.
  cbn [str_forall andb]. by rewrite pad_name by lia.
Qed.

(** The time stamp of a name: digits and dashes. *)
Lemma stamp_name t : iso_range t -> str_forall name_char (Links.stamp t) = true.
Proof.
  intros H. unfold Links.stamp.
  assert (str_forall (fun c => name_char c || Ascii.eqb c ":"%char) (toISOString t) = true) as Hs.
  { pose proof (getUTCMonth_range t). pose proof (getUTCDate_range t). destruct (time_field_ranges t) as (Hh & Hmi & Hsec & Hms). unfold iso_range in H.
    assert (forall k n, 0 <= n < 10 ^ Z.of_nat k -> str_forall (fun c => name_char c || Ascii.eqb c ":"%char) (pad k n) = true) as Hp
      by (intros k n Hn; apply Runs.pad_forall; [intros d Hd; by rewrite digit_name|done]).
    unfold toISOString. repeat (rewrite str_forall_app; cbn [str_forall]). rewrite !Hp by lia. done. }
  apply (str_forall_take _ 19) in Hs. revert Hs. generalize (str_take 19 (toISOString t)). clear. intros s. induction s as [|c s IH]; [done|].
  cbn [str_forall str_map]. intros [Hc Hs]%andb_prop. rewrite IH, andb_true_r by done.
  destruct (Ascii.eqb c ":"%char); cbn [orb] in *; [done|]. rewrite orb_false_r in Hc. by destruct (Ascii.eqb c "T"%char).
Qed.

Lemma month_name s : month_like s = true -> str_forall name_char s = true.
Proof.
  unfold month_like. intros [[[Hl Ha]%andb_prop Hd]%andb_prop Hb]%andb_prop. unfold str_len in Hl. apply Z.eqb_eq in Hl.
  assert (forall s, str_forall is_digit s = true -> str_forall name_char s = true) as Hdig.
  { intros s0. apply str_forall_impl. intros c Hc. unfold name_char, id_char, is_digit in *. by rewrite Hc, ?orb_true_r. }
  do 7 (destruct s as [|? s]; [done|]). destruct s; [|cbn [String.length] in Hl; lia]. cbn [str_take str_drop] in *. apply Hdig in Ha, Hb. cbn [str_forall] in Ha, Hb |- *.
  apply String.eqb_eq in Hd. injection Hd as ->. repeat (apply andb_prop in Ha as [? Ha]). repeat (apply andb_prop in Hb as [? Hb]).
  repeat (apply andb_true_intro; split); done.
Qed.

Lemma join_name l : Forall (fun s => str_forall name_char s = true) l -> str_forall name_char (join "-" l) = true.
Proof. intros Hl. by apply str_forall_join. Qed.

(** The name of a download is letters, digits, dots, dashes and underscores,
    whatever tickers, ids, benchmarks and periods it is made of: nothing of them
    can end the quoted name in the header of the answer, or leave the directory. *)
Theorem download_names_safe meta f u exec_ticker exec_side b ext now :
  iso_range now -> ext = "csv" \/ ext = "json" \/ ext = "md" ->
  Forall (fun name => str_forall name_char name = true)
    [compareExportFilename meta f; usageFilename u ext now; executionFilename exec_ticker exec_side ext now; portfolioExportFilename ext now; rotationFilename b ext now].
Proof.
  intros Hn He. assert (str_forall name_char ext = true) as Hx by (by destruct He as [->|[->| ->]]).
  repeat apply Forall_cons_2; [..|constructor].
  - unfold compareExportFilename. repeat (rewrite str_forall_app, ?safe_name; cbn [str_forall andb]). by destruct f.
  - unfold usageFilename. rewrite str_forall_app, join_name; [by rewrite str_forall_app, Hx|]. apply Forall_app. split; [by repeat constructor|].
    apply Forall_app. split; [|constructor; [by apply date_name|constructor]]. destruct (month_like _) eqn:Em; [|constructor]. constructor; [|constructor].
    by apply month_name.
  - unfold executionFilename. cbv zeta. rewrite str_forall_app, join_name; [by rewrite str_forall_app, Hx|]. apply Forall_app. split; [by repeat constructor|].
    apply Forall_app. split; [|apply Forall_app; split; [|constructor; [by apply date_name|constructor]]].
    + destruct (truthy _); [|constructor]. constructor; [|constructor]. apply keep_name. intros c. unfold upper_name, name_char, id_char, is_digit. 
      destruct (Ascii.eqb c "."%char), (Ascii.eqb c "_"%char), (Ascii.eqb c "-"%char); rewrite ?orb_true_r, ?orb_false_r; try done. intros [->| ->]%orb_prop; by rewrite ?orb_true_r.
    + destruct (truthy _); [|constructor]. constructor; [|constructor]. apply keep_name. intros c. unfold lower_letter, name_char, id_char. intros ->. by rewrite ?orb_true_r.
  - unfold portfolioExportFilename. rewrite !str_forall_app, stamp_name by done. by rewrite Hx.
  - unfold rotationFilename. rewrite !str_forall_app, collapse_name, stamp_name by done. by rewrite Hx.
Qed.

(** ** Which runs are compared *)

Section Compared.
Context `{FloatOps} (num_str : num -> string) (fixed : nat -> num -> string).

(** What can be compared. Either route answers if and only if both ids are
    given, well formed and different and both runs exist; then it answers for
    these two runs, and the sides of the summary are theirs. Otherwise it refuses
    with 400 for the ids, before it looks for a run, or with 404; and the
    download refuses exactly what the page refuses, or a format it does not know.
    The ids that a link hands to the page are well formed and never the same. *)
Theorem comparison_answers get f :
  let a := trim (default "" (get "a")) in
  let b := trim (default "" (get "b")) in
  match compare_GET get f with
  | Ok (ra, rb, s) =>
      isValidRunId a = true /\ isValidRunId b = true /\ a <> b /\ Runs.getRun a f = Some ra /\ Runs.getRun b f = Some rb /\ s = summary_of ra rb /\
      forall format, get "format" = Some format -> format ∈ ["csv"; "json"; "md"; "markdown"] ->
        exists file name, compare_export_GET num_str fixed get f = Ok (file, name)
  | Err (status, code) =>
      (status = 400 /\ (isValidRunId a = false \/ isValidRunId b = false \/ a = b) \/ status = 404 /\ (Runs.getRun a f = None \/ Runs.getRun b f = None)) /\
      (compare_export_GET num_str fixed get f = Err (status, code) \/ compare_export_GET num_str fixed get f = Err (400, "bad_format"))
  end /\
  (let '(x, y) := parseCompareParams get in
   (forall i, x = Some i \/ y = Some i -> isValidRunId i = true) /\ (forall i, x = Some i -> y <> Some i)).
Proof.
  cbv zeta. split.
  - unfold compare_GET, compare_export_GET, both_runs. cbv zeta. set (a := trim (default "" (get "a"))). set (b := trim (default "" (get "b"))).
    assert (forall s, truthy s = false -> isValidRunId s = false) as Hempty by (by intros s ->%truthy_false).
    set (known := assoc (to_lower (default "csv" (get "format"))) _).
    destruct (truthy a) eqn:Ta; cbn [negb orb]; [|cbn [result_bind]; split; [left; split; [done|left; by apply Hempty]|destruct known; [by left|by right]]].
    destruct (truthy b) eqn:Tb; cbn [negb]; [|cbn [result_bind]; split; [left; split; [done|right; left; by apply Hempty]|destruct known; [by left|by right]]].
    destruct (isValidRunId a) eqn:Va; cbn [negb orb]; [|cbn [result_bind]; split; [left; by auto|destruct known; [by left|by right]]].
    destruct (isValidRunId b) eqn:Vb; cbn [negb]; [|cbn [result_bind]; split; [left; by auto|destruct known; [by left|by right]]].
    destruct (String.eqb_spec a b) as [Eab|Eab]; [cbn [result_bind]; split; [left; by auto|destruct known; [by left|by right]]|].
    destruct (Runs.getRun a f) as [ra|]; [|cbn [result_bind]; split; [right; by auto|destruct known; [by left|by right]]].
    destruct (Runs.getRun b f) as [rb|]; [|cbn [result_bind]; split; [right; by auto|destruct known; [by left|by right]]].
    cbn [result_bind]. split_and!; try done. intros format Hf Hin. subst known. rewrite Hf. cbn [default from_option].
    rewrite !elem_of_cons, elem_of_nil in Hin. destruct_or! Hin; subst; by eexists _, _.
  - unfold parseCompareParams, valid_id. destruct (get "a") as [x|], (get "b") as [y|]; cbv zeta iota;
      repeat match goal with |- context [if isValidRunId ?s then _ else _] => destruct (isValidRunId s) eqn:? end;
      repeat match goal with |- context [String.eqb ?s ?t] => destruct (String.eqb_spec s t) end; split; intros; naive_solver.
Qed.
End Compared.

(** The header of the usage report says the file begins with a comment row of
    totals; it begins with the columns. *)
Lemma usage_has_no_comment_row `{FloatOps} num_str u : starts_with "date,count," (usageToCSV num_str u) = true.
Proof. unfold usageToCSV, document. cbn [fmap list_fmap]. by destruct (line ∘ usage_cells num_str u <$> _). Qed.

Lemma execution_has_no_comment_row `{FloatOps} num_str fixed r : starts_with "ticker,side," (executionToCSV num_str fixed r) = true.
Proof. unfold executionToCSV, document. by destruct (line ∘ exec_cells num_str fixed r <$> _). Qed.

Section Demo.
#[local] Instance demo_arith : FloatOps := {| fadd a _ := a; fsub a _ := a; fmul a _ := a; fdiv a _ := a; toFixed _ a := a |}.
Definition demo_usage : UsageSummary :=
  {| used := int 3; limit := int 9; remaining := int 6; period_start := "=now()"; period_end := "a,b"; by_day := [("2026-01-02", int 1); ("2026-01-01", int 2)] |}.

Lemma reports_read_back_witness :
  parse_csv (usageToCSV (fun _ => "4") demo_usage) =
  Some [usage_header; ["2026-01-01"; "4"; "4"; "4"; "4"; "4"; "'=now()"; "a,b"]; ["2026-01-02"; "4"; "4"; "4"; "4"; "4"; "'=now()"; "a,b"]].
Proof.
  refine (proj1 (reports_read_back (fun _ => "4") (fun _ _ => "0.5") (fun _ => eq_refl) (fun _ _ => eq_refl) demo_usage
    {| x_ticker := ""; x_side := ""; arrival_price := NaN; avg_fill_price := NaN; interval_vwap := NaN; vs_arrival := NaN; vs_vwap := NaN; fills := [] |}
    {| positions := []; total_market_value := NaN; weights := [] |} {| tickers := []; matrix := []; c_window := NaN |}
    {| d_window := NaN; d_threshold := NaN; n_tickers := NaN; avg_pairwise := NaN; max_pairwise := NaN; most_correlated := None; clusters := []; warnings := [] |}
    {| benchmark := ""; asof := ""; overweight := []; underweight := []; scores := []; skipped_unknown := []; skipped_short := [] |}
    {| meta_a := {| m_id := ""; m_label := ""; m_ticker := ""; m_lookback := NaN; m_created := "" |};
       meta_b := {| m_id := ""; m_label := ""; m_ticker := ""; m_lookback := NaN; m_created := "" |} |}
    {| s_a := {| bars := 0; s_mix := []; s_regime := None; s_confidence := None; pct_change := None |};
       s_b := {| bars := 0; s_mix := []; s_regime := None; s_confidence := None; pct_change := None |}; mix_diff := [] |})).
Defined.

Definition demo_side (t i : string) : MetaSide := {| m_id := i; m_label := ""; m_ticker := t; m_lookback := int 9; m_created := "" |}.

Lemma download_names_safe_witness :
  rotationFilename ("SPY" +:+ (String DQ "") +:+ "; x=") "csv" 0 = "signalclaw-rotation-SPY_x_-1970-01-01-00-00-00.csv" /\
  str_forall name_char (rotationFilename ("SPY" +:+ (String DQ "") +:+ "; x=") "csv" 0) = true.
Proof.
  split; [vm_compute; reflexivity|].
  pose proof (download_names_safe {| meta_a := demo_side "../A" "run_aa"; meta_b := demo_side "B" "run_bb" |} as_csv demo_usage "SPY" "buy"
    ("SPY" +:+ (String DQ "") +:+ "; x=") "csv" 0 ltac:(vm_compute; split; discriminate) (or_introl eq_refl)) as Hn.
  rewrite !Forall_cons in Hn. apply Hn.
Defined.
End Demo.
