(* ===== verification/RunRoutes.v ===== *)
(** The routes of saved runs behind the pages: [web/app/api/runs] with its
    [bulk], [export], [tags], [[id]] and [[id]/export], and the Markdown of
    [web/lib/runStore.ts]. Answers are values: what [NextResponse.json] prints
    of a run is the run. The body of a request is [None] when it does not parse;
    the payload a posted value is taken for, the texts of numbers, number
    parsing, collation and dates in other formats are parameters. *)
From S2P Require Import Prelude JsNum JsDate IsoTime Json Store Runs.
From S2P Require Activity Exports Links Reports AuditLog.
#[local] Existing Instance Activity.events_persisted.

(** ** Markdown *)

Section Markdown.
Context `{FloatOps} (num_str : num -> string) (fixed : nat -> num -> string).

Abbreviation nl := Csv.nl.
Abbreviation tick := Reports.tick.
Abbreviation middot := Reports.middot.

(** [s.replace(/\r?\n/g, " ")]. *)
Fixpoint one_line (s : string) : string :=
  match s with
  | "" => ""
  | String c r =>
      if Ascii.eqb c (chr 10) then String " " (one_line r)
      else match r with
           | String d r' => if Ascii.eqb c (chr 13) && Ascii.eqb d (chr 10) then String " " (one_line r') else String c (one_line r)
           | "" => String c ""
           end
  end.

(** [s.replace(/\|/g, "\\|")]. *)
Fixpoint escape_bars (s : string) : string :=
  match s with
  | "" => ""
  | String c r => if Ascii.eqb c "|"%char then String "\" (String "|" (escape_bars r)) else String c (escape_bars r)
  end.

Definition esc (s : string) : string := one_line (escape_bars s).

Definition percent (digits : nat) (n : option num) : string :=
  match n with Some n => if is_finite n then fixed digits (fmul n (int 100)) +:+ "%" else "--" | None => "--" end.

Definition tag_text (ts : list string) : string := join " " ((fun t => tick +:+ "#" +:+ t +:+ tick) <$> ts).

Definition research_note : string := "SignalClaw is research tooling. Outputs may be wrong. Do your own work.".

Definition table_head : list string :=
  ["| Ticker | Label | Regime | Conf | Bars | Lookback | Tags | Saved | Run id |"; "| --- | --- | --- | ---: | ---: | ---: | --- | --- | --- |"].

Definition table_row (r : SavedRun) : string :=
  let snap := snapshot (payload r) in
  let ts := default [] (tags r) in
  Reports.md_row [esc (ticker r); esc (label r); match snap with Some s => to_upper (s_label s) | None => "--" end; percent 1 (confidence <$> snap);
                  pretty (bars r); num_str (lookback_days r) +:+ "d"; if 0 <? len ts then tag_text ts else "--"; created r; tick +:+ id r +:+ tick].

Definition table_title (rs : runs) : list string := ["# SignalClaw runs (" +:+ pretty (len rs) +:+ ")"; ""].

Definition runsToMarkdown (rs : runs) : string :=
  join nl (table_title rs ++
    (if len rs =? 0 then ["_No runs matched the current filters._"; ""]
     else table_head ++ (table_row <$> rs) ++ [""; "---"; ""; "_" +:+ research_note +:+ "_"])) +:+ nl.

Definition is_zero (n : num) : bool := num_le n (int 0) && num_le (int 0) n.

Definition fmtNum (digits : nat) (n : num) : string := if is_finite n then fixed digits n else "--".

Definition period_return (close : list num) : string :=
  match head close, last close with
  | Some a, Some b => if is_zero a then "--" else fixed 2 (fmul (fsub (fdiv b a) (int 1)) (int 100)) +:+ "%"
  | _, _ => "--"
  end.

Definition field_row (name value : string) : string := Reports.md_row [name; value].

Definition snapshot_lines (s : option Snapshot) : list string :=
  match s with
  | Some s =>
      ["| Field | Value |"; "| --- | --- |"; field_row "Regime" (to_upper (s_label s));
       field_row "Confidence" (fixed 0 (fmul (confidence s) (int 100)) +:+ "%");
       field_row "Realized vol (annualized, 20d)" (percent 2 (Some (realized_vol s)));
       field_row "Trend slope (OLS on log price)" (fmtNum 4 (trend_slope s));
       field_row "Drawdown from recent high" (percent 2 (Some (drawdown s)));
       field_row "Risk scale" (fmtNum 2 (risk_scale s)); field_row "As of" (as_of s)]
  | None => ["_no snapshot_"]
  end.

Definition bar_text (d : option string) (c : option num) : string :=
  let d := default "" d in
  (if truthy d then d else "--") +:+ match c with Some c => " (" +:+ num_str c +:+ ")" | None => "" end.

Definition window_lines (p : Payload) : list string :=
  ["| Field | Value |"; "| --- | --- |"; field_row "First bar" (bar_text (head (dates p)) (head (close p)));
   field_row "Last bar" (bar_text (last (dates p)) (last (close p))); field_row "Period return" (period_return (close p))].

Definition mix_lines (counts : list (string * num)) : list string :=
  let total := fold_left (fun a b => fadd a b.2) counts (int 0) in
  let pct v := if num_lt (int 0) total then fixed 1 (fmul (fdiv v total) (int 100)) +:+ "%" else "--" in
  ["| Regime | Bars | Share |"; "| --- | ---: | ---: |"] ++
  ((fun k => let v := Reports.or_zero (assoc k counts) in Reports.md_row [k; num_str v; pct v]) <$> Reports.REGIME_ORDER).

(** [s.split(/\r?\n/)]: a carriage return before the break belongs to it. *)
Definition drop_cr (s : string) : string := if ends_with_char (chr 13) s then drop_last s else s.
Fixpoint drop_crs (l : list string) : list string :=
  match l with [] => [] | [s] => [s] | s :: r => drop_cr s :: drop_crs r end.
Definition text_lines (s : string) : list string := drop_crs (split nl s).

(** [ln.replace(/^(#+)/, "\\$1")]. *)
Definition note_line (ln : string) : string := if starts_with "#" ln then String "\" ln else ln.

Definition note_lines (notes : option string) : list string :=
  match notes with
  | Some n => if truthy n && (0 <? str_len (trim n)) then [""; "## Notes"; ""] ++ (note_line <$> text_lines n) else []
  | None => []
  end.

Definition runToMarkdown (run : SavedRun) : string :=
  let p := payload run in
  let ts := default [] (tags run) in
  join nl
    (["# " +:+ label run; "";
      "**" +:+ ticker run +:+ "**" +:+ middot +:+ num_str (lookback_days run) +:+ "d window" +:+ middot +:+ pretty (bars run) +:+ " bars" +:+ middot
        +:+ "saved " +:+ created run] ++
     (if 0 <? len ts then [""; "Tags: " +:+ tag_text ts] else []) ++
     [""; "## Snapshot"; ""] ++ snapshot_lines (snapshot p) ++
     [""; "## Window"; ""] ++ window_lines p ++
     [""; "## Regime mix"; ""] ++ mix_lines (counts p) ++
     note_lines (notes run) ++
     [""; "---"; ""; "_" +:+ (if truthy (disclaimer p) then disclaimer p else research_note) +:+ "_";
      "_Run id: " +:+ tick +:+ id run +:+ tick +:+ "_"]) +:+ nl.
End Markdown.

(** ** The routes *)

Inductive refusal :=
  | bad_json | bad_ticker | bad_lookback | bad_payload | empty_payload | payload_too_large
  | no_fields | not_found | bad_label | label_too_long | bad_tags | bad_notes | notes_too_long | bad_pinned
  | bad_action | bad_ids | too_many | bad_format | Throws.

Definition status (e : refusal) : Z := match e with not_found => 404 | Throws => 500 | _ => 400 end.

Definition GET (key : string) (f : file runs) : result SavedRun refusal :=
  match getRun key f with Some r => Ok r | None => Err not_found end.

Definition DELETE (key : string) (f : file runs) : result unit refusal * file runs :=
  let '(ok, f) := deleteRun key f in (if ok : bool then Ok tt else Err not_found, f).

(** *** PATCH *)

(** [if (!current) return err(404, ...)]. *)
Definition found (x : option SavedRun * file runs) : result SavedRun refusal * file runs :=
  (match x.1 with Some r => Ok r | None => Err not_found end, x.2).

Definition and_then (x : result SavedRun refusal * file runs) (k : SavedRun -> file runs -> result SavedRun refusal * file runs) :=
  match x.1 with Ok r => k r x.2 | Err e => (Err e, x.2) end.

Definition patch_label (key : string) (v : jval) (cur : SavedRun) (f : file runs) : result SavedRun refusal * file runs :=
  match v with
  | None => (Ok cur, f)
  | Some v =>
      let label := match v with JStr s => trim s | _ => "" end in
      if negb (truthy label) then (Err bad_label, f)
      else if str_len label >? 80 then (Err label_too_long, f)
      else found (renameRun key label f)
  end.

Definition patch_tags (key : string) (v : jval) (cur : SavedRun) (f : file runs) : result SavedRun refusal * file runs :=
  match v with
  | None => (Ok cur, f)
  | Some (JArr l) => found (setRunTags key (Some (JArr l)) f)
  | Some _ => (Err bad_tags, f)
  end.

Definition patch_notes (key : string) (v : jval) (cur : SavedRun) (f : file runs) : result SavedRun refusal * file runs :=
  match v with
  | None => (Ok cur, f)
  | Some (JStr s) =>
      if str_len s >? Z.of_nat MAX_NOTES_LEN * 2 then (Err notes_too_long, f) else found (setRunNotes key (Some (JStr s)) f)
  | Some JNull => found (setRunNotes key (Some (JStr "")) f)
  | Some _ => (Err bad_notes, f)
  end.

Definition patch_pinned (key : string) (v : jval) (now : Z) (cur : SavedRun) (f : file runs) : result SavedRun refusal * file runs :=
  match v with
  | None => (Ok cur, f)
  | Some (JBool b) => found (setRunPinned key b now f)
  | Some _ => (Err bad_pinned, f)
  end.

Record PatchAnswer := { a_id : string; a_label : string; a_tags : list string; a_notes : string; a_pinned : bool; a_pinned_at : option iso }.

Definition patch_answer (r : SavedRun) : PatchAnswer :=
  {| a_id := id r; a_label := label r; a_tags := default [] (tags r); a_notes := default "" (notes r); a_pinned := is_pinned r;
     a_pinned_at := default None (pinned_at r) |}.

Definition answer_of (x : result SavedRun refusal * file runs) : result PatchAnswer refusal * file runs :=
  (match x.1 with Ok r => Ok (patch_answer r) | Err e => Err e end, x.2).

Definition has_field (body : json) : bool :=
  existsb (fun k => bool_decide (is_Some (field k body))) ["label"; "tags"; "notes"; "pinned"].

Definition patch_fields (key : string) (body : json) (now : Z) (cur : SavedRun) (f : file runs) : result SavedRun refusal * file runs :=
  and_then (patch_label key (field "label" body) cur f) (fun cur f =>
  and_then (patch_tags key (field "tags" body) cur f) (fun cur f =>
  and_then (patch_notes key (field "notes" body) cur f) (fun cur f =>
  patch_pinned key (field "pinned" body) now cur f))).

Definition PATCH (key : string) (body : option json) (now : Z) (f : file runs) : result PatchAnswer refusal * file runs :=
  match body with
  | None => (Err bad_json, f)
  | Some body =>
      if negb (has_field body) then (Err no_fields, f) else
      match getRun key f with
      | None => (Err not_found, f)
      | Some cur =>
          answer_of (patch_fields key body now cur f)
      end
  end.

(** *** POST *)

Definition is_array (v : jval) : bool := match v with Some (JArr _) => true | _ => false end.
(** [typeof v === "object"]. *)
Definition typeof_object (v : jval) : bool := match v with Some (JNull | JArr _ | JObj _) => true | _ => false end.

Section Routes.
Context `{FloatOps} (double_text : num -> string) (payload_of : json -> Payload).
Context (parseInt : string -> option Z) (parseFloat : string -> num).
Context (localeCompare : string -> string -> Z) (other_dates : string -> option Z).

Abbreviation num_str := (AuditLog.num_text double_text).

Record PostInput := { p_label : jval; p_of : string; p_lookback : num; p_payload : json; p_tags : jval }.

Definition bars_of (payload : json) : list json := array_or_empty (field "dates" payload).

Definition check_payload (v : jval) : result json refusal :=
  match v with
  | Some ((JObj _) as p) =>
      if negb (is_array (field "dates" p)) || negb (is_array (field "close" p)) || negb (is_array (field "regime" p)) ||
         negb (typeof_object (field "counts" p)) then Err bad_payload
      else if len (bars_of p) =? 0 then Err empty_payload
      else if len (bars_of p) >? 5000 then Err payload_too_large
      else Ok p
  | _ => Err bad_payload
  end.

Definition check_post (body : option json) : result PostInput refusal :=
  match body with
  | None => Err bad_json
  | Some body =>
      match field "ticker" body with
      | Some (JStr ticker) =>
          if (str_len ticker =? 0) || (str_len ticker >? 32) then Err bad_ticker else
          match field "lookback_days" body with
          | Some (JNum n) =>
              if num_lt n (int 1) || num_lt (int 10000) n then Err bad_lookback else
              result_bind (check_payload (field "payload" body)) (fun p =>
                Ok {| p_label := field "label" body; p_of := ticker; p_lookback := n; p_payload := p; p_tags := field "tags" body |})
          | _ => Err bad_lookback
          end
      | _ => Err bad_ticker
      end
  end.

Definition safeLabel (i : PostInput) : string :=
  let fallback := p_of i +:+ Reports.middot +:+ num_str (p_lookback i) +:+ "d" in
  match p_label i with Some (JStr l) => if 0 <? str_len (trim l) then str_take 80 (trim l) else fallback | _ => fallback end.

Definition run_input (i : PostInput) : RunInput :=
  {| in_label := safeLabel i; in_ticker := p_of i; in_lookback_days := p_lookback i;
     in_tags := tags_json (normalizeTags (p_tags i)); in_notes := None; in_key_id := None; in_key_label := None;
     in_payload := payload_of (p_payload i) |}.

Record stores := { saved : file runs; feed : file (list Activity.ActivityEvent) }.

Record PostAnswer := { o_id : string; o_label : string; o_created_at : iso; o_tags : list string }.

Definition saved_event (r : SavedRun) : Activity.RecordInput :=
  {| Activity.i_kind := "run.saved"; Activity.i_title := Some (JStr ("Saved run" +:+ Reports.middot +:+ ticker r));
     Activity.i_body := Some (JStr (label r +:+ Reports.middot +:+ default "unknown regime" (s_label <$> snapshot (payload r))));
     Activity.i_href := Some (JStr ("/r/" +:+ id r)) |}.

(** [newId] and [eventId] are drawn; [clk 0] and [clk 1] stamp the run and the
    event. *)
Definition POST (body : option json) (newId eventId : string) (clk : nat -> Z) (s : stores) : result PostAnswer refusal * stores :=
  match check_post body with
  | Err e => (Err e, s)
  | Ok i =>
      let '(run, f) := createRun (run_input i) newId (clk 0%nat) (saved s) in
      (Ok {| o_id := id run; o_label := label run; o_created_at := created_at run; o_tags := default [] (tags run) |},
       {| saved := f; feed := Activity.recordSafe (saved_event run) eventId (clk 1%nat) (feed s) |})
  end.

(** *** The list *)

Definition parseIntParam (v : option string) (fallback : Z) : Z := match v with None => fallback | Some s => default fallback (parseInt s) end.

Definition list_query (get : string -> option string) : QueryOpts :=
  {| q := Some (default "" (get "q")); o_regime := Some (default "" (get "regime")); o_ticker := Some (default "" (get "ticker"));
     o_tag := Some (default "" (get "tag")); o_pinned := bool_decide (get "pinned" = Some "1") || bool_decide (get "pinned" = Some "true");
     since := Links.nonempty (default "" (get "since")); until := Links.nonempty (default "" (get "until"));
     minConfidence := Links.parseMinConfidence parseFloat (get "min_confidence"); maxConfidence := Links.parseMaxConfidence parseFloat (get "max_confidence");
     minBars := Links.parseMinBars parseFloat (get "min_bars"); maxBars := Links.parseMaxBars parseFloat (get "max_bars");
     sort := Some (Links.sort_of (to_lower (default "" (get "sort")))); limit := Some (parseIntParam (get "limit") 25);
     offset := Some (parseIntParam (get "offset") 0); ownerFilter := None |}.

Record ListItem := {
  l_id : string; l_label : string; l_ticker : string; l_lookback : num; l_created_at : iso; l_tags : list string; l_notes : string;
  l_pinned : bool; l_pinned_at : option iso; l_bars : Z; l_regime : option string; l_confidence : option num;
  l_owner : option (string * option string) }.

Definition list_item (r : SavedRun) : ListItem :=
  {| l_id := id r; l_label := label r; l_ticker := ticker r; l_lookback := lookback_days r; l_created_at := created_at r;
     l_tags := default [] (tags r); l_notes := default "" (notes r); l_pinned := is_pinned r; l_pinned_at := default None (pinned_at r);
     l_bars := bars r; l_regime := s_label <$> snapshot (payload r); l_confidence := confidence <$> snapshot (payload r);
     l_owner := match created_by_key_id r with Some w => if truthy w then Some (w, created_by_key_label r) else None | None => None end |}.

Record ListAnswer := { items : list ListItem; l_total : Z; l_limit : Z; l_offset : Z; has_more : bool }.

Definition runs_GET (get : string -> option string) (f : file runs) : ListAnswer :=
  let out := queryRuns localeCompare other_dates (list_query get) f in
  {| items := list_item <$> page out; l_total := total out; l_limit := r_limit out; l_offset := r_offset out;
     has_more := r_offset out + len (list_item <$> page out) <? total out |}.

Definition tags_GET (f : file runs) : list (string * Z) := listTags localeCompare f.

(** *** Files *)

Context (fixed : nat -> num -> string).

Inductive body_of := Text (s : string) | Selection (requested : Z) (rs : runs) | Matches (total : Z) (rs : runs) | Single (r : SavedRun).
Record download := { d_name : string; d_type : string; d_body : body_of }.

(** csv, json, md or its long name. *)
Definition format_of (raw : string) : option Links.ExportFormat := Links.parseExportFormat (Some raw).

Definition list_body (f : Links.ExportFormat) (rs : runs) (as_json : body_of) : body_of :=
  match f with Links.as_json => as_json | Links.md => Text (runsToMarkdown num_str fixed rs) | Links.csv => Text (Exports.runsToCSV num_str rs) end.

Definition selected (f : Links.ExportFormat) (requested : Z) (rs : runs) (now : Z) : download :=
  {| d_name := "signalclaw-runs-selected-" +:+ Links.stamp now +:+ "." +:+ Links.extension f; d_type := Links.contentType f;
     d_body := list_body f rs (Selection requested rs) |}.

Definition export_GET (get : string -> option string) (now : Z) (f : file runs) : result (Links.params * body_of) refusal :=
  match Links.parseExportFormat (get "format") with
  | None => Err bad_format
  | Some fmt =>
      let out := queryRuns localeCompare other_dates (Links.parseExportQuery parseInt parseFloat get) f in
      Ok (Links.exportHeaders (total out) (len (page out)) fmt now, list_body fmt (page out) (Matches (total out) (page out)))
  end.

Definition name_char (c : Ascii.ascii) : bool := Reports.id_char c || Ascii.eqb c "."%char.
Definition safe_name (s : string) : string := str_map (fun c => if name_char c then c else "_"%char) s.

Definition run_export_GET (key : string) (format : option string) (f : file runs) : result download refusal :=
  match format_of (default "csv" format) with
  | None => Err bad_format
  | Some fmt =>
      match getRun key f with
      | None => Err not_found
      | Some run =>
          Ok {| d_name := "signalclaw-" +:+ safe_name (ticker run) +:+ "-" +:+ id run +:+ "." +:+ Links.extension fmt; d_type := Links.contentType fmt;
                d_body := match fmt with
                          | Links.as_json => Single run
                          | Links.md => Text (runToMarkdown num_str fixed run)
                          | Links.csv => Text (Exports.runsToCSV num_str [run])
                          end |}
      end
  end.

(** *** Bulk *)

Definition MAX_BULK : Z := 200.

Definition action_of (a : string) : option BulkAction :=
  assoc a [("delete", BDelete); ("pin", BPin); ("unpin", BUnpin); ("add_tags", BAddTags); ("remove_tags", BRemoveTags); ("set_tags", BSetTags)].

Definition takes_tags (a : BulkAction) : bool := match a with BAddTags | BRemoveTags | BSetTags => true | _ => false end.

Inductive BulkAnswer := Exported (d : download) | Performed (action : BulkAction) (res : BulkResult).

Definition text_or (fallback : string) (v : jval) : string := match v with Some (JStr s) => s | _ => fallback end.

Definition bulk_ids (body : json) : result (list string) refusal :=
  match field "ids" body with
  | Some (JArr l) =>
      if len l =? 0 then Err bad_ids else if len l >? MAX_BULK then Err too_many else
      let ids := filter (fun v => truthy v = true) (strings_of l) in
      if len ids =? 0 then Err bad_ids else Ok ids
  | _ => Err bad_ids
  end.

Definition bulk_export (ids : list string) (body : json) (now : Z) (f : file runs) : result BulkAnswer refusal :=
  match format_of (text_or "csv" (field "format" body)) with
  | None => Err bad_format
  | Some fmt => Ok (Exported (selected fmt (len ids) (omap (fun i => getRun i f) ids) now))
  end.

Definition bulk_request (body : json) (now : Z) (f : file runs) : result BulkAnswer refusal * file runs :=
  let action := text_or "" (field "action" body) in
  if negb (truthy action) then (Err bad_action, f) else
  match bulk_ids body with
  | Err e => (Err e, f)
  | Ok ids =>
      if String.eqb action "export" then (bulk_export ids body now f, f) else
      match action_of action with
      | None => (Err bad_action, f)
      | Some a =>
          if takes_tags a && negb (is_array (field "tags" body)) then (Err bad_tags, f) else
          let '(res, f) := bulkRunOp (JStr <$> ids) a (field "tags" body) now f in (Ok (Performed a res), f)
      end
  end.

(** A property of [null] throws. *)
Definition bulk_POST (body : option json) (now : Z) (f : file runs) : result BulkAnswer refusal * file runs :=
  match body with None => (Err bad_json, f) | Some JNull => (Err Throws, f) | Some body => bulk_request body now f end.
End Routes.

(** * What the routes do *)

(** ** A patch settles in the order of its fields *)

Lemma list_find_insert {A} (P : A -> Prop) `{forall x, Decision (P x)} (l : list A) i x y :
  list_find P l = Some (i, x) -> P y -> list_find P (<[i := y]> l) = Some (i, y).
Proof.
  intros (Hi & _ & Hlt)%list_find_Some Hy. apply list_find_Some. split_and!; [|done|].
  - apply list_lookup_insert_eq. by eapply lookup_lt_Some.
  - intros j z Hj Hlt'. rewrite list_lookup_insert_ne in Hj by lia. by eapply Hlt.
Qed.

Lemma complete_insert (s : runs) i r : complete s -> ensureTags r = r -> complete (<[i := r]> s).
Proof. rewrite !complete_forall. intros Hs Hr. by apply Forall_insert. Qed.

(** An assignment to a row that leaves it complete and with its id. *)
Definition edits (g : SavedRun -> SavedRun) : Prop := forall r, ensureTags r = r -> ensureTags (g r) = g r /\ id (g r) = id r.

Lemma edit_found key g post f i r : edits g -> (forall r, ensureTags r = r -> post r = r) ->
  list_find (fun r => id r = key) (read_file f) = Some (i, r) ->
  let '(o, f') := on_file (edit_tx key g post) f in
  o = Some (g r) /\ read_file f' = <[i := g r]> (read_file f) /\ list_find (fun r => id r = key) (read_file f') = Some (i, g r).
Proof.
  intros Hg Hp Hf. pose proof (on_file_result (edit_tx key g post) f) as Hr. pose proof (read_complete f) as Hc.
  assert (ensureTags r = r) as Er.
  { apply complete_forall in Hc. apply list_find_Some in Hf as (Hi & _). exact (Forall_lookup_1 _ _ _ _ Hc Hi). }
  destruct (Hg r Er) as [Eg Hid].
  assert (writes_storable (edit_tx key g post) (read_file f)) as Hw.
  { intros s'. unfold edit_tx. rewrite Hf. intros [= <-]. by apply complete_insert. }
  apply on_file_view in Hw. destruct (on_file _ f) as [o f']. simpl in Hr, Hw. unfold edit_tx, after in Hr, Hw. rewrite Hf in Hr, Hw. cbn in Hr, Hw.
  rewrite Hp in Hr by done. rewrite Hw. split_and!; [done|done|]. apply list_find_insert with r; [done|]. rewrite Hid.
  by apply list_find_Some in Hf as (_ & ? & _).
Qed.

(** What a field of a patch asks for. *)
Inductive verdict := Absent | Refused (e : refusal) | Edits (g : SavedRun -> SavedRun).

Definition label_verdict (v : jval) : verdict :=
  match v with
  | None => Absent
  | Some v => let label := match v with JStr s => trim s | _ => "" end in
              if negb (truthy label) then Refused bad_label else if str_len label >? 80 then Refused label_too_long else Edits (with_label label)
  end.
Definition tags_verdict (v : jval) : verdict :=
  match v with None => Absent | Some (JArr l) => Edits (with_tags (normalizeTags (Some (JArr l)))) | Some _ => Refused bad_tags end.
Definition notes_verdict (v : jval) : verdict :=
  match v with
  | None => Absent
  | Some (JStr s) => if str_len s >? Z.of_nat MAX_NOTES_LEN * 2 then Refused notes_too_long else Edits (with_notes (normalizeNotes (Some (JStr s))))
  | Some JNull => Edits (with_notes "")
  | Some _ => Refused bad_notes
  end.
Definition pinned_verdict (now : Z) (v : jval) : verdict :=
  match v with None => Absent | Some (JBool b) => Edits (with_pin b now) | Some _ => Refused bad_pinned end.

(** The fields in the order of the route, up to the first that is refused. *)
Fixpoint settle (vs : list verdict) (r : SavedRun) : SavedRun * option refusal :=
  match vs with
  | [] => (r, None)
  | Absent :: vs => settle vs r
  | Refused e :: _ => (r, Some e)
  | Edits g :: vs => settle vs (g r)
  end.

Definition patch_verdicts (body : json) (now : Z) : list verdict :=
  [label_verdict (field "label" body); tags_verdict (field "tags" body); notes_verdict (field "notes" body); pinned_verdict now (field "pinned" body)].

Section Patch.
Context (key : string) (i : nat).

Definition at_row (r : SavedRun) (f : file runs) : Prop := list_find (fun r => id r = key) (read_file f) = Some (i, r).

(** A stage of the route carries out its verdict. *)
Definition carries_out (stage : SavedRun -> file runs -> result SavedRun refusal * file runs) (v : verdict) : Prop :=
  forall r f, at_row r f ->
  match v with
  | Absent => stage r f = (Ok r, f)
  | Refused e => stage r f = (Err e, f)
  | Edits g => let '(o, f') := stage r f in o = Ok (g r) /\ read_file f' = <[i := g r]> (read_file f) /\ at_row (g r) f'
  end.

Lemma found_edits g post : edits g -> (forall r, ensureTags r = r -> post r = r) ->
  carries_out (fun _ f => found (on_file (edit_tx key g post) f)) (Edits g).
Proof.
  intros Hg Hp r f Hf. pose proof (edit_found key g post f i r Hg Hp Hf) as H. unfold found.
  destruct (on_file _ f) as [o f']. cbn. by destruct H as (-> & ? & ?).
Qed.

Lemma label_carried v : carries_out (patch_label key v) (label_verdict v).
Proof.
  destruct v as [v|]; [|done]. unfold patch_label, label_verdict. cbv zeta. destruct (negb _); [done|]. destruct (_ >? _); [done|].
  apply found_edits; [|done]. intros r <-. done.
Qed.

Lemma tags_carried v : carries_out (patch_tags key v) (tags_verdict v).
Proof. destruct v as [[| | | |l|]|]; try done. apply found_edits; [|done]. intros r <-. done. Qed.

Lemma notes_carried v : carries_out (patch_notes key v) (notes_verdict v).
Proof.
  destruct v as [[| | |s| |]|]; try done; unfold patch_notes, notes_verdict; [|destruct (_ >? _); [done|]]; (apply found_edits; [|done]); intros r <-; done.
Qed.

Lemma pinned_carried now v : carries_out (patch_pinned key v now) (pinned_verdict now v).
Proof. destruct v as [[|b| | | |]|]; try done. apply found_edits; [|done]. intros r <-. done. Qed.

(** What [settle] makes of the row is what the file holds afterwards. *)
Definition settled (vs : list verdict) (r : SavedRun) (f : file runs) (x : result SavedRun refusal * file runs) : Prop :=
  let '(r', e) := settle vs r in
  x.1 = match e with Some e => Err e | None => Ok r' end /\ read_file x.2 = <[i := r']> (read_file f).

Lemma settled_step stage v vs k r f : carries_out stage v -> (forall r f, at_row r f -> settled vs r f (k r f)) -> at_row r f ->
  settled (v :: vs) r f (and_then (stage r f) k).
Proof.
  intros Hs Hk Hr. specialize (Hs r f Hr). unfold settled, and_then. cbn [settle]. destruct v as [|e|g].
  - rewrite Hs. exact (Hk r f Hr).
  - rewrite Hs. cbn. split; [done|]. symmetry. apply list_insert_id. by apply list_find_Some in Hr as (? & _).
  - destruct (stage r f) as [o f']. destruct Hs as (-> & Hv & Hr'). cbn. specialize (Hk (g r) f' Hr'). unfold settled in Hk.
    destruct (settle vs (g r)) as [r' e]. rewrite Hv, list_insert_insert_eq in Hk. exact Hk.
Qed.

Lemma settled_last stage v r f : carries_out stage v -> at_row r f -> settled [v] r f (stage r f).
Proof.
  intros Hs Hr. assert (stage r f = and_then (stage r f) (fun r f => (Ok r, f))) as ->.
  { unfold and_then. destruct (stage r f) as [[?|?] ?]; done. }
  apply settled_step; [done| |done]. intros r' f' Hr'. split; [done|]. symmetry. apply list_insert_id. by apply list_find_Some in Hr' as (? & _).
Qed.

Lemma patch_settled body now r f : at_row r f -> settled (patch_verdicts body now) r f (patch_fields key body now r f).
Proof.
  intros Hr. refine (settled_step _ _ _ _ _ _ (label_carried _) _ Hr). clear r f Hr. intros r f Hr.
  refine (settled_step _ _ _ _ _ _ (tags_carried _) _ Hr). clear r f Hr. intros r f Hr.
  refine (settled_step _ _ _ _ _ _ (notes_carried _) _ Hr). clear r f Hr. intros r f Hr.
  exact (settled_last _ _ _ _ (pinned_carried now _) Hr).
Qed.
End Patch.

(** A patch of a run changes that run and no other, and in it exactly the
    fields sent, each as it is normalised; the first field that is refused ends
    it, and what the fields before it asked for stays in the file. A body that
    does not parse or names no field, and the id of no run, change nothing. *)
Theorem patch_settles key body now f :
  let '(answer, f') := PATCH key body now f in
  match body, list_find (fun r => id r = key) (read_file f) with
  | None, _ => answer = Err bad_json /\ f' = f
  | Some body, found =>
      if negb (has_field body) then answer = Err no_fields /\ f' = f else
      match found with
      | None => answer = Err not_found /\ f' = f
      | Some (i, r) =>
          let '(r', e) := settle (patch_verdicts body now) r in
          answer = match e with Some e => Err e | None => Ok (patch_answer r') end /\ read_file f' = <[i := r']> (read_file f)
      end
  end.
Proof.
  unfold PATCH, getRun. destruct body as [body|]; [|done]. destruct (negb (has_field body)); [done|].
  destruct (list_find _ (read_file f)) as [[i r]|] eqn:Ef; [|done]. cbn [fmap option_fmap option_map snd].
  pose proof (patch_settled key i body now r f Ef) as H.
  unfold settled, answer_of in *.
  destruct (settle _ r) as [r' e]. destruct H as [-> ->]. by destruct e.
Qed.

(** ** A posted run *)

Lemma getRun_unique key f r : r ∈ read_file f -> id r = key -> (forall x, x ∈ read_file f -> id x = key -> x = r) -> getRun key f = Some r.
Proof.
  intros Hr Hid Hu. unfold getRun. destruct (list_find_elem_of (fun r => id r = key) (read_file f) r Hr Hid) as [[i x] Hf].
  rewrite Hf. cbn. f_equal. apply list_find_Some in Hf as (Hi & Hx & _). apply Hu; [|done]. by eapply list_elem_of_lookup_2.
Qed.

(** What the store holds after a run was saved was there before, or is the run. *)
Lemma create_view input newId now f :
  let s := read_file f in
  let run := new_run input newId now in
  let f' := snd (createRun input newId now f) in
  (forall r, r ∈ read_file f' -> r ∈ s \/ r = ensureTags run) /\ (Forall (fun r => not_older created run r) s -> ensureTags run ∈ read_file f').
Proof.
  cbv zeta. unfold createRun, on_file, create_tx. set (s := read_file f). set (run := new_run input newId now). cbn [snd].
  change (read_file (write_file (bound_size (s ++ [run])))) with (ensureTags <$> bound_size (s ++ [run])). split.
  - intros r (x & -> & Hx)%list_elem_of_fmap. destruct (bound_size_perm (s ++ [run])) as (d & Hp & _).
    assert (x ∈ s ++ [run]) as [Hin| ->%list_elem_of_singleton]%elem_of_app by (rewrite Hp; apply elem_of_app; by left); [|by right].
    left. pose proof (read_complete f) as Hc. apply complete_forall in Hc. rewrite Forall_forall in Hc. by rewrite (Hc x Hin).
  - intros Hnew. apply list_elem_of_fmap. exists run. split; [done|]. unfold bound_size.
    destruct (len (s ++ [run]) >? MAX_RUNS); [|apply elem_of_app; right; by apply list_elem_of_singleton].
    rewrite js_sort_snoc, sort_insert_head; [by left|]. apply Forall_forall. intros r Hr. rewrite js_sort_elem in Hr.
    rewrite Forall_forall in Hnew. unfold str_newest. by rewrite (Hnew r Hr).
Qed.

Lemma check_payload_ok v p : check_payload v = Ok p -> v = Some p /\ 1 <= len (bars_of p) <= 5000.
Proof.
  unfold check_payload. destruct v as [[| | | | |o]|]; try done. destruct (_ || _); [done|].
  destruct (len (bars_of _) =? 0) eqn:E0; [done|]. destruct (_ >? _) eqn:E1; [done|]. intros [= <-]. split; [done|]. unfold len in *. lia.
Qed.

Lemma check_post_ok body i : check_post body = Ok i -> exists j, body = Some j /\
  field "ticker" j = Some (JStr (p_of i)) /\ field "lookback_days" j = Some (JNum (p_lookback i)) /\ field "payload" j = Some (p_payload i) /\
  field "label" j = p_label i /\ field "tags" j = p_tags i /\
  1 <= str_len (p_of i) <= 32 /\ num_lt (p_lookback i) (int 1) = false /\ num_lt (int 10000) (p_lookback i) = false /\
  1 <= len (bars_of (p_payload i)) <= 5000.
Proof.
  unfold check_post. destruct body as [j|]; [|done]. destruct (field "ticker" j) as [[| | |t| |]|] eqn:Et; try done.
  destruct ((str_len t =? 0) || (str_len t >? 32)) eqn:El; [done|]. destruct (field "lookback_days" j) as [[| |n| | |]|] eqn:En; try done.
  destruct (num_lt n (int 1)) eqn:E1; [done|]. destruct (num_lt (int 10000) n) eqn:E2; [done|]. cbn [orb].
  destruct (check_payload (field "payload" j)) as [p|] eqn:Ep; [|done]. intros [= <-]. apply check_payload_ok in Ep as [Ep Hb].
  exists j. cbn. unfold str_len in *. split_and!; try done; lia.
Qed.

Section Posted.
Context (double_text : num -> string) (payload_of : json -> Payload).

(** The run a valid post saves: what was sent, with its label and tags cleaned. *)
Definition posted (i : PostInput) (newId : string) (now : Z) : SavedRun :=
  {| id := newId; label := safeLabel double_text i; ticker := p_of i; lookback_days := p_lookback i; created_at := Iso now;
     tags := Some (normalizeTags (p_tags i)); notes := Some ""; pinned := Some false; pinned_at := Some None;
     created_by_key_id := None; created_by_key_label := None; payload := payload_of (p_payload i) |}.

Lemma posted_run i newId now : ensureTags (new_run (run_input double_text payload_of i) newId now) = posted i newId now.
Proof. unfold posted, new_run, ensureTags, run_input. cbn -[normalizeTags tags_json]. by rewrite normalizeTags_fixed by apply normalizeTags_wf. Qed.

(** Posting a run either changes nothing or, when the ticker has 1 to 32
    characters, the window is between 1 and 10000 days and the payload has 1 to
    5000 bars, saves what was sent: read back by the id of the answer the run has
    the fields posted, when the id is new and no saved run is newer. *)
Theorem posted_run_reads_back body newId eventId clk s :
  let '(answer, s') := POST double_text payload_of body newId eventId clk s in
  match answer with
  | Err _ => s' = s
  | Ok a => exists i j, check_post body = Ok i /\ body = Some j /\
      field "ticker" j = Some (JStr (p_of i)) /\ field "lookback_days" j = Some (JNum (p_lookback i)) /\ field "payload" j = Some (p_payload i) /\
      1 <= str_len (p_of i) <= 32 /\ num_lt (p_lookback i) (int 1) = false /\ num_lt (int 10000) (p_lookback i) = false /\
      1 <= len (bars_of (p_payload i)) <= 5000 /\
      (newId ∉ (id <$> read_file (saved s)) ->
       Forall (fun r => str_lt (toISOString (clk 0%nat)) (created r) = false) (read_file (saved s)) ->
       o_id a = newId /\ GET (o_id a) (saved s') = Ok (posted i newId (clk 0%nat)))
  end.
Proof.
  unfold POST. destruct (check_post body) as [i|e] eqn:Ec; [|done].
  pose proof (create_view (run_input double_text payload_of i) newId (clk 0%nat) (saved s)) as [Hold Hnew].
  unfold createRun, on_file, create_tx in *. cbn [snd] in *. destruct (check_post_ok body i Ec) as (j & -> & ? & ? & ? & _ & _ & ? & ? & ? & ?).
  exists i, j. split_and!; try done; try lia. intros Hid Hn. split; [done|]. unfold GET. cbn [saved o_id].
  rewrite posted_run in Hold, Hnew. erewrite getRun_unique; [done| |done|].
  - apply Hnew. eapply Forall_impl; [exact Hn|]. done.
  - intros x Hx Hxid. apply Hold in Hx as [Hx| ->]; [|done]. exfalso. apply Hid. apply list_elem_of_fmap. by exists x.
Qed.
End Posted.

(** ** Bulk requests *)

Lemma strings_of_length l : (length (strings_of l) <= length l)%nat.
Proof. unfold strings_of. induction l as [|j l IH]; [done|]. cbn [omap list_omap length]. destruct j; cbn [length]; lia. Qed.

Lemma bulk_ids_ok body ids : bulk_ids body = Ok ids -> 1 <= len ids <= MAX_BULK /\ Forall (fun v => truthy v = true) ids.
Proof.
  unfold bulk_ids. destruct (field "ids" body) as [[| | | |l|]|]; try done. destruct (len l =? 0); [done|]. destruct (len l >? MAX_BULK) eqn:El; [done|].
  cbv zeta. destruct (len (filter _ _) =? 0) eqn:E0; [done|]. intros [= <-]. split; [|apply Forall_forall; by intros x [? _]%list_elem_of_filter].
  pose proof (length_filter (fun v => truthy v = true) (strings_of l)). pose proof (strings_of_length l). unfold len in *. lia.
Qed.

Lemma named_ids ids : Forall (fun v => truthy v = true) ids -> forall i, i ∈ named (JStr <$> ids) <-> i ∈ ids.
Proof.
  intros Ht i. unfold named. rewrite dedup_elem, strings_of_fmap, list_elem_of_filter. rewrite Forall_forall in Ht. naive_solver.
Qed.

Definition rows_after (a : BulkAction) (incoming : list string) (now : Z) (ids : list string) (s : runs) : runs :=
  match a with
  | BDelete => filter (fun r => id r ∉ ids) s
  | _ => (fun r => if decide (id r ∈ ids) then row_after a incoming now r else r) <$> s
  end.

Lemma bulk_rows ids a tags_ now f : Forall (fun v => truthy v = true) ids ->
  let '(res, f') := bulkRunOp (JStr <$> ids) a tags_ now f in
  read_file f' = rows_after a (normalizeTags tags_) now ids (read_file f) /\ affected res = len (Runs.ids res).
Proof.
  intros Ht. pose proof (bulk_view (JStr <$> ids) a tags_ now f) as Hv. pose proof (bulk_result (JStr <$> ids) a tags_ now f) as Hr.
  destruct (bulkRunOp _ _ _ _ f) as [res f']. simpl in Hv, Hr. subst res. rewrite Hv. pose proof (named_ids ids Ht) as Hn.
  destruct (decide (a = BDelete)) as [->|Hd].
  - destruct (bulk_tx_delete (JStr <$> ids) tags_ now (read_file f)) as [-> ->]. split; [|done]. apply list_filter_iff. intros r. by rewrite Hn.
  - destruct (bulk_tx_rows (JStr <$> ids) a tags_ now (read_file f) Hd) as [-> ->]. split; [|done].
    unfold rows_after. destruct a; try done; apply list_fmap_ext; intros i r _; by rewrite (decide_ext _ _ _ _ (Hn (id r))).
Qed.

Definition action_name (a : BulkAction) : string :=
  match a with
  | BDelete => "delete" | BPin => "pin" | BUnpin => "unpin" | BAddTags => "add_tags" | BRemoveTags => "remove_tags" | BSetTags => "set_tags"
  end.

Lemma action_of_name t a : action_of t = Some a -> t = action_name a.
Proof.
  unfold action_of. cbn [assoc]. 
  repeat match goal with |- (if String.eqb t ?k then _ else _) = _ -> _ => destruct (String.eqb_spec t k) as [->|_]; [by intros [= <-]|] end. done.
Qed.

Lemma text_or_truthy v t : text_or "" v = t -> truthy t = true -> v = Some (JStr t).
Proof. intros <-. by destruct v as [[]|]. Qed.

Section Bulk.
Context `{FloatOps} (double_text : num -> string) (fixed : nat -> num -> string) (now : Z) (f : file runs).

(** A bulk request with body [j] names 1 to 200 runs and is carried out on them. *)
Definition carried_out (j : json) (x : BulkAnswer) (f' : file runs) : Prop :=
  exists ids, bulk_ids j = Ok ids /\ 1 <= len ids <= MAX_BULK /\
  match x with
  | Exported d => f' = f /\ exists fmt, d = selected double_text fixed fmt (len ids) (omap (fun i => getRun i f) ids) now
  | Performed a res =>
      field "action" j = Some (JStr (action_name a)) /\ affected res = len (Runs.ids res) /\
      read_file f' = rows_after a (normalizeTags (field "tags" j)) now ids (read_file f)
  end.

Lemma bulk_request_spec j :
  let '(answer, f') := bulk_request double_text fixed j now f in
  match answer with Err _ => f' = f | Ok x => carried_out j x f' end.
Proof.
  unfold bulk_request. cbv zeta. destruct (truthy _) eqn:Et; [|done]. cbn [negb].
  destruct (bulk_ids j) as [ids|] eqn:Ei; [|done]. destruct (bulk_ids_ok j ids Ei) as [Hl Ht]. destruct (String.eqb _ _).
  - unfold bulk_export. destruct (format_of _) as [fmt|]; [|done]. exists ids. eauto 10.
  - destruct (action_of _) as [a|] eqn:Ea; [|done]. destruct (_ && _); [done|]. pose proof (bulk_rows ids a (field "tags" j) now f Ht) as Hb.
    destruct (bulkRunOp _ _ _ _ f) as [res f']. destruct Hb as [Hv Hr]. exists ids. split_and!; try done; try lia.
    apply action_of_name in Ea. rewrite <- Ea. by apply text_or_truthy.
Qed.

(** A bulk request names 1 to 200 runs; an export changes nothing and holds
    the runs it names in their order; the other actions delete exactly the runs
    named, or put each of them in the state of the action, and touch no other; a
    request that is refused or throws changes nothing. *)
Theorem bulk_request_exact body :
  let '(answer, f') := bulk_POST double_text fixed body now f in
  match answer with Err _ => f' = f | Ok x => exists j, body = Some j /\ carried_out j x f' end.
Proof.
  assert (forall j, let '(answer, f') := bulk_request double_text fixed j now f in
    match answer with Err _ => f' = f | Ok x => exists k, Some j = Some k /\ carried_out k x f' end) as Hj.
  { intros j. pose proof (bulk_request_spec j) as Hs. destruct (bulk_request _ _ _ _ _) as [[x|] f']; [by exists j|done]. }
  destruct body as [[]|]; try done; apply Hj.
Qed.
End Bulk.

(** ** Where the code falls short *)

Definition demo_payload : Payload :=
  {| p_ticker := "AAPL"; dates := []; close := []; regime := []; counts := []; snapshot := None; disclaimer := "" |}.
Definition demo_run (i l : string) : SavedRun :=
  {| id := i; label := l; ticker := "AAPL"; lookback_days := int 30; created_at := Iso 0; tags := Some []; notes := Some ""; pinned := Some false;
     pinned_at := Some None; created_by_key_id := None; created_by_key_label := None; payload := demo_payload |}.

(** A patch that is refused has stored the fields before the one refused. *)
Lemma refused_patch_half_stored :
  PATCH "r1" (Some (JObj [("label", JStr "new"); ("tags", JNull)])) 0 (Some [demo_run "r1" "old"]) = (Err bad_tags, Some [demo_run "r1" "new"]).
Proof. vm_compute. reflexivity. Qed.

(** The body [null] is valid JSON and makes the bulk route throw. *)
Lemma null_bulk_throws double_text fixed `{FloatOps} now f : bulk_POST double_text fixed (Some JNull) now f = (Err Throws, f).
Proof. reflexivity. Qed.

(** A number sign behind a space still begins a heading. *)
Lemma indented_heading_kept : note_lines (Some ("a" +:+ Csv.nl +:+ " # b")) = [""; "## Notes"; ""; "a"; " # b"].
Proof. vm_compute. reflexivity. Qed.
