(* ===== verification/ListRoutes.v ===== *)
(** The routes of the watchlist and of the alerts behind the pages:
    [web/app/api/watchlist] with [[ticker]] and [bulk], [web/app/api/alerts] with
    [[id]], [check] and [history], and the files both lists are exported as. The
    alerts are those of the operator. The body of a request is [None] when it does
    not parse. *)
From S2P Require Import Prelude JsNum JsDate IsoTime Json Store Ticker.
From S2P Require Watchlist Alerts Activity V1Routes Links Csv Exports RunRoutes.
#[local] Existing Instances Alerts.alerts_persisted Watchlist.entries_persisted Activity.events_persisted.

Abbreviation middot := V1Routes.middot.
Abbreviation nl := Csv.nl.

(** ** Files *)

Section Files.
Context (num_str : num -> string).

Definition entry_line (e : Watchlist.WatchlistEntry) : string :=
  Watchlist.ticker e +:+ "," +:+ toISOString (Watchlist.added_at e) +:+ "," +:+
  String Csv.DQ (Csv.double_quotes (default "" (Watchlist.note e)) +:+ String Csv.DQ "") +:+ "," +:+
  default "" (num_str <$> Watchlist.target_low e) +:+ "," +:+ default "" (num_str <$> Watchlist.target_high e).

Definition entriesToCSV (entries : list Watchlist.WatchlistEntry) : string :=
  join nl ("ticker,added_at,note,target_low,target_high" :: (entry_line <$> entries)) +:+ nl.

(** [csvEscape] of [alertStore.ts]. *)
Definition csvEscape (v : string) : string := if String.eqb v "" then "" else Csv.csvCell v.

Definition event_cells (e : Alerts.AlertEvent) : list string :=
  [toISOString (Alerts.fired_at e); Alerts.e_ticker e; V1Routes.condition_name (Alerts.e_condition e); num_str (Alerts.e_value e);
   num_str (Alerts.observed e); Alerts.alert_id e; csvEscape (Alerts.e_note e)].

Definition eventsToCSV (events : list Alerts.AlertEvent) : string :=
  join nl ("fired_at,ticker,condition,value,observed,alert_id,note" :: ((fun e => join "," (event_cells e)) <$> events)) +:+ nl.

(** What [JSON.stringify] is given. *)
Inductive document := Text (s : string) | Entries (exported_at : Z) (l : list Watchlist.WatchlistEntry) | Fires (exported_at : Z) (l : list Alerts.AlertEvent).
Record download := { d_name : string; d_type : string; d_body : document }.

(** [from.toISOString()] without its milliseconds. *)
Definition seconds_stamp (now : Z) : string := let s := toISOString now in str_take (String.length s - 5) s +:+ "Z".
Definition plural (n : Z) : string := if n =? 1 then "" else "s".

Definition newlines (s : string) : string := str_map (fun c => if Ascii.eqb c (chr 10) then " "%char else c) s.
Definition row (cells : list string) : string := "| " +:+ join " | " cells +:+ " |".

Definition cross_text (c : Watchlist.Cross) : string :=
  (match Watchlist.side c with Watchlist.above_high => "above" | Watchlist.below_low => "below" end) +:+ " @ " +:+ num_str (Watchlist.price c) +:+
  " on " +:+ str_take 10 (toISOString (Watchlist.at_ c)).

Definition entry_row (e : Watchlist.WatchlistEntry) : string :=
  let esc s := newlines (RunRoutes.escape_bars s) in
  row [esc (Watchlist.ticker e); str_take 10 (toISOString (Watchlist.added_at e)); default "" (num_str <$> Watchlist.target_low e);
       default "" (num_str <$> Watchlist.target_high e); esc (default "" (Watchlist.note e)); esc (default "" (cross_text <$> Watchlist.last_cross e))].

Definition entriesToMarkdown (now : Z) (entries : list Watchlist.WatchlistEntry) : string :=
  let n := len entries in
  join nl (["# SignalClaw watchlist"; ""; "Exported " +:+ seconds_stamp now +:+ middot +:+ pretty n +:+ " ticker" +:+ plural n; ""] ++
    (if n =? 0 then ["_No tickers tracked yet._"; ""]
     else ["| Ticker | Added | Target low | Target high | Note | Last cross |"; "| --- | --- | --- | --- | --- | --- |"] ++ (entry_row <$> entries) ++ [""])).

Definition fire_row (e : Alerts.AlertEvent) : string :=
  row [toISOString (Alerts.fired_at e); RunRoutes.esc (Alerts.e_ticker e); RunRoutes.esc (V1Routes.condition_name (Alerts.e_condition e));
       num_str (Alerts.e_value e); num_str (Alerts.observed e); RunRoutes.esc (Alerts.alert_id e); RunRoutes.esc (Alerts.e_note e)].

Definition eventsToMarkdown (now : Z) (events : list Alerts.AlertEvent) : string :=
  let n := len events in
  join nl (["# SignalClaw alert fire history"; ""; "Exported " +:+ seconds_stamp now +:+ middot +:+ pretty n +:+ " fire" +:+ plural n; ""] ++
    (if n =? 0 then ["_No fires yet._"; ""]
     else ["| Fired at | Ticker | Condition | Value | Observed | Alert ID | Note |"; "| --- | --- | --- | --- | --- | --- | --- |"] ++
          (fire_row <$> events) ++ [""])).

(** A format of the exports, or the page. *)
Definition format_of (raw : option string) : option Links.ExportFormat :=
  assoc (to_lower (default "" raw)) [("csv", Links.csv); ("json", Links.as_json); ("md", Links.md); ("markdown", Links.md)].

Definition file_of (base : string) (f : Links.ExportFormat) (now : Z) (body : document) : download :=
  {| d_name := base +:+ Links.stamp now +:+ "." +:+ Links.extension f; d_type := Links.contentType f; d_body := body |}.

Inductive ListAnswer := Page (entries : list Watchlist.WatchlistEntry) (total limit : Z) | File (d : download).

Definition watchlist_GET (format : option string) (clk : clock) (f : file (list Watchlist.WatchlistEntry)) : ListAnswer :=
  let entries := Watchlist.listWatchlist f in
  match format_of format with
  | None => Page entries (len entries) Watchlist.MAX_TICKERS
  | Some fmt =>
      File (file_of "signalclaw-watchlist-" fmt (clk 0%nat)
        (match fmt with
         | Links.csv => Text (entriesToCSV entries)
         | Links.as_json => Entries (clk 1%nat) entries
         | Links.md => Text (entriesToMarkdown (clk 1%nat) entries)
         end))
  end.
End Files.

(** ** Requests *)

Inductive refusal :=
  | bad_json | bad_ticker | limit_reached | low_above_high | bad_request | not_found | bad_id | bad_field
  | Alert (e : Alerts.ValidationError) | Throws.

Definition status (e : refusal) : Z :=
  match e with limit_reached => 409 | not_found => 404 | Alert e => (V1Routes.alert_code e).1 | Throws => 500 | _ => 400 end.

Record stores := {
  watchlist : file (list Watchlist.WatchlistEntry); alerts : file (list (string * Alerts.TenantBucket)); feed : file (list Activity.ActivityEvent) }.

Definition with_watchlist x (s : stores) : stores := {| watchlist := x; alerts := alerts s; feed := feed s |}.
Definition with_alerts x (s : stores) : stores := {| watchlist := watchlist s; alerts := x; feed := feed s |}.

(** Ids drawn and clock readings of one request. *)
Record fresh := { f_id : string; f_event : string; f_now : clock }.

Section Routes.
Context `{FloatOps} (num_str : num -> string) (parseFloat_of Number_of : json -> num) (sha256 : string -> list Z).
Context (localeCompare : string -> string -> Z) (parseInt : string -> option Z) (fr : fresh).

(** The event is stamped by the [n]th reading of the clock. *)
Definition recordSafe (title body : string) (href : option string) (n : nat) (s : stores) : stores :=
  {| watchlist := watchlist s; alerts := alerts s;
     feed := Activity.recordSafe {| Activity.i_kind := "system"; Activity.i_title := Some (JStr title); Activity.i_body := Some (JStr body);
               Activity.i_href := JStr <$> href |} (f_event fr) (f_now fr n) (feed s) |}.

Definition answer (A : Type) : Type := result A refusal * stores.

(** *** Watchlist *)

Definition watchlist_POST (body : option json) (s : stores) : answer Watchlist.WatchlistEntry :=
  match body with
  | None => (Err bad_json, s)
  | Some body =>
      match normalizeTicker (field "ticker" body) with
      | None => (Err bad_ticker, s)
      | Some t =>
          let '(r, f) := Watchlist.addTicker t (Watchlist.normalizeNote (field "note" body)) (f_now fr 0%nat) (watchlist s) in
          let s := with_watchlist f s in
          match r with
          | Ok e => (Ok e, recordSafe ("Watchlist" +:+ middot +:+ "added " +:+ Watchlist.ticker e)
                             (default "tracked by daily pipeline" (Watchlist.note e)) (Some ("/ticker/" +:+ Watchlist.ticker e)) 1 s)
          | Err Watchlist.limit_reached => (Err limit_reached, s)
          | Err _ => (Err bad_request, s)
          end
      end
  end.

Definition ticker_DELETE (t : string) (s : stores) : answer string :=
  match normalizeTicker (Some (JStr t)) with
  | None => (Err bad_ticker, s)
  | Some t =>
      let '(ok, f) := Watchlist.removeTicker t (watchlist s) in
      let s := with_watchlist f s in
      if negb ok then (Err not_found, s)
      else (Ok t, recordSafe ("Watchlist" +:+ middot +:+ "removed " +:+ t) "no longer tracked" None 0 s)
  end.

(** [body && (k in body)]: [in] throws on a text, a number or [true]. *)
Definition names_target (body : json) : option bool :=
  if negb (jtruthy (Some body)) then Some false else
  match body with
  | JObj _ => Some (bool_decide (is_Some (field "target_high" body)) || bool_decide (is_Some (field "target_low" body)))
  | JArr _ => Some false
  | _ => None
  end.

Definition entry_or_404 (o : option Watchlist.WatchlistEntry) : result Watchlist.WatchlistEntry refusal :=
  match o with Some e => Ok e | None => Err not_found end.

Definition ticker_PATCH (t : string) (body : option json) (s : stores) : answer Watchlist.WatchlistEntry :=
  match normalizeTicker (Some (JStr t)), body with
  | None, _ => (Err bad_ticker, s)
  | _, None => (Err bad_json, s)
  | Some t, Some body =>
      match names_target body with
      | None => (Err Throws, s)
      | Some true =>
          let price k := Watchlist.normalizePrice parseFloat_of (field k body) in
          let '(r, f) := Watchlist.setTargets t (price "target_high") (price "target_low") (watchlist s) in
          (match r with Ok o => entry_or_404 o | Err Watchlist.low_above_high => Err low_above_high | Err _ => Err bad_request end, with_watchlist f s)
      | Some false =>
          let '(o, f) := Watchlist.updateNote t (Watchlist.normalizeNote (field "note" body)) (watchlist s) in (entry_or_404 o, with_watchlist f s)
      end
  end.

(** The symbols of a bulk request. *)
Definition bulk_raw (body : json) : jval :=
  match field "tickers" body, field "text" body with
  | Some (JArr l), _ => Some (JArr l)
  | _, Some (JStr t) => Some (JStr t)
  | _, _ => None
  end.

(** Five of the symbols, and how many more there are. *)
Definition preview (ts : list string) : string :=
  join ", " (take 5 ts) +:+ (if len ts >? 5 then " +" +:+ pretty (len ts - 5) +:+ " more" else "").

Definition bulk_event (verb : string) (ts : list string) (n : nat) (s : stores) : stores :=
  if len ts >? 0 then
    recordSafe ("Watchlist" +:+ middot +:+ verb +:+ " " +:+ pretty (len ts) +:+ " ticker" +:+ plural (len ts)) (preview ts) (Some "/watchlist") n s
  else s.

Definition bulk_POST (body : option json) (s : stores) : answer Watchlist.BulkAddResult :=
  match body with
  | None => (Err bad_json, s)
  | Some body =>
      match bulk_raw body with
      | None => (Err bad_request, s)
      | Some raw_ =>
          let '(r, f) := Watchlist.addTickersBulk (Some raw_) (f_now fr) (watchlist s) in
          (Ok r, bulk_event "imported" (Watchlist.ticker <$> Watchlist.added r) (length (Watchlist.added r)) (with_watchlist f s))
      end
  end.

Definition bulk_DELETE (body : option json) (s : stores) : answer Watchlist.BulkRemoveResult :=
  match body with
  | None => (Err bad_json, s)
  | Some body =>
      match bulk_raw body with
      | None => (Err bad_request, s)
      | Some raw_ =>
          let '(r, f) := Watchlist.removeTickersBulk (Some raw_) (watchlist s) in
          match r with
          | Err _ => (Err bad_request, s)
          | Ok r => (Ok r, bulk_event "removed" (Watchlist.removed r) 0 (with_watchlist f s))
          end
      end
  end.

(** *** Alerts *)

Definition alert_event (verb : string) (a : Alerts.Alert) (n : nat) (s : stores) : stores :=
  recordSafe ("Alert" +:+ middot +:+ verb +:+ " " +:+ Alerts.ticker a)
    (V1Routes.condition_name (Alerts.condition a) +:+ " " +:+ num_str (Alerts.value a)) (Some "/alerts") n s.

Definition alerts_POST (body : option json) (s : stores) : answer Alerts.Alert :=
  match body with
  | None => (Err bad_json, s)
  | Some JNull => (Err Throws, s)
  | Some body =>
      let '(r, f) := Alerts.createAlert parseFloat_of Number_of (V1Routes.alert_input (Some body)) None (f_id fr) (f_now fr 0%nat) (alerts s) in
      let s := with_alerts f s in
      match r with Err e => (Err (Alert e), s) | Ok a => (Ok a, alert_event "armed" a 1 s) end
  end.

Definition alert_DELETE (i : string) (s : stores) : answer string :=
  if negb (truthy i) then (Err bad_id, s) else
  let '(ok, f) := Alerts.deleteAlert i None (alerts s) in
  (if ok : bool then Ok i else Err not_found, with_alerts f s).

(** The only key is [enabled], and it is a boolean. *)
Definition toggle_of (body : json) : option bool := match body with JObj [(k, JBool b)] => if String.eqb k "enabled" then Some b else None | _ => None end.

Definition patch_of (body : json) : Alerts.AlertPatch :=
  {| Alerts.p_value := field "value" body; Alerts.p_note := field "note" body; Alerts.p_cooldown_hours := field "cooldown_hours" body;
     Alerts.p_enabled := field "enabled" body |}.

Definition alert_PATCH (i : string) (body : option json) (s : stores) : answer Alerts.Alert :=
  if negb (truthy i) then (Err bad_id, s) else
  match body with
  | None => (Err bad_json, s)
  | Some body =>
      match toggle_of body with
      | Some b =>
          let '(o, f) := Alerts.setAlertEnabled i b None (alerts s) in
          let s := with_alerts f s in
          match o with None => (Err not_found, s) | Some a => (Ok a, alert_event (if Alerts.enabled a then "enabled" else "disabled") a 0 s) end
      | None =>
          match body with
          | JNull => (Err Throws, s)
          | _ =>
              if Alerts.no_field (patch_of body) then (Err bad_field, s) else
              let '(r, f) := Alerts.updateAlert parseFloat_of Number_of i (patch_of body) None (alerts s) in
              let s := with_alerts f s in
              match r with Err e => (Err (Alert e), s) | Ok a => (Ok a, alert_event "edited" a 0 s) end
          end
      end
  end.

(** Quotes that are no finite numbers are left to the synthetic ones. *)
Definition prices_of (body : json) : list (string * num) :=
  match field "prices" body with
  | Some (JObj fs) => omap (fun kv => match kv.2 with JNum n => if is_finite n then Some (kv.1, n) else None | _ => None end) fs
  | _ => []
  end.

(** The text of the body: none is the empty object. *)
Inductive check_body := Empty | Unparsable | Body (j : json).

Definition check_POST (body : check_body) (s : stores) : answer Alerts.CheckResult :=
  let checked j :=
    let '(r, f) := Alerts.runCheck sha256 (prices_of j) false None (f_now fr) (alerts s) in
    let s := with_alerts f s in
    let n := len (Alerts.hits r) in
    (Ok r, if n >? 0 then recordSafe ("Alerts" +:+ middot +:+ pretty n +:+ " firing") (join ", " (Alerts.e_ticker <$> Alerts.hits r)) (Some "/alerts") (S (length (Alerts.r_quotes r))) s else s) in
  match body with Unparsable => (Err bad_json, s) | Empty => checked (JObj []) | Body j => checked j end.

Inductive HistoryAnswer := HistoryPage (total : Z) (limit offset : Z) (events : list Alerts.AlertEvent) | HistoryFile (d : download).

(** [parseInt(x || d, 10) || d]. *)
Definition int_or (d : Z) (v : option string) : Z :=
  match v with
  | Some t => if truthy t then match parseInt t with Some n => if n =? 0 then d else n | None => d end else d
  | None => d
  end.

Definition history_GET (get : string -> option string) (f : file (list (string * Alerts.TenantBucket))) : HistoryAnswer :=
  let text k := Links.nonempty (default "" (get k)) in
  let tick := match text "ticker" with Some t => normalizeTicker (Some (JStr t)) | None => None end in
  match format_of (get "format") with
  | Some fmt =>
      let events := Alerts.listAllHistory localeCompare tick (text "from") (text "to") None f in
      HistoryFile (file_of "signalclaw-alert-history-" fmt (f_now fr 0%nat)
        (match fmt with
         | Links.csv => Text (eventsToCSV num_str events)
         | Links.as_json => Fires (f_now fr 1%nat) events
         | Links.md => Text (eventsToMarkdown num_str (f_now fr 1%nat) events)
         end))
  | None =>
      let limit := Z.min 200 (Z.max 1 (int_or 25 (get "limit"))) in
      let offset := Z.max 0 (int_or 0 (get "offset")) in
      let '(total, events) := Alerts.listHistory localeCompare tick (text "from") (text "to") None (Z.to_nat limit) (Z.to_nat offset) f in
      HistoryPage total limit offset events
  end.
End Routes.

(** * What the routes do to the lists *)

Inductive request :=
  | AddTicker (body : option json) | DropTicker (t : string) | PatchTicker (t : string) (body : option json)
  | ImportTickers (body : option json) | DropTickers (body : option json)
  | AddAlert (body : option json) | DropAlert (i : string) | PatchAlert (i : string) (body : option json) | CheckAlerts (body : check_body).

Section Settled.
Context `{FloatOps} (num_str : num -> string) (parseFloat_of Number_of : json -> num) (sha256 : string -> list Z).

Abbreviation run_alerts := (Alerts.run_all parseFloat_of Number_of sha256).

Definition ok_of {A} (x : answer A) : bool * stores := (is_ok x.1, x.2).

Definition handle (fr : fresh) (r : request) (s : stores) : bool * stores :=
  match r with
  | AddTicker body => ok_of (watchlist_POST fr body s)
  | DropTicker t => ok_of (ticker_DELETE fr t s)
  | PatchTicker t body => ok_of (ticker_PATCH parseFloat_of t body s)
  | ImportTickers body => ok_of (bulk_POST fr body s)
  | DropTickers body => ok_of (bulk_DELETE fr body s)
  | AddAlert body => ok_of (alerts_POST num_str parseFloat_of Number_of fr body s)
  | DropAlert i => ok_of (alert_DELETE i s)
  | PatchAlert i body => ok_of (alert_PATCH num_str parseFloat_of Number_of fr i body s)
  | CheckAlerts body => ok_of (check_POST sha256 fr body s)
  end.

(** At most one operation of each store, on the operator's alerts. *)
Definition settles (s : stores) (x : bool * stores) : Prop :=
  (x.1 = false -> x.2 = s) /\
  (exists e, read_file (watchlist x.2) = Watchlist.run_all (option_list e) (read_file (watchlist s))) /\
  (exists e, Forall (fun e => Alerts.owner_of e = Alerts.OPERATOR_OWNER_ID) (option_list e) /\
     read_file (alerts x.2) = run_alerts (option_list e) (read_file (alerts s))).

Lemma refused_settles s : settles s (false, s).
Proof. split; [done|]. split; [by exists None|]. exists None. by split; [constructor|]. Qed.

Lemma watch_settles {R} (tx : Store.transaction (list Watchlist.WatchlistEntry) R) e s x : (forall l, Store.after tx l = Watchlist.run e l) ->
  watchlist x.2 = snd (on_file tx (watchlist s)) -> alerts x.2 = alerts s -> (x.1 = false -> x.2 = s) -> settles s x.
Proof.
  intros He Hw Ha Hf. split; [done|]. split; [exists (Some e); cbn; by rewrite Hw, on_file_view, He by done|]. exists None. rewrite Ha. by split; [constructor|].
Qed.

Lemma alert_settles {R} (tx : Store.transaction (list (string * Alerts.TenantBucket)) R) e s x :
  (forall l, Store.after tx l = Alerts.run parseFloat_of Number_of sha256 e l) -> Alerts.owner_of e = Alerts.OPERATOR_OWNER_ID ->
  alerts x.2 = snd (on_file tx (alerts s)) -> watchlist x.2 = watchlist s -> (x.1 = false -> x.2 = s) -> settles s x.
Proof.
  intros He Ho Ha Hw Hf. split; [done|]. split; [exists None; by rewrite Hw|]. exists (Some e). cbn. split; [by constructor|].
  by rewrite Ha, on_file_view, He by done.
Qed.

Lemma same_watchlist s : with_watchlist (watchlist s) s = s.
Proof. by destruct s. Qed.
Lemma same_alerts s : with_alerts (alerts s) s = s.
Proof. by destruct s. Qed.

(** An operation whose result is no change leaves the file. *)
Lemma on_file_kept {S} `{Persisted S} {R} (tx : Store.transaction S R) f r f' : on_file tx f = (r, f') -> snd (tx (read_file f)) = None -> f' = f.
Proof. intros E Hn. rewrite V1Routes.on_file_none in E by done. by injection E as _ <-. Qed.

Lemma watchlist_POST_settles fr body s : settles s (ok_of (watchlist_POST fr body s)).
Proof.
  unfold watchlist_POST. destruct body as [body|]; [|apply refused_settles]. destruct (normalizeTicker _) as [t|]; [|apply refused_settles].
  set (n := Watchlist.normalizeNote _). unfold Watchlist.addTicker. destruct (on_file _ _) as [r f] eqn:E.
  apply (watch_settles (Watchlist.add_tx t n (f_now fr 0%nat)) (Watchlist.Add t n (f_now fr 0%nat))); [done|rewrite E|..].
  1,2: by destruct r as [?|[]].
  destruct r as [e|e]; [done|]. intros _. pose proof (on_file_result (Watchlist.add_tx t n (f_now fr 0%nat)) (watchlist s)) as Hr.
  assert (f = watchlist s) as ->; [|destruct e; apply same_watchlist]. eapply on_file_kept; [exact E|]. rewrite E in Hr. cbn in Hr.
  unfold Watchlist.add_tx in *. destruct (normalizeTicker _); [|done]. destruct (_ >=? _); [done|]. by destruct (Watchlist.find_entry _ _) as [[]|].
Qed.

Lemma ticker_DELETE_settles fr t s : settles s (ok_of (ticker_DELETE fr t s)).
Proof.
  unfold ticker_DELETE. destruct (normalizeTicker _) as [u|]; [|apply refused_settles]. unfold Watchlist.removeTicker. destruct (on_file _ _) as [ok f] eqn:E.
  apply (watch_settles (Watchlist.remove_tx u) (Watchlist.Remove u)); [done|rewrite E|..]; [by destruct ok|by destruct ok|].
  destruct ok; [done|]. intros _. pose proof (on_file_result (Watchlist.remove_tx u) (watchlist s)) as Hr.
  assert (f = watchlist s) as ->; [|apply same_watchlist]. eapply on_file_kept; [exact E|]. rewrite E in Hr. cbn in Hr.
  unfold Watchlist.remove_tx in *. destruct (normalizeTicker _); [|done]. cbv zeta in *. by destruct (_ =? _).
Qed.

Lemma ticker_PATCH_settles t body s : settles s (ok_of (ticker_PATCH parseFloat_of t body s)).
Proof.
  unfold ticker_PATCH. destruct (normalizeTicker _) as [u|]; [|apply refused_settles]. destruct body as [body|]; [|apply refused_settles].
  destruct (names_target body) as [[]|]; [| |apply refused_settles]; cbv zeta.
  - set (hi := Watchlist.normalizePrice _ _). set (lo := Watchlist.normalizePrice _ (field "target_low" _)). unfold Watchlist.setTargets. destruct (on_file _ _) as [r f] eqn:E.
    apply (watch_settles (Watchlist.targets_tx u hi lo) (Watchlist.Targets u hi lo)); [done|by rewrite E|done|]. intros Hf. cbn in Hf |- *.
    pose proof (on_file_result (Watchlist.targets_tx u hi lo) (watchlist s)) as Hr.
    assert (f = watchlist s) as ->; [|apply same_watchlist]. eapply on_file_kept; [exact E|]. rewrite E in Hr. cbn in Hr.
    unfold Watchlist.targets_tx in *. destruct (normalizeTicker _); [|done]. destruct (Watchlist.find_entry _ _) as [[]|]; [|done].
    destruct (Watchlist.crossed_targets hi lo); [done|]. cbn in Hr. by subst r.
  - set (n := Watchlist.normalizeNote _). unfold Watchlist.updateNote. set (tx := Watchlist.on_entry _ _). destruct (on_file _ _) as [o f] eqn:E.
    apply (watch_settles tx (Watchlist.Note u n)); [done|by rewrite E|done|]. intros Hf. cbn in Hf |- *.
    pose proof (on_file_result tx (watchlist s)) as Hr. assert (f = watchlist s) as ->; [|apply same_watchlist]. eapply on_file_kept; [exact E|].
    rewrite E in Hr. cbn in Hr. unfold tx, Watchlist.on_entry in *. destruct (normalizeTicker _); [|done].
    destruct (Watchlist.find_entry _ _) as [[]|]; [|done]. cbn in Hr. by subst o.
Qed.

Lemma bulk_event_lists fr verb ts n s : watchlist (bulk_event fr verb ts n s) = watchlist s /\ alerts (bulk_event fr verb ts n s) = alerts s.
Proof. unfold bulk_event. by destruct (_ >? _). Qed.

Lemma bulk_POST_settles fr body s : settles s (ok_of (bulk_POST fr body s)).
Proof.
  unfold bulk_POST. destruct body as [body|]; [|apply refused_settles]. destruct (bulk_raw body) as [r|]; [|apply refused_settles].
  unfold Watchlist.addTickersBulk. destruct (on_file _ _) as [res f] eqn:E.
  apply (watch_settles (Watchlist.bulk_add_tx (Some r) (f_now fr)) (Watchlist.BulkAdd (Some r) (f_now fr))); [done|rewrite E| |done]; cbn; by rewrite ?(proj1 (bulk_event_lists _ _ _ _ _)), ?(proj2 (bulk_event_lists _ _ _ _ _)).
Qed.

Lemma bulk_DELETE_settles fr body s : settles s (ok_of (bulk_DELETE fr body s)).
Proof.
  unfold bulk_DELETE. destruct body as [body|]; [|apply refused_settles]. destruct (bulk_raw body) as [r|]; [|apply refused_settles].
  unfold Watchlist.removeTickersBulk. destruct (on_file _ _) as [[res|e] f] eqn:E; [|apply refused_settles].
  apply (watch_settles (Watchlist.bulk_remove_tx (Some r)) (Watchlist.BulkRemove (Some r))); [done|rewrite E| |done]; cbn; by rewrite ?(proj1 (bulk_event_lists _ _ _ _ _)), ?(proj2 (bulk_event_lists _ _ _ _ _)).
Qed.

Lemma alert_created_settles fr input s : settles s (ok_of (
  let '(r, f) := Alerts.createAlert parseFloat_of Number_of input None (f_id fr) (f_now fr 0%nat) (alerts s) in
  let s := with_alerts f s in
  match r with Err e => (Err (Alert e), s) | Ok a => (Ok a, alert_event num_str fr "armed" a 1 s) end)).
Proof.
  unfold Alerts.createAlert. set (tx := Alerts.create_tx _ _ _ _ _ _). destruct (on_file _ _) as [r f] eqn:E.
  apply (alert_settles tx (Alerts.Create input None (f_id fr) (f_now fr 0%nat))); [done|done|rewrite E; by destruct r|by destruct r|].
  destruct r as [a|e]; [done|]. intros _. pose proof (on_file_result tx (alerts s)) as Hr.
  assert (f = alerts s) as ->; [|apply same_alerts]. eapply on_file_kept; [exact E|]. rewrite E in Hr. cbn in Hr. unfold tx, Alerts.create_tx in *.
  destruct (Alerts.validateInput _ _ _); [|done]. cbv zeta in *. by destruct (_ >=? _).
Qed.

Lemma alerts_POST_settles fr body s : settles s (ok_of (alerts_POST num_str parseFloat_of Number_of fr body s)).
Proof. unfold alerts_POST. destruct body as [[]|]; first [apply refused_settles|apply alert_created_settles]. Qed.

Lemma alert_DELETE_settles i s : settles s (ok_of (alert_DELETE i s)).
Proof.
  unfold alert_DELETE. destruct (negb (truthy i)); [apply refused_settles|]. unfold Alerts.deleteAlert. set (tx := Alerts.delete_tx _ _).
  destruct (on_file _ _) as [ok f] eqn:E. apply (alert_settles tx (Alerts.Delete i None)); [done|done|by rewrite E|done|].
  destruct ok; [done|]. intros _. pose proof (on_file_result tx (alerts s)) as Hr. cbn.
  assert (f = alerts s) as ->; [|apply same_alerts]. eapply on_file_kept; [exact E|]. rewrite E in Hr. cbn in Hr. unfold tx, Alerts.delete_tx in *.
  cbv zeta in *. destruct (assoc _ _); [|done]. by destruct (_ =? _).
Qed.

Lemma toggled_settles fr i b s : settles s (ok_of (
  let '(o, f) := Alerts.setAlertEnabled i b None (alerts s) in
  let s := with_alerts f s in
  match o with None => (Err not_found, s) | Some a => (Ok a, alert_event num_str fr (if Alerts.enabled a then "enabled" else "disabled") a 0 s) end)).
Proof.
  unfold Alerts.setAlertEnabled. set (tx := Alerts.enable_tx _ _ _). destruct (on_file _ _) as [o f] eqn:E.
  apply (alert_settles tx (Alerts.Enable i b None)); [done|done|rewrite E; by destruct o|by destruct o|].
  destruct o as [a|]; [done|]. intros _. pose proof (on_file_result tx (alerts s)) as Hr. cbn.
  assert (f = alerts s) as ->; [|apply same_alerts]. eapply on_file_kept; [exact E|]. rewrite E in Hr. cbn in Hr. unfold tx, Alerts.enable_tx in *.
  cbv zeta in *. destruct (assoc _ _); [|done]. destruct (Alerts.find_alert _ _) as [[]|]; [|done]. by destruct (Bool.eqb _ _).
Qed.

Lemma edited_settles fr i p s : settles s (ok_of (
  let '(r, f) := Alerts.updateAlert parseFloat_of Number_of i p None (alerts s) in
  let s := with_alerts f s in
  match r with Err e => (Err (Alert e), s) | Ok a => (Ok a, alert_event num_str fr "edited" a 0 s) end)).
Proof.
  unfold Alerts.updateAlert. set (tx := Alerts.update_tx _ _ _ _ _). destruct (on_file _ _) as [r f] eqn:E.
  apply (alert_settles tx (Alerts.Update i p None)); [done|done|rewrite E; by destruct r|by destruct r|].
  destruct r as [a|e]; [done|]. intros _. pose proof (on_file_result tx (alerts s)) as Hr. cbn.
  assert (f = alerts s) as ->; [|apply same_alerts]. eapply on_file_kept; [exact E|]. rewrite E in Hr. cbn in Hr. unfold tx, Alerts.update_tx in *.
  cbv zeta in *. destruct (assoc _ _); [|done]. destruct (Alerts.find_alert _ _) as [[]|]; [|done]. destruct (result_bind _ _); [|done].
  by destruct (Alerts.no_field p).
Qed.

Lemma alert_PATCH_settles fr i body s : settles s (ok_of (alert_PATCH num_str parseFloat_of Number_of fr i body s)).
Proof.
  unfold alert_PATCH. destruct (negb (truthy i)); [apply refused_settles|]. destruct body as [body|]; [|apply refused_settles].
  destruct (toggle_of body) as [b|]; [apply toggled_settles|].
  destruct body; [apply refused_settles|..]; (destruct (Alerts.no_field _); [apply refused_settles|apply edited_settles]).
Qed.

Lemma check_POST_settles fr body s : settles s (ok_of (check_POST sha256 fr body s)).
Proof.
  unfold check_POST. cbv zeta. destruct body as [| |j]; [|apply refused_settles|];
    [set (ps := prices_of (JObj []))|set (ps := prices_of j)]; unfold Alerts.runCheck; set (tx := Alerts.check_tx _ _ _ _ _);
    destruct (on_file _ _) as [r f] eqn:E; apply (alert_settles tx (Alerts.RunCheck ps false None (f_now fr))); try done;
    rewrite ?E; cbn; by destruct (_ >? _).
Qed.

Lemma request_settles fr r s : settles s (handle fr r s).
Proof.
  destruct r; cbn [handle]; eauto using watchlist_POST_settles, ticker_DELETE_settles, ticker_PATCH_settles, bulk_POST_settles, bulk_DELETE_settles,
    alerts_POST_settles, alert_DELETE_settles, alert_PATCH_settles, check_POST_settles.
Qed.

(** Every request to the watchlist and alert routes is at most one operation
    of each store: what it leaves in the two files is what one operation of the
    watchlist and one of the operator's alerts make of them, and a request that
    is refused leaves both files and the feed as they were. *)
Theorem requests_are_operations fr r s : settles s (handle fr r s).
Proof. apply request_settles. Qed.
End Settled.

(** ** The lists stay valid *)

Section Valid.
Context `{FloatOps} (num_str : num -> string) (parseFloat_of Number_of : json -> num) (sha256 : string -> list Z).

Definition lists_ok (s : stores) : Prop :=
  Watchlist.watch_ok (read_file (watchlist s)) /\
  from_option Alerts.bucket_ok True (assoc Alerts.OPERATOR_OWNER_ID (read_file (alerts s))).

Lemma settles_ok s x : settles parseFloat_of Number_of sha256 s x -> lists_ok s -> lists_ok x.2.
Proof.
  intros (_ & (we & Hw) & ae & Ho & Ha) [Hs Hb]. split.
  - rewrite Hw. by apply Watchlist.run_all_ok.
  - rewrite Ha. destruct ae as [e|]; [|done]. cbn in Ho |- *. apply Forall_cons in Ho as [Ho _]. rewrite <- Ho in *. rewrite Alerts.run_own.
    destruct (Alerts.step _ _ _ _ _) eqn:E; [|done]. by eapply Alerts.alert_step_ok.
Qed.

Definition serve_all (rs : list (fresh * request)) (s : stores) : stores :=
  fold_left (fun s r => (handle num_str parseFloat_of Number_of sha256 r.1 r.2 s).2) rs s.

(** Whatever is requested, in any order and with any body: the watchlist
    has at most 100 well-formed tickers, each once, with the low target below
    the high one, and the operator has at most 200 well-formed alerts and 1000
    recorded fires. *)
Theorem lists_stay_valid rs : lists_ok (serve_all rs {| watchlist := None; alerts := None; feed := None |}).
Proof.
  enough (forall s, lists_ok s -> lists_ok (serve_all rs s)) as Hall by (apply Hall; split; [apply Watchlist.watch_ok_empty|done]).
  induction rs as [|[fr r] rs IH]; intros s Hs; [done|]. apply (IH (handle num_str parseFloat_of Number_of sha256 fr r s).2).
  eapply settles_ok; [apply request_settles|exact Hs].
Qed.
End Valid.

(** ** An import can be taken back *)

Lemma remove_items_symbols ts : Watchlist.remove_items (Some (JArr (JStr <$> ts))) = Some ts.
Proof. cbn [Watchlist.remove_items]. f_equal. rewrite <- list_fmap_compose. apply list_fmap_id. Qed.

Lemma remove_targets_symbols ts acc bad : Forall Watchlist.symbol ts -> NoDup (acc ++ ts) -> Watchlist.remove_targets ts acc bad = (acc ++ ts, bad).
Proof.
  intros Hs. revert acc; induction Hs as [|t ts Ht _ IH]; intros acc Hn; [by rewrite app_nil_r|]. cbn [Watchlist.remove_targets].
  assert (truthy t = true /\ truthy (trim t) = true) as [-> ->].
  { apply normalizeTicker_id in Ht. unfold normalizeTicker in Ht. cbv zeta in Ht. destruct t as [|c t]; [done|]. split; [done|].
    by destruct (trim _). }
  cbn [negb orb]. rewrite normalizeTicker_id by done. rewrite bool_decide_eq_false_2; [|apply NoDup_app in Hn as (_ & Hd & _); intros Hin; by eapply Hd, list_elem_of_here].
  rewrite IH by (by rewrite <- app_assoc). by rewrite <- app_assoc.
Qed.

Lemma filter_drops_new (new s : list Watchlist.WatchlistEntry) (ts : list string) : (forall t, t ∈ ts <-> t ∈ Watchlist.ticker <$> new) -> NoDup (Watchlist.ticker <$> new ++ s) ->
  filter (fun e => Watchlist.ticker e ∉ ts) (new ++ s) = s.
Proof.
  intros Hts Hn. rewrite fmap_app in Hn. apply NoDup_app in Hn as (_ & Hd & _). rewrite filter_app.
  assert (filter (fun e => Watchlist.ticker e ∉ ts) new = []) as ->.
  { apply filter_none. intros e He Hf. apply Hf, Hts. by apply list_elem_of_fmap_2. }
  apply filter_all, Forall_forall. intros e He Hin. apply Hts in Hin. eapply Hd; [exact Hin|]. by apply list_elem_of_fmap_2.
Qed.

(** What an import leaves: the new entries in front of the old list. *)
Lemma bulk_added raw_ clk s : Watchlist.watch_ok s ->
  let x := Watchlist.bulk_add_tx raw_ clk s in
  let new := Watchlist.added (fst x) in
  after (Watchlist.bulk_add_tx raw_ clk) s = rev new ++ s /\ Watchlist.watch_ok (rev new ++ s).
Proof.
  intros Hs. pose proof (Watchlist.watch_run_ok (Watchlist.BulkAdd raw_ clk) s Hs) as Hok. cbn [Watchlist.run] in Hok. cbv zeta.
  enough (after (Watchlist.bulk_add_tx raw_ clk) s = rev (Watchlist.added (fst (Watchlist.bulk_add_tx raw_ clk s))) ++ s) as E by (split; [done|by rewrite <- E]).
  clear Hok. unfold after, Watchlist.bulk_add_tx, Watchlist.parseBulkTickers.
  destruct (Watchlist.parse_tokens_ok (Watchlist.tokens_of raw_) [] []) as [_ Hn]; [constructor|constructor|].
  destruct (Watchlist.parse_tokens _ _ _) as [ts bad]. cbn [fst] in Hn.
  set (r0 := Watchlist.Build_BulkAddResult _ _ _ _). pose proof (Watchlist.bulk_add_spec clk ts s r0 Hn) as Hsp.
  destruct (Watchlist.bulk_add _ _ _ _) as [s' r]. destruct Hsp as (new & lim & Ha & _ & _ & -> & _). cbn in Ha |- *. rewrite Ha.
  destruct new; [done|]. done.
Qed.

(** Removing the tickers of the entries in front of a valid list. *)
Lemma removal_of_new new s : Watchlist.watch_ok (rev new ++ s) ->
  let tx := Watchlist.bulk_remove_tx (Some (JArr (JStr <$> (Watchlist.ticker <$> new)))) in
  after tx (rev new ++ s) = s /\ exists d, fst (tx (rev new ++ s)) = Ok d /\ Watchlist.removed d = Watchlist.ticker <$> new.
Proof.
  intros (Hn & _ & Hf). cbv zeta. unfold after, Watchlist.bulk_remove_tx. rewrite remove_items_symbols.
  assert (forall t, t ∈ Watchlist.ticker <$> new <-> t ∈ Watchlist.ticker <$> rev new) as Hrev by (intros t; by rewrite <- Permutation_rev).
  rewrite remove_targets_symbols.
  2: { apply Forall_fmap, Forall_forall. intros e He. apply Forall_app in Hf as [Hf _]. rewrite Forall_forall in Hf. apply Hf. by rewrite <- Permutation_rev. }
  2: { rewrite fmap_app in Hn. apply NoDup_app in Hn as [Hn _]. cbn. by rewrite <- Permutation_rev in Hn. }
  cbn [app]. set (ts := Watchlist.ticker <$> new) in *.
  assert (filter (fun t => t ∈ Watchlist.ticker <$> rev new ++ s) ts = ts) as ->.
  { apply filter_all, Forall_forall. intros t Ht. rewrite fmap_app. apply elem_of_app. left. by apply Hrev. }
  split; [|by eexists]. cbn [snd]. destruct (0 <? len ts) eqn:E; cbn [from_option].
  - by apply filter_drops_new.
  - subst ts. by destruct new.
Qed.

Definition taken_back (r : Watchlist.BulkAddResult) : json := JObj [("tickers", JArr (JStr <$> (Watchlist.ticker <$> Watchlist.added r)))].

(** Asking to remove exactly the tickers that an import added restores the
    watchlist as it was, and reports each of them removed. *)
Theorem import_can_be_undone fr fr' body s : Watchlist.watch_ok (read_file (watchlist s)) ->
  match bulk_POST fr body s with
  | (Err _, s') => s' = s
  | (Ok r, s') => let '(r', s'') := bulk_DELETE fr' (Some (taken_back r)) s' in
      read_file (watchlist s'') = read_file (watchlist s) /\ exists d, r' = Ok d /\ Watchlist.removed d = Watchlist.ticker <$> Watchlist.added r
  end.
Proof.
  intros Hs. unfold bulk_POST. destruct body as [body|]; [|done]. destruct (bulk_raw body) as [raw_|]; [|done].
  unfold Watchlist.addTickersBulk. set (tx := Watchlist.bulk_add_tx _ _). destruct (bulk_added (Some raw_) (f_now fr) _ Hs) as [Hv Hok].
  pose proof (on_file_view tx (watchlist s) ltac:(done)) as Hf. pose proof (on_file_result tx (watchlist s)) as Hr.
  destruct (on_file tx (watchlist s)) as [r f]. cbn [fst snd] in Hf, Hr. subst r. fold tx in Hv, Hok. set (new := Watchlist.added _) in *.
  set (r := fst _) in *. fold new in Hok. set (s1 := bulk_event _ _ _ _ _).
  assert (read_file (watchlist s1) = rev new ++ read_file (watchlist s)) as H1.
  { unfold s1. rewrite (proj1 (bulk_event_lists _ _ _ _ _)). cbn. by rewrite Hf. }
  clearbody s1. unfold bulk_DELETE. change (bulk_raw (taken_back r)) with (Some (JArr (JStr <$> (Watchlist.ticker <$> new)))). cbv iota.
  unfold Watchlist.removeTickersBulk. set (tx' := Watchlist.bulk_remove_tx _).
  pose proof (on_file_view tx' (watchlist s1) ltac:(done)) as Hf'. pose proof (on_file_result tx' (watchlist s1)) as Hr'.
  destruct (on_file tx' (watchlist s1)) as [x f']. cbn [fst snd] in Hf', Hr'.
  destruct (removal_of_new new (read_file (watchlist s)) Hok) as (E1 & d & E2 & E3). fold tx' in E1, E2. rewrite H1 in Hf', Hr'.
  rewrite E1 in Hf'. rewrite E2 in Hr'. subst x. split; [rewrite (proj1 (bulk_event_lists _ _ _ _ _)); exact Hf'|by exists d].
Qed.

(** ** The files can be read back *)

(** A line that the reader takes for the row [row_]. *)
Definition reads_as (text : string) (row_ : list string) : Prop :=
  forall rows r, Csv.read_csv Csv.Start "" [] rows (text +:+ String Csv.LF r) = Csv.read_csv Csv.Start "" [] (rows ++ [row_]) r.

Lemma parse_lines (l : list (string * list string)) : l <> [] -> Forall (fun x => reads_as x.1 x.2) l ->
  Csv.parse_csv (join nl (l.*1) +:+ nl) = Some (l.*2).
Proof.
  intros Hne Hl. unfold Csv.parse_csv.
  enough (forall rows, Csv.read_csv Csv.Start "" [] rows (join nl (l.*1) +:+ nl) = Some (rows ++ l.*2)) as Hr by apply (Hr []).
  induction Hl as [|[t v] l Ht _ IH]; [done|]. intros rows. destruct l as [|[u w] l].
  - change (join nl ([(t, v)].*1) +:+ nl) with (t +:+ String Csv.LF ""). by rewrite Ht.
  - change (join nl (((t, v) :: (u, w) :: l).*1)) with (t +:+ String Csv.LF (join nl (((u, w) :: l).*1))).
    rewrite str_app_assoc, str_cons_app, Ht, IH by done. cbn. by rewrite <- app_assoc.
Qed.

Lemma cells_read vs : vs <> [] -> reads_as (join "," (Csv.csvCell <$> vs)) vs.
Proof. intros Hv rows r. by apply Csv.read_line. Qed.

Lemma plain_cells_read vs : vs <> [] -> Forall Exports.plain vs -> reads_as (join "," vs) vs.
Proof. intros Hv Hp. rewrite <- (Exports.plain_cells vs Hp) at 1. by apply cells_read. Qed.

Lemma file_reads {A} (header : list string) (text : A -> string) (values : A -> list string) rows :
  header <> [] -> Forall Exports.plain header -> Forall (fun x => reads_as (text x) (values x)) rows ->
  Csv.parse_csv (join nl (join "," header :: (text <$> rows)) +:+ nl) = Some (header :: (values <$> rows)).
Proof.
  intros Hh Hp Hr. pose proof (parse_lines ((join "," header, header) :: ((fun x => (text x, values x)) <$> rows))) as H.
  rewrite !fmap_cons, <- !list_fmap_compose in H. apply H; [done|]. constructor; [by apply plain_cells_read|]. by apply Forall_fmap.
Qed.

Lemma symbol_plain t : TICKER_RE t = true -> Exports.plain t.
Proof.
  intros Ht. assert (str_forall ticker_char t = true) as Hc.
  { destruct t as [|c r]; [done|]. simpl in *. apply andb_true_iff in Ht as [[H1 _]%andb_true_iff H2]. rewrite H2. unfold ticker_char. by rewrite H1. }
  clear Ht. unfold Exports.plain. induction t as [|c t IH]; [done|]. cbn [str_forall Csv.str_exists] in *. apply andb_prop in Hc as [Hc Ht].
  rewrite IH by done. rewrite orb_false_r. unfold Csv.special, Csv.one_of. cbn [existsb].
  destruct (Ascii.eqb_spec c Csv.DQ) as [->|_]; [done|]. destruct (Ascii.eqb_spec c ","%char) as [->|_]; [done|].
  destruct (Ascii.eqb_spec c Csv.CR) as [->|_]; [done|]. by destruct (Ascii.eqb_spec c Csv.LF) as [->|_].
Qed.

Section Files_back.
Context (num_str : num -> string) (num_plain : forall n, Exports.plain (num_str n)).

Definition entry_values (e : Watchlist.WatchlistEntry) : list string :=
  [Watchlist.ticker e; toISOString (Watchlist.added_at e); default "" (Watchlist.note e); default "" (num_str <$> Watchlist.target_low e);
   default "" (num_str <$> Watchlist.target_high e)].

Definition event_values (e : Alerts.AlertEvent) : list string :=
  [toISOString (Alerts.fired_at e); Alerts.e_ticker e; V1Routes.condition_name (Alerts.e_condition e); num_str (Alerts.e_value e);
   num_str (Alerts.observed e); Alerts.alert_id e; Alerts.e_note e].

Lemma opt_plain (o : option num) : Exports.plain (default "" (num_str <$> o)).
Proof using num_plain. destruct o; [apply num_plain|done]. Qed.

Lemma str_nil_app (s : string) : "" +:+ s = s.
Proof. done. Qed.

Lemma entry_reads t a n lo hi : Exports.plain t -> Exports.plain a -> Exports.plain lo -> Exports.plain hi ->
  reads_as (t +:+ "," +:+ a +:+ "," +:+ String Csv.DQ (Csv.double_quotes n +:+ String Csv.DQ "") +:+ "," +:+ lo +:+ "," +:+ hi) [t; a; n; lo; hi].
Proof.
  intros Ht Ha Hlo Hhi rows r. repeat (rewrite !str_cons_app || rewrite !str_app_assoc). rewrite !str_nil_app.
  rewrite Csv.read_bare by (done || by left). cbn [Ascii.eqb Bool.eqb app]. rewrite !str_nil_app.
  rewrite Csv.read_bare by (done || by left). cbn [Ascii.eqb Bool.eqb app]. rewrite !str_nil_app.
  cbn [Csv.read_csv]. rewrite Ascii.eqb_refl. cbn [Ascii.eqb Bool.eqb]. rewrite Csv.read_quoted by done. cbn [Ascii.eqb Bool.eqb app]. rewrite !str_nil_app.
  rewrite Csv.read_bare by (done || by left). cbn [Ascii.eqb Bool.eqb app]. rewrite !str_nil_app.
  rewrite Csv.read_bare by (done || by left). cbn [Ascii.eqb Bool.eqb app]. by rewrite !str_nil_app.
Qed.

(** The files of the two lists can be read back: a reader of the CSV format
    recovers the column names and, in order, every ticker with its note and its
    targets and every fire with its note, whatever commas, quotes and line breaks
    the notes contain. *)
Theorem list_files_read_back entries events :
  Forall (fun e => Watchlist.symbol (Watchlist.ticker e) /\ iso_range (Watchlist.added_at e)) entries ->
  Forall (fun e => Watchlist.symbol (Alerts.e_ticker e) /\ iso_range (Alerts.fired_at e) /\ Exports.plain (Alerts.alert_id e)) events ->
  Csv.parse_csv (entriesToCSV num_str entries) = Some (["ticker"; "added_at"; "note"; "target_low"; "target_high"] :: (entry_values <$> entries)) /\
  Csv.parse_csv (eventsToCSV num_str events) =
    Some (["fired_at"; "ticker"; "condition"; "value"; "observed"; "alert_id"; "note"] :: (event_values <$> events)).
Proof using num_plain.
  intros He Hv. split.
  - apply (file_reads ["ticker"; "added_at"; "note"; "target_low"; "target_high"]); [done|by apply (bool_decide_unpack _)|].
    eapply Forall_impl; [exact He|]. intros e [Ht Ha]. apply entry_reads; [by apply symbol_plain|by apply Exports.plain_iso|apply opt_plain|apply opt_plain].
  - apply (file_reads ["fired_at"; "ticker"; "condition"; "value"; "observed"; "alert_id"; "note"]); [done|by apply (bool_decide_unpack _)|].
    eapply Forall_impl; [exact Hv|]. intros e (Ht & Hf & Hi).
    assert (event_cells num_str e = Csv.csvCell <$> event_values e) as Hc; [|rewrite Hc; by apply cells_read].
    unfold event_cells, event_values. rewrite !fmap_cons, fmap_nil.
    rewrite (Csv.csvCell_plain _ (symbol_plain _ Ht)), (Csv.csvCell_plain _ (Exports.plain_iso _ Hf)), (Csv.csvCell_plain _ Hi), !(Csv.csvCell_plain _ (num_plain _)).
    rewrite (Csv.csvCell_plain (V1Routes.condition_name _)) by (by destruct (Alerts.e_condition e)). unfold csvEscape.
    by destruct (Alerts.e_note e).
Qed.
End Files_back.

(** ** Witnesses *)

Definition demo_fresh : fresh := {| f_id := "a1"; f_event := "e1"; f_now := fun _ => 0 |}.
Definition demo_stores : stores := {| watchlist := write_file [Watchlist.new_entry "AAPL" None 0]; alerts := None; feed := None |}.

Lemma demo_watch_ok : Watchlist.watch_ok (read_file (watchlist demo_stores)).
Proof. split_and!; [by apply (bool_decide_unpack _)|done|]. by constructor. Qed.

Lemma import_can_be_undone_witness :
  match bulk_POST demo_fresh (Some (JObj [("text", JStr "msft, aapl; 7x")])) demo_stores with
  | (Err _, s') => s' = demo_stores
  | (Ok r, s') => let '(r', s'') := bulk_DELETE demo_fresh (Some (taken_back r)) s' in
      read_file (watchlist s'') = read_file (watchlist demo_stores) /\ exists d, r' = Ok d /\ Watchlist.removed d = Watchlist.ticker <$> Watchlist.added r
  end.
Proof. exact (import_can_be_undone demo_fresh demo_fresh (Some (JObj [("text", JStr "msft, aapl; 7x")])) demo_stores demo_watch_ok). Defined.

Lemma list_files_read_back_witness :
  Csv.parse_csv (entriesToCSV (fun _ => "4") [Watchlist.with_note (Some "a,b") (Watchlist.new_entry "AAPL" None 0)]) =
    Some [["ticker"; "added_at"; "note"; "target_low"; "target_high"]; ["AAPL"; "1970-01-01T00:00:00.000Z"; "a,b"; ""; ""]] /\
  Csv.parse_csv (eventsToCSV (fun _ => "4") []) = Some [["fired_at"; "ticker"; "condition"; "value"; "observed"; "alert_id"; "note"]].
Proof.
  refine (list_files_read_back (fun _ => "4") (fun _ => eq_refl) [Watchlist.with_note (Some "a,b") (Watchlist.new_entry "AAPL" None 0)] [] _ _); [|constructor].
  constructor; [split; [reflexivity|by vm_compute]|constructor].
Defined.

(** ** Where the code falls short *)

Section Demo.
#[local] Instance demo_arith : FloatOps := {| fadd a _ := a; fsub a _ := a; fmul a _ := a; fdiv a _ := a; toFixed _ a := a |}.

(** A patch of one target removes the other, and a patch that names no field
    removes the note. *)
Lemma patch_clears_what_it_omits :
  let e := Watchlist.with_note (Some "core") (Watchlist.with_targets (Some (int 9)) (Some (int 5)) (Watchlist.new_entry "AAPL" None 0)) in
  let s := {| watchlist := write_file [e]; alerts := None; feed := None |} in
  fst (ticker_PATCH (fun _ => NaN) "AAPL" (Some (JObj [("target_high", JNum (int 8))])) s) = Ok (Watchlist.with_targets (Some (int 8)) None e) /\
  fst (ticker_PATCH (fun _ => NaN) "AAPL" (Some (JObj [])) s) = Ok (Watchlist.with_note None e).
Proof. vm_compute. done. Qed.
End Demo.

(** The body [null] is valid JSON and makes three routes throw. *)
Lemma null_alert_throws num_str pf nf fr i s : truthy i = true ->
  alerts_POST num_str pf nf fr (Some JNull) s = (Err Throws, s) /\ alert_PATCH num_str pf nf fr i (Some JNull) s = (Err Throws, s).
Proof. intros Hi. split; [done|]. unfold alert_PATCH. by rewrite Hi. Qed.

(** A note that is a formula is exported as one. *)
Lemma note_formula_exported :
  csvEscape "=1+1" = "=1+1".
Proof. done. Qed.
