(* ===== verification/MfaRoutes.v ===== *)
(** The routes a key manages its second factor with:
    [web/app/api/admin/mfa/enroll], [confirm], [disable], [status] and
    [recovery-codes/regenerate], over the store of [Totp]. The key is the
    authenticated one, the recovery codes are those the store mints. *)
From S2P Require Import Prelude JsNum JsDate IsoTime Json Store AuthLockout KeyStore.
From S2P Require Import Bits Base32 Totp MfaGate.

Section Routes.
Context (hmac_sha1 : list Z -> list Z -> list Z) (sha256 : string -> string) (adminEnv : string).

(** The handlers share this gate: without an admin key in the environment
    everyone passes, and nothing is noted. *)
Definition requireAdmin (key : option StoredKey) (w : world) : option denial * world :=
  if negb (truthy adminEnv) then (None, w) else
  match key with
  | Some k => if bool_decide (admin ∈ scopes k) then (None, w) else (Some (403, "forbidden"), note 403 (id <$> key) "forbidden:admin-required" w)
  | None => (Some (403, "forbidden"), note 403 None "forbidden:admin-required" w)
  end.

Definition gated {A} (key : option StoredKey) (h : world -> result A denial * world) (w : world) : result A denial * world :=
  match requireAdmin key w with (Some d, w) => (Err d, w) | (None, w) => h w end.

Definition enroll_label (key : option StoredKey) (body : option json) : string :=
  let fallback := match key with Some k => label k | None => "signalclaw-admin" end in
  match b ← body; field "label" b with Some (JStr s) => if truthy (trim s) then trim s else fallback | _ => fallback end.

Definition enroll (key : option StoredKey) (body : option json) (random : list Z) (now : Z) (w : world) : result EnrollmentInit denial * world :=
  let '(init, f) := startEnrollment (keyIdFor key) (enroll_label key body) random now (totp w) in
  (Ok init, note 200 (id <$> key) "mfa-enroll-init" (World f (trail w))).

Definition enroll_POST key body random now := gated key (enroll key body random now).

Record Confirmed := { c_enrolled : bool; c_codes : list string; c_remaining : nat }.

Definition code_of (body : json) : string := match field "code" body with Some (JStr s) => trim s | _ => "" end.

Definition confirm (key : option StoredKey) (body : option json) (codes : list string) (now : Z) (w : world) : result Confirmed denial * world :=
  match body with
  | None => (Err (400, "bad_json"), w)
  | Some b =>
      if negb (digits_only 6 (code_of b)) then (Err (400, "bad_code"), note 400 (id <$> key) "mfa-confirm-bad-format" w) else
      let '(r, f) := verifyAndMark hmac_sha1 (keyIdFor key) (code_of b) now (totp w) in
      let w := World f (trail w) in
      match r with
      | Err why => (Err (401, "mfa_invalid"), note 401 (id <$> key) ("mfa-confirm-fail:" +:+ reason_text why) w)
      | Ok _ =>
          let '(minted, f) := regenerateRecoveryCodes sha256 (keyIdFor key) codes f in
          let st := statusFor (keyIdFor key) f in
          (Ok {| c_enrolled := enrolled st; c_codes := default [] minted; c_remaining := recovery_codes_remaining st |},
           note 200 (id <$> key) "mfa-confirm-ok" (World f (trail w)))
      end
  end.

Definition confirm_POST key body codes now := gated key (confirm key body codes now).

Definition header (name : string) (headers : gmap string string) : string := trim (default "" (headers !! name)).

(** The proof that the caller of [disable] holds the second factor. *)
Definition possession (key : option StoredKey) (headers : gmap string string) (now : Z) (w : world) : option denial * world :=
  let k := keyIdFor key in
  if negb (isFullyEnrolled k (totp w)) then (None, w) else
  let recovery := header "x-mfa-recovery-code" headers in
  if truthy recovery then
    let '((ok, _), f) := consumeRecoveryCode sha256 k recovery now (totp w) in
    let w := World f (trail w) in
    if ok then (None, w) else (Some (401, "mfa_invalid"), note 401 (id <$> key) "mfa-disable-recovery-reject" w)
  else
    let code := header "x-mfa-code" headers in
    if negb (digits_only 6 code) then (Some (401, "mfa_required"), note 401 (id <$> key) "mfa-disable-missing-code" w) else
    let '(r, f) := verifyAndMark hmac_sha1 k code now (totp w) in
    let w := World f (trail w) in
    match r with Ok _ => (None, w) | Err why => (Some (401, "mfa_invalid"), note 401 (id <$> key) ("mfa-disable-reject:" +:+ reason_text why) w) end.

Definition disable_ (key : option StoredKey) (headers : gmap string string) (now : Z) (w : world) : result bool denial * world :=
  match possession key headers now w with
  | (Some d, w) => (Err d, w)
  | (None, w) =>
      let '(removed, f) := disable (keyIdFor key) (totp w) in
      (Ok removed, note 200 (id <$> key) (if removed then "mfa-disabled" else "mfa-not-enrolled") (World f (trail w)))
  end.

Definition disable_POST key headers now := gated key (disable_ key headers now).

(** The value of [required_for_admin] is that of the environment. *)
Definition status_ (key : option StoredKey) (requireEnv : string) (w : world) : result (TotpStatus * bool) denial * world :=
  (Ok (statusFor (keyIdFor key) (totp w), truthy requireEnv), note 200 (id <$> key) "" w).

Definition status_GET key requireEnv := gated key (status_ key requireEnv).

Definition regenerate (key : option StoredKey) (headers : gmap string string) (codes : list string) (now : Z) (w : world)
  : result (list string * nat) denial * world :=
  let k := keyIdFor key in
  if negb (isFullyEnrolled k (totp w)) then (Err (400, "not_enrolled"), note 400 (id <$> key) "recovery-regen-not-enrolled" w) else
  let code := header "x-mfa-code" headers in
  if negb (digits_only 6 code) then (Err (401, "mfa_required"), note 401 (id <$> key) "recovery-regen-missing-code" w) else
  let '(r, f) := verifyAndMark hmac_sha1 k code now (totp w) in
  let w := World f (trail w) in
  match r with
  | Err why => (Err (401, "mfa_invalid"), note 401 (id <$> key) ("recovery-regen-reject:" +:+ reason_text why) w)
  | Ok _ =>
      let '(out, f) := regenerateRecoveryCodes sha256 k codes f in
      let w := World f (trail w) in
      match out with
      | None => (Err (409, "not_enrolled"), note 409 (id <$> key) "recovery-regen-race" w)
      | Some cs => (Ok (cs, length cs), note 200 (id <$> key) ("recovery-regen:count=" +:+ pretty (Z.of_nat (length cs))) w)
      end
  end.

Definition regenerate_POST key headers codes now := gated key (regenerate key headers codes now).

(** ** What the routes promise *)

Inductive request :=
  | Enroll (body : option json) (random : list Z)
  | Confirm (body : option json) (codes : list string)
  | Disable (headers : gmap string string)
  | Status (requireEnv : string)
  | Regenerate (headers : gmap string string) (codes : list string).

(** Whether the request succeeded, and what it leaves. *)
Definition handle (key : option StoredKey) (q : request) (now : Z) (w : world) : bool * world :=
  match q with
  | Enroll body random => let '(r, w) := enroll_POST key body random now w in (is_ok r, w)
  | Confirm body codes => let '(r, w) := confirm_POST key body codes now w in (is_ok r, w)
  | Disable headers => let '(r, w) := disable_POST key headers now w in (is_ok r, w)
  | Status env => let '(r, w) := status_GET key env w in (is_ok r, w)
  | Regenerate headers codes => let '(r, w) := regenerate_POST key headers codes now w in (is_ok r, w)
  end.

(** The code a request presents. *)
Definition presented (q : request) : option string :=
  match q with
  | Confirm (Some b) _ => Some (code_of b)
  | Disable h | Regenerate h _ => Some (header "x-mfa-code" h)
  | _ => None
  end.

Definition fresh_code (r : TotpRecord) (code : string) (now : Z) : Prop :=
  exists st, st ∈ window now /\ totpAtStep hmac_sha1 (secret_b32 r) st = Some code /\ forall l, last_step r = Some l -> l < st.

(** The request proves the second factor of the enrolment [r]. *)
Definition proves (q : request) (r : TotpRecord) (now : Z) : Prop :=
  (exists code, presented q = Some code /\ fresh_code r code now) \/
  (exists h, q = Disable h /\ sha256 (dashed (normalizeRecoveryCode (header "x-mfa-recovery-code" h))) ∈ recovery_code_hashes r).

(** The operations of one key leave the enrolments of the others. *)
Lemma update_other k k' s i r r' : find_key k s = Some (i, r) -> key_id r' = k -> k' <> k -> get_record k' (<[i := r']> s) = get_record k' s.
Proof. intros Hf Hr Hne. rewrite (get_update k k' i r) by done. by rewrite decide_False. Qed.

Lemma verify_other k k' code now f : k' <> k -> getRecord k' (snd (verifyAndMark hmac_sha1 k code now f)) = getRecord k' f.
Proof.
  intros Hne. unfold verifyAndMark. rewrite on_file_get. unfold after, verify_tx.
  destruct (verifyCodeAgainst _ _ _ _), (find_key k (read_file f)) as [[i r]|] eqn:E; try done.
  cbn [snd from_option Datatypes.id]. apply (update_other k k' _ i r); [done|exact (find_key_id _ _ _ _ E)|done].
Qed.

Lemma regenerate_other k k' codes f : k' <> k -> getRecord k' (snd (regenerateRecoveryCodes sha256 k codes f)) = getRecord k' f.
Proof.
  intros Hne. unfold regenerateRecoveryCodes. rewrite on_file_get. unfold after, regenerate_tx.
  destruct (find_key k (read_file f)) as [[i r]|] eqn:E; [|done]. destruct (is_some _); [|done].
  cbn [snd from_option Datatypes.id]. apply (update_other k k' _ i r); [done|exact (find_key_id _ _ _ _ E)|done].
Qed.

Lemma recovery_other k k' cand now f : k' <> k -> getRecord k' (snd (consumeRecoveryCode sha256 k cand now f)) = getRecord k' f.
Proof.
  intros Hne. unfold consumeRecoveryCode. rewrite on_file_get. unfold after, recovery_tx.
  destruct (find_key k (read_file f)) as [[i r]|] eqn:E; [|done]. cbv zeta. destruct (negb _); [done|]. destruct (list_find _ _) as [[j h]|]; [|done].
  cbn [snd from_option Datatypes.id]. apply (update_other k k' _ i r); [done|exact (find_key_id _ _ _ _ E)|done].
Qed.

Lemma disable_other k k' f : k' <> k -> getRecord k' (snd (disable k f)) = getRecord k' f.
Proof.
  intros Hne. unfold disable. rewrite on_file_get. unfold after, disable_tx. cbv zeta. destruct (_ =? _)%nat; [done|].
  cbn [snd from_option Datatypes.id]. by apply get_filter.
Qed.

Lemma enroll_other k k' lb random now f : k' <> k -> getRecord k' (snd (startEnrollment k lb random now f)) = getRecord k' f.
Proof.
  intros Hne. unfold startEnrollment. rewrite on_file_get. unfold after, enroll_tx. cbv zeta. cbn [snd from_option Datatypes.id].
  destruct (find_key k (read_file f)) as [[i r]|] eqn:E; [by apply (update_other k k' _ i r)|].
  rewrite (get_app k k') by (unfold get_record; rewrite ?E; done). by rewrite decide_False.
Qed.

Definition admitted (key : option StoredKey) : Prop := truthy adminEnv = true -> exists sk, key = Some sk /\ admin ∈ scopes sk.

Lemma admit_spec {A} key (h : world -> result A denial * world) w :
  (exists d w1, gated key h w = (Err d, w1) /\ totp w1 = totp w) \/ (gated key h w = h w /\ admitted key).
Proof.
  unfold gated, requireAdmin, admitted. destruct (truthy adminEnv); cbn [negb]; [|by right]. destruct key as [sk|]; [|left; eauto].
  case_bool_decide; [right; split; [done|]; intros _; by exists sk|left; eauto].
Qed.

Lemma gated_record {A} key (h : world -> result A denial * world) w k :
  getRecord k (totp (h w).2) = getRecord k (totp w) -> getRecord k (totp (gated key h w).2) = getRecord k (totp w).
Proof. intros H. destruct (admit_spec key h w) as [(d & w1 & -> & E)|[-> _]]; [cbn; by rewrite E|done]. Qed.

Lemma possession_other key h now w k : keyIdFor key <> k -> getRecord k (totp (possession key h now w).2) = getRecord k (totp w).
Proof.
  intros Hne. unfold possession. cbv zeta. destruct (negb _); [done|].
  pose proof (recovery_other (keyIdFor key) k (header "x-mfa-recovery-code" h) now (totp w) (not_eq_sym Hne)) as Hr.
  pose proof (verify_other (keyIdFor key) k (header "x-mfa-code" h) now (totp w) (not_eq_sym Hne)) as Hv.
  destruct (truthy _); [destruct (consumeRecoveryCode _ _ _ _ _) as [[[] n] f]; exact Hr|]. destruct (negb _); [done|].
  by destruct (verifyAndMark _ _ _ _ _) as [[] f].
Qed.

(** No request touches the enrolment of another key. *)
Lemma handle_other key q now w k : keyIdFor key <> k -> getRecord k (totp (handle key q now w).2) = getRecord k (totp w).
Proof.
  intros Hne. assert (k <> keyIdFor key) as Hk by done.
  assert (forall A (p : result A denial * world), (let '(r, w) := p in (is_ok r, w)).2 = p.2) as Hp by (by intros A []).
  destruct q as [body random|body codes|h|env|h codes]; cbn [handle]; rewrite Hp; apply gated_record.
  - unfold enroll. pose proof (enroll_other (keyIdFor key) k (enroll_label key body) random now (totp w) Hk) as H. by destruct (startEnrollment _ _ _ _ _).
  - unfold confirm. destruct body as [b|]; [|done]. destruct (negb _); [done|].
    pose proof (verify_other (keyIdFor key) k (code_of b) now (totp w) Hk) as Hv. destruct (verifyAndMark _ _ _ _ _) as [[st|] f]; [|exact Hv].
    pose proof (regenerate_other (keyIdFor key) k codes f Hk) as Hr. cbv zeta. destruct (regenerateRecoveryCodes _ _ _ _) as [m f']. cbn in *. by rewrite Hr.
  - unfold disable_. pose proof (possession_other key h now w k Hne) as Hq. destruct (possession _ _ _ _) as [[d|] w1]; [exact Hq|].
    pose proof (disable_other (keyIdFor key) k (totp w1) Hk) as Hd. destruct (disable _ _) as [rm f]. cbn in *. by rewrite Hd.
  - done.
  - unfold regenerate. cbv zeta. destruct (negb _); [done|]. destruct (negb _); [done|].
    pose proof (verify_other (keyIdFor key) k (header "x-mfa-code" h) now (totp w) Hk) as Hv. destruct (verifyAndMark _ _ _ _ _) as [[st|] f]; [|exact Hv].
    pose proof (regenerate_other (keyIdFor key) k codes f Hk) as Hr. cbv zeta. destruct (regenerateRecoveryCodes _ _ _ _) as [[m|] f']; cbn in *; by rewrite Hr.
Qed.

Lemma verified_code k code now f r st f' : getRecord k f = Some r -> verifyAndMark hmac_sha1 k code now f = (Ok st, f') -> fresh_code r code now.
Proof.
  intros Hr Hv. destruct (verify_accepted hmac_sha1 _ _ _ _ _ _ Hv) as (r' & Hr' & H1 & H2 & H3 & _). assert (r' = r) as -> by congruence. by exists st.
Qed.

(** The owner of a complete enrolment gets past [possession] with a proof only. *)
Lemma possession_proved key h now w r : getRecord (keyIdFor key) (totp w) = Some r -> is_some (confirmed_at r) = true ->
  match possession key h now w with
  | (Some d, w') => totp w' = totp w
  | (None, _) => proves (Disable h) r now
  end.
Proof.
  intros Hr Hc. unfold possession. cbv zeta. assert (isFullyEnrolled (keyIdFor key) (totp w) = true) as -> by (unfold isFullyEnrolled; by rewrite Hr).
  cbn [negb]. destruct (truthy _).
  - pose proof (recovery_outcome sha256 (keyIdFor key) (header "x-mfa-recovery-code" h) now (totp w) r Hr) as H.
    destruct (consumeRecoveryCode _ _ _ _ _) as [[[] n] f]; [|done]. destruct H as (j & Hj & _). right. exists h. split; [done|]. by eapply list_elem_of_lookup_2.
  - destruct (negb _); [done|]. destruct (verifyAndMark _ _ _ _ _) as [[st|why] f] eqn:Hv; [|by apply verify_refused in Hv as ->].
    left. exists (header "x-mfa-code" h). split; [done|]. by eapply verified_code.
Qed.

(** What a request of the owner of a complete enrolment does to it. *)
Lemma owner_request {A} key (h : world -> result A denial * world) q now w r :
  (totp (h w).2 = totp w \/ proves q r now) ->
  getRecord (keyIdFor key) (totp w) = Some r ->
  getRecord (keyIdFor key) (totp (gated key h w).2) = Some r \/ (proves q r now /\ admitted key).
Proof.
  intros Hh Hr. destruct (admit_spec key h w) as [(d & w1 & -> & E)|[-> Ha]]; [left; cbn; by rewrite E|].
  destruct Hh as [->|Hp]; [by left|by right].
Qed.

(** A confirmed second factor stays with its owner: of the routes other than
    enrolment, a request that changes or removes the confirmed enrolment of a key
    is made with that key, which has the admin scope where an admin key is
    configured, and presents a code of the window that is later than any used
    before, or, to disable it, one of its unused recovery codes. *)
Theorem confirmed_factor_guarded key q now w k r :
  (forall body random, q <> Enroll body random) -> getRecord k (totp w) = Some r -> is_some (confirmed_at r) = true ->
  getRecord k (totp (handle key q now w).2) = Some r \/ (keyIdFor key = k /\ proves q r now /\ admitted key).
Proof.
  intros Hq Hr Hc. destruct (decide (keyIdFor key = k)) as [<-|Hne]; [|left; by rewrite handle_other].
  enough (getRecord (keyIdFor key) (totp (handle key q now w).2) = Some r \/ (proves q r now /\ admitted key)) as [|[]] by auto.
  assert (forall A (p : result A denial * world), (let '(r, w) := p in (is_ok r, w)).2 = p.2) as Hp by (by intros A []).
  destruct q as [body random|body codes|h|env|h codes]; cbn [handle]; [by destruct (Hq body random)|..]; rewrite Hp; (apply owner_request; [|done]).
  - unfold confirm. destruct body as [b|]; [|by left]. destruct (negb _); [by left|].
    destruct (verifyAndMark _ _ _ _ _) as [[st|why] f] eqn:Hv; [|left; by apply verify_refused in Hv as ->].
    right. left. exists (code_of b). split; [done|]. by eapply verified_code.
  - unfold disable_. pose proof (possession_proved key h now w r Hr Hc) as H. destruct (possession _ _ _ _) as [[d|] w1]; [by left|by right].
  - by left.
  - unfold regenerate. cbv zeta. destruct (negb _); [by left|]. destruct (negb _); [by left|].
    destruct (verifyAndMark _ _ _ _ _) as [[st|why] f] eqn:Hv; [|left; by apply verify_refused in Hv as ->].
    right. left. exists (header "x-mfa-code" h). split; [done|]. by eapply verified_code.
Qed.

(** ** Enrolling *)

Lemma enrolled_record k lb random now f : getRecord k (snd (startEnrollment k lb random now f)) = Some (new_record k (base32Encode random) now).
Proof.
  unfold startEnrollment. rewrite on_file_get. unfold after, enroll_tx. cbv zeta. cbn [snd from_option Datatypes.id].
  destruct (find_key k (read_file f)) as [[i r]|] eqn:E; [rewrite (get_update k k i r) by done; by rewrite decide_True|].
  rewrite (get_app k k) by (unfold get_record; rewrite ?E; done). by rewrite decide_True.
Qed.

Lemma digits_trim n code : digits_only n code = true -> trim code = code.
Proof.
  unfold digits_only. intros [_ H]%andb_prop. apply trim_no_space. eapply str_forall_impl; [|exact H]. intros c Hc. cbv beta in Hc. unfold is_space. cbv zeta. lia.
Qed.

Lemma regenerated k codes f r : getRecord k f = Some r -> is_some (confirmed_at r) = true ->
  fst (regenerateRecoveryCodes sha256 k codes f) = Some codes /\
  getRecord k (snd (regenerateRecoveryCodes sha256 k codes f)) = Some (with_hashes (sha256 <$> codes) r).
Proof.
  intros Hr Hc. unfold getRecord, get_record in Hr. destruct (find_key k (read_file f)) as [[i r0]|] eqn:E; [|done]. injection Hr as ->.
  unfold regenerateRecoveryCodes. rewrite on_file_result, on_file_get. split; [unfold regenerate_tx; by rewrite E, Hc|].
  rewrite (after_update _ k k _ i r (with_hashes (sha256 <$> codes) r)); [by rewrite decide_True|done|exact (find_key_id _ _ _ _ E)|].
  unfold regenerate_tx. by rewrite E, Hc.
Qed.

Definition with_code (code : string) : json := JObj [("code", JStr code)].

Lemma gate_open {A} key (h : world -> result A denial * world) w : admitted key -> gated key h w = h w.
Proof.
  unfold admitted, gated, requireAdmin. destruct (truthy adminEnv); cbn [negb]; [|done]. intros H. destruct (H eq_refl) as (sk & -> & Hs).
  by rewrite bool_decide_eq_true_2 by done.
Qed.

(** Whatever was enrolled before, confirmed or not, an admitted key can
    enrol anew and complete it: the code of the present step for the secret it is
    given is accepted, unless the step before happens to have the same code, and
    the enrolment then counts as complete with the recovery codes handed out. *)
Theorem enrolment_completes key body random now t codes w code :
  admitted key -> digits_only 6 code = true -> totpAtStep hmac_sha1 (base32Encode random) (currentStep t) = Some code ->
  totpAtStep hmac_sha1 (base32Encode random) (currentStep t - 1) <> Some code ->
  let '(r, w1) := enroll_POST key body random now w in
  (exists init, r = Ok init /\ i_secret_b32 init = base32Encode random) /\
  let '(c, w2) := confirm_POST key (Some (with_code code)) codes t w1 in
  c = Ok {| c_enrolled := true; c_codes := codes; c_remaining := length codes |} /\
  isFullyEnrolled (keyIdFor key) (totp w2) = true /\
  exists r', getRecord (keyIdFor key) (totp w2) = Some r' /\ recovery_code_hashes r' = sha256 <$> codes.
Proof.
  intros Ha Hd Hc Hn. unfold enroll_POST, confirm_POST. rewrite (gate_open key (enroll _ _ _ _)) by done. unfold enroll.
  pose proof (enrolled_record (keyIdFor key) (enroll_label key body) random now (totp w)) as Hr.
  destruct (startEnrollment _ _ _ _ _) as [init f] eqn:Ei. cbn [snd] in Hr.
  split; [exists init; split; [done|]; unfold startEnrollment, on_file, enroll_tx in Ei; cbv zeta in Ei; by injection Ei as <- _|].
  rewrite gate_open by done. unfold confirm. assert (code_of (with_code code) = code) as -> by (cbn; by apply (digits_trim 6)). rewrite Hd. cbn [negb totp].
  pose proof (due_code_accepted hmac_sha1 (keyIdFor key) code t f _ (currentStep t) Hr Hc Hd) as Hv. destruct (verifyAndMark _ _ _ _ _) as [v f'] eqn:Ev.
  cbn [fst] in Hv. assert (v = Ok (currentStep t)) as ->.
  { apply Hv; [unfold window; set_solver|done|]. unfold window, TOTP_TOLERANCE_STEPS.
    apply Forall_cons; split; [by right|]. apply Forall_cons; split; [left; lia|]. apply Forall_singleton. left. lia. }
  destruct (verify_accepted hmac_sha1 _ _ _ _ _ _ Ev) as (r0 & Hr0 & _ & _ & _ & Hf'). assert (r0 = new_record (keyIdFor key) (base32Encode random) now) as -> by congruence.
  destruct (regenerated (keyIdFor key) codes f' _ Hf' eq_refl) as [H1 H2]. cbv zeta.
  destruct (regenerateRecoveryCodes _ _ _ _) as [m f'']. cbn [fst snd] in H1, H2. subst m. cbn [totp note trail].
  unfold statusFor, isFullyEnrolled. rewrite H2. cbn. rewrite length_fmap. split_and!; [done|done|by eexists].
Qed.
End Routes.

Section Demo.
Definition demo_draws : list Z := [9; 9; 9; 9; 9; 9; 9; 9; 9; 9].
Definition demo_codes : list string := ["AAAAA-BBBBB"; "CCCCC-DDDDD"].
Definition fresh_demo_code : string := default "" (totpAtStep demo_hmac (base32Encode demo_draws) demo_step).

Lemma confirmed_factor_guarded_witness :
  exists r, getRecord "k1" (totp demo_world) = Some r /\
    (getRecord "k1" (totp (handle demo_hmac demo_sha "secret" (Some demo_key) (Regenerate ∅ demo_codes) demo_now demo_world).2) = Some r \/
     (keyIdFor (Some demo_key) = "k1" /\ proves demo_hmac demo_sha (Regenerate ∅ demo_codes) r demo_now /\ admitted "secret" (Some demo_key))).
Proof.
  destruct (getRecord "k1" (totp demo_world)) as [r|] eqn:Hr; [|exfalso; vm_compute in Hr; discriminate Hr].
  exists r. split; [reflexivity|].
  refine (confirmed_factor_guarded demo_hmac demo_sha "secret" (Some demo_key) (Regenerate ∅ demo_codes) demo_now demo_world "k1" r _ Hr _).
  - intros body random. discriminate.
  - vm_compute in Hr. injection Hr as <-. reflexivity.
Defined.

Lemma enrolment_completes_witness :
  isFullyEnrolled "k1" (totp (confirm_POST demo_hmac demo_sha "secret" (Some demo_key) (Some (with_code fresh_demo_code)) demo_codes demo_now
    (enroll_POST "secret" (Some demo_key) None demo_draws demo_now demo_world).2).2) = true.
Proof.
  pose proof (enrolment_completes demo_hmac demo_sha "secret" (Some demo_key) None demo_draws demo_now demo_now demo_codes demo_world fresh_demo_code) as H.
  destruct (enroll_POST _ _ _ _ _ _) as [r w1]. destruct H as [_ H].
  - intros _. exists demo_key. split; [reflexivity|apply list_elem_of_here].
  - vm_compute. reflexivity.
  - vm_compute. reflexivity.
  - vm_compute. discriminate.
  - cbn [snd]. destruct (confirm_POST _ _ _ _ _ _ _ _) as [c w2]. destruct H as (_ & H & _). exact H.
Defined.

(** A key alone replaces its confirmed enrolment and its recovery codes: the
    enrolment asks for no code of the one it replaces. *)
Lemma key_alone_replaces_codes :
  isFullyEnrolled "k1" (totp demo_world) = true /\
  let w1 := (enroll_POST "secret" (Some demo_key) None demo_draws demo_now demo_world).2 in
  fst (confirm_POST demo_hmac demo_sha "secret" (Some demo_key) (Some (with_code fresh_demo_code)) demo_codes demo_now w1) =
  Ok {| c_enrolled := true; c_codes := demo_codes; c_remaining := 2 |}.
Proof. split; vm_compute; reflexivity. Qed.
End Demo.
