(* ===== verification/WebhookRoutes.v ===== *)
(** The management of webhooks: the routes [webhooks], [webhooks/[id]],
    [webhooks/[id]/rotate-secret], [webhooks/deliveries],
    [webhooks/deliveries/[id]/replay] and [webhooks/fire/latest] of
    [web/app/api], behind the gate of [AdminGate], over the store of [Webhooks].

    The network, the resolver and the URL parser, [String(x)], [Number(x)],
    [parseInt] and what the gate is parametric in are parameters; ids, minted
    secrets and what each delivery meets are drawn per request. The log a listing
    reads is the one the retention sweep before it leaves. *)
From S2P Require Import Prelude JsNum JsDate IsoTime Json Store Interleave AuthLockout KeyStore.
From S2P Require Import MfaGate AdminGate.
From S2P Require Egress IpMatch Webhooks Runs Activity Exports V1Routes Sessions SsoPolicy Sso AdminRoute.
Import AdminRoute(reply, Refused, Answer, Raised).
Import Webhooks(Webhook, DeliveryAttempt, PickEvent, delivery_env).
#[local] Existing Instances Egress.EgressPolicy_persisted Webhooks.subs_persisted Webhooks.log_persisted Runs.runs_persisted Activity.events_persisted.

(** [Absent] is an empty body, [Garbled] one that is not JSON. *)
Inductive payload := Absent | Garbled | Given (j : json).

Record request := { headers : gmap string string; query : gmap string string; body : payload }.

(** The clocks of the gate, of a second authentication and of the operation;
    the id and the secret that are minted; what each delivery meets. *)
Record draws := {
  d_gate : clock; d_auth : clock; d_op : clock; d_id : string; d_secret : string; d_env : string -> delivery_env;
  d_event_id : string; d_event : Z }.

Section Routes.
Context {L : Type} `{Lockout L}.
Context (sha256 : string -> string) (hmac_sha1 : list Z -> list Z -> list Z).
Context (b64uDec : string -> list Z) (session_mac : string -> string -> list Z) (session_parse : list Z -> option Sso.SsoSession).
Context (decodeURIComponent : string -> option string).
Context (parse_url : string -> option Egress.URL) (resolve : string -> option (list string)) (hmac : string -> string -> string).
Context (String_of : json -> string) (Number_of : json -> num) (parseInt : string -> option Z) (num_str : num -> string).
Context (localeCompare : string -> string -> Z) (other_dates : string -> option Z).
Context (cfg : settings).

Abbreviation gate_world := (AdminGate.world (L := L)).
Abbreviation gate_require := (AdminGate.requireAdmin sha256 hmac_sha1 b64uDec session_mac session_parse decodeURIComponent).

Record world := World {
  gate : gate_world; feed : file Activity.events; egress : file Egress.EgressPolicy; runs : file (list Runs.SavedRun);
  subs : Webhooks.subs_file; log : Webhooks.log_file }.

Inductive answer :=
| Subscriptions (l : list Webhook)
| Subscription (s : Webhook)
| Removed
| NewSecret (i secret : string) (rotated_at previous_expires_at : option Z) (grace_seconds : Z)
| Deliveries (l : list DeliveryAttempt)
| CsvFile (name text : string)
| JsonFile (name : string) (l : list DeliveryAttempt)
| Replayed (delivery : DeliveryAttempt) (replay_of : string)
| Fired (events : list PickEvent) (deliveries : list DeliveryAttempt).

Section Request.
Context (req : request) (d : draws).
Abbreviation handler := (option StoredKey -> world -> reply answer * world).
Abbreviation ok a := (Answer 200 a).

Definition with_gate (g : gate_world) (w : world) : world := World g (feed w) (egress w) (runs w) (subs w) (log w).
Definition with_hooks (s : Webhooks.subs_file) (l : Webhooks.log_file) (w : world) : world := World (gate w) (feed w) (egress w) (runs w) s l.

Definition recordAuditEvent (status : Z) (k : option StoredKey) (reason : string) (w : world) : world :=
  with_gate (let g := gate w in AdminGate.World (keys_file g) (lockout g) (policy_file g) (registry g) (note status (id <$> k) reason (second g))) w.

Definition refuse (status : Z) (code : string) (k : option StoredKey) (w : world) : reply answer * world :=
  (Refused status code, recordAuditEvent status k code w).

Definition recordSafe (kind title text : string) (w : world) : world :=
  World (gate w)
    (Activity.recordSafe {| Activity.i_kind := kind; Activity.i_title := Some (JStr title); Activity.i_body := Some (JStr text);
       Activity.i_href := Some (JStr "/webhooks") |} (d_event_id d) (d_event d) (feed w))
    (egress w) (runs w) (subs w) (log w).

Definition guarded (method : string) (h : handler) (w : world) : reply answer * world :=
  let '(r, g) := gate_require cfg (headers req) method (d_gate d) (gate w) in
  let w := with_gate g w in
  match r with
  | None => (Raised, w)
  | Some (Err (s, c)) => (Refused s c, w)
  | Some (Ok k) => h k w
  end.

(** ** Subscriptions *)

Definition webhooks_GET : handler := fun k w => (ok (Subscriptions (Webhooks.listWebhooks (subs w))), recordAuditEvent 200 k "" w).

(** The fields as the store takes them; [None]: it throws on the shape. *)
Definition list_or_none (v : jval) : option (option (list json)) :=
  match v with None | Some JNull => Some None | Some (JArr l) => Some (Some l) | _ => None end.

Definition secret_of (v : jval) : option (option string) :=
  match v with None | Some JNull => Some None | Some (JStr s) => Some (Some s) | _ => None end.

Definition input_of (u : string) (b : json) : option Webhooks.WebhookIn :=
  match list_or_none (field "events" b), list_or_none (field "tickers" b), secret_of (field "secret" b) with
  | Some events, Some tickers, Some secret =>
      Some {| Webhooks.in_url := u; Webhooks.in_events := strings_of <$> events; Webhooks.in_tickers := map String_of <$> tickers;
              Webhooks.in_secret := secret; Webhooks.in_enabled := match field "enabled" b with Some (JBool e) => Some e | _ => None end |}
  | _, _, _ => None
  end.

Definition webhooks_POST : handler := fun k w =>
  match body req with
  | Absent | Garbled => refuse 400 "invalid_json" k w
  | Given b =>
      match field "url" b with
      | Some (JStr u) =>
          if negb (truthy (trim u)) then refuse 400 "missing_url" k w else
          match Webhooks.validateUrl parse_url resolve u (egress w) with
          | Some c => refuse 400 (Webhooks.code_name c) k w
          | None =>
              match input_of u b with
              | None => (Raised, w)
              | Some input =>
                  let '(r, f) := Webhooks.createWebhook parse_url resolve (d_id d) (d_op d 0%nat) input (egress w) (subs w) in
                  let w := with_hooks f (log w) w in
                  match r with
                  | Err c => refuse 400 (Webhooks.code_name c) k w
                  | Ok s => (Answer 201 (Subscription s), recordAuditEvent 201 k "" w)
                  end
              end
          end
      | _ => refuse 400 "missing_url" k w
      end
  end.

Definition webhook_GET (i : string) : handler := fun k w =>
  match Webhooks.getWebhook i (subs w) with
  | None => refuse 404 "not_found" k w
  | Some s => (ok (Subscription s), recordAuditEvent 200 k "" w)
  end.

Definition webhook_DELETE (i : string) : handler := fun k w =>
  let '(found, f) := Webhooks.deleteWebhook i (subs w) in
  let w := with_hooks f (log w) w in
  if found then (ok Removed, recordAuditEvent 200 k "" w) else refuse 404 "not_found" k w.

(** [gatedKey ?? (await authenticate(...))]. *)
Definition known_key (k : option StoredKey) (w : world) : option StoredKey * world :=
  match k with
  | Some _ => (k, w)
  | None =>
      let g := gate w in
      let '(k, f, l) := authenticate sha256 (d_auth d) (adminEnv cfg) (extractKey (headers req))
                          (Some (IpMatch.clientIpFromRequest (headers req))) (keys_file g) (lockout g) in
      (k, with_gate (AdminGate.World f l (policy_file g) (registry g) (second g)) w)
  end.

Definition grace_of (b : json) : num :=
  match field "grace_seconds" b with None | Some JNull => int 3600 | Some j => Number_of j end.

Definition rotate_code (c : Webhooks.RotateCode) : Z * string :=
  match c with Webhooks.invalid_grace => (400, "invalid_grace") | Webhooks.not_found => (404, "not_found") end.

(** The body [null] has no fields to read. *)
Definition rotate_POST (i : string) : handler := fun k w =>
  let '(k, w) := known_key k w in
  match match body req with Absent => Some (JObj []) | Garbled => None | Given j => Some j end with
  | None => refuse 400 "invalid_json" k w
  | Some JNull => (Raised, w)
  | Some b =>
      let grace := grace_of b in
      if negb (is_finite grace) then refuse 400 "invalid_grace" k w else
      match Webhooks.getWebhook i (subs w) with
      | None => refuse 404 "not_found" k w
      | Some _ =>
          let '(r, f) := Webhooks.rotateWebhookSecret i (d_secret d) (match field "secret" b with Some (JStr s) => Some s | _ => None end)
                           (Some (int (floorZ grace))) (d_op d 0%nat) (subs w) in
          let w := with_hooks f (log w) w in
          match r with
          | Err c => refuse (fst (rotate_code c)) (snd (rotate_code c)) k w
          | Ok r =>
              let s := Webhooks.r_webhook r in
              (ok (NewSecret (Webhooks.id s) (Webhooks.r_secret r) (Webhooks.secret_rotated_at s) (Webhooks.previous_secret_expires_at s)
                     (Webhooks.grace_seconds r)),
               recordSafe "webhook.secret_rotated" "Rotated webhook signing secret"
                 (Webhooks.url s +:+ V1Routes.middot +:+ "grace " +:+ pretty (Webhooks.grace_seconds r) +:+ "s") (recordAuditEvent 200 k "" w))
          end
      end
  end.

(** ** Deliveries *)

(** [new Date().toISOString().replace(/[:.]/g, "-")]. *)
Definition file_stamp (now : Z) : string :=
  str_map (fun c => if Ascii.eqb c ":"%char || Ascii.eqb c "."%char then "-"%char else c) (toISOString now).

Definition status_filter : option bool :=
  match query req !! "status" with Some "ok" => Some true | Some "failed" => Some false | _ => None end.

Definition deliveries_GET : handler := fun k w =>
  let limit := default 50 (parseInt (default "50" (query req !! "limit"))) in
  let format := match query req !! "format" with Some "csv" => Some true | Some "json" => Some false | _ => None end in
  let l := Webhooks.listDeliveries (match format with Some _ => 500 | None => limit end) (query req !! "subscription_id") status_filter (log w) in
  (ok match format with
      | Some true => CsvFile ("webhook-deliveries-" +:+ file_stamp (d_op d 0%nat) +:+ ".csv") (Exports.deliveriesToCSV num_str l)
      | Some false => JsonFile ("webhook-deliveries-" +:+ file_stamp (d_op d 0%nat) +:+ ".json") l
      | None => Deliveries l
      end, recordAuditEvent 200 k "" w).

Definition replay_code (c : Webhooks.ReplayCode) : Z * string :=
  match c with
  | Webhooks.delivery_not_found => (404, "not_found") | Webhooks.no_events => (400, "no_events")
  | Webhooks.subscription_missing => (400, "subscription_missing")
  end.

Definition status_text (s : option Z) : string := from_option pretty "null" s.

Definition replay_POST (i : string) : handler := fun k w =>
  if negb (truthy i) then refuse 400 "missing_id" k w else
  let '(r, f, l) := Webhooks.replayDelivery parse_url resolve hmac (d_env d i) 3 i (egress w) (subs w) (log w) in
  let w := with_hooks f l w in
  match r with
  | Err c => refuse (fst (replay_code c)) (snd (replay_code c)) k w
  | Ok a =>
      let good := Webhooks.delivered a in
      (ok (Replayed a i),
       recordAuditEvent 200 k ""
         (recordSafe (if good then "webhook.delivered" else "webhook.failed")
            (if good then "Webhook replay delivered (HTTP " +:+ status_text (Webhooks.d_status a) +:+ ")" else "Webhook replay failed")
            (pretty (Webhooks.event_count a) +:+ " event(s) to " +:+ Webhooks.d_url a) w))
  end.

(** [queryRuns({limit: 1, offset: 0})]. *)
Definition latest_query : Runs.QueryOpts :=
  {| Runs.q := None; Runs.o_regime := None; Runs.o_ticker := None; Runs.o_tag := None; Runs.o_pinned := false; Runs.since := None;
     Runs.until := None; Runs.minConfidence := None; Runs.maxConfidence := None; Runs.minBars := None; Runs.maxBars := None;
     Runs.limit := Some 1; Runs.offset := Some 0; Runs.sort := None; Runs.ownerFilter := None |}.

Definition as_of_run (r : Runs.SavedRun) : string :=
  default (str_take 10 (toISOString (d_op d 0%nat))) (last (Runs.dates (Runs.payload r))).

Definition run_label (r : Runs.SavedRun) : string := from_option Runs.s_label "unknown" (Runs.snapshot (Runs.payload r)).

Definition run_event (r : Runs.SavedRun) : PickEvent :=
  {| Webhooks.kind := "entered"; Webhooks.ticker := Runs.ticker r; Webhooks.as_of := as_of_run r; Webhooks.new_label := Some (run_label r);
     Webhooks.prior_label := None; Webhooks.score_delta := Runs.confidence <$> Runs.snapshot (Runs.payload r) |}.

Definition plural (n : Z) : string := if n =? 1 then "" else "s".

Definition fire_POST : handler := fun k w =>
  match Runs.page (Runs.queryRuns localeCompare other_dates latest_query (runs w)) with
  | [] => refuse 400 "no_runs" k w
  | r :: _ =>
      let events := [run_event r] in
      let '(ds, f, l) := Webhooks.dispatchEvents parse_url resolve hmac (d_env d) 3 events (egress w) (subs w) (log w) in
      let w := with_hooks f l w in
      let good := len (filter (fun a => Webhooks.delivered a = true) ds) in
      let failed := len ds - good in
      let w :=
        if 0 <? len ds then
          recordSafe (if failed >? 0 then "webhook.failed" else "webhook.delivered")
            (if failed >? 0 then "Webhook delivery had " +:+ pretty failed +:+ " failure" +:+ plural failed
             else "Webhook delivered to " +:+ pretty good +:+ " endpoint" +:+ plural good)
            (Runs.ticker r +:+ V1Routes.middot +:+ run_label r +:+ V1Routes.middot +:+ as_of_run r) w
        else w in
      (ok (Fired events ds), recordAuditEvent 200 k "" w)
  end.

(** ** The routes *)

Inductive call := ListHooks | CreateHook | GetHook (i : string) | DeleteHook (i : string) | RotateHook (i : string) | ListLog | Replay (i : string) | FireLatest.

Definition method_of (c : call) : string :=
  match c with ListHooks | GetHook _ | ListLog => "GET" | DeleteHook _ => "DELETE" | _ => "POST" end.

Definition handle (c : call) : handler :=
  match c with
  | ListHooks => webhooks_GET | CreateHook => webhooks_POST | GetHook i => webhook_GET i | DeleteHook i => webhook_DELETE i
  | RotateHook i => rotate_POST i | ListLog => deliveries_GET | Replay i => replay_POST i | FireLatest => fire_POST
  end.

Definition serve (c : call) (w : world) : reply answer * world := guarded (method_of c) (handle c) w.
End Request.

(** ** Where subscriptions come from *)

(** What an operation other than a rotation leaves of a subscription: all but
    the status of its last delivery. *)
Definition settings_of (s : Webhook) :=
  (Webhooks.id s, Webhooks.url s, Webhooks.events s, Webhooks.tickers s, Webhooks.enabled s, Webhooks.created_at s).
Definition secrets_of (s : Webhook) :=
  (Webhooks.secret s, Webhooks.previous_secret s, Webhooks.previous_secret_expires_at s, Webhooks.secret_rotated_at s).

Definition same_but_status (s s' : Webhook) : Prop := settings_of s' = settings_of s /\ secrets_of s' = secrets_of s.

(** Every subscription of the new file is one of the old, up to its status. *)
Definition only_status (f f' : Webhooks.subs_file) : Prop :=
  forall s', s' ∈ read_file f' -> exists s, s ∈ read_file f /\ same_but_status s s'.

#[export] Instance only_status_preorder : PreOrder only_status.
Proof.
  split; [intros f s Hs; by exists s|]. intros f g h Hfg Hgh s'' (s' & Hs' & [A B])%Hgh. destruct (Hfg s' Hs') as (s & Hs & [A' B']).
  exists s. split; [done|]. split; congruence.
Qed.

Lemma updateWebhookStatus_status i p f : only_status f (Webhooks.updateWebhookStatus i p f).
Proof.
  unfold Webhooks.updateWebhookStatus. intros s'. unfold on_file, Webhooks.status_tx. set (l := read_file f).
  destruct (list_find (fun w => Webhooks.id w = i) l) as [[n x]|] eqn:E; [|intros Hs; by exists s'].
  apply list_find_elem in E as [Hx _]. cbn. intros [->|Hs]%elem_of_insert_inv; [by exists x|by exists s'].
Qed.

Lemma dispatch_to_status env n evs pf l : forall f, only_status f (snd (Webhooks.dispatch_to parse_url resolve hmac env n evs pf l f)).
Proof.
  induction l as [|s l IH]; intros f; [done|]. cbn [Webhooks.dispatch_to]. cbv zeta. destruct (_ =? 0)%nat; [apply IH|].
  destruct (Webhooks.deliverOne _ _ _ _ _ _ _ _ _ _ _) as [a m].
  match goal with |- context [Webhooks.dispatch_to _ _ _ _ _ _ _ _ ?g] => specialize (IH g); destruct (Webhooks.dispatch_to _ _ _ _ _ _ _ _ g) end.
  etransitivity; [apply updateWebhookStatus_status|exact IH].
Qed.

Lemma dispatchEvents_status env n evs pf f l : only_status f (snd (fst (Webhooks.dispatchEvents parse_url resolve hmac env n evs pf f l))).
Proof.
  unfold Webhooks.dispatchEvents. pose proof (dispatch_to_status env n evs pf (read_file f) f) as Hd.
  by destruct (Webhooks.dispatch_to _ _ _ _ _ _ _ _ _).
Qed.

Lemma replayDelivery_status e n i pf f l : only_status f (snd (fst (Webhooks.replayDelivery parse_url resolve hmac e n i pf f l))).
Proof.
  unfold Webhooks.replayDelivery. destruct (Webhooks.getDelivery i l) as [prior|]; [|done]. destruct (_ =? 0)%nat; [done|].
  destruct (Webhooks.getWebhook _ f) as [s|]; [|done]. destruct (Webhooks.deliverOne _ _ _ _ _ _ _ _ _ _ _) as [a m]. apply updateWebhookStatus_status.
Qed.

(** The subscription a call stored. *)
Definition posted (req : request) (d : draws) (w : world) (s : Webhook) : Prop :=
  exists b u input, body req = Given b /\ field "url" b = Some (JStr u) /\ Webhooks.validateUrl parse_url resolve u (egress w) = None /\
    input_of u b = Some input /\ s = Webhooks.new_webhook (d_id d) (d_op d 0%nat) input.

(** And the one whose secret it replaced. *)
Definition rotated (req : request) (d : draws) (w : world) (i : string) (s : Webhook) : Prop :=
  exists s0 r, s0 ∈ read_file (subs w) /\ Webhooks.id s0 = i /\ s = Webhooks.r_webhook r /\
    s = Webhooks.with_secret (Webhooks.r_secret r) (Webhooks.grace_seconds r) (d_op d 0%nat) s0.

Definition accounted (req : request) (d : draws) (c : call) (w : world) (a : reply answer) (s' : Webhook) : Prop :=
  (exists s, s ∈ read_file (subs w) /\ same_but_status s s') \/
  (c = CreateHook /\ posted req d w s' /\ a = Answer 201 (Subscription s')) \/
  exists g, c = RotateHook (Webhooks.id s') /\ rotated req d w (Webhooks.id s') s' /\
    a = Answer 200 (NewSecret (Webhooks.id s') (Webhooks.secret s') (Webhooks.secret_rotated_at s') (Webhooks.previous_secret_expires_at s') g).

(** The stores a request works on. *)
Definition same_stores (w w' : world) : Prop := egress w' = egress w /\ runs w' = runs w /\ subs w' = subs w /\ log w' = log w.

Lemma known_key_stores req d k w : same_stores w (snd (known_key req d k w)).
Proof. unfold known_key. destruct k; [done|]. by destruct (authenticate _ _ _ _ _ _ _) as [[? ?] ?]. Qed.

Lemma posted_accounted req d k w s' :
  let '(a, w') := webhooks_POST req d k w in s' ∈ read_file (subs w') -> accounted req d CreateHook w a s'.
Proof.
  unfold webhooks_POST, refuse, accounted. destruct (body req) as [| |b] eqn:Eb; [intros Hs; left; by exists s'..|].
  destruct (field "url" b) as [j|] eqn:Eu; [destruct j as [| | |u| |]|]; try (intros Hs; left; by exists s').
  destruct (negb _); [intros Hs; left; by exists s'|].
  destruct (Webhooks.validateUrl _ _ _ _) eqn:Ev; [intros Hs; left; by exists s'|].
  destruct (input_of u b) as [input|] eqn:Ei; [|intros Hs; left; by exists s'].
  assert (Webhooks.in_url input = u) as Hu.
  { unfold input_of in Ei. by repeat case_match; simplify_eq. }
  unfold Webhooks.createWebhook. rewrite Hu, Ev. cbn. rewrite elem_of_app, list_elem_of_singleton.
  intros [Hs| ->]; [left; by exists s'|right; left]. split; [done|]. split; [|done]. by exists b, u, input.
Qed.

Lemma deleted_accounted req d i k w s' :
  let '(a, w') := webhook_DELETE i k w in s' ∈ read_file (subs w') -> accounted req d (DeleteHook i) w a s'.
Proof.
  unfold webhook_DELETE, Webhooks.deleteWebhook, on_file, Webhooks.delete_tx. destruct (_ =? _)%nat; cbn; [intros Hs; left; by exists s'|].
  rewrite list_elem_of_filter. intros [_ Hs]. left. by exists s'.
Qed.

Lemma rotated_accounted req d i k w s' :
  let '(a, w') := rotate_POST req d i k w in s' ∈ read_file (subs w') -> accounted req d (RotateHook i) w a s'.
Proof.
  unfold rotate_POST. pose proof (known_key_stores req d k w) as (_ & _ & Hs1 & _). destruct (known_key req d k w) as [k1 w1]. cbn [snd] in Hs1.
  assert (forall a, s' ∈ read_file (subs w1) -> accounted req d (RotateHook i) w a s') as Hsame.
  { intros a Hs. left. exists s'. by rewrite <- Hs1. }
  destruct (match body req with Absent => _ | _ => _ end) as [b|]; [|exact (Hsame _)].
  assert (forall x, (let '(a, w') := x in s' ∈ read_file (subs w') -> accounted req d (RotateHook i) w a s') ->
    let '(a, w') := match b with JNull => (Raised, w1) | _ => x end in s' ∈ read_file (subs w') -> accounted req d (RotateHook i) w a s') as Hb.
  { intros x Hx. destruct b; try exact Hx. exact (Hsame _). }
  apply Hb. destruct (negb _); [exact (Hsame _)|]. destruct (Webhooks.getWebhook i (subs w1)) as [s0|]; [|exact (Hsame _)].
  unfold Webhooks.rotateWebhookSecret, on_file.
  destruct (Webhooks.rotate_tx _ _ _ _ _ _) as [r f] eqn:Er. destruct r as [r|c]; cbn.
  - destruct f as [f|]; [|unfold Webhooks.rotate_tx in Er; by repeat case_match].
    apply Webhooks.rotate_result in Er as (n & x & Hf & -> & Hg & Hw). apply list_find_elem in Hf as [Hx Hi].
    intros [->|Hs]%elem_of_insert_inv; [|by apply Hsame]. right. right. exists (Webhooks.grace_seconds r). rewrite Hw. cbn. rewrite Hi.
    split; [done|]. split; [|done]. exists x, r. rewrite <- Hs1. split_and!; try done.
  - assert (f = None) as -> by (unfold Webhooks.rotate_tx in Er; by repeat case_match; simplify_eq). exact (Hsame _).
Qed.

Lemma handled_accounted req d c k w s' :
  let '(a, w') := handle req d c k w in s' ∈ read_file (subs w') -> accounted req d c w a s'.
Proof.
  destruct c as [| |i|i|i| |i|]; cbn [handle].
  - intros Hs. left. by exists s'.
  - apply posted_accounted.
  - unfold webhook_GET. destruct (Webhooks.getWebhook i (subs w)); intros Hs; left; by exists s'.
  - apply deleted_accounted.
  - apply rotated_accounted.
  - intros Hs. left. by exists s'.
  - unfold replay_POST. destruct (negb _); [intros Hs; left; by exists s'|].
    pose proof (replayDelivery_status (d_env d i) 3 i (egress w) (subs w) (log w)) as Hr.
    destruct (Webhooks.replayDelivery _ _ _ _ _ _ _ _ _) as [[[a|e] f] l]; intros Hs; left; exact (Hr s' Hs).
  - unfold fire_POST. destruct (Runs.page _) as [|r rs]; [intros Hs; left; by exists s'|].
    pose proof (dispatchEvents_status (d_env d) 3 [run_event d r] (egress w) (subs w) (log w)) as Hr. cbv zeta.
    destruct (Webhooks.dispatchEvents _ _ _ _ _ _ _ _ _) as [[ds f] l]. destruct (0 <? len ds); intros Hs; left; exact (Hr s' Hs).
Qed.

(** ** Histories *)

(** A call with the world it meets. *)
Definition entry : Type := call * request * draws * world.

(** From an empty file. Between two calls anything else may change, the policy
    and the runs too; of the subscriptions only the status of deliveries. *)
Inductive history : list entry -> world -> Prop :=
| began w : read_file (subs w) = [] -> history [] w
| called es w c req d : history es w -> history (es ++ [(c, req, d, w)]) (snd (serve req d c w))
| changed es w w' : history es w -> only_status (subs w) (subs w') -> history es w'.

(** The call was let in for the bearer of that key, who passed the second factor. *)
Definition let_in (x : entry) (key : StoredKey) : Prop :=
  let '(c, req, d, w) := x in
  key_proven sha256 cfg (headers req) (d_gate d) (gate w) key /\
  exists trail, totp trail = totp (second (gate w)) /\
    fst (enforceAdminMfa hmac_sha1 sha256 (default "" (adminEnv cfg)) (headers req) (Some (id key)) (d_gate d 5%nat) trail) = None.

(** The address parses, is of the web, and the egress policy does not refuse it;
    a host that does not resolve at that moment is not refused. *)
Definition not_refused (u : string) (pf : file Egress.EgressPolicy) : Prop :=
  exists p, parse_url u = Some p /\ Egress.protocol p ∈ ["http:"; "https:"] /\
    match Egress.evaluateUrl parse_url resolve u (Egress.getPolicy pf) with
    | Ok _ | Err Egress.dns_failed | Err Egress.no_addresses => True
    | Err _ => False
    end.

Lemma validateUrl_spec u pf : Webhooks.validateUrl parse_url resolve u pf = None -> not_refused u pf.
Proof.
  unfold Webhooks.validateUrl, not_refused. destruct (parse_url u) as [p|]; [|done].
  destruct (negb (String.eqb (Egress.protocol p) "http:") && _) eqn:Ep; [done|]. intros Hev. exists p. split; [done|]. split.
  - apply andb_false_iff in Ep as [->%negb_false_iff%String.eqb_eq| ->%negb_false_iff%String.eqb_eq]; [by left|right; by left].
  - by destruct (Egress.evaluateUrl _ _ _ _) as [|[]].
Qed.

(** It was created by a call let in, with the settings its answer told, for the
    address it asked for, which the policy of that moment did not refuse. *)
Definition created_in (es : list entry) (s : Webhook) : Prop :=
  exists req d w key b u s0, (CreateHook, req, d, w) ∈ es /\ let_in (CreateHook, req, d, w) key /\
    body req = Given b /\ field "url" b = Some (JStr u) /\ not_refused u (egress w) /\ Webhooks.url s = trim u /\
    fst (serve req d CreateHook w) = Answer 201 (Subscription s0) /\ settings_of s = settings_of s0.

(** What the answer to a call tells of the secret of a subscription, and until
    when the one before it still signs. *)
Definition tells (c : call) (a : reply answer) (i secret : string) (expires : option Z) : Prop :=
  match a with
  | Answer 201 (Subscription s) => c = CreateHook /\ Webhooks.id s = i /\ Webhooks.secret s = secret /\ expires = None
  | Answer 200 (NewSecret j x _ e _) => c = RotateHook i /\ j = i /\ x = secret /\ e = expires
  | _ => False
  end.

(** It was told in the answer to a call let in, the one that created the
    subscription or one that rotated its secret. *)
Definition told_in (es : list entry) (i secret : string) (expires : option Z) : Prop :=
  exists c req d w key, (c, req, d, w) ∈ es /\ let_in (c, req, d, w) key /\ tells c (fst (serve req d c w)) i secret expires.

(** The secret it signs with, the end of the one before, and that one. *)
Definition keyed_in (es : list entry) (s : Webhook) : Prop :=
  told_in es (Webhooks.id s) (Webhooks.secret s) (Webhooks.previous_secret_expires_at s) /\
  forall x, Webhooks.previous_secret s = Some x -> exists e, told_in es (Webhooks.id s) x e.

Lemma created_in_same es es' s s' : settings_of s' = settings_of s -> created_in es s -> created_in (es ++ es') s'.
Proof.
  intros E (req & d & w & key & b & u & s0 & Hin & H1 & H2 & H3 & H4 & H5 & H6 & H7). exists req, d, w, key, b, u, s0. rewrite elem_of_app.
  split_and!; auto; [|congruence]. unfold settings_of in E. injection E as _ E _ _ _ _. congruence.
Qed.

Lemma told_in_more es es' i x e : told_in es i x e -> told_in (es ++ es') i x e.
Proof. intros (c & req & d & w & key & Hin & Ht). exists c, req, d, w, key. rewrite elem_of_app. auto. Qed.

Lemma keyed_in_same es es' s s' : same_but_status s s' -> keyed_in es s -> keyed_in (es ++ es') s'.
Proof.
  intros [A B] [H1 H2]. unfold settings_of, secrets_of in *. injection A as A _ _ _ _ _. injection B as B1 B2 B3 _. unfold keyed_in.
  rewrite A, B1, B2, B3. split; [by apply told_in_more|]. intros x [e He]%H2. exists e. by apply told_in_more.
Qed.

Lemma history_accounted es w : production cfg = true -> history es w -> forall s, s ∈ read_file (subs w) -> created_in es s /\ keyed_in es s.
Proof.
  intros Hp Hh. induction Hh as [w Hw|es w c req d Hh IH|es w w' Hh IH Hs]; intros s Hin.
  - rewrite Hw in Hin. by apply elem_of_nil in Hin.
  - assert (forall s0, s0 ∈ read_file (subs w) -> same_but_status s0 s -> created_in (es ++ [(c, req, d, w)]) s /\ keyed_in (es ++ [(c, req, d, w)]) s) as Hold.
    { intros s0 H0 [A B]. destruct (IH s0 H0) as [Hc Hk]. split; [by eapply created_in_same|by eapply keyed_in_same]. }
    assert ((c, req, d, w) ∈ es ++ [(c, req, d, w)]) as Hlast by (rewrite elem_of_app, list_elem_of_singleton; by right).
    destruct (serve req d c w) as [a w1] eqn:Es. cbn [snd] in Hin. unfold serve, guarded in Es.
    destruct (gate_require cfg (headers req) (method_of c) (d_gate d) (gate w)) as [r g] eqn:Eg.
    destruct r as [[k|[st x]]|]; [|injection Es as <- <-; by apply (Hold s)..].
    pose proof (handled_accounted req d c k (with_gate g w) s) as Ha. rewrite Es in Ha.
    assert (fst (serve req d c w) = a) as Hans by (unfold serve, guarded; by rewrite Eg, Es).
    assert (method_of c <> "GET" -> exists key, let_in (c, req, d, w) key) as Hk.
    { intros Hm. destruct (requireAdmin_second_factor sha256 hmac_sha1 b64uDec session_mac session_parse decodeURIComponent cfg
        (headers req) (method_of c) (d_gate d) (gate w) k g Hp Hm Eg) as (key & -> & Hkey & trail & Ht & Hmfa). exists key. split; [done|]. by exists trail. }
    destruct (Ha Hin) as [(s0 & H0 & Hb)|[(-> & Hpost & ->)|(n & -> & (s0 & r & H0 & Hi & Hs & Hw) & ->)]].
    + by apply (Hold s0).
    + destruct (Hk ltac:(done)) as (key & Hl). destruct Hpost as (b & u & input & Hb & Hu & Hv%validateUrl_spec & Hi & Hnew).
      assert (Webhooks.in_url input = u) as Hin_url by (unfold input_of in Hi; by repeat case_match; simplify_eq).
      split.
      * exists req, d, w, key, b, u, s. split_and!; try done. by rewrite Hnew, <- Hin_url.
      * split; [exists CreateHook, req, d, w, key; rewrite Hans; split_and!; try done; by rewrite Hnew|]. by rewrite Hnew.
    + destruct (Hk ltac:(done)) as (key & Hl). destruct (IH s0 H0) as [Hc [Hk1 _]]. split.
      * eapply created_in_same; [|exact Hc]. by rewrite Hw.
      * split; [exists (RotateHook (Webhooks.id s)), req, d, w, key; by rewrite Hans|].
        intros x Hx. exists (Webhooks.previous_secret_expires_at s0). rewrite <- Hi. apply told_in_more. rewrite Hw in Hx. cbn in Hx.
        destruct (_ && _); [|done]. by injection Hx as <-.
  - destruct (Hs s Hin) as (s0 & H0 & Hb). destruct (IH s0 H0) as [Hc Hk]. rewrite <- (app_nil_r es).
    split; [eapply created_in_same; [apply Hb|done]|by eapply keyed_in_same].
Qed.

(** C26. In production, whatever the history of the routes and of the
    deliveries between them: every subscription on file was created by a call of
    an administrator who proved a live key and passed the second factor, with the
    settings the answer told and for the address the call named, which the egress
    policy of that moment did not refuse; and both secrets it may sign with, the
    current one and the one before that is kept after a rotation, are secrets the
    answer to such a call told for this subscription, the call that created it or
    one that rotated its secret, and the moment up to which the older one is kept
    is the one the last answer told. *)
Theorem subscriptions_accounted es w s :
  production cfg = true -> history es w -> s ∈ read_file (subs w) -> created_in es s /\ keyed_in es s.
Proof. intros Hp Hh. by apply history_accounted. Qed.

(** ** What a replay sends *)

(** A replay sends the events of the logged delivery, to where the
    subscription points now and only if the egress policy lets it; the record goes
    on top of the log and names the delivery it repeats. It is refused, and
    changes nothing, exactly when there is no such delivery, it has no events, or
    its subscription is gone. *)
Theorem replay_settles d i k w :
  truthy i = true ->
  let '(a, w') := replay_POST d i k w in
  let prior := Webhooks.getDelivery i (log w) in
  let target := prior ≫= (fun p => Webhooks.getWebhook (Webhooks.subscription_id p) (subs w)) in
  match prior, target with
  | Some p, Some s =>
      if (length (Webhooks.d_events p) =? 0)%nat then a = Refused 400 "no_events" /\ same_stores w w' else
      exists r, a = Answer 200 (Replayed r i) /\ Webhooks.d_events r = Webhooks.d_events p /\ Webhooks.d_url r = Webhooks.url s /\
        Webhooks.subscription_id r = Webhooks.id s /\ Webhooks.replay_of r = Some i /\
        (forall e, Egress.evaluateUrl parse_url resolve (Webhooks.url s) (Egress.getPolicy (egress w)) = Err e -> Webhooks.d_status r = None) /\
        read_file (log w') = take 500 (r :: read_file (log w)) /\ only_status (subs w) (subs w')
  | Some p, None => exists code, a = Refused 400 code /\ same_stores w w'
  | None, _ => a = Refused 404 "not_found" /\ same_stores w w'
  end.
Proof.
  intros Hi. unfold replay_POST. rewrite Hi. cbn [negb]. pose proof (replayDelivery_status (d_env d i) 3 i (egress w) (subs w) (log w)) as Hs.
  unfold Webhooks.replayDelivery in *. destruct (Webhooks.getDelivery i (log w)) as [p|] eqn:Ep; [|done]. cbn [option_bind mbind].
  destruct (length (Webhooks.d_events p) =? 0)%nat eqn:El.
  { destruct (Webhooks.getWebhook _ _); [done|by eexists]. }
  destruct (Webhooks.getWebhook (Webhooks.subscription_id p) (subs w)) as [s|] eqn:Eg; [|by eexists].
  unfold Webhooks.deliverOne in *.
  assert (Webhooks.d_id p = i) as Hpi.
  { unfold Webhooks.getDelivery in Ep. destruct (list_find _ _) as [[n x]|] eqn:Ef; [|done]. injection Ep as <-.
    by apply list_find_elem in Ef as [_ ?]. }
  destruct (Egress.evaluateUrl parse_url resolve (Webhooks.url s) _) as [l|c] eqn:Ee; cbn in Hs |- *; rewrite Hpi in *;
    (eexists; split_and!; [done|done|done|done|done| |done|exact Hs]); intros e; by try injection 1.
Qed.

(** The secret told at a rotation is read again by whoever lists the
    subscriptions. *)
Lemma rotated_secret_listed k w s : s ∈ read_file (subs w) ->
  match fst (webhooks_GET k w) with Answer 200 (Subscriptions l) => exists s', s' ∈ l /\ Webhooks.id s' = Webhooks.id s /\ Webhooks.secret s' = Webhooks.secret s | _ => False end.
Proof.
  intros Hs. cbn. exists s. split; [|done]. unfold Webhooks.listWebhooks. by apply js_sort_elem.
Qed.

(** A rotation whose body is [null] throws. *)
Lemma null_rotation_throws req d i key w : body req = Given JNull -> fst (rotate_POST req d i (Some key) w) = Raised.
Proof. intros Hb. unfold rotate_POST. by rewrite Hb. Qed.
End Routes.

(** ** One administrator, one hook *)
Section Demo.
Definition demo_sha (s : string) : string := "#" +:+ s.
Definition demo_key : StoredKey := with_role owner (new_key demo_sha "alice" "sc_live_a" "ops" [read] 0 None).
Definition demo_world (n : file (list Webhook)) (l : file (list DeliveryAttempt)) : world (L := LockoutConfig * file AuthLockout.State) :=
  World (AdminGate.World (L := LockoutConfig * file AuthLockout.State) (write_file [demo_key]) (DEFAULT_CONFIG, None) None Sessions.empty_store
    (MfaGate.World None [])) None None None n l.
Definition demo_draws : draws :=
  {| d_gate := fun _ => 1000; d_auth := fun _ => 1000; d_op := fun _ => 2000; d_id := "w1"; d_secret := "minted"; d_env := Webhooks.demo_env;
     d_event_id := "e1"; d_event := 2000 |}.
Definition demo_request (b : payload) : request := {| headers := {[ "x-api-key" := "sc_live_a" ]}; query := ∅; body := b |}.
Definition demo_cfg : settings := {| adminEnv := Some "root-secret"; signing_key := "k"; timeouts := Sessions.Timeout.defaultPolicy |}.
Definition demo_serve (c : call) (b : payload) (w : world (L := LockoutConfig * file AuthLockout.State)) :=
  serve demo_sha (fun _ _ => []) Sso.demo_b64uDec Sso.demo_mac Sso.demo_parse Some Egress.demo_url Egress.demo_resolve Webhooks.demo_hmac
    (fun _ => "") (fun j => match j with JNum n => n | _ => NaN end) (fun _ => None) (fun _ => "") (fun _ _ => 0) (fun _ => None)
    demo_cfg (demo_request b) demo_draws c w.
Definition demo_post : payload := Given (JObj [("url", JStr "https://hooks.example.com/x"); ("secret", JStr " old ")]).
Definition demo_posted := snd (demo_serve CreateHook demo_post (demo_world None None)).
Definition demo_rotated := demo_serve (RotateHook "w1") Absent demo_posted.

Example rotation_answers : fst demo_rotated = Answer 200 (NewSecret "w1" "minted" (Some 2000) (Some 3602000) 3600).
Proof. vm_compute. reflexivity. Qed.

(** After the rotation it signs with the minted secret, and for an hour with the
    one of its creation too. *)
Lemma subscriptions_accounted_witness :
  match read_file (subs (snd demo_rotated)) with
  | [s] => Webhooks.secret s = "minted" /\ Webhooks.previous_secret s = Some "old" /\ exists es,
      created_in (L := LockoutConfig * file AuthLockout.State) demo_sha (fun _ _ => []) Sso.demo_b64uDec Sso.demo_mac Sso.demo_parse Some Egress.demo_url Egress.demo_resolve Webhooks.demo_hmac
    (fun _ => "") (fun j => match j with JNum n => n | _ => NaN end) (fun _ => None) (fun _ => "") (fun _ _ => 0) (fun _ => None) demo_cfg es s /\
      keyed_in (L := LockoutConfig * file AuthLockout.State) demo_sha (fun _ _ => []) Sso.demo_b64uDec Sso.demo_mac Sso.demo_parse Some Egress.demo_url Egress.demo_resolve Webhooks.demo_hmac
    (fun _ => "") (fun j => match j with JNum n => n | _ => NaN end) (fun _ => None) (fun _ => "") (fun _ _ => 0) (fun _ => None) demo_cfg es s
  | _ => False
  end.
Proof.
  assert (match read_file (subs (snd demo_rotated)) with
    | [s] => Webhooks.secret s = "minted" /\ Webhooks.previous_secret s = Some "old" | _ => False end) as Hl by (vm_compute; split; reflexivity).
  destruct (read_file (subs (snd demo_rotated))) as [|s [|s' l]] eqn:Es; [destruct Hl| |destruct Hl].
  split; [apply Hl|]. split; [apply Hl|].
  exists (([] ++ [(CreateHook, demo_request demo_post, demo_draws, demo_world None None)]) ++ [(RotateHook "w1", demo_request Absent, demo_draws, demo_posted)]).
  apply (subscriptions_accounted demo_sha (fun _ _ => []) Sso.demo_b64uDec Sso.demo_mac Sso.demo_parse Some Egress.demo_url Egress.demo_resolve Webhooks.demo_hmac
    (fun _ => "") (fun j => match j with JNum n => n | _ => NaN end) (fun _ => None) (fun _ => "") (fun _ _ => 0) (fun _ => None) demo_cfg _ (snd demo_rotated) s).
  - reflexivity.
  - apply called, called, began. reflexivity.
  - rewrite Es. by left.
Defined.

Definition demo_delivery : DeliveryAttempt :=
  {| Webhooks.d_id := "x1"; Webhooks.subscription_id := "w1"; Webhooks.d_url := "https://old.example.com"; Webhooks.d_status := None;
     Webhooks.d_error := Some "timeout"; Webhooks.attempt := 3; Webhooks.delivered_at := 1; Webhooks.signature := None; Webhooks.event_count := 1;
     Webhooks.d_events := [Webhooks.demo_event]; Webhooks.replay_of := None |}.

Lemma replay_settles_witness :
  let w := demo_world (Some [Webhooks.demo_sub]) (Some [demo_delivery]) in
  let '(a, w') := replay_POST Egress.demo_url Egress.demo_resolve Webhooks.demo_hmac demo_draws "x1" None w in
  exists r, a = Answer 200 (Replayed r "x1") /\ Webhooks.d_url r = "https://hooks.example.com/x" /\ read_file (log w') = [r; demo_delivery].
Proof.
  cbv zeta. pose proof (replay_settles Egress.demo_url Egress.demo_resolve Webhooks.demo_hmac demo_draws "x1" None
    (demo_world (Some [Webhooks.demo_sub]) (Some [demo_delivery])) eq_refl) as Hr.
  destruct (replay_POST _ _ _ _ _ _ _) as [a w']. destruct Hr as (r & Ha & _ & Hu & _ & _ & _ & Hl & _). exists r. by split_and!.
Defined.
End Demo.
