(* ===== verification/AuditRoutes.v ===== *)
(** The audit log as it is read, and what anybody may write to it. The routes
    [audit], [audit/verify], [audit/export.csv] and [audit/export.jsonl] of
    [web/app/api], over the log of [AuditLog]: each authenticates by itself, reads,
    and appends a line about the reading to the chain it reads. Module [CspReport]
    has the reports of the browsers.

    [Date.parse] of stamps the code does not write, [parseInt], [String(x)] of
    what is neither text nor an array, the MACs and the random ids are parameters
    or arguments. *)
From S2P Require Import Prelude JsNum JsDate IsoTime Json Store LegalHold Retention AuditLog Csv AuthLockout KeyStore.
From S2P Require IpMatch Guard Runs.
#[local] Existing Instances RetentionPolicy_persisted.

Record request := { headers : gmap string string; query : gmap string string }.

(** The clocks of the authentication and of the sweep before a reading, the
    times of the line and of the answer, the id of the line; and whether the
    stream of an export, which nobody awaits, reads after the line is appended. *)
Record draws := { d_auth : clock; d_sweep : clock; d_line : Z; d_now : Z; d_id : string; d_late : bool }.

Section Routes.
Context {L : Type} `{Lockout L} {R : Type} `{HoldRegister R}.
Context (double_text : num -> string) (sha256 hmac : string -> string) (adminEnv : option string).
Context (parseInt : string -> option Z) (other_dates : string -> option Z) (String_of : json -> string).

(** The log with what its readers and its sweep depend on. *)
Record world := World {
  keys_file : file keys; lockout : L; audit : audit_state; holds : R; lastAutoSweep : Z; retention : file RetentionPolicy }.

Inductive answer :=
| Page (r : QueryResult) (has_more : bool)
| Verified (r : ChainVerifyResult) (verified_at : Z)
| Csv (name text : string)
| JsonLines (name : string) (events : option (list json)).

Inductive reply := Refused (status : Z) (code : string) | Answer (a : answer) | Raised.

Definition production : bool := truthy (default "" adminEnv).

Definition with_audit (s : audit_state) (w : world) : world := World (keys_file w) (lockout w) s (holds w) (lastAutoSweep w) (retention w).

Inductive call := ReadPage | VerifyChain | ExportCsv | ExportJsonl.

Definition route_of (c : call) : string :=
  match c with
  | ReadPage => "/api/audit" | VerifyChain => "/api/audit/verify" | ExportCsv => "/api/audit/export.csv" | ExportJsonl => "/api/audit/export.jsonl"
  end.

Section Request.
Context (req : request) (d : draws).

(** The line about a request. *)
Definition record (c : call) (status : Z) (k : option StoredKey) (reason : option string) (details : option json) (w : world) : world :=
  with_audit (snd (recordAuditEvent double_text sha256 hmac (d_id d) (d_line d)
    {| in_headers := Some (headers req); in_route := route_of c; in_method := "GET"; in_status := status; in_key := Guard.audit_key <$> k;
       in_reason := reason; in_details := details |} (audit w))) w.

Definition authenticated (w : world) : option StoredKey * world :=
  let '(k, f, l) := authenticate sha256 (d_auth d) adminEnv (extractKey (headers req)) (Some (IpMatch.clientIpFromRequest (headers req)))
                      (keys_file w) (lockout w) in
  (k, World f l (audit w) (holds w) (lastAutoSweep w) (retention w)).

Definition administers (k : option StoredKey) : bool := match k with Some key => bool_decide (admin ∈ scopes key) | None => false end.

Definition guarded (c : call) (h : option StoredKey -> world -> reply * world) (w : world) : reply * world :=
  let '(k, w) := authenticated w in
  if production && negb (administers k) then (Refused 403 "forbidden", record c 403 k (Some "forbidden:admin-required") None w) else h k w.

Definition local_reason : option string := if production then None else Some "local-mode".

(** ** Filters *)

Definition param (name : string) : option string := query req !! name.

Definition too_long (n : Z) (v : option string) : bool := match v with Some s => truthy s && (n <? str_len s) | None => false end.

Definition ok_param : option bool := (fun s => bool_decide (s = "1") || bool_decide (s = "true")) <$> param "ok".

Definition filters (limit offset : option Z) : result QueryInput string :=
  if too_long 64 (param "key_id") then Err "bad_key_id"
  else if too_long 16 (param "method") then Err "bad_method"
  else if too_long 200 (param "route") then Err "bad_route"
  else if match param "since" with Some s => truthy s && negb (bool_decide (is_Some (Runs.parse_date other_dates s))) | None => false end then Err "bad_since"
  else Ok {| q_key_id := param "key_id"; q_method := param "method"; q_route := param "route"; q_ok := ok_param; q_since := param "since";
             q_limit := limit; q_offset := offset |}.

(** A filter that is undefined is left out of the line's details. *)
Definition filters_json (q : QueryInput) : json :=
  JObj ([("key_id", jopt JStr (q_key_id q)); ("method", jopt JStr (q_method q)); ("route", jopt JStr (q_route q))] ++
        match q_ok q with Some b => [("ok", JBool b)] | None => [] end ++ [("since", jopt JStr (q_since q))]).

Definition parseInt0 (v : option string) (fallback : Z) : Z := match v with Some s => default fallback (parseInt s) | None => fallback end.

(** [limitRaw ? Number.parseInt(limitRaw, 10) : most], within 1 and [cap]. *)
Definition export_limit (most cap : Z) : Z :=
  Z.min (Z.max (match param "limit" with Some s => if truthy s then default most (parseInt s) else most | None => most end) 1) cap.

(** ** Reading *)

Definition queried (q : QueryInput) (w : world) : option QueryResult * world :=
  let '(r, last, pf, x) := queryAudit (d_sweep d) (holds w) q (lastAutoSweep w) (retention w) (dir (audit w)) in
  (r, World (keys_file w) (lockout w) {| dir := x; lastChainHashCache := lastChainHashCache (audit w) |} (holds w) last pf).

Definition streamed (q : QueryInput) (w : world) : option (list json) * world :=
  let '(r, last, pf, x) := streamAuditFiltered (d_sweep d) (holds w) q (lastAutoSweep w) (retention w) (dir (audit w)) in
  (r, World (keys_file w) (lockout w) {| dir := x; lastChainHashCache := lastChainHashCache (audit w) |} (holds w) last pf).

Definition audit_GET (k : option StoredKey) (w : world) : reply * world :=
  match filters (Some (parseInt0 (param "limit") 200)) (Some (parseInt0 (param "offset") 0)) with
  | Err code => (Refused 400 code, w)
  | Ok q =>
      let '(r, w) := queried q w in
      match r with
      | None => (Raised, w)
      | Some r => (Answer (Page r (r_offset r + len (r_events r) <? r_total r)), record ReadPage 200 k local_reason None w)
      end
  end.

Definition break_text (b : break_reason) : string :=
  match b with
  | missing_hash_after_chain_started => "missing_hash_after_chain_started" | prev_hash_mismatch => "prev_hash_mismatch" | hash_mismatch => "hash_mismatch"
  end.

Definition verify_GET (k : option StoredKey) (w : world) : reply * world :=
  match verifyChain double_text hmac (dir (audit w)) with
  | None => (Raised, w)
  | Some r =>
      (Answer (Verified r (d_now d)),
       record VerifyChain 200 k (Some (if v_ok r then "chain-verified" else "chain-broken"))
         (Some (JObj [("ok", JBool (v_ok r)); ("checked", JNum (int (checked r))); ("skipped_legacy", JNum (int (skipped_legacy r)));
                      ("reason", jopt JStr (break_text <$> v_reason r))])) w)
  end.

(** ** The CSV file *)

Definition CSV_FIELDS : list string :=
  ["ts"; "id"; "method"; "route"; "status"; "ok"; "key_id"; "key_label"; "key_prefix"; "scopes"; "ip_hash"; "user_agent"; "reason"; "request_id"].

(** An element of an array, joined. *)
Definition element_text (j : json) : string := match j with JNull => "" | JStr s => s | j => String_of j end.

Definition value_text (v : jval) : string :=
  match v with
  | None | Some JNull => ""
  | Some (JArr l) => join "|" (element_text <$> l)
  | Some (JObj fs) => stringify double_text (JObj fs)
  | Some (JStr s) => s
  | Some j => String_of j
  end.

Definition csv_row (e : json) : string := Csv.line (csvCell <$> ((fun f => value_text (field f e)) <$> CSV_FIELDS)).

Definition day_of (now : Z) : string := str_take 10 (toISOString now).

(** A row that is [null] has no fields: the stream's start throws. *)
Definition export_csv_GET (k : option StoredKey) (w : world) : reply * world :=
  match filters (Some (export_limit 10000 100000)) (Some 0) with
  | Err code => (Refused 400 code, w)
  | Ok q =>
      let '(r, w) := queried q w in
      match r with
      | None => (Raised, w)
      | Some r =>
          if existsb is_null (r_events r) then (Raised, w) else
          (Answer (Csv ("audit-export-" +:+ day_of (d_now d) +:+ ".csv") (document (Csv.line CSV_FIELDS :: (csv_row <$> r_events r)))),
           record ExportCsv 200 k local_reason (Some (JObj [("rows", JNum (int (len (r_events r)))); ("filters", filters_json q)])) w)
      end
  end.

(** ** The stream of JSON lines *)

Definition export_jsonl_GET (k : option StoredKey) (w : world) : reply * world :=
  let limit := export_limit 100000 1000000 in
  match filters (Some limit) None with
  | Err code => (Refused 400 code, w)
  | Ok q =>
      let note := record ExportJsonl 200 k local_reason
        (Some (JObj [("format", JStr "ndjson"); ("limit", JNum (int limit)); ("filters", filters_json q)])) in
      let '(events, w) := if d_late d then streamed q (note w) else let '(l, w) := streamed q w in (l, note w) in
      (Answer (JsonLines ("audit-export-" +:+ day_of (d_now d) +:+ ".jsonl") events), w)
  end.

Definition handle (c : call) : option StoredKey -> world -> reply * world :=
  match c with ReadPage => audit_GET | VerifyChain => verify_GET | ExportCsv => export_csv_GET | ExportJsonl => export_jsonl_GET end.

Definition serve (c : call) (w : world) : reply * world := guarded c (handle c) w.
End Request.

(** ** A reader finds a chain and leaves a longer one *)

#[local] Set Default Proof Using "Type*".
Context (hmac_length : forall m, str_len (hmac m) = 64).

Lemma maybe_sweep_chain t clk reg last pf st evs :
  holds_chain double_text hmac t st evs ->
  let '(_, _, _, x) := maybeAutoSweep clk reg last pf (dir st) in
  exists kept, holds_chain double_text hmac t {| dir := x; lastChainHashCache := lastChainHashCache st |} kept /\ kept `suffix_of` evs.
Proof.
  intros Hc. unfold maybeAutoSweep. assert ({| dir := dir st; lastChainHashCache := lastChainHashCache st |} = st) as Hst by (by destruct st).
  destruct (_ && _); [rewrite Hst; by exists evs|]. destruct (_ <? _); [rewrite Hst; by exists evs|].
  pose proof (sweep_keeps_chain double_text hmac hmac_length Datatypes.id t (fun i => clk (S i)) reg pf st evs Hc) as Hs. cbn [perform] in Hs.
  by destruct (runRetentionSweep _ _ _ _) as [[r pf'] d'].
Qed.

Lemma queried_chain t d q w evs :
  holds_chain double_text hmac t (audit w) evs ->
  let '(r, w') := queried d q w in
  exists kept, holds_chain double_text hmac t (audit w') kept /\ kept `suffix_of` evs /\ r = query_page q (dir (audit w')).
Proof.
  intros Hc. unfold queried, queryAudit. pose proof (maybe_sweep_chain t (d_sweep d) (holds w) (lastAutoSweep w) (retention w) (audit w) evs Hc) as Hs.
  destruct (maybeAutoSweep _ _ _ _ _) as [[[o last] pf] x]. destruct Hs as (kept & Hk & Hsuf). by exists kept.
Qed.

Lemma streamed_chain t d q w evs :
  holds_chain double_text hmac t (audit w) evs ->
  let '(r, w') := streamed d q w in
  exists kept, holds_chain double_text hmac t (audit w') kept /\ kept `suffix_of` evs /\ r = stream_all q (dir (audit w')).
Proof.
  intros Hc. unfold streamed, streamAuditFiltered. pose proof (maybe_sweep_chain t (d_sweep d) (holds w) (lastAutoSweep w) (retention w) (audit w) evs Hc) as Hs.
  destruct (maybeAutoSweep _ _ _ _ _) as [[[o last] pf] x]. destruct Hs as (kept & Hk & Hsuf). by exists kept.
Qed.

(** The line a request leaves. *)
Definition line_of (c : call) (d : draws) (status_ : Z) (k : option StoredKey) (e : AuditEvent) : Prop :=
  AuditLog.ts e = d_line d /\ AuditLog.route e = route_of c /\ AuditLog.status e = status_ /\ AuditLog.key_id e = from_option id "anon" k.

Lemma record_chain t req d c status_ k reason details w evs :
  holds_chain double_text hmac t (audit w) evs -> t <= d_line d -> iso_range (d_line d) ->
  exists e, line_of c d status_ k e /\ holds_chain double_text hmac (d_line d) (audit (record req d c status_ k reason details w)) (evs ++ [e]).
Proof.
  intros Hc Ht Hr. unfold record.
  match goal with |- context [recordAuditEvent _ _ _ _ _ ?input _] =>
    destruct (append_keeps_chain double_text hmac hmac_length sha256 t (d_id d) (d_line d) input (audit w) evs Hc Ht Hr) as (e & E & _ & _ & _ & Hc') end.
  exists e. split; [|exact Hc']. apply (f_equal fst) in E. cbn [fst] in E. subst e. split_and!; [done|done|done|]. by destruct k.
Qed.

(** The line is not past the limit of the retention when the sweep of a stream
    that reads after it looks for old lines. *)
Definition in_time (d : draws) (w : world) : Prop :=
  let days := audit_days (getPolicy (retention w)) in
  0 < days -> iso_range (d_sweep d 3%nat - days * 86400000) /\ d_sweep d 3%nat - days * 86400000 <= d_line d.

Lemma late_line_stays t d q w evs e :
  holds_chain double_text hmac t (audit w) (evs ++ [e]) -> AuditLog.ts e = d_line d -> in_time d w ->
  AuditLog.line e ∈ rolled (dir (audit (snd (streamed d q w)))) ++ primary (dir (audit (snd (streamed d q w)))).
Proof.
  intros (Hl & _ & Hf & _) Ht Hin. apply Forall_app in Hf as [_ [[Hiso _] _]%Forall_cons].
  assert (AuditLog.line e ∈ rolled (dir (audit w)) ++ primary (dir (audit w))) as Hmem.
  { rewrite Hl. apply list_elem_of_fmap_2, elem_of_app. right. by apply list_elem_of_singleton. }
  unfold streamed, streamAuditFiltered, maybeAutoSweep. destruct (_ && _); [exact Hmem|]. destruct (_ <? _); [exact Hmem|].
  destruct (runRetentionSweep _ _ _ _) as [[r pf'] d'] eqn:Es. cbn [snd audit dir with_audit].
  destruct (sweep_lines _ _ _ _ _ _ _ Es) as [[-> ->]|(Hd & -> & ->)]; [exact Hmem|].
  destruct (Hin Hd) as [Hi Hle]. rewrite <- filter_app. apply list_elem_of_filter. split; [|exact Hmem].
  rewrite outdated_line. unfold cutoffIso. rewrite toISOString_lt by done. intros Hlt%Z.ltb_lt. lia.
Qed.

(** What is on the chain is read: no line raises. *)
Lemma page_of_chain t q x c evs :
  holds_chain double_text hmac t {| dir := x; lastChainHashCache := c |} evs ->
  exists shown r, query_page q x = Some r /\ r_events r = event_json <$> shown /\ (forall e, e ∈ shown -> e ∈ evs) /\ len shown <= 1000.
Proof.
  intros (Hl & _ & Hf & _). cbn [dir] in Hl. assert (Forall (fun e => iso_range (ts e)) evs) as Hr by (eapply Forall_impl; [exact Hf|]; by intros ? []).
  unfold query_page. rewrite (newest_matching_events q x evs Hl Hr). cbn [option_bind mbind]. rewrite <- fmap_drop, <- fmap_take.
  eexists _, _. split; [done|]. cbn [r_events]. split; [done|]. split.
  - intros e He. pose proof (elem_of_sublist _ _ e He (sublist_take _ _)) as He'. pose proof (elem_of_sublist _ _ e He' (sublist_drop _ _)) as He''.
    apply js_sort_elem in He''. by apply list_elem_of_filter in He'' as [_ ?].
  - unfold len. rewrite length_take. lia.
Qed.

Lemma events_not_null (l : list AuditEvent) : existsb is_null (event_json <$> l) = false.
Proof. by induction l. Qed.

(** A query that filters nothing. *)
Definition unfiltered (q : QueryInput) : Prop :=
  nonempty (q_key_id q) = None /\ nonempty (q_method q) = None /\ nonempty (q_route q) = None /\ q_ok q = None /\ nonempty (q_since q) = None.

Lemma stream_of_chain t q st evs :
  holds_chain double_text hmac t st evs ->
  exists shown, stream_all q (dir st) = Some (event_json <$> rev shown) /\
    (unfiltered q -> chained double_text hmac shown /\ shown `suffix_of` evs).
Proof.
  intros (Hl & Hch & Hf & Hs & _). assert (Forall (fun e => iso_range (ts e)) evs) as Hr by (eapply Forall_impl; [exact Hf|]; by intros ? []).
  unfold stream_all. rewrite (newest_matching_events q (dir st) evs Hl Hr). cbn [option_bind mbind]. rewrite <- fmap_take.
  match goal with |- context [take ?n ?l] => exists (rev (take n l)); rewrite rev_involutive; split; [done|] end.
  intros (H1 & H2 & H3 & H4 & H5). assert (filter (fun e => selects q e = true) evs = evs) as ->.
  { apply filter_all, Forall_forall. intros e _. unfold selects. by rewrite H1, H2, H3, H4, H5. }
  rewrite js_sort_newest_rev by done. match goal with |- context [take ?n _] => destruct (rev_take n (rev evs)) as (b & -> & Hb) end.
  rewrite rev_involutive in Hb. split; [|done]. destruct Hb as [a ->]. by eapply chained_suffix.
Qed.

Lemma chain_verifies shown : chained double_text hmac shown ->
  exists r, verify_from double_text hmac 0 None nothing_checked (event_json <$> shown) = Some r /\ v_ok r = true /\ checked r = len shown /\
    last_hash r = AuditLog.hash <$> last shown.
Proof.
  intros Hc. destruct (verify_chained double_text hmac hmac_length shown [] Hc) as (r & E & H1 & H2 & H3 & _). rewrite app_nil_r in E. by exists r.
Qed.

Lemma verify_of_chain t st evs :
  holds_chain double_text hmac t st evs ->
  exists r, verifyChain double_text hmac (dir st) = Some r /\ v_ok r = true /\ checked r = len evs /\ last_hash r = AuditLog.hash <$> last evs.
Proof.
  intros Hc. unfold verifyChain. rewrite (holds_chain_lines double_text hmac hmac_length t st evs Hc). apply chain_verifies. by destruct Hc as (_ & ? & _).
Qed.

(** ** What a request answers and leaves *)

(** A parameter is longer than that. *)
Definition longer (req : request) (name : string) (n : Z) : Prop := exists s, query req !! name = Some s /\ n < str_len s.

(** The routes that take filters refuse those that are too long, and a moment
    that is no date. *)
Definition malformed (c : call) (req : request) : Prop :=
  c <> VerifyChain /\
  (longer req "key_id" 64 \/ longer req "method" 16 \/ longer req "route" 200 \/
   exists s, query req !! "since" = Some s /\ s <> "" /\ Runs.parse_date other_dates s = None).

Lemma too_long_spec req name n : 0 <= n -> too_long n (param req name) = true <-> longer req name n.
Proof.
  intros Hn. unfold too_long, longer, param. destruct (query req !! name) as [s|]; [|split; [done|by intros (? & ? & _)]].
  rewrite andb_true_iff, Z.ltb_lt. split; [intros [_ Hs]; by exists s|]. intros (s' & [= <-] & Hs). split; [|done].
  apply truthy_spec. intros ->. change (str_len "") with 0 in Hs. lia.
Qed.

Lemma filters_spec c req limit offset : c <> VerifyChain ->
  match filters req limit offset with Ok _ => ~ malformed c req | Err _ => malformed c req end.
Proof.
  intros Hc. unfold filters, malformed. destruct (too_long 64 _) eqn:E1; [split; [done|left; by apply too_long_spec]|].
  destruct (too_long 16 _) eqn:E2; [split; [done|right; left; by apply too_long_spec]|].
  destruct (too_long 200 _) eqn:E3; [split; [done|right; right; left; by apply too_long_spec]|].
  destruct (match param req "since" with Some s => _ | None => _ end) eqn:E4.
  - split; [done|]. do 3 right. unfold param in E4. destruct (query req !! "since") as [s|]; [|done]. exists s.
    apply andb_prop in E4 as [Ht%truthy_spec Hd%negb_true_iff%bool_decide_eq_false]. split_and!; [done|done|]. by apply eq_None_not_Some.
  - intros [_ [Hx|[Hx|[Hx|(s & Es & Hne & Hd)]]]]; [apply too_long_spec in Hx; [congruence|lia]..|].
    unfold param in E4. rewrite Es, Hd, (proj2 (truthy_spec s) Hne) in E4. done.
Qed.

Definition late_stream (c : call) (d : draws) : bool := match c with ExportJsonl => d_late d | _ => false end.

(** The log has one more line, about the request, over what a sweep has kept. *)
Definition recorded (c : call) (d : draws) (k : option StoredKey) (status_ : Z) (evs : list AuditEvent) (w : world) : Prop :=
  exists e kept, line_of c d status_ k e /\ kept `suffix_of` evs /\ holds_chain double_text hmac (d_line d) (audit w) (kept ++ [e]).

(** What a request let in answers. *)
Definition settled (c : call) (req : request) (d : draws) (k : option StoredKey) (evs : list AuditEvent) (a : reply) (w w' : world) : Prop :=
  (malformed c req -> exists code, a = Refused 400 code /\ audit w' = audit w) /\
  (~ malformed c req -> exists x, a = Answer x /\ recorded c d k 200 evs w').

Lemma settled_refused c req d k evs code w : malformed c req -> settled c req d k evs (Refused 400 code) w w.
Proof. intros Hm. split; [by exists code|done]. Qed.

Lemma settled_answer t req d c k reason details (a : answer) w0 w evs kept :
  ~ malformed c req -> holds_chain double_text hmac t (audit w) kept -> kept `suffix_of` evs -> t <= d_line d -> iso_range (d_line d) ->
  settled c req d k evs (Answer a) w0 (record req d c 200 k reason details w).
Proof.
  intros Hm Hc Hs Ht Hr. split; [done|]. intros _. exists a. split; [done|].
  destruct (record_chain t req d c 200 k reason details w kept Hc Ht Hr) as (e & He & Hc'). by exists e, kept.
Qed.

Lemma handled_settled t req d c k w evs :
  holds_chain double_text hmac t (audit w) evs -> t <= d_line d -> iso_range (d_line d) -> (late_stream c d = true -> in_time d w) ->
  let '(a, w') := handle req d c k w in settled c req d k evs a w w'.
Proof.
  intros Hc Ht Hr Hin. destruct c; cbn [handle].
  - unfold audit_GET. match goal with |- context [filters ?r ?l ?o] => pose proof (filters_spec ReadPage r l o ltac:(done)) as Hf end.
    destruct (filters _ _ _) as [q|code]; [|by apply settled_refused]. pose proof (queried_chain t d q w evs Hc) as Hq.
    destruct (queried d q w) as [r w1]. destruct Hq as (kept & Hk & Hs & ->).
    destruct (page_of_chain t q (dir (audit w1)) (lastChainHashCache (audit w1)) kept) as (shown & r & -> & _); [by destruct (audit w1)|].
    by eapply settled_answer.
  - unfold verify_GET. destruct (verify_of_chain t (audit w) evs Hc) as (r & -> & _). eapply settled_answer; [|done..]. by intros [].
  - unfold export_csv_GET. match goal with |- context [filters ?r ?l ?o] => pose proof (filters_spec ExportCsv r l o ltac:(done)) as Hf end.
    destruct (filters _ _ _) as [q|code]; [|by apply settled_refused]. pose proof (queried_chain t d q w evs Hc) as Hq.
    destruct (queried d q w) as [r w1]. destruct Hq as (kept & Hk & Hs & ->).
    destruct (page_of_chain t q (dir (audit w1)) (lastChainHashCache (audit w1)) kept) as (shown & r & -> & Hev & _); [by destruct (audit w1)|].
    rewrite Hev, events_not_null. by eapply settled_answer.
  - unfold export_jsonl_GET. cbv zeta. match goal with |- context [filters ?r ?l ?o] => pose proof (filters_spec ExportJsonl r l o ltac:(done)) as Hf end.
    destruct (filters _ _ _) as [q|code]; [|by apply settled_refused].
    match goal with |- context [record req d ExportJsonl 200 k ?why ?more] => set (reason := why); set (details := more) end.
    destruct (d_late d) eqn:El.
    + destruct (record_chain t req d ExportJsonl 200 k reason details w evs Hc Ht Hr) as (e & He & Hc').
      pose proof (late_line_stays _ d q _ _ _ Hc' (proj1 He) (Hin El)) as Hlast.
      pose proof (streamed_chain _ d q _ _ Hc') as Hs. destruct (streamed d q _) as [l w1]. destruct Hs as (kept & Hk & [cut Hsuf] & _). cbn [snd] in Hlast.
      split; [done|]. intros _. eexists. split; [done|]. destruct kept as [|x kept _] using rev_ind.
      { destruct Hk as (Hl & _). rewrite Hl in Hlast. by apply elem_of_nil in Hlast. }
      rewrite app_assoc in Hsuf. apply app_inj_tail in Hsuf as [-> <-]. exists e, kept. split_and!; [done|by exists cut|done].
    + pose proof (streamed_chain t d q w evs Hc) as Hs. destruct (streamed d q w) as [l w1]. destruct Hs as (kept & Hk & Hsuf & _).
      by eapply settled_answer.
Qed.

Lemma authenticated_same req d w : audit (snd (authenticated req d w)) = audit w /\ retention (snd (authenticated req d w)) = retention w.
Proof. unfold authenticated. by destruct (authenticate _ _ _ _ _ _ _) as [[? ?] ?]. Qed.

Lemma authenticated_audit req d w : audit (snd (authenticated req d w)) = audit w.
Proof. apply authenticated_same. Qed.

(** The key may administer. *)
Definition may_read (k : option StoredKey) : Prop := exists key, k = Some key /\ admin ∈ scopes key.

(** C35. The audit log is read on the record. Take any request to one of its
    routes on a log that is one chain. In production, a request without a key of
    the admin scope is refused with 403. Any other is refused with 400, and the
    log is left as it was, exactly when a filter is malformed (a key id, method
    or route of more than 64, 16 and 200 characters, or a moment that is no
    date), and is answered otherwise: none raises. The refusal with 403 and every
    answer leave the chain, of which a sweep may have cut the front, with one more
    line at its end that names the time, the route, the status and the key that
    asked. The stream of JSON lines may read after that line is written; then
    the line stays if it is not past the limit of the retention by then. *)
Theorem reading_is_on_record t req d c w evs :
  holds_chain double_text hmac t (audit w) evs -> t <= d_line d -> iso_range (d_line d) -> (late_stream c d = true -> in_time d w) ->
  let k := fst (authenticated req d w) in
  let '(a, w') := serve req d c w in
  (production = true /\ ~ may_read k -> a = Refused 403 "forbidden" /\ recorded c d k 403 evs w') /\
  (production = false \/ may_read k -> settled c req d k evs a w w').
Proof.
  intros Hc Ht Hr Hin. cbv zeta. unfold serve, guarded. pose proof (authenticated_same req d w) as [Ha Hret].
  destruct (authenticated req d w) as [k w1]. cbn [fst snd] in *. rewrite <- Ha in Hc.
  assert (in_time d w -> in_time d w1) as Hin1 by (unfold in_time; by rewrite Hret).
  assert (administers k = true <-> may_read k) as Hadm.
  { unfold administers, may_read. destruct k as [key|]; [|split; [done|by intros (? & ? & _)]]. rewrite bool_decide_eq_true. naive_solver. }
  destruct (production && negb (administers k)) eqn:Eg.
  - apply andb_prop in Eg as [Ep Eg%negb_true_iff]. split.
    + intros _. split; [done|]. destruct (record_chain t req d c 403 k (Some "forbidden:admin-required") None w1 evs Hc Ht Hr) as (e & He & Hc').
      by exists e, evs.
    + intros [Hp|Hm%Hadm]; congruence.
  - pose proof (handled_settled t req d c k w1 evs Hc Ht Hr ltac:(auto)) as Hh. destruct (handle req d c k w1) as [a w']. split.
    + intros [Hp Hm]. rewrite Hp in Eg. cbn in Eg. apply negb_false_iff in Eg. by apply Hadm in Eg.
    + intros _. unfold settled in *. by rewrite Ha in Hh.
Qed.

(** ** What the answers are worth *)

Definition no_filter (req : request) : Prop := Forall (fun n => query req !! n = None) ["key_id"; "method"; "route"; "ok"; "since"].

Lemma no_filter_unfiltered req limit offset q : no_filter req -> filters req limit offset = Ok q -> unfiltered q.
Proof.
  unfold no_filter, filters, ok_param, param. intros Hn. repeat (apply Forall_cons in Hn as [-> Hn]). intros [= <-]. by split_and!.
Qed.

(** A file of lines, newest first, that verifies when it is read from its end. *)
Definition verifiable (l : list json) : Prop :=
  exists r, verify_from double_text hmac 0 None nothing_checked (rev l) = Some r /\ v_ok r = true /\ checked r = len l.

Lemma stream_verifiable t q st evs :
  holds_chain double_text hmac t st evs -> unfiltered q -> exists l, stream_all q (dir st) = Some l /\ verifiable l.
Proof.
  intros Hc Hu. destruct (stream_of_chain t q st evs Hc) as (shown & E & Hs). destruct (Hs Hu) as [Hch _]. eexists. split; [exact E|].
  destruct (chain_verifies shown Hch) as (r & Hr & Hok & Hn & _). exists r. unfold len. rewrite length_fmap, length_rev.
  assert (rev (event_json <$> rev shown) = event_json <$> shown) as -> by (symmetry; rewrite <- (rev_involutive shown) at 1; apply (map_rev event_json)). done.
Qed.

Lemma fields_plain : csvCell <$> CSV_FIELDS = CSV_FIELDS.
Proof. reflexivity. Qed.

Definition csv_values (e : AuditEvent) : list string := (fun f => value_text (field f (event_json e))) <$> CSV_FIELDS.

Lemma csv_reads_back shown :
  parse_csv (document (Csv.line CSV_FIELDS :: (csv_row <$> (event_json <$> shown)))) = Some (CSV_FIELDS :: (csv_values <$> shown)).
Proof.
  rewrite <- (parse_document (CSV_FIELDS :: (csv_values <$> shown))).
  - rewrite !fmap_cons, fields_plain, <- !list_fmap_compose. reflexivity.
  - constructor; [done|]. apply Forall_fmap, Forall_true. by intros.
  - done.
Qed.

Definition reliable (req : request) (evs : list AuditEvent) (a : answer) : Prop :=
  match a with
  | Page _ _ => True
  | Verified r _ => v_ok r = true /\ checked r = len evs /\ last_hash r = AuditLog.hash <$> last evs
  | Csv _ text => exists shown, (forall e, e ∈ shown -> e ∈ evs) /\ len shown <= 1000 /\ parse_csv text = Some (CSV_FIELDS :: (csv_values <$> shown))
  | JsonLines _ l => no_filter req -> exists events, l = Some events /\ verifiable events
  end.

Lemma handled_reliable t req d c k w evs :
  holds_chain double_text hmac t (audit w) evs -> t <= d_line d -> iso_range (d_line d) ->
  match fst (handle req d c k w) with Answer a => reliable req evs a | _ => True end.
Proof.
  intros Hc Ht Hr. destruct c; cbn [handle].
  - unfold audit_GET. destruct (filters _ _ _) as [q|]; [|done]. destruct (queried d q w) as [[r|] w1]; done.
  - unfold verify_GET. by destruct (verify_of_chain t (audit w) evs Hc) as (r & -> & Hv).
  - unfold export_csv_GET. destruct (filters _ _ _) as [q|code]; [|done]. pose proof (queried_chain t d q w evs Hc) as Hq.
    destruct (queried d q w) as [r w1]. destruct Hq as (kept & Hk & [pre ->] & ->).
    destruct (page_of_chain t q (dir (audit w1)) (lastChainHashCache (audit w1)) kept) as (shown & r & -> & Hev & Hin & Hn); [by destruct (audit w1)|].
    rewrite Hev, events_not_null. exists shown. split_and!; [|done|apply csv_reads_back]. intros e He. apply elem_of_app. auto.
  - unfold export_jsonl_GET. cbv zeta. destruct (filters _ _ _) as [q|code] eqn:Ef; [|done].
    match goal with |- context [record req d ExportJsonl 200 k ?why ?more] => set (reason := why); set (details := more) end.
    destruct (d_late d).
    + destruct (record_chain t req d ExportJsonl 200 k reason details w evs Hc Ht Hr) as (e & He & Hc').
      pose proof (streamed_chain _ d q _ _ Hc') as Hs. destruct (streamed d q _) as [l w1]. destruct Hs as (kept & Hk & _ & ->).
      intros Hn. eapply stream_verifiable; [exact Hk|]. by eapply no_filter_unfiltered.
    + pose proof (streamed_chain t d q w evs Hc) as Hs. destruct (streamed d q w) as [l w1]. destruct Hs as (kept & Hk & _ & ->).
      intros Hn. eapply stream_verifiable; [exact Hk|]. by eapply no_filter_unfiltered.
Qed.

(** On a log that is one chain the answers can be relied on: the
    verification finds it whole and counts every line; the stream without filters,
    read from its end, is a chain that verifies line by line, so an importer can
    check it again; and a reader of the CSV format gets back the columns and, row
    by row, the fields of events of the log. *)
Theorem exports_reliable t req d c w evs :
  holds_chain double_text hmac t (audit w) evs -> t <= d_line d -> iso_range (d_line d) ->
  match fst (serve req d c w) with Answer a => reliable req evs a | _ => True end.
Proof.
  intros Hc Ht Hr. unfold serve, guarded. pose proof (authenticated_audit req d w) as Ha. destruct (authenticated req d w) as [k w1].
  cbn [snd] in Ha. rewrite <- Ha in Hc. destruct (_ && _); [done|]. by eapply handled_reliable.
Qed.

(** However many rows are asked for, the file has a thousand at most. *)
Lemma csv_export_stops_at_thousand d q w r w' : queried d q w = (Some r, w') -> len (r_events r) <= 1000.
Proof.
  unfold queried, queryAudit. destruct (maybeAutoSweep _ _ _ _ _) as [[[o last] pf] x]. intros [= Hq _]. unfold query_page in Hq.
  destruct (newest_matching q x) as [l|]; [|done]. injection Hq as <-. unfold len. cbn [r_events]. rewrite length_take. lia.
Qed.

(** A user agent that begins like a formula is a cell as it is. *)
Lemma formula_in_audit_export : csv_row (JObj [("user_agent", JStr "=1+1")]) = ",,,,,,,,,,,=1+1,,".
Proof. reflexivity. Qed.
End Routes.

(** ** A log of two lines, read *)
Section Demo.
Definition demo_world : world (L := LockoutConfig * file AuthLockout.State) (R := file (list LegalHold)) :=
  World (write_file [with_role owner (new_key demo_sha "alice" "sc_live_a" "ops" [read] 0 None)]) (DEFAULT_CONFIG, None) demo_log None 0 None.
Definition demo_request (q : gmap string string) : request := {| headers := {[ "x-api-key" := "sc_live_a" ]}; query := q |}.
Definition demo_draws : draws :=
  {| d_auth := fun _ => 1767225602000; d_sweep := fun _ => 1767225602000; d_line := 1767225602000; d_now := 1767225602000; d_id := "e3"; d_late := false |}.
Definition demo_serve (c : call) (q : gmap string string) :=
  serve demo_text demo_sha demo_hmac (Some "root-secret") (fun _ => None) (fun _ => None) (fun _ => "") (demo_request q) demo_draws c demo_world.

Lemma demo_chain : exists evs, holds_chain demo_text demo_hmac 1767225601000 demo_log evs.
Proof.
  destruct (append_keeps_chain demo_text demo_hmac demo_hmac_length demo_sha 0 "e1" 1767225600000 (demo_input "/api/v1/runs") demo_start [])
    as (e1 & _ & _ & _ & _ & H1); [by split_and!; try constructor|done|by split|].
  destruct (append_keeps_chain demo_text demo_hmac demo_hmac_length demo_sha 1767225600000 "e2" 1767225601000 (demo_input "/api/v1/audit")
    (perform demo_text demo_hmac demo_sha (perform demo_text demo_hmac demo_sha demo_start (Append "e1" 1767225600000 (demo_input "/api/v1/runs"))) Restart) [e1])
    as (e2 & _ & _ & _ & _ & H2); [|done|by split|by exists ([e1] ++ [e2])].
  destruct H1 as (? & ? & ? & ? & ? & _). by split_and!.
Qed.

Lemma reading_is_on_record_witness :
  exists e before, AuditLog.route e = "/api/audit/verify" /\ AuditLog.status e = 200 /\ AuditLog.key_id e = "alice" /\
    holds_chain demo_text demo_hmac 1767225602000 (audit (snd (demo_serve VerifyChain ∅))) (before ++ [e]).
Proof.
  destruct demo_chain as (evs & Hc).
  assert (from_option id "anon" (fst (authenticated demo_sha (Some "root-secret") (demo_request ∅) demo_draws demo_world)) = "alice") as Hk by (vm_compute; reflexivity).
  pose proof (reading_is_on_record demo_text demo_sha demo_hmac (Some "root-secret") (fun _ => None) (fun _ => None) (fun _ => "") demo_hmac_length
    1767225601000 (demo_request ∅) demo_draws VerifyChain demo_world evs Hc ltac:(done) ltac:(by split) ltac:(discriminate)) as Hr.
  cbv zeta in Hr. fold (demo_serve VerifyChain ∅) in Hr. destruct (demo_serve VerifyChain ∅) as [a w'].
  destruct Hr as [_ Hr]. destruct Hr as [_ Hr].
  - right. eexists. split; [vm_compute; reflexivity|]. apply (bool_decide_unpack _). vm_compute. exact I.
  - destruct Hr as (x & _ & e & kept & (_ & H1 & H2 & H3) & _ & H4); [intros [Hne _]; apply Hne; reflexivity|].
    exists e, kept. cbn [snd]. by rewrite H3, Hk.
Defined.

Lemma exports_reliable_witness :
  match fst (demo_serve ExportJsonl ∅) with
  | Answer (JsonLines name l) => name = "audit-export-2026-01-01.jsonl" /\ exists events, l = Some events /\ verifiable demo_text demo_hmac events
  | _ => False
  end.
Proof.
  destruct demo_chain as (evs & Hc).
  assert (match fst (demo_serve ExportJsonl ∅) with Answer (JsonLines name l) => String.eqb name "audit-export-2026-01-01.jsonl" | _ => false end = true) as Ha
    by (vm_compute; reflexivity).
  pose proof (exports_reliable demo_text demo_sha demo_hmac (Some "root-secret") (fun _ => None) (fun _ => None) (fun _ => "") demo_hmac_length
    1767225601000 (demo_request ∅) demo_draws ExportJsonl demo_world evs Hc ltac:(done) ltac:(by split)) as Hr.
  fold (demo_serve ExportJsonl ∅) in Hr.
  destruct (fst (demo_serve ExportJsonl ∅)) as [s c|[r b|r z|n x|n l]|]; try discriminate Ha.
  apply String.eqb_eq in Ha. split; [exact Ha|]. apply Hr. by repeat constructor.
Defined.
End Demo.

(** * The reports of the browsers

    The sink of the reports on the content policy,
    [web/app/api/csp-report/route.ts]. A report needs no key; whatever it says, a
    summary of bounded size becomes one line of the audit log, and the browser is
    answered 204. [JSON.parse] is a parameter. *)

Module CspReport.
#[local] Existing Instances LegalHold.holds_persisted LegalHold.file_register.

Definition MAX_BODY : Z := 16 * 1024.

Definition clip (max : nat) (v : jval) : json :=
  match v with
  | Some (JStr v) =>
      let s := trim v in
      if negb (truthy s) then JNull else if Z.of_nat max <? str_len s then JStr (str_take max s +:+ "...") else JStr s
  | _ => JNull
  end.

(** [a ?? b]. *)
Definition or_else (a b : jval) : jval := match a with None | Some JNull => b | a => a end.

(** The part of a report that describes the violation. *)
Definition record_of (body : json) : jval :=
  match body with
  | JArr l =>
      match head l ≫= field "body" with Some b => if jtruthy (Some b) then Some b else Some body | None => Some body end
  | JObj _ =>
      if jtruthy (field "csp-report" body) then field "csp-report" body
      else if match field "type" body with Some (JStr t) => String.eqb t "csp-violation" | _ => false end && jtruthy (field "body" body) then field "body" body
      else Some body
  | _ => None
  end.

Definition summarize (body : json) : json :=
  match record_of body with
  | Some ((JObj _ | JArr _) as rec) =>
      let get k := field k rec in
      JObj [("directive", clip 200 (or_else (or_else (get "effective-directive") (get "violated-directive")) (get "effectiveDirective")));
            ("blocked", clip 200 (or_else (get "blocked-uri") (get "blockedURL")));
            ("document", clip 200 (or_else (get "document-uri") (get "documentURL")));
            ("source", clip 200 (or_else (get "source-file") (get "sourceFile")));
            ("line", match or_else (get "line-number") (get "lineNumber") with Some (JNum n) => JNum n | _ => JNull end);
            ("disposition", clip 200 (get "disposition"));
            ("sample", clip 160 (or_else (get "script-sample") (get "sample")))]
  | _ => JObj [("kind", JStr "unparsed")]
  end.

(** [p_body]: [None] when reading it fails. *)
Record report := { p_headers : gmap string string; p_body : option string; p_id : string; p_now : Z }.

Section Sink.
Context (json_parse : string -> option json) (double_text : num -> string) (sha256 hmac : string -> string).

(** The status that is recorded, why, and the details. *)
Definition judged (raw : option string) : Z * string * option json :=
  match raw with
  | None => (400, "csp:read_failed", None)
  | Some raw =>
      if MAX_BODY <? str_len raw then (413, "csp:too_large", None)
      else match (if truthy raw then json_parse raw else Some JNull) with
           | None => (400, "csp:bad_json", None)
           | Some j => (204, "csp:violation", Some (summarize j))
           end
  end.

Definition report_input (r : report) : RecordInput :=
  let '(status, reason, details) := judged (p_body r) in
  {| in_headers := Some (p_headers r); in_route := "/api/csp-report"; in_method := "POST"; in_status := status; in_key := None;
     in_reason := Some reason; in_details := details |}.

Definition report_POST (r : report) (s : audit_state) : Z * audit_state :=
  (204, snd (recordAuditEvent double_text sha256 hmac (p_id r) (p_now r) (report_input r) s)).

Definition reports (rs : list report) (s : audit_state) : audit_state := fold_left (fun s r => snd (report_POST r s)) rs s.
End Sink.

(** ** What is recorded *)

Definition small (j : json) : Prop := match j with JNull | JNum _ | JBool _ => True | JStr s => str_len s <= 203 | _ => False end.

Definition bounded_details (d : option json) : Prop :=
  match d with None => True | Some (JObj fs) => (length fs <= 7)%nat /\ Forall (fun e => small (snd e)) fs | _ => False end.

Lemma clip_small n v : (n <= 200)%nat -> small (clip n v).
Proof.
  intros Hn. unfold clip. destruct v as [[]|]; try done. cbv zeta. destruct (truthy _); cbn [negb]; [|done].
  destruct (Z.ltb_spec (Z.of_nat n) (str_len (trim s))); cbn [small]; unfold str_len in *; [|lia].
  rewrite str_length_app. pose proof (str_take_length n (trim s)). cbn [String.length]. lia.
Qed.

Lemma summarize_bounded j : bounded_details (Some (summarize j)).
Proof.
  assert (bounded_details (Some (JObj [("kind", JStr "unparsed")]))) as Hk by (split; [simpl; lia|by repeat constructor]).
  unfold summarize. destruct (record_of j) as [[]|]; try exact Hk; (split; [simpl; lia|]);
    repeat (apply Forall_cons; split; [cbn [snd]; try (apply clip_small; lia); by destruct (or_else _ _) as [[]|]|]); by apply Forall_nil.
Qed.

Lemma safeDetails_bounded double_text d : bounded_details d -> bounded_details (safeDetails double_text d).
Proof.
  destruct d as [[]|]; try done. intros Hd. unfold safeDetails. cbv zeta. destruct (_ >? _); [|exact Hd].
  split; [simpl; lia|by repeat constructor].
Qed.

Lemma judged_bounded json_parse raw :
  let '(status, _, details) := judged json_parse raw in status ∈ [204; 400; 413] /\ bounded_details details.
Proof.
  unfold judged. destruct raw as [raw|]; [|by split; [set_solver|]]. destruct (MAX_BODY <? str_len raw); [by split; [set_solver|]|].
  destruct (if truthy raw then _ else _); (split; [set_solver|]); [apply summarize_bounded|done].
Qed.

Section Proofs.
Context (json_parse : string -> option json) (double_text : num -> string) (sha256 hmac : string -> string).
Context (hmac_length : forall x, str_len (hmac x) = 64).

(** A line about a report. *)
Definition report_line (r : report) (e : AuditEvent) : Prop :=
  AuditLog.route e = "/api/csp-report" /\ AuditLog.key_id e = "anon" /\ ts e = p_now r /\ AuditLog.status e ∈ [204; 400; 413] /\
  bounded_details (AuditLog.details e).

(** The clock of reports that arrive one after the other. *)
Fixpoint timed (t : Z) (rs : list report) : Prop :=
  match rs with [] => True | r :: rs => t <= p_now r /\ iso_range (p_now r) /\ timed (p_now r) rs end.

(** Anybody may report anything, and the log stays sound: after any reports,
    one after the other, it is the chain it was with one line for each of them,
    in order, that names no key and whose details have at most seven fields, each
    nothing, a flag, a number, or a text of at most 203 characters. *)
Theorem reports_recorded t rs s evs :
  holds_chain double_text hmac t s evs -> timed t rs ->
  exists es t', Forall2 report_line rs es /\ holds_chain double_text hmac t' (reports json_parse double_text sha256 hmac rs s) (evs ++ es).
Proof using hmac_length.
  revert t s evs. induction rs as [|r rs IH]; intros t s evs Hc Ht; cbn [timed] in Ht.
  - exists [], t. by rewrite app_nil_r.
  - destruct Ht as (Hle & Hr & Ht).
    destruct (append_keeps_chain double_text hmac hmac_length sha256 t (p_id r) (p_now r) (report_input json_parse r) s evs Hc Hle Hr) as (e & E & He & _ & _ & Hc').
    destruct (IH (p_now r) _ _ Hc' Ht) as (es & t' & Hes & Hc''). exists (e :: es), t'. split.
    + constructor; [|exact Hes]. apply (f_equal fst) in E. cbn [fst] in E. subst e.
      pose proof (judged_bounded json_parse (p_body r)) as Hj. unfold report_input. destruct (judged json_parse (p_body r)) as [[st why] d].
      destruct Hj as [Hs Hd]. split_and!; try done. cbn. by apply safeDetails_bounded.
    + rewrite <- app_assoc in Hc''. exact Hc''.
Qed.
End Proofs.

(** ** A report *)
Section Demo.
Definition demo_parse (s : string) : option json :=
  if String.eqb s "report" then
    Some (JObj [("csp-report", JObj [("violated-directive", JStr " script-src "); ("blocked-uri", JStr "inline"); ("line-number", JNum (int 7))])])
  else None.
Definition demo_report (body : string) (now : Z) : report :=
  {| p_headers := ∅; p_body := Some body; p_id := "r" +:+ pretty now; p_now := now |}.

Example summary_of_report :
  option_map summarize (demo_parse "report") = Some (JObj
    [("directive", JStr "script-src"); ("blocked", JStr "inline"); ("document", JNull); ("source", JNull); ("line", JNum (int 7));
     ("disposition", JNull); ("sample", JNull)]).
Proof. vm_compute. reflexivity. Qed.

Lemma reports_recorded_witness :
  exists es t, length es = 2%nat /\
    holds_chain demo_text demo_hmac t
      (reports demo_parse demo_text demo_sha demo_hmac [demo_report "report" 1767225600000; demo_report "garbage" 1767225601000] demo_start) es.
Proof.
  destruct (reports_recorded demo_parse demo_text demo_sha demo_hmac demo_hmac_length 0
    [demo_report "report" 1767225600000; demo_report "garbage" 1767225601000] demo_start []) as (es & t & Hes & Hc).
  - by split_and!; try constructor.
  - cbn [timed]. split_and!; try done; by split.
  - exists es, t. split; [by apply Forall2_length in Hes|exact Hc].
Defined.
End Demo.
End CspReport.
