(* ===== verification/AdminIndex.v ===== *)
(** What the administrators are shown of the workspace: the inventory of
    controls of [web/lib/adminIndex.ts] and the overview of
    [web/lib/adminOverview.ts], as functions of what the policies' readers
    return, and how far a row tells what its control does.

    A reader that throws counts as none. [String(x)], the host of a URL and
    [(x / 100).toFixed(2)] are parameters. *)
From S2P Require Import Prelude JsNum JsDate IsoTime Json Store KeyStore.
From S2P Require Residency NetworkPolicy Retention Freeze SsoPolicy Egress KeyLifecycle Browser Siem AuthLockout Concurrency LegalHold Dpa Sla Sessions.
From S2P Require IpMatch AuditLog Invites Guard Totp MfaGate.

#[local] Existing Instances Retention.RetentionPolicy_persisted SsoPolicy.policy_persisted LegalHold.holds_persisted LegalHold.file_register.

Inductive ControlStatus := enforcing | monitoring | configured | off | warning.
Inductive ControlCategory := identity | data | network | operations | observability.

#[export] Instance ControlStatus_eq_dec : EqDecision ControlStatus.
Proof. solve_decision. Defined.

Record ControlRow := { key : string; label : string; href : string; category : ControlCategory; status : ControlStatus; summary : string }.

Section Inventory.
Context (String_of : json -> string) (host_of : string -> option string) (hundredths : jval -> string).

(** The variables of the environment the index reads. *)
Record environment := { ADMIN_KEY : option string; SCIM_TOKEN : option string; ADMIN_MFA_REQUIRED : option string }.

(** What the readers return; of the settings only that there are any. *)
Record policies := {
  residency : option Residency.ResidencyPolicy; net : option NetworkPolicy.NetworkPolicy; retention : option Retention.RetentionPolicy;
  freeze : option Freeze.FreezeState; sso : option SsoPolicy.SsoPolicy; egress : option Egress.EgressPolicy;
  rotation : option KeyLifecycle.RotationPolicy; csp : option Browser.CspPolicy; has_settings : bool; siem : option Siem.SiemSink;
  lockout : option AuthLockout.LockoutConfig; concurrency : option Concurrency.ConcurrencyPolicy; holds : option (list LegalHold.LegalHold);
  dpa : option Dpa.State; sla : option Sla.SlaRegister; active_sessions : option Z; sessionTimeout : option Sessions.Timeout.SessionTimeoutPolicy;
  cors : option Browser.CorsPolicy; inFlight : Z }.

Context (env : environment) (p : policies).

Definition row (k l h : string) (c : ControlCategory) (s : ControlStatus) (t : string) : ControlRow :=
  {| key := k; label := l; href := h; category := c; status := s; summary := t |}.

Definition plural (n : Z) : string := if n =? 1 then "" else "s".
Definition count_of (n : Z) (what : string) : string := pretty n +:+ what +:+ plural n.
Definition set_ (v : option string) : bool := truthy (default "" v).

(** A number of the lockout's configuration, which may be [NaN]. *)
Definition number_text (n : option Z) : string := from_option pretty "NaN" n.

(** [Math.round(s / n)] of whole seconds. *)
Definition rounded (s n : Z) : Z := (2 * s + n) / (2 * n).

(** ** Identity *)

Definition sso_row : ControlRow :=
  row "sso" "Single sign-on" "/settings/sso" identity
    match sso p with Some s => if SsoPolicy.enabled s then if SsoPolicy.enforce s then enforcing else configured else off | None => off end
    match sso p with
    | Some s =>
        let n := len (SsoPolicy.allowed_domains s) in
        if SsoPolicy.enabled s then
          if SsoPolicy.enforce s then "Required for " +:+ (if n =? 0 then "all" else pretty n) +:+ " domain" +:+ plural n
          else "Optional, " +:+ count_of n " domain" +:+ " on file"
        else "Not configured"
    | None => "Not configured"
    end.

Definition scim_row : ControlRow :=
  row "scim" "SCIM provisioning" "/settings/scim" identity (if set_ (SCIM_TOKEN env) then configured else off)
    (if set_ (SCIM_TOKEN env) then "Bearer token set, /scim/v2 live" else "No SCIM token, manual invites only").

Definition mfa_required : bool := bool_decide (ADMIN_MFA_REQUIRED env = Some "1").

Definition mfa_row : ControlRow :=
  row "admin-mfa" "Admin MFA" "/settings/admin-mfa" identity (if mfa_required then enforcing else configured)
    (if mfa_required then "TOTP required on every admin mutation" else "TOTP available, not required").

Definition lockout_row : ControlRow :=
  row "auth-lockout" "Auth lockout" "/settings/auth-lockout" identity
    match lockout p with Some c => if AuthLockout.enabled c then enforcing else off | None => off end
    match lockout p with
    | Some c =>
        if AuthLockout.enabled c then
          number_text (AuthLockout.threshold c) +:+ " failures over " +:+ number_text (AuthLockout.window_seconds c) +:+ "s, " +:+
          number_text (AuthLockout.cooldown_seconds c) +:+ "s cooldown"
        else "Disabled, default open"
    | None => "Default policy"
    end.

Definition sessions_row : ControlRow :=
  row "sessions" "SSO sessions" "/settings/sessions" identity (if 0 <? default 0 (active_sessions p) then configured else off)
    match active_sessions p with Some n => pretty n +:+ " active, force-logout available" | None => "Ledger empty" end.

Definition timeout_row : ControlRow :=
  row "session-timeout" "Session idle + absolute timeout" "/settings/sessions" identity
    match sessionTimeout p with Some t => if Sessions.Timeout.enforce t then enforcing else off | None => off end
    match sessionTimeout p with
    | Some t =>
        let idle := pretty (rounded (Sessions.Timeout.idle_timeout_s t) 60) +:+ "m" in
        let absolute := pretty (rounded (Sessions.Timeout.absolute_timeout_s t) 3600) +:+ "h" in
        if Sessions.Timeout.enforce t then "Idle " +:+ idle +:+ ", absolute " +:+ absolute
        else "Configured (idle " +:+ idle +:+ ", absolute " +:+ absolute +:+ ") but not enforcing"
    | None => "Default policy"
    end.

Definition identity_rows : list ControlRow :=
  [sso_row; scim_row; row "invites" "Seat invites" "/settings/invites" identity configured "Invite by email with role assignment"; mfa_row; lockout_row;
   sessions_row; timeout_row; row "keys" "API keys" "/settings/keys" identity configured "Scopes, rotation, suspension, per-key IP allowlist"].

(** ** Data *)

Definition region_text (r : Residency.Region) : string :=
  match r with Residency.us => "US" | Residency.eu => "EU" | Residency.ap => "AP" | Residency.global => "GLOBAL" end.
Definition mode_text (m : Residency.ResidencyMode) : string :=
  match m with Residency.off => "off" | Residency.monitor => "monitor" | Residency.enforce => "enforce" end.

Definition residency_row : ControlRow :=
  row "residency" "Data residency" "/settings/security/residency" data
    match residency p with
    | Some r => match Residency.mode r with Residency.enforce => enforcing | Residency.monitor => monitoring | Residency.off => off end
    | None => off
    end
    match residency p with Some r => "Region " +:+ region_text (Residency.region r) +:+ ", mode " +:+ mode_text (Residency.mode r) | None => "Unknown" end.

Definition retention_row : ControlRow :=
  row "retention" "Retention policy" "/settings/retention" data
    match retention p with Some r => if Retention.audit_days r >? 0 then enforcing else off | None => off end
    match retention p with
    | Some r => "Audit " +:+ pretty (Retention.audit_days r) +:+ "d, runs " +:+ pretty (Retention.runs_days r) +:+ "d, webhooks " +:+
                pretty (Retention.webhook_deliveries_days r) +:+ "d"
    | None => "No TTL set"
    end.

Definition hold_row : ControlRow :=
  let n := from_option len 0 (holds p) in
  row "legal-hold" "Legal hold" "/settings/legal-hold" data (if 0 <? n then enforcing else off)
    (if 0 <? n then count_of n " active hold" +:+ " block deletion" else "No holds in effect").

Definition dpa_row : ControlRow :=
  row "dpa" "Data Processing Agreement" "/settings/dpa" data
    match dpa p with
    | Some s => if bool_decide (is_Some (Dpa.s_active s)) && negb (Dpa.needs_re_acceptance s) then enforcing else off
    | None => off
    end
    match dpa p with
    | Some s =>
        match Dpa.s_active s with
        | Some a =>
            if Dpa.needs_re_acceptance s then "v" +:+ Dpa.dpa_version a +:+ " accepted (re-accept v" +:+ Dpa.version (Dpa.s_current s) +:+ ")"
            else "v" +:+ Dpa.version (Dpa.s_current s) +:+ " accepted by " +:+ Dpa.signatory_name a
        | None => "v" +:+ Dpa.version (Dpa.s_current s) +:+ " not accepted yet"
        end
    | None => "vcurrent not accepted yet"
    end.

Definition sla_row : ControlRow :=
  let c := s ← sla p; Sla.current s in
  row "sla" "Service Level Agreement" "/settings/sla" data match c with Some _ => enforcing | None => off end
    match c with
    | Some c => "v" +:+ from_option String_of "undefined" (field "version" c) +:+ ", " +:+ hundredths (field "uptime_target_bps" c) +:+ "% monthly uptime"
    | None => "No SLA published yet"
    end.

Definition data_rows : list ControlRow :=
  [residency_row; retention_row; hold_row; dpa_row; sla_row;
   row "privacy" "Export and erase" "/settings/privacy" data configured "GDPR/CCPA workspace export plus hard-delete";
   row "audit" "Audit log" "/settings/audit" data enforcing "Tamper-evident HMAC chain on every mutation"].

(** ** Network *)

Definition network_row : ControlRow :=
  row "network" "API IP allowlist" "/settings/network" network
    match net p with Some n => if 0 <? len (NetworkPolicy.cidrs n) then enforcing else off | None => off end
    match net p with
    | Some n => if 0 <? len (NetworkPolicy.cidrs n) then count_of (len (NetworkPolicy.cidrs n)) " CIDR" +:+ " permitted" else "Open to all source IPs"
    | None => "Unknown"
    end.

Definition cors_row : ControlRow :=
  row "cors" "CORS posture" "/settings/cors" network
    match cors p with
    | Some c => if Browser.production c then if 0 <? len (Browser.origins c) then enforcing else warning else configured
    | None => off
    end
    match cors p with
    | Some c =>
        if Browser.production c then
          if 0 <? len (Browser.origins c) then count_of (len (Browser.origins c)) " origin" +:+ " permitted"
          else "Production with no origin allowlist, server-to-server only"
        else "Local dev, loopback default"
    | None => "Unknown"
    end.

Definition csp_mode_text (m : Browser.CspMode) : string :=
  match m with Browser.off => "off" | Browser.report => "report" | Browser.enforce => "enforce" end.

Definition csp_row : ControlRow :=
  row "csp" "Content security policy" "/settings/csp" network
    match csp p with
    | Some c => match Browser.mode c with Browser.off => off | Browser.enforce => enforcing | Browser.report => monitoring end
    | None => off
    end
    match csp p with Some c => "Mode " +:+ csp_mode_text (Browser.mode c) | None => "Off" end.

Definition egress_row : ControlRow :=
  row "egress" "Webhook egress" "/settings/webhooks" network
    match egress p with
    | Some e => if Egress.allow_private e then warning else if 0 <? len (Egress.cidrs e) then enforcing else configured
    | None => off
    end
    match egress p with
    | Some e =>
        if Egress.allow_private e then "Private ranges allowed, dev only"
        else if 0 <? len (Egress.cidrs e) then "Default-deny private + " +:+ pretty (len (Egress.cidrs e)) +:+ " CIDR allowlist"
        else "Default-deny private, no CIDR allowlist"
    | None => "Unknown"
    end.

Definition network_rows : list ControlRow :=
  [network_row; cors_row; csp_row; egress_row;
   row "key-ip" "Per-key IP policy" "/settings/keys" network configured "Owner-scoped CIDR allowlist per API key"].

(** ** Operations *)

Definition stamp_text (t : option iso) : string := from_option iso_string "null" t.

Definition freeze_row : ControlRow :=
  row "freeze" "Workspace freeze" "/settings/freeze" operations
    match freeze p with Some f => if Freeze.frozen f then enforcing else off | None => off end
    match freeze p with
    | Some f => if Freeze.frozen f then "Frozen " +:+ stamp_text (Freeze.frozen_at f) +:+ " by " +:+ default "unknown" (Freeze.frozen_by f) else "Not frozen"
    | None => "Not frozen"
    end.

Definition rotation_row : ControlRow :=
  row "rotation" "Key rotation policy" "/settings/security/rotation" operations
    match rotation p with Some r => if KeyLifecycle.max_age_days r >? 0 then enforcing else off | None => off end
    match rotation p with
    | Some r => "Rotate every " +:+ pretty (KeyLifecycle.max_age_days r) +:+ "d, " +:+ pretty (KeyLifecycle.warn_days r) +:+ "d warning"
    | None => "No rotation deadline"
    end.

Definition concurrency_row : ControlRow :=
  let l := c ← concurrency p; Concurrency.limit c in
  row "concurrency" "Concurrency cap" "/settings/concurrency" operations match l with Some _ => enforcing | None => off end
    match l with
    | Some l => "Limit " +:+ pretty l +:+ ", " +:+ pretty (inFlight p) +:+ " in flight"
    | None => "Unlimited, " +:+ pretty (inFlight p) +:+ " in flight"
    end.

Definition operation_rows : list ControlRow :=
  [freeze_row; rotation_row; concurrency_row;
   row "idempotency" "Idempotency" "/settings/idempotency" operations enforcing "Mutating v1 routes accept Idempotency-Key";
   row "settings" "Workspace defaults" "/settings" operations (if has_settings p then configured else off)
     (if has_settings p then "Defaults applied" else "Defaults pending")].

(** ** Observability *)

(** [None]: the URL of the sink does not parse, and nothing is shown. *)
Definition siem_row : option ControlRow :=
  let r := row "siem" "SIEM sink" "/settings/siem" observability in
  match s ← siem p; Siem.p_url s with
  | Some u => if truthy u then (fun h => r enforcing ("Forwarding " +:+ h)) <$> host_of u else Some (r off "No external log sink configured")
  | None => Some (r off "No external log sink configured")
  end.

Definition observability_rows (siem_ : ControlRow) : list ControlRow :=
  [row "observability" "Health and metrics" "/settings/observability" observability enforcing "/healthz, /readyz, /metrics live"; siem_;
   row "alerts-tenants" "Tenant isolation tests" "/settings/alerts-tenants" observability enforcing "Per-tenant row scoping verified by store-level tests";
   row "evidence-pack" "SOC2 evidence pack" "/settings/evidence-pack" observability enforcing "On-demand signed bundle of every policy + audit chain proof"].

(** ** The index *)

Record AdminIndex := { production : bool; controls : list ControlRow; counts : list (ControlStatus * Z) }.

Definition count (s : ControlStatus) (rows : list ControlRow) : Z := len (filter (fun r => status r = s) rows).

Definition STATUSES : list ControlStatus := [enforcing; monitoring; configured; off; warning].

Definition buildAdminIndex : option AdminIndex :=
  s ← siem_row;
  let rows := identity_rows ++ data_rows ++ network_rows ++ operation_rows ++ observability_rows s in
  Some {| production := set_ (ADMIN_KEY env); controls := rows; counts := (fun s => (s, count s rows)) <$> STATUSES |}.

Definition status_in (x : AdminIndex) (k : string) : option ControlStatus := status ∘ snd <$> list_find (fun r => key r = k) (controls x).
(** ** What a row says *)

Lemma index_controls x : buildAdminIndex = Some x ->
  exists s, siem_row = Some s /\ controls x = identity_rows ++ data_rows ++ network_rows ++ operation_rows ++ observability_rows s /\
    counts x = (fun t => (t, count t (controls x))) <$> STATUSES.
Proof. unfold buildAdminIndex. destruct siem_row as [s|] eqn:E; [|done]. intros [= <-]. by exists s. Qed.

Lemma status_in_rows x s : controls x = identity_rows ++ data_rows ++ network_rows ++ operation_rows ++ observability_rows s ->
  status_in x "freeze" = Some (status freeze_row) /\ status_in x "auth-lockout" = Some (status lockout_row) /\
  status_in x "concurrency" = Some (status concurrency_row) /\ status_in x "rotation" = Some (status rotation_row) /\
  status_in x "residency" = Some (status residency_row) /\ status_in x "csp" = Some (status csp_row) /\
  status_in x "network" = Some (status network_row) /\ status_in x "legal-hold" = Some (status hold_row) /\
  status_in x "retention" = Some (status retention_row) /\ status_in x "admin-mfa" = Some (status mfa_row).
Proof. unfold status_in. intros ->. split_and!; reflexivity. Qed.

(** ** The names and the counts *)

Definition CONTROLS : list string :=
  ["sso"; "scim"; "invites"; "admin-mfa"; "auth-lockout"; "sessions"; "session-timeout"; "keys"; "residency"; "retention"; "legal-hold"; "dpa"; "sla"; "privacy";
   "audit"; "network"; "cors"; "csp"; "egress"; "key-ip"; "freeze"; "rotation"; "concurrency"; "idempotency"; "settings"; "observability"; "siem";
   "alerts-tenants"; "evidence-pack"].

Lemma siem_row_key s : siem_row = Some s -> key s = "siem".
Proof. unfold siem_row. repeat case_match; cbn; try (intros [= <-]; done). destruct (host_of _); [intros [= <-]; done|done]. Qed.

Definition total_of (l : list (ControlStatus * Z)) : Z := fold_right (fun x n => snd x + n) 0 l.

Lemma counts_total rows : total_of ((fun t => (t, count t rows)) <$> STATUSES) = len rows.
Proof.
  unfold total_of, STATUSES. cbn. induction rows as [|r rows IH]; [done|]. unfold count, len in *. rewrite !filter_cons.
  destruct (status r); repeat case_decide; try done; cbn [length] in *; lia.
Qed.

(** The inventory is complete: when it is shown, which fails only on a sink
    whose URL does not parse, it has one row for each of the 29 controls in their
    order, and its five counts add up to them. *)
Theorem inventory_complete :
  match buildAdminIndex with
  | Some x => key <$> controls x = CONTROLS /\ NoDup CONTROLS /\ total_of (counts x) = 29 /\
              forall t, (t, count t (controls x)) ∈ counts x
  | None => exists s u, siem p = Some s /\ Siem.p_url s = Some u /\ host_of u = None
  end.
Proof.
  destruct buildAdminIndex as [x|] eqn:E.
  - apply index_controls in E as (s & Hs & Hc & Hn). apply siem_row_key in Hs.
    assert (key <$> controls x = CONTROLS) as Hk by (rewrite Hc; cbn; by rewrite Hs). split; [done|]. split; [apply (bool_decide_eq_true_1 (NoDup CONTROLS)); vm_compute; reflexivity|].
    split; [rewrite Hn, counts_total; unfold len; rewrite <- (length_fmap key), Hk; done|].
    intros t. rewrite Hn. apply list_elem_of_fmap. exists t. split; [done|]. unfold STATUSES. destruct t; set_solver.
  - unfold buildAdminIndex in E. destruct siem_row as [s|] eqn:Es; [done|]. unfold siem_row in Es. destruct (siem p) as [s|]; [|done].
    cbn in Es. destruct (Siem.p_url s) as [u|] eqn:Eu; [|done]. destruct (truthy u); [|done]. destruct (host_of u) eqn:Eh; [done|]. by exists s, u.
Qed.

(** ** Rows that say what is done *)

Lemma freeze_row_refuses {A} genv clk req k route (w : Guard.world A genv) s :
  freeze p = Some s -> fst (Freeze.getFreezeState (clk 0%nat) (Guard.freeze w)) = s ->
  status freeze_row = enforcing <-> exists o, fst (Guard.check_freeze genv clk req k route w) = Err o.
Proof.
  intros Hf Hw. unfold freeze_row, Guard.check_freeze. cbn [status row]. rewrite Hf.
  destruct (Freeze.getFreezeState _ _) as [s' st]. cbn in Hw. subst s'. destruct (Freeze.frozen s); cbn.
  - split; [|done]. intros _. by eexists.
  - split; [done|]. by intros [o ?].
Qed.

Lemma lockout_row_locks c : lockout p = Some c ->
  status lockout_row = enforcing <-> exists ip now st wait until, AuthLockout.decideLockout c ip now st = AuthLockout.Locked wait until.
Proof.
  intros Hl. unfold lockout_row. cbn [status row]. rewrite Hl. unfold AuthLockout.decideLockout. destruct (AuthLockout.enabled c); cbn [negb].
  - split; [|done]. intros _. exists "a", 0.
    exists [("a", {| AuthLockout.failures := []; AuthLockout.locked_until := Some 1; AuthLockout.first_failure_at := None;
                     AuthLockout.last_failure_at := None; AuthLockout.total_failures := 0 |})]. by eexists _, _.
  - split; [done|]. intros (ip & now & st & wait & until & E). by destruct (negb (truthy ip)).
Qed.

Lemma concurrency_row_refuses c : concurrency p = Some c ->
  status concurrency_row = enforcing <-> exists n a b t, fst (Concurrency.tryAcquire c n) = Concurrency.Refused a b t.
Proof.
  intros Hc. unfold concurrency_row. cbn [status row]. rewrite Hc. cbn. unfold Concurrency.tryAcquire. destruct (Concurrency.limit c) as [l|].
  - split; [|done]. intros _. exists l. unfold Z.geb. rewrite Z.compare_refl. by eexists _, _, _.
  - split; [done|]. by intros (n & a & b & t & ?).
Qed.

Lemma rotation_row_blocks r : rotation p = Some r ->
  status rotation_row = enforcing <-> exists created now d, KeyLifecycle.decideRotationBlock (Iso created) r now = Ok d /\ KeyLifecycle.blocked d = true.
Proof.
  intros Hr. unfold rotation_row. cbn [status row]. rewrite Hr. destruct (KeyLifecycle.max_age_days r >? 0) eqn:E; bool_to_prop.
  - split; [|done]. intros _. exists (- (KeyLifecycle.max_age_days r * KeyLifecycle.MS_PER_DAY)), 0.
    unfold KeyLifecycle.decideRotationBlock, KeyLifecycle.evaluateKeyRotation. cbn [date_parse fmap option_fmap option_map].
    rewrite (proj2 (Z.leb_gt _ _)) by lia. rewrite Z.add_opp_diag_l. change (Z.abs 0 >? KeyLifecycle.MAX_TIME) with false. cbv iota.
    assert (Z.max 0 (0 - - (KeyLifecycle.max_age_days r * KeyLifecycle.MS_PER_DAY)) / KeyLifecycle.MS_PER_DAY = KeyLifecycle.max_age_days r) as ->.
    { unfold KeyLifecycle.MS_PER_DAY. rewrite Z.max_r by lia. rewrite Z.sub_opp_r, Z.add_0_l. by apply Z.div_mul. }
    rewrite Z.sub_diag. cbn. eexists. split; [done|]. done.
  - split; [done|]. intros (created & now & d & Hd & Hb). unfold KeyLifecycle.decideRotationBlock, KeyLifecycle.evaluateKeyRotation in Hd.
    rewrite (proj2 (Z.leb_le _ _)) in Hd by lia. cbn in Hd. by injection Hd as <-.
Qed.

Lemma residency_row_blocks r : residency p = Some r -> Residency.region r <> Residency.global ->
  status residency_row = enforcing <-> exists h m, Residency.allowed (Residency.decideResidency h r m) = false.
Proof.
  intros Hr Hg. unfold residency_row. cbn [status row]. rewrite Hr. destruct (Residency.mode r) eqn:Em.
  - split; [done|]. intros (h & m & E). unfold Residency.decideResidency in E. rewrite Em in E. done.
  - split; [done|]. intros (h & m & E). unfold Residency.decideResidency in E. rewrite Em in E. cbn in E. by repeat case_match.
  - split; [|done]. intros _. exists ∅, "POST". unfold Residency.decideResidency. rewrite Em.
    destruct (Residency.region r); done.
Qed.

Lemma csp_row_header c : csp p = Some c ->
  (status csp_row = enforcing <-> Browser.cspHeaderName (Browser.mode c) = Some "Content-Security-Policy") /\
  (status csp_row = monitoring <-> Browser.cspHeaderName (Browser.mode c) = Some "Content-Security-Policy-Report-Only").
Proof. intros Hc. unfold csp_row. cbn [status row]. rewrite Hc. by destruct (Browser.mode c). Qed.

(** Of the controls that act on requests, six rows say what is done. The
    freeze is shown enforcing exactly when the guard refuses every request; the
    lockout, the concurrency cap and the rotation exactly when some address can be
    locked out, some request can be refused for the requests in flight, some key
    can be too old; the residency, for a region that is one, exactly when some
    request is refused for where it comes from; and the content policy is shown
    enforcing, or monitoring, exactly when the header of that policy is. *)
Theorem inventory_truthful x :
  buildAdminIndex = Some x ->
  (forall A genv clk req k route (w : Guard.world A genv), freeze p = Some (fst (Freeze.getFreezeState (clk 0%nat) (Guard.freeze w))) ->
     status_in x "freeze" = Some enforcing <-> exists o, fst (Guard.check_freeze genv clk req k route w) = Err o) /\
  (forall c, lockout p = Some c ->
     status_in x "auth-lockout" = Some enforcing <-> exists ip now st wait until, AuthLockout.decideLockout c ip now st = AuthLockout.Locked wait until) /\
  (forall c, concurrency p = Some c ->
     status_in x "concurrency" = Some enforcing <-> exists n a b t, fst (Concurrency.tryAcquire c n) = Concurrency.Refused a b t) /\
  (forall r, rotation p = Some r ->
     status_in x "rotation" = Some enforcing <-> exists created now d, KeyLifecycle.decideRotationBlock (Iso created) r now = Ok d /\ KeyLifecycle.blocked d = true) /\
  (forall r, residency p = Some r -> Residency.region r <> Residency.global ->
     status_in x "residency" = Some enforcing <-> exists h m, Residency.allowed (Residency.decideResidency h r m) = false) /\
  (forall c, csp p = Some c ->
     (status_in x "csp" = Some enforcing <-> Browser.cspHeaderName (Browser.mode c) = Some "Content-Security-Policy") /\
     (status_in x "csp" = Some monitoring <-> Browser.cspHeaderName (Browser.mode c) = Some "Content-Security-Policy-Report-Only")).
Proof.
  intros E. apply index_controls in E as (s & _ & Hc & _). destruct (status_in_rows x s Hc) as (-> & -> & -> & -> & -> & -> & _).
  assert (forall a b : ControlStatus, Some a = Some b <-> a = b) as Hsome by (intros a b; split; [by intros [= ->]|by intros ->]).
  split_and!; intros; rewrite ?Hsome.
  - by apply (freeze_row_refuses genv clk req k route w _ H).
  - by apply lockout_row_locks.
  - by apply concurrency_row_refuses.
  - by apply rotation_row_blocks.
  - by apply residency_row_blocks.
  - by apply csp_row_header.
Qed.

(** ** Rows that do not *)

(** Holds that were all released are counted as active ones. *)
Lemma released_holds_shown_active f : holds p = Some (LegalHold.listHolds f) -> read_file f <> [] ->
  status hold_row = enforcing.
Proof.
  intros Hh Hne. unfold hold_row. cbn [status row]. rewrite Hh. cbn [from_option]. unfold LegalHold.listHolds, len. rewrite js_sort_length.
  destruct (read_file f); [done|]. cbn [length]. rewrite (proj2 (Z.ltb_lt 0 _)); [done|lia].
Qed.

(** An allowlist that is switched off is shown as enforcing. *)
Lemma disabled_allowlist_shown_enforcing n c l : net p = Some n -> NetworkPolicy.enabled n = false -> NetworkPolicy.cidrs n = c :: l ->
  status network_row = enforcing /\ forall h cache, fst (NetworkPolicy.decideAllowed h n cache) = NetworkPolicy.Allowed NetworkPolicy.policy_disabled.
Proof.
  intros Hn He Hc. split.
  - unfold network_row. cbn [status row]. rewrite Hn, Hc. unfold len. cbn [length]. rewrite (proj2 (Z.ltb_lt 0 _)); [done|lia].
  - intros h cache. unfold NetworkPolicy.decideAllowed. by rewrite He.
Qed.

(** A policy that deletes runs but no audit lines is shown as off. *)
Lemma run_sweep_shown_off r : retention p = Some r -> Retention.audit_days r = 0 -> status retention_row = off.
Proof. intros Hr H0. unfold retention_row. cbn [status row]. by rewrite Hr, H0. Qed.

(** "TOTP required on every admin mutation": a key without an enrolment passes. *)
Lemma required_mfa_not_required hmac_sha1 sha256 admin headers k now w :
  mfa_required = true -> Totp.isFullyEnrolled k (MfaGate.totp w) = false ->
  status mfa_row = enforcing /\ fst (MfaGate.enforceAdminMfa hmac_sha1 sha256 admin headers (Some k) now w) = None.
Proof.
  intros Hm He. split; [unfold mfa_row; cbn [status row]; by rewrite Hm|]. unfold MfaGate.enforceAdminMfa. destruct (negb (truthy admin)); [done|]. by rewrite He.
Qed.
End Inventory.

(** * The overview *)

Section Overview.
Context {R : Type} `{LegalHold.HoldRegister R} (double_text : num -> string) (hmac : string -> string).

Record KeyPosture := { total : Z; active : Z; k_revoked : Z; expired : Z; admin_scoped : Z; k_suspended : Z }.

Definition no_keys : KeyPosture := {| total := 0; active := 0; k_revoked := 0; expired := 0; admin_scoped := 0; k_suspended := 0 |}.

Definition one_if (b : bool) : Z := if b then 1 else 0.

(** One turn of the loop. *)
Definition posture_step (now : Z) (x : KeyPosture) (k : StoredKey) : KeyPosture :=
  let gone := revoked k in
  let late := negb gone && isExpired k now in
  {| total := total x + 1; active := active x + one_if (negb gone && negb late); k_revoked := k_revoked x + one_if gone; expired := expired x + one_if late;
     admin_scoped := admin_scoped x + one_if (bool_decide (admin ∈ scopes k)); k_suspended := k_suspended x + one_if (suspended k) |}.

Definition summarizeKeys (now : Z) (ks : list StoredKey) : KeyPosture := fold_left (posture_step now) ks no_keys.

(** The files the snapshot is taken of, and the state of the sweep. *)
Record sources := Sources {
  keys_file : file keys; dir : Retention.data_dir; register : R; lastAutoSweep : Z; policy_file : file Retention.RetentionPolicy;
  sso_file : file SsoPolicy.SsoPolicy; seat_limit : option num }.

Record AdminOverview := {
  generated_at : Z; key_posture : KeyPosture; audit_chain : AuditLog.ChainVerifyResult; total_24h : Z; denied_24h : Z; seats : Invites.SeatUsage;
  sso_enabled : bool; sso_enforce : bool; sso_domains : list string; is_production : bool; recent_events : list json }.

Definition query_all (limit : Z) (ok : option bool) (since : option string) : AuditLog.QueryInput :=
  {| AuditLog.q_key_id := None; AuditLog.q_method := None; AuditLog.q_route := None; AuditLog.q_ok := ok; AuditLog.q_since := since;
     AuditLog.q_limit := Some limit; AuditLog.q_offset := None |}.

Definition queried (clk : clock) (q : AuditLog.QueryInput) (s : sources) : option AuditLog.QueryResult * sources :=
  let '(r, last, pf, x) := AuditLog.queryAudit clk (register s) q (lastAutoSweep s) (policy_file s) (dir s) in
  (r, Sources (keys_file s) x (register s) last pf (sso_file s) (seat_limit s)).

(** [recent] is finite, as its route makes sure. [None]: it throws. The clocks of the three queries are [sweep 0..2]; a
    fraction of [recent] is cut off by the slice. *)
Definition buildAdminOverview (adminEnv : option string) (recent : num) (clk : clock) (sweep : nat -> clock) (s : sources) : option AdminOverview * sources :=
  match AuditLog.verifyChain double_text hmac (dir s) with
  | None => (None, s)
  | Some chain =>
      let sinceIso := toISOString (clk 1%nat - 24 * 3600 * 1000) in
      let '(recentQ, s1) := queried (sweep 0%nat) (query_all (floorZ (num_min (num_max recent (int 1)) (int 200))) None None) s in
      let '(deniedQ, s2) := queried (sweep 1%nat) (query_all 1000 (Some false) (Some sinceIso)) s1 in
      let '(window24, s3) := queried (sweep 2%nat) (query_all 1000 None (Some sinceIso)) s2 in
      (match recentQ, deniedQ, window24 with
       | Some r, Some d, Some w =>
           let p := SsoPolicy.getSsoPolicy (sso_file s) in
           Some {| generated_at := clk 2%nat; key_posture := summarizeKeys (clk 3%nat) (listKeys (read_file (keys_file s))); audit_chain := chain;
                   total_24h := AuditLog.r_total w; denied_24h := AuditLog.r_total d;
                   seats := Invites.getSeatUsage (seat_limit s) (read_file (keys_file s));
                   sso_enabled := SsoPolicy.enabled p; sso_enforce := SsoPolicy.enforce p; sso_domains := SsoPolicy.allowed_domains p;
                   is_production := truthy (default "" adminEnv); recent_events := AuditLog.r_events r |}
       | _, _, _ => None
       end, s3)
  end.

Lemma floor_min_le n b : 0 <= b -> floorZ (num_min n (int b)) <= b.
Proof.
  intros Hb. pose proof (floorZ_int b) as Hi. unfold num_min, int in *. destruct n as [|neg|q]; [done| |].
  - destruct (num_lt _ _); [by rewrite Hi|done].
  - destruct (num_lt _ (Fin q)) eqn:E; [by rewrite Hi|]. cbn in E. apply negb_false_iff, QArith_base.Qle_bool_iff in E.
    apply Qround.Qfloor_resp_le in E. cbn in *. lia.
Qed.

Lemma posture_fold now ks : forall x, let y := fold_left (posture_step now) ks x in
  total y = total x + len ks /\
  active y = active x + len (filter (fun k => revoked k = false /\ isExpired k now = false) ks) /\
  k_revoked y = k_revoked x + len (filter (fun k => revoked k = true) ks) /\
  expired y = expired x + len (filter (fun k => revoked k = false /\ isExpired k now = true) ks) /\
  admin_scoped y = admin_scoped x + len (filter (fun k => admin ∈ scopes k) ks) /\
  k_suspended y = k_suspended x + len (filter (fun k => suspended k = true) ks).
Proof.
  unfold len. induction ks as [|k ks IH]; intros x; cbv zeta in *; [cbn; split_and!; lia|]. cbn [fold_left].
  destruct (IH (posture_step now x k)) as (-> & -> & -> & -> & -> & ->). unfold posture_step, one_if. cbn [total active k_revoked expired admin_scoped k_suspended].
  rewrite !filter_cons. split_and!; [cbn [length]; lia|..];
    destruct (revoked k), (isExpired k now), (suspended k); cbn [negb andb]; repeat (case_decide || case_bool_decide); destruct_and?; try done; cbn [length]; try lia;
    exfalso; naive_solver.
Qed.

(** Every key is counted once: as active, revoked or expired. *)
Lemma posture_partition now ks :
  let y := summarizeKeys now ks in total y = len ks /\ active y + k_revoked y + expired y = total y.
Proof.
  cbv zeta. unfold summarizeKeys. destruct (posture_fold now ks no_keys) as (-> & -> & -> & -> & _). unfold no_keys, len. cbn [total active k_revoked expired].
  induction ks as [|k ks [_ IH]]; [done|]. rewrite !filter_cons.
  destruct (revoked k), (isExpired k now); repeat case_decide; destruct_and?; try done; cbn [length] in *; try lia; exfalso; naive_solver.
Qed.

(** The overview, when it is shown, adds up: every key on file is counted
    once, as active, revoked or expired, and the active ones are exactly those
    neither revoked nor past their expiry; the verdict on the chain is that of the
    verification of the log it was taken of; and it shows between none and two
    hundred of the last events, whatever number is asked for. *)
Theorem overview_adds_up adminEnv recent clk sweep s o s' :
  buildAdminOverview adminEnv recent clk sweep s = (Some o, s') ->
  let ks := read_file (keys_file s) in
  total (key_posture o) = len ks /\ active (key_posture o) + k_revoked (key_posture o) + expired (key_posture o) = len ks /\
  active (key_posture o) = len (filter (fun k => revoked k = false /\ isExpired k (clk 3%nat) = false) ks) /\
  AuditLog.verifyChain double_text hmac (dir s) = Some (audit_chain o) /\ len (recent_events o) <= 200.
Proof.
  unfold buildAdminOverview. destruct (AuditLog.verifyChain _ _ _) as [chain|]; [|done]. cbv zeta.
  destruct (queried (sweep 0%nat) _ s) as [r s1] eqn:Er. destruct (queried _ _ s1) as [dq s2]. destruct (queried _ _ s2) as [w s3].
  destruct r as [r|], dq as [dq|], w as [w|]; try done. intros [= <- _]. cbn [key_posture audit_chain recent_events].
  destruct (posture_partition (clk 3%nat) (listKeys (read_file (keys_file s)))) as [Ht Hp].
  destruct (posture_fold (clk 3%nat) (listKeys (read_file (keys_file s))) no_keys) as (_ & Ha & _).
  assert (listKeys (read_file (keys_file s)) ≡ₚ read_file (keys_file s)) as Hperm by apply js_sort_Permutation.
  assert (len (listKeys (read_file (keys_file s))) = len (read_file (keys_file s))) as Hl by (unfold len; by rewrite Hperm).
  split_and!; try lia; [|done|].
  - unfold summarizeKeys. rewrite Ha. unfold no_keys, len. cbn [active]. by rewrite Hperm.
  - unfold queried, AuditLog.queryAudit in Er. destruct (Retention.maybeAutoSweep _ _ _ _ _) as [[[e last] pf] y]. injection Er as Hq _.
    unfold AuditLog.query_page in Hq. destruct (AuditLog.newest_matching _ y); [|done]. injection Hq as <-. cbn [AuditLog.r_events AuditLog.q_limit query_all default].
    unfold len. rewrite length_take.
    enough (floorZ (num_min (num_max recent (int 1)) (int 200)) <= 200) by (cbn; lia). by apply floor_min_le.
Qed.
End Overview.

(** ** A frozen workspace with a cap *)
Section Demo.
Definition demo_env : environment := {| ADMIN_KEY := Some "root"; SCIM_TOKEN := None; ADMIN_MFA_REQUIRED := Some "1" |}.
Definition demo_policies : policies :=
  {| residency := Some {| Residency.region := Residency.eu; Residency.mode := Residency.enforce; Residency.updated_at := Iso 0; Residency.updated_by := None |};
     net := None; retention := Some Retention.DEFAULT_POLICY; freeze := None; sso := None; egress := None; rotation := None; csp := None; has_settings := true;
     siem := None; lockout := Some AuthLockout.DEFAULT_CONFIG;
     concurrency := Some {| Concurrency.limit := Some 4; Concurrency.updated_at := None; Concurrency.updated_by := None |}; holds := Some []; dpa := None;
     sla := None; active_sessions := None; sessionTimeout := Some Sessions.Timeout.defaultPolicy; cors := None; inFlight := 2 |}.
Definition demo_index : option AdminIndex := buildAdminIndex (fun _ => "") Some (fun _ => "") demo_env demo_policies.

Lemma inventory_truthful_witness :
  match demo_index with
  | Some x => status_in x "concurrency" = Some enforcing /\ status_in x "auth-lockout" = Some off /\
      (exists n a b t, fst (Concurrency.tryAcquire {| Concurrency.limit := Some 4; Concurrency.updated_at := None; Concurrency.updated_by := None |} n) = Concurrency.Refused a b t) /\
      ~ exists ip now st wait until, AuthLockout.decideLockout AuthLockout.DEFAULT_CONFIG ip now st = AuthLockout.Locked wait until
  | None => False
  end.
Proof.
  destruct demo_index as [x|] eqn:E; [|discriminate E].
  destruct (inventory_truthful (fun _ => "") Some (fun _ => "") demo_env demo_policies x E) as (_ & Hl & Hc & _).
  assert (status_in x "concurrency" = Some enforcing) as H1 by (injection E as <-; vm_compute; reflexivity).
  assert (status_in x "auth-lockout" = Some off) as H2 by (injection E as <-; vm_compute; reflexivity).
  split; [exact H1|]. split; [exact H2|]. split; [by apply (Hc _ eq_refl)|].
  intros H. apply (Hl _ eq_refl) in H. rewrite H2 in H. discriminate H.
Defined.

Definition demo_keys : list StoredKey :=
  [new_key (fun s => s) "k1" "a" "ci" [read] 0 None; mark_revoked (new_key (fun s => s) "k2" "b" "old" [read] 0 None)].
Definition demo_sources : sources (R := file (list LegalHold.LegalHold)) :=
  Sources (write_file demo_keys) (AuditLog.dir AuditLog.demo_log) None 0 None None None.

Lemma overview_adds_up_witness :
  match fst (buildAdminOverview AuditLog.demo_text AuditLog.demo_hmac None (int 25) (fun _ => 1767225602000) (fun _ _ => 1767225602000) demo_sources) with
  | Some o => total (key_posture o) = 2 /\ active (key_posture o) = 1 /\ len (recent_events o) <= 200
  | None => False
  end.
Proof.
  destruct (buildAdminOverview _ _ _ _ _ _ _) as [[o|] s'] eqn:E; [|apply (f_equal fst) in E; vm_compute in E; discriminate E].
  destruct (overview_adds_up _ _ _ _ _ _ _ _ _ E) as (H1 & _ & H2 & _ & H3). cbn [fst].
  split; [rewrite H1; vm_compute; reflexivity|]. split; [rewrite H2; vm_compute; reflexivity|exact H3].
Defined.
End Demo.
