(* ===== verification/EvidencePack.v ===== *)
(** The evidence pack for auditors: [web/lib/evidencePack.ts], an archive of
    [Zip] with the policies as JSON in a canonical order of keys, and a manifest
    of their hashes.

    The policies are the JSON of what their readers return ([null] for one that
    throws); of the sign-on and the sessions the records themselves, because the
    pack chooses what of them it shows. SHA-256, the order of [localeCompare] and
    the text of the README, which has characters beyond those of [string], are
    parameters. *)
From stdpp Require Import sorting.
From S2P Require Import Prelude JsNum JsDate IsoTime Json Bits Zip.
From S2P Require Import AuditLog.
From S2P Require Import AuthLockout KeyStore MfaGate.
From S2P Require SsoPolicy Sessions Sso AdminGate.
From S2P Require Import AdminRoute.

(** ** [JSON.stringify(v, null, 2)] *)

Section Text.
Context (double_text : num -> string).

Definition nl : string := String (chr 10) "".

Fixpoint stringify2 (ind : string) (j : json) : string :=
  let inner := ind +:+ "  " in
  match j with
  | JArr [] => "[]"
  | JArr l => "[" +:+ nl +:+ inner +:+ join ("," +:+ nl +:+ inner) (map (stringify2 inner) l) +:+ nl +:+ ind +:+ "]"
  | JObj [] => "{}"
  | JObj fs =>
      "{" +:+ nl +:+ inner +:+ join ("," +:+ nl +:+ inner) (map (fun '(k, v) => quote k +:+ ": " +:+ stringify2 inner v) fs) +:+ nl +:+ ind +:+ "}"
  | j => stringify double_text j
  end.

(** An object has each key once; none of the pack's is a number. *)
Fixpoint sortKeys (j : json) : json :=
  match j with
  | JArr l => JArr (map sortKeys l)
  | JObj fs => JObj (js_sort cmp_key (map (fun '(k, v) => (k, sortKeys v)) fs))
  | j => j
  end.

Definition stableJson (j : json) : string := stringify2 "" (sortKeys j) +:+ nl.

(** ** The files *)

Record readings := {
  controls : json; chain : json; key_views : list json; sessions : list Sessions.SsoSessionRecord; active_count : Z; global_epoch : Z;
  sso : option SsoPolicy.SsoPolicy; network : json; cors : json; csp : json; retention : json; rotation : json; egress : json; residency : json;
  lockout : json; concurrency : json; settings : json; holds : list json; dpa : json; siem : json; sla : json; freeze : json }.

(** The record has no [sid], [role] and [last_seen]: the first two are left out,
    the third is [null]. *)
Definition redactSession (r : Sessions.SsoSessionRecord) : json := JObj
  [("email", JStr (Sessions.email r)); ("iat", JNum (int (Sessions.iat r))); ("exp", JNum (int (Sessions.exp r))); ("last_seen", JNull);
   ("ip_hash", JStr (Sessions.ip_hash r)); ("user_agent", JStr (Sessions.user_agent r));
   ("revoked_at", jopt (fun t => JNum (int t)) (Sessions.revoked_at r)); ("revoked_reason", jopt JStr (Sessions.revoked_reason r))].

(** The policy as it is stored. *)
Definition sso_json (p : SsoPolicy.SsoPolicy) : json := JObj
  [("enabled", JBool (SsoPolicy.enabled p)); ("issuer", JStr (SsoPolicy.issuer p)); ("client_id", JStr (SsoPolicy.client_id p));
   ("client_secret", JStr (SsoPolicy.client_secret p)); ("allowed_domains", JArr (JStr <$> SsoPolicy.allowed_domains p));
   ("enforce", JBool (SsoPolicy.enforce p)); ("redirect_uri", jopt JStr (SsoPolicy.redirect_uri p));
   ("updated_at", jopt (fun t => JStr (toISOString t)) (SsoPolicy.updated_at p)); ("updated_by", jopt JStr (SsoPolicy.updated_by p))].

(** [v ?? d] and [v?.length ?? 0]. *)
Definition or_else (v : jval) (d : json) : json := match v with None | Some JNull => d | Some j => j end.
Definition length_of (v : jval) : json := JNum (int (match v with Some (JArr l) => len l | _ => 0 end)).

Definition dpa_json (d : json) : json := JObj
  [("current", or_else (field "current" d) JNull); ("active", or_else (field "active" d) JNull);
   ("needs_re_acceptance", or_else (field "needs_re_acceptance" d) (JBool true)); ("count", length_of (field "acceptances" d));
   ("acceptances", or_else (field "acceptances" d) (JArr []))].

Definition sla_json (s : json) : json := JObj
  [("current", or_else (field "current" s) JNull); ("history_count", length_of (field "history" s)); ("history", or_else (field "history" s) (JArr []))].

Context (README : string).

Definition pack_files (r : readings) : list (string * string) :=
  [("README.md", README);
   ("controls-inventory.json", stableJson (controls r));
   ("audit-chain-verification.json", stableJson (chain r));
   ("keys.json", stableJson (JObj [("count", JNum (int (len (key_views r)))); ("keys", JArr (key_views r))]));
   ("sessions.json", stableJson (JObj [("active_count", JNum (int (active_count r))); ("global_epoch", JNum (int (global_epoch r)));
                                       ("sessions", JArr (redactSession <$> sessions r))]));
   ("policies/sso.json", stableJson (from_option sso_json JNull (sso r)));
   ("policies/network.json", stableJson (network r)); ("policies/cors.json", stableJson (cors r)); ("policies/csp.json", stableJson (csp r));
   ("policies/retention.json", stableJson (retention r)); ("policies/rotation.json", stableJson (rotation r));
   ("policies/webhook-egress.json", stableJson (egress r)); ("policies/residency.json", stableJson (residency r));
   ("policies/auth-lockout.json", stableJson (lockout r)); ("policies/concurrency.json", stableJson (concurrency r));
   ("policies/workspace-defaults.json", stableJson (settings r));
   ("policies/legal-holds.json", stableJson (JObj [("count", JNum (int (len (holds r)))); ("holds", JArr (holds r))]));
   ("policies/dpa-ledger.json", stableJson (dpa_json (dpa r))); ("policies/siem-sink.json", stableJson (siem r));
   ("policies/sla-register.json", stableJson (sla_json (sla r))); ("policies/freeze.json", stableJson (freeze r))].

(** ** The manifest and the archive *)

Context (sha256 : list Z -> string) (localeCompare : string -> string -> Z).

Record listed := { l_name : string; l_size : Z; l_sha256 : string }.

Definition listed_json (l : listed) : json := JObj [("name", JStr (l_name l)); ("size", JNum (int (l_size l))); ("sha256", JStr (l_sha256 l))].

Definition list_file (f : string * string) : listed :=
  {| l_name := fst f; l_size := len (utf8 (snd f)); l_sha256 := sha256 (utf8 (snd f)) |}.

Definition listing (files : list (string * string)) : list listed :=
  js_sort (fun a b => localeCompare (l_name a) (l_name b)) (list_file <$> files).

Definition manifest (generated_at : string) (actorId : option string) (files : list (string * string)) : json := JObj
  [("generated_at", JStr generated_at); ("generated_by", jopt JStr actorId); ("product", JStr "signalclaw"); ("pack_version", JStr "1");
   ("files", JArr (listed_json <$> listing files))].

Record EvidencePack := { buffer : list Z; filename : string; generated_at : string }.

(** [None]: a file or the archive is too large for its format. *)
Definition buildEvidencePack (actorId : option string) (now : Z) (r : readings) : option EvidencePack :=
  let stamp := toISOString now in
  let files := pack_files r in
  let entries := ((fun f => {| name := fst f; data := Bytes (utf8 (snd f)) |}) <$> files) ++
                 [{| name := "manifest.json"; data := Bytes (utf8 (stableJson (manifest stamp actorId files))) |}] in
  b ← buildZip entries;
  Some {| buffer := b; filename := "signalclaw-evidence-" +:+ str_take 10 stamp +:+ ".zip"; generated_at := stamp |}.

(** ** What an auditor checks

    [jq … | shasum -a 256 -c] of the README: for each line of the manifest the
    file of that name, as it was unpacked, has the hash of the line. *)
Definition file_ok (es : list (list Z * list Z)) (l : listed) : bool :=
  match list_find (fun e => fst e = utf8 (l_name l)) es with Some (_, e) => bool_decide (sha256 (snd e) = l_sha256 l) | None => false end.

Definition shasum_check (lines : list listed) (es : list (list Z * list Z)) : bool := forallb (file_ok es) lines.

(** The files as they are unpacked. *)
Definition unpacked (files : list (string * string)) : list (list Z * list Z) := (fun f => (utf8 (fst f), utf8 (snd f))) <$> files.

Lemma find_name (es : list (list Z * list Z)) e : NoDup (fst <$> es) -> e ∈ es -> exists i, list_find (fun e' => fst e' = fst e) es = Some (i, e).
Proof.
  induction es as [|x es IH]; [by intros _ H%elem_of_nil|]. cbn [fmap list_fmap list_find]. intros [Hx Hn]%NoDup_cons [->|He]%elem_of_cons.
  - rewrite decide_True by done. by exists 0%nat.
  - rewrite decide_False; [|intros Ex; apply Hx; rewrite Ex; by apply list_elem_of_fmap_2].
    destruct (IH Hn He) as [i ->]. by exists (S i).
Qed.

Lemma file_ok_spec es e l : NoDup (fst <$> es) -> e ∈ es -> fst e = utf8 (l_name l) -> file_ok es l = true <-> sha256 (snd e) = l_sha256 l.
Proof.
  intros Hn He En. unfold file_ok. destruct (find_name es e Hn He) as [i Hi]. rewrite En in Hi. rewrite Hi. apply bool_decide_eq_true.
Qed.

Lemma listing_all files l : l ∈ listing files <-> exists f, f ∈ files /\ l = list_file f.
Proof. unfold listing. rewrite js_sort_elem, list_elem_of_fmap. split; intros (f & ? & ?); by exists f. Qed.

(** Names that are told apart are told apart as bytes. *)
Lemma unpacked_names files : NoDup (fst <$> files) -> NoDup (fst <$> unpacked files).
Proof.
  intros H. unfold unpacked. rewrite <- list_fmap_compose. change (fst ∘ _) with (utf8 ∘ @fst string string). rewrite list_fmap_compose.
  apply NoDup_fmap_2; [|done]. intros a b. apply utf8_inj.
Qed.

Lemma pack_names r : NoDup (fst <$> pack_files r).
Proof. unfold pack_files. cbn [fmap list_fmap fst]. apply (bool_decide_unpack _). by vm_compute. Qed.

(** Whatever the files are, the manifest written for them passes: it is not
    signed. *)
Lemma check_passes files : NoDup (fst <$> files) -> shasum_check (listing files) (unpacked files) = true.
Proof.
  intros Hn. apply forallb_forall. intros l (f & Hf & ->)%list_elem_of_In%listing_all.
  apply (file_ok_spec _ (utf8 (fst f), utf8 (snd f))); [by apply unpacked_names| |done..].
  unfold unpacked. apply list_elem_of_fmap. by exists f.
Qed.

(** An archive that has the names of the pack and passes the check. *)
Lemma check_binds files es :
  NoDup (fst <$> files) -> fst <$> es = fst <$> unpacked files -> shasum_check (listing files) es = true ->
  Forall2 (fun e e' => fst e = fst e' /\ sha256 (snd e) = sha256 (snd e')) es (unpacked files).
Proof.
  intros Hn He Hc. apply Forall2_same_length_lookup. split; [by rewrite <- (length_fmap fst), He, length_fmap|].
  intros i e e' Hi Hi'. assert (En : fst e = fst e').
  { assert (H : (fst <$> es) !! i = (fst <$> unpacked files) !! i) by by rewrite He. rewrite !list_lookup_fmap, Hi, Hi' in H. by injection H. }
  split; [done|]. unfold unpacked in Hi'. rewrite list_lookup_fmap in Hi'. destruct (files !! i) as [f|] eqn:Ef; [|done]. injection Hi' as <-.
  assert (Hok : file_ok es (list_file f) = true).
  { apply (proj1 (forallb_forall _ _) Hc). apply list_elem_of_In, listing_all. exists f. split; [by eapply list_elem_of_lookup_2|done]. }
  apply file_ok_spec with (e := e) in Hok; [done|rewrite He; by apply unpacked_names|by eapply list_elem_of_lookup_2|done].
Qed.
End Text.

(** ** The route *)

Section Route.
Context {L : Type} `{Lockout L}.
Context (double_text : num -> string) (README : string) (sha256 : list Z -> string) (localeCompare : string -> string -> Z).
Context (key_sha256 : string -> string) (hmac_sha1 : list Z -> list Z -> list Z).
Context (b64uDec : string -> list Z) (session_mac : string -> string -> list Z) (session_parse : list Z -> option Sso.SsoSession).
Context (decodeURIComponent : string -> option string).

Abbreviation gate_world := (AdminGate.world (L := L)).

(** [downloads]: the details of the lines about a download, oldest first. *)
Record world := World { gate : gate_world; downloads : list json }.

Inductive answer := Archive (body : list Z) (filename sha256 generated_at : string) | Metadata (length : Z) (filename sha256 generated_at : string).

Section Request.
Context (cfg : AdminGate.settings) (headers : gmap string string) (clk : clock) (now : Z) (r : readings).

Definition guarded (h : option StoredKey -> world -> reply answer * world) (w : world) : reply answer * world :=
  let '(a, g) := AdminGate.requireAdmin key_sha256 hmac_sha1 b64uDec session_mac session_parse decodeURIComponent cfg headers "GET" clk (gate w) in
  let w := World g (downloads w) in
  match a with
  | None => (Raised, w)
  | Some (Err (s, c)) => (Refused s c, w)
  | Some (Ok k) => h k w
  end.

Definition pack_for (k : option StoredKey) : option EvidencePack :=
  buildEvidencePack double_text README sha256 localeCompare (id <$> k) now r.

Definition download_details (p : EvidencePack) : json := JObj
  [("sha256", JStr (sha256 (buffer p))); ("bytes", JNum (int (len (buffer p)))); ("generated_at", JStr (generated_at p))].

Definition record_download (k : option StoredKey) (p : EvidencePack) (w : world) : world :=
  let g := gate w in
  World (AdminGate.World (AdminGate.keys_file g) (AdminGate.lockout g) (AdminGate.policy_file g) (AdminGate.registry g)
           (note 200 (id <$> k) "evidence-pack.download" (AdminGate.second g)))
    (downloads w ++ [download_details p]).

Definition pack_GET : world -> reply answer * world := guarded (fun k w =>
  match pack_for k with
  | None => (Refused 500 "internal_error", w)
  | Some p => (Answer 200 (Archive (buffer p) (filename p) (sha256 (buffer p)) (generated_at p)), record_download k p w)
  end).

(** A refusal has a status and no body. *)
Definition pack_HEAD (w : world) : reply answer * world :=
  let '(a, w) := guarded (fun k w =>
    (match pack_for k with
     | None => Refused 500 ""
     | Some p => Answer 200 (Metadata (len (buffer p)) (filename p) (sha256 (buffer p)) (generated_at p))
     end, w)) w in
  (match a with Refused s _ => Refused s "" | a => a end, w).
End Request.
End Route.

(** ** The canonical order of keys *)

(** The same data, up to the order of keys; each object has each of its keys once. *)
#[warnings="-register-all"]
Inductive same_json : json -> json -> Prop :=
| same_leaf j : match j with JArr _ | JObj _ => False | _ => True end -> same_json j j
| same_arr l l' : Forall2 same_json l l' -> same_json (JArr l) (JArr l')
| same_obj fs gs fs' :
    NoDup (fst <$> fs) -> Forall2 (fun e e' => fst e = fst e' /\ same_json (snd e) (snd e')) fs gs -> gs ≡ₚ fs' -> same_json (JObj fs) (JObj fs').

Definition sort_field (e : string * json) : string * json := let '(k, v) := e in (k, sortKeys v).

Lemma str_lt_total a b : str_lt a b = false -> str_lt b a = false -> a = b.
Proof.
  unfold str_lt, String.ltb. rewrite (String.compare_antisym b a). destruct (String.compare a b) eqn:E; cbn; try done.
  intros _ _. by apply String.compare_eq_iff.
Qed.

Lemma keys_sorted (fs : list (string * json)) : StronglySorted (fun a b => str_lt (fst b) (fst a) = false) (js_sort cmp_key fs).
Proof.
  apply js_sort_sorted.
  - intros x y z H1 H2. by eapply str_le_trans.
  - intros x y. unfold cmp_key. destruct (str_lt (fst x) (fst y)) eqn:E; [by rewrite (str_lt_asym _ _ E)|case_match; lia].
  - intros x y. unfold cmp_key. destruct (str_lt (fst x) (fst y)); [lia|done].
Qed.

(** Fields of distinct keys have one order. *)
Lemma js_sort_keys (fs gs : list (string * json)) : NoDup (fst <$> fs) -> fs ≡ₚ gs -> js_sort cmp_key fs = js_sort cmp_key gs.
Proof.
  intros Hn Hp. eapply StronglySorted_unique_strong; [|apply keys_sorted..|by rewrite !js_sort_Permutation].
  intros x y Hx%js_sort_elem Hy%js_sort_elem H1 H2. pose proof (str_lt_total _ _ H2 H1) as E. rewrite <- Hp in Hy.
  apply list_elem_of_lookup_1 in Hx as [i Hi], Hy as [k Hk].
  assert (i = k) as ->; [|congruence]. eapply NoDup_lookup; [exact Hn|by rewrite list_lookup_fmap, Hi|by rewrite list_lookup_fmap, Hk, E].
Qed.

Lemma sort_field_keys (fs : list (string * json)) : fst <$> (sort_field <$> fs) = fst <$> fs.
Proof. rewrite <- list_fmap_compose. apply list_fmap_ext. by intros _ [k v] _. Qed.

Lemma same_json_sorted : forall j j', same_json j j' -> sortKeys j = sortKeys j' /\ same_json j (sortKeys j).
Proof.
  fix IH 3. intros j j' [j0 Hl|l l' Hl|fs gs fs' Hn Hf Hp].
  - split; [done|]. destruct j0; try done; by constructor.
  - cbn [sortKeys]. assert (H : map sortKeys l = map sortKeys l' /\ Forall2 same_json l (map sortKeys l)).
    { induction Hl as [|x y l l' Hx _ IHl]; [done|]. destruct (IH _ _ Hx), IHl. cbn [map]. split; [congruence|by constructor]. }
    destruct H as [-> H2]. split; [done|]. by constructor.
  - change (sortKeys (JObj fs)) with (JObj (js_sort cmp_key (sort_field <$> fs))).
    change (sortKeys (JObj fs')) with (JObj (js_sort cmp_key (sort_field <$> fs'))).
    assert (H : sort_field <$> fs = sort_field <$> gs /\ Forall2 (fun e e' => fst e = fst e' /\ same_json (snd e) (snd e')) fs (sort_field <$> fs)).
    { clear Hn Hp. induction Hf as [|[k v] [k' v'] fs gs [Hk Hv] _ IHf]; [done|]. cbn [fst snd] in *. subst k'.
      destruct (IH _ _ Hv), IHf. cbn [fmap list_fmap sort_field]. split; [congruence|by constructor]. }
    destruct H as [H1 H2]. split.
    + f_equal. apply js_sort_keys; [by rewrite sort_field_keys|by rewrite H1, Hp].
    + eapply same_obj; [done|exact H2|by rewrite js_sort_Permutation].
Qed.

(** ** What the pack gives an auditor *)

(** The archive of [buildEvidencePack] unpacks to the 21 files of the pack and
    the manifest, which has one line for each of these files. The check of the
    README passes on them; and whatever else passes it under the same names has,
    file by file, the hashes of the pack, so that only a collision of SHA-256
    goes unnoticed as long as the manifest is kept. *)
Theorem pack_verifies dt README sha256 localeCompare actorId now r pack :
  buildEvidencePack dt README sha256 localeCompare actorId now r = Some pack ->
  let files := pack_files dt README r in
  let lines := listing sha256 localeCompare files in
  unzip (buffer pack) =
    Some (unpacked files ++ [(utf8 "manifest.json", utf8 (stableJson dt (manifest sha256 localeCompare (generated_at pack) actorId files)))]) /\
  generated_at pack = toISOString now /\ lines ≡ₚ list_file sha256 <$> files /\
  shasum_check sha256 lines (unpacked files) = true /\
  forall es, fst <$> es = fst <$> unpacked files -> shasum_check sha256 lines es = true ->
    Forall2 (fun e e' => fst e = fst e' /\ sha256 (snd e) = sha256 (snd e')) es (unpacked files).
Proof.
  unfold buildEvidencePack. intros (b & Hb & [= <-])%bind_Some. cbn [buffer generated_at].
  pose proof (pack_names dt README r) as Hn. split_and!; [|done|apply js_sort_Permutation|by apply check_passes|intros es; by apply check_binds].
  apply unzip_build in Hb. rewrite Hb, fmap_app, <- list_fmap_compose. done.
Qed.

(** The text of a file depends on the data alone: values that are the same up
    to the order of keys, at any depth, have the same text; and sorting the keys
    loses nothing. *)
Theorem stable_json_canonical dt j j' :
  same_json j j' -> stableJson dt j = stableJson dt j' /\ same_json j (sortKeys j).
Proof. intros H. destruct (same_json_sorted _ _ H) as [He Hs]. split; [unfold stableJson; by rewrite He|done]. Qed.

(** The client secret of the sign-on provider is in the pack. *)
Lemma client_secret_in_pack dt README r p :
  sso r = Some p ->
  ("policies/sso.json", stableJson dt (sso_json p)) ∈ pack_files dt README r /\
  field "client_secret" (sso_json p) = Some (JStr (SsoPolicy.client_secret p)).
Proof. intros Hp. split; [|done]. unfold pack_files. rewrite Hp. do 5 apply list_elem_of_further. apply list_elem_of_here. Qed.

(** No session's last use is in the pack. *)
Lemma last_use_dropped r : field "last_seen" (redactSession r) = Some JNull /\ field "role" (redactSession r) = None.
Proof. done. Qed.

(** ** Downloads *)

Section Downloads.
Context {L : Type} `{Lockout L}.
Context (dt : num -> string) (README : string) (sha256 : list Z -> string) (localeCompare : string -> string -> Z).
Context (key_sha256 : string -> string) (hmac_sha1 : list Z -> list Z -> list Z).
Context (b64uDec : string -> list Z) (session_mac : string -> string -> list Z) (session_parse : list Z -> option Sso.SsoSession).
Context (decodeURIComponent : string -> option string).

Abbreviation get_ := (pack_GET (L := L) dt README sha256 localeCompare key_sha256 hmac_sha1 b64uDec session_mac session_parse decodeURIComponent).
Abbreviation head_ := (pack_HEAD (L := L) dt README sha256 localeCompare key_sha256 hmac_sha1 b64uDec session_mac session_parse decodeURIComponent).

(** Somebody the gate admits. *)
Definition admitted (cfg : AdminGate.settings) (headers : gmap string string) (clk : clock) (g : AdminGate.world (L := L)) (k : option StoredKey) : Prop :=
  (exists key, k = Some key /\ AdminGate.key_proven key_sha256 cfg headers clk g key /\ admin ∈ scopes key) \/
  exists s, AdminGate.session_proven key_sha256 b64uDec session_mac session_parse decodeURIComponent cfg headers clk g s.

(** With an administrator key configured, an archive leaves the server only
    for an admitted caller, is the pack of that instant for that caller, and is on
    record with the hash and the length of the bytes sent. What is refused is not
    recorded as a download. A HEAD request sends no archive and records none; it
    tells the length, the name and the hash that a GET at that instant has. *)
Theorem download_on_record cfg headers clk now r w :
  AdminGate.production cfg = true ->
  let '(a, w') := get_ cfg headers clk now r w in
  let '(h, w'') := head_ cfg headers clk now r w in
  downloads w'' = downloads w /\
  match a with
  | Answer s (Archive b name hash stamp) =>
      h = Answer 200 (Metadata (len b) name hash stamp) /\ s = 200 /\ hash = sha256 b /\
      exists k p, admitted cfg headers clk (gate w) k /\ buildEvidencePack dt README sha256 localeCompare (id <$> k) now r = Some p /\ buffer p = b /\
        downloads w' = downloads w ++ [download_details sha256 p]
  | Answer _ (Metadata _ _ _ _) => False
  | Refused s _ => h = Refused s "" /\ downloads w' = downloads w
  | Raised => h = Raised /\ downloads w' = downloads w
  end.
Proof.
  intros Hp. unfold pack_GET, pack_HEAD, guarded.
  destruct (AdminGate.requireAdmin _ _ _ _ _ _ _ _ _ _ (gate w)) as [[[k|[s c]]|] g] eqn:Eg; [|by split_and!..].
  unfold pack_for. destruct (buildEvidencePack _ _ _ _ _ _ _) as [p|] eqn:Ep; [|by split_and!].
  split; [done|]. split_and!; [done..|]. exists k, p. split_and!; [|done..].
  apply AdminGate.requireAdmin_admits in Eg as [Hk [(key & -> & Ha)|Hs]]; [| |done]; [left|by right]. exists key. auto.
Qed.
End Downloads.

(** ** A pack *)
Section Demo.
Definition demo_text (_ : num) : string := "0".
Definition demo_digest (b : list Z) : string := toISOString (foldr Z.add 0 b).
Definition demo_order (a b : string) : Z := if str_lt a b then -1 else if str_lt b a then 1 else 0.
Definition demo_session : Sessions.SsoSessionRecord :=
  {| Sessions.jti := "j1"; Sessions.sub := "s"; Sessions.email := "ana@acme.com"; Sessions.iss := "i"; Sessions.iat := 20; Sessions.exp := 60;
     Sessions.ip_hash := "h"; Sessions.user_agent := "ua"; Sessions.last_seen_at := Some 30; Sessions.last_seen_ip_hash := "h";
     Sessions.revoked_at := None; Sessions.revoked_by := None; Sessions.revoked_reason := None |}.
Definition demo_sso : SsoPolicy.SsoPolicy :=
  {| SsoPolicy.enabled := true; SsoPolicy.issuer := "https://id.acme.com"; SsoPolicy.client_id := "c"; SsoPolicy.client_secret := "hush";
     SsoPolicy.allowed_domains := ["acme.com"]; SsoPolicy.enforce := true; SsoPolicy.redirect_uri := None; SsoPolicy.updated_at := None;
     SsoPolicy.updated_by := None |}.
Definition demo_readings : readings :=
  {| controls := JNull; chain := JObj [("ok", JBool true)]; key_views := []; sessions := [demo_session]; active_count := 1; global_epoch := 0;
     sso := Some demo_sso; network := JNull; cors := JNull; csp := JNull; retention := JNull; rotation := JNull; egress := JNull; residency := JNull;
     lockout := JNull; concurrency := JNull; settings := JNull; holds := []; dpa := JNull; siem := JNull; sla := JNull; freeze := JNull |}.

Example chain_file : stableJson demo_text (chain demo_readings) = "{" +:+ nl +:+ "  " +:+ quote "ok" +:+ ": true" +:+ nl +:+ "}" +:+ nl.
Proof. vm_compute. reflexivity. Qed.

Lemma pack_verifies_witness :
  match buildEvidencePack demo_text "# Pack" demo_digest demo_order (Some "k1") 0 demo_readings with
  | Some pack => exists es, unzip (buffer pack) = Some es /\ length es = 22%nat
  | None => False
  end.
Proof.
  assert (match buildEvidencePack demo_text "# Pack" demo_digest demo_order (Some "k1") 0 demo_readings with Some _ => true | None => false end = true)
    as Hs by (vm_compute; reflexivity).
  destruct (buildEvidencePack demo_text "# Pack" demo_digest demo_order (Some "k1") 0 demo_readings) as [pack|] eqn:Hp; [|discriminate Hs].
  pose proof (pack_verifies _ _ _ _ _ _ _ _ Hp) as Hv. cbv zeta in Hv. destruct Hv as (Hu & _). eexists. split; [exact Hu|].
  rewrite length_app. unfold unpacked. rewrite length_fmap. reflexivity.
Defined.

Lemma stable_json_canonical_witness :
  stableJson demo_text (JObj [("b", JNull); ("a", JObj [("y", JNull); ("x", JStr "v")])]) =
  stableJson demo_text (JObj [("a", JObj [("x", JStr "v"); ("y", JNull)]); ("b", JNull)]).
Proof.
  apply stable_json_canonical.
  eapply (same_obj _ [("b", JNull); ("a", JObj [("x", JStr "v"); ("y", JNull)])]); [by apply (bool_decide_unpack _)| |apply Permutation_swap].
  repeat constructor. cbn [snd]. eapply (same_obj _ [("y", JNull); ("x", JStr "v")]); [by apply (bool_decide_unpack _)| |apply Permutation_swap].
  repeat constructor.
Defined.

Definition demo_key_sha (s : string) : string := "#" +:+ s.
Definition demo_key : StoredKey := with_role owner (new_key demo_key_sha "alice" "sc_live_a" "ops" [read] 0 None).
Definition demo_world : world (L := LockoutConfig * file AuthLockout.State) :=
  World (AdminGate.World (L := LockoutConfig * file AuthLockout.State) (write_file [demo_key]) (DEFAULT_CONFIG, None) None Sessions.empty_store
    (MfaGate.World None [])) [].
Definition demo_cfg : AdminGate.settings :=
  {| AdminGate.adminEnv := Some "root-secret"; AdminGate.signing_key := "k"; AdminGate.timeouts := Sessions.Timeout.defaultPolicy |}.
Definition demo_get (key : string) := pack_GET demo_text "# Pack" demo_digest demo_order demo_key_sha (fun _ _ => []) Sso.demo_b64uDec Sso.demo_mac
  Sso.demo_parse Some demo_cfg {[ "x-api-key" := key ]} (fun _ => 1000) 0 demo_readings demo_world.

Lemma download_on_record_witness :
  match demo_get "sc_live_a" with
  | (Answer s (Archive b _ hash _), w') =>
      s = 200 /\ hash = demo_digest b /\ exists p, buffer p = b /\ downloads w' = [download_details demo_digest p]
  | _ => False
  end.
Proof.
  assert (match fst (demo_get "sc_live_a") with Answer _ (Archive _ _ _ _) => true | _ => false end = true) as Ha by (vm_compute; reflexivity).
  pose proof (download_on_record demo_text "# Pack" demo_digest demo_order demo_key_sha (fun _ _ => []) Sso.demo_b64uDec Sso.demo_mac
    Sso.demo_parse Some demo_cfg {[ "x-api-key" := "sc_live_a" ]} (fun _ => 1000) 0 demo_readings demo_world eq_refl) as Hr.
  fold (demo_get "sc_live_a") in Hr. destruct (demo_get "sc_live_a") as [a w']. cbn [fst] in Ha. destruct (pack_HEAD _ _ _ _ _ _ _ _ _ _ _ _ _ _ _ _) as [h w''].
  destruct a as [s c|s [b n hash st|l n hash st]|]; try discriminate Ha.
  destruct Hr as (_ & _ & Hs & Hh & k & p & _ & _ & Hb & Hd). split_and!; [exact Hs|exact Hh|by exists p].
Defined.
End Demo.
