(* ===== verification/V1Privacy.v ===== *)
(** The data-subject routes of the v1 API: [web/app/api/v1/privacy/erase] and
    [v1/privacy/export], behind the entry of [V1Entry], over the erasure and the
    export of [Privacy] and the register of holds.

    An erasure of the compliance stores deletes the file of the keys, which the
    entry reads; the limits and the retry records live on in the memory of the
    process. The text of a number, the guard's environment and the parsing of
    bodies are parameters. *)
From S2P Require Import Prelude JsNum JsDate IsoTime Json Store LegalHold AuditLog AuthLockout KeyStore Guard Idempotency V1Entry.
From S2P Require IpMatch Privacy Activity V1Routes EvidencePack.
Import V1Routes(json_answer).
#[local] Existing Instance Activity.events_persisted.

Record fresh := { f_event : string; f_now : clock }.

Section Routes.
Context {R : Type} `{HoldRegister R} (double_text : num -> string).

(** [keys_erased]: the file of the keys is gone. *)
Record stores := Stores { disk : Privacy.dir; register : R; feed : file (list Activity.ActivityEvent); lines : list RecordInput; keys_erased : bool }.

Definition with_line (l : RecordInput) (s : stores) : stores := Stores (disk s) (register s) (feed s) (lines s ++ [l]) (keys_erased s).

(** The feed is one of the files of the users. *)
Definition with_erased (opts : Privacy.EraseOptions) (d : Privacy.dir) (s : stores) : stores :=
  Stores d (register s) None (lines s) (keys_erased s || Privacy.wipeCompliance opts).

Abbreviation handler := (stores -> option response * stores).
Definition fail (status : Z) (code : string) : handler := fun s => (Some (err status code), s).

Inductive call := PreviewErase | PostErase | GetExport.

Definition route_of (c : call) : string := match c with GetExport => "/api/v1/privacy/export" | _ => "/api/v1/privacy/erase" end.
Definition need_of (c : call) : need := match c with GetExport => NeedRead | _ => NeedAdmin end.

Section Request.
Context (req : v1_request) (fr : fresh) (c : call) (key : StoredKey).

Definition record (status : Z) (reason : string) (details : option json) (s : stores) : stores :=
  with_line (line req (route_of c) (Some key) status (Some reason) details) s.

(** ** Erasure *)

Definition flags_json (o : Privacy.EraseOptions) : list (string * json) :=
  [("wipeCompliance", JBool (Privacy.wipeCompliance o)); ("wipeAudit", JBool (Privacy.wipeAudit o))].

Definition plan_json (o : Privacy.EraseOptions) : json :=
  let '(rm, keep) := Privacy.describeErase o in JObj [("willRemove", JArr (JStr <$> rm)); ("willPreserve", JArr (JStr <$> keep))].

Definition preview (o : Privacy.EraseOptions) : handler := fun s =>
  (Some (json_answer double_text 200 (JObj [("dry_run", JBool true); ("options", JObj (flags_json o)); ("plan", plan_json o)])),
   record 200 "privacy.erase.preview"
     (Some (JObj (flags_json o ++ [("will_remove_count", JNum (int (len (fst (Privacy.describeErase o)))))]))) s).

Definition query_flag (k : string) : bool := bool_decide (v_query req !! k = Some "true").

Definition erase_GET : handler :=
  preview {| Privacy.wipeCompliance := query_flag "wipe_compliance"; Privacy.wipeAudit := query_flag "wipe_audit" |}.

Definition asks (k : string) (v : bool) (body : json) : bool := match field k body with Some (JBool b) => Bool.eqb b v | _ => false end.

Definition parseOpts (body : json) : Privacy.EraseOptions :=
  {| Privacy.wipeCompliance := asks "wipe_compliance" true body; Privacy.wipeAudit := asks "wipe_audit" true body |}.

Definition confirmation (body : json) : string := match field "confirm" body with Some (JStr s) => s | _ => "" end.

Definition hold_json (h : LegalHold.LegalHold) : json := JObj
  [("id", JStr (LegalHold.id h)); ("matter", JStr (matter h)); ("scopes", JArr ((fun x => JStr (LegalHold.scope_name x)) <$> LegalHold.scopes h));
   ("opened_at", jiso (opened_at h))].

Definition held_answer (hs : list LegalHold.LegalHold) : response :=
  let r := json_answer double_text 409 (JObj [("error", JObj [("code", JStr "legal_hold_active")]); ("holds", JArr (hold_json <$> hs))]) in
  {| r_status := r_status r; r_body := r_body r; r_error := Some "legal_hold_active"; r_headers := r_headers r |}.

Definition summary_json (x : Privacy.EraseSummary) : json := JObj
  [("erased_at", JStr (toISOString (Privacy.erased_at x))); ("removed", JArr (JStr <$> Privacy.removed x));
   ("preserved", JArr (JStr <$> Privacy.preserved x)); ("bytes_freed", JNum (int (Privacy.bytes_freed x)))].

Definition erased_text (x : Privacy.EraseSummary) : string :=
  "Removed " +:+ pretty (len (Privacy.removed x)) +:+ " file(s), freed " +:+ pretty (Privacy.bytes_freed x) +:+ " bytes. Preserved " +:+
  pretty (len (Privacy.preserved x)) +:+ ".".

Definition recordSafe (title text href : string) (s : stores) : stores :=
  Stores (disk s) (register s)
    (Activity.recordSafe {| Activity.i_kind := "system"; Activity.i_title := Some (JStr title); Activity.i_body := Some (JStr text);
       Activity.i_href := Some (JStr href) |} (f_event fr) (f_now fr 1%nat) (feed s)) (lines s) (keys_erased s).

Definition erase_POST (body : option json) : handler := fun s =>
  match body with
  | None => fail 400 "bad_json" s
  | Some body =>
      let opts := parseOpts body in
      if negb (asks "dry_run" false body) then preview opts s
      else if negb (String.eqb (confirmation body) "DELETE") then fail 400 "confirm_required" (record 400 "privacy.erase.unconfirmed" None s)
      else
        let '(r, d) := Privacy.eraseAll (f_now fr 0%nat) opts (register s) (disk s) in
        match r with
        | Err hs => (Some (held_answer hs), record 409 "privacy.erase.blocked_by_legal_hold" (Some (JObj [("holds", JNum (int (len hs)))])) s)
        | Ok x =>
            (Some (json_answer double_text 200 (summary_json x)),
             recordSafe "Workspace data erased via API" (erased_text x) "/settings/privacy"
               (record 200 "privacy.erase.executed"
                  (Some (JObj (flags_json opts ++ [("removed_count", JNum (int (len (Privacy.removed x)))); ("preserved_count", JNum (int (len (Privacy.preserved x))));
                                                  ("bytes_freed", JNum (int (Privacy.bytes_freed x)))]))) (with_erased opts d s)))
        end
  end.

(** ** Export *)

Definition category_text (c : Privacy.StoreCategory) : string := match c with Privacy.user => "user" | Privacy.compliance => "compliance" end.

(** The stores are put into the bundle in the order of the list. *)
Definition bundle_json (b : Privacy.ExportBundle) : json := JObj
  [("exported_at", JStr (toISOString (Privacy.exported_at b))); ("generator", JStr "signalclaw-next/privacy-export");
   ("stores", JObj (omap (fun spec => (fun '(c, j) => (Privacy.name spec, JObj [("category", JStr (category_text c)); ("data", j)])) <$> Privacy.stores b !! Privacy.name spec)
      Privacy.PRIVACY_STORES))].

Definition export_GET : handler := fun s =>
  let bundle := Privacy.collectExport (f_now fr 0%nat) (disk s) in
  let fname := Privacy.exportFilename (f_now fr 1%nat) in
  (Some {| r_status := 200; r_body := EvidencePack.stringify2 double_text "" (bundle_json bundle); r_error := None;
           r_headers := <[ "content-type" := "application/json; charset=utf-8" ]>
             (<[ "content-disposition" := "attachment; filename=" +:+ quote fname ]> {[ "cache-control" := "no-store" ]}) |},
   record 200 "privacy.export" (Some (JObj [("stores", JNum (int (Z.of_nat (size (Privacy.stores bundle)))))])) s).

Definition handle (body : option json) : handler :=
  match c with PreviewErase => erase_GET | PostErase => erase_POST body | GetExport => export_GET end.
End Request.

(** ** The routes *)

Section Serve.
Context {L : Type} `{Lockout L} (env : environment) (adminEnv : option string) (sha256 : string -> string) (json_parse : string -> option json).

(** Once the file of the keys is gone the entry finds none; no v1 route makes a key. *)
Definition settle_keys (a : api L env stores) : api L env stores :=
  if keys_erased (stores_of a) then {| keys_file := None; lockout := lockout a; guard := guard a |} else a.

(** None of these routes goes through the retry wrapper. *)
Definition serve (c : call) (cl : clocks) (req : v1_request) (fr : fresh) (a : api L env stores) : outcome * api L env stores :=
  let '(o, a) := read_route env adminEnv sha256 (need_of c) false cl req (route_of c)
                   (fun key => handle req fr c key (body_of json_parse (v_raw req))) a in (o, settle_keys a).
End Serve.
End Routes.

(** ** What they promise *)

Section Proofs.
Context {R : Type} `{HoldRegister R} (double_text : num -> string).
Context {L : Type} `{Lockout L} (env : environment) (adminEnv : option string) (sha256 : string -> string) (json_parse : string -> option json).

Abbreviation served := (serve (R := R) double_text env adminEnv sha256 json_parse).

(** What a request may cost: the files, the register, the feed, the keys. *)
Definition data (s : stores (R := R)) : Privacy.dir * R * file (list Activity.ActivityEvent) * bool := (disk s, register s, feed s, keys_erased s).

Definition caller (cl : clocks) (req : v1_request) (a : api L env (stores (R := R))) : option StoredKey :=
  fst (fst (authenticate sha256 (c_auth cl) adminEnv (extractKey (v_headers req)) (Some (IpMatch.clientIpFromRequest (v_headers req))) (keys_file a) (lockout a))).

(** The body says what is to be erased, and means it. *)
Definition ordered (req : v1_request) (opts : Privacy.EraseOptions) : Prop :=
  exists body, body_of json_parse (v_raw req) = Some body /\ field "dry_run" body = Some (JBool false) /\
    field "confirm" body = Some (JStr "DELETE") /\ opts = parseOpts body.

Lemma asks_spec k v body : asks k v body = true <-> field k body = Some (JBool v).
Proof.
  unfold asks. destruct (field k body) as [[]|]; try (by split; intros). rewrite Bool.eqb_true_iff. split; congruence.
Qed.

Lemma erased_plan now opts (reg : R) dir x dir' :
  Privacy.eraseAll now opts reg dir = (Ok x, dir') ->
  (forall s, Privacy.touches opts s = true -> ~ held reg s) /\ (forall f, f ∉ fst (Privacy.describeErase opts) -> dir' !! f = dir !! f).
Proof.
  intros E. split.
  - intros s Hs Hh. destruct (Privacy.erase_blocked now opts reg dir s Hs Hh) as (hs & E' & _). congruence.
  - intros f Hf. unfold Privacy.eraseAll in E. destruct (Privacy.eraseBlockingHolds _ _); [|done]. destruct (Privacy.describeErase _) as [rm keep].
    pose proof (Privacy.erase_fold_other rm ([], 0, dir) f Hf) as Ho. destruct (fold_left _ _ _) as [[? ?] d']. by injection E as _ <-.
Qed.

(** What a handler does. *)
Lemma handle_spec c req fr key s :
  let '(r, s') := handle double_text req fr c key (body_of json_parse (v_raw req)) s in
  data s' = data s \/
  exists opts x, c = PostErase /\ ordered req opts /\ Privacy.eraseAll (f_now fr 0%nat) opts (register s) (disk s) = (Ok x, disk s') /\
    register s' = register s /\ keys_erased s' = keys_erased s || Privacy.wipeCompliance opts /\
    seen_retry <$> r = Some (200, stringify double_text (summary_json x)).
Proof.
  destruct c; cbn [handle]; [by left| |by left]. unfold erase_POST. destruct (body_of _ _) as [body|] eqn:Eb; [|by left]. cbv zeta.
  destruct (asks "dry_run" false body) eqn:Ed; cbn [negb]; [|by left].
  destruct (String.eqb_spec (confirmation body) "DELETE") as [Ec|]; cbn [negb]; [|by left].
  destruct (Privacy.eraseAll _ _ _ _) as [[x|hs] d] eqn:Ee; [right|by left]. exists (parseOpts body), x.
  split_and!; try done. exists body. split_and!; try done; [by apply asks_spec|].
  unfold confirmation in Ec. destruct (field "confirm" body) as [[]|]; try discriminate Ec. by rewrite Ec.
Qed.

Lemma settled_stores (a : api L env (stores (R := R))) : stores_of (settle_keys env a) = stores_of a.
Proof. unfold settle_keys. by destruct (keys_erased _). Qed.

(** What a route does. *)
Lemma serve_spec c cl req fr a :
  0 <= inFlight (guard a) ->
  let '(o, a') := served c cl req fr a in
  let s := stores_of a in let s' := stores_of a' in
  data s' = data s \/
  exists key opts x, c = PostErase /\ caller cl req a = Some key /\ admin ∈ scopes key /\ ordered req opts /\
    Privacy.eraseAll (f_now fr 0%nat) opts (register s) (disk s) = (Ok x, disk s') /\ register s' = register s /\
    keys_erased s' = keys_erased s || Privacy.wipeCompliance opts /\ seen_outcome o = Some (200, stringify double_text (summary_json x)).
Proof.
  intros Hi. unfold serve. pose proof (read_contained env adminEnv sha256 (need_of c) false cl req (route_of c)
    (fun key => handle double_text req fr c key (body_of json_parse (v_raw req))) a Hi) as Hc.
  destruct (read_route _ _ _ _ _ _ _ _ _) as [o a1]. cbv zeta. rewrite settled_stores. unfold contained in Hc. cbn [fst snd] in Hc.
  destruct Hc as [->|(key & Hk & Ha & Hs & Ho)]; [by left|]. pose proof (handle_spec c req fr key (stores_of a)) as Hh.
  destruct (handle _ _ _ _ _ _ (stores_of a)) as [r s']. cbn [fst snd] in *. subst s'.
  destruct Hh as [Hd|(opts & x & -> & Hord & Ee & Hr & Hg & Hx)]; [by left|right].
  exists key, opts, x. split_and!; try done; [by apply bool_decide_eq_true in Ha|by rewrite Ho].
Qed.

(** Erasing through the API. Whatever is sent to these routes, the files, the
    holds and the feed are as they were, unless the request erases: its caller
    authenticated with a key of the admin scope, its body says DELETE and asks not
    to be a dry run, and no hold covers what it touches. Then what is left is what
    the erasure of the workspace leaves, only files of its plan are gone, the keys
    among them just when the compliance stores were named, and the answer is its
    summary. *)
Theorem v1_erasure_guarded c cl req fr a :
  0 <= inFlight (guard a) ->
  let '(o, a') := served c cl req fr a in
  let s := stores_of a in let s' := stores_of a' in
  (keys_erased s' = true -> keys_file a' = None) /\
  (data s' = data s \/
   exists key opts x, c = PostErase /\ caller cl req a = Some key /\ admin ∈ scopes key /\ ordered req opts /\
     (forall scope, Privacy.touches opts scope = true -> ~ held (register s) scope) /\
     Privacy.eraseAll (f_now fr 0%nat) opts (register s) (disk s) = (Ok x, disk s') /\ register s' = register s /\
     (forall f, f ∉ fst (Privacy.describeErase opts) -> disk s' !! f = disk s !! f) /\
     keys_erased s' = keys_erased s || Privacy.wipeCompliance opts /\
     seen_outcome o = Some (200, stringify double_text (summary_json x))).
Proof.
  intros Hi. pose proof (serve_spec c cl req fr a Hi) as Hs. destruct (served c cl req fr a) as [o a'] eqn:E. cbv zeta in *. split.
  { unfold serve in E. destruct (read_route _ _ _ _ _ _ _ _ _) as [o1 a1]. injection E as _ <-. rewrite settled_stores. unfold settle_keys. by intros ->. }
  destruct Hs as [Hd|(key & opts & x & -> & Hk & Ha & Ho & Ee & Hr)]; [by left|right]. pose proof (erased_plan _ _ _ _ _ _ Ee) as [H1 H2].
  exists key, opts, x. by split_and!; try apply Hr.
Qed.

(** No request takes a file that a hold covers. *)
Corollary v1_holds_respected c cl req fr a scope f :
  0 <= inFlight (guard a) -> held (register (stores_of a)) scope -> Privacy.held_file scope f ->
  let s' := stores_of (snd (served c cl req fr a)) in disk s' !! f = disk (stores_of a) !! f /\ register s' = register (stores_of a).
Proof.
  intros Hi Hh Hf. pose proof (serve_spec c cl req fr a Hi) as Hs. destruct (served c cl req fr a) as [o a']. cbv zeta in *. cbn [snd].
  destruct Hs as [[= -> -> _ _]|(key & opts & x & _ & _ & _ & _ & Ee & Hr & _)]; [done|]. split; [|done].
  pose proof (Privacy.erase_keeps_held (f_now fr 0%nat) opts (register (stores_of a)) (disk (stores_of a)) scope f Hh Hf) as Hl.
  by rewrite Ee in Hl.
Qed.

(** The export is the same for every key that may read, whoever owns what is in
    it: the runs of all keys, the records of the keys, the webhooks. *)
Lemma export_same_for_every_key req fr key key' (s : stores (R := R)) :
  fst (export_GET double_text req fr GetExport key s) = fst (export_GET double_text req fr GetExport key' s) /\
  admitted (need_of GetExport) key = bool_decide (KeyStore.read ∈ scopes key) || bool_decide (admin ∈ scopes key) /\
  Forall (fun spec => Privacy.stores (Privacy.collectExport (f_now fr 0%nat) (disk s)) !! Privacy.name spec =
      Some (Privacy.category spec, Privacy.parseStore spec (disk s !! Privacy.path spec))) Privacy.PRIVACY_STORES.
Proof. split_and!; [done|done|]. apply Forall_forall. intros spec. apply Privacy.export_complete. Qed.

(** The retry records, whose file the erasure deletes, stay in the memory of the
    process and are written back with the next response. *)
Lemma retry_records_survive c cl req fr a :
  0 <= inFlight (guard a) ->
  Idempotency.cache (Guard.app (guard (snd (served c cl req fr a)))) = Idempotency.cache (Guard.app (guard a)).
Proof.
  intros Hi. unfold serve, read_route, enter. destruct (authenticate _ _ _ _ _ _ _) as [[[key|] kf] lk].
  2: { unfold settle_keys. by destruct (keys_erased _). }
  destruct (negb _); [unfold settle_keys; by destruct (keys_erased _)|]. unfold guarded.
  set (h := unwrapped (handle double_text req fr c key (body_of json_parse (v_raw req)))).
  destruct (guard_wrapper (A := Idempotency.state (A := stores (R := R))) env (c_guard cl) (guard_request req) key (route_of c)) as [Hw]. specialize (Hw h (guard a) Hi).
  destruct (enforceRateLimit _ _ _ _ _ h _) as [o w]. cbn [fst snd] in *.
  assert (Idempotency.cache (Guard.app w) = Idempotency.cache (Guard.app (guard a))) as Hc.
  { destruct Hw as [->|[-> _]]; [done|]. unfold h, unwrapped. by destruct (handle _ _ _ _ _ _ _) as [r s']. }
  unfold settle_keys. by destruct (keys_erased _).
Qed.
End Proofs.

(** ** An administrator erases *)
Section Demo.
Local Instance no_lockout : Lockout unit := {| lk_decide _ _ _ := Unlocked; lk_fail _ _ _ := tt; lk_clear _ _ := tt;
  lk_clear_unlocks _ _ _ := eq_refl; lk_clear_other _ _ _ _ _ := eq_refl |}.
#[local] Existing Instances LegalHold.holds_persisted LegalHold.file_register.

Definition demo_env : environment :=
  {| env_rotation := {| KeyLifecycle.SIGNALCLAW_MAX_KEY_AGE_DAYS := None; KeyLifecycle.SIGNALCLAW_KEY_ROTATION_WARN_DAYS := None |};
     env_residency := {| Residency.SIGNALCLAW_DATA_REGION := ""; Residency.SIGNALCLAW_RESIDENCY_MODE := "" |};
     env_per_minute := 100; env_monthly := 100 |}.
Definition demo_parse (s : string) : option json :=
  if String.eqb s "erase" then Some (JObj [("confirm", JStr "DELETE"); ("dry_run", JBool false); ("wipe_compliance", JBool true)]) else None.
Definition demo_call : v1_request :=
  {| v_headers := {[ "x-api-key" := "secret" ]}; v_method := "POST"; v_raw := "erase"; v_query := ∅ |}.
Definition demo_clocks : clocks := {| c_auth := fun _ => 1767225601000; c_guard := fun _ => 1767225601000; c_retry := fun _ => 1767225601000 |}.
Definition demo_fresh : fresh := {| f_event := "e1"; f_now := fun _ => 1767225601000 |}.
Definition demo_api (reg : file (list LegalHold.LegalHold)) : api unit demo_env (stores (R := file (list LegalHold.LegalHold))) :=
  {| keys_file := Some [with_role owner (new_key (fun s => s) "k1" "secret" "bot" [KeyStore.read] 1767225600000 None)]; lockout := tt;
     guard := World (boot None) None None None None None Quota.Monthly.empty Quota.RateLimit.empty (boot None) 0 0 [] []
       {| cache := []; Idempotency.audited := []; Idempotency.app := Stores Privacy.demo_dir reg None [] false |} |}.
Definition demo_serve reg := serve (fun _ => "0") demo_env None (fun s => s) demo_parse PostErase demo_clocks demo_call demo_fresh (demo_api reg).

Example erased_files :
  let '(o, a) := demo_serve None in
  fst <$> seen_outcome o = Some 200 /\ disk (stores_of a) !! "runs.json" = None /\ keys_file a = None /\
  disk (stores_of a) !! "audit.jsonl" = Privacy.demo_dir !! "audit.jsonl".
Proof. vm_compute. done. Qed.

Lemma v1_erasure_guarded_witness :
  keys_file (snd (demo_serve None)) = None /\
  exists key opts x, admin ∈ KeyStore.scopes key /\
    Privacy.eraseAll 1767225601000 opts (None : file (list LegalHold.LegalHold)) Privacy.demo_dir = (Ok x, disk (stores_of (snd (demo_serve None)))).
Proof.
  pose proof (v1_erasure_guarded (fun _ => "0") demo_env None (fun s => s) demo_parse PostErase demo_clocks demo_call demo_fresh (demo_api None)
    ltac:(vm_compute; discriminate)) as Hs. fold (demo_serve None) in Hs.
  assert (keys_erased (stores_of (snd (demo_serve None))) = true) as Hg by (vm_compute; reflexivity).
  destruct (demo_serve None) as [o a']. cbv zeta in Hs. cbn [snd] in *. destruct Hs as [Hk Hs]. split; [exact (Hk Hg)|].
  destruct Hs as [Hd|(key & opts & x & _ & _ & Ha & _ & _ & Ee & _)].
  - injection Hd as _ _ _ Hd. rewrite Hg in Hd. discriminate Hd.
  - exists key, opts, x. split; [exact Ha|exact Ee].
Defined.

Lemma v1_holds_respected_witness :
  disk (stores_of (snd (demo_serve (write_file [Privacy.demo_hold])))) !! "audit.jsonl" = Privacy.demo_dir !! "audit.jsonl".
Proof.
  refine (proj1 (v1_holds_respected (fun _ => "0") demo_env None (fun s => s) demo_parse PostErase demo_clocks demo_call demo_fresh
    (demo_api (write_file [Privacy.demo_hold])) LegalHold.audit "audit.jsonl" _ _ _)).
  - vm_compute. discriminate.
  - apply list_elem_of_here.
  - by left.
Defined.
End Demo.
