(* ===== verification/ScheduleRoutes.v ===== *)
(** The routes of what runs on a schedule: [web/app/api/watches] with [[id]], and
    of [web/app/api/digest] the subscriptions with [[id]], the deliveries and the
    preview. A body is [None] when it does not parse. The preview is the digest
    itself; its text and HTML are presentation. [Number(x)], [String(x)], the
    protocol of a URL, percentages and the order of numbers in a digest are
    parameters. *)
From S2P Require Import Prelude JsNum JsDate IsoTime Json Store.
From S2P Require Activity Runs Watches Digest V1Routes AdminRoute.
Import AdminRoute(reply, Refused, Answer, Raised).
Import Watches(Watch, w_ticker, w_lookback, cadence_hours) Digest(DigestSub, DigestDelivery).
#[local] Existing Instances Watches.watches_persisted Digest.subs_persisted Digest.log_persisted Runs.runs_persisted Activity.events_persisted.

Record world := World {
  watches : file (list Watch); subs : file (list DigestSub); log : file (list DigestDelivery); feed : file (list Activity.ActivityEvent);
  runs : file (list Runs.SavedRun) }.

Definition with_watches f (w : world) : world := World f (subs w) (log w) (feed w) (runs w).
Definition with_subs f (w : world) : world := World (watches w) f (log w) (feed w) (runs w).

Record request := { body : option json; query : gmap string string; f_id : string; f_secret : string; f_event : string; f_now : Z }.

Inductive answer :=
| Watching (l : list Watch) (total limit : Z)
| OneWatch (x : Watch)
| Subscriptions (l : list DigestSub)
| Subscription (x : DigestSub)
| Removed
| Deliveries (l : list DigestDelivery)
| Preview (d : Digest.Digest).

Section Routes.
Context (Number_of : jval -> num) (String_of : json -> string) (protocol_of : string -> option string) (fmtPct : num -> string).

Section Request.
Context (req : request).

Definition recordSafe (title text href : string) (w : world) : world :=
  World (watches w) (subs w) (log w)
    (Activity.recordSafe {| Activity.i_kind := "system"; Activity.i_title := Some (JStr title); Activity.i_body := Some (JStr text);
       Activity.i_href := Some (JStr href) |} (f_event req) (f_now req) (feed w)) (runs w).

(** ** Watches *)

Definition watch_refusal (e : Watches.WatchError) : Z * string :=
  match e with
  | Watches.bad_ticker => (400, "bad_ticker") | Watches.bad_lookback => (400, "bad_lookback") | Watches.bad_cadence => (400, "bad_cadence")
  | Watches.limit_reached => (409, "limit_reached") | Watches.duplicate => (409, "duplicate")
  end.

Definition watches_GET (w : world) : reply answer * world :=
  let l := Watches.listWatches (watches w) in (Answer 200 (Watching l (len l) Watches.MAX_WATCHES), w).

(** The fields of [null] are read. *)
Definition watches_POST (w : world) : reply answer * world :=
  match body req with
  | None => (Refused 400 "bad_json", w)
  | Some JNull => (Raised, w)
  | Some b =>
      let '(r, f) := Watches.createWatch Number_of b (f_id req) (f_now req) (watches w) in
      match r with
      | Err e => (Refused (watch_refusal e).1 (watch_refusal e).2, with_watches f w)
      | Ok x =>
          (Answer 201 (OneWatch x),
           recordSafe ("Watch" +:+ V1Routes.middot +:+ "created " +:+ w_ticker x)
             ("every " +:+ pretty (cadence_hours x) +:+ "h, " +:+ pretty (w_lookback x) +:+ "d lookback") "/watches" (with_watches f w))
      end
  end.

Definition watch_GET (i : string) (w : world) : reply answer * world :=
  (match Watches.getWatch i (watches w) with Some x => Answer 200 (OneWatch x) | None => Refused 404 "not_found" end, w).

Definition watch_PATCH (i : string) (w : world) : reply answer * world :=
  match body req with
  | None => (Refused 400 "bad_json", w)
  | Some b =>
      match field "enabled" b with
      | Some (JBool on) =>
          let '(r, f) := Watches.setEnabled i on (watches w) in
          (match r with Some x => Answer 200 (OneWatch x) | None => Refused 404 "not_found" end, with_watches f w)
      | _ => (Refused 400 "bad_input", w)
      end
  end.

Definition watch_DELETE (i : string) (w : world) : reply answer * world :=
  match Watches.getWatch i (watches w) with
  | None => (Refused 404 "not_found", w)
  | Some x =>
      let '(ok, f) := Watches.deleteWatch i (watches w) in
      if negb ok then (Refused 404 "not_found", with_watches f w)
      else (Answer 200 Removed,
            recordSafe ("Watch" +:+ V1Routes.middot +:+ "removed " +:+ w_ticker x) ("cadence " +:+ pretty (cadence_hours x) +:+ "h") "/watches" (with_watches f w))
  end.

(** ** Digest subscriptions *)

Definition cadence_text (c : Digest.Cadence) : string := match c with Digest.daily => "daily" | Digest.weekly => "weekly" end.

Definition subscriptions_GET (w : world) : reply answer * world := (Answer 200 (Subscriptions (Digest.listSubs (subs w))), w).

Definition subscriptions_POST (w : world) : reply answer * world :=
  match body req with
  | None => (Refused 400 "invalid_json", w)
  | Some b =>
      let '(r, f) := on_file (Digest.create_tx Number_of protocol_of b (f_id req) (f_secret req) (f_now req)) (subs w) in
      match r with
      | Err _ => (Refused 400 "invalid_input", with_subs f w)
      | Ok x =>
          (Answer 201 (Subscription x),
           recordSafe ("Digest subscription created: " +:+ Digest.s_lbl x) (cadence_text (Digest.cadence x) +:+ " cadence to " +:+ Digest.s_url x)
             "/digest" (with_subs f w))
      end
  end.

Definition subscription_GET (i : string) (w : world) : reply answer * world :=
  (match Digest.getSub i (subs w) with Some x => Answer 200 (Subscription x) | None => Refused 404 "not_found" end, w).

(** The fields of [null] are read once the subscription is found. *)
Definition subscription_PATCH (i : string) (w : world) : reply answer * world :=
  match body req with
  | None => (Refused 400 "invalid_json", w)
  | Some JNull => (match Digest.getSub i (subs w) with Some _ => Raised | None => Refused 404 "not_found" end, w)
  | Some b =>
      let '(r, f) := on_file (Digest.update_tx Number_of protocol_of String_of i b) (subs w) in
      (match r with Some x => Answer 200 (Subscription x) | None => Refused 404 "not_found" end, with_subs f w)
  end.

Definition subscription_DELETE (i : string) (w : world) : reply answer * world :=
  let '(ok, f) := on_file (Digest.delete_tx i) (subs w) in
  (if ok then Answer 200 Removed else Refused 404 "not_found", with_subs f w).

Definition deliveries_GET (w : world) : reply answer * world :=
  let limit := match query req !! "limit" with
               | Some s => let n := Number_of (Some (JStr s)) in
                           if is_finite n && num_le (int 1) n && num_le n (int 200) then Z.to_nat (floorZ n) else 50%nat
               | None => 50%nat
               end in
  (Answer 200 (Deliveries (Digest.listDeliveries (query req !! "subscription_id") limit (log w))), w).

Definition preview_GET (w : world) : reply answer * world :=
  let days := query req !! "days" in
  if match days with Some s => negb (is_finite (Number_of (Some (JStr s)))) | None => false end then (Refused 400 "bad_days", w)
  else
    let events := Activity.r_events (Activity.queryActivity {| Activity.q_kind := None; Activity.q_unreadOnly := false;
                                       Activity.q_limit := Some 200; Activity.q_offset := None |} (feed w)) in
    (Answer 200 (Preview (Digest.buildDigest Number_of fmtPct events (Runs.listRuns (runs w)) (Some (match days with Some s => JNum (int (Digest.clampDays Number_of (Some (JStr s)))) | None => JNum (int (Digest.clampDays Number_of (Some (JNum (int 7))))) end)) (f_now req))), w).
End Request.

Inductive call :=
| ListWatches | CreateWatch | GetWatch (i : string) | PatchWatch (i : string) | DeleteWatch (i : string)
| ListSubs | CreateSub | GetSub (i : string) | PatchSub (i : string) | DeleteSub (i : string) | ListDeliveries | PreviewDigest.

Definition serve (c : call) (req : request) : world -> reply answer * world :=
  match c with
  | ListWatches => watches_GET | CreateWatch => watches_POST req | GetWatch i => watch_GET i | PatchWatch i => watch_PATCH req i
  | DeleteWatch i => watch_DELETE req i | ListSubs => subscriptions_GET | CreateSub => subscriptions_POST req | GetSub i => subscription_GET i
  | PatchSub i => subscription_PATCH req i | DeleteSub i => subscription_DELETE i | ListDeliveries => deliveries_GET req
  | PreviewDigest => preview_GET req
  end.

Definition serve_all (rs : list (call * request)) (w : world) : world := fold_left (fun w '(c, req) => snd (serve c req w)) rs w.

(** ** What a request does *)

(** One event in the feed. *)
Definition noted (w w' : world) : Prop :=
  exists input i now, feed w' = Activity.recordSafe input i now (feed w) /\ log w' = log w /\ runs w' = runs w.
Definition unnoted (w w' : world) : Prop := feed w' = feed w /\ log w' = log w /\ runs w' = runs w.

(** Beyond the answer: what an answered request leaves. *)
Definition settled (c : call) (a : answer) (w w' : world) : Prop :=
  let l := read_file (watches w) in let l' := read_file (watches w') in
  let u := read_file (subs w) in let u' := read_file (subs w') in
  match c, a with
  | CreateWatch, OneWatch x => l' = x :: l /\ len l < Watches.MAX_WATCHES /\ subs w' = subs w /\ noted w w'
  | PatchWatch i, OneWatch x => exists n y on, Watches.find_watch i l = Some (n, y) /\ x = Watches.with_enabled on y /\ l' = <[n := x]> l /\ subs w' = subs w /\ unnoted w w'
  | DeleteWatch i, Removed => exists n y, Watches.find_watch i l = Some (n, y) /\ l' = delete n l /\ subs w' = subs w /\ noted w w'
  | CreateSub, Subscription x => u' = u ++ [x] /\ watches w' = watches w /\ noted w w'
  | PatchSub i, Subscription x => exists n y b, Digest.find_sub i u = Some (n, y) /\ x = Digest.merged Number_of protocol_of String_of b y /\ u' = <[n := x]> u /\ watches w' = watches w /\ unnoted w w'
  | DeleteSub i, Removed => u' = filter (fun x => Digest.s_id x <> i) u /\ len u' < len u /\ watches w' = watches w /\ unnoted w w'
  | (CreateWatch | PatchWatch _ | DeleteWatch _ | CreateSub | PatchSub _ | DeleteSub _), _ => False
  | _, _ => w' = w
  end.

Lemma same_watches w : with_watches (watches w) w = w.
Proof. by destruct w. Qed.
Lemma same_subs w : with_subs (subs w) w = w.
Proof. by destruct w. Qed.

(** A transaction that writes nothing leaves the file; one that writes leaves what it wrote. *)
Lemma tx_watches {R} (tx : transaction (list Watch) R) f :
  snd (on_file tx f) = match snd (tx (read_file f)) with Some l => write_file l | None => f end.
Proof. unfold on_file. by destruct (tx (read_file f)). Qed.

Lemma create_settles req w :
  let '(r, w') := watches_POST req w in
  match r with Answer _ a => settled CreateWatch a w w' | _ => w' = w end.
Proof.
  unfold watches_POST. destruct (body req) as [b|]; [|done].
  assert (let '(r, f) := Watches.createWatch Number_of b (f_id req) (f_now req) (watches w) in
    match r with Err _ => f = watches w | Ok x => read_file f = x :: read_file (watches w) /\ len (read_file (watches w)) < Watches.MAX_WATCHES end) as Ht.
  { unfold Watches.createWatch, on_file, Watches.create_tx. destruct (Watches.validate Number_of b) as [v|]; [|done].
    destruct (Z.geb_spec (len (read_file (watches w))) Watches.MAX_WATCHES); [done|].
    by destruct (list_find _ _). }
  destruct b; try done; (destruct (Watches.createWatch _ _ _ _ _) as [[x|e] f]; [|by rewrite Ht, same_watches]);
    destruct Ht as [H1 H2]; (split_and!; [done|done|done|by eexists _, _, _]).
Qed.

Lemma watch_patch_settles req i w :
  let '(r, w') := watch_PATCH req i w in
  match r with Answer _ a => settled (PatchWatch i) a w w' | _ => w' = w end.
Proof.
  unfold watch_PATCH. destruct (body req) as [b|]; [|done]. destruct (field "enabled" b) as [[]|]; try done.
  unfold Watches.setEnabled, on_file, Watches.edit_tx. destruct (Watches.find_watch i _) as [[n y]|] eqn:E; [|apply same_watches].
  exists n, y, b0. by split_and!.
Qed.

Lemma delete_settles req i w :
  let '(r, w') := watch_DELETE req i w in
  match r with Answer _ a => settled (DeleteWatch i) a w w' | _ => w' = w end.
Proof.
  unfold watch_DELETE, Watches.getWatch, Watches.deleteWatch, on_file, Watches.delete_tx.
  destruct (Watches.find_watch i _) as [[n y]|] eqn:E; [|done]. exists n, y. split_and!; try done. by eexists _, _, _.
Qed.

Lemma subscribe_settles req w :
  let '(r, w') := subscriptions_POST req w in
  match r with Answer _ a => settled CreateSub a w w' | _ => w' = w end.
Proof.
  unfold subscriptions_POST. destruct (body req) as [b|]; [|done]. unfold on_file, Digest.create_tx, checked.
  destruct (Digest.validateSubInput _ _ _); [apply same_subs|]. split_and!; [done|done|by eexists _, _, _].
Qed.

Lemma update_settles req i w :
  let '(r, w') := subscription_PATCH req i w in
  match r with Answer _ a => settled (PatchSub i) a w w' | _ => w' = w end.
Proof.
  unfold subscription_PATCH. destruct (body req) as [b|]; [|done].
  assert (let '(r, f) := on_file (Digest.update_tx Number_of protocol_of String_of i b) (subs w) in
    match r with Some x => settled (PatchSub i) (Subscription x) w (with_subs f w) | None => f = subs w end) as Ht.
  { unfold on_file, Digest.update_tx. destruct (Digest.find_sub i _) as [[n y]|] eqn:E; [|done]. exists n, y, b. by split_and!. }
  destruct b; try (by destruct (Digest.getSub i (subs w)));
    (destruct (on_file _ _) as [[x|] f]; [exact Ht|rewrite Ht; apply same_subs]).
Qed.

Lemma unsubscribe_settles i w :
  let '(r, w') := subscription_DELETE i w in
  match r with Answer _ a => settled (DeleteSub i) a w w' | _ => w' = w end.
Proof.
  unfold subscription_DELETE, on_file, Digest.delete_tx. cbv zeta.
  destruct (Z.eqb_spec (len (filter (fun x => Digest.s_id x <> i) (read_file (subs w)))) (len (read_file (subs w)))) as [|Hne]; [apply same_subs|].
  split_and!; try done. cbn [subs with_subs]. rewrite read_write by done.
  pose proof (length_filter (fun x => Digest.s_id x <> i) (read_file (subs w))). unfold len in *. lia.
Qed.

(** What is not answered with success changes nothing; what is, changes what
    it answers for, and nothing else: a watch is put in front of fewer than 50, one
    is switched, one is taken out; a subscription is added, merged with the body or
    taken out; and the feed has one new event for a creation or a removal of a
    watch and for a new subscription. *)
Theorem schedule_requests_settle c req w :
  let '(r, w') := serve c req w in
  match r with Answer _ a => settled c a w w' | _ => w' = w end.
Proof.
  destruct c; cbn [serve];
    [done|apply create_settles|unfold watch_GET; by destruct (Watches.getWatch _ _)|apply watch_patch_settles|apply delete_settles|done|apply subscribe_settles
    |unfold subscription_GET; by destruct (Digest.getSub _ _)|apply update_settles|apply unsubscribe_settles|done|].
  unfold preview_GET. by destruct (match _ with Some _ => _ | None => _ end).
Qed.

(** ** The lists over time *)

(** What is trimmed of a URL its parser skips. *)
Context (protocol_trim : forall u, Digest.isHttpsLike protocol_of u = true -> Digest.isHttpsLike protocol_of (trim u) = true).

Definition sub_ok (x : DigestSub) : Prop := Digest.isHttpsLike protocol_of (Digest.s_url x) = true /\ truthy (Digest.s_lbl x) = true.

Definition lists_ok (w : world) : Prop := Watches.watches_ok (read_file (watches w)) /\ Forall sub_ok (read_file (subs w)).

Lemma or_else_truthy s t : truthy t = true -> truthy (Digest.or_else s t) = true.
Proof. unfold Digest.or_else. by destruct (truthy s) eqn:E. Qed.

Lemma new_sub_ok b i minted now : Digest.validateSubInput Number_of protocol_of b = None -> sub_ok (Digest.new_sub b i minted now).
Proof using All.
  unfold Digest.validateSubInput. intros Hv. destruct (field "url" b) as [[]|] eqn:Eu; try discriminate Hv.
  destruct (truthy (trim s)); cbn [negb] in Hv; [|discriminate Hv]. destruct (Digest.isHttpsLike protocol_of s) eqn:Ep; cbn [negb] in Hv; [|discriminate Hv].
  split; cbn; [rewrite Eu; by apply protocol_trim|by apply or_else_truthy].
Qed.

Lemma merged_ok b x : sub_ok x -> sub_ok (Digest.merged Number_of protocol_of String_of b x).
Proof using All.
  intros [H1 H2]. split; cbn.
  - destruct (field "url" b) as [v|]; [|done]. destruct (Digest.isHttpsLike protocol_of (Digest.text_of _ _)) eqn:E; [by apply protocol_trim|done].
  - destruct (field "label" b) as [v|]; [by apply or_else_truthy|done].
Qed.

(** The watches of a request are those of an operation, or as they were. *)
Lemma serve_watches c req w :
  read_file (watches (snd (serve c req w))) = read_file (watches w) \/
  exists e, read_file (watches (snd (serve c req w))) = Watches.step Number_of (read_file (watches w)) e.
Proof.
  pose proof (schedule_requests_settle c req w) as Ht. destruct (serve c req w) as [r w'] eqn:E. cbn [snd].
  destruct r as [?|s a|]; [left; by subst| |left; by subst].
  destruct c as [| |i|i|i| | | | | | |]; cbn [serve] in E.
  - left. by assert (w' = w) as -> by by destruct a.
  - right. unfold watches_POST in E. destruct (body req) as [b|]; [|done].
    exists (Watches.Create b (f_id req) (f_now req)). cbn [Watches.step].
    assert (read_file (snd (Watches.createWatch Number_of b (f_id req) (f_now req) (watches w))) =
            after (Watches.create_tx Number_of b (f_id req) (f_now req)) (read_file (watches w))) as Hv by by apply on_file_view.
    rewrite <- Hv. destruct b; try done; (destruct (Watches.createWatch _ _ _ _ _) as [[x|e] f]; [|done]); by injection E as _ _ <-.
  - left. by assert (w' = w) as -> by by destruct a.
  - right. destruct a; try done. destruct Ht as (n & y & on & Hf & -> & -> & _). exists (Watches.Enable i on). cbn [Watches.step].
    by rewrite Watches.after_edit, Hf.
  - right. destruct a; try done. destruct Ht as (n & y & Hf & -> & _). exists (Watches.Delete i). cbn [Watches.step]. by rewrite Watches.after_delete, Hf.
  - left. by assert (w' = w) as -> by by destruct a.
  - left. destruct a; try done. by destruct Ht as (_ & -> & _).
  - left. by assert (w' = w) as -> by by destruct a.
  - left. destruct a; try done. by destruct Ht as (n & y & b & _ & _ & _ & -> & _).
  - left. destruct a; try done. by destruct Ht as (_ & _ & -> & _).
  - left. by assert (w' = w) as -> by by destruct a.
  - left. by assert (w' = w) as -> by by destruct a.
Qed.

Lemma serve_subs c req w : Forall sub_ok (read_file (subs w)) -> Forall sub_ok (read_file (subs (snd (serve c req w)))).
Proof using All.
  intros Hs. pose proof (schedule_requests_settle c req w) as Ht. destruct (serve c req w) as [r w'] eqn:E. cbn [snd].
  destruct r as [?|s a|]; [by subst| |by subst].
  destruct c as [| |i|i|i| | | | | | |]; cbn [serve] in E; destruct a; try done; try (by assert (w' = w) as -> by exact Ht).
  - by destruct Ht as (_ & _ & -> & _).
  - by destruct Ht as (n & y & on & _ & _ & _ & -> & _).
  - by destruct Ht as (n & y & _ & _ & -> & _).
  - destruct Ht as (-> & _). apply Forall_app. split; [done|]. apply Forall_singleton.
    unfold subscriptions_POST in E. destruct (body req) as [b|]; [|done]. unfold on_file, Digest.create_tx, checked in E.
    destruct (Digest.validateSubInput _ _ b) eqn:Ev; [done|]. injection E as _ <- _. by apply new_sub_ok.
  - destruct Ht as (n & y & b & Hf & -> & -> & _). apply list_find_lookup in Hf as [Hn _].
    apply Forall_insert; [done|]. apply merged_ok. by eapply Forall_lookup_1.
  - destruct Ht as (-> & _). rewrite Forall_forall in *. intros x [_ Hx]%list_elem_of_filter. by apply Hs.
Qed.

(** Whatever requests follow each other, there are at most 50 watches, of
    distinct ticker, lookback and cadence and each within its bounds, and every
    subscription has a label and a URL whose scheme is http or https. *)
Theorem schedule_stays_valid rs w : lists_ok w -> lists_ok (serve_all rs w).
Proof using All.
  unfold serve_all. revert w. induction rs as [|[c req] rs IH]; intros w [Hw Hs]; [done|]. cbn [fold_left]. apply IH. split; [|by apply serve_subs].
  destruct (serve_watches c req w) as [->|[e ->]]; [done|by apply Watches.watches_step_ok].
Qed.

(** The body [null] throws where a watch is created. *)
Lemma null_watch_throws req w : body req = Some JNull -> fst (serve CreateWatch req w) = Raised.
Proof. intros Hb. cbn [serve]. unfold watches_POST. by rewrite Hb. Qed.
End Routes.

(** ** A watch and a subscription *)
Section Demo.
Definition demo_number (v : jval) : num := match v with Some (JNum n) => n | _ => NaN end.
Definition demo_request (b : json) : request :=
  {| body := Some b; query := ∅; f_id := "w1"; f_secret := "minted-secret"; f_event := "e1"; f_now := 1767225600000 |}.
Definition demo_watch : json := JObj [("ticker", JStr "spy"); ("lookback_days", JNum (int 90)); ("cadence_hours", JNum (int 24))].
Definition demo_world : world := World None None None None None.
Definition demo_serve (c : call) (b : json) (w : world) := serve demo_number (fun _ => "") (fun _ => Some "https:") (fun _ => "") c (demo_request b) w.

Example watch_created :
  let '(r, w) := demo_serve CreateWatch demo_watch demo_world in
  Watches.w_id <$> read_file (watches w) = ["w1"] /\ length (read_file (feed w)) = 1%nat.
Proof. vm_compute. done. Qed.

Lemma schedule_stays_valid_witness :
  lists_ok (fun _ => Some "https:")
    (serve_all demo_number (fun _ => "") (fun _ => Some "https:") (fun _ => "")
      [(CreateWatch, demo_request demo_watch); (CreateSub, demo_request (JObj [("url", JStr " https://hooks.example.com ")]))] demo_world).
Proof.
  apply (schedule_stays_valid demo_number (fun _ => "") (fun _ => Some "https:") (fun _ => "")); [done|].
  split; [|by constructor]. split_and!; [vm_compute; discriminate|constructor|constructor].
Defined.
End Demo.
